(* ===== verification/_CoqProject ===== *)
-Q . S2P
Prelude.v
PyFloat.v
Sha256.v
PyVal.v
Json.v
Greedy.v
SchedulerState.v
Calibration.v
Deployment.v
Rebalancer.v
Scheduler.v
SchedulerExamples.v
Transport.v
TrajectoryStore.v
Generation.v
Experts.v
SessionManager.v
Routing.v
Tito.v
Segments.v
Offload.v
Chat.v
Pipeline.v
Hooks.v
Lineages.v
ProxyRuns.v
ProxyTheorems.v
ProxyExamples.v
Finalize.v
FinalizeTheorems.v
Samples.v
Rewards.v
Staleness.v
Mopd.v
Convert.v
DataSource.v
Backend.v
Prewarm.v
RolloutGroups.v
AsyncRollout.v
SyncRollout.v
ExecuteCmds.v
Effects.v
Dispatch.v
BlackboxClient.v
Config.v
Paddock.v
ServerModels.v
BlackboxServer.v
ServerTurns.v
TurnErrors.v
BackendWait.v
Slots.v
SlotTheorems.v
LlmConvert.v
LlmStream.v
LlmTheorems.v
LlmRequests.v
LlmProxy.v
LlmProxyTheorems.v
