(* ===== verification/Prelude.v ===== *)
(** * Dressage: a verification development

    Dressage runs language-model agents against an inference cluster, records what
    they generated token by token, and turns the recordings into training batches.
    This library models the parts of it that decide what is run, what is recorded and what
    is trained on, and proves what those parts promise each other.

    ** The program and its models

    A request of an agent reaches the proxy ([src/dressage/proxy/]).  The handler
    ([_chat_completions_pipeline] of server.py) finds the session and turn it belongs to
    (session_manager.py), decides which recorded step it continues ([_select_route]),
    extends that step's tokens by those of the new messages (tito/), leases an engine
    (rebalancing/scheduler.py with greedy.py, scheduler_state.py and
    transfer_calibrator.py) and runs a generation that a weight update may preempt and
    resume (generation_controller.py).  Hooks run around tool calls (tool_call_hooks.py),
    the rows of routed experts are cut to the step (routed_experts.py), and the step is
    recorded, its large fields in a transfer queue if there is one (transport/).
    A finalized session is split into segments whose records enter the trajectory store
    (trajectory_store.py).  The rollout side
    ([src/dressage/rollout/], [src/dressage/training/]) reads segments back, writes
    training samples (artifacts/samples.py, multi_segment.py), drops stale groups
    (staleness.py), normalizes rewards (reward_post_process.py), routes samples to
    distillation teachers (mopd.py) and builds the batch (convert_samples.py).

    The rollouts themselves start from groups of prompts (data_source.py), kept in generation
    by one of three loops (fully_async_rollout.py, partial_async_rollout.py,
    sync_rollout.py).  One rollout (generate/blackbox_dispatch.py) takes a sandbox that was
    started ahead (prewarm/) or starts one through the paddock (paddock/blackbox/), which
    asks a provider; on a node, the local provider's supervisor leases slots
    ([src/dressage/sandbox/local/bwrap/]).  In the sandbox runs the blackbox server
    ([src/blackbox_server/]), which the rollout talks to through client.py: it registers one
    session, runs the agent turn by turn, and its model proxy translates the agent's requests
    to chat completions and sends them to the proxy above, so the circle closes.

    - [Prelude]: exceptions and the [result] monad, ordered dictionaries ([dget],
      [dset], [dpop]), stable sorting, minima over total orders ([TotalLt]), tactics and
      the hint database [dressage].
    - [PyFloat], [PyVal], [Json], [Sha256]: the parts of Python the code computes with;
      binary64 floats, dynamic values with [==], [str], [int], [float], the [json]
      module, and [hashlib.sha256].
    - [Greedy]: rebalancing/greedy.py, [choose_greedy_step] and everything it calls.
    - [SchedulerState]: rebalancing/scheduler_state.py, the pool state machine.
    - [Calibration]: rebalancing/model_cache_profile.py and transfer_calibrator.py,
      cache profiles, calibration plans and their measurement.
    - [Deployment], [Rebalancer]: rebalancing/scheduler.py.  The first reads an engine's
      description and its loads; the second is [EngineRebalancer], one definition per
      section that holds its lock: [acquire] with its rollback, [complete], [fail],
      [poll_begin] and [poll_end] around a load request, [refresh_locked].
    - [Scheduler], [SchedulerExamples]: its theorems, over events in any order.
    - [Transport]: transport/fields.py and layouts.py, wire records and layouts.
    - [TrajectoryStore]: trajectory_store.py, every operation of the store.
    - [Generation]: generation_controller.py, the coroutines [generate_preemptible],
      [pause], [shutdown], [resume] and [synchronize_version] over a shared controller.
    - [Experts]: routed_experts.py, [canonicalize_routed_experts].
    - [SessionManager]: session_manager.py, sessions, turns, lineages, the prefix index.
    - [Routing]: [_select_route] of server.py with its helpers.
    - [Tito]: tito/template_utils.py and tito_tokenizer.py, incremental tokenization.
    - [Segments]: the splits of a session and the segment records of server.py.
    - [Offload]: transport/runtime.py and store.py.  The queue is the class [KV] with the
      laws [KVLaws]; [MapKV] is an instance.
    - [Chat]: the version checks, sampling parameters, stop markers, answers and
      pseudo-streams of server.py.
    - [Pipeline]: the handler of one request, cut at its awaits into [enter_request],
      [acquire_request] (up to the generation) and [finish_request] (from its result), on
      the held session's state; [px_step] lets any number of requests, sweeps,
      finalizations and discards take such sections in any order.
    - [Hooks]: tool_call_hooks.py.
    - [Lineages], [ProxyRuns], [ProxyTheorems], [ProxyExamples]: what a section preserves
      of a session, the invariant of a run, the theorems about runs, and a concrete proxy.
    - [Finalize], [FinalizeTheorems]: the finalize, discard and read handlers.
    - [Samples]: rollout/artifacts/samples.py, [write_sample_from_segment].
    - [Rewards]: multi_segment.py's expansion and training/reward_post_process.py.
    - [Staleness]: rollout/staleness.py, the version window over groups.
    - [Mopd]: rollout/mopd.py, configuration parsing and teacher routing.
    - [Convert]: rollout/convert_samples.py, the training batch.
    - [DataSource]: rollout/data_source.py, rows, epochs, mixtures and the retry buffer.
    - [Backend], [Config]: the options of an agent backend and the runtime defaults.
    - [Prewarm]: rollout/prewarm/ and paddock/lifecycle.py, sandboxes started ahead.
    - [RolloutGroups], [AsyncRollout], [SyncRollout]: the rollout loops; the worker and the
      call of the asynchronous modes are two machines interleaved by [system_step].
    - [ExecuteCmds], [Effects], [Dispatch]: commands around a turn, a program logic for code
      with state and exceptions, and one rollout from its sandbox to its samples.
    - [BlackboxClient]: client.py and http_retry.py, retries, polling and errors of turns.
    - [Paddock]: the blackbox paddock and the leases of sandboxes it owns.
    - [ServerModels], [BlackboxServer], [ServerTurns], [BackendWait]: the blackbox server;
      its data and fingerprints, its requests and turns as tasks cut at their awaits, the
      theorems about every run, and the wait for a backend.
    - [TurnErrors]: the two ways the error of a turn takes from the server to the rollout.
    - [Slots], [SlotTheorems]: the supervisor's slots and leases on a node, and its runs.
    - [LlmConvert], [LlmStream], [LlmTheorems]: the translations between the model APIs,
      complete and streamed, and their theorems.
    - [LlmRequests], [LlmProxy], [LlmProxyTheorems]: the model proxy; what is done with one
      request, its turns and pauses with requests as tasks, and the theorems about its runs.

    Names follow the source; a class's fields are a record's fields, an operation takes
    the state and returns the new one, and a function that may raise returns a [result].

    ** What the theorems show

    Concurrency ([Generation]).  [quiesced_pause_safe]: after a pause or shutdown
    reported quiescence and until a resume takes effect, no selected request is in
    flight, in every interleaving.  [generation_stitched], [active_requests_exact],
    [pinned_generation]: a result is the concatenation of its chunks with aligned
    versions and logprobs, the registry of active requests is exact, and pinned
    generations carry only their version and epoch.  [shutdown_then_pause_strands]
    shows a lost wake-up: a pause after shutdown leaves a suspended generation waiting.

    The proxy, in every interleaving of its requests in which no session is discarded while
    one of its requests is generating: with a transfer queue the discard endpoint waits for
    the request lock, without one it does not.  [tito_segments_exact]: the tokens
    of a lineage segment are exactly what its last step sent and received.
    [session_one_version]: without partial rollout a session never mixes weights.
    [generating_request_sound]: what a generating request holds and sends.
    [answer_accounted]: every answer says whether a step was recorded.
    [discard_crosses_sessions] is a run without a transfer queue in which such a discard lets
    a step enter a session it does not belong to.  [finalize_publishes], [finalize_failure_changes_nothing] and
    [finalize_idempotent] are the contract of finalization, proved from the same
    invariant; [lineage_split_partition], [merge_tokens_spec], [canonicalize_exact],
    [strip_public_stop_markers_spec] and [pseudo_stream_faithful] that of its parts, and
    [hook_dispatched_once] and [hook_dispatch_order] that of the hooks.

    Sessions and routing.  [session_manager_invariant] holds after any sequence of
    operations; [locked_session_kept] (until the session is unlocked, finalized or
    discarded), [finalized_session_closed] and
    [turn_history_forward] are safety properties of those sequences;
    [append_only_replay] and [append_only_iff] characterize the continuation test;
    [candidates_complete] the prefix index.  [select_route_sound] says which step is
    continued and [select_route_deterministic] that set iteration order is irrelevant.

    Placement.  [greedy_selection_sound], [greedy_order_independent]: the decision is
    near-minimal, sticky, and independent of edge order.
    [pool_state_refines_history]: the pool's state is a function of its readiness history.
    [scheduling_load_exact]: the load added to a snapshot is exactly that of the
    outstanding leases the snapshot has not seen, in every interleaving; [acquire_sound]
    and [acquire_atomic]: a lease is sound, and a failed acquisition leaves nothing;
    [complete_half_done] is a completion that raises half-way.
    [calibration_completes]: when a calibration run completes a plan.

    Storage and transport.  Writes keep the two indexes in agreement
    ([write_items_index_agreement]) and roll back from any interruption
    ([write_items_rollback]); [pop_trajectory_exact] removes exactly what it returns;
    [write_many_finalized_complete] describes accepted batches;
    [read_batch_stale_trajectory_index] proves that batch draining breaks the agreement.
    [layout_roundtrip], [concatenated_logprobs_aligned] and [normalize_logprobs_spec]
    are about layouts.  [offloaded_trajectory] and [sweep_expired_exact]: a session's
    references are complete, clearing them clears nothing else, and retention removes
    exactly what has expired.

    Training data.  [write_sample_aligned], [version_spans_roundtrip],
    [expand_segments_sound], [trajectory_advantage], [staleness_window],
    [teacher_ids_iff], [mopd_config_closed], [rollout_ids_filled],
    [train_columns_aligned] and [loss_denominators] follow a segment to the loss: its
    tokens, masks and logprobs stay aligned, all segments of a trajectory share the
    advantage of the last one and one teacher, and the denominators count exactly the live
    tokens.  [nan_weight_accepted] is a weight the configuration check should refuse.

    Rollouts.  [groups_accounted]: no prompt group is lost or given out twice by the worker
    and the call, in every interleaving; [partial_keeps_groups]: the groups a partial rollout
    took beyond its batch are kept; [batch_exact], [failed_group_retried],
    [sync_rollout_ends]: what a batch holds, when a group is retried, and that the synchronous
    loop ends with the result or the placeholder of every group.  [epochs_deliver_rows] and [issued_identities] are
    about the data source.  [rollout_releases_sandbox], [rollout_settles_session] and
    [rollout_result]: whatever fails, a rollout gives its sandbox to a release, and
    finalizes or discards its session.  [prewarm_single_owner] and [lease_single_owner]: a
    sandbox always has exactly one owner, if no trajectory is initialised twice in a paddock
    ([reinit_forgets_lease]).  [request_retried] and [stage_records] are about the client and
    the commands; [turn_error_classified] says that the rollout classifies a failed turn the
    same whether it waited for it or polled it.

    The blackbox server, in every interleaving.  [session_contract], [settled_turn_final],
    [submission_admitted]: a turn runs at most once and one at a time, a settled turn never
    changes, the history is what was sent and answered.  [fingerprint_text_faithful],
    [get_or_create_capacity]: what idempotency and eviction rest on.
    [aborted_session_runs_turn], [shutdown_then_ready] and [pause_during_call_counted] show
    what is not promised.

    Slots.  [lease_starts_clean], [one_slot_per_trajectory] and [archive_name_fresh] hold of
    every run of a supervisor; [late_check_loses_slot] is a run that loses a slot.

    Model APIs.  [sse_chunking], [keepalive_prelude]: how bytes are cut into chunks does not
    matter.  [anthropic_stream_content], [response_stream_items]: what a streamed answer
    says is what the model said.  [response_round_trip], [anthropic_round_trip]: an answer
    that an agent sends back is the message it came from, so the proxy recognizes the
    conversation it continues.  [requests_accounted], [turn_drains],
    [drain_excludes_pauses], [forwarded_headers]: the requests of a turn are counted
    exactly, draining it waits for them, and they carry the session they are bound to.
    [interleaved_calls_reopen], [line_separator_loses_chunk] and
    [unread_error_never_drains] show where this fails.

    ** Modelling decisions

    Strings are their UTF-8 byte strings, so code-point order is byte order; [strip]
    and [lower] act on ASCII.  Floats are binary64 with the kernel's executable
    [spec_float].  The decimal text of floats and the display of containers are the class
    [PyText]; Python's [sum] of floats and [**] are parameters [py_sum] and [py_pow],
    the chat template is [render] or [template], the tokenizer's encoder is [encode], and
    base64, the model-output parsers, the import of a hook, name resolution and the
    calibration benchmark are parameters too.  Clock
    readings and uuids are arguments of the operations that draw them, and the order of
    a Python set is an arbitrary permutation.  Exception messages keep the literal head
    only.  A request reads its clock once.  A scheduling trace keeps the decision, not the
    engine observations beside it, and a count the float arithmetic of [Greedy] reads is
    exact below 2^53.  Coroutines are cut at their awaits and interleaved arbitrarily; what they
    wait for is the environment's.  Cancellation is a step of the dispatch, the paddock, the
    blackbox server and the model proxy; the generation controller and the pipeline are
    modelled without it.

    Fuel appears in a few places, each shown or chosen to be enough: [json_loads] has one
    more unit than the text has characters ([loads_dumps] proves it suffices),
    [str_of_Z] one unit per binary digit ([str_of_Z_spec]), [next_free] one unit more
    than there are ids ([next_free_spec]), [split_loop] one per message ([split_loop_spec]), [strip_marker]
    ([strip_public_stop_markers_spec]), [text_chunks] and [remove_all] one per character,
    and SHA-256 iterates over its blocks.  [request_with_retry] is bounded by the configured
    attempts and [health_attempts] by its retries; [wait_loop] takes a round more than there
    are pauses ([wait_loop_ends]); an archive name is found within one suffix more than there
    are archives ([archive_name_fresh]); the synchronous rollout ends within a bound computed
    from its groups ([sync_rollout_ends]); the frames before a stream are read with one unit
    for each byte ([first_frame_fuel]).  Other loops recur on their data.
    Hypotheses of theorems about parameters are stated in the theorems and have
    witnesses with concrete functions.

    ** Not modelled

    Of the proxy: authentication, start and stop, heartbeats of a stream and monitoring
    endpoints, the SGLang client, the tool-call parsers, the machine preflight and the
    polling loops of the scheduler.  Of the sandboxes: the node manager, the runner in its
    namespaces and the remote providers.  Of the blackbox server: the adapters, which run
    agents as subprocesses.  The Harbor integration, recipes, reward tables and the torch,
    Megatron and Ray training code are process, network or tensor code outside the scope;
    metrics for logging and files written for debugging are left out throughout. *)

From stdpp Require Export base tactics list gmap strings sorting.
From Stdlib Require Export ZArith Lia Bool.

Set Default Goal Selector "!".

(** ** Exceptions and fallible computations *)

(** The Python exception classes the modelled code raises.  The message is the
    literal head of the source's message; interpolated values are left out. *)
Inductive exn : Type :=
| ValueError (msg : string)
| TypeError (msg : string)
| KeyError (msg : string)
| IndexError (msg : string)
| AssertionError (msg : string)
| RuntimeError (msg : string)
| AttributeError (msg : string)
| SessionFinalizedError (msg : string).

#[export] Instance exn_eq_dec : EqDecision exn.
Proof. solve_decision. Defined.

(** A Python call either returns a value or raises. *)
Inductive result (A : Type) : Type :=
| Ok (a : A)
| Raise (e : exn).
Arguments Ok {A} a.
Arguments Raise {A} e.

Definition res_bind {A B : Type} (m : result A) (k : A -> result B) : result B :=
  match m with
  | Ok a => k a
  | Raise e => Raise e
  end.

(** [if b: raise e] *)
Definition raise_if (b : bool) (e : exn) : result unit :=
  if b then Raise e else Ok tt.

Declare Scope py_scope.
Delimit Scope py_scope with py.
Notation "'let!' x ':=' m 'in' k" := (res_bind m (fun x => k))
  (at level 10, x binder, m at level 100, k at level 200) : py_scope.
Notation "'check!' b 'else' e ';;' k" := (res_bind (raise_if b e) (fun _ => k))
  (at level 10, b at level 99, e at level 99, k at level 200) : py_scope.

(** A comprehension whose body may raise: stops at the first exception. *)
Fixpoint mapM_res {A B : Type} (f : A -> result B) (l : list A) : result (list B) :=
  match l with
  | [] => Ok []
  | x :: l' =>
      match f x with
      | Ok y =>
          match mapM_res f l' with
          | Ok ys => Ok (y :: ys)
          | Raise e => Raise e
          end
      | Raise e => Raise e
      end
  end.

(** ** Insertion-ordered dictionaries *)

(** A Python [dict] whose iteration order is observed: an association list in
    insertion order.  [dset] overwrites in place or appends, as CPython does. *)
Section Dict.
Context {K V : Type} `{EqDecision K}.

Fixpoint dget (d : list (K * V)) (k : K) : option V :=
  match d with
  | [] => None
  | (k', v) :: d' => if decide (k = k') then Some v else dget d' k
  end.

Fixpoint dset (d : list (K * V)) (k : K) (v : V) : list (K * V) :=
  match d with
  | [] => [(k, v)]
  | (k', v') :: d' =>
      if decide (k = k') then (k', v) :: d' else (k', v') :: dset d' k v
  end.

Fixpoint dpop (d : list (K * V)) (k : K) : list (K * V) :=
  match d with
  | [] => []
  | (k', v') :: d' => if decide (k = k') then d' else (k', v') :: dpop d' k
  end.

Definition dkeys (d : list (K * V)) : list K := map fst d.

Definition dget_def (v0 : V) (d : list (K * V)) (k : K) : V :=
  match dget d k with Some v => v | None => v0 end.

Lemma dget_dset_eq d k v : dget (dset d k v) k = Some v.
Proof. induction d as [|[k' v'] d IH]; simpl; repeat (case_decide; simpl); congruence. Qed.

Lemma dget_dset_ne d k k' v : k <> k' -> dget (dset d k v) k' = dget d k'.
Proof.
  intros Hne. induction d as [|[k1 v1] d IH]; simpl;
    repeat (case_decide; simpl); congruence.
Qed.

Lemma dget_dset d k k' v :
  dget (dset d k v) k' = if decide (k = k') then Some v else dget d k'.
Proof. case_decide; [subst; apply dget_dset_eq | by apply dget_dset_ne]. Qed.

Lemma dget_dpop_ne d k k' : k <> k' -> dget (dpop d k) k' = dget d k'.
Proof.
  intros Hne. induction d as [|[k1 v1] d IH]; simpl;
    repeat (case_decide; simpl); congruence.
Qed.

Lemma dget_Some_key d k v : dget d k = Some v -> k ∈ dkeys d.
Proof.
  induction d as [|[k1 v1] d IH]; simpl; [done|].
  case_decide; intros; [subst; left | right; auto].
Qed.

Lemma dget_None_key d k : dget d k = None <-> k ∉ dkeys d.
Proof.
  split.
  - induction d as [|[k1 v1] d IH]; simpl; [set_solver|].
    case_decide; [done|]. intros ?; simpl. rewrite elem_of_cons. naive_solver.
  - destruct (dget d k) eqn:E; [|done]. by apply dget_Some_key in E.
Qed.

Lemma dkeys_dset d k v :
  dkeys (dset d k v) = if decide (k ∈ dkeys d) then dkeys d else dkeys d ++ [k].
Proof.
  induction d as [|[k1 v1] d IH]; simpl.
  - done.
  - destruct (decide (k = k1)) as [->|Hne]; simpl.
    + rewrite decide_True; [done | set_solver].
    + rewrite IH. clear IH. change (map fst d) with (dkeys d).
      destruct (decide (k ∈ dkeys d)), (decide (k ∈ k1 :: dkeys d)); try done; set_solver.
Qed.

Lemma dset_NoDup d k v : NoDup (dkeys d) -> NoDup (dkeys (dset d k v)).
Proof.
  rewrite dkeys_dset. case_decide; [done|].
  intros. apply NoDup_app. split_and!; [done | set_solver | apply NoDup_singleton].
Qed.

Lemma dkeys_dpop d k : NoDup (dkeys d) ->
  forall k', k' ∈ dkeys (dpop d k) <-> k' ∈ dkeys d /\ k' <> k.
Proof.
  induction d as [|[k1 v1] d IH]; simpl; intros Hnd k'.
  - set_solver.
  - apply NoDup_cons in Hnd as [Hk1 Hnd]. case_decide.
    + subst. change (map fst d) with (dkeys d) in *. rewrite elem_of_cons. naive_solver.
    + simpl. rewrite !elem_of_cons. change (map fst ?x) with (dkeys x).
      rewrite IH by done. naive_solver.
Qed.

Lemma dpop_NoDup d k : NoDup (dkeys d) -> NoDup (dkeys (dpop d k)).
Proof.
  induction d as [|[k1 v1] d IH]; simpl; [done|].
  intros Hnd. apply NoDup_cons in Hnd as [Hk1 Hnd]. case_decide; [done|].
  simpl. constructor; [|by apply IH].
  change (map fst ?x) with (dkeys x). rewrite dkeys_dpop by done.
  change (map fst d) with (dkeys d) in Hk1. naive_solver.
Qed.

Lemma dget_dpop_eq d k : NoDup (dkeys d) -> dget (dpop d k) k = None.
Proof.
  intros Hnd. apply dget_None_key. rewrite dkeys_dpop by done. naive_solver.
Qed.

Lemma dget_dpop d k k' : NoDup (dkeys d) ->
  dget (dpop d k) k' = if decide (k = k') then None else dget d k'.
Proof.
  intros. case_decide; [subst; by apply dget_dpop_eq | by apply dget_dpop_ne].
Qed.

Lemma dget_NoDup_elem d k v : NoDup (dkeys d) -> (k, v) ∈ d -> dget d k = Some v.
Proof.
  induction d as [|[k1 v1] d IH]; simpl; [set_solver|].
  intros [Hn Hnd]%NoDup_cons [[= <- <-]|Hin]%elem_of_cons; [by rewrite decide_True|].
  rewrite decide_False; [by apply IH|].
  intros ->. apply Hn, list_elem_of_fmap. by exists (k1, v).
Qed.

Lemma dget_elem d k v : dget d k = Some v -> (k, v) ∈ d.
Proof.
  induction d as [|[k1 v1] d IH]; simpl; [done|].
  case_decide; [intros [= <-]; subst; by left | intros; right; auto].
Qed.

Lemma dget_perm d d' k : NoDup (dkeys d) -> d ≡ₚ d' -> dget d k = dget d' k.
Proof.
  intros Hnd Hp.
  assert (NoDup (dkeys d')) as Hnd' by (unfold dkeys in *; by rewrite <- Hp).
  apply option_eq. intros v. split.
  - intros H%dget_elem. apply dget_NoDup_elem; [done | by rewrite <- Hp].
  - intros H%dget_elem. apply dget_NoDup_elem; [done | by rewrite Hp].
Qed.

(** A new key goes last; popping a key that is not there changes nothing, and popping one
    that is there takes out its entry. *)
Lemma dset_fresh d k v : k ∉ dkeys d -> dset d k v = d ++ [(k, v)].
Proof.
  induction d as [|[k' v'] d IH]; simpl; intros N; [done|].
  rewrite decide_False by set_solver. rewrite IH by set_solver. done.
Qed.

Lemma dpop_absent d k : dget d k = None -> dpop d k = d.
Proof.
  induction d as [|[k' v'] d IH]; [done|]. cbn [dget dpop]. case_decide as D; [done|]. intros E. by rewrite IH.
Qed.

Lemma dget_dpop_perm d k v : dget d k = Some v -> d ≡ₚ (k, v) :: dpop d k.
Proof.
  induction d as [|[k' v'] d IH]; simpl; [done|]. case_decide as D; [intros [= ->]; by subst|].
  intros E. rewrite (IH E) at 1. apply Permutation_swap.
Qed.
End Dict.

(** ** Stable sorting *)

(** Python's [sorted]: stable, by a total preorder on the keys.  [insert_by]
    puts [x] in front of the first element it does not exceed. *)
Section Sort.
Context {A : Type} (leb : A -> A -> bool).

Fixpoint insert_by (x : A) (l : list A) : list A :=
  match l with
  | [] => [x]
  | y :: l' => if leb x y then x :: l else y :: insert_by x l'
  end.

Definition sort_by (l : list A) : list A := foldr insert_by [] l.

Lemma insert_by_perm x l : insert_by x l ≡ₚ x :: l.
Proof.
  induction l as [|y l IH]; simpl; [done|]. destruct (leb x y); [done|].
  rewrite IH. apply Permutation_swap.
Qed.

Lemma sort_by_perm l : sort_by l ≡ₚ l.
Proof. induction l as [|x l IH]; simpl; [done|]. by rewrite insert_by_perm, IH. Qed.

Lemma sort_by_length l : length (sort_by l) = length l.
Proof. by rewrite sort_by_perm. Qed.

Lemma elem_of_sort_by x l : x ∈ sort_by l <-> x ∈ l.
Proof. by rewrite sort_by_perm. Qed.

Context (leb_total : forall x y, leb x y = true \/ leb y x = true).
Context (leb_trans : forall x y z, leb x y = true -> leb y z = true -> leb x z = true).

Lemma insert_by_sorted x l :
  StronglySorted (fun a b => leb a b = true) l ->
  StronglySorted (fun a b => leb a b = true) (insert_by x l).
Proof.
  induction 1 as [|y l Hs IH Hall]; simpl; [repeat constructor|].
  destruct (leb x y) eqn:E.
  - constructor; [by constructor|]. constructor; [done|].
    eapply Forall_impl; [exact Hall|]. simpl; eauto.
  - constructor; [done|]. rewrite insert_by_perm. constructor; [|done].
    destruct (leb_total x y); congruence.
Qed.

Lemma sort_by_sorted l : StronglySorted (fun a b => leb a b = true) (sort_by l).
Proof. induction l; simpl; [constructor | by apply insert_by_sorted]. Qed.
End Sort.

(** Sorting by a comparison that refines an integer key sorts by that key. *)
Section SortKey.
Context {A : Type} (leb : A -> A -> bool) (key : A -> Z).
Context (Hle : forall x y, leb x y = true -> (key x <= key y)%Z).
Context (Hgt : forall x y, leb x y = false -> (key y <= key x)%Z).

Lemma insert_by_key_sorted x l :
  StronglySorted (fun a b => (key a <= key b)%Z) l ->
  StronglySorted (fun a b => (key a <= key b)%Z) (insert_by leb x l).
Proof.
  induction 1 as [|y l Hs IH Hall]; simpl; [repeat constructor|].
  destruct (leb x y) eqn:E.
  - constructor; [by constructor|]. constructor; [auto|].
    eapply Forall_impl; [exact Hall|]. simpl. intros z ?. specialize (Hle _ _ E). lia.
  - constructor; [done|]. rewrite insert_by_perm. constructor; auto.
Qed.

Lemma sort_by_key_sorted l : StronglySorted (fun a b => (key a <= key b)%Z) (sort_by leb l).
Proof. induction l; simpl; [constructor | by apply insert_by_key_sorted]. Qed.

Lemma sort_by_keys_sorted l : StronglySorted Z.le (map key (sort_by leb l)).
Proof.
  induction (sort_by_key_sorted l) as [|x m Hs IH Hall]; simpl; constructor; [done|].
  apply Forall_map. eapply Forall_impl; [exact Hall | done].
Qed.
End SortKey.

(** Distinct integers of [0..n-1], [n] of them, in increasing order. *)
Lemma sorted_range (l : list Z) :
  StronglySorted Z.le l -> NoDup l -> (forall z, z ∈ l -> (0 <= z < Z.of_nat (length l))%Z) ->
  l = map Z.of_nat (seq 0 (length l)).
Proof.
  intros Hs Hnd Hr. apply (StronglySorted_unique Z.le); [done | |].
  - generalize 0%nat. generalize (length l). intros n. induction n as [|n IH]; intros a; simpl; constructor.
    + apply IH.
    + apply Forall_map, Forall_forall. intros k Hk%elem_of_seq. lia.
  - apply submseteq_length_Permutation; [|by rewrite length_map, length_seq].
    apply NoDup_submseteq; [done|]. intros z Hz. specialize (Hr z Hz).
    apply list_elem_of_fmap. exists (Z.to_nat z). rewrite elem_of_seq. lia.
Qed.

(** ** Python's [min(l, key)] and [next(..., None)] *)

(** [min]: the first element no later element is strictly below. *)
Fixpoint min_by {A : Type} (ltb : A -> A -> bool) (x : A) (l : list A) : A :=
  match l with
  | [] => x
  | y :: l' => if ltb y x then min_by ltb y l' else min_by ltb x l'
  end.

Definition find_first {A : Type} (p : A -> bool) (l : list A) : option A := List.find p l.

Lemma min_by_in {A} (ltb : A -> A -> bool) x l : min_by ltb x l = x \/ min_by ltb x l ∈ l.
Proof.
  revert x; induction l as [|y l IH]; intros x; simpl; [by left|].
  destruct (ltb y x).
  - right. destruct (IH y) as [-> | ?]; set_solver.
  - destruct (IH x) as [-> | ?]; set_solver.
Qed.

Lemma min_by_min {A} (ltb : A -> A -> bool) (P : A -> Prop)
  (Hirr : forall a, P a -> ltb a a = false)
  (Htr : forall a b c, P a -> P b -> P c -> ltb b a = false -> ltb c b = false -> ltb c a = false)
  (Htl : forall a b, P a -> P b -> ltb a b = true -> ltb b a = false) x l :
  P x -> Forall P l ->
  forall y, y = x \/ y ∈ l -> ltb y (min_by ltb x l) = false.
Proof.
  intros Hx Hl. revert x Hx. induction Hl as [|z l Hz Hl IH]; intros x Hx y Hy; simpl.
  - destruct Hy as [-> | Hy]; [by apply Hirr | set_solver].
  - assert (forall w, P w -> P (min_by ltb w l)) as HP.
    { intros w Hw. destruct (min_by_in ltb w l) as [-> | Hin]; [done|].
      rewrite Forall_forall in Hl. eauto. }
    destruct (ltb z x) eqn:E.
    + destruct Hy as [-> | [-> | Hy]%elem_of_cons].
      * apply (Htr _ z); auto.
      * apply IH; auto.
      * apply IH; auto.
    + destruct Hy as [-> | [-> | Hy]%elem_of_cons].
      * apply IH; auto.
      * apply (Htr _ x); auto.
      * apply IH; auto.
Qed.

(** ** Strict total orders decided by a boolean *)

Class TotalLt {A : Type} (ltb : A -> A -> bool) : Prop := {
  tlt_irrefl a : ltb a a = false;
  tlt_trans a b c : ltb a b = true -> ltb b c = true -> ltb a c = true;
  tlt_total a b : ltb a b = false -> ltb b a = false -> a = b }.

Section TotalLt.
Context {A : Type} (ltb : A -> A -> bool) `{!TotalLt ltb}.

Lemma tlt_asym a b : ltb a b = true -> ltb b a = false.
Proof.
  intros H. destruct (ltb b a) eqn:E; [|done].
  pose proof (tlt_trans _ _ _ H E) as H1. by rewrite tlt_irrefl in H1.
Qed.

Lemma tlt_neg_trans a b c : ltb b a = false -> ltb c b = false -> ltb c a = false.
Proof.
  intros H1 H2. destruct (ltb c a) eqn:E; [|done].
  destruct (ltb a b) eqn:Eab.
  - rewrite (tlt_trans _ _ _ E Eab) in H2. done.
  - rewrite (tlt_total _ _ H1 Eab) in H2. congruence.
Qed.

Lemma min_by_least x l y : y = x \/ y ∈ l -> ltb y (min_by ltb x l) = false.
Proof.
  apply (min_by_min ltb (fun _ => True)); eauto using tlt_irrefl, tlt_neg_trans, tlt_asym.
  by apply Forall_forall.
Qed.

(** The minimum of a list does not depend on the order of the list. *)
Lemma min_by_perm x l y l' : x :: l ≡ₚ y :: l' -> min_by ltb x l = min_by ltb y l'.
Proof.
  intros Hp. apply tlt_total; apply min_by_least; rewrite <- elem_of_cons.
  - rewrite <- Hp. rewrite elem_of_cons. apply min_by_in.
  - rewrite Hp. rewrite elem_of_cons. apply min_by_in.
Qed.
End TotalLt.

Lemma min_by_map {A B} (f : A -> B) (ltb : B -> B -> bool) x l :
  f (min_by (fun a b => ltb (f a) (f b)) x l) = min_by ltb (f x) (map f l).
Proof.
  revert x; induction l as [|y l IH]; intros x; simpl; [done|].
  by destruct (ltb (f y) (f x)).
Qed.

Lemma ascii_compare_eq a b : Ascii.compare a b = Eq <-> a = b.
Proof.
  unfold Ascii.compare. rewrite N.compare_eq_iff. split; [|by intros ->].
  intros H. rewrite <- (Ascii.ascii_N_embedding a), <- (Ascii.ascii_N_embedding b). by f_equal.
Qed.

Lemma string_compare_refl s : String.compare s s = Eq.
Proof.
  induction s as [|c s IH]; simpl; [done|].
  by rewrite (proj2 (ascii_compare_eq c c) eq_refl).
Qed.

Lemma string_compare_lt_trans a b c :
  String.compare a b = Lt -> String.compare b c = Lt -> String.compare a c = Lt.
Proof.
  revert b c; induction a as [|x a IH]; intros [|y b] [|z c]; simpl; try done.
  destruct (Ascii.compare x y) eqn:Exy, (Ascii.compare y z) eqn:Eyz; try done.
  - apply ascii_compare_eq in Exy, Eyz. subst.
    rewrite (proj2 (ascii_compare_eq z z) eq_refl). eauto.
  - apply ascii_compare_eq in Exy as ->. by rewrite Eyz.
  - apply ascii_compare_eq in Eyz as ->. by rewrite Exy.
  - intros _ _. unfold Ascii.compare in *.
    rewrite N.compare_lt_iff in Exy, Eyz.
    by rewrite (proj2 (N.compare_lt_iff _ _) (N.lt_trans _ _ _ Exy Eyz)).
Qed.

#[export] Instance string_ltb_total : TotalLt String.ltb.
Proof.
  split; unfold String.ltb.
  - intros a. by rewrite string_compare_refl.
  - intros a b c. destruct (String.compare a b) eqn:E1, (String.compare b c) eqn:E2; try done.
    by rewrite (string_compare_lt_trans _ _ _ E1 E2).
  - intros a b. rewrite (String.compare_antisym b a).
    destruct (String.compare a b) eqn:E; simpl; try done.
    intros _ _. by apply String.compare_eq_iff.
Qed.

(** ** Shared automation *)

Create HintDb dressage.
Create Rewrite HintDb dressage.
#[export] Hint Rewrite @dget_dset_eq : dressage.
#[export] Hint Resolve dset_NoDup dpop_NoDup : dressage.

(** Case analysis on the boolean tests and option scrutinees of a hypothesis
    that states what a fallible operation returned. *)
Ltac res_inv :=
  repeat match goal with
  | H : Ok _ = Ok _ |- _ => injection H as H
  | H : Ok ?x = Ok ?x |- _ => clear H
  | H : Raise _ = Raise _ |- _ => injection H as H
  | H : Ok _ = Raise _ |- _ => discriminate H
  | H : Raise _ = Ok _ |- _ => discriminate H
  | H : res_bind (raise_if ?b _) _ = _ |- _ =>
      let E := fresh "G" in
      destruct b eqn:E; cbn beta iota delta [res_bind raise_if] in H
  | H : res_bind ?m _ = Ok _ |- _ =>
      let E := fresh "E" in
      destruct m eqn:E; cbn beta iota delta [res_bind] in H; [|discriminate H]
  end.

(** Turn the decided booleans of the context into propositions. *)
Ltac bool_hyps :=
  repeat match goal with
  | H : _ && _ = true |- _ => apply andb_prop in H; destruct H
  | H : _ || _ = false |- _ => apply orb_false_elim in H; destruct H
  | H : negb _ = true |- _ => apply negb_true_iff in H
  | H : negb _ = false |- _ => apply negb_false_iff in H
  | H : bool_decide _ = true |- _ => apply bool_decide_eq_true in H
  | H : bool_decide _ = false |- _ => apply bool_decide_eq_false in H
  end.

Lemma mapM_res_Forall2 {A B} (f : A -> result B) l ys :
  mapM_res f l = Ok ys <-> Forall2 (fun x y => f x = Ok y) l ys.
Proof.
  revert ys; induction l as [|x l IH]; intros ys; simpl.
  - split; [intros [= <-]; constructor | by inversion 1].
  - split.
    + destruct (f x) eqn:Ef; [|done]. destruct (mapM_res f l) eqn:El; [|done].
      intros [= <-]. constructor; [done | by apply IH].
    + inversion 1 as [|? y ? ys' Hy Hys]; subst. rewrite Hy.
      apply IH in Hys. by rewrite Hys.
Qed.

Lemma mapM_res_length {A B} (f : A -> result B) l ys :
  mapM_res f l = Ok ys -> length ys = length l.
Proof. intros H%mapM_res_Forall2. symmetry. eapply Forall2_length, H. Qed.

Lemma elem_of_map_intro {A B} (f : A -> B) x l : x ∈ l -> f x ∈ map f l.
Proof. intros. apply list_elem_of_fmap. eauto. Qed.

#[export] Hint Resolve elem_of_map_intro : dressage.

(** [enumerate(l)] *)
Definition enumerate {A : Type} (l : list A) : list (nat * A) := imap pair l.

Lemma enumerate_lookup {A} (l : list A) i :
  enumerate l !! i = (fun x => (i, x)) <$> l !! i.
Proof. unfold enumerate. by rewrite list_lookup_imap. Qed.

Lemma elem_of_enumerate {A} (l : list A) i x : (i, x) ∈ enumerate l <-> l !! i = Some x.
Proof.
  unfold enumerate. rewrite elem_of_lookup_imap. naive_solver.
Qed.

(** ** Counting *)

Definition count_by {A} (f : A -> bool) (l : list A) : nat := length (List.filter f l).

Lemma count_by_app {A} (f : A -> bool) l k :
  count_by f (l ++ k) = (count_by f l + count_by f k)%nat.
Proof. unfold count_by. by rewrite List.filter_app, length_app. Qed.

Lemma count_by_insert {A} (f : A -> bool) (l : list A) i x y :
  l !! i = Some x ->
  (count_by f (<[i := y]> l) + Nat.b2n (f x))%nat = (count_by f l + Nat.b2n (f y))%nat.
Proof.
  revert i. induction l as [|z l IH]; intros [|i] E; simpl in *; try done.
  - injection E as ->. unfold count_by. simpl. destruct (f x), (f y); simpl; lia.
  - specialize (IH i E). unfold count_by in *. simpl. destruct (f z); simpl; lia.
Qed.

Lemma count_by_pos {A} (f : A -> bool) (l : list A) i x :
  l !! i = Some x -> f x = true -> (1 <= count_by f l)%nat.
Proof.
  intros E F. pose proof (count_by_insert f l i x x E) as C. rewrite F in C. simpl in C.
  assert (x ∈ List.filter f l) as I.
  { apply list_elem_of_In, filter_In. split; [|done]. by eapply list_elem_of_In, list_elem_of_lookup_2. }
  unfold count_by. destruct (List.filter f l); [by apply elem_of_nil in I|simpl; lia].
Qed.

(** Sorting commutes with a map the comparison does not see. *)
Lemma sort_by_map {A B} (leb : A -> A -> bool) (leb' : B -> B -> bool) (f : A -> B) l :
  (forall x y, leb' (f x) (f y) = leb x y) ->
  sort_by leb' (map f l) = map f (sort_by leb l).
Proof.
  intros E. assert (I : forall x m, insert_by leb' (f x) (map f m) = map f (insert_by leb x m)).
  { intros x m. induction m as [|y m IH]; [done|]. simpl. rewrite E.
    destruct (leb x y); [done|]. simpl. by rewrite IH. }
  induction l as [|x l IH]; [done|]. simpl. by rewrite IH, I.
Qed.

Lemma sort_by_id {A} (leb : A -> A -> bool) l :
  StronglySorted (fun x y => leb x y = true) l -> sort_by leb l = l.
Proof.
  induction 1 as [|x l Hs IH Hall]; [done|]. simpl. rewrite IH.
  destruct l as [|y l]; [done|]. simpl. by rewrite (Forall_inv Hall).
Qed.

Lemma filter_perm {A} (f : A -> bool) l l' : l ≡ₚ l' -> List.filter f l ≡ₚ List.filter f l'.
Proof.
  induction 1 as [|x l l' _ IH|x y l|l l1 l2 _ IH1 _ IH2]; simpl; [done| | |by rewrite IH1].
  - destruct (f x); [by rewrite IH|done].
  - destruct (f x), (f y); try done. apply Permutation_swap.
Qed.

(** ** Filtering by a key *)

Lemma filter_split_perm {A} (f : A -> bool) l :
  List.filter f l ++ List.filter (fun x => negb (f x)) l ≡ₚ l.
Proof.
  induction l as [|x l IH]; simpl; [done|]. destruct (f x); simpl; [by rewrite IH|].
  by rewrite <- Permutation_middle, IH.
Qed.

Lemma filter_and {A} (f g : A -> bool) l :
  List.filter f (List.filter g l) = List.filter (fun x => g x && f x) l.
Proof.
  induction l as [|x l IH]; simpl; [done|]. destruct (g x); simpl; [|done].
  by destruct (f x); rewrite IH.
Qed.

Lemma filter_all {A} (f : A -> bool) l : Forall (fun x => f x = true) l -> List.filter f l = l.
Proof. induction 1 as [|x l E F IH]; simpl; [done|]. by rewrite E, IH. Qed.

Lemma filter_none {A} (f : A -> bool) l : Forall (fun x => f x = false) l -> List.filter f l = [].
Proof. induction 1 as [|x l E F IH]; simpl; [done|]. by rewrite E. Qed.

(** Splitting a list by a key and joining the parts permutes it. *)
Lemma filter_parts {A} (key : A -> string) (ks : list string) : forall l : list A,
  NoDup ks -> Forall (fun x => key x ∈ ks) l ->
  concat (map (fun k => List.filter (fun x => String.eqb (key x) k) l) ks) ≡ₚ l.
Proof.
  induction ks as [|k ks IH]; intros l N F.
  - destruct l as [|x l]; [done|]. apply Forall_cons in F as [F _]. by apply not_elem_of_nil in F.
  - apply NoDup_cons in N as [Nk N]. cbn [map concat].
    transitivity (List.filter (fun x => String.eqb (key x) k) l
                  ++ List.filter (fun x => negb (String.eqb (key x) k)) l);
      [|apply filter_split_perm]. apply Permutation_app_head.
    rewrite <- (IH (List.filter (fun x => negb (String.eqb (key x) k)) l)); [|done|].
    + apply reflexive_eq. f_equal. apply map_ext_in. intros k' I.
      rewrite filter_and. apply filter_ext. intros x.
      destruct (String.eqb_spec (key x) k') as [<-|]; [|by rewrite andb_false_r].
      destruct (String.eqb_spec (key x) k) as [E|]; [|done].
      apply list_elem_of_In in I. congruence.
    + apply Forall_forall. intros x I. apply list_elem_of_In, filter_In in I as [I B].
      rewrite Forall_forall in F. apply list_elem_of_In in I. specialize (F x I).
      apply elem_of_cons in F as [E|F]; [|done]. by rewrite E, String.eqb_refl in B.
Qed.
