(* ===== verification/PyFloat.v ===== *)
(** * Python floats

    A Python [float] is an IEEE 754 binary64 number.  It is modelled by the
    Standard Library's executable [spec_float] at precision 53 and maximal
    exponent 1024, so every operation below rounds exactly as the interpreter
    does.  The file proves the two facts the components rely on: comparison is a
    total preorder away from NaN, and sums, quotients and maxima of non-negative
    numbers are non-negative numbers (never NaN), overflow to infinity included. *)

From S2P Require Import Prelude.
From Stdlib Require Import SpecFloat.

Abbreviation float := spec_float.

Definition fadd : float -> float -> float := SFadd 53 1024.
Definition fsub : float -> float -> float := SFsub 53 1024.
Definition fmul : float -> float -> float := SFmul 53 1024.
Definition fdiv : float -> float -> float := SFdiv 53 1024.
Definition fsqrt : float -> float := SFsqrt 53 1024.
Definition fltb : float -> float -> bool := SFltb.
Definition fleb : float -> float -> bool := SFleb.
Definition feqb : float -> float -> bool := SFeqb.

(** [float(z)] for an integer in range. *)
Definition f_of_Z (z : Z) : float := binary_normalize 53 1024 z 0 false.

Definition f0 : float := S754_zero false.
Definition f1 : float := f_of_Z 1.

(** [math.isfinite] *)
Definition fisfinite (x : float) : bool :=
  match x with
  | S754_zero _ | S754_finite _ _ _ => true
  | _ => false
  end.

(** [max(a, b)]: keeps the first argument unless the second exceeds it. *)
Definition fmax (a b : float) : float := if fltb a b then b else a.

(** Python's [sum] of a list of floats, from the integer 0 (interpreters before
    3.12, which add left to right). *)
Definition fsum (l : list float) : float := fold_left fadd l f0.

#[export] Instance float_eq_dec : EqDecision float.
Proof. intros x y; unfold Decision; repeat decide equality. Defined.

Definition not_nan (x : float) : Prop := x <> S754_nan.

(** Non-negative numbers, infinity included; the zeros of both signs. *)
Definition fnonneg (x : float) : Prop :=
  match x with
  | S754_zero _ | S754_infinity false | S754_finite false _ _ => True
  | _ => False
  end.

Definition fpos (x : float) : Prop :=
  match x with
  | S754_infinity false | S754_finite false _ _ => True
  | _ => False
  end.

(** ** Comparison *)

Lemma fltb_irrefl x : fltb x x = false.
Proof.
  unfold fltb, SFltb. destruct x as [| | |[] m e]; simpl; try done.
  - by destruct s.
  - rewrite Z.compare_refl. change (Pos.compare_cont Eq m m) with (Pos.compare m m).
    by rewrite Pos.compare_refl.
  - rewrite Z.compare_refl. change (Pos.compare_cont Eq m m) with (Pos.compare m m).
    by rewrite Pos.compare_refl.
Qed.

(** The key of a number: comparison is the lexicographic order of keys. *)
Definition fkey (x : float) : Z * Z * Z :=
  match x with
  | S754_nan => (0, 0, 0)
  | S754_infinity false => (2, 0, 0)
  | S754_infinity true => (-2, 0, 0)
  | S754_zero _ => (0, 0, 0)
  | S754_finite false m e => (1, e, Z.pos m)
  | S754_finite true m e => (-1, - e, Z.neg m)
  end%Z.

Definition key_lt (a b : Z * Z * Z) : Prop :=
  match a, b with
  | (a1, a2, a3), (b1, b2, b3) =>
      (a1 < b1 \/ (a1 = b1 /\ (a2 < b2 \/ (a2 = b2 /\ a3 < b3))))%Z
  end.

Ltac solve_compare :=
  repeat match goal with
  | |- context [Z.compare ?a ?b] => destruct (Z.compare_spec a b)
  | |- context [Pos.compare_cont Eq ?a ?b] =>
      change (Pos.compare_cont Eq a b) with (Pos.compare a b)
  | |- context [Pos.compare ?a ?b] => destruct (Pos.compare_spec a b)
  end; simpl; intuition (first [discriminate | lia]).

Lemma fltb_key x y : not_nan x -> not_nan y -> fltb x y = true <-> key_lt (fkey x) (fkey y).
Proof.
  unfold fltb, SFltb, not_nan.
  destruct x as [[]|[]| |[] mx ex], y as [[]|[]| |[] my ey]; simpl; intros Hx Hy;
    try congruence; solve_compare.
Qed.

Lemma fleb_negb x y : not_nan x -> not_nan y -> fleb x y = negb (fltb y x).
Proof.
  unfold fltb, SFltb, fleb, SFleb, not_nan.
  destruct x as [[]|[]| |[] mx ex], y as [[]|[]| |[] my ey]; simpl; intros Hx Hy;
    try congruence;
    rewrite (Z.compare_antisym ex ey);
    change (Pos.compare_cont Eq my mx) with (Pos.compare my mx);
    change (Pos.compare_cont Eq mx my) with (Pos.compare mx my);
    rewrite (Pos.compare_antisym mx my);
    destruct (Z.compare ex ey), (Pos.compare mx my); done.
Qed.

Lemma fltb_not_le x y z :
  not_nan x -> not_nan y -> not_nan z ->
  fltb y x = false -> fltb z y = false -> fltb z x = false.
Proof.
  intros Hx Hy Hz H1 H2. apply not_true_is_false. intros H3.
  apply fltb_key in H3; [|done..].
  assert (~ key_lt (fkey y) (fkey x)) as H1' by (rewrite <- fltb_key by done; congruence).
  assert (~ key_lt (fkey z) (fkey y)) as H2' by (rewrite <- fltb_key by done; congruence).
  destruct (fkey x) as [[]], (fkey y) as [[]], (fkey z) as [[]]; simpl in *. lia.
Qed.

Lemma fltb_asym x y : not_nan x -> not_nan y -> fltb x y = true -> fltb y x = false.
Proof.
  intros Hx Hy H1%fltb_key; [|done..]. apply not_true_is_false.
  intros H2%fltb_key; [|done..].
  destruct (fkey x) as [[]], (fkey y) as [[]]; simpl in *. lia.
Qed.

Lemma fleb_trans x y z :
  not_nan x -> not_nan y -> not_nan z -> fleb x y = true -> fleb y z = true -> fleb x z = true.
Proof.
  intros Hx Hy Hz. rewrite !fleb_negb, !negb_true_iff by done. eauto using fltb_not_le.
Qed.

(** ** Non-negative arithmetic *)

Lemma fnonneg_not_nan x : fnonneg x -> not_nan x.
Proof. by destruct x. Qed.

Lemma shr_1_nonneg r : (0 <= shr_m r -> 0 <= shr_m (shr_1 r))%Z.
Proof. destruct r as [m ? ?]; destruct m as [|[]|[]]; simpl; lia. Qed.

Lemma iter_shr_nonneg p r : (0 <= shr_m r -> 0 <= shr_m (iter_pos shr_1 p r))%Z.
Proof. revert r; induction p; intros r H; simpl; auto using shr_1_nonneg. Qed.

Lemma shr_fexp_nonneg m e l : (0 <= m -> 0 <= shr_m (fst (shr_fexp 53 1024 m e l)))%Z.
Proof.
  intros H. unfold shr_fexp, shr.
  destruct (_ - _)%Z; simpl; [|apply iter_shr_nonneg|]; destruct l as [|[]]; done.
Qed.

Lemma round_ne_nonneg m l : (0 <= m -> 0 <= round_nearest_even m l)%Z.
Proof. intros; destruct l as [|[]]; simpl; try lia. destruct (Z.even m); lia. Qed.

Lemma round_aux_nonneg m e l :
  (0 <= m)%Z -> fnonneg (binary_round_aux 53 1024 false m e l).
Proof.
  intros H. unfold binary_round_aux.
  pose proof (shr_fexp_nonneg m e l H) as H1.
  destruct (shr_fexp 53 1024 m e l) as [r' e']; simpl in H1.
  pose proof (shr_fexp_nonneg _ e' loc_Exact (round_ne_nonneg _ (loc_of_shr_record r') H1)) as H2.
  destruct (shr_fexp 53 1024 _ e' loc_Exact) as [r'' e'']; simpl in H2.
  destruct (shr_m r''); simpl; [done| |lia]. by destruct (e'' <=? _)%Z.
Qed.

Lemma binary_round_nonneg m e : fnonneg (binary_round 53 1024 false m e).
Proof.
  unfold binary_round. destruct (shl_align _ _ _) as [mz ez].
  by apply round_aux_nonneg.
Qed.

Lemma fadd_nonneg x y : fnonneg x -> fnonneg y -> fnonneg (fadd x y).
Proof.
  unfold fadd, SFadd.
  destruct x as [[]|[]| |[] mx ex], y as [[]|[]| |[] my ey];
    cbn [fnonneg cond_Zopp]; try done.
  intros _ _. unfold binary_normalize. cbn [Z.add]. apply binary_round_nonneg.
Qed.

Lemma fdiv_nonneg x y : fnonneg x -> fpos y -> fisfinite y = true -> fnonneg (fdiv x y).
Proof.
  unfold fdiv, SFdiv.
  destruct x as [[]|[]| |[] mx ex], y as [[]|[]| |[] my ey]; try done.
  intros _ _ _. unfold SFdiv_core_binary.
  set (m' := match _ with 0%Z => _ | Z.pos _ => _ | Z.neg _ => _ end).
  assert (0 <= m')%Z as Hm.
  { unfold m'. destruct (_ - _ - _)%Z; [lia | | lia]. apply Z.shiftl_nonneg. lia. }
  pose proof (Z.div_pos m' (Z.pos my) Hm ltac:(lia)) as Hq. unfold Z.div in Hq.
  destruct (Z.div_eucl m' (Z.pos my)) as [q r]. cbn [xorb]. by apply round_aux_nonneg.
Qed.

Lemma fmax_nonneg x y : fnonneg x -> fnonneg y -> fnonneg (fmax x y).
Proof. unfold fmax. by destruct (fltb x y). Qed.


#[export] Hint Resolve fnonneg_not_nan fadd_nonneg fmax_nonneg : dressage.
