(* ===== verification/PyVal.v ===== *)
(** * Dynamic Python values

    Messages, tool calls and sample metadata are JSON-like Python values.  A
    [str] is its UTF-8 byte string; [dict] keeps insertion order and its keys are
    strings.  [py_eqb] is Python's [==] on these values: numbers compare across
    [bool], [int] and [float], dictionaries compare without order.  [str.strip]
    and [str.lower] are modelled on ASCII. *)

From S2P Require Import Prelude.
From S2P Require Import PyFloat.
From Stdlib Require Import Ascii SpecFloat.

Inductive pyval : Type :=
| PNone
| PBool (b : bool)
| PInt (z : Z)
| PFloat (f : float)
| PStr (s : string)
| PList (l : list pyval)
| PDict (d : list (string * pyval)).

(** [bool(v)] *)
Definition py_truth (v : pyval) : bool :=
  match v with
  | PNone => false
  | PBool b => b
  | PInt z => negb (z =? 0)%Z
  | PFloat f => negb (feqb f f0)
  | PStr s => negb (String.eqb s "")
  | PList l => match l with [] => false | _ => true end
  | PDict d => match d with [] => false | _ => true end
  end.

Definition py_int_of_bool (b : bool) : Z := if b then 1%Z else 0%Z.

(** Comparison of an integer with a float, exact as in CPython: the float is the
    rational [± m * 2 ^ e]. *)
Definition py_int_float_eqb (z : Z) (f : float) : bool :=
  match f with
  | S754_zero _ => (z =? 0)%Z
  | S754_finite s m e =>
      let m' := if s then Z.neg m else Z.pos m in
      if (0 <=? e)%Z then (z =? m' * 2 ^ e)%Z else (z * 2 ^ (- e) =? m')%Z
  | _ => false
  end.

Definition py_scalar_eqb (a b : pyval) : bool :=
  match a, b with
  | PNone, PNone => true
  | PBool x, PBool y => Bool.eqb x y
  | PBool x, PInt y => (py_int_of_bool x =? y)%Z
  | PInt x, PBool y => (x =? py_int_of_bool y)%Z
  | PInt x, PInt y => (x =? y)%Z
  | PFloat x, PFloat y => feqb x y
  | PInt x, PFloat y => py_int_float_eqb x y
  | PFloat x, PInt y => py_int_float_eqb y x
  | PBool x, PFloat y => py_int_float_eqb (py_int_of_bool x) y
  | PFloat x, PBool y => py_int_float_eqb (py_int_of_bool y) x
  | PStr x, PStr y => String.eqb x y
  | _, _ => false
  end.

(** [a == b] *)
Fixpoint py_eqb (a b : pyval) {struct a} : bool :=
  match a, b with
  | PList x, PList y =>
      (fix list_eqb (x y : list pyval) : bool :=
         match x, y with
         | [], [] => true
         | u :: x', v :: y' => py_eqb u v && list_eqb x' y'
         | _, _ => false
         end) x y
  | PDict x, PDict y =>
      Nat.eqb (length x) (length y) &&
      (fix sub_eqb (x : list (string * pyval)) : bool :=
         match x with
         | [] => true
         | (k, u) :: x' =>
             match dget y k with
             | Some v => py_eqb u v
             | None => false
             end && sub_eqb x'
         end) x
  | _, _ => py_scalar_eqb a b
  end.

(** [d.get(k)] on a dictionary value: a missing key reads as [None]. *)
Definition pget (d : list (string * pyval)) (k : string) : pyval := dget_def PNone d k.

Definition phas (d : list (string * pyval)) (k : string) : bool :=
  match dget d k with Some _ => true | None => false end.

Definition is_pnone (v : pyval) : bool := match v with PNone => true | _ => false end.

(** ** Text *)

(** The ASCII characters [str.strip] removes. *)
Definition py_space (c : ascii) : bool :=
  let n := N_of_ascii c in
  ((9 <=? n) && (n <=? 13) || (28 <=? n) && (n <=? 32))%N.

Fixpoint lstrip (s : string) : string :=
  match s with
  | EmptyString => EmptyString
  | String c s' => if py_space c then lstrip s' else s
  end.

(** Drops trailing white space: keeps a character when something after it stays. *)
Fixpoint rstrip (s : string) : string :=
  match s with
  | EmptyString => EmptyString
  | String c s' =>
      match rstrip s' with
      | EmptyString => if py_space c then EmptyString else String c EmptyString
      | t => String c t
      end
  end.

Definition strip (s : string) : string := rstrip (lstrip s).

Definition lower_ascii (c : ascii) : ascii :=
  let n := N_of_ascii c in
  if ((65 <=? n) && (n <=? 90))%N then ascii_of_N (n + 32) else c.

Fixpoint lower (s : string) : string :=
  match s with
  | EmptyString => EmptyString
  | String c s' => String (lower_ascii c) (lower s')
  end.

(** [s.rstrip("/")] *)
Fixpoint rstrip_slash (s : string) : string :=
  match s with
  | EmptyString => ""
  | String c s' => match rstrip_slash s' with
                   | EmptyString => if bool_decide (c = "/"%char) then "" else String c ""
                   | t => String c t
                   end
  end.

(** [str(z)] of an integer: the decimal digits of the absolute value, by fuel. *)
Fixpoint dec_digits (fuel : nat) (z : Z) (acc : string) : string :=
  match fuel with
  | O => acc
  | S fuel' =>
      let acc' := String (ascii_of_N (Z.to_N (48 + z mod 10))) acc in
      if (z <? 10)%Z then acc' else dec_digits fuel' (z / 10) acc'
  end.

Definition str_of_Z (z : Z) : string :=
  let a := Z.abs z in
  let s := dec_digits (S (Z.to_nat (Z.log2 (a + 1)))) a "" in
  if (z <? 0)%Z then String "-" s else s.

(** What the interpreter does with the decimal text of floats and the display of
    containers: [repr] of a float, list or dict, and [float(s)] of a string. *)
Class PyText : Type := {
  py_repr : pyval -> string;
  py_parse_float : string -> option float }.

(** [str(v)] *)
Definition py_str `{PyText} (v : pyval) : string :=
  match v with
  | PNone => "None"
  | PBool b => if b then "True" else "False"
  | PInt z => str_of_Z z
  | PStr s => s
  | _ => py_repr v
  end.

(** [int(s)]: optional sign and decimal digits, single underscores between
    digits, surrounding white space ignored. *)
Definition digit_val (c : ascii) : option Z :=
  let n := Z.of_N (N_of_ascii c) in
  if ((48 <=? n) && (n <=? 57))%Z then Some (n - 48)%Z else None.

Fixpoint parse_digits (s : string) (acc : Z) (after_digit : bool) : option Z :=
  match s with
  | EmptyString => if after_digit then Some acc else None
  | String c s' =>
      match digit_val c with
      | Some d => parse_digits s' (acc * 10 + d)%Z true
      | None =>
          if bool_decide (c = "_"%char) && after_digit
          then parse_digits s' acc false else None
      end
  end.

Definition parse_int (s : string) : option Z :=
  match strip s with
  | String "-" s' => Z.opp <$> parse_digits s' 0 false
  | String "+" s' => parse_digits s' 0 false
  | s' => parse_digits s' 0 false
  end.

(** [int(v)].  NaN and infinities raise (ValueError and OverflowError; both are
    reported as ValueError here). *)
Definition py_int (v : pyval) : result Z :=
  match v with
  | PInt z => Ok z
  | PBool b => Ok (py_int_of_bool b)
  | PFloat f =>
      match f with
      | S754_zero _ => Ok 0%Z
      | S754_finite s m e =>
          let a := if (0 <=? e)%Z then (Z.pos m * 2 ^ e)%Z else (Z.pos m / 2 ^ (- e))%Z in
          Ok (if s then (- a)%Z else a)
      | _ => Raise (ValueError "cannot convert float to integer")
      end
  | PStr s =>
      match parse_int s with
      | Some z => Ok z
      | None => Raise (ValueError "invalid literal for int()")
      end
  | _ => Raise (TypeError "int() argument must be a string or a number")
  end.

(** [float(v)] *)
Definition py_float `{PyText} (v : pyval) : result float :=
  match v with
  | PInt z => Ok (f_of_Z z)
  | PBool b => Ok (f_of_Z (py_int_of_bool b))
  | PFloat f => Ok f
  | PStr s =>
      match py_parse_float s with
      | Some f => Ok f
      | None => Raise (ValueError "could not convert string to float")
      end
  | _ => Raise (TypeError "float() argument must be a string or a number")
  end.

(** [list(v)]: characters of a string (ASCII), keys of a dictionary. *)
Fixpoint chars_of (s : string) : list pyval :=
  match s with
  | EmptyString => []
  | String c s' => PStr (String c EmptyString) :: chars_of s'
  end.

Definition py_list (v : pyval) : result (list pyval) :=
  match v with
  | PList l => Ok l
  | PStr s => Ok (chars_of s)
  | PDict d => Ok (map (fun kv => PStr (fst kv)) d)
  | _ => Raise (TypeError "object is not iterable")
  end.

(** [d[k]] *)
Definition pindex (d : list (string * pyval)) (k : string) : result pyval :=
  match dget d k with
  | Some v => Ok v
  | None => Raise (KeyError k)
  end.

(** The version texts that do not name real weights: [{"", "-1", "unknown", "none"}]. *)
Definition non_real_versions : list string := [""; "-1"; "unknown"; "none"].

Definition is_non_real (s : string) : bool :=
  bool_decide (lower s ∈ non_real_versions).

(** ** Facts *)

Lemma lstrip_head s c t : lstrip s = String c t -> py_space c = false.
Proof.
  induction s as [|c' s IH]; simpl; [done|].
  destruct (py_space c') eqn:E; [apply IH | by intros [= <- <-]].
Qed.

Lemma lstrip_fix s : lstrip (lstrip s) = lstrip s.
Proof.
  destruct (lstrip s) as [|c t] eqn:E; [done|].
  simpl. by rewrite (lstrip_head _ _ _ E).
Qed.

Lemma rstrip_fix s : rstrip (rstrip s) = rstrip s.
Proof.
  induction s as [|c s IH]; simpl; [done|].
  destruct (rstrip s) as [|c' t] eqn:E.
  - destruct (py_space c) eqn:Ec; simpl; [done|]. by rewrite Ec.
  - change (rstrip (String c (String c' t)))
      with (match rstrip (String c' t) with
            | EmptyString => if py_space c then EmptyString else String c EmptyString
            | t' => String c t' end).
    by rewrite IH.
Qed.

Lemma rstrip_head c s : py_space c = false -> exists t, rstrip (String c s) = String c t.
Proof. intros H. simpl. destruct (rstrip s); [rewrite H|]; eauto. Qed.

(** Stripping twice is stripping once. *)
Lemma strip_idem s : strip (strip s) = strip s.
Proof.
  unfold strip. destruct (lstrip s) as [|c t] eqn:E; [done|].
  pose proof (lstrip_head _ _ _ E) as Hc.
  destruct (rstrip_head c t Hc) as [t' Ht]. rewrite Ht. simpl lstrip. rewrite Hc.
  rewrite <- Ht. apply rstrip_fix.
Qed.

(** ** Structural facts *)

#[local] Arguments String.append !_ _ /.

Lemma sapp_assoc (a b c : string) : (a +:+ b) +:+ c = a +:+ (b +:+ c).
Proof. induction a as [|x a IH]; cbn [String.append String.length]; [done|]. f_equal. exact IH. Qed.

Lemma sapp_nil (a : string) : a +:+ "" = a.
Proof. induction a as [|x a IH]; cbn [String.append String.length]; [done|]. f_equal. exact IH. Qed.

Lemma sapp_length (a b : string) :
  String.length (a +:+ b) = (String.length a + String.length b)%nat.
Proof. induction a as [|x a IH]; simpl; [done|]. by rewrite IH. Qed.

(** Induction on values with the hypothesis for every element. *)
Fixpoint pyval_ind_strong (P : pyval -> Prop)
    (Hn : P PNone) (Hb : forall b, P (PBool b)) (Hi : forall z, P (PInt z))
    (Hf : forall f, P (PFloat f)) (Hs : forall s, P (PStr s))
    (Hl : forall l, Forall P l -> P (PList l))
    (Hd : forall d, Forall (fun kv => P (snd kv)) d -> P (PDict d)) (v : pyval) : P v :=
  let rec := pyval_ind_strong P Hn Hb Hi Hf Hs Hl Hd in
  match v with
  | PNone => Hn
  | PBool b => Hb b
  | PInt z => Hi z
  | PFloat f => Hf f
  | PStr s => Hs s
  | PList l => Hl l ((fix go (l : list pyval) : Forall P l :=
                        match l with
                        | [] => Forall_nil_2 P
                        | x :: l' => Forall_cons_2 P x l' (rec x) (go l')
                        end) l)
  | PDict d => Hd d ((fix go (d : list (string * pyval)) : Forall (fun kv => P (snd kv)) d :=
                        match d with
                        | [] => Forall_nil_2 _
                        | kv :: d' => Forall_cons_2 _ kv d' (rec (snd kv)) (go d')
                        end) d)
  end.

(** ** Decimal integers *)

Fixpoint all_digits (s : string) : Prop :=
  match s with
  | EmptyString => True
  | String c s' => digit_val c <> None /\ all_digits s'
  end.

Lemma all_digits_app a b : all_digits a -> all_digits b -> all_digits (a +:+ b).
Proof. induction a as [|c a IH]; [done|]. intros [? ?] ?. split; [done|]. by apply IH. Qed.

Lemma digit_val_of d : (0 <= d < 10)%Z -> digit_val (ascii_of_N (Z.to_N (48 + d))) = Some d.
Proof.
  intros H. unfold digit_val. rewrite N_ascii_embedding by lia.
  rewrite Z2N.id by lia. replace (48 <=? 48 + d)%Z with true by lia.
  replace (48 + d <=? 57)%Z with true by lia. f_equal. lia.
Qed.

Lemma dec_digits_S fuel z acc :
  dec_digits (S fuel) z acc =
  let acc' := String (ascii_of_N (Z.to_N (48 + z mod 10))) acc in
  if (z <? 10)%Z then acc' else dec_digits fuel (z / 10) acc'.
Proof. done. Qed.

(** What [dec_digits] writes: digits that read back as the number, with no
    leading zero unless the number is zero. *)
Lemma dec_digits_spec fuel : forall z acc, (0 <= z < 10 ^ Z.of_nat (S fuel))%Z ->
  exists c D, dec_digits (S fuel) z acc = String c (D +:+ acc) /\
    (exists d, digit_val c = Some d /\ (d = 0 -> z = 0)%Z /\ (z = 0 -> D = "" /\ d = 0)%Z) /\
    all_digits D /\
    (forall t a b, parse_digits (String c (D +:+ t)) a b =
       parse_digits t (a * 10 ^ Z.of_nat (S (String.length D)) + z)%Z true).
Proof.
  induction fuel as [|fuel IH]; intros z acc Hz;
    rewrite dec_digits_S; cbv zeta; pose proof (Z.mod_pos_bound z 10 ltac:(lia)) as Hm;
    (destruct (z <? 10)%Z eqn:L;
      [exists (ascii_of_N (Z.to_N (48 + z mod 10))), ""; split; [done|];
       rewrite Z.mod_small by lia; rewrite digit_val_of by lia;
       split; [exists z; repeat split; auto; lia|]; split; [done|];
       intros t a b; cbn [parse_digits String.append]; rewrite digit_val_of by lia; f_equal|]).
  - change (10 ^ Z.of_nat 1)%Z with 10%Z in Hz. lia.
  - assert (0 <= z / 10 < 10 ^ Z.of_nat (S fuel))%Z as Hd.
    { split; [apply Z.div_pos; lia|]. apply Z.div_lt_upper_bound; [lia|].
      rewrite (Nat2Z.inj_succ (S fuel)), Z.pow_succ_r in Hz by lia. lia. }
    set (x := ascii_of_N (Z.to_N (48 + z mod 10))) in *.
    destruct (IH (z / 10)%Z (String x acc) Hd) as (c & D & E & (d & Hc & Hz0 & _) & A & P).
    exists c, (D +:+ String x ""). rewrite E. rewrite !sapp_assoc. split; [done|].
    assert (z / 10 <> 0)%Z as Hnz by (intros Q; apply Z.div_small_iff in Q; lia).
    split; [exists d; split; [done|]; split; [intros; exfalso; tauto|lia]|].
    split.
    + apply all_digits_app; [done|]. simpl. unfold x. by rewrite digit_val_of.
    + intros t a b. rewrite sapp_assoc. cbn [String.append]. rewrite P. cbn [parse_digits].
      unfold x. rewrite digit_val_of by lia. f_equal. rewrite sapp_length. cbn [String.length].
      rewrite Nat.add_1_r, (Nat2Z.inj_succ (S (String.length D))), Z.pow_succ_r by lia.
      pose proof (Z.div_mod z 10 ltac:(lia)). lia.
Qed.

(** [str(z)]: sign, then digits that read back. *)
Lemma str_of_Z_spec z : exists c D,
  str_of_Z z = (if (z <? 0)%Z then String "-" (String c D) else String c D) /\
  (exists d, digit_val c = Some d /\ (d = 0 -> z = 0)%Z /\ (z = 0 -> D = "" /\ d = 0)%Z) /\
  all_digits D /\ parse_digits (String c D) 0 false = Some (Z.abs z).
Proof.
  unfold str_of_Z. set (n := Z.to_nat (Z.log2 (Z.abs z + 1))).
  assert (0 <= Z.abs z < 10 ^ Z.of_nat (S n))%Z as H.
  { split; [lia|]. unfold n. rewrite Nat2Z.inj_succ, Z2Nat.id by apply Z.log2_nonneg.
    pose proof (Z.log2_spec (Z.abs z + 1) ltac:(lia)) as [_ L].
    pose proof (Z.pow_le_mono_l 2 10 (Z.succ (Z.log2 (Z.abs z + 1))) ltac:(lia)). lia. }
  destruct (dec_digits_spec n (Z.abs z) "" H) as (c & D & E & (d & Hc & H0 & H1) & A & P).
  rewrite sapp_nil in E. exists c, D. rewrite E.
  split; [done|]. split; [exists d; split; [done|]; split; intros; [|apply H1]; lia|].
  split; [done|]. specialize (P "" 0%Z false). rewrite sapp_nil in P. by rewrite P.
Qed.

(** ** Reflexivity of [==]

    [==] is reflexive on values without NaN whose dictionaries have distinct keys. *)
Fixpoint py_regular (v : pyval) : Prop :=
  match v with
  | PFloat f => feqb f f = true
  | PList l => (fix go (l : list pyval) : Prop :=
                  match l with [] => True | x :: l' => py_regular x /\ go l' end) l
  | PDict d => NoDup (dkeys d) /\
               (fix go (d : list (string * pyval)) : Prop :=
                  match d with [] => True | (_, x) :: d' => py_regular x /\ go d' end) d
  | _ => True
  end.

Lemma py_regular_list l : py_regular (PList l) <-> Forall py_regular l.
Proof. simpl. induction l as [|x l IH]; [by split|]. rewrite Forall_cons, <- IH. done. Qed.

Lemma py_regular_dict d :
  py_regular (PDict d) <-> NoDup (dkeys d) /\ Forall (fun kv => py_regular (snd kv)) d.
Proof.
  simpl. apply and_iff_compat_l. induction d as [|[k x] d IH]; [by split|].
  rewrite Forall_cons, <- IH. done.
Qed.

Lemma py_eqb_refl v : py_regular v -> py_eqb v v = true.
Proof.
  induction v as [|b|z|f|s|l IH|d IH] using pyval_ind_strong; intros R; try done.
  - by destruct b.
  - apply Z.eqb_refl.
  - apply String.eqb_refl.
  - apply py_regular_list in R. simpl. induction l as [|x l IHl]; [done|].
    apply Forall_cons in IH as [Ix IH]. apply Forall_cons in R as [Rx R].
    rewrite Ix by done. by apply IHl.
  - apply py_regular_dict in R as [ND R]. simpl. rewrite Nat.eqb_refl. simpl.
    assert (X : forall k x, (k, x) ∈ d -> dget d k = Some x) by (intros; by apply dget_NoDup_elem).
    revert X. generalize d at 2 3 as d0. clear ND. induction d as [|[k x] d IHd]; intros d0 X; [done|].
    apply Forall_cons in IH as [Ix IH]. apply Forall_cons in R as [Rx R].
    rewrite (X k x) by (by left). simpl in Ix, Rx. rewrite Ix by done. simpl.
    apply IHd; [done|done|]. intros k' x' I. apply X. by right.
Qed.
