(* ===== verification/Json.v ===== *)
(** * The [json] module as the proxy uses it

    [json_dumps] is [json.dumps(v, ensure_ascii=False, separators=(",", ":"),
    sort_keys=True)] and [json_loads] is [json.loads] on a [str].  Strings are
    UTF-8 byte strings, so the keys sort as their code points do; [\uXXXX] escapes
    decode to UTF-8, surrogate pairs joined.  The decimal text of floats is
    [PyText]'s.  Parsing spends one unit of fuel per nesting level or element and
    [json_loads] starts with more fuel than the text has characters.  The round
    trip [loads_dumps] covers every value without floats. *)

From S2P Require Import Prelude.
From S2P Require Import PyFloat.
From S2P Require Import PyVal.
From Stdlib Require Import Ascii SpecFloat.

Local Open Scope string_scope.
Local Open Scope list_scope.

(** ** Encoding *)

Definition hex_lower (n : N) : ascii :=
  ascii_of_N (if (n <? 10)%N then 48 + n else 87 + n).

(** [ESCAPE_DCT] and the [\u00XX] escape of the other control characters. *)
Definition escape_char (c : ascii) : string :=
  let n := N_of_ascii c in
  if (n =? 34)%N then String "\" (String c "")
  else if (n =? 92)%N then "\\"
  else if (n =? 10)%N then "\n"
  else if (n =? 13)%N then "\r"
  else if (n =? 9)%N then "\t"
  else if (n =? 12)%N then "\f"
  else if (n =? 8)%N then "\b"
  else if (n <? 32)%N then "\u00" +:+ String (hex_lower (n / 16)) (String (hex_lower (n mod 16)) "")
  else String c "".

Fixpoint escape (s : string) : string :=
  match s with
  | EmptyString => ""
  | String c s' => escape_char c +:+ escape s'
  end.

Definition dquote : ascii := ascii_of_N 34.

Definition dumps_str (s : string) : string := String dquote (escape s +:+ String dquote "").

Fixpoint join (sep : string) (l : list string) : string :=
  match l with
  | [] => ""
  | [x] => x
  | x :: l' => x +:+ sep +:+ join sep l'
  end.

Definition key_leb {A} (x y : string * A) : bool := bool_decide (String.le (fst x) (fst y)).

Section Dumps.
Context `{PyText}.

Definition dumps_float (f : float) : string :=
  match f with
  | S754_nan => "NaN"
  | S754_infinity s => if s then "-Infinity" else "Infinity"
  | _ => py_repr (PFloat f)
  end.

(** The items are sorted by key after each value is encoded, which commutes. *)
Fixpoint json_dumps (v : pyval) : string :=
  match v with
  | PNone => "null"
  | PBool b => if b then "true" else "false"
  | PInt z => str_of_Z z
  | PFloat f => dumps_float f
  | PStr s => dumps_str s
  | PList l => "[" +:+ join "," (map json_dumps l) +:+ "]"
  | PDict d =>
      let items := sort_by key_leb
                     ((fix enc (d : list (string * pyval)) : list (string * string) :=
                         match d with
                         | [] => []
                         | (k, x) :: d' => (k, json_dumps x) :: enc d'
                         end) d) in
      "{" +:+ join "," (map (fun kv => dumps_str (fst kv) +:+ ":" +:+ snd kv) items) +:+ "}"
  end.
End Dumps.

(** ** Decoding *)

Definition json_space (c : ascii) : bool :=
  let n := N_of_ascii c in ((n =? 32) || (n =? 9) || (n =? 10) || (n =? 13))%N.

Fixpoint skip_ws (s : string) : string :=
  match s with
  | String c s' => if json_space c then skip_ws s' else s
  | EmptyString => ""
  end.

Definition hex_val (c : ascii) : option N :=
  let n := N_of_ascii c in
  if ((48 <=? n) && (n <=? 57))%N then Some (n - 48)%N
  else if ((97 <=? n) && (n <=? 102))%N then Some (n - 87)%N
  else if ((65 <=? n) && (n <=? 70))%N then Some (n - 55)%N
  else None.

Definition hex4 (s : string) : option (N * string) :=
  match s with
  | String a (String b (String c (String d r))) =>
      x ← hex_val a; y ← hex_val b; z ← hex_val c; w ← hex_val d;
      Some ((((x * 16 + y) * 16 + z) * 16 + w)%N, r)
  | _ => None
  end.

Definition utf8 (n : N) : string :=
  let b k := ascii_of_N k in
  (if n <? 128 then String (b n) ""
   else if n <? 2048 then String (b (192 + n / 64)) (String (b (128 + n mod 64)) "")
   else if n <? 65536 then
     String (b (224 + n / 4096)) (String (b (128 + n / 64 mod 64)) (String (b (128 + n mod 64)) ""))
   else String (b (240 + n / 262144)) (String (b (128 + n / 4096 mod 64))
          (String (b (128 + n / 64 mod 64)) (String (b (128 + n mod 64)) ""))))%N.

(** After [\u]: a code unit, joined with a following low surrogate. *)
Definition unicode_escape (s : string) : option (string * string) :=
  '(u, r) ← hex4 s;
  if ((55296 <=? u) && (u <=? 56319))%N then
    match r with
    | String "\" (String "u" r') =>
        match hex4 r' with
        | Some (v, r'') =>
            if ((56320 <=? v) && (v <=? 57343))%N
            then Some (utf8 (65536 + (u - 55296) * 1024 + (v - 56320))%N, r'')
            else Some (utf8 u, r)
        | None => None
        end
    | _ => Some (utf8 u, r)
    end
  else Some (utf8 u, r).

Definition simple_escape (c : ascii) : option ascii :=
  let n := N_of_ascii c in
  if (n =? 34)%N || (n =? 92)%N || (n =? 47)%N then Some c
  else if (n =? 98)%N then Some (ascii_of_N 8)
  else if (n =? 102)%N then Some (ascii_of_N 12)
  else if (n =? 110)%N then Some (ascii_of_N 10)
  else if (n =? 114)%N then Some (ascii_of_N 13)
  else if (n =? 116)%N then Some (ascii_of_N 9)
  else None.

(** [scanstring] after the opening quote, strict: no raw control characters. *)
Fixpoint scan_string (fuel : nat) (s : string) (acc : string) : option (string * string) :=
  match fuel with
  | O => None
  | S fuel' =>
      match s with
      | EmptyString => None
      | String c s' =>
          let n := N_of_ascii c in
          if (n =? 34)%N then Some (acc, s')
          else if (n =? 92)%N then
            match s' with
            | EmptyString => None
            | String e r =>
                if (N_of_ascii e =? 117)%N then
                  '(t, r') ← unicode_escape r; scan_string fuel' r' (acc +:+ t)
                else c' ← simple_escape e; scan_string fuel' r (acc +:+ String c' "")
            end
          else if (n <? 32)%N then None
          else scan_string fuel' s' (acc +:+ String c "")
      end
  end.

Definition is_digit (c : ascii) : bool :=
  match digit_val c with Some _ => true | None => false end.

Fixpoint take_digits (s : string) : string * string :=
  match s with
  | String c s' =>
      if is_digit c then let '(d, r) := take_digits s' in (String c d, r) else ("", s)
  | EmptyString => ("", "")
  end.

(** [0|[1-9]\d*] *)
Definition int_part (s : string) : option (string * string) :=
  match s with
  | String c s' =>
      if (N_of_ascii c =? 48)%N then Some (String c "", s')
      else if is_digit c then Some (take_digits s) else None
  | EmptyString => None
  end.

(** [(\.\d+)?] *)
Definition frac_part (s : string) : string * string :=
  match s with
  | String "." r => match take_digits r with
                    | ("", _) => ("", s)
                    | (d, r') => (String "." d, r')
                    end
  | _ => ("", s)
  end.

Definition is_exp (c : ascii) : bool := ((N_of_ascii c =? 101) || (N_of_ascii c =? 69))%N.
Definition is_sign (c : ascii) : bool := ((N_of_ascii c =? 43) || (N_of_ascii c =? 45))%N.

(** [([eE][-+]?\d+)?] *)
Definition exp_part (s : string) : string * string :=
  match s with
  | String e r =>
      if is_exp e then
        let '(sg, r1) := match r with
                         | String c r' => if is_sign c then (String c "", r') else ("", r)
                         | EmptyString => ("", r)
                         end in
        match take_digits r1 with
        | ("", _) => ("", s)
        | (d, r2) => (String e (sg +:+ d), r2)
        end
      else ("", s)
  | EmptyString => ("", s)
  end.

Definition starts (p s : string) : bool := String.prefix p s.
Definition drop_str (n : nat) (s : string) : string := String.substring n (String.length s - n) s.

Section Loads.
Context `{PyText}.

Definition scan_number (s : string) : option (pyval * string) :=
  let '(sg, s1) := match s with
                   | String c r => if (N_of_ascii c =? 45)%N then (String c "", r) else ("", s)
                   | EmptyString => ("", s)
                   end in
  '(i, s2) ← int_part s1;
  let '(f, s3) := frac_part s2 in
  let '(e, s4) := exp_part s3 in
  if String.eqb f "" && String.eqb e ""
  then z ← parse_int (sg +:+ i); Some (PInt z, s4)
  else x ← py_parse_float (sg +:+ i +:+ f +:+ e); Some (PFloat x, s4).

(** [scan_once] on text that starts at the value; containers skip white space
    where the source's regular expressions do. *)
Fixpoint scan_once (fuel : nat) (s : string) : option (pyval * string) :=
  match fuel with
  | O => None
  | S fuel' =>
      match s with
      | EmptyString => None
      | String c r =>
          let n := N_of_ascii c in
          if (n =? 34)%N then '(t, r') ← scan_string (S (String.length r)) r ""; Some (PStr t, r')
          else if (n =? 123)%N then
            match skip_ws r with
            | String "}" r' => Some (PDict [], r')
            | r' => scan_object fuel' r' []
            end
          else if (n =? 91)%N then
            match skip_ws r with
            | String "]" r' => Some (PList [], r')
            | r' => scan_array fuel' r' []
            end
          else if starts "null" s then Some (PNone, drop_str 4 s)
          else if starts "true" s then Some (PBool true, drop_str 4 s)
          else if starts "false" s then Some (PBool false, drop_str 5 s)
          else if starts "NaN" s then Some (PFloat S754_nan, drop_str 3 s)
          else if starts "Infinity" s then Some (PFloat (S754_infinity false), drop_str 8 s)
          else if starts "-Infinity" s then Some (PFloat (S754_infinity true), drop_str 9 s)
          else scan_number s
      end
  end
with scan_array (fuel : nat) (s : string) (acc : list pyval) : option (pyval * string) :=
  match fuel with
  | O => None
  | S fuel' =>
      '(v, r) ← scan_once fuel' s;
      match skip_ws r with
      | String "]" r' => Some (PList (acc ++ [v]), r')
      | String "," r' => scan_array fuel' (skip_ws r') (acc ++ [v])
      | _ => None
      end
  end
with scan_object (fuel : nat) (s : string) (acc : list (string * pyval))
    : option (pyval * string) :=
  match fuel with
  | O => None
  | S fuel' =>
      match s with
      | String c r0 =>
          if (N_of_ascii c =? 34)%N then
            '(k, r1) ← scan_string (S (String.length r0)) r0 "";
            match skip_ws r1 with
            | String ":" r2 =>
                '(v, r3) ← scan_once fuel' (skip_ws r2);
                match skip_ws r3 with
                | String "}" r4 => Some (PDict (dset acc k v), r4)
                | String "," r4 => scan_object fuel' (skip_ws r4) (dset acc k v)
                | _ => None
                end
            | _ => None
            end
          else None
      | EmptyString => None
      end
  end.

(** [json.loads(s)]; [None] is [JSONDecodeError]. *)
Definition json_loads (s : string) : option pyval :=
  '(v, r) ← scan_once (2 * String.length s + 2) (skip_ws s);
  if String.eqb (skip_ws r) "" then Some v else None.
End Loads.

(** ** Round trip *)

#[local] Arguments String.append !_ _ /.

Fixpoint json_sorted (v : pyval) : pyval :=
  match v with
  | PList l => PList (map json_sorted l)
  | PDict d =>
      PDict (sort_by key_leb
        ((fix go (d : list (string * pyval)) : list (string * pyval) :=
            match d with [] => [] | (k, x) :: d' => (k, json_sorted x) :: go d' end) d))
  | _ => v
  end.

(** No floats, and the keys of every dictionary distinct. *)
Fixpoint json_plain (v : pyval) : Prop :=
  match v with
  | PFloat _ => False
  | PList l => (fix go (l : list pyval) : Prop :=
                  match l with [] => True | x :: l' => json_plain x /\ go l' end) l
  | PDict d => NoDup (dkeys d) /\
               (fix go (d : list (string * pyval)) : Prop :=
                  match d with [] => True | (_, x) :: d' => json_plain x /\ go d' end) d
  | _ => True
  end.

(** What may follow a value inside a container or at the end of the text. *)
Definition delimited (r : string) : Prop :=
  match r with
  | EmptyString => True
  | String c _ => c = ","%char \/ c = "]"%char \/ c = "}"%char
  end.

Ltac all_ascii c := destruct c as [[] [] [] [] [] [] [] []].

Lemma scan_escaped_char fuel c r acc :
  scan_string (S fuel) (escape_char c +:+ r) acc = scan_string fuel r (acc +:+ String c "").
Proof. all_ascii c; reflexivity. Qed.

Lemma scan_escaped s : forall fuel r acc, (String.length s < fuel)%nat ->
  scan_string fuel (escape s +:+ String dquote r) acc = Some (acc +:+ s, r).
Proof.
  induction s as [|c s IH]; intros [|fuel] r acc L; simpl in L; try lia.
  - simpl. by rewrite sapp_nil.
  - cbn [escape]. rewrite sapp_assoc, scan_escaped_char, IH by lia.
    by rewrite sapp_assoc.
Qed.

Lemma escape_length s : (String.length s <= String.length (escape s))%nat.
Proof.
  induction s as [|c s IH]; simpl; [done|]. rewrite sapp_length.
  assert (1 <= String.length (escape_char c))%nat by (all_ascii c; simpl; lia). lia.
Qed.

Lemma scan_dumps_str s r :
  scan_string (S (String.length (escape s +:+ String dquote r))) (escape s +:+ String dquote r) ""
  = Some (s, r).
Proof.
  rewrite scan_escaped; [done|]. rewrite sapp_length. pose proof (escape_length s). simpl. lia.
Qed.

(** *** Integers *)

Lemma take_digits_app D r :
  all_digits D -> (match r with EmptyString => True | String c _ => digit_val c = None end) ->
  take_digits (D +:+ r) = (D, r).
Proof.
  induction D as [|c D IH]; intros A R; simpl.
  - destruct r as [|c r]; [done|]. simpl. unfold is_digit. by rewrite R.
  - destruct A as [Hc A]. unfold is_digit. destruct (digit_val c); [|done]. by rewrite IH.
Qed.

Lemma delimited_number r : delimited r ->
  (match r with EmptyString => True | String c _ => digit_val c = None end) /\
  frac_part r = ("", r) /\ exp_part r = ("", r).
Proof. destruct r as [|c r]; simpl; [done|]. by intros [-> | [-> | ->]]. Qed.

Lemma digit_not_space c d : digit_val c = Some d -> py_space c = false.
Proof. all_ascii c; by cbv. Qed.

Lemma rstrip_digits D : all_digits D -> rstrip D = D.
Proof.
  induction D as [|c D IH]; [done|]. intros [Hc A]. simpl. rewrite IH by done.
  destruct (digit_val c) eqn:E; [|done]. destruct D; [by rewrite (digit_not_space _ _ E)|done].
Qed.

Lemma rstrip_cons c s : rstrip s <> "" -> rstrip (String c s) = String c (rstrip s).
Proof. intros N. simpl. by destruct (rstrip s). Qed.

Lemma parse_int_digits c d D v :
  digit_val c = Some d -> all_digits D -> parse_digits (String c D) 0 false = Some v ->
  parse_int (String c D) = Some v /\ parse_int (String "-" (String c D)) = Some (- v)%Z.
Proof.
  intros Hc A P. unfold parse_int, strip.
  assert (rstrip (String c D) = String c D) as R by (apply rstrip_digits; simpl; by rewrite Hc).
  cbn [lstrip]. rewrite (digit_not_space _ _ Hc), R. change (py_space "-") with false.
  cbn [lstrip]. rewrite rstrip_cons by (by rewrite R). rewrite R. split.
  - clear -P Hc. all_ascii c; first [discriminate Hc | exact P].
  - by rewrite P.
Qed.

Section RoundTrip.
Context `{PyText}.

Lemma scan_number_int z r :
  delimited r -> scan_number (str_of_Z z +:+ r) = Some (PInt z, r).
Proof.
  intros Dl. destruct (delimited_number r Dl) as (R & F & X).
  destruct (str_of_Z_spec z) as (c & D & E & (d & Hc & H0 & H1) & A & P).
  destruct (parse_int_digits c d D _ Hc A P) as [P1 P2].
  assert (I : int_part (String c (D +:+ r)) = Some (String c D, r)).
  { unfold int_part. destruct (N_of_ascii c =? 48)%N eqn:Ez.
    - assert (d = 0)%Z as -> by (clear -Hc Ez; all_ascii c; try discriminate Ez; injection Hc; lia).
      destruct (H1 (H0 eq_refl)) as [-> _]. done.
    - unfold is_digit at 1. rewrite Hc. change (String c (D +:+ r)) with (String c D +:+ r).
      rewrite take_digits_app; [done| |done]. simpl. by rewrite Hc. }
  assert (Nm : (N_of_ascii c =? 45)%N = false) by (clear -Hc; all_ascii c; first [discriminate Hc|done]).
  unfold scan_number. rewrite E. destruct (z <? 0)%Z eqn:S.
  - cbn [String.append]. change (N_of_ascii "-" =? 45)%N with true. cbv iota beta zeta.
    rewrite I. cbn [mbind option_bind]. rewrite F, X. cbn [String.eqb andb String.append].
    rewrite P2. simpl. do 2 f_equal. f_equal. lia.
  - cbn [String.append]. rewrite Nm, I. cbn [mbind option_bind]. rewrite F, X.
    cbn [String.eqb andb String.append]. rewrite P1. simpl. do 2 f_equal. f_equal. lia.
Qed.

(** Text that starts an integer takes the number branch. *)
Lemma scan_once_int fuel z r :
  delimited r -> scan_once (S fuel) (str_of_Z z +:+ r) = Some (PInt z, r).
Proof.
  intros Dl. rewrite <- (scan_number_int z r Dl).
  destruct (str_of_Z_spec z) as (c & D & -> & (d & Hc & _) & _).
  destruct (z <? 0)%Z; cbn [String.append scan_once].
  - clear -Hc. all_ascii c; first [discriminate Hc | reflexivity].
  - clear -Hc. all_ascii c; first [discriminate Hc | reflexivity].
Qed.
End RoundTrip.

(** *** Containers *)

Section Containers.
Context `{PyText}.

Fixpoint need (v : pyval) : nat :=
  match v with
  | PList l => S (list_sum (map (fun x => S (need x)) l))
  | PDict d => S ((fix go (d : list (string * pyval)) : nat :=
                     match d with [] => 0%nat | (_, x) :: d' => (S (need x) + go d')%nat end) d)
  | _ => 1%nat
  end.

Definition item_need (kv : string * pyval) : nat := S (need (snd kv)).
Definition sorted_item (kv : string * pyval) : string * pyval := (fst kv, json_sorted (snd kv)).
Definition dumps_item (kv : string * pyval) : string :=
  dumps_str (fst kv) +:+ ":" +:+ json_dumps (snd kv).

Lemma lsum_cons x l : list_sum (x :: l) = (x + list_sum l)%nat.
Proof. done. Qed.

Lemma need_dict d : need (PDict d) = S (list_sum (map item_need d)).
Proof.
  simpl. f_equal. induction d as [|[k x] d IH]; [done|]. rewrite IH. done.
Qed.

Lemma json_plain_list l : json_plain (PList l) <-> Forall json_plain l.
Proof.
  simpl. induction l as [|x l IH]; [by split|]. rewrite Forall_cons, <- IH. done.
Qed.

Lemma json_plain_dict d :
  json_plain (PDict d) <-> NoDup (dkeys d) /\ Forall (fun kv => json_plain (snd kv)) d.
Proof.
  simpl. apply and_iff_compat_l. induction d as [|[k x] d IH]; [by split|].
  rewrite Forall_cons, <- IH. done.
Qed.

Lemma json_sorted_dict d :
  json_sorted (PDict d) = PDict (map sorted_item (sort_by key_leb d)).
Proof.
  simpl. rewrite <- (sort_by_map key_leb key_leb sorted_item) by done. do 2 f_equal.
  induction d as [|[k x] d IH]; [done|]. by rewrite IH.
Qed.

Lemma json_dumps_dict d :
  json_dumps (PDict d) = "{" +:+ join "," (map dumps_item (sort_by key_leb d)) +:+ "}".
Proof.
  simpl. f_equal. f_equal. f_equal.
  transitivity (map (fun kv => dumps_str kv.1 +:+ ":" +:+ kv.2)
                 (map (fun kv => (fst kv, json_dumps (snd kv))) (sort_by key_leb d)));
    [|by rewrite map_map].
  f_equal. rewrite <- (sort_by_map key_leb key_leb) by done. f_equal.
  induction d as [|[k x] d IH]; [done|]. by rewrite IH.
Qed.

Lemma dumps_head v : json_plain v -> exists c t, json_dumps v = String c t /\
  json_space c = false /\ c <> "]"%char /\ c <> "}"%char.
Proof.
  destruct v as [|[]|z|f|s|l|d]; intros J; try done.
  1-3: eexists _, _; split; [reflexivity|]; by repeat split.
  - destruct (str_of_Z_spec z) as (c & D & E & (x & Hc & _) & _). simpl. rewrite E.
    destruct (z <? 0)%Z; eexists _, _; (split; [reflexivity|]); [by repeat split|].
    clear -Hc. all_ascii c; first [discriminate Hc|by repeat split].
  - eexists _, _; split; [reflexivity|]; by repeat split.
  - eexists _, _; split; [reflexivity|]; by repeat split.
  - rewrite json_dumps_dict. eexists _, _; split; [reflexivity|]; by repeat split.
Qed.

Definition reads_back (v : pyval) : Prop :=
  forall fuel r, (need v <= fuel)%nat -> delimited r ->
    scan_once fuel (json_dumps v +:+ r) = Some (json_sorted v, r).

Lemma join_cons sep x l :
  l <> [] -> join sep (x :: l) = x +:+ sep +:+ join sep l.
Proof. by destruct l. Qed.

Lemma scan_array_step fuel s acc :
  scan_array (S fuel) s acc =
  '(v, r) ← scan_once fuel s;
  match skip_ws r with
  | String "]" r' => Some (PList (acc ++ [v]), r')
  | String "," r' => scan_array fuel (skip_ws r') (acc ++ [v])
  | _ => None
  end.
Proof. done. Qed.

Lemma skip_head v r : json_plain v -> skip_ws (json_dumps v +:+ r) = json_dumps v +:+ r.
Proof.
  intros J. destruct (dumps_head v J) as (c & t & -> & Sp & _). simpl. by rewrite Sp.
Qed.

Lemma scan_array_dumps l : Forall json_plain l -> Forall reads_back l -> l <> [] ->
  forall fuel acc r, (list_sum (map (fun x => S (need x)) l) <= fuel)%nat ->
  scan_array fuel (join "," (map json_dumps l) +:+ String "]" r) acc
  = Some (PList (acc ++ map json_sorted l), r).
Proof.
  induction l as [|x l IH]; intros J R N fuel acc r L; [done|].
  apply Forall_cons in J as [Jx Jl]. apply Forall_cons in R as [Rx Rl].
  simpl in L. destruct fuel as [|fuel]; [lia|].
  destruct l as [|y l].
  - rewrite scan_array_step. simpl map. cbn [join].
    rewrite Rx; [done|lia|]. right; by left.
  - rewrite scan_array_step. rewrite map_cons, join_cons by done. rewrite !sapp_assoc.
    rewrite Rx; [|lia|by left]. cbn [mbind option_bind String.append skip_ws].
    change (json_space ",") with false. cbv iota.
    assert (skip_ws (join "," (map json_dumps (y :: l)) +:+ String "]" r)
            = join "," (map json_dumps (y :: l)) +:+ String "]" r) as ->.
    { apply Forall_cons in Jl as [Jy _]. destruct l as [|z l]; [by apply skip_head|].
      rewrite map_cons, join_cons by done. rewrite !sapp_assoc. by apply skip_head. }
    rewrite IH; [|done|done|done|simpl in *; lia]. simpl. by rewrite <- app_assoc.
Qed.

Lemma scan_object_step fuel r0 acc :
  scan_object (S fuel) (String dquote r0) acc =
  '(k, r1) ← scan_string (S (String.length r0)) r0 "";
  match skip_ws r1 with
  | String ":" r2 =>
      '(v, r3) ← scan_once fuel (skip_ws r2);
      match skip_ws r3 with
      | String "}" r4 => Some (PDict (dset acc k v), r4)
      | String "," r4 => scan_object fuel (skip_ws r4) (dset acc k v)
      | _ => None
      end
  | _ => None
  end.
Proof. done. Qed.

Lemma dumps_item_text kv r :
  dumps_item kv +:+ r =
  String dquote (escape (fst kv) +:+ String dquote (":" +:+ (json_dumps (snd kv) +:+ r))).
Proof. unfold dumps_item, dumps_str. simpl. by rewrite !sapp_assoc. Qed.

Lemma scan_object_dumps d :
  Forall (fun kv => json_plain (snd kv)) d -> Forall (fun kv => reads_back (snd kv)) d -> d <> [] ->
  forall fuel acc r, (list_sum (map item_need d) <= fuel)%nat ->
  NoDup (dkeys acc ++ dkeys d) ->
  scan_object fuel (join "," (map dumps_item d) +:+ String "}" r) acc
  = Some (PDict (acc ++ map sorted_item d), r).
Proof.
  induction d as [|[k x] d IH]; intros J R N fuel acc r L ND; [done|].
  apply Forall_cons in J as [Jx Jl]. apply Forall_cons in R as [Rx Rl]. simpl in Jx, Rx.
  rewrite map_cons, lsum_cons in L. unfold item_need at 1 in L. cbn [snd] in L.
  destruct fuel as [|fuel]; [lia|].
  assert (k ∉ dkeys acc) as Fr.
  { intros I. apply NoDup_app in ND as (_ & D & _). apply (D k I). by left. }
  assert (ND' : NoDup (dkeys (acc ++ [(k, json_sorted x)]) ++ dkeys d)).
  { unfold dkeys in *. rewrite map_app. simpl. by rewrite <- app_assoc. }
  destruct d as [|kv d].
  - cbn [map join]. rewrite dumps_item_text, scan_object_step, scan_dumps_str.
    cbn [mbind option_bind fst snd String.append skip_ws].
    change (json_space ":") with false. cbv iota. rewrite (skip_head x) by done.
    rewrite Rx; [|lia|by right; right]. cbn [mbind option_bind skip_ws].
    change (json_space "}") with false. cbv iota. by rewrite dset_fresh.
  - rewrite map_cons, join_cons by done. rewrite !sapp_assoc.
    rewrite dumps_item_text, scan_object_step, scan_dumps_str.
    cbn [mbind option_bind fst snd String.append skip_ws].
    change (json_space ":") with false. cbv iota. rewrite (skip_head x) by done.
    rewrite Rx; [|lia|by left]. cbn [mbind option_bind skip_ws].
    change (json_space ",") with false. cbv iota. rewrite dset_fresh by done.
    assert (skip_ws (join "," (map dumps_item (kv :: d)) +:+ String "}" r)
            = join "," (map dumps_item (kv :: d)) +:+ String "}" r) as ->.
    { destruct d; [cbn [map join]; by rewrite dumps_item_text|].
      rewrite map_cons, join_cons by done. rewrite !sapp_assoc. by rewrite dumps_item_text. }
    rewrite IH; [|done|done|done|lia|done]. simpl. by rewrite <- app_assoc.
Qed.

Lemma list_sum_perm l l' : l ≡ₚ l' -> list_sum l = list_sum l'.
Proof. induction 1; simpl; lia. Qed.

Lemma substring_all s : String.substring 0 (String.length s) s = s.
Proof. induction s as [|c s IH]; simpl; [done|]. by rewrite IH. Qed.

Lemma drop_str_app p r : drop_str (String.length p) (p +:+ r) = r.
Proof.
  unfold drop_str. rewrite sapp_length. replace (_ - _)%nat with (String.length r) by lia.
  induction p as [|c p IH]; simpl; [apply substring_all|done].
Qed.

(** The text of a list's elements starts with neither white space nor a bracket. *)
Lemma join_head x l t : json_plain x ->
  skip_ws (join "," (map json_dumps (x :: l)) +:+ t) = join "," (map json_dumps (x :: l)) +:+ t /\
  exists c u, join "," (map json_dumps (x :: l)) +:+ t = String c u /\ c <> "]"%char.
Proof.
  intros Jx.
  assert (exists t', join "," (map json_dumps (x :: l)) +:+ t = json_dumps x +:+ t') as [t' ->].
  { destruct l; [by exists t|]. rewrite map_cons, join_cons by done. rewrite !sapp_assoc. eauto. }
  split; [by apply skip_head|]. destruct (dumps_head x Jx) as (c & u & -> & _ & Nc & _).
  simpl. eauto.
Qed.

Lemma reads_back_list l :
  Forall (fun x => json_plain x -> reads_back x) l -> json_plain (PList l) -> reads_back (PList l).
Proof.
  intros IH J [|fuel] r L Dl; [simpl in L; lia|]. apply json_plain_list in J. destruct l as [|x l]; [done|].
  assert (R : Forall reads_back (x :: l)).
  { rewrite Forall_forall in IH, J. apply Forall_forall. auto. }
  cbn [json_dumps]. rewrite !sapp_assoc.
  destruct (join_head x l (String "]" r) (Forall_inv J)) as [S1 (c & u & S2 & Nc)].
  cbn [String.append scan_once]. change (N_of_ascii "[" =? 34)%N with false.
  change (N_of_ascii "[" =? 123)%N with false. change (N_of_ascii "[" =? 91)%N with true.
  cbv iota. rewrite S1.
  pose proof (scan_array_dumps (x :: l) J R ltac:(done) fuel [] r ltac:(simpl in *; lia)) as E.
  rewrite S2 in E |- *. etransitivity; [|exact E]. clear -Nc.
  all_ascii c; first [reflexivity|by destruct Nc].
Qed.

Lemma reads_back_dict d :
  Forall (fun kv => json_plain (snd kv) -> reads_back (snd kv)) d -> json_plain (PDict d) ->
  reads_back (PDict d).
Proof.
  intros IH J [|fuel] r L Dl; [simpl in L; lia|]. apply json_plain_dict in J as [ND J]. rewrite need_dict in L.
  rewrite json_dumps_dict, json_sorted_dict.
  pose proof (sort_by_perm key_leb d) as Pm. set (ds := sort_by key_leb d) in *.
  assert (R : Forall (fun kv => reads_back (snd kv)) ds).
  { rewrite Pm. rewrite Forall_forall in IH, J. apply Forall_forall. auto. }
  rewrite <- Pm in J.
  assert (NDs : NoDup (dkeys ds)) by (unfold dkeys in *; by rewrite Pm).
  assert (Ls : (list_sum (map item_need ds) <= fuel)%nat).
  { rewrite (list_sum_perm _ (map item_need d)); [lia|]. by rewrite Pm. }
  clearbody ds. destruct ds as [|kv ds]; [done|]. rewrite !sapp_assoc.
  assert (exists u, join "," (map dumps_item (kv :: ds)) +:+ String "}" r = String dquote u)
    as [u Eu].
  { destruct ds; [cbn [map join]; rewrite dumps_item_text; eauto|].
    rewrite map_cons, join_cons by done. rewrite !sapp_assoc, dumps_item_text. eauto. }
  pose proof (scan_object_dumps (kv :: ds) J R ltac:(done) fuel [] r Ls NDs) as E.
  cbn [String.append scan_once]. rewrite Eu in E |- *.
  etransitivity; [|exact E]. reflexivity.
Qed.

Lemma reads_back_all v : json_plain v -> reads_back v.
Proof.
  induction v as [|b|z|f|s|l IH|d IH] using pyval_ind_strong; intros J.
  6: by apply reads_back_list.
  6: by apply reads_back_dict.
  all: intros [|fuel] r L Dl; try (simpl in L; lia); try done.
  - transitivity (Some (PNone, drop_str (String.length "null") ("null" +:+ r)));
      [clear Dl; destruct r; reflexivity|by rewrite drop_str_app].
  - destruct b.
    + transitivity (Some (PBool true, drop_str (String.length "true") ("true" +:+ r)));
        [clear Dl; destruct r; reflexivity|by rewrite drop_str_app].
    + transitivity (Some (PBool false, drop_str (String.length "false") ("false" +:+ r)));
        [clear Dl; destruct r; reflexivity|by rewrite drop_str_app].
  - by apply scan_once_int.
  - cbn [json_dumps]. unfold dumps_str. cbn [String.append]. rewrite sapp_assoc.
    cbn [String.append scan_once]. change (N_of_ascii dquote =? 34)%N with true. cbv iota.
    by rewrite scan_dumps_str.
Qed.

Lemma join_length l :
  (list_sum (map String.length l) + (length l - 1) <= String.length (join "," l))%nat.
Proof.
  induction l as [|x l IH]; [done|]. destruct l as [|y l]; [simpl; lia|].
  rewrite join_cons by done. rewrite !sapp_length. simpl in *. lia.
Qed.

Lemma need_bound v : json_plain v -> (need v <= 2 * String.length (json_dumps v))%nat.
Proof.
  assert (Hd : forall w, json_plain w -> (1 <= String.length (json_dumps w))%nat).
  { intros w J. destruct (dumps_head w J) as (c & t & -> & _). simpl. lia. }
  induction v as [|b|z|f|s|l IH|d IH] using pyval_ind_strong; intros J;
    try (specialize (Hd _ J); cbn [need]; lia).
  - apply json_plain_list in J. cbn [json_dumps need]. rewrite !sapp_length.
    pose proof (join_length (map json_dumps l)) as JL. rewrite length_map in JL.
    enough (list_sum (map (fun x => S (need x)) l) <=
            2 * list_sum (map String.length (map json_dumps l)) + length l)%nat by (simpl; lia).
    clear JL. induction l as [|x l IHl]; [done|].
    apply Forall_cons in J as [Jx J]. apply Forall_cons in IH as [Ix IH].
    specialize (IHl IH J). specialize (Ix Jx). simpl in *. lia.
  - apply json_plain_dict in J as [_ J]. rewrite need_dict, json_dumps_dict, !sapp_length.
    pose proof (join_length (map dumps_item (sort_by key_leb d))) as JL.
    rewrite length_map, sort_by_length in JL.
    assert (list_sum (map String.length (map dumps_item (sort_by key_leb d)))
            = list_sum (map String.length (map dumps_item d))) as Es.
    { apply list_sum_perm. by rewrite sort_by_perm. }
    rewrite Es in JL.
    enough (list_sum (map item_need d) <=
            2 * list_sum (map String.length (map dumps_item d)) + length d)%nat by (simpl; lia).
    clear JL Es. induction d as [|[k x] d IHd]; [done|].
    apply Forall_cons in J as [Jx J]. apply Forall_cons in IH as [Ix IH].
    specialize (IHd IH J). specialize (Ix Jx). cbn [snd] in Ix.
    assert (item_need (k, x) <= 2 * String.length (dumps_item (k, x)) + 1)%nat.
    { unfold item_need, dumps_item. cbn [fst snd]. rewrite !sapp_length. lia. }
    rewrite !map_cons, !lsum_cons. cbn [length]. lia.
Qed.

(** Reading back a printed value gives the value with its keys sorted. *)
Lemma loads_dumps v : json_plain v -> json_loads (json_dumps v) = Some (json_sorted v).
Proof.
  intros J. unfold json_loads. rewrite <- (sapp_nil (json_dumps v)) at 2.
  rewrite skip_head by done. rewrite reads_back_all; [done|done| |done].
  pose proof (need_bound v J). lia.
Qed.
End Containers.

(** *** Sorting keys twice *)

Lemma key_leb_total {A} (x y : string * A) : key_leb x y = true \/ key_leb y x = true.
Proof.
  unfold key_leb. rewrite !bool_decide_eq_true. apply (total String.le).
Qed.

Lemma key_leb_trans {A} (x y z : string * A) :
  key_leb x y = true -> key_leb y z = true -> key_leb x z = true.
Proof. unfold key_leb. rewrite !bool_decide_eq_true. by intros ->. Qed.

Section Resort.
Context `{PyText}.

Lemma sort_items_id (f : string * pyval -> string * pyval) d :
  (forall kv, fst (f kv) = fst kv) ->
  sort_by key_leb (map f (sort_by key_leb d)) = map f (sort_by key_leb d).
Proof.
  intros F. rewrite (sort_by_map key_leb) by (intros x y; unfold key_leb; by rewrite !F).
  f_equal. apply sort_by_id, sort_by_sorted; [apply key_leb_total|apply key_leb_trans].
Qed.

(** The printed form does not see the order of keys. *)
Lemma dumps_sorted v : json_dumps (json_sorted v) = json_dumps v.
Proof.
  induction v as [|b|z|f|s|l IH|d IH] using pyval_ind_strong; try done.
  - cbn [json_sorted json_dumps]. do 3 f_equal. rewrite map_map. apply map_ext_in.
    intros x Hx. rewrite Forall_forall in IH. apply IH. by apply list_elem_of_In.
  - rewrite json_sorted_dict, !json_dumps_dict, sort_items_id by done. do 3 f_equal.
    rewrite map_map. apply map_ext_in. intros [k x] Hx. unfold dumps_item, sorted_item. simpl.
    do 3 f_equal. rewrite Forall_forall in IH. apply (IH (k, x)).
    apply list_elem_of_In in Hx. by rewrite sort_by_perm in Hx.
Qed.

Lemma dkeys_sorted d : dkeys (map sorted_item (sort_by key_leb d)) ≡ₚ dkeys d.
Proof.
  unfold dkeys. rewrite map_map. simpl. by rewrite sort_by_perm.
Qed.

Lemma json_plain_sorted v : json_plain v -> json_plain (json_sorted v).
Proof.
  induction v as [|b|z|f|s|l IH|d IH] using pyval_ind_strong; intros J; try done.
  - apply json_plain_list in J. change (json_plain (PList (map json_sorted l))).
    apply json_plain_list, Forall_map. rewrite Forall_forall in *. auto.
  - apply json_plain_dict in J as [ND J]. rewrite json_sorted_dict. apply json_plain_dict.
    split; [by rewrite dkeys_sorted|]. apply Forall_map. rewrite sort_by_perm.
    rewrite Forall_forall in *. intros [k x] Hx. apply (IH (k, x) Hx), (J (k, x) Hx).
Qed.
End Resort.
