(* ===== verification/Greedy.v ===== *)
(** * Sticky-aware greedy placement ([dressage/proxy/rebalancing/greedy.py])

    One online step is routed to one engine.  Loads and scores are binary64
    floats, the tie-break rank is the SHA-256 of session and engine, and the
    decision record is the source's.  [choose_greedy_step] is translated in the
    order of the source: argument checks ([greedy_validate]), projected scores
    ([greedy_scores]), candidate ([greedy_best]), and the per-kind selection. *)

From S2P Require Import Prelude.
From S2P Require Import PyFloat.
From S2P Require Import Sha256.
From Stdlib Require Import SpecFloat.

Local Open Scope string_scope.
Local Open Scope py_scope.

(** 1e-7 and 1e-9, the nearest binary64 numbers. *)
Definition SCORE_TOLERANCE : float := S754_finite false 7555786372591432 (-76).
Definition _RATIO_EPSILON : float := S754_finite false 4835703278458517 (-82).

Record EngineBaseline : Type := {
  url : string;
  base_requests : float;
  base_tokens : float;
  base_queue : float;
  request_capacity : float;
  token_capacity : float;
  token_usage : float }.

Definition EngineBaseline__post_init__ (e : EngineBaseline) : result unit :=
  let values := [base_requests e; base_tokens e; base_queue e;
                 request_capacity e; token_capacity e; token_usage e] in
  check! fleb (request_capacity e) f0 || fleb (token_capacity e) f0
    else ValueError "capacities must be positive" ;;
  check! negb (forallb fisfinite values)
    else ValueError "pressure inputs must be finite" ;;
  check! existsb (fun v => fltb v f0) values
    else ValueError "pressure inputs must be non-negative" ;;
  Ok tt.

Record FeasibleEdge : Type := {
  session_id : string;
  engine_url : string;
  queue_increment : float;
  token_increment : float }.

Definition FeasibleEdge__post_init__ (e : FeasibleEdge) : result unit :=
  check! negb (forallb (fun v => fisfinite v && fleb f0 v)
                 [queue_increment e; token_increment e])
    else ValueError "edge pressure increments must be finite and non-negative" ;;
  Ok tt.

Inductive GreedyStepKind : Type :=
| FIXED_OWNER
| MANDATORY_FAILOVER
| NEW_SESSION
| EXISTING_SESSION.

#[export] Instance GreedyStepKind_eq_dec : EqDecision GreedyStepKind.
Proof. solve_decision. Defined.

Record EnginePressure : Type := {
  ep_request : float;
  ep_token : float;
  ep_queue : float;
  ep_total : float }.

Record GreedyStepDecision : Type := {
  decision_reason : string;
  owner_projected_score : option float;
  candidate_projected_scores : list (string * float);
  best_target : string;
  best_projected_score : float;
  selected_target : string;
  selected_projected_score : float;
  improvement_ratio : option float;
  required_improvement_ratio : option float;
  threshold_met : option bool }.

Definition projected_pressure (engine : EngineBaseline)
    (queue_incr token_incr : float) : EnginePressure :=
  let request := fdiv (base_requests engine) (request_capacity engine) in
  let token := fmax (fdiv (fadd (base_tokens engine) token_incr) (token_capacity engine))
                    (token_usage engine) in
  let queue := fdiv (fadd (base_queue engine) queue_incr) (request_capacity engine) in
  {| ep_request := request; ep_token := token; ep_queue := queue;
     ep_total := fadd (fadd request token) queue |}.

Definition stable_engine_rank (sid eurl : string) : Z :=
  be_int (sha256 (bytes_of sid ++ [0%Z] ++ bytes_of eurl)).

(** The tuple order of the keys [(rank, url)]. *)
Definition rank_url_ltb (sid u1 u2 : string) : bool :=
  let r1 := stable_engine_rank sid u1 in
  let r2 := stable_engine_rank sid u2 in
  (r1 <? r2)%Z || ((r1 =? r2)%Z && String.ltb u1 u2).

Definition choose_stable_engine (sid : string) (engine_urls : list string) : result string :=
  match engine_urls with
  | [] => Raise (ValueError "at least one Engine is required")
  | u :: us => Ok (min_by (rank_url_ltb sid) u us)
  end.

(** [{engine.url: engine for engine in engines}]: a later duplicate wins. *)
Definition baselines_of (engines : list EngineBaseline) : list (string * EngineBaseline) :=
  fold_left (fun d e => dset d (url e) e) engines [].

Definition owner_edge_of (owner : option string) (edges : list FeasibleEdge)
    : option FeasibleEdge :=
  find_first (fun e => bool_decide (Some (engine_url e) = owner)) edges.

Definition is_some {A} (o : option A) : bool := match o with Some _ => true | None => false end.

Definition greedy_validate (sid : string) (kind : GreedyStepKind) (owner : option string)
    (baselines : list (string * EngineBaseline)) (edges : list FeasibleEdge)
    (ratio : float) : result unit :=
  check! negb (fisfinite ratio) || negb (fleb f0 ratio && fleb ratio f1)
    else ValueError "min load improvement ratio must be within [0, 1]" ;;
  check! match edges with [] => true | _ => false end
    else ValueError "step must contain at least one feasible edge" ;;
  check! negb (bool_decide (NoDup (map engine_url edges)))
    else ValueError "step contains duplicate Engine edges" ;;
  check! existsb (fun e => negb (bool_decide (session_id e = sid))) edges
    else ValueError "edge session does not match step session" ;;
  check! existsb (fun e => negb (is_some (dget baselines (engine_url e)))) edges
    else ValueError "edge references an unknown Engine" ;;
  check! bool_decide (kind = NEW_SESSION) && is_some owner
    else ValueError "new session must not have an owner" ;;
  check! (bool_decide (kind = FIXED_OWNER) || bool_decide (kind = EXISTING_SESSION))
         && (negb (is_some owner) || negb (is_some (owner_edge_of owner edges)))
    else ValueError "sticky step must contain its owner edge" ;;
  check! bool_decide (kind = MANDATORY_FAILOVER) && is_some (owner_edge_of owner edges)
    else ValueError "mandatory failover cannot retain its owner" ;;
  Ok tt.

(** The projected total of one edge; the edge's engine is known (checked). *)
Definition edge_total (baselines : list (string * EngineBaseline)) (e : FeasibleEdge) : float :=
  match dget baselines (engine_url e) with
  | Some b => ep_total (projected_pressure b (queue_increment e) (token_increment e))
  | None => S754_nan
  end.

Definition greedy_scores (baselines : list (string * EngineBaseline))
    (edges : list FeasibleEdge) : list (string * float) :=
  map (fun e => (engine_url e, edge_total baselines e)) edges.

Definition score_of (scores : list (string * float)) (u : string) : float :=
  dget_def S754_nan scores u.

Definition greedy_tied (scores : list (string * float)) (minimum : float)
    (edges : list FeasibleEdge) : list FeasibleEdge :=
  filter (fun e => fleb (score_of scores (engine_url e)) (fadd minimum SCORE_TOLERANCE) = true)
    edges.

Definition edge_ltb (sid : string) (e1 e2 : FeasibleEdge) : bool :=
  rank_url_ltb sid (engine_url e1) (engine_url e2).

Definition greedy_best (sid : string) (owner : option string)
    (scores : list (string * float)) (edges : list FeasibleEdge) : result FeasibleEdge :=
  match map snd scores with
  | [] => Raise (ValueError "min() arg is an empty sequence")
  | s :: ss =>
      let minimum := min_by fltb s ss in
      let tied := greedy_tied scores minimum edges in
      match owner_edge_of owner tied with
      | Some e => Ok e
      | None =>
          match tied with
          | [] => Raise (ValueError "min() arg is an empty sequence")
          | e :: es => Ok (min_by (edge_ltb sid) e es)
          end
      end
  end.

(** What the three branches on [kind] compute. *)
Record GreedySelection : Type := {
  gs_selected : option FeasibleEdge;
  gs_reason : string;
  gs_owner_score : option float;
  gs_improvement : option float;
  gs_threshold_met : option bool;
  gs_required : option float }.

Definition greedy_improvement (owner_score best_score : float) : float :=
  fmax f0 (fdiv (fsub owner_score best_score) (fmax owner_score _RATIO_EPSILON)).

Definition greedy_threshold_met (scores : list (string * float)) (owner : string)
    (best : FeasibleEdge) (ratio : float) : bool :=
  let owner_score := score_of scores owner in
  let best_score := score_of scores (engine_url best) in
  negb (bool_decide (engine_url best = owner))
  && fltb best_score (fsub owner_score SCORE_TOLERANCE)
  && fleb ratio (greedy_improvement owner_score best_score).

Definition greedy_select (kind : GreedyStepKind) (owner : option string)
    (owner_edge : option FeasibleEdge) (scores : list (string * float))
    (best : FeasibleEdge) (ratio : float) : result GreedySelection :=
  match kind with
  | FIXED_OWNER =>
      Ok {| gs_selected := owner_edge; gs_reason := "fixed_owner";
            gs_owner_score := score_of scores <$> owner;
            gs_improvement := None; gs_threshold_met := None; gs_required := None |}
  | NEW_SESSION | MANDATORY_FAILOVER =>
      Ok {| gs_selected := Some best;
            gs_reason := if decide (kind = MANDATORY_FAILOVER)
                         then "mandatory_failover" else "lowest_projected_pressure";
            gs_owner_score := None; gs_improvement := None;
            gs_threshold_met := None; gs_required := None |}
  | EXISTING_SESSION =>
      match owner, owner_edge with
      | Some o, Some oe =>
          let met := greedy_threshold_met scores o best ratio in
          Ok {| gs_selected := Some (if met then best else oe);
                gs_reason := if met then "load_improvement_threshold_met"
                             else "load_improvement_below_threshold";
                gs_owner_score := Some (score_of scores o);
                gs_improvement :=
                  Some (greedy_improvement (score_of scores o)
                                           (score_of scores (engine_url best)));
                gs_threshold_met := Some met;
                gs_required := Some ratio |}
      | _, _ => Raise (RuntimeError "existing session is missing its owner")
      end
  end.

Definition choose_greedy_step (sid : string) (kind : GreedyStepKind) (owner : option string)
    (engines : list EngineBaseline) (edges : list FeasibleEdge) (ratio : float)
    : result GreedyStepDecision :=
  let baselines := baselines_of engines in
  let! _ := greedy_validate sid kind owner baselines edges ratio in
  let scores := greedy_scores baselines edges in
  let! best := greedy_best sid owner scores edges in
  let! s := greedy_select kind owner (owner_edge_of owner edges) scores best ratio in
  match gs_selected s with
  | None => Raise (RuntimeError "greedy step did not select an Engine")
  | Some selected =>
      Ok {| decision_reason := gs_reason s;
            owner_projected_score := gs_owner_score s;
            candidate_projected_scores := scores;
            best_target := engine_url best;
            best_projected_score := score_of scores (engine_url best);
            selected_target := engine_url selected;
            selected_projected_score := score_of scores (engine_url selected);
            improvement_ratio := gs_improvement s;
            required_improvement_ratio := gs_required s;
            threshold_met := gs_threshold_met s |}
  end.

(** ** Well-formed inputs

    The dataclasses run [__post_init__] on construction, so every engine and
    edge that reaches [choose_greedy_step] has passed it. *)

Definition valid_engine (e : EngineBaseline) : Prop := EngineBaseline__post_init__ e = Ok tt.
Definition valid_edge (e : FeasibleEdge) : Prop := FeasibleEdge__post_init__ e = Ok tt.

Section Scores.

Lemma not_neg_nonneg x : fisfinite x = true -> fltb x f0 = false -> fnonneg x.
Proof. destruct x as [[]|[]| |[] m e]; done. Qed.

Lemma le0_nonneg x : fisfinite x = true -> fleb f0 x = true -> fnonneg x.
Proof. destruct x as [[]|[]| |[] m e]; done. Qed.

Lemma cap_pos x : fisfinite x = true -> fltb x f0 = false -> fleb x f0 = false -> fpos x.
Proof. destruct x as [[]|[]| |[] m e]; done. Qed.

(** Pressure of valid inputs is a non-negative number: never NaN. *)
Lemma projected_pressure_nonneg b q t :
  valid_engine b -> fnonneg q -> fnonneg t -> fnonneg (ep_total (projected_pressure b q t)).
Proof.
  unfold valid_engine, EngineBaseline__post_init__. intros H Hq Ht.
  res_inv; try done. bool_hyps. simpl in *. bool_hyps.
  unfold projected_pressure; simpl.
  repeat first [apply fadd_nonneg | apply fmax_nonneg | apply fdiv_nonneg];
    auto using not_neg_nonneg, cap_pos.
Qed.

Lemma baselines_of_get engines k b :
  dget (baselines_of engines) k = Some b -> b ∈ engines.
Proof.
  unfold baselines_of.
  assert (forall d, dget (fold_left (fun d e => dset d (url e) e) engines d) k = Some b ->
                    b ∈ engines \/ dget d k = Some b) as H.
  { induction engines as [|e es IH]; intros d; simpl; [by right|].
    intros [Hin | Hd]%IH; [left; by right|].
    rewrite dget_dset in Hd. case_decide; [|by right].
    simplify_eq. left; by left. }
  intros [?|?]%H; done.
Qed.

Lemma edge_total_nonneg engines e :
  Forall valid_engine engines -> valid_edge e ->
  is_some (dget (baselines_of engines) (engine_url e)) = true ->
  fnonneg (edge_total (baselines_of engines) e).
Proof.
  intros Hv He Hs. unfold edge_total.
  destruct (dget _ _) as [b|] eqn:E; [|done].
  apply baselines_of_get in E. rewrite Forall_forall in Hv.
  unfold valid_edge, FeasibleEdge__post_init__ in He. res_inv; try done.
  bool_hyps; simpl in *; bool_hyps.
  apply projected_pressure_nonneg; auto using le0_nonneg.
Qed.

Lemma score_of_scores baselines edges e :
  NoDup (map engine_url edges) -> e ∈ edges ->
  score_of (greedy_scores baselines edges) (engine_url e) = edge_total baselines e.
Proof.
  unfold score_of, dget_def, greedy_scores.
  induction edges as [|e' es IH]; [set_solver|]; simpl.
  intros [Hn Hnd]%NoDup_cons [->|Hin]%elem_of_cons; [by rewrite decide_True|].
  rewrite decide_False; [by apply IH|].
  intros Heq. apply Hn. rewrite <- Heq. apply list_elem_of_fmap. eauto.
Qed.

Lemma owner_edge_of_spec owner edges e :
  NoDup (map engine_url edges) ->
  owner_edge_of owner edges = Some e <-> e ∈ edges /\ owner = Some (engine_url e).
Proof.
  unfold owner_edge_of, find_first. intros Hnd. split.
  - intros [Hin Hd]%List.find_some. bool_hyps. by rewrite list_elem_of_In.
  - intros [Hin ->]. induction edges as [|e' es IH]; [set_solver|]; simpl in *.
    apply NoDup_cons in Hnd as [Hn Hnd].
    apply elem_of_cons in Hin as [->|Hin]; [by rewrite bool_decide_true|].
    rewrite bool_decide_false; [by apply IH|].
    intros [= Heq]. apply Hn. rewrite Heq. apply list_elem_of_fmap. eauto.
Qed.

Lemma owner_edge_of_sound owner edges e :
  owner_edge_of owner edges = Some e -> e ∈ edges /\ owner = Some (engine_url e).
Proof.
  unfold owner_edge_of, find_first. intros [Hin Hd]%List.find_some. bool_hyps.
  by rewrite list_elem_of_In.
Qed.
End Scores.

(** ** The accepted arguments *)

(** The contract of the argument checks, as a proposition. *)
Record greedy_pre (sid : string) (kind : GreedyStepKind) (owner : option string)
    (engines : list EngineBaseline) (edges : list FeasibleEdge) (ratio : float) : Prop := {
  gp_ratio : fisfinite ratio = true /\ fleb f0 ratio = true /\ fleb ratio f1 = true;
  gp_edges : edges <> [];
  gp_nodup : NoDup (map engine_url edges);
  gp_session : forall e, e ∈ edges -> session_id e = sid;
  gp_known : forall e, e ∈ edges -> is_some (dget (baselines_of engines) (engine_url e)) = true;
  gp_new : kind = NEW_SESSION -> owner = None;
  gp_sticky : kind = FIXED_OWNER \/ kind = EXISTING_SESSION ->
              exists e, e ∈ edges /\ owner = Some (engine_url e);
  gp_failover : kind = MANDATORY_FAILOVER ->
                forall e, e ∈ edges -> owner <> Some (engine_url e) }.

Lemma existsb_false_iff {A} (p : A -> bool) l :
  existsb p l = false <-> forall x, x ∈ l -> p x = false.
Proof.
  rewrite <- not_true_iff_false, existsb_exists. setoid_rewrite <- list_elem_of_In.
  split.
  - intros H x Hx. apply not_true_is_false. eauto.
  - intros H (x & Hx & Hp). rewrite H in Hp by done. done.
Qed.

Lemma is_some_owner owner edges :
  NoDup (map engine_url edges) ->
  is_some (owner_edge_of owner edges) = true <-> exists e, e ∈ edges /\ owner = Some (engine_url e).
Proof.
  intros Hnd. destruct (owner_edge_of owner edges) as [e|] eqn:E; simpl.
  - apply owner_edge_of_spec in E; [|done]. split; eauto.
  - split; [done|]. intros (e & He). apply (owner_edge_of_spec _ _ _ Hnd) in He. congruence.
Qed.

Lemma greedy_validate_pre sid kind owner engines edges ratio :
  greedy_validate sid kind owner (baselines_of engines) edges ratio = Ok tt
  <-> greedy_pre sid kind owner engines edges ratio.
Proof.
  split.
  - unfold greedy_validate. intros H. res_inv; try done. bool_hyps.
    rewrite existsb_false_iff in *.
    split; try done.
    + by intros ->.
    + intros e He. specialize (G2 e He). by bool_hyps.
    + intros e He. specialize (G3 e He). by bool_hyps.
    + intros ->. rewrite bool_decide_true in G4 by done. by destruct owner.
    + intros Hk. apply is_some_owner; [done|].
      destruct Hk as [-> | ->]; simpl in G5; bool_hyps; done.
    + intros ->. rewrite bool_decide_true in G6 by done. simpl in G6.
      intros e He Ho. assert (is_some (owner_edge_of owner edges) = true) as Hx.
      { apply is_some_owner; eauto. }
      congruence.
  - intros [(R1 & R2 & R3) Hne Hnd Hs Hk Hnew Hst Hf]. unfold greedy_validate.
    rewrite R1, R2, R3. cbn [negb andb orb raise_if res_bind].
    replace (match edges with [] => true | _ => false end) with false by (by destruct edges).
    rewrite (bool_decide_true _ Hnd). cbn [negb raise_if res_bind].
    rewrite (proj2 (existsb_false_iff (fun e => negb (bool_decide (session_id e = sid))) edges)); cycle 1.
    { intros x Hx. rewrite bool_decide_true; eauto. }
    rewrite (proj2 (existsb_false_iff
      (fun e => negb (is_some (dget (baselines_of engines) (engine_url e)))) edges)); cycle 1.
    { intros x Hx. by rewrite Hk. }
    assert (kind = MANDATORY_FAILOVER -> is_some (owner_edge_of owner edges) = false) as Hfo.
    { intros Hkf. apply not_true_is_false. rewrite is_some_owner by done.
      intros (e & He & Ho). by apply (Hf Hkf e). }
    destruct kind; simpl.
    + destruct Hst as (e & He); [by left|].
      rewrite (proj2 (is_some_owner owner edges Hnd)) by eauto.
      destruct He as [_ ->]. done.
    + by rewrite Hfo.
    + by rewrite Hnew.
    + destruct Hst as (e & He); [by right|].
      rewrite (proj2 (is_some_owner owner edges Hnd)) by eauto.
      destruct He as [_ ->]. done.
Qed.

(** Scores that compare equal give the same tie threshold: they are the same
    number, or the two zeros. *)
Lemma min_add_tol x y :
  not_nan x -> not_nan y -> fltb x y = false -> fltb y x = false ->
  fadd x SCORE_TOLERANCE = fadd y SCORE_TOLERANCE.
Proof.
  intros Hx Hy H1 H2.
  assert (~ key_lt (fkey x) (fkey y)) as K1 by (rewrite <- fltb_key by done; congruence).
  assert (~ key_lt (fkey y) (fkey x)) as K2 by (rewrite <- fltb_key by done; congruence).
  destruct x as [|[]| |[] mx ex], y as [|[]| |[] my ey]; simpl in *; try done; try lia;
    replace mx with my by lia; replace ex with ey by lia; done.
Qed.

(** ** The candidate *)

Section Candidate.
Context (sid : string) (kind : GreedyStepKind) (owner : option string).
Context (engines : list EngineBaseline) (ratio : float).
Context (Hengines : Forall valid_engine engines).
Let total := edge_total (baselines_of engines).

(** [e] is a candidate: its score is within the tolerance of a lowest score. *)
Definition near_minimum (edges : list FeasibleEdge) (e : FeasibleEdge) : Prop :=
  exists emin, emin ∈ edges
    /\ (forall e', e' ∈ edges -> fltb (total e') (total emin) = false)
    /\ fleb (total e) (fadd (total emin) SCORE_TOLERANCE) = true.

Lemma totals_not_nan edges :
  greedy_pre sid kind owner engines edges ratio -> Forall valid_edge edges ->
  forall e, e ∈ edges -> not_nan (total e).
Proof.
  intros Hp Hv e He. rewrite Forall_forall in Hv.
  apply fnonneg_not_nan, edge_total_nonneg; eauto using gp_known.
Qed.

Lemma minimum_score edges e0 es :
  greedy_pre sid kind owner engines edges ratio -> Forall valid_edge edges ->
  edges = e0 :: es ->
  exists emin, emin ∈ edges
    /\ min_by fltb (total e0) (map total es) = total emin
    /\ forall e', e' ∈ edges -> fltb (total e') (total emin) = false.
Proof.
  intros Hp Hv Heq. pose proof (totals_not_nan _ Hp Hv) as Hnn. subst edges.
  set (m := min_by fltb (total e0) (map total es)).
  assert (exists emin, emin ∈ e0 :: es /\ m = total emin) as (emin & Hin & Hm).
  { destruct (min_by_in fltb (total e0) (map total es)) as [E | E].
    - exists e0. split; [by left | done].
    - apply list_elem_of_fmap in E as (e & E1 & E2). exists e. split; [by right | done]. }
  exists emin. split_and!; [done..|]. intros e' He'. rewrite <- Hm.
  apply (min_by_min fltb not_nan); eauto using fltb_irrefl, fltb_not_le, fltb_asym.
  - apply Hnn. by left.
  - apply Forall_forall. intros x (e & -> & Hx)%list_elem_of_fmap. apply Hnn. by right.
  - apply elem_of_cons in He' as [->|?]; [by left | right].
    apply list_elem_of_fmap. eauto.
Qed.

Lemma greedy_tied_spec edges m e :
  NoDup (map engine_url edges) ->
  e ∈ greedy_tied (greedy_scores (baselines_of engines) edges) m edges
  <-> e ∈ edges /\ fleb (total e) (fadd m SCORE_TOLERANCE) = true.
Proof.
  intros Hnd. unfold greedy_tied. rewrite list_elem_of_filter. split.
  - intros [H1 H2]. cbv beta in H1. rewrite score_of_scores in H1 by done. done.
  - intros [H1 H2]. cbv beta. by rewrite score_of_scores.
Qed.

Lemma tied_NoDup edges scores m :
  NoDup (map engine_url edges) -> NoDup (map engine_url (greedy_tied scores m edges)).
Proof.
  intros Hnd. unfold greedy_tied. induction edges as [|e es IH]; simpl; [done|].
  apply NoDup_cons in Hnd as [Hn Hnd]. rewrite filter_cons. case_decide; [|by apply IH].
  simpl. constructor; [|by apply IH]. intros (e' & Heq & Hin)%list_elem_of_fmap.
  apply list_elem_of_filter in Hin as [_ Hin].
  apply Hn, list_elem_of_fmap. exists e'. done.
Qed.

Lemma greedy_best_sound edges best :
  greedy_pre sid kind owner engines edges ratio -> Forall valid_edge edges ->
  greedy_best sid owner (greedy_scores (baselines_of engines) edges) edges = Ok best ->
  best ∈ edges /\ near_minimum edges best
  /\ (forall o, o ∈ edges -> owner = Some (engine_url o) -> near_minimum edges o ->
      engine_url best = engine_url o).
Proof.
  intros Hp Hv H. pose proof (gp_nodup _ _ _ _ _ _ Hp) as Hnd.
  unfold greedy_best in H.
  destruct edges as [|e0 es] eqn:Heq; [done|]. rewrite <- Heq in *.
  assert (map snd (greedy_scores (baselines_of engines) edges) = total e0 :: map total es) as Hmap.
  { rewrite Heq. unfold greedy_scores. rewrite map_map. reflexivity. }
  rewrite Hmap in H.
  destruct (minimum_score edges e0 es Hp Hv Heq) as (emin & Hin & Hm & Hleast).
  rewrite Hm in H.
  assert (forall e, e ∈ greedy_tied (greedy_scores (baselines_of engines) edges) (total emin) edges
          -> e ∈ edges /\ near_minimum edges e) as Htied.
  { intros e [He Hle]%greedy_tied_spec; [|done]. split; [done|]. by exists emin. }
  destruct (owner_edge_of owner _) as [oe|] eqn:Eo.
  - injection H as ->. apply owner_edge_of_sound in Eo as [Ho1 Ho2].
    destruct (Htied _ Ho1). split_and!; [done..|]. intros o _ Ho _. congruence.
  - destruct (greedy_tied _ _ _) as [|t ts] eqn:Et; [done|]. injection H as <-.
    assert (min_by (edge_ltb sid) t ts ∈ t :: ts) as Hmin.
    { destruct (min_by_in (edge_ltb sid) t ts) as [-> | ?]; [by left | by right]. }
    destruct (Htied _ Hmin). split_and!; [done..|].
    intros o Ho Hown (emin' & Hin' & Hleast' & Hle). exfalso.
    assert (o ∈ t :: ts) as Hot.
    { rewrite <- Et. apply greedy_tied_spec; [done|]. split; [done|].
      by rewrite <- (min_add_tol (total emin') (total emin)) by
        (eauto using totals_not_nan). }
    assert (owner_edge_of owner (t :: ts) = Some o) as Hc.
    { apply owner_edge_of_spec; [rewrite <- Et; by apply tied_NoDup | done]. }
    congruence.
Qed.
End Candidate.

Section OrderIndependence.
Context (sid : string) (kind : GreedyStepKind) (owner : option string).
Context (engines : list EngineBaseline) (ratio : float).
Context (Hengines : Forall valid_engine engines).
Context (edges edges' : list FeasibleEdge) (Hperm : edges ≡ₚ edges').
Context (Hpre : greedy_pre sid kind owner engines edges ratio).
Context (Hvalid : Forall valid_edge edges).
Let baselines := baselines_of engines.

#[local] Instance rank_url_total : TotalLt (rank_url_ltb sid).
Proof.
  unfold rank_url_ltb. split.
  - intros a. by rewrite Z.ltb_irrefl, (tlt_irrefl (ltb := String.ltb) a), andb_false_r.
  - intros a b c. rewrite !orb_true_iff, !andb_true_iff, !Z.ltb_lt, !Z.eqb_eq.
    intros [?|[-> ?]] [?|[? ?]]; [left; lia | left; lia | by left | right].
    split; [done | by eapply (tlt_trans (ltb := String.ltb))].
  - intros a b. rewrite !orb_false_iff, !andb_false_iff, !Z.ltb_ge, !Z.eqb_neq.
    intros [? [?|?]] [? [?|?]]; try lia. by apply (tlt_total (ltb := String.ltb)).
Qed.

Lemma edges_NoDup' : NoDup (map engine_url edges').
Proof. rewrite <- Hperm. by eapply gp_nodup. Qed.

Lemma pre_perm : greedy_pre sid kind owner engines edges' ratio.
Proof.
  destruct Hpre as [? Hne Hnd Hs Hk ? Hst Hf].
  split; try done.
  - intros ->. by apply Permutation_nil_r in Hperm.
  - by rewrite <- Hperm.
  - intros e. rewrite <- Hperm. apply Hs.
  - intros e. rewrite <- Hperm. apply Hk.
  - intros H'. destruct (Hst H') as (e & He). exists e. by rewrite <- Hperm.
  - intros H' e. rewrite <- Hperm. by apply Hf.
Qed.

Lemma scores_perm : greedy_scores baselines edges ≡ₚ greedy_scores baselines edges'.
Proof. unfold greedy_scores. by rewrite Hperm. Qed.

Lemma score_of_perm u :
  score_of (greedy_scores baselines edges) u = score_of (greedy_scores baselines edges') u.
Proof.
  unfold score_of, dget_def.
  rewrite (dget_perm _ (greedy_scores baselines edges') u); [done | | apply scores_perm].
  unfold dkeys, greedy_scores. rewrite map_map. by eapply gp_nodup.
Qed.

Lemma owner_edge_perm l l' : l ≡ₚ l' -> NoDup (map engine_url l) ->
  owner_edge_of owner l = owner_edge_of owner l'.
Proof.
  intros Hl Hnd. assert (NoDup (map engine_url l')) as Hnd' by (by rewrite <- Hl).
  apply option_eq. intros e. rewrite !owner_edge_of_spec by done. by rewrite Hl.
Qed.

Lemma tied_perm m : greedy_tied (greedy_scores baselines edges) m edges
  ≡ₚ greedy_tied (greedy_scores baselines edges') m edges'.
Proof.
  unfold greedy_tied. rewrite <- Hperm.
  rewrite (list_filter_iff _ (fun e => fleb (score_of (greedy_scores baselines edges')
             (engine_url e)) (fadd m SCORE_TOLERANCE) = true)); [done|].
  intros e. by rewrite score_of_perm.
Qed.

Lemma url_inj l e1 e2 : NoDup (map engine_url l) -> e1 ∈ l -> e2 ∈ l ->
  engine_url e1 = engine_url e2 -> e1 = e2.
Proof.
  intros Hnd H1 H2 Heq.
  assert (owner_edge_of (Some (engine_url e1)) l = Some e1) as E1 by (by apply owner_edge_of_spec).
  assert (owner_edge_of (Some (engine_url e1)) l = Some e2) as E2.
  { apply owner_edge_of_spec; [done|]. by rewrite Heq. }
  congruence.
Qed.

(** Two non-empty permuted candidate lists have the same minimum. *)
Lemma min_edge_perm t ts t' ts' :
  t :: ts ≡ₚ t' :: ts' -> NoDup (map engine_url (t :: ts)) ->
  min_by (edge_ltb sid) t ts = min_by (edge_ltb sid) t' ts'.
Proof.
  intros Hl Hnd.
  assert (forall x l, min_by (edge_ltb sid) x l ∈ x :: l) as Hin.
  { intros x l. destruct (min_by_in (edge_ltb sid) x l) as [-> | ?]; [by left | by right]. }
  apply (url_inj (t :: ts)); [done | apply Hin | rewrite Hl; apply Hin |].
  unfold edge_ltb. rewrite !(min_by_map engine_url (rank_url_ltb sid)).
  apply (min_by_perm (rank_url_ltb sid)). by apply (Permutation_map engine_url) in Hl.
Qed.

Lemma greedy_best_perm :
  greedy_best sid owner (greedy_scores baselines edges) edges
  = greedy_best sid owner (greedy_scores baselines edges') edges'.
Proof.
  pose proof pre_perm as Hpre'. assert (Forall valid_edge edges') as Hvalid' by (by rewrite <- Hperm).
  unfold greedy_best.
  assert (forall l, l <> [] -> exists e0 es, l = e0 :: es /\
    map snd (greedy_scores baselines l) = edge_total baselines e0 :: map (edge_total baselines) es)
    as Hm.
  { intros [|e0 es] Hl; [done|]. exists e0, es. split; [done|].
    unfold greedy_scores. by rewrite map_map. }
  destruct (Hm edges (gp_edges _ _ _ _ _ _ Hpre)) as (e0 & es & Ee & Hs).
  destruct (Hm edges' (gp_edges _ _ _ _ _ _ Hpre')) as (e0' & es' & Ee' & Hs').
  rewrite Hs, Hs'.
  destruct (minimum_score sid kind owner engines ratio Hengines edges e0 es Hpre Hvalid Ee)
    as (m & Hin & Hmin & Hleast).
  destruct (minimum_score sid kind owner engines ratio Hengines edges' e0' es' Hpre' Hvalid' Ee')
    as (m' & Hin' & Hmin' & Hleast').
  fold baselines in Hmin, Hmin', Hleast, Hleast'. rewrite Hmin, Hmin'.
  assert (fadd (edge_total baselines m) SCORE_TOLERANCE
          = fadd (edge_total baselines m') SCORE_TOLERANCE) as Hadd.
  { pose proof (totals_not_nan sid kind owner engines ratio Hengines) as Hnn.
    apply min_add_tol; [by apply (Hnn edges) | by apply (Hnn edges') | |].
    - apply Hleast'. by rewrite <- Hperm.
    - apply Hleast. by rewrite Hperm. }
  assert (NoDup (map engine_url (greedy_tied (greedy_scores baselines edges)
            (edge_total baselines m) edges))) as Hnd by (apply tied_NoDup; by eapply gp_nodup).
  pose proof (tied_perm (edge_total baselines m)) as Ht.
  replace (greedy_tied (greedy_scores baselines edges') (edge_total baselines m') edges')
    with (greedy_tied (greedy_scores baselines edges') (edge_total baselines m) edges')
    by (unfold greedy_tied; by rewrite Hadd).
  rewrite (owner_edge_perm _ _ Ht Hnd). destruct (owner_edge_of owner _); [done|].
  destruct (greedy_tied (greedy_scores baselines edges) _ edges) as [|t ts];
    destruct (greedy_tied (greedy_scores baselines edges') _ edges') as [|t' ts'].
  - done.
  - by apply Permutation_nil_cons in Ht.
  - symmetry in Ht. by apply Permutation_nil_cons in Ht.
  - f_equal. by apply min_edge_perm.
Qed.

Lemma greedy_select_perm owner_edge best :
  greedy_select kind owner owner_edge (greedy_scores baselines edges) best ratio
  = greedy_select kind owner owner_edge (greedy_scores baselines edges') best ratio.
Proof.
  pose proof score_of_perm as Hsc. clear Hpre.
  unfold greedy_select, greedy_threshold_met.
  destruct kind; [| done | done |].
  - destruct owner; simpl; [by rewrite Hsc | done].
  - destruct owner, owner_edge; try done. by rewrite !Hsc.
Qed.
End OrderIndependence.

(** ** Properties *)

(** Everything of a decision but its score table. *)
Definition decision_core (d : GreedyStepDecision) :=
  (decision_reason d, owner_projected_score d, (best_target d, best_projected_score d),
   (selected_target d, selected_projected_score d),
   (improvement_ratio d, required_improvement_ratio d, threshold_met d)).

(** The decision does not depend on the order in which the feasible
    edges are listed: on any permutation of the edges the step succeeds with the
    same reason, candidate, selection, scores and threshold verdict, and the
    score table is a permutation of the first one. *)
Theorem greedy_order_independent sid kind owner engines edges edges' ratio d :
  Forall valid_engine engines -> Forall valid_edge edges -> edges ≡ₚ edges' ->
  choose_greedy_step sid kind owner engines edges ratio = Ok d ->
  exists d', choose_greedy_step sid kind owner engines edges' ratio = Ok d'
    /\ decision_core d' = decision_core d
    /\ candidate_projected_scores d' ≡ₚ candidate_projected_scores d.
Proof.
  intros He Hv Hp H. unfold choose_greedy_step in *.
  destruct (greedy_validate _ _ _ _ edges _) as [[]|] eqn:Ev; [|done].
  apply greedy_validate_pre in Ev as Hpre.
  rewrite (proj2 (greedy_validate_pre _ _ _ _ edges' _)) by eauto using pre_perm.
  cbn [res_bind] in *.
  rewrite <- (greedy_best_perm sid kind owner engines ratio He edges edges' Hp Hpre Hv).
  destruct (greedy_best _ _ _ _) as [best|]; [|done]. cbn [res_bind] in *.
  rewrite <- (owner_edge_perm owner edges edges' Hp) by (by eapply gp_nodup).
  rewrite <- (greedy_select_perm sid kind owner engines ratio edges edges' Hp Hpre).
  destruct (greedy_select _ _ _ _ _ _) as [s|]; [|done]. cbn [res_bind] in *.
  destruct (gs_selected s) as [sel|]; [|done]. injection H as <-.
  eexists. split; [done|]. unfold decision_core; simpl.
  rewrite <- !(score_of_perm sid kind owner engines ratio edges edges' Hp Hpre).
  split; [done | symmetry; by apply scores_perm].
Qed.

(** A returned decision names engines of the feasible edges with their
    projected scores; the candidate is within the tolerance of the lowest score;
    a fixed-owner step stays on its owner; a new session and a failover take the
    candidate, which for a failover is not the owner; and an existing session
    leaves its owner only for a different candidate that beats the owner's score
    by more than the tolerance and by at least the required ratio. *)
Theorem greedy_selection_sound sid kind owner engines edges ratio d :
  Forall valid_engine engines -> Forall valid_edge edges ->
  choose_greedy_step sid kind owner engines edges ratio = Ok d ->
  let total := edge_total (baselines_of engines) in
  exists best sel, best ∈ edges /\ sel ∈ edges
  /\ best_target d = engine_url best /\ best_projected_score d = total best
  /\ selected_target d = engine_url sel /\ selected_projected_score d = total sel
  /\ near_minimum engines edges best
  /\ match kind with
     | FIXED_OWNER => owner = Some (selected_target d)
     | NEW_SESSION => sel = best
     | MANDATORY_FAILOVER => sel = best /\ owner <> Some (selected_target d)
     | EXISTING_SESSION => exists o, o ∈ edges /\ owner = Some (engine_url o)
         /\ owner_projected_score d = Some (total o)
         /\ (sel = o \/ (sel = best /\ sel <> o
             /\ fltb (total sel) (fsub (total o) SCORE_TOLERANCE) = true
             /\ fleb ratio (greedy_improvement (total o) (total sel)) = true))
     end.
Proof.
  intros He Hv H total. unfold choose_greedy_step in H.
  destruct (greedy_validate _ _ _ _ edges _) as [[]|] eqn:Ev; [|done].
  apply greedy_validate_pre in Ev as Hpre. cbn [res_bind] in H.
  destruct (greedy_best _ _ _ _) as [best|] eqn:Eb; [|done]. cbn [res_bind] in H.
  apply (greedy_best_sound _ kind _ _ ratio) in Eb as (Hb & Hnear & _); [|done..].
  pose proof (gp_nodup _ _ _ _ _ _ Hpre) as Hnd.
  assert (forall e, e ∈ edges -> score_of (greedy_scores (baselines_of engines) edges)
            (engine_url e) = total e) as Hsc by (intros; by apply score_of_scores).
  exists best. destruct kind; simpl in H.
  - destruct (owner_edge_of owner edges) as [o|] eqn:Eo; [|done]. injection H as <-.
    apply owner_edge_of_sound in Eo as [Ho ->]. exists o. simpl. rewrite !Hsc by done. eauto 10.
  - injection H as <-. exists best. simpl. rewrite !Hsc by done.
    split_and!; try done. intros Ho. by eapply (gp_failover _ _ _ _ _ _ Hpre).
  - injection H as <-. exists best. simpl. rewrite !Hsc by done. eauto 10.
  - destruct owner as [o'|]; [|done]. destruct (owner_edge_of (Some o') edges) as [o|] eqn:Eo; [|done].
    apply owner_edge_of_sound in Eo as [Ho [= ->]]. injection H as <-. simpl.
    exists (if greedy_threshold_met (greedy_scores (baselines_of engines) edges) (engine_url o) best ratio
       then best else o).
    unfold greedy_threshold_met. rewrite !(Hsc o), !(Hsc best) by done.
    destruct (_ && _ && _) eqn:Em; rewrite ?(Hsc o), ?(Hsc best) by done.
    + bool_hyps. split_and!; try done. exists o. split_and!; try done. right.
      split_and!; try done. by intros ->.
    + split_and!; try done. exists o. split_and!; try done. by left.
Qed.

(** ** Witnesses *)

(** Two engines of capacity 8 requests and 100 tokens; the session's owner [a]
    is loaded, [b] is idle. *)
Definition w_engine (u : string) (load : Z) : EngineBaseline :=
  {| url := u; base_requests := f_of_Z load; base_tokens := f_of_Z (10 * load);
     base_queue := f0; request_capacity := f_of_Z 8; token_capacity := f_of_Z 100;
     token_usage := f0 |}.

Definition w_edge (u : string) : FeasibleEdge :=
  {| session_id := "s"; engine_url := u; queue_increment := f1; token_increment := f_of_Z 5 |}.

(** 0.1, the default of [min_load_improvement_ratio]. *)
Definition w_ratio : float := S754_finite false 7205759403792794 (-56).

Lemma greedy_order_independent_witness :
  exists d', choose_greedy_step "s" NEW_SESSION None [w_engine "a" 6; w_engine "b" 0]
               [w_edge "b"; w_edge "a"] w_ratio = Ok d'
             /\ selected_target d' = "b".
Proof.
  destruct (greedy_order_independent "s" NEW_SESSION None [w_engine "a" 6; w_engine "b" 0]
              [w_edge "a"; w_edge "b"] [w_edge "b"; w_edge "a"] w_ratio
              ltac:(let r := eval vm_compute in
                      (choose_greedy_step "s" NEW_SESSION None [w_engine "a" 6; w_engine "b" 0]
                         [w_edge "a"; w_edge "b"] w_ratio) in
                    match r with Ok ?d => exact d end))
    as (d' & Hd & Hcore & _).
  - repeat constructor.
  - repeat constructor.
  - apply Permutation_swap.
  - vm_compute. reflexivity.
  - exists d'. split; [exact Hd|]. unfold decision_core in Hcore. simpl in Hcore. congruence.
Defined.

Lemma greedy_selection_sound_witness :
  exists sel, sel ∈ [w_edge "a"; w_edge "b"] /\ engine_url sel = "b".
Proof.
  destruct (greedy_selection_sound "s" EXISTING_SESSION (Some "a")
              [w_engine "a" 6; w_engine "b" 0] [w_edge "a"; w_edge "b"] w_ratio
              ltac:(let r := eval vm_compute in
                      (choose_greedy_step "s" EXISTING_SESSION (Some "a")
                         [w_engine "a" 6; w_engine "b" 0] [w_edge "a"; w_edge "b"] w_ratio) in
                    match r with Ok ?d => exact d end))
    as (best & sel & _ & Hsel & _ & _ & Hs & _).
  - repeat constructor.
  - repeat constructor.
  - vm_compute. reflexivity.
  - exists sel. split; [exact Hsel|]. simpl in Hs. congruence.
Defined.
