(* ===== verification/SchedulerState.v ===== *)
(** * Engine-pool lifecycle ([dressage/proxy/rebalancing/scheduler_state.py])

    The four-state machine that says whether a compatibility pool may route by
    load.  The wall clock is an argument ([clock], the value [time.time()] would
    return); an explicit [now] overrides it as in the source. *)

From S2P Require Import Prelude.
From S2P Require Import PyFloat.
From Stdlib Require Import SpecFloat.

Local Open Scope string_scope.
Local Open Scope py_scope.

Inductive SchedulerState : Type := OFF | BOOTSTRAP | ACTIVE | DEGRADED.

#[export] Instance SchedulerState_eq_dec : EqDecision SchedulerState.
Proof. solve_decision. Defined.

Record EngineRebalancingConfig : Type := {
  enabled : bool;
  load_poll_interval_ms : Z;
  load_snapshot_poll_interval_ms : Z;
  metrics_stale_ms : Z;
  history_size : Z;
  min_load_improvement_ratio : float }.

Definition EngineRebalancingConfig__post_init__ (c : EngineRebalancingConfig) : result unit :=
  check! (load_poll_interval_ms c <=? 0)%Z
    else ValueError "load_poll_interval_ms must be positive" ;;
  check! (load_snapshot_poll_interval_ms c <=? 0)%Z
    else ValueError "load_snapshot_poll_interval_ms must be positive" ;;
  check! (metrics_stale_ms c <=? 0)%Z
    else ValueError "metrics_stale_ms must be positive" ;;
  check! (history_size c <=? 0)%Z
    else ValueError "history_size must be positive" ;;
  check! negb (fleb f0 (min_load_improvement_ratio c) && fleb (min_load_improvement_ratio c) f1)
    else ValueError "min_load_improvement_ratio must be between 0 and 1" ;;
  Ok tt.

Record PoolReadiness : Type := {
  healthy_engines : Z;
  metrics_fresh : bool;
  eligible_paths : Z }.

Definition ready (r : PoolReadiness) : bool :=
  (2 <=? healthy_engines r)%Z && metrics_fresh r && (0 <? eligible_paths r)%Z.

Record CompatibilityPool : Type := {
  fingerprint : string;
  config : EngineRebalancingConfig;
  state : SchedulerState;
  state_since : float;
  transition_reason : string;
  last_readiness : option PoolReadiness;
  _was_active : bool }.

Definition at_time (now : option float) (clock : float) : float :=
  match now with Some t => t | None => clock end.

Definition CompatibilityPool__init__ (fp : string) (c : EngineRebalancingConfig)
    (now : option float) (clock : float) : CompatibilityPool :=
  {| fingerprint := fp;
     config := c;
     state := if enabled c then BOOTSTRAP else OFF;
     state_since := at_time now clock;
     transition_reason := if enabled c then "engine_rebalancing_enabled"
                          else "engine_rebalancing_disabled";
     last_readiness := None;
     _was_active := false |}.

Definition _transition (p : CompatibilityPool) (s : SchedulerState) (reason : string)
    (now : option float) (clock : float) : CompatibilityPool :=
  if decide (s = state p)
  then {| fingerprint := fingerprint p; config := config p; state := state p;
          state_since := state_since p; transition_reason := reason;
          last_readiness := last_readiness p; _was_active := _was_active p |}
  else {| fingerprint := fingerprint p; config := config p; state := s;
          state_since := at_time now clock; transition_reason := reason;
          last_readiness := last_readiness p; _was_active := _was_active p |}.

(** [reason or default]: the empty string is falsy. *)
Definition reason_or (reason : option string) (default : string) : string :=
  match reason with
  | Some r => if String.eqb r "" then default else r
  | None => default
  end.

Definition set_readiness (p : CompatibilityPool) (r : PoolReadiness) : CompatibilityPool :=
  {| fingerprint := fingerprint p; config := config p; state := state p;
     state_since := state_since p; transition_reason := transition_reason p;
     last_readiness := Some r; _was_active := _was_active p |}.

Definition set_was_active (p : CompatibilityPool) : CompatibilityPool :=
  {| fingerprint := fingerprint p; config := config p; state := state p;
     state_since := state_since p; transition_reason := transition_reason p;
     last_readiness := last_readiness p; _was_active := true |}.

Definition update (p : CompatibilityPool) (r : PoolReadiness) (reason : option string)
    (now : option float) (clock : float) : CompatibilityPool * SchedulerState :=
  let p1 := set_readiness p r in
  let p2 :=
    if negb (enabled (config p1))
    then _transition p1 OFF (reason_or reason "engine_rebalancing_disabled") now clock
    else if ready r
    then _transition (set_was_active p1) ACTIVE
           (reason_or reason "pool_readiness_satisfied") now clock
    else if _was_active p1
    then _transition p1 DEGRADED (reason_or reason "pool_readiness_lost") now clock
    else _transition p1 BOOTSTRAP (reason_or reason "pool_readiness_pending") now clock in
  (p2, state p2).

(** ** Specification: the state is a function of the readiness history *)

(** The reports of a run, oldest first, with their reasons and times. *)
Record Report : Type := {
  rp_readiness : PoolReadiness;
  rp_reason : option string;
  rp_now : option float;
  rp_clock : float }.

Definition apply_report (p : CompatibilityPool) (r : Report) : CompatibilityPool :=
  fst (update p (rp_readiness r) (rp_reason r) (rp_now r) (rp_clock r)).

Definition run_reports (p : CompatibilityPool) (rs : list Report) : CompatibilityPool :=
  fold_left apply_report rs p.

Definition ever_ready (rs : list Report) : bool := existsb (fun r => ready (rp_readiness r)) rs.

Definition spec_state (en : bool) (rs : list Report) : SchedulerState :=
  if negb en then OFF
  else match last rs with
       | None => BOOTSTRAP
       | Some r =>
           if ready (rp_readiness r) then ACTIVE
           else if ever_ready rs then DEGRADED else BOOTSTRAP
       end.

(** ** Properties *)

Lemma _transition_state p s reason now clock : state (_transition p s reason now clock) = s.
Proof. unfold _transition. by case_decide. Qed.

Lemma update_config p r reason now clock :
  config (fst (update p r reason now clock)) = config p.
Proof.
  unfold update, _transition; simpl.
  repeat (case_match; simpl; try done); by repeat case_decide.
Qed.

Lemma update_was_active p r reason now clock :
  _was_active (fst (update p r reason now clock))
  = _was_active p || (enabled (config p) && ready r).
Proof.
  unfold update, _transition; simpl.
  destruct (enabled (config p)), (ready r), (_was_active p); simpl; by repeat case_decide.
Qed.

Lemma existsb_app_one {A} (f : A -> bool) l x : existsb f (l ++ [x]) = existsb f l || f x.
Proof. rewrite existsb_app. simpl. by rewrite orb_false_r. Qed.

Lemma run_reports_config p rs : config (run_reports p rs) = config p.
Proof.
  unfold run_reports. revert p. induction rs as [|r rs IH]; intros p; simpl; [done|].
  rewrite IH. apply update_config.
Qed.

(** Refinement of the history specification.  After any sequence of
    readiness reports the pool's state is the one the whole history determines:
    OFF when rebalancing is disabled, otherwise ACTIVE exactly when the latest
    report is ready, DEGRADED when it is not but an earlier one was, and
    BOOTSTRAP when none ever was; and [_was_active] records that a report was
    ready. *)
Theorem pool_state_refines_history fp c now clock rs :
  let p := run_reports (CompatibilityPool__init__ fp c now clock) rs in
  state p = spec_state (enabled c) rs
  /\ _was_active p = enabled c && ever_ready rs.
Proof.
  simpl. induction rs as [|r rs IH] using rev_ind.
  - unfold spec_state. simpl. by destruct (enabled c).
  - unfold run_reports in *. rewrite fold_left_app. simpl.
    set (p := fold_left apply_report rs _) in *.
    assert (config p = c) as Hc by (apply run_reports_config).
    destruct IH as [IHs IHw]. split.
    + unfold apply_report, update, spec_state, ever_ready. simpl.
      rewrite last_snoc, existsb_app_one, Hc, IHw. unfold ever_ready.
      destruct (enabled c); simpl; rewrite ?_transition_state; [|done].
      destruct (ready (rp_readiness r)); simpl; rewrite ?_transition_state; [done|].
      rewrite orb_false_r. destruct (existsb _ rs); by rewrite _transition_state.
    + unfold apply_report. rewrite update_was_active, IHw, Hc.
      unfold ever_ready. rewrite existsb_app_one. by destruct (enabled c), (existsb _ rs).
Qed.

(** The timestamp of the state moves exactly with the state.  A report that
    keeps the state keeps [state_since]; a report that changes it stamps the
    given time, or the clock when none is given. *)
Lemma update_state_since p r reason now clock :
  let p' := fst (update p r reason now clock) in
  state_since p' = if decide (state p' = state p) then state_since p else at_time now clock.
Proof.
  assert (forall q s rsn, state q = state p -> state_since q = state_since p ->
    let q' := _transition q s rsn now clock in
    state_since q' = if decide (state q' = state p) then state_since p else at_time now clock) as H.
  { intros q s rsn Hs Ht q'. unfold q', _transition.
    destruct (decide (s = state q)); simpl.
    - by rewrite decide_True.
    - rewrite decide_False; [done | congruence]. }
  unfold update; cbn [fst].
  destruct (negb _); [by apply H|]. destruct (ready r); [by apply H|].
  destruct (_was_active _); by apply H.
Qed.
