(* ===== verification/Calibration.v ===== *)
(** * Calibration of transfer paths
    ([dressage/proxy/rebalancing/model_cache_profile.py], [transfer_calibrator.py])

    What a context costs to move ([ModelCacheProfile]), which links have to be measured
    ([CalibrationPlan]) and what has been measured ([TransferCalibrator]).  A benchmark is
    a parameter: its answers by task, payload and attempt.  Attempt 0 is the warm-up. *)

From S2P Require Import Prelude.
From S2P Require Import PyFloat.
From S2P Require Import Sha256.
From S2P Require Import PyVal.
From S2P Require Import Json.
From Stdlib Require Import Ascii.

Local Open Scope string_scope.
Local Open Scope list_scope.
Local Open Scope py_scope.

(** ** Fingerprints and element sizes *)

Definition canonical_fingerprint `{PyText} (payload : list (string * pyval)) : string :=
  hex_of (sha256 (bytes_of (json_dumps (PDict payload)))).

Definition _DTYPE_BYTES : list (string * Z) :=
  [("float64", 8); ("fp64", 8); ("float32", 4); ("fp32", 4); ("bfloat16", 2); ("bf16", 2);
   ("float16", 2); ("fp16", 2); ("half", 2); ("float8", 1); ("fp8", 1); ("int8", 1)]%Z.

(** [s.replace(sub, "")] for a non-empty [sub]; the fuel is the length. *)
Fixpoint remove_all (fuel : nat) (sub s : string) : string :=
  match fuel, s with
  | O, _ => s
  | _, EmptyString => ""
  | S fuel, String c s' =>
      if String.prefix sub s then remove_all fuel sub (drop_str (String.length sub) s)
      else String c (remove_all fuel sub s')
  end.

Definition dtype_nbytes `{PyText} (value : pyval) : Z :=
  match value with
  | PNone => 2
  | _ => let text := lower (py_str value) in
         dget_def 2%Z _DTYPE_BYTES (remove_all (String.length text) "torch." text)
  end.

(** ** [ModelCacheProfile] *)

Record ModelCacheProfile : Type := {
  mp_fingerprint : string;
  full_layers : Z;
  full_kv_heads : Z;
  full_head_dim : Z;
  full_dtype_bytes : Z;
  swa_layers : Z;
  swa_kv_heads : Z;
  swa_head_dim : Z;
  swa_dtype_bytes : Z;
  page_size : Z;
  swa_window_size : option Z;
  state_bytes_per_checkpoint : Z;
  metadata_bytes_estimate : Z;
  confidence : string }.

Definition available (p : ModelCacheProfile) : bool :=
  (0 <? full_layers p)%Z || (0 <? swa_layers p)%Z || (0 <? state_bytes_per_checkpoint p)%Z.

(** [math.ceil] of a finite float *)
Definition fceil (f : float) : Z :=
  let z := match py_int (PFloat f) with Ok z => z | Raise _ => 0%Z end in
  if fltb (f_of_Z z) f then (z + 1)%Z else z.

Definition page_round_up (p : ModelCacheProfile) (tokens : Z) : Z :=
  let size := Z.max 1 (page_size p) in
  (fceil (fdiv (f_of_Z (Z.max 0 tokens)) (f_of_Z size)) * size)%Z.

Definition estimate_bytes (p : ModelCacheProfile) (context_tokens : Z) : Z :=
  let length := Z.max 0 context_tokens in
  let full := (length * 2 * Z.max 0 (full_layers p) * Z.max 0 (full_kv_heads p)
               * Z.max 0 (full_head_dim p) * Z.max 1 (full_dtype_bytes p))%Z in
  let swa_resident := match swa_window_size p with
                      | Some w => if (0 <? swa_layers p)%Z && negb (w =? 0)%Z
                                  then page_round_up p (Z.min length w) else 0%Z
                      | None => 0%Z
                      end in
  let swa := (swa_resident * 2 * Z.max 0 (swa_layers p) * Z.max 0 (swa_kv_heads p)
              * Z.max 0 (swa_head_dim p) * Z.max 1 (swa_dtype_bytes p))%Z in
  let state := if (0 <? length)%Z then state_bytes_per_checkpoint p else 0%Z in
  (full + swa + state + Z.max 0 (metadata_bytes_estimate p))%Z.

(** [int(value or default)] *)
Definition int_or (v : pyval) (d : Z) : result Z := if py_truth v then py_int v else Ok d.

(** [a or b or ...] *)
Fixpoint first_true (l : list pyval) : pyval :=
  match l with
  | [] => PNone
  | [v] => v
  | v :: l' => if py_truth v then v else first_true l'
  end.

Section FromConfig.
Context `{PyText}.

Definition swa_markers : list string := ["sliding_attention"; "swa"; "sliding_window"].
Definition state_markers : list string := ["linear_attention"; "mamba"; "gdn"].

Definition count_in (markers : list string) (l : list pyval) : Z :=
  Z.of_nat (length (List.filter (fun v => bool_decide (lower (py_str v) ∈ markers)) l)).

(** The state of the [state_layers] linear-attention layers, and how sure it is. *)
Definition state_bytes (config : list (string * pyval)) (state_layers hidden_size : Z)
    (dtype state_dtype : pyval) : result (Z * string) :=
  let get k := pget config k in
  if (state_layers =? 0)%Z then Ok (0%Z, "exact")
  else
    let! key_heads := int_or (get "linear_num_key_heads") 0 in
    let! value_heads := int_or (get "linear_num_value_heads") 0 in
    let! key_dim := int_or (get "linear_key_head_dim") 0 in
    let! value_dim := int_or (get "linear_value_head_dim") 0 in
    let! conv_kernel := int_or (get "linear_conv_kernel_dim") 0 in
    let! state_size := int_or (first_true [get "mamba_d_state"; get "state_size"; PInt 0]) 0 in
    let! conv_size := int_or (first_true [get "mamba_d_conv"; get "conv_kernel"; PInt 0]) 0 in
    let! expand := py_float (first_true [get "mamba_expand"; get "expand"; PFloat f1]) in
    let! inner_dim := py_int (first_true [get "mamba_inner_dim"; PFloat (fmul (f_of_Z hidden_size) expand)]) in
    if forallb (fun v => (0 <? v)%Z) [key_heads; value_heads; key_dim; value_dim; conv_kernel]
    then
      let temporal := (value_heads * value_dim * key_dim)%Z in
      let conv := ((2 * key_heads * key_dim + value_heads * value_dim) * Z.max 1 (conv_kernel - 1))%Z in
      let temporal_dtype := first_true [get "mamba_ssm_dtype"; state_dtype] in
      Ok ((state_layers * (temporal * dtype_nbytes temporal_dtype + conv * dtype_nbytes dtype))%Z, "config")
    else if (0 <? inner_dim)%Z && ((0 <? state_size)%Z || (0 <? conv_size)%Z)
    then Ok ((state_layers * (inner_dim * (state_size + conv_size)) * dtype_nbytes state_dtype)%Z, "exact")
    else Ok ((state_layers * Z.max 1 hidden_size * 64 * dtype_nbytes state_dtype)%Z, "upper_bound").

(** [model_config] is the dictionary of the configuration. *)
Definition from_model_config (model_config deployment : list (string * pyval)) : result ModelCacheProfile :=
  let config := match pget model_config "text_config" with PDict d => d | _ => model_config end in
  let get k := pget config k in
  let! hidden_size := int_or (get "hidden_size") 0 in
  let! heads := int_or (get "num_attention_heads") 1 in
  let! head_dim := py_int (first_true [get "head_dim"; PInt (hidden_size / Z.max 1 heads)]) in
  let! kv_heads := py_int (first_true [get "num_key_value_heads"; PInt heads]) in
  let! layer_count := int_or (first_true [get "num_hidden_layers"; get "num_layers"; PInt 0]) 0 in
  let layer_types := match get "layer_types" with
                     | PList l => if (Z.of_nat (length l) =? layer_count)%Z then l else []
                     | _ => []
                     end in
  let swa := match layer_types with [] => 0%Z | l => count_in swa_markers l end in
  let states := match layer_types with [] => 0%Z | l => count_in state_markers l end in
  let full := match layer_types with [] => layer_count | _ => Z.max 0 (layer_count - swa - states) end in
  let dtype := first_true [pget deployment "kv_dtype"; pget deployment "dtype"; get "torch_dtype"; get "dtype"] in
  let state_dtype := first_true [pget deployment "state_dtype"; dtype] in
  let! page := py_int (first_true [pget deployment "page_size"; get "page_size"; PInt 1]) in
  let window := first_true [pget deployment "swa_window_size"; get "sliding_window"] in
  let! sb := state_bytes config states hidden_size dtype state_dtype in
  let! window := (if is_pnone window then Ok None else let! w := py_int window in Ok (Some w)) in
  let! metadata := int_or (pget deployment "metadata_bytes_estimate") 0 in
  Ok {| mp_fingerprint := canonical_fingerprint deployment; full_layers := full; full_kv_heads := kv_heads;
        full_head_dim := head_dim; full_dtype_bytes := dtype_nbytes dtype; swa_layers := swa;
        swa_kv_heads := kv_heads; swa_head_dim := head_dim; swa_dtype_bytes := dtype_nbytes dtype;
        page_size := page; swa_window_size := window; state_bytes_per_checkpoint := fst sb;
        metadata_bytes_estimate := metadata; confidence := snd sb |}.
End FromConfig.

(** ** Plans *)

Inductive CacheSource : Type := NONE | MOONCAKE.

#[export] Instance CacheSource_eq_dec : EqDecision CacheSource.
Proof. solve_decision. Defined.

Record CalibrationTask : Type := {
  source_node : string;
  target_node : string;
  link_type : string;
  payload_buckets : list Z }.

Record CalibrationPlan : Type := {
  cp_fingerprint : string;
  tasks : list CalibrationTask;
  cp_skipped_links : list (string * string) }.

(** ASCII [str.isalnum] *)
Definition is_alnum_ascii (c : ascii) : bool :=
  let n := N_of_ascii c in
  ((48 <=? n) && (n <=? 57) || (65 <=? n) && (n <=? 90) || (97 <=? n) && (n <=? 122))%N.

Fixpoint map_chars (f : ascii -> ascii) (s : string) : string :=
  match s with EmptyString => "" | String c s' => String (f c) (map_chars f s') end.

(** [s.strip("_")] *)
Fixpoint lstrip_under (s : string) : string :=
  match s with
  | String "_" s' => lstrip_under s'
  | _ => s
  end.

Fixpoint rstrip_under (s : string) : string :=
  match s with
  | EmptyString => ""
  | String c s' => match rstrip_under s' with
                   | EmptyString => if bool_decide (c = "_"%char) then "" else String c ""
                   | t => String c t
                   end
  end.

Definition strip_under (s : string) : string := rstrip_under (lstrip_under s).

(** The link name of a plan: one underscore per character. *)
Definition plan_link (protocol : string) : string :=
  let p := strip_under (map_chars (fun c => if is_alnum_ascii c then c else "_"%char) (lower protocol)) in
  "mooncake_" +:+ (if String.eqb p "" then "remote" else p).

Definition TOKEN_BUCKETS : list Z := [8 * 1024; 16 * 1024; 32 * 1024; 64 * 1024]%Z.

(** [sorted({...})] *)
Definition sorted_set (l : list Z) : list Z := sort_by (fun a b => (a <=? b)%Z) (remove_dups l).
Definition sorted_strings_set (l : list string) : list string :=
  sort_by (fun a b => bool_decide (String.le a b)) (remove_dups l).

(** [engine_deployments] is read for the node and the protocol of each deployment. *)
Definition build_plan (fp : string) (deployments : list (string * string)) (shared_l3 host_staging gpudirect : bool)
    (profile : ModelCacheProfile) : CalibrationPlan :=
  let nodes := sorted_strings_set (map fst deployments) in
  if (length deployments <? 2)%nat
  then {| cp_fingerprint := fp; tasks := []; cp_skipped_links := [("migration", "single-engine deployment")] |}
  else if negb shared_l3
  then {| cp_fingerprint := fp; tasks := [];
          cp_skipped_links := [("mooncake", "L3 disabled"); ("rdma", "L3 disabled")] |}
  else
    let buckets := sorted_set (map (fun t => Z.max 1 (estimate_bytes profile t)) TOKEN_BUCKETS) in
    let protocols := fold_left (fun d np => dset d (fst np)
                        (if String.eqb (snd np) "" then "remote" else snd np)) deployments [] in
    let link source target := if gpudirect then "mooncake_gpudirect"
                              else if String.eqb source target then "mooncake_local"
                              else plan_link (dget_def "" protocols target) in
    let task source target l := {| source_node := source; target_node := target; link_type := l;
                                   payload_buckets := buckets |} in
    {| cp_fingerprint := fp;
       tasks := concat (map (fun source => concat (map (fun target =>
                  task source target (link source target)
                  :: (if host_staging then [task source target "d2h"; task source target "h2d"] else []))
                  nodes)) nodes);
       cp_skipped_links :=
         (if gpudirect then [("h2d", "GPUDirect restore path"); ("d2h", "GPUDirect restore path")] else [])
         ++ (if Nat.eqb (length nodes) 1 then [("rdma", "single-node deployment")] else [])
         ++ [("p2p", "native restore path does not use CUDA P2P")] |}.

(** ** [TransferCalibrator] *)

Inductive CalibrationState : Type := DISABLED | WAITING_FOR_RAY | RUNNING | READY | DEGRADED.

#[export] Instance CalibrationState_eq_dec : EqDecision CalibrationState.
Proof. solve_decision. Defined.

Record CalibrationSample : Type := {
  elapsed_seconds_p75 : float;
  bandwidth_bytes_per_second_p25 : float;
  payload_bytes : Z;
  sample_count : Z;
  measured_at : float }.

(** The constructor with both measures given. *)
Definition CalibrationSample__init__ (elapsed bandwidth : float) (payload count : Z) (at_ : float) : CalibrationSample :=
  {| elapsed_seconds_p75 := fmax f0 elapsed; bandwidth_bytes_per_second_p25 := fmax f1 bandwidth;
     payload_bytes := Z.max 0 payload; sample_count := Z.max 1 count; measured_at := at_ |}.

(** [_percentile(values, quarters / 4)] *)
Definition percentile_index (quarters n : Z) : Z := Z.max 0 (Z.min (n - 1) (- (- (quarters * n) / 4) - 1)).

Definition _percentile (values : list float) (quarters : Z) : result float :=
  match values with
  | [] => Raise (ValueError "percentile requires at least one value")
  | _ => let ordered := sort_by (fun a b => negb (fltb b a)) values in
         Ok (nth (Z.to_nat (percentile_index quarters (Z.of_nat (length values)))) ordered f0)
  end.

Abbreviation result_key := (string * string * string * Z)%type.

Record TransferCalibrator : Type := {
  _results : list (result_key * CalibrationSample);
  _result_plan_fingerprints : list (result_key * string);
  _errors : list ((string * string * string) * string);
  cal_state : CalibrationState;
  state_reason : string;
  cal_state_since : float;
  active_plan_fingerprint : option string }.

Definition TransferCalibrator__init__ (now : float) : TransferCalibrator :=
  {| _results := []; _result_plan_fingerprints := []; _errors := []; cal_state := DISABLED;
     state_reason := "engine_rebalancing_disabled"; cal_state_since := now; active_plan_fingerprint := None |}.

Definition transition (c : TransferCalibrator) (state : CalibrationState) (reason : string)
    (plan_fingerprint : option string) (now : float) : TransferCalibrator :=
  {| _results := _results c; _result_plan_fingerprints := _result_plan_fingerprints c; _errors := _errors c;
     cal_state := state; state_reason := reason;
     cal_state_since := if bool_decide (state = cal_state c) then cal_state_since c else now;
     active_plan_fingerprint := match plan_fingerprint with
                                | Some _ => plan_fingerprint
                                | None => active_plan_fingerprint c
                                end |}.

Definition with_results (c : TransferCalibrator) results prints errors : TransferCalibrator :=
  {| _results := results; _result_plan_fingerprints := prints; _errors := errors; cal_state := cal_state c;
     state_reason := state_reason c; cal_state_since := cal_state_since c;
     active_plan_fingerprint := active_plan_fingerprint c |}.

Definition task_key (t : CalibrationTask) : string * string * string := (source_node t, target_node t, link_type t).
Definition payload_key (t : CalibrationTask) (payload : Z) : result_key := (task_key t, payload).

(** The answer of the benchmark at an attempt: a sample, or an exception's text. *)
Abbreviation Benchmark := (CalibrationTask -> Z -> nat -> (CalibrationSample + string)%type).

(** The attempts from the [attempt]-th on, until eight samples or sixteen attempts. *)
Fixpoint measure (benchmark : Benchmark) (t : CalibrationTask) (payload : Z) (rest attempt : nat)
    (measured : list CalibrationSample) (last_error : option string) : list CalibrationSample * option string :=
  match rest with
  | O => (measured, last_error)
  | S rest =>
      if (length measured <? 8)%nat
      then match benchmark t payload attempt with
           | inl s => measure benchmark t payload rest (S attempt) (measured ++ [s]) last_error
           | inr e => measure benchmark t payload rest (S attempt) measured (Some e)
           end
      else (measured, last_error)
  end.

Definition measure_payload (benchmark : Benchmark) (t : CalibrationTask) (payload : Z)
    : list CalibrationSample * option string :=
  let warmup_error := match benchmark t payload O with inl _ => None | inr e => Some e end in
  measure benchmark t payload 16 1 [] warmup_error.

Definition result_or {A} (r : result A) (d : A) : A := match r with Ok a => a | Raise _ => d end.

Definition summary (measured : list CalibrationSample) (payload : Z) (now : float) : CalibrationSample :=
  CalibrationSample__init__ (result_or (_percentile (map elapsed_seconds_p75 measured) 3) f0)
    (result_or (_percentile (map bandwidth_bytes_per_second_p25 measured) 1) f0)
    payload (Z.of_nat (length measured)) now.

Definition bucket_done (c : TransferCalibrator) (t : CalibrationTask) (payload : Z) : bool :=
  bool_decide (is_Some (dget (_results c) (payload_key t payload))).

(** One payload bucket.  The text of a failure carries the last exception. *)
Definition run_bucket (fp : string) (benchmark : Benchmark) (now : float) (t : CalibrationTask)
    (c : TransferCalibrator) (payload : Z) : TransferCalibrator :=
  let '(measured, last_error) := measure_payload benchmark t payload in
  if (length measured <? 8)%nat
  then with_results c (_results c) (_result_plan_fingerprints c)
         (dset (_errors c) (task_key t)
            ("collected " +:+ str_of_Z (Z.of_nat (length measured)) +:+ "/8 valid samples: " +:+ default "None" last_error))
  else
    let c := with_results c (dset (_results c) (payload_key t payload) (summary measured payload now))
               (dset (_result_plan_fingerprints c) (payload_key t payload) fp) (_errors c) in
    if forallb (bucket_done c t) (payload_buckets t)
    then with_results c (_results c) (_result_plan_fingerprints c) (dpop (_errors c) (task_key t))
    else c.

Definition run_task (fp : string) (benchmark : Benchmark) (now : float) (c : TransferCalibrator)
    (t : CalibrationTask) : TransferCalibrator :=
  fold_left (run_bucket fp benchmark now t) (payload_buckets t) c.

Definition execute (c : TransferCalibrator) (plan : CalibrationPlan) (benchmark : option Benchmark) (now : float)
    : TransferCalibrator :=
  match benchmark with
  | None => fold_left (fun c t => with_results c (_results c) (_result_plan_fingerprints c)
              (dset (_errors c) (task_key t) "node-local calibration backend unavailable")) (tasks plan) c
  | Some b => fold_left (run_task (cp_fingerprint plan) b now) (tasks plan) c
  end.

Definition plan_complete (c : TransferCalibrator) (plan : CalibrationPlan) : bool :=
  forallb (fun t => forallb (bucket_done c t) (payload_buckets t)) (tasks plan).

(** A set, in the order of the results. *)
Definition completed_links (c : TransferCalibrator) (source target : string) : list string :=
  remove_dups (omap (fun kv => let '(s, t, link, _) := fst kv in
                               if String.eqb s source && String.eqb t target then Some link else None)
                    (_results c)).

(** Completed and pending payloads of a task. *)
Definition task_progress (c : TransferCalibrator) (t : CalibrationTask) : list Z * list Z :=
  let completed := List.filter (bucket_done c t) (payload_buckets t) in
  (completed, List.filter (fun p => negb (bool_decide (p ∈ completed))) (payload_buckets t)).

(** ** What calibration establishes *)

Lemma measure_count benchmark t payload rest : forall attempt measured e,
  length (fst (measure benchmark t payload rest attempt measured e))
  = Nat.min (Nat.max 8 (length measured))
      (length measured + length (List.filter (fun i => match benchmark t payload i with inl _ => true | inr _ => false end)
                                             (seq attempt rest))).
Proof.
  induction rest as [|rest IH]; intros attempt measured e; cbn [measure]; [simpl; lia|].
  cbn [seq List.filter]. destruct (Nat.ltb_spec (length measured) 8).
  - destruct (benchmark t payload attempt); rewrite IH; [rewrite length_app; simpl; lia|lia].
  - cbn [fst]. destruct (benchmark t payload attempt); simpl; lia.
Qed.

(** The valid samples among the sixteen attempts after the warm-up. *)
Definition valid_attempts (benchmark : Benchmark) (t : CalibrationTask) (payload : Z) : nat :=
  length (List.filter (fun i => match benchmark t payload i with inl _ => true | inr _ => false end) (seq 1 16)).

Lemma measured_enough benchmark t payload :
  (length (fst (measure_payload benchmark t payload)) <? 8)%nat = (valid_attempts benchmark t payload <? 8)%nat.
Proof.
  unfold measure_payload. rewrite measure_count. unfold valid_attempts. set (v := length (List.filter _ _)).
  cbn [length]. destruct (Nat.ltb_spec (Nat.min (Nat.max 8 0) (0 + v)) 8), (Nat.ltb_spec v 8); lia.
Qed.

Lemma bucket_results fp benchmark now t c payload k :
  is_Some (dget (_results (run_bucket fp benchmark now t c payload)) k)
  <-> is_Some (dget (_results c) k) \/ (k = payload_key t payload /\ (8 <= valid_attempts benchmark t payload)%nat).
Proof.
  unfold run_bucket. pose proof (measured_enough benchmark t payload) as M.
  destruct (measure_payload benchmark t payload) as [measured e]. cbn [fst] in M. rewrite M.
  destruct (Nat.ltb_spec (valid_attempts benchmark t payload) 8) as [L|L].
  - cbn [_results with_results]. split; [by left|]. intros [I|[_ I]]; [done|lia].
  - assert (E : _results (if forallb (bucket_done (with_results c (dset (_results c) (payload_key t payload)
        (summary measured payload now)) (dset (_result_plan_fingerprints c) (payload_key t payload) fp) (_errors c)) t)
        (payload_buckets t) then with_results (with_results c (dset (_results c) (payload_key t payload)
        (summary measured payload now)) (dset (_result_plan_fingerprints c) (payload_key t payload) fp) (_errors c))
        (dset (_results c) (payload_key t payload) (summary measured payload now))
        (dset (_result_plan_fingerprints c) (payload_key t payload) fp) (dpop (_errors c) (task_key t))
        else with_results c (dset (_results c) (payload_key t payload) (summary measured payload now))
        (dset (_result_plan_fingerprints c) (payload_key t payload) fp) (_errors c))
        = dset (_results c) (payload_key t payload) (summary measured payload now)) by (by destruct (forallb _ _)).
    cbn [_results _result_plan_fingerprints _errors with_results] in *. rewrite E, dget_dset. case_decide as D.
    + subst k. split; [by right|by eexists].
    + split; [by left|]. intros [I|[-> _]]; done.
Qed.

Lemma task_results fp benchmark now t k ps : forall c,
  is_Some (dget (_results (fold_left (run_bucket fp benchmark now t) ps c)) k)
  <-> is_Some (dget (_results c) k)
      \/ exists p, p ∈ ps /\ k = payload_key t p /\ (8 <= valid_attempts benchmark t p)%nat.
Proof.
  induction ps as [|p ps IH]; intros c; cbn [fold_left].
  - split; [by left|]. intros [I|(p & I & _)]; [done|by apply elem_of_nil in I].
  - rewrite IH, bucket_results. split.
    + intros [[I|[-> L]]|(q & I & E & L)]; [by left|right; exists p; split; [by left|done]|].
      right. exists q. split; [by right|done].
    + intros [I|(q & I & -> & L)]; [by left; left|]. apply elem_of_cons in I as [->|I]; [left; by right|].
      right. by exists q.
Qed.

Lemma plan_results fp benchmark now k ts : forall c,
  is_Some (dget (_results (fold_left (run_task fp benchmark now) ts c)) k)
  <-> is_Some (dget (_results c) k)
      \/ exists t p, t ∈ ts /\ p ∈ payload_buckets t /\ k = payload_key t p /\ (8 <= valid_attempts benchmark t p)%nat.
Proof.
  induction ts as [|t ts IH]; intros c; cbn [fold_left].
  - split; [by left|]. intros [I|(t & p & I & _)]; [done|by apply elem_of_nil in I].
  - rewrite IH. unfold run_task at 1. rewrite task_results. split.
    + intros [[I|(p & I & -> & L)]|(t' & p & It & Ip & E)]; [by left|right; exists t, p; split; [by left|done]|].
      right. exists t', p. split; [by right|done].
    + intros [I|(t' & p & I & Ip & -> & L)]; [by left; left|].
      apply elem_of_cons in I as [->|I]; [left; right; by exists p|right; by exists t', p].
Qed.

Lemma plan_complete_spec c plan : plan_complete c plan = true <->
  forall t p, t ∈ tasks plan -> p ∈ payload_buckets t -> is_Some (dget (_results c) (payload_key t p)).
Proof.
  unfold plan_complete. rewrite forallb_forall. split.
  - intros F t p It Ip. apply list_elem_of_In in It. apply F in It. rewrite forallb_forall in It.
    apply list_elem_of_In, It in Ip. by apply bool_decide_eq_true_1 in Ip.
  - intros F t It. apply forallb_forall. intros p Ip. apply bool_decide_eq_true_2, F; by apply list_elem_of_In.
Qed.

Lemma errors_only c0 ts : forall c, _results c = _results c0 ->
  _results (fold_left (fun c t => with_results c (_results c) (_result_plan_fingerprints c)
     (dset (_errors c) (task_key t) "node-local calibration backend unavailable")) ts c) = _results c0.
Proof. induction ts as [|t ts IH]; intros c E; [done|]. by apply IH. Qed.

(** A calibration run completes a plan exactly when every payload bucket of every task
    was done before or gets eight valid samples in the sixteen attempts that follow its
    warm-up; without a benchmark it completes nothing new.  A bucket measured once stays
    done whatever later attempts answer, and the links of a complete plan's measured tasks
    are the ones paths may use. *)
Theorem calibration_completes c plan benchmark now :
  (plan_complete (execute c plan (Some benchmark) now) plan = true <->
   forall t p, t ∈ tasks plan -> p ∈ payload_buckets t ->
     bucket_done c t p = true \/
     exists t', t' ∈ tasks plan /\ task_key t' = task_key t /\ p ∈ payload_buckets t' /\
                (8 <= valid_attempts benchmark t' p)%nat) /\
  plan_complete (execute c plan None now) plan = plan_complete c plan /\
  (forall t p, bucket_done c t p = true -> bucket_done (execute c plan (Some benchmark) now) t p = true) /\
  (forall c' t p, plan_complete c' plan = true -> t ∈ tasks plan -> p ∈ payload_buckets t ->
     link_type t ∈ completed_links c' (source_node t) (target_node t)).
Proof.
  split_and!.
  - rewrite plan_complete_spec. cbn [execute]. split; intros F t p It Ip; specialize (F t p It Ip).
    + apply plan_results in F as [F|(t' & p' & It' & Ip' & E & L)]; [left; by apply bool_decide_eq_true_2|].
      right. exists t'. unfold payload_key in E. assert (E1 := f_equal fst E). assert (E2 := f_equal snd E). cbn [fst snd] in E1, E2. subst p'. by split_and!.
    + apply plan_results. destruct F as [F|(t' & It' & E & Ip' & L)]; [left; by apply bool_decide_eq_true_1 in F|].
      right. exists t', p. split_and!; try done. unfold payload_key. by rewrite E.
  - apply eq_true_iff_eq. rewrite !plan_complete_spec. cbn [execute]. by rewrite (errors_only c).
  - intros t p D. apply bool_decide_eq_true_2. cbn [execute]. apply plan_results. left. by apply bool_decide_eq_true_1 in D.
  - intros c' t p C It Ip. rewrite plan_complete_spec in C. destruct (C t p It Ip) as [s S].
    unfold completed_links. apply elem_of_remove_dups, list_elem_of_omap.
    exists (payload_key t p, s). split; [by apply dget_elem|]. unfold payload_key, task_key. cbn. by rewrite !String.eqb_refl.
Qed.
