(* ===== verification/Deployment.v ===== *)
(** * Engine deployments and loads ([dressage/proxy/rebalancing/scheduler.py])

    What the scheduler knows of an engine: its deployment, read from the worker's server
    information ([EngineDeploymentInfo.from_worker]), and its load ([EngineLoad],
    [_normalize_load], the checks of [_fetch_load]).  [hostname] is [urlsplit(url).hostname]. *)

From S2P Require Import Prelude.
From S2P Require Import PyFloat.
From S2P Require Import PyVal.
From S2P Require Import Json.
From S2P Require Import Calibration.
From Stdlib Require Import Ascii.

Local Open Scope string_scope.
Local Open Scope list_scope.
Local Open Scope py_scope.

(** ** Versions *)

Definition _MIN_SGLANG_VERSION : Z * Z * Z * Z := (0, 5, 15, 1)%Z.

(** The decimal digits at the head of a text, as a number. *)
Fixpoint read_digits (s : string) (acc : option Z) : option Z * string :=
  match s with
  | String c s' => match digit_val c with
                   | Some d => read_digits s' (Some (10 * default 0 acc + d)%Z)
                   | None => (acc, s)
                   end
  | EmptyString => (acc, s)
  end.

Definition expect (p : string) (s : string) : option string :=
  if String.prefix p s then Some (drop_str (String.length p) s) else None.

(** [(\d+)\.(\d+)\.(\d+)(?:\.post(\d+))?] at the head of a text *)
Definition match_version (s : string) : option (Z * Z * Z * Z) :=
  let '(major, s) := read_digits s None in
  major ← major; s ← expect "." s;
  let '(minor, s) := read_digits s None in
  minor ← minor; s ← expect "." s;
  let '(patch, s) := read_digits s None in
  patch ← patch;
  let post := match expect ".post" s with
              | Some t => default 0%Z (fst (read_digits t None))
              | None => 0%Z
              end in
  Some (major, minor, patch, post).

(** [re.search]: the first position that matches.  The optional [v] changes no group. *)
Fixpoint _sglang_version_key (value : string) : option (Z * Z * Z * Z) :=
  match match_version value with
  | Some k => Some k
  | None => match value with EmptyString => None | String _ s => _sglang_version_key s end
  end.

(** Tuple order. *)
Definition version_leb (a b : Z * Z * Z * Z) : bool :=
  let '(a1, a2, a3, a4) := a in
  let '(b1, b2, b3, b4) := b in
  (a1 <? b1)%Z || ((a1 =? b1)%Z && ((a2 <? b2)%Z || ((a2 =? b2)%Z && ((a3 <? b3)%Z || ((a3 =? b3)%Z && (a4 <=? b4)%Z))))).

Definition sglang_rebalancing_supported (value : string) : bool :=
  match _sglang_version_key value with
  | Some k => version_leb _MIN_SGLANG_VERSION k
  | None => false
  end.

Fixpoint longest_common_prefix_length (left right : list Z) : nat :=
  match left, right with
  | a :: l, b :: r => if (a =? b)%Z then S (longest_common_prefix_length l r) else O
  | _, _ => O
  end.

(** ** Deployments *)

Record EngineDeploymentInfo : Type := {
  ed_node_id : string;
  ed_worker_url : string;
  ed_model_id : string;
  ed_weight_version : string;
  ed_sglang_version : string;
  ed_tp_size : Z;
  ed_pp_size : Z;
  ed_dp_size : Z;
  ed_kv_dtype : string;
  ed_state_dtype : string;
  ed_page_size : Z;
  ed_swa_window_size : option Z;
  ed_mamba_backend : string;
  ed_mamba_track_interval : option Z;
  ed_hicache_args : list (string * string);
  ed_mooncake_args : list (string * string);
  ed_cache_fingerprint : string;
  ed_mooncake_protocol : string;
  ed_shared_l3 : bool;
  ed_host_staging : bool;
  ed_gpudirect : bool }.

(** [sorted((str(k), str(v)) for k, v in d.items())] *)
Definition sorted_texts `{PyText} (d : list (string * pyval)) : list (string * string) :=
  sort_by key_leb (map (fun kv => (fst kv, py_str (snd kv))) d).

Definition setdefault {V} (d : list (string * V)) (k : string) (v : V) : list (string * V) :=
  match dget d k with Some _ => d | None => dset d k v end.

Definition opt_py_int (v : pyval) : result (option Z) :=
  if is_pnone v then Ok None else let! z := py_int v in Ok (Some z).

Section FromWorker.
Context `{PyText}.
Variable hostname : string -> option string.

(** The extra configuration of the storage backend, and its arguments. *)
Definition storage_extra (args : list (string * pyval)) : option (list (string * pyval)) * list (string * string) :=
  match first_true [pget args "hicache_storage_backend_extra_config"; PDict []] with
  | PStr s => match json_loads s with
              | Some (PDict d) => (Some d, sorted_texts d)
              | _ => (None, [("config", s)])
              end
  | PDict d => (Some d, sorted_texts d)
  | _ => (None, [])
  end.

(** [extra.get(k) if isinstance(extra, Mapping) else d] *)
Definition extra_get (extra : option (list (string * pyval))) (k : string) (d : pyval) : pyval :=
  match extra with Some e => pget e k | None => d end.

Definition hicache_keys : list string :=
  ["enable_hierarchical_cache"; "hicache_ratio"; "hicache_write_policy"; "hicache_mem_layout";
   "hicache_storage_backend"].

Definition text_or (l : list pyval) : string := py_str (first_true l).

Definition from_worker (worker_url : string) (server_info : list (string * pyval)) (weight_version : option string)
    (model_id fallback_sglang_version : string) : result EngineDeploymentInfo :=
  let info := server_info in
  let args := match first_true [pget info "server_args"; pget info "args"; PDict info] with
              | PDict d => d
              | _ => []
              end in
  let get k := pget args k in
  let '(extra, mooncake) := storage_extra args in
  let backend := lower (text_or [get "hicache_storage_backend"; PStr ""]) in
  let shared := py_truth (get "enable_hierarchical_cache") && String.eqb backend "mooncake" in
  let protocol := lower (text_or [extra_get extra "protocol" PNone; get "mooncake_protocol"; PStr ""]) in
  let device := lower (text_or [extra_get extra "device_name" PNone; get "mooncake_device"; PStr ""]) in
  let normalized := fold_left (fun d kv => dset d (fst kv) (snd kv)) mooncake [] in
  let normalized := if String.eqb protocol "" then normalized else setdefault normalized "protocol" protocol in
  let normalized := if String.eqb device "" then normalized else setdefault normalized "device_name" device in
  let mooncake := sort_by key_leb normalized in
  let direct := shared && (py_truth (get "hicache_use_gpudirect")
                           || py_truth (extra_get extra "use_gpudirect" (PBool false))
                           || py_truth (extra_get extra "gpudirect" (PBool false))) in
  let backend_text v := py_str (first_true [v; PStr "default"]) in
  let mamba := backend_text (first_true [get "linear_attn_backend"; get "mamba_ssm_backend"]) +:+ "/"
               +:+ backend_text (get "linear_attn_prefill_backend") +:+ "/"
               +:+ backend_text (get "linear_attn_decode_backend") in
  let version := match weight_version with Some (String _ _ as v) => v | _ => "unknown" end in
  let hicache := map (fun k => (k, get k)) hicache_keys in
  let payload :=
    [("model_id", first_true [get "model_path"; PStr model_id]); ("weight_version", PStr version);
     ("sglang_version", first_true [pget info "version"; PStr fallback_sglang_version]);
     ("tp_size", dget_def (PInt 1) args "tp_size"); ("pp_size", dget_def (PInt 1) args "pp_size");
     ("dp_size", dget_def (PInt 1) args "dp_size");
     ("kv_dtype", first_true [get "kv_cache_dtype"; get "dtype"; PStr "auto"]);
     ("state_dtype", first_true [get "dtype"; PStr "auto"]);
     ("page_size", first_true [get "page_size"; PInt 1]); ("swa_window_size", get "sliding_window_size");
     ("mamba_backend", PStr mamba); ("mamba_track_interval", get "mamba_track_interval");
     ("hicache", PDict hicache); ("mooncake", PDict (map (fun kv => (fst kv, PStr (snd kv))) mooncake))] in
  let! tp := int_or (get "tp_size") 1 in
  let! pp := int_or (get "pp_size") 1 in
  let! dp := int_or (get "dp_size") 1 in
  let! page := int_or (get "page_size") 1 in
  let! window := opt_py_int (get "sliding_window_size") in
  let! track := opt_py_int (get "mamba_track_interval") in
  Ok {| ed_node_id := match hostname worker_url with Some (String _ _ as h) => h | _ => worker_url end;
        ed_worker_url := rstrip_slash worker_url;
        ed_model_id := text_or [get "model_path"; PStr model_id]; ed_weight_version := version;
        ed_sglang_version := text_or [pget info "version"; PStr fallback_sglang_version];
        ed_tp_size := tp; ed_pp_size := pp; ed_dp_size := dp;
        ed_kv_dtype := text_or [get "kv_cache_dtype"; get "dtype"; PStr "auto"];
        ed_state_dtype := text_or [get "dtype"; PStr "auto"];
        ed_page_size := page; ed_swa_window_size := window; ed_mamba_backend := mamba;
        ed_mamba_track_interval := track; ed_hicache_args := sorted_texts hicache;
        ed_mooncake_args := mooncake; ed_cache_fingerprint := canonical_fingerprint payload;
        ed_mooncake_protocol := protocol; ed_shared_l3 := shared; ed_host_staging := shared && negb direct;
        ed_gpudirect := direct |}.
End FromWorker.

(** ** Loads *)

Record EngineLoad : Type := {
  el_healthy : bool;
  el_metrics_timestamp : float;
  el_running : Z;
  el_queued : Z;
  el_active_tokens : Z;
  el_token_capacity : Z;
  el_request_capacity : Z;
  el_token_usage : float;
  el_snapshot_generation : Z;
  el_fetch_status : string;
  el_fetch_duration : float }.

Definition EngineLoad__default : EngineLoad :=
  {| el_healthy := true; el_metrics_timestamp := f0; el_running := 0; el_queued := 0; el_active_tokens := 0;
     el_token_capacity := 0; el_request_capacity := 0; el_token_usage := f0; el_snapshot_generation := 0;
     el_fetch_status := "never"; el_fetch_duration := f0 |}.

Definition fresh (l : EngineLoad) (now stale_seconds : float) : bool :=
  el_healthy l && fltb f0 (el_metrics_timestamp l) && fleb (fsub now (el_metrics_timestamp l)) stale_seconds.

Definition sum_rows (f : list (string * pyval) -> result Z) (rows : list (list (string * pyval))) : result Z :=
  let! l := mapM_res f rows in Ok (fold_left Z.add l 0%Z).

Definition _normalize_load `{PyText} (payload : pyval) (now : float) : result (option EngineLoad) :=
  match payload with
  | PDict d =>
      match pget d "loads" with
      | PList ((_ :: _) as rows) =>
          let valid := omap (fun r => match r with PDict x => Some x | _ => None end) rows in
          if negb (Nat.eqb (length valid) (length rows)) then Ok None
          else
            let! running := sum_rows (fun r => int_or (pget r "num_running_reqs") 0) valid in
            let! queued := sum_rows (fun r => int_or (first_true [pget r "num_waiting_reqs"; pget r "num_queue_reqs"; PInt 0]) 0) valid in
            let! active := sum_rows (fun r => int_or (first_true [pget r "num_total_tokens"; pget r "num_used_tokens"; PInt 0]) 0) valid in
            let! tokens := sum_rows (fun r => int_or (pget r "max_total_num_tokens") 0) valid in
            let! requests := sum_rows (fun r => int_or (pget r "max_running_requests") 0) valid in
            let! usages := mapM_res (fun r => py_float (first_true [pget r "token_usage"; PFloat f0])) valid in
            Ok (Some {| el_healthy := true; el_metrics_timestamp := now; el_running := running;
                        el_queued := queued; el_active_tokens := active; el_token_capacity := tokens;
                        el_request_capacity := requests;
                        el_token_usage := match usages with [] => f0 | u :: us => fold_left fmax us u end;
                        el_snapshot_generation := 0; el_fetch_status := "never"; el_fetch_duration := f0 |})
      | _ => Ok None
      end
  | _ => Ok None
  end.

Record _LoadFetchResult : Type := {
  lf_status : string;
  lf_duration : float;
  lf_load : option EngineLoad }.

(** What the request for the loads ends with. *)
Inductive fetch_answer : Type :=
| FetchTimeout
| FetchError
| FetchPayload (payload : pyval).

(** The values a plan reads are finite and not negative, and the capacities positive. *)
Definition planning_valid (l : EngineLoad) : bool :=
  forallb (fun z => (0 <=? z)%Z) [el_running l; el_queued l; el_active_tokens l; el_request_capacity l; el_token_capacity l]
  && fisfinite (el_token_usage l) && fleb f0 (el_token_usage l)
  && (0 <? el_request_capacity l)%Z && (0 <? el_token_capacity l)%Z.

Definition _fetch_load `{PyText} (answer : fetch_answer) (now duration : float) : _LoadFetchResult :=
  let make status load := {| lf_status := status; lf_duration := duration; lf_load := load |} in
  match answer with
  | FetchTimeout => make "timeout" None
  | FetchError => make "error" None
  | FetchPayload payload =>
      match _normalize_load payload now with
      | Ok (Some l) => if planning_valid l then make "ok" (Some l) else make "invalid" None
      | _ => make "invalid" None
      end
  end.
