(* ===== verification/Rebalancer.v ===== *)
(** * The rebalancing scheduler ([dressage/proxy/rebalancing/scheduler.py])

    [EngineRebalancer]: which engine a step goes to, the reservations that stand for load
    no snapshot has seen yet, and the sessions' owners.  The lock is held around every
    state change, so each definition below is one atomic step; a load poll is two, with
    the request between them.  Name resolution is [gethostbyname]; loads are integers the
    float arithmetic of [Greedy] represents exactly below 2^53.  A trace of the decision
    history keeps the decision, not the engine observations next to it. *)

From S2P Require Import Prelude.
From S2P Require Import PyFloat.
From S2P Require Import PyVal.
From S2P Require Import Greedy.
From S2P Require Import SchedulerState.
From S2P Require Import Calibration.
From S2P Require Import Deployment.
From Stdlib Require Import Ascii.

Local Open Scope string_scope.
Local Open Scope list_scope.
Local Open Scope py_scope.

(** ** State *)

Record SessionRoutingState : Type := {
  owner_worker_url : option string;
  ss_fingerprint : option string;
  previous_committed_tokens : list Z }.

Definition new_routing_state : SessionRoutingState :=
  {| owner_worker_url := None; ss_fingerprint := None; previous_committed_tokens := [] |}.

Record RoutingDecision : Type := {
  rd_session_id : string;
  source_worker_url : option string;
  target_worker_url : option string;
  moved : bool }.

Record RoutingLease : Type := {
  decision : RoutingDecision;
  worker_url : option string;
  reservation_id : option Z;
  load_decision_id : option Z }.

Record _ReservationEntry : Type := {
  re_engine_url : string;
  scoring_queue_increment : Z;
  scoring_token_increment : Z;
  scoring_revision : Z;
  scoring_active : bool }.

(** The decision part of a [LoadDecisionTrace]. *)
Record Trace : Type := {
  tr_id : Z;
  tr_committed : bool;
  tr_fallback_reason : option string;
  tr_session_id : string;
  tr_kind : option GreedyStepKind;
  tr_target : option string;
  tr_moved : bool;
  tr_candidates : list string;
  tr_queue_increment : Z;
  tr_token_increment : Z }.

(** What the preflight knows of the machines. *)
Record MachineCalibrationConfig : Type := {
  mc_shared_l3 : bool;
  mc_write_policy : string;
  mc_protocol : string;
  mc_device_name : string;
  mc_metadata_server : string;
  mc_gpudirect : bool;
  mc_model_deployment : list (string * pyval) }.

Record EngineRebalancer : Type := {
  eb_deployments : list (string * EngineDeploymentInfo);
  eb_loads : list (string * EngineLoad);
  _load_generations : list (string * Z);
  _snapshot_fetch_status : list (string * (string * float));
  _reservations : list (Z * _ReservationEntry);
  _next_reservation_id : Z;
  _scoring_revision : Z;
  eb_profiles : list (string * ModelCacheProfile);
  eb_pools : list (string * CompatibilityPool);
  eb_sessions : list (string * SessionRoutingState);
  excluded_engines : list (string * string);
  _online_request_count : Z;
  _next_load_decision_id : Z;
  _load_decision_history : list Trace;
  _initial_snapshot_event : bool;
  _stopping : bool;
  _deployment_checked_at : list (string * float) }.

Definition EngineRebalancer__init__ : EngineRebalancer :=
  {| eb_deployments := []; eb_loads := []; _load_generations := []; _snapshot_fetch_status := [];
     _reservations := []; _next_reservation_id := 1; _scoring_revision := 0; eb_profiles := []; eb_pools := [];
     eb_sessions := []; excluded_engines := []; _online_request_count := 0; _next_load_decision_id := 1;
     _load_decision_history := []; _initial_snapshot_event := false; _stopping := false;
     _deployment_checked_at := [] |}.

Definition set_reservations (r : EngineRebalancer) (l : list (Z * _ReservationEntry)) (next revision : Z)
    : EngineRebalancer :=
  {| eb_deployments := eb_deployments r; eb_loads := eb_loads r; _load_generations := _load_generations r;
     _snapshot_fetch_status := _snapshot_fetch_status r; _reservations := l; _next_reservation_id := next;
     _scoring_revision := revision; eb_profiles := eb_profiles r; eb_pools := eb_pools r;
     eb_sessions := eb_sessions r; excluded_engines := excluded_engines r;
     _online_request_count := _online_request_count r; _next_load_decision_id := _next_load_decision_id r;
     _load_decision_history := _load_decision_history r; _initial_snapshot_event := _initial_snapshot_event r;
     _stopping := _stopping r; _deployment_checked_at := _deployment_checked_at r |}.

Definition set_sessions (r : EngineRebalancer) (l : list (string * SessionRoutingState)) : EngineRebalancer :=
  {| eb_deployments := eb_deployments r; eb_loads := eb_loads r; _load_generations := _load_generations r;
     _snapshot_fetch_status := _snapshot_fetch_status r; _reservations := _reservations r;
     _next_reservation_id := _next_reservation_id r; _scoring_revision := _scoring_revision r;
     eb_profiles := eb_profiles r; eb_pools := eb_pools r; eb_sessions := l;
     excluded_engines := excluded_engines r; _online_request_count := _online_request_count r;
     _next_load_decision_id := _next_load_decision_id r; _load_decision_history := _load_decision_history r;
     _initial_snapshot_event := _initial_snapshot_event r; _stopping := _stopping r;
     _deployment_checked_at := _deployment_checked_at r |}.

Definition set_decisions (r : EngineRebalancer) (next : Z) (history : list Trace) : EngineRebalancer :=
  {| eb_deployments := eb_deployments r; eb_loads := eb_loads r; _load_generations := _load_generations r;
     _snapshot_fetch_status := _snapshot_fetch_status r; _reservations := _reservations r;
     _next_reservation_id := _next_reservation_id r; _scoring_revision := _scoring_revision r;
     eb_profiles := eb_profiles r; eb_pools := eb_pools r; eb_sessions := eb_sessions r;
     excluded_engines := excluded_engines r; _online_request_count := _online_request_count r;
     _next_load_decision_id := next; _load_decision_history := history;
     _initial_snapshot_event := _initial_snapshot_event r; _stopping := _stopping r;
     _deployment_checked_at := _deployment_checked_at r |}.

Definition count_online (r : EngineRebalancer) : EngineRebalancer :=
  {| eb_deployments := eb_deployments r; eb_loads := eb_loads r; _load_generations := _load_generations r;
     _snapshot_fetch_status := _snapshot_fetch_status r; _reservations := _reservations r;
     _next_reservation_id := _next_reservation_id r; _scoring_revision := _scoring_revision r;
     eb_profiles := eb_profiles r; eb_pools := eb_pools r; eb_sessions := eb_sessions r;
     excluded_engines := excluded_engines r; _online_request_count := (_online_request_count r + 1)%Z;
     _next_load_decision_id := _next_load_decision_id r; _load_decision_history := _load_decision_history r;
     _initial_snapshot_event := _initial_snapshot_event r; _stopping := _stopping r;
     _deployment_checked_at := _deployment_checked_at r |}.

Definition set_observed (r : EngineRebalancer) loads generations status initial : EngineRebalancer :=
  {| eb_deployments := eb_deployments r; eb_loads := loads; _load_generations := generations;
     _snapshot_fetch_status := status; _reservations := _reservations r;
     _next_reservation_id := _next_reservation_id r; _scoring_revision := _scoring_revision r;
     eb_profiles := eb_profiles r; eb_pools := eb_pools r; eb_sessions := eb_sessions r;
     excluded_engines := excluded_engines r; _online_request_count := _online_request_count r;
     _next_load_decision_id := _next_load_decision_id r; _load_decision_history := _load_decision_history r;
     _initial_snapshot_event := initial; _stopping := _stopping r;
     _deployment_checked_at := _deployment_checked_at r |}.

Definition set_pools (r : EngineRebalancer) profiles pools : EngineRebalancer :=
  {| eb_deployments := eb_deployments r; eb_loads := eb_loads r; _load_generations := _load_generations r;
     _snapshot_fetch_status := _snapshot_fetch_status r; _reservations := _reservations r;
     _next_reservation_id := _next_reservation_id r; _scoring_revision := _scoring_revision r;
     eb_profiles := profiles; eb_pools := pools; eb_sessions := eb_sessions r;
     excluded_engines := excluded_engines r; _online_request_count := _online_request_count r;
     _next_load_decision_id := _next_load_decision_id r; _load_decision_history := _load_decision_history r;
     _initial_snapshot_event := _initial_snapshot_event r; _stopping := _stopping r;
     _deployment_checked_at := _deployment_checked_at r |}.

Definition set_topology (r : EngineRebalancer) deployments loads excluded checked : EngineRebalancer :=
  {| eb_deployments := deployments; eb_loads := loads; _load_generations := _load_generations r;
     _snapshot_fetch_status := _snapshot_fetch_status r; _reservations := _reservations r;
     _next_reservation_id := _next_reservation_id r; _scoring_revision := _scoring_revision r;
     eb_profiles := eb_profiles r; eb_pools := eb_pools r; eb_sessions := eb_sessions r;
     excluded_engines := excluded; _online_request_count := _online_request_count r;
     _next_load_decision_id := _next_load_decision_id r; _load_decision_history := _load_decision_history r;
     _initial_snapshot_event := _initial_snapshot_event r; _stopping := _stopping r;
     _deployment_checked_at := checked |}.

(** ** Reservations *)

Definition live_entries (r : EngineRebalancer) (url : string) : list _ReservationEntry :=
  List.filter (fun e => String.eqb (re_engine_url e) url && scoring_active e) (map snd (_reservations r)).

Definition sum_z (l : list Z) : Z := fold_right Z.add 0%Z l.

Definition _live_scoring_totals (r : EngineRebalancer) (url : string) : Z * Z :=
  (sum_z (map scoring_queue_increment (live_entries r url)), sum_z (map scoring_token_increment (live_entries r url))).

Definition acknowledge (url : string) (revision : Z) (e : _ReservationEntry) : _ReservationEntry :=
  if String.eqb (re_engine_url e) url && scoring_active e && (scoring_revision e <=? revision)%Z
  then {| re_engine_url := re_engine_url e; scoring_queue_increment := scoring_queue_increment e;
          scoring_token_increment := scoring_token_increment e; scoring_revision := scoring_revision e;
          scoring_active := false |}
  else e.

Definition _acknowledge_scoring_deltas (r : EngineRebalancer) (url : string) (revision : Z) : EngineRebalancer :=
  set_reservations r (map (fun ie => (fst ie, acknowledge url revision (snd ie))) (_reservations r))
    (_next_reservation_id r) (_scoring_revision r).

Definition _release_reservation (r : EngineRebalancer) (id : option Z) : EngineRebalancer :=
  match id with
  | None => r
  | Some i => set_reservations r (List.filter (fun ie => negb (fst ie =? i)%Z) (_reservations r))
                (_next_reservation_id r) (_scoring_revision r)
  end.

Definition _reserve (r : EngineRebalancer) (d : RoutingDecision) (queue tokens : Z) : EngineRebalancer * RoutingLease :=
  match target_worker_url d with
  | None => (r, {| decision := d; worker_url := None; reservation_id := None; load_decision_id := None |})
  | Some target =>
      let id := _next_reservation_id r in
      let revision := (_scoring_revision r + 1)%Z in
      (set_reservations r
         (_reservations r ++ [(id, {| re_engine_url := target; scoring_queue_increment := Z.max 0 queue;
                                      scoring_token_increment := Z.max 0 tokens; scoring_revision := revision;
                                      scoring_active := true |})])
         (id + 1) revision,
       {| decision := d; worker_url := Some target; reservation_id := Some id; load_decision_id := None |})
  end.

(** ** Paths *)

(** [re.sub(r"[^a-z0-9]+", "_", s)] *)
Fixpoint collapse (s : string) (in_run : bool) : string :=
  match s with
  | EmptyString => ""
  | String c s' =>
      let n := N_of_ascii c in
      if ((48 <=? n) && (n <=? 57) || (97 <=? n) && (n <=? 122))%N then String c (collapse s' false)
      else if in_run then collapse s' true else String "_" (collapse s' true)
  end.

Definition path_link (protocol : string) : string :=
  let p := strip_under (collapse (if String.eqb protocol "" then "remote" else protocol) false) in
  "mooncake_" +:+ (if String.eqb p "" then "remote" else p).

Record ContextPathReadiness : Type := {
  cache_source : CacheSource;
  required_links : list string;
  pending_links : list string }.

Section Paths.
Context `{PyText}.
Variable gethostbyname : string -> option string.
Variable machine : option MachineCalibrationConfig.
Variables (node_ids node_addresses : list string) (node_aliases : list (string * string)).
Variable injected : bool.                  (* calibration_benchmark is not None *)
Variable calibrator : TransferCalibrator.
Variable config : EngineRebalancingConfig.

Definition _calibration_node_for (d : EngineDeploymentInfo) : option string :=
  if injected then Some (ed_node_id d)
  else match dget node_aliases (ed_node_id d) with
       | Some t => Some t
       | None =>
           let resolved := default (ed_node_id d) (gethostbyname (ed_node_id d)) in
           match dget node_aliases resolved with
           | Some t => Some t
           | None => match node_addresses with
                     | [a] => if String.prefix "127." resolved then Some a else None
                     | _ => None
                     end
           end
       end.

Definition opt_z (o : option Z) : pyval := match o with Some z => PInt z | None => PNone end.

Definition _deployment_matches_preflight (d : EngineDeploymentInfo) : bool :=
  if injected then true
  else match machine with
       | None => false
       | Some m =>
           if negb (bool_decide (cal_state calibrator = READY) || bool_decide (cal_state calibrator = Calibration.DEGRADED))
           then false
           else if negb (Bool.eqb (ed_shared_l3 d) (mc_shared_l3 m)) then false
           else if negb (ed_shared_l3 d) then true
           else
             let mooncake k := dget_def "" (ed_mooncake_args d) k in
             let metadata := if String.eqb (mooncake "metadata_server") "" then mooncake "metadata_conn_string"
                             else mooncake "metadata_server" in
             Bool.eqb (ed_gpudirect d) (mc_gpudirect m)
             && String.eqb (ed_mooncake_protocol d) (mc_protocol m)
             && (String.eqb (mc_device_name m) "" || String.eqb (mooncake "device_name") (mc_device_name m))
             && (String.eqb (mc_metadata_server m) "" || String.eqb metadata (mc_metadata_server m))
             && (Nat.eqb (length node_ids) 0 || is_some (_calibration_node_for d))
             && String.eqb (lower (dget_def "" (ed_hicache_args d) "hicache_write_policy")) (mc_write_policy m)
             && forallb (fun kv => match dget (mc_model_deployment m) (fst kv) with
                                   | Some e => String.eqb (py_str e) (py_str (snd kv))
                                   | None => true
                                   end)
                  [("kv_dtype", PStr (ed_kv_dtype d)); ("state_dtype", PStr (ed_state_dtype d));
                   ("page_size", PInt (ed_page_size d)); ("swa_window_size", opt_z (ed_swa_window_size d));
                   ("mamba_track_interval", opt_z (ed_mamba_track_interval d))]
       end.

Definition path_required (source target : EngineDeploymentInfo) : list string :=
  let link :=
    if ed_gpudirect target then "mooncake_gpudirect"
    else if (match _calibration_node_for source with
             | Some n => bool_decide (_calibration_node_for target = Some n)
             | None => false
             end) || String.eqb (ed_node_id source) (ed_node_id target)
    then "mooncake_local"
    else path_link (ed_mooncake_protocol target) in
  link :: (if ed_host_staging target then ["h2d"] else []).

Definition path_completed (source target : EngineDeploymentInfo) : list string :=
  match _calibration_node_for source, _calibration_node_for target with
  | Some s, Some t => if _deployment_matches_preflight source && _deployment_matches_preflight target
                      then completed_links calibrator s t else []
  | _, _ => []
  end.

Definition _path_readiness (r : EngineRebalancer) (source target : string) : ContextPathReadiness :=
  match dget (eb_deployments r) source, dget (eb_deployments r) target with
  | Some s, Some t =>
      if negb (ed_shared_l3 t) then {| cache_source := NONE; required_links := []; pending_links := [] |}
      else
        let required := path_required s t in
        let pending := List.filter (fun l => negb (bool_decide (l ∈ path_completed s t))) required in
        let profile_ready := match dget (eb_profiles r) (ed_cache_fingerprint t) with
                             | Some p => available p
                             | None => false
                             end in
        {| cache_source := if Nat.eqb (length pending) 0 && profile_ready then MOONCAKE else NONE;
           required_links := required; pending_links := pending |}
  | _, _ => {| cache_source := NONE; required_links := []; pending_links := [] |}
  end.

Definition mooncake_ready (r : EngineRebalancer) (source target : string) : bool :=
  bool_decide (cache_source (_path_readiness r source target) = MOONCAKE).

(** [metrics_stale_ms / 1000.0] *)
Definition stale_seconds : float := fdiv (f_of_Z (metrics_stale_ms config)) (f_of_Z 1000).

Definition load_healthy (r : EngineRebalancer) (url : string) : bool :=
  match dget (eb_loads r) url with Some l => el_healthy l | None => false end.

Definition load_fresh (r : EngineRebalancer) (now : float) (url : string) : bool :=
  match dget (eb_loads r) url with Some l => fresh l now stale_seconds | None => false end.

Definition _pool_readiness (r : EngineRebalancer) (fp : string) (now : float) : PoolReadiness :=
  let urls := map fst (List.filter (fun kv => String.eqb (ed_cache_fingerprint (snd kv)) fp && load_healthy r (fst kv))
                                   (eb_deployments r)) in
  let healthy := List.filter (load_fresh r now) urls in
  {| healthy_engines := Z.of_nat (length healthy);
     metrics_fresh := Nat.eqb (length healthy) (length urls) && negb (Nat.eqb (length urls) 0);
     eligible_paths := sum_z (map (fun s => Z.of_nat (length (List.filter (fun t => negb (String.eqb s t) && mooncake_ready r s t)
                                                                          healthy))) healthy) |}.

(** ** Scheduling *)

Definition _effective_baseline_locked (r : EngineRebalancer) (u : string) : option EngineBaseline :=
  match dget (eb_loads r) u with
  | Some l =>
      if (el_request_capacity l <=? 0)%Z || (el_token_capacity l <=? 0)%Z then None
      else let '(queue, tokens) := _live_scoring_totals r u in
           Some {| Greedy.url := u; base_requests := f_of_Z (el_running l);
                   base_tokens := f_of_Z (el_active_tokens l + tokens);
                   base_queue := f_of_Z (el_queued l + queue);
                   request_capacity := f_of_Z (el_request_capacity l);
                   token_capacity := f_of_Z (el_token_capacity l); token_usage := el_token_usage l |}
  | None => None
  end.

(** [deque(maxlen=history_size).append] *)
Definition record_trace (h : list Trace) (t : Trace) : list Trace :=
  let l := h ++ [t] in drop (length l - Z.to_nat (history_size config)) l.

(** What the rest of [_schedule_step_locked] reads of the session. *)
Record StepView : Type := {
  sv_existing : option SessionRoutingState;
  sv_session : SessionRoutingState;
  sv_source : option string;
  sv_healthy_owner : bool;
  sv_owner_fresh : bool;
  sv_healthy : list string;
  sv_fresh : list string }.

Definition version_ok (expected : option string) (d : EngineDeploymentInfo) : bool :=
  match expected with Some v => String.eqb (ed_weight_version d) v | None => true end.

Definition fresh_baseline (r : EngineRebalancer) (now : float) (u : string) : bool :=
  load_fresh r now u && is_some (_effective_baseline_locked r u).

Definition step_view (r : EngineRebalancer) (sid : string) (expected : option string) (now : float) : StepView :=
  let existing := dget (eb_sessions r) sid in
  let session := default new_routing_state existing in
  let source := owner_worker_url session in
  let deployment := source ≫= dget (eb_deployments r) in
  let fp := match ss_fingerprint session with
            | Some (String _ _ as f) => Some f
            | _ => ed_cache_fingerprint <$> deployment
            end in
  let healthy_owner := match source, deployment with
                       | Some u, Some d => version_ok expected d && load_healthy r u
                       | _, _ => false
                       end in
  let eligible (kv : string * EngineDeploymentInfo) :=
    String.eqb (ed_worker_url (snd kv)) (fst kv) && load_healthy r (fst kv) && version_ok expected (snd kv)
    && (negb (is_some source) || bool_decide (fp = Some (ed_cache_fingerprint (snd kv)))) in
  let healthy := map fst (List.filter eligible (eb_deployments r)) in
  {| sv_existing := existing; sv_session := session; sv_source := source; sv_healthy_owner := healthy_owner;
     sv_owner_fresh := healthy_owner && match source with Some u => fresh_baseline r now u | None => false end;
     sv_healthy := healthy; sv_fresh := List.filter (fresh_baseline r now) healthy |}.

Definition step_kind (v : StepView) : GreedyStepKind :=
  match sv_source v with
  | None => NEW_SESSION
  | Some _ => if sv_healthy_owner v then EXISTING_SESSION else MANDATORY_FAILOVER
  end.

Definition step_lcp (v : StepView) (input_ids : list Z) : Z :=
  match sv_source v with
  | None => 0
  | Some _ => Z.of_nat (longest_common_prefix_length (previous_committed_tokens (sv_session v)) input_ids)
  end.

(** The load a step adds to a target. *)
Definition token_load (v : StepView) (input_ids : list Z) (target : string) : Z :=
  let n := Z.of_nat (length input_ids) in
  if sv_healthy_owner v && bool_decide (sv_source v = Some target) then Z.max 0 (n - step_lcp v input_ids) else n.

(** The candidates that may be moved to. *)
Definition step_targets (r : EngineRebalancer) (v : StepView) : list string :=
  List.filter (fun t => match sv_source v with
                        | Some s => if sv_healthy_owner v && negb (String.eqb t s) then mooncake_ready r s t else true
                        | None => true
                        end) (sv_fresh v).

Definition step_edge (sid : string) (v : StepView) (input_ids : list Z) (target : string) : FeasibleEdge :=
  {| Greedy.session_id := sid; Greedy.engine_url := target; queue_increment := f_of_Z 1;
     token_increment := f_of_Z (token_load v input_ids target) |}.

Definition opt_list_baseline (r : EngineRebalancer) (targets : list string) : list EngineBaseline :=
  omap (_effective_baseline_locked r) targets.

(** The session entry a committed step leaves. *)
Definition commit_session (r : EngineRebalancer) (sid : string) (v : StepView) (target_fp : option string)
    : EngineRebalancer :=
  let session := match sv_source v, target_fp with
                 | None, Some fp => {| owner_worker_url := owner_worker_url (sv_session v); ss_fingerprint := Some fp;
                                       previous_committed_tokens := previous_committed_tokens (sv_session v) |}
                 | _, _ => sv_session v
                 end in
  set_sessions r (dset (eb_sessions r) sid session).

(** Reserve, number the decision and record it. *)
Definition commit_step (r : EngineRebalancer) (sid : string) (v : StepView) (target target_fp : option string)
    (kind : GreedyStepKind) (queue tokens : Z) (candidates : list string) (reason : option string)
    : EngineRebalancer * RoutingLease :=
  let d := {| rd_session_id := sid; source_worker_url := sv_source v; target_worker_url := target;
              moved := is_some (sv_source v) && negb (bool_decide (target = sv_source v)) |} in
  let '(r, lease) := _reserve (commit_session r sid v target_fp) d queue tokens in
  let id := _next_load_decision_id r in
  let lease := {| decision := d; worker_url := worker_url lease; reservation_id := reservation_id lease;
                  load_decision_id := Some id |} in
  (set_decisions r (id + 1)
     (record_trace (_load_decision_history r)
        {| tr_id := id; tr_committed := true; tr_fallback_reason := reason; tr_session_id := sid;
           tr_kind := Some kind; tr_target := worker_url lease; tr_moved := moved d; tr_candidates := candidates;
           tr_queue_increment := match target with Some _ => 1 | None => 0 end;
           tr_token_increment := match target with Some _ => tokens | None => 0 end |}),
   lease).

Definition _schedule_fallback_locked (r : EngineRebalancer) (sid : string) (v : StepView) (target : option string)
    (kind : GreedyStepKind) (input_ids : list Z) (reason : string) : EngineRebalancer * RoutingLease :=
  let target_fp := match target ≫= dget (eb_deployments r) with
                   | Some d => Some (ed_cache_fingerprint d)
                   | None => ss_fingerprint (sv_session v)
                   end in
  let n := Z.of_nat (length input_ids) in
  let tokens := match target with
                | Some t => if bool_decide (sv_source v = Some t) && load_healthy r t
                            then Z.max 0 (n - step_lcp v input_ids) else n
                | None => 0%Z
                end in
  commit_step r sid v target target_fp kind (match target with Some _ => 1 | None => 0 end)%Z tokens
    (match target with Some t => [t] | None => [] end) (Some reason).

(** No edge is feasible: the owner, any healthy candidate, or the router's own choice. *)
Definition schedule_without_edges (r : EngineRebalancer) (sid : string) (v : StepView) (input_ids : list Z)
    : result (EngineRebalancer * RoutingLease) :=
  if sv_healthy_owner v
  then Ok (_schedule_fallback_locked r sid v (sv_source v) FIXED_OWNER input_ids "no_fresh_migration_snapshot")
  else match sv_healthy v with
       | [] => Ok (_schedule_fallback_locked r sid v None (step_kind v) input_ids "no_eligible_engine_router_fallback")
       | l => let! t := choose_stable_engine sid (sort_by (fun a b => bool_decide (String.le a b)) l) in
              Ok (_schedule_fallback_locked r sid v (Some t) (step_kind v) input_ids
                    (if is_some (sv_source v) then "mandatory_failover_without_fresh_snapshot"
                     else "new_session_without_fresh_snapshot"))
       end.

(** The dataclasses check themselves when they are constructed. *)
Definition checked_inputs (edges : list FeasibleEdge) (engines : list EngineBaseline) : result unit :=
  let! _ := mapM_res FeasibleEdge__post_init__ edges in
  let! _ := mapM_res EngineBaseline__post_init__ engines in
  Ok tt.

(** The engines whose baseline is computed before the edges are. *)
Definition scored_engines (r : EngineRebalancer) (v : StepView) (now : float) : list string :=
  List.filter (load_fresh r now)
    ((if sv_healthy_owner v then match sv_source v with Some u => [u] | None => [] end else []) ++ sv_healthy v).

Definition _schedule_step_locked (r : EngineRebalancer) (sid : string) (input_ids : list Z)
    (expected : option string) (require_registered : bool) (now : float)
    : result (EngineRebalancer * RoutingLease) :=
  let v := step_view r sid expected now in
  check! require_registered && negb (is_some (sv_existing v))
    else RuntimeError "session context is not registered or was discarded: " ;;
  let! _ := mapM_res EngineBaseline__post_init__ (opt_list_baseline r (scored_engines r v now)) in
  if sv_healthy_owner v && negb (sv_owner_fresh v)
  then Ok (_schedule_fallback_locked r sid v (sv_source v) FIXED_OWNER input_ids "owner_snapshot_unavailable")
  else
    let targets := step_targets r v in
    match targets with
    | [] => schedule_without_edges r sid v input_ids
    | _ =>
        let edges := map (step_edge sid v input_ids) targets in
        let engines := opt_list_baseline r targets in
        let! _ := checked_inputs edges engines in
        let! d := choose_greedy_step sid (step_kind v) (sv_source v) engines edges (min_load_improvement_ratio config) in
        let target := selected_target d in
        match dget (eb_deployments r) target with
        | None => Raise (KeyError target)
        | Some deployment =>
            Ok (commit_step r sid v (Some target) (Some (ed_cache_fingerprint deployment)) (step_kind v)
                  1 (token_load v input_ids target)
                  (sort_by (fun a b => bool_decide (String.le a b)) targets) None)
        end
    end.

(** ** Leases *)

(** The trace computes the baseline of every load. *)
Definition trace_check (r : EngineRebalancer) : result unit :=
  let! _ := mapM_res EngineBaseline__post_init__ (opt_list_baseline r (dkeys (eb_loads r))) in Ok tt.

Definition failed_trace (id : Z) (sid : string) : Trace :=
  {| tr_id := id; tr_committed := false; tr_fallback_reason := Some "scheduling_failure"; tr_session_id := sid;
     tr_kind := None; tr_target := None; tr_moved := false; tr_candidates := []; tr_queue_increment := 0;
     tr_token_increment := 0 |}.

(** The [except BaseException] handler: the state as before, then the failure's record. *)
Definition rollback (r r' : EngineRebalancer) (sid : string) : EngineRebalancer :=
  let kept := List.filter (fun ie => negb (_next_reservation_id r <=? fst ie)%Z) (_reservations r') in
  let r' := set_reservations r' kept (_next_reservation_id r) (_scoring_revision r) in
  let r' := set_sessions r' (match dget (eb_sessions r) sid with
                             | None => dpop (eb_sessions r') sid
                             | Some s => dset (eb_sessions r') sid s
                             end) in
  let id := _next_load_decision_id r in
  set_decisions r' (id + 1)
    (match trace_check r' with
     | Ok _ => record_trace (_load_decision_history r') (failed_trace id sid)
     | Raise _ => _load_decision_history r'
     end).

(** The commit without the record, when the record raises. *)
Definition unrecorded (r r' : EngineRebalancer) : EngineRebalancer :=
  set_decisions r' (_next_load_decision_id r') (_load_decision_history r).

Definition acquire (r : EngineRebalancer) (sid : string) (input_ids : list Z) (expected : option string)
    (require_registered : bool) (now : float) : EngineRebalancer * result RoutingLease :=
  if negb (enabled config)
  then (r, Ok {| decision := {| rd_session_id := sid; source_worker_url := None; target_worker_url := None;
                                moved := false |};
                 worker_url := None; reservation_id := None; load_decision_id := None |})
  else if _stopping r then (r, Raise (RuntimeError "engine rebalancer is closed"))
  else match _schedule_step_locked r sid input_ids expected require_registered now with
       | Raise e => (rollback r r sid, Raise e)
       | Ok (r', lease) =>
           match trace_check r' with
           | Ok _ => (r', Ok lease)
           | Raise e => (rollback r (unrecorded r r') sid, Raise e)
           end
       end.

Definition complete (r : EngineRebalancer) (lease : RoutingLease) (committed_tokens : list Z) (success : bool)
    : EngineRebalancer * result unit :=
  if negb (enabled config) then (r, Ok tt)
  else
    let r := _release_reservation r (reservation_id lease) in
    let sid := rd_session_id (decision lease) in
    match worker_url lease, dget (eb_sessions r) sid with
    | Some owner, Some s =>
        if negb success then (r, Ok tt)
        else
          let owned := {| owner_worker_url := Some owner; ss_fingerprint := ss_fingerprint s;
                          previous_committed_tokens := previous_committed_tokens s |} in
          match dget (eb_deployments r) owner with
          | None => (set_sessions r (dset (eb_sessions r) sid owned), Raise (KeyError owner))
          | Some d =>
              (count_online (set_sessions r (dset (eb_sessions r) sid
                 {| owner_worker_url := Some owner; ss_fingerprint := Some (ed_cache_fingerprint d);
                    previous_committed_tokens := committed_tokens |})), Ok tt)
          end
    | _, _ => (r, Ok tt)
    end.

Definition fail (r : EngineRebalancer) (lease : RoutingLease) : EngineRebalancer * result unit :=
  complete r lease [] false.

Definition register_session_context (r : EngineRebalancer) (sid : string) : EngineRebalancer :=
  if enabled config then set_sessions r (setdefault (eb_sessions r) sid new_routing_state) else r.

Definition discard_session_context (r : EngineRebalancer) (sid : string) : EngineRebalancer :=
  set_sessions r (dpop (eb_sessions r) sid).

(** ** Load polls *)

(** What a poll remembers between its request and its answer. *)
Record Poll : Type := { po_url : string; po_boundary : Z; po_signature : string * string }.

Definition signature (d : EngineDeploymentInfo) : string * string := (ed_weight_version d, ed_cache_fingerprint d).

(** Before the request. *)
Definition poll_begin (r : EngineRebalancer) (u : string) : option Poll :=
  match dget (eb_deployments r) u with
  | Some d => if load_healthy r u
              then Some {| po_url := u; po_boundary := _scoring_revision r; po_signature := signature d |}
              else None
  | None => None
  end.

Definition with_status (l : EngineLoad) (healthy : bool) (generation : Z) (status : string) (duration : float) : EngineLoad :=
  {| el_healthy := healthy; el_metrics_timestamp := el_metrics_timestamp l; el_running := el_running l;
     el_queued := el_queued l; el_active_tokens := el_active_tokens l; el_token_capacity := el_token_capacity l;
     el_request_capacity := el_request_capacity l; el_token_usage := el_token_usage l;
     el_snapshot_generation := generation; el_fetch_status := status; el_fetch_duration := duration |}.

Definition update_pools (r : EngineRebalancer) (now clock : float) : EngineRebalancer :=
  set_pools r (eb_profiles r)
    (map (fun kp => (fst kp, fst (update (snd kp) (_pool_readiness r (fst kp) now) None None clock))) (eb_pools r)).

(** The poll's snapshot is for the engine as it still is. *)
Definition publishable (r : EngineRebalancer) (p : Poll) (f : _LoadFetchResult) : option EngineLoad :=
  if String.eqb (lf_status f) "ok"
  then match lf_load f, dget (eb_deployments r) (po_url p) with
       | Some l, Some d => if load_healthy r (po_url p) && bool_decide (signature d = po_signature p)
                           then Some l else None
       | _, _ => None
       end
  else None.

(** After the answer. *)
Definition poll_end (r : EngineRebalancer) (p : Poll) (f : _LoadFetchResult) (now clock : float) : EngineRebalancer :=
  let u := po_url p in
  let status := dset (_snapshot_fetch_status r) u (lf_status f, lf_duration f) in
  let loads := match dget (eb_loads r) u with
               | Some l => dset (eb_loads r) u (with_status l (el_healthy l) (el_snapshot_generation l)
                                                  (lf_status f) (lf_duration f))
               | None => eb_loads r
               end in
  match publishable r p f with
  | None => set_observed r loads (_load_generations r) status (_initial_snapshot_event r)
  | Some l =>
      let generation := (dget_def 0 (_load_generations r) u + 1)%Z in
      let r := set_observed r (dset loads u (with_status l true generation "ok" (lf_duration f)))
                 (dset (_load_generations r) u generation) status true in
      update_pools (_acknowledge_scoring_deltas r u (po_boundary p)) now clock
  end.

(** ** Discovery *)

(** One inspected worker: its deployment when it was read and known. *)
Record Inspected : Type := { in_url : string; in_deployment : option EngineDeploymentInfo; in_checked : bool }.

Definition apply_inspected (now : float) (r : EngineRebalancer) (i : Inspected) : EngineRebalancer :=
  let u := in_url i in
  let '(deployments, excluded) :=
    match in_deployment i with
    | Some d => if sglang_rebalancing_supported (ed_sglang_version d)
                then (dset (eb_deployments r) u d, dpop (excluded_engines r) u)
                else (dpop (eb_deployments r) u,
                      dset (excluded_engines r) u
                        ("SGLang " +:+ ed_sglang_version d +:+ " is older than v0.5.15.post1"))
    | None => (eb_deployments r, excluded_engines r)
    end in
  set_topology r deployments (setdefault (eb_loads r) u EngineLoad__default) excluded
    (if in_checked i then dset (_deployment_checked_at r) u now else _deployment_checked_at r).

Definition with_health (l : EngineLoad) (h : bool) : EngineLoad :=
  with_status l h (el_snapshot_generation l) (el_fetch_status l) (el_fetch_duration l).

Definition opt_profile_entry (d : EngineDeploymentInfo) : list (string * pyval) :=
  let pairs l := PList (map (fun kv => PList [PStr (fst kv); PStr (snd kv)]) l) in
  [("node_id", PStr (ed_node_id d)); ("worker_url", PStr (ed_worker_url d)); ("model_id", PStr (ed_model_id d));
   ("weight_version", PStr (ed_weight_version d)); ("sglang_version", PStr (ed_sglang_version d));
   ("tp_size", PInt (ed_tp_size d)); ("pp_size", PInt (ed_pp_size d)); ("dp_size", PInt (ed_dp_size d));
   ("kv_dtype", PStr (ed_kv_dtype d)); ("state_dtype", PStr (ed_state_dtype d));
   ("page_size", PInt (ed_page_size d)); ("swa_window_size", opt_z (ed_swa_window_size d));
   ("mamba_backend", PStr (ed_mamba_backend d)); ("mamba_track_interval", opt_z (ed_mamba_track_interval d));
   ("hicache_args", pairs (ed_hicache_args d)); ("mooncake_args", pairs (ed_mooncake_args d));
   ("cache_fingerprint", PStr (ed_cache_fingerprint d)); ("mooncake_protocol", PStr (ed_mooncake_protocol d));
   ("shared_l3", PBool (ed_shared_l3 d)); ("host_staging", PBool (ed_host_staging d));
   ("gpudirect", PBool (ed_gpudirect d)); ("fingerprint", PStr (ed_cache_fingerprint d))].

(** [replace(profile, fingerprint=fingerprint)] *)
Definition with_fingerprint (p : ModelCacheProfile) (fp : string) : ModelCacheProfile :=
  {| mp_fingerprint := fp; full_layers := full_layers p; full_kv_heads := full_kv_heads p;
     full_head_dim := full_head_dim p; full_dtype_bytes := full_dtype_bytes p; swa_layers := swa_layers p;
     swa_kv_heads := swa_kv_heads p; swa_head_dim := swa_head_dim p; swa_dtype_bytes := swa_dtype_bytes p;
     page_size := page_size p; swa_window_size := swa_window_size p;
     state_bytes_per_checkpoint := state_bytes_per_checkpoint p;
     metadata_bytes_estimate := metadata_bytes_estimate p; confidence := confidence p |}.

Definition refresh_pool (model_config : option (list (string * pyval))) (healthy : list string) (now clock : float)
    (r : EngineRebalancer) (fp : string) : EngineRebalancer * result unit :=
  let pool := setdefault (eb_pools r) fp (CompatibilityPool__init__ fp config None clock) in
  let members := List.filter (fun kv => String.eqb (ed_cache_fingerprint (snd kv)) fp
                                        && bool_decide (ed_worker_url (snd kv) ∈ healthy)) (eb_deployments r) in
  match (match dget (eb_profiles r) fp, model_config, members with
         | None, Some mc, (_, template) :: _ =>
             let! p := from_model_config mc (opt_profile_entry template) in
             Ok (dset (eb_profiles r) fp (with_fingerprint p fp))
         | _, _, _ => Ok (eb_profiles r)
         end) with
  | Raise e => (set_pools r (eb_profiles r) pool, Raise e)
  | Ok profiles =>
      let r := set_pools r profiles pool in
      (match dget pool fp with
       | Some p => set_pools r profiles (dset pool fp (fst (update p (_pool_readiness r fp now) None None clock)))
       | None => r
       end, Ok tt)
  end.

(** A loop stops where its body raises and keeps what was done. *)
Fixpoint fold_states {A B} (f : A -> B -> A * result unit) (l : list B) (a : A) : A * result unit :=
  match l with
  | [] => (a, Ok tt)
  | b :: l => match f a b with
              | (a, Ok _) => fold_states f l a
              | (a, Raise e) => (a, Raise e)
              end
  end.

(** The state change of [_refresh_unlocked], from the workers it found healthy and what it
    read of them; [iter] is the order in which a set is enumerated.  Plans concern an
    injected benchmark only. *)
Definition refresh_locked (iter : list string -> list string) (model_config : option (list (string * pyval)))
    (r : EngineRebalancer) (healthy : list string) (inspected : list Inspected) (now clock : float)
    : EngineRebalancer * result unit :=
  let r := fold_left (apply_inspected now) inspected r in
  let r := set_topology r (eb_deployments r)
             (map (fun kl => (fst kl, with_health (snd kl) (bool_decide (fst kl ∈ healthy)))) (eb_loads r))
             (excluded_engines r) (_deployment_checked_at r) in
  let fingerprints := remove_dups (map (fun kv => ed_cache_fingerprint (snd kv))
        (List.filter (fun kv => bool_decide (ed_worker_url (snd kv) ∈ healthy)) (eb_deployments r))) in
  match fold_states (refresh_pool model_config healthy now clock) (iter fingerprints) r with
  | (r, Raise e) => (r, Raise e)
  | (r, Ok _) =>
      (set_pools r (eb_profiles r)
         (map (fun kp => if bool_decide (fst kp ∈ fingerprints) then kp
                         else (fst kp, fst (update (snd kp) (_pool_readiness r (fst kp) now) None None clock)))
              (eb_pools r)), Ok tt)
  end.
End Paths.
