(* ===== verification/Scheduler.v ===== *)
(** * Theorems of the rebalancing scheduler

    A placement is sound, a failed acquisition leaves nothing behind, and the load the
    scheduler adds to a snapshot is exactly the load no snapshot has seen: in every
    interleaving of acquisitions, completions, polls and refreshes. *)

From S2P Require Import Prelude.
From S2P Require Import PyFloat.
From S2P Require Import PyVal.
From S2P Require Import Greedy.
From S2P Require Import SchedulerState.
From S2P Require Import Calibration.
From S2P Require Import Deployment.
From S2P Require Import Rebalancer.

Local Open Scope string_scope.
Local Open Scope list_scope.
Local Open Scope py_scope.

(** ** Reservations *)

Record books_ok (r : EngineRebalancer) : Prop := {
  bk_ids : NoDup (map fst (_reservations r));
  bk_next : Forall (fun ie => (fst ie < _next_reservation_id r)%Z) (_reservations r);
  bk_revision : Forall (fun ie => (scoring_revision (snd ie) <= _scoring_revision r)%Z) (_reservations r) }.

Lemma filter_below (l : list (Z * _ReservationEntry)) n : Forall (fun ie => (fst ie < n)%Z) l ->
  List.filter (fun ie => negb (n <=? fst ie)%Z) l = l.
Proof.
  intros F. apply filter_all. eapply Forall_impl; [exact F|]. intros [i e]; simpl. intros L.
  apply negb_true_iff, Z.leb_gt. lia.
Qed.

Lemma dset_restore {V} (d : list (string * V)) k v s : dget d k = Some s -> dset (dset d k v) k s = d.
Proof.
  induction d as [|[k' v'] d IH]; [done|]. cbn [dget dset]. case_decide as D; simpl.
  - intros [= ->]. by rewrite decide_True.
  - intros E. rewrite decide_False by done. by rewrite IH.
Qed.

Lemma dpop_restore {V} (d : list (string * V)) k v : dget d k = None -> dpop (dset d k v) k = d.
Proof.
  induction d as [|[k' v'] d IH]; cbn [dget dset dpop].
  - intros _. by rewrite decide_True.
  - case_decide as D; [done|]. intros E. cbn [dpop]. rewrite decide_False by done. by rewrite IH.
Qed.
Lemma dset_same {V} (d : list (string * V)) k s : dget d k = Some s -> dset d k s = d.
Proof.
  induction d as [|[k' v'] d IH]; [done|]. cbn [dget dset]. case_decide as D; [intros [= ->]; by subst|].
  intros E. by rewrite IH.
Qed.

Lemma Ok_inj {A} (a b : A) : Ok a = Ok b -> a = b.
Proof. by intros [= ->]. Qed.

Section Acquire.
Context `{PyText}.
Variable gethostbyname : string -> option string.
Variable machine : option MachineCalibrationConfig.
Variables (node_ids node_addresses : list string) (node_aliases : list (string * string)).
Variable injected : bool.
Variable calibrator : TransferCalibrator.
Variable config : EngineRebalancingConfig.
Abbreviation schedule := (_schedule_step_locked gethostbyname machine node_ids node_addresses node_aliases injected calibrator config).
Abbreviation acquire := (acquire gethostbyname machine node_ids node_addresses node_aliases injected calibrator config).
Abbreviation mooncake_ready := (mooncake_ready gethostbyname machine node_ids node_addresses node_aliases injected calibrator).
Abbreviation step_view := (step_view config).
Abbreviation step_targets := (step_targets gethostbyname machine node_ids node_addresses node_aliases injected calibrator).

(** What a committed step did to the books. *)
Record committed (r : EngineRebalancer) (sid : string) (source target : option string) (queue tokens : Z)
    (r' : EngineRebalancer) (lease : RoutingLease) : Prop := {
  cm_decision : decision lease = {| rd_session_id := sid; source_worker_url := source; target_worker_url := target;
                                    moved := is_some source && negb (bool_decide (target = source)) |};
  cm_url : worker_url lease = target;
  cm_books : match target with
             | None => reservation_id lease = None /\ _reservations r' = _reservations r /\
                       _next_reservation_id r' = _next_reservation_id r /\ _scoring_revision r' = _scoring_revision r
             | Some u => reservation_id lease = Some (_next_reservation_id r) /\
                 _reservations r' = _reservations r ++ [(_next_reservation_id r,
                   {| re_engine_url := u; scoring_queue_increment := Z.max 0 queue;
                      scoring_token_increment := Z.max 0 tokens; scoring_revision := (_scoring_revision r + 1)%Z;
                      scoring_active := true |})] /\
                 _next_reservation_id r' = (_next_reservation_id r + 1)%Z /\
                 _scoring_revision r' = (_scoring_revision r + 1)%Z
             end;
  cm_sessions : exists s, eb_sessions r' = dset (eb_sessions r) sid s;
  cm_rest : unrecorded r r' = set_decisions (set_sessions (set_reservations r (_reservations r') (_next_reservation_id r')
              (_scoring_revision r')) (eb_sessions r')) (_next_load_decision_id r + 1) (_load_decision_history r) }.

Lemma commit_step_committed r sid v target fp kind queue tokens cands reason r' lease :
  commit_step config r sid v target fp kind queue tokens cands reason = (r', lease) ->
  committed r sid (sv_source v) target queue tokens r' lease.
Proof using.
  unfold commit_step, _reserve. destruct target as [u|]; cbn; intros [= <- <-]; split; cbn; try done; by eexists.
Qed.

Lemma rollback_committed r sid source target queue tokens r' lease : books_ok r ->
  committed r sid source target queue tokens r' lease ->
  rollback config r (unrecorded r r') sid
  = set_decisions r (_next_load_decision_id r + 1)
      (match trace_check r with
       | Ok _ => record_trace config (_load_decision_history r) (failed_trace (_next_load_decision_id r) sid)
       | Raise _ => _load_decision_history r
       end).
Proof using.
  intros B [_ _ Bk [s Es] R]. unfold rollback. rewrite R, Es. cbn [_reservations eb_sessions set_decisions set_sessions set_reservations].
  assert (F : List.filter (fun ie => negb (_next_reservation_id r <=? fst ie)%Z) (_reservations r') = _reservations r).
  { destruct target as [u|].
    - destruct Bk as (_ & -> & _). rewrite List.filter_app, (filter_below _ _ (bk_next _ B)). cbn [List.filter fst].
      rewrite (proj2 (Z.leb_le _ _)) by lia. apply app_nil_r.
    - destruct Bk as (_ & -> & _). apply (filter_below _ _ (bk_next _ B)). }
  rewrite F.
  assert (S : match dget (eb_sessions r) sid with
              | Some s0 => dset (dset (eb_sessions r) sid s) sid s0
              | None => dpop (dset (eb_sessions r) sid s) sid
              end = eb_sessions r).
  { destruct (dget (eb_sessions r) sid) eqn:E; [by apply dset_restore|by apply dpop_restore]. }
  rewrite S. destruct r. reflexivity.
Qed.

Lemma rollback_same r sid : books_ok r ->
  rollback config r r sid
  = set_decisions r (_next_load_decision_id r + 1)
      (match trace_check r with
       | Ok _ => record_trace config (_load_decision_history r) (failed_trace (_next_load_decision_id r) sid)
       | Raise _ => _load_decision_history r
       end).
Proof using.
  intros B. unfold rollback. rewrite (filter_below _ _ (bk_next _ B)).
  assert (S : match dget (eb_sessions r) sid with
              | Some s0 => dset (eb_sessions r) sid s0
              | None => dpop (eb_sessions r) sid
              end = eb_sessions r).
  { destruct (dget (eb_sessions r) sid) eqn:E; [by apply dset_same|by apply dpop_absent]. }
  cbn [_reservations eb_sessions set_reservations]. rewrite S. destruct r. reflexivity.
Qed.

(** What a scheduled step chose. *)
Definition chosen (r : EngineRebalancer) (sid : string) (v : StepView) (input_ids : list Z) (target : option string)
    (queue tokens : Z) : Prop :=
  match target with
  | None => sv_healthy_owner v = false /\ sv_healthy v = [] /\ queue = 0%Z /\ tokens = 0%Z
  | Some u => queue = 1%Z /\ tokens = token_load v input_ids u /\
      ((sv_healthy_owner v = true /\ sv_source v = Some u)
       \/ (u ∈ sv_healthy v /\ sv_healthy_owner v = false)
       \/ (u ∈ step_targets r v /\ exists d, threshold_met d = Some true /\ selected_target d = u /\
             choose_greedy_step sid EXISTING_SESSION (sv_source v) (opt_list_baseline r (step_targets r v))
               (map (step_edge sid v input_ids) (step_targets r v)) (min_load_improvement_ratio config) = Ok d))
  end.

Lemma best_member sid owner scores edges b : greedy_best sid owner scores edges = Ok b -> b ∈ edges.
Proof using.
  unfold greedy_best. intros Eb. destruct (map snd _) as [|s ss]; [done|].
  set (tied := greedy_tied _ _ edges) in Eb.
  assert (Sub : forall e, e ∈ tied -> e ∈ edges).
  { intros e I. unfold tied, greedy_tied in I. by apply list_elem_of_filter in I as [_ I]. }
  destruct (owner_edge_of owner tied) as [oe|] eqn:Eo.
  - injection Eb as <-. apply Sub. by apply owner_edge_of_sound in Eo as [I _].
  - destruct tied as [|t ts] eqn:Et; [done|]. injection Eb as <-. apply Sub.
    destruct (min_by_in (edge_ltb sid) t ts) as [-> | I]; [by left|by right].
Qed.

Lemma choose_member sid kind owner engines edges ratio d :
  choose_greedy_step sid kind owner engines edges ratio = Ok d ->
  selected_target d ∈ map engine_url edges /\
  (kind = EXISTING_SESSION -> threshold_met d = Some true \/ owner = Some (selected_target d)).
Proof using.
  unfold choose_greedy_step. destruct (greedy_validate _ _ _ _ _ _); [|done]. cbn [res_bind].
  destruct (greedy_best _ _ _ _) as [best|] eqn:Eb; [|done]. cbn [res_bind]. apply best_member in Eb.
  destruct (greedy_select _ _ _ _ _ _) as [g|] eqn:Eg; [|done]. cbn [res_bind].
  destruct (gs_selected g) as [sel|] eqn:Es; [|done]. intros [= <-]. cbn [selected_target threshold_met].
  assert (Mem : forall e, e ∈ edges -> engine_url e ∈ map engine_url edges) by (intros; by apply list_elem_of_fmap_2).
  unfold greedy_select in Eg. destruct kind.
  - injection Eg as <-. cbn in Es. apply owner_edge_of_sound in Es as [I _]. split; [by apply Mem|done].
  - injection Eg as <-. injection Es as <-. split; [by apply Mem|done].
  - injection Eg as <-. injection Es as <-. split; [by apply Mem|done].
  - destruct owner as [o|]; [|done]. destruct (owner_edge_of (Some o) edges) as [oe|] eqn:Eo; [|done].
    apply owner_edge_of_sound in Eo as [I O]. injection Eg as <-. cbn in Es |- *. injection Es as <-.
    destruct (greedy_threshold_met _ _ _ _); split; try (by apply Mem); intros _; [by left|by right].
Qed.

Lemma owner_source r sid expected now : sv_healthy_owner (step_view r sid expected now) = true ->
  exists u d, sv_source (step_view r sid expected now) = Some u /\ dget (eb_deployments r) u = Some d /\
    version_ok expected d = true /\ load_healthy r u = true.
Proof using.
  unfold Rebalancer.step_view. cbn. destruct (owner_worker_url _) as [u|]; [|done]. cbn.
  destruct (dget (eb_deployments r) u) as [d|] eqn:D; [|done]. intros [V L]%andb_prop. by exists u, d.
Qed.

Lemma owner_here r sid expected now u d : sv_source (step_view r sid expected now) = Some u ->
  dget (eb_deployments r) u = Some d -> version_ok expected d = true -> load_healthy r u = true ->
  sv_healthy_owner (step_view r sid expected now) = true.
Proof using. unfold Rebalancer.step_view. cbn. intros -> D V L. cbn. by rewrite D, V, L. Qed.

(** The fingerprint a session is bound to. *)
Definition bound_fingerprint (r : EngineRebalancer) (v : StepView) : option string :=
  match ss_fingerprint (sv_session v) with
  | Some (String _ _ as f) => Some f
  | _ => ed_cache_fingerprint <$> (sv_source v ≫= dget (eb_deployments r))
  end.

Lemma healthy_member r sid expected now u : NoDup (dkeys (eb_deployments r)) ->
  u ∈ sv_healthy (step_view r sid expected now) ->
  exists d, dget (eb_deployments r) u = Some d /\ ed_worker_url d = u /\ load_healthy r u = true /\
    version_ok expected d = true /\
    (sv_source (step_view r sid expected now) = None \/
     bound_fingerprint r (step_view r sid expected now) = Some (ed_cache_fingerprint d)).
Proof using.
  intros Nd. unfold Rebalancer.step_view. cbn [sv_healthy sv_source sv_session]. intros Hu.
  apply list_elem_of_fmap in Hu as ([k d] & -> & I). apply list_elem_of_In, List.filter_In in I as [I X].
  cbn [fst snd] in *. apply list_elem_of_In, (dget_NoDup_elem _ _ _ Nd) in I.
  apply andb_prop in X as [X P]. apply andb_prop in X as [X V]. apply andb_prop in X as [U L].
  apply String.eqb_eq in U. exists d. split_and!; try done. apply orb_prop in P as [P|P].
  - left. by destruct (owner_worker_url _).
  - right. by apply bool_decide_eq_true_1 in P.
Qed.

Lemma target_fresh r v u : u ∈ step_targets r v -> u ∈ sv_fresh v.
Proof using. intros I. apply list_elem_of_In, List.filter_In in I as [I _]. by apply list_elem_of_In. Qed.

Lemma fresh_healthy r sid expected now u :
  u ∈ sv_fresh (step_view r sid expected now) -> u ∈ sv_healthy (step_view r sid expected now).
Proof using.
  unfold Rebalancer.step_view. cbn [sv_fresh sv_healthy]. intros I.
  apply list_elem_of_In, List.filter_In in I as [I _]. by apply list_elem_of_In.
Qed.

(** A fallback's target. *)
Definition fallback_target (v : StepView) (target : option string) : Prop :=
  match target with
  | Some u => (sv_healthy_owner v = true /\ sv_source v = Some u) \/ (u ∈ sv_healthy v /\ sv_healthy_owner v = false)
  | None => sv_healthy_owner v = false /\ sv_healthy v = []
  end.

Lemma fallback_chosen r sid expected now target kind ids reason r' lease : NoDup (dkeys (eb_deployments r)) ->
  let v := step_view r sid expected now in
  _schedule_fallback_locked config r sid v target kind ids reason = (r', lease) -> fallback_target v target ->
  exists target queue tokens, committed r sid (sv_source v) target queue tokens r' lease /\
    chosen r sid v ids target queue tokens.
Proof using.
  intros Nd v F C. apply commit_step_committed in F.
  eexists _, _, _. split; [exact F|]. destruct target as [u|]; [|destruct C; by split_and!]. split; [done|].
  split; [|destruct C as [C|C]; [by left|by right; left]].
  assert (Own := owner_source r sid expected now). assert (Mem := healthy_member r sid expected now u Nd). 
  assert (Here := owner_here r sid expected now). fold v in Own, Mem, Here. clearbody v. unfold token_load. destruct C as [[Ho Hs]|[Hu Ho]].
  - destruct (Own Ho) as (u' & d & Hs' & _ & _ & L). assert (u' = u) as -> by congruence.
    by rewrite L, Ho, Hs, !bool_decide_true.
  - rewrite Ho. cbn [andb]. case_bool_decide as Hs; [|done]. exfalso.
    destruct (Mem Hu) as (d & D & _ & L & V & _). by rewrite (Here u d Hs D V L) in Ho.
Qed.

Lemma stable_member sid l u : choose_stable_engine sid (sort_by (fun a b => bool_decide (String.le a b)) l) = Ok u -> u ∈ l.
Proof using.
  unfold choose_stable_engine. destruct (sort_by _ l) as [|y ys] eqn:Ey; [done|]. intros [= <-].
  assert (M : min_by (rank_url_ltb sid) y ys ∈ y :: ys)
    by (destruct (min_by_in (rank_url_ltb sid) y ys) as [-> | I]; [by left|by right]).
  rewrite <- Ey in M. by apply elem_of_sort_by in M.
Qed.

(** The choice of a step, and what it leaves. *)
Lemma schedule_chosen r sid ids expected req now r' lease :
  NoDup (dkeys (eb_deployments r)) -> schedule r sid ids expected req now = Ok (r', lease) ->
  let v := step_view r sid expected now in
  (req = true -> is_Some (sv_existing v)) /\
  exists target queue tokens, committed r sid (sv_source v) target queue tokens r' lease /\
    chosen r sid v ids target queue tokens.
Proof using.
  intros Nd. unfold _schedule_step_locked. set (v := step_view r sid expected now).
  destruct (req && negb (is_some (sv_existing v))) eqn:Rq; [done|]. cbn [raise_if res_bind].
  destruct (mapM_res _ _) as [x|]; [|done]. cbn [res_bind]. intros E. split.
  { intros ->. destruct (sv_existing v); [by eexists|done]. }
  assert (Fall := fun target kind reason => fallback_chosen r sid expected now target kind ids reason r' lease Nd).
  assert (Own := owner_source r sid expected now). assert (Fr := fresh_healthy r sid expected now).
  fold v in Own, Fr. change (step_view r sid expected now) with v in Fall. clearbody v. cbn zeta in Fall.
  destruct (sv_healthy_owner v && negb (sv_owner_fresh v)) eqn:Of.
  { apply Ok_inj in E. apply andb_prop in Of as [Ho _]. apply (Fall _ _ _ E).
    destruct (Own Ho) as (u & d & Es & _). rewrite Es. by left. }
  destruct (step_targets r v) as [|t0 ts] eqn:Et.
  { unfold schedule_without_edges in E. destruct (sv_healthy_owner v) eqn:Ho.
    - apply Ok_inj in E. apply (Fall _ _ _ E). destruct (Own eq_refl) as (u & d & Es & _). rewrite Es. by left.
    - destruct (sv_healthy v) as [|h hs] eqn:Eh; [apply Ok_inj in E; by apply (Fall _ _ _ E)|].
      destruct (choose_stable_engine _ _) as [u|] eqn:Ec; [|done]. cbn [res_bind] in E. apply Ok_inj in E.
      apply (Fall _ _ _ E). right. split; [|done]. rewrite Eh. by eapply stable_member. }
  rewrite <- Et in E. destruct (checked_inputs _ _); [|done]. cbn [res_bind] in E.
  destruct (choose_greedy_step _ _ _ _ _ _) as [d|] eqn:Ed; [|done]. cbn [res_bind] in E.
  destruct (dget (eb_deployments r) (selected_target d)) as [dep|]; [|done]. apply Ok_inj in E.
  apply commit_step_committed in E. eexists _, _, _. split; [exact E|]. cbn [chosen]. split; [done|]. split; [done|].
  destruct (choose_member _ _ _ _ _ _ _ Ed) as [Mem Stay].
  assert (In : selected_target d ∈ step_targets r v) by (rewrite map_map in Mem; by rewrite map_id in Mem).
  destruct (sv_healthy_owner v) eqn:Ho; [|right; left; split; [by apply Fr, (target_fresh r)|done]].
  destruct (Own eq_refl) as (u & d' & Es & _). unfold step_kind in Ed, Stay. rewrite Es, Ho in Ed, Stay.
  destruct (Stay eq_refl) as [Th|O]; [|left; split; [done|congruence]]. right; right. split; [done|]. exists d. by rewrite Es.
Qed.

Lemma schedule_committed r sid ids expected req now r' lease :
  schedule r sid ids expected req now = Ok (r', lease) ->
  exists target queue tokens, committed r sid (sv_source (step_view r sid expected now)) target queue tokens r' lease.
Proof using.
  unfold _schedule_step_locked. set (v := step_view r sid expected now). clearbody v.
  destruct (req && _); [done|]. cbn [raise_if res_bind]. destruct (mapM_res _ _); [|done]. cbn [res_bind].
  assert (Fall : forall target kind reason, _schedule_fallback_locked config r sid v target kind ids reason = (r', lease) ->
    exists target queue tokens, committed r sid (sv_source v) target queue tokens r' lease).
  { intros target kind reason F. unfold _schedule_fallback_locked in F. apply commit_step_committed in F.
    by eexists _, _, _. }
  destruct (sv_healthy_owner v && _); [by intros E%Ok_inj%Fall|].
  destruct (step_targets r v) as [|t0 ts].
  - unfold schedule_without_edges. destruct (sv_healthy_owner v); [by intros E%Ok_inj%Fall|].
    destruct (sv_healthy v); [by intros E%Ok_inj%Fall|]. destruct (choose_stable_engine _ _); [|done].
    cbn [res_bind]. by intros E%Ok_inj%Fall.
  - destruct (checked_inputs _ _); [|done]. cbn [res_bind]. destruct (choose_greedy_step _ _ _ _ _ _); [|done].
    cbn [res_bind]. destruct (dget _ _); [|done]. intros E%Ok_inj%commit_step_committed. by eexists _, _, _.
Qed.

Lemma acquire_undone r sid ids expected req now e r' : books_ok r ->
  acquire r sid ids expected req now = (r', Raise e) ->
  r' = (if _stopping r then r
        else set_decisions r (_next_load_decision_id r + 1)
               (match trace_check r with
                | Ok _ => record_trace config (_load_decision_history r) (failed_trace (_next_load_decision_id r) sid)
                | Raise _ => _load_decision_history r
                end)).
Proof using.
  intros B. unfold Rebalancer.acquire. destruct (negb (enabled config)); [by intros [= ? ?]|].
  destruct (_stopping r); [by intros [= <- _]|].
  destruct (schedule r sid ids expected req now) as [[r1 l]|x] eqn:E.
  - destruct (trace_check r1); [done|]. intros [= <- _].
    apply schedule_committed in E as (target & queue & tokens & C). by eapply rollback_committed.
  - intros [= <- _]. by apply rollback_same.
Qed.

(** A failed acquisition is undone.  Whether the placement or the record of it raised,
    the reservations, their numbering and revisions, the session and everything else are
    as they were; only the decision counter moves on, and the failure is on record when
    the record can be made. *)
Theorem acquire_atomic r sid ids expected req now e r' : books_ok r ->
  acquire r sid ids expected req now = (r', Raise e) ->
  r' = (if _stopping r then r
        else set_decisions r (_next_load_decision_id r + 1)
               (match trace_check r with
                | Ok _ => record_trace config (_load_decision_history r) (failed_trace (_next_load_decision_id r) sid)
                | Raise _ => _load_decision_history r
                end)).
Proof using. apply acquire_undone. Qed.

Lemma token_load_nonneg v ids u : (0 <= token_load v ids u)%Z.
Proof using. unfold token_load. case_match; lia. Qed.

Lemma target_ready r v u s : u ∈ step_targets r v -> sv_healthy_owner v = true -> sv_source v = Some s -> u <> s ->
  mooncake_ready r s u = true.
Proof using.
  intros I Ho Es Ne. apply list_elem_of_In, List.filter_In in I as [_ I]. rewrite Es, Ho in I. cbn [andb] in I.
  by rewrite (proj2 (String.eqb_neq u s) Ne) in I.
Qed.

(** The engine a step may be sent to. *)
Definition placed (r : EngineRebalancer) (sid : string) (v : StepView) (ids : list Z) (expected : option string)
    (u : string) : Prop :=
  exists d, dget (eb_deployments r) u = Some d /\ load_healthy r u = true /\ version_ok expected d = true /\
    (sv_source v = None \/ sv_source v = Some u \/ bound_fingerprint r v = Some (ed_cache_fingerprint d)) /\
    forall s, sv_healthy_owner v = true -> sv_source v = Some s -> s <> u ->
      u ∈ sv_fresh v /\ mooncake_ready r s u = true /\
      exists choice, choose_greedy_step sid EXISTING_SESSION (Some s) (opt_list_baseline r (step_targets r v))
                       (map (step_edge sid v ids) (step_targets r v)) (min_load_improvement_ratio config) = Ok choice /\
        selected_target choice = u /\ threshold_met choice = Some true.

Lemma chosen_placed r sid ids expected now u queue tokens : NoDup (dkeys (eb_deployments r)) ->
  let v := step_view r sid expected now in
  chosen r sid v ids (Some u) queue tokens -> queue = 1%Z /\ tokens = token_load v ids u /\ placed r sid v ids expected u.
Proof using.
  intros Nd v (Q & T & C). split; [done|]. split; [done|].
  assert (Mem := healthy_member r sid expected now u Nd). assert (Fr := fresh_healthy r sid expected now u).
  assert (Own := owner_source r sid expected now). fold v in Mem, Fr, Own. clearbody v.
  destruct C as [(Ho & Es)|[(Hu & Ho)|(In & ch & Th & Sel & Eq)]].
  - destruct (Own Ho) as (u' & d & Es' & D & V & L). assert (u' = u) as -> by congruence.
    exists d. split_and!; try done; [by right; left|]. intros s _ Es2 Ne. congruence.
  - destruct (Mem Hu) as (d & D & _ & L & V & P). exists d. split_and!; try done; [destruct P; [by left|by right; right]|].
    intros s Ho'. congruence.
  - assert (Fu := target_fresh _ _ _ In). destruct (Mem (Fr Fu)) as (d & D & _ & L & V & P).
    exists d. split_and!; try done; [destruct P; [by left|by right; right]|]. intros s Ho Es Ne. split; [done|].
    split; [by apply (target_ready r v u s)|]. exists ch. by rewrite <- Es.
Qed.


(** ** The scheduler over time

    A request in flight, with the account the theorem keeps of it; a load poll between its
    request and its answer; and, per engine, the latest revision at whose time a poll was
    sent whose answer has been published. *)

Record Outstanding : Type := { ou_lease : RoutingLease; ou_tokens : Z; ou_revision : Z }.

Record Sched : Type := {
  sc_reb : EngineRebalancer;
  sc_out : list Outstanding;
  sc_polls : list Poll;
  sc_seen : list (string * Z) }.

Inductive sched_event : Type :=
  | SAcquire (sid : string) (ids : list Z) (expected : option string) (req : bool) (now : float)
  | SComplete (k : nat) (tokens : list Z) (success : bool)
  | SRegister (sid : string)
  | SDiscard (sid : string)
  | SPollBegin (u : string)
  | SPollEnd (k : nat) (f : _LoadFetchResult) (now clock : float)
  | SRefresh (healthy : list string) (inspected : list Inspected) (now clock : float).

Variable iter : list string -> list string.
Variable model_config : option (list (string * pyval)).
Abbreviation poll_end := (poll_end gethostbyname machine node_ids node_addresses node_aliases injected calibrator config).
Abbreviation refresh_locked := (refresh_locked gethostbyname machine node_ids node_addresses node_aliases injected calibrator
  config iter model_config).

Definition seen_at (seen : list (string * Z)) (u : string) : Z := dget_def 0%Z seen u.

Definition see (seen : list (string * Z)) (u : string) (boundary : Z) : list (string * Z) :=
  dset seen u (Z.max (seen_at seen u) boundary).

Definition sched_step (s : Sched) (e : sched_event) : Sched :=
  let r := sc_reb s in
  match e with
  | SAcquire sid ids expected req now =>
      match acquire r sid ids expected req now with
      | (r', Ok lease) =>
          let tokens := match worker_url lease with
                        | Some u => token_load (step_view r sid expected now) ids u
                        | None => 0%Z
                        end in
          {| sc_reb := r'; sc_out := sc_out s ++ [{| ou_lease := lease; ou_tokens := tokens;
                                                    ou_revision := _scoring_revision r' |}];
             sc_polls := sc_polls s; sc_seen := sc_seen s |}
      | (r', Raise _) => {| sc_reb := r'; sc_out := sc_out s; sc_polls := sc_polls s; sc_seen := sc_seen s |}
      end
  | SComplete k tokens success =>
      match sc_out s !! k with
      | Some o => {| sc_reb := fst (complete config r (ou_lease o) tokens success); sc_out := delete k (sc_out s);
                     sc_polls := sc_polls s; sc_seen := sc_seen s |}
      | None => s
      end
  | SRegister sid => {| sc_reb := register_session_context config r sid; sc_out := sc_out s;
                        sc_polls := sc_polls s; sc_seen := sc_seen s |}
  | SDiscard sid => {| sc_reb := discard_session_context r sid; sc_out := sc_out s;
                       sc_polls := sc_polls s; sc_seen := sc_seen s |}
  | SPollBegin u => {| sc_reb := r; sc_out := sc_out s;
                       sc_polls := sc_polls s ++ match poll_begin r u with Some p => [p] | None => [] end;
                       sc_seen := sc_seen s |}
  | SPollEnd k f now clock =>
      match sc_polls s !! k with
      | Some p => {| sc_reb := poll_end r p f now clock; sc_out := sc_out s; sc_polls := delete k (sc_polls s);
                     sc_seen := if is_some (publishable r p f) then see (sc_seen s) (po_url p) (po_boundary p)
                                else sc_seen s |}
      | None => s
      end
  | SRefresh healthy inspected now clock =>
      {| sc_reb := fst (refresh_locked r healthy inspected now clock); sc_out := sc_out s;
         sc_polls := sc_polls s; sc_seen := sc_seen s |}
  end.

Definition sched_init : Sched :=
  {| sc_reb := EngineRebalancer__init__; sc_out := []; sc_polls := []; sc_seen := [] |}.

Definition sched_run (es : list sched_event) : Sched := fold_left sched_step es sched_init.

(** The reservations the outstanding requests stand for. *)
Definition booked_entry (seen : list (string * Z)) (o : Outstanding) : option (Z * _ReservationEntry) :=
  match reservation_id (ou_lease o), worker_url (ou_lease o) with
  | Some i, Some u =>
      Some (i, {| re_engine_url := u; scoring_queue_increment := 1; scoring_token_increment := ou_tokens o;
                  scoring_revision := ou_revision o; scoring_active := (seen_at seen u <? ou_revision o)%Z |})
  | _, _ => None
  end.

Definition booked (seen : list (string * Z)) (l : list Outstanding) : list (Z * _ReservationEntry) :=
  omap (booked_entry seen) l.

(** The requests on an engine that no published snapshot has seen. *)
Definition unseen (s : Sched) (u : string) : list Outstanding :=
  List.filter (fun o => is_some (reservation_id (ou_lease o)) && bool_decide (worker_url (ou_lease o) = Some u)
                        && (seen_at (sc_seen s) u <? ou_revision o)%Z) (sc_out s).

Record sched_ok (s : Sched) : Prop := {
  so_books : _reservations (sc_reb s) = booked (sc_seen s) (sc_out s);
  so_ids : books_ok (sc_reb s);
  so_leases : Forall (fun o => is_some (reservation_id (ou_lease o)) = is_some (worker_url (ou_lease o))) (sc_out s);
  so_seen : forall u, (seen_at (sc_seen s) u <= _scoring_revision (sc_reb s))%Z;
  so_polls : Forall (fun p => (po_boundary p <= _scoring_revision (sc_reb s))%Z) (sc_polls s) }.

(** What an operation that leaves the books alone preserves. *)
Definition same_books (r r' : EngineRebalancer) : Prop :=
  _reservations r' = _reservations r /\ _next_reservation_id r' = _next_reservation_id r /\
  _scoring_revision r' = _scoring_revision r.

Lemma same_books_trans r1 r2 r3 : same_books r1 r2 -> same_books r2 r3 -> same_books r1 r3.
Proof using. intros (E1 & E2 & E3) (F1 & F2 & F3). split_and!; congruence. Qed.

Lemma same_books_ok r r' : same_books r r' -> books_ok r -> books_ok r'.
Proof using. intros (E1 & E2 & E3) [A B C]. split; by rewrite ?E1, ?E2, ?E3. Qed.

Lemma sched_same r' s : same_books (sc_reb s) r' -> sched_ok s ->
  sched_ok {| sc_reb := r'; sc_out := sc_out s; sc_polls := sc_polls s; sc_seen := sc_seen s |}.
Proof using.
  intros Sb [A B L C D]. split; cbn; [|by eapply same_books_ok|done|..]; destruct Sb as (E1 & E2 & E3);
    rewrite ?E1, ?E3; done.
Qed.

Lemma refresh_pool_books healthy now clock r fp :
  same_books r (fst (refresh_pool gethostbyname machine node_ids node_addresses node_aliases injected calibrator
                       config model_config healthy now clock r fp)).
Proof using. unfold refresh_pool. repeat (case_match; simplify_eq/=; try done). Qed.

Lemma fold_states_books {B} (f : EngineRebalancer -> B -> EngineRebalancer * result unit) l :
  (forall r b, same_books r (fst (f r b))) -> forall r, same_books r (fst (fold_states f l r)).
Proof using.
  intros F. induction l as [|b l IH]; intros r; [done|]. cbn [fold_states]. specialize (F r b).
  destruct (f r b) as [r1 [?|?]]; [|done]. eapply same_books_trans; [exact F|apply IH].
Qed.

Lemma apply_inspected_books now is_ : forall r, same_books r (fold_left (apply_inspected now) is_ r).
Proof using.
  induction is_ as [|i is_ IH]; intros r; [done|]. cbn [fold_left]. eapply same_books_trans; [|apply IH].
  unfold apply_inspected. by repeat case_match.
Qed.

Lemma refresh_books r healthy inspected now clock :
  same_books r (fst (refresh_locked r healthy inspected now clock)).
Proof using.
  unfold Rebalancer.refresh_locked.
  assert (A := apply_inspected_books now inspected r). set (r1 := fold_left _ inspected r) in *. clearbody r1.
  match goal with |- context [fold_states ?f ?l ?x] => assert (F := fold_states_books f l (refresh_pool_books healthy now clock) x) end.
  destruct (fold_states _ _ _) as [r2 [?|?]]; by eapply same_books_trans; [exact A|].
Qed.

Lemma complete_books r lease tokens ok : enabled config = true ->
  same_books (_release_reservation r (reservation_id lease)) (fst (complete config r lease tokens ok)).
Proof using. intros En. unfold complete. rewrite En. by repeat (case_match; simplify_eq/=). Qed.

Lemma booked_app seen l1 l2 : booked seen (l1 ++ l2) = booked seen l1 ++ booked seen l2.
Proof using. apply omap_app. Qed.

Lemma filter_other (l : list (Z * _ReservationEntry)) i : i ∉ map fst l ->
  List.filter (fun ie => negb (fst ie =? i)%Z) l = l.
Proof using.
  intros N. apply filter_all. apply Forall_forall. intros [j e] I. cbn. apply negb_true_iff, Z.eqb_neq. intros ->.
  apply N. apply list_elem_of_fmap. by exists (i, e).
Qed.

Lemma booked_complete seen l k o r : l !! k = Some o -> NoDup (map fst (booked seen l)) ->
  is_some (reservation_id (ou_lease o)) = is_some (worker_url (ou_lease o)) -> _reservations r = booked seen l ->
  _reservations (_release_reservation r (reservation_id (ou_lease o))) = booked seen (delete k l).
Proof using.
  intros Lk Nd W E. rewrite delete_take_drop, booked_app.
  assert (Sp := take_drop_middle l k o Lk). rewrite <- Sp in Nd, E. clear Sp Lk.
  unfold _release_reservation. rewrite booked_app in Nd, E.
  change (booked seen (o :: drop (S k) l)) with
    (match booked_entry seen o with Some y => y :: booked seen (drop (S k) l) | None => booked seen (drop (S k) l) end) in *.
  unfold booked_entry in Nd, E.
  destruct (reservation_id (ou_lease o)) as [i|] eqn:Er, (worker_url (ou_lease o)) as [u|] eqn:Ew; try done.
  cbn [_reservations set_reservations]. rewrite E. rewrite List.filter_app. cbn [List.filter fst].
  rewrite Z.eqb_refl. cbn [negb]. rewrite map_app in Nd. apply NoDup_app in Nd as (_ & N1 & N2).
  cbn [map fst] in N1, N2. apply NoDup_cons in N2 as [N2 _].
  rewrite !filter_other; [done|done|]. intros I. by apply (N1 i I), list_elem_of_here.
Qed.

Lemma seen_at_see seen u b u' :
  seen_at (see seen u b) u' = if decide (u = u') then Z.max (seen_at seen u) b else seen_at seen u'.
Proof using. unfold seen_at, see, dget_def. rewrite dget_dset. by case_decide. Qed.

Lemma booked_see seen u b l :
  booked (see seen u b) l = map (fun ie => (fst ie, acknowledge u b (snd ie))) (booked seen l).
Proof using.
  induction l as [|o l IH]; [done|].
  change (booked ?s (o :: l)) with
    (match booked_entry s o with Some y => y :: booked s l | None => booked s l end).
  unfold booked_entry. destruct (reservation_id _) as [i|]; [|done]. destruct (worker_url _) as [u'|]; [|done].
  cbn [map fst snd]. rewrite IH. f_equal. f_equal. unfold acknowledge. cbn. rewrite seen_at_see.
  destruct (String.eqb u' u) eqn:Eu.
  - apply String.eqb_eq in Eu as ->. rewrite decide_True by done. cbn [andb].
    destruct (seen_at seen u <? ou_revision o)%Z eqn:L; cbn [andb].
    + destruct (ou_revision o <=? b)%Z eqn:M; f_equal; lia.
    + f_equal. lia.
  - apply String.eqb_neq in Eu. rewrite decide_False by done. done.
Qed.

Lemma poll_end_books r p f now clock :
  let r' := poll_end r p f now clock in
  _next_reservation_id r' = _next_reservation_id r /\ _scoring_revision r' = _scoring_revision r /\
  eb_deployments r' = eb_deployments r /\
  _reservations r' = (if is_some (publishable r p f)
                      then map (fun ie => (fst ie, acknowledge (po_url p) (po_boundary p) (snd ie))) (_reservations r)
                      else _reservations r).
Proof using. unfold Rebalancer.poll_end. by destruct (publishable r p f). Qed.

Lemma sched_poll_end s k p f now clock : sched_ok s -> sc_polls s !! k = Some p ->
  sched_ok (sched_step s (SPollEnd k f now clock)).
Proof using.
  intros [A B L C D] Lk. cbn [sched_step]. rewrite Lk.
  destruct (poll_end_books (sc_reb s) p f now clock) as (E1 & E2 & _ & E3).
  assert (Pb : (po_boundary p <= _scoring_revision (sc_reb s))%Z) by (by eapply Forall_lookup_1 in D).
  split; cbn [sc_reb sc_out sc_polls sc_seen].
  - rewrite E3, A. destruct (is_some _); [by rewrite booked_see|done].
  - destruct B as [B1 B2 B3]. split; rewrite ?E1, ?E2, E3; destruct (is_some _); try done.
    + by rewrite map_map.
    + by rewrite Forall_map.
    + rewrite Forall_map. eapply Forall_impl; [exact B3|]. intros [i e]. cbn. unfold acknowledge. by case_match.
  - done.
  - intros u. rewrite E2. destruct (is_some _); [|done]. rewrite seen_at_see. case_decide; [subst|done].
    specialize (C (po_url p)). lia.
  - rewrite E2. by apply Forall_delete.
Qed.

Lemma committed_books r sid source target queue tokens r' lease : books_ok r ->
  committed r sid source target queue tokens r' lease -> books_ok r' /\ (_scoring_revision r <= _scoring_revision r')%Z.
Proof using.
  intros [A B C] [_ _ Bk _ _]. destruct target as [u|].
  - destruct Bk as (_ & Rs & Nx & Rv). split; [|lia]. split; rewrite Rs, ?Nx, ?Rv.
    + rewrite map_app. apply NoDup_app. split; [done|]. split; [|apply NoDup_singleton].
      intros i I J. apply list_elem_of_singleton in J. cbn in J. subst i. apply list_elem_of_fmap in I as (ie & E & I).
      rewrite Forall_forall in B. specialize (B _ I). lia.
    + apply Forall_app. split; [|by apply Forall_singleton; cbn; lia]. eapply Forall_impl; [exact B|]. cbn. lia.
    + apply Forall_app. split; [|by apply Forall_singleton; cbn; lia]. eapply Forall_impl; [exact C|]. cbn. lia.
  - destruct Bk as (_ & Rs & Nx & Rv). split; [|lia]. split; by rewrite Rs, ?Nx, ?Rv.
Qed.

Lemma acquire_raise_books r sid ids expected req now e r' : books_ok r ->
  acquire r sid ids expected req now = (r', Raise e) -> same_books r r' /\ eb_deployments r' = eb_deployments r.
Proof using.
  intros B E. apply acquire_undone in E as ->; [|done]. by destruct (_stopping r).
Qed.

Lemma committed_deployments r sid source target queue tokens r' lease :
  committed r sid source target queue tokens r' lease -> eb_deployments r' = eb_deployments r.
Proof using. intros [_ _ _ _ R]. by apply (f_equal eb_deployments) in R. Qed.

Lemma acquire_ok_chosen r sid ids expected req now r' lease : enabled config = true ->
  NoDup (dkeys (eb_deployments r)) -> acquire r sid ids expected req now = (r', Ok lease) ->
  exists target queue tokens,
    committed r sid (sv_source (step_view r sid expected now)) target queue tokens r' lease /\
    chosen r sid (step_view r sid expected now) ids target queue tokens.
Proof using.
  intros En Nd. unfold Rebalancer.acquire. rewrite En. cbn [negb]. destruct (_stopping r); [done|].
  destruct (schedule r sid ids expected req now) as [[r1 l]|x] eqn:E; [|done].
  destruct (trace_check r1); [|done]. intros [= <- <-]. by apply schedule_chosen in E as [_ E].
Qed.

Lemma omap_sublist {A B} (f : A -> option B) (l1 l2 : list A) : l1 `sublist_of` l2 -> omap f l1 `sublist_of` omap f l2.
Proof using.
  induction 1 as [|x l1 l2 S IH|x l1 l2 S IH]; cbn; [constructor| |].
  - destruct (f x); [by constructor|done].
  - destruct (f x); [by constructor|done].
Qed.

Lemma sublist_Forall {A} (P : A -> Prop) (l1 l2 : list A) : l1 `sublist_of` l2 -> Forall P l2 -> Forall P l1.
Proof using.
  induction 1 as [|x l1 l2 S IH|x l1 l2 S IH]; [done|..]; intros [F1 F2]%Forall_cons; [|by apply IH].
  apply Forall_cons. split; [done|by apply IH].
Qed.

Lemma sched_acquire s sid ids expected req now : enabled config = true ->
  NoDup (dkeys (eb_deployments (sc_reb s))) -> sched_ok s ->
  sched_ok (sched_step s (SAcquire sid ids expected req now)).
Proof using.
  intros En Nd Ok. cbn [sched_step].
  destruct (acquire (sc_reb s) sid ids expected req now) as [r' [lease|e]] eqn:E.
  2:{ apply acquire_raise_books in E as [E _]; [|apply Ok]. by apply sched_same. }
  apply (acquire_ok_chosen _ _ _ _ _ _ _ _ En Nd) in E as (target & queue & tokens & C & Ch).
  destruct Ok as [A B L S P]. destruct (committed_books _ _ _ _ _ _ _ _ B C) as [B' Le].
  destruct C as [_ Url Bk _ _]. split; cbn [sc_reb sc_out sc_polls sc_seen]; [|done|..].
  - rewrite booked_app, <- A. change (booked ?s [?o]) with (match booked_entry s o with Some y => [y] | None => [] end).
    unfold booked_entry. cbn [ou_lease ou_tokens ou_revision]. rewrite Url. destruct target as [u|].
    + destruct Bk as (-> & -> & _ & Rv). destruct Ch as (-> & -> & _). rewrite (Z.max_r 0 (token_load _ _ _)) by apply token_load_nonneg.
      rewrite Rv. rewrite (proj2 (Z.ltb_lt _ _)); [done|]. specialize (S u). lia.
    + destruct Bk as (-> & -> & _). by rewrite app_nil_r.
  - apply Forall_app. split; [done|]. apply Forall_singleton. cbn. rewrite Url.
    destruct target; [by destruct Bk as (-> & _)|by destruct Bk as (-> & _)].
  - intros u. specialize (S u). lia.
  - eapply Forall_impl; [exact P|]. cbn. lia.
Qed.

Lemma sched_complete s k tokens ok : enabled config = true -> sched_ok s ->
  sched_ok (sched_step s (SComplete k tokens ok)).
Proof using.
  intros En [A B L S P]. cbn [sched_step]. destruct (sc_out s !! k) as [o|] eqn:Lk; [|by split].
  assert (W : is_some (reservation_id (ou_lease o)) = is_some (worker_url (ou_lease o))) by (by eapply Forall_lookup_1 in L).
  assert (Nd : NoDup (map fst (booked (sc_seen s) (sc_out s)))) by (rewrite <- A; apply B).
  destruct (complete_books (sc_reb s) (ou_lease o) tokens ok En) as (E1 & E2 & E3).
  rewrite (booked_complete _ _ _ _ _ Lk Nd W A) in E1.
  assert (E2' : _next_reservation_id (fst (complete config (sc_reb s) (ou_lease o) tokens ok)) = _next_reservation_id (sc_reb s))
    by (rewrite E2; by destruct (reservation_id (ou_lease o))).
  assert (E3' : _scoring_revision (fst (complete config (sc_reb s) (ou_lease o) tokens ok)) = _scoring_revision (sc_reb s))
    by (rewrite E3; by destruct (reservation_id (ou_lease o))).
  assert (Sub : booked (sc_seen s) (delete k (sc_out s)) `sublist_of` _reservations (sc_reb s)).
  { rewrite A. apply omap_sublist, sublist_delete. }
  destruct B as [B1 B2 B3]. split; cbn [sc_reb sc_out sc_polls sc_seen]; rewrite ?E3'; try done.
  - split; rewrite E1, ?E2', ?E3'.
    + eapply sublist_NoDup; [exact B1|by apply (fmap_sublist fst)].
    + by eapply sublist_Forall.
    + by eapply sublist_Forall.
  - by apply Forall_delete.
Qed.

Lemma sched_step_ok s e : enabled config = true -> NoDup (dkeys (eb_deployments (sc_reb s))) -> sched_ok s ->
  sched_ok (sched_step s e).
Proof using.
  intros En Nd Ok. destruct e.
  - by apply sched_acquire.
  - by apply sched_complete.
  - apply sched_same; [|done]. unfold register_session_context. by destruct (enabled config).
  - by apply sched_same.
  - destruct Ok as [A B L S P]. split; cbn [sched_step sc_reb sc_out sc_polls sc_seen]; try done.
    apply Forall_app. split; [done|]. destruct (poll_begin _ _) as [p|] eqn:E; [|done]. apply Forall_singleton.
    unfold poll_begin in E. destruct (dget _ _); [|done]. destruct (load_healthy _ _); [|done]. injection E as <-. cbn. lia.
  - destruct (sc_polls s !! k) as [p|] eqn:Lk; [by eapply sched_poll_end|]. cbn [sched_step]. by rewrite Lk.
  - apply sched_same; [apply refresh_books|done].
Qed.

Lemma apply_inspected_nodup now is_ : forall r, NoDup (dkeys (eb_deployments r)) ->
  NoDup (dkeys (eb_deployments (fold_left (apply_inspected now) is_ r))).
Proof using.
  induction is_ as [|i is_ IH]; intros r Nd; [done|]. cbn [fold_left]. apply IH. unfold apply_inspected.
  destruct (in_deployment i); [|done]. destruct (sglang_rebalancing_supported _); cbn; [by apply dset_NoDup|by apply dpop_NoDup].
Qed.

Lemma fold_states_deployments healthy now clock l : forall r,
  eb_deployments (fst (fold_states (refresh_pool gethostbyname machine node_ids node_addresses node_aliases injected
    calibrator config model_config healthy now clock) l r)) = eb_deployments r.
Proof using.
  induction l as [|b l IH]; intros r; [done|]. cbn [fold_states].
  destruct (refresh_pool _ _ _ _ _ _ _ _ _ _ _ _ r b) as [r1 o] eqn:E.
  assert (D : eb_deployments r1 = eb_deployments r).
  { unfold refresh_pool in E. repeat case_match; injection E as <- <-; done. }
  destruct o; [by rewrite IH|done].
Qed.

Lemma sched_nodup s e : enabled config = true -> sched_ok s -> NoDup (dkeys (eb_deployments (sc_reb s))) ->
  NoDup (dkeys (eb_deployments (sc_reb (sched_step s e)))).
Proof using.
  intros En Ok Nd. destruct e; cbn [sched_step].
  - destruct (acquire (sc_reb s) sid ids expected req now) as [r' [lease|e]] eqn:E; cbn [sc_reb].
    + apply (acquire_ok_chosen _ _ _ _ _ _ _ _ En Nd) in E as (target & queue & tokens & C & _).
      by rewrite (committed_deployments _ _ _ _ _ _ _ _ C).
    + apply acquire_raise_books in E as [_ ->]; [done|apply Ok].
  - destruct (sc_out s !! k); [|done]. cbn [sc_reb]. unfold complete, _release_reservation.
    by repeat (case_match; simplify_eq/=).
  - unfold register_session_context. cbn. by destruct (enabled config).
  - done.
  - done.
  - destruct (sc_polls s !! k) as [p|]; [|done]. cbn [sc_reb].
    by destruct (poll_end_books (sc_reb s) p f now clock) as (_ & _ & -> & _).
  - cbn [sc_reb]. unfold Rebalancer.refresh_locked.
    assert (N := apply_inspected_nodup now inspected (sc_reb s) Nd). set (r1 := fold_left _ inspected _) in *. clearbody r1.
    match goal with |- context [fold_states ?f ?l ?x] => assert (F := fold_states_deployments healthy now clock l x) end.
    destruct (fold_states _ _ _) as [r2 [?|?]]; cbn in F |- *; by rewrite F.
Qed.

Lemma sched_run_ok es : enabled config = true ->
  sched_ok (sched_run es) /\ NoDup (dkeys (eb_deployments (sc_reb (sched_run es)))).
Proof using.
  intros En. unfold sched_run. assert (I : sched_ok sched_init /\ NoDup (dkeys (eb_deployments (sc_reb sched_init)))).
  { split; [|apply NoDup_nil_2]. split; cbn; try done.
    split; cbn; [apply NoDup_nil_2|done|done]. }
  revert I. generalize sched_init. induction es as [|e es IH]; intros s I; [done|]. cbn [fold_left]. apply IH.
  destruct I as [Ok Nd]. split; [by apply sched_step_ok|by apply sched_nodup].
Qed.

Lemma live_entries_unseen s u : sched_ok s -> map (fun e => (scoring_queue_increment e, scoring_token_increment e))
    (live_entries (sc_reb s) u) = map (fun o => (1%Z, ou_tokens o)) (unseen s u).
Proof using.
  intros [A _ L _ _]. unfold live_entries, unseen. rewrite A. clear A. revert L. generalize (sc_out s).
  induction l as [|o l IH]; intros L; [done|]. apply Forall_cons in L as [W L]. specialize (IH L).
  change (booked ?s (o :: l)) with (match booked_entry s o with Some y => y :: booked s l | None => booked s l end).
  unfold booked_entry. cbn [List.filter].
  destruct (reservation_id _) as [i|], (worker_url _) as [w|]; try done. cbn [map snd List.filter is_some andb re_engine_url scoring_active].
  destruct (String.eqb w u) eqn:Eu.
  - apply String.eqb_eq in Eu as ->. rewrite bool_decide_true by done. cbn [andb].
    destruct (seen_at _ _ <? _)%Z; cbn [map]; by rewrite ?IH.
  - apply String.eqb_neq in Eu. rewrite bool_decide_false by congruence. exact IH.
Qed.

(** C6: The load the scheduler adds to a snapshot is exact in every interleaving of
    acquisitions, completions, registrations, polls and refreshes: there is one
    reservation per outstanding lease, and an engine's scoring totals count exactly the
    outstanding requests placed on it since the last poll whose answer was published was
    sent, with their tokens.  Nothing is counted twice, nothing is lost, and nothing stays
    behind once every lease is returned. *)
Theorem scheduling_load_exact es u : enabled config = true ->
  let s := sched_run es in
  _reservations (sc_reb s) = booked (sc_seen s) (sc_out s) /\ NoDup (map fst (_reservations (sc_reb s))) /\
  _live_scoring_totals (sc_reb s) u = (Z.of_nat (length (unseen s u)), sum_z (map ou_tokens (unseen s u))).
Proof using.
  intros En s. destruct (sched_run_ok es En) as [Ok _]. fold s in Ok. clearbody s.
  assert (E := live_entries_unseen s u Ok). destruct Ok as [A [B _ _] _ _ _]. split; [exact A|]. split; [exact B|].
  unfold _live_scoring_totals. f_equal.
  - apply (f_equal (map fst)) in E. rewrite !map_map in E. change (map scoring_queue_increment (live_entries (sc_reb s) u) = map (fun _ => 1%Z) (unseen s u)) in E.
    rewrite E. clear E.
    induction (unseen s u) as [|o l IH]; [done|]. cbn [map]. unfold sum_z in *. cbn [fold_right length]. lia.
  - apply (f_equal (map snd)) in E. rewrite !map_map in E. change (map scoring_token_increment (live_entries (sc_reb s) u) = map ou_tokens (unseen s u)) in E. by rewrite E.
Qed.
End Acquire.
