(* ===== verification/SchedulerExamples.v ===== *)
(** * The rebalancing scheduler at work

    Two engines that share a cache: a session starts on one, and moves to the other once
    its engine is crowded.  The theorems of the scheduler, applied to that run. *)

From S2P Require Import Prelude.
From S2P Require Import PyFloat.
From S2P Require Import PyVal.
From S2P Require Import Greedy.
From S2P Require Import SchedulerState.
From S2P Require Import Calibration.
From S2P Require Import Deployment.
From S2P Require Import Rebalancer.
From S2P Require Import Scheduler.

Local Open Scope string_scope.
Local Open Scope list_scope.
Local Open Scope py_scope.

#[local] Instance w_sched_text : PyText := {| py_repr := fun _ => ""; py_parse_float := fun _ => None |}.

Definition ws_config : EngineRebalancingConfig :=
  {| enabled := true; load_poll_interval_ms := 100; load_snapshot_poll_interval_ms := 100; metrics_stale_ms := 5000;
     history_size := 8; min_load_improvement_ratio := fdiv (f_of_Z 1) (f_of_Z 10) |}.

Definition ws_deployment (node u version : string) : EngineDeploymentInfo :=
  {| ed_node_id := node; ed_worker_url := u; ed_model_id := "m"; ed_weight_version := "1";
     ed_sglang_version := version; ed_tp_size := 1; ed_pp_size := 1; ed_dp_size := 1; ed_kv_dtype := "bfloat16";
     ed_state_dtype := "bfloat16"; ed_page_size := 1; ed_swa_window_size := None; ed_mamba_backend := "";
     ed_mamba_track_interval := None; ed_hicache_args := []; ed_mooncake_args := []; ed_cache_fingerprint := "fp";
     ed_mooncake_protocol := "tcp"; ed_shared_l3 := true; ed_host_staging := false; ed_gpudirect := false |}.

Definition ws_calibrator : TransferCalibrator :=
  {| _results := [("n1", "n2", "mooncake_tcp", 64%Z,
                   {| elapsed_seconds_p75 := f_of_Z 1; bandwidth_bytes_per_second_p25 := f_of_Z 64; payload_bytes := 64;
                      sample_count := 8; measured_at := f_of_Z 1 |})];
     _result_plan_fingerprints := []; _errors := []; cal_state := READY; state_reason := ""; cal_state_since := f_of_Z 1;
     active_plan_fingerprint := None |}.

Definition ws_model : option (list (string * pyval)) :=
  Some [("num_hidden_layers", PInt 2); ("hidden_size", PInt 8); ("num_attention_heads", PInt 2)].

Definition ws_load (running : Z) (now : float) : _LoadFetchResult :=
  {| lf_status := "ok"; lf_duration := f_of_Z 0;
     lf_load := Some {| el_healthy := true; el_metrics_timestamp := now; el_running := running; el_queued := 0;
                        el_active_tokens := (running * 100)%Z; el_token_capacity := 1000; el_request_capacity := 10;
                        el_token_usage := f_of_Z 0; el_snapshot_generation := 0; el_fetch_status := "ok";
                        el_fetch_duration := f_of_Z 0 |} |}.

Definition ws_inspected (node u version : string) : Inspected :=
  {| in_url := u; in_deployment := Some (ws_deployment node u version); in_checked := true |}.

Definition ws_polls (a b : Z) (now : float) : list sched_event :=
  [SPollBegin "http://a"; SPollBegin "http://b"; SPollEnd 0 (ws_load a now) now now; SPollEnd 0 (ws_load b now) now now].

Definition ws_refresh (version : string) : sched_event :=
  SRefresh ["http://a"; "http://b"] [ws_inspected "n1" "http://a" "0.5.16"; ws_inspected "n2" "http://b" version]
    (f_of_Z 1) (f_of_Z 1).

(** The session's first step runs on [http://a], which then fills up. *)
Definition ws_events : list sched_event :=
  ws_refresh "0.5.16" :: ws_polls 0 9 (f_of_Z 2)
  ++ [SRegister "s"; SAcquire "s" [1; 2; 3]%Z (Some "1") true (f_of_Z 2); SComplete 0 [1; 2; 3; 4]%Z true]
  ++ ws_polls 9 0 (f_of_Z 3).

Abbreviation ws_run := (sched_run (fun _ => None) None [] [] [] true ws_calibrator ws_config (fun l => l) ws_model).
Abbreviation ws_acquire := (acquire (fun _ => None) None [] [] [] true ws_calibrator ws_config).

Definition ws_state : EngineRebalancer := sc_reb (ws_run ws_events).

Lemma ws_nodup : NoDup (dkeys (eb_deployments ws_state)).
Proof. apply (bool_decide_unpack _). vm_compute. exact I. Qed.

Lemma ws_granted : exists r' lease,
  ws_acquire ws_state "s" [1; 2; 3; 4; 5; 6]%Z (Some "1") true (f_of_Z 3) = (r', Ok lease) /\
  worker_url lease = Some "http://b".
Proof. eexists _, _. split; [vm_compute; reflexivity|reflexivity]. Qed.

Lemma ws_owner : let v := step_view ws_config ws_state "s" (Some "1") (f_of_Z 3) in
  sv_source v = Some "http://a" /\ sv_healthy_owner v = true.
Proof. split; vm_compute; reflexivity. Qed.


(** A session nobody registered is refused. *)
Lemma ws_refused : exists r', ws_acquire ws_state "t" [1; 2; 3]%Z (Some "1") true (f_of_Z 3)
  = (r', Raise (RuntimeError "session context is not registered or was discarded: ")).
Proof. eexists. vm_compute. reflexivity. Qed.

Lemma ws_books : books_ok ws_state.
Proof. split; apply (bool_decide_unpack _); vm_compute; exact I. Qed.

Lemma acquire_atomic_witness :
  exists r', ws_acquire ws_state "t" [1; 2; 3]%Z (Some "1") true (f_of_Z 3)
    = (r', Raise (RuntimeError "session context is not registered or was discarded: ")) /\
  r' = (if _stopping ws_state then ws_state
        else set_decisions ws_state (_next_load_decision_id ws_state + 1)
         (match trace_check ws_state with
          | Ok _ => record_trace ws_config (_load_decision_history ws_state) (failed_trace (_next_load_decision_id ws_state) "t")
          | Raise _ => _load_decision_history ws_state
          end)).
Proof.
  destruct ws_refused as (r' & E).
  exact (ex_intro _ r' (conj E (acquire_atomic (fun _ => None) None [] [] [] true ws_calibrator ws_config ws_state "t"
    [1; 2; 3]%Z (Some "1") true (f_of_Z 3) _ r' ws_books E))).
Defined.

(** Two leases are out, one granted before the last published poll was sent. *)
Definition ws_more : list sched_event :=
  ws_events ++ [SAcquire "s" [1; 2; 3; 4; 5; 6]%Z (Some "1") true (f_of_Z 3); SPollBegin "http://b";
                SRegister "t"; SAcquire "t" [7; 8]%Z (Some "1") true (f_of_Z 3);
                SPollEnd 0 (ws_load 1 (f_of_Z 4)) (f_of_Z 4) (f_of_Z 4)].

Lemma scheduling_load_exact_witness :
  let s := ws_run ws_more in
  length (sc_out s) = 2 /\ _live_scoring_totals (sc_reb s) "http://b" = (1%Z, 2%Z) /\
  (_reservations (sc_reb s) = booked (sc_seen s) (sc_out s) /\ NoDup (map fst (_reservations (sc_reb s))) /\
  _live_scoring_totals (sc_reb s) "http://b"
  = (Z.of_nat (length (unseen s "http://b")), sum_z (map ou_tokens (unseen s "http://b")))).
Proof.
  assert (L : length (sc_out (ws_run ws_more)) = 2) by (vm_compute; reflexivity).
  assert (T : _live_scoring_totals (sc_reb (ws_run ws_more)) "http://b" = (1%Z, 2%Z)) by (vm_compute; reflexivity).
  exact (conj L (conj T (scheduling_load_exact (fun _ => None) None [] [] [] true ws_calibrator ws_config (fun l => l)
    ws_model ws_more "http://b" eq_refl))).
Defined.

(** A step that finished on an engine the scheduler has excluded meanwhile raises after
    the owner is set: the session keeps the tokens and fingerprint of the step before, and
    the request is not counted. *)
Lemma complete_half_done config r lease tokens u s : enabled config = true ->
  worker_url lease = Some u -> dget (eb_deployments r) u = None ->
  dget (eb_sessions r) (rd_session_id (decision lease)) = Some s ->
  exists r', complete config r lease tokens true = (r', Raise (KeyError u)) /\
    dget (eb_sessions r') (rd_session_id (decision lease))
    = Some {| owner_worker_url := Some u; ss_fingerprint := ss_fingerprint s;
              previous_committed_tokens := previous_committed_tokens s |} /\
    _online_request_count r' = _online_request_count r.
Proof.
  intros En U D S. unfold complete. rewrite En, U. cbn [negb].
  assert (Rs : eb_sessions (_release_reservation r (reservation_id lease)) = eb_sessions r) by (by destruct (reservation_id lease)).
  assert (Rd : eb_deployments (_release_reservation r (reservation_id lease)) = eb_deployments r) by (by destruct (reservation_id lease)).
  rewrite Rs, Rd, S, D. eexists. split; [reflexivity|]. split; [apply dget_dset_eq|].
  by destruct (reservation_id lease).
Qed.

(** [http://b] is found to run an old version while it answers. *)
Example ws_half_done :
  let s := ws_run (ws_events ++ [SAcquire "s" [1; 2; 3; 4; 5; 6]%Z (Some "1") true (f_of_Z 3); ws_refresh "0.5.10"]) in
  exists o r', sc_out s = [o] /\ complete ws_config (sc_reb s) (ou_lease o) [1; 2; 3; 4; 5; 6; 7]%Z true
    = (r', Raise (KeyError "http://b")) /\
    dget (eb_sessions r') "s" = Some {| owner_worker_url := Some "http://b"; ss_fingerprint := Some "fp";
                                        previous_committed_tokens := [1; 2; 3; 4]%Z |}.
Proof. eexists _, _. split; [vm_compute; reflexivity|]. split; [vm_compute; reflexivity|vm_compute; reflexivity]. Qed.
