(* ===== verification/Transport.v ===== *)
(** * Field references and layouts ([dressage/transport/fields.py], [layouts.py])

    Field-level offload: a recorded field lives in a remote store and the
    trajectory carries references.  The wire form is a JSON dictionary with a
    schema tag; a layout places the fragments of a field on the token axis. *)

From S2P Require Import Prelude.
From S2P Require Import PyFloat.
From S2P Require Import PyVal.
From Stdlib Require Import Ascii SpecFloat.

Local Open Scope string_scope.
Local Open Scope list_scope.
Local Open Scope py_scope.

Definition TQ_FIELD_REF_SCHEMA : string := "dressage.tq.field-ref.v1".
Definition TQ_FIELD_FRAGMENT_SCHEMA : string := "dressage.tq.field-fragment.v1".
Definition TQ_FIELD_LAYOUT_SCHEMA : string := "dressage.tq.field-layout.v1".
Definition TQ_TRAJECTORY_REF_SCHEMA : string := "dressage.tq.trajectory-ref.v1".
Definition TQ_LOGPROBS_CODEC : string := "float32".
Definition TQ_ROUTED_EXPERTS_CODEC : string := "routed_experts_chunks".
Definition SUPPORTED_TRANSFER_PARAMS : list string := ["logprobs"; "routed_experts"].

(** ** Transfer parameters *)

(** [s.replace(",", " ").split()]: the maximal runs of characters that are
    neither commas nor white space; [cur] is the run being read. *)
Fixpoint split_words (s cur : string) : list string :=
  match s with
  | EmptyString => if String.eqb cur "" then [] else [cur]
  | String c s' =>
      if bool_decide (c = ","%char) || py_space c
      then (if String.eqb cur "" then split_words s' "" else cur :: split_words s' "")
      else split_words s' (cur +:+ String c "")
  end.

Inductive TransferValues : Type :=
| TVNone
| TVText (s : string)
| TVList (l : list string).

(** The unsupported names are reported in sorted order in the source; here the
    exception carries the message head. *)
Definition normalize_transfer_params (values : TransferValues) : result (list string) :=
  match values with
  | TVNone => Ok []
  | _ =>
      let vs := match values with TVText s => split_words s "" | TVList l => l | TVNone => [] end in
      let requested := concat (map (fun v => split_words v "") vs) in
      check! negb (forallb (fun x => bool_decide (x ∈ SUPPORTED_TRANSFER_PARAMS)) requested)
        else ValueError "Unsupported TransferQueue parameters: " ;;
      Ok (filter (fun name => name ∈ requested) SUPPORTED_TRANSFER_PARAMS)
  end.

Definition _LOGPROBS_STEP_FIELDS : list string :=
  ["prompt_token_logprobs"; "response_logprobs"; "all_logprobs"; "concat_response_logprobs"].

Definition resolve_step_transfer_fields (values : TransferValues) (token_build_mode : string)
    : result (list string) :=
  check! negb (bool_decide (token_build_mode ∈ ["snapshot"; "tito"]))
    else ValueError "Unsupported token build mode: " ;;
  let! params := normalize_transfer_params values in
  Ok ((if decide ("logprobs" ∈ params)
       then take 3 _LOGPROBS_STEP_FIELDS
            ++ (if String.eqb token_build_mode "tito" then drop 3 _LOGPROBS_STEP_FIELDS else [])
       else [])
      ++ (if decide ("routed_experts" ∈ params) then ["response_routed_experts_chunks"] else [])).

(** ** Records and their wire form *)

Definition _has_schema (value : pyval) (schema : string) : bool :=
  match value with
  | PDict d => py_eqb (pget d "schema_version") (PStr schema)
  | _ => false
  end.

Definition dict_of (v : pyval) : list (string * pyval) :=
  match v with PDict d => d | _ => [] end.

Record TQFieldRef : Type := {
  store_id : string;
  partition : string;
  key : string;
  field : string;
  incarnation_id : string;
  ref_schema : string }.

Definition is_tq_field_ref_dict (v : pyval) : bool := _has_schema v TQ_FIELD_REF_SCHEMA.

Definition TQFieldRef_to_dict (r : TQFieldRef) : pyval :=
  PDict [("schema_version", PStr (ref_schema r)); ("store_id", PStr (store_id r));
         ("partition", PStr (partition r)); ("key", PStr (key r));
         ("field", PStr (field r)); ("incarnation_id", PStr (incarnation_id r))].

Record TQFieldFragment : Type := {
  frag_ref : TQFieldRef;
  source_start : Z;
  target_start : Z;
  frag_length : Z;
  frag_schema : string }.

Definition is_tq_field_fragment_dict (v : pyval) : bool := _has_schema v TQ_FIELD_FRAGMENT_SCHEMA.

Definition TQFieldFragment_to_dict (f : TQFieldFragment) : pyval :=
  PDict [("schema_version", PStr (frag_schema f)); ("ref", TQFieldRef_to_dict (frag_ref f));
         ("source_start", PInt (source_start f)); ("target_start", PInt (target_start f));
         ("length", PInt (frag_length f))].

Record TQFieldLayout : Type := {
  logical_field : string;
  codec : string;
  fragments : list TQFieldFragment;
  token_count : Z;
  shape : option (list Z);
  layout_schema : string }.

Definition is_tq_field_layout_dict (v : pyval) : bool := _has_schema v TQ_FIELD_LAYOUT_SCHEMA.

Definition TQFieldLayout_to_dict (l : TQFieldLayout) : pyval :=
  PDict [("schema_version", PStr (layout_schema l)); ("logical_field", PStr (logical_field l));
         ("codec", PStr (codec l));
         ("fragments", PList (map TQFieldFragment_to_dict (fragments l)));
         ("token_count", PInt (token_count l));
         ("shape", match shape l with None => PNone | Some s => PList (map PInt s) end)].

Record TQTrajectoryRef : Type := {
  tr_store_id : string;
  tr_trajectory_id : string;
  tr_incarnation_id : string;
  tr_refs : list TQFieldRef;
  tr_schema : string }.

Definition is_tq_trajectory_ref_dict (v : pyval) : bool := _has_schema v TQ_TRAJECTORY_REF_SCHEMA.

Definition TQTrajectoryRef_to_dict (r : TQTrajectoryRef) : pyval :=
  PDict [("schema_version", PStr (tr_schema r)); ("store_id", PStr (tr_store_id r));
         ("trajectory_id", PStr (tr_trajectory_id r));
         ("incarnation_id", PStr (tr_incarnation_id r));
         ("refs", PList (map TQFieldRef_to_dict (tr_refs r)))].

Section Parsing.
Context `{PyText}.

Definition pstr_at (d : list (string * pyval)) (k : string) : result string :=
  let! v := pindex d k in Ok (py_str v).

Definition pint_at (d : list (string * pyval)) (k : string) : result Z :=
  let! v := pindex d k in py_int v.

Definition TQFieldRef_from_dict (v : pyval) : result TQFieldRef :=
  check! negb (is_tq_field_ref_dict v)
    else ValueError "TransferQueue field reference schema does not match" ;;
  let d := dict_of v in
  let! a := pstr_at d "store_id" in
  let! b := pstr_at d "partition" in
  let! c := pstr_at d "key" in
  let! e := pstr_at d "field" in
  let! f := pstr_at d "incarnation_id" in
  let! g := pstr_at d "schema_version" in
  Ok {| store_id := a; partition := b; key := c; field := e; incarnation_id := f;
        ref_schema := g |}.

Definition TQFieldFragment_from_dict (v : pyval) : result TQFieldFragment :=
  check! negb (is_tq_field_fragment_dict v)
    else ValueError "TransferQueue field fragment schema does not match" ;;
  let d := dict_of v in
  let! rv := pindex d "ref" in
  let! r := TQFieldRef_from_dict rv in
  let! a := pint_at d "source_start" in
  let! b := pint_at d "target_start" in
  let! c := pint_at d "length" in
  let! g := pstr_at d "schema_version" in
  Ok {| frag_ref := r; source_start := a; target_start := b; frag_length := c;
        frag_schema := g |}.

Definition TQFieldLayout_from_dict (v : pyval) : result TQFieldLayout :=
  check! negb (is_tq_field_layout_dict v)
    else ValueError "TransferQueue field layout schema does not match" ;;
  let d := dict_of v in
  let! a := pstr_at d "logical_field" in
  let! b := pstr_at d "codec" in
  let! fv := pindex d "fragments" in
  let! fl := py_list fv in
  let! fs := mapM_res TQFieldFragment_from_dict fl in
  let! n := pint_at d "token_count" in
  let! sh := (if is_pnone (pget d "shape") then Ok None
              else let! l := py_list (pget d "shape") in
                   let! zs := mapM_res py_int l in Ok (Some zs)) in
  let! g := pstr_at d "schema_version" in
  Ok {| logical_field := a; codec := b; fragments := fs; token_count := n; shape := sh;
        layout_schema := g |}.

Definition TQTrajectoryRef_from_dict (v : pyval) : result TQTrajectoryRef :=
  check! negb (is_tq_trajectory_ref_dict v)
    else ValueError "TransferQueue trajectory reference schema does not match" ;;
  let d := dict_of v in
  let! a := pstr_at d "store_id" in
  let! b := pstr_at d "trajectory_id" in
  let! c := pstr_at d "incarnation_id" in
  let! rv := pindex d "refs" in
  let! rl := py_list rv in
  let! rs := mapM_res TQFieldRef_from_dict rl in
  let! g := pstr_at d "schema_version" in
  Ok {| tr_store_id := a; tr_trajectory_id := b; tr_incarnation_id := c; tr_refs := rs;
        tr_schema := g |}.
End Parsing.

(** ** Layout construction *)

Fixpoint linear_fragments (refs : list TQFieldRef) (lengths : list Z) (offset : Z)
    : result (list TQFieldFragment) :=
  match refs, lengths with
  | [], [] => Ok []
  | r :: refs', n :: lengths' =>
      let! rest := linear_fragments refs' lengths' (offset + n)%Z in
      Ok ({| frag_ref := r; source_start := 0; target_start := offset; frag_length := n;
             frag_schema := TQ_FIELD_FRAGMENT_SCHEMA |} :: rest)
  | _, _ => Raise (ValueError "zip() arguments have different lengths")
  end.

Definition _build_linear_layout (refs : list TQFieldRef) (lengths : list Z)
    (lf cd : string) (count start : Z) (shp : option (list Z)) : result TQFieldLayout :=
  let! fs := linear_fragments refs lengths start in
  Ok {| logical_field := lf; codec := cd; fragments := fs; token_count := count;
        shape := shp; layout_schema := TQ_FIELD_LAYOUT_SCHEMA |}.

Definition zsum (l : list Z) : Z := fold_left Z.add l 0%Z.

Section Logprobs.
Context `{PyText}.

(** The loop over [range(token_count)]: reads [values[index]] or pads with 0.0. *)
Fixpoint normalize_loop (n : nat) (values : list pyval) : list float * bool :=
  match n with
  | O => ([], false)
  | S n' =>
      match values with
      | [] => let '(l, inv) := normalize_loop n' [] in (f0 :: l, inv)
      | v :: vs =>
          let '(l, inv) := normalize_loop n' vs in
          match py_float v with
          | Ok f => (f :: l, inv)
          | Raise _ => (f0 :: l, true)
          end
      end
  end.

Definition normalize_logprobs_to_length (values : list pyval) (count : nat) : list float * bool :=
  let '(l, inv) := normalize_loop count values in
  (l, negb (Nat.eqb (length values) count) || inv).

(** A logprob field is local or remote. *)
Inductive FieldValue (A : Type) : Type :=
| FLocal (l : list A)
| FRemote (r : TQFieldRef).
Arguments FLocal {A} l.
Arguments FRemote {A} r.

Inductive LogprobField : Type :=
| LLocal (l : list float)
| LLayout (l : TQFieldLayout).

Definition build_snapshot_logprobs (value : FieldValue pyval)
    (prompt_length response_length count : nat) (remote_invalid : bool)
    : result (LogprobField * bool) :=
  check! negb (Nat.eqb (prompt_length + response_length) count)
    else RuntimeError "snapshot logprobs are not aligned with trajectory tokens" ;;
  match value with
  | FRemote r =>
      let! l := _build_linear_layout [r] [Z.of_nat response_length] "full_logprobs"
                  TQ_LOGPROBS_CODEC (Z.of_nat count) (Z.of_nat prompt_length)
                  (Some [Z.of_nat count]) in
      Ok (LLayout l, remote_invalid)
  | FLocal vs =>
      let '(normalized, invalid) := normalize_logprobs_to_length vs response_length in
      Ok (LLocal (replicate prompt_length f0 ++ normalized), invalid)
  end.

Definition refs_of {A} (values : list (FieldValue A)) : list TQFieldRef :=
  omap (fun v => match v with FRemote r => Some r | FLocal _ => None end) values.

Definition locals_of {A} (values : list (FieldValue A)) : list A :=
  concat (map (fun v => match v with FLocal l => l | FRemote _ => [] end) values).

Definition build_concatenated_logprobs (values : list (FieldValue float)) (lengths : list Z)
    (count : nat) : result LogprobField :=
  check! negb (zsum lengths =? Z.of_nat count)%Z
    else RuntimeError "TITO logprobs are not aligned with trajectory tokens" ;;
  match refs_of values with
  | [] =>
      check! negb (Nat.eqb (length (locals_of values)) count)
        else RuntimeError "TITO logprobs are not aligned with trajectory tokens" ;;
      Ok (LLocal (locals_of values))
  | refs =>
      check! negb (Nat.eqb (length refs) (length values))
        else RuntimeError "TITO logprobs cannot mix local values and TransferQueue refs" ;;
      let! l := _build_linear_layout refs lengths "full_logprobs" TQ_LOGPROBS_CODEC
                  (Z.of_nat count) 0 (Some [Z.of_nat count]) in
      Ok (LLayout l)
  end.

Inductive ExpertsField : Type :=
| ENone
| EChunks (l : list (list (string * pyval)))
| ELayout (l : TQFieldLayout).

Definition build_concatenated_routed_experts
    (values : list (FieldValue (list (string * pyval)))) (lengths : list Z) (count : nat)
    : result ExpertsField :=
  match refs_of values with
  | [] =>
      Ok (match locals_of values with [] => ENone | chunks => EChunks chunks end)
  | refs =>
      check! negb (Nat.eqb (length refs) (length values))
        else RuntimeError "routed experts cannot mix local values and TransferQueue refs" ;;
      let expected_rows := Z.max 0 (Z.of_nat count - 1) in
      check! negb (zsum lengths =? expected_rows)%Z
        else RuntimeError "routed experts layout is not aligned with trajectory tokens: " ;;
      let! l := _build_linear_layout refs lengths "routed_experts" TQ_ROUTED_EXPERTS_CODEC
                  (Z.of_nat count) 0 (Some [expected_rows]) in
      Ok (ELayout l)
  end.
End Logprobs.
Arguments FLocal {A} l.
Arguments FRemote {A} r.

(** ** Well-formed records: the schema tags the constructors fill in *)

Definition wf_ref (r : TQFieldRef) : Prop := ref_schema r = TQ_FIELD_REF_SCHEMA.
Definition wf_fragment (f : TQFieldFragment) : Prop :=
  frag_schema f = TQ_FIELD_FRAGMENT_SCHEMA /\ wf_ref (frag_ref f).
Definition wf_layout (l : TQFieldLayout) : Prop :=
  layout_schema l = TQ_FIELD_LAYOUT_SCHEMA /\ Forall wf_fragment (fragments l).
Definition wf_trajectory_ref (r : TQTrajectoryRef) : Prop :=
  tr_schema r = TQ_TRAJECTORY_REF_SCHEMA /\ Forall wf_ref (tr_refs r).

(** The fragments cover [[a, b)] of the token axis, in order, without gap or
    overlap, each read from the start of its source. *)
Fixpoint tiles (fs : list TQFieldFragment) (a b : Z) : Prop :=
  match fs with
  | [] => a = b
  | f :: fs' => target_start f = a /\ source_start f = 0%Z /\ tiles fs' (a + frag_length f)%Z b
  end.

(** ** Round trips *)

Section RoundTrip.
Context `{PyText}.

Lemma ref_roundtrip r : wf_ref r -> TQFieldRef_from_dict (TQFieldRef_to_dict r) = Ok r.
Proof. destruct r; unfold wf_ref; simpl; intros ->. done. Qed.

Lemma fragment_roundtrip f :
  wf_fragment f -> TQFieldFragment_from_dict (TQFieldFragment_to_dict f) = Ok f.
Proof.
  destruct f as [r a b n sc]; unfold wf_fragment; cbn [frag_schema frag_ref].
  intros [-> Hr]. unfold TQFieldFragment_from_dict, TQFieldFragment_to_dict.
  cbv -[TQFieldRef_from_dict TQFieldRef_to_dict]. by rewrite ref_roundtrip.
Qed.

Lemma mapM_roundtrip {A B} (f : B -> result A) (g : A -> B) (P : A -> Prop) l :
  (forall x, P x -> f (g x) = Ok x) -> Forall P l -> mapM_res f (map g l) = Ok l.
Proof. intros Hfg. induction 1 as [|x l Hx Hl IH]; simpl; [done|]. by rewrite Hfg, IH. Qed.

(** round trip of field layouts.  Parsing the dictionary a layout serializes
    to gives the layout back: name, codec, every fragment with its reference,
    token count and shape. *)
Theorem layout_roundtrip l :
  wf_layout l -> TQFieldLayout_from_dict (TQFieldLayout_to_dict l) = Ok l.
Proof.
  destruct l as [lf cd fs n sh sc]; unfold wf_layout; cbn [layout_schema fragments].
  intros [-> Hf]. unfold TQFieldLayout_from_dict, TQFieldLayout_to_dict.
  cbv -[TQFieldFragment_from_dict TQFieldFragment_to_dict mapM_res map py_int].
  cbn [res_bind].
  rewrite (mapM_roundtrip _ _ wf_fragment) by eauto using fragment_roundtrip. cbn [res_bind].
  destruct sh as [zs|]; cbn [res_bind]; [|done].
  rewrite (mapM_roundtrip _ _ (fun _ => True)); [done | done | by apply Forall_forall].
Qed.

(** Round trip of trajectory references, the handle a finalized trajectory
    is fetched by: store, trajectory, incarnation and all field references. *)
Lemma trajectory_ref_roundtrip r :
  wf_trajectory_ref r -> TQTrajectoryRef_from_dict (TQTrajectoryRef_to_dict r) = Ok r.
Proof.
  destruct r as [a b c rs sc]; unfold wf_trajectory_ref; cbn [tr_schema tr_refs].
  intros [-> Hr]. unfold TQTrajectoryRef_from_dict, TQTrajectoryRef_to_dict.
  cbv -[TQFieldRef_from_dict TQFieldRef_to_dict mapM_res map].
  cbn [res_bind].
  rewrite (mapM_roundtrip _ _ wf_ref) by eauto using ref_roundtrip. done.
Qed.
End RoundTrip.

(** ** Alignment *)

Lemma zsum_acc l a : fold_left Z.add l a = (a + zsum l)%Z.
Proof.
  unfold zsum. revert a. induction l as [|x l IH]; intros a; cbn [fold_left]; [lia|].
  rewrite (IH (a + x)%Z), (IH (0 + x)%Z). lia.
Qed.

Lemma zsum_cons x l : zsum (x :: l) = (x + zsum l)%Z.
Proof. unfold zsum at 1. cbn [fold_left]. rewrite zsum_acc. lia. Qed.

Lemma zsum_app l l' : zsum (l ++ l') = (zsum l + zsum l')%Z.
Proof. unfold zsum. rewrite fold_left_app, zsum_acc. done. Qed.

Lemma linear_fragments_tiles refs lengths start fs :
  linear_fragments refs lengths start = Ok fs ->
  tiles fs start (start + zsum lengths) /\ map frag_ref fs = refs /\ map frag_length fs = lengths
  /\ (Forall wf_ref refs -> Forall wf_fragment fs).
Proof.
  revert lengths start fs. induction refs as [|r refs IH]; intros [|n lengths] start fs; simpl;
    intros H; try done.
  - injection H as <-. simpl. unfold zsum; simpl. split_and!; [lia | done | done | done].
  - res_inv. subst fs. apply IH in E as (Ht & <- & <- & Hw). simpl. rewrite zsum_cons.
    replace (start + (n + zsum (map frag_length a)))%Z
      with (start + n + zsum (map frag_length a))%Z by lia.
    split_and!; try done. intros [Hr Hrs]%Forall_cons. constructor; [done | auto].
Qed.

Lemma normalize_loop_length `{PyText} n vs : length (fst (normalize_loop n vs)) = n.
Proof.
  revert vs; induction n as [|n IH]; intros [|v vs]; simpl; try done.
  - specialize (IH []). destruct (normalize_loop n []); simpl in *. by rewrite IH.
  - specialize (IH vs). destruct (normalize_loop n vs); simpl in *.
    destruct (py_float v); simpl; by rewrite IH.
Qed.

Lemma normalize_loop_valid `{PyText} vs l :
  normalize_loop (length vs) vs = (l, false) <-> mapM_res py_float vs = Ok l.
Proof.
  revert l; induction vs as [|v vs IH]; intros l; simpl.
  - split; [by intros [= <-] | by intros [= <-]].
  - destruct (normalize_loop (length vs) vs) as [l' inv].
    destruct (py_float v) as [f|]; [|split; [by intros [=] | done]].
    destruct inv.
    + split; [by intros [=]|]. destruct (mapM_res py_float vs) as [l''|] eqn:E; [|done].
      destruct (IH l'') as [_ IH']. by specialize (IH' eq_refl).
    + rewrite (proj1 (IH l') eq_refl). split; by intros [= <-].
Qed.

(** [normalize_logprobs_to_length] always returns exactly the requested
    number of entries, and it reports the values as valid exactly when there
    were that many and every one converts to a float, in which case the result
    is the converted list. *)
Theorem normalize_logprobs_spec `{PyText} values count :
  let '(l, invalid) := normalize_logprobs_to_length values count in
  length l = count
  /\ (invalid = false <-> length values = count /\ mapM_res py_float values = Ok l).
Proof.
  unfold normalize_logprobs_to_length.
  pose proof (normalize_loop_length count values) as Hlen.
  destruct (normalize_loop count values) as [l inv] eqn:E. split; [done|].
  rewrite orb_false_iff, negb_false_iff, Nat.eqb_eq. split.
  - intros [Hl ->]. rewrite <- Hl in E. split; [done|]. by apply normalize_loop_valid.
  - intros [Hl Hm]. split; [done|]. rewrite <- Hl in E.
    apply normalize_loop_valid in Hm. congruence.
Qed.

(** The token axis a logprob field covers. *)
Definition covers (v : LogprobField) (a b : Z) : Prop :=
  match v with
  | LLocal l => (a + Z.of_nat (length l) = b)%Z
  | LLayout l => tiles (fragments l) a b /\ token_count l = b
  end.

(** whatever concatenation of step logprobs is accepted covers the token
    axis exactly: a local result has one entry per token, and a remote layout
    places its fragments over [0, token_count) in order with no gap and no
    overlap, one fragment per step reference with the step's length. *)
Theorem concatenated_logprobs_aligned values lengths count v :
  build_concatenated_logprobs values lengths count = Ok v ->
  covers v 0 (Z.of_nat count)
  /\ match v with
     | LLocal l => l = locals_of values
     | LLayout l => map frag_ref (fragments l) = refs_of values
                    /\ map frag_length (fragments l) = lengths
     end.
Proof.
  unfold build_concatenated_logprobs. intros H.
  res_inv. bool_hyps. apply Z.eqb_eq in G.
  destruct (refs_of values) as [|r rs] eqn:Er; res_inv; bool_hyps; subst v.
  - apply Nat.eqb_eq in G0. simpl. split; [lia | done].
  - unfold _build_linear_layout in E. res_inv. subst a. simpl.
    apply linear_fragments_tiles in E0 as (Ht & Hr & Hl & _). rewrite G in Ht. done.
Qed.

(** A snapshot step's logprobs cover its tokens: the prompt is padded with
    zeros and the response entries follow, or a single remote fragment starts
    after the prompt; lengths that do not add up are refused. *)
Lemma snapshot_logprobs_aligned `{PyText} value p r count inv :
  match build_snapshot_logprobs value p r count inv with
  | Ok (LLocal l, _) => length l = count /\ (p + r)%nat = count /\ take p l = replicate p f0
  | Ok (LLayout l, b) => tiles (fragments l) (Z.of_nat p) (Z.of_nat count)
                         /\ token_count l = Z.of_nat count /\ b = inv
  | Raise e => (p + r)%nat <> count
               /\ e = RuntimeError "snapshot logprobs are not aligned with trajectory tokens"
  end.
Proof.
  unfold build_snapshot_logprobs. destruct (Nat.eqb_spec (p + r) count) as [Heq|Hne]; simpl.
  - destruct value as [vs|rf]; simpl.
    + unfold normalize_logprobs_to_length. pose proof (normalize_loop_length r vs) as Hl.
      destruct (normalize_loop r vs) as [l b]. simpl in Hl.
      simpl. rewrite length_app, length_replicate, Hl. split_and!; try lia.
      rewrite take_app_length'; [done | by rewrite length_replicate].
    + split_and!; try done; lia.
  - done.
Qed.

(** ** Witnesses *)

#[local] Instance w_text : PyText := {| py_repr := fun _ => ""; py_parse_float := fun _ => None |}.

Definition w_ref (k : string) : TQFieldRef :=
  {| store_id := "st"; partition := "p"; key := k; field := "response_logprobs";
     incarnation_id := "i"; ref_schema := TQ_FIELD_REF_SCHEMA |}.

Definition w_layout : TQFieldLayout :=
  {| logical_field := "full_logprobs"; codec := TQ_LOGPROBS_CODEC;
     fragments := [{| frag_ref := w_ref "a"; source_start := 0; target_start := 0;
                      frag_length := 3; frag_schema := TQ_FIELD_FRAGMENT_SCHEMA |}];
     token_count := 3; shape := Some [3%Z]; layout_schema := TQ_FIELD_LAYOUT_SCHEMA |}.

Lemma layout_roundtrip_witness :
  TQFieldLayout_from_dict (TQFieldLayout_to_dict w_layout) = Ok w_layout.
Proof. apply (layout_roundtrip w_layout). split; [reflexivity | repeat constructor]. Defined.

Lemma concatenated_logprobs_aligned_witness :
  exists l, build_concatenated_logprobs [FRemote (w_ref "a"); FRemote (w_ref "b")] [2; 3]%Z 5
            = Ok (LLayout l) /\ tiles (fragments l) 0 5.
Proof.
  eexists. split; [reflexivity|].
  apply (concatenated_logprobs_aligned [FRemote (w_ref "a"); FRemote (w_ref "b")] [2; 3]%Z 5
           (LLayout _) eq_refl).
Defined.
