(* ===== verification/TrajectoryStore.v ===== *)
(** * Finalized trajectory segments ([dressage/proxy/trajectory_store.py])

    The store indexes every finalized segment twice, by instance (for batch
    draining) and by trajectory (for exact reads).  Dictionaries keep insertion
    order because [read_batch] truncates in that order.  [uuid] values and clock
    readings the source draws are arguments.  The lock is held around every
    operation, so each operation is one atomic step of the store. *)

From S2P Require Import Prelude.
From S2P Require Import PyFloat.
From S2P Require Import PyVal.
From S2P Require Import Transport.
From Stdlib Require Import SpecFloat.

Local Open Scope string_scope.
Local Open Scope list_scope.
Local Open Scope py_scope.

(** An [int] field; Python's [bool] is an [int] and the batch check tells them apart. *)
Inductive index : Type :=
| IInt (z : Z)
| IBool (b : bool).

Definition index_val (i : index) : Z :=
  match i with IInt z => z | IBool b => py_int_of_bool b end.

Definition index_is_bool (i : index) : bool :=
  match i with IInt _ => false | IBool _ => true end.

(** A stored field: the raw value, or the parsed layout of an offloaded field. *)
Inductive StoredField : Type :=
| SRaw (v : pyval)
| SLayout (l : TQFieldLayout).

Record TrajectorySegment : Type := {
  uid : string;
  trajectory_id : string;
  turn_id : string;
  instance_id : string;
  segment_index : index;
  segment_count : index;
  messages : pyval;
  tools : pyval;
  tokens : pyval;
  full_logprobs : StoredField;
  full_loss_mask : pyval;
  aligned_response_length : pyval;
  full_versions : option (list string);
  routed_experts_chunks : StoredField;
  label : pyval;
  finish_reason : pyval;
  timestamp : float;
  extra_info : list (string * pyval) }.

Definition stored_to_val (jsonable : pyval -> pyval) (f : StoredField) : pyval :=
  match f with SRaw v => jsonable v | SLayout l => TQFieldLayout_to_dict l end.

Definition index_to_val (i : index) : pyval :=
  match i with IInt z => PInt z | IBool b => PBool b end.

(** [jsonable] is the base64 encoding of numpy chunk payloads. *)
Definition to_dict (jsonable : pyval -> pyval) (t : TrajectorySegment) : list (string * pyval) :=
  [("uid", PStr (uid t)); ("session_id", PStr (trajectory_id t));
   ("trajectory_id", PStr (trajectory_id t)); ("turn_id", PStr (turn_id t));
   ("instance_id", PStr (instance_id t)); ("segment_index", index_to_val (segment_index t));
   ("segment_count", index_to_val (segment_count t)); ("messages", messages t);
   ("tools", tools t); ("tokens", tokens t);
   ("full_logprobs", stored_to_val (fun v => v) (full_logprobs t));
   ("full_loss_mask", full_loss_mask t);
   ("aligned_response_length", aligned_response_length t); ("label", label t);
   ("finish_reason", finish_reason t); ("timestamp", PFloat (timestamp t));
   ("extra_info", PDict (extra_info t))]
  ++ match full_versions t with
     | Some vs => [("full_versions", PList (map PStr vs))]
     | None => []
     end
  ++ match routed_experts_chunks t with
     | SRaw PNone => []
     | f => [("routed_experts_chunks", stored_to_val jsonable f)]
     end.

(** ** The store *)

Record TrajectoryStore : Type := {
  _by_instance : list (string * list TrajectorySegment);
  _by_trajectory : list (string * list TrajectorySegment);
  _instance_timestamps : list (string * float);
  _min_group_size : Z;
  _group_timeout : float }.

Definition TrajectoryStore__init__ (min_group_size : Z) (group_timeout : float)
    : TrajectoryStore :=
  {| _by_instance := []; _by_trajectory := []; _instance_timestamps := [];
     _min_group_size := min_group_size; _group_timeout := group_timeout |}.

Definition with_indexes (s : TrajectoryStore)
    (bi bt : list (string * list TrajectorySegment)) (ts : list (string * float))
    : TrajectoryStore :=
  {| _by_instance := bi; _by_trajectory := bt; _instance_timestamps := ts;
     _min_group_size := _min_group_size s; _group_timeout := _group_timeout s |}.

Section Views.
Context `{PyText}.

Definition opt_str (v : pyval) : option string :=
  match v with PNone => None | _ => Some (py_str v) end.

Definition _item_segment_view (t : TrajectorySegment) : option string :=
  opt_str (pget (extra_info t) "segment_view").

Definition _item_token_build_mode (t : TrajectorySegment) : option string :=
  opt_str (pget (extra_info t) "token_build_mode").

Definition _default_segment_view (items : list TrajectorySegment) : option string :=
  let modes := map _item_token_build_mode items in
  if decide (Some "tito" ∈ modes) then Some "lineage"
  else if decide (Some "snapshot" ∈ modes) then Some "timeline"
  else None.

(** [segment_view or default]: the empty string selects the default. *)
Definition _filter_segment_view (items : list TrajectorySegment) (segment_view : option string)
    : list TrajectorySegment :=
  let selected :=
    match segment_view with
    | Some v => if String.eqb v "" then _default_segment_view items else Some v
    | None => _default_segment_view items
    end in
  match selected with
  | None => items
  | Some v => filter (fun t => _item_segment_view t = Some v) items
  end.

(** ** Schema conversion *)

Definition py_len (v : pyval) : result nat :=
  match v with
  | PList l => Ok (length l)
  | PDict d => Ok (length d)
  | PStr s => Ok (String.length s)
  | _ => Raise (TypeError "object has no len()")
  end.

(** Identifiers are strings and segment numbers integers, as the dataclass says. *)
Definition as_id (v : pyval) : result string :=
  match v with PStr s => Ok s | _ => Raise (TypeError "identifier is not a string") end.

Definition as_index (v : pyval) : result index :=
  match v with
  | PInt z => Ok (IInt z)
  | PBool b => Ok (IBool b)
  | _ => Raise (TypeError "segment number is not an integer")
  end.

(** [a or b] *)
Definition py_or (a b : pyval) : pyval := if py_truth a then a else b.

Definition parse_field (raw : pyval) : result StoredField :=
  if is_tq_field_layout_dict raw
  then let! l := TQFieldLayout_from_dict raw in Ok (SLayout l)
  else Ok (SRaw raw).

(** The first of [keys] that is missing in [data]. *)
Definition missing_field (data : list (string * pyval)) (keys : list string) : option string :=
  find_first (fun k => negb (phas data k)) keys.

Definition _item_from_dict (u1 u2 u3 : string) (now : float) (data : list (string * pyval))
    : result TrajectorySegment :=
  let tid := py_or (pget data "trajectory_id") (pget data "session_id") in
  let! trajectory := (if is_pnone tid then Ok u1 else as_id tid) in
  check! match missing_field data ["tokens"; "full_logprobs"; "full_loss_mask"] with
         | Some _ => true | None => false end
    else ValueError "trajectory segment missing required field: " ;;
  let! count := py_len (pget data "tokens") in
  let! logprobs := parse_field (pget data "full_logprobs") in
  let! n_logprobs := match logprobs with
                     | SLayout l => Ok (token_count l)
                     | SRaw v => let! n := py_len v in Ok (Z.of_nat n)
                     end in
  check! negb (n_logprobs =? Z.of_nat count)%Z
    else ValueError "trajectory segment field length mismatch: full_logprobs" ;;
  let! n_mask := py_len (pget data "full_loss_mask") in
  check! negb (Nat.eqb n_mask count)
    else ValueError "trajectory segment field length mismatch: full_loss_mask" ;;
  let! versions :=
    (if is_pnone (pget data "full_versions") then Ok None
     else let! n := py_len (pget data "full_versions") in
          check! negb (Nat.eqb n count)
            else ValueError "trajectory segment field length mismatch: full_versions" ;;
          let! l := py_list (pget data "full_versions") in
          Ok (Some (map py_str l))) in
  let! experts := parse_field (pget data "routed_experts_chunks") in
  check! match experts with
         | SLayout l => negb (token_count l =? Z.of_nat count)%Z
         | SRaw _ => false
         end
    else ValueError "trajectory segment field length mismatch: routed_experts_chunks" ;;
  let! id := (if phas data "uid" then as_id (pget data "uid") else Ok u2) in
  let! turn := (let! v := pindex data "turn_id" in as_id v) in
  let! inst := (if phas data "instance_id" then as_id (pget data "instance_id") else Ok u3) in
  let! idx := (if phas data "segment_index" then as_index (pget data "segment_index")
               else Ok (IInt 0)) in
  let! cnt := (if phas data "segment_count" then as_index (pget data "segment_count")
               else Ok (IInt 1)) in
  let! msgs := pindex data "messages" in
  Ok {| uid := id; trajectory_id := trajectory; turn_id := turn; instance_id := inst;
        segment_index := idx; segment_count := cnt; messages := msgs;
        tools := pget data "tools"; tokens := pget data "tokens";
        full_logprobs := logprobs; full_loss_mask := pget data "full_loss_mask";
        aligned_response_length := dget_def (PInt 0) data "aligned_response_length";
        full_versions := versions; routed_experts_chunks := experts;
        label := pget data "label";
        finish_reason := dget_def (PStr "stop") data "finish_reason";
        timestamp := now;
        extra_info := match dget data "extra_info" with Some (PDict d) => d | _ => [] end |}.

(** ** Finalized batches *)

Definition marked (t : TrajectorySegment) : bool :=
  phas (extra_info t) "finalization_id" || phas (extra_info t) "finalization_complete".

Definition all_eq_head (vs : list pyval) : bool :=
  match vs with [] => false | v :: vs' => forallb (py_eqb v) vs' end.

Definition head_nonempty_str (vs : list pyval) : bool :=
  match vs with PStr s :: _ => negb (String.eqb s "") | _ => false end.

Definition is_true_val (v : pyval) : bool := match v with PBool true => true | _ => false end.

Definition one_value {A} `{EqDecision A} (l : list A) : bool :=
  match l with [] => false | x :: l' => forallb (fun y => bool_decide (y = x)) l' end.

(** The segments of one view in batch order. *)
Definition view_items (items : list TrajectorySegment) (v : string) : list TrajectorySegment :=
  filter (fun t => _item_segment_view t = Some v) items.

(** One view holds the complete set [0..N-1], every count being [N]. *)
Definition view_complete (vitems : list TrajectorySegment) : bool :=
  let n := length vitems in
  let counts := map segment_count vitems in
  let vals := map (fun t => index_val (segment_index t)) vitems in
  one_value (map index_val counts)
  && negb (match counts with c :: _ => index_is_bool c | [] => false end)
  && match counts with c :: _ => (index_val c =? Z.of_nat n)%Z | [] => false end
  && negb (existsb (fun t => index_is_bool (segment_index t)) vitems)
  && bool_decide (NoDup vals)
  && forallb (fun z => (0 <=? z)%Z && (z <? Z.of_nat n)%Z) vals
  && forallb (fun k => bool_decide (Z.of_nat k ∈ vals)) (seq 0 n).

Definition batch_views (items : list TrajectorySegment) : list string :=
  remove_dups (omap _item_segment_view items).

Definition _validate_finalized_batch (items : list TrajectorySegment) : result unit :=
  match items with
  | [] => Ok tt
  | _ =>
      if negb (existsb marked items) then Ok tt
      else
        let ids := map (fun t => pget (extra_info t) "finalization_id") items in
        check! negb (all_eq_head ids) || negb (head_nonempty_str ids)
               || existsb (fun t => negb (is_true_val
                             (pget (extra_info t) "finalization_complete"))) items
          else ValueError "finalized trajectory batch has inconsistent markers" ;;
        check! negb (one_value (map trajectory_id items))
               || negb (one_value (map instance_id items))
          else ValueError "finalized trajectory batch mixes trajectory identities" ;;
        check! existsb (fun t => negb (bool_decide
                 (_item_segment_view t ∈ [Some "lineage"; Some "timeline"]))) items
          else ValueError "finalized trajectory batch has invalid segment_view" ;;
        check! negb (forallb (fun v => view_complete (view_items items v)) (batch_views items))
          else ValueError "finalized trajectory segments are not the complete 0..N-1 set" ;;
        Ok tt
  end.

(** ** Writing *)

(** The primitive mutations of a write, in order: each segment goes to the two
    indexes, then every touched instance is stamped. *)
Definition append_instance (t : TrajectorySegment) (s : TrajectoryStore) : TrajectoryStore :=
  with_indexes s (dset (_by_instance s) (instance_id t)
                    (dget_def [] (_by_instance s) (instance_id t) ++ [t]))
               (_by_trajectory s) (_instance_timestamps s).

Definition append_trajectory (t : TrajectorySegment) (s : TrajectoryStore) : TrajectoryStore :=
  with_indexes s (_by_instance s)
    (dset (_by_trajectory s) (trajectory_id t)
       (dget_def [] (_by_trajectory s) (trajectory_id t) ++ [t]))
    (_instance_timestamps s).

Definition stamp_instance (now : float) (i : string) (s : TrajectoryStore) : TrajectoryStore :=
  with_indexes s (_by_instance s) (_by_trajectory s) (dset (_instance_timestamps s) i now).

Definition write_ops (items : list TrajectorySegment) (now : float)
    : list (TrajectoryStore -> TrajectoryStore) :=
  concat (map (fun t => [append_instance t; append_trajectory t]) items)
  ++ map (stamp_instance now) (remove_dups (map instance_id items)).

Definition run_ops (ops : list (TrajectoryStore -> TrajectoryStore)) (s : TrajectoryStore)
    : TrajectoryStore :=
  fold_left (fun st op => op st) ops s.

(** The [except BaseException] handler: put the snapshot of every key back. *)
Definition restore {V} (keys : list string) (old cur : list (string * V)) : list (string * V) :=
  fold_left (fun d k => match dget old k with
                        | None => dpop d k
                        | Some v => dset d k v
                        end) keys cur.

(** [fault = Some n] is an exception raised after [n] primitive mutations. *)
Definition _write_items (items : list TrajectorySegment) (now : float) (fault : option nat)
    (s : TrajectoryStore) : TrajectoryStore * bool :=
  match items with
  | [] => (s, true)
  | _ =>
      match fault with
      | None => (run_ops (write_ops items now) s, true)
      | Some n =>
          let cur := run_ops (take n (write_ops items now)) s in
          let insts := remove_dups (map instance_id items) in
          let trajs := remove_dups (map trajectory_id items) in
          (with_indexes s (restore insts (_by_instance s) (_by_instance cur))
                          (restore trajs (_by_trajectory s) (_by_trajectory cur))
                          (restore insts (_instance_timestamps s) (_instance_timestamps cur)),
           false)
      end
  end.

Definition write (t : TrajectorySegment) (now : float) (s : TrajectoryStore) : TrajectoryStore :=
  fst (_write_items [t] now None s).

(** A record with the uuids and the clock reading its conversion would draw. *)
Record WriteRecord : Type := {
  wr_data : list (string * pyval);
  wr_uuids : string * string * string;
  wr_time : float }.

Definition convert_record (r : WriteRecord) : result TrajectorySegment :=
  let '(u1, u2, u3) := wr_uuids r in _item_from_dict u1 u2 u3 (wr_time r) (wr_data r).

Definition write_many (records : list WriteRecord) (now : float) (s : TrajectoryStore)
    : result (list TrajectorySegment) * TrajectoryStore :=
  match mapM_res convert_record records with
  | Raise e => (Raise e, s)
  | Ok items =>
      match _validate_finalized_batch items with
      | Raise e => (Raise e, s)
      | Ok _ => (Ok items, fst (_write_items items now None s))
      end
  end.

(** ** Reading *)

(** [(segment_index, timestamp)] in tuple order. *)
Definition seg_ltb (a b : TrajectorySegment) : bool :=
  let ia := index_val (segment_index a) in
  let ib := index_val (segment_index b) in
  (ia <? ib)%Z || ((ia =? ib)%Z && fltb (timestamp a) (timestamp b)).

Definition sort_segments (l : list TrajectorySegment) : list TrajectorySegment :=
  sort_by (fun a b => negb (seg_ltb b a)) l.

(** [(trajectory_id, segment_index, timestamp)] in tuple order. *)
Definition batch_ltb (a b : TrajectorySegment) : bool :=
  String.ltb (trajectory_id a) (trajectory_id b)
  || (String.eqb (trajectory_id a) (trajectory_id b) && seg_ltb a b).

Definition sort_batch (l : list TrajectorySegment) : list TrajectorySegment :=
  sort_by (fun a b => negb (batch_ltb b a)) l.

Definition inst (s : TrajectoryStore) (i : string) : list TrajectorySegment :=
  dget_def [] (_by_instance s) i.

Definition traj (s : TrajectoryStore) (t : string) : list TrajectorySegment :=
  dget_def [] (_by_trajectory s) t.

Definition read_trajectory (s : TrajectoryStore) (tid : string) (iid view : option string)
    : list TrajectorySegment :=
  let items := traj s tid in
  let items := match iid with
               | Some i => filter (fun t => instance_id t = i) items
               | None => items
               end in
  sort_segments (_filter_segment_view items view).

Definition read_session (s : TrajectoryStore) (sid : string) (iid : option string)
    : list TrajectorySegment := read_trajectory s sid iid None.

(** [d[k] = l] when [l] is non-empty, [d.pop(k, None)] otherwise. *)
Definition put_or_pop (d : list (string * list TrajectorySegment)) (k : string)
    (l : list TrajectorySegment) : list (string * list TrajectorySegment) :=
  match l with [] => dpop d k | _ => dset d k l end.

Definition pop_instance (matched : list TrajectorySegment) (now : float)
    (s : TrajectoryStore) (i : string) : TrajectoryStore :=
  let remaining := filter (fun t => uid t ∉ map uid matched) (inst s i) in
  with_indexes s (put_or_pop (_by_instance s) i remaining) (_by_trajectory s)
    (match remaining with
     | [] => dpop (_instance_timestamps s) i
     | _ => dset (_instance_timestamps s) i now
     end).

Definition pop_trajectory (s : TrajectoryStore) (tid : string) (iid view : option string)
    (now : float) : list TrajectorySegment * TrajectoryStore :=
  let existing := traj s tid in
  let matched := match iid with
                 | None => existing
                 | Some i => filter (fun t => instance_id t = i) existing
                 end in
  let remaining := match iid with
                   | None => []
                   | Some i => filter (fun t => instance_id t <> i) existing
                   end in
  match matched with
  | [] => ([], s)
  | _ =>
      let returned := _filter_segment_view matched view in
      let s1 := with_indexes s (_by_instance s) (put_or_pop (_by_trajectory s) tid remaining)
                  (_instance_timestamps s) in
      let s2 := fold_left (pop_instance matched now) (remove_dups (map instance_id matched)) s1 in
      (sort_segments returned, s2)
  end.

(** ** Batch draining *)

Definition instance_ready (s : TrajectoryStore) (now : float)
    (kv : string * list TrajectorySegment) : bool :=
  let '(i, items) := kv in
  let count := Z.of_nat (length (remove_dups (map trajectory_id items))) in
  (_min_group_size s <=? count)%Z
  || fltb (_group_timeout s) (fsub now (dget_def now (_instance_timestamps s) i)).

Definition _ready_instances_locked (s : TrajectoryStore) (now : float)
    : list (string * list TrajectorySegment) :=
  List.filter (instance_ready s now) (_by_instance s).

(** [l[:n]] *)
Definition py_prefix {A} (n : Z) (l : list A) : list A :=
  if (n <? 0)%Z then take (Z.to_nat (Z.of_nat (length l) + n)) l else take (Z.to_nat n) l.

(** The body of the inner loop: rewrites the trajectory's list only when
    something is left in it. *)
Definition drop_uid (s : TrajectoryStore) (t : TrajectorySegment) : TrajectoryStore :=
  match filter (fun e => uid e <> uid t) (traj s (trajectory_id t)) with
  | [] => s
  | rest => with_indexes s (_by_instance s) (dset (_by_trajectory s) (trajectory_id t) rest)
              (_instance_timestamps s)
  end.

(** The [else] clause belongs to the [for]: it runs once, after the loop, on the
    last segment. *)
Definition pop_last_trajectory (s : TrajectoryStore) (items : list TrajectorySegment)
    : TrajectoryStore :=
  match last items with
  | None => s
  | Some t => with_indexes s (_by_instance s) (dpop (_by_trajectory s) (trajectory_id t))
                (_instance_timestamps s)
  end.

(** [{trajectory: [items]}] in order of first appearance, default view of each. *)
Definition group_by_trajectory (items : list TrajectorySegment)
    : list (string * list TrajectorySegment) :=
  fold_left (fun d t => dset d (trajectory_id t) (dget_def [] d (trajectory_id t) ++ [t])) items [].

Definition drain_instance (acc : list (list TrajectorySegment) * TrajectoryStore) (i : string)
    : list (list TrajectorySegment) * TrajectoryStore :=
  let '(groups, s) := acc in
  let items := sort_batch (inst s i) in
  let s1 := with_indexes s (dpop (_by_instance s) i) (_by_trajectory s) (_instance_timestamps s) in
  let s2 := fold_left drop_uid items s1 in
  let s3 := pop_last_trajectory s2 items in
  let s4 := with_indexes s3 (_by_instance s3) (_by_trajectory s3)
              (dpop (_instance_timestamps s3) i) in
  let default_items :=
    concat (map (fun kv => _filter_segment_view (snd kv) None) (group_by_trajectory items)) in
  (groups ++ [sort_batch default_items], s4).

Definition read_batch (s : TrajectoryStore) (max_groups : option Z) (now : float)
    : list (list TrajectorySegment) * TrajectoryStore :=
  let ids := map fst (_ready_instances_locked s now) in
  let ids := match max_groups with None => ids | Some n => py_prefix n ids end in
  fold_left drain_instance ids ([], s).

Definition stats (s : TrajectoryStore) (now : float) : nat * nat * nat :=
  (sum_list (map (fun kv => length (snd kv)) (_by_instance s)),
   length (_by_instance s), length (_ready_instances_locked s now)).
End Views.

(** ** The two indexes agree *)

(** Both indexes list the same segments: the segments of trajectory [t] that
    instance [i] holds are the segments of instance [i] that trajectory [t]
    holds, in the same order; every held instance is stamped; and a uid belongs
    to one trajectory. *)
Record store_ok (s : TrajectoryStore) : Prop := {
  so_inst_keys : NoDup (dkeys (_by_instance s));
  so_traj_keys : NoDup (dkeys (_by_trajectory s));
  so_ts_keys : NoDup (dkeys (_instance_timestamps s));
  so_inst_nonempty : forall i, i ∈ dkeys (_by_instance s) -> inst s i <> [];
  so_inst_owner : forall i x, x ∈ inst s i -> instance_id x = i;
  so_traj_owner : forall t x, x ∈ traj s t -> trajectory_id x = t;
  so_stamped : forall i, i ∈ dkeys (_instance_timestamps s) <-> i ∈ dkeys (_by_instance s);
  so_agree : forall i t, filter (fun x => trajectory_id x = t) (inst s i)
                         = filter (fun x => instance_id x = i) (traj s t);
  so_uid : forall i i' x y, x ∈ inst s i -> y ∈ inst s i' -> uid x = uid y ->
           trajectory_id x = trajectory_id y }.

Lemma not_None_dkeys {V} (d : list (string * V)) k : dget d k <> None <-> k ∈ dkeys d.
Proof. rewrite dget_None_key. destruct (decide (k ∈ dkeys d)); naive_solver. Qed.

Lemma elem_of_take_sub {A} (x : A) n l : x ∈ take n l -> x ∈ l.
Proof. intros Hx. rewrite <- (take_drop n l). apply elem_of_app. by left. Qed.

Lemma inst_append t s i :
  inst (append_instance t s) i = inst s i ++ (if decide (instance_id t = i) then [t] else []).
Proof.
  unfold inst, append_instance, dget_def; simpl. rewrite dget_dset.
  case_decide; [subst; done | by rewrite app_nil_r].
Qed.

Lemma traj_append t s k :
  traj (append_trajectory t s) k = traj s k ++ (if decide (trajectory_id t = k) then [t] else []).
Proof.
  unfold traj, append_trajectory, dget_def; simpl. rewrite dget_dset.
  case_decide; [subst; done | by rewrite app_nil_r].
Qed.

Lemma run_ops_app o1 o2 s : run_ops (o1 ++ o2) s = run_ops o2 (run_ops o1 s).
Proof. apply fold_left_app. Qed.

Definition append_both (s : TrajectoryStore) (t : TrajectorySegment) : TrajectoryStore :=
  append_trajectory t (append_instance t s).

Lemma run_ops_write items now s :
  run_ops (write_ops items now) s
  = fold_left (fun st i => stamp_instance now i st) (remove_dups (map instance_id items))
      (fold_left append_both items s).
Proof.
  unfold write_ops. rewrite run_ops_app.
  assert (forall s, run_ops (concat (map (fun t => [append_instance t; append_trajectory t]) items)) s
                    = fold_left append_both items s) as ->.
  { induction items as [|t items IH]; intros s'; simpl; [done|]. apply IH. }
  generalize (fold_left append_both items s). generalize (remove_dups (map instance_id items)).
  intros l. induction l as [|i l IH]; intros s'; simpl; [done|]. apply IH.
Qed.

Lemma append_both_lists items s :
  (forall i, inst (fold_left append_both items s) i
             = inst s i ++ filter (fun t => instance_id t = i) items)
  /\ (forall k, traj (fold_left append_both items s) k
             = traj s k ++ filter (fun t => trajectory_id t = k) items)
  /\ _instance_timestamps (fold_left append_both items s) = _instance_timestamps s.
Proof.
  revert s. induction items as [|t items IH]; intros s; simpl.
  - split_and!; [intros; by rewrite app_nil_r | intros; by rewrite app_nil_r | done].
  - destruct (IH (append_both s t)) as (IHi & IHt & IHs). split_and!.
    + intros i. rewrite IHi, filter_cons. change (inst (append_both s t) i)
        with (inst (append_instance t s) i). rewrite inst_append, <- app_assoc.
      by case_decide.
    + intros k. rewrite IHt, filter_cons. unfold append_both. rewrite traj_append, <- app_assoc.
      change (traj (append_instance t s) k) with (traj s k). by case_decide.
    + by rewrite IHs.
Qed.

Lemma stamps_lists l now s :
  let s' := fold_left (fun st i => stamp_instance now i st) l s in
  _by_instance s' = _by_instance s /\ _by_trajectory s' = _by_trajectory s
  /\ (forall k, dget (_instance_timestamps s') k
                = if decide (k ∈ l) then Some now else dget (_instance_timestamps s) k)
  /\ (NoDup (dkeys (_instance_timestamps s)) -> NoDup (dkeys (_instance_timestamps s'))).
Proof.
  simpl. revert s. induction l as [|i l IH]; intros s; simpl; [by split_and!|].
  destruct (IH (stamp_instance now i s)) as (H1 & H2 & H3 & H4). split_and!; try done.
  - intros k. rewrite H3; simpl. rewrite dget_dset.
    destruct (decide (k ∈ l)), (decide (i = k)), (decide (k ∈ i :: l)); try done; set_solver.
  - intros Hnd. apply H4. by apply dset_NoDup.
Qed.

(** What a committed write does to every lookup. *)
Lemma write_items_lists items now s :
  let s' := run_ops (write_ops items now) s in
  (forall i, inst s' i = inst s i ++ filter (fun t => instance_id t = i) items)
  /\ (forall k, traj s' k = traj s k ++ filter (fun t => trajectory_id t = k) items)
  /\ (forall i, dget (_instance_timestamps s') i
        = if decide (i ∈ map instance_id items) then Some now else dget (_instance_timestamps s) i).
Proof.
  simpl. rewrite run_ops_write.
  destruct (stamps_lists (remove_dups (map instance_id items)) now (fold_left append_both items s))
    as (H1 & H2 & H3 & _).
  destruct (append_both_lists items s) as (A1 & A2 & A3).
  unfold inst, traj. rewrite H1, H2. split_and!; [apply A1 | apply A2 |].
  intros i. rewrite H3, A3.
  destruct (decide (i ∈ remove_dups _)) as [Hi|Hi];
    rewrite elem_of_remove_dups in Hi; [by rewrite decide_True | by rewrite decide_False].
Qed.

Lemma append_both_keys items s :
  let s' := fold_left append_both items s in
  (NoDup (dkeys (_by_instance s)) -> NoDup (dkeys (_by_instance s')))
  /\ (NoDup (dkeys (_by_trajectory s)) -> NoDup (dkeys (_by_trajectory s')))
  /\ (forall i, i ∈ dkeys (_by_instance s')
        <-> i ∈ dkeys (_by_instance s) \/ i ∈ map instance_id items).
Proof.
  simpl. revert s. induction items as [|t items IH]; intros s; simpl; [set_solver|].
  destruct (IH (append_both s t)) as (H1 & H2 & H3). split_and!.
  - intros Hnd. apply H1. simpl. by apply dset_NoDup.
  - intros Hnd. apply H2. simpl. by apply dset_NoDup.
  - intros i. rewrite H3. simpl. rewrite dkeys_dset.
    case_decide; rewrite elem_of_cons, ?elem_of_app; set_solver.
Qed.

(** ** Transactions *)

Lemma restore_get {V} keys (old cur : list (string * V)) k :
  NoDup (dkeys cur) ->
  dget (restore keys old cur) k = (if decide (k ∈ keys) then dget old k else dget cur k)
  /\ NoDup (dkeys (restore keys old cur)).
Proof.
  unfold restore. revert cur. induction keys as [|a keys IH]; intros cur Hnd; simpl; [done|].
  set (cur' := match dget old a with None => dpop cur a | Some v => dset cur a v end).
  assert (NoDup (dkeys cur')) as Hnd'.
  { unfold cur'. destruct (dget old a); auto with dressage. }
  destruct (IH cur' Hnd') as [-> ?]. split; [|done].
  assert (dget cur' k = if decide (a = k) then dget old k else dget cur k) as ->.
  { unfold cur'. destruct (dget old a) eqn:E.
    - rewrite dget_dset. destruct (decide (a = k)); [subst k; by rewrite E | done].
    - rewrite dget_dpop by done. destruct (decide (a = k)); [subst k; by rewrite E | done]. }
  destruct (decide (k ∈ keys)), (decide (a = k)), (decide (k ∈ a :: keys)); try done; set_solver.
Qed.

(** A mutation that keeps the dictionaries well formed and changes only the
    instances [insts] and trajectories [trajs]. *)
Definition confined (insts trajs : list string) (s s' : TrajectoryStore) : Prop :=
  (NoDup (dkeys (_by_instance s)) -> NoDup (dkeys (_by_instance s')))
  /\ (NoDup (dkeys (_by_trajectory s)) -> NoDup (dkeys (_by_trajectory s')))
  /\ (NoDup (dkeys (_instance_timestamps s)) -> NoDup (dkeys (_instance_timestamps s')))
  /\ (forall k, k ∉ insts -> dget (_by_instance s') k = dget (_by_instance s) k)
  /\ (forall k, k ∉ trajs -> dget (_by_trajectory s') k = dget (_by_trajectory s) k)
  /\ (forall k, k ∉ insts ->
        dget (_instance_timestamps s') k = dget (_instance_timestamps s) k).

Lemma confined_refl insts trajs s : confined insts trajs s s.
Proof. by split_and!. Qed.

Lemma confined_trans insts trajs s1 s2 s3 :
  confined insts trajs s1 s2 -> confined insts trajs s2 s3 -> confined insts trajs s1 s3.
Proof.
  intros (A1 & A2 & A3 & A4 & A5 & A6) (B1 & B2 & B3 & B4 & B5 & B6).
  split_and!; eauto; intros; [rewrite B4 | rewrite B5 | rewrite B6]; auto.
Qed.

Lemma write_ops_confined items now op s :
  op ∈ write_ops items now ->
  confined (map instance_id items) (map trajectory_id items) s (op s).
Proof.
  unfold write_ops. rewrite elem_of_app. intros [Hin | Hin].
  - apply list_elem_of_In, in_concat in Hin as (l & Hl & Hin).
    apply in_map_iff in Hl as (t & <- & Ht). apply list_elem_of_In in Ht, Hin.
    pose proof (elem_of_map_intro instance_id _ _ Ht).
    pose proof (elem_of_map_intro trajectory_id _ _ Ht).
    apply elem_of_cons in Hin as [-> | ->%list_elem_of_singleton]; split_and!; simpl;
      auto with dressage; intros k Hk; apply dget_dset_ne; by intros <-.
  - apply list_elem_of_fmap in Hin as (i & -> & Hi). rewrite elem_of_remove_dups in Hi.
    split_and!; simpl; auto with dressage. intros k Hk. apply dget_dset_ne. by intros <-.
Qed.

Lemma run_ops_confined items now ops s :
  ops ⊆ write_ops items now ->
  confined (map instance_id items) (map trajectory_id items) s (run_ops ops s).
Proof.
  unfold run_ops. revert s. induction ops as [|op ops IH]; intros s Hsub; simpl.
  - apply confined_refl.
  - eapply confined_trans; [apply (write_ops_confined _ now) | apply IH]; set_solver.
Qed.

(** ** Draining one trajectory *)

Lemma dget_put_or_pop d k l k' :
  NoDup (dkeys d) ->
  dget_def [] (put_or_pop d k l) k' = if decide (k = k') then l else dget_def [] d k'.
Proof.
  intros Hnd. unfold put_or_pop, dget_def. destruct l as [|x l].
  - rewrite dget_dpop by done. by case_decide.
  - rewrite dget_dset. by case_decide.
Qed.

Lemma put_or_pop_NoDup d k l : NoDup (dkeys d) -> NoDup (dkeys (put_or_pop d k l)).
Proof. unfold put_or_pop. destruct l; auto with dressage. Qed.

Lemma put_or_pop_keys d k l k' :
  NoDup (dkeys d) ->
  k' ∈ dkeys (put_or_pop d k l) <-> if decide (k = k') then l <> [] else k' ∈ dkeys d.
Proof.
  intros Hnd. unfold put_or_pop. destruct l as [|x l].
  - rewrite dkeys_dpop by done. destruct (decide (k = k')); naive_solver.
  - rewrite dkeys_dset. destruct (decide (k = k')) as [->|]; case_decide; set_solver.
Qed.

Lemma filter_id {A} (P : A -> Prop) `{forall x, Decision (P x)} (l : list A) :
  (forall x, x ∈ l -> P x) -> filter P l = l.
Proof.
  induction l as [|x l IH]; intros Hl; [done|]. rewrite filter_cons, decide_True by set_solver.
  rewrite IH; set_solver.
Qed.

Lemma filter_nil {A} (P : A -> Prop) `{forall x, Decision (P x)} (l : list A) :
  (forall x, x ∈ l -> ~ P x) -> filter P l = [].
Proof.
  induction l as [|x l IH]; intros Hl; [done|]. rewrite filter_cons, decide_False by set_solver.
  apply IH; set_solver.
Qed.

(** The effect of releasing the matched uids from a list of instances. *)
Lemma pop_instances_lists matched now l s :
  NoDup l -> NoDup (dkeys (_by_instance s)) -> NoDup (dkeys (_instance_timestamps s)) ->
  let s' := fold_left (pop_instance matched now) l s in
  _by_trajectory s' = _by_trajectory s
  /\ NoDup (dkeys (_by_instance s')) /\ NoDup (dkeys (_instance_timestamps s'))
  /\ (forall i, inst s' i = if decide (i ∈ l)
                            then filter (fun t => uid t ∉ map uid matched) (inst s i)
                            else inst s i)
  /\ (forall i, i ∈ dkeys (_by_instance s') <->
        if decide (i ∈ l) then inst s' i <> [] else i ∈ dkeys (_by_instance s))
  /\ (forall i, i ∈ dkeys (_instance_timestamps s') <->
        if decide (i ∈ l) then inst s' i <> [] else i ∈ dkeys (_instance_timestamps s)).
Proof.
  simpl. intros Hl. revert s. induction Hl as [|a l Ha Hl IH]; intros s Hi Ht; simpl; [done|].
  set (rem := filter (fun t => uid t ∉ map uid matched) (inst s a)).
  assert (NoDup (dkeys (_by_instance (pop_instance matched now s a)))) as Hi1
    by (by apply put_or_pop_NoDup).
  assert (NoDup (dkeys (_instance_timestamps (pop_instance matched now s a)))) as Ht1
    by (simpl; fold rem; destruct rem; auto with dressage).
  assert (forall i, inst (pop_instance matched now s a) i
                    = if decide (a = i) then rem else inst s i) as Hinst
    by (intros i; by apply dget_put_or_pop).
  destruct (IH _ Hi1 Ht1) as (H1 & H2 & H3 & H4 & H5 & H6).
  split_and!; [by rewrite H1 | done | done | | |]; intros i;
    destruct (decide (i ∈ a :: l)) as [Hin|Hin].
  - rewrite H4, Hinst. destruct (decide (a = i)) as [->|]; [by rewrite decide_False|].
    rewrite decide_True; [done | set_solver].
  - rewrite H4, Hinst, !decide_False; set_solver.
  - rewrite H5. destruct (decide (i ∈ l)); [done|]. assert (a = i) as -> by set_solver.
    simpl. rewrite put_or_pop_keys, decide_True by done. fold rem.
    rewrite H4, decide_False, Hinst, decide_True by done. done.
  - rewrite H5, decide_False by set_solver. simpl.
    rewrite put_or_pop_keys, decide_False by set_solver. done.
  - rewrite H6. destruct (decide (i ∈ l)); [done|]. assert (a = i) as -> by set_solver.
    rewrite H4, decide_False, Hinst, decide_True by done. simpl. fold rem. destruct rem.
    + rewrite dkeys_dpop by done. naive_solver.
    + rewrite dkeys_dset. case_decide; set_solver.
  - rewrite H6, decide_False by set_solver. simpl. fold rem.
    assert (a <> i) by set_solver. destruct rem.
    + rewrite dkeys_dpop by done. naive_solver.
    + rewrite dkeys_dset. case_decide; set_solver.
Qed.

Lemma list_filter_ext_in {A} (P Q : A -> Prop) `{forall x, Decision (P x)}
    `{forall x, Decision (Q x)} (l : list A) :
  (forall x, x ∈ l -> P x <-> Q x) -> filter P l = filter Q l.
Proof.
  induction l as [|x l IH]; intros Hl; [done|]. rewrite !filter_cons.
  rewrite (IH ltac:(set_solver)).
  destruct (decide (P x)) as [HP|HP], (decide (Q x)) as [HQ|HQ]; try done;
    exfalso; [apply HQ, Hl | apply HP, Hl]; set_solver.
Qed.

Lemma list_filter_comm {A} (P Q : A -> Prop) `{forall x, Decision (P x)}
    `{forall x, Decision (Q x)} (l : list A) :
  filter P (filter Q l) = filter Q (filter P l).
Proof. rewrite !list_filter_filter. apply list_filter_iff. naive_solver. Qed.

Section Pop.
Context `{PyText}.
Context (s : TrajectoryStore) (Hok : store_ok s) (tid : string) (iid : option string) (now : float).

(** The segments a pop of [tid] (and [iid]) removes. *)
Definition popped (x : TrajectorySegment) : Prop :=
  trajectory_id x = tid /\ match iid with Some i => instance_id x = i | None => True end.

#[global] Instance popped_dec x : Decision (popped x).
Proof. unfold popped. destruct iid; apply _. Defined.

Lemma index_both i t x :
  x ∈ inst s i /\ trajectory_id x = t <-> x ∈ traj s t /\ instance_id x = i.
Proof.
  pose proof (so_agree _ Hok i t) as Ha.
  assert (x ∈ filter (fun y => trajectory_id y = t) (inst s i)
          <-> x ∈ filter (fun y => instance_id y = i) (traj s t)) as Hx by (by rewrite Ha).
  rewrite !list_elem_of_filter in Hx. tauto.
Qed.

Definition pop_matched : list TrajectorySegment := filter popped (traj s tid).

Lemma pop_matched_eq :
  match iid with None => traj s tid | Some i => filter (fun t => instance_id t = i) (traj s tid) end
  = pop_matched.
Proof.
  unfold pop_matched. destruct iid as [i|] eqn:E.
  - apply list_filter_ext_in. intros x Hx. unfold popped. rewrite E.
    rewrite (so_traj_owner _ Hok _ _ Hx). naive_solver.
  - symmetry. apply filter_id. intros x Hx. unfold popped. rewrite E.
    by rewrite (so_traj_owner _ Hok _ _ Hx).
Qed.

Lemma pop_remaining_eq :
  match iid with None => [] | Some i => filter (fun t => instance_id t <> i) (traj s tid) end
  = filter (fun x => ~ popped x) (traj s tid).
Proof.
  destruct iid as [i|] eqn:E.
  - apply list_filter_ext_in. intros x Hx. unfold popped. rewrite E.
    rewrite (so_traj_owner _ Hok _ _ Hx). naive_solver.
  - symmetry. apply filter_nil. intros x Hx Hn. apply Hn. unfold popped. rewrite E.
    by rewrite (so_traj_owner _ Hok _ _ Hx).
Qed.

Lemma elem_of_matched x : x ∈ pop_matched <-> popped x /\ x ∈ inst s (instance_id x).
Proof.
  unfold pop_matched. rewrite list_elem_of_filter. split.
  - intros [Hp Hx]. split; [done|]. by apply (index_both _ tid).
  - intros [Hp Hx]. split; [done|]. eapply (index_both (instance_id x)). split; [done | apply Hp].
Qed.

(** On an affected instance, dropping the matched uids drops the popped segments. *)
Lemma drop_uids_eq i :
  i ∈ map instance_id pop_matched ->
  filter (fun t => uid t ∉ map uid pop_matched) (inst s i) = filter (fun x => ~ popped x) (inst s i).
Proof.
  intros (m0 & -> & Hm0)%list_elem_of_fmap.
  apply list_filter_ext_in. intros x Hx. pose proof (so_inst_owner _ Hok _ _ Hx) as Hix. split.
  - intros Hn Hp. apply Hn, elem_of_map_intro, elem_of_matched. split; [done | by rewrite Hix].
  - intros Hn (m & Hu & Hm)%list_elem_of_fmap. apply Hn.
    apply elem_of_matched in Hm as [Hpm Hmi], Hm0 as [Hp0 _].
    split; [rewrite (so_uid _ Hok _ _ _ _ Hx Hmi Hu); apply Hpm|].
    unfold popped in Hp0. destruct iid; [|done]. rewrite Hix. apply Hp0.
Qed.

Lemma unaffected_eq i :
  i ∉ map instance_id pop_matched -> filter (fun x => ~ popped x) (inst s i) = inst s i.
Proof.
  intros Hi. apply filter_id. intros x Hx Hp. apply Hi.
  pose proof (so_inst_owner _ Hok _ _ Hx) as <-. apply elem_of_map_intro, elem_of_matched. done.
Qed.

(** A pop filters the popped segments out of both indexes and returns the
    requested view of them, sorted. *)
Lemma pop_effect view :
  let '(ret, s') := pop_trajectory s tid iid view now in
  ret = sort_segments (_filter_segment_view pop_matched view)
  /\ (forall t, traj s' t = filter (fun x => ~ popped x) (traj s t))
  /\ (forall i, inst s' i = filter (fun x => ~ popped x) (inst s i))
  /\ NoDup (dkeys (_by_instance s')) /\ NoDup (dkeys (_by_trajectory s'))
  /\ NoDup (dkeys (_instance_timestamps s'))
  /\ (forall i, i ∈ dkeys (_by_instance s') -> inst s' i <> [])
  /\ (forall i, i ∈ dkeys (_instance_timestamps s') <-> i ∈ dkeys (_by_instance s')).
Proof.
  unfold pop_trajectory. rewrite pop_matched_eq, pop_remaining_eq.
  assert (forall t, t <> tid -> filter (fun x => ~ popped x) (traj s t) = traj s t) as Hother.
  { intros t Ht. apply filter_id. intros x Hx [Hp _]. rewrite (so_traj_owner _ Hok _ _ Hx) in Hp. done. }
  destruct pop_matched as [|m ms] eqn:Em.
  - assert (forall i, filter (fun x => ~ popped x) (inst s i) = inst s i) as Hi.
    { intros i. apply unaffected_eq. rewrite Em. set_solver. }
    assert (forall t, filter (fun x => ~ popped x) (traj s t) = traj s t) as Ht.
    { intros t. destruct (decide (t = tid)) as [->|]; [|auto]. apply filter_id. intros x Hx Hp.
      assert (x ∈ pop_matched) as Hc by (unfold pop_matched; by apply list_elem_of_filter).
      rewrite Em in Hc. set_solver. }
    destruct Hok. split_and!; try done.
    unfold _filter_segment_view, _default_segment_view; simpl.
    by repeat case_match.
  - rewrite <- Em. destruct Hok.
    set (s1 := with_indexes s _ _ _).
    pose proof (pop_instances_lists pop_matched now (remove_dups (map instance_id pop_matched)) s1
      (NoDup_remove_dups _)) as Hpop.
    destruct Hpop as (H1 & H2 & H3 & H4 & H5 & H6); [done | done|].
    set (s2 := fold_left _ _ s1) in *.
    assert (forall i, inst s2 i = filter (fun x => ~ popped x) (inst s i)) as Hinst.
    { intros i. rewrite H4. change (inst s1 i) with (inst s i).
      destruct (decide _) as [Hd|Hd]; rewrite elem_of_remove_dups in Hd.
      - by apply drop_uids_eq.
      - by rewrite unaffected_eq. }
    split_and!; try done.
    + intros t. unfold traj. rewrite H1. simpl. rewrite dget_put_or_pop by done.
      case_decide; [by subst | symmetry; by apply Hother].
    + rewrite H1. by apply put_or_pop_NoDup.
    + intros i Hi. apply H5 in Hi. destruct (decide _) as [|Hd]; [done|].
      rewrite H4, decide_False by done. by apply so_inst_nonempty0.
    + intros i. rewrite H5, H6. destruct (decide _); [done|]. apply so_stamped0.
Qed.
End Pop.

(** ** Properties *)

(** Segments that bring no uid clash: a uid shared with a stored or a new
    segment belongs to the same trajectory. *)
Definition fresh_uids (s : TrajectoryStore) (items : list TrajectorySegment) : Prop :=
  forall x y, x ∈ items -> (y ∈ items \/ exists i, y ∈ inst s i) -> uid x = uid y ->
  trajectory_id x = trajectory_id y.

Lemma write_items_store_ok s items now :
  store_ok s -> fresh_uids s items -> store_ok (fst (_write_items items now None s)).
Proof.
  intros Hok Hfresh.
  assert (fst (_write_items items now None s) = run_ops (write_ops items now) s) as Heq
    by (by destruct items).
  rewrite Heq. clear Heq.
  destruct (write_items_lists items now s) as (Hi & Ht & Hs).
  pose proof (append_both_keys items s) as (K1 & K2 & K3).
  pose proof (stamps_lists (remove_dups (map instance_id items)) now (fold_left append_both items s))
    as (S1 & S2 & _ & S4).
  rewrite <- run_ops_write in S1, S2, S4.
  destruct Hok.
  assert (forall i, i ∈ dkeys (_by_instance (run_ops (write_ops items now) s))
      <-> i ∈ dkeys (_by_instance s) \/ i ∈ map instance_id items) as Hkeys
    by (intros i; rewrite S1; apply K3).
  split.
  - rewrite S1. auto.
  - rewrite S2. auto.
  - apply S4. rewrite (proj2 (proj2 (append_both_lists items s))). done.
  - intros i Hin. rewrite Hi. intros [E1 E2]%app_nil.
    apply Hkeys in Hin as [Hin | Hin]; [by eapply so_inst_nonempty0|].
    apply list_elem_of_fmap in Hin as (x & -> & Hx).
    assert (x ∈ filter (fun t => instance_id t = instance_id x) items) as Hc
      by (by apply list_elem_of_filter).
    rewrite E2 in Hc. set_solver.
  - intros i x. rewrite Hi, elem_of_app, list_elem_of_filter. intros [?|[? _]]; eauto.
  - intros k x. rewrite Ht, elem_of_app, list_elem_of_filter. intros [?|[? _]]; eauto.
  - intros i. rewrite Hkeys, <- so_stamped0, <- !not_None_dkeys, Hs.
    destruct (decide (i ∈ map instance_id items)); naive_solver.
  - intros i k. rewrite Hi, Ht, !filter_app, so_agree0. f_equal.
    rewrite !list_filter_filter. apply list_filter_iff. naive_solver.
  - intros i i' x y. rewrite !Hi, !elem_of_app, !list_elem_of_filter.
    intros [Hx|[_ Hx]] [Hy|[_ Hy]] Hu; [by eapply so_uid0 | symmetry | |]; eauto.
Qed.

(** A committed write keeps the two indexes in agreement, and extends every
    instance and every trajectory with exactly its segments of the batch, in
    batch order. *)
Theorem write_items_index_agreement s items now :
  store_ok s -> fresh_uids s items ->
  let s' := fst (_write_items items now None s) in
  store_ok s'
  /\ (forall i, inst s' i = inst s i ++ filter (fun t => instance_id t = i) items)
  /\ (forall k, traj s' k = traj s k ++ filter (fun t => trajectory_id t = k) items).
Proof.
  intros Hok Hfresh. cbv zeta. split; [by apply write_items_store_ok|].
  assert (fst (_write_items items now None s) = run_ops (write_ops items now) s) as ->
    by (by destruct items).
  destruct (write_items_lists items now s) as (Hi & Ht & _). done.
Qed.

(** popping a trajectory is exact.  It returns the requested view of the
    trajectory's segments (of one instance when given), ordered by segment index
    and time; afterwards neither index holds any of the popped segments, every
    other segment is untouched in both, and the indexes still agree. *)
Theorem pop_trajectory_exact `{PyText} s tid iid view now :
  store_ok s ->
  let '(ret, s') := pop_trajectory s tid iid view now in
  let gone x := trajectory_id x = tid
                /\ match iid with Some i => instance_id x = i | None => True end in
  store_ok s'
  /\ ret = read_trajectory s tid iid view
  /\ (forall t x, x ∈ traj s' t <-> x ∈ traj s t /\ ~ gone x)
  /\ (forall i x, x ∈ inst s' i <-> x ∈ inst s i /\ ~ gone x).
Proof.
  intros Hok. pose proof (pop_effect s Hok tid iid now view) as He.
  destruct (pop_trajectory s tid iid view now) as [ret s'].
  destruct He as (-> & Ht & Hi & K1 & K2 & K3 & K4 & K5). fold (popped tid iid).
  assert (forall t x, x ∈ traj s' t <-> x ∈ traj s t /\ ~ popped tid iid x) as Et.
  { intros t x. rewrite Ht, list_elem_of_filter. naive_solver. }
  assert (forall i x, x ∈ inst s' i <-> x ∈ inst s i /\ ~ popped tid iid x) as Ei.
  { intros i x. rewrite Hi, list_elem_of_filter. naive_solver. }
  split_and!; try done.
  - destruct Hok. split; try done.
    + intros i x [? _]%Ei. eauto.
    + intros t x [? _]%Et. eauto.
    + intros i t. rewrite Ht, Hi.
      by rewrite (list_filter_comm _ _ (inst s i)), so_agree0, list_filter_comm.
    + intros i i' x y [? _]%Ei [? _]%Ei. eauto.
  - unfold read_trajectory. by rewrite pop_matched_eq.
Qed.

(** A write that fails half way leaves no trace.  Whatever primitive
    mutation the exception interrupts, the handler puts every instance, every
    trajectory and every timestamp back to what it was before the write. *)
Theorem write_items_rollback s items now n :
  store_ok s ->
  let '(s', committed) := _write_items items now (Some n) s in
  (items <> [] -> committed = false)
  /\ (forall k, dget (_by_instance s') k = dget (_by_instance s) k)
  /\ (forall k, dget (_by_trajectory s') k = dget (_by_trajectory s) k)
  /\ (forall k, dget (_instance_timestamps s') k = dget (_instance_timestamps s) k).
Proof.
  intros Hok. unfold _write_items. destruct items as [|t0 items0] eqn:Ei; [done|].
  rewrite <- Ei.
  pose proof (run_ops_confined items now (take n (write_ops items now)) s) as Hc.
  destruct Hc as (C1 & C2 & C3 & C4 & C5 & C6).
  { intros op Hop. by eapply elem_of_take_sub. }
  destruct Hok. split; [done|]. split_and!; intros k; simpl.
  - rewrite (proj1 (restore_get _ _ _ k (C1 so_inst_keys0))).
    destruct (decide _) as [|Hd]; [done|]. rewrite elem_of_remove_dups in Hd. auto.
  - rewrite (proj1 (restore_get _ _ _ k (C2 so_traj_keys0))).
    destruct (decide _) as [|Hd]; [done|]. rewrite elem_of_remove_dups in Hd. auto.
  - rewrite (proj1 (restore_get _ _ _ k (C3 so_ts_keys0))).
    destruct (decide _) as [|Hd]; [done|]. rewrite elem_of_remove_dups in Hd. auto.
Qed.

Lemma one_value_all {A} `{EqDecision A} (l : list A) x y :
  one_value l = true -> x ∈ l -> y ∈ l -> x = y.
Proof.
  destruct l as [|z l]; [done|]; simpl. rewrite forallb_forall. setoid_rewrite <- list_elem_of_In.
  intros Hl. assert (forall w, w ∈ z :: l -> w = z) as Hw.
  { intros w [->|Hw]%elem_of_cons; [done|]. specialize (Hl w Hw). by bool_hyps. }
  intros Hx%Hw Hy%Hw. congruence.
Qed.

Lemma view_complete_sorted vitems :
  view_complete vitems = true ->
  map (fun t => index_val (segment_index t)) (sort_segments vitems)
  = map Z.of_nat (seq 0 (length vitems))
  /\ forall t, t ∈ vitems -> index_val (segment_count t) = Z.of_nat (length vitems).
Proof.
  unfold view_complete. intros H. bool_hyps. split.
  - set (key := fun t => index_val (segment_index t)).
    assert (map key (sort_segments vitems) ≡ₚ map key vitems) as Hp.
    { apply Permutation_map, sort_by_perm. }
    rewrite (sorted_range (map key (sort_segments vitems))).
    + unfold sort_segments. by rewrite length_map, sort_by_length.
    + apply sort_by_keys_sorted; unfold seg_ltb; intros x y Hxy; unfold key;
        rewrite ?negb_true_iff, ?negb_false_iff, ?orb_false_iff, ?orb_true_iff, ?andb_true_iff in Hxy;
        rewrite ?Z.ltb_ge, ?Z.ltb_lt, ?Z.eqb_eq in Hxy; lia.
    + rewrite Hp. done.
    + intros z. rewrite Hp, length_map.
      intros Hz. match goal with Hf : forallb (fun z => _ && _) _ = true |- _ =>
        rewrite forallb_forall in Hf; apply list_elem_of_In, Hf in Hz end. lia.
  - intros t Ht.
    assert (exists c cs, map segment_count vitems = c :: cs) as (c & cs & Hc).
    { destruct vitems as [|t0 ts]; [set_solver|]. simpl. eauto. }
    rewrite Hc in *.
    match goal with Hn : (index_val c =? _)%Z = true |- _ => apply Z.eqb_eq in Hn; rewrite <- Hn end.
    eapply (one_value_all (map index_val (c :: cs))); [done | | by left].
    rewrite <- Hc. auto with dressage.
Qed.

(** [write_many] is all or nothing, and a finalized batch is complete.  If
    any record is malformed or the batch check fails, nothing is stored.  If a
    marked batch is accepted, its segments all belong to one trajectory and one
    instance and carry a known view, and the segments of each view, sorted, are
    numbered exactly 0..N-1 with N the declared segment count. *)
Theorem write_many_finalized_complete `{PyText} records now s :
  match write_many records now s with
  | (Raise _, s') => s' = s
  | (Ok items, s') =>
      s' = fst (_write_items items now None s)
      /\ (existsb marked items = true ->
          (forall x y, x ∈ items -> y ∈ items ->
             trajectory_id x = trajectory_id y /\ instance_id x = instance_id y)
          /\ (forall x, x ∈ items -> exists v, _item_segment_view x = Some v
                                          /\ (v = "lineage" \/ v = "timeline"))
          /\ forall v, v ∈ batch_views items ->
             let vs := sort_segments (view_items items v) in
             map (fun t => index_val (segment_index t)) vs = map Z.of_nat (seq 0 (length vs))
             /\ forall t, t ∈ vs -> index_val (segment_count t) = Z.of_nat (length vs))
  end.
Proof.
  unfold write_many. destruct (mapM_res convert_record records) as [items|]; [|done].
  destruct (_validate_finalized_batch items) as [[]|] eqn:Ev; [|done].
  split; [done|]. intros Hm. unfold _validate_finalized_batch in Ev.
  destruct items as [|x0 xs] eqn:Ei; [done|]. rewrite <- Ei in *. rewrite Hm in Ev.
  cbn [negb] in Ev. res_inv. bool_hyps. split_and!.
  - intros x y Hx Hy. split.
    + eapply (one_value_all (map trajectory_id items)); auto with dressage.
    + eapply (one_value_all (map instance_id items)); auto with dressage.
  - intros x Hx. rewrite <- not_true_iff_false, existsb_exists in G1.
    destruct (_item_segment_view x) as [v|] eqn:Evw.
    + exists v. split; [done|]. destruct (decide (v = "lineage")); [by left|].
      destruct (decide (v = "timeline")); [by right|].
      exfalso. apply G1. exists x. split; [by apply list_elem_of_In|].
      rewrite Evw, bool_decide_false; [done | set_solver].
    + exfalso. apply G1. exists x. split; [by apply list_elem_of_In|].
      rewrite Evw, bool_decide_false; [done | set_solver].
  - intros v Hv. rewrite forallb_forall in G2. apply list_elem_of_In, G2 in Hv.
    apply view_complete_sorted in Hv as [Hv1 Hv2].
    assert (length (sort_segments (view_items items v)) = length (view_items items v)) as Hl
      by (apply sort_by_length).
    rewrite Hl. split; [done|]. intros t Ht. apply Hv2. unfold sort_segments in Ht.
    by rewrite elem_of_sort_by in Ht.
Qed.

(** ** Batch draining: the stale trajectory index *)

#[local] Instance w_text : PyText := {| py_repr := fun _ => ""; py_parse_float := fun _ => None |}.

Definition w_seg (u t i : string) : TrajectorySegment :=
  {| uid := u; trajectory_id := t; turn_id := "1"; instance_id := i;
     segment_index := IInt 0; segment_count := IInt 1; messages := PList [];
     tools := PNone; tokens := PList []; full_logprobs := SRaw (PList []);
     full_loss_mask := PList []; aligned_response_length := PInt 0; full_versions := None;
     routed_experts_chunks := SRaw PNone; label := PNone; finish_reason := PStr "stop";
     timestamp := f0; extra_info := [] |}.

Definition w_empty : TrajectoryStore := TrajectoryStore__init__ 1 (f_of_Z 300).

Lemma w_empty_ok : store_ok w_empty.
Proof. split; simpl; try done; try (constructor); intros; set_solver. Qed.

(** Two trajectories of one instance, and a trajectory spread over two instances. *)
Definition w_store : TrajectoryStore :=
  fst (_write_items [w_seg "a" "t1" "i"; w_seg "b" "t2" "i"] f0 None w_empty).
Definition w_store2 : TrajectoryStore :=
  fst (_write_items [w_seg "a" "t1" "i"; w_seg "b" "t1" "j"] f0 None w_empty).

Ltac solve_fresh :=
  intros x y Hx [Hy|[i Hy]]; [|set_solver];
  repeat (apply elem_of_cons in Hx as [->|Hx]); repeat (apply elem_of_cons in Hy as [->|Hy]);
  try set_solver; done.

Lemma w_store_ok : store_ok w_store.
Proof. apply write_items_store_ok; [apply w_empty_ok | solve_fresh]. Qed.

Lemma w_store2_ok : store_ok w_store2.
Proof. apply write_items_store_ok; [apply w_empty_ok | solve_fresh]. Qed.

(** draining a batch does not keep the indexes in agreement.  The [else] of
    the inner loop is attached to the [for], so it pops only the trajectory of
    the last drained segment: (1) a drained segment of any earlier trajectory
    stays readable by its trajectory although its instance is gone, and (2) when
    the last trajectory also has segments of an instance that was not drained,
    those stop being readable by trajectory although they are still stored. *)
Theorem read_batch_stale_trajectory_index :
  (let '(groups, s') := read_batch w_store None f1 in
   store_ok w_store
   /\ groups = [[w_seg "a" "t1" "i"; w_seg "b" "t2" "i"]]
   /\ inst s' "i" = [] /\ read_trajectory s' "t1" None None = [w_seg "a" "t1" "i"])
  /\ (let '(groups, s') := read_batch w_store2 (Some 1%Z) f1 in
      store_ok w_store2
      /\ groups = [[w_seg "a" "t1" "i"]]
      /\ inst s' "j" = [w_seg "b" "t1" "j"] /\ read_trajectory s' "t1" None None = []).
Proof.
  pose proof w_store_ok. pose proof w_store2_ok.
  split; (vm_compute; split_and!; [assumption || done | reflexivity..]).
Qed.

(** ** Witnesses *)

Lemma write_items_index_agreement_witness :
  inst (fst (_write_items [w_seg "a" "t1" "i"] f0 None w_empty)) "i" = [w_seg "a" "t1" "i"].
Proof.
  destruct (write_items_index_agreement w_empty [w_seg "a" "t1" "i"] f0) as (_ & Hi & _).
  - apply w_empty_ok.
  - intros x y Hx [Hy|[i Hy]] _; [|vm_compute in Hy; set_solver].
    apply list_elem_of_singleton in Hx, Hy. congruence.
  - rewrite Hi. reflexivity.
Defined.

Lemma pop_trajectory_exact_witness :
  fst (pop_trajectory w_store "t1" None None f0) = [w_seg "a" "t1" "i"]
  /\ store_ok (snd (pop_trajectory w_store "t1" None None f0)).
Proof.
  pose proof (pop_trajectory_exact w_store "t1" None None f0 w_store_ok) as H.
  destruct (pop_trajectory w_store "t1" None None f0) as [ret s'].
  destruct H as (Hok & -> & _). split; [vm_compute; reflexivity | exact Hok].
Defined.

Lemma write_items_rollback_witness :
  dget (_by_instance (fst (_write_items [w_seg "c" "t1" "i"] f0 (Some 1) w_store))) "i"
  = dget (_by_instance w_store) "i".
Proof.
  pose proof (write_items_rollback w_store [w_seg "c" "t1" "i"] f0 1 w_store_ok) as H.
  destruct (_write_items [w_seg "c" "t1" "i"] f0 (Some 1) w_store) as [s' c]. apply H.
Defined.
