(* ===== verification/Generation.v ===== *)
(** * Preemptible generation ([dressage/proxy/generation_controller.py])

    Every call of [generate_preemptible], [pause], [shutdown] and [resume] is a
    coroutine on one event loop.  The model cuts each coroutine at its awaits:
    between two awaits a coroutine runs alone, so each piece is one atomic
    function on the shared controller, and a run is any interleaving of pieces.
    [_ActiveGeneration] objects are shared between the generating coroutine and
    the pausing one; they live in a heap indexed by request id.  The SGLang
    router (responses, errors, abort acknowledgements, readiness) is the
    environment and enters through the events. *)

From S2P Require Import Prelude.
From S2P Require Import PyFloat.
From S2P Require Import PyVal.
From Stdlib Require Import SpecFloat.

Local Open Scope string_scope.
Local Open Scope list_scope.

(** ** Data *)

Inductive gexn : Type :=
| ProxyShuttingDown
| GenerationPreempted
| GenerationStaleEpoch (expected_epoch current_epoch : Z)
| GenerationVersionUnavailable
| GenerationVersionMismatch (expected observed : string)
| BackendError (msg : string).

Definition _PREEMPT_FINISH_REASONS : list string :=
  ["abort"; "aborted"; "preempt"; "preempted"; "cancel"; "cancelled"; "canceled"].

(** [SGLangResponse] *)
Record Response : Type := {
  r_input_logprobs : list float;
  r_input_texts : list string;
  r_output_ids : list Z;
  r_output_logprobs : list float;
  r_output_texts : list string;
  r_text : string;
  r_meta : list (string * pyval);
  r_finish_reason : string;
  r_input_invalid : bool;
  r_all_invalid : bool;
  r_routed : option string }.

Record GenerationChunk : Type := {
  c_output_ids : list Z;
  c_output_logprobs : list float;
  c_output_texts : list string;
  c_text : string;
  c_version : string;
  c_finish_reason : string;
  c_preempted : bool }.

Record RoutedChunk : Type := {
  rc_data : string;
  rc_prefix_token_count : nat;
  rc_output_token_count : nat;
  rc_is_first_chunk : bool }.

Record PreemptibleGenerateResult : Type := {
  pr_input_ids : list Z;
  pr_input_logprobs : list float;
  pr_input_texts : list string;
  pr_output_ids : list Z;
  pr_output_logprobs : list float;
  pr_output_texts : list string;
  pr_output_versions : list string;
  pr_all_token_ids : list Z;
  pr_all_logprobs : list float;
  pr_text_parts : list string;
  pr_meta : list (string * pyval);
  pr_finish_reason : string;
  pr_all_invalid : bool;
  pr_rollout_epoch : option Z;
  pr_routed : list RoutedChunk;
  pr_chunks : list GenerationChunk }.

Inductive astate : Type := Running | Preempting | Quiesced.

(** [_ActiveGeneration]: the fields other coroutines read or write, and the
    request as it was sent. *)
Record ActiveGeneration : Type := {
  a_session_id : option string;
  a_instance_id : option string;
  a_turn_id : option string;
  a_input_ids : list Z;
  a_generated_ids_at_start : list Z;
  a_max_new_tokens : option Z;
  a_state : astate;
  a_abort_succeeded : bool;
  a_abort_error : option string;
  a_preempted_chunk_collected : bool;
  a_quiesced_event : bool }.

Record Controller : Type := {
  _partial_rollout : bool;
  _paused : bool;
  _pause_reason : option string;
  _resume_event : bool;
  _current_version : option string;
  _rollout_epoch : Z;
  _shutting_down : bool;
  _active : list string;
  _suspended_generations : Z;
  heap : gmap string ActiveGeneration }.

Definition Controller__init__ (partial : bool) : Controller :=
  {| _partial_rollout := partial; _paused := false; _pause_reason := None;
     _resume_event := true; _current_version := None; _rollout_epoch := 0;
     _shutting_down := false; _active := []; _suspended_generations := 0; heap := ∅ |}.

Definition set_active (c : Controller) (act : list string) (h : gmap string ActiveGeneration)
    : Controller :=
  {| _partial_rollout := _partial_rollout c; _paused := _paused c;
     _pause_reason := _pause_reason c; _resume_event := _resume_event c;
     _current_version := _current_version c; _rollout_epoch := _rollout_epoch c;
     _shutting_down := _shutting_down c; _active := act;
     _suspended_generations := _suspended_generations c; heap := h |}.

Definition set_suspended (c : Controller) (n : Z) : Controller :=
  {| _partial_rollout := _partial_rollout c; _paused := _paused c;
     _pause_reason := _pause_reason c; _resume_event := _resume_event c;
     _current_version := _current_version c; _rollout_epoch := _rollout_epoch c;
     _shutting_down := _shutting_down c; _active := _active c;
     _suspended_generations := n; heap := heap c |}.

Definition set_version (c : Controller) (v : option string) (epoch : Z) : Controller :=
  {| _partial_rollout := _partial_rollout c; _paused := _paused c;
     _pause_reason := _pause_reason c; _resume_event := _resume_event c;
     _current_version := v; _rollout_epoch := epoch;
     _shutting_down := _shutting_down c; _active := _active c;
     _suspended_generations := _suspended_generations c; heap := heap c |}.

Definition set_paused (c : Controller) (paused : bool) (reason : option string)
    (ev shutting : bool) : Controller :=
  {| _partial_rollout := _partial_rollout c; _paused := paused;
     _pause_reason := reason; _resume_event := ev;
     _current_version := _current_version c; _rollout_epoch := _rollout_epoch c;
     _shutting_down := shutting; _active := _active c;
     _suspended_generations := _suspended_generations c; heap := heap c |}.

(** ** [generate_preemptible] *)

Record GenArgs : Type := {
  ga_input_ids : list Z;
  ga_max_new_tokens : Z;
  ga_session_id : option string;
  ga_instance_id : option string;
  ga_turn_id : option string;
  ga_expected_version : option string;
  ga_expected_epoch : option Z;
  ga_logprob_start_len : Z;
  ga_context_window : option Z }.

(** The locals of the coroutine. *)
Record GenLocal : Type := {
  generated_ids : list Z;
  chunks : list GenerationChunk;
  input_logprobs : list float;
  input_texts : list string;
  output_ids : list Z;
  output_logprobs : list float;
  output_texts : list string;
  output_versions : list string;
  text_parts : list string;
  routed_chunks : list RoutedChunk;
  finish_reason : string;
  meta_info : list (string * pyval);
  all_logprobs_invalid : bool;
  rollout_epoch : option Z;
  input_logprobs_captured : bool }.

Definition expect_input_logprobs (a : GenArgs) : bool := (ga_logprob_start_len a =? 0)%Z.

Definition GenLocal_init (a : GenArgs) : GenLocal :=
  {| generated_ids := []; chunks := []; input_logprobs := []; input_texts := [];
     output_ids := []; output_logprobs := []; output_texts := []; output_versions := [];
     text_parts := []; routed_chunks := []; finish_reason := "stop"; meta_info := [];
     all_logprobs_invalid := false; rollout_epoch := None;
     input_logprobs_captured := negb (expect_input_logprobs a)
                                || Nat.eqb (length (ga_input_ids a)) 0 |}.

(** [while max_new_tokens <= 0 or len(generated_ids) < max_new_tokens] *)
Definition loop_condition (a : GenArgs) (l : GenLocal) : bool :=
  (ga_max_new_tokens a <=? 0)%Z
  || (Z.of_nat (length (generated_ids l)) <? ga_max_new_tokens a)%Z.

Definition stale_epoch (c : Controller) (a : GenArgs) : option gexn :=
  match ga_expected_epoch a with
  | Some e => if (_rollout_epoch c =? e)%Z then None
              else Some (GenerationStaleEpoch e (_rollout_epoch c))
  | None => None
  end.

(** [_raise_if_shutting_down(); _raise_if_stale_epoch(expected_epoch)] *)
Definition guard_running (c : Controller) (a : GenArgs) : option gexn :=
  if _shutting_down c then Some ProxyShuttingDown else stale_epoch c a.

(** [remaining], the budget [chunk_sampling_params] carries ([None]: unchanged). *)
Definition remaining (a : GenArgs) (l : GenLocal) : option Z :=
  if (ga_max_new_tokens a <=? 0)%Z then None
  else Some (ga_max_new_tokens a - Z.of_nat (length (generated_ids l)))%Z.

(** [_new_request_id], with [uuid] the fresh [uuid4().hex]. *)
Definition _new_request_id (session_id turn_id : option string) (uuid : string) : string :=
  let part (o : option string) :=
    match o with
    | Some s => if String.eqb s "" then "" else String.append "-" s
    | None => ""
    end in
  "dressage" +:+ part session_id +:+ part turn_id +:+ "-" +:+ uuid.

(** [chunk_logprob_start_len] *)
Definition chunk_logprob_start_len (a : GenArgs) (l : GenLocal) : Z :=
  if expect_input_logprobs a && negb (input_logprobs_captured l) then 0 else -1.

Definition new_active (a : GenArgs) (l : GenLocal) : ActiveGeneration :=
  {| a_session_id := ga_session_id a; a_instance_id := ga_instance_id a;
     a_turn_id := ga_turn_id a;
     a_input_ids := ga_input_ids a; a_generated_ids_at_start := generated_ids l;
     a_max_new_tokens := remaining a l;
     a_state := Running; a_abort_succeeded := false; a_abort_error := None;
     a_preempted_chunk_collected := false; a_quiesced_event := false |}.

Definition with_epoch (l : GenLocal) (e : Z) : GenLocal :=
  {| generated_ids := generated_ids l; chunks := chunks l; input_logprobs := input_logprobs l;
     input_texts := input_texts l; output_ids := output_ids l;
     output_logprobs := output_logprobs l; output_texts := output_texts l;
     output_versions := output_versions l; text_parts := text_parts l;
     routed_chunks := routed_chunks l; finish_reason := finish_reason l;
     meta_info := meta_info l; all_logprobs_invalid := all_logprobs_invalid l;
     rollout_epoch := match rollout_epoch l with None => Some e | some => some end;
     input_logprobs_captured := input_logprobs_captured l |}.

(** The prompt [/generate] is sent: [list(input_ids) + list(generated_ids)]. *)
Definition sent_prompt (g : ActiveGeneration) : list Z :=
  a_input_ids g ++ a_generated_ids_at_start g.

(** The response built when an accepted abort ends the request without payload. *)
Definition empty_preempted_response : Response :=
  {| r_input_logprobs := []; r_input_texts := []; r_output_ids := []; r_output_logprobs := [];
     r_output_texts := []; r_text := "";
     r_meta := [("finish_reason", PDict [("type", PStr "preempted")])];
     r_finish_reason := "preempted"; r_input_invalid := true; r_all_invalid := true;
     r_routed := None |}.

Section Absorb.
Context `{PyText}.

Definition _is_preempted (r : Response) : bool :=
  bool_decide (lower (r_finish_reason r) ∈ _PREEMPT_FINISH_REASONS)
  || bool_decide
       (match pget (r_meta r) "finish_reason" with
        | PDict d => lower (py_str (dget_def (PStr "") d "type"))
        | v => if py_truth v then lower (py_str v) else ""
        end ∈ _PREEMPT_FINISH_REASONS).

(** [response.weight_version], which already falls back to [meta_info]. *)
Definition _response_version (r : Response) : option string :=
  match pget (r_meta r) "weight_version" with
  | PNone => match pget (r_meta r) "version" with
             | PNone => None
             | v => Some (py_str v)
             end
  | v => Some (py_str v)
  end.

Definition version_error (a : GenArgs) (observed : option string) : option gexn :=
  match ga_expected_version a, observed with
  | None, _ => None
  | Some _, None => Some GenerationVersionUnavailable
  | Some e, Some o => if String.eqb o e then None else Some (GenerationVersionMismatch e o)
  end.

(** [observed_version or "unknown"] *)
Definition version_or_unknown (o : option string) : string :=
  match o with
  | Some v => if String.eqb v "" then "unknown" else v
  | None => "unknown"
  end.

Definition make_chunk (r : Response) (version : string) (preempted : bool) : GenerationChunk :=
  {| c_output_ids := r_output_ids r; c_output_logprobs := r_output_logprobs r;
     c_output_texts := r_output_texts r; c_text := r_text r; c_version := version;
     c_finish_reason := r_finish_reason r; c_preempted := preempted |}.

Definition take_input_logprobs (a : GenArgs) (l : GenLocal) (r : Response) : list float :=
  let resp := take (length (ga_input_ids a)) (r_input_logprobs r) in
  if negb (Nat.eqb (length resp) 0)
     && (Nat.eqb (length (input_logprobs l)) 0
         || (expect_input_logprobs a && negb (input_logprobs_captured l)
             && negb (r_input_invalid r)))
  then resp else input_logprobs l.

Definition now_captured (a : GenArgs) (l : GenLocal) (r : Response) : bool :=
  input_logprobs_captured l
  || (expect_input_logprobs a
      && Nat.eqb (length (take (length (ga_input_ids a)) (r_input_logprobs r)))
                 (length (ga_input_ids a))
      && negb (r_input_invalid r)).

(** The locals after the response's bookkeeping and the appended chunk. *)
Definition absorb (a : GenArgs) (l : GenLocal) (r : Response) (version : string)
    (preempted : bool) : GenLocal :=
  let prefix := (length (ga_input_ids a) + length (generated_ids l))%nat in
  let record_experts :=
    match r_routed r with
    | Some d => if negb (Nat.eqb (length (r_output_ids r)) 0) || negb preempted
                then [{| rc_data := d; rc_prefix_token_count := prefix;
                         rc_output_token_count := length (r_output_ids r);
                         rc_is_first_chunk := Nat.eqb prefix (length (ga_input_ids a)) |}]
                else []
    | None => []
    end in
  {| generated_ids := generated_ids l ++ r_output_ids r;
     chunks := chunks l ++ [make_chunk r version preempted];
     input_logprobs := take_input_logprobs a l r;
     input_texts := match input_texts l with
                    | [] => take (length (ga_input_ids a)) (r_input_texts r)
                    | t => t
                    end;
     output_ids := output_ids l ++ r_output_ids r;
     output_logprobs := output_logprobs l ++ r_output_logprobs r;
     output_texts := output_texts l ++ r_output_texts r;
     output_versions := output_versions l ++ replicate (length (r_output_ids r)) version;
     text_parts := text_parts l ++ [r_text r];
     routed_chunks := routed_chunks l ++ record_experts;
     finish_reason := r_finish_reason r;
     meta_info := dpop (r_meta r) "routed_experts";
     all_logprobs_invalid := all_logprobs_invalid l || r_all_invalid r;
     rollout_epoch := rollout_epoch l;
     input_logprobs_captured := now_captured a l r |}.
End Absorb.

(** [len(input_ids) + len(generated_ids) > context_window] *)
Definition context_overflow (a : GenArgs) (l : GenLocal) : bool :=
  match ga_context_window a with
  | Some w => (w <? Z.of_nat (length (ga_input_ids a) + length (generated_ids l)))%Z
  | None => false
  end.

Definition opt_val (o : option string) : pyval :=
  match o with Some s => PStr s | None => PNone end.

Definition overflow_meta (a : GenArgs) (l : GenLocal) : pyval :=
  let input := Z.of_nat (length (ga_input_ids a)) in
  let out := Z.of_nat (length (generated_ids l)) in
  PDict [("phase", PStr "input_output");
         ("context_window", match ga_context_window a with Some w => PInt w | None => PNone end);
         ("input_tokens", PInt input); ("output_tokens", PInt out);
         ("total_tokens", PInt (input + out)); ("max_tokens", PInt (ga_max_new_tokens a));
         ("session_id", opt_val (ga_session_id a)); ("turn_id", opt_val (ga_turn_id a));
         ("last_proxy_step_recorded", PBool false)].

Definition mark_overflow (a : GenArgs) (l : GenLocal) : GenLocal :=
  {| generated_ids := generated_ids l; chunks := chunks l; input_logprobs := input_logprobs l;
     input_texts := input_texts l; output_ids := output_ids l;
     output_logprobs := output_logprobs l; output_texts := output_texts l;
     output_versions := output_versions l; text_parts := text_parts l;
     routed_chunks := routed_chunks l; finish_reason := "length";
     meta_info := dset (meta_info l) "context_overflow" (overflow_meta a l);
     all_logprobs_invalid := all_logprobs_invalid l; rollout_epoch := rollout_epoch l;
     input_logprobs_captured := input_logprobs_captured l |}.

Definition _normalize_length {A} (values : list A) (size : nat) (default : A) : list A :=
  take size values ++ replicate (size - length values) default.

Definition chunk_meta (ch : GenerationChunk) : pyval :=
  PDict [("num_output_tokens", PInt (Z.of_nat (length (c_output_ids ch))));
         ("version", PStr (c_version ch)); ("finish_reason", PStr (c_finish_reason ch));
         ("preempted", PBool (c_preempted ch))].

(** The value returned after the loop. *)
Definition finish (a : GenArgs) (l : GenLocal) : PreemptibleGenerateResult :=
  let n := length (ga_input_ids a) in
  let full_input_logprobs := _normalize_length (input_logprobs l) n f0 in
  let m1 := dset (meta_info l) "partial_rollout_chunks" (PList (map chunk_meta (chunks l))) in
  let m2 := match last (output_versions l) with
            | Some v => dset m1 "weight_version" (PStr v)
            | None => m1
            end in
  {| pr_input_ids := ga_input_ids a;
     pr_input_logprobs := full_input_logprobs;
     pr_input_texts := _normalize_length (input_texts l) n "";
     pr_output_ids := output_ids l;
     pr_output_logprobs := output_logprobs l;
     pr_output_texts := output_texts l;
     pr_output_versions := output_versions l;
     pr_all_token_ids := ga_input_ids a ++ output_ids l;
     pr_all_logprobs := full_input_logprobs ++ output_logprobs l;
     pr_text_parts := text_parts l;
     pr_meta := m2;
     pr_finish_reason := finish_reason l;
     pr_all_invalid := all_logprobs_invalid l;
     pr_rollout_epoch := rollout_epoch l;
     pr_routed := routed_chunks l;
     pr_chunks := chunks l |}.

(** Where a generating coroutine waits. *)
Inductive gpoint : Type :=
| GLoop                               (* about to test the loop condition *)
| GLock (rid : string)                (* acquiring the lock to register [rid] *)
| GAwait (rid : string)               (* awaiting the response of [rid] *)
| GClose (rid : string) (preempted : bool)   (* chunk stored, acquiring the lock *)
| GCloseExn (rid : string) (e : gexn)        (* acquiring the lock before raising *)
| GSuspended                          (* preempted, waiting for resume *)
| GDone (r : PreemptibleGenerateResult)
| GFailed (e : gexn).

Record GenTask : Type := { gt_args : GenArgs; gt_local : GenLocal; gt_point : gpoint }.

Definition at_point (t : GenTask) (l : GenLocal) (p : gpoint) : GenTask :=
  {| gt_args := gt_args t; gt_local := l; gt_point := p |}.

Definition set_obj (g : ActiveGeneration) (st : astate) (ok : bool) (err : option string)
    (collected ev : bool) : ActiveGeneration :=
  {| a_session_id := a_session_id g; a_instance_id := a_instance_id g;
     a_turn_id := a_turn_id g; a_input_ids := a_input_ids g;
     a_generated_ids_at_start := a_generated_ids_at_start g;
     a_max_new_tokens := a_max_new_tokens g;
     a_state := st; a_abort_succeeded := ok; a_abort_error := err;
     a_preempted_chunk_collected := collected; a_quiesced_event := ev |}.

(** [async with self._pause_lock: self._active.pop(...); quiesce], with [collected]
    the new [preempted_chunk_collected] where the code assigns it. *)
Definition quiesce (c : Controller) (rid : string) (collected : option bool) : Controller :=
  set_active c (filter (fun r => r <> rid) (_active c))
    (alter (fun g => set_obj g Quiesced (a_abort_succeeded g) (a_abort_error g)
                       (default (a_preempted_chunk_collected g) collected) true)
           rid (heap c)).

Definition abort_flag (c : Controller) (rid : string) : bool :=
  match heap c !! rid with Some g => a_abort_succeeded g | None => false end.

Section GenStep.
Context `{PyText}.

(** The call itself: the argument checks before the first await. *)
Definition gen_start (c : Controller) (a : GenArgs) : GenTask :=
  {| gt_args := a; gt_local := GenLocal_init a;
     gt_point := if _shutting_down c then GFailed ProxyShuttingDown else GLoop |}.

(** From the loop test to the lock, with [rid] the new request id. *)
Definition gen_loop (c : Controller) (t : GenTask) (rid : string)
    : option (Controller * GenTask) :=
  let a := gt_args t in let l := gt_local t in
  if negb (loop_condition a l) then Some (c, at_point t l (GDone (finish a l)))
  else if negb (_resume_event c) then None
  else match guard_running c a with
       | Some e => Some (c, at_point t l (GFailed e))
       | None => Some (set_active c (_active c) (<[rid := new_active a l]> (heap c)),
                       at_point t l (GLock rid))
       end.

(** The registration under the lock. *)
Definition gen_register (c : Controller) (t : GenTask) (rid : string) : Controller * GenTask :=
  let a := gt_args t in let l := gt_local t in
  match guard_running c a with
  | Some e => (c, at_point t l (GFailed e))
  | None =>
      if _paused c then (c, at_point t l GLoop)
      else (set_active c (_active c ++ [rid]) (heap c),
            at_point t (with_epoch l (_rollout_epoch c)) (GAwait rid))
  end.

(** A response arrives: everything up to the closing lock. *)
Definition gen_response (c : Controller) (t : GenTask) (rid : string) (r : Response)
    (forced : bool) : Controller * GenTask :=
  let a := gt_args t in let l := gt_local t in
  let observed := _response_version r in
  match version_error a observed with
  | Some e => (c, at_point t l (GCloseExn rid e))
  | None =>
      let version := version_or_unknown observed in
      let c' := if String.eqb version "unknown" then c
                else set_version c (Some version) (_rollout_epoch c) in
      let preempted := forced || _is_preempted r in
      (c', at_point t (absorb a l r version preempted) (GClose rid preempted))
  end.

(** The request raised instead. *)
Definition gen_error (c : Controller) (t : GenTask) (rid : string) (e : gexn)
    : Controller * GenTask :=
  if _shutting_down c then (c, at_point t (gt_local t) (GCloseExn rid ProxyShuttingDown))
  else if negb (abort_flag c rid) then (c, at_point t (gt_local t) (GCloseExn rid e))
  else gen_response c t rid empty_preempted_response true.

(** The closing lock and the decision to return, raise or wait for resume. *)
Definition gen_close (c : Controller) (t : GenTask) (rid : string) (preempted : bool)
    : Controller * GenTask :=
  let a := gt_args t in let l := gt_local t in
  let c1 := quiesce c rid (Some preempted) in
  if preempted && negb (_partial_rollout c1)
  then (c1, at_point t l (GFailed GenerationPreempted))
  else if context_overflow a l
  then (c1, at_point t (mark_overflow a l) (GDone (finish a (mark_overflow a l))))
  else if negb preempted
  then (c1, at_point t l (GDone (finish a l)))
  else (set_suspended c1 (_suspended_generations c1 + 1), at_point t l GSuspended).

Definition gen_close_exn (c : Controller) (t : GenTask) (rid : string) (e : gexn)
    : Controller * GenTask :=
  (quiesce c rid None, at_point t (gt_local t) (GFailed e)).

(** Waking up from the suspension, with the [finally] decrement. *)
Definition gen_wake (c : Controller) (t : GenTask) : option (Controller * GenTask) :=
  if negb (_resume_event c) then None
  else
    let c' := set_suspended c (Z.max 0 (_suspended_generations c - 1)) in
    Some (c', at_point t (gt_local t)
                (if _shutting_down c then GFailed ProxyShuttingDown else GLoop)).
End GenStep.

(** ** [pause], [shutdown], [resume], [synchronize_version], [state] *)

(** What one abort request came back with: its payload or the exception's [repr]. *)
Inductive abort_result : Type := AbortOk (payload : pyval) | AbortErr (err : string).

Record PauseArgs : Type := {
  pa_shutdown : bool;            (* [shutdown] rather than [pause] *)
  pa_session_id : option string;
  pa_instance_id : option string;
  pa_reason : string;
  pa_timeout : bool }.           (* [timeout_seconds is not None] *)

Record PauseReport : Type := {
  rp_status : string;
  rp_quiesced : bool;
  rp_preempted : bool;
  rp_fallback : option string;
  rp_active_generations : nat;
  rp_suspended : Z;
  rp_version : option string;
  rp_attempted : list string;
  rp_succeeded : list string;
  rp_failed : list string;
  rp_errors : list (string * string);
  rp_preempted_ids : list string }.

Inductive ppoint : Type :=
| PLock                                              (* acquiring the lock *)
| PAbort (results : list (string * abort_result))    (* gathering the aborts *)
| PWait (results : list (string * abort_result))     (* [_wait_quiesced] *)
| PDone (r : PauseReport).

(** [pt_active] is the local list [active]; [pt_epoch] is a ghost: the rollout epoch
    when that list was taken. *)
Record PauseTask : Type := {
  pt_args : PauseArgs;
  pt_already : bool;
  pt_active : list string;
  pt_epoch : Z;
  pt_point : ppoint }.

Definition p_at (p : PauseTask) (pt : ppoint) : PauseTask :=
  {| pt_args := pt_args p; pt_already := pt_already p; pt_active := pt_active p;
     pt_epoch := pt_epoch p; pt_point := pt |}.

(** [session_id is None or item.session_id == session_id] *)
Definition selects (filter_id item_id : option string) : bool :=
  match filter_id with
  | None => true
  | Some _ => bool_decide (item_id = filter_id)
  end.

Definition pause_selects (a : PauseArgs) (h : gmap string ActiveGeneration) (rid : string)
    : bool :=
  pa_shutdown a ||
  match h !! rid with
  | Some g => selects (pa_session_id a) (a_session_id g)
              && selects (pa_instance_id a) (a_instance_id g)
  | None => false
  end.

Definition mark_preempting (h : gmap string ActiveGeneration) (rids : list string)
    : gmap string ActiveGeneration :=
  foldl (fun h rid =>
           alter (fun g => set_obj g Preempting (a_abort_succeeded g) (a_abort_error g)
                             (a_preempted_chunk_collected g) (a_quiesced_event g)) rid h)
        h rids.

(** The locked section that opens [pause] and [shutdown]. *)
Definition pause_begin (c : Controller) (p : PauseTask) : Controller * PauseTask :=
  let a := pt_args p in
  let active := List.filter (pause_selects a (heap c)) (_active c) in
  let c1 := if pa_shutdown a
            then set_paused c true (Some "shutdown") true true
            else set_paused c true (Some (pa_reason a)) false (_shutting_down c) in
  (set_active c1 (_active c1) (mark_preempting (heap c1) active),
   {| pt_args := a;
      pt_already := if pa_shutdown a then _shutting_down c else _paused c;
      pt_active := active; pt_epoch := _rollout_epoch c; pt_point := PAbort [] |}).

Definition set_abort (c : Controller) (rid : string) (ok : bool) (err : option string)
    : Controller :=
  set_active c (_active c)
    (alter (fun g => set_obj g (a_state g) ok
                       (match err with Some e => Some e | None => a_abort_error g end)
                       (a_preempted_chunk_collected g) (a_quiesced_event g)) rid (heap c)).

(** One [_abort_active_with_timeout] of the gather ends. *)
Definition pause_abort (c : Controller) (p : PauseTask) (rs : list (string * abort_result))
    (rid : string) (r : abort_result) : Controller * PauseTask :=
  (match r with AbortOk _ => set_abort c rid true None | AbortErr _ => c end,
   p_at p (PAbort (rs ++ [(rid, r)]))).

Definition collect_one (rs : list (string * abort_result)) (c : Controller) (rid : string)
    : Controller :=
  match dget rs rid with
  | Some (AbortOk _) => set_abort c rid true None
  | Some (AbortErr e) => set_abort c rid false (Some e)
  | None => c
  end.

(** The loop over [zip(active, abort_results)] ([shutdown] has none). *)
Definition pause_collect (c : Controller) (p : PauseTask) (rs : list (string * abort_result))
    : Controller * PauseTask :=
  (if pa_shutdown (pt_args p) then c else foldl (collect_one rs) c (pt_active p),
   p_at p (PWait rs)).

Definition is_quiesced (h : gmap string ActiveGeneration) (rid : string) : bool :=
  match h !! rid with Some g => a_quiesced_event g | None => false end.

Definition chunk_collected (h : gmap string ActiveGeneration) (rid : string) : bool :=
  match h !! rid with Some g => a_preempted_chunk_collected g | None => false end.

Definition abort_ok (rs : list (string * abort_result)) (rid : string) : bool :=
  match dget rs rid with Some (AbortOk _) => true | _ => false end.

Definition abort_failed (rs : list (string * abort_result)) (rid : string) : bool :=
  match dget rs rid with Some (AbortErr _) => true | _ => false end.

Definition abort_error_of (rs : list (string * abort_result)) (rid : string)
    : option (string * string) :=
  match dget rs rid with Some (AbortErr e) => Some (rid, e) | _ => None end.

(** The value both methods return, [quiesced] being [_wait_quiesced]'s. *)
Definition pause_report (c : Controller) (p : PauseTask) (rs : list (string * abort_result))
    (quiesced : bool) : PauseReport :=
  let a := pt_args p in
  let failed := List.filter (abort_failed rs) (pt_active p) in
  let preempted := List.filter (chunk_collected (heap c)) (pt_active p) in
  {| rp_status := if pa_shutdown a
                  then (if pt_already p then "already_shutting_down" else "shutting_down")
                  else (if pt_already p then "already_paused" else "paused");
     rp_quiesced := quiesced;
     rp_preempted := negb (Nat.eqb (length preempted) 0);
     rp_fallback := if negb (Nat.eqb (length failed) 0) && quiesced
                       && Nat.eqb (length preempted) 0
                    then Some "wait_natural_completion" else None;
     rp_active_generations :=
       if quiesced then 0%nat
       else length (List.filter (fun r => negb (is_quiesced (heap c) r)) (pt_active p));
     rp_suspended := _suspended_generations c;
     rp_version := _current_version c;
     rp_attempted := pt_active p;
     rp_succeeded := List.filter (abort_ok rs) (pt_active p);
     rp_failed := failed;
     rp_errors := omap (abort_error_of rs) (pt_active p);
     rp_preempted_ids := preempted |}.

(** [_wait_quiesced] returns [True] once every event is set, or [False] when the
    timeout (if there is one) fires first. *)
Definition pause_finish (c : Controller) (p : PauseTask) (rs : list (string * abort_result))
    (timed_out : bool) : option PauseTask :=
  if timed_out then
    if pa_timeout (pt_args p) && negb (Nat.eqb (length (pt_active p)) 0)
    then Some (p_at p (PDone (pause_report c p rs false))) else None
  else if forallb (is_quiesced (heap c)) (pt_active p)
  then Some (p_at p (PDone (pause_report c p rs true))) else None.

Inductive rstatus : Type := RShuttingDown | RNotReady | RResumed | RAlreadyRunning.

Inductive rpoint : Type :=
| RLock
| RReady                       (* awaiting [wait_until_ready], the lock held *)
| RDone (st : rstatus).

Record ResumeTask : Type := { rt_version : option string; rt_point : rpoint }.

(** The assignments that end a successful [resume]. *)
Definition resume_finish (c : Controller) (version : option string) (was_paused : bool)
    : Controller :=
  set_paused
    (set_version c (match version with Some v => Some v | None => _current_version c end)
       (if was_paused then _rollout_epoch c + 1 else _rollout_epoch c)%Z)
    false None true (_shutting_down c).

(** [resume] once it has the lock, [has_ready] telling whether the client offers
    [wait_until_ready]; the result says whether the lock stays held. *)
Definition resume_begin (c : Controller) (t : ResumeTask) (has_ready : bool)
    : Controller * ResumeTask * bool :=
  let to p := {| rt_version := rt_version t; rt_point := p |} in
  if _shutting_down c then (c, to (RDone RShuttingDown), false)
  else if _paused c
  then if has_ready then (c, to RReady, true)
       else (resume_finish c (rt_version t) true, to (RDone RResumed), false)
  else (resume_finish c (rt_version t) false, to (RDone RAlreadyRunning), false).

Definition resume_ready (c : Controller) (t : ResumeTask) (ready : bool)
    : Controller * ResumeTask :=
  let to p := {| rt_version := rt_version t; rt_point := p |} in
  if ready then (resume_finish c (rt_version t) true, to (RDone RResumed))
  else (c, to (RDone RNotReady)).

(** [synchronize_version]; the boolean is [status == "synchronized"]. *)
Definition synchronize_version (c : Controller) (version : string)
    : option (Controller * bool) :=
  let normalized := strip version in
  if String.eqb normalized "" then None
  else if negb (Nat.eqb (length (_active c)) 0) || _paused c || _shutting_down c
  then Some (c, false)
  else Some (set_version c (Some normalized)
               (if bool_decide (_current_version c = Some normalized)
                then _rollout_epoch c else _rollout_epoch c + 1)%Z, true).

(** ** The event loop *)

Record Sys : Type := {
  ctl : Controller;
  gens : list GenTask;
  pauses : list PauseTask;
  resumes : list ResumeTask;
  held : bool }.               (* some [resume] holds [_pause_lock] *)

Inductive event : Type :=
| ECall (a : GenArgs)
| ELoop (i : nat) (uuid : string)
| ERegister (i : nat)
| EResponse (i : nat) (r : Response)
| EError (i : nat) (e : string)
| EClose (i : nat)
| EWake (i : nat)
| EPause (a : PauseArgs)
| EPauseLock (j : nat)
| EAbort (j : nat) (rid : string) (r : abort_result)
| ECollect (j : nat)
| EPauseEnd (j : nat) (timed_out : bool)
| EResume (version : option string)
| EResumeLock (k : nat) (has_ready : bool)
| EReady (k : nat) (ready : bool)
| ESync (version : string).

Definition Sys_init (partial : bool) : Sys :=
  {| ctl := Controller__init__ partial; gens := []; pauses := []; resumes := [];
     held := false |}.

Definition put_gen (s : Sys) (i : nat) (ct : Controller * GenTask) : Sys :=
  {| ctl := fst ct; gens := <[i := snd ct]> (gens s); pauses := pauses s;
     resumes := resumes s; held := held s |}.

Definition put_pause (s : Sys) (j : nat) (cp : Controller * PauseTask) : Sys :=
  {| ctl := fst cp; gens := gens s; pauses := <[j := snd cp]> (pauses s);
     resumes := resumes s; held := held s |}.

Definition put_resume (s : Sys) (k : nat) (c : Controller) (t : ResumeTask) (h : bool) : Sys :=
  {| ctl := c; gens := gens s; pauses := pauses s; resumes := <[k := t]> (resumes s);
     held := h |}.

Section SysStep.
Context `{PyText}.

(** One generating coroutine runs to its next await. *)
Definition gen_event (s : Sys) (t : GenTask) (ev : event) : option (Controller * GenTask) :=
  let c := ctl s in
  match ev, gt_point t with
  | ELoop _ uuid, GLoop =>
      let rid := _new_request_id (ga_session_id (gt_args t)) (ga_turn_id (gt_args t)) uuid in
      if bool_decide (is_Some (heap c !! rid)) then None else gen_loop c t rid
  | ERegister _, GLock rid => if held s then None else Some (gen_register c t rid)
  | EResponse _ r, GAwait rid => Some (gen_response c t rid r (abort_flag c rid))
  | EError _ e, GAwait rid => Some (gen_error c t rid (BackendError e))
  | EClose _, GClose rid b => if held s then None else Some (gen_close c t rid b)
  | EClose _, GCloseExn rid e => if held s then None else Some (gen_close_exn c t rid e)
  | EWake _, GSuspended => gen_wake c t
  | _, _ => None
  end.

Definition pause_event (s : Sys) (p : PauseTask) (ev : event)
    : option (Controller * PauseTask) :=
  let c := ctl s in
  match ev, pt_point p with
  | EPauseLock _, PLock => if held s then None else Some (pause_begin c p)
  | EAbort _ rid r, PAbort rs =>
      if bool_decide (rid ∈ pt_active p) && negb (bool_decide (is_Some (dget rs rid)))
      then Some (pause_abort c p rs rid r) else None
  | ECollect _, PAbort rs =>
      if forallb (fun rid => bool_decide (is_Some (dget rs rid))) (pt_active p)
      then Some (pause_collect c p rs) else None
  | EPauseEnd _ timed_out, PWait rs =>
      p' ← pause_finish c p rs timed_out; Some (c, p')
  | _, _ => None
  end.

Definition sys_step (s : Sys) (ev : event) : option Sys :=
  let c := ctl s in
  match ev with
  | ECall a => Some {| ctl := c; gens := gens s ++ [gen_start c a]; pauses := pauses s;
                       resumes := resumes s; held := held s |}
  | ELoop i _ | ERegister i | EResponse i _ | EError i _ | EClose i | EWake i =>
      t ← gens s !! i; ct ← gen_event s t ev; Some (put_gen s i ct)
  | EPause a => Some {| ctl := c; gens := gens s;
                        pauses := pauses s ++ [{| pt_args := a; pt_already := false;
                                                  pt_active := []; pt_epoch := 0;
                                                  pt_point := PLock |}];
                        resumes := resumes s; held := held s |}
  | EPauseLock j | EAbort j _ _ | ECollect j | EPauseEnd j _ =>
      p ← pauses s !! j; cp ← pause_event s p ev; Some (put_pause s j cp)
  | EResume v => Some {| ctl := c; gens := gens s; pauses := pauses s;
                         resumes := resumes s ++ [{| rt_version := v; rt_point := RLock |}];
                         held := held s |}
  | EResumeLock k has_ready =>
      t ← resumes s !! k;
      match rt_point t with
      | RLock => if held s then None
                 else let '(c', t', h) := resume_begin c t has_ready in
                      Some (put_resume s k c' t' h)
      | _ => None
      end
  | EReady k ready =>
      t ← resumes s !! k;
      match rt_point t with
      | RReady => let '(c', t') := resume_ready c t ready in Some (put_resume s k c' t' false)
      | _ => None
      end
  | ESync v =>
      if held s then None
      else cb ← synchronize_version c v;
           Some {| ctl := fst cb; gens := gens s; pauses := pauses s; resumes := resumes s;
                   held := held s |}
  end.

Fixpoint run (s : Sys) (evs : list event) : option Sys :=
  match evs with
  | [] => Some s
  | ev :: rest => s' ← sys_step s ev; run s' rest
  end.
End SysStep.

(** ** Ownership of requests

    [own t] is the request a coroutine is responsible for, with a flag telling
    whether it is registered in [_active]. *)

Definition own (t : GenTask) : option (string * bool) :=
  match gt_point t with
  | GLock rid => Some (rid, false)
  | GAwait rid | GClose rid _ | GCloseExn rid _ => Some (rid, true)
  | _ => None
  end.

(** The request is sent (or about to be) and no response was absorbed yet. *)
Definition in_flight (t : GenTask) : bool :=
  match gt_point t with GLock _ | GAwait _ => true | _ => false end.

(** What the pausing side may not change in a shared object. *)
Definition obj_fixed (g g' : ActiveGeneration) : Prop :=
  a_session_id g' = a_session_id g /\ a_instance_id g' = a_instance_id g /\
  a_input_ids g' = a_input_ids g /\
  a_generated_ids_at_start g' = a_generated_ids_at_start g /\
  a_max_new_tokens g' = a_max_new_tokens g.

Definition heap_ext (h h' : gmap string ActiveGeneration) : Prop :=
  forall rid g, h !! rid = Some g ->
    exists g', h' !! rid = Some g' /\ obj_fixed g g' /\
               a_quiesced_event g' = a_quiesced_event g.

(** The shape of every atomic piece of [generate_preemptible]. *)
Inductive gen_effect (c : Controller) (t : GenTask) : Controller -> GenTask -> Prop :=
| GE_keep c' t' :
    own t' = own t -> _active c' = _active c -> heap c' = heap c ->
    gen_effect c t c' t'
| GE_alloc c' t' rid :
    own t = None -> own t' = Some (rid, false) -> heap c !! rid = None ->
    _active c' = _active c -> heap c' = <[rid := new_active (gt_args t) (gt_local t)]> (heap c) ->
    gen_effect c t c' t'
| GE_register c' t' rid :
    own t = Some (rid, false) -> own t' = Some (rid, true) -> _paused c = false ->
    _active c' = _active c ++ [rid] -> heap c' = heap c ->
    gen_effect c t c' t'
| GE_drop c' t' rid :
    own t = Some (rid, false) -> own t' = None ->
    _active c' = _active c -> heap c' = heap c ->
    gen_effect c t c' t'
| GE_close c' t' rid col :
    own t = Some (rid, true) -> own t' = None ->
    _active c' = _active (quiesce c rid col) -> heap c' = heap (quiesce c rid col) ->
    gen_effect c t c' t'.

(** Pieces of [generate_preemptible] touch none of the pause state. *)
Definition same_control (c c' : Controller) : Prop :=
  _partial_rollout c' = _partial_rollout c /\ _paused c' = _paused c /\
  _resume_event c' = _resume_event c /\ _rollout_epoch c' = _rollout_epoch c /\
  _shutting_down c' = _shutting_down c.

Definition step_frame (t t' : GenTask) : Prop :=
  gt_args t' = gt_args t /\
  (in_flight t' = true ->
   generated_ids (gt_local t') = generated_ids (gt_local t) /\
   (own t = None \/ in_flight t = true)).

Ltac frame_solve P :=
  unfold step_frame, in_flight, own; simpl; rewrite ?P; repeat split; auto; try discriminate.

Section Effects.
Context `{PyText}.

Lemma gen_response_effect c t rid r f c' t' :
  gt_point t = GAwait rid -> gen_response c t rid r f = (c', t') ->
  gen_effect c t c' t' /\ same_control c c' /\ step_frame t t'.
Proof.
  unfold gen_response; intros P E.
  destruct (version_error _ _); simplify_eq;
    (split; [apply GE_keep; unfold own; simpl; rewrite ?P; auto | frame_solve P]);
    destruct (String.eqb _ "unknown"); auto; repeat split; auto.
Qed.

Lemma gen_loop_effect c t rid c' t' :
  heap c !! rid = None -> gt_point t = GLoop -> gen_loop c t rid = Some (c', t') ->
  gen_effect c t c' t' /\ same_control c c' /\ step_frame t t'.
Proof.
  unfold gen_loop; intros F P E.
  destruct (loop_condition _ _); simpl in E.
  - destruct (_resume_event c) eqn:Er; simpl in E; [|done].
    destruct (guard_running _ _); simplify_eq; (split; [|frame_solve P]).
    + apply GE_keep; unfold own; by rewrite ?P.
    + eapply GE_alloc with (rid := rid); unfold own; simpl; by rewrite ?P.
  - simplify_eq. split; [|frame_solve P]. apply GE_keep; unfold own; by rewrite ?P.
Qed.

Lemma gen_register_effect c t rid c' t' :
  gt_point t = GLock rid -> gen_register c t rid = (c', t') ->
  gen_effect c t c' t' /\ same_control c c' /\ step_frame t t'.
Proof.
  unfold gen_register; intros P E.
  destruct (guard_running _ _); [|destruct (_paused c) eqn:Ep]; simplify_eq;
    (split; [|frame_solve P]).
  1,2: eapply GE_drop with (rid := rid); unfold own; by rewrite ?P.
  eapply GE_register with (rid := rid); unfold own; simpl; by rewrite ?P.
Qed.

Lemma gen_close_effect c t rid b c' t' :
  gt_point t = GClose rid b -> gen_close c t rid b = (c', t') ->
  gen_effect c t c' t' /\ same_control c c' /\ step_frame t t'.
Proof.
  unfold gen_close; intros P E.
  repeat case_match; simplify_eq; (split; [|frame_solve P]);
    (eapply GE_close with (rid := rid) (col := Some _); unfold own; simpl; by rewrite ?P).
Qed.

Lemma gen_event_effect s t ev c' t' :
  gen_event s t ev = Some (c', t') ->
  gen_effect (ctl s) t c' t' /\ same_control (ctl s) c' /\ step_frame t t'.
Proof.
  unfold gen_event; intros E.
  destruct ev; try (by destruct (gt_point t)); destruct (gt_point t) eqn:P; try done.
  - case_bool_decide as Hr; [done|]. apply eq_None_not_Some in Hr. eapply gen_loop_effect; eauto.
  - destruct (held s); [done|]. simplify_eq. by eapply gen_register_effect.
  - simplify_eq. eapply gen_response_effect; eauto.
  - unfold gen_error in E. injection E as E.
    destruct (_shutting_down (ctl s)); [|destruct (abort_flag (ctl s) rid); simpl in E].
    + simplify_eq. split; [|frame_solve P]. apply GE_keep; unfold own; by rewrite ?P.
    + eapply gen_response_effect; eauto.
    + simplify_eq. split; [|frame_solve P]. apply GE_keep; unfold own; by rewrite ?P.
  - destruct (held s); [done|]. simplify_eq. eapply gen_close_effect; eauto.
  - destruct (held s); [done|]. unfold gen_close_exn in E. simplify_eq.
    split; [|frame_solve P].
    eapply GE_close with (rid := rid) (col := None); unfold own; simpl; by rewrite ?P.
  - unfold gen_wake in E. destruct (_resume_event (ctl s)) eqn:Er; simpl in E; [|done].
    simplify_eq. split; [|frame_solve P].
    1: apply GE_keep; unfold own; rewrite ?P; simpl; auto.
    all: by destruct (_shutting_down (ctl s)).
Qed.
End Effects.

(** Pausing never removes or rewrites the fixed part of an object. *)
Lemma obj_fixed_refl g : obj_fixed g g.
Proof. by repeat split. Qed.

Lemma obj_fixed_trans g1 g2 g3 : obj_fixed g1 g2 -> obj_fixed g2 g3 -> obj_fixed g1 g3.
Proof. unfold obj_fixed. naive_solver congruence. Qed.

Lemma heap_ext_refl h : heap_ext h h.
Proof. intros rid g E. exists g. by repeat split. Qed.

Lemma heap_ext_trans h1 h2 h3 : heap_ext h1 h2 -> heap_ext h2 h3 -> heap_ext h1 h3.
Proof.
  intros A B rid g E. destruct (A rid g E) as (g' & E' & F & Q).
  destruct (B rid g' E') as (g'' & E'' & F' & Q').
  exists g''. split; [done|]. split; [by eapply obj_fixed_trans|congruence].
Qed.

Lemma heap_ext_alter h rid f :
  (forall g, obj_fixed g (f g) /\ a_quiesced_event (f g) = a_quiesced_event g) ->
  heap_ext h (alter f rid h).
Proof.
  intros F rid' g E. destruct (decide (rid = rid')) as [<-|D].
  - rewrite lookup_alter_eq, E. exists (f g). simpl. split; [done|]. apply F.
  - rewrite lookup_alter_ne by done. exists g. by repeat split.
Qed.

Lemma mark_preempting_ext rids : forall h, heap_ext h (mark_preempting h rids).
Proof.
  induction rids as [|r rids IH]; intros h; [apply heap_ext_refl|]. simpl.
  eapply heap_ext_trans; [|apply IH]. apply heap_ext_alter. by repeat split.
Qed.

Lemma set_abort_ext c rid ok err : heap_ext (heap c) (heap (set_abort c rid ok err)).
Proof. apply heap_ext_alter. by repeat split. Qed.

Lemma set_abort_control c rid ok err :
  same_control c (set_abort c rid ok err) /\
  _active (set_abort c rid ok err) = _active c /\
  _suspended_generations (set_abort c rid ok err) = _suspended_generations c.
Proof. by repeat split. Qed.

Lemma collect_fold rs rids : forall c,
  let c' := foldl (collect_one rs) c rids in
  heap_ext (heap c) (heap c') /\ same_control c c' /\ _active c' = _active c /\
  _suspended_generations c' = _suspended_generations c.
Proof.
  induction rids as [|r rids IH]; intros c; simpl.
  { split; [apply heap_ext_refl|by repeat split]. }
  destruct (IH (collect_one rs c r)) as (A & B & C & D).
  assert (S : heap_ext (heap c) (heap (collect_one rs c r)) /\ same_control c (collect_one rs c r)
    /\ _active (collect_one rs c r) = _active c
    /\ _suspended_generations (collect_one rs c r) = _suspended_generations c).
  { unfold collect_one. destruct (dget rs r) as [[]|];
      (split; [first [apply set_abort_ext | apply heap_ext_refl]|by repeat split]). }
  destruct S as (A' & B' & C' & D').
  split; [by eapply heap_ext_trans|]. unfold same_control in *. naive_solver congruence.
Qed.

(** ** The registry invariant *)

Definition obj_of (t : GenTask) (g : ActiveGeneration) : Prop :=
  a_quiesced_event g = false /\
  a_session_id g = ga_session_id (gt_args t) /\ a_instance_id g = ga_instance_id (gt_args t) /\
  a_input_ids g = ga_input_ids (gt_args t) /\
  (in_flight t = true ->
   a_generated_ids_at_start g = generated_ids (gt_local t) /\
   a_max_new_tokens g = remaining (gt_args t) (gt_local t)).

Record registry (act : list string) (h : gmap string ActiveGeneration) (gs : list GenTask)
    : Prop := {
  reg_nodup : NoDup act;
  reg_active : forall rid, rid ∈ act <->
    exists i t, gs !! i = Some t /\ own t = Some (rid, true);
  reg_unique : forall i j t u rid b b', gs !! i = Some t -> gs !! j = Some u ->
    own t = Some (rid, b) -> own u = Some (rid, b') -> i = j;
  reg_obj : forall i t rid b, gs !! i = Some t -> own t = Some (rid, b) ->
    exists g, h !! rid = Some g /\ obj_of t g }.

Lemma obj_of_fixed t g g' :
  obj_of t g -> obj_fixed g g' -> a_quiesced_event g' = a_quiesced_event g -> obj_of t g'.
Proof.
  intros (Q & S & I & N & F) (S' & I' & N' & G' & M') Q'. unfold obj_of.
  rewrite S', I', N', G', M', Q'. by repeat split; try apply F.
Qed.

Lemma registry_heap_ext act h h' gs :
  registry act h gs -> heap_ext h h' -> registry act h' gs.
Proof.
  intros [N A U O] X. split; auto.
  intros i t rid b Ht Ho. destruct (O i t rid b Ht Ho) as (g & E & F).
  destruct (X rid g E) as (g' & E' & F' & Q). exists g'. split; [done|].
  by eapply obj_of_fixed.
Qed.

Lemma registry_snoc act h gs t :
  own t = None -> registry act h gs -> registry act h (gs ++ [t]).
Proof.
  intros Z [N A U O].
  assert (L : forall i u rid b, (gs ++ [t]) !! i = Some u -> own u = Some (rid, b) ->
              gs !! i = Some u).
  { intros i u rid b E Eo. apply lookup_snoc_Some in E as [[_ E]|[_ <-]]; [done|congruence]. }
  split; auto.
  - intros rid. rewrite A. split; intros (i & u & E & Eo).
    + exists i, u. split; [by apply lookup_app_l_Some|done].
    + exists i, u. split; [by eapply L|done].
  - intros i j u v rid b b' E1 E2 O1 O2. eapply U; eauto.
  - intros i u rid b E Eo. eapply O; eauto.
Qed.

Lemma quiesced_not_active act h gs rid g :
  registry act h gs -> h !! rid = Some g -> a_quiesced_event g = true -> rid ∉ act.
Proof.
  intros R E Q I. apply (reg_active _ _ _ R) in I as (i & t & Et & Eo).
  destruct (reg_obj _ _ _ R _ _ _ _ Et Eo) as (g' & E' & Q' & _). congruence.
Qed.

Section RegistryStep.
Variables (c c' : Controller) (gs : list GenTask) (i : nat) (t t' : GenTask).
Hypothesis (Hi : gs !! i = Some t) (R : registry (_active c) (heap c) gs).

Local Lemma lookup_upd j u :
  <[i := t']> gs !! j = Some u -> (j = i /\ u = t') \/ (j <> i /\ gs !! j = Some u).
Proof using Hi. 
  intros E. apply list_lookup_insert_Some in E as [(E1 & E2 & _)|[D E]];
    [left; by split; symmetry|right; by split; [intros E'; apply D; symmetry|]].
Qed.

Local Lemma lookup_upd_self : <[i := t']> gs !! i = Some t'.
Proof using Hi.
  apply list_lookup_insert_eq. by eapply lookup_lt_Some.
Qed.

(** No other task owns what [t] owns. *)
Local Lemma other_owner j u rid b b' :
  j <> i -> gs !! j = Some u -> own t = Some (rid, b) -> own u <> Some (rid, b').
Proof using Hi R. intros D E Et Eu. apply D. by eapply (reg_unique _ _ _ R). Qed.

(** The active set after the update, from what happens to [t]'s own entry. *)
Local Lemma active_upd (act' : list string) :
  (forall rid, rid ∈ act' <->
     own t' = Some (rid, true) \/ (rid ∈ _active c /\ own t <> Some (rid, true))) ->
  forall rid, rid ∈ act' <->
    exists j u, <[i := t']> gs !! j = Some u /\ own u = Some (rid, true).
Proof using Hi R.
  intros H rid. rewrite H, (reg_active _ _ _ R). split.
  - intros [E|[(j & u & E & Eo) N]]; [by exists i, t'; rewrite lookup_upd_self|].
    exists j, u. rewrite list_lookup_insert_ne; [done|]. intros <-. congruence.
  - intros (j & u & E & Eo). apply lookup_upd in E as [[-> ->]|[D E]]; [by left|].
    right. split; [by exists j, u|]. intros Et. by eapply other_owner.
Qed.

Local Lemma unique_upd :
  (forall rid b, own t' = Some (rid, b) ->
     (exists b', own t = Some (rid, b')) \/ heap c !! rid = None) ->
  forall j k u v rid b b', <[i := t']> gs !! j = Some u -> <[i := t']> gs !! k = Some v ->
    own u = Some (rid, b) -> own v = Some (rid, b') -> j = k.
Proof using Hi R.
  intros H j k u v rid b b' E1 E2 O1 O2.
  assert (X : forall w n rid b b', n <> i -> gs !! n = Some w -> own t' = Some (rid, b) ->
              own w = Some (rid, b') -> False).
  { intros w n r0 b0 b1 Dn En Ot Ow. destruct (H _ _ Ot) as [[b'' E]|E].
    - by eapply (other_owner n w).
    - destruct (reg_obj _ _ _ R _ _ _ _ En Ow) as (g & Eg & _). congruence. }
  apply lookup_upd in E1 as [[-> ->]|[D1 E1]]; apply lookup_upd in E2 as [[-> ->]|[D2 E2]];
    [done|exfalso; eauto|exfalso; eauto|]. by eapply (reg_unique _ _ _ R).
Qed.

(** The object a task owns, where the step leaves the object in place. *)
Local Lemma frame_obj rid b b' g :
  own t = Some (rid, b) -> own t' = Some (rid, b') -> obj_of t g -> step_frame t t' -> obj_of t' g.
Proof.
  intros Et Et' (Q & S & I & N & G) [A F]. unfold obj_of. rewrite A.
  repeat split; auto; destruct (F ltac:(done)) as [Eg [|Ef]]; try congruence;
    destruct (G Ef) as [E1 E2]; unfold remaining in *; rewrite ?Eg; congruence.
Qed.

Local Lemma obj_upd (h' : gmap string ActiveGeneration) :
  (forall rid b, own t' = Some (rid, b) -> exists g, h' !! rid = Some g /\ obj_of t' g) ->
  (forall rid, (forall b, own t <> Some (rid, b)) -> is_Some (heap c !! rid) ->
     h' !! rid = heap c !! rid) ->
  forall j u rid b, <[i := t']> gs !! j = Some u -> own u = Some (rid, b) ->
    exists g, h' !! rid = Some g /\ obj_of u g.
Proof using Hi R.
  intros A B j u rid b E Eo. apply lookup_upd in E as [[-> ->]|[D E]]; [by eapply A|].
  destruct (reg_obj _ _ _ R _ _ _ _ E Eo) as (g & Eg & Og). exists g. split; [|done].
  rewrite B; [done| |by eauto]. intros b' Et. by eapply other_owner.
Qed.

Local Lemma owned_not_active rid : own t = Some (rid, false) -> rid ∉ _active c.
Proof using Hi R.
  intros Et I. apply (reg_active _ _ _ R) in I as (j & u & E & Eu).
  assert (j = i) as -> by (by eapply (reg_unique _ _ _ R)). congruence.
Qed.

(** The step keeps the object or the task owns nothing afterwards. *)
Local Lemma kept_obj rid b b' :
  step_frame t t' -> own t = Some (rid, b) -> own t' = Some (rid, b') ->
  exists g, heap c !! rid = Some g /\ obj_of t' g.
Proof using Hi R.
  intros Fr Et Et'. destruct (reg_obj _ _ _ R _ _ _ _ Hi Et) as (g & Eg & Og).
  exists g. split; [done|]. by eapply frame_obj.
Qed.

Lemma registry_step :
  step_frame t t' -> gen_effect c t c' t' -> registry (_active c') (heap c') (<[i := t']> gs).
Proof using Hi R.
  intros Fr X. inversion X as [c1 t1 Ho Ea Eh|c1 t1 rid Ho Ho' Hf Ea Eh|c1 t1 rid Ho Ho' Hp Ea Eh|
          c1 t1 rid Ho Ho' Ea Eh|c1 t1 rid col Ho Ho' Ea Eh]; subst c1 t1; rewrite Ea, Eh;
    split.
  (* keep *)
  - apply R.
  - apply active_upd. intros rid. rewrite Ho. split; [|intros [E|[I _]]; [|done]].
    + intros I. destruct (decide (own t = Some (rid, true))); tauto.
    + apply (reg_active _ _ _ R). eauto.
  - apply unique_upd. intros rid b E. left. rewrite <- Ho. eauto.
  - apply obj_upd; [|done]. intros rid b E. eapply kept_obj; [done| |done]. by rewrite <- Ho.
  (* alloc *)
  - apply R.
  - apply active_upd. intros r. rewrite Ho', Ho. naive_solver.
  - apply unique_upd. intros r b E. right. naive_solver.
  - apply obj_upd.
    + intros r b E. simplify_eq. eexists. rewrite lookup_insert_eq. split; [done|].
      destruct Fr as [Fa Ff]. unfold obj_of. rewrite Fa. repeat split; auto;
        destruct (Ff ltac:(done)) as [Eg _]; simpl; unfold remaining; by rewrite ?Eg.
    + intros r _ [g Eg]. rewrite lookup_insert_ne; [done|]. intros ->. congruence.
  (* register *)
  - apply NoDup_app. split; [apply R|]. split; [|apply NoDup_singleton].
    intros r Hr ->%list_elem_of_singleton. by eapply owned_not_active.
  - apply active_upd. intros r. rewrite Ho', Ho, elem_of_app, list_elem_of_singleton.
    naive_solver.
  - apply unique_upd. intros r b E. left. exists false. congruence.
  - apply obj_upd; [|done]. intros r b E. rewrite Ho' in E. injection E as <- <-.
    by eapply kept_obj.
  (* drop *)
  - apply R.
  - apply active_upd. intros r. rewrite Ho', Ho. naive_solver.
  - apply unique_upd. intros r b E. congruence.
  - apply obj_upd; [|done]. intros r b E. congruence.
  (* close *)
  - apply NoDup_filter, R.
  - apply active_upd. intros r. simpl. rewrite list_elem_of_filter, Ho', Ho. naive_solver.
  - apply unique_upd. intros r b E. congruence.
  - apply obj_upd; [intros r b E; congruence|]. intros r N _. simpl.
    rewrite lookup_alter_ne; [done|]. intros ->. by eapply N.
Qed.
End RegistryStep.

(** ** The pause invariant *)

Definition pause_ok (c : Controller) (p : PauseTask) : Prop :=
  pt_point p = PLock \/
  ((pt_epoch p <= _rollout_epoch c)%Z /\
   (pt_epoch p = _rollout_epoch c ->
    _paused c = true /\
    forall rid, rid ∈ _active c -> pause_selects (pt_args p) (heap c) rid = true ->
                rid ∈ pt_active p) /\
   (forall rid, rid ∈ pt_active p -> is_Some (heap c !! rid)) /\
   (forall r, pt_point p = PDone r -> rp_quiesced r = true ->
    forall rid, rid ∈ pt_active p -> is_quiesced (heap c) rid = true)).

(** How any step may change the controller, seen from a pause in progress. *)
Definition evolves (c c' : Controller) : Prop :=
  (_rollout_epoch c <= _rollout_epoch c')%Z /\
  (_rollout_epoch c = _rollout_epoch c' -> _paused c = true ->
   _paused c' = true /\ forall rid, rid ∈ _active c' -> rid ∈ _active c) /\
  (forall rid g, heap c !! rid = Some g ->
   exists g', heap c' !! rid = Some g' /\ obj_fixed g g' /\
     (a_quiesced_event g = true -> a_quiesced_event g' = true)).

Lemma pause_selects_fixed a h h' rid g g' :
  h !! rid = Some g -> h' !! rid = Some g' -> obj_fixed g g' ->
  pause_selects a h' rid = pause_selects a h rid.
Proof.
  intros E E' (S & I & _). unfold pause_selects. rewrite E, E'. by rewrite S, I.
Qed.

Lemma active_in_heap act h gs rid : registry act h gs -> rid ∈ act -> is_Some (h !! rid).
Proof.
  intros R I. apply (reg_active _ _ _ R) in I as (i & t & Et & Eo).
  destruct (reg_obj _ _ _ R _ _ _ _ Et Eo) as (g & E & _). eauto.
Qed.

Lemma pause_ok_evolves c c' gs p :
  registry (_active c) (heap c) gs -> evolves c c' -> pause_ok c p -> pause_ok c' p.
Proof.
  intros R (Ee & Ep & Eh) [L|(He & Hp & Hh & Hd)]; [by left|right].
  split; [lia|]. split; [|split].
  - intros E. assert (pt_epoch p = _rollout_epoch c) as E1 by lia.
    destruct (Hp E1) as [P S]. destruct (Ep ltac:(lia) P) as [P' A]. split; [done|].
    intros rid I Sel. apply S; [by apply A|].
    destruct (active_in_heap _ _ _ rid R (A rid I)) as [g Eg].
    destruct (Eh rid g Eg) as (g' & Eg' & F & _).
    by rewrite <- (pause_selects_fixed _ _ _ _ _ _ Eg Eg' F).
  - intros rid I. destruct (Hh rid I) as [g Eg].
    destruct (Eh rid g Eg) as (g' & Eg' & _). eauto.
  - intros r Er Q rid I. specialize (Hd r Er Q rid I). unfold is_quiesced in *.
    destruct (heap c !! rid) as [g|] eqn:Eg; [|done].
    destruct (Eh rid g Eg) as (g' & -> & _ & K). by apply K.
Qed.

Lemma evolves_ext c c' :
  same_control c c' -> _active c' = _active c -> heap_ext (heap c) (heap c') -> evolves c c'.
Proof.
  intros (_ & P & _ & E & _) A X. split; [lia|]. split.
  - rewrite P, A. auto.
  - intros rid g Eg. destruct (X rid g Eg) as (g' & Eg' & F & Q). exists g'.
    split; [done|]. split; [done|congruence].
Qed.

Lemma gen_effect_evolves c t c' t' :
  same_control c c' -> gen_effect c t c' t' -> evolves c c'.
Proof.
  intros SC X.
  inversion X as [c1 t1 Ho Ea Eh|c1 t1 rid Ho Ho' Hf Ea Eh|c1 t1 rid Ho Ho' Hp Ea Eh|
          c1 t1 rid Ho Ho' Ea Eh|c1 t1 rid col Ho Ho' Ea Eh]; subst c1 t1.
  1,4: apply evolves_ext; auto; rewrite Eh; apply heap_ext_refl.
  all: destruct SC as (_ & P & _ & E & _); (split; [lia|]; split).
  - rewrite P, Ea. auto.
  - intros r g Eg. exists g. rewrite Eh, lookup_insert_ne by congruence. by repeat split.
  - congruence.
  - intros r g Eg. exists g. rewrite Eh. by repeat split.
  - rewrite P, Ea. intros _ Hp. split; [done|]. intros r. simpl.
    rewrite list_elem_of_filter. tauto.
  - intros r g Eg. rewrite Eh. simpl. destruct (decide (rid = r)) as [<-|D].
    + rewrite lookup_alter_eq, Eg. eexists. by repeat split.
    + rewrite lookup_alter_ne by done. exists g. by repeat split.
Qed.

Lemma pause_begin_ok c p gs c' p' :
  registry (_active c) (heap c) gs -> pause_begin c p = (c', p') ->
  evolves c c' /\ pause_ok c' p' /\ heap_ext (heap c) (heap c') /\ _active c' = _active c.
Proof.
  intros R E. unfold pause_begin in E. simplify_eq.
  assert (X : heap_ext (heap c)
    (mark_preempting (heap c) (List.filter (pause_selects (pt_args p) (heap c)) (_active c))))
    by apply mark_preempting_ext.
  assert (Sub : forall rid, rid ∈ List.filter (pause_selects (pt_args p) (heap c)) (_active c)
            <-> rid ∈ _active c /\ pause_selects (pt_args p) (heap c) rid = true).
  { intros rid. rewrite !list_elem_of_In. apply filter_In. }
  split; [|split; [right|]].
  - split; [by destruct (pa_shutdown _)|]. split; [by destruct (pa_shutdown _)|].
    intros rid g Eg. destruct (X rid g Eg) as (g' & Eg' & F & Q). exists g'.
    by destruct (pa_shutdown _); simpl; rewrite Q.
  - simpl. split; [by destruct (pa_shutdown _)|]. split; [|split]; [| |done].
    + intros _. split; [by destruct (pa_shutdown _)|]. intros rid I S. apply Sub.
      assert (rid ∈ _active c) as I' by (by destruct (pa_shutdown _)). split; [done|].
      destruct (active_in_heap _ _ _ rid R I') as [g Eg].
      destruct (X rid g Eg) as (g' & Eg' & F & _).
      rewrite <- (pause_selects_fixed _ _ _ _ _ _ Eg Eg' F).
      by destruct (pa_shutdown (pt_args p)).
    + intros rid I. apply Sub in I as [I _]. destruct (active_in_heap _ _ _ rid R I) as [g Eg].
      destruct (X rid g Eg) as (g' & Eg' & _). exists g'. by destruct (pa_shutdown _).
  - by destruct (pa_shutdown (pt_args p)).
Qed.

(** Later pieces of a pause leave the registry alone and keep [pause_ok]. *)
Lemma pause_ok_move c p pt :
  pt_point p <> PLock ->
  (forall r, pt = PDone r -> rp_quiesced r = true ->
     forall rid, rid ∈ pt_active p -> is_quiesced (heap c) rid = true) ->
  pause_ok c p -> pause_ok c (p_at p pt).
Proof. intros N D [L|(A & B & C & _)]; [done|right]. by repeat split; try apply B. Qed.

Lemma pause_finish_ok c p rs b p' :
  pt_point p <> PLock -> pause_finish c p rs b = Some p' -> pause_ok c p -> pause_ok c p'.
Proof.
  intros N E O. unfold pause_finish in E.
  destruct b; [destruct (_ && _)|destruct (forallb _ _) eqn:F]; simplify_eq;
    apply pause_ok_move; auto; intros r [= <-] Q rid I; [done|].
  rewrite forallb_forall in F. apply F. by apply list_elem_of_In.
Qed.

(** ** The stitching invariant of one coroutine *)

Definition chunk_ids (chs : list GenerationChunk) : list Z := concat (map c_output_ids chs).

Definition chunk_versions (chs : list GenerationChunk) : list string :=
  concat (map (fun ch => replicate (length (c_output_ids ch)) (c_version ch)) chs).

(** A routed-experts record describes one chunk and the tokens before it. *)
Definition routed_at (a : GenArgs) (chs : list GenerationChunk) (rc : RoutedChunk) : Prop :=
  exists pre ch post, chs = pre ++ ch :: post /\
    rc_prefix_token_count rc = (length (ga_input_ids a) + length (chunk_ids pre))%nat /\
    rc_output_token_count rc = length (c_output_ids ch) /\
    (rc_is_first_chunk rc = true <-> chunk_ids pre = []).

Record stitched (a : GenArgs) (l : GenLocal) : Prop := {
  st_generated : generated_ids l = chunk_ids (chunks l);
  st_ids : output_ids l = chunk_ids (chunks l);
  st_logprobs : output_logprobs l = concat (map c_output_logprobs (chunks l));
  st_texts : output_texts l = concat (map c_output_texts (chunks l));
  st_versions : output_versions l = chunk_versions (chunks l);
  st_parts : text_parts l = map c_text (chunks l);
  st_routed : Forall (routed_at a (chunks l)) (routed_chunks l);
  st_pinned : forall v, ga_expected_version a = Some v ->
              Forall (fun ch => c_version ch = version_or_unknown (Some v)) (chunks l) }.

(** Where the coroutine is, against what it has collected. *)
Definition position_ok (partial : bool) (t : GenTask) : Prop :=
  let a := gt_args t in let l := gt_local t in
  let between := Forall (fun ch => c_preempted ch = true) (chunks l) /\
                 (partial = false -> chunks l = []) in
  let after (b : bool) := exists pre ch, chunks l = pre ++ [ch] /\ c_preempted ch = b /\
                   Forall (fun ch => c_preempted ch = true) pre /\
                   (partial = false -> pre = []) in
  match gt_point t with
  | GLoop | GLock _ | GSuspended => between
  | GAwait _ => between /\ rollout_epoch l <> None
  | GClose _ b => after b
  | GDone r => r = finish a l /\
      ((between /\ loop_condition a l = false) \/ after false \/
       (after true /\ partial = true /\ context_overflow a l = true))
  | GCloseExn _ _ | GFailed _ => True
  end.

Definition epoch_ok (epoch : Z) (t : GenTask) : Prop :=
  match rollout_epoch (gt_local t) with
  | Some e => (e <= epoch)%Z /\ (forall x, ga_expected_epoch (gt_args t) = Some x -> e = x)
  | None => chunks (gt_local t) = []
  end.

Definition task_ok (partial : bool) (epoch : Z) (t : GenTask) : Prop :=
  stitched (gt_args t) (gt_local t) /\ position_ok partial t /\ epoch_ok epoch t.

Lemma chunk_ids_snoc chs ch : chunk_ids (chs ++ [ch]) = chunk_ids chs ++ c_output_ids ch.
Proof. unfold chunk_ids. by rewrite map_app, concat_app; simpl; rewrite app_nil_r. Qed.

Lemma concat_map_snoc {A B} (f : A -> list B) l x :
  concat (map f (l ++ [x])) = concat (map f l) ++ f x.
Proof. by rewrite map_app, concat_app; simpl; rewrite app_nil_r. Qed.

Lemma routed_at_snoc a chs ch rc : routed_at a chs rc -> routed_at a (chs ++ [ch]) rc.
Proof.
  intros (pre & x & post & -> & H). exists pre, x, (post ++ [ch]). by rewrite <- app_assoc.
Qed.

Section TaskOk.
Context `{PyText}.

Lemma stitched_absorb a l r v b :
  stitched a l ->
  (forall e, ga_expected_version a = Some e -> v = version_or_unknown (Some e)) ->
  stitched a (absorb a l r v b).
Proof.
  intros [G I L T V P R N] Hv. split; simpl; try by rewrite ?chunk_ids_snoc; f_equal.
  1,2: rewrite concat_map_snoc; by f_equal.
  - unfold chunk_versions. rewrite concat_map_snoc. by f_equal.
  - rewrite map_app. by f_equal.
  - apply Forall_app. split; [eapply Forall_impl; [exact R|apply routed_at_snoc]|].
    destruct (r_routed r); [|constructor]. destruct (_ || _); constructor; [|constructor].
    exists (chunks l), (make_chunk r v b), []. simpl. rewrite <- G. repeat split; auto.
    + intros E%Nat.eqb_eq. apply nil_length_inv. lia.
    + intros ->. apply Nat.eqb_eq. simpl. lia.
  - intros e E. apply Forall_app. split; [by apply N|]. repeat constructor. by apply Hv.
Qed.

Lemma version_error_none a o :
  version_error a o = None ->
  forall e, ga_expected_version a = Some e -> version_or_unknown o = version_or_unknown (Some e).
Proof.
  unfold version_error. intros E e Ee. rewrite Ee in E. destruct o as [o|]; [|done].
  destruct (String.eqb_spec o e); [by subst|done].
Qed.

Lemma gen_response_task c t rid r f c' t' p e :
  gt_point t = GAwait rid -> gen_response c t rid r f = (c', t') ->
  task_ok p e t -> task_ok p e t'.
Proof.
  unfold gen_response, task_ok, position_ok, epoch_ok. intros P E (S & Q & X). rewrite P in Q.
  destruct Q as [[Q1 Q2] Q3]. destruct (version_error _ _) eqn:V; simplify_eq; simpl.
  { split; [done|]. by split. }
  split; [|split].
  - apply stitched_absorb; [done|]. by apply version_error_none.
  - eexists (chunks (gt_local t)), _. split; [done|]. by repeat split.
  - by destruct (rollout_epoch (gt_local t)).
Qed.

Lemma gen_loop_task c t rid c' t' e :
  gt_point t = GLoop -> gen_loop c t rid = Some (c', t') ->
  task_ok (_partial_rollout c) e t -> task_ok (_partial_rollout c) e t'.
Proof.
  unfold gen_loop, task_ok, position_ok, epoch_ok. intros P E (S & Q & X). rewrite P in Q.
  destruct (loop_condition _ _) eqn:L; simpl in E; [|simplify_eq; simpl; by auto 10].
  destruct (_resume_event c); simpl in E; [|done].
  destruct (guard_running _ _); simplify_eq; simpl; auto.
Qed.

Lemma gen_register_task c t rid c' t' :
  gt_point t = GLock rid -> gen_register c t rid = (c', t') ->
  task_ok (_partial_rollout c) (_rollout_epoch c) t ->
  task_ok (_partial_rollout c) (_rollout_epoch c) t'.
Proof.
  unfold gen_register, task_ok, position_ok, epoch_ok. intros P E (S & Q & X). rewrite P in Q.
  destruct (guard_running _ _) eqn:G; [simplify_eq; simpl; auto|].
  destruct (_paused c); simplify_eq; simpl; [auto|].
  split; [destruct S; by split|]. destruct (rollout_epoch (gt_local t)); [done|].
  split; [done|]. split; [lia|]. intros x Ex.
  unfold guard_running, stale_epoch in G. rewrite Ex in G.
  destruct (_shutting_down c); [done|]. by destruct (Z.eqb_spec (_rollout_epoch c) x).
Qed.

Lemma gen_close_task c t rid b c' t' e :
  gt_point t = GClose rid b -> gen_close c t rid b = (c', t') ->
  task_ok (_partial_rollout c) e t -> task_ok (_partial_rollout c) e t'.
Proof.
  unfold gen_close, task_ok, position_ok, epoch_ok. intros P E (S & Q & X). rewrite P in Q.
  simpl in E. destruct (b && negb _) eqn:B1; [simplify_eq; simpl; by auto|].
  destruct (context_overflow _ _) eqn:O.
  - simplify_eq; simpl. split; [destruct S; by split|]. split; [|done]. split; [done|].
    right. destruct b; [right|by left]. split; [done|]. split; [|done].
    by destruct (_partial_rollout c).
  - destruct b; simpl in *; simplify_eq; simpl.
    + split; [done|]. split; [|done]. destruct Q as (pre & ch & -> & Hc & F & N).
      split; [apply Forall_app; by repeat constructor|].
      by destruct (_partial_rollout c).
    + split; [done|]. split; [|done]. split; [done|]. by right; left.
Qed.

Lemma gen_event_task s t ev c' t' :
  gen_event s t ev = Some (c', t') ->
  task_ok (_partial_rollout (ctl s)) (_rollout_epoch (ctl s)) t ->
  task_ok (_partial_rollout (ctl s)) (_rollout_epoch (ctl s)) t'.
Proof.
  unfold gen_event; intros E O.
  destruct ev; try (by destruct (gt_point t)); destruct (gt_point t) eqn:P; try done.
  - case_bool_decide; [done|]. by eapply gen_loop_task.
  - destruct (held s); [done|]. simplify_eq. by eapply gen_register_task.
  - simplify_eq. by eapply gen_response_task.
  - unfold gen_error in E. injection E as E.
    destruct (_shutting_down (ctl s)); [|destruct (abort_flag (ctl s) rid); simpl in E].
    2: by eapply gen_response_task.
    all: simplify_eq; unfold task_ok, position_ok, epoch_ok in *; rewrite P in O; simpl; tauto.
  - destruct (held s); [done|]. simplify_eq. by eapply gen_close_task.
  - destruct (held s); [done|]. unfold gen_close_exn in E. simplify_eq.
    unfold task_ok, position_ok, epoch_ok in *; simpl; tauto.
  - unfold gen_wake in E. destruct (_resume_event (ctl s)); simpl in E; [|done]. simplify_eq.
    unfold task_ok, position_ok, epoch_ok in *. rewrite P in O.
    destruct (_shutting_down (ctl s)); simpl; tauto.
Qed.

Lemma gen_start_task c a p e : task_ok p e (gen_start c a).
Proof.
  unfold task_ok, position_ok, epoch_ok, gen_start; simpl.
  split; [split; simpl; auto; constructor|]. split; [|done].
  destruct (_shutting_down c); simpl; auto.
Qed.

Lemma task_ok_epoch p e e' t : (e <= e')%Z -> task_ok p e t -> task_ok p e' t.
Proof.
  intros L (S & Q & X). split; [done|]. split; [done|]. unfold epoch_ok in *.
  destruct (rollout_epoch _); [|done]. destruct X. split; [lia|done].
Qed.
End TaskOk.

(** ** The invariant of the whole controller *)

Definition suspended (t : GenTask) : bool :=
  match gt_point t with GSuspended => true | _ => false end.

Definition awaiting_ready (t : ResumeTask) : bool :=
  match rt_point t with RReady => true | _ => false end.

Record sys_inv (s : Sys) : Prop := {
  inv_reg : registry (_active (ctl s)) (heap (ctl s)) (gens s);
  inv_pause : Forall (pause_ok (ctl s)) (pauses s);
  inv_susp : _suspended_generations (ctl s) = Z.of_nat (count_by suspended (gens s));
  inv_task : Forall (task_ok (_partial_rollout (ctl s)) (_rollout_epoch (ctl s))) (gens s);
  inv_lock : count_by awaiting_ready (resumes s) = Nat.b2n (held s);
  inv_held : held s = true -> _shutting_down (ctl s) = false }.

Lemma Forall_insert_impl {A} (P Q : A -> Prop) (l : list A) i x :
  (forall y, P y -> Q y) -> Q x -> Forall P l -> Forall Q (<[i := x]> l).
Proof.
  intros I Hx F. apply Forall_insert; [|done]. eapply Forall_impl; [exact F|]. auto.
Qed.

Local Arguments gen_event : simpl never.
Local Arguments pause_event : simpl never.

Section Inv.
Context `{PyText}.

Lemma sys_inv_init p : sys_inv (Sys_init p).
Proof.
  split; simpl; auto. split; simpl; try done; [constructor|].
  intros rid. split; [by intros ?%elem_of_nil|by intros (? & ? & ? & _)].
Qed.

Lemma gen_event_suspended s t ev c' t' :
  gen_event s t ev = Some (c', t') ->
  (suspended t = true -> (1 <= _suspended_generations (ctl s))%Z) ->
  (_suspended_generations c' + Z.b2z (suspended t) =
   _suspended_generations (ctl s) + Z.b2z (suspended t'))%Z.
Proof.
  unfold gen_event; intros E L.
  assert (R : forall c rid r f c1 t1, gt_point t = GAwait rid ->
      gen_response c t rid r f = (c1, t1) ->
      suspended t1 = false /\ _suspended_generations c1 = _suspended_generations c).
  { unfold gen_response. intros c rid r f c1 t1 P E1.
    destruct (version_error _ _); simplify_eq; [done|]. by destruct (String.eqb _ "unknown"). }
  destruct ev; try (by destruct (gt_point t)); unfold suspended in L |- * at 1;
    destruct (gt_point t) eqn:P; try done.
  - case_bool_decide; [done|]. unfold gen_loop in E.
    destruct (loop_condition _ _); simpl in E; [|by simplify_eq].
    destruct (_resume_event _); simpl in E; [|done]. by destruct (guard_running _ _); simplify_eq.
  - destruct (held s); [done|]. unfold gen_register in E.
    by destruct (guard_running _ _); [|destruct (_paused _)]; simplify_eq.
  - injection E as E. destruct (R _ _ _ _ _ _ eq_refl E) as [-> ->]. done.
  - unfold gen_error in E. injection E as E.
    destruct (_shutting_down (ctl s)); [by simplify_eq|].
    destruct (abort_flag (ctl s) rid); simpl in E; [|by simplify_eq].
    destruct (R _ _ _ _ _ _ eq_refl E) as [-> ->]. done.
  - destruct (held s); [done|]. unfold gen_close in E. simpl in E.
    repeat case_match; simplify_eq; simpl; lia.
  - destruct (held s); [done|]. unfold gen_close_exn in E. by simplify_eq.
  - unfold gen_wake in E. destruct (_resume_event _); simpl in E; [|done]. simplify_eq.
    specialize (L eq_refl). simpl. destruct (_shutting_down _); simpl; lia.
Qed.

Lemma inv_gen s i t ev c' t' :
  gens s !! i = Some t -> gen_event s t ev = Some (c', t') -> sys_inv s ->
  sys_inv (put_gen s i (c', t')).
Proof.
  intros Hi E [R P S T K Hh]. pose proof (gen_event_effect _ _ _ _ _ E) as (X & SC & F).
  pose proof (gen_effect_evolves _ _ _ _ SC X) as Ev.
  assert (Hp : suspended t = true -> (1 <= _suspended_generations (ctl s))%Z).
  { intros Hs. rewrite S. pose proof (count_by_pos _ _ _ _ Hi Hs). lia. }
  pose proof (gen_event_suspended _ _ _ _ _ E Hp) as Sn.
  destruct SC as (S1 & S2 & S3 & S4 & S5). split; simpl; auto.
  - by eapply registry_step.
  - eapply Forall_impl; [exact P|]. intros p. by eapply pause_ok_evolves.
  - pose proof (count_by_insert suspended _ _ _ t' Hi) as C.
    destruct (suspended t), (suspended t'); simpl in *; lia.
  - rewrite S1, S4. apply Forall_insert; [done|]. eapply gen_event_task; [done|].
    by eapply (Forall_lookup_1 _ _ _ _ T).
  - by rewrite S5.
Qed.

Lemma inv_pause_step s j p ev c' p' :
  pauses s !! j = Some p -> pause_event s p ev = Some (c', p') -> sys_inv s ->
  sys_inv (put_pause s j (c', p')).
Proof.
  intros Hj E [R P S T K Hh].
  assert (Main : evolves (ctl s) c' /\ pause_ok c' p' /\ heap_ext (heap (ctl s)) (heap c') /\
    _active c' = _active (ctl s) /\ _suspended_generations c' = _suspended_generations (ctl s) /\
    _partial_rollout c' = _partial_rollout (ctl s) /\ _rollout_epoch c' = _rollout_epoch (ctl s) /\
    (held s = true -> _shutting_down c' = _shutting_down (ctl s))).
  { pose proof (Forall_lookup_1 _ _ _ _ P Hj) as Op. unfold pause_event in E.
    destruct ev; try (by destruct (pt_point p)); destruct (pt_point p) eqn:Pt; try done.
    - destruct (held s); [done|]. apply (inj Some) in E.
      destruct (pause_begin_ok _ _ _ _ _ R E) as (A & B & C & D).
      unfold pause_begin in E. simplify_eq. by destruct (pa_shutdown (pt_args p)).
    - destruct (_ && _); [|done]. unfold pause_abort in E. injection E as Ec Ep.
      assert (heap_ext (heap (ctl s)) (heap c') /\ same_control (ctl s) c' /\
              _active c' = _active (ctl s) /\
              _suspended_generations c' = _suspended_generations (ctl s)) as (A & B & C & D).
      { destruct r; subst c'; (split; [first [apply set_abort_ext|apply heap_ext_refl]|]);
          by repeat split. }
      pose proof (evolves_ext _ _ B C A) as Ev. destruct B as (B1 & B2 & B3 & B4 & B5).
      subst p'. split; [done|]. split; [|done]. apply pause_ok_move; [by rewrite Pt|done|].
      by eapply pause_ok_evolves.
    - destruct (forallb _ _); [|done]. unfold pause_collect in E. injection E as Ec Ep.
      assert (heap_ext (heap (ctl s)) (heap c') /\ same_control (ctl s) c' /\
              _active c' = _active (ctl s) /\
              _suspended_generations c' = _suspended_generations (ctl s)) as (A & B & C & D).
      { destruct (pa_shutdown (pt_args p)); subst c';
          [split; [apply heap_ext_refl|by repeat split]|apply collect_fold]. }
      pose proof (evolves_ext _ _ B C A) as Ev. destruct B as (B1 & B2 & B3 & B4 & B5).
      subst p'. split; [done|]. split; [|done]. apply pause_ok_move; [by rewrite Pt|done|].
      by eapply pause_ok_evolves.
    - destruct (pause_finish _ _ _ _) as [q|] eqn:F; simpl in E; [|done]. injection E as <- <-.
      assert (evolves (ctl s) (ctl s)) by (apply evolves_ext; [by repeat split|done|apply heap_ext_refl]).
      split; [done|]. split; [eapply pause_finish_ok; eauto; by rewrite Pt|].
      split; [apply heap_ext_refl|done]. }
  destruct Main as (Ev & Op & X & A & Sn & Pr & Ep & Sh). split; simpl; auto.
  - rewrite A. by eapply registry_heap_ext.
  - eapply Forall_insert_impl; [|exact Op|exact P]. intros q. by eapply pause_ok_evolves.
  - congruence.
  - by rewrite Pr, Ep.
  - intros Hs. rewrite (Sh Hs). auto.
Qed.

(** Steps of [resume] and [synchronize_version] change only flags, version and epoch. *)
Lemma inv_control s c' rs h :
  sys_inv s -> evolves (ctl s) c' ->
  _active c' = _active (ctl s) -> heap c' = heap (ctl s) ->
  _suspended_generations c' = _suspended_generations (ctl s) ->
  _partial_rollout c' = _partial_rollout (ctl s) ->
  count_by awaiting_ready rs = Nat.b2n h -> (h = true -> _shutting_down c' = false) ->
  sys_inv {| ctl := c'; gens := gens s; pauses := pauses s; resumes := rs; held := h |}.
Proof.
  intros [R P S T K Hh] Ev A Hp Sn Pr C Sd. split; simpl; auto.
  - by rewrite A, Hp.
  - eapply Forall_impl; [exact P|]. intros p. by eapply pause_ok_evolves.
  - congruence.
  - rewrite Pr. eapply Forall_impl; [exact T|]. intros t. apply task_ok_epoch, Ev.
Qed.

Lemma evolves_refl c : evolves c c.
Proof. apply evolves_ext; [by repeat split|done|apply heap_ext_refl]. Qed.

Lemma resume_finish_evolves c v w : w = _paused c \/ w = true -> evolves c (resume_finish c v w).
Proof.
  intros W. split; [simpl; destruct w; lia|]. split; simpl.
  - destruct w; [lia|]. intros _ Hp. destruct W; congruence.
  - intros rid g E. exists g. by repeat split.
Qed.

Lemma inv_resume_begin s k t hr c' t' h :
  resumes s !! k = Some t -> rt_point t = RLock -> held s = false ->
  resume_begin (ctl s) t hr = (c', t', h) -> sys_inv s -> sys_inv (put_resume s k c' t' h).
Proof.
  intros Hk Pt Hh E I. unfold put_resume.
  assert (C : forall t', (count_by awaiting_ready (<[k := t']> (resumes s)))%nat
              = Nat.b2n (awaiting_ready t')).
  { intros u. pose proof (count_by_insert awaiting_ready _ _ _ u Hk) as C.
    rewrite (inv_lock _ I), Hh in C. unfold awaiting_ready at 2 in C. rewrite Pt in C.
    simpl in C. lia. }
  unfold resume_begin in E.
  destruct (_shutting_down (ctl s)) eqn:Sd;
    [|destruct (_paused (ctl s)) eqn:Pa; [destruct hr|]]; simplify_eq; apply inv_control;
    try done; try (by rewrite C); try apply evolves_refl; apply resume_finish_evolves; auto.
Qed.

Lemma inv_resume_ready s k t b c' t' :
  resumes s !! k = Some t -> rt_point t = RReady ->
  resume_ready (ctl s) t b = (c', t') -> sys_inv s -> sys_inv (put_resume s k c' t' false).
Proof.
  intros Hk Pt E I. unfold put_resume.
  assert (C : awaiting_ready t' = false ->
              (count_by awaiting_ready (<[k := t']> (resumes s)))%nat = 0%nat).
  { intros Ht'. pose proof (count_by_insert awaiting_ready _ _ _ t' Hk) as C.
    rewrite (inv_lock _ I), Ht' in C. unfold awaiting_ready at 2 in C. rewrite Pt in C.
    simpl in C. destruct (held s); simpl in C; lia. }
  unfold resume_ready in E. destruct b; simplify_eq; apply inv_control; try done;
    try (by rewrite C); [apply resume_finish_evolves; auto|apply evolves_refl].
Qed.

Lemma inv_sync s v c' b :
  synchronize_version (ctl s) v = Some (c', b) -> sys_inv s ->
  sys_inv {| ctl := c'; gens := gens s; pauses := pauses s; resumes := resumes s;
             held := held s |}.
Proof.
  intros E I. unfold synchronize_version in E.
  destruct (String.eqb _ ""); [done|]. destruct (_ || _ || _) eqn:B; simplify_eq;
    apply inv_control; try done; try apply (inv_lock _ I); try apply (inv_held _ I);
    try apply evolves_refl.
  bool_hyps. split; [simpl; case_bool_decide; lia|]. split; [simpl; congruence|].
  intros rid g E. exists g. by repeat split.
Qed.

Lemma inv_step s ev s' : sys_step s ev = Some s' -> sys_inv s -> sys_inv s'.
Proof.
  intros E I.
  destruct ev; simpl in E;
    try (destruct (gens s !! i) as [t|] eqn:Hi; simpl in E; [|done]).
  1: { simplify_eq. destruct I as [R P S T K Hh]. split; simpl; auto.
       - apply registry_snoc; [|done]. unfold own, gen_start. simpl. by destruct (_shutting_down _).
       - rewrite count_by_app, S. unfold count_by at 3, gen_start, suspended. simpl.
         destruct (_shutting_down _); simpl; lia.
       - apply Forall_app. split; [done|]. apply Forall_singleton, gen_start_task. }
  all: try (match type of E with (?x ≫= _) = _ => destruct x as [[c' t']|] eqn:Eg; simpl in E; [|done] end;
            simplify_eq; by eapply inv_gen).
  all: try (destruct (pauses s !! j) as [p|] eqn:Hj; simpl in E; [|done];
            match type of E with (?x ≫= _) = _ => destruct x as [[c' t']|] eqn:Eg; simpl in E; [|done] end;
            simplify_eq; by eapply inv_pause_step).
  - simplify_eq. destruct I as [R P S T K Hh]. split; simpl; auto.
    apply Forall_app. split; [done|]. apply Forall_singleton. by left.
  - simplify_eq. destruct I as [R P S T K Hh]. split; simpl; auto.
    by rewrite count_by_app, K, Nat.add_0_r.
  - destruct (resumes s !! k) as [t|] eqn:Hk; simpl in E; [|done].
    destruct (rt_point t) eqn:Pt; try done. destruct (held s) eqn:Hh; [done|].
    destruct (resume_begin _ _ _) as [[c' t'] h] eqn:Er. simplify_eq.
    by eapply inv_resume_begin.
  - destruct (resumes s !! k) as [t|] eqn:Hk; simpl in E; [|done].
    destruct (rt_point t) eqn:Pt; try done.
    destruct (resume_ready _ _ _) as [c' t'] eqn:Er. simplify_eq. by eapply inv_resume_ready.
  - destruct (held s) eqn:Hh; [done|].
    destruct (synchronize_version _ _) as [[c' b]|] eqn:Ev; simpl in E; [|done].
    simplify_eq. rewrite <- Hh. by eapply inv_sync.
Qed.

Lemma inv_run evs : forall s s', run s evs = Some s' -> sys_inv s -> sys_inv s'.
Proof.
  induction evs as [|ev evs IH]; intros s s' E I; simpl in E; [by simplify_eq|].
  destruct (sys_step s ev) as [s1|] eqn:E1; simpl in E; [|done].
  eapply IH; [exact E|]. by eapply inv_step.
Qed.

Lemma reachable_inv p evs s : run (Sys_init p) evs = Some s -> sys_inv s.
Proof. intros E. eapply inv_run; [exact E|apply sys_inv_init]. Qed.
End Inv.

(** ** A suspended generation the shutdown cannot reach *)

Definition starts_shutdown (ev : event) : bool :=
  match ev with EPause a => pa_shutdown a | _ => false end.

(** [_shutting_down] with [_resume_event] cleared, nothing left that would set it. *)
Record stranded (s : Sys) (i : nat) (t : GenTask) : Prop := {
  sd_down : _shutting_down (ctl s) = true;
  sd_event : _resume_event (ctl s) = false;
  sd_held : Forall (fun r => awaiting_ready r = false) (resumes s);
  sd_pauses : Forall (fun p => pt_point p = PLock -> pa_shutdown (pt_args p) = false) (pauses s);
  sd_task : gens s !! i = Some t /\ gt_point t = GSuspended }.

Section Stranded.
Context `{PyText}.

Lemma stranded_gen s i t j u ev c' u' :
  stranded s i t -> gens s !! j = Some u -> gen_event s u ev = Some (c', u') ->
  stranded (put_gen s j (c', u')) i t.
Proof.
  intros [D E Hd P [Ht Pt]] Hj Ev.
  destruct (gen_event_effect _ _ _ _ _ Ev) as (_ & (_ & _ & S3 & _ & S5) & _).
  split; simpl; try congruence; try done. split; [|done].
  destruct (decide (j = i)) as [->|N]; [|by rewrite list_lookup_insert_ne].
  assert (u = t) as -> by congruence. exfalso. unfold gen_event in Ev. rewrite Pt in Ev.
  destruct ev; try done. unfold gen_wake in Ev. by rewrite E in Ev.
Qed.

Lemma stranded_pause s i t j p ev c' p' :
  stranded s i t -> pauses s !! j = Some p -> pause_event s p ev = Some (c', p') ->
  stranded (put_pause s j (c', p')) i t.
Proof.
  intros [D E Hd P [Ht Pt]] Hj Ev. pose proof (Forall_lookup_1 _ _ _ _ P Hj) as Hp. simpl in Hp.
  assert (_shutting_down c' = true /\ _resume_event c' = false /\ pt_point p' <> PLock)
    as (A & B & C).
  { unfold pause_event in Ev.
    destruct ev; try (by destruct (pt_point p)); destruct (pt_point p) eqn:Q; try done.
    - destruct (held s); [done|]. unfold pause_begin in Ev. rewrite (Hp eq_refl) in Ev.
      by simplify_eq.
    - destruct (_ && _); [|done]. unfold pause_abort in Ev. simplify_eq. by destruct r.
    - destruct (forallb _ _); [|done]. unfold pause_collect in Ev. simplify_eq.
      destruct (pa_shutdown _); [done|].
      destruct (collect_fold results (pt_active p) (ctl s)) as (_ & (_ & _ & S3 & _ & S5) & _).
      by rewrite S3, S5.
    - destruct (pause_finish _ _ _ _) as [q|] eqn:F; simpl in Ev; [|done].
      unfold pause_finish in F. repeat case_match; by simplify_eq. }
  split; simpl; try done. by apply Forall_insert.
Qed.

Lemma stranded_step s i t ev s' :
  stranded s i t -> starts_shutdown ev = false -> sys_step s ev = Some s' -> stranded s' i t.
Proof.
  intros St N E. pose proof St as [D Ev Hd P [Ht Pt]].
  destruct ev; simpl in E;
    try (destruct (gens s !! i0) as [u|] eqn:Hi; simpl in E; [|done];
         match type of E with (?x ≫= _) = _ => destruct x as [[c' t']|] eqn:Eg; simpl in E; [|done] end;
         simplify_eq; by eapply stranded_gen);
    try (destruct (pauses s !! j) as [p|] eqn:Hj; simpl in E; [|done];
         match type of E with (?x ≫= _) = _ => destruct x as [[c' t']|] eqn:Eg; simpl in E; [|done] end;
         simplify_eq; by eapply stranded_pause).
  - simplify_eq. split; simpl; auto. split; [by apply lookup_app_l_Some|done].
  - simplify_eq. split; simpl; auto. apply Forall_app. split; [done|].
    by apply Forall_singleton.
  - simplify_eq. split; simpl; auto. apply Forall_app. split; [done|].
    by apply Forall_singleton.
  - destruct (resumes s !! k) as [r|] eqn:Hk; simpl in E; [|done].
    destruct (rt_point r); try done. destruct (held s); [done|].
    unfold resume_begin in E. rewrite D in E. simplify_eq. split; simpl; auto.
    by apply Forall_insert.
  - destruct (resumes s !! k) as [r|] eqn:Hk; simpl in E; [|done].
    pose proof (Forall_lookup_1 _ _ _ _ Hd Hk) as Q. unfold awaiting_ready in Q. simpl in Q.
    by destruct (rt_point r).
  - destruct (held s); [done|]. unfold synchronize_version in E.
    destruct (String.eqb _ ""); [done|]. rewrite D, orb_true_r in E. simpl in E.
    by simplify_eq.
Qed.

Lemma stranded_run evs : forall s i t s',
  stranded s i t -> Forall (fun ev => starts_shutdown ev = false) evs ->
  run s evs = Some s' -> stranded s' i t.
Proof.
  induction evs as [|ev evs IH]; intros s i t s' St F E; simpl in E; [by simplify_eq|].
  inversion F; subst. destruct (sys_step s ev) as [s1|] eqn:E1; simpl in E; [|done].
  eapply IH; [by eapply stranded_step|done|exact E].
Qed.
End Stranded.

(** A partial-rollout generation preempted by a weight update, a shutdown, and
    one more [pause] before the sleeping waiter polls. *)
Definition strand_args : GenArgs :=
  {| ga_input_ids := [1; 2]%Z; ga_max_new_tokens := 8; ga_session_id := Some "s";
     ga_instance_id := Some "i"; ga_turn_id := None; ga_expected_version := None;
     ga_expected_epoch := None; ga_logprob_start_len := -1; ga_context_window := None |}.

Definition abort_response (ids : list Z) (reason version : string) : Response :=
  {| r_input_logprobs := []; r_input_texts := []; r_output_ids := ids; r_output_logprobs := [];
     r_output_texts := []; r_text := ""; r_meta := [("weight_version", PStr version)];
     r_finish_reason := reason; r_input_invalid := false; r_all_invalid := false;
     r_routed := None |}.

Definition pause_all (sd : bool) : PauseArgs :=
  {| pa_shutdown := sd; pa_session_id := None; pa_instance_id := None;
     pa_reason := "weight_update"; pa_timeout := false |}.

Definition strand_trace : list event :=
  [ECall strand_args; ELoop 0 "u0"; ERegister 0; EPause (pause_all false); EPauseLock 0;
   EAbort 0 "dressage-s-u0" (AbortOk PNone); EResponse 0 (abort_response [7%Z] "abort" "1");
   EClose 0; ECollect 0; EPauseEnd 0 false;
   EPause (pause_all true); EPauseLock 1; ECollect 1; EPauseEnd 1 false;
   EPause (pause_all false); EPauseLock 2].

Lemma chunk_versions_length chs : length (chunk_versions chs) = length (chunk_ids chs).
Proof.
  unfold chunk_versions, chunk_ids. induction chs as [|ch cs IH]; [done|].
  simpl. by rewrite !length_app, length_replicate, IH.
Qed.

Section Theorems.
Context `{PyText}.

(** C14: Stitching.  When a generation returns, in any interleaving with pauses,
    resumes, aborts and other generations, its tokens are the concatenation of the
    chunks in order, with log-probabilities, texts and per-token versions carried
    along chunk by chunk; the full sequence is the prompt followed by the output;
    every chunk but the last was preempted, and the last one ended the generation
    unless the budget was used up or the context window overflowed; routed-expert
    records are placed at the offset of their chunk. *)
Theorem generation_stitched partial evs s i t r :
  run (Sys_init partial) evs = Some s -> gens s !! i = Some t -> gt_point t = GDone r ->
  pr_output_ids r = chunk_ids (pr_chunks r) /\
  pr_all_token_ids r = ga_input_ids (gt_args t) ++ chunk_ids (pr_chunks r) /\
  pr_output_logprobs r = concat (map c_output_logprobs (pr_chunks r)) /\
  pr_output_versions r = chunk_versions (pr_chunks r) /\
  length (pr_output_versions r) = length (pr_output_ids r) /\
  length (pr_input_logprobs r) = length (ga_input_ids (gt_args t)) /\
  Forall (routed_at (gt_args t) (pr_chunks r)) (pr_routed r) /\
  (Forall (fun ch => c_preempted ch = true) (pr_chunks r) ->
   loop_condition (gt_args t) (gt_local t) = false \/
   context_overflow (gt_args t) (gt_local t) = true) /\
  (forall pre ch post, pr_chunks r = pre ++ ch :: post -> c_preempted ch = false -> post = []).
Proof.
  intros E Hi Pt. pose proof (Forall_lookup_1 _ _ _ _ (inv_task _ (reachable_inv _ _ _ E)) Hi)
    as (S & Q & _). unfold position_ok in Q. rewrite Pt in Q. destruct Q as [-> Q]. simpl.
  destruct S as [G I L T V P R _]. rewrite I, L, V. repeat split; auto.
  - apply chunk_versions_length.
  - unfold _normalize_length. rewrite length_app, length_take, length_replicate. lia.
  - intros F. destruct Q as [[_ Q]|[(pre & ch & Ec & Ef & _)|(_ & _ & Q)]]; auto.
    rewrite Ec, Forall_app, Forall_singleton in F. destruct F. congruence.
  - assert (X : forall pre ch post b, chunks (gt_local t) = pre ++ ch :: post ->
      c_preempted ch = false ->
      (exists pre' ch', chunks (gt_local t) = pre' ++ [ch'] /\ c_preempted ch' = b /\
         Forall (fun ch => c_preempted ch = true) pre' /\
         (_partial_rollout (ctl s) = false -> pre' = [])) -> post = []).
    { intros pre ch post b E1 E2 (pre' & ch' & E3 & _ & F & _).
      destruct post as [|x post _] using rev_ind; [done|]. rewrite E3 in E1.
      rewrite app_comm_cons, app_assoc in E1. apply app_inj_tail in E1 as [-> _].
      apply Forall_app in F as [_ F]. inversion F; congruence. }
    intros pre ch post E1 E2. destruct Q as [[[F _] _]|[Q|(Q & _)]]; [|eauto..].
    rewrite E1 in F. apply Forall_app in F as [_ F]. inversion F; congruence.
Qed.

(** C27: The registry of in-flight requests is exact: [_active] lists, without
    duplicates, the requests of the coroutines that sent one and have not closed it,
    [_suspended_generations] counts the coroutines waiting for [resume], and a
    request in flight was sent with the prompt followed by everything generated so
    far, under the remaining token budget. *)
Theorem active_requests_exact partial evs s :
  run (Sys_init partial) evs = Some s ->
  NoDup (_active (ctl s)) /\
  (forall rid, rid ∈ _active (ctl s) <->
     exists i t, gens s !! i = Some t /\ own t = Some (rid, true)) /\
  _suspended_generations (ctl s) = Z.of_nat (count_by suspended (gens s)) /\
  (forall i t rid, gens s !! i = Some t -> gt_point t = GAwait rid ->
     exists g, heap (ctl s) !! rid = Some g /\
       sent_prompt g = ga_input_ids (gt_args t) ++ chunk_ids (chunks (gt_local t)) /\
       a_max_new_tokens g = remaining (gt_args t) (gt_local t)).
Proof.
  intros E. pose proof (reachable_inv _ _ _ E) as I. pose proof (inv_reg _ I) as R.
  split; [apply R|]. split; [apply R|]. split; [apply I|]. intros i t rid Hi Pt.
  destruct (reg_obj _ _ _ R i t rid true Hi) as (g & Eg & _ & _ & _ & N & F);
    [by unfold own; rewrite Pt|].
  destruct (F ltac:(by unfold in_flight; rewrite Pt)) as [Es Em]. exists g.
  split; [done|]. split; [|done]. unfold sent_prompt. rewrite N, Es.
  pose proof (Forall_lookup_1 _ _ _ _ (inv_task _ I) Hi) as (S & _). by rewrite (st_generated _ _ S).
Qed.

(** C13: A weight update is safe behind a quiesced pause: once [pause] (or
    [shutdown]) returned [quiesced = True] and no later [resume] has taken effect
    (the rollout epoch is still the one in which it collected its requests), no
    request it selects is in flight and the controller is still paused. *)
Theorem quiesced_pause_safe partial evs s j p r :
  run (Sys_init partial) evs = Some s ->
  pauses s !! j = Some p -> pt_point p = PDone r -> rp_quiesced r = true ->
  pt_epoch p = _rollout_epoch (ctl s) ->
  _paused (ctl s) = true /\
  forall rid, rid ∈ _active (ctl s) -> pause_selects (pt_args p) (heap (ctl s)) rid = false.
Proof.
  intros E Hj Pt Q Ep. pose proof (reachable_inv _ _ _ E) as I.
  destruct (Forall_lookup_1 _ _ _ _ (inv_pause _ I) Hj) as [L|(_ & A & _ & D)]; [congruence|].
  destruct (A Ep) as [P S]. split; [done|]. intros rid Hr.
  destruct (pause_selects _ _ _) eqn:Sel; [|done]. exfalso.
  specialize (D r Pt Q rid (S rid Hr Sel)). unfold is_quiesced in D.
  destruct (heap (ctl s) !! rid) as [g|] eqn:Eg; [|done].
  by eapply (quiesced_not_active _ _ _ _ _ (inv_reg _ I)).
Qed.

(** Version and epoch pinning: a generation pinned to a weight version only
    ever collects chunks of that version, one pinned to a rollout epoch only runs in
    that epoch, and without partial rollout a result comes from a single
    uninterrupted request. *)
Theorem pinned_generation partial evs s i t r :
  run (Sys_init partial) evs = Some s -> gens s !! i = Some t -> gt_point t = GDone r ->
  (forall v, ga_expected_version (gt_args t) = Some v -> v <> "" ->
     Forall (eq v) (pr_output_versions r)) /\
  (forall e, ga_expected_epoch (gt_args t) = Some e -> pr_chunks r <> [] ->
     pr_rollout_epoch r = Some e) /\
  (_partial_rollout (ctl s) = false -> pr_chunks r <> [] ->
     exists ch, pr_chunks r = [ch] /\ c_preempted ch = false).
Proof.
  intros E Hi Pt.
  pose proof (Forall_lookup_1 _ _ _ _ (inv_task _ (reachable_inv _ _ _ E)) Hi) as (S & Q & X).
  unfold position_ok in Q. rewrite Pt in Q. destruct Q as [-> Q]. simpl. split; [|split].
  - intros v Ev Nv. pose proof (st_pinned _ _ S v Ev) as F. rewrite (st_versions _ _ S).
    simpl in F. destruct (String.eqb_spec v ""); [done|].
    apply Forall_concat, Forall_map. eapply Forall_impl; [exact F|]. simpl.
    intros ch Ec. apply Forall_replicate. congruence.
  - intros e Ee N. unfold epoch_ok in X. destruct (rollout_epoch _); [|done].
    f_equal. by apply X.
  - intros Pf N. destruct Q as [[[_ Q] _]|[(pre & ch & Ec & Hc & _ & Hn)|(_ & Q & _)]].
    + by rewrite (Q Pf) in N.
    + exists ch. by rewrite Ec, (Hn Pf).
    + congruence.
Qed.

Lemma strand_reached :
  exists s t, run (Sys_init true) strand_trace = Some s /\ stranded s 0 t.
Proof.
  eexists _, _. split; [vm_compute; reflexivity|].
  split; simpl; [reflexivity|reflexivity| | |split; reflexivity]; repeat constructor; done.
Qed.

(** A [pause] issued after [shutdown] strands suspended generations: there is
    a reachable state, with [_shutting_down] set, in which a preempted generation is
    suspended and stays so whatever happens next (resumes included), unless
    [shutdown] is called once more. *)
Theorem shutdown_then_pause_strands :
  exists s t, run (Sys_init true) strand_trace = Some s /\
    _shutting_down (ctl s) = true /\
    forall evs s', Forall (fun ev => starts_shutdown ev = false) evs -> run s evs = Some s' ->
      gens s' !! 0%nat = Some t /\ gt_point t = GSuspended.
Proof.
  destruct strand_reached as (s & t & E & St). exists s, t. split; [exact E|].
  split; [apply St|]. intros evs s' F E'. eapply stranded_run in E'; [apply E'|exact St|exact F].
Qed.
End Theorems.

(** ** Witnesses *)

Definition w_gen_text : PyText := {| py_repr := fun _ => ""; py_parse_float := fun _ => None |}.

Definition w_pause_trace : list event := firstn 10 strand_trace.

Definition w_resume_trace : list event :=
  w_pause_trace ++
  [EResume (Some "2"); EResumeLock 0 true; EReady 0 true; EWake 0; ELoop 0 "u1"; ERegister 0;
   EResponse 0 (abort_response [8; 9]%Z "stop" "2"); EClose 0].

(** A call pinned to version ["1"] in epoch 0. *)
Definition w_pinned_args : GenArgs :=
  {| ga_input_ids := [1; 2]%Z; ga_max_new_tokens := 8; ga_session_id := Some "s";
     ga_instance_id := Some "i"; ga_turn_id := None; ga_expected_version := Some "1";
     ga_expected_epoch := Some 0%Z; ga_logprob_start_len := -1; ga_context_window := None |}.

Definition w_pinned_trace : list event :=
  [ECall w_pinned_args; ELoop 0 "u0"; ERegister 0;
   EResponse 0 (abort_response [7%Z] "stop" "1"); EClose 0].

Ltac run_witness := vm_compute; reflexivity.

Lemma generation_stitched_witness :
  exists s t r, run (H := w_gen_text) (Sys_init true) w_resume_trace = Some s /\
    gens s !! 0%nat = Some t /\ gt_point t = GDone r /\
    pr_output_ids r = [7; 8; 9]%Z /\ pr_output_versions r = ["1"; "2"; "2"] /\
    pr_output_ids r = chunk_ids (pr_chunks r).
Proof.
  eexists _, _, _. split; [run_witness|]. split; [run_witness|]. split; [run_witness|].
  split; [reflexivity|]. split; [reflexivity|].
  refine (proj1 (generation_stitched (H := w_gen_text) true w_resume_trace _ 0 _ _ _ _ _));
    run_witness.
Defined.

Lemma active_requests_exact_witness :
  exists s, run (H := w_gen_text) (Sys_init true) (firstn 3 strand_trace) = Some s /\
    _active (ctl s) = ["dressage-s-u0"] /\ NoDup (_active (ctl s)).
Proof.
  eexists. split; [run_witness|]. split; [reflexivity|].
  refine (proj1 (active_requests_exact (H := w_gen_text) true (firstn 3 strand_trace) _ _));
    run_witness.
Defined.

Lemma quiesced_pause_safe_witness :
  exists s p r, run (H := w_gen_text) (Sys_init true) w_pause_trace = Some s /\
    pauses s !! 0%nat = Some p /\ pt_point p = PDone r /\ rp_preempted_ids r = ["dressage-s-u0"] /\
    _paused (ctl s) = true.
Proof.
  eexists _, _, _. split; [run_witness|]. split; [run_witness|]. split; [run_witness|].
  split; [reflexivity|].
  refine (proj1 (quiesced_pause_safe (H := w_gen_text) true w_pause_trace _ 0 _ _ _ _ _ _ _));
    run_witness.
Defined.

Lemma pinned_generation_witness :
  exists s t r, run (H := w_gen_text) (Sys_init false) w_pinned_trace = Some s /\
    gens s !! 0%nat = Some t /\ gt_point t = GDone r /\
    Forall (eq "1") (pr_output_versions r) /\ pr_rollout_epoch r = Some 0%Z.
Proof.
  eexists _, _, _. split; [run_witness|]. split; [run_witness|]. split; [run_witness|].
  split.
  - refine (proj1 (pinned_generation (H := w_gen_text) false w_pinned_trace _ 0 _ _ _ _ _)
              "1" _ _); try run_witness. done.
  - refine (proj1 (proj2 (pinned_generation (H := w_gen_text) false w_pinned_trace _ 0 _ _ _ _ _))
              0%Z _ _); try run_witness. done.
Defined.
