(* ===== verification/Experts.v ===== *)
(** * Routed experts ([dressage/proxy/routed_experts.py])

    [canonicalize_routed_experts] keeps, of the expert ids a generation returned chunk by
    chunk, the rows a recorded step covers.  The base64 decoder is a parameter
    ([pybase64]); [np.frombuffer] of 32-bit integers is written out on the bytes. *)

From S2P Require Import Prelude.
From S2P Require Import PyVal.
From S2P Require Import Transport.
From S2P Require Import Generation.

Local Open Scope string_scope.
Local Open Scope list_scope.
Local Open Scope Z_scope.
Local Open Scope py_scope.

(** [values[a:b]] for [0 <= a <= b] *)
Definition slice {A} (a b : Z) (l : list A) : list A :=
  take (Z.to_nat (b - a)) (drop (Z.to_nat a) l).

(** A little-endian signed 32-bit integer. *)
Definition int32_of (b0 b1 b2 b3 : Z) : Z :=
  let u := b0 + 2 ^ 8 * b1 + 2 ^ 16 * b2 + 2 ^ 24 * b3 in
  if u <? 2 ^ 31 then u else u - 2 ^ 32.

(** [np.frombuffer(selected, dtype=np.int32)] *)
Fixpoint frombuffer (l : list Z) : list Z :=
  match l with
  | b0 :: b1 :: b2 :: b3 :: rest => int32_of b0 b1 b2 b3 :: frombuffer rest
  | _ => []
  end.

(** [np.iinfo(dtype)] *)
Definition iinfo (dtype : string) : Z * Z :=
  if String.eqb dtype "uint8" then (0, 2 ^ 8 - 1)
  else if String.eqb dtype "uint16" then (0, 2 ^ 16 - 1)
  else (- 2 ^ 31, 2 ^ 31 - 1).

(** One entry of the result. *)
Record ExpertRows : Type := { er_data : list Z; er_row_count : Z; er_dtype : string }.

Definition ExpertRows_dict (r : ExpertRows) : list (string * pyval) :=
  [("data", PList (map PInt (er_data r))); ("row_count", PInt (er_row_count r));
   ("dtype", PStr (er_dtype r))].

Section Canonicalize.
Variable b64decode : string -> result (list Z).
Variables (target_start target_count : Z) (dtype : string).

Definition raw_row_count (c : RoutedChunk) : Z :=
  Z.of_nat (rc_prefix_token_count c) + Z.of_nat (rc_output_token_count c) - 1.

Definition valid_start (c : RoutedChunk) : Z :=
  if rc_is_first_chunk c then 0 else Z.of_nat (rc_prefix_token_count c) - 1.

Definition overlap_start (c : RoutedChunk) : Z := Z.max (valid_start c) target_start.
Definition overlap_end (c : RoutedChunk) : Z := Z.min (raw_row_count c) (target_start + target_count).

(** The rows of a chunk that overlaps the target; [row_width] is that of earlier chunks. *)
Definition select_rows (c : RoutedChunk) (row_width : option Z) : result (ExpertRows * Z) :=
  let! raw := b64decode (rc_data c) in
  let rows := raw_row_count c in
  let size := Z.of_nat (length raw) in
  check! (rows <=? 0) || negb (size mod rows =? 0)
    else ValueError "routed-expert payload size does not match its expected row width" ;;
  let width := size / rows in
  check! (width =? 0) || negb (width mod 4 =? 0)
    else ValueError "routed-expert row width is not int32-aligned" ;;
  check! (match row_width with Some w => negb (width =? w) | None => false end)
    else ValueError "routed-expert chunks have inconsistent row widths" ;;
  let selected := slice (overlap_start c * width) (overlap_end c * width) raw in
  let values := frombuffer selected in
  check! negb (String.eqb dtype "int32")
         && existsb (fun v => (v <? fst (iinfo dtype)) || (snd (iinfo dtype) <? v)) values
    else ValueError "routed-expert id does not fit in " ;;
  Ok ({| er_data := values; er_row_count := overlap_end c - overlap_start c; er_dtype := dtype |}, width).

Fixpoint canonical_loop (chunks : list RoutedChunk) (row_width : option Z) (emitted : Z)
    : result (list ExpertRows * Z) :=
  match chunks with
  | [] => Ok ([], emitted)
  | c :: rest =>
      if overlap_end c <=? overlap_start c then canonical_loop rest row_width emitted
      else
        let! rw := select_rows c row_width in
        let '(r, width) := rw in
        let! out := canonical_loop rest (Some width) (emitted + er_row_count r) in
        let '(rs, total) := out in
        Ok (r :: rs, total)
  end.

Definition canonicalize_routed_experts (raw_chunks : list RoutedChunk) : result (list ExpertRows) :=
  check! (target_start <? 0) || (target_count <? 0)
    else ValueError "routed-expert target range must be non-negative" ;;
  check! negb (existsb (String.eqb dtype) ["uint8"; "uint16"; "int32"])
    else ValueError "unsupported routed-expert dtype: " ;;
  if Nat.eqb (length raw_chunks) 0 || (target_count =? 0) then Ok []
  else
    let! out := canonical_loop raw_chunks None 0 in
    let '(rs, emitted) := out in
    check! negb (emitted =? target_count)
      else ValueError "routed-expert chunks do not cover the requested target range: " ;;
    Ok rs.
End Canonicalize.

(** ** Slices *)

Lemma slice_empty {A} a b (l : list A) : b <= a -> slice a b l = [].
Proof. intros. unfold slice. by replace (Z.to_nat (b - a)) with 0%nat by lia. Qed.

Lemma slice_app {A} a b (l l' : list A) : 0 <= a ->
  let n := Z.of_nat (length l) in
  slice a b (l ++ l') = slice a (Z.min b n) l ++ slice (Z.max 0 (a - n)) (b - n) l'.
Proof.
  intros Ha n. unfold slice. rewrite drop_app, take_app, length_drop. f_equal.
  - destruct (Z.le_gt_cases b n).
    + by replace (Z.min b n) with b by lia.
    + rewrite !take_ge; [done| |]; rewrite length_drop; lia.
  - f_equal; [|f_equal]; lia.
Qed.

Lemma slice_slice {A} a b c d (l : list A) : 0 <= a -> a <= c -> d <= b ->
  slice (c - a) (d - a) (slice a b l) = slice c d l.
Proof.
  intros. unfold slice. rewrite List.skipn_firstn_comm, take_take.
  rewrite drop_drop. f_equal; [lia|f_equal; lia].
Qed.

Lemma slice_length {A} a b (l : list A) : 0 <= a -> a <= b -> b <= Z.of_nat (length l) ->
  Z.of_nat (length (slice a b l)) = b - a.
Proof. intros. unfold slice. rewrite length_take, length_drop. lia. Qed.

Lemma frombuffer_drop n : forall l, frombuffer (drop (4 * n) l) = drop n (frombuffer l).
Proof.
  induction n as [|n IH]; intros l; [done|]. replace (4 * S n)%nat with (S (S (S (S (4 * n))))) by lia.
  destruct l as [|b0 [|b1 [|b2 [|b3 l]]]]; [by simpl; rewrite ?drop_nil..|]. exact (IH l).
Qed.

Lemma frombuffer_take n : forall l, frombuffer (take (4 * n) l) = take n (frombuffer l).
Proof.
  induction n as [|n IH]; intros l; [done|]. replace (4 * S n)%nat with (S (S (S (S (4 * n))))) by lia.
  destruct l as [|b0 [|b1 [|b2 [|b3 l]]]]; try done. simpl take at 1. cbn [frombuffer take].
  f_equal. exact (IH l).
Qed.

Lemma frombuffer_slice a b l : 0 <= a -> a <= b ->
  frombuffer (slice (4 * a) (4 * b) l) = slice a b (frombuffer l).
Proof.
  intros. unfold slice.
  replace (Z.to_nat (4 * b - 4 * a)) with (4 * Z.to_nat (b - a))%nat by lia.
  replace (Z.to_nat (4 * a)) with (4 * Z.to_nat a)%nat by lia.
  by rewrite frombuffer_take, frombuffer_drop.
Qed.

Lemma frombuffer_length n : forall l, length l = (4 * n)%nat -> length (frombuffer l) = n.
Proof.
  induction n as [|n IH]; intros l E; [by destruct l|].
  destruct l as [|b0 [|b1 [|b2 [|b3 l]]]]; simpl in E; try lia. simpl. rewrite (IH l); lia.
Qed.

(** ** Coverage *)

Section Cover.
Variable b64decode : string -> result (list Z).
Variables (target_start target_count : Z) (dtype : string).
(** Expert ids per row. *)
Variable k : Z.
Hypothesis k_pos : 0 < k.
Hypothesis start_ok : 0 <= target_start.
Hypothesis count_ok : 0 <= target_count.

Definition chunk_values (c : RoutedChunk) : list Z :=
  match b64decode (rc_data c) with Ok raw => frombuffer raw | Raise _ => [] end.

(** The rows only this chunk provides: the first one from the start, a later one from
    the row of the last token of its prompt. *)
Definition owned (c : RoutedChunk) : list Z :=
  slice (valid_start c * k) (raw_row_count c * k) (chunk_values c).

Definition fits (v : Z) : Prop :=
  dtype = "int32" \/ fst (iinfo dtype) <= v <= snd (iinfo dtype).

(** The payload of a chunk: [raw_row_count] rows of [k] ids that fit the dtype. *)
Definition payload_ok (c : RoutedChunk) : Prop :=
  exists raw, b64decode (rc_data c) = Ok raw /\
    Z.of_nat (length raw) = raw_row_count c * (4 * k) /\ Forall fits (frombuffer raw).

(** Each chunk starts where the previous one ended. *)
Fixpoint chained (a : Z) (l : list RoutedChunk) : Prop :=
  match l with
  | [] => True
  | c :: rest => valid_start c = a /\ a <= raw_row_count c /\ chained (raw_row_count c) rest
  end.

Definition chain_end (a : Z) (l : list RoutedChunk) : Z := List.fold_left (fun _ c => raw_row_count c) l a.

Lemma fits_check l : Forall fits l ->
  negb (String.eqb dtype "int32")
  && existsb (fun v => (v <? fst (iinfo dtype)) || (snd (iinfo dtype) <? v)) l = false.
Proof using.
  intros F. destruct (String.eqb_spec dtype "int32") as [|N]; [done|]. cbn [negb andb].
  induction F as [|v l Fv F IH]; [done|]. cbn [existsb]. rewrite IH, orb_false_r.
  destruct Fv as [|[A B]]; [done|]. apply orb_false_iff. split; apply Z.ltb_ge; lia.
Qed.

Lemma select_rows_ok c rw :
  payload_ok c -> rw = None \/ rw = Some (4 * k) -> 0 <= valid_start c ->
  overlap_start target_start c < overlap_end target_start target_count c ->
  select_rows b64decode target_start target_count dtype c rw
  = Ok ({| er_data := slice (overlap_start target_start c * k)
                        (overlap_end target_start target_count c * k) (chunk_values c);
           er_row_count := overlap_end target_start target_count c - overlap_start target_start c;
           er_dtype := dtype |}, 4 * k).
Proof using k_pos start_ok count_ok.
  intros (raw & E & L & F) W V O. unfold select_rows, chunk_values. rewrite E. cbn [res_bind].
  rewrite L. unfold overlap_start, overlap_end in *. set (n := raw_row_count c) in *.
  assert (0 < n) by lia. rewrite Z.mul_comm, Z.mod_mul, Z.div_mul by lia.
  rewrite (proj2 (Z.leb_gt n 0)) by lia. cbn [raise_if negb orb Z.eqb res_bind].
  rewrite (proj2 (Z.eqb_neq (4 * k) 0)) by lia.
  replace ((4 * k) mod 4) with 0 by (rewrite Z.mul_comm, Z.mod_mul; lia).
  cbn [raise_if negb orb Z.eqb res_bind].
  replace (match rw with Some w => negb (4 * k =? w) | None => false end) with false
    by (destruct W as [->| ->]; [done|by rewrite Z.eqb_refl]).
  cbn [raise_if negb orb Z.eqb res_bind].
  replace (Z.max (valid_start c) target_start * (4 * k))
    with (4 * (Z.max (valid_start c) target_start * k)) by ring.
  replace (Z.min n (target_start + target_count) * (4 * k))
    with (4 * (Z.min n (target_start + target_count) * k)) by ring.
  rewrite frombuffer_slice by nia. rewrite fits_check; [done|].
  unfold slice. by apply Forall_take, Forall_drop.
Qed.

Lemma overlap_skipped c : 0 <= valid_start c ->
  overlap_end target_start target_count c <= overlap_start target_start c ->
  slice (overlap_start target_start c * k) (overlap_end target_start target_count c * k)
    (chunk_values c) = [].
Proof using k_pos. intros V O. apply slice_empty. nia. Qed.

(** A chunk's share of the target is a slice of the rows it owns. *)
Lemma share_of_owned c : 0 <= valid_start c ->
  slice (overlap_start target_start c * k) (overlap_end target_start target_count c * k)
    (chunk_values c)
  = slice (Z.max target_start (valid_start c) * k - valid_start c * k)
      (Z.min (target_start + target_count) (raw_row_count c) * k - valid_start c * k) (owned c).
Proof using k_pos.
  intros V. unfold owned. rewrite slice_slice by nia. f_equal; unfold overlap_start, overlap_end; f_equal; lia.
Qed.

Lemma owned_length c : payload_ok c -> 0 <= valid_start c -> valid_start c <= raw_row_count c ->
  Z.of_nat (length (owned c)) = (raw_row_count c - valid_start c) * k.
Proof using k_pos.
  intros (raw & E & L & _) V O. unfold owned, chunk_values. rewrite E.
  rewrite slice_length; [ring|nia|nia|].
  rewrite (frombuffer_length (Z.to_nat (raw_row_count c * k))); nia.
Qed.

Lemma chain_end_ge l : forall a, chained a l -> a <= chain_end a l.
Proof using.
  induction l as [|c l IH]; intros a C; [done|]. destruct C as (_ & A & C). simpl.
  specialize (IH _ C). unfold chain_end in *. lia.
Qed.

(** The loop over a chain that starts at row [a]. *)
Lemma canonical_loop_ok l : forall a rw emitted,
  0 <= a -> chained a l -> Forall payload_ok l -> rw = None \/ rw = Some (4 * k) ->
  exists rs, canonical_loop b64decode target_start target_count dtype l rw emitted
    = Ok (rs, emitted + Z.max 0 (Z.min (target_start + target_count) (chain_end a l)
                                 - Z.max target_start a)) /\
    concat (map er_data rs)
    = slice (Z.max target_start a * k - a * k) ((target_start + target_count) * k - a * k)
        (concat (map owned l)).
Proof using k_pos start_ok count_ok.
  induction l as [|c l IH]; intros a rw emitted Ha C P W.
  - exists []. simpl. split; [f_equal; f_equal; lia|]. unfold slice. by rewrite drop_nil, take_nil.
  - destruct C as (V & A & C). apply Forall_cons in P as [Pc P].
    set (te := target_start + target_count) in *. cbn [canonical_loop chain_end List.fold_left].
    pose proof (chain_end_ge l _ C) as Ge. fold (chain_end (raw_row_count c) l).
    assert (Split : forall rs, concat (map er_data rs)
        = slice (Z.max target_start (raw_row_count c) * k - raw_row_count c * k)
            (te * k - raw_row_count c * k) (concat (map owned l)) ->
      slice (overlap_start target_start c * k) (overlap_end target_start target_count c * k)
        (chunk_values c) ++ concat (map er_data rs)
      = slice (Z.max target_start a * k - a * k) (te * k - a * k) (concat (map owned (c :: l)))).
    { intros rs ->. cbn [map concat]. rewrite slice_app by nia.
      rewrite owned_length by (done || lia). rewrite share_of_owned by lia. fold te. rewrite V.
      f_equal; f_equal; nia. }
    destruct (Z.leb_spec (overlap_end target_start target_count c) (overlap_start target_start c)) as [O|O].
    + destruct (IH (raw_row_count c) rw emitted) as (rs & -> & D); [lia|done..|].
      exists rs. split.
      * f_equal. f_equal. unfold overlap_start, overlap_end in O. fold te in O. lia.
      * rewrite <- (Split rs D), overlap_skipped by lia. done.
    + rewrite (select_rows_ok c rw Pc W) by lia. cbn [res_bind er_row_count].
      destruct (IH (raw_row_count c) (Some (4 * k)) (emitted + (overlap_end target_start target_count c
                  - overlap_start target_start c))) as (rs & -> & D); [lia|done|done|by right|].
      cbn [res_bind]. eexists. split.
      * do 2 f_equal. unfold overlap_start, overlap_end in *. fold te in O |- *. lia.
      * cbn [map concat er_data]. by apply Split.
Qed.
End Cover.

(** The records a generation leaves: for each response that carried expert ids, its
    payload and token count, at the offset of the tokens before it. *)
Fixpoint records (prompt before : nat) (l : list (string * nat)) : list RoutedChunk :=
  match l with
  | [] => []
  | (data, n) :: rest =>
      {| rc_data := data; rc_prefix_token_count := prompt + before; rc_output_token_count := n;
         rc_is_first_chunk := Nat.eqb before 0 |} :: records prompt (before + n) rest
  end.

(** Only the last response may have no tokens. *)
Fixpoint produced (l : list (string * nat)) : Prop :=
  match l with
  | [] | [_] => True
  | (_, n) :: rest => (0 < n)%nat /\ produced rest
  end.

Definition total_output (l : list (string * nat)) : nat := sum_list_with snd l.

Lemma records_chained prompt l : (0 < prompt)%nat -> forall before, produced l ->
  chained (if Nat.eqb before 0 then 0 else Z.of_nat (prompt + before) - 1) (records prompt before l) /\
  (l <> [] -> forall a, chain_end a (records prompt before l)
              = Z.of_nat (prompt + before + total_output l) - 1).
Proof.
  intros Hp. induction l as [|[data n] l IH]; intros before R; [done|]. cbn [records chained].
  assert (R' : produced l) by (destruct l; [done|apply R]).
  destruct (IH (before + n)%nat R') as [C E]. split.
  - unfold valid_start, raw_row_count. cbn [rc_is_first_chunk rc_prefix_token_count rc_output_token_count].
    split; [done|]. split; [destruct (Nat.eqb_spec before 0); lia|].
    destruct l as [|[d m] l']; [done|]. destruct R as [N _].
    destruct (Nat.eqb_spec (before + n) 0); [lia|].
    replace (Z.of_nat (prompt + before) + Z.of_nat n - 1) with (Z.of_nat (prompt + (before + n)) - 1) by lia.
    done.
  - intros _ a. unfold chain_end in *. cbn [List.fold_left].
    destruct l as [|x l']; [unfold total_output, raw_row_count; simpl; lia|].
    rewrite E by done. unfold total_output. simpl. lia.
Qed.

Lemma loop_emitted b64decode ts tc dtype l : forall rw emitted rs total,
  canonical_loop b64decode ts tc dtype l rw emitted = Ok (rs, total) ->
  total = emitted + zsum (map er_row_count rs).
Proof.
  induction l as [|c l IH]; intros rw emitted rs total; cbn [canonical_loop].
  - intros [= <- <-]. unfold zsum. simpl. lia.
  - case_match; [by apply IH|]. intros E. destruct (select_rows _ _ _ _ _ _) as [[r w]|] eqn:Es; [|done]. cbn [res_bind] in E.
    destruct (canonical_loop b64decode ts tc dtype l (Some w) _) as [[rs0 t0]|] eqn:El; [|done].
    injection E as <- <-. apply IH in El. cbn [map]. rewrite zsum_cons. lia.
Qed.

Section Exact.
Variable b64decode : string -> result (list Z).
Variables (target_start target_count : Z) (dtype : string) (k : Z).

(** [canonicalize_routed_experts] loses and repeats no row.  For the records of a
    generation over a non-empty prompt, whatever the number of preemptions it was
    stitched from, and any target range inside the rows the model reported, it succeeds,
    the rows it keeps are exactly the target range of the sequence obtained by giving
    every row to the one response that owns it, and they number [target_count]; the
    overlap of a resumed request with the prompt it re-sent is dropped. *)
Theorem canonicalize_exact prompt l :
  0 < k -> 0 <= target_start -> 0 <= target_count -> (0 < prompt)%nat ->
  existsb (String.eqb dtype) ["uint8"; "uint16"; "int32"] = true ->
  l <> [] -> produced l -> Forall (payload_ok b64decode dtype k) (records prompt 0 l) ->
  target_start + target_count <= Z.of_nat (prompt + total_output l) - 1 ->
  exists rs,
    canonicalize_routed_experts b64decode target_start target_count dtype (records prompt 0 l) = Ok rs /\
    concat (map er_data rs)
    = slice (target_start * k) ((target_start + target_count) * k)
        (concat (map (owned b64decode k) (records prompt 0 l))) /\
    (target_count = 0 /\ rs = [] \/ zsum (map er_row_count rs) = target_count).
Proof.
  intros Hk Hs Hc Hp Hd Ne R P T.
  destruct (records_chained prompt l Hp 0 R) as [C E]. simpl in C. specialize (E Ne 0).
  rewrite Nat.add_0_r in E.
  unfold canonicalize_routed_experts. rewrite !(proj2 (Z.ltb_ge _ 0)) by lia. rewrite Hd.
  cbn [raise_if negb orb res_bind].
  destruct (Nat.eqb (length (records prompt 0 l)) 0) eqn:El.
  { apply Nat.eqb_eq in El. destruct l as [|[]]; [done|discriminate]. }
  destruct (Z.eqb_spec target_count 0) as [->|Nc]; cbn [orb].
  { exists []. split; [done|]. split; [|by left]. by rewrite slice_empty by lia. }
  destruct (canonical_loop_ok b64decode target_start target_count dtype k Hk Hs Hc
              (records prompt 0 l) 0 None 0) as (rs & Lo & D); [lia|done|done|by left|].
  rewrite E in Lo. rewrite Lo. cbn [res_bind].
  rewrite (proj2 (Z.eqb_eq _ target_count)) by lia. exists rs. split; [done|]. split.
  - rewrite D. f_equal; lia.
  - right. apply loop_emitted in Lo. lia.
Qed.
End Exact.

(** ** Witnesses *)

Definition w_decode (s : string) : result (list Z) :=
  if String.eqb s "a" then Ok [5; 0; 0; 0; 6; 0; 0; 0]
  else if String.eqb s "b" then Ok [5; 0; 0; 0; 6; 0; 0; 0; 255; 0; 0; 0]
  else Raise (ValueError "Incorrect padding").

Lemma canonicalize_exact_witness :
  exists rs, canonicalize_routed_experts w_decode 1 2 "uint8" (records 2 0 [("a", 1%nat); ("b", 1%nat)])
             = Ok rs /\ concat (map er_data rs) = [6; 255].
Proof.
  assert (P : Forall (payload_ok w_decode "uint8" 1) (records 2 0 [("a", 1%nat); ("b", 1%nat)])).
  { apply Forall_cons. split; [|apply Forall_cons; split; [|apply List.Forall_nil]];
      (eexists; split; [vm_compute; reflexivity|]; split; [vm_compute; reflexivity|]);
      repeat (apply List.Forall_cons; [right; split; vm_compute; discriminate|]);
      apply List.Forall_nil. }
  destruct (canonicalize_exact w_decode 1 2 "uint8" 1 2 [("a", 1%nat); ("b", 1%nat)]) as (rs & E & D & _);
    [lia|lia|lia|lia|reflexivity|discriminate|simpl; lia|exact P|vm_compute; discriminate|].
  exists rs. split; [exact E|]. rewrite D. vm_compute. reflexivity.
Defined.
