(* ===== verification/SessionManager.v ===== *)
(** * Sessions ([dressage/proxy/session_manager.py])

    [Session], its turn, step and lineage counters, the message-prefix index, and
    [SessionManager] with every operation that changes it.  A clock reading is an
    argument of the operation that takes it ([time.time()], a binary64 number);
    [uuid4()] values are arguments too.  An operation returns the new manager and
    its result, since the expiry sweep takes effect also when the call raises.
    [canonicalize_openclaw_tool_call_id] and [canonicalize_reasoning_content] are
    the helpers of [tool_call_ids.py] and [reasoning_parser.py]. *)

From S2P Require Import Prelude.
From S2P Require Import PyFloat.
From S2P Require Import Sha256.
From S2P Require Import PyVal.
From S2P Require Import Json.
From S2P Require Import Transport.
From Stdlib Require Import Ascii SpecFloat.

Local Open Scope string_scope.
Local Open Scope list_scope.
Local Open Scope py_scope.

Definition IMPLICIT_TURN_ID_PREFIX : string := "__implicit_turn__:".

Inductive RouteType : Type := append | branch | create.
Inductive TurnMode : Type := implicit | explicit.

#[export] Instance RouteType_eq_dec : EqDecision RouteType.
Proof. solve_decision. Defined.
#[export] Instance TurnMode_eq_dec : EqDecision TurnMode.
Proof. solve_decision. Defined.

(** [list[float] | TQFieldRef] and [list[dict] | TQFieldRef] *)
Definition logprobs : Type := (list float + TQFieldRef)%type.
Definition routed_chunks : Type := (list (list (string * pyval)) + TQFieldRef)%type.

Record Lineage : Type := {
  l_id : string;
  l_index : Z;
  latest_step_id : option string;
  branch_from_step_id : option string }.

Record Route : Type := {
  r_lineage_id : string;
  r_type : RouteType;
  r_base_step_id : option string }.

(** [_by_fingerprint] holds sets of step ids. *)
Record SessionPrefixTree : Type := {
  _by_fingerprint : list (string * list string);
  _fingerprint_by_step_id : list (string * string);
  _all_step_ids : list string }.

Definition SessionPrefixTree__init__ : SessionPrefixTree :=
  {| _by_fingerprint := []; _fingerprint_by_step_id := []; _all_step_ids := [] |}.

Record StepRecord : Type := {
  sr_turn_id : string;
  sr_request_messages : list pyval;
  sr_normalized_request_messages : list pyval;
  sr_prompt_token_ids : list Z;
  sr_prompt_token_logprobs : logprobs;
  sr_snapshot_token_ids : list Z;
  sr_response_token_ids : list Z;
  sr_response_logprobs : logprobs;
  sr_all_token_ids : list Z;
  sr_all_logprobs : logprobs;
  sr_input_token_texts : list string;
  sr_output_token_texts : list string;
  sr_messages_snapshot : list pyval;
  sr_raw_response_text : string;
  sr_step_id : string;
  sr_lineage_id : string;
  sr_lineage_index : Z;
  sr_route_type : RouteType;
  sr_route_base_step_id : option string;
  sr_normalized_messages_snapshot : list pyval;
  sr_snapshot_rendered : string;
  sr_snapshot_rendered_len : Z;
  sr_snapshot_tools_hash : option string;
  sr_lineage_segment_boundary_before : bool;
  sr_lineage_segment_reasons_before : list string;
  sr_prompt_versions : list string;
  sr_response_versions : list string;
  sr_all_versions : list string;
  sr_all_logprobs_invalid : bool;
  sr_concat_token_ids : list Z;
  sr_concat_response_logprobs : logprobs;
  sr_concat_response_mask : list Z;
  sr_concat_versions : list string;
  sr_concat_context_token_count : Z;
  sr_concat_output_token_count : Z;
  sr_concat_logprobs_invalid : bool;
  sr_concat_incremental_tokenization_failed : bool;
  sr_response_routed_experts_chunks : routed_chunks;
  sr_tools : option (list pyval);
  sr_segment_boundary_before : bool;
  sr_rewrite_reason : option string;
  sr_segment_reason_before : option string;
  sr_segment_reasons_before : list string;
  sr_finish_reason : string;
  sr_request_version : option string;
  sr_response_version : option string;
  sr_tool_call_hook_metadata : list (string * pyval);
  sr_request_e2e_latency_seconds : option float;
  sr_request_queue_seconds : option float;
  sr_rebalancing_moved : bool;
  sr_timestamp : float }.

(** The keyword arguments of [record_step]. *)
Record StepArgs : Type := {
  ra_turn_id : string;
  ra_request_messages : list pyval;
  ra_normalized_request_messages : list pyval;
  ra_prompt_token_ids : list Z;
  ra_prompt_token_logprobs : logprobs;
  ra_snapshot_token_ids : list Z;
  ra_response_token_ids : list Z;
  ra_response_logprobs : logprobs;
  ra_all_token_ids : list Z;
  ra_all_logprobs : logprobs;
  ra_input_token_texts : list string;
  ra_output_token_texts : list string;
  ra_messages_snapshot : list pyval;
  ra_raw_response_text : string;
  ra_step_id : option string;
  ra_lineage_id : option string;
  ra_lineage_index : option Z;
  ra_route_type : RouteType;
  ra_route_base_step_id : option string;
  ra_normalized_messages_snapshot : option (list pyval);
  ra_snapshot_rendered : string;
  ra_snapshot_rendered_len : Z;
  ra_snapshot_tools_hash : option string;
  ra_lineage_segment_boundary_before : bool;
  ra_lineage_segment_reasons_before : option (list string);
  ra_prompt_versions : option (list string);
  ra_response_versions : option (list string);
  ra_all_versions : option (list string);
  ra_all_logprobs_invalid : bool;
  ra_concat_token_ids : option (list Z);
  ra_concat_response_logprobs : option logprobs;
  ra_concat_response_mask : option (list Z);
  ra_concat_versions : option (list string);
  ra_concat_context_token_count : Z;
  ra_concat_output_token_count : Z;
  ra_concat_logprobs_invalid : bool;
  ra_concat_incremental_tokenization_failed : bool;
  ra_response_routed_experts_chunks : option routed_chunks;
  ra_tools : option (list pyval);
  ra_segment_boundary_before : bool;
  ra_rewrite_reason : option string;
  ra_segment_reason_before : option string;
  ra_segment_reasons_before : option (list string);
  ra_finish_reason : string;
  ra_request_version : option string;
  ra_response_version : option string;
  ra_tool_call_hook_metadata : option (list (string * pyval));
  ra_request_e2e_latency_seconds : option float;
  ra_request_queue_seconds : option float;
  ra_rebalancing_moved : bool }.

(** The [StepRecord] constructed from the arguments and the resolved ids. *)
Definition make_step (a : StepArgs) (step_id lineage_id : string) (lineage_index : option Z)
    (now : float) : StepRecord :=
  {| sr_turn_id := ra_turn_id a;
     sr_request_messages := ra_request_messages a;
     sr_normalized_request_messages := ra_normalized_request_messages a;
     sr_prompt_token_ids := ra_prompt_token_ids a;
     sr_prompt_token_logprobs := ra_prompt_token_logprobs a;
     sr_snapshot_token_ids := ra_snapshot_token_ids a;
     sr_response_token_ids := ra_response_token_ids a;
     sr_response_logprobs := ra_response_logprobs a;
     sr_all_token_ids := ra_all_token_ids a;
     sr_all_logprobs := ra_all_logprobs a;
     sr_input_token_texts := ra_input_token_texts a;
     sr_output_token_texts := ra_output_token_texts a;
     sr_messages_snapshot := ra_messages_snapshot a;
     sr_raw_response_text := ra_raw_response_text a;
     sr_step_id := step_id;
     sr_lineage_id := lineage_id;
     sr_lineage_index := default 0%Z lineage_index;
     sr_route_type := ra_route_type a;
     sr_route_base_step_id := ra_route_base_step_id a;
     sr_normalized_messages_snapshot := match ra_normalized_messages_snapshot a with
       | Some ((_ :: _) as m) => m
       | _ => ra_messages_snapshot a
       end;
     sr_snapshot_rendered := ra_snapshot_rendered a;
     sr_snapshot_rendered_len := ra_snapshot_rendered_len a;
     sr_snapshot_tools_hash := ra_snapshot_tools_hash a;
     sr_lineage_segment_boundary_before := ra_lineage_segment_boundary_before a;
     sr_lineage_segment_reasons_before := default [] (ra_lineage_segment_reasons_before a);
     sr_prompt_versions := default [] (ra_prompt_versions a);
     sr_response_versions := default [] (ra_response_versions a);
     sr_all_versions := default [] (ra_all_versions a);
     sr_all_logprobs_invalid := ra_all_logprobs_invalid a;
     sr_concat_token_ids := default [] (ra_concat_token_ids a);
     sr_concat_response_logprobs := default (inl []) (ra_concat_response_logprobs a);
     sr_concat_response_mask := default [] (ra_concat_response_mask a);
     sr_concat_versions := default [] (ra_concat_versions a);
     sr_concat_context_token_count := ra_concat_context_token_count a;
     sr_concat_output_token_count := ra_concat_output_token_count a;
     sr_concat_logprobs_invalid := ra_concat_logprobs_invalid a;
     sr_concat_incremental_tokenization_failed := ra_concat_incremental_tokenization_failed a;
     sr_response_routed_experts_chunks := default (inl []) (ra_response_routed_experts_chunks a);
     sr_tools := ra_tools a;
     sr_segment_boundary_before := ra_segment_boundary_before a;
     sr_rewrite_reason := ra_rewrite_reason a;
     sr_segment_reason_before := ra_segment_reason_before a;
     sr_segment_reasons_before := default [] (ra_segment_reasons_before a);
     sr_finish_reason := ra_finish_reason a;
     sr_request_version := ra_request_version a;
     sr_response_version := ra_response_version a;
     sr_tool_call_hook_metadata := default [] (ra_tool_call_hook_metadata a);
     sr_request_e2e_latency_seconds := ra_request_e2e_latency_seconds a;
     sr_request_queue_seconds := ra_request_queue_seconds a;
     sr_rebalancing_moved := ra_rebalancing_moved a;
     sr_timestamp := now |}.

(** The cached rendering [_candidate_snapshot_rendered] writes into a step. *)
Definition set_rendered (st : StepRecord) (rendered : string) (n : Z) (tools_hash : string)
    : StepRecord :=
  {| sr_turn_id := sr_turn_id st;
     sr_request_messages := sr_request_messages st;
     sr_normalized_request_messages := sr_normalized_request_messages st;
     sr_prompt_token_ids := sr_prompt_token_ids st;
     sr_prompt_token_logprobs := sr_prompt_token_logprobs st;
     sr_snapshot_token_ids := sr_snapshot_token_ids st;
     sr_response_token_ids := sr_response_token_ids st;
     sr_response_logprobs := sr_response_logprobs st;
     sr_all_token_ids := sr_all_token_ids st;
     sr_all_logprobs := sr_all_logprobs st;
     sr_input_token_texts := sr_input_token_texts st;
     sr_output_token_texts := sr_output_token_texts st;
     sr_messages_snapshot := sr_messages_snapshot st;
     sr_raw_response_text := sr_raw_response_text st;
     sr_step_id := sr_step_id st;
     sr_lineage_id := sr_lineage_id st;
     sr_lineage_index := sr_lineage_index st;
     sr_route_type := sr_route_type st;
     sr_route_base_step_id := sr_route_base_step_id st;
     sr_normalized_messages_snapshot := sr_normalized_messages_snapshot st;
     sr_snapshot_rendered := rendered;
     sr_snapshot_rendered_len := n;
     sr_snapshot_tools_hash := Some tools_hash;
     sr_lineage_segment_boundary_before := sr_lineage_segment_boundary_before st;
     sr_lineage_segment_reasons_before := sr_lineage_segment_reasons_before st;
     sr_prompt_versions := sr_prompt_versions st;
     sr_response_versions := sr_response_versions st;
     sr_all_versions := sr_all_versions st;
     sr_all_logprobs_invalid := sr_all_logprobs_invalid st;
     sr_concat_token_ids := sr_concat_token_ids st;
     sr_concat_response_logprobs := sr_concat_response_logprobs st;
     sr_concat_response_mask := sr_concat_response_mask st;
     sr_concat_versions := sr_concat_versions st;
     sr_concat_context_token_count := sr_concat_context_token_count st;
     sr_concat_output_token_count := sr_concat_output_token_count st;
     sr_concat_logprobs_invalid := sr_concat_logprobs_invalid st;
     sr_concat_incremental_tokenization_failed := sr_concat_incremental_tokenization_failed st;
     sr_response_routed_experts_chunks := sr_response_routed_experts_chunks st;
     sr_tools := sr_tools st;
     sr_segment_boundary_before := sr_segment_boundary_before st;
     sr_rewrite_reason := sr_rewrite_reason st;
     sr_segment_reason_before := sr_segment_reason_before st;
     sr_segment_reasons_before := sr_segment_reasons_before st;
     sr_finish_reason := sr_finish_reason st;
     sr_request_version := sr_request_version st;
     sr_response_version := sr_response_version st;
     sr_tool_call_hook_metadata := sr_tool_call_hook_metadata st;
     sr_request_e2e_latency_seconds := sr_request_e2e_latency_seconds st;
     sr_request_queue_seconds := sr_request_queue_seconds st;
     sr_rebalancing_moved := sr_rebalancing_moved st;
     sr_timestamp := sr_timestamp st |}.

(** [oid] is the object's identity ([is]); [steps_by_id] holds positions of [steps], the
    records being shared between the two; [request_locked] is [request_lock.locked()]. *)
Record Session : Type := {
  oid : nat;
  session_id : string;
  instance_id : string;
  incarnation_id : option string;
  steps : list StepRecord;
  history_rewritten : bool;
  s_rewrite_reason : option string;
  rewrite_detected_at : option float;
  created_at : float;
  last_active : float;
  turn_mode : option TurnMode;
  implicit_turn_id : option string;
  turn_ids : list string;
  active_turn_id : option string;
  s_rollout_epoch : option Z;
  lineages : list (string * Lineage);
  steps_by_id : list (string * nat);
  prefix_tree : SessionPrefixTree;
  request_locked : bool;
  _turn_counter : Z;
  _step_counter : Z;
  _lineage_counter : Z }.

Definition new_session (o : nat) (sid iid : string) (t1 t2 : float) : Session :=
  {| oid := o;
     session_id := sid;
     instance_id := iid;
     incarnation_id := None;
     steps := [];
     history_rewritten := false;
     s_rewrite_reason := None;
     rewrite_detected_at := None;
     created_at := t1;
     last_active := t2;
     turn_mode := None;
     implicit_turn_id := None;
     turn_ids := [];
     active_turn_id := None;
     s_rollout_epoch := None;
     lineages := [];
     steps_by_id := [];
     prefix_tree := SessionPrefixTree__init__;
     request_locked := false;
     _turn_counter := 0;
     _step_counter := 0;
     _lineage_counter := 0 |}.

Definition set_last_active (s : Session) (t : float) : Session :=
  {| oid := oid s;
     session_id := session_id s;
     instance_id := instance_id s;
     incarnation_id := incarnation_id s;
     steps := steps s;
     history_rewritten := history_rewritten s;
     s_rewrite_reason := s_rewrite_reason s;
     rewrite_detected_at := rewrite_detected_at s;
     created_at := created_at s;
     last_active := t;
     turn_mode := turn_mode s;
     implicit_turn_id := implicit_turn_id s;
     turn_ids := turn_ids s;
     active_turn_id := active_turn_id s;
     s_rollout_epoch := s_rollout_epoch s;
     lineages := lineages s;
     steps_by_id := steps_by_id s;
     prefix_tree := prefix_tree s;
     request_locked := request_locked s;
     _turn_counter := _turn_counter s;
     _step_counter := _step_counter s;
     _lineage_counter := _lineage_counter s |}.

Definition set_instance (s : Session) (iid : string) : Session :=
  {| oid := oid s;
     session_id := session_id s;
     instance_id := iid;
     incarnation_id := incarnation_id s;
     steps := steps s;
     history_rewritten := history_rewritten s;
     s_rewrite_reason := s_rewrite_reason s;
     rewrite_detected_at := rewrite_detected_at s;
     created_at := created_at s;
     last_active := last_active s;
     turn_mode := turn_mode s;
     implicit_turn_id := implicit_turn_id s;
     turn_ids := turn_ids s;
     active_turn_id := active_turn_id s;
     s_rollout_epoch := s_rollout_epoch s;
     lineages := lineages s;
     steps_by_id := steps_by_id s;
     prefix_tree := prefix_tree s;
     request_locked := request_locked s;
     _turn_counter := _turn_counter s;
     _step_counter := _step_counter s;
     _lineage_counter := _lineage_counter s |}.

Definition set_turns (s : Session) (m : option TurnMode) (imp : option string) (ids : list string)
    (act : option string) : Session :=
  {| oid := oid s;
     session_id := session_id s;
     instance_id := instance_id s;
     incarnation_id := incarnation_id s;
     steps := steps s;
     history_rewritten := history_rewritten s;
     s_rewrite_reason := s_rewrite_reason s;
     rewrite_detected_at := rewrite_detected_at s;
     created_at := created_at s;
     last_active := last_active s;
     turn_mode := m;
     implicit_turn_id := imp;
     turn_ids := ids;
     active_turn_id := act;
     s_rollout_epoch := s_rollout_epoch s;
     lineages := lineages s;
     steps_by_id := steps_by_id s;
     prefix_tree := prefix_tree s;
     request_locked := request_locked s;
     _turn_counter := _turn_counter s;
     _step_counter := _step_counter s;
     _lineage_counter := _lineage_counter s |}.

Definition set_rewritten (s : Session) (r : option string) (t : float) : Session :=
  {| oid := oid s;
     session_id := session_id s;
     instance_id := instance_id s;
     incarnation_id := incarnation_id s;
     steps := steps s;
     history_rewritten := true;
     s_rewrite_reason := r;
     rewrite_detected_at := Some t;
     created_at := created_at s;
     last_active := last_active s;
     turn_mode := turn_mode s;
     implicit_turn_id := implicit_turn_id s;
     turn_ids := turn_ids s;
     active_turn_id := active_turn_id s;
     s_rollout_epoch := s_rollout_epoch s;
     lineages := lineages s;
     steps_by_id := steps_by_id s;
     prefix_tree := prefix_tree s;
     request_locked := request_locked s;
     _turn_counter := _turn_counter s;
     _step_counter := _step_counter s;
     _lineage_counter := _lineage_counter s |}.

Definition set_locked (s : Session) (b : bool) : Session :=
  {| oid := oid s;
     session_id := session_id s;
     instance_id := instance_id s;
     incarnation_id := incarnation_id s;
     steps := steps s;
     history_rewritten := history_rewritten s;
     s_rewrite_reason := s_rewrite_reason s;
     rewrite_detected_at := rewrite_detected_at s;
     created_at := created_at s;
     last_active := last_active s;
     turn_mode := turn_mode s;
     implicit_turn_id := implicit_turn_id s;
     turn_ids := turn_ids s;
     active_turn_id := active_turn_id s;
     s_rollout_epoch := s_rollout_epoch s;
     lineages := lineages s;
     steps_by_id := steps_by_id s;
     prefix_tree := prefix_tree s;
     request_locked := b;
     _turn_counter := _turn_counter s;
     _step_counter := _step_counter s;
     _lineage_counter := _lineage_counter s |}.

Definition set_steps (s : Session) (l : list StepRecord) (by_id : list (string * nat))
    (tree : SessionPrefixTree) : Session :=
  {| oid := oid s;
     session_id := session_id s;
     instance_id := instance_id s;
     incarnation_id := incarnation_id s;
     steps := l;
     history_rewritten := history_rewritten s;
     s_rewrite_reason := s_rewrite_reason s;
     rewrite_detected_at := rewrite_detected_at s;
     created_at := created_at s;
     last_active := last_active s;
     turn_mode := turn_mode s;
     implicit_turn_id := implicit_turn_id s;
     turn_ids := turn_ids s;
     active_turn_id := active_turn_id s;
     s_rollout_epoch := s_rollout_epoch s;
     lineages := lineages s;
     steps_by_id := by_id;
     prefix_tree := tree;
     request_locked := request_locked s;
     _turn_counter := _turn_counter s;
     _step_counter := _step_counter s;
     _lineage_counter := _lineage_counter s |}.

Definition set_lineages (s : Session) (ls : list (string * Lineage)) (n : Z) : Session :=
  {| oid := oid s;
     session_id := session_id s;
     instance_id := instance_id s;
     incarnation_id := incarnation_id s;
     steps := steps s;
     history_rewritten := history_rewritten s;
     s_rewrite_reason := s_rewrite_reason s;
     rewrite_detected_at := rewrite_detected_at s;
     created_at := created_at s;
     last_active := last_active s;
     turn_mode := turn_mode s;
     implicit_turn_id := implicit_turn_id s;
     turn_ids := turn_ids s;
     active_turn_id := active_turn_id s;
     s_rollout_epoch := s_rollout_epoch s;
     lineages := ls;
     steps_by_id := steps_by_id s;
     prefix_tree := prefix_tree s;
     request_locked := request_locked s;
     _turn_counter := _turn_counter s;
     _step_counter := _step_counter s;
     _lineage_counter := n |}.

Definition set_step_counter (s : Session) (n : Z) : Session :=
  {| oid := oid s;
     session_id := session_id s;
     instance_id := instance_id s;
     incarnation_id := incarnation_id s;
     steps := steps s;
     history_rewritten := history_rewritten s;
     s_rewrite_reason := s_rewrite_reason s;
     rewrite_detected_at := rewrite_detected_at s;
     created_at := created_at s;
     last_active := last_active s;
     turn_mode := turn_mode s;
     implicit_turn_id := implicit_turn_id s;
     turn_ids := turn_ids s;
     active_turn_id := active_turn_id s;
     s_rollout_epoch := s_rollout_epoch s;
     lineages := lineages s;
     steps_by_id := steps_by_id s;
     prefix_tree := prefix_tree s;
     request_locked := request_locked s;
     _turn_counter := _turn_counter s;
     _step_counter := n;
     _lineage_counter := _lineage_counter s |}.

Definition set_turn_counter (s : Session) (n : Z) : Session :=
  {| oid := oid s;
     session_id := session_id s;
     instance_id := instance_id s;
     incarnation_id := incarnation_id s;
     steps := steps s;
     history_rewritten := history_rewritten s;
     s_rewrite_reason := s_rewrite_reason s;
     rewrite_detected_at := rewrite_detected_at s;
     created_at := created_at s;
     last_active := last_active s;
     turn_mode := turn_mode s;
     implicit_turn_id := implicit_turn_id s;
     turn_ids := turn_ids s;
     active_turn_id := active_turn_id s;
     s_rollout_epoch := s_rollout_epoch s;
     lineages := lineages s;
     steps_by_id := steps_by_id s;
     prefix_tree := prefix_tree s;
     request_locked := request_locked s;
     _turn_counter := n;
     _step_counter := _step_counter s;
     _lineage_counter := _lineage_counter s |}.

(** ** Counters *)

(** [f"{n:06d}"] for a counter, which is never negative. *)
Definition pad6 (n : Z) : string :=
  let s := str_of_Z n in
  String.concat "" (replicate (6 - String.length s) "0") +:+ s.

Definition next_turn_id (s : Session) : Session * string :=
  let n := (_turn_counter s + 1)%Z in (set_turn_counter s n, str_of_Z n).

Definition next_step_id (s : Session) : Session * string :=
  let n := (_step_counter s + 1)%Z in (set_step_counter s n, "step-" +:+ pad6 n).

Definition create_lineage (s : Session) (branch_from : option string) : Session * Lineage :=
  let n := (_lineage_counter s + 1)%Z in
  let l := {| l_id := "lineage-" +:+ pad6 n; l_index := (n - 1)%Z; latest_step_id := None;
              branch_from_step_id := branch_from |} in
  (set_lineages s (dset (lineages s) (l_id l) l) n, l).

(** ** The prefix index *)

Section PrefixTree.
Context `{PyText}.

(** [hashlib.sha256(_canonical_json(messages).encode()).hexdigest()] *)
Definition fingerprint (messages : list pyval) : string :=
  hex_of (sha256 (bytes_of (json_dumps (PList messages)))).

Definition set_add (l : list string) (x : string) : list string :=
  if bool_decide (x ∈ l) then l else l ++ [x].

Definition tree_insert (t : SessionPrefixTree) (st : StepRecord) : SessionPrefixTree :=
  let fp := fingerprint (sr_normalized_messages_snapshot st) in
  {| _by_fingerprint :=
       dset (_by_fingerprint t) fp (set_add (dget_def [] (_by_fingerprint t) fp) (sr_step_id st));
     _fingerprint_by_step_id := dset (_fingerprint_by_step_id t) (sr_step_id st) fp;
     _all_step_ids := _all_step_ids t ++ [sr_step_id st] |}.

(** [for step_id in ids: if step_id in seen: continue; seen.add; append] *)
Definition add_unseen (cands ids : list string) : list string :=
  fold_left (fun acc x => if bool_decide (x ∈ acc) then acc else acc ++ [x]) ids cands.

(** [iter] is the order in which a set is enumerated. *)
Definition candidates (iter : list string -> list string) (t : SessionPrefixTree)
    (current : list pyval) : list string :=
  let by_prefix :=
    fold_left (fun acc n =>
                 add_unseen acc (iter (dget_def [] (_by_fingerprint t)
                                         (fingerprint (take n current)))))
              (seq 0 (S (length current))) [] in
  add_unseen by_prefix (_all_step_ids t).
End PrefixTree.

(** ** Message normalization *)

Definition is_alnum (c : ascii) : bool :=
  let n := N_of_ascii c in
  ((48 <=? n) && (n <=? 57) || (65 <=? n) && (n <=? 90) || (97 <=? n) && (n <=? 122))%N.

(** [re.sub("[^A-Za-z0-9]", "", value)] *)
Fixpoint keep_alnum (s : string) : string :=
  match s with
  | EmptyString => ""
  | String c s' => if is_alnum c then String c (keep_alnum s') else keep_alnum s'
  end.

Definition canonicalize_openclaw_tool_call_id (value : pyval) : pyval :=
  match value with PStr s => PStr (keep_alnum s) | _ => value end.

Section Normalize.
Context `{PyText}.

Definition canonicalize_reasoning_content (value : pyval) : option string :=
  match value with
  | PNone => None
  | _ => let stripped := strip (py_str value) in
         if String.eqb stripped "" then None else Some stripped
  end.

Definition _normalize_tool_call_arguments (arguments : pyval) : pyval :=
  match arguments with
  | PStr s => match json_loads s with
              | Some v => PStr (json_dumps v)
              | None => arguments
              end
  | _ => PStr (json_dumps arguments)
  end.

Definition _normalize_tool_call (tool_call : pyval) : pyval :=
  match tool_call with
  | PDict d =>
      let f := pget d "function" in
      PDict [("id", canonicalize_openclaw_tool_call_id (pget d "id"));
             ("type", pget d "type");
             ("function",
              match f with
              | PDict fd => PDict [("name", pget fd "name");
                                   ("arguments",
                                    _normalize_tool_call_arguments (pget fd "arguments"))]
              | _ => f
              end)]
  | _ => tool_call
  end.

Definition _normalize_tool_calls (tool_calls : pyval) : pyval :=
  match tool_calls with
  | PList l => PList (map _normalize_tool_call l)
  | _ => tool_calls
  end.

Definition _has_tool_calls (message : list (string * pyval)) : bool :=
  match pget message "tool_calls" with PList (_ :: _) => true | _ => false end.

(** An optional key copied through [f] when the message has it. *)
Definition copy_key (message : list (string * pyval)) (k : string)
    (f : pyval -> option pyval) : list (string * pyval) :=
  match dget message k with
  | Some v => match f v with Some w => [(k, w)] | None => [] end
  | None => []
  end.

Definition _normalize_message (message : list (string * pyval)) : list (string * pyval) :=
  let content := pget message "content" in
  let content := if _has_tool_calls message && py_eqb content (PStr "") then PNone else content in
  [("role", pget message "role"); ("content", content)]
  ++ copy_key message "name" Some
  ++ copy_key message "reasoning_content" (fun v => PStr <$> canonicalize_reasoning_content v)
  ++ copy_key message "tool_call_id" (fun v => Some (canonicalize_openclaw_tool_call_id v))
  ++ copy_key message "tool_calls" (fun v => Some (_normalize_tool_calls v)).

Definition is_append_only_continuation (previous current : list (list (string * pyval))) : bool :=
  if Nat.ltb (length current) (length previous) then false
  else py_eqb (PList (map (fun m => PDict (_normalize_message m)) previous))
              (PList (map (fun m => PDict (_normalize_message m))
                          (take (length previous) current))).
End Normalize.

(** ** [SessionManager] *)

Record SessionManager : Type := {
  _sessions : list (string * Session);
  _finalized_session_ids : list (string * float);
  _finalization_results : list (string * list (string * pyval));
  _session_timeout : float;
  next_oid : nat }.

Definition SessionManager__init__ (timeout : float) : SessionManager :=
  {| _sessions := []; _finalized_session_ids := []; _finalization_results := [];
     _session_timeout := timeout; next_oid := 0 |}.

Definition set_sessions (m : SessionManager) (l : list (string * Session)) : SessionManager :=
  {| _sessions := l; _finalized_session_ids := _finalized_session_ids m;
     _finalization_results := _finalization_results m; _session_timeout := _session_timeout m;
     next_oid := next_oid m |}.

(** [now - t <= self._session_timeout] *)
Definition within_timeout (m : SessionManager) (now t : float) : bool :=
  fleb (fsub now t) (_session_timeout m).

(** What the sweep does to one session: [None] is eviction. *)
Definition sweep_one (m : SessionManager) (now : float) (s : Session) : option Session :=
  if within_timeout m now (last_active s) then Some s
  else if request_locked s then Some (set_last_active s now)
  else None.

(** [now - finalized_at > self._session_timeout] *)
Definition finalized_expired (m : SessionManager) (now t : float) : bool :=
  fltb (_session_timeout m) (fsub now t).

Definition _cleanup_expired_locked (m : SessionManager) (now : float) : SessionManager :=
  let expired := map fst (List.filter (fun kt => finalized_expired m now (snd kt))
                                      (_finalized_session_ids m)) in
  {| _sessions := omap (fun ks => s' ← sweep_one m now (snd ks); Some (fst ks, s')) (_sessions m);
     _finalized_session_ids := fold_left dpop expired (_finalized_session_ids m);
     _finalization_results := fold_left dpop expired (_finalization_results m);
     _session_timeout := _session_timeout m; next_oid := next_oid m |}.

(** [session_id and session_id in d] *)
Definition has_id {V} (sid : option string) (d : list (string * V)) : bool :=
  match sid with
  | Some k => negb (String.eqb k "") && bool_decide (k ∈ dkeys d)
  | None => false
  end.

(** [value or str(uuid.uuid4())] *)
Definition or_uuid (o : option string) (uuid : string) : string :=
  match o with
  | Some s => if String.eqb s "" then uuid else s
  | None => uuid
  end.

(** [now] is the sweep's clock, [t1] and [t2] the later readings. *)
Definition get_or_create_session (m : SessionManager) (sid iid : option string)
    (uuid1 uuid2 : string) (now t1 t2 : float) : SessionManager * result (Session * bool) :=
  let m := _cleanup_expired_locked m now in
  if has_id sid (_finalized_session_ids m)
  then (m, Raise (SessionFinalizedError "has already been finalized."))
  else match (if has_id sid (_sessions m) then k ← sid; s ← dget (_sessions m) k; Some (k, s)
              else None) with
       | Some (k, s) =>
           let s := set_last_active s t1 in
           let s := match iid with
                    | Some i => if negb (String.eqb i "") && negb (String.eqb i (instance_id s))
                                then set_instance s i else s
                    | None => s
                    end in
           (set_sessions m (dset (_sessions m) k s), Ok (s, false))
       | None =>
           let k := or_uuid sid uuid1 in
           let s := new_session (next_oid m) k (or_uuid iid uuid2) t1 t2 in
           ({| _sessions := dset (_sessions m) k s;
               _finalized_session_ids := _finalized_session_ids m;
               _finalization_results := _finalization_results m;
               _session_timeout := _session_timeout m; next_oid := S (next_oid m) |},
            Ok (s, true))
       end.

(** [o] is the identity of the session object the caller holds. *)
Definition ensure_session_active (m : SessionManager) (sid : string) (o : nat) (now : float)
    : SessionManager * result unit :=
  let m := _cleanup_expired_locked m now in
  match dget (_finalized_session_ids m) sid with
  | Some _ => (m, Raise (SessionFinalizedError "has already been finalized."))
  | None =>
      match dget (_sessions m) sid with
      | Some s => if Nat.eqb (oid s) o then (m, Ok tt)
                  else (m, Raise (SessionFinalizedError "is no longer active."))
      | None => (m, Raise (SessionFinalizedError "is no longer active."))
      end
  end.

Definition _is_reserved_turn_id (turn_id : string) : bool :=
  String.prefix IMPLICIT_TURN_ID_PREFIX turn_id.

(** The body of [resolve_turn_id] on the session found. *)
Definition resolve_turn (s : Session) (requested : option string) (uuid : string)
    : Session * result string :=
  match requested with
  | None =>
      match turn_mode s with
      | Some explicit =>
          (s, Raise (ValueError "turn_id is required once the session starts using explicit turns."))
      | Some implicit => (s, Ok (default "" (implicit_turn_id s)))
      | None =>
          let t := IMPLICIT_TURN_ID_PREFIX +:+ uuid in
          (set_turns s (Some implicit) (Some t) (turn_ids s ++ [t]) (Some t), Ok t)
      end
  | Some r =>
      if _is_reserved_turn_id r
      then (s, Raise (ValueError "turn_id uses a reserved implicit-turn prefix."))
      else if bool_decide (turn_mode s = Some implicit)
      then (s, Raise (ValueError "Cannot provide explicit turn_id after the session started in implicit single-turn mode."))
      else
        let keep := set_turns s (Some explicit) (implicit_turn_id s) (turn_ids s)
                      (active_turn_id s) in
        let advance := set_turns s (Some explicit) (implicit_turn_id s) (turn_ids s ++ [r])
                         (Some r) in
        match active_turn_id s with
        | None => (advance, Ok r)
        | Some a =>
            if String.eqb r a then (keep, Ok r)
            else if bool_decide (r ∈ turn_ids s)
            then (keep, Raise (ValueError "Cannot return to a previous turn_id after the session has advanced to a newer turn."))
            else (advance, Ok r)
        end
  end.

Definition resolve_turn_id (m : SessionManager) (sid : string) (requested : option string)
    (uuid : string) (now : float) : SessionManager * result string :=
  match dget (_sessions m) sid with
  | None => (m, Raise (KeyError "not found"))
  | Some s =>
      let '(s', r) := resolve_turn (set_last_active s now) requested uuid in
      (set_sessions m (dset (_sessions m) sid s'), r)
  end.

Section RecordStep.
Context `{PyText}.

(** [lineage.latest_step_id = step.step_id] when the lineage exists *)
Definition touch_lineage (ls : list (string * Lineage)) (lid sid : string)
    : list (string * Lineage) :=
  match dget ls lid with
  | Some l => dset ls lid {| l_id := l_id l; l_index := l_index l; latest_step_id := Some sid;
                             branch_from_step_id := branch_from_step_id l |}
  | None => ls
  end.

(** The body of [record_step] on the session found. *)
Definition record_in (s : Session) (a : StepArgs) (t1 t2 : float) : Session * StepRecord :=
  let '(s, step_id) := match ra_step_id a with
                       | Some i => (s, i)
                       | None => next_step_id s
                       end in
  let '(s, lid, lix) :=
    match ra_lineage_id a with
    | None => let '(s, l) := create_lineage s (ra_route_base_step_id a) in
              (s, l_id l, Some (l_index l))
    | Some lid =>
        (s, lid, match ra_lineage_index a with
                 | Some i => Some i
                 | None => match dget (lineages s) lid with
                           | Some l => Some (l_index l)
                           | None => Some 0%Z
                           end
                 end)
    end in
  let st := make_step a step_id lid lix t1 in
  let s := set_steps s (steps s ++ [st]) (dset (steps_by_id s) step_id (length (steps s)))
             (match sr_normalized_messages_snapshot st with
              | [] => prefix_tree s
              | _ => tree_insert (prefix_tree s) st
              end) in
  let s := set_lineages s (touch_lineage (lineages s) lid step_id) (_lineage_counter s) in
  (set_last_active s t2, st).

Definition record_step (m : SessionManager) (sid : string) (a : StepArgs) (t1 t2 : float)
    : SessionManager * option StepRecord :=
  match dget (_sessions m) sid with
  | None => (m, None)
  | Some s => let '(s', st) := record_in s a t1 t2 in
              (set_sessions m (dset (_sessions m) sid s'), Some st)
  end.
End RecordStep.

Definition mark_history_rewritten (m : SessionManager) (sid reason : string) (now : float)
    : SessionManager :=
  match dget (_sessions m) sid with
  | Some s => if history_rewritten s then m
              else set_sessions m (dset (_sessions m) sid (set_rewritten s (Some reason) now))
  | None => m
  end.

Definition get_session (m : SessionManager) (sid : string) : option Session :=
  dget (_sessions m) sid.

Definition get_finalization_result (m : SessionManager) (sid : string) (now : float)
    : SessionManager * option (list (string * pyval)) :=
  let m := _cleanup_expired_locked m now in (m, dget (_finalization_results m) sid).

Definition finalize_session (m : SessionManager) (sid : string)
    (res : option (list (string * pyval))) (now : float) : SessionManager * option Session :=
  match dget (_sessions m) sid with
  | None => (m, None)
  | Some s =>
      ({| _sessions := dpop (_sessions m) sid;
          _finalized_session_ids := dset (_finalized_session_ids m) sid now;
          _finalization_results := match res with
                                   | Some r => dset (_finalization_results m) sid r
                                   | None => _finalization_results m
                                   end;
          _session_timeout := _session_timeout m; next_oid := next_oid m |}, Some s)
  end.

Definition discard_session (m : SessionManager) (sid : string) : SessionManager * bool :=
  ({| _sessions := dpop (_sessions m) sid;
      _finalized_session_ids := dpop (_finalized_session_ids m) sid;
      _finalization_results := dpop (_finalization_results m) sid;
      _session_timeout := _session_timeout m; next_oid := next_oid m |},
   bool_decide (is_Some (dget (_sessions m) sid))
   || bool_decide (is_Some (dget (_finalized_session_ids m) sid))
   || bool_decide (is_Some (dget (_finalization_results m) sid))).

Definition active_count (m : SessionManager) (now : float) : SessionManager * nat :=
  let m := _cleanup_expired_locked m now in (m, length (_sessions m)).

(** ** Facts on dictionaries *)

Lemma dkeys_omap {V W} (f : string -> V -> option W) (d : list (string * V)) k :
  k ∈ dkeys (omap (fun ks => w ← f (fst ks) (snd ks); Some (fst ks, w)) d) -> k ∈ dkeys d.
Proof.
  unfold dkeys. induction d as [|[k' v] d IH]; simpl; [done|].
  destruct (f k' v); simpl; rewrite ?elem_of_cons; naive_solver.
Qed.

Lemma omap_NoDup {V W} (f : string -> V -> option W) (d : list (string * V)) :
  NoDup (dkeys d) ->
  NoDup (dkeys (omap (fun ks => w ← f (fst ks) (snd ks); Some (fst ks, w)) d)).
Proof.
  induction d as [|[k' v] d IH]; simpl; [done|]. intros [N ND]%NoDup_cons.
  destruct (f k' v); simpl; [|by apply IH]. apply NoDup_cons. split; [|by apply IH].
  intros I. by apply dkeys_omap in I.
Qed.

Lemma dget_omap {V W} (f : string -> V -> option W) (d : list (string * V)) k :
  NoDup (dkeys d) ->
  dget (omap (fun ks => w ← f (fst ks) (snd ks); Some (fst ks, w)) d) k = dget d k ≫= f k.
Proof.
  induction d as [|[k' v] d IH]; simpl; [done|]. intros [N ND]%NoDup_cons.
  destruct (decide (k = k')) as [->|Ne].
  - simpl. destruct (f k' v); simpl; [by rewrite decide_True|].
    apply dget_None_key. intros I. by apply dkeys_omap in I.
  - destruct (f k' v); simpl; [rewrite decide_False by done|]; by apply IH.
Qed.

Lemma fold_dpop_NoDup {V} ks : forall d : list (string * V),
  NoDup (dkeys d) -> NoDup (dkeys (fold_left dpop ks d)).
Proof. induction ks as [|k ks IH]; simpl; intros d ND; [done|]. by apply IH, dpop_NoDup. Qed.

Lemma dget_fold_dpop {V} ks : forall (d : list (string * V)) k, NoDup (dkeys d) ->
  dget (fold_left dpop ks d) k = if decide (k ∈ ks) then None else dget d k.
Proof.
  induction ks as [|k' ks IH]; simpl; intros d k ND; [done|].
  rewrite IH by (by apply dpop_NoDup). rewrite dget_dpop by done.
  destruct (decide (k ∈ ks)), (decide (k' = k)), (decide (k ∈ k' :: ks)); try done; set_solver.
Qed.

(** ** Expiry *)

Lemma cleanup_session m now k : NoDup (dkeys (_sessions m)) ->
  dget (_sessions (_cleanup_expired_locked m now)) k
  = dget (_sessions m) k ≫= sweep_one m now.
Proof. intros ND. apply (dget_omap (fun _ => sweep_one m now)). done. Qed.

Lemma cleanup_finalized m now k : NoDup (dkeys (_finalized_session_ids m)) ->
  dget (_finalized_session_ids (_cleanup_expired_locked m now)) k
  = t ← dget (_finalized_session_ids m) k;
    if finalized_expired m now t then None else Some t.
Proof.
  intros ND. simpl. rewrite dget_fold_dpop by done.
  destruct (dget (_finalized_session_ids m) k) as [t|] eqn:E; simpl; [|by case_decide].
  assert (k ∈ map fst (List.filter (fun kt => finalized_expired m now (snd kt))
                         (_finalized_session_ids m)) <-> finalized_expired m now t = true) as X.
  { rewrite list_elem_of_fmap. split.
    - intros ([k' t'] & -> & I). apply list_elem_of_In, filter_In in I as [I F]. simpl in *.
      apply list_elem_of_In in I. rewrite (dget_NoDup_elem _ _ _ ND I) in E. congruence.
    - intros F. exists (k, t). split; [done|]. apply list_elem_of_In, filter_In.
      split; [|done]. by apply list_elem_of_In, dget_elem. }
  destruct (finalized_expired m now t), (decide (k ∈ map fst _)); naive_solver.
Qed.

(** ** The invariant *)

Definition turn_ok (s : Session) : Prop :=
  match turn_mode s with
  | None => turn_ids s = [] /\ active_turn_id s = None /\ implicit_turn_id s = None
  | Some implicit => exists t, implicit_turn_id s = Some t /\ turn_ids s = [t] /\
                               active_turn_id s = Some t /\ _is_reserved_turn_id t = true
  | Some explicit => implicit_turn_id s = None /\ NoDup (turn_ids s) /\
                     Forall (fun t => _is_reserved_turn_id t = false) (turn_ids s) /\
                     (exists a, active_turn_id s = Some a /\ last (turn_ids s) = Some a)
  end.

Section Invariant.
Context `{PyText}.

(** Steps with no recorded messages are not indexed by prefix. *)
Definition indexed (st : StepRecord) : bool :=
  negb (Nat.eqb (length (sr_normalized_messages_snapshot st)) 0).

Record steps_ok (s : Session) : Prop := {
  so_index : forall k i, dget (steps_by_id s) k = Some i ->
             exists st, steps s !! i = Some st /\ sr_step_id st = k;
  so_found : forall i st, steps s !! i = Some st -> is_Some (dget (steps_by_id s) (sr_step_id st));
  so_tree : prefix_tree s =
            fold_left tree_insert (List.filter indexed (steps s)) SessionPrefixTree__init__;
  so_lineage : forall k l x, dget (lineages s) k = Some l -> latest_step_id l = Some x ->
               is_Some (dget (steps_by_id s) x) }.

Definition session_ok (k : string) (s : Session) : Prop :=
  session_id s = k /\ turn_ok s /\ steps_ok s.

Record manager_ok (m : SessionManager) : Prop := {
  mo_sessions : NoDup (dkeys (_sessions m));
  mo_finalized : NoDup (dkeys (_finalized_session_ids m));
  mo_results : NoDup (dkeys (_finalization_results m));
  mo_disjoint : forall k, is_Some (dget (_finalized_session_ids m) k) -> dget (_sessions m) k = None;
  mo_cached : forall k, is_Some (dget (_finalization_results m) k) ->
              is_Some (dget (_finalized_session_ids m) k);
  mo_each : forall k s, dget (_sessions m) k = Some s -> session_ok k s;
  mo_oid : forall k s, dget (_sessions m) k = Some s -> (oid s < next_oid m)%nat;
  mo_ident : forall k k' s s', dget (_sessions m) k = Some s -> dget (_sessions m) k' = Some s' ->
             oid s = oid s' -> k = k' }.

Lemma sweep_keeps m now s s' k : sweep_one m now s = Some s' -> session_ok k s ->
  session_ok k s' /\ oid s' = oid s.
Proof.
  unfold sweep_one. destruct (within_timeout _ _ _); [by intros [= <-]|].
  destruct (request_locked s); [|done]. intros [= <-] (I & T & S).
  split; [|done]. split; [done|]. split; [done|]. destruct S. by split.
Qed.

Lemma cleanup_ok m now : manager_ok m -> manager_ok (_cleanup_expired_locked m now).
Proof.
  intros M. pose proof M as [S F R D C E O I].
  assert (X : forall k s, dget (_sessions (_cleanup_expired_locked m now)) k = Some s ->
            exists s0, dget (_sessions m) k = Some s0 /\ session_ok k s /\ oid s = oid s0).
  { intros k s Hs. rewrite cleanup_session in Hs by done.
    destruct (dget (_sessions m) k) as [s0|] eqn:E0; simpl in Hs; [|done].
    exists s0. split; [done|]. by eapply sweep_keeps; eauto. }
  split.
  - by apply (omap_NoDup (fun _ => sweep_one m now)).
  - by apply fold_dpop_NoDup.
  - by apply fold_dpop_NoDup.
  - intros k. rewrite cleanup_finalized, cleanup_session by done. intros [t Ht].
    destruct (dget (_finalized_session_ids m) k) as [t'|] eqn:Ef; [|done].
    rewrite D; [done|by rewrite Ef].
  - intros k. simpl. rewrite !dget_fold_dpop by done. intros [r Hr]. case_decide; [done|]. eauto.
  - intros k s Hs. by destruct (X k s Hs) as (s0 & _ & K & _).
  - intros k s Hs. destruct (X k s Hs) as (s0 & E0 & _ & ->). simpl. eauto.
  - intros k k' s s' Hs Hs' Eo. destruct (X k s Hs) as (s0 & E0 & _ & Eo0).
    destruct (X k' s' Hs') as (s1 & E1 & _ & Eo1). eapply I; eauto. congruence.
Qed.

(** Replacing a session by an updated version of itself. *)
Lemma update_ok m k s s' :
  manager_ok m -> dget (_sessions m) k = Some s -> session_ok k s' -> oid s' = oid s ->
  manager_ok (set_sessions m (dset (_sessions m) k s')).
Proof.
  intros [S F R D C E O I] Hk K Eo.
  assert (X : forall j t, dget (dset (_sessions m) k s') j = Some t ->
             exists t0, dget (_sessions m) j = Some t0 /\ oid t = oid t0 /\ session_ok j t).
  { intros j t. rewrite dget_dset. case_decide as Dj; [|by eauto].
    intros [= <-]. subst j. eauto. }
  split; simpl; auto.
  - by apply dset_NoDup.
  - intros j Hj. rewrite dget_dset. case_decide as Dj; [|by apply D].
    subst j. rewrite (D k Hj) in Hk. done.
  - intros j t Ht. by destruct (X j t Ht) as (_ & _ & _ & K').
  - intros j t Ht. destruct (X j t Ht) as (t0 & E0 & -> & _). eauto.
  - intros j j' t t' Ht Ht' Et. destruct (X j t Ht) as (t0 & E0 & Eo0 & _).
    destruct (X j' t' Ht') as (t1 & E1 & Eo1 & _). eapply I; eauto. congruence.
Qed.

(** *** Turns *)

Lemma prefix_app p t : String.prefix p (p +:+ t) = true.
Proof.
  induction p as [|c p IH]; [by destruct t|].
  change (String c p +:+ t) with (String c (p +:+ t)). simpl. by destruct (ascii_dec c c).
Qed.


Lemma resolve_turn_ok s r u s' x :
  resolve_turn s r u = (s', x) -> turn_ok s -> steps_ok s ->
  turn_ok s' /\ steps_ok s' /\ oid s' = oid s /\ session_id s' = session_id s.
Proof.
  intros E T S. unfold resolve_turn in E.
  assert (K : steps_ok s' /\ oid s' = oid s /\ session_id s' = session_id s).
  { repeat case_match; simplify_eq; (split; [destruct S; by split|done]). }
  split; [|done]. clear K. unfold turn_ok in T.
  destruct r as [r|].
  - destruct (_is_reserved_turn_id r) eqn:Er; [by simplify_eq|].
    destruct (turn_mode s) as [[]|] eqn:Em; simpl in E.
    + injection E as <- <-. unfold turn_ok. by rewrite Em.
    + destruct T as (Ti & ND & Fr & a & Ea & El). rewrite Ea in E.
      destruct (String.eqb_spec r a); [|destruct (decide (r ∈ turn_ids s)) as [Hin|Hn]].
      * simplify_eq. unfold turn_ok. simpl. eauto 10.
      * rewrite bool_decide_true in E by done. simplify_eq. unfold turn_ok. simpl. eauto 10.
      * rewrite bool_decide_false in E by done. simplify_eq. unfold turn_ok. simpl.
        split; [done|]. split; [|split].
        -- apply NoDup_app. split; [done|]. split; [|apply NoDup_singleton]. set_solver.
        -- apply Forall_app. by repeat constructor.
        -- exists r. by rewrite last_snoc.
    + destruct T as (Ti & Ta & Tp). rewrite Ta in E. simplify_eq. unfold turn_ok. simpl.
      rewrite Ti, Tp. repeat split; auto; [apply NoDup_singleton|by repeat constructor|by exists r].
  - destruct (turn_mode s) as [[]|] eqn:Em; simplify_eq; try (unfold turn_ok; by rewrite Em).
    destruct T as (Ti & Ta & Tp). unfold turn_ok. simpl. rewrite Ti. eexists.
    repeat split; eauto. apply prefix_app.
Qed.
End Invariant.

(** *** Steps *)

Section StepsOk.
Context `{PyText}.

Lemma touch_lineage_get ls lid x k l :
  dget (touch_lineage ls lid x) k = Some l ->
  latest_step_id l = Some x \/ exists l', dget ls k = Some l' /\ latest_step_id l' = latest_step_id l.
Proof.
  unfold touch_lineage. destruct (dget ls lid) as [l0|] eqn:E0; [|by eauto].
  rewrite dget_dset. case_decide; [|by eauto]. intros [= <-]. by left.
Qed.

Lemma create_lineage_ok s b s' l :
  create_lineage s b = (s', l) -> steps_ok s -> steps_ok s' /\
  turn_ok s' = turn_ok s /\ oid s' = oid s /\ session_id s' = session_id s /\
  steps s' = steps s /\ steps_by_id s' = steps_by_id s /\ prefix_tree s' = prefix_tree s.
Proof.
  unfold create_lineage. intros E [A B C D]. simplify_eq. split; [|done]. split; simpl; auto.
  intros k l0 x. rewrite dget_dset. case_decide; [|by eauto]. by intros [= <-].
Qed.

(** Appending a record that is indexed under its id. *)
Lemma steps_ok_append s st lid n :
  steps_ok s ->
  steps_ok (set_lineages
    (set_steps s (steps s ++ [st]) (dset (steps_by_id s) (sr_step_id st) (length (steps s)))
       (match sr_normalized_messages_snapshot st with
        | [] => prefix_tree s
        | _ => tree_insert (prefix_tree s) st
        end))
    (touch_lineage (lineages s) lid (sr_step_id st)) n).
Proof.
  intros [A B C D]. split; simpl.
  - intros k i. rewrite dget_dset. case_decide as Dk.
    + intros [= <-]. exists st. split; [|done]. by rewrite lookup_app_r, Nat.sub_diag.
    + intros E. destruct (A k i E) as (st' & Es & Ei). exists st'.
      split; [by apply lookup_app_l_Some|done].
  - intros i st' E. rewrite dget_dset. case_decide; [by eauto|].
    apply lookup_snoc_Some in E as [[_ E]|[_ <-]]; [by eauto|done].
  - rewrite List.filter_app, fold_left_app, <- C. simpl. unfold indexed.
    by destruct (sr_normalized_messages_snapshot st).
  - intros k l x El Ex. rewrite dget_dset. case_decide; [by eauto|].
    apply touch_lineage_get in El as [El|(l' & El & E')]; [congruence|].
    eapply D; [exact El|congruence].
Qed.

Lemma record_in_ok s a t1 t2 s' st :
  record_in s a t1 t2 = (s', st) -> steps_ok s -> turn_ok s ->
  steps_ok s' /\ turn_ok s' /\ oid s' = oid s /\ session_id s' = session_id s /\
  steps s' = steps s ++ [st].
Proof.
  intros E S T. unfold record_in in E.
  set (p := match ra_step_id a with Some i => (s, i) | None => next_step_id s end) in E.
  assert (P : steps_ok (fst p) /\ turn_ok (fst p) /\ oid (fst p) = oid s /\
              session_id (fst p) = session_id s /\ steps (fst p) = steps s).
  { unfold p. destruct (ra_step_id a); [done|]. simpl. split; [destruct S; by split|done]. }
  destruct p as [s1 sid]. simpl in P. destruct P as (S1 & T1 & O1 & I1 & P1).
  set (q := match ra_lineage_id a with None => _ | Some lid => _ end) in E.
  assert (Q : steps_ok (fst (fst q)) /\ turn_ok (fst (fst q)) /\ oid (fst (fst q)) = oid s /\
              session_id (fst (fst q)) = session_id s /\ steps (fst (fst q)) = steps s).
  { unfold q. destruct (ra_lineage_id a); [done|].
    destruct (create_lineage s1 (ra_route_base_step_id a)) as [s2 l] eqn:Ec.
    destruct (create_lineage_ok _ _ _ _ Ec S1) as (S2 & T2 & O2 & I2 & P2 & _). simpl.
    rewrite T2, O2, I2, P2. done. }
  destruct q as [[s2 lid] lix]. simpl in Q. destruct Q as (S2 & T2 & O2 & I2 & P2).
  simplify_eq. split; [|simpl; rewrite P2; done].
  destruct (steps_ok_append s2 (make_step a sid lid lix t1) lid (_lineage_counter s2) S2).
  by split.
Qed.
End StepsOk.

(** ** Runs of operations *)

Inductive sm_op : Type :=
| OGet (sid iid : option string) (u1 u2 : string) (now t1 t2 : float)
| OEnsure (sid : string) (o : nat) (now : float)
| OResolve (sid : string) (requested : option string) (u : string) (now : float)
| ORecord (sid : string) (a : StepArgs) (t1 t2 : float)
| OMark (sid reason : string) (now : float)
| OResult (sid : string) (now : float)
| OFinalize (sid : string) (res : option (list (string * pyval))) (now : float)
| ODiscard (sid : string)
| OCount (now : float)
| OLock (sid : string) (b : bool)          (* [request_lock] acquired or released *)
| OLineage (sid : string) (from : option string)   (* [session.create_lineage] *)
| OStepId (sid : string).                  (* [session.next_step_id] *)

Definition on_session (m : SessionManager) (sid : string) (f : Session -> Session)
    : SessionManager :=
  match dget (_sessions m) sid with
  | Some s => set_sessions m (dset (_sessions m) sid (f s))
  | None => m
  end.

Section Runs.
Context `{PyText}.

Definition sm_step (m : SessionManager) (op : sm_op) : SessionManager :=
  match op with
  | OGet sid iid u1 u2 now t1 t2 => fst (get_or_create_session m sid iid u1 u2 now t1 t2)
  | OEnsure sid o now => fst (ensure_session_active m sid o now)
  | OResolve sid r u now => fst (resolve_turn_id m sid r u now)
  | ORecord sid a t1 t2 => fst (record_step m sid a t1 t2)
  | OMark sid reason now => mark_history_rewritten m sid reason now
  | OResult sid now => fst (get_finalization_result m sid now)
  | OFinalize sid res now => fst (finalize_session m sid res now)
  | ODiscard sid => fst (discard_session m sid)
  | OCount now => fst (active_count m now)
  | OLock sid b => on_session m sid (fun s => set_locked s b)
  | OLineage sid from => on_session m sid (fun s => fst (create_lineage s from))
  | OStepId sid => on_session m sid (fun s => fst (next_step_id s))
  end.

(** A fresh id never names a finalized session. *)
Definition op_fresh (m : SessionManager) (op : sm_op) : Prop :=
  match op with
  | OGet sid _ u1 _ now _ _ =>
      or_uuid sid u1 = u1 ->
      dget (_finalized_session_ids (_cleanup_expired_locked m now)) u1 = None /\
      dget (_sessions (_cleanup_expired_locked m now)) u1 = None
  | _ => True
  end.

Fixpoint sm_run (m : SessionManager) (ops : list sm_op) : SessionManager :=
  match ops with [] => m | op :: rest => sm_run (sm_step m op) rest end.

Fixpoint ops_fresh (m : SessionManager) (ops : list sm_op) : Prop :=
  match ops with [] => True | op :: rest => op_fresh m op /\ ops_fresh (sm_step m op) rest end.

Lemma on_session_ok m sid f :
  manager_ok m -> (forall k s, session_ok k s -> session_ok k (f s) /\ oid (f s) = oid s) ->
  manager_ok (on_session m sid f).
Proof.
  intros M F. unfold on_session. destruct (dget (_sessions m) sid) as [s|] eqn:E; [|done].
  destruct (F sid s (mo_each _ M _ _ E)). by eapply update_ok.
Qed.

Lemma new_session_ok k o i t1 t2 : session_ok k (new_session o k i t1 t2).
Proof. split; [done|]. split; [done|]. by split. Qed.

Lemma get_or_create_ok m sid iid u1 u2 now t1 t2 :
  manager_ok m -> op_fresh m (OGet sid iid u1 u2 now t1 t2) ->
  manager_ok (fst (get_or_create_session m sid iid u1 u2 now t1 t2)).
Proof.
  intros M Fr. apply (cleanup_ok m now) in M. unfold get_or_create_session. unfold op_fresh in Fr.
  set (m' := _cleanup_expired_locked m now) in *. clearbody m'. clear m.
  destruct (has_id sid (_finalized_session_ids m')) eqn:Hf; [done|].
  destruct (if has_id sid (_sessions m') then _ else None) as [[k s]|] eqn:Hs.
  - destruct (has_id sid (_sessions m')); [|done]. destruct sid as [k'|]; [|done]. simpl in Hs.
    destruct (dget (_sessions m') k') as [s'|] eqn:E; simpl in Hs; [|done]. simplify_eq.
    destruct (mo_each _ M _ _ E) as (I & T & S).
    assert (K : session_ok k (set_last_active s t1)) by (split; [done|]; split; [done|]; destruct S; by split).
    cbn [fst]. destruct iid as [i|]; [destruct (_ && _)|]; eapply update_ok; eauto.
    destruct K as (I' & T' & S'). split; [done|]. split; [done|]. destruct S'. by split.
  - cbn [fst]. set (k := or_uuid sid u1) in *.
    assert (N : dget (_finalized_session_ids m') k = None /\ dget (_sessions m') k = None).
    { unfold k in *. destruct sid as [x|]; [|by apply Fr].
      simpl in *. destruct (String.eqb_spec x ""); [by apply Fr|].
      simpl in Hf. destruct (decide (x ∈ dkeys (_finalized_session_ids m'))) as [|Hn];
        [by rewrite bool_decide_true in Hf|].
      split; [by apply dget_None_key|]. simpl in Hs.
      destruct (decide (x ∈ dkeys (_sessions m'))) as [Hi|]; [|by apply dget_None_key].
      rewrite bool_decide_true in Hs by done. by destruct (dget (_sessions m') x). }
    destruct N as [N1 N2]. destruct M as [S F R D C E O I].
    split; cbn [_sessions _finalized_session_ids _finalization_results next_oid]; auto.
    + by apply dset_NoDup.
    + intros j Hj. rewrite dget_dset. case_decide; [|by apply D]. subst. rewrite N1 in Hj.
      by destruct Hj.
    + intros j s. rewrite dget_dset. case_decide; [|by apply E]. intros [= <-]. subst.
      apply new_session_ok.
    + intros j s. rewrite dget_dset. case_decide; [intros [= <-]; simpl; lia|].
      intros Hj. specialize (O _ _ Hj). lia.
    + intros j j' s s'. rewrite !dget_dset. repeat case_decide; subst; auto.
      * intros [= <-] Hj Eo. specialize (O _ _ Hj). simpl in Eo. lia.
      * intros Hj [= <-] Eo. specialize (O _ _ Hj). simpl in Eo. lia.
      * eauto.
Qed.

Lemma finalize_ok m sid res now : manager_ok m -> manager_ok (fst (finalize_session m sid res now)).
Proof.
  intros M. unfold finalize_session. destruct (dget (_sessions m) sid) as [s|] eqn:E; [|done].
  destruct M as [S F R D C En O I].
  split; cbn [fst _sessions _finalized_session_ids _finalization_results next_oid].
  - by apply dpop_NoDup.
  - by apply dset_NoDup.
  - destruct res; [by apply dset_NoDup|done].
  - intros k. rewrite dget_dset, dget_dpop by done. case_decide; [done|]. auto.
  - intros k. rewrite dget_dset. case_decide; [by eauto|]. destruct res; [|auto].
    rewrite dget_dset_ne by done. auto.
  - intros k s'. rewrite dget_dpop by done. case_decide; [done|]. auto.
  - intros k s'. rewrite dget_dpop by done. case_decide; [done|]. eauto.
  - intros k k' s1 s2. rewrite !dget_dpop by done. repeat case_decide; try done. eauto.
Qed.

Lemma discard_ok m sid : manager_ok m -> manager_ok (fst (discard_session m sid)).
Proof.
  intros [S F R D C En O I].
  split; cbn [fst discard_session _sessions _finalized_session_ids _finalization_results next_oid];
    try by apply dpop_NoDup.
  - intros k. rewrite !dget_dpop by done. case_decide; [done|]. auto.
  - intros k. rewrite !dget_dpop by done. case_decide; [by intros []|]. auto.
  - intros k s'. rewrite dget_dpop by done. case_decide; [done|]. auto.
  - intros k s'. rewrite dget_dpop by done. case_decide; [done|]. eauto.
  - intros k k' s1 s2. rewrite !dget_dpop by done. repeat case_decide; try done. eauto.
Qed.

Lemma sm_step_ok m op : manager_ok m -> op_fresh m op -> manager_ok (sm_step m op).
Proof.
  intros M Fr.
  destruct op; cbn [sm_step].
  - by apply get_or_create_ok.
  - unfold ensure_session_active. repeat case_match; by apply cleanup_ok.
  - unfold resolve_turn_id. destruct (dget (_sessions m) sid) as [s|] eqn:E; [|done].
    destruct (resolve_turn (set_last_active s now) requested u) as [s' x] eqn:Er.
    destruct (mo_each _ M _ _ E) as (I & T & S).
    destruct (resolve_turn_ok _ _ _ _ _ Er) as (T' & S' & O' & I');
      [exact T|destruct S; by split|]. simpl in O', I'. cbn [fst].
    eapply update_ok; [done|exact E| |done]. split; [congruence|]. by split.
  - unfold record_step. destruct (dget (_sessions m) sid) as [s|] eqn:E; [|done].
    destruct (record_in s a t1 t2) as [s' st] eqn:Er. destruct (mo_each _ M _ _ E) as (I & T & S).
    destruct (record_in_ok _ _ _ _ _ _ Er S T) as (S' & T' & O' & I' & _). cbn [fst].
    eapply update_ok; [done|exact E| |done]. split; [congruence|]. by split.
  - unfold mark_history_rewritten. destruct (dget (_sessions m) sid) as [s|] eqn:E; [|done].
    destruct (history_rewritten s); [done|]. destruct (mo_each _ M _ _ E) as (I & T & S).
    eapply update_ok; [done|exact E| |done]. split; [done|]. split; [done|]. destruct S. by split.
  - by apply cleanup_ok.
  - by apply finalize_ok.
  - by apply discard_ok.
  - by apply cleanup_ok.
  - apply on_session_ok; [done|]. intros k s (I & T & S). split; [|done].
    split; [done|]. split; [done|]. destruct S. by split.
  - apply on_session_ok; [done|]. intros k s (I & T & S).
    destruct (create_lineage s from) as [s' l] eqn:Ec.
    destruct (create_lineage_ok _ _ _ _ Ec S) as (S' & T' & O' & I' & _). cbn [fst].
    split; [|done]. split; [congruence|]. by rewrite T'.
  - apply on_session_ok; [done|]. intros k s (I & T & S). split; [|done].
    split; [done|]. split; [done|]. destruct S. by split.
Qed.

Lemma sm_run_ok ops : forall m, manager_ok m -> ops_fresh m ops -> manager_ok (sm_run m ops).
Proof.
  induction ops as [|op ops IH]; intros m M F; [done|]. destruct F as [F1 F2]. simpl.
  apply IH; [|done]. by apply sm_step_ok.
Qed.

Lemma manager_init_ok t : manager_ok (SessionManager__init__ t).
Proof.
  split; simpl; try constructor; try done; by intros k [].
Qed.
End Runs.

(** ** Turn histories *)

(** The turn ids returned by a sequence of [resolve_turn_id] calls on one session. *)
Fixpoint resolve_all (s : Session) (reqs : list (option string * string))
    : Session * list string :=
  match reqs with
  | [] => (s, [])
  | (r, u) :: rest =>
      let '(s1, x) := resolve_turn s r u in
      let '(s2, l) := resolve_all s1 rest in
      (s2, match x with Ok t => t :: l | Raise _ => l end)
  end.

(** [l] without repetitions of the element just before, [prev] being before it. *)
Fixpoint squash (prev : option string) (l : list string) : list string :=
  match l with
  | [] => []
  | x :: l' => if bool_decide (prev = Some x) then squash prev l' else x :: squash (Some x) l'
  end.

Section Turns.
Context `{PyText}.

Lemma resolve_turn_history s r u s' x :
  resolve_turn s r u = (s', x) -> turn_ok s ->
  match x with
  | Ok t => active_turn_id s' = Some t /\
            turn_ids s' = turn_ids s ++ (if bool_decide (active_turn_id s = Some t) then [] else [t])
  | Raise _ => active_turn_id s' = active_turn_id s /\ turn_ids s' = turn_ids s
  end.
Proof.
  intros E T. unfold resolve_turn in E. unfold turn_ok in T. destruct r as [r|].
  - destruct (_is_reserved_turn_id r); [by simplify_eq|].
    destruct (turn_mode s) as [[]|] eqn:Em; simpl in E; [by simplify_eq| |].
    + destruct T as (_ & _ & _ & a & Ea & _). rewrite Ea in E.
      destruct (String.eqb_spec r a) as [->|Ne].
      * simplify_eq. simpl. rewrite Ea, bool_decide_true by done. by rewrite app_nil_r.
      * destruct (bool_decide (r ∈ turn_ids s)); simplify_eq; simpl; [done|].
        rewrite Ea, bool_decide_false by congruence. done.
    + destruct T as (_ & Ta & _). rewrite Ta in E. simplify_eq. simpl. by rewrite Ta.
  - destruct (turn_mode s) as [[]|] eqn:Em; simplify_eq; [|done|].
    + destruct T as (t & -> & _ & -> & _). simpl. rewrite bool_decide_true by done.
      by rewrite app_nil_r.
    + destruct T as (_ & Ta & _). simpl. by rewrite Ta.
Qed.

Lemma resolve_all_history reqs : forall s s' l,
  resolve_all s reqs = (s', l) -> turn_ok s -> steps_ok s ->
  turn_ids s' = turn_ids s ++ squash (active_turn_id s) l /\ turn_ok s' /\ steps_ok s'.
Proof.
  induction reqs as [|[r u] reqs IH]; intros s s' l E T S; simpl in E.
  { simplify_eq. simpl. by rewrite app_nil_r. }
  destruct (resolve_turn s r u) as [s1 x] eqn:E1.
  destruct (resolve_all s1 reqs) as [s2 l2] eqn:E2. simplify_eq.
  destruct (resolve_turn_ok _ _ _ _ _ E1 T S) as (T1 & S1 & _).
  destruct (IH _ _ _ E2 T1 S1) as (Hi & T2 & S2). split; [|done].
  pose proof (resolve_turn_history _ _ _ _ _ E1 T) as Hh. rewrite Hi.
  destruct x as [t|e]; destruct Hh as [Ha Ht]; rewrite Ha, Ht; [|done].
  simpl. rewrite <- app_assoc. f_equal.
  destruct (decide (active_turn_id s = Some t)) as [Hd|Hd].
  - rewrite !bool_decide_true by done. simpl. by rewrite Hd.
  - by rewrite !bool_decide_false by done.
Qed.
End Turns.

(** ** Finalized sessions *)

Definition sweep_clock (op : sm_op) : option float :=
  match op with
  | OGet _ _ _ _ now _ _ | OEnsure _ _ now | OResult _ now | OCount now => Some now
  | _ => None
  end.

(** The operation neither discards [sid] nor sweeps after its retention ended. *)
Definition keeps_closed (m : SessionManager) (sid : string) (tf : float) (op : sm_op) : Prop :=
  op <> ODiscard sid /\ forall now, sweep_clock op = Some now -> finalized_expired m now tf = false.

Section Finalized.
Context `{PyText}.

Lemma cleanup_keeps_finalized m now sid tf :
  manager_ok m -> dget (_finalized_session_ids m) sid = Some tf ->
  finalized_expired m now tf = false ->
  dget (_finalized_session_ids (_cleanup_expired_locked m now)) sid = Some tf.
Proof.
  intros M E F. rewrite cleanup_finalized by apply M. rewrite E. simpl. by rewrite F.
Qed.

Lemma step_keeps_finalized m op sid tf :
  manager_ok m -> dget (_finalized_session_ids m) sid = Some tf -> keeps_closed m sid tf op ->
  dget (_finalized_session_ids (sm_step m op)) sid = Some tf /\
  _session_timeout (sm_step m op) = _session_timeout m.
Proof.
  intros M E [N F].
  pose proof (fun now Hn => cleanup_keeps_finalized m now sid tf M E (F now Hn)) as K.
  destruct op; cbn [sm_step sweep_clock] in *.
  - unfold get_or_create_session. repeat case_match; (split; [by apply K|done]).
  - unfold ensure_session_active. repeat case_match; (split; [by apply K|done]).
  - unfold resolve_turn_id. repeat case_match; done.
  - unfold record_step. repeat case_match; done.
  - unfold mark_history_rewritten. repeat case_match; done.
  - split; [by apply K|done].
  - unfold finalize_session. destruct (dget (_sessions m) sid0) eqn:Es; [|done].
    split; [|done]. simpl. rewrite dget_dset_ne; [done|]. intros ->.
    rewrite (mo_disjoint _ M sid) in Es by (by rewrite E). done.
  - split; [|done]. simpl. rewrite dget_dpop by apply M. rewrite decide_False by congruence. done.
  - split; [by apply K|done].
  - unfold on_session. by destruct (dget (_sessions m) sid0).
  - unfold on_session. by destruct (dget (_sessions m) sid0).
  - unfold on_session. by destruct (dget (_sessions m) sid0).
Qed.

Lemma run_keeps_finalized ops : forall m sid tf,
  manager_ok m -> ops_fresh m ops -> dget (_finalized_session_ids m) sid = Some tf ->
  Forall (keeps_closed m sid tf) ops ->
  dget (_finalized_session_ids (sm_run m ops)) sid = Some tf /\
  _session_timeout (sm_run m ops) = _session_timeout m.
Proof.
  induction ops as [|op ops IH]; intros m sid tf M Fr E F; [done|]. destruct Fr as [Fr Frs]. simpl.
  apply Forall_cons in F as [F1 F2].
  destruct (step_keeps_finalized _ _ _ _ M E F1) as [E' T'].
  destruct (IH (sm_step m op) sid tf) as [H1 H2]; auto.
  - by apply sm_step_ok.
  - eapply Forall_impl; [exact F2|]. intros o [N C]. split; [done|].
    intros now Hn. unfold finalized_expired. rewrite T'. by apply C.
  - split; [done|congruence].
Qed.
End Finalized.

(** ** Candidates *)

Section Candidates.
Context `{PyText}.

Lemma elem_of_add_unseen ids : forall acc x, x ∈ add_unseen acc ids <-> x ∈ acc \/ x ∈ ids.
Proof.
  induction ids as [|y ids IH]; intros acc x; [set_solver|].
  unfold add_unseen in *. simpl. rewrite IH. case_bool_decide; set_solver.
Qed.

Lemma add_unseen_NoDup ids : forall acc, NoDup acc -> NoDup (add_unseen acc ids).
Proof.
  induction ids as [|y ids IH]; intros acc N; [done|]. unfold add_unseen in *. simpl.
  apply IH. case_bool_decide; [done|]. apply NoDup_app.
  split; [done|]. split; [set_solver|apply NoDup_singleton].
Qed.

Lemma add_unseen_prefix ids : forall acc, exists l, add_unseen acc ids = acc ++ l.
Proof.
  induction ids as [|y ids IH]; intros acc; [exists []; by rewrite app_nil_r|].
  unfold add_unseen in *. simpl. case_bool_decide; [apply IH|].
  destruct (IH (acc ++ [y])) as [l ->]. exists (y :: l). by rewrite <- app_assoc.
Qed.

Definition bucket (t : SessionPrefixTree) (fp : string) : list string :=
  dget_def [] (_by_fingerprint t) fp.

Lemma bucket_insert t st fp :
  bucket (tree_insert t st) fp =
  if decide (fp = fingerprint (sr_normalized_messages_snapshot st))
  then set_add (bucket t fp) (sr_step_id st) else bucket t fp.
Proof.
  unfold bucket, dget_def. simpl. rewrite dget_dset. case_decide as D1; case_decide as D2;
    try congruence. by subst.
Qed.

(** What the buckets hold: the steps whose recorded messages have the fingerprint. *)
Lemma bucket_built sts : forall t fp x,
  x ∈ bucket (fold_left tree_insert sts t) fp <->
  x ∈ bucket t fp \/ exists st, st ∈ sts /\ sr_step_id st = x /\
                     fingerprint (sr_normalized_messages_snapshot st) = fp.
Proof.
  induction sts as [|st sts IH]; intros t fp x; simpl; [set_solver|].
  rewrite IH, bucket_insert. unfold set_add. case_decide as D.
  - case_bool_decide as B.
    + split; [|by set_solver]. intros [?|(st' & ? & ?)]; [by left|right; exists st'; set_solver].
    + rewrite elem_of_app, list_elem_of_singleton. split.
      * intros [[?| ->]|(st' & ? & ?)]; [by left|right; exists st; set_solver|right; exists st'; set_solver].
      * intros [?|(st' & [->|?]%elem_of_cons & ? & ?)]; [by left; left|left; right; by subst|right; eauto].
  - split.
    + intros [?|(st' & ? & ?)]; [by left|right; exists st'; set_solver].
    + intros [?|(st' & [->|?]%elem_of_cons & ? & ?)]; [by left|congruence|right; eauto].
Qed.

Lemma all_ids_built sts : forall t,
  _all_step_ids (fold_left tree_insert sts t) = _all_step_ids t ++ map sr_step_id sts.
Proof.
  induction sts as [|st sts IH]; intros t; simpl; [by rewrite app_nil_r|].
  rewrite IH. simpl. by rewrite <- app_assoc.
Qed.

Lemma by_prefix_elem (g : nat -> list string) ns : forall acc x,
  x ∈ fold_left (fun acc n => add_unseen acc (g n)) ns acc <-> x ∈ acc \/ exists n, n ∈ ns /\ x ∈ g n.
Proof.
  induction ns as [|n ns IH]; intros acc x; simpl; [set_solver|].
  rewrite IH, elem_of_add_unseen. setoid_rewrite elem_of_cons. naive_solver.
Qed.

Lemma by_prefix_NoDup (g : nat -> list string) ns : forall acc,
  NoDup acc -> NoDup (fold_left (fun acc n => add_unseen acc (g n)) ns acc).
Proof. induction ns as [|n ns IH]; intros acc N; simpl; [done|]. by apply IH, add_unseen_NoDup. Qed.

Lemma candidates_spec iter s msgs :
  (forall l, iter l ≡ₚ l) -> steps_ok s ->
  NoDup (candidates iter (prefix_tree s) msgs) /\
  (forall x, x ∈ candidates iter (prefix_tree s) msgs <->
     exists st, st ∈ steps s /\ indexed st = true /\ sr_step_id st = x) /\
  exists front back, candidates iter (prefix_tree s) msgs = front ++ back /\
    forall x, x ∈ front <->
      exists st n, st ∈ steps s /\ indexed st = true /\ sr_step_id st = x /\ (n <= length msgs)%nat /\
        fingerprint (sr_normalized_messages_snapshot st) = fingerprint (take n msgs).
Proof.
  intros It So. pose proof (so_tree _ So) as Tr.
  assert (Fi : forall st, st ∈ List.filter indexed (steps s) <-> st ∈ steps s /\ indexed st = true).
  { intros st. rewrite !list_elem_of_In. apply filter_In. }
  assert (B : forall fp x, x ∈ bucket (prefix_tree s) fp <-> exists st, st ∈ steps s /\
            indexed st = true /\ sr_step_id st = x /\
            fingerprint (sr_normalized_messages_snapshot st) = fp).
  { intros fp x. rewrite Tr, bucket_built. setoid_rewrite Fi. unfold bucket. simpl. set_solver. }
  assert (A : forall x, x ∈ _all_step_ids (prefix_tree s) <->
            exists st, st ∈ steps s /\ indexed st = true /\ sr_step_id st = x).
  { intros x. rewrite Tr, all_ids_built. simpl. rewrite list_elem_of_fmap.
    setoid_rewrite Fi. naive_solver. }
  set (g := fun n => iter (bucket (prefix_tree s) (fingerprint (take n msgs)))).
  set (front := fold_left (fun acc n => add_unseen acc (g n)) (seq 0 (S (length msgs))) []).
  change (candidates iter (prefix_tree s) msgs)
    with (add_unseen front (_all_step_ids (prefix_tree s))).
  assert (Fr : forall x, x ∈ front <-> exists n, (n <= length msgs)%nat /\
            x ∈ bucket (prefix_tree s) (fingerprint (take n msgs))).
  { intros x. unfold front. rewrite by_prefix_elem. unfold g. setoid_rewrite It.
    setoid_rewrite elem_of_seq. split; [intros [?%elem_of_nil|(n & ? & ?)]|intros (n & ? & ?)];
      [done|exists n; split; [lia|done]|right; exists n; split; [lia|done]]. }
  assert (ND : NoDup front) by (apply by_prefix_NoDup; constructor).
  split; [by apply add_unseen_NoDup|]. split.
  - intros x. rewrite elem_of_add_unseen, A, Fr. setoid_rewrite B. naive_solver.
  - destruct (add_unseen_prefix (_all_step_ids (prefix_tree s)) front) as [back Eb].
    exists front, back. split; [exact Eb|]. intros x. rewrite Fr. setoid_rewrite B. naive_solver.
Qed.
End Candidates.

(** ** Requests in progress *)

(** The operation leaves the request lock and the registration of [k] alone. *)
Definition spares (k : string) (op : sm_op) : Prop :=
  match op with
  | OFinalize k' _ _ | ODiscard k' | OLock k' _ => k' <> k
  | _ => True
  end.

Section Locked.
Context `{PyText}.

(** [s'] is the same object as [s] with its lock still held and its steps kept. *)
Definition continues (s s' : Session) : Prop :=
  oid s' = oid s /\ request_locked s' = true /\ steps s `prefix_of` steps s'.

Definition held_by (m : SessionManager) (k : string) (s : Session) : Prop :=
  exists s', dget (_sessions m) k = Some s' /\ continues s s'.

Lemma continues_trans s s1 s2 : continues s s1 -> continues s1 s2 -> continues s s2.
Proof. intros (A & _ & P) (B & L & Q). split; [congruence|]. split; [done|]. by trans (steps s1). Qed.

Lemma held_cleanup m now k s :
  manager_ok m -> held_by m k s -> held_by (_cleanup_expired_locked m now) k s.
Proof.
  intros M (s' & E & C). unfold held_by. rewrite cleanup_session by apply M. rewrite E. simpl.
  unfold sweep_one. destruct (within_timeout _ _ _); [by eauto|].
  destruct C as (O & L & P). rewrite L. eexists. split; [done|]. by repeat split.
Qed.

Lemma held_update m j t t' k s :
  dget (_sessions m) j = Some t -> (request_locked t = true -> continues t t') ->
  held_by m k s -> held_by (set_sessions m (dset (_sessions m) j t')) k s.
Proof.
  intros Ej C (s' & E & K). unfold held_by. simpl. rewrite dget_dset. case_decide as D; [|by eauto].
  subst j. assert (s' = t) as -> by congruence. exists t'. split; [done|].
  eapply continues_trans; [exact K|]. apply C, K.
Qed.

Lemma resolve_turn_continues s r u s' x :
  resolve_turn s r u = (s', x) -> request_locked s = true -> continues s s'.
Proof. unfold resolve_turn. intros E L. repeat case_match; simplify_eq; by repeat split. Qed.

Lemma record_in_continues s a t1 t2 s' st :
  record_in s a t1 t2 = (s', st) -> request_locked s = true -> continues s s'.
Proof.
  unfold record_in. intros E L.
  destruct (ra_step_id a), (ra_lineage_id a); simpl in E; simplify_eq; split; try done;
    (split; [done|by eexists]).
Qed.

Lemma held_get m sid iid u1 u2 now t1 t2 k s :
  manager_ok m -> op_fresh m (OGet sid iid u1 u2 now t1 t2) -> held_by m k s ->
  held_by (fst (get_or_create_session m sid iid u1 u2 now t1 t2)) k s.
Proof.
  intros M Fr Hd. apply (held_cleanup m now) in Hd; [|done]. unfold get_or_create_session.
  unfold op_fresh in Fr. set (m' := _cleanup_expired_locked m now) in *. clearbody m'.
  destruct (has_id sid (_finalized_session_ids m')); [done|].
  destruct (if has_id sid (_sessions m') then _ else None) as [[j t]|] eqn:Hs.
  - destruct (has_id sid (_sessions m')); [|done]. destruct sid as [k'|]; [|done]. simpl in Hs.
    destruct (dget (_sessions m') k') as [s'|] eqn:E; simpl in Hs; [|done]. simplify_eq.
    cbn [fst]. eapply held_update; [exact E| |done]. intros L.
    destruct iid as [i|]; [destruct (_ && _)|]; by repeat split.
  - destruct Hd as (s' & E & C). exists s'. split; [|done]. cbn [fst _sessions].
    rewrite dget_dset_ne; [done|]. intros Ek. destruct sid as [x|]; simpl in *.
    + destruct (String.eqb_spec x "") as [->|Nx].
      * destruct (Fr eq_refl) as [_ Fn]. congruence.
      * subst x. simpl in Hs. rewrite bool_decide_true in Hs by (by eapply dget_Some_key).
        simpl in Hs. by rewrite E in Hs.
    + destruct (Fr eq_refl) as [_ Fn]. congruence.
Qed.

Lemma held_step m op k s :
  manager_ok m -> op_fresh m op -> spares k op -> held_by m k s -> held_by (sm_step m op) k s.
Proof.
  intros M Fr Sp Hd. destruct op; cbn [sm_step spares] in *.
  - by apply held_get.
  - unfold ensure_session_active. repeat case_match; by apply held_cleanup.
  - unfold resolve_turn_id. destruct (dget (_sessions m) sid) as [t|] eqn:E; [|done].
    destruct (resolve_turn (set_last_active t now) requested u) as [t' x] eqn:Er.
    eapply held_update; [exact E| |done]. intros L.
    eapply continues_trans; [|by eapply resolve_turn_continues]. by repeat split.
  - unfold record_step. destruct (dget (_sessions m) sid) as [t|] eqn:E; [|done].
    destruct (record_in t a t1 t2) as [t' st] eqn:Er. eapply held_update; [exact E| |done].
    by eapply record_in_continues.
  - unfold mark_history_rewritten. destruct (dget (_sessions m) sid) as [t|] eqn:E; [|done].
    destruct (history_rewritten t); [done|]. eapply held_update; [exact E| |done]. by repeat split.
  - by apply held_cleanup.
  - unfold finalize_session. destruct (dget (_sessions m) sid); [|done].
    destruct Hd as (s' & E & C). exists s'. split; [|done]. simpl. by rewrite dget_dpop_ne.
  - destruct Hd as (s' & E & C). exists s'. split; [|done]. simpl. by rewrite dget_dpop_ne.
  - by apply held_cleanup.
  - unfold on_session. destruct (dget (_sessions m) sid) as [t|] eqn:E; [|done].
    destruct Hd as (s' & Es & C). exists s'. split; [|done]. simpl. by rewrite dget_dset_ne.
  - unfold on_session. destruct (dget (_sessions m) sid) as [t|] eqn:E; [|done].
    eapply held_update; [exact E| |done]. by repeat split.
  - unfold on_session. destruct (dget (_sessions m) sid) as [t|] eqn:E; [|done].
    eapply held_update; [exact E| |done]. by repeat split.
Qed.

Lemma held_run ops : forall m k s,
  manager_ok m -> ops_fresh m ops -> Forall (spares k) ops -> held_by m k s ->
  held_by (sm_run m ops) k s.
Proof.
  induction ops as [|op ops IH]; intros m k s M Fr F Hd; [done|]. destruct Fr as [Fr Frs].
  apply Forall_cons in F as [F1 F2]. simpl. apply IH; auto; [by apply sm_step_ok|].
  by apply held_step.
Qed.
End Locked.

(** ** Theorems *)

Section SessionTheorems.
Context `{PyText}.

(** C31: Any sequence of operations leaves the manager consistent: ids are unique,
    no session is both active and finalized, cached results belong to finalized
    sessions, distinct sessions are distinct objects, and every session has a
    consistent turn state and step, lineage and prefix indexes (given fresh uuids). *)
Theorem session_manager_invariant t ops :
  ops_fresh (SessionManager__init__ t) ops -> manager_ok (sm_run (SessionManager__init__ t) ops).
Proof. intros F. apply sm_run_ok; [apply manager_init_ok|done]. Qed.

(** C32: A request that holds [request_lock] keeps its session: until the session is
    unlocked, locked again, finalized or discarded, whatever calls for it and for other
    sessions and whatever expiry sweeps happen, the same session object stays registered
    with every recorded step.  A discard is not held up by the lock: without a transfer
    queue the endpoint discards a locked session. *)
Theorem locked_session_kept t ops1 ops2 k s :
  let m := sm_run (SessionManager__init__ t) ops1 in
  ops_fresh (SessionManager__init__ t) ops1 -> ops_fresh m ops2 ->
  dget (_sessions m) k = Some s -> request_locked s = true -> Forall (spares k) ops2 ->
  exists s', dget (_sessions (sm_run m ops2)) k = Some s' /\ oid s' = oid s /\
             request_locked s' = true /\ steps s `prefix_of` steps s'.
Proof.
  intros m F1 F2 E L Sp.
  assert (M : manager_ok m) by (apply sm_run_ok; [apply manager_init_ok|done]).
  destruct (held_run ops2 m k s M F2 Sp) as (s' & E' & C); [|by exists s'].
  exists s. split; [done|]. by repeat split.
Qed.

(** A finalized session stays closed: until it is discarded or a sweep runs
    after its retention, asking for it again raises [SessionFinalizedError], late
    steps are dropped, and its identity check fails. *)
Theorem finalized_session_closed t ops1 ops2 sid res tf s iid u1 u2 now t1 t2 a o :
  let m := sm_run (SessionManager__init__ t) ops1 in
  let m1 := fst (finalize_session m sid res tf) in
  let m2 := sm_run m1 ops2 in
  ops_fresh (SessionManager__init__ t) ops1 -> ops_fresh m1 ops2 ->
  dget (_sessions m) sid = Some s -> sid <> "" ->
  Forall (keeps_closed m1 sid tf) ops2 -> finalized_expired m2 now tf = false ->
  snd (get_or_create_session m2 (Some sid) iid u1 u2 now t1 t2)
    = Raise (SessionFinalizedError "has already been finalized.") /\
  snd (ensure_session_active m2 sid o now)
    = Raise (SessionFinalizedError "has already been finalized.") /\
  record_step m2 sid a t1 t2 = (m2, None).
Proof.
  intros m m1 m2 F1 F2 E Ne K X.
  assert (M1 : manager_ok m1) by (apply finalize_ok, sm_run_ok; [apply manager_init_ok|done]).
  assert (E1 : dget (_finalized_session_ids m1) sid = Some tf).
  { unfold m1, finalize_session. rewrite E. simpl. apply dget_dset_eq. }
  destruct (run_keeps_finalized ops2 m1 sid tf M1 F2 E1 K) as [E2 _].
  assert (M2 : manager_ok m2) by (by apply sm_run_ok).
  pose proof (cleanup_keeps_finalized m2 now sid tf M2 E2 X) as E3.
  split; [|split].
  - unfold get_or_create_session, has_id. rewrite (proj2 (String.eqb_neq _ _) Ne).
    rewrite bool_decide_true by (by eapply dget_Some_key). done.
  - unfold ensure_session_active. by rewrite E3.
  - unfold record_step. rewrite (mo_disjoint _ M2 sid); [done|eexists; exact E2].
Qed.

(** Turns only move forward: over any sequence of [resolve_turn_id] calls on
    a new session the recorded turn ids are the returned ids with consecutive
    repetitions removed, and no id ever comes back after the session moved on. *)
Theorem turn_history_forward o sid iid t1 t2 reqs s' l :
  resolve_all (new_session o sid iid t1 t2) reqs = (s', l) ->
  turn_ids s' = squash None l /\ NoDup (squash None l).
Proof.
  intros E. destruct (new_session_ok sid o iid t1 t2) as (_ & T & S).
  destruct (resolve_all_history _ _ _ _ E T S) as (Hi & T' & _). simpl in Hi.
  split; [done|]. rewrite <- Hi. unfold turn_ok in T'.
  destruct (turn_mode s') as [[]|].
  - destruct T' as (t & _ & -> & _). apply NoDup_singleton.
  - apply T'.
  - destruct T' as (-> & _). constructor.
Qed.

(** The prefix index returns every recorded step exactly once whatever the
    order in which sets are enumerated, and the steps whose recorded messages
    fingerprint like a prefix of the request come first. *)
Theorem candidates_complete iter t ops k s msgs :
  (forall l, iter l ≡ₚ l) ->
  ops_fresh (SessionManager__init__ t) ops ->
  dget (_sessions (sm_run (SessionManager__init__ t) ops)) k = Some s ->
  NoDup (candidates iter (prefix_tree s) msgs) /\
  (forall x, x ∈ candidates iter (prefix_tree s) msgs <->
     exists st, st ∈ steps s /\ indexed st = true /\ sr_step_id st = x) /\
  exists front back, candidates iter (prefix_tree s) msgs = front ++ back /\
    forall x, x ∈ front <->
      exists st n, st ∈ steps s /\ indexed st = true /\ sr_step_id st = x /\ (n <= length msgs)%nat /\
        fingerprint (sr_normalized_messages_snapshot st) = fingerprint (take n msgs).
Proof.
  intros It F E.
  assert (M : manager_ok (sm_run (SessionManager__init__ t) ops))
    by (apply sm_run_ok; [apply manager_init_ok|done]).
  destruct (mo_each _ M _ _ E) as (_ & _ & So). by apply candidates_spec.
Qed.
End SessionTheorems.

(** ** Message normalization is canonical *)

Section Canonical.
Context `{PyText}.

Lemma keep_alnum_idem s : keep_alnum (keep_alnum s) = keep_alnum s.
Proof.
  induction s as [|c s IH]; simpl; [done|]. destruct (is_alnum c) eqn:E; [|done].
  simpl. by rewrite E, IH.
Qed.

Lemma canonical_id_idem v :
  canonicalize_openclaw_tool_call_id (canonicalize_openclaw_tool_call_id v)
  = canonicalize_openclaw_tool_call_id v.
Proof. destruct v; simpl; try done. by rewrite keep_alnum_idem. Qed.

Lemma canonical_reasoning_idem v t :
  canonicalize_reasoning_content v = Some t -> canonicalize_reasoning_content (PStr t) = Some t.
Proof.
  unfold canonicalize_reasoning_content. intros E.
  assert (strip (py_str v) = t /\ t <> "") as [<- N].
  { assert (A : forall u, (if String.eqb u "" then None else Some u) = Some t -> u = t /\ t <> "").
    { intros u. destruct (String.eqb_spec u ""); [done|]. by intros [= <-]. }
    destruct v; try done; by apply A. }
  simpl. rewrite strip_idem. by destruct (String.eqb_spec (strip (py_str v)) "").
Qed.

(** Arguments whose JSON content has no floats (any text that is not JSON is fine). *)
Definition arguments_plain (v : pyval) : Prop :=
  match v with
  | PStr s => forall x, json_loads s = Some x -> json_plain x
  | _ => json_plain v
  end.

Lemma normalize_arguments_idem v :
  arguments_plain v ->
  _normalize_tool_call_arguments (_normalize_tool_call_arguments v)
  = _normalize_tool_call_arguments v.
Proof.
  intros P.
  assert (X : forall x, json_plain x ->
            _normalize_tool_call_arguments (PStr (json_dumps x)) = PStr (json_dumps x)).
  { intros x J. simpl. by rewrite loads_dumps, dumps_sorted. }
  destruct v; try (by apply X). simpl in P |- *.
  destruct (json_loads s) as [x|] eqn:E; [by apply X, P|]. simpl. by rewrite E.
Qed.

Definition call_plain (v : pyval) : Prop :=
  match v with
  | PDict d => match pget d "function" with
               | PDict fd => arguments_plain (pget fd "arguments")
               | _ => True
               end
  | _ => True
  end.

Lemma normalize_call_idem v :
  call_plain v -> _normalize_tool_call (_normalize_tool_call v) = _normalize_tool_call v.
Proof.
  destruct v as [| | | | | |d]; try done. unfold call_plain, _normalize_tool_call. intros P.
  assert (G : forall a b c, let e := [("id", a); ("type", b); ("function", c)] in
            pget e "id" = a /\ pget e "type" = b /\ pget e "function" = c) by done.
  match goal with |- context [PDict [("id", ?a); ("type", ?b); ("function", ?c)]] =>
    destruct (G a b c) as (-> & -> & ->) end.
  rewrite canonical_id_idem. destruct (pget d "function") as [| | | | | |fd]; try done.
  assert (G' : forall a b, let e := [("name", a); ("arguments", b)] in
            pget e "name" = a /\ pget e "arguments" = b) by done.
  match goal with |- context [pget [("name", ?a); ("arguments", ?b)] _] =>
    destruct (G' a b) as (-> & ->) end.
  by rewrite normalize_arguments_idem.
Qed.

(** A message whose tool calls carry plain arguments. *)
Definition message_plain (m : list (string * pyval)) : Prop :=
  match dget m "tool_calls" with
  | Some (PList l) => Forall call_plain l
  | _ => True
  end.
Lemma copy_key_get m k f j :
  dget (copy_key m k f) j =
  if decide (j = k) then (match dget m k with Some v => f v | None => None end) else None.
Proof.
  unfold copy_key. destruct (dget m k) as [v|]; [|by case_decide].
  destruct (f v); simpl; by case_decide.
Qed.

Lemma dget_app {V} (d e : list (string * V)) k :
  dget (d ++ e) k = match dget d k with Some v => Some v | None => dget e k end.
Proof. induction d as [|[k' v] d IH]; simpl; [done|]. by case_decide. Qed.

(** What the normalized message holds under each key. *)
Lemma normalize_get m :
  let n := _normalize_message m in
  pget n "role" = pget m "role" /\
  pget n "content" =
    (if _has_tool_calls m && py_eqb (pget m "content") (PStr "") then PNone else pget m "content") /\
  dget n "name" = dget m "name" /\
  dget n "reasoning_content" =
    match dget m "reasoning_content" with
    | Some v => PStr <$> canonicalize_reasoning_content v | None => None end /\
  dget n "tool_call_id" = canonicalize_openclaw_tool_call_id <$> dget m "tool_call_id" /\
  dget n "tool_calls" = _normalize_tool_calls <$> dget m "tool_calls".
Proof.
  unfold _normalize_message. cbv zeta. repeat split.
  all: rewrite !dget_app, !copy_key_get; simpl.
  - by destruct (dget m "name").
  - by destruct (dget m "reasoning_content") as [v|]; [destruct (canonicalize_reasoning_content v)|].
  - by destruct (dget m "tool_call_id").
  - by destruct (dget m "tool_calls").
Qed.

Lemma has_tool_calls_normalize m : _has_tool_calls (_normalize_message m) = _has_tool_calls m.
Proof.
  destruct (normalize_get m) as (_ & _ & _ & _ & _ & E). unfold _has_tool_calls, pget, dget_def.
  rewrite E. destruct (dget m "tool_calls") as [[| | | | |[]|]|]; done.
Qed.

Lemma normalize_message_idem m :
  message_plain m -> _normalize_message (_normalize_message m) = _normalize_message m.
Proof.
  intros P. destruct (normalize_get m) as (Er & Ec & En & Et & Ei & Eq).
  unfold _normalize_message at 1. rewrite has_tool_calls_normalize, Er, Ec.
  unfold copy_key. rewrite En, Et, Ei, Eq. unfold _normalize_message, copy_key. cbv zeta.
  f_equal; [|f_equal].
  - destruct (_has_tool_calls m && py_eqb (pget m "content") (PStr "")) eqn:B; [|by rewrite B].
    by rewrite andb_false_r.
  - f_equal; [|f_equal; [|f_equal]].
    + destruct (dget m "reasoning_content") as [v|]; [|done].
      destruct (canonicalize_reasoning_content v) as [t|] eqn:Ev; [|done].
      cbn [fmap option_fmap option_map]. by rewrite (canonical_reasoning_idem _ _ Ev).
    + destruct (dget m "tool_call_id") as [v|]; [|done]. simpl. by rewrite canonical_id_idem.
    + unfold message_plain in P. destruct (dget m "tool_calls") as [v|]; [|done].
      cbn [fmap option_fmap option_map]. destruct v as [| | | | |l|]; try done. cbn [_normalize_tool_calls]. rewrite map_map.
      do 3 f_equal. apply map_ext_in. intros x Hx. rewrite Forall_forall in P.
      apply normalize_call_idem, P. by apply list_elem_of_In.
Qed.

Lemma normalize_NoDup m : NoDup (dkeys (_normalize_message m)).
Proof.
  unfold _normalize_message, copy_key, dkeys. cbv zeta.
  destruct (dget m "name"), (dget m "reasoning_content") as [v|], (dget m "tool_call_id"),
    (dget m "tool_calls"); try destruct (canonicalize_reasoning_content v); simpl;
    apply (bool_decide_unpack _); reflexivity.
Qed.

(** Replaying a conversation is recognised: a history whose messages are the
    canonical forms of the ones sent before (tool-call ids stripped, arguments
    re-serialised, reasoning trimmed, empty content dropped beside tool calls) is an
    append-only continuation, in either direction, and so is any extension of it. *)
Theorem append_only_replay ms more :
  Forall message_plain ms ->
  Forall (fun m => py_regular (PDict (_normalize_message m))) ms ->
  is_append_only_continuation (map _normalize_message ms) (ms ++ more) = true /\
  is_append_only_continuation ms (map _normalize_message ms ++ more) = true.
Proof.
  intros P R. unfold is_append_only_continuation.
  assert (L : forall {A} (l k : list A), Nat.ltb (length (l ++ k)) (length l) = false).
  { intros A l k. apply Nat.ltb_ge. rewrite length_app. lia. }
  assert (E : map (fun m => PDict (_normalize_message m)) (map _normalize_message ms)
            = map (fun m => PDict (_normalize_message m)) ms).
  { rewrite map_map. apply map_ext_in. intros m Hm. rewrite Forall_forall in P.
    rewrite normalize_message_idem; [done|]. by apply P, list_elem_of_In. }
  assert (Q : py_eqb (PList (map (fun m => PDict (_normalize_message m)) ms))
                (PList (map (fun m => PDict (_normalize_message m)) ms)) = true).
  { apply py_eqb_refl, py_regular_list, Forall_map, R. }
  split.
  - rewrite length_map, L, take_app_length, E. done.
  - rewrite <- (length_map _normalize_message ms), L, take_app_length, E. done.
Qed.

(** The continuation test compares message by message: it accepts exactly the
    requests that are at least as long as the recorded history and whose first
    messages normalize to equal dictionaries. *)
Theorem append_only_iff previous current :
  is_append_only_continuation previous current = true <->
  (length previous <= length current)%nat /\
  Forall2 (fun a b => py_eqb (PDict (_normalize_message a)) (PDict (_normalize_message b)) = true)
    previous (take (length previous) current).
Proof.
  unfold is_append_only_continuation. destruct (Nat.ltb _ _) eqn:L.
  - apply Nat.ltb_lt in L. split; [done|lia].
  - apply Nat.ltb_ge in L.
    assert (X : forall p q, py_eqb (PList (map (fun m => PDict (_normalize_message m)) p))
        (PList (map (fun m => PDict (_normalize_message m)) q)) = true <->
      Forall2 (fun a b => py_eqb (PDict (_normalize_message a)) (PDict (_normalize_message b)) = true) p q).
    { clear. induction p as [|a p IH]; intros [|b q]; simpl.
      - split; constructor.
      - split; [done|by inversion 1].
      - split; [done|by inversion 1].
      - rewrite andb_true_iff. specialize (IH q). simpl in IH. rewrite IH.
        split; [by intros [? ?]; constructor|by inversion 1]. }
    rewrite X. naive_solver lia.
Qed.
End Canonical.

(** ** Witnesses *)

#[local] Instance w_sm_text : PyText :=
  {| py_repr := fun _ => ""; py_parse_float := fun _ => None |}.

Definition w_step_args : StepArgs :=
  {| ra_turn_id := "t1";
     ra_request_messages := [];
     ra_normalized_request_messages := [];
     ra_prompt_token_ids := [];
     ra_prompt_token_logprobs := inl [];
     ra_snapshot_token_ids := [];
     ra_response_token_ids := [1%Z];
     ra_response_logprobs := inl [];
     ra_all_token_ids := [];
     ra_all_logprobs := inl [];
     ra_input_token_texts := [];
     ra_output_token_texts := [];
     ra_messages_snapshot := [PDict [("role", PStr "user"); ("content", PStr "hi")]];
     ra_raw_response_text := "";
     ra_step_id := None;
     ra_lineage_id := None;
     ra_lineage_index := None;
     ra_route_type := create;
     ra_route_base_step_id := None;
     ra_normalized_messages_snapshot := None;
     ra_snapshot_rendered := "";
     ra_snapshot_rendered_len := 0%Z;
     ra_snapshot_tools_hash := None;
     ra_lineage_segment_boundary_before := false;
     ra_lineage_segment_reasons_before := None;
     ra_prompt_versions := None;
     ra_response_versions := None;
     ra_all_versions := None;
     ra_all_logprobs_invalid := false;
     ra_concat_token_ids := None;
     ra_concat_response_logprobs := None;
     ra_concat_response_mask := None;
     ra_concat_versions := None;
     ra_concat_context_token_count := 0%Z;
     ra_concat_output_token_count := 0%Z;
     ra_concat_logprobs_invalid := false;
     ra_concat_incremental_tokenization_failed := false;
     ra_response_routed_experts_chunks := None;
     ra_tools := None;
     ra_segment_boundary_before := false;
     ra_rewrite_reason := None;
     ra_segment_reason_before := None;
     ra_segment_reasons_before := None;
     ra_finish_reason := "";
     ra_request_version := None;
     ra_response_version := None;
     ra_tool_call_hook_metadata := None;
     ra_request_e2e_latency_seconds := None;
     ra_request_queue_seconds := None;
     ra_rebalancing_moved := false |}.

Definition w_t (z : Z) : float := f_of_Z z.

(** A session opened at time 1, one recorded step, its request lock held. *)
Definition w_open_ops : list sm_op :=
  [OGet (Some "s") (Some "i") "u1" "u2" (w_t 1) (w_t 1) (w_t 1); OLock "s" true;
   OResolve "s" (Some "t1") "u3" (w_t 2); ORecord "s" w_step_args (w_t 3) (w_t 3)].

Definition w_m : SessionManager := sm_run (SessionManager__init__ (w_t 10)) w_open_ops.

Lemma w_open_fresh : ops_fresh (SessionManager__init__ (w_t 10)) w_open_ops.
Proof.
  split; [intros E; discriminate E|]. split; [exact I|]. split; [exact I|]. split; exact I.
Defined.

Lemma session_manager_invariant_witness :
  length (_sessions w_m) = 1%nat /\ manager_ok w_m.
Proof.
  split; [vm_compute; reflexivity|]. unfold w_m.
  exact (session_manager_invariant (w_t 10) w_open_ops w_open_fresh).
Defined.

(** Sweeps long after the timeout keep the locked session. *)
Lemma locked_session_kept_witness :
  exists s', dget (_sessions (sm_run w_m [OCount (w_t 1000); OEnsure "x" 0 (w_t 2000)])) "s" = Some s' /\
    length (steps s') = 1%nat /\ request_locked s' = true.
Proof.
  eexists. split; [vm_compute; reflexivity|]. split; [reflexivity|].
  edestruct (locked_session_kept (w_t 10) w_open_ops [OCount (w_t 1000); OEnsure "x" 0 (w_t 2000)] "s")
    as (s' & E & _ & L & _).
  - exact w_open_fresh.
  - split; [exact I|]. split; exact I.
  - vm_compute. reflexivity.
  - reflexivity.
  - constructor; [exact I|]. constructor; [exact I|]. constructor.
  - reflexivity.
Defined.

Lemma finalized_session_closed_witness :
  snd (get_or_create_session (sm_run (fst (finalize_session w_m "s" None (w_t 5))) [OCount (w_t 9)])
         (Some "s") None "u" "v" (w_t 12) (w_t 12) (w_t 12))
  = Raise (SessionFinalizedError "has already been finalized.").
Proof.
  refine (proj1 (finalized_session_closed (w_t 10) w_open_ops [OCount (w_t 9)] "s" None (w_t 5)
            _ None "u" "v" (w_t 12) (w_t 12) (w_t 12) w_step_args 0 _ _ _ _ _ _)).
  - exact w_open_fresh.
  - split; exact I.
  - vm_compute. reflexivity.
  - discriminate.
  - constructor; [|constructor]. split; [discriminate|]. intros now [= <-]. vm_compute. reflexivity.
  - vm_compute. reflexivity.
Defined.

Lemma turn_history_forward_witness :
  resolve_all (new_session 0 "s" "i" (w_t 1) (w_t 1))
    [(Some "a", "u"); (Some "a", "u"); (Some "b", "u"); (Some "a", "u"); (None, "u")]
  = (set_turns (new_session 0 "s" "i" (w_t 1) (w_t 1)) (Some explicit) None ["a"; "b"] (Some "b"),
     ["a"; "a"; "b"]) /\ NoDup (squash None ["a"; "a"; "b"]).
Proof.
  split; [vm_compute; reflexivity|].
  refine (proj2 (turn_history_forward 0 "s" "i" (w_t 1) (w_t 1)
    [(Some "a", "u"); (Some "a", "u"); (Some "b", "u"); (Some "a", "u"); (None, "u")] _ _ _)).
  vm_compute. reflexivity.
Defined.

Lemma candidates_complete_witness :
  exists s, dget (_sessions w_m) "s" = Some s /\
    candidates (fun l => l) (prefix_tree s) [] = ["step-000001"] /\
    NoDup (candidates (fun l => l) (prefix_tree s) []).
Proof.
  eexists. split; [vm_compute; reflexivity|]. split; [vm_compute; reflexivity|].
  refine (proj1 (candidates_complete (fun l => l) (w_t 10) w_open_ops "s" _ [] _ _ _)).
  - done.
  - exact w_open_fresh.
  - vm_compute. reflexivity.
Defined.

Definition w_message : list (string * pyval) :=
  [("role", PStr "assistant"); ("content", PStr "");
   ("tool_calls", PList [PDict [("id", PStr "call_1-a"); ("type", PStr "function");
      ("function", PDict [("name", PStr "f"); ("arguments", PStr "{}")])]])].

Lemma append_only_replay_witness :
  is_append_only_continuation (map _normalize_message [w_message]) ([w_message] ++ [w_message]) = true.
Proof.
  refine (proj1 (append_only_replay [w_message] [w_message] _ _)).
  - repeat constructor; vm_compute; intros x [= <-]; repeat constructor.
  - repeat constructor; vm_compute; repeat constructor; set_solver.
Defined.
