(* ===== verification/Routing.v ===== *)
(** * Lineage routing ([_select_route] of [dressage/proxy/server.py])

    Decides whether a request continues a recorded step, branches from one or
    starts a new lineage.  The chat template ([mask_builder.render_messages], the
    tokenizer's) is the parameter [render].  Step records are shared between
    [steps] and [steps_by_id], so a candidate is a position of [steps] and the
    rendering cached in it is visible everywhere.  Lengths count code points. *)

From S2P Require Import Prelude.
From S2P Require Import PyFloat.
From S2P Require Import Sha256.
From S2P Require Import PyVal.
From S2P Require Import Json.
From S2P Require Import SessionManager.
From Stdlib Require Import Ascii.

Local Open Scope string_scope.
Local Open Scope list_scope.

(** ** Code points of UTF-8 text *)

Definition utf8_cont (c : ascii) : bool :=
  let n := N_of_ascii c in ((128 <=? n) && (n <? 192))%N.

(** [len(s)] *)
Fixpoint py_len (s : string) : Z :=
  match s with
  | EmptyString => 0
  | String c s' => (if utf8_cont c then 0 else 1) + py_len s'
  end%Z.

(** [s[:n]] for [n >= 0] *)
Fixpoint py_take (n : Z) (s : string) : string :=
  match s with
  | EmptyString => ""
  | String c s' =>
      if utf8_cont c then String c (py_take n s')
      else if (n <=? 0)%Z then "" else String c (py_take (n - 1) s')
  end.

(** ** Tools *)

Section Tools.
Context `{PyText}.

Definition _canonicalize_tools (tools : option (list pyval)) (none_equals_empty : bool)
    : option string :=
  match tools with
  | None => if none_equals_empty then Some (json_dumps (PList [])) else None
  | Some t => Some (json_dumps (PList t))
  end.

Definition _tools_changed (previous current : option (list pyval)) (none_equals_empty : bool)
    : bool :=
  negb (bool_decide (_canonicalize_tools previous none_equals_empty
                     = _canonicalize_tools current none_equals_empty)).

Definition _tools_hash (tools : option (list pyval)) (none_equals_empty : bool) : string :=
  hex_of (sha256 (bytes_of (default "null" (_canonicalize_tools tools none_equals_empty)))).
End Tools.

Definition _boundary_reasons (rewrite_detected tools_changed message_prefix_mismatch : bool)
    : list string :=
  (if rewrite_detected then ["history_rewrite"] else [])
  ++ (if message_prefix_mismatch then ["message_prefix_mismatch"] else [])
  ++ (if tools_changed then ["tools_changed"] else []).

(** ** The decision *)

Section SelectRoute.
Context `{PyText}.
Variable iter : list string -> list string.
Variable render : list pyval -> option (list pyval) -> bool -> string.
Variable none_equals_empty : bool.

(** Truth of [step.snapshot_tools_hash == tools_hash and step.snapshot_rendered]. *)
Definition cached (st : StepRecord) (tools_hash : string) : bool :=
  bool_decide (sr_snapshot_tools_hash st = Some tools_hash)
  && negb (String.eqb (sr_snapshot_rendered st) "").

(** [_candidate_snapshot_rendered]: the step with its cache filled. *)
Definition _candidate_snapshot_rendered (st : StepRecord) (tools : option (list pyval))
    (tools_hash : string) : StepRecord * string :=
  if cached st tools_hash then (st, sr_snapshot_rendered st)
  else let rendered := render (sr_normalized_messages_snapshot st) tools false in
       (set_rendered st rendered (py_len rendered) tools_hash, rendered).

Definition put_step (s : Session) (i : nat) (st : StepRecord) : Session :=
  set_steps s (<[i := st]> (steps s)) (steps_by_id s) (prefix_tree s).

(** One turn of the candidate loop. *)
Definition consider (tools : option (list pyval)) (tools_hash current : string)
    (acc : Session * list nat) (step_id : string) : Session * list nat :=
  let '(s, valid) := acc in
  match dget (steps_by_id s) step_id with
  | None => (s, valid)
  | Some i =>
      match steps s !! i with
      | None => (s, valid)
      | Some st =>
          let '(st', text) := _candidate_snapshot_rendered st tools tools_hash in
          let s := put_step s i st' in
          if (py_len current <? py_len text)%Z then (s, valid)
          else if String.eqb (py_take (py_len text) current) text then (s, valid ++ [i])
          else (s, valid)
      end
  end.

(** [{step.step_id: index for index, step in enumerate(session.steps)}] *)
Definition step_order (s : Session) : list (string * nat) :=
  fold_left (fun d ix => dset d (sr_step_id (snd ix)) (fst ix)) (enumerate (steps s)) [].

Definition is_latest (s : Session) (st : StepRecord) : bool :=
  match dget (lineages s) (sr_lineage_id st) with
  | Some l => bool_decide (latest_step_id l = Some (sr_step_id st))
  | None => false
  end.

Definition sort_key (s : Session) (order : list (string * nat)) (st : StepRecord)
    : Z * Z * Z * Z :=
  let len := if (sr_snapshot_rendered_len st =? 0)%Z then py_len (sr_snapshot_rendered st)
             else sr_snapshot_rendered_len st in
  let ix := match dget order (sr_step_id st) with Some i => Z.of_nat i | None => (-1)%Z end in
  (((- len)%Z, if is_latest s st then 0%Z else 1%Z, (- ix)%Z),
   match dget (lineages s) (sr_lineage_id st) with
   | Some l => l_index l
   | None => sr_lineage_index st
   end).

(** Python's order on 4-tuples. *)
Definition key_le (a b : Z * Z * Z * Z) : bool :=
  let '(a1, a2, a3, a4) := a in
  let '(b1, b2, b3, b4) := b in
  ((a1 <? b1) || ((a1 =? b1) && ((a2 <? b2) || ((a2 =? b2) &&
   ((a3 <? b3) || ((a3 =? b3) && (a4 <=? b4)))))))%Z.

Definition key_at (s : Session) (order : list (string * nat)) (i : nat) : Z * Z * Z * Z :=
  match steps s !! i with Some st => sort_key s order st | None => (0, 0, 0, 0)%Z end.

(** [candidates.sort(key=sort_key)] *)
Definition sorted_at (s : Session) (order : list (string * nat)) (l : list nat) : list nat :=
  sort_by (fun i j => key_le (key_at s order i) (key_at s order j)) l.

(** [len(snapshot) <= len(request) and request[:len(snapshot)] == snapshot] *)
Definition messages_prefix (req : list pyval) (st : StepRecord) : bool :=
  let n := length (sr_normalized_messages_snapshot st) in
  (n <=? length req)%nat
  && py_eqb (PList (take n req)) (PList (sr_normalized_messages_snapshot st)).

(** The fallback: a latest step the messages extend but whose tools changed. *)
Definition tools_fallback (s : Session) (tools : option (list pyval)) (l : list nat)
    : option StepRecord :=
  find_first (fun st => is_latest s st && _tools_changed (sr_tools st) tools none_equals_empty)
             (omap (fun i => steps s !! i) l).

Definition _select_route (s : Session) (req : list pyval) (tools : option (list pyval))
    (tools_hash : string) : Session * Route :=
  let current := render req tools true in
  let order := step_order s in
  let '(s, valid) := fold_left (consider tools tools_hash current)
                       (candidates iter (prefix_tree s) req) (s, []) in
  match sorted_at s order valid with
  | [] =>
      let normalized := List.filter (fun i => match steps s !! i with
                                              | Some st => messages_prefix req st
                                              | None => false
                                              end) (seq 0 (length (steps s))) in
      match tools_fallback s tools (sorted_at s order normalized) with
      | Some st => (s, {| r_lineage_id := sr_lineage_id st; r_type := append;
                          r_base_step_id := Some (sr_step_id st) |})
      | None => let '(s, l) := create_lineage s None in
                (s, {| r_lineage_id := l_id l; r_type := create; r_base_step_id := None |})
      end
  | i :: _ =>
      match steps s !! i with
      | Some st =>
          if is_latest s st
          then (s, {| r_lineage_id := sr_lineage_id st; r_type := append;
                      r_base_step_id := Some (sr_step_id st) |})
          else let '(s, l) := create_lineage s (Some (sr_step_id st)) in
               (s, {| r_lineage_id := l_id l; r_type := branch;
                      r_base_step_id := Some (sr_step_id st) |})
      | None => (s, {| r_lineage_id := ""; r_type := create; r_base_step_id := None |})
      end
  end.
End SelectRoute.

(** ** Text *)

Lemma py_take_prefix s : forall n, exists t, s = py_take n s +:+ t.
Proof.
  induction s as [|c s IH]; intros n; [by exists ""|]. simpl.
  destruct (utf8_cont c); [|destruct (n <=? 0)%Z; [by exists (String c s)|]].
  - destruct (IH n) as [t Ht]. exists t. change (String c s = String c (py_take n s +:+ t)).
    by rewrite <- Ht.
  - destruct (IH (n - 1)%Z) as [t Ht]. exists t.
    change (String c s = String c (py_take (n - 1) s +:+ t)). by rewrite <- Ht.
Qed.

(** ** The order of candidates *)

Lemma key_le_total a b : key_le a b = true \/ key_le b a = true.
Proof. destruct a as [[[a1 a2] a3] a4], b as [[[b1 b2] b3] b4]. unfold key_le. lia. Qed.

Lemma key_le_trans a b c : key_le a b = true -> key_le b c = true -> key_le a c = true.
Proof.
  destruct a as [[[a1 a2] a3] a4], b as [[[b1 b2] b3] b4], c as [[[c1 c2] c3] c4].
  unfold key_le. lia.
Qed.

Lemma key_le_antisym a b : key_le a b = true -> key_le b a = true -> a = b.
Proof.
  destruct a as [[[a1 a2] a3] a4], b as [[[b1 b2] b3] b4]. unfold key_le.
  intros. repeat f_equal; lia.
Qed.

Lemma sorted_at_sorted s o l :
  StronglySorted (fun i j => key_le (key_at s o i) (key_at s o j) = true) (sorted_at s o l).
Proof.
  apply sort_by_sorted; [intros; apply key_le_total|intros ? ? ?; apply key_le_trans].
Qed.

Lemma sorted_at_perm s o l l' :
  (forall i j, i ∈ l -> j ∈ l -> key_at s o i = key_at s o j -> i = j) ->
  l ≡ₚ l' -> sorted_at s o l = sorted_at s o l'.
Proof.
  intros Inj P.
  apply (StronglySorted_unique_strong
           (fun i j => key_le (key_at s o i) (key_at s o j) = true)).
  - intros i j Hi Hj A B. unfold sorted_at in *. rewrite elem_of_sort_by in Hi, Hj.
    apply Inj; [done|by rewrite P|by apply key_le_antisym].
  - apply sorted_at_sorted.
  - apply sorted_at_sorted.
  - unfold sorted_at. by rewrite !sort_by_perm.
Qed.

Lemma sorted_at_head s o l i r :
  sorted_at s o l = i :: r ->
  i ∈ l /\ forall j, j ∈ l -> key_le (key_at s o i) (key_at s o j) = true.
Proof.
  intros E. pose proof (sorted_at_sorted s o l) as S. rewrite E in S.
  assert (M : forall j, j ∈ l <-> j ∈ i :: r).
  { intros j. rewrite <- E. unfold sorted_at. by rewrite elem_of_sort_by. }
  split; [apply M; by left|]. intros j Hj. apply M in Hj as [->|Hj]%elem_of_cons.
  - destruct (key_le_total (key_at s o i) (key_at s o i)); done.
  - inversion S as [|? ? _ F]; subst. rewrite Forall_forall in F. by apply F.
Qed.

(** [step_order] gives an id to the position of a step with that id. *)
Lemma step_order_sound s k i :
  dget (step_order s) k = Some i -> exists st, steps s !! i = Some st /\ sr_step_id st = k.
Proof.
  unfold step_order.
  assert (X : forall l (d : list (string * nat)) k i,
    dget (fold_left (fun d (ix : nat * StepRecord) => dset d (sr_step_id (snd ix)) (fst ix)) l d) k = Some i ->
    dget d k = Some i \/ exists st, (i, st) ∈ l /\ sr_step_id st = k).
  { clear. induction l as [|[j st] l IH]; intros d k i E; simpl in E; [by left|].
    apply IH in E as [E|(st' & I & E)].
    - rewrite dget_dset in E. case_decide; [|by left]. injection E as <-. right. exists st.
      split; [by left|done].
    - right. exists st'. split; [by right|done]. }
  intros E. apply X in E as [E|(st & I & E)]; [done|]. exists st.
  split; [by apply elem_of_enumerate|done].
Qed.

Lemma step_order_total s i st :
  steps s !! i = Some st -> is_Some (dget (step_order s) (sr_step_id st)).
Proof.
  intros E. unfold step_order. apply elem_of_enumerate in E. revert E.
  generalize (enumerate (steps s)). intros l. generalize (@nil (string * nat)).
  induction l as [|ix l IH]; intros d; [by intros ?%elem_of_nil|].
  intros [<-|I]%elem_of_cons; simpl; [|by apply IH].
  assert (Y : forall (m : list (nat * StepRecord)) (d : list (string * nat)) k, is_Some (dget d k) ->
    is_Some (dget (fold_left (fun d ix => dset d (sr_step_id (snd ix)) (fst ix)) m d) k)).
  { clear. induction m as [|y m IH]; intros d k Hk; [done|]. simpl. apply IH.
    rewrite dget_dset. case_decide; eauto. }
  apply Y. rewrite dget_dset_eq. eauto.
Qed.

(** ** The candidate loop *)

Section Loop.
Context `{PyText}.
Variable iter : list string -> list string.
Variable render : list pyval -> option (list pyval) -> bool -> string.
Variables (tools : option (list pyval)) (tools_hash current : string).

Definition fill (st : StepRecord) : StepRecord :=
  fst (_candidate_snapshot_rendered render st tools tools_hash).

(** The rendering the loop compares. *)
Definition snapshot_text (st : StepRecord) : string :=
  snd (_candidate_snapshot_rendered render st tools tools_hash).

(** The comparison of the loop. *)
Definition extends (st : StepRecord) : bool :=
  negb (py_len current <? py_len (snapshot_text st))%Z
  && String.eqb (py_take (py_len (snapshot_text st)) current) (snapshot_text st).

Definition extends_at (l : list StepRecord) (i : nat) : bool :=
  match l !! i with Some st => extends st | None => false end.

Definition fill_at (l : list StepRecord) (i : nat) : list StepRecord := alter fill i l.

Definition with_steps (s : Session) (l : list StepRecord) : Session :=
  set_steps s l (steps_by_id s) (prefix_tree s).

Lemma with_steps_id s : with_steps s (steps s) = s.
Proof. by destruct s. Qed.

Lemma consider_step s v k i :
  dget (steps_by_id s) k = Some i ->
  consider render tools tools_hash current (s, v) k =
  (with_steps s (fill_at (steps s) i), v ++ (if extends_at (steps s) i then [i] else [])).
Proof.
  intros E. unfold consider. rewrite E. unfold extends_at, fill_at.
  destruct (steps s !! i) as [st|] eqn:Es.
  - unfold extends, snapshot_text, fill.
    destruct (_candidate_snapshot_rendered render st tools tools_hash) as [st' text] eqn:Ec. simpl.
    assert (P : put_step s i st' = with_steps s
      (alter (fun st => fst (_candidate_snapshot_rendered render st tools tools_hash)) i (steps s))).
    { unfold put_step, with_steps. f_equal. apply list_eq. intros j.
      destruct (decide (i = j)) as [<-|D].
      - rewrite list_lookup_alter_eq, Es, list_lookup_insert_eq by (by eapply lookup_lt_Some).
        simpl. by rewrite Ec.
      - by rewrite list_lookup_alter_ne, list_lookup_insert_ne. }
    rewrite <- P. destruct (py_len current <? py_len text)%Z; simpl; [by rewrite app_nil_r|].
    destruct (String.eqb _ _); by rewrite ?app_nil_r.
  - rewrite app_nil_r. f_equal. rewrite <- (with_steps_id s) at 1. f_equal.
    apply list_eq. intros j. destruct (decide (i = j)) as [<-|D].
    + by rewrite list_lookup_alter_eq, Es.
    + by rewrite list_lookup_alter_ne.
Qed.

Lemma fill_at_lookup l i j :
  fill_at l i !! j = if decide (i = j) then fill <$> l !! j else l !! j.
Proof.
  unfold fill_at. case_decide; [subst; by rewrite list_lookup_alter_eq|by rewrite list_lookup_alter_ne].
Qed.

Lemma fill_all_lookup ps : forall l j, NoDup ps ->
  fold_left fill_at ps l !! j = if decide (j ∈ ps) then fill <$> l !! j else l !! j.
Proof.
  induction ps as [|i ps IH]; intros l j N; [done|]. apply NoDup_cons in N as [Ni N]. simpl.
  rewrite IH, fill_at_lookup by done.
  destruct (decide (j ∈ ps)), (decide (i = j)), (decide (j ∈ i :: ps)); try done; set_solver.
Qed.

(** The loop fills the cache of every candidate and keeps, in order, those whose
    text the request extends. *)
Lemma consider_all ks : forall s v ps,
  Forall2 (fun k i => dget (steps_by_id s) k = Some i) ks ps -> NoDup ps ->
  fold_left (consider render tools tools_hash current) ks (s, v) =
  (with_steps s (fold_left fill_at ps (steps s)), v ++ List.filter (extends_at (steps s)) ps).
Proof.
  induction ks as [|k ks IH]; intros s v ps F N; inversion F as [|? i ? ps' E F']; subst.
  - simpl. by rewrite with_steps_id, app_nil_r.
  - apply NoDup_cons in N as [Ni N]. cbn [fold_left]. rewrite (consider_step _ _ _ _ E).
    rewrite (IH _ _ ps'); [|done|done]. simpl. f_equal.
    rewrite <- app_assoc. f_equal.
    assert (X : List.filter (extends_at (fill_at (steps s) i)) ps' = List.filter (extends_at (steps s)) ps').
    { apply List.filter_ext_in. intros j Hj. unfold extends_at. rewrite fill_at_lookup.
      rewrite decide_False; [done|]. intros ->. apply Ni. by apply list_elem_of_In. }
    rewrite X. by destruct (extends_at (steps s) i).
Qed.
End Loop.

(** ** Theorems *)

Section RouteTheorems.
Context `{PyText}.
Variable render : list pyval -> option (list pyval) -> bool -> string.
Variable none_equals_empty : bool.

(** The candidate positions, in the order the index returns them. *)
Lemma positions_of iter s req :
  (forall l, iter l ≡ₚ l) -> steps_ok s ->
  exists ps, Forall2 (fun k i => dget (steps_by_id s) k = Some i)
               (candidates iter (prefix_tree s) req) ps /\ NoDup ps /\
    forall i, i ∈ ps <-> exists st, st ∈ steps s /\ indexed st = true /\
                         dget (steps_by_id s) (sr_step_id st) = Some i.
Proof.
  intros It So. destruct (candidates_spec iter s req It So) as (ND & Hm & _).
  assert (G : forall ks, (forall k, k ∈ ks -> is_Some (dget (steps_by_id s) k)) -> NoDup ks ->
    exists ps, Forall2 (fun k i => dget (steps_by_id s) k = Some i) ks ps /\ NoDup ps /\
      forall i, i ∈ ps <-> exists k, k ∈ ks /\ dget (steps_by_id s) k = Some i).
  { clear -So. induction ks as [|k ks IH]; intros P N.
    - exists []. split; [constructor|]. split; [constructor|]. set_solver.
    - apply NoDup_cons in N as [Nk N]. destruct (P k ltac:(by left)) as [i Ei].
      destruct IH as (ps & F & Np & Hp); [intros; apply P; by right|done|].
      exists (i :: ps). split; [by constructor|]. split.
      + apply NoDup_cons. split; [|done]. intros I. apply Hp in I as (k' & Ik & Ek).
        destruct (so_index _ So _ _ Ei) as (st & E1 & <-).
        destruct (so_index _ So _ _ Ek) as (st' & E2 & <-). by simplify_eq.
      + intros j. rewrite elem_of_cons, Hp. setoid_rewrite elem_of_cons. naive_solver. }
  destruct (G (candidates iter (prefix_tree s) req)) as (ps & F & Np & Hp); [|done|].
  - intros k Hk. apply Hm in Hk as (st & I & _ & <-).
    apply list_elem_of_lookup in I as [j Ej]. by eapply so_found.
  - exists ps. split; [done|]. split; [done|]. intros i. rewrite Hp. setoid_rewrite Hm. naive_solver.
Qed.

(** Steps keep their id and position while the cache is filled. *)
Lemma fill_id tools th st : sr_step_id (fill render tools th st) = sr_step_id st.
Proof. unfold fill, _candidate_snapshot_rendered. by destruct (cached st th). Qed.

Lemma key_third s o i st :
  steps s !! i = Some st ->
  snd (fst (key_at s o i)) =
  (- match dget o (sr_step_id st) with Some x => Z.of_nat x | None => -1 end)%Z.
Proof. intros E. unfold key_at. by rewrite E. Qed.

(** Keys tell registered positions apart. *)
Lemma keys_distinct s s' i j :
  steps_ok s -> steps_by_id s' = steps_by_id s ->
  (forall k, sr_step_id <$> steps s' !! k = sr_step_id <$> steps s !! k) ->
  (exists k, dget (steps_by_id s) k = Some i) -> (exists k, dget (steps_by_id s) k = Some j) ->
  key_at s' (step_order s) i = key_at s' (step_order s) j -> i = j.
Proof.
  intros So _ Sid [k Ek] [k' Ek'] E.
  destruct (so_index _ So _ _ Ek) as (st & E1 & <-).
  destruct (so_index _ So _ _ Ek') as (st' & E2 & <-).
  pose proof (Sid i) as Si. pose proof (Sid j) as Sj. rewrite E1 in Si. rewrite E2 in Sj.
  destruct (steps s' !! i) as [u|] eqn:Eu; [|done]. destruct (steps s' !! j) as [u'|] eqn:Eu'; [|done].
  simpl in Si, Sj. injection Si as Si. injection Sj as Sj.
  apply (f_equal (fun x => snd (fst x))) in E. rewrite (key_third _ _ _ _ Eu) in E.
  rewrite (key_third _ _ _ _ Eu') in E. rewrite Si, Sj in E.
  destruct (step_order_total s i st E1) as [a Ea]. destruct (step_order_total s j st' E2) as [b Eb].
  rewrite Ea, Eb in E. assert (a = b) as -> by lia.
  destruct (step_order_sound _ _ _ Ea) as (x & Ex & Ix).
  destruct (step_order_sound _ _ _ Eb) as (y & Ey & Iy). simplify_eq.
  rewrite <- Ix, <- Iy in *. congruence.
Qed.

(** The route does not depend on the order in which Python enumerates the sets
    of the prefix index: for any two enumeration orders the decision and the
    resulting session (cached renderings, new lineage) are the same. *)
Theorem select_route_deterministic iter iter' s req tools th :
  (forall l, iter l ≡ₚ l) -> (forall l, iter' l ≡ₚ l) -> steps_ok s ->
  _select_route iter render none_equals_empty s req tools th =
  _select_route iter' render none_equals_empty s req tools th.
Proof.
  intros It It' So. unfold _select_route.
  destruct (positions_of iter s req It So) as (ps & F & N & Hp).
  destruct (positions_of iter' s req It' So) as (ps' & F' & N' & Hp').
  rewrite (consider_all _ _ _ _ _ _ _ _ F N), (consider_all _ _ _ _ _ _ _ _ F' N').
  assert (P : ps ≡ₚ ps') by (apply NoDup_Permutation; [done|done|]; intros i; by rewrite Hp, Hp').
  assert (E : fold_left (fill_at render tools th) ps (steps s)
            = fold_left (fill_at render tools th) ps' (steps s)).
  { apply list_eq. intros j. rewrite !fill_all_lookup by done.
    destruct (decide (j ∈ ps)) as [I|I], (decide (j ∈ ps')) as [I'|I']; try done;
      rewrite P in I; done. }
  rewrite <- E. cbn [app].
  set (s1 := with_steps s (fold_left (fill_at render tools th) ps (steps s))).
  assert (V : sorted_at s1 (step_order s)
                (List.filter (extends_at render tools th (render req tools true) (steps s)) ps)
            = sorted_at s1 (step_order s)
                (List.filter (extends_at render tools th (render req tools true) (steps s)) ps')).
  { apply sorted_at_perm.
    - intros i j Hi Hj Ek. rewrite !list_elem_of_In in *. apply filter_In in Hi as [Hi _].
      apply filter_In in Hj as [Hj _]. rewrite <- !list_elem_of_In in *.
      apply Hp in Hi as (? & _ & _ & Hi). apply Hp in Hj as (? & _ & _ & Hj).
      eapply (keys_distinct s s1); eauto. intros k. simpl. rewrite fill_all_lookup by done.
      case_decide; [|done]. destruct (steps s !! k); [|done]. simpl. by rewrite fill_id.
    - by apply filter_perm. }
  by rewrite V.
Qed.

(** The recorded length is the length of the recorded rendering. *)
Definition length_recorded (st : StepRecord) : Prop :=
  sr_snapshot_rendered_len st = py_len (sr_snapshot_rendered st).

Lemma key_first tools th s o i st :
  steps s !! i = Some (fill render tools th st) -> length_recorded st ->
  fst (fst (fst (key_at s o i))) = (- py_len (snapshot_text render tools th st))%Z.
Proof.
  intros E L. unfold key_at. rewrite E. unfold sort_key, fill, snapshot_text,
    _candidate_snapshot_rendered. simpl.
  destruct (cached st th); simpl; [rewrite L|]; by destruct (_ =? 0)%Z.
Qed.

Lemma fill_frame tools th st :
  sr_lineage_id (fill render tools th st) = sr_lineage_id st /\
  sr_normalized_messages_snapshot (fill render tools th st) = sr_normalized_messages_snapshot st /\
  sr_tools (fill render tools th st) = sr_tools st.
Proof. unfold fill, _candidate_snapshot_rendered. by destruct (cached st th). Qed.

Lemma key_le_first a b : key_le a b = true -> (fst (fst (fst a)) <= fst (fst (fst b)))%Z.
Proof. destruct a as [[[a1 a2] a3] a4], b as [[[b1 b2] b3] b4]. unfold key_le. simpl. lia. Qed.

Lemma is_latest_frame s s' st st' :
  lineages s' = lineages s -> sr_lineage_id st' = sr_lineage_id st ->
  sr_step_id st' = sr_step_id st -> is_latest s' st' = is_latest s st.
Proof. intros A B C. unfold is_latest. by rewrite A, B, C. Qed.

Section Sound.
Variables (iter : list string -> list string) (s : Session) (req : list pyval).
Variables (tools : option (list pyval)) (th : string).
Hypothesis It : forall l, iter l ≡ₚ l.
Hypothesis So : steps_ok s.
Hypothesis Ids : NoDup (map sr_step_id (steps s)).
Hypothesis Len : Forall length_recorded (steps s).

(** The steps the request may continue. *)
Definition fits (st : StepRecord) : Prop :=
  indexed st = true /\ extends render tools th (render req tools true) st = true.

Definition longest (st : StepRecord) : Prop :=
  forall st', st' ∈ steps s -> fits st' ->
    (py_len (snapshot_text render tools th st') <= py_len (snapshot_text render tools th st))%Z.

Lemma position_unique i st :
  steps s !! i = Some st -> dget (steps_by_id s) (sr_step_id st) = Some i.
Proof using So Ids.
  intros E. destruct (so_found _ So _ _ E) as [j Ej].
  destruct (so_index _ So _ _ Ej) as (st' & E' & Eid). rewrite Ej. f_equal.
  apply (NoDup_lookup (map sr_step_id (steps s)) j i (sr_step_id st)); [done| |].
  - rewrite list_lookup_fmap, E'. simpl. by rewrite Eid.
  - by rewrite list_lookup_fmap, E.
Qed.

(** What the loop leaves in the session and which positions it keeps. *)
Definition loop_ok (s1 : Session) (valid : list nat) : Prop :=
  lineages s1 = lineages s /\ length (steps s1) = length (steps s) /\
  (forall i st, steps s !! i = Some st ->
     exists st', steps s1 !! i = Some st' /\ (st' = st \/ st' = fill render tools th st) /\
       (indexed st = true -> st' = fill render tools th st)) /\
  (forall i, i ∈ valid <-> exists st, steps s !! i = Some st /\ fits st).

Lemma fill_all_length (ps : list nat) : forall l, length (fold_left (fill_at render tools th) ps l) = length l.
Proof using. induction ps as [|i ps IH]; intros l; simpl; [done|]. rewrite IH. apply length_alter. Qed.

Lemma indexed_positions (ps : list nat) :
  (forall i, i ∈ ps <-> exists st, st ∈ steps s /\ indexed st = true /\
                        dget (steps_by_id s) (sr_step_id st) = Some i) ->
  forall i st, steps s !! i = Some st -> (i ∈ ps <-> indexed st = true).
Proof using So Ids.
  intros Hp i st E. rewrite Hp. split.
  - intros (st' & I & Hx & Ei). apply list_elem_of_lookup in I as [j Ej].
    pose proof (position_unique _ _ Ej). simplify_eq. done.
  - intros Hx. exists st. split; [by eapply list_elem_of_lookup_2|]. split; [done|].
    by apply position_unique.
Qed.

Lemma loop_result : exists s1 valid,
  fold_left (consider render tools th (render req tools true))
    (candidates iter (prefix_tree s) req) (s, []) = (s1, valid) /\ loop_ok s1 valid.
Proof using It So Ids.
  destruct (positions_of iter s req It So) as (ps & F & N & Hp).
  rewrite (consider_all _ _ _ _ _ _ _ _ F N). eexists _, _. split; [reflexivity|].
  assert (Hpos := indexed_positions ps Hp).
  split; [done|]. split; [|split].
  - apply fill_all_length.
  - intros i st E. simpl. rewrite fill_all_lookup by done. rewrite E.
    case_decide as D; simpl; eexists; (split; [done|]); (split; [auto|]); [done|].
    intros Hx. exfalso. apply D. by eapply Hpos.
  - intros i. cbn [app]. rewrite list_elem_of_In, filter_In, <- list_elem_of_In. unfold extends_at.
    split.
    + intros [I X]. destruct (steps s !! i) as [st|] eqn:E; [|done]. exists st.
      split; [done|]. split; [by eapply Hpos|done].
    + intros (st & E & Hx & X). rewrite E. split; [by eapply Hpos|done].
Qed.

Lemma none_fits s1 valid :
  loop_ok s1 valid -> sorted_at s1 (step_order s) valid = [] -> forall st, st ∈ steps s -> ~ fits st.
Proof using.
  intros (_ & _ & _ & Hv) Es st I Fi. apply list_elem_of_lookup in I as [i Ei].
  assert (i ∈ sorted_at s1 (step_order s) valid) as Q
    by (unfold sorted_at; rewrite elem_of_sort_by; apply Hv; eauto).
  rewrite Es in Q. by apply elem_of_nil in Q.
Qed.

(** The step the fallback continues, as it was before the loop. *)
Lemma fallback_sound s1 valid st :
  loop_ok s1 valid ->
  tools_fallback none_equals_empty s1 tools
    (sorted_at s1 (step_order s)
       (List.filter (fun i => match steps s1 !! i with
                              | Some st => messages_prefix req st
                              | None => false
                              end) (seq 0 (length (steps s1))))) = Some st ->
  exists st0, st0 ∈ steps s /\ sr_step_id st = sr_step_id st0 /\ sr_lineage_id st = sr_lineage_id st0 /\
    is_latest s st0 = true /\ messages_prefix req st0 = true /\
    _tools_changed (sr_tools st0) tools none_equals_empty = true.
Proof using.
  intros (Hl & Hn & Hs & _) Ef. unfold tools_fallback, find_first in Ef.
  apply find_some in Ef as [I B]. apply andb_prop in B as [B1 B2].
  apply list_elem_of_In, list_elem_of_omap in I as (i & I & Ei).
  unfold sorted_at in I. rewrite elem_of_sort_by in I.
  apply list_elem_of_In, filter_In in I as [_ Mp]. rewrite Ei in Mp.
  assert (Hi : (i < length (steps s))%nat) by (rewrite <- Hn; by eapply lookup_lt_Some).
  destruct (lookup_lt_is_Some_2 _ _ Hi) as [st0 E0].
  destruct (Hs i st0 E0) as (st' & E' & Hst & _). assert (st' = st) as -> by congruence.
  assert (Q : sr_lineage_id st = sr_lineage_id st0 /\ sr_step_id st = sr_step_id st0 /\
              sr_normalized_messages_snapshot st = sr_normalized_messages_snapshot st0 /\
              sr_tools st = sr_tools st0).
  { destruct Hst as [->| ->]; [done|]. destruct (fill_frame tools th st0) as (A & B & C).
    by rewrite fill_id. }
  destruct Q as (Q1 & Q2 & Q3 & Q4). exists st0.
  split; [by eapply list_elem_of_lookup_2|]. split; [done|]. split; [done|].
  split; [by rewrite <- (is_latest_frame s s1 st0 st)|].
  split; [|by rewrite <- Q4]. unfold messages_prefix in *. by rewrite <- Q3.
Qed.

(** The first of the sorted candidates is a longest one. *)
Lemma head_longest s1 valid i rest :
  loop_ok s1 valid -> sorted_at s1 (step_order s) valid = i :: rest ->
  exists st, steps s !! i = Some st /\ steps s1 !! i = Some (fill render tools th st) /\
    fits st /\ longest st.
Proof using Len.
  intros (_ & _ & Hs & Hv) Es. destruct (sorted_at_head _ _ _ _ _ Es) as [Iv Min].
  apply Hv in Iv as (st & E & Fi). exists st. split; [done|].
  destruct (Hs i st E) as (st' & E' & _ & Hf). specialize (Hf (proj1 Fi)). subst st'.
  split; [done|]. split; [done|]. intros st2 I2 F2. apply list_elem_of_lookup in I2 as [j Ej].
  specialize (Min j). destruct (Hs j st2 Ej) as (st2' & Ej' & _ & Hf2).
  specialize (Hf2 (proj1 F2)). subst st2'.
  assert (Hj : j ∈ valid) by (apply Hv; eauto). apply Min, key_le_first in Hj.
  rewrite (key_first _ _ _ _ _ _ E') in Hj by (by eapply (Forall_lookup_1 _ _ _ _ Len)).
  rewrite (key_first _ _ _ _ _ _ Ej') in Hj by (by eapply (Forall_lookup_1 _ _ _ _ Len)). lia.
Qed.

(** C29: The route is right.  An append or branch continues a step whose recorded
    rendering is a prefix of the rendered request, the longest such one; it appends
    exactly when that step is the latest of its lineage, and otherwise a new lineage
    that branches from it is registered.  If no step fits, a lineage is created,
    unless the messages extend a latest step whose tools changed, which is
    continued. *)
Theorem select_route_sound s' r :
  _select_route iter render none_equals_empty s req tools th = (s', r) ->
  match r_type r with
  | create => r_base_step_id r = None /\ (forall st, st ∈ steps s -> ~ fits st) /\
      exists l, dget (lineages s') (r_lineage_id r) = Some l /\ branch_from_step_id l = None
  | branch => exists st, st ∈ steps s /\ r_base_step_id r = Some (sr_step_id st) /\ fits st /\
      longest st /\ is_latest s st = false /\
      exists l, dget (lineages s') (r_lineage_id r) = Some l /\
                branch_from_step_id l = Some (sr_step_id st) /\ latest_step_id l = None
  | append => exists st, st ∈ steps s /\ r_base_step_id r = Some (sr_step_id st) /\
      r_lineage_id r = sr_lineage_id st /\ is_latest s st = true /\
      ((fits st /\ longest st) \/
       ((forall st', st' ∈ steps s -> ~ fits st') /\ messages_prefix req st = true /\
        _tools_changed (sr_tools st) tools none_equals_empty = true))
  end.
Proof using It So Ids Len.
  unfold _select_route. destruct loop_result as (s1 & valid & -> & L).
  destruct (sorted_at s1 (step_order s) valid) as [|i rest] eqn:Es.
  - pose proof (none_fits _ _ L Es) as Nf. destruct (tools_fallback _ _ _ _) as [st|] eqn:Ef.
    + intros [= <- <-]. simpl.
      destruct (fallback_sound _ _ _ L Ef) as (st0 & I & Q1 & Q2 & La & Mp & Tc).
      exists st0. rewrite Q1. by auto 10.
    + intros [= <- <-]. simpl. split; [done|]. split; [done|]. eexists.
      rewrite dget_dset_eq. by split.
  - destruct (head_longest _ _ _ _ L Es) as (st & E & E' & Fi & Lg). rewrite E'.
    destruct (fill_frame tools th st) as (A & _).
    rewrite (is_latest_frame s s1 st _ (proj1 L) A (fill_id tools th st)), fill_id.
    destruct (is_latest s st) eqn:La; intros [= <- <-]; simpl; exists st;
      (split; [by eapply list_elem_of_lookup_2|]).
    + rewrite A. by auto 10.
    + split; [done|]. split; [done|]. split; [done|]. split; [done|]. eexists.
      rewrite dget_dset_eq. by split.
Qed.
End Sound.
End RouteTheorems.

(** ** Witnesses *)

#[local] Instance w_rt_text : PyText :=
  {| py_repr := fun _ => ""; py_parse_float := fun _ => None |}.

Definition w_rt_args (msgs : list pyval) (lid : option string) : StepArgs :=
  {| ra_turn_id := "";
     ra_request_messages := [];
     ra_normalized_request_messages := [];
     ra_prompt_token_ids := [];
     ra_prompt_token_logprobs := inl [];
     ra_snapshot_token_ids := [];
     ra_response_token_ids := [];
     ra_response_logprobs := inl [];
     ra_all_token_ids := [];
     ra_all_logprobs := inl [];
     ra_input_token_texts := [];
     ra_output_token_texts := [];
     ra_messages_snapshot := msgs;
     ra_raw_response_text := "";
     ra_step_id := None;
     ra_lineage_id := lid;
     ra_lineage_index := None;
     ra_route_type := create;
     ra_route_base_step_id := None;
     ra_normalized_messages_snapshot := None;
     ra_snapshot_rendered := "";
     ra_snapshot_rendered_len := 0%Z;
     ra_snapshot_tools_hash := None;
     ra_lineage_segment_boundary_before := false;
     ra_lineage_segment_reasons_before := None;
     ra_prompt_versions := None;
     ra_response_versions := None;
     ra_all_versions := None;
     ra_all_logprobs_invalid := false;
     ra_concat_token_ids := None;
     ra_concat_response_logprobs := None;
     ra_concat_response_mask := None;
     ra_concat_versions := None;
     ra_concat_context_token_count := 0%Z;
     ra_concat_output_token_count := 0%Z;
     ra_concat_logprobs_invalid := false;
     ra_concat_incremental_tokenization_failed := false;
     ra_response_routed_experts_chunks := None;
     ra_tools := None;
     ra_segment_boundary_before := false;
     ra_rewrite_reason := None;
     ra_segment_reason_before := None;
     ra_segment_reasons_before := None;
     ra_finish_reason := "";
     ra_request_version := None;
     ra_response_version := None;
     ra_tool_call_hook_metadata := None;
     ra_request_e2e_latency_seconds := None;
     ra_request_queue_seconds := None;
     ra_rebalancing_moved := false |}.

(** A template that writes one message after another. *)
Definition w_render (msgs : list pyval) (_ : option (list pyval)) (_ : bool) : string :=
  String.concat "" (map (fun m => match m with PStr s => s | _ => "" end) msgs).

(** Two steps of one lineage, the second extending the first. *)
Definition w_s1 : Session :=
  fst (record_in (new_session 0 "s" "i" f0 f0) (w_rt_args [PStr "ab"] None) f0 f0).
Definition w_s2 : Session :=
  fst (record_in w_s1 (w_rt_args [PStr "ab"; PStr "cd"] (Some "lineage-000001")) f0 f0).

Lemma w_s2_ok : steps_ok w_s2.
Proof.
  unfold w_s2. destruct (record_in w_s1 _ f0 f0) as [s st] eqn:E.
  destruct (record_in (new_session 0 "s" "i" f0 f0) (w_rt_args [PStr "ab"] None) f0 f0)
    as [s1 st1] eqn:E1.
  destruct (new_session_ok "s" 0 "i" f0 f0) as (_ & T & S).
  destruct (record_in_ok _ _ _ _ _ _ E1 S T) as (S1 & T1 & _).
  assert (w_s1 = s1) as Ew by (unfold w_s1; by rewrite E1). rewrite Ew in E.
  by destruct (record_in_ok _ _ _ _ _ _ E S1 T1) as (S2 & _).
Qed.

Lemma select_route_deterministic_witness :
  _select_route (fun l => l) w_render false w_s2 [PStr "ab"; PStr "zz"] None "h" =
  _select_route (@rev string) w_render false w_s2 [PStr "ab"; PStr "zz"] None "h".
Proof.
  apply (select_route_deterministic w_render false (fun l => l) (@rev string) w_s2
           [PStr "ab"; PStr "zz"] None "h").
  - done.
  - intros l. symmetry. apply Permutation_rev.
  - exact w_s2_ok.
Defined.

(** A request that shares only the first message branches from the first step. *)
Lemma select_route_sound_witness :
  exists s' r, _select_route (fun l => l) w_render false w_s2 [PStr "ab"; PStr "zz"] None "h" = (s', r) /\
    r_type r = branch /\ r_base_step_id r = Some "step-000001" /\
    exists st, st ∈ steps w_s2 /\ longest w_render w_s2 [PStr "ab"; PStr "zz"] None "h" st.
Proof.
  destruct (_select_route (fun l => l) w_render false w_s2 [PStr "ab"; PStr "zz"] None "h")
    as [s' r] eqn:E. exists s', r. split; [reflexivity|].
  assert (Hr : r = snd (_select_route (fun l => l) w_render false w_s2 [PStr "ab"; PStr "zz"] None "h"))
    by (rewrite E; reflexivity).
  assert (Ht : r_type r = branch) by (rewrite Hr; vm_compute; reflexivity).
  split; [exact Ht|]. split; [rewrite Hr; vm_compute; reflexivity|].
  assert (Ids : NoDup (map sr_step_id (steps w_s2)))
    by (apply (bool_decide_unpack _); vm_compute; exact I).
  assert (Len : Forall length_recorded (steps w_s2)) by (vm_compute; repeat constructor).
  pose proof (select_route_sound w_render false (fun l => l) w_s2 [PStr "ab"; PStr "zz"] None "h"
    (fun l => Permutation_refl l) w_s2_ok Ids Len s' r E) as S.
  rewrite Ht in S. destruct S as (st & Hi & _ & _ & L & _). exists st. split; [exact Hi|exact L].
Defined.
