(* ===== verification/Tito.v ===== *)
(** * Incremental prompt tokenization ([dressage/proxy/tito/])

    [template_utils.py] and [tito_tokenizer.py]: a prompt that extends a recorded
    conversation keeps the recorded token ids and only the appended messages are
    tokenized, by encoding the text the chat template adds for them after a dummy
    conversation.  The tokenizer of the model is a parameter: its chat template
    [template] (which may raise), its encoder [encode], and the ids of the newline and
    of the end-of-message token when it has them. *)

From S2P Require Import Prelude.
From S2P Require Import PyFloat.
From S2P Require Import PyVal.
From S2P Require Import Json.
From S2P Require Import SessionManager.

Local Open Scope string_scope.
Local Open Scope list_scope.
Local Open Scope py_scope.

(** A message is a dictionary. *)
Abbreviation msg := (list (string * pyval)).

Section Template.
Context `{PyText}.

(** ** [template_utils.py] *)

Definition normalize_arguments (function : msg) : msg :=
  match pget function "arguments" with
  | PStr s => match json_loads s with
              | Some v => dset function "arguments" v
              | None => function
              end
  | _ => function
  end.

Definition normalize_call (tool_call : pyval) : pyval :=
  match tool_call with
  | PDict d =>
      let d := match dget d "id" with
               | Some v => dset d "id" (canonicalize_openclaw_tool_call_id v)
               | None => d
               end in
      match pget d "function" with
      | PDict f => PDict (dset d "function" (PDict (normalize_arguments f)))
      | _ => PDict d
      end
  | _ => tool_call
  end.

Definition normalize_one (m : msg) : msg :=
  let m := if py_eqb (pget m "role") (PStr "assistant") && py_truth (pget m "tool_calls")
              && is_pnone (pget m "content")
           then dset m "content" (PStr "") else m in
  match pget m "tool_calls" with
  | PList calls => dset m "tool_calls" (PList (map normalize_call calls))
  | _ => m
  end.

Definition normalize_messages (messages : list msg) : list msg := map normalize_one messages.

Definition _normalize_value (v : pyval) : pyval :=
  if is_pnone v || py_eqb v (PStr "") || py_eqb v (PList []) then PNone else v.

(** Keys sorted and every [index] dropped, at every depth. *)
Fixpoint _canonical_jsonish (v : pyval) : pyval :=
  match v with
  | PDict d =>
      PDict (sort_by key_leb
               (List.filter (fun kv => negb (String.eqb (fst kv) "index"))
                  (map (fun kv => (fst kv, _canonical_jsonish (snd kv))) d)))
  | PList l => PList (map _canonical_jsonish l)
  | _ => v
  end.

Definition _TEMPLATE_RELEVANT_KEYS : list string :=
  ["role"; "content"; "reasoning_content"; "tool_calls"].

Definition opt_text (o : option string) : pyval :=
  match o with Some s => PStr s | None => PNone end.

(** What one key contributes to the comparison. *)
Definition relevant_value (m : msg) (key : string) : pyval :=
  if String.eqb key "reasoning_content"
  then opt_text (canonicalize_reasoning_content (pget m key))
  else _canonical_jsonish (_normalize_value (pget m key)).

Definition message_matches (stored current : msg) : bool :=
  let stored := normalize_one stored in
  let current := normalize_one current in
  forallb (fun k => py_eqb (relevant_value stored k) (relevant_value current k))
          _TEMPLATE_RELEVANT_KEYS.

(** [message.get("role") in allowed] for allowed roles that are strings *)
Definition role_in (m : msg) (allowed : list string) : bool :=
  existsb (fun r => py_eqb (pget m "role") (PStr r)) allowed.

Definition assert_messages_append_only_with_allowed_roles (stored current : list msg)
    (allowed : list string) : result unit :=
  check! (length current <? length stored)%nat else ValueError "new messages are fewer than stored messages" ;;
  check! negb (forallb (fun sc => message_matches (fst sc) (snd sc)) (zip stored current))
    else ValueError "message mismatch at index" ;;
  check! negb (forallb (fun m => role_in m allowed) (drop (length stored) current))
    else ValueError "appended message has a role that is not allowed" ;;
  Ok tt.

(** ** [tito_tokenizer.py] *)

Definition _DUMMY_SYSTEM : msg := [("role", PStr "system"); ("content", PStr "dummy system")].
Definition _DUMMY_USER : msg := [("role", PStr "user"); ("content", PStr "dummy user")].

Definition dummy_call (ix : nat * msg) : pyval :=
  let '(i, response) := ix in
  PDict [("id", if py_truth (pget response "tool_call_id") then pget response "tool_call_id"
                else PStr ("call0000" +:+ str_of_Z (Z.of_nat i)));
         ("type", PStr "function");
         ("function", PDict [("name", if py_truth (pget response "name") then pget response "name"
                                      else PStr "dummy_func");
                             ("arguments", PDict [])])].

Definition _build_dummy_assistant (responses : list msg) : msg :=
  [("role", PStr "assistant"); ("content", PStr ""); ("reasoning_content", PStr " ");
   ("tool_calls", PList (map dummy_call (enumerate responses)))].

Inductive TitoModel : Type := qwen3_5 | qwen3_6.

Definition allowed_append_roles : list string := ["tool"; "user"].

Variable template : list msg -> option (list pyval) -> bool -> result string.
Variable encode : string -> result (list Z).
Variables newline_id im_end_id : option Z.
Variable model : TitoModel.

(** A template that does not take tools raises [TypeError] and is called without. *)
Definition apply_chat_template (messages : list msg) (tools : option (list pyval))
    (add_generation_prompt : bool) : result string :=
  let normalized := normalize_messages messages in
  match template normalized tools add_generation_prompt with
  | Raise (TypeError _) => template normalized None add_generation_prompt
  | r => r
  end.

Definition has_role (r : string) (m : msg) : bool := py_eqb (pget m "role") (PStr r).

(** The longest prefix of tool messages, and the rest. *)
Fixpoint span_tools (l : list msg) : list msg * list msg :=
  match l with
  | [] => ([], [])
  | m :: rest => if has_role "tool" m then let '(a, b) := span_tools rest in (m :: a, b)
                 else ([], l)
  end.

(** The outer loop; every turn consumes a message. *)
Fixpoint split_loop (fuel : nat) (l : list msg) : result (list (list msg)) :=
  match fuel, l with
  | _, [] => Ok []
  | O, _ => Ok []
  | S fuel', m :: rest =>
      if has_role "tool" m then
        let '(run, after) := span_tools rest in
        let! segs := split_loop fuel' after in Ok ((m :: run) :: segs)
      else if has_role "user" m then
        let! segs := split_loop fuel' rest in Ok ([m] :: segs)
      else Raise (ValueError "unsupported appended role for TITO tokenization: ")
  end.

Definition _split_appended_segments (l : list msg) : result (list (list msg)) :=
  split_loop (length l) l.

Definition drop_prefix (p s : string) : option string :=
  if String.prefix p s then Some (drop_str (String.length p) s) else None.

Definition _tokenize_rendered_suffix (base appended : list msg) (tools : option (list pyval))
    (add_generation_prompt : bool) : result (list Z) :=
  let! without := apply_chat_template base tools false in
  let! with_ := apply_chat_template (base ++ appended) tools add_generation_prompt in
  match drop_prefix without with_ with
  | Some suffix => encode suffix
  | None => Raise (ValueError "rendered suffix diff failed for ")
  end.

Definition _tokenize_tool_segment (appended : list msg) (tools : option (list pyval))
    : result (list Z) :=
  _tokenize_rendered_suffix
    (match model with
     | qwen3_5 => [_DUMMY_SYSTEM; _build_dummy_assistant appended]
     | qwen3_6 => [_DUMMY_SYSTEM; _DUMMY_USER; _build_dummy_assistant appended]
     end) appended tools false.

Definition _tokenize_user_segment (appended : msg) (tools : option (list pyval))
    : result (list Z) :=
  _tokenize_rendered_suffix
    (match model with
     | qwen3_5 => [_DUMMY_SYSTEM]
     | qwen3_6 => [_DUMMY_SYSTEM; _DUMMY_USER]
     end) [appended] tools false.

(** The tokens of one segment of appended messages. *)
Definition tokenize_segment (tools : option (list pyval)) (segment : list msg)
    : result (list Z) :=
  match segment with
  | m :: _ => if has_role "tool" m then _tokenize_tool_segment segment tools
              else if has_role "user" m then _tokenize_user_segment m tools
              else Raise (ValueError "unsupported appended role for TITO tokenization: ")
  | [] => Raise (IndexError "list index out of range")
  end.

Definition tokenize_additional_non_assistant (old new : list msg) (tools : option (list pyval))
    : result (list Z) :=
  let! _ := assert_messages_append_only_with_allowed_roles old new allowed_append_roles in
  match model, old with
  | qwen3_6, [] => let! text := apply_chat_template new tools true in encode text
  | _, _ =>
      let! segments := _split_appended_segments (drop (length old) new) in
      let! parts := mapM_res (tokenize_segment tools) segments in
      let! generation := _tokenize_rendered_suffix new [] tools true in
      Ok (concat parts ++ generation)
  end.

(** The separator a template writes after the end of a message. *)
Definition separator (prefix : list Z) : list Z :=
  match im_end_id, newline_id, last prefix with
  | Some e, Some n, Some x => if (x =? e)%Z then [n] else []
  | _, _, _ => []
  end.

Definition merge_tokens (old new : list msg) (pretokenized : list Z)
    (tools : option (list pyval)) : result (list Z) :=
  let! incremental := tokenize_additional_non_assistant old new tools in
  Ok (pretokenized ++ separator pretokenized ++ incremental).
End Template.

Section TitoFacts.
Context `{PyText}.

(** A segment of appended messages: one user message or a run of tool results. *)
Definition uniform (seg : list msg) : Prop :=
  seg <> [] /\ (Forall (fun m => has_role "tool" m = true) seg \/
                exists m, seg = [m] /\ has_role "user" m = true).

Lemma span_tools_spec l a b :
  span_tools l = (a, b) -> l = a ++ b /\ Forall (fun m => has_role "tool" m = true) a.
Proof.
  revert a b. induction l as [|m l IH]; intros a b E; simpl in E; [by injection E as <- <-|].
  destruct (has_role "tool" m) eqn:R; [|by injection E as <- <-].
  destruct (span_tools l) as [a' b']. injection E as <- <-.
  destruct (IH _ _ eq_refl) as [-> F]. split; [done|by constructor].
Qed.

(** With enough fuel the loop reads every message, and raises on none it may read. *)
Lemma split_loop_spec fuel : forall l, (length l <= fuel)%nat ->
  Forall (fun m => role_in m allowed_append_roles = true) l ->
  exists segs, split_loop fuel l = Ok segs /\ concat segs = l /\ Forall uniform segs.
Proof.
  induction fuel as [|fuel IH]; intros [|m l] L F; simpl in L; try lia; try (by exists []).
  apply Forall_cons in F as [R F]. simpl. unfold role_in, allowed_append_roles in R. simpl in R.
  unfold has_role at 1. destruct (py_eqb (pget m "role") (PStr "tool")) eqn:T; simpl in R.
  - destruct (span_tools l) as [a b] eqn:E. destruct (span_tools_spec _ _ _ E) as [-> Fa].
    apply Forall_app in F as [_ Fb]. rewrite length_app in L.
    destruct (IH b ltac:(lia) Fb) as (segs & -> & C & U). eexists. split; [done|].
    split; [simpl; by rewrite C|]. constructor; [|done]. split; [done|]. left. by constructor.
  - rewrite orb_false_r in R. unfold has_role. rewrite R.
    destruct (IH l ltac:(lia) F) as (segs & -> & C & U). eexists. split; [done|].
    split; [simpl; by rewrite C|]. constructor; [|done]. split; [done|]. right. by exists m.
Qed.

Lemma append_only_ok old new allowed :
  assert_messages_append_only_with_allowed_roles old new allowed = Ok tt <->
  (length old <= length new)%nat /\
  (forall i s c, old !! i = Some s -> new !! i = Some c -> message_matches s c = true) /\
  Forall (fun m => role_in m allowed = true) (drop (length old) new).
Proof.
  unfold assert_messages_append_only_with_allowed_roles.
  destruct (Nat.ltb_spec (length new) (length old)) as [L|L]; cbn [raise_if res_bind];
    [split; [done|intros [? _]; lia]|].
  destruct (forallb _ (zip old new)) eqn:Z; cbn [negb raise_if res_bind].
  - assert (M : forall i s c, old !! i = Some s -> new !! i = Some c -> message_matches s c = true).
    { intros i s c Es Ec. rewrite forallb_forall in Z. apply (Z (s, c)), list_elem_of_In.
      apply (list_elem_of_lookup_2 _ i). by rewrite lookup_zip_with, Es, Ec. }
    destruct (forallb _ (drop _ new)) eqn:D; cbn [negb raise_if res_bind].
    + split; [intros _|done]. split; [lia|]. split; [done|].
      by apply Forall_forall; intros m I; rewrite forallb_forall in D; apply D, list_elem_of_In.
    + split; [done|]. intros (_ & _ & F). rewrite Forall_forall in F.
      apply not_true_iff_false in D. destruct D. apply forallb_forall.
      intros m I. by apply F, list_elem_of_In.
  - split; [done|]. intros (_ & M & _). apply not_true_iff_false in Z. destruct Z.
    apply forallb_forall. intros [s c] I. apply list_elem_of_In, list_elem_of_lookup in I as [i I].
    rewrite lookup_zip_with in I. destruct (old !! i) as [s'|] eqn:Es; [|done].
    destruct (new !! i) as [c'|] eqn:Ec; [|done]. injection I as <- <-. by eapply M.
Qed.

Variable template : list msg -> option (list pyval) -> bool -> result string.
Variable encode : string -> result (list Z).
Variables newline_id im_end_id : option Z.
Variable model : TitoModel.

Lemma merge_tokens_prefix old new pre tools out :
  merge_tokens template encode newline_id im_end_id model old new pre tools = Ok out ->
  pre `prefix_of` out.
Proof. unfold merge_tokens. intros E. res_inv. subst out. by eexists. Qed.

(** Incremental tokenization.  When [merge_tokens] succeeds the recorded tokens
    are kept as they are, followed by the message separator and the new tokens; the
    recorded messages match the new ones, the appended ones are split without loss into
    user messages and runs of tool results, each tokenized on its own, and the
    generation prompt comes last.  When the messages are append-only the split itself
    never fails. *)
Theorem merge_tokens_spec old new pre tools out :
  merge_tokens template encode newline_id im_end_id model old new pre tools = Ok out ->
  exists incremental, out = pre ++ separator newline_id im_end_id pre ++ incremental /\
    (length old <= length new)%nat /\
    (forall i s c, old !! i = Some s -> new !! i = Some c -> message_matches s c = true) /\
    exists segs, _split_appended_segments (drop (length old) new) = Ok segs /\
      concat segs = drop (length old) new /\ Forall uniform segs /\
      ((model = qwen3_6 /\ old = []) \/
       exists parts gen, Forall2 (fun s p => tokenize_segment template encode model tools s = Ok p) segs parts /\
         _tokenize_rendered_suffix template encode new [] tools true = Ok gen /\
         incremental = concat parts ++ gen).
Proof.
  unfold merge_tokens. intros E.
  destruct (tokenize_additional_non_assistant _ _ _ old new tools) as [inc|] eqn:Et; [|done].
  injection E as <-. exists inc. split; [done|]. unfold tokenize_additional_non_assistant in Et.
  destruct (assert_messages_append_only_with_allowed_roles old new _) as [[]|] eqn:Ea; [|done].
  apply append_only_ok in Ea as (L & M & F). cbn [res_bind] in Et.
  destruct (split_loop_spec (length (drop (length old) new)) (drop (length old) new) ltac:(lia) F)
    as (segs & Es & C & U).
  split; [done|]. split; [done|]. exists segs. split; [done|]. split; [done|]. split; [done|].
  unfold _split_appended_segments in Et. rewrite Es in Et. cbn [res_bind] in Et.
  destruct model, old as [|o old]; [right|right|by left|right];
    (destruct (mapM_res _ segs) as [parts|] eqn:Ep; [|done]; cbn [res_bind] in Et;
     destruct (_tokenize_rendered_suffix _ _ _ _ _ _) as [gen|] eqn:Eg; [|done];
     injection Et as <-; exists parts, gen; split; [by apply mapM_res_Forall2|done]).
Qed.
End TitoFacts.

(** ** Witness *)

#[local] Instance w_tito_text : PyText :=
  {| py_repr := fun _ => ""; py_parse_float := fun _ => None |}.

(** A template that writes each role as one character, and ids that are its codes. *)
Definition w_template (ms : list msg) (_ : option (list pyval)) (gen : bool) : result string :=
  Ok (String.concat "" (map (fun m => match pget m "role" with
                                      | PStr (String c _) => String c ""
                                      | _ => "?"
                                      end) ms) +:+ (if gen then ">" else "")).

Definition w_encode (s : string) : result (list Z) :=
  Ok (map (fun c => Z.of_N (Ascii.N_of_ascii c)) (String.list_ascii_of_string s)).

Definition w_msg (role : string) : msg := [("role", PStr role); ("content", PStr "x")].

(** A user turn and an assistant reply, then two tool results and a user message. *)
Lemma merge_tokens_spec_witness : exists out,
  merge_tokens w_template w_encode (Some 10%Z) (Some 2%Z) qwen3_5
    [w_msg "user"; w_msg "assistant"]
    [w_msg "user"; w_msg "assistant"; w_msg "tool"; w_msg "tool"; w_msg "user"]
    [7; 8; 2]%Z None = Ok out /\
  [7; 8; 2; 10]%Z `prefix_of` out.
Proof.
  eexists. split; [vm_compute; reflexivity|].
  edestruct (merge_tokens_spec w_template w_encode (Some 10%Z) (Some 2%Z) qwen3_5
    [w_msg "user"; w_msg "assistant"]
    [w_msg "user"; w_msg "assistant"; w_msg "tool"; w_msg "tool"; w_msg "user"]
    [7; 8; 2]%Z None) as (inc & E & _); [vm_compute; reflexivity|].
  exists inc. exact E.
Defined.
