(* ===== verification/Segments.v ===== *)
(** * Segments of a session ([dressage/proxy/server.py])

    How a session is cut into segments ([_split_session_into_*]) and how a segment
    becomes the record the trajectory store publishes ([_build_step_snapshot_record],
    [_build_tito_lineage_segment_record]), with the per-step arrays they concatenate
    ([_build_concat_step_payload]).  A [TQFieldLayout] inside a record is written as its
    dictionary: the store accepts the object and the dictionary alike. *)

From S2P Require Import Prelude.
From S2P Require Import PyFloat.
From S2P Require Import PyVal.
From S2P Require Import Transport.
From S2P Require Import SessionManager.
From S2P Require Import Tito.

Local Open Scope string_scope.
Local Open Scope list_scope.
Local Open Scope py_scope.

Inductive TokenBuildMode : Type := tito | snapshot.

#[export] Instance TokenBuildMode_eq_dec : EqDecision TokenBuildMode.
Proof. solve_decision. Defined.

Definition mode_name (m : TokenBuildMode) : string :=
  match m with tito => "tito" | snapshot => "snapshot" end.

Definition _INPUT_TOKEN_VERSION : string := "-1".

(** A segment dictionary; the optional keys are those of the two views. *)
Record Segment : Type := {
  sg_steps : list StepRecord;
  sg_reason : string;
  sg_reasons : list string;
  sg_turn_ids : list string;
  sg_lineage_id : option string;
  sg_lineage_index : option Z;
  sg_branch_from : option string }.

(** ** Splitting *)

Definition _ordered_turn_ids (l : list StepRecord) : list string :=
  add_unseen [] (map sr_turn_id l).

(** [list(reasons or ["initial"])] *)
Definition or_initial (reasons : list string) : list string :=
  match reasons with [] => ["initial"] | _ => reasons end.

Section Split.
Variable boundary : StepRecord -> bool.
Variable reasons_before : StepRecord -> list string.
Variable lineage : option Lineage.

Definition flush_segment (current : list StepRecord) (reasons : list string) : list Segment :=
  match current with
  | [] => []
  | _ => [{| sg_steps := current; sg_reason := hd "initial" reasons; sg_reasons := reasons;
             sg_turn_ids := _ordered_turn_ids current;
             sg_lineage_id := l_id <$> lineage; sg_lineage_index := l_index <$> lineage;
             sg_branch_from := l ← lineage; branch_from_step_id l |}]
  end.

Fixpoint segment_loop (current : list StepRecord) (reasons : list string) (l : list StepRecord)
    : list Segment :=
  match l with
  | [] => flush_segment current reasons
  | st :: rest =>
      if boundary st && negb (Nat.eqb (length current) 0)
      then flush_segment current reasons ++ segment_loop [st] (or_initial (reasons_before st)) rest
      else segment_loop (current ++ [st]) reasons rest
  end.
End Split.

Definition _split_session_into_segments (s : Session) : list Segment :=
  segment_loop sr_segment_boundary_before sr_segment_reasons_before None [] ["initial"] (steps s).

Definition lineage_steps (s : Session) (lid : string) : list StepRecord :=
  List.filter (fun st => String.eqb (sr_lineage_id st) lid) (steps s).

(** [sorted(session.lineages.values(), key=lambda item: item.index)] *)
Definition sorted_lineages (s : Session) : list Lineage :=
  sort_by (fun a b => (l_index a <=? l_index b)%Z) (map snd (lineages s)).

Definition lineage_segments (s : Session) (l : Lineage) : list Segment :=
  segment_loop sr_lineage_segment_boundary_before sr_lineage_segment_reasons_before (Some l) []
    ["initial"] (lineage_steps s (l_id l)).

Definition _split_session_into_lineage_segments (s : Session) : list Segment :=
  concat (map (lineage_segments s) (sorted_lineages s)).

(** [a or b] on an optional string *)
Definition or_str (a : option string) (b : string) : string :=
  match a with Some x => if String.eqb x "" then b else x | None => b end.

Definition timeline_segment (st : StepRecord) : Segment :=
  {| sg_steps := [st]; sg_reason := or_str (sr_segment_reason_before st) "initial";
     sg_reasons := or_initial (sr_segment_reasons_before st); sg_turn_ids := [sr_turn_id st];
     sg_lineage_id := Some (sr_lineage_id st); sg_lineage_index := Some (sr_lineage_index st);
     sg_branch_from := None |}.

Definition _split_session_into_timeline_segments (s : Session) : list Segment :=
  map timeline_segment (steps s).

(** ** Values *)

Definition pstrs (l : list string) : pyval := PList (map PStr l).
Definition pints (l : list Z) : pyval := PList (map PInt l).
Definition pfloats (l : list float) : pyval := PList (map PFloat l).
Definition pnat (n : nat) : pyval := PInt (Z.of_nat n).
Definition opt_int (o : option Z) : pyval := match o with Some z => PInt z | None => PNone end.
Definition opt_float (o : option float) : pyval := match o with Some f => PFloat f | None => PNone end.
Definition opt_list (o : option (list pyval)) : pyval := match o with Some l => PList l | None => PNone end.

Definition route_name (r : RouteType) : string :=
  match r with append => "append" | branch => "branch" | create => "create" end.

Definition logprobs_val (f : LogprobField) : pyval :=
  match f with LLocal l => pfloats l | LLayout l => TQFieldLayout_to_dict l end.

Definition field_of (l : logprobs) : FieldValue float :=
  match l with inl v => FLocal v | inr r => FRemote r end.

Definition field_of_val (l : logprobs) : FieldValue pyval :=
  match l with inl v => FLocal (map PFloat v) | inr r => FRemote r end.

Definition chunks_field (c : routed_chunks) : FieldValue (list (string * pyval)) :=
  match c with inl v => FLocal v | inr r => FRemote r end.

(** ** Records *)

Section Records.
Context `{PyText}.
Variables (mode : TokenBuildMode) (record_token_versions mask_nonlast_version_tokens : bool).

Definition _step_routed_experts_row_count (st : StepRecord) : Z :=
  match mode with
  | snapshot => Z.max 0 (Z.of_nat (length (sr_all_token_ids st)) - 1)
  | tito =>
      if bool_decide (sr_route_type st = create) || bool_decide (sr_route_type st = branch)
         || sr_lineage_segment_boundary_before st
      then Z.max 0 (Z.of_nat (length (sr_concat_token_ids st)) - 1)
      else Z.of_nat (length (sr_concat_token_ids st))
  end.

Definition _build_routed_experts_field (l : list StepRecord) (count : nat) : result ExpertsField :=
  build_concatenated_routed_experts
    (map (fun st => chunks_field (sr_response_routed_experts_chunks st)) l)
    (map _step_routed_experts_row_count l) count.

(** [record["routed_experts_chunks"] = field] when the field is not [None] *)
Definition experts_entry (f : ExpertsField) : list (string * pyval) :=
  match f with
  | ENone => []
  | EChunks l => [("routed_experts_chunks", PList (map PDict l))]
  | ELayout l => [("routed_experts_chunks", TQFieldLayout_to_dict l)]
  end.

(** The keys both builders write, in their order. *)
Definition segment_record (uid tid turn iid : string) (ix count : nat) (messages tools : pyval)
    (tokens : list Z) (lps : LogprobField) (mask : list Z) (label : pyval) (finish : string)
    (extra : list (string * pyval)) (versions : option (list string)) (experts : ExpertsField)
    : list (string * pyval) :=
  [("uid", PStr uid); ("trajectory_id", PStr tid); ("turn_id", PStr turn);
   ("instance_id", PStr iid); ("segment_index", pnat ix); ("segment_count", pnat count);
   ("messages", messages); ("tools", tools); ("tokens", pints tokens);
   ("full_logprobs", logprobs_val lps); ("full_loss_mask", pints mask);
   ("aligned_response_length", PInt (zsum mask)); ("label", label);
   ("finish_reason", PStr finish); ("extra_info", PDict extra)]
  ++ match versions with Some v => [("full_versions", pstrs v)] | None => [] end
  ++ experts_entry experts.

(** [response_version or response_versions[-1] or request_version or "unknown"] *)
Definition step_version (st : StepRecord) : string :=
  or_str (sr_response_version st)
    (or_str (last (sr_response_versions st)) (or_str (sr_request_version st) "unknown")).

(** [start_index] of the loop: the last position whose step has a boundary. *)
Fixpoint last_boundary (l : list StepRecord) (ix start : nat) : nat :=
  match l with
  | [] => start
  | st :: rest => last_boundary rest (S ix) (if sr_lineage_segment_boundary_before st then ix else start)
  end.

(** [next(index for index, item in enumerate(...) if item.step_id == step_id)] *)
Fixpoint index_of_step (l : list StepRecord) (step_id : string) : option nat :=
  match l with
  | [] => None
  | st :: rest => if String.eqb (sr_step_id st) step_id then Some O
                  else S <$> index_of_step rest step_id
  end.

(** The steps whose routed experts cover the tokens of [st]. *)
Definition routed_experts_steps (s : Session) (st : StepRecord) (for_record : TokenBuildMode)
    : result (list StepRecord) :=
  match for_record with
  | snapshot => Ok [st]
  | tito =>
      let l := lineage_steps s (sr_lineage_id st) in
      match index_of_step l (sr_step_id st) with
      | None => Raise (RuntimeError "StopIteration")
      | Some target =>
          let upto := take (S target) l in
          Ok (drop (last_boundary upto 0 0) upto)
      end
  end.

(** [timestamp] is the text of the clock; [uid] the new segment's uuid. *)
Definition _build_step_snapshot_record (s : Session) (tid : string) (seg : Segment)
    (ix count : nat) (iid : string) (label : pyval) (for_record : TokenBuildMode)
    (uid timestamp : string) : result (list (string * pyval)) :=
  match last (sg_steps seg) with
  | None => Raise (IndexError "list index out of range")
  | Some st =>
      let tokens := sr_all_token_ids st in
      let n := length tokens in
      let prompt_len := Nat.min (length (sr_prompt_token_ids st)) n in
      let response_len := (n - prompt_len)%nat in
      let! li := build_snapshot_logprobs (field_of_val (sr_response_logprobs st)) prompt_len
                   response_len n (sr_all_logprobs_invalid st) in
      let '(lps, invalid) := li in
      let mask := replicate prompt_len 0%Z ++ replicate response_len 1%Z in
      let versions := if record_token_versions
                      then Some (replicate prompt_len _INPUT_TOKEN_VERSION
                                 ++ replicate response_len (step_version st))
                      else None in
      let extra :=
        [("alignment_method", PStr "snapshot_step"); ("token_build_mode", PStr (mode_name for_record));
         ("segment_view", PStr "timeline"); ("context_token_count", pnat prompt_len);
         ("output_token_count", pnat response_len); ("num_steps", PInt 1);
         ("num_turns", pnat (length (sg_turn_ids seg))); ("turn_ids", pstrs (sg_turn_ids seg));
         ("step_id", PStr (sr_step_id st)); ("lineage_id", PStr (sr_lineage_id st));
         ("lineage_index", PInt (sr_lineage_index st));
         ("route_type", PStr (route_name (sr_route_type st)));
         ("route_base_step_id", opt_text (sr_route_base_step_id st));
         ("timestamp", PStr timestamp); ("history_rewritten", PBool (history_rewritten s));
         ("segment_reason", PStr (sg_reason seg)); ("segment_reasons", pstrs (sg_reasons seg));
         ("trajectory_num_segments", pnat count);
         ("request_e2e_latency_seconds", opt_float (sr_request_e2e_latency_seconds st));
         ("request_queue_seconds", opt_float (sr_request_queue_seconds st));
         ("rebalancing_moved", PBool (sr_rebalancing_moved st))]
        ++ (if invalid then [("snapshot_logprobs_invalid", PBool true)] else [])
        ++ (if mask_nonlast_version_tokens then [("mask_nonlast_version_tokens", PBool true)] else [])
        ++ match sr_tool_call_hook_metadata st with
           | [] => []
           | h => [("tool_call_hooks", PDict h)]
           end in
      let! experts_steps := routed_experts_steps s st for_record in
      let! experts := _build_routed_experts_field experts_steps n in
      Ok (segment_record uid tid (sr_turn_id st) iid ix count (PList (sr_messages_snapshot st))
            (opt_list (sr_tools st)) tokens lps mask label (sr_finish_reason st) extra versions experts)
  end.

(** [hook_metadata.setdefault(key, []).append(value)] over all steps *)
Definition collect_hooks (l : list StepRecord) : list (string * list pyval) :=
  fold_left (fun d kv => dset d (fst kv) (dget_def [] d (fst kv) ++ [snd kv]))
            (concat (map sr_tool_call_hook_metadata l)) [].

Definition request_metrics (st : StepRecord) : pyval :=
  PDict [("step_id", PStr (sr_step_id st));
         ("request_e2e_latency_seconds", opt_float (sr_request_e2e_latency_seconds st));
         ("request_queue_seconds", opt_float (sr_request_queue_seconds st));
         ("rebalancing_moved", PBool (sr_rebalancing_moved st))].

Definition _build_tito_lineage_segment_record (s : Session) (tid : string) (seg : Segment)
    (ix count : nat) (iid : string) (label : pyval) (uid timestamp : string)
    : result (list (string * pyval)) :=
  let l := sg_steps seg in
  match last l, last (sg_turn_ids seg) with
  | Some base, Some turn =>
      let tokens := concat (map sr_concat_token_ids l) in
      let mask := concat (map sr_concat_response_mask l) in
      let versions := concat (map sr_concat_versions l) in
      let context := zsum (map sr_concat_context_token_count l) in
      let extra :=
        [("alignment_method", PStr "tito"); ("token_build_mode", PStr "tito");
         ("segment_view", PStr "lineage"); ("context_token_count", PInt context);
         ("context_delta_token_count", PInt context);
         ("output_token_count", PInt (zsum (map sr_concat_output_token_count l)));
         ("num_steps", pnat (length l)); ("num_turns", pnat (length (sg_turn_ids seg)));
         ("turn_ids", pstrs (sg_turn_ids seg)); ("lineage_id", opt_text (sg_lineage_id seg));
         ("lineage_index", opt_int (sg_lineage_index seg));
         ("branch_from_step_id", opt_text (sg_branch_from seg));
         ("step_ids", pstrs (map sr_step_id l)); ("timestamp", PStr timestamp);
         ("history_rewritten", PBool (history_rewritten s));
         ("segment_reason", PStr (sg_reason seg)); ("segment_reasons", pstrs (sg_reasons seg));
         ("trajectory_num_segments", pnat count);
         ("request_metrics", PList (map request_metrics l))]
        ++ (if existsb sr_concat_logprobs_invalid l then [("tito_logprobs_invalid", PBool true)] else [])
        ++ (if existsb sr_concat_incremental_tokenization_failed l
            then [("tito_incremental_tokenization_failed", PBool true)] else [])
        ++ (if mask_nonlast_version_tokens then [("mask_nonlast_version_tokens", PBool true)] else [])
        ++ match collect_hooks l with
           | [] => []
           | h => [("tool_call_hooks", PDict (map (fun kv => (fst kv, PList (snd kv))) h))]
           end in
      let! lps := build_concatenated_logprobs (map (fun st => field_of (sr_concat_response_logprobs st)) l)
                    (map (fun st => Z.of_nat (length (sr_concat_token_ids st))) l) (length tokens) in
      check! negb (Nat.eqb (length tokens) (length mask))
        else RuntimeError "tito segment arrays are not aligned: " ;;
      check! record_token_versions && negb (Nat.eqb (length versions) (length tokens))
        else RuntimeError "tito segment arrays are not aligned: " ;;
      let! experts := _build_routed_experts_field l (length tokens) in
      Ok (segment_record uid tid turn iid ix count (PList (sr_messages_snapshot base))
            (opt_list (sr_tools base)) tokens lps mask label (sr_finish_reason base) extra
            (if record_token_versions then Some versions else None) experts)
  | _, _ => Raise (IndexError "list index out of range")
  end.
End Records.

(** ** Splitting is a partition *)

Section SplitFacts.
Variable boundary : StepRecord -> bool.
Variable reasons_before : StepRecord -> list string.
Variable lineage : option Lineage.

(** A segment that is not empty and has no boundary after its first step. *)
Definition whole (g : Segment) : Prop :=
  exists st rest, sg_steps g = st :: rest /\ Forall (fun x => boundary x = false) rest.

(** A segment that starts at a boundary. *)
Definition cut (g : Segment) : Prop :=
  exists st rest, sg_steps g = st :: rest /\ boundary st = true.

Lemma segment_loop_spec l : forall current reasons,
  Forall (fun x => boundary x = false) (tail current) ->
  let segs := segment_loop boundary reasons_before lineage current reasons l in
  concat (map sg_steps segs) = current ++ l /\ Forall whole segs /\ Forall cut (tail segs) /\
  (current <> [] -> exists g rest tl, segs = g :: rest /\ sg_steps g = current ++ tl).
Proof.
  induction l as [|st l IH]; intros current reasons T.
  - destruct current as [|c cs]; simpl; [by repeat constructor|].
    rewrite !app_nil_r. split; [done|]. split; [|split; [constructor|]].
    + repeat constructor. exists c, cs. by split.
    + intros _. eexists _, [], []. by rewrite app_nil_r.
  - cbn [segment_loop]. destruct (boundary st && negb (Nat.eqb (length current) 0)) eqn:B.
    + apply andb_prop in B as [B N]. destruct current as [|c cs]; [done|].
      destruct (IH [st] (or_initial (reasons_before st)) (List.Forall_nil _))
        as (C & W & K & F).
      cbn zeta. cbn [flush_segment app map concat sg_steps tail]. rewrite C. split; [done|].
      split; [|split].
      * constructor; [|done]. exists c, cs. by split.
      * destruct F as (g & rest & tl & E & Eg); [done|]. rewrite E in *. constructor; [|done].
        by exists st, tl.
      * intros _. eexists _, _, []. split; [done|]. by rewrite app_nil_r.
    + destruct (IH (current ++ [st]) reasons) as (C & W & K & F).
      { destruct current as [|c cs]; [constructor|]. simpl in *. rewrite andb_true_r in B.
        apply Forall_app. by split; [|constructor]. }
      cbn zeta. rewrite C, <- app_assoc. split; [done|]. split; [done|]. split; [done|].
      intros _. destruct F as (g & rest & tl & E & Eg); [by destruct current|].
      exists g, rest, ([st] ++ tl). split; [done|]. by rewrite app_assoc.
Qed.
End SplitFacts.

(** Lineages are keyed by their id and hold every step. *)
Record lineages_ok (s : Session) : Prop := {
  lo_keys : NoDup (dkeys (lineages s));
  lo_id : forall k l, dget (lineages s) k = Some l -> l_id l = k;
  lo_steps : forall st, st ∈ steps s -> is_Some (dget (lineages s) (sr_lineage_id st)) }.

Lemma lineage_ids s : lineages_ok s -> map l_id (map snd (lineages s)) = dkeys (lineages s).
Proof.
  intros [N I _]. unfold dkeys. rewrite map_map. apply map_ext_in. intros [k l] E. simpl.
  apply (I k), dget_NoDup_elem; [done|]. by apply list_elem_of_In.
Qed.

Lemma sorted_lineage_ids s : map l_id (sorted_lineages s) ≡ₚ map l_id (map snd (lineages s)).
Proof. unfold sorted_lineages. by rewrite sort_by_perm. Qed.

Lemma lineage_segments_spec s l :
  let segs := lineage_segments s l in
  concat (map sg_steps segs) = lineage_steps s (l_id l) /\
  Forall (whole sr_lineage_segment_boundary_before) segs /\
  Forall (cut sr_lineage_segment_boundary_before) (tail segs).
Proof.
  destruct (segment_loop_spec sr_lineage_segment_boundary_before
              sr_lineage_segment_reasons_before (Some l) (lineage_steps s (l_id l)) [] ["initial"])
    as (C & W & K & _); [constructor|]. done.
Qed.

Lemma segment_lineage boundary reasons_before l sts : forall current reasons,
  Forall (fun g => sg_lineage_id g = Some (l_id l))
         (segment_loop boundary reasons_before (Some l) current reasons sts).
Proof.
  induction sts as [|st sts IH]; intros current reasons; simpl.
  - destruct current; by repeat constructor.
  - case_match; [|by apply IH]. apply Forall_app. split; [|by apply IH].
    destruct current; by repeat constructor.
Qed.

(** The segments of one lineage, selected from those of several lineages. *)
Lemma segments_of_lineage s l ls :
  NoDup (map l_id ls) -> l ∈ ls ->
  List.filter (fun g => bool_decide (sg_lineage_id g = Some (l_id l)))
              (concat (map (lineage_segments s) ls)) = lineage_segments s l.
Proof.
  assert (Same : forall l', List.filter (fun g => bool_decide (sg_lineage_id g = Some (l_id l)))
            (lineage_segments s l')
          = if bool_decide (l_id l' = l_id l) then lineage_segments s l' else []).
  { intros l'. case_bool_decide as D; [apply filter_all|apply filter_none];
      (eapply Forall_impl; [apply segment_lineage|]); simpl; intros g E; rewrite E.
    - rewrite D. by apply bool_decide_eq_true.
    - apply bool_decide_eq_false. congruence. }
  induction ls as [|l0 ls IH]; [by intros _ ?%elem_of_nil|]. cbn [map concat].
  rewrite NoDup_cons, List.filter_app, Same. intros [N0 N] [->|I]%elem_of_cons.
  - rewrite bool_decide_true by done. rewrite <- (app_nil_r (lineage_segments s l0)) at 2. f_equal.
    assert (F : Forall (fun l' => l_id l' <> l_id l0) ls).
    { apply Forall_forall. intros l' I' E. apply N0. rewrite <- E. by apply list_elem_of_fmap_2. }
    clear -Same F. induction F as [|l' ls D F IH]; [done|]. cbn [map concat].
    by rewrite List.filter_app, Same, bool_decide_false, IH.
  - rewrite bool_decide_false; [by rewrite IH|]. intros E. apply N0. rewrite E.
    by apply list_elem_of_fmap_2.
Qed.

Lemma joined_segments s ls :
  concat (map sg_steps (concat (map (lineage_segments s) ls)))
  = concat (map (lineage_steps s) (map l_id ls)).
Proof.
  induction ls as [|l ls IH]; [done|]. cbn [map concat].
  by rewrite map_app, concat_app, IH, (proj1 (lineage_segments_spec s l)).
Qed.

(** The parts of a split. *)
Lemma lineage_split_parts s :
  lineages_ok s ->
  let segs := _split_session_into_lineage_segments s in
  concat (map sg_steps segs) ≡ₚ steps s /\
  Forall (whole sr_lineage_segment_boundary_before) segs /\
  forall k l, dget (lineages s) k = Some l ->
    let mine := List.filter (fun g => bool_decide (sg_lineage_id g = Some k)) segs in
    concat (map sg_steps mine) = lineage_steps s k /\
    Forall (cut sr_lineage_segment_boundary_before) (tail mine).
Proof.
  intros L. pose proof L as [Nk Id St]. cbn zeta. unfold _split_session_into_lineage_segments.
  pose proof (sorted_lineage_ids s) as Pm. rewrite (lineage_ids s L) in Pm.
  split; [|split].
  - rewrite joined_segments. apply (filter_parts sr_lineage_id); [by rewrite Pm|].
    apply Forall_forall. intros st I. rewrite Pm. destruct (St st I) as [l El].
    by eapply dget_Some_key.
  - apply Forall_concat, Forall_map, Forall_forall. intros l _.
    apply (proj1 (proj2 (lineage_segments_spec s l))).
  - intros k l E. rewrite <- (Id _ _ E).
    rewrite segments_of_lineage.
    + split; apply lineage_segments_spec.
    + by rewrite Pm.
    + unfold sorted_lineages. rewrite elem_of_sort_by.
      apply list_elem_of_fmap. exists (k, l). split; [done|]. by apply dget_elem.
Qed.

(** Splitting a session into its lineage segments loses, repeats and reorders
    nothing: the segments together hold every recorded step exactly once, those of one
    lineage joined in order are that lineage's steps in recording order, no segment is
    empty, a boundary (a tool change or a fall-back to full tokenization) occurs only at
    the head of a segment, and every later segment of a lineage starts at one. *)
Theorem lineage_split_partition s :
  lineages_ok s ->
  let segs := _split_session_into_lineage_segments s in
  concat (map sg_steps segs) ≡ₚ steps s /\
  Forall (whole sr_lineage_segment_boundary_before) segs /\
  forall k l, dget (lineages s) k = Some l ->
    let mine := List.filter (fun g => bool_decide (sg_lineage_id g = Some k)) segs in
    concat (map sg_steps mine) = lineage_steps s k /\
    Forall (cut sr_lineage_segment_boundary_before) (tail mine).
Proof. exact (lineage_split_parts s). Qed.

(** ** Witnesses *)

#[local] Instance w_sg_text : PyText :=
  {| py_repr := fun _ => ""; py_parse_float := fun _ => None |}.

(** Two steps, each in a lineage of its own. *)
Definition w_sg_session : Session :=
  let s := new_session 0 "s" "i" (w_t 0) (w_t 0) in
  fst (record_in (fst (record_in s w_step_args (w_t 1) (w_t 2))) w_step_args (w_t 3) (w_t 4)).

Lemma w_sg_lineages : lineages_ok w_sg_session.
Proof.
  split.
  - apply (bool_decide_unpack _). vm_compute. exact I.
  - intros k l E. apply dget_elem in E.
    assert (F : Forall (fun kl => l_id (snd kl) = fst kl) (lineages w_sg_session))
      by (vm_compute; repeat constructor).
    by eapply (proj1 (Forall_forall _ _) F (k, l)).
  - intros st E.
    assert (F : Forall (fun x => bool_decide (is_Some (dget (lineages w_sg_session) (sr_lineage_id x))) = true)
                  (steps w_sg_session)) by (vm_compute; repeat constructor).
    by eapply bool_decide_eq_true, (proj1 (Forall_forall _ _) F st).
Qed.

Lemma lineage_split_partition_witness :
  concat (map sg_steps (_split_session_into_lineage_segments w_sg_session)) ≡ₚ steps w_sg_session /\
  length (_split_session_into_lineage_segments w_sg_session) = 2%nat.
Proof.
  split; [|vm_compute; reflexivity]. apply (lineage_split_partition w_sg_session w_sg_lineages).
Defined.
