(* ===== verification/Offload.v ===== *)
(** * Field offload ([dressage/transport/runtime.py], [dressage/transport/store.py])

    [TransferQueueRuntime] moves the large fields of a step into a key-value store and
    leaves references in the step.  The store (the TransferQueue package) is an interface:
    the class [KV] has the operations the wrapper calls, [KVLaws] what it relies on. *)

From S2P Require Import Prelude.
From S2P Require Import PyFloat.
From S2P Require Import PyVal.
From S2P Require Import Transport.
From S2P Require Import SessionManager.
From Stdlib Require Import Ascii.

Local Open Scope string_scope.
Local Open Scope list_scope.
Local Open Scope py_scope.

(** ** The store *)

Record Tag : Type := {
  tag_expires_at : float;
  tag_trajectory_id : string;
  tag_incarnation_id : string }.

(** [async_kv_put], [async_kv_clear] and [async_kv_list]. *)
Class KV (T : Type) : Type := {
  kv_put : T -> string -> string -> list (string * pyval) -> Tag -> T;
  kv_clear : T -> string -> list string -> T;
  kv_list : T -> string -> list (string * Tag) }.

(** A partition's listing has each key once; a put or clear of keys of one partition
    changes these keys only. *)
Class KVLaws (T : Type) `{KV T} : Prop := {
  kv_nodup t p : NoDup (dkeys (kv_list t p));
  kv_put_get t p k f g p' k' :
    dget (kv_list (kv_put t p k f g) p') k'
    = if decide (p = p' /\ k = k') then Some g else dget (kv_list t p') k';
  kv_clear_get t p ks p' k' :
    dget (kv_list (kv_clear t p ks) p') k'
    = if decide (p = p' /\ k' ∈ ks) then None else dget (kv_list t p') k' }.

(** ** The runtime *)

Record TransferQueueRuntime : Type := {
  rt_store_id : string;
  transfer_fields : list string;
  retention_seconds : float }.

Definition step_partition (rt : TransferQueueRuntime) : string :=
  "dressage:" +:+ rt_store_id rt +:+ ":steps".

Definition step_key (rt : TransferQueueRuntime) (trajectory_id incarnation_id : string)
    (step_index : nat) : string :=
  rt_store_id rt +:+ ":" +:+ trajectory_id +:+ ":" +:+ incarnation_id +:+ ":step:"
  +:+ str_of_Z (Z.of_nat step_index).

Definition logprobs_value (l : logprobs) : pyval :=
  match l with inl v => PList (map PFloat v) | inr r => TQFieldRef_to_dict r end.

Definition chunks_value (c : routed_chunks) : pyval :=
  match c with inl v => PList (map PDict v) | inr r => TQFieldRef_to_dict r end.

(** [fields[name]] for the fields that can be transferred *)
Definition args_field (a : StepArgs) (name : string) : result pyval :=
  if String.eqb name "prompt_token_logprobs" then Ok (logprobs_value (ra_prompt_token_logprobs a))
  else if String.eqb name "response_logprobs" then Ok (logprobs_value (ra_response_logprobs a))
  else if String.eqb name "all_logprobs" then Ok (logprobs_value (ra_all_logprobs a))
  else if String.eqb name "concat_response_logprobs"
       then match ra_concat_response_logprobs a with
            | Some l => Ok (logprobs_value l)
            | None => Raise (KeyError name)
            end
  else if String.eqb name "response_routed_experts_chunks"
       then match ra_response_routed_experts_chunks a with
            | Some c => Ok (chunks_value c)
            | None => Raise (KeyError name)
            end
  else Raise (KeyError name).

Definition field_ref (rt : TransferQueueRuntime) (k inc name : string) : TQFieldRef :=
  {| store_id := rt_store_id rt; partition := step_partition rt; key := k; field := name;
     Transport.incarnation_id := inc; ref_schema := TQ_FIELD_REF_SCHEMA |}.

Section Runtime.
Context {T : Type} `{KV T}.

(** [offload_step]; [put] is the answer of the store. *)
Definition offload_step (rt : TransferQueueRuntime) (t : T) (sid inc : string) (step_index : nat)
    (a : StepArgs) (now : float) (put : result unit) : result (T * list (string * TQFieldRef)) :=
  let! selected := mapM_res (fun n => let! v := args_field a n in Ok (n, v)) (transfer_fields rt) in
  let k := step_key rt sid inc step_index in
  let tag := {| tag_expires_at := fadd now (retention_seconds rt); tag_trajectory_id := sid;
                tag_incarnation_id := inc |} in
  let! _ := put in
  Ok (kv_put t (step_partition rt) k selected tag,
      map (fun n => (n, field_ref rt k inc n)) (transfer_fields rt)).

(** [for partition, keys in by_partition.items(): clear(sorted(keys))] *)
Definition clear_partitions (t : T) (by_partition : list (string * list string)) : T :=
  fold_left (fun t pk => kv_clear t (fst pk) (sort_by (fun a b => bool_decide (String.le a b)) (snd pk)))
            by_partition t.

Definition group_by_partition (refs : list TQFieldRef) : list (string * list string) :=
  fold_left (fun d r => dset d (partition r) (set_add (dget_def [] d (partition r)) (key r))) refs [].

Definition clear_refs (t : T) (refs : list TQFieldRef) : T :=
  clear_partitions t (group_by_partition refs).

Definition expired_keys (rt : TransferQueueRuntime) (t : T) (deadline : float) : list string :=
  sort_by (fun a b => bool_decide (String.le a b))
    (map fst (List.filter (fun kt => fleb (tag_expires_at (snd kt)) deadline)
                          (kv_list t (step_partition rt)))).

Definition sweep_expired (rt : TransferQueueRuntime) (t : T) (deadline : float) : T * nat :=
  match expired_keys rt t deadline with
  | [] => (t, O)
  | ks => (kv_clear t (step_partition rt) ks, length ks)
  end.
End Runtime.

(** ** References in steps *)

Definition put_ref {A} (refs : list (string * TQFieldRef)) (name : string) (v : (A + TQFieldRef)%type)
    : (A + TQFieldRef)%type :=
  match dget refs name with Some r => inr r | None => v end.

Definition put_ref_opt {A} (refs : list (string * TQFieldRef)) (name : string)
    (v : option (A + TQFieldRef)%type) : option (A + TQFieldRef)%type :=
  match dget refs name with Some r => Some (inr r) | None => v end.

(** [step_kwargs.update(refs)] *)
Definition with_refs (a : StepArgs) (refs : list (string * TQFieldRef)) : StepArgs :=
  {| ra_turn_id := ra_turn_id a;
     ra_request_messages := ra_request_messages a;
     ra_normalized_request_messages := ra_normalized_request_messages a;
     ra_prompt_token_ids := ra_prompt_token_ids a;
     ra_prompt_token_logprobs := put_ref refs "prompt_token_logprobs" (ra_prompt_token_logprobs a);
     ra_snapshot_token_ids := ra_snapshot_token_ids a;
     ra_response_token_ids := ra_response_token_ids a;
     ra_response_logprobs := put_ref refs "response_logprobs" (ra_response_logprobs a);
     ra_all_token_ids := ra_all_token_ids a;
     ra_all_logprobs := put_ref refs "all_logprobs" (ra_all_logprobs a);
     ra_input_token_texts := ra_input_token_texts a;
     ra_output_token_texts := ra_output_token_texts a;
     ra_messages_snapshot := ra_messages_snapshot a;
     ra_raw_response_text := ra_raw_response_text a;
     ra_step_id := ra_step_id a;
     ra_lineage_id := ra_lineage_id a;
     ra_lineage_index := ra_lineage_index a;
     ra_route_type := ra_route_type a;
     ra_route_base_step_id := ra_route_base_step_id a;
     ra_normalized_messages_snapshot := ra_normalized_messages_snapshot a;
     ra_snapshot_rendered := ra_snapshot_rendered a;
     ra_snapshot_rendered_len := ra_snapshot_rendered_len a;
     ra_snapshot_tools_hash := ra_snapshot_tools_hash a;
     ra_lineage_segment_boundary_before := ra_lineage_segment_boundary_before a;
     ra_lineage_segment_reasons_before := ra_lineage_segment_reasons_before a;
     ra_prompt_versions := ra_prompt_versions a;
     ra_response_versions := ra_response_versions a;
     ra_all_versions := ra_all_versions a;
     ra_all_logprobs_invalid := ra_all_logprobs_invalid a;
     ra_concat_token_ids := ra_concat_token_ids a;
     ra_concat_response_logprobs := put_ref_opt refs "concat_response_logprobs" (ra_concat_response_logprobs a);
     ra_concat_response_mask := ra_concat_response_mask a;
     ra_concat_versions := ra_concat_versions a;
     ra_concat_context_token_count := ra_concat_context_token_count a;
     ra_concat_output_token_count := ra_concat_output_token_count a;
     ra_concat_logprobs_invalid := ra_concat_logprobs_invalid a;
     ra_concat_incremental_tokenization_failed := ra_concat_incremental_tokenization_failed a;
     ra_response_routed_experts_chunks := put_ref_opt refs "response_routed_experts_chunks"
         (ra_response_routed_experts_chunks a);
     ra_tools := ra_tools a;
     ra_segment_boundary_before := ra_segment_boundary_before a;
     ra_rewrite_reason := ra_rewrite_reason a;
     ra_segment_reason_before := ra_segment_reason_before a;
     ra_segment_reasons_before := ra_segment_reasons_before a;
     ra_finish_reason := ra_finish_reason a;
     ra_request_version := ra_request_version a;
     ra_response_version := ra_response_version a;
     ra_tool_call_hook_metadata := ra_tool_call_hook_metadata a;
     ra_request_e2e_latency_seconds := ra_request_e2e_latency_seconds a;
     ra_request_queue_seconds := ra_request_queue_seconds a;
     ra_rebalancing_moved := ra_rebalancing_moved a |}.


Definition ref_of {A} (v : (A + TQFieldRef)%type) : option TQFieldRef :=
  match v with inl _ => None | inr r => Some r end.

(** [getattr(step, field)] when it is a reference *)
Definition step_ref (st : StepRecord) (name : string) : option TQFieldRef :=
  if String.eqb name "prompt_token_logprobs" then ref_of (sr_prompt_token_logprobs st)
  else if String.eqb name "response_logprobs" then ref_of (sr_response_logprobs st)
  else if String.eqb name "all_logprobs" then ref_of (sr_all_logprobs st)
  else if String.eqb name "concat_response_logprobs" then ref_of (sr_concat_response_logprobs st)
  else if String.eqb name "response_routed_experts_chunks"
       then ref_of (sr_response_routed_experts_chunks st)
  else None.

(** The loop over the fields of the steps, keeping one reference per key. *)
Definition add_identity (acc : list TQFieldRef * list (string * string)) (r : TQFieldRef)
    : list TQFieldRef * list (string * string) :=
  let '(refs, seen) := acc in
  if bool_decide ((partition r, key r) ∈ seen) then acc
  else (refs ++ [r], seen ++ [(partition r, key r)]).

Definition session_refs (rt : TransferQueueRuntime) (s : Session) : list TQFieldRef :=
  fst (fold_left add_identity
         (concat (map (fun st => omap (step_ref st) (transfer_fields rt)) (steps s))) ([], [])).

(** The incarnation is set by the first step that is recorded. *)
Definition trajectory_ref (rt : TransferQueueRuntime) (s : Session) : TQTrajectoryRef :=
  {| tr_store_id := rt_store_id rt; tr_trajectory_id := SessionManager.session_id s;
     tr_incarnation_id := default "" (SessionManager.incarnation_id s);
     tr_refs := session_refs rt s; tr_schema := TQ_TRAJECTORY_REF_SCHEMA |}.

(** ** A store *)

(** The reference store: a map of maps. *)
Abbreviation MapKV := (gmap string (gmap string Tag)).

#[export] Instance MapKV_ops : KV MapKV := {
  kv_put t p k _ g := <[p := <[k := g]> (default ∅ (t !! p))]> t;
  kv_clear t p ks := <[p := foldr delete (default ∅ (t !! p)) ks]> t;
  kv_list t p := map_to_list (default ∅ (t !! p)) }.

Lemma dget_map_to_list {A} (m : gmap string A) k : dget (map_to_list m) k = m !! k.
Proof.
  assert (N : NoDup (dkeys (map_to_list m))) by apply NoDup_fst_map_to_list.
  destruct (m !! k) as [a|] eqn:E.
  - apply dget_NoDup_elem; [done|]. by apply elem_of_map_to_list.
  - apply dget_None_key. intros I. apply list_elem_of_fmap in I as ([k' a] & -> & I).
    apply elem_of_map_to_list in I. simpl in E. congruence.
Qed.

Lemma foldr_delete_lookup {A} ks : forall (m : gmap string A) k,
  foldr delete m ks !! k = if decide (k ∈ ks) then None else m !! k.
Proof.
  induction ks as [|k' ks IH]; intros m k; [done|]. simpl.
  destruct (decide (k = k')) as [->|D].
  - by rewrite lookup_delete_eq, decide_True by set_solver.
  - rewrite lookup_delete_ne, IH by done. destruct (decide (k ∈ ks)), (decide (k ∈ k' :: ks)); set_solver.
Qed.

Lemma default_insert {A} (t : gmap string A) (d : A) p x p' :
  default d (<[p := x]> t !! p') = if decide (p = p') then x else default d (t !! p').
Proof.
  destruct (decide (p = p')) as [<-|D]; [by rewrite lookup_insert_eq|by rewrite lookup_insert_ne].
Qed.

#[export] Instance MapKV_laws : KVLaws MapKV.
Proof.
  split.
  - intros t p. apply NoDup_fst_map_to_list.
  - intros t p k f g p' k'. unfold kv_put, kv_list, MapKV_ops.
    rewrite !dget_map_to_list, default_insert. destruct (decide (p = p')) as [<-|D].
    + destruct (decide (k = k')) as [<-|Dk].
      * by rewrite lookup_insert_eq, decide_True.
      * by rewrite lookup_insert_ne, decide_False by naive_solver.
    + by rewrite decide_False by naive_solver.
  - intros t p ks p' k'. unfold kv_clear, kv_list, MapKV_ops.
    rewrite !dget_map_to_list, default_insert. destruct (decide (p = p')) as [<-|D].
    + rewrite foldr_delete_lookup.
      destruct (decide (k' ∈ ks)); [by rewrite decide_True|by rewrite decide_False by naive_solver].
    + by rewrite decide_False by naive_solver.
Qed.

(** ** Keys *)

Lemma str_of_nat_parse n : parse_digits (str_of_Z (Z.of_nat n)) 0 false = Some (Z.of_nat n).
Proof.
  destruct (str_of_Z_spec (Z.of_nat n)) as (c & D & E & _ & _ & P).
  rewrite (proj2 (Z.ltb_ge _ 0)) in E by lia. rewrite E, P. by rewrite Z.abs_eq by lia.
Qed.

Lemma sapp_cancel (p a b : string) : p +:+ a = p +:+ b -> a = b.
Proof. induction p as [|c p IH]; intros E; [done|]. injection E as E. by apply IH. Qed.

Lemma step_key_inj rt sid inc i j : step_key rt sid inc i = step_key rt sid inc j -> i = j.
Proof.
  unfold step_key. intros E. do 6 apply sapp_cancel in E.
  apply (f_equal (fun s => parse_digits s 0 false)) in E. rewrite !str_of_nat_parse in E. 
  injection E as E. lia.
Qed.

(** ** References of a session *)

Section Refs.
Variables (rt : TransferQueueRuntime) (sid inc : string).

(** The step at position [i] of a session whose steps were all offloaded. *)
Definition offloaded (i : nat) (st : StepRecord) : Prop :=
  forall f, f ∈ transfer_fields rt -> step_ref st f = Some (field_ref rt (step_key rt sid inc i) inc f).

Lemma add_same_identity r refs seen : (partition r, key r) ∈ seen -> add_identity (refs, seen) r = (refs, seen).
Proof using. intros I. unfold add_identity. by rewrite bool_decide_true. Qed.

Lemma add_fields i fs : forall refs seen, (step_partition rt, step_key rt sid inc i) ∈ seen ->
  fold_left add_identity (map (fun f => field_ref rt (step_key rt sid inc i) inc f) fs) (refs, seen) = (refs, seen).
Proof using.
  induction fs as [|f fs IH]; intros refs seen I; [done|]. cbn [map fold_left].
  rewrite add_same_identity by done. by apply IH.
Qed.

Lemma add_step i f fs refs seen : (step_partition rt, step_key rt sid inc i) ∉ seen ->
  fold_left add_identity (map (fun f => field_ref rt (step_key rt sid inc i) inc f) (f :: fs)) (refs, seen)
  = (refs ++ [field_ref rt (step_key rt sid inc i) inc f],
     seen ++ [(step_partition rt, step_key rt sid inc i)]).
Proof using.
  intros N. cbn [map fold_left]. unfold add_identity at 2. cbn [partition key field_ref].
  rewrite bool_decide_false by done. apply add_fields. set_solver.
Qed.

Lemma step_refs_offloaded i st : offloaded i st ->
  omap (step_ref st) (transfer_fields rt)
  = map (fun f => field_ref rt (step_key rt sid inc i) inc f) (transfer_fields rt).
Proof using.
  unfold offloaded. induction (transfer_fields rt) as [|f fs IH]; intros O; [done|]. simpl.
  rewrite (O f) by set_solver. f_equal. apply IH. intros g I. apply O. set_solver.
Qed.

Definition step_id_of (i : nat) : string * string := (step_partition rt, step_key rt sid inc i).

Lemma session_refs_loop f fs l : transfer_fields rt = f :: fs -> forall n refs,
  (forall i st, l !! i = Some st -> offloaded (n + i) st) ->
  fst (fold_left add_identity (concat (map (fun st => omap (step_ref st) (transfer_fields rt)) l))
         (refs, map step_id_of (seq 0 n)))
  = refs ++ map (fun i => field_ref rt (step_key rt sid inc i) inc f) (seq n (length l)).
Proof using.
  intros Ef. induction l as [|st l IH]; intros n refs O; [simpl; by rewrite app_nil_r|].
  cbn [map concat length seq]. rewrite fold_left_app, (step_refs_offloaded n st).
  2: { specialize (O 0%nat st eq_refl). by rewrite Nat.add_0_r in O. }
  rewrite Ef, add_step, <- Ef.
  2: { intros I. apply list_elem_of_fmap in I as (j & [= E] & I). apply step_key_inj in E. subst j.
       apply elem_of_seq in I. lia. }
  replace (map step_id_of (seq 0 n) ++ [(step_partition rt, step_key rt sid inc n)])
    with (map step_id_of (seq 0 (S n))) by (rewrite seq_S, map_app; done).
  rewrite IH; [by rewrite <- app_assoc|]. intros i st' L. rewrite Nat.add_succ_comm. by apply O.
Qed.
End Refs.

(** A trajectory reference of an offloaded session has one reference per step. *)
Lemma session_refs_offloaded rt s inc f fs :
  transfer_fields rt = f :: fs ->
  (forall i st, steps s !! i = Some st -> offloaded rt (SessionManager.session_id s) inc i st) ->
  session_refs rt s
  = map (fun i => field_ref rt (step_key rt (SessionManager.session_id s) inc i) inc f) (seq 0 (length (steps s))).
Proof. intros E O. exact (session_refs_loop rt (SessionManager.session_id s) inc f fs (steps s) E 0 [] O). Qed.

Lemma group_keys p k : forall (rs : list TQFieldRef) d,
  k ∈ dget_def [] (fold_left (fun d r => dset d (partition r) (set_add (dget_def [] d (partition r)) (key r))) rs d) p
  <-> k ∈ dget_def [] d p \/ exists r, r ∈ rs /\ partition r = p /\ key r = k.
Proof.
  induction rs as [|r rs IH]; intros d; cbn [fold_left]; [set_solver|]. rewrite IH.
  unfold dget_def at 1. rewrite dget_dset. case_decide as D.
  - subst p. unfold set_add. case_bool_decide; set_solver.
  - set_solver.
Qed.

Lemma group_NoDup rs : forall d : list (string * list string), NoDup (dkeys d) ->
  NoDup (dkeys (fold_left (fun d r => dset d (partition r) (set_add (dget_def [] d (partition r)) (key r))) rs d)).
Proof. induction rs as [|r rs IH]; intros d N; [done|]. apply IH. by apply dset_NoDup. Qed.

Section Clear.
Context {T : Type} `{KVLaws T}.

Lemma clear_partitions_get p k by_p : forall t, NoDup (dkeys by_p) ->
  dget (kv_list (clear_partitions t by_p) p) k
  = if decide (k ∈ dget_def [] by_p p) then None else dget (kv_list t p) k.
Proof using H0.
  induction by_p as [|[p' ks] l IH]; intros t N; [done|]. unfold clear_partitions in *.
  apply NoDup_cons in N as [Np N]. cbn [fold_left fst snd]. rewrite IH, kv_clear_get by done.
  unfold dget_def. cbn [dget].
  destruct (decide (p = p')) as [->|D].
  - rewrite (proj2 (dget_None_key l p')) by done. rewrite decide_False by set_solver.
    destruct (decide (k ∈ ks)) as [I|I].
    + rewrite decide_True by (split; [done|by apply elem_of_sort_by]). done.
    + rewrite decide_False by (intros [_ I']; by apply elem_of_sort_by in I'). done.
  - rewrite (decide_False (P := p' = p /\ _)) by naive_solver. done.
Qed.

(** [clear_refs] removes the keys referred to and nothing else. *)
Lemma clear_refs_get t rs p k :
  dget (kv_list (clear_refs t rs) p) k
  = if decide ((p, k) ∈ map (fun r => (partition r, key r)) rs) then None else dget (kv_list t p) k.
Proof using H0.
  unfold clear_refs, group_by_partition. rewrite clear_partitions_get by (apply group_NoDup; constructor).
  assert (E : k ∈ dget_def [] (fold_left (fun d r => dset d (partition r) (set_add (dget_def [] d (partition r)) (key r))) rs []) p
    <-> (p, k) ∈ map (fun r => (partition r, key r)) rs).
  { rewrite group_keys, list_elem_of_fmap. split.
    - intros [I|(r & I & <- & <-)]; [by apply elem_of_nil in I|]. by exists r.
    - intros (r & [= -> ->] & I). right. by exists r. }
  by apply decide_ext.
Qed.
End Clear.

(** ** Recording into a store *)

Section Recording.
Context {T : Type} `{KVLaws T} `{PyText}.
Variable rt : TransferQueueRuntime.

Lemma dget_refs (ref : string -> TQFieldRef) f fs : f ∈ fs -> dget (map (fun n => (n, ref n)) fs) f = Some (ref f).
Proof using.
  induction fs as [|g fs IH]; intros I; [by apply elem_of_nil in I|]. cbn [map dget].
  case_decide as D; [by rewrite D|]. apply elem_of_cons in I as [->|I]; [done|]. by apply IH.
Qed.

(** The record of a step built from the replaced arguments has the references. *)
Lemma with_refs_step_ref a refs f r sid lid ix t v : args_field a f = Ok v -> dget refs f = Some r ->
  step_ref (make_step (with_refs a refs) sid lid ix t) f = Some r.
Proof using.
  unfold args_field, step_ref. intros A D.
  destruct (String.eqb_spec f "prompt_token_logprobs") as [->|];
    [simpl; unfold put_ref; by rewrite D|].
  destruct (String.eqb_spec f "response_logprobs") as [->|]; [simpl; unfold put_ref; by rewrite D|].
  destruct (String.eqb_spec f "all_logprobs") as [->|]; [simpl; unfold put_ref; by rewrite D|].
  destruct (String.eqb_spec f "concat_response_logprobs") as [->|];
    [simpl; unfold put_ref_opt; by rewrite D|].
  destruct (String.eqb_spec f "response_routed_experts_chunks") as [->|];
    [simpl; unfold put_ref_opt; by rewrite D|done].
Qed.

Lemma offload_fields t sid inc i a now put t' refs : offload_step rt t sid inc i a now put = Ok (t', refs) ->
  put = Ok tt /\ (forall f, f ∈ transfer_fields rt -> exists v, args_field a f = Ok v) /\
  refs = map (fun n => (n, field_ref rt (step_key rt sid inc i) inc n)) (transfer_fields rt) /\
  exists sel tag, t' = kv_put t (step_partition rt) (step_key rt sid inc i) sel tag.
Proof using.
  unfold offload_step. intros E. destruct (mapM_res _ _) as [sel|] eqn:M; [|done]. cbn in E.
  destruct put as [[]|]; [|done]. injection E as <- <-. split_and!; [done| |done|by eauto].
  intros f I. apply mapM_res_Forall2 in M. apply list_elem_of_lookup in I as [j I].
  destruct (Forall2_lookup_l _ _ _ _ _ M I) as (y & _ & Ey).
  destruct (args_field a f) as [v|]; [by exists v|done].
Qed.

(** Steps recorded one after another through the store. *)
Inductive recording (s0 : Session) (inc : string) (t0 : T) : T -> Session -> Prop :=
| recording_none : recording s0 inc t0 t0 s0
| recording_step t s a now put t1 refs ts1 ts2 s1 st :
    recording s0 inc t0 t s ->
    offload_step rt t (SessionManager.session_id s) inc (length (steps s)) a now put = Ok (t1, refs) ->
    record_in s (with_refs a refs) ts1 ts2 = (s1, st) ->
    recording s0 inc t0 t1 s1.

Lemma record_in_steps s a ts1 ts2 s' st : record_in s a ts1 ts2 = (s', st) ->
  SessionManager.session_id s' = SessionManager.session_id s /\
  SessionManager.incarnation_id s' = SessionManager.incarnation_id s /\
  steps s' = steps s ++ [st] /\ exists sid lid ix, st = make_step a sid lid ix ts1.
Proof using.
  unfold record_in, next_step_id, create_lineage.
  destruct (ra_step_id a), (ra_lineage_id a); intros [= <- <-]; cbn; split_and!; try done; by do 3 eexists.
Qed.

Lemma recording_ok s0 inc t0 t s : steps s0 = [] -> recording s0 inc t0 t s ->
  SessionManager.session_id s = SessionManager.session_id s0 /\
  SessionManager.incarnation_id s = SessionManager.incarnation_id s0 /\
  (forall i st, steps s !! i = Some st -> offloaded rt (SessionManager.session_id s0) inc i st) /\
  (forall p k, (forall i, (i < length (steps s))%nat -> (p, k) <> step_id_of rt (SessionManager.session_id s0) inc i) ->
     dget (kv_list t p) k = dget (kv_list t0 p) k) /\
  (forall i, (i < length (steps s))%nat ->
     is_Some (dget (kv_list t (step_partition rt)) (step_key rt (SessionManager.session_id s0) inc i))).
Proof using H0.
  intros E0. induction 1 as [|t s a now put t1 refs ts1 ts2 s1 st R (Si & Sn & O & F & P) Of Re].
  { rewrite E0. split_and!; try done. simpl. lia. }
  destruct (offload_fields _ _ _ _ _ _ _ _ _ Of) as (_ & A & Er & sel & tag & Et). subst refs.
  apply record_in_steps in Re as (Sid & Inc & St & sid & lid & ix & Est).
  rewrite St, length_app. cbn [length]. rewrite Si in Et, Est.
  split_and!; [congruence|congruence| | |].
  - intros i st' L. apply lookup_snoc_Some in L as [[_ L]|[-> <-]]; [by apply O|].
    intros f I. destruct (A f I) as [v Ev]. rewrite Est.
    by apply (with_refs_step_ref _ _ _ _ _ _ _ _ v); [|apply dget_refs].
  - intros p k N. subst t1. rewrite kv_put_get, decide_False.
    + apply F. intros i Hi. apply N. lia.
    + intros [<- <-]. by apply (N (length (steps s))); [lia|].
  - intros i Hi. subst t1. rewrite kv_put_get. case_decide as D; [done|].
    apply P. assert (i <> length (steps s)) by naive_solver. lia.
Qed.
End Recording.

(** A session whose steps were all recorded through the transfer queue is referred to by
    one reference per step, in step order, each to a key the store holds; clearing those
    references removes exactly the session's entries and leaves every other entry of every
    partition as it was before the session was recorded. *)
Theorem offloaded_trajectory {T} `{KVLaws T} `{PyText} rt s0 inc t0 t s f fs :
  transfer_fields rt = f :: fs -> steps s0 = [] -> recording rt s0 inc t0 t s ->
  let refs := tr_refs (trajectory_ref rt s) in
  let k i := step_key rt (SessionManager.session_id s0) inc i in
  refs = map (fun i => field_ref rt (k i) inc f) (seq 0 (length (steps s))) /\
  (forall i, (i < length (steps s))%nat -> is_Some (dget (kv_list t (step_partition rt)) (k i))) /\
  (forall p x, dget (kv_list (clear_refs t refs) p) x
     = if decide ((p, x) ∈ map (step_id_of rt (SessionManager.session_id s0) inc) (seq 0 (length (steps s))))
       then None else dget (kv_list t0 p) x).
Proof.
  intros Ef E0 R refs k. destruct (recording_ok _ _ _ _ _ _ E0 R) as (Si & _ & O & F & P).
  assert (Er : refs = map (fun i => field_ref rt (k i) inc f) (seq 0 (length (steps s)))).
  { unfold refs, trajectory_ref, k. cbn [tr_refs]. rewrite <- Si.
    apply (session_refs_offloaded rt s inc f fs Ef). by rewrite Si. }
  split_and!; [done|done|]. intros p x. rewrite clear_refs_get, Er, map_map.
  change (map _ (seq 0 (length (steps s)))) with
    (map (step_id_of rt (SessionManager.session_id s0) inc) (seq 0 (length (steps s)))).
  case_decide as D; [done|]. apply F. intros i Hi E. apply D. rewrite E. apply list_elem_of_fmap.
  exists i. split; [done|]. apply elem_of_seq. lia.
Qed.

(** a retention sweep removes from the steps' partition exactly the entries whose expiry
    time is reached, keeps every other entry of every partition, and returns how many it
    removed. *)
Theorem sweep_expired_exact {T} `{KVLaws T} (rt : TransferQueueRuntime) (t : T) (deadline : float) t' n :
  sweep_expired rt t deadline = (t', n) ->
  (forall p k, dget (kv_list t' p) k
     = match dget (kv_list t p) k with
       | Some g => if String.eqb p (step_partition rt) && fleb (tag_expires_at g) deadline then None else Some g
       | None => None
       end) /\
  n = length (List.filter (fun kt => fleb (tag_expires_at (snd kt)) deadline) (kv_list t (step_partition rt))).
Proof.
  intros E.
  assert (K : forall k, k ∈ expired_keys rt t deadline <->
    exists g, dget (kv_list t (step_partition rt)) k = Some g /\ fleb (tag_expires_at g) deadline = true).
  { intros k. unfold expired_keys. rewrite elem_of_sort_by, list_elem_of_fmap. split.
    - intros ([k' g] & -> & I). apply list_elem_of_In, List.filter_In in I as [I F].
      exists g. split; [|done]. apply dget_NoDup_elem; [apply kv_nodup|by apply list_elem_of_In].
    - intros (g & G & F). exists (k, g). split; [done|]. apply list_elem_of_In, List.filter_In.
      split; [|done]. apply list_elem_of_In. by apply dget_elem. }
  assert (L : length (expired_keys rt t deadline)
    = length (List.filter (fun kt => fleb (tag_expires_at (snd kt)) deadline) (kv_list t (step_partition rt)))).
  { unfold expired_keys. by rewrite sort_by_length, length_map. }
  assert (C : t' = (if bool_decide (expired_keys rt t deadline = []) then t
                    else kv_clear t (step_partition rt) (expired_keys rt t deadline)) /\
              n = length (expired_keys rt t deadline)).
  { unfold sweep_expired in E. destruct (expired_keys rt t deadline); injection E as <- <-; done. }
  destruct C as [-> ->]. split; [|done]. intros p k. case_bool_decide as D.
  - destruct (dget (kv_list t p) k) as [g|] eqn:G; [|done].
    destruct (String.eqb_spec p (step_partition rt)) as [->|]; [|done]. simpl.
    destruct (fleb (tag_expires_at g) deadline) eqn:F; [|done].
    assert (I : k ∈ expired_keys rt t deadline) by (apply K; by eauto). rewrite D in I.
    by apply elem_of_nil in I.
  - rewrite kv_clear_get. case_decide as Dk.
    + destruct Dk as [<- I]. apply K in I as (g & -> & F). by rewrite String.eqb_refl, F.
    + destruct (dget (kv_list t p) k) as [g|] eqn:G; [|done].
      destruct (String.eqb_spec p (step_partition rt)) as [->|]; [|done]. simpl.
      destruct (fleb (tag_expires_at g) deadline) eqn:F; [|done].
      exfalso. apply Dk. split; [done|]. apply K. by eauto.
Qed.

(** ** Witnesses *)

#[local] Instance w_of_text : PyText :=
  {| py_repr := fun _ => ""; py_parse_float := fun _ => None |}.

Definition w_of_rt : TransferQueueRuntime :=
  {| rt_store_id := "st"; transfer_fields := ["response_logprobs"; "all_logprobs"];
     retention_seconds := w_t 5 |}.

Definition w_of_record (ts : MapKV * Session) (now : Z) : MapKV * Session :=
  let '(t, s) := ts in
  match offload_step w_of_rt t "s" "inc" (length (steps s)) w_step_args (w_t now) (Ok tt) with
  | Ok (t', refs) => (t', fst (record_in s (with_refs w_step_args refs) (w_t now) (w_t now)))
  | Raise _ => ts
  end.

Definition w_of_start : MapKV := kv_put ∅ (step_partition w_of_rt) "other" []
  {| tag_expires_at := w_t 9; tag_trajectory_id := "o"; tag_incarnation_id := "i" |}.

Definition w_of_new : Session := new_session 0 "s" "i" (w_t 1) (w_t 1).
Definition w_of_end : MapKV * Session := w_of_record (w_of_record (w_of_start, w_of_new) 2) 3.

Lemma w_of_record_recording ts now : SessionManager.session_id (snd ts) = "s" ->
  recording w_of_rt w_of_new "inc" w_of_start (fst ts) (snd ts) ->
  recording w_of_rt w_of_new "inc" w_of_start (fst (w_of_record ts now)) (snd (w_of_record ts now)).
Proof.
  destruct ts as [t s]. cbn [fst snd]. intros S R. unfold w_of_record.
  destruct (offload_step _ _ _ _ _ _ _ _) as [[t' refs]|] eqn:O; [|done].
  rewrite <- S in O. exact (recording_step _ _ _ _ _ _ _ _ _ _ _ _ _ _ _ R O (surjective_pairing _)).
Qed.

Lemma w_of_recording : recording w_of_rt w_of_new "inc" w_of_start (fst w_of_end) (snd w_of_end).
Proof.
  unfold w_of_end. apply w_of_record_recording; [vm_compute; reflexivity|].
  apply w_of_record_recording; [reflexivity|constructor].
Qed.

Lemma offloaded_trajectory_witness :
  map key (tr_refs (trajectory_ref w_of_rt (snd w_of_end))) = ["st:s:inc:step:0"; "st:s:inc:step:1"] /\
  dget (kv_list (clear_refs (fst w_of_end) (tr_refs (trajectory_ref w_of_rt (snd w_of_end)))) "dressage:st:steps") "other"
  = Some {| tag_expires_at := w_t 9; tag_trajectory_id := "o"; tag_incarnation_id := "i" |}.
Proof.
  destruct (offloaded_trajectory w_of_rt w_of_new "inc" w_of_start (fst w_of_end) (snd w_of_end)
    "response_logprobs" ["all_logprobs"] eq_refl eq_refl w_of_recording) as (E & _ & C).
  split; [rewrite E; vm_compute; reflexivity|]. rewrite C. vm_compute. reflexivity.
Defined.

Lemma sweep_expired_exact_witness :
  dget (kv_list (fst (sweep_expired w_of_rt (fst w_of_end) (w_t 8))) "dressage:st:steps") "st:s:inc:step:1" = None /\
  is_Some (dget (kv_list (fst (sweep_expired w_of_rt (fst w_of_end) (w_t 8))) "dressage:st:steps") "other").
Proof.
  destruct (sweep_expired_exact w_of_rt (fst w_of_end) (w_t 8) _ _ (surjective_pairing _)) as [E _].
  split; rewrite E; vm_compute; [reflexivity|by eexists].
Defined.
