(* ===== verification/Chat.v ===== *)
(** * Requests and responses of the chat endpoint ([dressage/proxy/server.py])

    The guards on weight versions and epochs, the sampling parameters, the identifiers of
    a request, the assistant message and the two public response formats, and
    [normalize_template_messages] of [last_step/prompt_assistant_mask.py].  A streamed
    frame is represented by its payload before [json.dumps]. *)

From S2P Require Import Prelude.
From S2P Require Import PyFloat.
From S2P Require Import PyVal.
From S2P Require Import Json.
From S2P Require Import SessionManager.
From S2P Require Import Routing.
From S2P Require Import Tito.
From S2P Require Import Segments.
From Stdlib Require Import Ascii.

Local Open Scope string_scope.
Local Open Scope list_scope.
Local Open Scope py_scope.

(** ** Outcomes *)

(** What ends a request without a completion: an [HTTPException], an error response the
    handler returns, or an exception it lets through, which the framework answers with
    status 500. *)
Inductive failure : Type :=
| HTTPException (status_code : Z) (detail : pyval)
| JSONResponse (payload : list (string * pyval)) (status_code : Z)
| Uncaught (e : exn).

Inductive outcome (A : Type) : Type :=
| Done (a : A)
| Fail (f : failure).
Arguments Done {A} a.
Arguments Fail {A} f.

Definition out_bind {A B} (m : outcome A) (k : A -> outcome B) : outcome B :=
  match m with Done a => k a | Fail f => Fail f end.

(** An exception no handler catches. *)
Definition uncaught {A} (r : result A) : outcome A :=
  match r with Ok a => Done a | Raise e => Fail (Uncaught e) end.

Notation "'try!' x ':=' m 'in' k" := (out_bind m (fun x => k))
  (at level 10, x binder, m at level 100, k at level 200) : py_scope.
Notation "'guard!' m ';;' k" := (out_bind m (fun _ => k))
  (at level 10, m at level 99, k at level 200) : py_scope.

Definition http {A} (status : Z) (fields : list (string * pyval)) : outcome A :=
  Fail (HTTPException status (PDict fields)).

(** ** Weight versions *)

Definition _real_token_version (value : option string) : option string :=
  match value with
  | None => None
  | Some version => if is_non_real version then None else Some version
  end.

Definition step_versions (st : StepRecord) : list (option string) :=
  map Some (sr_response_versions st) ++ [sr_response_version st; sr_request_version st].

(** A set of versions, listed in the order they are added. *)
Definition add_versions (seen : list string) (values : list (option string)) : list string :=
  fold_left set_add (omap _real_token_version values) seen.

Definition _session_real_versions (s : Session) : list string :=
  add_versions [] (concat (map step_versions (steps s))).

Definition _ordered_real_versions (values : list (option string)) : list string :=
  add_versions [] values.

Definition _session_response_versions (s : Session) : list (option string) :=
  concat (map (fun st => map Some (sr_response_versions st)) (steps s)).

Definition sorted_strings (l : list string) : list string :=
  sort_by (fun a b => bool_decide (String.le a b)) l.

Definition _raise_if_partial_version_span_exceeded (s : Session)
    (candidate_versions : list (option string)) (partial_rollout : bool)
    (max_partial_rollout_preempts : option Z) : outcome unit :=
  match max_partial_rollout_preempts with
  | None => Done tt
  | Some limit =>
      if negb partial_rollout then Done tt
      else
        let versions := _ordered_real_versions (_session_response_versions s ++ candidate_versions) in
        let span := Z.of_nat (length versions) in
        let switches := Z.max 0 (span - 1) in
        if (switches <=? limit)%Z then Done tt
        else http 502
          [("error", PStr "partial_rollout_staleness_exceeded");
           ("message", PStr "Partial rollout model version span exceeded limit; rejecting the trajectory instead of continuing it.");
           ("versions", pstrs versions); ("version_span", PInt span);
           ("version_switches", PInt switches); ("max_preempts", PInt limit);
           ("max_version_span", PInt (limit + 1)); ("session_id", PStr (session_id s));
           ("instance_id", PStr (instance_id s))]
  end.

Definition _raise_if_cross_version_trajectory (s : Session)
    (candidate_versions : list (option string)) (partial_rollout : bool) : outcome unit :=
  if partial_rollout then Done tt
  else
    match _session_real_versions s with
    | [] => Done tt
    | previous =>
        let new := add_versions [] candidate_versions in
        if Nat.eqb (length new) 0 || forallb (fun v => bool_decide (v ∈ previous)) new then Done tt
        else http 502
          [("error", PStr "trajectory_version_changed");
           ("message", PStr "SGLang weight version changed during a non-partial rollout trajectory; rejecting the trajectory instead of continuing it.");
           ("previous_versions", pstrs (sorted_strings previous));
           ("new_versions", pstrs (sorted_strings new)); ("session_id", PStr (session_id s));
           ("instance_id", PStr (instance_id s))]
    end.

Definition _raise_if_stale_rollout_epoch (s : Session) (current_epoch : Z)
    (partial_rollout : bool) : outcome unit :=
  match s_rollout_epoch s with
  | None => Done tt
  | Some e =>
      if partial_rollout || Nat.eqb (length (steps s)) 0 || (e =? current_epoch)%Z then Done tt
      else http 502
        [("error", PStr "trajectory_version_changed");
         ("message", PStr "Dressage rollout epoch changed during a non-partial rollout trajectory; rejecting the trajectory before sending it to SGLang.");
         ("session_epoch", PInt e); ("current_epoch", PInt current_epoch);
         ("session_id", PStr (session_id s)); ("instance_id", PStr (instance_id s))]
  end.

(** ** Request parsing *)

Section Requests.
Context `{PyText}.

Definition _optional_response_duration (value : pyval) : option float :=
  match value with
  | PBool _ => None
  | _ => match py_float value with
         | Ok parsed => if fisfinite parsed && fleb f0 parsed then Some parsed else None
         | Raise _ => None
         end
  end.

(** [a or b] on a header and a body value. *)
Definition or_body (header : option string) (body : list (string * pyval)) (key : string)
    : option string :=
  match header with
  | Some (String _ _ as h) => Some h
  | _ => match pget body key with PStr v => Some v | _ => None end
  end.

(** Headers are looked up by their name without regard to case. *)
Definition _runtime_ids_from_request (header : string -> option string)
    (body : list (string * pyval)) : option string * option string * option string :=
  (match header "X-Session-Id" with
   | Some (String _ _ as h) => Some h
   | _ => or_body (header "X-SMG-Routing-Key") body "session_id"
   end,
   or_body (header "X-Instance-Id") body "instance_id",
   or_body (header "X-Turn-Id") body "turn_id").

Definition _sandbox_id_from_request (header : string -> option string)
    (body : list (string * pyval)) : option string :=
  or_body (header "X-Dressage-Sandbox-Id") body "sandbox_id".

(** [min(requested, limit)] for the integers the API takes; [min] returns its first
    argument unless the second is smaller. *)
Definition min_tokens (requested : pyval) (limit : Z) : result pyval :=
  match requested with
  | PInt z => Ok (if (limit <? z)%Z then PInt limit else requested)
  | PBool b => Ok (if (limit <? py_int_of_bool b)%Z then PInt limit else requested)
  | _ => Raise (TypeError "'<' not supported between instances of 'int' and ")
  end.

Definition _build_sampling_params (body : list (string * pyval)) (max_output_tokens : option Z)
    (rollout_temperature : float) : result (list (string * pyval)) :=
  let temperature := match pget body "temperature" with
                     | PNone => PFloat rollout_temperature
                     | t => t
                     end in
  let requested := pget body "max_tokens" in
  let params :=
    [("temperature", temperature); ("top_p", dget_def (PFloat f1) body "top_p");
     ("top_k", dget_def (PInt (-1)) body "top_k"); ("skip_special_tokens", PBool false);
     ("no_stop_trim", PBool true); ("spaces_between_special_tokens", PBool false)] in
  let! params :=
    match dget body "seed" with
    | None => Ok params
    | Some (PInt seed) =>
        if ((- 2 ^ 63 <=? seed) && (seed <=? 2 ^ 63 - 1))%Z
        then Ok (dset params "sampling_seed" (PInt seed))
        else Raise (ValueError "seed must be a signed 64-bit integer")
    | Some _ => Raise (ValueError "seed must be a signed 64-bit integer")
    end in
  match requested, max_output_tokens with
  | PNone, None => Ok params
  | PNone, Some limit => Ok (dset params "max_new_tokens" (PInt limit))
  | _, Some limit => let! v := min_tokens requested limit in Ok (dset params "max_new_tokens" v)
  | _, None => Ok (dset params "max_new_tokens" requested)
  end.

Definition _context_overflow_payload (phase : string)
    (context_window input_tokens output_tokens max_tokens : Z) (session_id turn_id : option string)
    (last_proxy_step_recorded : bool) : list (string * pyval) :=
  [("error", PStr "context_overflow");
   ("message", PStr "Dressage proxy context window overflow.");
   ("details", PDict
     [("phase", PStr phase); ("context_window", PInt context_window);
      ("input_tokens", PInt input_tokens); ("output_tokens", PInt output_tokens);
      ("total_tokens", PInt (input_tokens + output_tokens)); ("max_tokens", PInt max_tokens);
      ("session_id", opt_text session_id); ("turn_id", opt_text turn_id);
      ("last_proxy_step_recorded", PBool last_proxy_step_recorded)])].

Definition _trajectory_id_from_body (body : list (string * pyval)) : pyval :=
  if py_truth (pget body "trajectory_id") then pget body "trajectory_id" else pget body "session_id".

(** ** [normalize_template_messages] *)

(** A call that is not a dictionary fails on [.get]. *)
Definition template_call (tool_call : pyval) : result pyval :=
  match tool_call with
  | PDict d =>
      let d := match dget d "id" with
               | Some v => dset d "id" (canonicalize_openclaw_tool_call_id v)
               | None => d
               end in
      match pget d "function" with
      | PDict f => Ok (PDict (dset d "function" (PDict (normalize_arguments f))))
      | _ => Ok (PDict d)
      end
  | PStr _ | PList _ => Raise (AttributeError "object has no attribute 'get'")
  | _ => Raise (TypeError "argument is not iterable")
  end.

Definition template_message (m : msg) : result msg :=
  let m := match dget m "reasoning_content" with
           | Some v => match canonicalize_reasoning_content v with
                       | None => dpop m "reasoning_content"
                       | Some t => dset m "reasoning_content" (PStr t)
                       end
           | None => m
           end in
  let m := match dget m "tool_call_id" with
           | Some v => dset m "tool_call_id" (canonicalize_openclaw_tool_call_id v)
           | None => m
           end in
  match pget m "tool_calls" with
  | PList calls => let! cs := mapM_res template_call calls in Ok (dset m "tool_calls" (PList cs))
  | _ => Ok m
  end.

Definition normalize_template_messages (messages : list msg) : result (list msg) :=
  mapM_res template_message messages.

(** ** Assistant messages *)

Definition _assistant_message (content : option string) (tool_calls : option (list pyval))
    (reasoning_content : option string) : msg :=
  let calls := default [] tool_calls in
  let has_calls := negb (Nat.eqb (length calls) 0) in
  let blank := match content with None => true | Some c => String.eqb (strip c) "" end in
  let normalized_content := if has_calls && blank then None else content in
  let reasoning := r ← reasoning_content; canonicalize_reasoning_content (PStr r) in
  let content_value := match normalized_content with
                       | None => if has_calls then PNone else PStr ""
                       | Some c => PStr c
                       end in
  [("role", PStr "assistant"); ("content", content_value)]
  ++ match reasoning with Some t => [("reasoning_content", PStr t)] | None => [] end
  ++ (if has_calls then [("tool_calls", PList calls)] else []).

(** [s.endswith(marker)] *)
Definition ends_with (marker s : string) : bool :=
  (String.length marker <=? String.length s)%nat
  && String.eqb (drop_str (String.length s - String.length marker) s) marker.

(** [s[:-len(marker)]] *)
Definition drop_suffix (marker s : string) : string :=
  String.substring 0 (String.length s - String.length marker) s.

(** [while cleaned.rstrip().endswith(marker)] *)
Fixpoint strip_marker (fuel : nat) (marker cleaned : string) : string :=
  match fuel with
  | O => cleaned
  | S fuel => if ends_with marker (rstrip cleaned)
              then strip_marker fuel marker (drop_suffix marker (rstrip cleaned))
              else cleaned
  end.

Definition strip_markers (markers : list string) (content : string) : string :=
  fold_left (fun c marker => strip_marker (S (String.length c)) marker c) markers content.

Definition _strip_public_stop_markers (content : option string) : option string :=
  match content with
  | None => None
  | Some c => let cleaned := strip_markers ["<|im_end|>"; "<|endoftext|>"] c in
              if String.eqb (strip cleaned) "" then None else Some cleaned
  end.

(** ** Responses *)

Definition usage (prompt_tokens completion_tokens : Z) : pyval :=
  PDict [("prompt_tokens", PInt prompt_tokens); ("completion_tokens", PInt completion_tokens);
         ("total_tokens", PInt (prompt_tokens + completion_tokens))].

Definition _openai_response (model : string) (content reasoning_content : option string)
    (tool_calls : option (list pyval)) (finish_reason : string)
    (prompt_tokens completion_tokens : Z) (response_id : string) (created : Z)
    : list (string * pyval) :=
  [("id", PStr response_id); ("object", PStr "chat.completion"); ("created", PInt created);
   ("model", PStr model);
   ("choices", PList [PDict [("index", PInt 0);
                             ("message", PDict (_assistant_message content tool_calls reasoning_content));
                             ("finish_reason", PStr finish_reason)]]);
   ("usage", usage prompt_tokens completion_tokens)].

(** A server-sent event: a JSON payload, or the terminator. *)
Inductive frame : Type := Data (payload : list (string * pyval)) | DONE.

(** [s[n:]] *)
Fixpoint py_drop (n : Z) (s : string) : string :=
  match s with
  | EmptyString => ""
  | String c s' =>
      if utf8_cont c then py_drop n s'
      else if (n <=? 0)%Z then s else py_drop (n - 1) s'
  end.

(** [text[start : start + 8] for start in range(0, len(text), 8)] *)
Fixpoint text_chunks (fuel : nat) (s : string) : list string :=
  match fuel, s with
  | S fuel, String _ _ => py_take 8 s :: text_chunks fuel (py_drop 8 s)
  | _, _ => []
  end.

Section Stream.
Variables (response_id model : string) (created : Z) (include_usage : bool).

Definition _chunk (delta : list (string * pyval)) (reason : option string) : frame :=
  Data ([("id", PStr response_id); ("object", PStr "chat.completion.chunk");
         ("created", PInt created); ("model", PStr model);
         ("choices", PList [PDict [("index", PInt 0); ("delta", PDict delta);
                                   ("finish_reason", opt_text reason)]])]
        ++ (if include_usage then [("usage", PNone)] else [])).

Definition _usage_chunk (prompt_tokens completion_tokens : Z) : frame :=
  Data [("id", PStr response_id); ("object", PStr "chat.completion.chunk");
        ("created", PInt created); ("model", PStr model); ("choices", PList []);
        ("usage", usage prompt_tokens completion_tokens)].

Definition text_frames (key : string) (text : option string) : list frame :=
  match text with
  | Some t => map (fun c => _chunk [(key, PStr c)] None) (text_chunks (String.length t) t)
  | None => []
  end.

Definition call_frame (tool_call : pyval) : result frame :=
  match tool_call with
  | PDict d =>
      let! ix := pindex d "index" in
      let! id := pindex d "id" in
      let! f := pindex d "function" in
      Ok (_chunk [("tool_calls", PList [PDict [("index", ix); ("id", id);
                                               ("type", PStr "function"); ("function", f)]])] None)
  | _ => Raise (TypeError "indices must be integers")
  end.

(** The frames sent, or the exception that cuts the stream short. *)
Definition _pseudo_stream_chunks (content reasoning_content : option string)
    (tool_calls : option (list pyval)) (finish_reason : string)
    (prompt_tokens completion_tokens : Z) : result (list frame) :=
  let! calls := mapM_res call_frame (default [] tool_calls) in
  Ok ([_chunk [("role", PStr "assistant")] None]
      ++ text_frames "reasoning_content" reasoning_content
      ++ text_frames "content" content
      ++ calls
      ++ [_chunk [] (Some finish_reason)]
      ++ (if include_usage then [_usage_chunk prompt_tokens completion_tokens] else [])
      ++ [DONE]).
End Stream.
End Requests.

(** ** Stripping stop markers *)

Lemma substring_split n : forall s, (n <= String.length s)%nat ->
  s = String.substring 0 n s +:+ drop_str n s.
Proof.
  unfold drop_str. induction n as [|n IH]; intros [|c s] L; simpl in L; try done; try lia.
  - cbn [String.length Nat.sub]. change (String c s = String.substring 0 (String.length (String c s)) (String c s)).
    by rewrite substring_all.
  - cbn [String.length Nat.sub String.substring]. 
    change (String c s = String c (String.substring 0 n s +:+ String.substring n (String.length s - n) s)).
    by rewrite <- IH by lia.
Qed.

Lemma ends_with_spec marker s : ends_with marker s = true -> s = drop_suffix marker s +:+ marker.
Proof.
  unfold ends_with, drop_suffix. intros [L E%String.eqb_eq]%andb_prop. apply Nat.leb_le in L.
  rewrite <- E at 2. apply substring_split. lia.
Qed.

Lemma drop_suffix_length marker s :
  ends_with marker s = true -> (String.length (drop_suffix marker s) + String.length marker = String.length s)%nat.
Proof. intros E. rewrite (ends_with_spec _ _ E) at 2. by rewrite sapp_length. Qed.

(** Text [str.rstrip] removes. *)
Fixpoint blank (s : string) : Prop :=
  match s with EmptyString => True | String c s' => py_space c = true /\ blank s' end.

Lemma rstrip_split s : exists t, s = rstrip s +:+ t /\ blank t.
Proof.
  induction s as [|c s (t & E & B)]; [by exists ""|]. cbn [rstrip].
  destruct (rstrip s) as [|c' s'] eqn:R.
  - destruct (py_space c) eqn:Sp.
    + exists (String c t). split; [by rewrite E at 1|done].
    + exists t. split; [by rewrite E at 1|done].
  - exists t. split; [by rewrite E at 1|done].
Qed.

(** White space and stop markers, in any order. *)
Inductive stop_text (markers : list string) : string -> Prop :=
| stop_nil : stop_text markers ""
| stop_blank t s : blank t -> stop_text markers s -> stop_text markers (t +:+ s)
| stop_marker m s : m ∈ markers -> stop_text markers s -> stop_text markers (m +:+ s).

(** The loop removes only stop text and, given a unit of fuel per character, leaves no
    trailing marker. *)
Lemma strip_marker_spec markers m fuel : forall s,
  m ∈ markers -> m <> "" -> (String.length s < fuel)%nat ->
  ends_with m (rstrip (strip_marker fuel m s)) = false /\
  forall tail, stop_text markers tail ->
    exists t, s +:+ tail = strip_marker fuel m s +:+ t /\ stop_text markers t.
Proof.
  induction fuel as [|fuel IH]; intros s I N L; [lia|]. cbn [strip_marker].
  destruct (ends_with m (rstrip s)) eqn:E; [|split; [done|by eauto]].
  destruct (rstrip_split s) as (t & Es & B).
  pose proof (drop_suffix_length _ _ E) as Ld.
  assert (Lr : (String.length s = String.length (rstrip s) + String.length t)%nat)
    by (rewrite Es at 1; by rewrite sapp_length).
  assert (0 < String.length m)%nat by (destruct m; simpl; [done|lia]).
  destruct (IH (drop_suffix m (rstrip s)) I N) as [F K]; [lia|]. split; [done|].
  intros tail T. destruct (K (m +:+ (t +:+ tail))) as (t' & Et & T').
  { apply stop_marker; [done|]. by apply stop_blank. }
  exists t'. split; [|done]. rewrite <- Et, <- !sapp_assoc, <- (ends_with_spec _ _ E).
  by rewrite <- Es.
Qed.

Lemma strip_markers_spec all markers : forall s tail,
  Forall (fun m => m ∈ all /\ m <> "") markers -> stop_text all tail ->
  exists t, s +:+ tail = strip_markers markers s +:+ t /\ stop_text all t.
Proof.
  induction markers as [|m ms IH]; intros s tail F T; [by exists tail|].
  apply Forall_cons in F as [[I N] F].
  destruct (strip_marker_spec all m (S (String.length s)) s I N) as [_ K]; [lia|].
  destruct (K tail T) as (t & E & T'). destruct (IH (strip_marker (S (String.length s)) m s) t F T') as (t' & E' & T2).
  exists t'. split; [|done]. by rewrite E, E'.
Qed.

(** Stop markers: the loops of [_strip_public_stop_markers] end (a unit of fuel per
    character is enough for the loop's condition to become false), and what they take
    off the end of a response is white space and whole stop markers, nothing else; the
    content returned is not blank and ends in no end-of-text marker. *)
Theorem strip_public_stop_markers_spec c :
  (forall m s, m <> "" ->
     ends_with m (rstrip (strip_marker (S (String.length s)) m s)) = false) /\
  match _strip_public_stop_markers (Some c) with
  | Some r => strip r <> "" /\ ends_with "<|endoftext|>" (rstrip r) = false /\
      exists t, c = r +:+ t /\ stop_text ["<|im_end|>"; "<|endoftext|>"] t
  | None => exists r t, c = r +:+ t /\ strip r = "" /\ stop_text ["<|im_end|>"; "<|endoftext|>"] t
  end.
Proof.
  split.
  - intros m s N. apply (strip_marker_spec [m] m); [set_solver|done|lia].
  - destruct (strip_markers_spec ["<|im_end|>"; "<|endoftext|>"] ["<|im_end|>"; "<|endoftext|>"] c "")
      as (t & E & T); [|constructor|].
    { apply Forall_cons. split; [split; [set_solver|done]|]. apply Forall_singleton.
      split; [set_solver|done]. }
    rewrite sapp_nil in E. unfold _strip_public_stop_markers.
    set (r := strip_markers _ c) in *. destruct (String.eqb_spec (strip r) ""); [by eauto|].
    split; [done|]. split; [|by eauto].
    unfold r, strip_markers. cbn [fold_left].
    apply (strip_marker_spec ["<|endoftext|>"]); [set_solver|done|lia].
Qed.

(** An end-of-message marker before an end-of-text marker stays in the public content:
    the markers are stripped one after the other, each once. *)
Lemma stop_marker_left :
  _strip_public_stop_markers (Some "ok<|im_end|><|endoftext|>") = Some "ok<|im_end|>".
Proof. reflexivity. Qed.

(** ** The streamed response *)

(** The delta of a frame, as a client reads it. *)
Definition frame_delta (f : frame) : list (string * pyval) :=
  match f with
  | Data p => match pget p "choices" with
              | PList (PDict c :: _) => match pget c "delta" with PDict d => d | _ => [] end
              | _ => []
              end
  | DONE => []
  end.

Definition delta_text (key : string) (f : frame) : string :=
  match pget (frame_delta f) key with PStr t => t | _ => "" end.

Definition delta_calls (f : frame) : list pyval :=
  match pget (frame_delta f) "tool_calls" with PList l => l | _ => [] end.

Definition frame_finish (f : frame) : list string :=
  match f with
  | Data p => match pget p "choices" with
              | PList (PDict c :: _) => match pget c "finish_reason" with PStr r => [r] | _ => [] end
              | _ => []
              end
  | DONE => []
  end.

(** What a client accumulates. *)
Definition stream_text (key : string) (frames : list frame) : string :=
  foldr String.append "" (map (delta_text key) frames).

Definition stream_calls (frames : list frame) : list pyval := concat (map delta_calls frames).
Definition stream_finish (frames : list frame) : list string := concat (map frame_finish frames).

(** The call of a streamed tool call, without the type the server rewrites. *)
Definition same_call (sent call : pyval) : Prop :=
  exists d s, call = PDict d /\ sent = PDict s /\
    pget s "index" = pget d "index" /\ pget s "id" = pget d "id" /\
    pget s "function" = pget d "function".

Lemma sapp_cons c (a b : string) : String c a +:+ b = String c (a +:+ b).
Proof. done. Qed.

Lemma py_take_drop s : forall n, py_take n s +:+ py_drop n s = s.
Proof.
  induction s as [|c s IH]; intros n; [done|]. cbn [py_take py_drop].
  destruct (utf8_cont c); [|destruct (n <=? 0)%Z; [done|]];
    rewrite sapp_cons; by rewrite IH.
Qed.

Lemma py_drop_length s : forall n, (String.length (py_drop n s) <= String.length s)%nat.
Proof.
  induction s as [|c s IH]; intros n; [done|]. cbn [py_drop String.length].
  destruct (utf8_cont c); [|destruct (n <=? 0)%Z; [done|]].
  - specialize (IH n). lia.
  - specialize (IH (n - 1)%Z). lia.
Qed.

Lemma text_chunks_join fuel : forall s, (String.length s <= fuel)%nat ->
  foldr String.append "" (text_chunks fuel s) = s.
Proof.
  induction fuel as [|fuel IH]; intros [|c s] L; try done; [simpl in L; lia|].
  cbn [text_chunks foldr]. rewrite IH; [apply py_take_drop|].
  cbn [py_drop String.length] in *. pose proof (py_drop_length s 8). pose proof (py_drop_length s (8 - 1)).
  destruct (utf8_cont c); simpl; lia.
Qed.

Lemma py_take_len s : forall n, (0 <= n)%Z -> (py_len (py_take n s) <= n)%Z.
Proof.
  induction s as [|c s IH]; intros n Hn; [done|]. cbn [py_take].
  destruct (utf8_cont c) eqn:U.
  - cbn [py_len]. rewrite U. specialize (IH n Hn). lia.
  - destruct (Z.leb_spec n 0); [simpl; lia|]. cbn [py_len]. rewrite U.
    specialize (IH (n - 1)%Z). lia.
Qed.

Lemma text_chunks_size fuel : forall s, Forall (fun t => (py_len t <= 8)%Z) (text_chunks fuel s).
Proof.
  induction fuel as [|fuel IH]; intros [|c s]; cbn [text_chunks]; constructor; [|by apply IH].
  apply py_take_len. lia.
Qed.

Section StreamFacts.
Variables (rid model : string) (created : Z) (include_usage : bool).
Let chunk := _chunk rid model created include_usage.

Lemma frame_delta_chunk d r : frame_delta (chunk d r) = d.
Proof using. done. Qed.

Lemma frame_finish_chunk d r : frame_finish (chunk d r) = match r with Some x => [x] | None => [] end.
Proof using. by destruct r. Qed.

Lemma append_concat (l l' : list string) :
  foldr String.append "" (l ++ l') = foldr String.append "" l +:+ foldr String.append "" l'.
Proof using. induction l as [|x l IH]; [done|]. simpl. by rewrite IH, sapp_assoc. Qed.

Lemma stream_text_app key a b : stream_text key (a ++ b) = stream_text key a +:+ stream_text key b.
Proof using. unfold stream_text. by rewrite map_app, append_concat. Qed.

Lemma stream_calls_app a b : stream_calls (a ++ b) = stream_calls a ++ stream_calls b.
Proof using. unfold stream_calls. by rewrite map_app, concat_app. Qed.

Lemma stream_finish_app a b : stream_finish (a ++ b) = stream_finish a ++ stream_finish b.
Proof using. unfold stream_finish. by rewrite map_app, concat_app. Qed.

(** Frames of one text: the client reads the text under its key and nothing else. *)
Lemma text_frames_read key other text : key <> "tool_calls" ->
  let fs := text_frames rid model created include_usage key text in
  stream_text other fs = (if String.eqb key other then default "" text else "") /\
  stream_calls fs = [] /\ stream_finish fs = [].
Proof using.
  intros N fs. unfold fs, text_frames. destruct text as [t|]; [|by destruct (String.eqb key other)].
  assert (G : forall l, stream_text other (map (fun c => chunk [(key, PStr c)] None) l)
              = (if String.eqb key other then foldr String.append "" l else "") /\
            stream_calls (map (fun c => chunk [(key, PStr c)] None) l) = [] /\
            stream_finish (map (fun c => chunk [(key, PStr c)] None) l) = []).
  { induction l as [|c l (A & B & C)]; [by destruct (String.eqb key other)|].
    unfold stream_text, stream_calls, stream_finish in *. cbn [map foldr concat]. rewrite A, B, C.
    unfold delta_text, delta_calls. rewrite frame_delta_chunk, frame_finish_chunk. unfold pget, dget_def.
    cbn [dget]. rewrite (decide_False (P := "tool_calls" = key)) by congruence. split; [|done].
    destruct (String.eqb_spec key other); [by rewrite decide_True|by rewrite decide_False by congruence]. }
  destruct (G (text_chunks (String.length t) t)) as (A & B & C). split; [|done].
  rewrite text_chunks_join in A by done. exact A.
Qed.

(** A frame of at most eight characters that does not end the stream. *)
Definition piece (f : frame) : Prop := f <> DONE /\ (py_len (delta_text "content" f) <= 8)%Z.

Lemma text_frames_pieces key text : Forall piece (text_frames rid model created include_usage key text).
Proof using.
  unfold text_frames. destruct text as [t|]; [|constructor]. apply Forall_map.
  eapply Forall_impl; [apply text_chunks_size|]. intros c L. split; [done|].
  unfold delta_text. rewrite frame_delta_chunk. unfold pget, dget_def. cbn [dget].
  by destruct (decide ("content" = key)).
Qed.

Lemma call_frame_read tc f : call_frame rid model created include_usage tc = Ok f ->
  exists sent, delta_calls f = [sent] /\ same_call sent tc /\ frame_finish f = [] /\ f <> DONE /\
    forall key, key <> "tool_calls" -> delta_text key f = "".
Proof using.
  destruct tc; try discriminate. unfold call_frame. intros E. res_inv. subst f.
  eexists. split; [reflexivity|]. split; [|split; [done|split; [done|]]].
  - eexists _, _. split; [done|]. split; [done|]. unfold pindex in *.
    repeat split; unfold pget, dget_def; cbn; repeat case_match; congruence.
  - intros key N. unfold delta_text. rewrite frame_delta_chunk. unfold pget, dget_def. cbn [dget].
    by rewrite decide_False.
Qed.
End StreamFacts.

Lemma call_frames_read rid model created include_usage calls : forall fs,
  mapM_res (call_frame rid model created include_usage) calls = Ok fs ->
  Forall2 same_call (stream_calls fs) calls /\ stream_finish fs = [] /\ Forall piece fs /\
  forall key, key <> "tool_calls" -> stream_text key fs = "".
Proof.
  induction calls as [|tc calls IH]; intros fs E; simpl in E; [by injection E as <-|].
  destruct (call_frame _ _ _ _ tc) as [f|] eqn:Ef; [|done].
  destruct (mapM_res _ calls) as [fs'|] eqn:Em; [|done]. cbn [res_bind] in E. injection E as <-.
  destruct (IH fs' eq_refl) as (A & B & P & C).
  destruct (call_frame_read _ _ _ _ _ _ Ef) as (sent & D & S & F & N & T).
  unfold stream_calls, stream_finish, stream_text in *. cbn [map concat foldr]. rewrite D, F, B.
  split; [by constructor|]. split; [done|]. split.
  - constructor; [|done]. split; [done|]. by rewrite T.
  - intros key Nk. by rewrite T, C by done.
Qed.

(** Streaming is faithful: from the frames of [_pseudo_stream_chunks], in order, a
    client that concatenates the deltas reads exactly the content and the reasoning of
    the response, its tool calls in order with their index, id and function, and one
    finish reason; every text piece has at most eight characters, and the terminator
    comes last, and only last. *)
Theorem pseudo_stream_faithful rid model created include_usage content reasoning calls finish pt ct fs :
  _pseudo_stream_chunks rid model created include_usage content reasoning calls finish pt ct = Ok fs ->
  stream_text "content" fs = default "" content /\
  stream_text "reasoning_content" fs = default "" reasoning /\
  Forall2 same_call (stream_calls fs) (default [] calls) /\
  stream_finish fs = [finish] /\
  Forall (fun f => (py_len (delta_text "content" f) <= 8)%Z) fs /\
  (exists front, fs = front ++ [DONE] /\ DONE ∉ front).
Proof.
  unfold _pseudo_stream_chunks.
  destruct (mapM_res _ (default [] calls)) as [cf|] eqn:Ec; cbn [res_bind]; [|done].
  match goal with |- Ok ?l = _ -> _ => intros E; assert (fs = l) as -> by congruence; clear E end.
  destruct (call_frames_read _ _ _ _ _ _ Ec) as (Cc & Cf & Cp & Ct).
  destruct (text_frames_read rid model created include_usage "content" "content" content) as (A1 & A2 & A3); [done|].
  destruct (text_frames_read rid model created include_usage "content" "reasoning_content" content) as (B1 & _); [done|].
  destruct (text_frames_read rid model created include_usage "reasoning_content" "content" reasoning) as (D1 & D2 & D3); [done|].
  destruct (text_frames_read rid model created include_usage "reasoning_content" "reasoning_content" reasoning) as (E1 & _); [done|].
  rewrite !stream_text_app, !stream_calls_app, !stream_finish_app, A1, A2, A3, B1, D1, D2, D3, E1, Cf,
    (Ct "content"), (Ct "reasoning_content") by done.
  assert (U : forall k, stream_text k (if include_usage then [_usage_chunk rid model created pt ct] else []) = ""
            /\ stream_calls (if include_usage then [_usage_chunk rid model created pt ct] else []) = []
            /\ stream_finish (if include_usage then [_usage_chunk rid model created pt ct] else []) = [])
    by (intros k; by destruct include_usage).
  destruct (U "content") as (U1 & U2 & U3). rewrite U1, U2, U3, (proj1 (U "reasoning_content")).
  split; [cbn; by rewrite ?sapp_nil|]. split; [cbn; by rewrite ?sapp_nil|].
  split; [cbn; by rewrite ?app_nil_r|]. split; [done|].
  match goal with |- _ /\ exists _, ?a ++ ?b ++ ?c ++ ?d ++ ?e ++ ?u ++ [DONE] = _ /\ _ =>
    set (front := a ++ b ++ c ++ d ++ e ++ u);
    replace (a ++ b ++ c ++ d ++ e ++ u ++ [DONE]) with (front ++ [DONE])
      by (unfold front; by rewrite <- !app_assoc)
  end.
  assert (F : Forall piece front).
  { unfold front. rewrite !Forall_app. split_and!; try done; try apply text_frames_pieces;
      [by repeat constructor..|]. destruct include_usage; by repeat constructor. }
  split.
  - apply Forall_app. split; [|by repeat constructor]. eapply Forall_impl; [exact F|]. by intros f [_ L].
  - exists front. split; [done|]. intros I. rewrite Forall_forall in F. by destruct (F DONE I).
Qed.

(** ** Witnesses *)

Definition w_call : pyval :=
  PDict [("index", PInt 0); ("id", PStr "call1"); ("type", PStr "function");
         ("function", PDict [("name", PStr "ls"); ("arguments", PStr "{}")])].

Lemma pseudo_stream_faithful_witness : exists fs,
  _pseudo_stream_chunks "r" "m" 7 true (Some "hello, world") (Some "think") (Some [w_call]) "tool_calls" 3 4
    = Ok fs /\ stream_text "content" fs = "hello, world" /\ length fs = 8%nat.
Proof.
  let r := eval vm_compute in
    (_pseudo_stream_chunks "r" "m" 7 true (Some "hello, world") (Some "think") (Some [w_call]) "tool_calls" 3 4) in
  match r with
  | Ok ?fs => assert (E : _pseudo_stream_chunks "r" "m" 7 true (Some "hello, world") (Some "think")
                            (Some [w_call]) "tool_calls" 3 4 = Ok fs) by (vm_compute; reflexivity); exists fs
  end.
  split; [exact E|]. split; [|reflexivity].
  apply (pseudo_stream_faithful _ _ _ _ _ _ _ _ _ _ _ E).
Defined.
