(* ===== verification/Pipeline.v ===== *)
(** * One chat completion ([dressage/proxy/server.py])

    [_chat_completions_pipeline] with the helpers it calls.  The critical section of a
    session's [request_lock] is cut at the generation: [begin_request] runs from the
    acquisition of the lock to the call of [generate_preemptible], [commit_request] from
    its result to [_record_step].  Both act on the [Session] object they hold.  The chat
    template, the tokenizer, the parsers, the hooks and the transfer queue's write are
    parameters; the generation's result is that of [Generation]. *)

From S2P Require Import Prelude.
From S2P Require Import PyFloat.
From S2P Require Import PyVal.
From S2P Require Import Json.
From S2P Require Import Transport.
From S2P Require Import Generation.
From S2P Require Import Experts.
From S2P Require Import SessionManager.
From S2P Require Import Routing.
From S2P Require Import Tito.
From S2P Require Import Segments.
From S2P Require Import Offload.
From S2P Require Import Chat.

Local Open Scope string_scope.
Local Open Scope list_scope.
Local Open Scope py_scope.

(** ** Configuration *)

Record Config : Type := {
  cf_mode : TokenBuildMode;
  cf_partial_rollout : bool;
  cf_max_preempts : option Z;
  cf_context_window : option Z;
  cf_dynamic_max_tokens : bool;
  cf_max_output_tokens : option Z;
  cf_rollout_temperature : float;
  cf_none_equals_empty : bool;
  cf_max_steps : Z;                       (* DRESSAGE_PROXY_MAX_STEPS_PER_SESSION *)
  cf_routed_experts_dtype : string;
  cf_tito : option TitoModel }.           (* the TITO tokenizer, when initialized *)

(** ** Messages as stored *)

Definition as_msg (v : pyval) : msg := match v with PDict d => d | _ => [] end.
Definition as_vals (l : list msg) : list pyval := map PDict l.

(** [session.latest_step] *)
Definition latest_step (s : Session) : option StepRecord := last (steps s).

(** [session.steps_by_id.get(step_id)] *)
Definition step_by_id (s : Session) (step_id : string) : option StepRecord :=
  i ← dget (steps_by_id s) step_id; steps s !! i.

(** ** Prompt tokens *)

(** The tokens of a lineage since its last segment boundary. *)
Definition _lineage_tito_prefix_token_ids (s : Session) (lineage_id : string) : list Z :=
  let l := lineage_steps s lineage_id in
  concat (map sr_concat_token_ids (drop (last_boundary l 0 0) l)).

Record PromptPayload : Type := {
  input_ids : list Z;
  context_delta_ids : list Z;
  used_tito_for_prompt : bool;
  tito_incremental_tokenization_failed : bool }.

Section Render.
Context `{PyText}.
(** [tokenizer.apply_chat_template] with [tokenize] off and on. *)
Variable template : list msg -> option (list pyval) -> bool -> result string.
Variable template_ids : list msg -> option (list pyval) -> bool -> result (list Z).

(** A template that takes no tools raises [TypeError] and is called without. *)
Definition without_tools {A} (f : option (list pyval) -> result A) (tools : option (list pyval))
    : result A :=
  match f tools with Raise (TypeError _) => f None | r => r end.

Definition render_messages (messages : list msg) (tools : option (list pyval)) (gen : bool)
    : result string :=
  without_tools (fun t => template messages t gen) tools.

Definition tokenize_messages (messages : list msg) (tools : option (list pyval)) (gen : bool)
    : result (list Z) :=
  without_tools (fun t => template_ids messages t gen) tools.

Definition _full_prompt_token_ids (messages : list msg) (tools : option (list pyval))
    : result (list Z) := tokenize_messages messages tools true.

Section Prompt.
Variable encode : string -> result (list Z).
Variables newline_id im_end_id : option Z.
Variable cfg : Config.

Definition full_prompt (messages : list msg) (tools : option (list pyval)) (failed : bool)
    : result PromptPayload :=
  let! ids := _full_prompt_token_ids messages tools in
  Ok {| input_ids := ids; context_delta_ids := ids; used_tito_for_prompt := false;
        tito_incremental_tokenization_failed := failed |}.

Definition _build_prompt_tokens (s : Session) (route : Route) (lineage_segment_boundary_before : bool)
    (messages : list msg) (tools : option (list pyval)) : result PromptPayload :=
  match cf_mode cfg, r_base_step_id route ≫= step_by_id s, lineage_segment_boundary_before with
  | tito, Some base, false =>
      match cf_tito cfg with
      | None => Raise (RuntimeError "TITO tokenizer is not initialized for tito mode.")
      | Some model =>
          let branching := bool_decide (r_type route = branch) in
          let prefix := if branching then sr_snapshot_token_ids base
                        else _lineage_tito_prefix_token_ids s (r_lineage_id route) in
          match merge_tokens template encode newline_id im_end_id model
                  (map as_msg (sr_normalized_messages_snapshot base)) messages prefix tools with
          | Raise _ => full_prompt messages tools true
          | Ok merged =>
              Ok {| input_ids := merged;
                    context_delta_ids := if branching then merged else drop (length prefix) merged;
                    used_tito_for_prompt := true;
                    tito_incremental_tokenization_failed := false |}
          end
      end
  | _, _, _ => full_prompt messages tools false
  end.
End Prompt.
End Render.

(** ** Concatenation payload *)

Record ConcatPayload : Type := {
  cp_token_ids : list Z;
  cp_response_logprobs : list float;
  cp_response_mask : list Z;
  cp_versions : list string;
  cp_context_token_count : Z;
  cp_output_token_count : Z;
  cp_logprobs_invalid : bool;
  cp_incremental_tokenization_failed : bool }.

Definition _build_concat_step_payload `{PyText} (context_delta_ids response_token_ids : list Z)
    (response_logprobs : list float) (response_versions : list string) (failed : bool)
    : ConcatPayload :=
  let '(output_logprobs, invalid) :=
    normalize_logprobs_to_length (map PFloat response_logprobs) (length response_token_ids) in
  let versions :=
    if Nat.eqb (length response_versions) (length response_token_ids) then response_versions
    else replicate (length response_token_ids) (default "unknown" (last response_versions)) in
  {| cp_token_ids := context_delta_ids ++ response_token_ids;
     cp_response_logprobs := replicate (length context_delta_ids) f0 ++ output_logprobs;
     cp_response_mask := replicate (length context_delta_ids) 0%Z
                         ++ replicate (length response_token_ids) 1%Z;
     cp_versions := replicate (length context_delta_ids) _INPUT_TOKEN_VERSION ++ versions;
     cp_context_token_count := Z.of_nat (length context_delta_ids);
     cp_output_token_count := Z.of_nat (length response_token_ids);
     cp_logprobs_invalid := invalid;
     cp_incremental_tokenization_failed := failed |}.

(** ** Fields of the held session *)

Definition set_rollout_epoch (s : Session) (e : option Z) : Session :=
  {| oid := oid s;
     SessionManager.session_id := SessionManager.session_id s;
     SessionManager.instance_id := SessionManager.instance_id s;
     SessionManager.incarnation_id := SessionManager.incarnation_id s;
     steps := steps s;
     history_rewritten := history_rewritten s;
     s_rewrite_reason := s_rewrite_reason s;
     rewrite_detected_at := rewrite_detected_at s;
     created_at := created_at s;
     last_active := last_active s;
     turn_mode := turn_mode s;
     implicit_turn_id := implicit_turn_id s;
     turn_ids := turn_ids s;
     active_turn_id := active_turn_id s;
     s_rollout_epoch := e;
     lineages := lineages s;
     steps_by_id := steps_by_id s;
     prefix_tree := prefix_tree s;
     request_locked := request_locked s;
     _turn_counter := _turn_counter s;
     _step_counter := _step_counter s;
     _lineage_counter := _lineage_counter s |}.

Definition set_incarnation (s : Session) (i : string) : Session :=
  {| oid := oid s;
     SessionManager.session_id := SessionManager.session_id s;
     SessionManager.instance_id := SessionManager.instance_id s;
     SessionManager.incarnation_id := Some i;
     steps := steps s;
     history_rewritten := history_rewritten s;
     s_rewrite_reason := s_rewrite_reason s;
     rewrite_detected_at := rewrite_detected_at s;
     created_at := created_at s;
     last_active := last_active s;
     turn_mode := turn_mode s;
     implicit_turn_id := implicit_turn_id s;
     turn_ids := turn_ids s;
     active_turn_id := active_turn_id s;
     s_rollout_epoch := s_rollout_epoch s;
     lineages := lineages s;
     steps_by_id := steps_by_id s;
     prefix_tree := prefix_tree s;
     request_locked := request_locked s;
     _turn_counter := _turn_counter s;
     _step_counter := _step_counter s;
     _lineage_counter := _lineage_counter s |}.

(** The object a request holds may be registered in the manager under its id; a write to
    it is visible there, and it is read there. *)
Definition get_held (m : SessionManager) (s : Session) : Session :=
  match dget (_sessions m) (SessionManager.session_id s) with
  | Some s' => if Nat.eqb (oid s') (oid s) then s' else s
  | None => s
  end.

Definition put_held (m : SessionManager) (s : Session) : SessionManager :=
  match dget (_sessions m) (SessionManager.session_id s) with
  | Some s' => if Nat.eqb (oid s') (oid s)
               then set_sessions m (dset (_sessions m) (SessionManager.session_id s) s) else m
  | None => m
  end.

(** ** Requests and the environment *)

Record ChatRequest : Type := {
  q_header : string -> option string;
  q_body : list (string * pyval);
  q_messages : list msg;                   (* body["messages"] *)
  q_tools : option (list pyval) }.         (* body["tools"] *)

(** What [ToolCallHookChain.run_before] and [run_after] do with the stage metadata. *)
Inductive hook_result : Type :=
| HookOk (metadata : list (string * pyval))
| HookError (message : string)             (* [ToolCallHookError] *)
| HookRaised (e : exn).

Record ToolCallContext : Type := {
  tc_instance_id : option string;
  tc_session_id : string;
  tc_turn_id : option string;
  tc_step_index : nat;
  tc_sandbox_id : string;
  tc_tool_calls : option (list pyval);
  tc_idempotency_key : string;
  tc_stage_metadata : list (string * pyval) }.

Definition build_tool_call_idempotency_key (session_id : string) (turn_id : option string)
    (step_index : nat) (stage : string) : string :=
  session_id +:+ ":" +:+ or_str turn_id "-" +:+ ":" +:+ str_of_Z (Z.of_nat step_index) +:+ ":" +:+ stage.

(** What [generate_preemptible] ends with. *)
Inductive generation : Type :=
| Generated (r : PreemptibleGenerateResult)
| GenerationFailed (e : gexn)
| UpstreamRequestError (detail : string).  (* [httpx.RequestError] *)

(** The readings, answers and results the environment supplies to one request. *)
Record Env : Type := {
  ev_uuid : string;                        (* of an implicit turn id *)
  ev_clock : float;                        (* one reading for all of a request's *)
  ev_epoch : Z;                            (* [generation_controller.current_epoch] *)
  ev_version : option string;              (* [generation_controller.current_version] *)
  ev_acquire : result bool;                (* the lease, and whether it moved the session *)
  ev_generate : GenArgs -> generation;
  ev_incarnation : string;                 (* uuid of a new incarnation *)
  ev_put : result unit;                    (* the transfer queue's write *)
  ev_uuid1 : string;
  ev_uuid2 : string }.

(** What the first half leaves for the second. *)
Record Prepared : Type := {
  pr_instance_id : string;
  pr_turn_id : string;
  pr_normalized_request : list msg;
  pr_tools_hash : string;
  pr_route : Route;
  pr_boundary : bool;
  pr_reasons : list string;
  pr_rewrite_reason : option string;
  pr_lineage_boundary : bool;
  pr_lineage_reasons : list string;
  pr_prompt : PromptPayload;
  pr_max_tokens : Z;
  pr_hook_metadata : list (string * pyval);
  pr_moved : bool;
  pr_gen_args : GenArgs }.

(** A computation on the held session. *)
Definition SM (A : Type) : Type := Session -> Session * outcome A.
Definition sm_ret {A} (a : A) : SM A := fun s => (s, Done a).
Definition sm_bind {A B} (m : SM A) (k : A -> SM B) : SM B :=
  fun s => match m s with
           | (s', Done a) => k a s'
           | (s', Fail f) => (s', Fail f)
           end.
Definition sm_get {A} (f : Session -> A) : SM A := fun s => (s, Done (f s)).
Definition sm_try {A} (f : Session -> outcome A) : SM A := fun s => (s, f s).
Definition sm_modify (f : Session -> Session) : SM unit := fun s => (f s, Done tt).

Notation "'do!' x ':=' m 'in' k" := (sm_bind m (fun x => k))
  (at level 10, x binder, m at level 100, k at level 200) : py_scope.
Notation "'run!' m ';;' k" := (sm_bind m (fun _ => k))
  (at level 10, m at level 99, k at level 200) : py_scope.

Section Pipeline.
Context `{PyText}.
Variable cfg : Config.
Variable iter : list string -> list string.
Variable template : list msg -> option (list pyval) -> bool -> result string.
Variable template_ids : list msg -> option (list pyval) -> bool -> result (list Z).
Variable encode : string -> result (list Z).
Variables newline_id im_end_id : option Z.
Variable hook_chain : option (string -> ToolCallContext -> hook_result).

(** ** Routing that may raise *)

Definition render_vals (messages : list pyval) (tools : option (list pyval)) (gen : bool)
    : result string := render_messages template (map as_msg messages) tools gen.

Definition render_or_empty (messages : list pyval) (tools : option (list pyval)) (gen : bool) : string :=
  match render_vals messages tools gen with Ok t => t | Raise _ => "" end.

(** One turn of the candidate loop, stopping at a rendering that raises. *)
Definition consider_or_raise (tools : option (list pyval)) (tools_hash current : string)
    (acc : Session * result (list nat)) (step_id : string) : Session * result (list nat) :=
  match acc with
  | (s, Raise e) => (s, Raise e)
  | (s, Ok valid) =>
      match step_by_id s step_id with
      | Some st =>
          match (if cached st tools_hash then Ok ""
                 else render_vals (sr_normalized_messages_snapshot st) tools false) with
          | Raise e => (s, Raise e)
          | Ok _ => let '(s', valid') := consider render_or_empty tools tools_hash current (s, valid) step_id in
                    (s', Ok valid')
          end
      | None => (s, Ok valid)
      end
  end.

(** [_select_route], which raises when the template does. *)
Definition select_route_or_raise (s : Session) (req : list pyval) (tools : option (list pyval))
    (tools_hash : string) : Session * result Route :=
  match render_vals req tools true with
  | Raise e => (s, Raise e)
  | Ok current =>
      match fold_left (consider_or_raise tools tools_hash current)
              (candidates iter (prefix_tree s) req) (s, Ok []) with
      | (s', Raise e) => (s', Raise e)
      | (_, Ok _) =>
          let '(s', r) := _select_route iter render_or_empty (cf_none_equals_empty cfg) s req tools tools_hash in
          (s', Ok r)
      end
  end.

(** The route, and whether it is the safety reset after a rendering that raised. *)
Definition choose_route (previous_step : option StepRecord) (append_only : bool) (req : list pyval)
    (tools : option (list pyval)) (tools_hash : string) : SM (Route * bool) :=
  fun s =>
    match select_route_or_raise s req tools tools_hash with
    | (s', Ok r) => (s', Done (r, false))
    | (s', Raise _) =>
        match previous_step, append_only with
        | Some p, true =>
            (s', Done ({| r_lineage_id := sr_lineage_id p; r_type := append;
                          r_base_step_id := Some (sr_step_id p) |}, true))
        | _, _ =>
            let '(s'', l) := create_lineage s' None in
            (s'', Done ({| r_lineage_id := l_id l; r_type := create; r_base_step_id := None |}, true))
        end
    end.

(** ** Hooks *)

Definition _dispatch_tool_call_hooks (stage : string) (s : Session) (sandbox_id : option string)
    (instance_id turn_id : string) (metadata : list (string * pyval))
    (tool_calls : option (list pyval)) : outcome (list (string * pyval)) :=
  match hook_chain, sandbox_id with
  | Some run, Some (String _ _ as sandbox) =>
      let ctx := {| tc_instance_id := Some instance_id; tc_session_id := SessionManager.session_id s;
                    tc_turn_id := Some turn_id; tc_step_index := length (steps s);
                    tc_sandbox_id := sandbox; tc_tool_calls := tool_calls;
                    tc_idempotency_key := build_tool_call_idempotency_key
                      (SessionManager.session_id s) (Some turn_id) (length (steps s)) stage;
                    tc_stage_metadata := metadata |} in
      match run stage ctx with
      | HookOk m => Done m
      | HookError message =>
          http 502 [("error", PStr "tool_call_hook_failed"); ("stage", PStr stage);
                    ("message", PStr message); ("session_id", PStr (SessionManager.session_id s));
                    ("instance_id", PStr instance_id)]
      | HookRaised e => Fail (Uncaught e)
      end
  | _, _ => Done metadata
  end.

Definition _dispatch_after_tool_call_hooks (s : Session) (sandbox_id : option string)
    (instance_id turn_id : string) (normalized : list msg) (metadata : list (string * pyval))
    : outcome (list (string * pyval)) :=
  match last normalized with
  | Some m => if py_eqb (pget m "role") (PStr "tool")
              then _dispatch_tool_call_hooks "after" s sandbox_id instance_id turn_id metadata None
              else Done metadata
  | None => Done metadata
  end.

(** ** Up to the generation *)

Definition value_error_400 {A} (r : result A) : outcome A :=
  match r with
  | Ok a => Done a
  | Raise (ValueError msg) => Fail (HTTPException 400 (PStr msg))
  | Raise e => Fail (Uncaught e)
  end.

(** [session_manager.resolve_turn_id] on the held session. *)
Definition resolve_held_turn (requested : option string) (env : Env) : SM string :=
  fun s => let '(s', r) := resolve_turn (set_last_active s (ev_clock env)) requested (ev_uuid env) in
           (s', value_error_400 r).

(** The step a route continues. *)
Definition route_base (s : Session) (r : Route) : option StepRecord := r_base_step_id r ≫= step_by_id s.

Definition history_msgs (st : StepRecord) : list msg := map as_msg (sr_messages_snapshot st).

(** [session_manager.mark_history_rewritten] on the held session. *)
Definition mark_held (rewrite : bool) (env : Env) (s : Session) : Session :=
  if rewrite && negb (history_rewritten s)
  then set_rewritten s (Some "Turn history rewritten between steps.") (ev_clock env) else s.

(** How the request relates to the steps before it. *)
Record Boundary : Type := {
  bd_route : Route;
  bd_rewrite : bool;
  bd_segment : bool;
  bd_reasons : list string;
  bd_lineage : bool;
  bd_lineage_reasons : list string }.

Definition boundary_of (s : Session) (previous_step : option StepRecord) (append_only : bool)
    (turn_id : string) (tools : option (list pyval)) (route : Route) (render_failed : bool) : Boundary :=
  let has_previous := bool_decide (is_Some previous_step) in
  let rewrite := match previous_step with
                 | Some p => String.eqb (sr_turn_id p) turn_id && negb append_only
                 | None => false
                 end in
  let mismatch := bool_decide (cf_mode cfg = tito) && has_previous
                  && bool_decide (r_type route = create) && negb rewrite in
  let changed := match route_base s route with
                 | Some b => _tools_changed (sr_tools b) tools (cf_none_equals_empty cfg)
                 | None => false
                 end in
  let reasons := _boundary_reasons rewrite changed mismatch in
  let failed := if render_failed then ["tito_routing_render_failed"] else [] in
  let lineage_reasons := (if changed then ["tools_changed"] else []) ++ failed in
  {| bd_route := route; bd_rewrite := rewrite;
     bd_segment := has_previous && (negb (Nat.eqb (length reasons) 0) || render_failed);
     bd_reasons := if has_previous then reasons ++ failed else reasons;
     bd_lineage := negb (Nat.eqb (length lineage_reasons) 0);
     bd_lineage_reasons := lineage_reasons |}.

(** The boundary a failed incremental tokenization adds. *)
Definition add_failure (s : Session) (b : Boundary) (failed : bool) : Boundary :=
  if failed && bool_decide (is_Some (route_base s (bd_route b)))
  then let name := "tito_incremental_tokenization_failed" in
       let add (l : list string) := if bool_decide (name ∈ l) then l else l ++ [name] in
       {| bd_route := bd_route b; bd_rewrite := bd_rewrite b; bd_segment := true;
          bd_reasons := add (bd_reasons b); bd_lineage := true;
          bd_lineage_reasons := add (bd_lineage_reasons b) |}
  else b.

(** [int(value or 0)] *)
Definition int_or_0 (v : pyval) : result Z := if py_truth v then py_int v else Ok 0%Z.

(** The token budget sent to the engine, or the overflow that answers the request. *)
Definition token_budget (params : list (string * pyval)) (prompt_tokens : Z)
    (session_id turn_id : string) : outcome (list (string * pyval) * Z) :=
  try! max_tokens := uncaught (int_or_0 (pget params "max_new_tokens")) in
  let overflow phase := Fail (JSONResponse (_context_overflow_payload phase
      (default 0%Z (cf_context_window cfg)) prompt_tokens 0 max_tokens (Some session_id)
      (Some turn_id) false) 413) in
  match cf_context_window cfg with
  | None => Done (params, max_tokens)
  | Some window =>
      if (window <=? prompt_tokens)%Z then overflow "input"
      else if negb (cf_dynamic_max_tokens cfg) then Done (params, max_tokens)
      else
        let remaining := (window - prompt_tokens - 1)%Z in
        if (remaining <? 1)%Z then overflow "input_output"
        else
          try! v := match pget params "max_new_tokens" with
                    | PNone => Done remaining
                    | c => try! z := uncaught (py_int c) in Done (Z.min z remaining)
                    end in
          Done (dset params "max_new_tokens" (PInt v), v)
  end.

Definition gen_args (s : Session) (b : list Z) (params : list (string * pyval)) (iid turn_id : string)
    (expected_version : option string) (epoch : Z) : result GenArgs :=
  let! max_new := int_or_0 (pget params "max_new_tokens") in
  Ok {| ga_input_ids := b; ga_max_new_tokens := max_new;
        ga_session_id := Some (SessionManager.session_id s); ga_instance_id := Some iid;
        ga_turn_id := Some turn_id; ga_expected_version := expected_version;
        ga_expected_epoch := if negb (cf_partial_rollout cfg) && negb (Nat.eqb (length (steps s)) 0)
                             then Some epoch else None;
        ga_logprob_start_len := if bool_decide (cf_mode cfg = tito) then (-1)%Z else 0%Z;
        ga_context_window := cf_context_window cfg |}.

Definition step_limit (s : Session) : outcome unit :=
  if (0 <? cf_max_steps cfg)%Z && (cf_max_steps cfg <=? Z.of_nat (length (steps s)))%Z
  then Fail (HTTPException 400 (PStr "reached proxy step limit")) else Done tt.

Definition acquire_lease (env : Env) : outcome bool :=
  match ev_acquire env with
  | Ok moved => Done moved
  | Raise (RuntimeError msg) =>
      http 503 [("error", PStr "engine_rebalancing_unavailable"); ("message", PStr msg)]
  | Raise e => Fail (Uncaught e)
  end.

Definition begin_request (q : ChatRequest) (env : Env) : SM Prepared :=
  let '(_, requested_iid, requested_turn) := _runtime_ids_from_request (q_header q) (q_body q) in
  let sandbox_id := _sandbox_id_from_request (q_header q) (q_body q) in
  do! iid := sm_get (fun s => match requested_iid with
                              | Some (String _ _ as i) => i
                              | _ => SessionManager.instance_id s
                              end) in
  do! turn_id := resolve_held_turn requested_turn env in
  do! previous := sm_get latest_step in
  run! sm_try (fun s => _raise_if_stale_rollout_epoch s (ev_epoch env) (cf_partial_rollout cfg)) ;;
  do! normalized := sm_try (fun _ => uncaught (normalize_template_messages (q_messages q))) in
  do! metadata := sm_try (fun s => _dispatch_after_tool_call_hooks s sandbox_id iid turn_id normalized []) in
  let tools_hash := _tools_hash (q_tools q) (cf_none_equals_empty cfg) in
  let append_only := match previous with
                     | Some p => is_append_only_continuation (history_msgs p) (q_messages q)
                     | None => true
                     end in
  do! chosen := choose_route previous append_only (as_vals normalized) (q_tools q) tools_hash in
  let '(route, render_failed) := chosen in
  do! b := sm_get (fun s => boundary_of s previous append_only turn_id (q_tools q) route render_failed) in
  run! sm_modify (mark_held (bd_rewrite b) env) ;;
  do! prompt := sm_try (fun s => uncaught (_build_prompt_tokens template template_ids encode newline_id
                                    im_end_id cfg s route (bd_lineage b) normalized (q_tools q))) in
  do! b := sm_get (fun s => add_failure s b (tito_incremental_tokenization_failed prompt)) in
  do! params := sm_try (fun _ => value_error_400 (_build_sampling_params (q_body q)
                                   (cf_max_output_tokens cfg) (cf_rollout_temperature cfg))) in
  do! budget := sm_try (fun s => token_budget params (Z.of_nat (length (input_ids prompt)))
                                   (SessionManager.session_id s) turn_id) in
  run! sm_try step_limit ;;
  let expected := q_header q "X-Dressage-Expected-Version" in
  run! sm_try (fun s => _raise_if_cross_version_trajectory s [expected; ev_version env]
                          (cf_partial_rollout cfg)) ;;
  do! moved := sm_try (fun _ => acquire_lease env) in
  do! args := sm_try (fun s => uncaught (gen_args s (input_ids prompt) (fst budget) iid turn_id expected
                                           (ev_epoch env))) in
  sm_ret {| pr_instance_id := iid; pr_turn_id := turn_id; pr_normalized_request := normalized;
            pr_tools_hash := tools_hash; pr_route := route; pr_boundary := bd_segment b;
            pr_reasons := bd_reasons b;
            pr_rewrite_reason := if bd_rewrite b then Some "Turn history rewritten between steps." else None;
            pr_lineage_boundary := bd_lineage b; pr_lineage_reasons := bd_lineage_reasons b;
            pr_prompt := prompt; pr_max_tokens := snd budget; pr_hook_metadata := metadata;
            pr_moved := moved; pr_gen_args := args |}.

(** ** After the generation *)

(** The parsers' answers: the text without reasoning and the reasoning; the content and
    the tool calls. *)
Variable parse_reasoning : string -> result (string * option string).
Variable parse_tool_calls : string -> option (list pyval) -> result (option string * option (list pyval)).
(** The tokenizer's estimate for a text whose token ids are missing. *)
Variable estimate_tokens : string -> Z.
Variable b64decode : string -> result (list Z).

(** The public reply. *)
Record Reply : Type := {
  rp_content : option string;
  rp_reasoning : option string;
  rp_tool_calls : option (list pyval);
  rp_finish_reason : string;
  rp_prompt_tokens : Z;
  rp_completion_tokens : Z }.

Definition generation_failure (s : Session) (iid : string) (e : gexn) : failure :=
  let ids := [("session_id", PStr (SessionManager.session_id s)); ("instance_id", PStr iid)] in
  match e with
  | GenerationVersionMismatch expected observed =>
      HTTPException 502 (PDict ([("error", PStr "weight_version_mismatch");
        ("expected", PStr expected); ("observed", PStr observed)] ++ ids))
  | GenerationVersionUnavailable =>
      HTTPException 502 (PDict ([("error", PStr "weight_version_unavailable");
        ("message", PStr "SGLang response omitted weight_version for a version-pinned request")] ++ ids))
  | GenerationStaleEpoch expected current =>
      HTTPException 502 (PDict ([("error", PStr "trajectory_version_changed");
        ("message", PStr "Dressage rollout epoch changed before generation reached SGLang");
        ("session_epoch", PInt expected); ("current_epoch", PInt current)] ++ ids))
  | GenerationPreempted =>
      HTTPException 502 (PDict ([("error", PStr "generation_preempted");
        ("message", PStr "SGLang generation was interrupted while partial rollout resume is disabled")] ++ ids))
  | ProxyShuttingDown => HTTPException 503 (PDict [("error", PStr "proxy_shutting_down")])
  | BackendError msg => Uncaught (RuntimeError msg)
  end.

Definition generation_outcome (s : Session) (iid : string) (g : generation)
    : outcome PreemptibleGenerateResult :=
  match g with
  | Generated r => Done r
  | GenerationFailed e => Fail (generation_failure s iid e)
  | UpstreamRequestError detail =>
      http 503 [("error", PStr "sglang_upstream_unavailable"); ("detail", PStr detail)]
  end.

Definition result_text (r : PreemptibleGenerateResult) : string := String.concat "" (pr_text_parts r).

(** [router_response.weight_version or "unknown"] when no token carries a version *)
Definition weight_version (r : PreemptibleGenerateResult) : string :=
  match last (pr_output_versions r) with
  | Some v => if String.eqb v "" then "unknown" else v
  | None => match pget (pr_meta r) "weight_version" with
            | PNone => "unknown"
            | v => if String.eqb (py_str v) "" then "unknown" else py_str v
            end
  end.

Definition result_version (r : PreemptibleGenerateResult) : string :=
  match last (pr_output_versions r) with Some v => v | None => weight_version r end.

Definition result_versions (r : PreemptibleGenerateResult) : list string :=
  if Nat.eqb (length (pr_output_versions r)) (length (pr_output_ids r)) then pr_output_versions r
  else replicate (length (pr_output_ids r)) (result_version r).

Definition output_overflow (r : PreemptibleGenerateResult) : bool :=
  match pget (pr_meta r) "context_overflow" with
  | PDict _ => bool_decide (is_Some (cf_context_window cfg))
  | _ => false
  end.

Definition _completion_usage_tokens (r : PreemptibleGenerateResult) : Z :=
  match pr_output_ids r with
  | _ :: _ => Z.of_nat (length (pr_output_ids r))
  | [] => if String.eqb (result_text r) "" then 0 else estimate_tokens (result_text r)
  end.

(** What is recorded of the response: nothing of its output after an overflow. *)
Record Recorded : Type := {
  rc_ids : list Z;
  rc_logprobs : list float;
  rc_versions : list string;
  rc_output_texts : list string;
  rc_all_ids : list Z;
  rc_all_logprobs : list float;
  rc_all_versions : list string;
  rc_raw_text : string }.

Definition recorded (r : PreemptibleGenerateResult) (prompt : list Z) : Recorded :=
  let prompt_versions := replicate (length prompt) _INPUT_TOKEN_VERSION in
  if output_overflow r
  then {| rc_ids := []; rc_logprobs := []; rc_versions := []; rc_output_texts := [];
          rc_all_ids := prompt; rc_all_logprobs := pr_input_logprobs r;
          rc_all_versions := prompt_versions; rc_raw_text := "" |}
  else {| rc_ids := pr_output_ids r; rc_logprobs := pr_output_logprobs r;
          rc_versions := result_versions r; rc_output_texts := pr_output_texts r;
          rc_all_ids := pr_all_token_ids r; rc_all_logprobs := pr_all_logprobs r;
          rc_all_versions := prompt_versions ++ result_versions r; rc_raw_text := result_text r |}.

(** The version guards on a result. *)
Definition check_versions (s : Session) (r : PreemptibleGenerateResult) : outcome unit :=
  let versions := map Some (result_versions r) in
  guard! _raise_if_cross_version_trajectory s
           (versions ++ [Some (result_version r); Some (result_version r)]) (cf_partial_rollout cfg) ;;
  if output_overflow r then Done tt
  else _raise_if_partial_version_span_exceeded s versions (cf_partial_rollout cfg) (cf_max_preempts cfg).

(** Parsing: the public reply and the hook metadata. *)
Definition parse_response (s : Session) (q : ChatRequest) (p : Prepared) (r : PreemptibleGenerateResult)
    : outcome (Reply * list (string * pyval)) :=
  let reply content reasoning calls finish :=
    {| rp_content := content; rp_reasoning := reasoning; rp_tool_calls := calls;
       rp_finish_reason := finish;
       rp_prompt_tokens := Z.of_nat (length (input_ids (pr_prompt p)));
       rp_completion_tokens := _completion_usage_tokens r |} in
  if output_overflow r then Done (reply (Some "") None None "length", pr_hook_metadata p)
  else
    let finish := if String.eqb (pr_finish_reason r) "length" then "length" else "stop" in
    try! rr := uncaught (parse_reasoning (result_text r)) in
    try! ct := uncaught (parse_tool_calls (fst rr) (q_tools q)) in
    let content := _strip_public_stop_markers (fst ct) in
    match snd ct with
    | Some ((_ :: _) as calls) =>
        try! m := _dispatch_tool_call_hooks "before" s
                    (_sandbox_id_from_request (q_header q) (q_body q)) (pr_instance_id p) (pr_turn_id p)
                    (pr_hook_metadata p) (Some calls) in
        Done (reply content (snd rr) (Some calls) "tool_calls", m)
    | calls => Done (reply content (snd rr) calls finish, pr_hook_metadata p)
    end.

(** The rows of routed experts the recorded step owes. *)
Definition experts_target (s : Session) (p : Prepared) (concat_count all_count : nat) : Z * Z :=
  match cf_mode cfg with
  | tito =>
      let previous := if bool_decide (r_type (pr_route p) = create) || bool_decide (r_type (pr_route p) = branch)
                         || pr_lineage_boundary p then O
                      else length (_lineage_tito_prefix_token_ids s (r_lineage_id (pr_route p))) in
      match previous with
      | O => (0, Z.max 0 (Z.of_nat concat_count - 1))%Z
      | _ => (Z.of_nat previous - 1, Z.of_nat concat_count)%Z
      end
  | snapshot => (0, Z.max 0 (Z.of_nat all_count - 1))%Z
  end.

(** The arguments of [record_step]. *)
Definition step_args (q : ChatRequest) (p : Prepared) (r : PreemptibleGenerateResult)
    (reply : Reply) (metadata : list (string * pyval)) (normalized_full : list msg)
    (full_messages : list msg) (rendered : string) (snapshot_ids : list Z)
    (cp : option ConcatPayload) (experts : list ExpertRows) (step_id : string) (lineage_index : Z)
    : StepArgs :=
  let prompt := input_ids (pr_prompt p) in
  let rec := recorded r prompt in
  {| ra_turn_id := pr_turn_id p;
     ra_request_messages := as_vals (q_messages q);
     ra_normalized_request_messages := as_vals (pr_normalized_request p);
     ra_prompt_token_ids := prompt;
     ra_prompt_token_logprobs := inl (pr_input_logprobs r);
     ra_snapshot_token_ids := snapshot_ids;
     ra_response_token_ids := rc_ids rec;
     ra_response_logprobs := inl (rc_logprobs rec);
     ra_all_token_ids := rc_all_ids rec;
     ra_all_logprobs := inl (rc_all_logprobs rec);
     ra_input_token_texts := pr_input_texts r;
     ra_output_token_texts := rc_output_texts rec;
     ra_messages_snapshot := as_vals full_messages;
     ra_raw_response_text := rc_raw_text rec;
     ra_step_id := Some step_id;
     ra_lineage_id := Some (r_lineage_id (pr_route p));
     ra_lineage_index := Some lineage_index;
     ra_route_type := r_type (pr_route p);
     ra_route_base_step_id := r_base_step_id (pr_route p);
     ra_normalized_messages_snapshot := Some (as_vals normalized_full);
     ra_snapshot_rendered := rendered;
     ra_snapshot_rendered_len := py_len rendered;
     ra_snapshot_tools_hash := Some (pr_tools_hash p);
     ra_lineage_segment_boundary_before := pr_lineage_boundary p;
     ra_lineage_segment_reasons_before := Some (pr_lineage_reasons p);
     ra_prompt_versions := Some (replicate (length prompt) _INPUT_TOKEN_VERSION);
     ra_response_versions := Some (rc_versions rec);
     ra_all_versions := Some (rc_all_versions rec);
     ra_all_logprobs_invalid := pr_all_invalid r;
     ra_concat_token_ids := cp_token_ids <$> cp;
     ra_concat_response_logprobs := (fun c => inl (cp_response_logprobs c)) <$> cp;
     ra_concat_response_mask := cp_response_mask <$> cp;
     ra_concat_versions := cp_versions <$> cp;
     ra_concat_context_token_count := default 0%Z (cp_context_token_count <$> cp);
     ra_concat_output_token_count := default 0%Z (cp_output_token_count <$> cp);
     ra_concat_logprobs_invalid := default false (cp_logprobs_invalid <$> cp);
     ra_concat_incremental_tokenization_failed :=
       default false (cp_incremental_tokenization_failed <$> cp);
     ra_response_routed_experts_chunks := Some (inl (map ExpertRows_dict experts));
     ra_tools := q_tools q;
     ra_segment_boundary_before := pr_boundary p;
     ra_rewrite_reason := pr_rewrite_reason p;
     ra_segment_reason_before := head (pr_reasons p);
     ra_segment_reasons_before := Some (pr_reasons p);
     ra_finish_reason := rp_finish_reason reply;
     ra_request_version := Some (result_version r);
     ra_response_version := Some (result_version r);
     ra_tool_call_hook_metadata := Some metadata;
     ra_request_e2e_latency_seconds := _optional_response_duration (pget (pr_meta r) "e2e_latency");
     ra_request_queue_seconds := _optional_response_duration (pget (pr_meta r) "queue_time");
     ra_rebalancing_moved := pr_moved p |}.

(** [session.rollout_epoch = router_response.rollout_epoch], the first time *)
Definition set_epoch_once (r : PreemptibleGenerateResult) (s : Session) : Session :=
  match s_rollout_epoch s with
  | None => set_rollout_epoch s (pr_rollout_epoch r)
  | Some _ => s
  end.

(** The details of the overflow a recorded step is answered with. *)
Definition output_overflow_payload (s : Session) (p : Prepared) (r : PreemptibleGenerateResult)
    : list (string * pyval) :=
  let details := match pget (pr_meta r) "context_overflow" with PDict d => d | _ => [] end in
  let prompt_tokens := Z.of_nat (length (input_ids (pr_prompt p))) in
  let output_tokens := Z.of_nat (length (pr_output_ids r)) in
  [("error", PStr "context_overflow"); ("message", PStr "Dressage proxy context window overflow.");
   ("details", PDict (fold_left (fun d kv => dset d (fst kv) (snd kv))
      [("phase", PStr "input_output"); ("context_window", opt_int (cf_context_window cfg));
       ("input_tokens", PInt prompt_tokens); ("output_tokens", PInt output_tokens);
       ("total_tokens", PInt (prompt_tokens + output_tokens)); ("max_tokens", PInt (pr_max_tokens p));
       ("session_id", PStr (SessionManager.session_id s)); ("turn_id", PStr (pr_turn_id p));
       ("last_proxy_step_recorded", PBool true)] details))].

(** From the generation to the arguments of the recording call, and the answer that
    follows it. *)
Definition commit_request (q : ChatRequest) (p : Prepared) (g : generation)
    : SM (StepArgs * outcome Reply) :=
  do! r := sm_try (fun s => generation_outcome s (pr_instance_id p) g) in
  run! sm_try (fun s => check_versions s r) ;;
  run! sm_modify (set_epoch_once r) ;;
  do! parsed := sm_try (fun s => parse_response s q p r) in
  let '(reply, metadata) := parsed in
  let full_messages := q_messages q ++
    [_assistant_message (rp_content reply) (rp_tool_calls reply) (rp_reasoning reply)] in
  let prompt := input_ids (pr_prompt p) in
  let rec := recorded r prompt in
  do! normalized := sm_try (fun _ => uncaught (normalize_template_messages full_messages)) in
  let rendered := match render_messages template normalized (q_tools q) false with
                  | Ok t => t
                  | Raise _ => ""
                  end in
  let cp := if bool_decide (cf_mode cfg = tito)
            then Some (_build_concat_step_payload (context_delta_ids (pr_prompt p)) (rc_ids rec)
                         (rc_logprobs rec) (rc_versions rec)
                         (tito_incremental_tokenization_failed (pr_prompt p)))
            else None in
  do! snapshot_ids := sm_try (fun _ =>
    if bool_decide (cf_mode cfg = tito) then Done (prompt ++ rc_ids rec)
    else uncaught (tokenize_messages template_ids normalized (q_tools q) false)) in
  do! target := sm_get (fun s => experts_target s p (length (default [] (cp_token_ids <$> cp)))
                                   (length (rc_all_ids rec))) in
  do! experts := sm_try (fun _ => uncaught (canonicalize_routed_experts b64decode (fst target) (snd target)
                                     (cf_routed_experts_dtype cfg) (pr_routed r))) in
  do! step_id := (fun s => let '(s', i) := next_step_id s in (s', Done i)) in
  do! lineage_index := sm_try (fun s => match dget (lineages s) (r_lineage_id (pr_route p)) with
                                        | Some l => Done (l_index l)
                                        | None => Fail (Uncaught (KeyError (r_lineage_id (pr_route p))))
                                        end) in
  fun s =>
    (s, Done (step_args q p r reply metadata normalized full_messages rendered snapshot_ids cp experts
                step_id lineage_index,
              if output_overflow r then Fail (JSONResponse (output_overflow_payload s p r) 413)
              else Done reply)).

(** ** Recording *)

Context {T : Type} `{KV T}.
Variable runtime : option TransferQueueRuntime.

(** [_record_step]: the manager, the store and the record ([None]: the session is gone).
    The held object's incarnation is set before the write. *)
Definition _record_step (m : SessionManager) (t : T) (s : Session) (a : StepArgs) (env : Env)
    : SessionManager * T * result (option StepRecord) :=
  let sid := SessionManager.session_id s in
  match runtime with
  | None => let '(m', st) := record_step m sid a (ev_clock env) (ev_clock env) in (m', t, Ok st)
  | Some rt =>
      let s := match SessionManager.incarnation_id s with
               | None => set_incarnation s (ev_incarnation env)
               | Some _ => s
               end in
      let m := put_held m s in
      match offload_step rt t sid (default "" (SessionManager.incarnation_id s)) (length (steps s)) a
              (ev_clock env) (ev_put env) with
      | Raise e => (m, t, Raise e)
      | Ok (t', refs) =>
          match record_step m sid (with_refs a refs) (ev_clock env) (ev_clock env) with
          | (m', Some st) => (m', t', Ok (Some st))
          | (m', None) => (m', clear_refs t' (map snd refs),
                           Raise (RuntimeError "session disappeared while recording trajectory step"))
          end
      end
  end.

(** ** The pieces of a request *)

Definition finalized_409 {A} (r : result A) : outcome A :=
  match r with
  | Ok a => Done a
  | Raise (SessionFinalizedError msg) => Fail (HTTPException 409 (PStr msg))
  | Raise e => Fail (Uncaught e)
  end.

(** Up to [async with session.request_lock]: the object whose lock is awaited. *)
Definition enter_request (m : SessionManager) (q : ChatRequest) (env : Env)
    : SessionManager * outcome Session :=
  let '(requested_sid, requested_iid, _) := _runtime_ids_from_request (q_header q) (q_body q) in
  let now := ev_clock env in
  let '(m, got) := get_or_create_session m requested_sid requested_iid (ev_uuid1 env) (ev_uuid2 env) now now now in
  (m, try! sc := finalized_409 got in Done (fst sc)).

Definition release (m : SessionManager) (s : Session) : SessionManager :=
  put_held m (set_locked (get_held m s) false).

(** From the lock to the generation. *)
Definition acquire_request (m : SessionManager) (q : ChatRequest) (env : Env) (s0 : Session)
    : SessionManager * outcome (Session * Prepared) :=
  let s := set_locked (get_held m s0) true in
  let '(m, active) := ensure_session_active (put_held m s) (SessionManager.session_id s) (oid s) (ev_clock env) in
  match finalized_409 active with
  | Fail f => (release m s, Fail f)
  | Done _ =>
      match begin_request q env (get_held m s) with
      | (s1, Fail f) => (release (put_held m s1) s1, Fail f)
      | (s1, Done p) => (put_held m s1, Done (s1, p))
      end
  end.

(** From the end of the generation to the answer. *)
Definition finish_request (m : SessionManager) (t : T) (q : ChatRequest) (env : Env) (s1 : Session)
    (p : Prepared) : SessionManager * T * outcome Reply :=
  match commit_request q p (ev_generate env (pr_gen_args p)) (get_held m s1) with
  | (s2, Fail f) => (release (put_held m s2) s2, t, Fail f)
  | (s2, Done (a, reply)) =>
      let '(m, t, r) := _record_step (put_held m s2) t s2 a env in
      (release m s2, t, match r with Ok _ => reply | Raise e => Fail (Uncaught e) end)
  end.

(** ** The proxy

    Requests are coroutines on one event loop: between two awaits one runs alone.  A
    request waits for its session's lock, then for its generation; the awaits of hooks,
    parsers, lease settlement and the transfer queue are counted with the generation's. *)
Inductive task : Type :=
| Waiting (q : ChatRequest) (env : Env) (held : Session)
| Generating (q : ChatRequest) (env : Env) (held : Session) (p : Prepared)
| Answered (o : outcome Reply).

Record Proxy : Type := { px_manager : SessionManager; px_store : T; px_tasks : list task }.

Inductive px_event : Type :=
| Arrive (q : ChatRequest) (env : Env)
| Acquire (i : nat)
| Finish (i : nat)
| Endpoint (op : sm_op).                   (* an operation of another endpoint *)

(** What the other endpoints do to the sessions: finalize holds the request lock, and so does
    discard when there is a transfer queue; without one it does not wait. *)
Definition endpoint_op (m : SessionManager) (op : sm_op) : bool :=
  match op with
  | OResult _ _ | OCount _ => true
  | ODiscard sid => match runtime, dget (_sessions m) sid with
                    | Some _, Some s => negb (request_locked s)
                    | _, _ => true
                    end
  | OFinalize sid _ _ => match dget (_sessions m) sid with
                         | Some s => negb (request_locked s)
                         | None => true
                         end
  | _ => false
  end.

Definition px_set (w : Proxy) (m : SessionManager) (t : T) (i : nat) (k : task) : Proxy :=
  {| px_manager := m; px_store := t; px_tasks := <[i := k]> (px_tasks w) |}.

Definition px_step (w : Proxy) (e : px_event) : option Proxy :=
  match e with
  | Arrive q env =>
      let '(m, r) := enter_request (px_manager w) q env in
      Some {| px_manager := m; px_store := px_store w;
              px_tasks := px_tasks w ++ [match r with
                                         | Done s => Waiting q env s
                                         | Fail f => Answered (Fail f)
                                         end] |}
  | Acquire i =>
      match px_tasks w !! i with
      | Some (Waiting q env s0) =>
          if request_locked (get_held (px_manager w) s0) then None
          else let '(m, r) := acquire_request (px_manager w) q env s0 in
               Some (px_set w m (px_store w) i (match r with
                                                | Done (s1, p) => Generating q env s1 p
                                                | Fail f => Answered (Fail f)
                                                end))
      | _ => None
      end
  | Finish i =>
      match px_tasks w !! i with
      | Some (Generating q env s1 p) =>
          let '(m, t, o) := finish_request (px_manager w) (px_store w) q env s1 p in
          Some (px_set w m t i (Answered o))
      | _ => None
      end
  | Endpoint op =>
      if endpoint_op (px_manager w) op
      then Some {| px_manager := sm_step (px_manager w) op; px_store := px_store w;
                   px_tasks := px_tasks w |}
      else None
  end.

Fixpoint px_run (w : Proxy) (es : list px_event) : option Proxy :=
  match es with
  | [] => Some w
  | e :: es => w' ← px_step w e; px_run w' es
  end.

Definition px_init (timeout : float) (t : T) : Proxy :=
  {| px_manager := SessionManager__init__ timeout; px_store := t; px_tasks := [] |}.
End Pipeline.
