(* ===== verification/Hooks.v ===== *)
(** * Tool-call hooks ([dressage/proxy/tool_call_hooks.py])

    The registry and the chain [ToolCallHookChain]: idempotent dispatch, ordering, and
    what a failing hook does.  A hook's own code, the import of a hook module and the
    monotonic clock are parameters: a call of a hook ends in one of three ways, decided by
    the stage and the context it is given. *)

From S2P Require Import Prelude.
From S2P Require Import PyFloat.
From S2P Require Import PyVal.
From S2P Require Import Transport.
From S2P Require Import Chat.
From S2P Require Import Pipeline.
From Stdlib Require Import Ascii.

Local Open Scope string_scope.
Local Open Scope list_scope.
Local Open Scope py_scope.

Definition DEFAULT_KEY_TTL_SECONDS : float := f_of_Z 3600.
Definition _PRUNE_INTERVAL_SECONDS : float := f_of_Z 300.
Definition _PRUNE_MAX_KEYS_PER_ROUND : Z := 10000.

(** ** Hooks *)

(** How a call of a hook ends: [asyncio.TimeoutError], its own or the dispatcher's, is
    told from other exceptions. *)
Inductive call_end : Type :=
| CallReturns
| CallTimesOut (type message : string)
| CallRaises (type message : string).

Record ToolCallHook : Type := {
  hk_class : nat;                          (* identity of the class *)
  hk_type_name : string;                   (* type(hook).__name__ *)
  hk_qualname : string;
  hk_module : string;
  hk_name : option string;                 (* [None]: not a string *)
  hk_required : bool;
  hk_order : Z;
  hk_applies_to : ToolCallContext -> result bool;
  hk_call : string -> ToolCallContext -> call_end }.

(** ** The registry *)

Definition registry : Type := list (string * ToolCallHook).

Definition register_tool_call_hook (r : registry) (h : ToolCallHook) : result registry :=
  match hk_name h with
  | Some name =>
      let key := strip name in
      if String.eqb key "" then Raise (ValueError "must define a non-empty 'name'")
      else match dget r key with
           | Some existing =>
               if Nat.eqb (hk_class existing) (hk_class h) then Ok (dset r key h)
               else if negb (String.eqb (hk_qualname existing) (hk_qualname h))
                    then Raise (ValueError "tool-call hook name is already registered by ")
                    else Ok r
           | None => Ok (dset r key h)
           end
  | None => Raise (ValueError "must define a non-empty 'name'")
  end.

(** [str(value).split()] *)
Fixpoint split_blank (s cur : string) : list string :=
  match s with
  | EmptyString => if String.eqb cur "" then [] else [cur]
  | String c s' =>
      if py_space c
      then (if String.eqb cur "" then split_blank s' "" else cur :: split_blank s' "")
      else split_blank s' (cur +:+ String c "")
  end.

Fixpoint has_char (p : ascii -> bool) (s : string) : bool :=
  match s with EmptyString => false | String c s' => p c || has_char p s' end.

(** [":" in name or "/" in name or "\\" in name] *)
Definition is_reference (name : string) : bool :=
  has_char (fun c => bool_decide (c = ":"%char) || bool_decide (c = "/"%char)
                     || bool_decide (c = "092"%char)) name.

Definition hook_names (spec : TransferValues) : list string :=
  match spec with
  | TVNone => []
  | TVText s => split_words s ""
  | TVList l => concat (map (fun v => split_blank v "") l)
  end.

(** [import_reference] loads a module, which may register its hooks. *)
Definition load_one (import_reference : registry -> string -> result (registry * ToolCallHook))
    (r : registry) (name : string) : result (registry * ToolCallHook) :=
  if is_reference name then import_reference r name
  else match dget r name with
       | Some h => Ok (r, h)
       | None => Raise (ValueError "unknown tool-call hook ")
       end.

Fixpoint load_all (import_reference : registry -> string -> result (registry * ToolCallHook))
    (r : registry) (names : list string) : result (registry * list ToolCallHook) :=
  match names with
  | [] => Ok (r, [])
  | name :: rest =>
      let! rh := load_one import_reference r name in
      let! rhs := load_all import_reference (fst rh) rest in
      Ok (fst rhs, snd rh :: snd rhs)
  end.

Definition load_tool_call_hooks import_reference (r : registry) (spec : TransferValues) :=
  load_all import_reference r (hook_names spec).

(** ** The chain *)

Record ToolCallHookChain : Type := {
  _hooks : list ToolCallHook;
  _before_timeout : option float;
  _key_ttl_seconds : option float;
  _seen_keys : list (string * list (string * float));
  _last_prune : float }.

Definition ToolCallHookChain__init__ (hooks : list ToolCallHook) (before_timeout ttl : option float)
    (now : float) : ToolCallHookChain :=
  {| _hooks := sort_by (fun a b => (hk_order a <=? hk_order b)%Z) hooks;
     _before_timeout := before_timeout; _key_ttl_seconds := ttl; _seen_keys := [];
     _last_prune := now |}.

Definition build_tool_call_hook_chain (hooks : list ToolCallHook) (before_timeout ttl : option float)
    (now : float) : option ToolCallHookChain :=
  match hooks with [] => None | _ => Some (ToolCallHookChain__init__ hooks before_timeout ttl now) end.

Definition with_seen (c : ToolCallHookChain) (seen : list (string * list (string * float)))
    (last_prune : float) : ToolCallHookChain :=
  {| _hooks := _hooks c; _before_timeout := _before_timeout c; _key_ttl_seconds := _key_ttl_seconds c;
     _seen_keys := seen; _last_prune := last_prune |}.

Definition purge_session (c : ToolCallHookChain) (sid : string) : ToolCallHookChain * nat :=
  (with_seen c (dpop (_seen_keys c) sid) (_last_prune c), length (dget_def [] (_seen_keys c) sid)).

(** [now - claimed_at >= ttl] *)
Definition _expired (c : ToolCallHookChain) (claimed_at now : float) : bool :=
  match _key_ttl_seconds c with
  | None => false
  | Some ttl => fleb ttl (fsub now claimed_at)
  end.

Section Prune.
Variable expired : float -> bool.
Variable max_keys : Z.

(** The inner loop over a snapshot of the session's keys; [keys] is the live dictionary. *)
Fixpoint prune_keys (scanned : Z) (pending keys : list (string * float)) : Z * list (string * float) :=
  match pending with
  | [] => (scanned, keys)
  | (k, t) :: rest =>
      if (max_keys <=? scanned)%Z then (scanned, keys)
      else prune_keys (scanned + 1) rest (if expired t then dpop keys k else keys)
  end.

Fixpoint prune_sessions (scanned : Z) (pending seen : list (string * list (string * float)))
    : list (string * list (string * float)) :=
  match pending with
  | [] => seen
  | (sid, keys) :: rest =>
      if (max_keys <=? scanned)%Z then seen
      else let '(scanned, keys) := prune_keys scanned keys keys in
           prune_sessions scanned rest (match keys with [] => dpop seen sid | _ => dset seen sid keys end)
  end.
End Prune.

Definition _maybe_prune (c : ToolCallHookChain) (now : float) : ToolCallHookChain :=
  match _key_ttl_seconds c with
  | None => c
  | Some _ =>
      if fltb (fsub now (_last_prune c)) _PRUNE_INTERVAL_SECONDS then c
      else with_seen c (prune_sessions (fun t => _expired c t now) _PRUNE_MAX_KEYS_PER_ROUND 0
                          (_seen_keys c) (_seen_keys c)) now
  end.

Definition _claim_idempotency (c : ToolCallHookChain) (sid key : string) (now : float)
    : ToolCallHookChain * bool :=
  if String.eqb key "" then (c, true)
  else
    let c := _maybe_prune c now in
    let keys := dget_def [] (_seen_keys c) sid in
    match dget keys key with
    | Some claimed_at =>
        if negb (_expired c claimed_at now) then (with_seen c (dset (_seen_keys c) sid keys) (_last_prune c), false)
        else (with_seen c (dset (_seen_keys c) sid (dset keys key now)) (_last_prune c), true)
    | None => (with_seen c (dset (_seen_keys c) sid (dset keys key now)) (_last_prune c), true)
    end.

(** ** Running hooks *)

Definition _applicable (c : ToolCallHookChain) (ctx : ToolCallContext) : list ToolCallHook :=
  List.filter (fun h => match hk_applies_to h ctx with Ok b => b | Raise _ => false end) (_hooks c).

Definition or_name (h : ToolCallHook) : string :=
  match hk_name h with Some (String _ _ as n) => n | _ => hk_type_name h end.

Definition failure_record (c : ToolCallHookChain) (h : ToolCallHook) (stage type message : string)
    (timed_out : bool) : pyval :=
  PDict ([("hook", PStr (or_name h)); ("stage", PStr stage); ("required", PBool (hk_required h));
          ("error", PDict [("type", PStr type);
                           ("message", PStr (if String.eqb message "" then "timeout" else message))])]
         ++ (if timed_out
             then ("timed_out", PBool true)
                  :: match _before_timeout c with Some t => [("timeout_seconds", PFloat t)] | None => [] end
             else [])).

(** [ctx.stage_metadata.setdefault("tool_call_hook_failures", []).append(record)] *)
Definition _record_failure (metadata : list (string * pyval)) (record : pyval)
    : result (list (string * pyval)) :=
  match dget metadata "tool_call_hook_failures" with
  | None => Ok (dset metadata "tool_call_hook_failures" (PList [record]))
  | Some (PList l) => Ok (dset metadata "tool_call_hook_failures" (PList (l ++ [record])))
  | Some _ => Raise (AttributeError "object has no attribute 'append'")
  end.

Definition set_metadata (ctx : ToolCallContext) (m : list (string * pyval)) : ToolCallContext :=
  {| tc_instance_id := tc_instance_id ctx; tc_session_id := tc_session_id ctx; tc_turn_id := tc_turn_id ctx;
     tc_step_index := tc_step_index ctx; tc_sandbox_id := tc_sandbox_id ctx;
     tc_tool_calls := tc_tool_calls ctx; tc_idempotency_key := tc_idempotency_key ctx;
     tc_stage_metadata := m |}.

(** One hook: the metadata after it, or the error that aborts the request. *)
Definition _run_one (c : ToolCallHookChain) (h : ToolCallHook) (stage : string) (ctx : ToolCallContext)
    : hook_result :=
  let fail type message timed_out text :=
    match _record_failure (tc_stage_metadata ctx) (failure_record c h stage type message timed_out) with
    | Raise e => HookRaised e
    | Ok m => if hk_required h then HookError text else HookOk m
    end in
  match hk_call h stage ctx with
  | CallReturns => HookOk (tc_stage_metadata ctx)
  | CallTimesOut type message => fail type message true "required tool-call hook timed out"
  | CallRaises type message => fail type message false "required tool-call hook failed"
  end.

(** The loop: the hooks that were called, and how it ends. *)
Fixpoint run_hooks (c : ToolCallHookChain) (stage : string) (ctx : ToolCallContext)
    (hooks : list ToolCallHook) : list ToolCallHook * hook_result :=
  match hooks with
  | [] => ([], HookOk (tc_stage_metadata ctx))
  | h :: rest =>
      match _run_one c h stage ctx with
      | HookOk m => let '(called, r) := run_hooks c stage (set_metadata ctx m) rest in (h :: called, r)
      | r => ([h], r)
      end
  end.

Definition dispatch (c : ToolCallHookChain) (stage : string) (ctx : ToolCallContext) (now : float)
    (order : list ToolCallHook -> list ToolCallHook)
    : ToolCallHookChain * list ToolCallHook * hook_result :=
  let '(c, claimed) := _claim_idempotency c (tc_session_id ctx) (tc_idempotency_key ctx) now in
  if negb claimed then (c, [], HookOk (tc_stage_metadata ctx))
  else let '(called, r) := run_hooks c stage ctx (order (_applicable c ctx)) in (c, called, r).

Definition run_before (c : ToolCallHookChain) (ctx : ToolCallContext) (now : float) :=
  dispatch c "before" ctx now (fun l => l).
Definition run_after (c : ToolCallHookChain) (ctx : ToolCallContext) (now : float) :=
  dispatch c "after" ctx now (fun l => rev l).

(** ** Idempotency keys *)

Record chain_ok (c : ToolCallHookChain) : Prop := {
  ck_sessions : NoDup (dkeys (_seen_keys c));
  ck_keys : forall sid keys, dget (_seen_keys c) sid = Some keys -> NoDup (dkeys keys) }.

(** The key was claimed at [t]. *)
Definition claimed (c : ToolCallHookChain) (sid key : string) (t : float) : Prop :=
  exists keys, dget (_seen_keys c) sid = Some keys /\ dget keys key = Some t.

Section PruneFacts.
Variable expired : float -> bool.
Variable max_keys : Z.

Lemma prune_keys_nodup pending : forall n keys, NoDup (dkeys keys) ->
  NoDup (dkeys (snd (prune_keys expired max_keys n pending keys))).
Proof using.
  induction pending as [|[k t] rest IH]; intros n keys N; [done|]. cbn [prune_keys].
  destruct (_ <=? _)%Z; [done|]. apply IH. destruct (expired t); [by apply dpop_NoDup|done].
Qed.

Lemma prune_keys_get k0 t0 pending : forall n keys, dget keys k0 = Some t0 -> expired t0 = false ->
  (forall t, (k0, t) ∈ pending -> t = t0) ->
  dget (snd (prune_keys expired max_keys n pending keys)) k0 = Some t0.
Proof using.
  induction pending as [|[k t] rest IH]; intros n keys E X P; [done|]. cbn [prune_keys].
  destruct (_ <=? _)%Z; [done|]. apply IH; [|done|intros t' I; apply P; by right].
  destruct (expired t) eqn:Xt; [|done]. destruct (decide (k = k0)) as [->|D]; [|by rewrite dget_dpop_ne].
  rewrite (P t) in Xt by left. congruence.
Qed.

Lemma prune_sessions_ok pending : forall n seen, NoDup (dkeys seen) ->
  (forall sid keys, dget seen sid = Some keys -> NoDup (dkeys keys)) ->
  (forall sid keys, (sid, keys) ∈ pending -> NoDup (dkeys keys)) ->
  let seen' := prune_sessions expired max_keys n pending seen in
  NoDup (dkeys seen') /\ forall sid keys, dget seen' sid = Some keys -> NoDup (dkeys keys).
Proof using.
  induction pending as [|[s ks] rest IH]; intros n seen N K P; [done|]. cbn [prune_sessions].
  destruct (_ <=? _)%Z; [done|]. destruct (prune_keys _ _ n ks ks) as [n' ks'] eqn:Q.
  pose proof (prune_keys_nodup ks n ks (P s ks ltac:(by left))) as Nk. rewrite Q in Nk. cbn [snd] in Nk.
  apply IH; [| |intros; eapply P; by right].
  - destruct ks'; [by apply dpop_NoDup|by apply dset_NoDup].
  - intros sid keys. destruct ks' as [|x ks''].
    + rewrite dget_dpop by done. case_decide; [done|]. by apply K.
    + rewrite dget_dset. case_decide; [by intros [= <-]|]. by apply K.
Qed.

Lemma prune_sessions_get s0 k0 t0 pending : expired t0 = false -> forall n seen,
  (exists ks, dget seen s0 = Some ks /\ dget ks k0 = Some t0) ->
  (forall ks, (s0, ks) ∈ pending -> NoDup (dkeys ks) /\ dget ks k0 = Some t0) ->
  exists ks, dget (prune_sessions expired max_keys n pending seen) s0 = Some ks /\ dget ks k0 = Some t0.
Proof using.
  intros X. induction pending as [|[s ks] rest IH]; intros n seen E P; [done|]. cbn [prune_sessions].
  destruct (_ <=? _)%Z; [done|]. destruct (prune_keys _ _ n ks ks) as [n' ks'] eqn:Q.
  apply IH; [|intros; apply P; by right]. destruct (decide (s = s0)) as [->|D].
  - destruct (P ks ltac:(by left)) as [N G].
    assert (G' : dget ks' k0 = Some t0).
    { replace ks' with (snd (prune_keys expired max_keys n ks ks)) by by rewrite Q.
      apply prune_keys_get; [done|done|]. intros t I. apply (dget_NoDup_elem _ _ _ N) in I. congruence. }
    destruct ks' as [|x ks'']; [done|]. exists (x :: ks''). by rewrite dget_dset_eq.
  - destruct E as (ks0 & E & G). exists ks0. split; [|done].
    destruct ks'; [by rewrite dget_dpop_ne|by rewrite dget_dset_ne].
Qed.
End PruneFacts.

Lemma maybe_prune_ok c now : chain_ok c -> chain_ok (_maybe_prune c now).
Proof.
  intros [N K]. unfold _maybe_prune. destruct (_key_ttl_seconds c); [|by split].
  destruct (fltb _ _); [by split|].
  destruct (prune_sessions_ok (fun t => _expired c t now) _PRUNE_MAX_KEYS_PER_ROUND (_seen_keys c) 0 (_seen_keys c) N K)
    as [N' K']; [|by split].
  intros sid keys I. apply (K sid), dget_NoDup_elem; done.
Qed.

Lemma maybe_prune_claimed c now sid key t : chain_ok c -> claimed c sid key t -> _expired c t now = false ->
  claimed (_maybe_prune c now) sid key t.
Proof.
  intros [N K] C X. unfold _maybe_prune. destruct (_key_ttl_seconds c); [|done].
  destruct (fltb _ _); [done|]. unfold claimed. cbn [_seen_keys with_seen].
  apply prune_sessions_get; [done|done|]. intros ks I. apply (dget_NoDup_elem _ _ _ N) in I.
  split; [by eapply K|]. destruct C as (ks' & E & G). congruence.
Qed.

Lemma maybe_prune_frame c now : _key_ttl_seconds (_maybe_prune c now) = _key_ttl_seconds c /\
  _hooks (_maybe_prune c now) = _hooks c /\ _before_timeout (_maybe_prune c now) = _before_timeout c.
Proof. unfold _maybe_prune. destruct (_key_ttl_seconds c) eqn:E; [|done]. by destruct (fltb _ _). Qed.

Lemma expired_ttl c c' t now : _key_ttl_seconds c' = _key_ttl_seconds c -> _expired c' t now = _expired c t now.
Proof. unfold _expired. by intros ->. Qed.

Lemma claim_frame c sid key now : _key_ttl_seconds (fst (_claim_idempotency c sid key now)) = _key_ttl_seconds c /\
  _hooks (fst (_claim_idempotency c sid key now)) = _hooks c.
Proof.
  destruct (maybe_prune_frame c now) as (A & B & _). unfold _claim_idempotency. destruct (String.eqb key ""); [done|].
  destruct (dget _ key); [destruct (negb _)|]; done.
Qed.

Lemma claim_ok c sid key now : chain_ok c -> chain_ok (fst (_claim_idempotency c sid key now)).
Proof.
  intros O. unfold _claim_idempotency. destruct (String.eqb key ""); [done|].
  apply (maybe_prune_ok c now) in O as [N K]. set (c' := _maybe_prune c now) in *.
  assert (Nk : NoDup (dkeys (dget_def [] (_seen_keys c') sid))).
  { unfold dget_def. destruct (dget (_seen_keys c') sid) eqn:E; [by eapply K|constructor]. }
  assert (Q : forall d, NoDup (dkeys d) -> chain_ok (with_seen c' (dset (_seen_keys c') sid d) (_last_prune c'))).
  { intros d Nd. split; cbn [_seen_keys with_seen]; [by apply dset_NoDup|]. intros s ks. rewrite dget_dset.
    case_decide; [by intros [= <-]|by apply K]. }
  destruct (dget _ key); [destruct (negb _)|]; apply Q; try done; by apply dset_NoDup.
Qed.

(** What a claim answers: refused when the key was claimed and has not expired. *)
Lemma claim_refused c sid key now t : chain_ok c -> key <> "" -> claimed c sid key t -> _expired c t now = false ->
  snd (_claim_idempotency c sid key now) = false.
Proof.
  intros O K C X. apply (maybe_prune_claimed c now) in C as (ks & E & G); [|done|done].
  unfold _claim_idempotency. rewrite (proj2 (String.eqb_neq _ _) K). unfold dget_def. rewrite E, G.
  rewrite (expired_ttl c) by apply maybe_prune_frame. by rewrite X.
Qed.

Lemma claim_granted c sid key now c' : key <> "" -> _claim_idempotency c sid key now = (c', true) ->
  claimed c' sid key now.
Proof.
  intros K. unfold _claim_idempotency. rewrite (proj2 (String.eqb_neq _ _) K).
  destruct (dget _ key); [destruct (negb _); [done|]|]; intros [= <-];
    (eexists; cbn [_seen_keys with_seen]; rewrite dget_dset_eq; split; [done|by rewrite dget_dset_eq]).
Qed.

(** Another claim leaves it, one of the same key included. *)
Lemma claim_keeps c sid key t sid' key' now : chain_ok c -> claimed c sid key t -> _expired c t now = false ->
  claimed (fst (_claim_idempotency c sid' key' now)) sid key t.
Proof.
  intros O C X. unfold _claim_idempotency. destruct (String.eqb key' ""); [done|].
  apply (maybe_prune_claimed c now) in C as (ks & E & G); [|done|done].
  assert (X' : _expired (_maybe_prune c now) t now = false)
    by (rewrite (expired_ttl c) by apply maybe_prune_frame; done).
  set (c1 := _maybe_prune c now) in *.
  assert (Q : forall d, (sid' = sid -> dget d key = Some t) ->
    claimed (with_seen c1 (dset (_seen_keys c1) sid' d) (_last_prune c1)) sid key t).
  { intros d D. unfold claimed. cbn [_seen_keys with_seen]. rewrite dget_dset. case_decide as Hs; [|by exists ks].
    exists d. split; [done|by apply D]. }
  assert (Ks : sid' = sid -> dget_def [] (_seen_keys c1) sid' = ks) by (intros ->; unfold dget_def; by rewrite E).
  destruct (dget (dget_def [] (_seen_keys c1) sid') key') as [t'|] eqn:G'; [destruct (negb (_expired c1 t' now)) eqn:Xt|];
    cbn [fst]; apply Q; intros S; rewrite (Ks S) in *; try done.
  - destruct (decide (key' = key)) as [->|D]; [|by rewrite dget_dset_ne].
    rewrite G in G'. injection G' as <-. by rewrite X' in Xt.
  - destruct (decide (key' = key)) as [->|D]; [congruence|by rewrite dget_dset_ne].
Qed.

(** ** Sequences of dispatches *)

Inductive hk_op : Type :=
| HkClaim (sid key : string) (now : float)
| HkPurge (sid : string).

Definition hk_step (c : ToolCallHookChain) (op : hk_op) : ToolCallHookChain :=
  match op with
  | HkClaim sid key now => fst (_claim_idempotency c sid key now)
  | HkPurge sid => fst (purge_session c sid)
  end.

Definition hk_run (c : ToolCallHookChain) (ops : list hk_op) : ToolCallHookChain := fold_left hk_step ops c.

(** The operation neither purges the session nor comes after the key's expiry. *)
Definition hk_keeps (c : ToolCallHookChain) (sid : string) (t : float) (op : hk_op) : Prop :=
  match op with
  | HkClaim _ _ now => _expired c t now = false
  | HkPurge sid' => sid' <> sid
  end.

Lemma hk_step_ok c op : chain_ok c -> chain_ok (hk_step c op) /\ _key_ttl_seconds (hk_step c op) = _key_ttl_seconds c.
Proof.
  intros O. destruct op as [sid key now|sid]; simpl.
  - split; [by apply claim_ok|apply claim_frame].
  - destruct O as [N K]. split; [|done]. split; cbn [_seen_keys with_seen]; [by apply dpop_NoDup|].
    intros s ks. rewrite dget_dpop by done. case_decide; [done|by apply K].
Qed.

Lemma hk_run_claimed ops : forall c sid key t, chain_ok c -> claimed c sid key t -> Forall (hk_keeps c sid t) ops ->
  chain_ok (hk_run c ops) /\ claimed (hk_run c ops) sid key t /\ _key_ttl_seconds (hk_run c ops) = _key_ttl_seconds c.
Proof.
  induction ops as [|op ops IH]; intros c sid key t O C F; [done|]. inversion_clear F as [|? ? K F'].
  destruct (hk_step_ok c op O) as [O' T]. cbn [hk_run fold_left]. rewrite <- T. apply IH; [done| |].
  - destruct op as [s k now|s]; simpl in *; [by apply claim_keeps|].
    destruct C as (ks & E & G). exists ks. split; [|done]. cbn [_seen_keys with_seen]. by rewrite dget_dpop_ne.
  - eapply Forall_impl; [exact F'|]. intros [s k now|s]; simpl; [|done]. intros Xs. by rewrite (expired_ttl c).
Qed.

(** A tool call is dispatched once.  After a dispatch of a key is admitted, every
    later dispatch of the same key of the same session is refused, whatever dispatches
    (with the pruning they cause) and purges of other sessions come between, until the
    session is purged or the key's time to live is over. *)
Theorem hook_dispatched_once c sid key t c1 ops now :
  chain_ok c -> key <> "" -> _claim_idempotency c sid key t = (c1, true) ->
  Forall (hk_keeps c sid t) ops -> _expired c t now = false ->
  snd (_claim_idempotency (hk_run c1 ops) sid key now) = false.
Proof.
  intros O K E F X. pose proof (claim_ok c sid key t O) as O1. pose proof (claim_frame c sid key t) as [T1 _].
  rewrite E in O1, T1. cbn [fst] in *.
  destruct (hk_run_claimed ops c1 sid key t O1 (claim_granted _ _ _ _ _ K E)) as (O2 & C2 & T2).
  { eapply Forall_impl; [exact F|]. intros [s k n|s]; simpl; [|done]. intros Xs. by rewrite (expired_ttl c). }
  eapply claim_refused; [done|done|exact C2|]. rewrite (expired_ttl c) by congruence. done.
Qed.

(** ** Dispatch *)

Lemma run_hooks_spec c stage hooks : forall ctx called r, run_hooks c stage ctx hooks = (called, r) ->
  exists rest, hooks = called ++ rest /\
  match r with
  | HookOk _ => rest = []
  | HookError _ => exists before h, called = before ++ [h] /\ hk_required h = true /\
                     Forall (fun x => hk_required x = true -> exists cx, hk_call x stage cx = CallReturns) before
  | HookRaised _ => called <> []
  end.
Proof.
  induction hooks as [|h hooks IH]; intros ctx called r; cbn [run_hooks]; [by intros [= <- <-]; exists []|].
  destruct (_run_one c h stage ctx) as [m|text|e] eqn:E.
  - destruct (run_hooks c stage (set_metadata ctx m) hooks) as [cl r'] eqn:R. intros [= <- <-].
    destruct (IH _ _ _ R) as (rest & -> & P). exists rest. split; [done|]. destruct r'; [done| |done].
    destruct P as (before & x & -> & Q & F). exists (h :: before), x. split; [done|]. split; [done|].
    constructor; [|done]. intros Hr. unfold _run_one in E. destruct (hk_call h stage ctx) eqn:Hc; [by exists ctx|..];
      rewrite Hr in E; by destruct (_record_failure _ _).
  - intros [= <- <-]. exists hooks. split; [done|]. exists [], h. split; [done|]. split; [|constructor].
    unfold _run_one in E. destruct (hk_call h stage ctx); [done|..];
      destruct (_record_failure _ _); try done; by destruct (hk_required h).
  - intros [= <- <-]. by exists hooks.
Qed.

Lemma applicable_sorted hooks bt ttl t0 c ctx : _hooks c = _hooks (ToolCallHookChain__init__ hooks bt ttl t0) ->
  StronglySorted Z.le (map hk_order (_applicable c ctx)).
Proof.
  intros E. unfold _applicable. rewrite E. cbn [_hooks ToolCallHookChain__init__].
  assert (S : StronglySorted (fun a b => (hk_order a <= hk_order b)%Z) (sort_by (fun a b => (hk_order a <=? hk_order b)%Z) hooks)).
  { apply (sort_by_key_sorted _ hk_order); intros x y Hxy; lia. }
  induction S as [|h l S IH F]; [constructor|]. cbn [List.filter].
  match goal with |- context [if ?b then _ else _] => destruct b end; [|done]. cbn [map]. constructor; [done|].
  apply Forall_map, Forall_forall. intros x I. apply list_elem_of_In, List.filter_In in I as [I _].
  apply list_elem_of_In in I. by apply (proj1 (Forall_forall _ _) F x).
Qed.

(** Dispatch runs hooks in order and stops only where it must.  A duplicate dispatch
    runs nothing and changes no metadata.  Otherwise the hooks that run are a prefix of
    the applicable ones, in ascending [order] before a call and in exactly the reverse of
    that after it; when the dispatch succeeds all of them ran, and when it is refused with
    a hook error the last one that ran is required and no required one failed before. *)
Theorem hook_dispatch_order hooks bt ttl t0 c ctx now after c' called r :
  _hooks c = _hooks (ToolCallHookChain__init__ hooks bt ttl t0) ->
  (if after : bool then run_after c ctx now else run_before c ctx now) = (c', called, r) ->
  let stage := if after then "after" else "before" in
  let ascending := _applicable c ctx in
  let all := if after then rev ascending else ascending in
  StronglySorted Z.le (map hk_order ascending) /\
  if snd (_claim_idempotency c (tc_session_id ctx) (tc_idempotency_key ctx) now)
  then exists rest, all = called ++ rest /\
       match r with
       | HookOk _ => called = all
       | HookError _ => exists before h, called = before ++ [h] /\ hk_required h = true /\
           Forall (fun x => hk_required x = true -> exists cx, hk_call x stage cx = CallReturns) before
       | HookRaised _ => called <> []
       end
  else called = [] /\ r = HookOk (tc_stage_metadata ctx).
Proof.
  intros E D stage ascending all. split; [by apply (applicable_sorted hooks bt ttl t0)|].
  assert (K : dispatch c stage ctx now (fun l => if after then rev l else l) = (c', called, r)).
  { rewrite <- D. by destruct after. }
  clear D. unfold dispatch in K. pose proof (claim_frame c (tc_session_id ctx) (tc_idempotency_key ctx) now) as [_ Fh].
  destruct (_claim_idempotency c (tc_session_id ctx) (tc_idempotency_key ctx) now) as [c1 ok]. cbn [fst snd] in *.
  destruct ok; cbn [negb] in K; [|by injection K as _ <- <-].
  assert (Ap : _applicable c1 ctx = ascending) by (unfold ascending, _applicable; by rewrite Fh).
  rewrite Ap in K. change (if after then rev ascending else ascending) with all in K.
  destruct (run_hooks c1 stage ctx all) as [cl r'] eqn:R. injection K as _ <- <-.
  destruct (run_hooks_spec _ _ _ _ _ _ R) as (rest & Eq & P). exists rest. split; [done|].
  destruct r'; [|done..]. by rewrite P, app_nil_r in Eq.
Qed.

(** ** Pruning starts over

    [_maybe_prune] says that the next round resumes where the last one stopped.  Every
    round scans from the first key: while the first [max_keys] keys have not expired,
    no round removes anything, however many expired keys follow. *)
Lemma prune_keys_fresh expired max_keys pending : forall n keys, Forall (fun kt => expired (snd kt) = false) pending ->
  snd (prune_keys expired max_keys n pending keys) = keys /\
  ((n + Z.of_nat (length pending) <= max_keys)%Z ->
   fst (prune_keys expired max_keys n pending keys) = (n + Z.of_nat (length pending))%Z).
Proof.
  induction pending as [|[k t] rest IH]; intros n keys F; [simpl; split; [done|lia]|].
  inversion_clear F as [|? ? X F']. cbn [prune_keys length]. simpl in X. destruct (Z.leb_spec max_keys n).
  - split; [done|]. cbn [fst]. lia.
  - rewrite X. destruct (IH (n + 1)%Z keys F') as [A B]. split; [done|]. intros L. rewrite B by lia. lia.
Qed.

Lemma prune_starts_over expired max_keys sid keys rest :
  keys <> [] -> Z.of_nat (length keys) = max_keys -> Forall (fun kt => expired (snd kt) = false) keys ->
  prune_sessions expired max_keys 0 ((sid, keys) :: rest) ((sid, keys) :: rest) = (sid, keys) :: rest.
Proof.
  intros N L F. cbn [prune_sessions]. destruct (Z.leb_spec max_keys 0); [done|].
  destruct (prune_keys_fresh expired max_keys keys 0 keys F) as [A B].
  destruct (prune_keys expired max_keys 0 keys keys) as [n ks]. cbn [fst snd] in *. subst ks. rewrite B by lia.
  destruct keys as [|x ks]; [done|].
  assert (Stop : forall p s, prune_sessions expired max_keys (0 + Z.of_nat (length (x :: ks))) p s = s).
  { intros p s. destruct p as [|[s' k'] p]; [done|]. cbn [prune_sessions]. by rewrite (proj2 (Z.leb_le _ _)) by lia. }
  rewrite Stop. cbn [dset]. by rewrite decide_True.
Qed.

(** ** Witnesses *)

Definition w_hook (name : string) (order : Z) (required : bool) (end_ : call_end) : ToolCallHook :=
  {| hk_class := 0; hk_type_name := "H"; hk_qualname := "H"; hk_module := "m"; hk_name := Some name;
     hk_required := required; hk_order := order; hk_applies_to := fun _ => Ok true;
     hk_call := fun _ _ => end_ |}.

Definition w_hk_hooks : list ToolCallHook :=
  [w_hook "late" 20 false CallReturns; w_hook "net" 10 true (CallRaises "E" "no route");
   w_hook "snap" 5 false (CallTimesOut "T" "")].

Definition w_hk_chain : ToolCallHookChain := ToolCallHookChain__init__ w_hk_hooks (Some (f_of_Z 2)) (Some DEFAULT_KEY_TTL_SECONDS) (f_of_Z 0).

Definition w_hk_ctx : ToolCallContext :=
  {| tc_instance_id := Some "i"; tc_session_id := "s"; tc_turn_id := Some "t"; tc_step_index := 0;
     tc_sandbox_id := "box"; tc_tool_calls := None;
     tc_idempotency_key := build_tool_call_idempotency_key "s" (Some "t") 0 "before"; tc_stage_metadata := [] |}.

(** Ten minutes later, after dispatches of another session and its purge. *)
Lemma hook_dispatched_once_witness :
  snd (_claim_idempotency
         (hk_run (fst (_claim_idempotency w_hk_chain "s" "s:t:0:before" (f_of_Z 1)))
            [HkClaim "o" "o:t:0:before" (f_of_Z 400); HkPurge "o"])
         "s" "s:t:0:before" (f_of_Z 600)) = false.
Proof.
  apply (hook_dispatched_once w_hk_chain "s" "s:t:0:before" (f_of_Z 1)).
  - split; [constructor|]. intros sid keys E. discriminate.
  - discriminate.
  - vm_compute. reflexivity.
  - repeat constructor. discriminate.
  - vm_compute. reflexivity.
Defined.

Lemma hook_dispatch_order_witness :
  let '(_, called, r) := run_before w_hk_chain w_hk_ctx (f_of_Z 1) in
  map hk_name called = [Some "snap"; Some "net"] /\ r = HookError "required tool-call hook failed".
Proof.
  destruct (run_before w_hk_chain w_hk_ctx (f_of_Z 1)) as [[c' called] r] eqn:E.
  destruct (hook_dispatch_order w_hk_hooks (Some (f_of_Z 2)) (Some DEFAULT_KEY_TTL_SECONDS) (f_of_Z 0) w_hk_chain w_hk_ctx (f_of_Z 1)
              false c' called r eq_refl E) as [_ _].
  vm_compute in E. injection E as _ <- <-. split; reflexivity.
Defined.
