(* ===== verification/Lineages.v ===== *)
(** * What the pipeline keeps of a session

    The invariant of a session served by [_chat_completions_pipeline]: in TITO mode the
    tokens a lineage's steps add, joined since the last boundary, are the prompt and the
    response of its latest step.  The rendering cache of the steps is the only thing
    routing changes, so steps are compared up to it ([bare]). *)

From S2P Require Import Prelude.
From S2P Require Import PyFloat.
From S2P Require Import PyVal.
From S2P Require Import Transport.
From S2P Require Import Generation.
From S2P Require Import Experts.
From S2P Require Import SessionManager.
From S2P Require Import Routing.
From S2P Require Import Tito.
From S2P Require Import Segments.
From S2P Require Import Offload.
From S2P Require Import Chat.
From S2P Require Import Pipeline.
From Stdlib Require Import Ascii.

Local Open Scope string_scope.
Local Open Scope list_scope.
Local Open Scope py_scope.

(** ** Tokens of a lineage *)

(** The tokens joined since the last boundary, after [acc]. *)
Fixpoint joined_from (acc : list Z) (l : list StepRecord) : list Z :=
  match l with
  | [] => acc
  | st :: rest =>
      joined_from ((if sr_lineage_segment_boundary_before st then [] else acc) ++ sr_concat_token_ids st) rest
  end.

(** After every step the joined tokens are the step's snapshot. *)
Fixpoint builds (acc : list Z) (l : list StepRecord) : Prop :=
  match l with
  | [] => True
  | st :: rest =>
      let acc' := (if sr_lineage_segment_boundary_before st then [] else acc) ++ sr_concat_token_ids st in
      acc' = sr_snapshot_token_ids st /\ builds acc' rest
  end.

Lemma joined_snoc l st : forall acc,
  joined_from acc (l ++ [st])
  = (if sr_lineage_segment_boundary_before st then [] else joined_from acc l) ++ sr_concat_token_ids st.
Proof. induction l as [|x l IH]; intros acc; [done|]. apply IH. Qed.

Lemma builds_snoc l st : forall acc,
  builds acc l -> joined_from acc (l ++ [st]) = sr_snapshot_token_ids st -> builds acc (l ++ [st]).
Proof.
  induction l as [|x l IH]; intros acc B J; [done|]. destruct B as [E B]. split; [done|]. by apply IH.
Qed.

Lemma last_boundary_snoc l st : forall ix start,
  last_boundary (l ++ [st]) ix start
  = if sr_lineage_segment_boundary_before st then (ix + length l)%nat else last_boundary l ix start.
Proof.
  induction l as [|x l IH]; intros ix start; simpl.
  - destruct (sr_lineage_segment_boundary_before st); [lia|done].
  - rewrite IH. destruct (sr_lineage_segment_boundary_before st); [lia|done].
Qed.

Lemma last_boundary_le l : forall ix start, (start <= ix + length l)%nat ->
  (last_boundary l ix start <= ix + length l)%nat.
Proof.
  induction l as [|x l IH]; intros ix start L; simpl in *; [done|].
  rewrite <- Nat.add_succ_comm in *. apply IH. destruct (sr_lineage_segment_boundary_before x); lia.
Qed.

(** [_lineage_tito_prefix_token_ids] computes the joined tokens. *)
Lemma prefix_joined l :
  concat (map sr_concat_token_ids (drop (last_boundary l 0 0) l)) = joined_from [] l.
Proof.
  induction l as [|st l IH] using rev_ind; [done|]. rewrite joined_snoc, last_boundary_snoc.
  destruct (sr_lineage_segment_boundary_before st).
  - rewrite Nat.add_0_l, drop_app_length. simpl. by rewrite app_nil_r.
  - rewrite drop_app_le by (pose proof (last_boundary_le l 0 0); lia).
    by rewrite concat_map_snoc, IH.
Qed.

(** ** Steps up to the rendering cache *)

Definition bare (st : StepRecord) : StepRecord := set_rendered st "" 0 "".

#[global] Arguments bare : simpl never.

Definition same_steps (l l' : list StepRecord) : Prop := map bare l = map bare l'.

#[export] Instance same_steps_equiv : Equivalence same_steps.
Proof. split; [by intros l|by intros l l'|intros l1 l2 l3; unfold same_steps; congruence]. Qed.

Lemma same_steps_cons x l x' l' :
  same_steps (x :: l) (x' :: l') <-> bare x = bare x' /\ same_steps l l'.
Proof.
  unfold same_steps. cbn [map]. split; [|by intros [-> ->]]. intros E. split.
  - exact (f_equal (hd (bare x)) E).
  - exact (f_equal (@tail StepRecord) E).
Qed.

Lemma same_steps_length l l' : same_steps l l' -> length l = length l'.
Proof. intros E. apply (f_equal length) in E. by rewrite !length_map in E. Qed.

(** A function of the steps that does not look at the cache. *)
Lemma same_steps_map {A} (f : StepRecord -> A) l l' :
  (forall st, f (bare st) = f st) -> same_steps l l' -> map f l = map f l'.
Proof.
  intros F E. apply (f_equal (map f)) in E. rewrite !map_map in E.
  rewrite !(map_ext (fun x => f (bare x)) f) in E by done. done.
Qed.

Lemma same_steps_filter (p : StepRecord -> bool) l l' :
  (forall st, p (bare st) = p st) -> same_steps l l' -> same_steps (List.filter p l) (List.filter p l').
Proof.
  intros F. revert l'. induction l as [|x l IH]; intros [|x' l'] E; try done.
  apply same_steps_cons in E as [E1 E2]. simpl.
  assert (p x = p x') as <- by (rewrite <- (F x), <- (F x'); by rewrite E1).
  destruct (p x); [|by apply IH]. apply same_steps_cons. split; [done|]. by apply IH.
Qed.

Lemma same_steps_app l1 l1' l2 l2' :
  same_steps l1 l1' -> same_steps l2 l2' -> same_steps (l1 ++ l2) (l1' ++ l2').
Proof. unfold same_steps. intros A B. by rewrite !map_app, A, B. Qed.

Lemma same_steps_lookup l l' i st : same_steps l l' -> l !! i = Some st ->
  exists st', l' !! i = Some st' /\ bare st' = bare st.
Proof.
  intros E L. assert (X : map bare l !! i = Some (bare st)) by (by rewrite list_lookup_fmap, L).
  rewrite E, list_lookup_fmap in X. destruct (l' !! i) as [st'|]; [|done]. exists st'. split; [done|].
  by apply (f_equal (default st)) in X.
Qed.

Lemma bare_field {A} (f : StepRecord -> A) a b : (forall st, f (bare st) = f st) -> bare a = bare b -> f a = f b.
Proof. intros F E. by rewrite <- (F a), <- (F b), E. Qed.

#[export] Instance joined_proper acc : Proper (same_steps ==> eq) (joined_from acc).
Proof.
  intros l. revert acc. induction l as [|x l IH]; intros acc [|x' l'] E; try done.
  apply same_steps_cons in E as [E1 E2]. simpl.
  rewrite (bare_field sr_lineage_segment_boundary_before x x') by done.
  rewrite (bare_field sr_concat_token_ids x x') by done. by apply IH.
Qed.

#[export] Instance builds_proper acc : Proper (same_steps ==> iff) (builds acc).
Proof.
  intros l. revert acc. induction l as [|x l IH]; intros acc [|x' l'] E; try done.
  apply same_steps_cons in E as [E1 E2]. simpl.
  rewrite (bare_field sr_lineage_segment_boundary_before x x') by done.
  rewrite (bare_field sr_concat_token_ids x x') by done.
  rewrite (bare_field sr_snapshot_token_ids x x') by done. by rewrite IH.
Qed.

Lemma same_lineage_steps s s' k : same_steps (steps s) (steps s') ->
  same_steps (lineage_steps s k) (lineage_steps s' k).
Proof. by apply same_steps_filter. Qed.

(** ** Lineage ids are fresh *)

Definition lineage_key (n : Z) : string := "lineage-" +:+ pad6 n.

Lemma parse_zeros k s : forall b, (exists c D, s = String c D /\ is_Some (digit_val c)) ->
  parse_digits (String.concat "" (replicate k "0") +:+ s) 0 b = parse_digits s 0 b.
Proof.
  induction k as [|k IH]; intros b Hs; [done|].
  assert (E : String.concat "" (replicate (S k) "0") +:+ s
              = String "0" (String.concat "" (replicate k "0") +:+ s)).
  { destruct k; [done|]. cbn [replicate String.concat]. done. }
  rewrite E. cbn [parse_digits]. change (digit_val "0") with (Some 0%Z). cbv iota. rewrite IH by done.
  destruct Hs as (c & D & -> & [d Hd]). cbn [parse_digits]. by rewrite Hd.
Qed.

Lemma pad6_parse n : (0 <= n)%Z -> parse_digits (pad6 n) 0 false = Some n.
Proof.
  intros Hn. unfold pad6. destruct (str_of_Z_spec n) as (c & D & E & (d & Hd & _) & _ & P).
  rewrite (proj2 (Z.ltb_ge n 0)) in E by lia. rewrite parse_zeros by (rewrite E; eauto).
  rewrite E, P. by rewrite Z.abs_eq.
Qed.

Lemma sapp_inj (p a b : string) : p +:+ a = p +:+ b -> a = b.
Proof. induction p as [|c p IH]; intros E; [done|]. injection E as E. by apply IH. Qed.

Lemma lineage_key_inj n m : (0 <= n)%Z -> (0 <= m)%Z -> lineage_key n = lineage_key m -> n = m.
Proof.
  intros Hn Hm E. apply sapp_inj in E. pose proof (pad6_parse n Hn) as A.
  rewrite E, pad6_parse in A by done. by injection A.
Qed.

(** ** The invariant *)

Section Served.
Context `{PyText}.
Variable cfg : Config.

Record served (s : Session) : Prop := {
  sv_steps : steps_ok s;
  sv_turn : turn_ok s;
  sv_lineages : lineages_ok s;
  sv_counter : (0 <= _lineage_counter s)%Z /\
    forall k, is_Some (dget (lineages s) k) ->
      exists n, (1 <= n <= _lineage_counter s)%Z /\ k = lineage_key n;
  sv_builds : cf_mode cfg = tito -> forall k, builds [] (lineage_steps s k) }.

Lemma new_session_served o sid iid t1 t2 : served (new_session o sid iid t1 t2).
Proof using.
  destruct (new_session_ok sid o iid t1 t2) as (_ & T & S). split; [done|done| | |done].
  - split; [constructor|by intros k l|by intros st ?%elem_of_nil].
  - split; [done|]. by intros k [].
Qed.

(** A session that differs from a served one in no field the invariant reads. *)
Lemma served_same s s' :
  served s -> same_steps (steps s) (steps s') -> steps_by_id s' = steps_by_id s ->
  prefix_tree s' = prefix_tree s -> lineages s' = lineages s ->
  _lineage_counter s' = _lineage_counter s -> turn_ok s' -> served s'.
Proof using.
  intros [[A B C D] T [N I L] K J] E Ei Et El Ec T'. split; [|done| | |].
  - split; rewrite ?Ei, ?Et, ?El; auto.
    + intros k i G. destruct (A k i G) as (st & S & <-).
      destruct (same_steps_lookup _ _ _ _ E S) as (st' & S' & Eb). exists st'. split; [done|].
      by apply (bare_field sr_step_id).
    + intros i st' S'. symmetry in E. destruct (same_steps_lookup _ _ _ _ E S') as (st & S & Eb).
      rewrite <- (bare_field sr_step_id st st') by done. by apply (B i).
    + rewrite C. clear -E.
      assert (F : forall l t, fold_left tree_insert (List.filter indexed l) t
                  = fold_left tree_insert (List.filter indexed (map bare l)) t).
      { induction l as [|x l IH]; intros t; [done|]. simpl.
        change (indexed (bare x)) with (indexed x). destruct (indexed x); simpl; [|done].
        change (tree_insert t (bare x)) with (tree_insert t x). done. }
      rewrite F, E. symmetry. apply F.
  - split; rewrite ?El; [done|done|]. intros st' S'. apply list_elem_of_lookup in S' as [i S'].
    symmetry in E. destruct (same_steps_lookup _ _ _ _ E S') as (st & S & Eb).
    rewrite <- (bare_field sr_lineage_id st st') by done. apply L. by eapply list_elem_of_lookup_2.
  - by rewrite El, Ec.
  - intros M k. apply (builds_proper [] (lineage_steps s k)); [by apply same_lineage_steps|by apply J].
Qed.

(** A new lineage is not the lineage of any step. *)
Lemma served_create s b s' l :
  served s -> create_lineage s b = (s', l) ->
  served s' /\ steps s' = steps s /\ lineage_steps s' (l_id l) = [] /\
  dget (lineages s') (l_id l) = Some l /\ oid s' = oid s /\
  SessionManager.session_id s' = SessionManager.session_id s /\ step_by_id s' = step_by_id s.
Proof using.
  intros V E. destruct (create_lineage_ok _ _ _ _ E (sv_steps _ V)) as (S & T & O & I & St & By & Tr).
  pose proof (sv_counter _ V) as [Hc K]. pose proof (sv_lineages _ V) as [N Id L].
  unfold create_lineage in E. injection E as E1 E2.
  assert (Ek : l_id l = lineage_key (_lineage_counter s + 1)) by (by rewrite <- E2).
  assert (Fr : dget (lineages s) (l_id l) = None).
  { destruct (dget (lineages s) (l_id l)) eqn:G; [|done]. exfalso.
    destruct (K (l_id l)) as (n & Hn & En); [by eauto|]. rewrite Ek in En.
    apply lineage_key_inj in En; lia. }
  assert (Ls : lineages s' = dset (lineages s) (l_id l) l) by (by rewrite <- E1, <- E2).
  assert (Lc : _lineage_counter s' = (_lineage_counter s + 1)%Z) by (by rewrite <- E1).
  split; [|split; [done|split; [|split; [by rewrite Ls, dget_dset_eq|split; [done|split; [done|]]]]]].
  - split; [done|by rewrite T; apply V| | |].
    + split; rewrite Ls; [by apply dset_NoDup| |].
      * intros k l'. rewrite dget_dset. case_decide; [by intros [= <-]|]. by apply Id.
      * intros st. rewrite St, dget_dset. case_decide; [by eauto|]. by apply L.
    + split; [lia|]. intros k. rewrite Ls, dget_dset, Lc. case_decide as D.
      * intros _. exists (_lineage_counter s + 1)%Z. split; [lia|congruence].
      * intros G. destruct (K k G) as (n & Hn & En). exists n. split; [lia|done].
    + intros M k. unfold lineage_steps. rewrite St. by apply (sv_builds _ V).
  - unfold lineage_steps. rewrite St. apply filter_none, Forall_forall. intros st I'.
    destruct (String.eqb_spec (sr_lineage_id st) (l_id l)) as [Q|]; [|done].
    destruct (L st I') as [l' G]. by rewrite Q, Fr in G.
  - unfold step_by_id. by rewrite St, By.
Qed.
End Served.

(** ** Routing keeps the session *)

(** The same object with the same steps, up to their cache. *)
Definition kept (s s' : Session) : Prop :=
  same_steps (steps s) (steps s') /\ s_rollout_epoch s' = s_rollout_epoch s /\ oid s' = oid s /\
  SessionManager.session_id s' = SessionManager.session_id s /\ request_locked s' = request_locked s.

#[export] Instance kept_preorder : PreOrder kept.
Proof.
  split; [by intros s; repeat split|]. intros s1 s2 s3 (A & B & C & D & E) (A' & B' & C' & D' & E').
  unfold kept. rewrite A, A', B', C', D', E'. done.
Qed.

Section RouteFrame.
Context `{PyText}.
Variable cfg : Config.
Variable iter : list string -> list string.
Variable template : list msg -> option (list pyval) -> bool -> result string.
Abbreviation served := (served cfg).

(** Only caches of steps were filled. *)
Definition cached_more (s s' : Session) : Prop :=
  s' = with_steps s (steps s') /\ same_steps (steps s) (steps s').

#[export] Instance cached_more_preorder : PreOrder cached_more.
Proof using.
  split; [intros s; split; [by rewrite with_steps_id|done]|].
  intros s1 s2 s3 [A A'] [B B']. split; [|by etransitivity]. by rewrite B, A.
Qed.

Lemma cached_more_served s s' : cached_more s s' -> served s -> served s'.
Proof using.
  intros [-> E] V. simpl in E. apply (served_same cfg s); try done. apply (sv_turn _ _ V).
Qed.

Lemma cached_more_kept s s' : cached_more s s' -> kept s s'.
Proof using. intros [-> E]. by repeat split. Qed.

Lemma fill_bare render tools th st : bare (fill render tools th st) = bare st.
Proof using.
  unfold fill, _candidate_snapshot_rendered. by destruct (cached st th).
Qed.

Lemma fill_at_same render tools th l i : same_steps l (fill_at render tools th l i).
Proof using.
  unfold fill_at. revert i. induction l as [|x l IH]; intros [|i]; [done|done| |].
  - apply same_steps_cons. by rewrite fill_bare.
  - apply same_steps_cons. split; [done|apply IH].
Qed.

Lemma consider_frame render tools th cur s v k s' v' :
  consider render tools th cur (s, v) k = (s', v') ->
  cached_more s s' /\ forall i, i ∈ v' -> i ∈ v \/ is_Some (steps s' !! i).
Proof using.
  intros E. destruct (dget (steps_by_id s) k) as [i|] eqn:Ek.
  - rewrite (consider_step render tools th cur s v k i Ek) in E. injection E as <- <-. split.
    + split; [done|apply fill_at_same].
    + intros j. rewrite elem_of_app. intros [|Hj]; [by left|right]. unfold extends_at in Hj.
      destruct (steps s !! i) as [st|] eqn:Es; [|by apply elem_of_nil in Hj].
      destruct (extends _ _ _ _ _); [|by apply elem_of_nil in Hj]. apply list_elem_of_singleton in Hj as ->.
      simpl. rewrite fill_at_lookup, decide_True, Es by done. by eexists.
  - unfold consider in E. rewrite Ek in E. injection E as <- <-. split; [done|]. by left.
Qed.

Lemma still_there s s' (i : nat) : cached_more s s' -> is_Some (steps s !! i) -> is_Some (steps s' !! i).
Proof using.
  intros [_ E] [st L]. destruct (same_steps_lookup _ _ _ _ E L) as (st' & L' & _). by eexists.
Qed.

Lemma consider_fold_frame render tools th cur ks : forall s v s' v',
  fold_left (consider render tools th cur) ks (s, v) = (s', v') ->
  cached_more s s' /\ forall i, i ∈ v' -> i ∈ v \/ is_Some (steps s' !! i).
Proof using.
  induction ks as [|k ks IH]; intros s v s' v'; cbn [fold_left]; [intros [= <- <-]; split; [done|by left]|].
  destruct (consider render tools th cur (s, v) k) as [s1 v1] eqn:E1. intros E.
  destruct (consider_frame _ _ _ _ _ _ _ _ _ E1) as [A B]. destruct (IH _ _ _ _ E) as [A' B'].
  split; [by etransitivity|]. intros i I. destruct (B' i I) as [I'|]; [|by right].
  destruct (B i I') as [|S]; [by left|right]. by eapply still_there.
Qed.

(** What a route guarantees the rest of the handler. *)
Definition route_ok (s : Session) (r : Route) : Prop :=
  is_Some (dget (lineages s) (r_lineage_id r)) /\
  match r_type r with
  | append => is_Some (route_base s r)
  | _ => lineage_steps s (r_lineage_id r) = []
  end.

Lemma continue_ok s st t :
  served s -> st ∈ steps s -> t = append ->
  route_ok s {| r_lineage_id := sr_lineage_id st; r_type := t; r_base_step_id := Some (sr_step_id st) |}.
Proof using.
  intros V I ->. split; [by apply (lo_steps _ (sv_lineages _ _ V))|]. unfold route_base. simpl.
  apply list_elem_of_lookup in I as [i I]. unfold step_by_id.
  destruct (so_found _ (sv_steps _ _ V) _ _ I) as [j Ej]. rewrite Ej. simpl.
  destruct (so_index _ (sv_steps _ _ V) _ _ Ej) as (st' & -> & _). by eexists.
Qed.

Lemma created_ok s b s' l t : served s -> create_lineage s b = (s', l) -> t <> append ->
  served s' /\ kept s s' /\
  route_ok s' {| r_lineage_id := l_id l; r_type := t; r_base_step_id := b |}.
Proof using.
  intros V E N. destruct (served_create cfg s b s' l V E) as (V' & St & Ls & G & O & I & _).
  split; [done|]. split.
  - unfold create_lineage in E. injection E as <- _. by repeat split.
  - split; [simpl; by eauto|]. by destruct t.
Qed.

Lemma select_route_frame render nee s req tools th s' r :
  served s -> _select_route iter render nee s req tools th = (s', r) ->
  served s' /\ kept s s' /\ route_ok s' r.
Proof using.
  intros V. unfold _select_route.
  destruct (fold_left _ _ (s, [])) as [s1 valid] eqn:Ef.
  destruct (consider_fold_frame _ _ _ _ _ _ _ _ _ Ef) as [C Hv].
  pose proof (cached_more_served _ _ C V) as V1. apply cached_more_kept in C.
  destruct (sorted_at s1 (step_order s) valid) as [|i rest] eqn:Es.
  - destruct (tools_fallback _ _ _ _) as [st|] eqn:Et.
    + intros [= <- <-]. split; [done|]. split; [done|]. apply continue_ok; [done| |done].
      unfold tools_fallback, find_first in Et. apply List.find_some in Et as [Et _].
      apply list_elem_of_In in Et. apply list_elem_of_omap in Et as (j & _ & Ej).
      by eapply list_elem_of_lookup_2.
    + destruct (create_lineage s1 None) as [s2 l] eqn:Ec. intros [= <- <-].
      destruct (created_ok _ _ _ _ create V1 Ec) as (V2 & K2 & R); [done|].
      split; [done|]. split; [by etransitivity|done].
  - assert (Iv : i ∈ valid) by (by apply (proj1 (sorted_at_head _ _ _ _ _ Es))).
    destruct (Hv i Iv) as [I|[st Est]]; [by apply elem_of_nil in I|]. rewrite Est.
    destruct (is_latest s1 st).
    + intros [= <- <-]. split; [done|]. split; [done|]. apply continue_ok; [done| |done].
      by eapply list_elem_of_lookup_2.
    + destruct (create_lineage s1 _) as [s2 l] eqn:Ec. intros [= <- <-].
      destruct (created_ok _ _ _ _ branch V1 Ec) as (V2 & K2 & R); [done|].
      split; [done|]. split; [by etransitivity|done].
Qed.
End RouteFrame.

Section BeginFacts.
Context `{PyText}.
Variable cfg : Config.
Variable iter : list string -> list string.
Variable template : list msg -> option (list pyval) -> bool -> result string.
Variable template_ids : list msg -> option (list pyval) -> bool -> result (list Z).
Variable encode : string -> result (list Z).
Variables newline_id im_end_id : option Z.
Variable hook_chain : option (string -> ToolCallContext -> hook_result).
Abbreviation served := (served cfg).

Lemma consider_or_raise_frame tools th cur ks : forall s r s' r',
  fold_left (consider_or_raise template tools th cur) ks (s, r) = (s', r') -> cached_more s s'.
Proof using.
  induction ks as [|k ks IH]; intros s r s' r'; cbn [fold_left]; [by intros [= <- <-]|].
  destruct (consider_or_raise template tools th cur (s, r) k) as [s1 r1] eqn:E1. intros E.
  etransitivity; [|by eapply IH]. unfold consider_or_raise in E1. destruct r as [v|e]; [|by injection E1 as <-].
  destruct (step_by_id s k); [|by injection E1 as <-].
  destruct (if cached _ th then _ else _); [|by injection E1 as <-].
  destruct (consider _ tools th cur (s, v) k) as [s2 v2] eqn:Ec. injection E1 as <- _.
  by destruct (consider_frame _ _ _ _ _ _ _ _ _ Ec).
Qed.

Lemma select_or_raise_frame s req tools th s' o :
  served s -> select_route_or_raise cfg iter template s req tools th = (s', o) ->
  served s' /\ kept s s' /\ match o with Ok r => route_ok s' r | Raise _ => True end.
Proof using.
  intros V. unfold select_route_or_raise. destruct (render_vals template req tools true) as [cur|e];
    [|by intros [= <- <-]].
  destruct (fold_left _ _ (s, Ok [])) as [s1 [v|e]] eqn:Ef.
  - destruct (_select_route _ _ _ s req tools th) as [s2 r] eqn:Er. intros [= <- <-].
    by eapply select_route_frame.
  - intros [= <- <-]. apply consider_or_raise_frame in Ef.
    split; [by eapply cached_more_served|]. split; [by apply cached_more_kept|done].
Qed.

Lemma choose_route_ok s b req tools th s' o :
  served s -> choose_route cfg iter template (latest_step s) b req tools th s = (s', o) ->
  served s' /\ kept s s' /\ exists r failed, o = Done (r, failed) /\ route_ok s' r.
Proof using.
  intros V. unfold choose_route.
  destruct (select_route_or_raise cfg iter template s req tools th) as [s1 [r|e]] eqn:Es.
  - destruct (select_or_raise_frame _ _ _ _ _ _ V Es) as (V1 & K1 & R1). intros [= <- <-]. by eauto 10.
  - destruct (select_or_raise_frame _ _ _ _ _ _ V Es) as (V1 & K1 & _).
    assert (New : (let '(s'', l) := create_lineage s1 None in
              (s'', Done ({| r_lineage_id := l_id l; r_type := create; r_base_step_id := None |}, true)))
              = (s', o) -> served s' /\ kept s s' /\ exists r failed, o = Done (r, failed) /\ route_ok s' r).
    { destruct (create_lineage s1 None) as [s2 l] eqn:Ec. intros [= <- <-].
      destruct (created_ok cfg _ _ _ _ create V1 Ec) as (V2 & K2 & R2); [done|].
      split; [done|]. split; [by etransitivity|by eauto]. }
    destruct (latest_step s) as [p|] eqn:Ep; [|exact New]. destruct b; [|exact New].
    intros [= <- <-]. split; [done|]. split; [done|]. eexists _, _. split; [done|].
    apply last_Some in Ep as [l Ep]. destruct (same_steps_lookup (steps s) (steps s1) (length l) p)
      as (p' & Ep' & Eb); [apply K1|by rewrite Ep, lookup_app_r, Nat.sub_diag|].
    rewrite <- (bare_field sr_lineage_id p' p), <- (bare_field sr_step_id p' p) by done.
    apply (continue_ok cfg); [done|by eapply list_elem_of_lookup_2|done].
Qed.

(** ** Prompts *)

(** The tokens a step adds, against those of its lineage: everything when it starts a
    segment or a lineage, otherwise the prompt's suffix. *)
Definition delta_ok (s : Session) (r : Route) (boundary : bool) (p : PromptPayload) : Prop :=
  input_ids p = (if boundary then [] else joined_from [] (lineage_steps s (r_lineage_id r)))
                ++ context_delta_ids p.

Lemma drop_prefix_of (p l : list Z) : p `prefix_of` l -> l = p ++ drop (length p) l.
Proof using. intros [t ->]. by rewrite drop_app_length. Qed.

Lemma build_prompt_ok s r bd req tools p :
  cf_mode cfg = tito -> route_ok s r ->
  _build_prompt_tokens template template_ids encode newline_id im_end_id cfg s r bd req tools = Ok p ->
  delta_ok s r (bd || (tito_incremental_tokenization_failed p
                       && bool_decide (is_Some (route_base s r)))) p.
Proof using.
  intros M [_ R]. unfold _build_prompt_tokens, delta_ok. rewrite M. fold (route_base s r).
  assert (Full : forall failed, full_prompt template_ids req tools failed = Ok p ->
            input_ids p = context_delta_ids p /\ tito_incremental_tokenization_failed p = failed).
  { unfold full_prompt. intros failed E. res_inv. by subst p. }
  destruct (route_base s r) as [base|] eqn:Eb.
  - rewrite (bool_decide_true (is_Some (Some base))) by done. rewrite andb_true_r.
    destruct bd; [by intros [-> _]%Full|]. destruct (cf_tito cfg) as [model|]; [|done].
    destruct (merge_tokens _ _ _ _ _ _ _ _ _) as [merged|e] eqn:Em; [|by intros [-> ->]%Full].
    intros [= <-]. cbn [input_ids context_delta_ids tito_incremental_tokenization_failed orb].
    apply merge_tokens_prefix in Em. case_bool_decide as Br.
    + rewrite Br in R. by rewrite R.
    + unfold _lineage_tito_prefix_token_ids in *. rewrite prefix_joined in *. by apply drop_prefix_of.
  - rewrite (bool_decide_false (is_Some None)) by (by intros []). rewrite andb_false_r.
    intros [-> _]%Full. destruct (bd || false); [done|].
    destruct (r_type r); [by destruct R| |]; by rewrite R.
Qed.
End BeginFacts.

(** ** Reasoning about computations on the held session *)

(** From [P], the computation ends in [Q] with its value or in [E] with a failure. *)
Definition triple {A} (P : Session -> Prop) (m : SM A) (Q : A -> Session -> Prop) (E : Session -> Prop) : Prop :=
  forall s s' o, P s -> m s = (s', o) -> match o with Done a => Q a s' | Fail _ => E s' end.

Section Triples.
Context {A B : Type}.
Implicit Types P E : Session -> Prop.

Lemma triple_bind P (m : SM A) (k : A -> SM B) Q R E :
  triple P m Q E -> (forall a, triple (Q a) (k a) R E) -> triple P (sm_bind m k) R E.
Proof.
  intros M K s s' o Ps. unfold sm_bind. destruct (m s) as [s1 [a|f]] eqn:Em; intros Eq.
  - apply (K a s1 s' o); [|done]. exact (M _ _ _ Ps Em).
  - injection Eq as <- <-. exact (M _ _ _ Ps Em).
Qed.

Lemma triple_get P (f : Session -> A) E : triple P (sm_get f) (fun a s => P s /\ a = f s) E.
Proof. intros s s' o Ps. by intros [= <- <-]. Qed.

Lemma triple_try P (f : Session -> outcome A) E : (forall s, P s -> E s) ->
  triple P (sm_try f) (fun a s => P s /\ f s = Done a) E.
Proof. intros PE s s' o Ps. unfold sm_try. intros [= <- <-]. destruct (f s); auto. Qed.

Lemma triple_modify P f (Q E : Session -> Prop) : (forall s, P s -> Q (f s)) ->
  triple P (sm_modify f) (fun _ => Q) E.
Proof. intros PQ s s' o Ps. intros [= <- <-]. auto. Qed.

Lemma triple_ret P (a : A) E : triple P (sm_ret a) (fun x s => P s /\ x = a) E.
Proof. intros s s' o Ps. by intros [= <- <-]. Qed.

Lemma triple_weaken P P' (m : SM A) Q Q' E :
  (forall s, P s -> P' s) -> (forall a s, Q' a s -> Q a s) -> triple P' m Q' E -> triple P m Q E.
Proof. intros I J M s s' o Ps Em. specialize (M s s' o (I _ Ps) Em). destruct o; auto. Qed.
End Triples.

Lemma uncaught_done {A} (r : result A) a : uncaught r = Done a -> r = Ok a.
Proof. destruct r; [by intros [= ->]|done]. Qed.

Lemma resolve_turn_frame s r u s' x : resolve_turn s r u = (s', x) ->
  steps s' = steps s /\ steps_by_id s' = steps_by_id s /\ prefix_tree s' = prefix_tree s /\
  lineages s' = lineages s /\ _lineage_counter s' = _lineage_counter s /\
  s_rollout_epoch s' = s_rollout_epoch s /\ oid s' = oid s /\
  SessionManager.session_id s' = SessionManager.session_id s /\ request_locked s' = request_locked s.
Proof. unfold resolve_turn. intros E. repeat case_match; simplify_eq; done. Qed.

Section BeginOk.
Context `{PyText}.
Variable cfg : Config.
Variable iter : list string -> list string.
Variable template : list msg -> option (list pyval) -> bool -> result string.
Variable template_ids : list msg -> option (list pyval) -> bool -> result (list Z).
Variable encode : string -> result (list Z).
Variables newline_id im_end_id : option Z.
Variable hook_chain : option (string -> ToolCallContext -> hook_result).
Abbreviation served := (served cfg).

Definition safe (s0 s : Session) : Prop := served s /\ kept s0 s.

Lemma resolve_held_safe s0 r env :
  triple (safe s0) (resolve_held_turn r env) (fun _ => safe s0) (safe s0).
Proof using.
  intros s s' o [V K]. unfold resolve_held_turn.
  destruct (resolve_turn (set_last_active s (ev_clock env)) r (ev_uuid env)) as [s1 x] eqn:E.
  intros [= <- <-]. destruct (resolve_turn_frame _ _ _ _ _ E) as (A1 & A2 & A3 & A4 & A5 & A6 & A7 & A8 & A9).
  destruct (resolve_turn_ok _ _ _ _ _ E) as (T & _);
    [apply (sv_turn _ _ V)|destruct (sv_steps _ _ V); by split|].
  assert (S : safe s0 s1).
  { split; [apply (served_same cfg s); rewrite ?A1; done|]. etransitivity; [exact K|].
    unfold kept. by rewrite A1, A6, A7, A8, A9. }
  by destruct (value_error_400 x).
Qed.

Lemma mark_held_safe s0 b env s : safe s0 s -> safe s0 (mark_held b env s).
Proof using.
  intros [V K]. unfold mark_held. destruct (b && negb (history_rewritten s)); [|done].
  split; [by apply (served_same cfg s); try done; apply V|]. etransitivity; [exact K|by repeat split].
Qed.

(** What holds when the request is about to be sent. *)
Record begun (env : Env) (s : Session) (p : Prepared) : Prop := {
  bg_route : route_ok s (pr_route p);
  bg_delta : cf_mode cfg = tito -> delta_ok s (pr_route p) (pr_lineage_boundary p) (pr_prompt p);
  bg_input : ga_input_ids (pr_gen_args p) = input_ids (pr_prompt p);
  bg_window : forall w, cf_context_window cfg = Some w ->
    (Z.of_nat (length (input_ids (pr_prompt p))) < w)%Z /\
    (cf_dynamic_max_tokens cfg = true ->
     (Z.of_nat (length (input_ids (pr_prompt p))) + ga_max_new_tokens (pr_gen_args p) <= w - 1)%Z);
  bg_epoch : cf_partial_rollout cfg = false -> steps s <> [] ->
    ga_expected_epoch (pr_gen_args p) = Some (ev_epoch env) /\
    forall e, s_rollout_epoch s = Some e -> e = ev_epoch env;
  bg_limit : (0 < cf_max_steps cfg)%Z -> (Z.of_nat (length (steps s)) < cf_max_steps cfg)%Z }.

Lemma int_or_0_int z : int_or_0 (PInt z) = Ok z.
Proof using. unfold int_or_0. simpl. by destruct (Z.eqb_spec z 0) as [->|]. Qed.

(** The budget that reaches the engine fits the context window. *)
Lemma token_budget_window params n sid turn params' mt s b iid t v e a w :
  token_budget cfg params n sid turn = Done (params', mt) ->
  gen_args cfg s b params' iid t v e = Ok a -> cf_context_window cfg = Some w ->
  (n < w)%Z /\ (cf_dynamic_max_tokens cfg = true -> (n + ga_max_new_tokens a <= w - 1)%Z /\
    (match pget params "max_new_tokens" with PNone => True | c => exists z, py_int c = Ok z /\ (0 < z)%Z end ->
     (0 < ga_max_new_tokens a)%Z)).
Proof using.
  intros Eb Ea Ew. unfold token_budget in Eb. rewrite Ew in Eb.
  destruct (int_or_0 (pget params "max_new_tokens")) as [m|] eqn:Em; [|done]. cbn [uncaught out_bind] in Eb.
  destruct (Z.leb_spec w n); [done|]. split; [done|]. intros D. rewrite D in Eb. cbn [negb] in Eb.
  destruct (Z.ltb_spec (w - n - 1) 1); [done|].
  assert (K : exists x, params' = dset params "max_new_tokens" (PInt x) /\ (x <= w - n - 1)%Z /\
            (match pget params "max_new_tokens" with PNone => True | c => exists z, py_int c = Ok z /\ (0 < z)%Z end ->
             (0 < x)%Z)).
  { destruct (pget params "max_new_tokens") eqn:Ep; cbn [out_bind uncaught] in Eb;
      try (destruct (py_int _) as [z|] eqn:Ez; cbn [out_bind uncaught] in Eb; [|done]);
      injection Eb as <- _; (eexists; split; [done|]; split; [lia|]);
      first [intros (z' & Ez' & Pz); rewrite ?Ez in Ez'; injection Ez' as <-; lia|lia]. }
  destruct K as (x & -> & Lx & Px). unfold gen_args in Ea. unfold pget at 1, dget_def in Ea.
  rewrite dget_dset_eq, int_or_0_int in Ea. cbn [res_bind] in Ea. injection Ea as <-. simpl.
  split; [lia|done].
Qed.

Lemma gen_args_fields s b params iid t v e a : gen_args cfg s b params iid t v e = Ok a ->
  ga_input_ids a = b /\
  ga_expected_epoch a = (if negb (cf_partial_rollout cfg) && negb (Nat.eqb (length (steps s)) 0)
                         then Some e else None).
Proof using. unfold gen_args. intros E. res_inv. by subst a. Qed.

Lemma stale_epoch_done s e : _raise_if_stale_rollout_epoch s e (cf_partial_rollout cfg) = Done tt ->
  cf_partial_rollout cfg = false -> steps s <> [] -> forall x, s_rollout_epoch s = Some x -> x = e.
Proof using.
  unfold _raise_if_stale_rollout_epoch. intros E P N x Ex. rewrite Ex, P in E.
  destruct (steps s) as [|st l] eqn:Es; [done|]. cbn [length Nat.eqb orb] in E.
  by destruct (Z.eqb_spec x e).
Qed.

Lemma boundary_lineage s prev ao turn tools r f :
  bd_route (boundary_of cfg s prev ao turn tools r f) = r.
Proof using. done. Qed.

Lemma add_failure_lineage s b failed :
  bd_lineage (add_failure s b failed)
  = bd_lineage b || (failed && bool_decide (is_Some (route_base s (bd_route b)))).
Proof using.
  unfold add_failure. destruct (failed && _); [by rewrite orb_true_r|by rewrite orb_false_r].
Qed.

Lemma begin_request_ok s0 q env :
  triple (safe s0)
    (begin_request cfg iter template template_ids encode newline_id im_end_id hook_chain q env)
    (fun p s => safe s0 s /\ begun env s p) (safe s0).
Proof using.
  unfold begin_request. destruct (_runtime_ids_from_request _ _) as [[sid0 iid0] turn0].
  eapply triple_bind; [apply triple_get|]. intros iid.
  eapply triple_bind; [eapply triple_weaken; [| |apply resolve_held_safe]; [by intros s []|done]|].
  intros turn. cbv beta.
  eapply triple_bind; [apply triple_get|]. intros prev.
  eapply triple_bind; [apply triple_try; by intros s []|]. intros [].
  eapply triple_bind; [apply triple_try; by intros s [[] _]|]. intros norm.
  eapply triple_bind; [apply triple_try; by intros s [[[] _] _]|]. intros meta. cbv beta zeta.
  set (th := _tools_hash _ _). set (ao := match prev with Some p => _ | None => _ end).
  eapply triple_bind with (Q := fun c s => safe s0 s /\ route_ok s (fst c) /\
    (cf_partial_rollout cfg = false -> steps s <> [] -> forall e, s_rollout_epoch s = Some e -> e = ev_epoch env)).
  { intros s s' o ((([S Ep] & Es) & _) & _) E. destruct S as [V K]. subst prev.
    destruct (choose_route_ok cfg iter template s ao _ _ _ _ _ V E) as (V' & K' & r & f & -> & R).
    split; [split; [done|by etransitivity]|]. split; [done|]. intros P N e Ee.
    destruct K' as (Sm & Ek & _). rewrite Ek in Ee. eapply stale_epoch_done; [exact Es|done| |done].
    intros Z. apply N. apply same_steps_length in Sm. rewrite Z in Sm. by destruct (steps s'). }
  intros [r failed]. cbn [fst].
  eapply triple_bind; [apply triple_get|]. intros b.
  eapply triple_bind with (Q := fun _ s => safe s0 s /\ route_ok s r /\ bd_route b = r /\
    (cf_partial_rollout cfg = false -> steps s <> [] -> forall e, s_rollout_epoch s = Some e -> e = ev_epoch env)).
  { apply triple_modify. intros s ((S & R & Ee) & ->). split; [by apply mark_held_safe|].
    unfold mark_held. by destruct (_ && _). }
  intros [].
  eapply triple_bind; [apply triple_try; by intros s (S & _)|]. intros prompt.
  eapply triple_bind; [apply triple_get|]. intros b'.
  eapply triple_bind; [apply triple_try; by intros s (((S & _) & _) & _)|]. intros params.
  eapply triple_bind; [apply triple_try; by intros s ((((S & _) & _) & _) & _)|]. intros [params' mt].
  eapply triple_bind; [apply triple_try; by intros s (((((S & _) & _) & _) & _) & _)|]. intros [].
  eapply triple_bind; [apply triple_try; by intros s ((((((S & _) & _) & _) & _) & _) & _)|]. intros [].
  eapply triple_bind; [apply triple_try; by intros s (((((((S & _) & _) & _) & _) & _) & _) & _)|]. intros moved.
  eapply triple_bind; [apply triple_try; by intros s ((((((((S & _) & _) & _) & _) & _) & _) & _) & _)|]. intros args.
  eapply triple_weaken; [intros s Ps; exact Ps| |apply triple_ret]. cbv beta.
  intros p s ((((((((((S & R & Br & Ee) & Ep) & Eb) & _) & Et) & El) & _) & _) & Ea) & ->).
  cbn [fst] in Ea. apply uncaught_done in Ep, Ea. split; [done|].
  destruct (gen_args_fields _ _ _ _ _ _ _ _ Ea) as [Gi Ge].
  split; cbn [pr_route pr_prompt pr_lineage_boundary pr_gen_args]; [done| |done| | |].
  - intros M. rewrite Eb, add_failure_lineage, Br. by eapply build_prompt_ok.
  - intros w Ew. destruct (token_budget_window _ _ _ _ _ _ _ _ _ _ _ _ _ _ Et Ea Ew) as [A B].
    split; [done|]. intros D. by apply B.
  - intros P N. rewrite Ge, P. split; [by destruct (steps s)|by apply Ee].
  - intros L. unfold step_limit in El. rewrite (proj2 (Z.ltb_lt _ _) L) in El.
    destruct (Z.leb_spec (cf_max_steps cfg) (Z.of_nat (length (steps s)))); done.
Qed.
End BeginOk.
