(* ===== verification/ProxyRuns.v ===== *)
(** * Runs of the proxy

    The invariant of the sessions of [Pipeline]'s proxy under every interleaving of
    requests, expiry sweeps, finalizations and discards. *)

From S2P Require Import Prelude.
From S2P Require Import PyFloat.
From S2P Require Import PyVal.
From S2P Require Import Transport.
From S2P Require Import Generation.
From S2P Require Import Experts.
From S2P Require Import SessionManager.
From S2P Require Import Routing.
From S2P Require Import Tito.
From S2P Require Import Segments.
From S2P Require Import Offload.
From S2P Require Import Chat.
From S2P Require Import Pipeline.
From S2P Require Import Lineages.
From Stdlib Require Import Ascii.

Local Open Scope string_scope.
Local Open Scope list_scope.
Local Open Scope py_scope.

(** ** What a generation promises *)

(** A result for the arguments of a request; without partial rollout one response, hence
    one version, made it. *)
Record generation_ok (partial : bool) (a : GenArgs) (r : PreemptibleGenerateResult) : Prop := {
  go_all : pr_all_token_ids r = ga_input_ids a ++ pr_output_ids r;
  go_versions : length (pr_output_versions r) = length (pr_output_ids r);
  go_input_logprobs : length (pr_input_logprobs r) = length (ga_input_ids a);
  go_one_version : partial = false -> exists v, Forall (eq v) (pr_output_versions r);
  go_epoch : forall e, ga_expected_epoch a = Some e -> pr_output_ids r <> [] ->
             pr_rollout_epoch r = Some e }.

(** The generation controller of [Generation] keeps the promise. *)
Lemma generation_promise `{PyText} partial evs s (i : nat) t r :
  Generation.run (Sys_init partial) evs = Some s -> gens s !! i = Some t -> gt_point t = GDone r ->
  generation_ok (_partial_rollout (ctl s)) (gt_args t) r.
Proof.
  intros E Hi Pt. pose proof (reachable_inv _ _ _ E) as I.
  pose proof (Forall_lookup_1 _ _ _ _ (inv_task _ I) Hi) as (S & Q & X).
  unfold position_ok in Q. rewrite Pt in Q. destruct Q as [-> Q]. split; simpl.
  - done.
  - rewrite (st_versions _ _ S), (st_ids _ _ S). apply chunk_versions_length.
  - unfold _normalize_length. rewrite length_app, length_take, length_replicate. lia.
  - intros Pf. rewrite (st_versions _ _ S). unfold chunk_versions.
    destruct Q as [[[_ Q] _]|[(pre & ch & Ec & _ & _ & Hn)|(_ & Q & _)]]; [|..|congruence].
    + rewrite (Q Pf). by exists "".
    + rewrite Ec, (Hn Pf). exists (c_version ch). simpl. rewrite app_nil_r. by apply Forall_replicate.
  - intros e Ee N. unfold epoch_ok in X. destruct (rollout_epoch _) as [x|].
    + f_equal. by apply X.
    + rewrite (st_ids _ _ S), X in N. by destruct N.
Qed.

(** ** After the generation *)

(** The same object with the same steps. *)
Definition stays (s s' : Session) : Prop :=
  steps s' = steps s /\ steps_by_id s' = steps_by_id s /\ prefix_tree s' = prefix_tree s /\
  lineages s' = lineages s /\ _lineage_counter s' = _lineage_counter s /\
  (turn_ok s -> turn_ok s') /\ oid s' = oid s /\
  SessionManager.session_id s' = SessionManager.session_id s /\
  request_locked s' = request_locked s.

#[export] Instance stays_preorder : PreOrder stays.
Proof.
  split; [by intros s|]. intros s1 s2 s3 (A1 & A2 & A3 & A4 & A5 & A6 & A7 & A8 & A9)
    (B1 & B2 & B3 & B4 & B5 & B6 & B7 & B8 & B9). unfold stays.
  rewrite B1, B2, B3, B4, B5, B7, B8, B9. split_and!; auto.
Qed.

Section Commit.
Context `{PyText}.
Variable cfg : Config.
Variable iter : list string -> list string.
Variable template : list msg -> option (list pyval) -> bool -> result string.
Variable template_ids : list msg -> option (list pyval) -> bool -> result (list Z).
Variable hook_chain : option (string -> ToolCallContext -> hook_result).
Variable parse_reasoning : string -> result (string * option string).
Variable parse_tool_calls : string -> option (list pyval) -> result (option string * option (list pyval)).
Variable estimate_tokens : string -> Z.
Variable b64decode : string -> result (list Z).
Abbreviation served := (served cfg).
Abbreviation commit := (commit_request cfg template template_ids hook_chain parse_reasoning
  parse_tool_calls estimate_tokens b64decode).

Lemma stays_served s s' : stays s s' -> served s -> served s'.
Proof using.
  intros (A1 & A2 & A3 & A4 & A5 & A6 & _) V. apply (served_same cfg s); try done; [by rewrite A1|].
  apply A6, V.
Qed.

(** What is recorded, and when the recording call is reached. *)
Definition committed (q : ChatRequest) (p : Prepared) (r : PreemptibleGenerateResult) (s : Session)
    (a : StepArgs) (final : outcome Reply) : Prop :=
  exists reply meta normalized full rendered snapshot cp experts id ix,
    a = step_args cfg q p r reply meta normalized full rendered snapshot cp experts id ix /\
    (cf_mode cfg = tito ->
       snapshot = input_ids (pr_prompt p) ++ rc_ids (recorded cfg r (input_ids (pr_prompt p))) /\
       exists failed, cp = Some (_build_concat_step_payload (context_delta_ids (pr_prompt p))
               (rc_ids (recorded cfg r (input_ids (pr_prompt p))))
               (rc_logprobs (recorded cfg r (input_ids (pr_prompt p))))
               (rc_versions (recorded cfg r (input_ids (pr_prompt p)))) failed)) /\
    (exists l, dget (lineages s) (r_lineage_id (pr_route p)) = Some l /\ ix = l_index l) /\
    final = (if output_overflow cfg r then Fail (JSONResponse (output_overflow_payload cfg s p r) 413)
             else Done reply).

Lemma epoch_stays r s : stays s (set_epoch_once r s).
Proof using. unfold set_epoch_once. by destruct (s_rollout_epoch s). Qed.

Lemma commit_ok s0 q p g : triple (fun s => s = s0) (commit q p g)
  (fun out s => stays s0 s /\ exists r, g = Generated r /\ check_versions cfg s0 r = Done tt /\
     s_rollout_epoch s = s_rollout_epoch (set_epoch_once r s0) /\
     committed q p r s (fst out) (snd out))
  (fun s => stays s0 s).
Proof using.
  unfold commit_request. eapply triple_bind; [apply triple_try; by intros s ->|]. intros r.
  eapply triple_bind; [apply triple_try; by intros s [-> _]|]. intros [].
  eapply triple_bind with (Q := fun _ s => s = set_epoch_once r s0 /\ g = Generated r /\
    check_versions cfg s0 r = Done tt).
  { apply triple_modify. intros s [[-> G] C]. split; [done|]. split; [|done].
    unfold generation_outcome in G. destruct g; [by injection G as ->|done|done]. }
  intros []. pose proof (epoch_stays r s0) as K.
  eapply triple_bind; [apply triple_try; by intros s [-> _]|]. intros [reply meta]. cbv zeta.
  eapply triple_bind; [apply triple_try; by intros s [[-> _] _]|]. intros norm.
  eapply triple_bind; [apply triple_try; by intros s [[[-> _] _] _]|]. intros snap.
  eapply triple_bind; [apply triple_get|]. intros target.
  eapply triple_bind; [apply triple_try; by intros s [[[[[-> _] _] _] _] _]|]. intros experts.
  eapply triple_bind with (Q := fun _ s => stays s0 s /\ g = Generated r /\
    check_versions cfg s0 r = Done tt /\ s_rollout_epoch s = s_rollout_epoch (set_epoch_once r s0) /\
    (cf_mode cfg = tito -> snap = input_ids (pr_prompt p) ++ rc_ids (recorded cfg r (input_ids (pr_prompt p))))).
  { intros s s' o [[[[[(-> & G & C) _] _] Sn] _] _] [= <- <-]. split; [exact K|]. split; [done|].
    split; [done|]. split; [done|]. intros M. rewrite bool_decide_true in Sn by done. by injection Sn as <-. }
  intros id. eapply triple_bind; [apply triple_try; by intros s (S & _)|]. intros ix.
  intros s s' o [(S & G & C & Ep & Sn) L] [= <- <-]. cbn [fst snd]. split; [done|].
  exists r. split; [done|]. split; [done|]. split; [done|].
  eexists _, _, _, _, _, _, _, _, _, _. split; [reflexivity|]. split; [|split; [|done]].
  - intros M. split; [by apply Sn|]. rewrite bool_decide_true by done. by eexists.
  - destruct (dget _ _) as [l|]; [|done]. injection L as <-. by eexists.
Qed.
End Commit.

(** ** Recording *)

Section Record.
Context `{PyText}.
Variable cfg : Config.
Abbreviation served := (served cfg).

Lemma touch_lineage_keys ls lid x : dkeys (touch_lineage ls lid x) = dkeys ls.
Proof using.
  unfold touch_lineage. destruct (dget ls lid) as [l|] eqn:E; [|done].
  rewrite dkeys_dset, decide_True; [done|]. by eapply dget_Some_key.
Qed.

Lemma touch_lineage_id ls lid x k l :
  dget (touch_lineage ls lid x) k = Some l -> exists l', dget ls k = Some l' /\ l_id l' = l_id l /\
    l_index l' = l_index l.
Proof using.
  unfold touch_lineage. destruct (dget ls lid) as [l0|] eqn:E; [|by eauto].
  rewrite dget_dset. case_decide as D; [|by eauto]. intros [= <-]. subst. by exists l0.
Qed.

Lemma touch_lineage_some ls lid x k : is_Some (dget ls k) -> is_Some (dget (touch_lineage ls lid x) k).
Proof using.
  unfold touch_lineage. destruct (dget ls lid); [|done]. intros I. rewrite dget_dset. by case_decide.
Qed.

(** What a recording call changes, when the lineage is known. *)
Lemma record_in_effect s a t1 t2 s' st sid lid : 
  ra_step_id a = Some sid -> ra_lineage_id a = Some lid -> record_in s a t1 t2 = (s', st) ->
  steps s' = steps s ++ [st] /\ lineages s' = touch_lineage (lineages s) lid sid /\
  _lineage_counter s' = _lineage_counter s /\ oid s' = oid s /\
  SessionManager.session_id s' = SessionManager.session_id s /\ request_locked s' = request_locked s /\
  s_rollout_epoch s' = s_rollout_epoch s /\ instance_id s' = instance_id s /\
  exists ix, st = make_step a sid lid ix t1.
Proof using. unfold record_in. intros -> ->. intros [= <- <-]. split_and!; try done. by eexists. Qed.

Lemma served_record s a t1 t2 s' st sid lid :
  served s -> ra_step_id a = Some sid -> ra_lineage_id a = Some lid ->
  is_Some (dget (lineages s) lid) ->
  (cf_mode cfg = tito ->
   (if ra_lineage_segment_boundary_before a then [] else joined_from [] (lineage_steps s lid))
   ++ default [] (ra_concat_token_ids a) = ra_snapshot_token_ids a) ->
  record_in s a t1 t2 = (s', st) -> served s'.
Proof using.
  intros V Es El L J E.
  destruct (record_in_ok _ _ _ _ _ _ E (sv_steps _ _ V) (sv_turn _ _ V)) as (S & T & _).
  destruct (record_in_effect _ _ _ _ _ _ _ _ Es El E) as (St & Ls & Lc & _ & _ & _ & _ & _ & ix & Ex).
  pose proof (sv_lineages _ _ V) as [N I Lo]. pose proof (sv_counter _ _ V) as [C K].
  split; [done|done| | |].
  - split; rewrite Ls.
    + by rewrite touch_lineage_keys.
    + intros k l (l' & G & <- & _)%touch_lineage_id. by apply I.
    + intros x. rewrite St, elem_of_app, list_elem_of_singleton. intros [Hx| ->].
      * by apply touch_lineage_some, Lo.
      * rewrite Ex. by apply touch_lineage_some.
  - rewrite Lc, Ls. split; [done|]. intros k [l (l' & G & _)%touch_lineage_id]. by eauto.
  - intros M k. unfold lineage_steps. rewrite St, List.filter_app. cbn [List.filter].
    pose proof (sv_builds _ _ V M k) as B. unfold lineage_steps in B.
    assert (Lk : sr_lineage_id st = lid) by (by rewrite Ex). rewrite Lk.
    destruct (String.eqb_spec lid k) as [<-|]; [|by rewrite app_nil_r].
    apply builds_snoc; [done|]. rewrite joined_snoc, Ex. by apply J.
Qed.
End Record.

(** ** The steps *)

Section Steps.
Context `{PyText}.
Variable cfg : Config.

(** The arrays of a step fit together. *)
Record step_aligned (st : StepRecord) : Prop := {
  al_all : sr_all_token_ids st = sr_prompt_token_ids st ++ sr_response_token_ids st;
  al_snapshot : cf_mode cfg = tito -> sr_snapshot_token_ids st = sr_all_token_ids st;
  al_mask : cf_mode cfg = tito -> exists n,
    length (sr_concat_token_ids st) = (n + length (sr_response_token_ids st))%nat /\
    sr_concat_response_mask st = replicate n 0%Z ++ replicate (length (sr_response_token_ids st)) 1%Z;
  al_versions : cf_mode cfg = tito -> length (sr_concat_versions st) = length (sr_concat_token_ids st);
  al_logprobs : cf_mode cfg = tito -> forall l, sr_concat_response_logprobs st = inl l ->
    length l = length (sr_concat_token_ids st) }.

(** Without partial rollout every real weight version recorded is the same. *)
Definition one_version (l : list StepRecord) : Prop :=
  cf_partial_rollout cfg = false ->
  exists v, Forall (fun st => Forall (fun o => forall x, _real_token_version o = Some x -> x = v)
                                     (step_versions st)) l.

Definition steps_inv (l : list StepRecord) : Prop := Forall step_aligned l /\ one_version l.

Lemma step_aligned_bare a b : bare a = bare b -> step_aligned a -> step_aligned b.
Proof using.
  intros E [A1 A2 A3 A4 A5].
  split; rewrite <- ?(bare_field sr_all_token_ids a b), <- ?(bare_field sr_prompt_token_ids a b),
    <- ?(bare_field sr_response_token_ids a b), <- ?(bare_field sr_snapshot_token_ids a b),
    <- ?(bare_field sr_concat_token_ids a b), <- ?(bare_field sr_concat_response_mask a b),
    <- ?(bare_field sr_concat_versions a b), <- ?(bare_field sr_concat_response_logprobs a b) by done;
    done.
Qed.

#[export] Instance steps_inv_proper : Proper (same_steps ==> iff) steps_inv.
Proof using.
  assert (F : forall l l', same_steps l l' -> Forall step_aligned l -> Forall step_aligned l').
  { induction l as [|x l IH]; intros [|x' l'] E; try done. apply same_steps_cons in E as [E1 E2].
    intros [A B]%Forall_cons. constructor; [by eapply step_aligned_bare|by apply IH]. }
  assert (G : forall l l', same_steps l l' -> one_version l -> one_version l').
  { intros l l' E O P. destruct (O P) as [v Fv]. exists v.
    assert (M : Forall (Forall (fun o => forall x, _real_token_version o = Some x -> x = v))
                  (map step_versions l)) by (apply Forall_map; exact Fv).
    rewrite (same_steps_map step_versions l l') in M by done. exact (proj1 (List.Forall_map _ _ _) M). }
  intros l l' E. split; intros [A B]; (split; [eapply F|eapply G]); try done; by symmetry.
Qed.

Lemma steps_inv_nil : steps_inv [].
Proof using. split; [constructor|]. intros _. by exists "". Qed.

Lemma set_add_in l x y : y ∈ set_add l x <-> y ∈ l \/ y = x.
Proof using. unfold set_add. case_bool_decide; set_solver. Qed.

Lemma add_versions_in vs : forall seen x,
  x ∈ add_versions seen vs <-> x ∈ seen \/ exists o, o ∈ vs /\ _real_token_version o = Some x.
Proof using.
  unfold add_versions. induction vs as [|o vs IH]; intros seen x; [set_solver|]. simpl.
  destruct (_real_token_version o) as [y|] eqn:E; simpl; rewrite IH, ?set_add_in; set_solver.
Qed.

Lemma elem_of_concat_map {A B} (f : A -> list B) l x :
  x ∈ concat (map f l) <-> exists y, y ∈ l /\ x ∈ f y.
Proof using.
  rewrite list_elem_of_In, in_concat. setoid_rewrite in_map_iff. setoid_rewrite list_elem_of_In. naive_solver.
Qed.

Lemma session_versions_in s x : x ∈ _session_real_versions s <->
  exists st o, st ∈ steps s /\ o ∈ step_versions st /\ _real_token_version o = Some x.
Proof using.
  unfold _session_real_versions. rewrite add_versions_in. setoid_rewrite elem_of_concat_map. split.
  - intros [?%elem_of_nil|(o & (st & I & Io) & R)]; [done|]. by exists st, o.
  - intros (st & o & I & Io & R). right. by eauto.
Qed.

(** The guards admit a result whose versions keep the session at one version. *)
Lemma one_version_record s r st a :
  check_versions cfg s r = Done tt -> generation_ok (cf_partial_rollout cfg) a r ->
  one_version (steps s) ->
  (forall o, o ∈ step_versions st -> o = Some (result_version r) \/ o ∈ map Some (result_versions r)) ->
  one_version (steps s ++ [st]).
Proof using.
  intros C G O Hst P. destruct (O P) as [v Fv].
  assert (N : exists w, forall o x, (o = Some (result_version r) \/ o ∈ map Some (result_versions r)) ->
            _real_token_version o = Some x -> x = w).
  { destruct (go_one_version _ _ _ G P) as [w Fw]. exists (result_version r).
    assert (All : forall y, y ∈ result_versions r -> y = result_version r).
    { intros y. unfold result_versions, result_version. case_match; [|by intros [-> _]%elem_of_replicate].
      destruct (last (pr_output_versions r)) as [u|] eqn:El; [|apply last_None in El; rewrite El; by intros ?%elem_of_nil].
      apply last_Some_elem_of in El. rewrite Forall_forall in Fw.
      intros Iy. by rewrite <- (Fw y Iy), <- (Fw u El). }
    intros o x [->|(y & -> & Iy)%list_elem_of_fmap]; simpl; case_match; intros [= <-]; auto. }
  destruct N as [w N].
  unfold check_versions, _raise_if_cross_version_trajectory in C. rewrite P in C.
  destruct (_session_real_versions s) as [|u us] eqn:Es.
  - exists w. apply Forall_app. split.
    + apply Forall_forall. intros st' I. apply Forall_forall. intros o Io x R. exfalso.
      assert (X : x ∈ _session_real_versions s) by (apply session_versions_in; eauto).
      rewrite Es in X. by apply elem_of_nil in X.
    + apply Forall_singleton, Forall_forall. intros o Io x R. eapply N; [by apply Hst|done].
  - exists v. apply Forall_app. split; [done|]. apply Forall_singleton, Forall_forall. intros o Io x R.
    assert (X : x ∈ u :: us).
    { set (cs := add_versions [] _) in C.
      assert (Ix : x ∈ cs).
      { apply add_versions_in. right. exists o. split; [|done]. destruct (Hst o Io) as [->|I];
          apply elem_of_app; [right; left|by left]. }
      destruct (Nat.eqb (length cs) 0) eqn:El.
      { apply Nat.eqb_eq in El. destruct cs; [by apply elem_of_nil in Ix|done]. }
      cbn [orb] in C. destruct (forallb _ cs) eqn:Ef; [|done]. rewrite forallb_forall in Ef.
      apply list_elem_of_In in Ix. specialize (Ef x Ix). by apply bool_decide_eq_true in Ef. }
    rewrite <- Es in X. apply session_versions_in in X as (st' & o' & I' & Io' & R').
    rewrite Forall_forall in Fv. specialize (Fv st' I'). rewrite Forall_forall in Fv. by eapply Fv.
Qed.
End Steps.

(** ** A recorded step *)

Section Good.
Context `{PyText}.
Variable cfg : Config.

Definition good (s : Session) : Prop := served cfg s /\ steps_inv cfg (steps s).

Lemma concat_payload_lengths delta ids lps vs failed :
  let cp := _build_concat_step_payload delta ids lps vs failed in
  cp_token_ids cp = delta ++ ids /\
  cp_response_mask cp = replicate (length delta) 0%Z ++ replicate (length ids) 1%Z /\
  length (cp_versions cp) = length (cp_token_ids cp) /\
  length (cp_response_logprobs cp) = length (cp_token_ids cp).
Proof using.
  unfold _build_concat_step_payload.
  pose proof (normalize_loop_length (length ids) (map PFloat lps)) as L.
  unfold normalize_logprobs_to_length.
  destruct (normalize_loop (length ids) (map PFloat lps)) as [out inv]. simpl in L |- *.
  rewrite !length_app, !length_replicate, L. split; [done|]. split; [done|]. split; [|done].
  destruct (Nat.eqb_spec (length vs) (length ids)) as [->|]; [done|by rewrite length_replicate].
Qed.

Lemma committed_good s0 q env p r s a final refs t1 t2 s' st :
  good s0 -> stays s0 s -> begun cfg env s0 p ->
  generation_ok (cf_partial_rollout cfg) (pr_gen_args p) r -> check_versions cfg s0 r = Done tt ->
  committed cfg q p r s a final -> record_in s (with_refs a refs) t1 t2 = (s', st) ->
  good s'.
Proof using.
  intros [V I] K B G C (reply & meta & norm & full & rendered & snap & cp & experts & id & ix & -> & Cp & L & _) E.
  pose proof (stays_served cfg _ _ K V) as V'. destruct K as (K1 & _ & _ & K4 & _).
  destruct (record_in_effect s (with_refs (step_args cfg q p r reply meta norm full rendered snap cp experts
              id ix) refs) t1 t2 s' st id (r_lineage_id (pr_route p)) eq_refl eq_refl E)
    as (St & _ & _ & _ & _ & _ & _ & _ & ix' & Ex).
  split.
  - apply (served_record cfg s (with_refs (step_args cfg q p r reply meta norm full rendered snap cp experts
              id ix) refs) t1 t2 s' st id (r_lineage_id (pr_route p)));
      [done|reflexivity|reflexivity| | |exact E].
    + destruct L as (l & L & _). simpl. by exists l.
    + intros M. destruct (Cp M) as [-> [failed ->]]. cbn [with_refs step_args ra_lineage_segment_boundary_before
        ra_concat_token_ids ra_snapshot_token_ids fmap option_fmap option_map default from_option].
      set (rec := recorded cfg r (input_ids (pr_prompt p))).
      destruct (concat_payload_lengths (context_delta_ids (pr_prompt p)) (rc_ids rec) (rc_logprobs rec)
                  (rc_versions rec) failed) as (-> & _).
      pose proof (bg_delta _ _ _ _ B M) as D. unfold delta_ok, lineage_steps in D.
      unfold lineage_steps. unfold Datatypes.id. rewrite K1, app_assoc. f_equal. by symmetry.
  - rewrite St, K1. split; [apply Forall_app; split; [apply I|]; apply Forall_singleton|].
    + rewrite Ex. set (rec := recorded cfg r (input_ids (pr_prompt p))).
      assert (All : rc_all_ids rec = input_ids (pr_prompt p) ++ rc_ids rec).
      { unfold rec, recorded. destruct (output_overflow cfg r); simpl; [by rewrite app_nil_r|].
        by rewrite (go_all _ _ _ G), (bg_input _ _ _ _ B). }
      split; [exact All|..]; intros M; destruct (Cp M) as [-> [failed ->]];
        destruct (concat_payload_lengths (context_delta_ids (pr_prompt p)) (rc_ids rec) (rc_logprobs rec)
                    (rc_versions rec) failed) as (T1 & T2 & T3 & T4).
      * symmetry. exact All.
      * exists (length (context_delta_ids (pr_prompt p))). cbn -[_build_concat_step_payload recorded].
        fold rec. rewrite T1, T2, length_app. done.
      * exact T3.
      * cbn -[_build_concat_step_payload recorded]. unfold put_ref_opt.
        destruct (dget refs _); [done|]. simpl. fold rec. by intros l [= <-].
    + eapply one_version_record; [exact C|exact G|apply I|]. intros o. rewrite Ex. unfold step_versions.
      cbn -[recorded result_version]. rewrite elem_of_app, !elem_of_cons, elem_of_nil.
      unfold recorded. destruct (output_overflow cfg r); simpl; [|naive_solver].
      intros [?%elem_of_nil|[|[|]]]; naive_solver.
Qed.
End Good.

(** ** The manager *)

Section Manager.
Context `{PyText}.
Variable cfg : Config.
Abbreviation good := (good cfg).

Definition all_good (m : SessionManager) : Prop :=
  manager_ok m /\ forall k s, dget (_sessions m) k = Some s -> good s.

(** What other requests and the expiry sweep do to a session object. *)
Definition minor (s s' : Session) : Prop := stays s s' /\ s_rollout_epoch s' = s_rollout_epoch s.

#[export] Instance minor_preorder : PreOrder minor.
Proof using.
  split; [by intros s; split|]. intros s1 s2 s3 [A B] [A' B']. split; [by etransitivity|congruence].
Qed.

#[local] Hint Extern 1 (minor _ _) => reflexivity : core.

Lemma minor_good s s' : minor s s' -> good s -> good s'.
Proof using.
  intros [K _] [V I]. split; [by eapply stays_served|]. by rewrite (proj1 K).
Qed.

Lemma minor_begun env s s' p : minor s s' -> begun cfg env s p -> begun cfg env s' p.
Proof using.
  intros [(A1 & A2 & A3 & A4 & _) E] [B1 B2 B3 B4 B5 B6].
  split; unfold route_ok, delta_ok, route_base, step_by_id, lineage_steps in *;
    rewrite ?A1, ?A2, ?A4, ?E; done.
Qed.

(** Sessions come from before or are new, and locked ones stay. *)
Definition evolve (m m' : SessionManager) : Prop :=
  (forall k s', dget (_sessions m') k = Some s' ->
     (exists s, dget (_sessions m) k = Some s /\ minor s s') \/
     exists o i t1 t2, minor (new_session o k i t1 t2) s') /\
  (forall k s, dget (_sessions m) k = Some s -> request_locked s = true ->
     exists s', dget (_sessions m') k = Some s' /\ minor s s').

Lemma evolve_refl m : evolve m m.
Proof using. split; intros k s E; [left|]; exists s; by split. Qed.

Lemma evolve_good m m' : evolve m m' -> manager_ok m' -> all_good m -> all_good m'.
Proof using.
  intros [F _] M [_ G]. split; [done|]. intros k s' E. destruct (F k s' E) as [(s & Es & N)|(o & i & t1 & t2 & N)];
    (eapply minor_good; [exact N|]); [exact (G _ _ Es)|].
  split; [apply new_session_served|apply steps_inv_nil].
Qed.

Lemma evolve_cleanup m now : manager_ok m -> evolve m (_cleanup_expired_locked m now).
Proof using.
  intros M. split; intros k s; rewrite cleanup_session by apply M.
  - destruct (dget (_sessions m) k) as [s0|] eqn:E; [|done]. simpl. unfold sweep_one.
    destruct (within_timeout _ _ _); [intros [= <-]; left; by eauto|].
    destruct (request_locked s0); [|done]. intros [= <-]. left. exists s0. split; [done|]. by split.
  - intros -> L. simpl. unfold sweep_one. destruct (within_timeout _ _ _); [by eauto|].
    rewrite L. eexists. split; [done|]. by split.
Qed.

Lemma evolve_trans m1 m2 m3 : evolve m1 m2 -> evolve m2 m3 -> evolve m1 m3.
Proof using.
  intros [A B] [A' B']. split.
  - intros k s' E. destruct (A' k s' E) as [(s & Es & N)|R]; [|by right].
    destruct (A k s Es) as [(s0 & E0 & N0)|(o & i & t1 & t2 & N0)]; [left; exists s0|right; exists o, i, t1, t2];
      [split; [done|]|]; by etransitivity.
  - intros k s E L. destruct (B k s E L) as (s1 & E1 & N1).
    destruct (B' k s1 E1) as (s2 & E2 & N2); [destruct N1 as [(_ & _ & _ & _ & _ & _ & _ & _ & X) _]; by rewrite X|].
    exists s2. split; [done|by etransitivity].
Qed.

Lemma evolve_get m sid iid u1 u2 now t1 t2 : manager_ok m -> op_fresh m (OGet sid iid u1 u2 now t1 t2) ->
  evolve m (fst (get_or_create_session m sid iid u1 u2 now t1 t2)).
Proof using.
  intros M Fr. unfold get_or_create_session. pose proof (evolve_cleanup m now M) as C.
  apply (evolve_trans m (_cleanup_expired_locked m now)); [exact C|].
  apply (cleanup_ok m now) in M. unfold op_fresh in Fr. set (m' := _cleanup_expired_locked m now) in *. clearbody m'. clear m C.
  destruct (has_id sid (_finalized_session_ids m')) eqn:Hf; [apply evolve_refl|].
  destruct (if has_id sid (_sessions m') then _ else _) as [[k s]|] eqn:Hs.
  - assert (Ek : dget (_sessions m') k = Some s).
    { destruct (has_id sid (_sessions m')); [|done]. destruct sid as [x|]; [|done]. simpl in Hs.
      destruct (dget (_sessions m') x) eqn:Ex; [|done]. simpl in Hs. by injection Hs as <- <-. }
    cbn [fst]. match goal with |- evolve _ (set_sessions _ (dset _ _ ?x)) => set (s' := x) end.
    assert (N : minor s s') by (unfold s'; destruct iid as [x|]; [destruct (_ && _)|]; by split).
    clearbody s'.
    split; intros j x; cbn [_sessions set_sessions]; rewrite dget_dset; case_decide as D.
    + intros [= <-]. subst j. left. eauto.
    + intros E. left. by exists x.
    + subst j. rewrite Ek. intros [= <-] _. eauto.
    + by eauto.
  - cbn [fst _sessions]. assert (Nk : dget (_sessions m') (or_uuid sid u1) = None).
    { destruct sid as [x|]; [|by apply Fr]. simpl in *. destruct (String.eqb_spec x ""); [by apply Fr|].
      simpl in Hs. case_bool_decide as B; simpl in Hs.
      - destruct (dget (_sessions m') x) eqn:Ex; [done|]. by apply dget_None_key in Ex.
      - by apply dget_None_key. }
    split; intros j x; cbn [_sessions fst]; rewrite dget_dset; case_decide as D.
    + intros [= <-]. subst j. right. eexists _, _, _, _. reflexivity.
    + intros E. left. by exists x.
    + subst j. by rewrite Nk.
    + by eauto.
Qed.
End Manager.

(** ** The proxy *)

Section Held.
Context `{PyText}.
Variable cfg : Config.
Abbreviation good := (good cfg).
Abbreviation sid_of := SessionManager.session_id.

Definition upd (m : SessionManager) (k : string) (s : Session) : SessionManager :=
  set_sessions m (dset (_sessions m) k s).

(** The object is the one registered under its id. *)
Definition attached (m : SessionManager) (s s0 : Session) : Prop :=
  dget (_sessions m) (sid_of s) = Some s0 /\ oid s0 = oid s.

Definition detached (m : SessionManager) (s : Session) : Prop := forall s0, ~ attached m s s0.

Lemma attached_dec m s : (exists s0, attached m s s0) \/ detached m s.
Proof using.
  unfold detached, attached. destruct (dget (_sessions m) (sid_of s)) as [s0|]; [|right; by intros s0 []].
  destruct (decide (oid s0 = oid s)); [left; by exists s0|right]. by intros x [[= <-] O].
Qed.

Lemma get_held_detached m s : detached m s -> get_held m s = s.
Proof using.
  intros D. unfold get_held. destruct (dget (_sessions m) (sid_of s)) as [s0|] eqn:E; [|done].
  destruct (Nat.eqb_spec (oid s0) (oid s)); [|done]. by destruct (D s0).
Qed.

Lemma put_held_detached m s : detached m s -> put_held m s = m.
Proof using.
  intros D. unfold put_held. destruct (dget (_sessions m) (sid_of s)) as [s0|] eqn:E; [|done].
  destruct (Nat.eqb_spec (oid s0) (oid s)); [|done]. by destruct (D s0).
Qed.

Lemma detached_cleanup m s now : manager_ok m -> detached m s -> detached (_cleanup_expired_locked m now) s.
Proof using.
  intros M D x [E O]. rewrite cleanup_session in E by apply M.
  destruct (dget (_sessions m) (sid_of s)) as [y|] eqn:Ey; [|done]. apply (D y). split; [done|].
  simpl in E. unfold sweep_one in E. destruct (within_timeout _ _ _); [by injection E as ->|].
  destruct (request_locked y); [|done]. by injection E as <-.
Qed.

Lemma get_held_attached m s s0 : attached m s s0 -> get_held m s = s0.
Proof using. intros [E O]. unfold get_held. rewrite E, O. by rewrite Nat.eqb_refl. Qed.

Lemma put_held_attached m s s0 : attached m s s0 -> put_held m s = upd m (sid_of s) s.
Proof using. intros [E O]. unfold put_held. rewrite E, O. by rewrite Nat.eqb_refl. Qed.

Lemma attached_upd m s s0 x : attached m s s0 -> oid x = oid s -> attached (upd m (sid_of s) x) s x.
Proof using. intros [E O] Ox. split; [|done]. simpl. by rewrite dget_dset_eq. Qed.

Lemma upd_good m k s0 s : all_good cfg m -> dget (_sessions m) k = Some s0 -> good s -> sid_of s = k ->
  oid s = oid s0 -> all_good cfg (upd m k s).
Proof using.
  intros [M G] E Gs I O. split.
  - eapply update_ok; [exact M|exact E| |done]. destruct Gs as [V _]. split; [done|].
    split; [apply (sv_turn _ _ V)|apply (sv_steps _ _ V)].
  - intros j x. simpl. rewrite dget_dset. case_decide; [by intros [= <-]|]. by apply G.
Qed.

Definition gen_sid (t : task) : option string :=
  match t with Generating _ _ s _ => Some (sid_of s) | _ => None end.

(** A generating request holds the lock of the registered object it was prepared on. *)
Definition task_ok (m : SessionManager) (t : task) : Prop :=
  match t with
  | Generating q env s1 p => exists s, attached m s1 s /\ request_locked s = true /\ begun cfg env s p
  | _ => True
  end.

Lemma task_evolve m m' t : evolve m m' -> task_ok m t -> task_ok m' t.
Proof using.
  intros [_ L]. destruct t as [|q env s1 p|]; [done| |done]. intros (s & [E O] & Lk & B).
  destruct (L _ _ E Lk) as (s' & E' & N). exists s'. split; [split; [done|]|split].
  - destruct N as [(_ & _ & _ & _ & _ & _ & X & _) _]. congruence.
  - destruct N as [(_ & _ & _ & _ & _ & _ & _ & _ & X) _]. by rewrite X.
  - by eapply minor_begun.
Qed.

Lemma task_upd m k s t : gen_sid t <> Some k -> task_ok m t -> task_ok (upd m k s) t.
Proof using.
  destruct t as [|q env s1 p|]; [done| |done]. simpl. intros N (x & [E O] & B). exists x. split; [|done].
  split; [|done]. simpl. rewrite dget_dset_ne; [done|congruence].
Qed.

(** A request whose lock is free is not generating on that session. *)
Lemma unlocked_free m s s0 t : attached m s s0 -> request_locked s0 = false -> task_ok m t ->
  gen_sid t <> Some (sid_of s).
Proof using.
  intros [E O] L. destruct t as [|q env s1 p|]; [done| |done]. simpl. intros (x & [Ex Ox] & Lx & _) [= Q].
  rewrite Q, E in Ex. injection Ex as ->. congruence.
Qed.

Lemma locked_good s b : good s -> good (set_locked s b).
Proof using.
  intros [V I]. split; [|done]. apply (served_same cfg s); try done. apply (sv_turn _ _ V).
Qed.

(** Releasing the lock of a registered object. *)
Lemma release_good m s s0 : all_good cfg m -> attached m s s0 ->
  all_good cfg (release m s) /\
  forall t, task_ok m t -> gen_sid t <> Some (sid_of s) -> task_ok (release m s) t.
Proof using.
  intros G A. pose proof A as [E O]. unfold release. rewrite (get_held_attached _ _ _ A).
  destruct G as [M G]. destruct (mo_each _ M _ _ E) as (I & _).
  rewrite (put_held_attached _ _ s0) by (split; [simpl; by rewrite I|done]). cbn [SessionManager.session_id set_locked].
  rewrite I. split.
  - apply (upd_good m _ s0); [by split|done|apply locked_good, (G _ _ E)|done|done].
  - intros t T N. by apply task_upd.
Qed.

Lemma kept_good s s' : kept s s' -> served cfg s' -> good s -> good s'.
Proof using. intros (E & _) V [_ I]. split; [done|]. by rewrite <- E. Qed.
End Held.

Lemma insert_unlocks (ts : list task) i k0 k :
  ts !! i = Some k0 -> gen_sid k = None \/ (forall j kj x, ts !! j = Some kj -> gen_sid kj = Some x -> gen_sid k <> Some x) ->
  (forall a b ka kb x, ts !! a = Some ka -> ts !! b = Some kb -> gen_sid ka = Some x -> gen_sid kb = Some x -> a = b) ->
  forall a b ka kb x, <[i := k]> ts !! a = Some ka -> <[i := k]> ts !! b = Some kb ->
    gen_sid ka = Some x -> gen_sid kb = Some x -> a = b.
Proof.
  intros Hi N U a b ka kb x. rewrite !list_lookup_insert by (by eapply lookup_lt_Some).
  intros Ea Eb Ga Gb.
  destruct (decide (i = a)) as [<-|Da], (decide (i = b)) as [<-|Db]; try done.
  - rewrite decide_True in Ea by (split; [done|by eapply lookup_lt_Some]). injection Ea as <-.
    rewrite decide_False in Eb by (by intros [? _]). destruct N as [N|N]; [congruence|]. by destruct (N b kb x).
  - rewrite decide_True in Eb by (split; [done|by eapply lookup_lt_Some]). injection Eb as <-.
    rewrite decide_False in Ea by (by intros [? _]). destruct N as [N|N]; [congruence|]. by destruct (N a ka x).
  - rewrite decide_False in Ea by (by intros [? _]). rewrite decide_False in Eb by tauto. by eapply U.
Qed.

Section Invariant.
Context `{PyText}.
Variable cfg : Config.
Variable iter : list string -> list string.
Variable template : list msg -> option (list pyval) -> bool -> result string.
Variable template_ids : list msg -> option (list pyval) -> bool -> result (list Z).
Variable encode : string -> result (list Z).
Variables newline_id im_end_id : option Z.
Variable hook_chain : option (string -> ToolCallContext -> hook_result).
Variable parse_reasoning : string -> result (string * option string).
Variable parse_tool_calls : string -> option (list pyval) -> result (option string * option (list pyval)).
Variable estimate_tokens : string -> Z.
Variable b64decode : string -> result (list Z).
Context {T : Type} `{KV T}.
Variable runtime : option TransferQueueRuntime.
Abbreviation good := (good cfg).
Abbreviation all_good := (all_good cfg).
Abbreviation task_ok := (task_ok cfg).
Abbreviation sid_of := SessionManager.session_id.
Abbreviation acquire := (acquire_request cfg iter template template_ids encode newline_id im_end_id hook_chain).
Abbreviation finish := (finish_request cfg template template_ids hook_chain parse_reasoning parse_tool_calls
  estimate_tokens b64decode runtime).
Abbreviation step := (px_step cfg iter template template_ids encode newline_id im_end_id hook_chain
  parse_reasoning parse_tool_calls estimate_tokens b64decode runtime).

Lemma ensure_result m sid o now : exists r,
  ensure_session_active m sid o now = (_cleanup_expired_locked m now, r) /\
  ((exists e, r = Raise (SessionFinalizedError e)) \/
   r = Ok tt /\ exists x, dget (_sessions (_cleanup_expired_locked m now)) sid = Some x /\ oid x = o).
Proof using.
  unfold ensure_session_active. destruct (dget (_finalized_session_ids _) sid); [by eauto 10|].
  destruct (dget (_sessions _) sid) as [x|]; [|by eauto 10].
  destruct (Nat.eqb_spec (oid x) o); by eauto 10.
Qed.

Lemma attached_sid m s s0 : all_good m -> attached m s s0 -> sid_of s0 = sid_of s.
Proof using. intros [M _] [E _]. by destruct (mo_each _ M _ _ E). Qed.

(** The first half on a registered object. *)
Lemma begin_registered m s b q env s1 o :
  all_good m -> attached m s b -> 
  begin_request cfg iter template template_ids encode newline_id im_end_id hook_chain q env b = (s1, o) ->
  let m' := upd m (sid_of s) s1 in
  put_held m s1 = m' /\ all_good m' /\ attached m' s1 s1 /\ sid_of s1 = sid_of s /\
  request_locked s1 = request_locked b /\
  match o with Done p => begun cfg env s1 p | Fail _ => True end.
Proof using.
  intros G A Eq m'. pose proof (proj2 G _ _ (proj1 A)) as Gb. pose proof (attached_sid _ _ _ G A) as Ib.
  assert (Sb : safe cfg b b) by (split; [apply Gb|reflexivity]).
  pose proof (begin_request_ok cfg iter template template_ids encode newline_id im_end_id hook_chain b q env
                b s1 o Sb Eq) as B.
  assert (S1 : safe cfg b s1) by (destruct o; [apply B|exact B]). destruct S1 as [V1 K1].
  pose proof (kept_good cfg _ _ K1 V1 Gb) as Gs1. destruct K1 as (_ & _ & O1 & I1 & L1).
  assert (Is : sid_of s1 = sid_of s) by congruence.
  assert (A1 : attached m s1 b) by (split; [rewrite Is; apply A|done]).
  rewrite (put_held_attached _ _ _ A1), Is. split; [done|]. split; [|split; [|split; [done|split; [done|]]]].
  - apply (upd_good cfg m _ b); [done|apply A|done|done|done].
  - unfold m'. rewrite <- Is. by apply (attached_upd _ _ b).
  - destruct o; [apply B|done].
Qed.

Lemma acquire_ok m q env s0 m' r :
  all_good m -> request_locked (get_held m s0) = false -> acquire m q env s0 = (m', r) ->
  all_good m' /\ (forall t, task_ok m t -> task_ok m' t) /\
  match r with
  | Done (s1, p) => task_ok m' (Generating q env s1 p) /\
      forall t, task_ok m t -> gen_sid t <> Some (sid_of s1)
  | Fail _ => True
  end.
Proof using.
  intros G L. unfold acquire_request. set (s := set_locked (get_held m s0) true).
  destruct (attached_dec m s0) as [[h A]|D].
  - rewrite (get_held_attached _ _ _ A) in L. pose proof (attached_sid _ _ _ G A) as I.
    assert (Es : s = set_locked h true) by (unfold s; by rewrite (get_held_attached _ _ _ A)).
    assert (As : attached m s h) by (destruct A as [E O]; split; [rewrite Es; simpl; by rewrite I|by rewrite Es]).
    rewrite (put_held_attached _ _ _ As). set (m1 := upd m (sid_of s) s).
    assert (G1 : all_good m1).
    { apply (upd_good cfg m _ h); [done|apply As| |done|by rewrite Es].
      rewrite Es. apply locked_good, (proj2 G _ _ (proj1 A)). }
    assert (Fr : forall t, task_ok m t -> gen_sid t <> Some (sid_of s)) by (intros t; by eapply unlocked_free).
    assert (T1 : forall t, task_ok m t -> task_ok m1 t) by (intros t Ht; apply task_upd; auto).
    destruct (ensure_result m1 (sid_of s) (oid s) (ev_clock env)) as (x & -> & Hx).
    set (m2 := _cleanup_expired_locked m1 (ev_clock env)) in *.
    assert (Ev : evolve m1 m2) by apply evolve_cleanup, G1.
    assert (G2 : all_good m2) by (eapply evolve_good; [exact Ev|apply cleanup_ok, G1|done]).
    destruct (proj2 Ev (sid_of s) s) as (b & Eb & Nb); [simpl; by rewrite dget_dset_eq|by rewrite Es|].
    assert (Ob : oid b = oid s) by (apply (proj1 Nb)).
    assert (Ab : attached m2 s b) by (by split).
    assert (T2 : forall t, task_ok m t -> task_ok m2 t) by (intros t Ht; eapply task_evolve; eauto).
    destruct Hx as [[e ->]|[-> _]]; cbn [finalized_409].
    + intros [= <- <-]. destruct (release_good cfg _ _ _ G2 Ab) as [R1 R2]. split; [done|]. split; [|done]. auto.
    + rewrite (get_held_attached _ _ _ Ab). destruct (begin_request _ _ _ _ _ _ _ _ q env b) as [s1 o] eqn:Eq.
      destruct (begin_registered _ _ _ _ _ _ _ G2 Ab Eq) as (-> & G3 & A3 & Is & L1 & B).
      set (m3 := upd m2 (sid_of s) s1) in *.
      assert (T3 : forall t, task_ok m t -> task_ok m3 t) by (intros t Ht; apply task_upd; auto).
      destruct o as [p|f]; intros [= <- <-].
      * split; [done|]. split; [done|]. split.
        { exists s1. split; [done|]. split; [|exact B]. rewrite L1.
          destruct Nb as [(_ & _ & _ & _ & _ & _ & _ & _ & X) _]. rewrite X. by rewrite Es. }
        intros t Ht. rewrite Is. auto.
      * destruct (release_good cfg _ _ _ G3 A3) as [R1 R2]. split; [done|]. split; [|done].
        intros t Ht. apply R2; [auto|]. rewrite Is. auto.
  - assert (Es : s = set_locked s0 true) by (unfold s; by rewrite get_held_detached).
    assert (Ds : detached m s) by (rewrite Es; exact D). rewrite (put_held_detached _ _ Ds).
    destruct (ensure_result m (sid_of s) (oid s) (ev_clock env)) as (x & -> & Hx).
    assert (D2 : detached (_cleanup_expired_locked m (ev_clock env)) s) by (apply detached_cleanup; [apply G|done]).
    destruct Hx as [[e ->]|(_ & b & Eb & Ob)]; [|by destruct (D2 b)]. cbn [finalized_409]. intros [= <- <-].
    unfold release. rewrite (get_held_detached _ _ D2), put_held_detached by (exact D2).
    pose proof (evolve_cleanup m (ev_clock env) (proj1 G)) as Ev.
    split; [eapply evolve_good; [exact Ev|apply cleanup_ok, G|done]|]. split; [|done].
    intros t Ht. by eapply task_evolve.
Qed.

Lemma committed_stays q p r s s' a final :
  stays s s' -> committed cfg q p r s a final -> committed cfg q p r s' a final.
Proof using.
  intros (_ & _ & _ & K4 & _ & _ & _ & K8 & _) (c1 & c2 & c3 & c4 & c5 & c6 & c7 & c8 & c9 & c10 & Ea & Cp & L & F).
  exists c1, c2, c3, c4, c5, c6, c7, c8, c9, c10. rewrite K4. split; [done|]. split; [done|]. split; [done|].
  rewrite F. unfold output_overflow_payload. by rewrite K8.
Qed.

Lemma with_no_refs a : with_refs a [] = a.
Proof using. by destruct a. Qed.

(** What the recording of a committed step needs. *)
Definition to_record (env : Env) (q : ChatRequest) (p : Prepared) (a : StepArgs) (s : Session) : Prop :=
  exists s0 r final, good s0 /\ stays s0 s /\ begun cfg env s0 p /\
    generation_ok (cf_partial_rollout cfg) (pr_gen_args p) r /\ check_versions cfg s0 r = Done tt /\
    committed cfg q p r s a final.

Lemma to_record_good env q p a s refs t1 t2 s' st :
  to_record env q p a s -> record_in s (with_refs a refs) t1 t2 = (s', st) ->
  good s' /\ oid s' = oid s /\ sid_of s' = sid_of s.
Proof using.
  intros (s0 & r & final & G & K & B & Go & C & Cm) E. split; [by eapply committed_good|].
  destruct Cm as (c1 & c2 & c3 & c4 & c5 & c6 & c7 & c8 & c9 & c10 & -> & _).
  by destruct (record_in_effect s (with_refs (step_args cfg q p r c1 c2 c3 c4 c5 c6 c7 c8 c9 c10) refs)
            t1 t2 s' st c9 (r_lineage_id (pr_route p)) eq_refl eq_refl E) as (_ & _ & _ & O & I & _).
Qed.

Lemma record_registered m env q p a s refs t1 t2 :
  all_good m -> attached m s s -> to_record env q p a s ->
  exists s' st, record_step m (sid_of s) (with_refs a refs) t1 t2 = (upd m (sid_of s) s', Some st) /\
    all_good (upd m (sid_of s) s') /\ attached (upd m (sid_of s) s') s s'.
Proof using.
  intros G A R. unfold record_step. rewrite (proj1 A).
  destruct (record_in s (with_refs a refs) t1 t2) as [s' st] eqn:E.
  destruct (to_record_good _ _ _ _ _ _ _ _ _ _ R E) as (Gs & O & I).
  exists s', st. split; [done|]. split; [|by eapply attached_upd].
  apply (upd_good cfg m _ s); [done|apply A|done|done|done].
Qed.

Lemma incarnation_minor s i : minor s (set_incarnation s i).
Proof using. by split. Qed.

Lemma record_step_ok m t q p a s env m' t' r :
  all_good m -> attached m s s -> to_record env q p a s ->
  _record_step runtime m t s a env = (m', t', r) ->
  all_good m' /\ (exists x, attached m' s x) /\
  forall k, task_ok m k -> gen_sid k <> Some (sid_of s) -> task_ok m' k.
Proof using.
  intros G A R. unfold _record_step. destruct runtime as [rt|].
  - set (s2 := match SessionManager.incarnation_id s with None => _ | Some _ => s end).
    assert (N : minor s s2) by (unfold s2; destruct (SessionManager.incarnation_id s); [done|apply incarnation_minor]).
    assert (I2 : sid_of s2 = sid_of s) by apply N. assert (O2 : oid s2 = oid s) by apply N.
    assert (A2 : attached m s2 s) by (split; [rewrite I2; apply A|done]).
    rewrite (put_held_attached _ _ _ A2), <- I2. set (m2 := upd m (sid_of s2) s2).
    assert (G2 : all_good m2).
    { apply (upd_good cfg m _ s); [done|apply A2| |done|done].
      apply (minor_good cfg s); [done|]. apply (proj2 G _ _ (proj1 A)). }
    assert (A3 : attached m2 s2 s2) by (by eapply attached_upd).
    assert (R2 : to_record env q p a s2).
    { destruct R as (s0 & r0 & final & Gs & K & B & Go & C & Cm). exists s0, r0, final.
      split; [done|]. split; [etransitivity; [exact K|apply N]|]. split; [done|]. split; [done|]. split; [done|].
      eapply committed_stays; [apply N|done]. }
    assert (T2 : forall k, task_ok m k -> gen_sid k <> Some (sid_of s2) -> task_ok m2 k)
      by (intros k Tk Nk; by apply task_upd).
    assert (At : forall m' x, attached m' s2 x -> attached m' s x) by (intros m'' x [X Y]; by rewrite I2, O2 in *).
    destruct (offload_step _ _ _ _ _ _ _ _) as [[t2 refs]|e].
    + destruct (record_registered m2 env q p a s2 refs (ev_clock env) (ev_clock env) G2 A3 R2)
        as (s' & st & -> & G4 & A4).
      intros [= <- <- <-]. split; [done|]. split; [eauto|]. intros k Tk Nk. apply task_upd; auto.
    + intros [= <- <- <-]. split; [done|]. split; [eauto|]. auto.
  - destruct (record_registered m env q p a s [] (ev_clock env) (ev_clock env) G A R) as (s' & st & E & G4 & A4).
    rewrite with_no_refs in E. rewrite E. intros [= <- <- <-]. split; [done|]. split; [by eauto|].
    intros k Tk Nk. by apply task_upd.
Qed.

(** Writing back a session whose steps did not change. *)
Lemma commit_registered m s s1 s2 : all_good m -> attached m s1 s -> stays s s2 ->
  put_held m s2 = upd m (sid_of s1) s2 /\ all_good (upd m (sid_of s1) s2) /\
  attached (upd m (sid_of s1) s2) s2 s2 /\ sid_of s2 = sid_of s1 /\ oid s2 = oid s1.
Proof using.
  intros G A K. pose proof (proj2 G _ _ (proj1 A)) as Gs. pose proof (attached_sid _ _ _ G A) as Is.
  assert (G2 : good s2).
  { split; [eapply stays_served; [exact K|apply Gs]|]. rewrite (proj1 K). apply Gs. }
  destruct K as (K1 & K2 & K3 & K4 & K5 & K6 & K7 & K8 & K9).
  assert (I2 : sid_of s2 = sid_of s1) by congruence.
  assert (A2 : attached m s2 s) by (split; [rewrite I2; apply A|done]).
  rewrite (put_held_attached _ _ _ A2), I2. split; [done|]. split; [|split; [|split; [done|]]].
  - apply (upd_good cfg m _ s); [done|apply A|done|done|done].
  - rewrite <- I2. by eapply attached_upd.
  - rewrite K7. apply A.
Qed.

Lemma finish_ok m t q env s1 p m' t' o :
  all_good m -> task_ok m (Generating q env s1 p) ->
  (forall r, ev_generate env (pr_gen_args p) = Generated r ->
     generation_ok (cf_partial_rollout cfg) (pr_gen_args p) r) ->
  finish m t q env s1 p = (m', t', o) ->
  all_good m' /\ forall k, task_ok m k -> gen_sid k <> Some (sid_of s1) -> task_ok m' k.
Proof using.
  intros G (s & A & L & B) Gen. unfold finish_request. rewrite (get_held_attached _ _ _ A).
  destruct (commit_request _ _ _ _ _ _ _ _ q p _ s) as [s2 out] eqn:Ec.
  pose proof (commit_ok cfg template template_ids hook_chain parse_reasoning parse_tool_calls estimate_tokens
                b64decode s q p (ev_generate env (pr_gen_args p)) s s2 out eq_refl Ec) as C.
  assert (K : stays s s2) by (destruct out; [apply C|exact C]).
  destruct (commit_registered m s s1 s2 G A K) as (E2 & Gm & A3 & I2 & _).
  rewrite E2. set (m2 := upd m (sid_of s1) s2) in *.
  assert (T2 : forall k, task_ok m k -> gen_sid k <> Some (sid_of s1) -> task_ok m2 k)
    by (intros k Tk Nk; by apply task_upd).
  destruct out as [[a reply]|f].
  - destruct (_record_step runtime m2 t s2 a env) as [[m3 t3] r] eqn:Er.
    destruct C as (_ & r0 & Eg & Cv & Ep & Cm). cbn [fst snd] in Cm.
    assert (R : to_record env q p a s2).
    { exists s, r0, reply. split; [apply (proj2 G _ _ (proj1 A))|]. auto 10. }
    destruct (record_step_ok _ _ _ _ _ _ _ _ _ _ Gm A3 R Er) as (G3 & [x A4] & T3).
    intros [= <- <- <-]. destruct (release_good cfg _ _ _ G3 A4) as [R1 R2]. rewrite I2 in *.
    split; [done|]. auto.
  - intros [= <- <- <-]. destruct (release_good cfg _ _ _ Gm A3) as [R1 R2]. rewrite I2 in *.
    split; [done|]. auto.
Qed.

(** ** Every interleaving *)

Abbreviation proxy := (Proxy (T := T)).
Abbreviation run := (px_run cfg iter template template_ids encode newline_id im_end_id hook_chain
  parse_reasoning parse_tool_calls estimate_tokens b64decode runtime).

Definition env_ok (env : Env) : Prop :=
  forall a r, ev_generate env a = Generated r -> generation_ok (cf_partial_rollout cfg) a r.

Definition task_env (k : task) : option Env :=
  match k with Waiting _ env _ => Some env | Generating _ env _ _ => Some env | Answered _ => None end.

(** Fresh uuids are fresh, and generations keep their promise. *)
Definition event_ok (w : proxy) (e : px_event) : Prop :=
  match e with
  | Arrive q env =>
      env_ok env /\
      let '(sid, iid, _) := _runtime_ids_from_request (q_header q) (q_body q) in
      op_fresh (px_manager w) (OGet sid iid (ev_uuid1 env) (ev_uuid2 env) (ev_clock env) (ev_clock env) (ev_clock env))
  | _ => True
  end.

(** A session is discarded while no request holds its lock.  With a transfer queue the endpoint
    waits for the lock; without one it does not, and [discard_crosses_sessions] shows what
    follows. *)
Definition discard_waits (w : proxy) (e : px_event) : Prop :=
  match e with
  | Endpoint (ODiscard sid) =>
      runtime = None -> forall s, dget (_sessions (px_manager w)) sid = Some s -> request_locked s = false
  | _ => True
  end.

Fixpoint discards_wait (w : proxy) (es : list px_event) : Prop :=
  match es with
  | [] => True
  | e :: es => discard_waits w e /\ forall w', step w e = Some w' -> discards_wait w' es
  end.

Lemma queue_discards_wait es : forall w, runtime <> None -> discards_wait w es.
Proof using.
  induction es as [|e es IH]; intros w Q; [done|]. split; [|by auto].
  destruct e as [| | |[]]; try done. by intros N.
Qed.

Fixpoint events_ok (w : proxy) (es : list px_event) : Prop :=
  match es with
  | [] => True
  | e :: es => event_ok w e /\ forall w', step w e = Some w' -> events_ok w' es
  end.

Record px_inv (w : proxy) : Prop := {
  pi_good : all_good (px_manager w);
  pi_task : Forall (task_ok (px_manager w)) (px_tasks w);
  pi_env : Forall (fun k => forall env, task_env k = Some env -> env_ok env) (px_tasks w);
  pi_lock : forall i j ki kj x, px_tasks w !! i = Some ki -> px_tasks w !! j = Some kj ->
    gen_sid ki = Some x -> gen_sid kj = Some x -> i = j }.

Lemma endpoint_evolve w op : all_good (px_manager w) -> discard_waits w (Endpoint op) ->
  endpoint_op runtime (px_manager w) op = true -> evolve (px_manager w) (sm_step (px_manager w) op).
Proof using.
  intros [M _] Ok En.
  assert (Pop : forall sid m', dget (_sessions (px_manager w)) sid = None \/
            (exists s, dget (_sessions (px_manager w)) sid = Some s /\ request_locked s = false) ->
            _sessions m' = dpop (_sessions (px_manager w)) sid -> evolve (px_manager w) m').
  { intros sid m' Hs E. split; intros k s; rewrite E, dget_dpop by apply M; case_decide as D; try done.
    - intros Es. left. by exists s.
    - intros Es L. subst k. destruct Hs as [Hs|(x & Ex & Lx)]; congruence.
    - intros Es L. by exists s. }
  destruct op; try done; cbn [sm_step].
  - by apply evolve_cleanup.
  - unfold finalize_session. simpl in En. destruct (dget (_sessions (px_manager w)) sid) as [s|] eqn:Es;
      [|apply evolve_refl]. apply (Pop sid); [|done]. right. exists s. split; [done|].
    by apply negb_true_iff.
  - apply (Pop sid); [|done]. destruct (dget (_sessions (px_manager w)) sid) as [s|] eqn:Es; [|by left].
    right. exists s. split; [done|]. simpl in En, Ok. rewrite Es in En.
    destruct runtime; [by apply negb_true_iff|by apply Ok].
  - by apply evolve_cleanup.
Qed.

Lemma step_inv w e w' : px_inv w -> event_ok w e -> discard_waits w e -> step w e = Some w' -> px_inv w'.
Proof using.
  intros [G Tk Te U] Ok Dw. destruct e as [q env|i|i|op]; cbn [px_step].
  - unfold enter_request. destruct Ok as [Eo Fr].
    destruct (_runtime_ids_from_request _ _) as [[sid iid] turn].
    pose proof (evolve_get (px_manager w) sid iid (ev_uuid1 env) (ev_uuid2 env) (ev_clock env) (ev_clock env)
                  (ev_clock env) (proj1 G) Fr) as Ev.
    pose proof (get_or_create_ok (px_manager w) sid iid (ev_uuid1 env) (ev_uuid2 env) (ev_clock env)
                  (ev_clock env) (ev_clock env) (proj1 G) Fr) as M'.
    destruct (get_or_create_session _ _ _ _ _ _ _ _) as [m' r]. cbn [fst] in Ev, M'. intros [= <-].
    assert (Gn : forall o : outcome Session, gen_sid (match o with Done s => Waiting q env s | Fail f => Answered (Fail f) end) = None)
      by (by intros []).
    split; cbn [px_manager px_tasks].
    + by eapply evolve_good.
    + apply Forall_app. split; [eapply Forall_impl; [exact Tk|]; intros k; by apply task_evolve|].
      apply Forall_singleton. by destruct (out_bind _ _).
    + apply Forall_app. split; [done|]. apply Forall_singleton.
      destruct (out_bind _ _); [by intros ? [= <-]|done].
    + intros a b ka kb x Ea Eb Ga Gb. apply lookup_snoc_Some in Ea as [[_ Ea]|[_ <-]]; [|by rewrite Gn in Ga].
      apply lookup_snoc_Some in Eb as [[_ Eb]|[_ <-]]; [by eapply U|by rewrite Gn in Gb].
  - destruct (px_tasks w !! i) as [[q env s0| |]|] eqn:Ei; try done.
    destruct (request_locked _) eqn:L; [done|].
    destruct (acquire _ q env s0) as [m' r] eqn:Ea. intros [= <-].
    destruct (acquire_ok _ _ _ _ _ _ G L Ea) as (G' & T' & R).
    split; cbn [px_manager px_tasks px_set].
    + done.
    + apply Forall_insert; [eapply Forall_impl; [exact Tk|exact T']|]. destruct r as [[s1 p]|f]; [apply R|done].
    + apply Forall_insert; [done|]. rewrite Forall_forall in Te. specialize (Te _ (list_elem_of_lookup_2 _ _ _ Ei)).
      destruct r as [[s1 p]|f]; [by intros ? [= <-]; apply Te|done].
    + eapply insert_unlocks; [exact Ei| |exact U]. destruct r as [[s1 p]|f]; [right|by left].
      intros j kj x Ej Gj. simpl. intros [= <-]. destruct R as [_ R]. rewrite Forall_forall in Tk.
      by apply (R kj (Tk _ (list_elem_of_lookup_2 _ _ _ Ej))).
  - destruct (px_tasks w !! i) as [[|q env s1 p|]|] eqn:Ei; try done.
    destruct (finish _ _ q env s1 p) as [[m' t'] o] eqn:Ef. intros [= <-].
    rewrite Forall_forall in Tk, Te. pose proof (list_elem_of_lookup_2 _ _ _ Ei) as Ii.
    destruct (finish_ok _ _ _ _ _ _ _ _ _ G (Tk _ Ii) ltac:(by apply (Te _ Ii)) Ef) as [G' T'].
    split; cbn [px_manager px_tasks px_set].
    + done.
    + apply Forall_lookup. intros j kj. destruct (decide (i = j)) as [<-|D].
      * rewrite list_lookup_insert_eq by (by eapply lookup_lt_Some). by intros [= <-].
      * rewrite list_lookup_insert_ne by done. intros Ej. apply T'; [by apply Tk, (list_elem_of_lookup_2 _ _ _ Ej)|].
        intros Q. apply D. by eapply (U i j); [exact Ei|exact Ej| |exact Q].
    + apply Forall_insert; [by apply Forall_forall|done].
    + eapply insert_unlocks; [exact Ei|by left|exact U].
  - destruct (endpoint_op runtime (px_manager w) op) eqn:En; [|done]. intros [= <-].
    pose proof (endpoint_evolve w op G Dw En) as Ev.
    split; cbn [px_manager px_tasks]; [|eapply Forall_impl; [exact Tk|]; intros k; by apply task_evolve|done|done].
    eapply evolve_good; [exact Ev| |done]. apply sm_step_ok; [apply G|]. by destruct op.
Qed.

Lemma run_inv es : forall w w', px_inv w -> events_ok w es -> discards_wait w es ->
  run w es = Some w' -> px_inv w'.
Proof using.
  induction es as [|e es IH]; intros w w' I Ok Dw; cbn [px_run]; [by intros [= <-]|].
  destruct Ok as [O1 O2], Dw as [D1 D2]. destruct (step w e) as [w1|] eqn:E; [|done]. simpl. intros R.
  eapply IH; [|by apply O2|by apply D2|exact R]. by eapply step_inv.
Qed.

Lemma init_inv timeout t : px_inv (px_init timeout t).
Proof using.
  split; [split; [apply manager_init_ok|by intros k s]|constructor|constructor|by intros i j ki kj x].
Qed.

Lemma reachable_px timeout t es w :
  events_ok (px_init timeout t) es -> discards_wait (px_init timeout t) es ->
  run (px_init timeout t) es = Some w -> px_inv w.
Proof using. intros O D R. eapply run_inv; [apply init_inv|exact O|exact D|exact R]. Qed.
End Invariant.
