(* ===== verification/ProxyTheorems.v ===== *)
(** * Theorems of the proxy

    What holds of every session and every request in every interleaving of the proxy's
    events, from the invariant of [ProxyRuns]. *)

From S2P Require Import Prelude.
From S2P Require Import PyFloat.
From S2P Require Import PyVal.
From S2P Require Import Transport.
From S2P Require Import Generation.
From S2P Require Import Experts.
From S2P Require Import SessionManager.
From S2P Require Import Routing.
From S2P Require Import Tito.
From S2P Require Import Segments.
From S2P Require Import Offload.
From S2P Require Import Chat.
From S2P Require Import Pipeline.
From S2P Require Import Lineages.
From S2P Require Import ProxyRuns.
From Stdlib Require Import Ascii.

Local Open Scope string_scope.
Local Open Scope list_scope.
Local Open Scope py_scope.

(** ** Segments of a lineage that builds its tokens *)

Definition seg_tokens (g : Segment) : list Z := concat (map sr_concat_token_ids (sg_steps g)).

(** The segment's joined tokens are the snapshot of its last step. *)
Definition seg_snapshot (g : Segment) : Prop :=
  exists st, last (sg_steps g) = Some st /\ seg_tokens g = sr_snapshot_token_ids st.

Lemma segments_snapshot reasons lineage l : forall current rs acc,
  builds acc l -> acc = concat (map sr_concat_token_ids current) ->
  (forall st, last current = Some st -> acc = sr_snapshot_token_ids st) ->
  Forall seg_snapshot
    (segment_loop sr_lineage_segment_boundary_before reasons lineage current rs l).
Proof.
  induction l as [|st l IH]; intros current rs acc B E S; cbn [segment_loop].
  - destruct (last current) as [x|] eqn:L.
    + destruct current as [|c cs]; [done|]. constructor; [|constructor]. exists x. split; [done|].
      rewrite <- (S x eq_refl). by symmetry.
    + apply last_None in L. subst current. constructor.
  - destruct B as [Bs B]. destruct (sr_lineage_segment_boundary_before st && _) eqn:Bd.
    + apply andb_prop in Bd as [Bd N]. rewrite Bd in Bs, B. apply Forall_app. split.
      * destruct (last current) as [x|] eqn:L; [|apply last_None in L; by subst current].
        destruct current as [|c cs]; [done|]. constructor; [|constructor]. exists x. split; [done|].
        rewrite <- (S x eq_refl). by symmetry.
      * apply (IH _ _ _ B); [by simpl; rewrite app_nil_r|]. by intros x [= <-].
    + apply (IH _ _ _ B).
      * rewrite concat_map_snoc, <- E. f_equal. destruct (sr_lineage_segment_boundary_before st); [|done].
        destruct current; [by subst acc|done].
      * intros x. rewrite last_snoc. by intros [= <-].
Qed.

Lemma set_add_NoDup l x : NoDup l -> NoDup (set_add l x).
Proof.
  unfold set_add. case_bool_decide; [done|]. intros N. apply NoDup_app. split; [done|].
  split; [set_solver|]. apply NoDup_singleton.
Qed.

Lemma add_versions_NoDup vs : forall seen, NoDup seen -> NoDup (add_versions seen vs).
Proof.
  unfold add_versions. induction vs as [|o vs IH]; intros seen N; [done|]. simpl.
  destruct (_real_token_version o); [|by apply IH]. apply IH. by apply set_add_NoDup.
Qed.

Section Theorems.
Context `{PyText}.
Variable cfg : Config.
Variable iter : list string -> list string.
Variable template : list msg -> option (list pyval) -> bool -> result string.
Variable template_ids : list msg -> option (list pyval) -> bool -> result (list Z).
Variable encode : string -> result (list Z).
Variables newline_id im_end_id : option Z.
Variable hook_chain : option (string -> ToolCallContext -> hook_result).
Variable parse_reasoning : string -> result (string * option string).
Variable parse_tool_calls : string -> option (list pyval) -> result (option string * option (list pyval)).
Variable estimate_tokens : string -> Z.
Variable b64decode : string -> result (list Z).
Context {T : Type} `{KV T}.
Variable runtime : option TransferQueueRuntime.
Variables (timeout : float) (t : T) (es : list px_event) (w : Proxy (T := T)).
Abbreviation run := (px_run cfg iter template template_ids encode newline_id im_end_id hook_chain
  parse_reasoning parse_tool_calls estimate_tokens b64decode runtime).
Abbreviation allowed := (events_ok cfg iter template template_ids encode newline_id im_end_id hook_chain
  parse_reasoning parse_tool_calls estimate_tokens b64decode runtime).
Abbreviation no_discard_in_flight := (discards_wait cfg iter template template_ids encode newline_id im_end_id hook_chain
  parse_reasoning parse_tool_calls estimate_tokens b64decode runtime).

Lemma session_good k s : allowed (px_init timeout t) es -> no_discard_in_flight (px_init timeout t) es -> run (px_init timeout t) es = Some w ->
  dget (_sessions (px_manager w)) k = Some s -> good cfg s.
Proof using. intros A D R. apply (pi_good _ _ (reachable_px _ _ _ _ _ _ _ _ _ _ _ _ _ _ _ _ _ A D R)). Qed.

Lemma zeros_ones_sum n k : zsum (replicate n 0%Z ++ replicate k 1%Z) = Z.of_nat k.
Proof using.
  induction n as [|n IH]; simpl.
  - induction k as [|k IH]; [done|]. simpl. rewrite zsum_cons, IH. lia.
  - by rewrite zsum_cons, IH.
Qed.

(** C1: TITO is exact.  In every interleaving of requests, sweeps, finalizations and
    discards in which no session is discarded while one of its requests is generating (with
    a transfer queue the endpoint sees to it, without one it does not), and for every
    session and each of its lineage segments, the tokens its steps added, joined, are
    exactly the token sequence of the segment's last step: the prompt the engine was sent
    and the tokens it produced.  The masks and versions joined with them have the same
    length, and the mask counts the sampled tokens. *)
Theorem tito_segments_exact k s :
  cf_mode cfg = tito ->
  allowed (px_init timeout t) es -> no_discard_in_flight (px_init timeout t) es ->
  run (px_init timeout t) es = Some w ->
  dget (_sessions (px_manager w)) k = Some s ->
  Forall (fun g => exists st, last (sg_steps g) = Some st /\
      concat (map sr_concat_token_ids (sg_steps g)) = sr_prompt_token_ids st ++ sr_response_token_ids st /\
      concat (map sr_concat_token_ids (sg_steps g)) = sr_all_token_ids st /\
      length (concat (map sr_concat_response_mask (sg_steps g)))
        = length (concat (map sr_concat_token_ids (sg_steps g))) /\
      length (concat (map sr_concat_versions (sg_steps g)))
        = length (concat (map sr_concat_token_ids (sg_steps g))) /\
      zsum (concat (map sr_concat_response_mask (sg_steps g)))
        = Z.of_nat (length (concat (map sr_response_token_ids (sg_steps g)))))
    (_split_session_into_lineage_segments s).
Proof using.
  intros M A D R E. destruct (session_good _ _ A D R E) as [V [I _]].
  destruct (lineage_split_parts s (sv_lineages _ _ V)) as [Pm _].
  apply Forall_forall. intros g Ig.
  assert (Al : Forall (step_aligned cfg) (sg_steps g)).
  { rewrite Forall_forall in I. apply Forall_forall. intros st Is. apply I. rewrite <- Pm.
    apply elem_of_concat_map. by exists g. }
  unfold _split_session_into_lineage_segments in Ig. apply elem_of_concat_map in Ig as (l & _ & Ig).
  pose proof (segments_snapshot sr_lineage_segment_reasons_before (Some l)
                (lineage_steps s (l_id l)) [] ["initial"] [] (sv_builds _ _ V M _) eq_refl) as S.
  rewrite Forall_forall in S. destruct (S ltac:(done) g Ig) as (st & L & Tk). exists st. split; [done|].
  unfold seg_tokens in Tk. rewrite Tk.
  assert (Ist : st ∈ sg_steps g) by (by apply last_Some_elem_of).
  pose proof (proj1 (Forall_forall _ _) Al st Ist) as As. rewrite <- Tk.
  split; [by rewrite Tk, (al_snapshot _ _ As M), (al_all _ _ As)|].
  split; [by rewrite Tk, (al_snapshot _ _ As M)|].
  clear -Al M. induction Al as [|x l Ax Al (IH1 & IH2 & IH3)]; [done|]. cbn [map concat].
  rewrite !length_app, IH1, IH2. destruct (al_mask _ _ Ax M) as (n & Ln & ->).
  rewrite (al_versions _ _ Ax M), length_app, !length_replicate, Ln. split; [done|]. split; [done|].
  by rewrite zsum_app, IH3, zeros_ones_sum, Nat2Z.inj_add.
Qed.

(** C2: Version safety.  Without partial rollout no interleaving in which no session is
    discarded while one of its requests is generating lets a session mix weights: all real
    weight versions recorded in its steps (per token, and of requests and responses) are
    one and the same. *)
Theorem session_one_version k s :
  cf_partial_rollout cfg = false ->
  allowed (px_init timeout t) es -> no_discard_in_flight (px_init timeout t) es ->
  run (px_init timeout t) es = Some w ->
  dget (_sessions (px_manager w)) k = Some s ->
  (length (_session_real_versions s) <= 1)%nat.
Proof using.
  intros P A D R E. destruct (session_good _ _ A D R E) as [_ [_ O]]. destruct (O P) as [v F].
  assert (N : NoDup (_session_real_versions s)) by (apply add_versions_NoDup, NoDup_nil_2).
  assert (Av : forall x, x ∈ _session_real_versions s -> x = v).
  { intros x (st & o & I & Io & Rx)%session_versions_in. rewrite Forall_forall in F.
    specialize (F st I). rewrite Forall_forall in F. by eapply F. }
  destruct (_session_real_versions s) as [|x [|y l]]; simpl; try lia. exfalso.
  apply NoDup_cons in N as [N _]. apply N. rewrite (Av x) by set_solver. rewrite (Av y) by set_solver. set_solver.
Qed.

(** C10: What is sent to the engine, as long as no session is discarded while one of its
    requests is generating.  A request that is generating holds the lock of its
    session alone; its prompt fits the context window, with room for its token budget
    when budgets are dynamic; its session is below the step limit; without partial
    rollout it is pinned to the epoch of its session's earlier steps; and in TITO mode
    its prompt is the lineage's tokens so far followed by what the step will add. *)
Theorem generating_request_sound i q env s1 p :
  allowed (px_init timeout t) es -> no_discard_in_flight (px_init timeout t) es ->
  run (px_init timeout t) es = Some w ->
  px_tasks w !! i = Some (Generating q env s1 p) ->
  let n := Z.of_nat (length (ga_input_ids (pr_gen_args p))) in
  exists s, dget (_sessions (px_manager w)) (SessionManager.session_id s1) = Some s /\
    request_locked s = true /\
    (forall j q' env' s1' p', px_tasks w !! j = Some (Generating q' env' s1' p') ->
       SessionManager.session_id s1' = SessionManager.session_id s1 -> j = i) /\
    (forall c, cf_context_window cfg = Some c -> (n < c)%Z /\
       (cf_dynamic_max_tokens cfg = true -> (n + ga_max_new_tokens (pr_gen_args p) <= c - 1)%Z)) /\
    ((0 < cf_max_steps cfg)%Z -> (Z.of_nat (length (steps s)) < cf_max_steps cfg)%Z) /\
    (cf_partial_rollout cfg = false -> steps s <> [] ->
       exists e, ga_expected_epoch (pr_gen_args p) = Some e /\
         forall e', s_rollout_epoch s = Some e' -> e' = e) /\
    (cf_mode cfg = tito -> ga_input_ids (pr_gen_args p) =
       (if pr_lineage_boundary p then [] else _lineage_tito_prefix_token_ids s (r_lineage_id (pr_route p)))
       ++ context_delta_ids (pr_prompt p)).
Proof using.
  intros A Dw R Ei n. pose proof (reachable_px _ _ _ _ _ _ _ _ _ _ _ _ _ _ _ _ _ A Dw R) as I.
  pose proof (Forall_lookup_1 _ _ _ _ (pi_task _ _ I) Ei) as (s & [E O] & L & B).
  exists s. split; [done|]. split; [done|]. split.
  { intros j q' env' s1' p' Ej Q. apply (pi_lock _ _ I j i _ _ (SessionManager.session_id s1) Ej Ei); [simpl; by rewrite Q|done]. }
  unfold n. rewrite (bg_input _ _ _ _ B). split; [apply (bg_window _ _ _ _ B)|].
  split; [apply (bg_limit _ _ _ _ B)|]. split.
  - intros P N. destruct (bg_epoch _ _ _ _ B P N) as [X Y]. by exists (ev_epoch env).
  - intros M. pose proof (bg_delta _ _ _ _ B M) as D. unfold delta_ok in D. rewrite D at 1.
    unfold _lineage_tito_prefix_token_ids. by rewrite prefix_joined.
Qed.

Lemma release_attached m s s0 : all_good cfg m -> attached m s s0 ->
  attached (release m s) s (set_locked s0 false).
Proof using.
  intros G A. pose proof (attached_sid cfg _ _ _ G A) as I. unfold release.
  rewrite (get_held_attached _ _ _ A), (put_held_attached _ _ s0) by (split; [simpl; rewrite I; apply A|done]).
  cbn [SessionManager.session_id set_locked]. rewrite I. by eapply attached_upd; [exact A|apply A].
Qed.

(** One recording call: one step more, or the steps as they were. *)
Lemma record_step_steps m t0 s a env sid lid m' t' r :
  attached m s s -> ra_step_id a = Some sid -> ra_lineage_id a = Some lid ->
  _record_step runtime m t0 s a env = (m', t', r) ->
  exists x, attached m' s x /\
    match r with
    | Ok o => exists st refs ix, steps x = steps s ++ [st] /\ st = make_step (with_refs a refs) sid lid ix (ev_clock env)
    | Raise _ => steps x = steps s
    end.
Proof using.
  intros A Es El. unfold _record_step. destruct runtime as [rt|].
  - set (s2 := match SessionManager.incarnation_id s with None => _ | Some _ => s end).
    assert (N : minor s s2) by (unfold s2; destruct (SessionManager.incarnation_id s); [reflexivity|apply incarnation_minor]).
    assert (I2 : SessionManager.session_id s2 = SessionManager.session_id s) by apply N.
    assert (O2 : oid s2 = oid s) by apply N. assert (St : steps s2 = steps s) by apply N.
    assert (A2 : attached m s2 s) by (split; [rewrite I2; apply A|done]).
    rewrite (put_held_attached _ _ _ A2), I2.
    destruct (offload_step _ _ _ _ _ _ _ _) as [[t2 refs]|e]; unfold record_step; cbn [_sessions upd set_sessions].
    + rewrite dget_dset_eq. destruct (record_in s2 (with_refs a refs) _ _) as [s3 st] eqn:E.
      destruct (record_in_effect s2 (with_refs a refs) _ _ _ _ sid lid Es El E)
        as (S3 & _ & _ & O3 & I3 & _ & _ & _ & ix & Ex).
      intros [= <- <- <-]. exists s3. split; [split; [simpl; by rewrite dget_dset_eq|congruence]|].
      rewrite S3, St. by eauto.
    + intros [= <- <- <-]. exists s2. split; [split; [simpl; by rewrite dget_dset_eq|done]|done].
  - unfold record_step. rewrite (proj1 A). destruct (record_in s a _ _) as [s3 st] eqn:E.
    destruct (record_in_effect s a _ _ _ _ sid lid Es El E) as (S3 & _ & _ & O3 & I3 & _ & _ & _ & ix & Ex).
    intros [= <- <- <-]. exists s3. split; [split; [simpl; by rewrite dget_dset_eq|done]|].
    exists st, [], ix. by rewrite with_no_refs.
Qed.

(** The flag of an overflow answer. *)
Definition says_recorded (payload : list (string * pyval)) : bool :=
  match pget payload "details" with
  | PDict d => py_truth (pget d "last_proxy_step_recorded")
  | _ => false
  end.

Lemma overflow_says_recorded s p r : says_recorded (output_overflow_payload cfg s p r) = true.
Proof using.
  unfold says_recorded.
  eassert (pget (output_overflow_payload cfg s p r) "details"
           = PDict (dset _ "last_proxy_step_recorded" (PBool true))) as -> by reflexivity.
  unfold pget, dget_def. by rewrite dget_dset_eq.
Qed.

(** How an answer accounts for the steps of the session. *)
Definition accounted (p : Prepared) (before after : list StepRecord) (o : outcome Reply) : Prop :=
  match o with
  | Done reply => exists st, after = before ++ [st] /\ sr_prompt_token_ids st = input_ids (pr_prompt p) /\
      sr_finish_reason st = rp_finish_reason reply
  | Fail f => after = before \/
      exists st payload, f = JSONResponse payload 413 /\ says_recorded payload = true /\
        after = before ++ [st] /\ sr_response_token_ids st = [] /\
        sr_all_token_ids st = input_ids (pr_prompt p)
  end.

Lemma finish_accounted m t0 q env s1 p m' t' o :
  all_good cfg m -> task_ok cfg m (Generating q env s1 p) ->
  (forall r, ev_generate env (pr_gen_args p) = Generated r ->
     generation_ok (cf_partial_rollout cfg) (pr_gen_args p) r) ->
  finish_request cfg template template_ids hook_chain parse_reasoning parse_tool_calls
    estimate_tokens b64decode runtime m t0 q env s1 p = (m', t', o) ->
  exists s s', attached m s1 s /\ attached m' s1 s' /\ request_locked s' = false /\
    accounted p (steps s) (steps s') o.
Proof using.
  intros G (s & A & L & B) Gen. unfold finish_request. rewrite (get_held_attached _ _ _ A).
  destruct (commit_request _ _ _ _ _ _ _ _ q p _ s) as [s2 out] eqn:Ec.
  pose proof (commit_ok cfg template template_ids hook_chain parse_reasoning parse_tool_calls estimate_tokens
                b64decode s q p (ev_generate env (pr_gen_args p)) s s2 out eq_refl Ec) as C.
  assert (K : stays s s2) by (destruct out; [apply C|exact C]).
  destruct (commit_registered cfg m s s1 s2 G A K) as (E2 & Gm & A3 & I2 & O2).
  rewrite E2. set (m2 := upd m (SessionManager.session_id s1) s2) in *.
  pose proof (proj1 K) as St.
  assert (Back : forall m x, attached m s2 x -> attached m s1 x) by (intros m0 x [X Y]; by rewrite I2, O2 in *).
  destruct out as [[a reply]|f].
  - destruct (_record_step runtime m2 t0 s2 a env) as [[m3 t3] r] eqn:Er.
    destruct C as (_ & r0 & Eg & Cv & _ & Cm). cbn [fst snd] in Cm.
    assert (R : to_record cfg env q p a s2).
    { exists s, r0, reply. split; [apply (proj2 G _ _ (proj1 A))|]. by auto 10. }
    destruct (record_step_ok cfg _ _ _ _ _ _ _ _ _ _ _ Gm A3 R Er) as (G3 & _ & _).
    destruct Cm as (rp & c2 & c3 & c4 & c5 & c6 & c7 & c8 & c9 & c10 & -> & _ & _ & ->).
    destruct (record_step_steps m2 t0 s2 (step_args cfg q p r0 rp c2 c3 c4 c5 c6 c7 c8 c9 c10) env c9 (r_lineage_id (pr_route p)) m3 t3 r A3 eq_refl eq_refl Er)
      as (x & A4 & Hr).
    intros [= <- <- <-]. exists s, (set_locked x false). split; [done|].
    split; [apply Back, release_attached; done|]. split; [done|]. cbn [steps set_locked].
    destruct r as [so|e]; [|rewrite Hr; by left].
    destruct Hr as (st & refs & ix & -> & ->). rewrite St. unfold accounted.
    destruct (output_overflow cfg r0) eqn:Ov.
    + right. eexists _, _. split; [reflexivity|]. split; [apply overflow_says_recorded|].
      split; [reflexivity|]. cbn. unfold recorded. by rewrite Ov.
    + eexists. split; [reflexivity|]. done.
  - intros [= <- <- <-]. exists s, (set_locked s2 false). split; [done|].
    split; [apply Back, release_attached; done|]. split; [done|]. cbn [steps set_locked]. rewrite St.
    by left.
Qed.

(** C8: Every answer accounts for the session.  When a generation ends, in any
    interleaving in which no session is discarded while one of its requests is generating,
    the request is answered, its session's lock is free, and either the
    answer is a completion and exactly one step was recorded, whose prompt is the one
    that was sent, or it is an error and the steps are as they were; the one error that
    follows a recorded step, an output overflow, says so, and its step has no output. *)
Theorem answer_accounted i w' :
  allowed (px_init timeout t) es -> no_discard_in_flight (px_init timeout t) es ->
  run (px_init timeout t) es = Some w ->
  px_step cfg iter template template_ids encode newline_id im_end_id hook_chain
    parse_reasoning parse_tool_calls estimate_tokens b64decode runtime w (Finish i) = Some w' ->
  exists q env s1 p s s' o,
    px_tasks w !! i = Some (Generating q env s1 p) /\ px_tasks w' !! i = Some (Answered o) /\
    dget (_sessions (px_manager w)) (SessionManager.session_id s1) = Some s /\
    dget (_sessions (px_manager w')) (SessionManager.session_id s1) = Some s' /\
    request_locked s' = false /\ accounted p (steps s) (steps s') o.
Proof using.
  intros A D R. pose proof (reachable_px _ _ _ _ _ _ _ _ _ _ _ _ _ _ _ _ _ A D R) as I.
  cbn [px_step]. destruct (px_tasks w !! i) as [[|q env s1 p|]|] eqn:Ei; try done.
  destruct (finish_request _ _ _ _ _ _ _ _ _ (px_manager w) (px_store w) q env s1 p) as [[m' t'] o] eqn:Ef.
  intros [= <-].
  destruct (finish_accounted _ _ _ _ _ _ _ _ _ (pi_good _ _ I) (Forall_lookup_1 _ _ _ _ (pi_task _ _ I) Ei)
              ltac:(intros r; apply (Forall_lookup_1 _ _ _ _ (pi_env _ _ I) Ei env eq_refl)) Ef)
    as (s & s' & As & As' & L & Acc).
  exists q, env, s1, p, s, s', o. split; [done|]. split.
  - simpl. apply list_lookup_insert_eq. by eapply lookup_lt_Some.
  - split; [apply As|]. split; [apply As'|]. done.
Qed.
End Theorems.
