(* ===== verification/ProxyExamples.v ===== *)
(** * Runs of the proxy on concrete requests

    A chat template, a tokenizer and an engine, and the theorems of [ProxyTheorems] on the
    runs of two requests of one session; and the run in which a discard without transfer
    queue meets a request that is generating. *)

From S2P Require Import Prelude.
From S2P Require Import PyFloat.
From S2P Require Import PyVal.
From S2P Require Import Transport.
From S2P Require Import Generation.
From S2P Require Import Experts.
From S2P Require Import SessionManager.
From S2P Require Import Routing.
From S2P Require Import Tito.
From S2P Require Import Segments.
From S2P Require Import Offload.
From S2P Require Import Chat.
From S2P Require Import Pipeline.
From S2P Require Import Lineages.
From S2P Require Import ProxyRuns.
From S2P Require Import ProxyTheorems.
From Stdlib Require Import Ascii.
From Stdlib Require String.

Local Open Scope string_scope.
Local Open Scope list_scope.
Local Open Scope py_scope.

#[local] Instance x_text : PyText :=
  {| py_repr := fun _ => ""; py_parse_float := fun _ => None |}.

(** ** The environment *)

Definition x_cfg : Config :=
  {| cf_mode := tito; cf_partial_rollout := false; cf_max_preempts := None;
     cf_context_window := Some 100%Z; cf_dynamic_max_tokens := true; cf_max_output_tokens := Some 8%Z;
     cf_rollout_temperature := f_of_Z 1; cf_none_equals_empty := false; cf_max_steps := 5%Z;
     cf_routed_experts_dtype := "int32"; cf_tito := Some qwen3_5 |}.

Definition x_content (m : msg) : string :=
  match pget m "content" with PStr s => s | _ => "" end.

Definition x_template (messages : list msg) (_ : option (list pyval)) (gen : bool) : result string :=
  Ok (String.concat "" (map (fun m => "<" +:+ x_content m +:+ ">") messages) +:+ (if gen then "^" else "")).

Definition x_encode (s : string) : result (list Z) :=
  Ok (map (fun c => Z.of_nat (nat_of_ascii c)) (String.list_ascii_of_string s)).

Definition x_template_ids (messages : list msg) (tools : option (list pyval)) (gen : bool) : result (list Z) :=
  let! t := x_template messages tools gen in x_encode t.

Definition x_iter (l : list string) : list string := l.
Definition x_reasoning (s : string) : result (string * option string) := Ok (s, None).
Definition x_calls (s : string) (_ : option (list pyval)) : result (option string * option (list pyval)) :=
  Ok (Some s, None).
Definition x_estimate (s : string) : Z := Z.of_nat (String.length s).
Definition x_b64 (_ : string) : result (list Z) := Ok [].

(** The engine answers "ok" at weight version "v1". *)
Definition x_generated (a : GenArgs) : PreemptibleGenerateResult :=
  {| pr_input_ids := ga_input_ids a; pr_input_logprobs := replicate (length (ga_input_ids a)) f0;
     pr_input_texts := []; pr_output_ids := [111; 107]%Z; pr_output_logprobs := [f0; f0];
     pr_output_texts := ["o"; "k"]; pr_output_versions := ["v1"; "v1"];
     pr_all_token_ids := ga_input_ids a ++ [111; 107]%Z;
     pr_all_logprobs := replicate (length (ga_input_ids a) + 2) f0;
     pr_text_parts := ["ok"]; pr_meta := []; pr_finish_reason := "stop"; pr_all_invalid := false;
     pr_rollout_epoch := Some (default 1%Z (ga_expected_epoch a)); pr_routed := []; pr_chunks := [] |}.

Definition x_env (clock : Z) (uuid : string) : Env :=
  {| ev_uuid := "turn-" +:+ uuid; ev_clock := f_of_Z clock; ev_epoch := 1%Z; ev_version := None;
     ev_acquire := Ok false; ev_generate := fun a => Generated (x_generated a);
     ev_incarnation := "inc"; ev_put := Ok tt;
     ev_uuid1 := "u1-" +:+ uuid; ev_uuid2 := "u2-" +:+ uuid |}.

Definition x_user (text : string) : msg := [("role", PStr "user"); ("content", PStr text)].
Definition x_assistant (text : string) : msg := [("role", PStr "assistant"); ("content", PStr text)].

Definition x_request (messages : list msg) : ChatRequest :=
  {| q_header := fun _ => None; q_body := [("session_id", PStr "s")]; q_messages := messages;
     q_tools := None |}.

Definition x_first : ChatRequest := x_request [x_user "hi"].
Definition x_second : ChatRequest := x_request [x_user "hi"; x_assistant "ok"; x_user "go"].

Definition x_two : list px_event :=
  [Arrive x_first (x_env 1 "a"); Acquire 0; Finish 0; Arrive x_second (x_env 2 "b"); Acquire 1; Finish 1].

Abbreviation x_proxy := (Proxy (T := MapKV)).
Abbreviation x_step := (px_step (T := MapKV) x_cfg x_iter x_template x_template_ids x_encode None None None
  x_reasoning x_calls x_estimate x_b64 None).
Abbreviation x_run := (px_run (T := MapKV) x_cfg x_iter x_template x_template_ids x_encode None None None
  x_reasoning x_calls x_estimate x_b64 None).
Abbreviation x_allowed := (events_ok (T := MapKV) x_cfg x_iter x_template x_template_ids x_encode None None None
  x_reasoning x_calls x_estimate x_b64 None).
Abbreviation x_start := (px_init (T := MapKV) (f_of_Z 1000) ∅).

Abbreviation x_waits := (discards_wait (T := MapKV) x_cfg x_iter x_template x_template_ids x_encode None None None
  x_reasoning x_calls x_estimate x_b64 None).

(** ** The runs are allowed *)

Lemma x_env_ok c u : env_ok x_cfg (x_env c u).
Proof.
  intros a r [= <-]. split; cbn.
  - done.
  - done.
  - by rewrite length_replicate.
  - intros _. exists "v1". by repeat constructor.
  - by intros e -> _.
Qed.

Definition x_event (e : px_event) : Prop :=
  match e with
  | Arrive q env => (exists messages, q = x_request messages) /\ exists c u, env = x_env c u
  | Endpoint (ODiscard _) => False
  | _ => True
  end.

Lemma x_fresh m iid u2 a b c u : op_fresh m (OGet (Some "s") iid ("u1-" +:+ u) u2 a b c).
Proof. intros E. exfalso. by destruct u. Qed.

Lemma x_events_ok es : Forall x_event es -> forall w, x_allowed w es.
Proof.
  induction 1 as [|e es X F IH]; intros w; [done|]. cbn [events_ok]. split; [|by auto].
  destruct e as [q env| | |op]; [|done|done|by destruct op].
  destruct X as [[ms ->] (c & u & ->)]. split; [apply x_env_ok|].
  apply x_fresh.
Qed.

Lemma x_discards_wait es : Forall x_event es -> forall w, x_waits w es.
Proof.
  induction 1 as [|e es X F IH]; intros w; [done|]. cbn [discards_wait]. split; [|by auto].
  by destruct e as [| | |[]].
Qed.

Lemma x_two_events : Forall x_event x_two.
Proof. repeat constructor; by repeat eexists. Qed.

(** ** The theorems on two requests *)

Definition x_session (o : option x_proxy) : option Session :=
  w ← o; dget (_sessions (px_manager w)) "s".

Lemma x_run_session es s : x_session (x_run x_start es) = Some s ->
  exists w, x_run x_start es = Some w /\ dget (_sessions (px_manager w)) "s" = Some s.
Proof. destruct (x_run x_start es) as [w|]; [|done]. intros E. by exists w. Qed.

Lemma x_two_session : exists s w, x_run x_start x_two = Some w /\ dget (_sessions (px_manager w)) "s" = Some s /\
  map (fun g => length (sg_steps g)) (_split_session_into_lineage_segments s) = [2%nat] /\
  _session_real_versions s = ["v1"].
Proof.
  assert (L : (fun s => (map (fun g => length (sg_steps g)) (_split_session_into_lineage_segments s),
                         _session_real_versions s))
                <$> x_session (x_run x_start x_two) = Some ([2%nat], ["v1"])) by (vm_compute; reflexivity).
  destruct (x_session (x_run x_start x_two)) as [s|] eqn:S; [|done].
  destruct (x_run_session _ _ S) as (w & R & D). injection L as L1 L2.
  exact (ex_intro _ s (ex_intro _ w (conj R (conj D (conj L1 L2))))).
Qed.

Lemma x_two_allowed : x_allowed x_start x_two.
Proof. apply x_events_ok, x_two_events. Qed.

Lemma x_two_waits : x_waits x_start x_two.
Proof. apply x_discards_wait, x_two_events. Qed.

(** The session after both requests: one segment of two steps. *)
Lemma tito_segments_exact_witness :
  exists s w, x_run x_start x_two = Some w /\ dget (_sessions (px_manager w)) "s" = Some s /\
    map (fun g => length (sg_steps g)) (_split_session_into_lineage_segments s) = [2%nat] /\
    Forall (fun g => exists st, last (sg_steps g) = Some st /\
        concat (map sr_concat_token_ids (sg_steps g)) = sr_prompt_token_ids st ++ sr_response_token_ids st)
      (_split_session_into_lineage_segments s).
Proof.
  destruct x_two_session as (s & w & R & D & L & _). exists s, w.
  refine (conj R (conj D (conj L _))).
  eapply Forall_impl.
  - exact (tito_segments_exact x_cfg x_iter x_template x_template_ids x_encode None None None x_reasoning x_calls
             x_estimate x_b64 None (f_of_Z 1000) (∅ : MapKV) x_two w "s" s eq_refl x_two_allowed x_two_waits R D).
  - intros g (st & X & Y & _). exact (ex_intro _ st (conj X Y)).
Defined.

Lemma session_one_version_witness :
  exists s w, x_run x_start x_two = Some w /\ dget (_sessions (px_manager w)) "s" = Some s /\
    _session_real_versions s = ["v1"] /\ (length (_session_real_versions s) <= 1)%nat.
Proof.
  destruct x_two_session as (s & w & R & D & _ & L). exists s, w.
  refine (conj R (conj D (conj L _))).
  exact (session_one_version x_cfg x_iter x_template x_template_ids x_encode None None None x_reasoning x_calls
           x_estimate x_b64 None (f_of_Z 1000) (∅ : MapKV) x_two w "s" s eq_refl x_two_allowed x_two_waits R D).
Defined.

(** The second request, as it generates. *)
Definition x_generating : list px_event := take 5 x_two.

Lemma x_generating_run : exists w q env s1 p, x_run x_start x_generating = Some w /\
  px_tasks w !! 1%nat = Some (Generating q env s1 p) /\
  ga_input_ids (pr_gen_args p) = [60; 104; 105; 62; 94; 111; 107; 60; 103; 111; 62; 94]%Z.
Proof.
  assert (L : (w ← x_run x_start x_generating;
               k ← px_tasks w !! 1%nat;
               match k with Generating _ _ _ p => Some (ga_input_ids (pr_gen_args p)) | _ => None end)
              = Some [60; 104; 105; 62; 94; 111; 107; 60; 103; 111; 62; 94]%Z) by (vm_compute; reflexivity).
  destruct (x_run x_start x_generating) as [w|]; [|done]. cbn [mbind option_bind] in L.
  destruct (px_tasks w !! 1%nat) as [[|q env s1 p|]|] eqn:K; try discriminate. cbn in L. injection L as L.
  exact (ex_intro _ w (ex_intro _ q (ex_intro _ env (ex_intro _ s1 (ex_intro _ p (conj eq_refl (conj K L))))))).
Qed.

Lemma x_generating_allowed : x_allowed x_start x_generating.
Proof. apply x_events_ok. unfold x_generating. apply Forall_take, x_two_events. Qed.

Lemma x_generating_waits : x_waits x_start x_generating.
Proof. apply x_discards_wait. unfold x_generating. apply Forall_take, x_two_events. Qed.

Lemma generating_request_sound_witness :
  exists w q env s1 p s, x_run x_start x_generating = Some w /\
    px_tasks w !! 1%nat = Some (Generating q env s1 p) /\
    dget (_sessions (px_manager w)) (SessionManager.session_id s1) = Some s /\ request_locked s = true /\
    (12 + ga_max_new_tokens (pr_gen_args p) <= 99)%Z.
Proof.
  destruct x_generating_run as (w & q & env & s1 & p & R & K & E).
  destruct (generating_request_sound x_cfg x_iter x_template x_template_ids x_encode None None None x_reasoning
     x_calls x_estimate x_b64 None (f_of_Z 1000) (∅ : MapKV) x_generating w 1 q env s1 p x_generating_allowed x_generating_waits R K)
    as (s & D & L & _ & W & _).
  exists w, q, env, s1, p, s. rewrite E in W.
  exact (conj R (conj K (conj D (conj L (proj2 (W 100%Z eq_refl) eq_refl))))).
Defined.

Lemma x_finish_run : exists w w', x_run x_start x_generating = Some w /\ x_step w (Finish 1) = Some w'.
Proof.
  assert (L : is_Some (w ← x_run x_start x_generating; x_step w (Finish 1))) by (vm_compute; by eexists).
  destruct (x_run x_start x_generating) as [w|]; [|by destruct L]. destruct L as [w' L].
  exact (ex_intro _ w (ex_intro _ w' (conj eq_refl L))).
Qed.

Lemma answer_accounted_witness :
  exists w w' p s s' o, x_run x_start x_generating = Some w /\ x_step w (Finish 1) = Some w' /\
    px_tasks w' !! 1%nat = Some (Answered o) /\ request_locked s' = false /\
    accounted p s (steps s') o.
Proof.
  destruct x_finish_run as (w & w' & R & S).
  destruct (answer_accounted x_cfg x_iter x_template x_template_ids x_encode None None None x_reasoning
     x_calls x_estimate x_b64 None (f_of_Z 1000) (∅ : MapKV) x_generating w 1 w' x_generating_allowed x_generating_waits R S)
    as (q & env & s1 & p & s & s' & o & _ & A & _ & _ & L & Acc).
  exists w, w', p, (steps s), s', o. exact (conj R (conj S (conj A (conj L Acc)))).
Defined.

(** ** A discard that does not wait

    Without transfer queue [discard_session] does not take the request lock.  A request
    whose session is discarded and opened again while it generates records its step into
    the new session, under a lineage the new session does not have; the step is in no
    lineage segment. *)
Definition x_discarded : list px_event :=
  [Arrive x_first (x_env 1 "a"); Acquire 0; Endpoint (ODiscard "s"); Arrive x_first (x_env 2 "b"); Finish 0].

Lemma discard_crosses_sessions : exists s w,
  x_run x_start x_discarded = Some w /\ dget (_sessions (px_manager w)) "s" = Some s /\
  oid s = 1%nat /\ map sr_lineage_id (steps s) = ["lineage-000001"] /\ lineages s = [] /\
  _split_session_into_lineage_segments s = [].
Proof.
  assert (L : (fun s => (oid s, map sr_lineage_id (steps s), lineages s, _split_session_into_lineage_segments s))
                <$> x_session (x_run x_start x_discarded) = Some (1%nat, ["lineage-000001"], [], []))
    by (vm_compute; reflexivity).
  destruct (x_session (x_run x_start x_discarded)) as [s|] eqn:S; [|discriminate].
  destruct (x_run_session _ _ S) as (w & R & D). injection L as L1 L2 L3 L4.
  exact (ex_intro _ s (ex_intro _ w (conj R (conj D (conj L1 (conj L2 (conj L3 L4))))))).
Qed.
