(* ===== verification/Finalize.v ===== *)
(** * Finalization and reads ([dressage/proxy/server.py])

    [finalize_session], [discard_session] and [trajectory_read]: the session manager, the
    segments and the trajectory store together.  A handler's state is the pair of the
    manager and the store.  The awaits of the rebalancer's own clean-up come after the
    state has changed and are not part of it.  Identifiers in a body are strings. *)

From S2P Require Import Prelude.
From S2P Require Import PyFloat.
From S2P Require Import PyVal.
From S2P Require Import Transport.
From S2P Require Import TrajectoryStore.
From S2P Require Import SessionManager.
From S2P Require Import Tito.
From S2P Require Import Segments.
From S2P Require Import Offload.
From S2P Require Import Chat.
From S2P Require Import Pipeline.

Local Open Scope string_scope.
Local Open Scope list_scope.
Local Open Scope py_scope.

(** ** Configuration, requests and readings *)

Record FinalizeConfig : Type := {
  fz_mode : TokenBuildMode;
  fz_model : option string;                (* token_build_model *)
  fz_versions : bool;                      (* record_token_versions *)
  fz_mask_nonlast : bool;                  (* mask_nonlast_version_tokens *)
  fz_runtime : option TransferQueueRuntime }.

(** The readings one finalization draws: [fe_uid lineage i] is the uid of the [i]-th
    segment of a view. *)
Record FinalizeEnv : Type := {
  fe_clock : float;
  fe_id : string;                          (* finalization_id *)
  fe_uid : bool -> nat -> string;
  fe_timestamp : string;
  fe_uuids : string * string * string }.

Definition build_keys : list string :=
  ["token_build_mode"; "token_build_modes"; "trajectory_build_mode"; "trajectory_build_modes"].

Definition body_text (body : list (string * pyval)) (k : string) : option string :=
  match pget body k with PStr s => Some s | _ => None end.

(** ** Records of a session *)

Section Finalize.
Context `{PyText}.
Variable cfg : FinalizeConfig.

(** [for segment_index, segment in enumerate(segments)] *)
Definition numbered (f : nat -> Segment -> result (list (string * pyval))) (segs : list Segment)
    : result (list (list (string * pyval))) :=
  mapM_res (fun ig => f (fst ig) (snd ig)) (enumerate segs).

Definition lineage_records (s : Session) (iid : string) (label : pyval) (env : FinalizeEnv)
    : result (list (list (string * pyval))) :=
  let segs := _split_session_into_lineage_segments s in
  numbered (fun i g => _build_tito_lineage_segment_record (fz_mode cfg) (fz_versions cfg)
              (fz_mask_nonlast cfg) s (SessionManager.session_id s) g i (length segs) iid label
              (fe_uid env true i) (fe_timestamp env)) segs.

Definition timeline_records (s : Session) (iid : string) (label : pyval) (env : FinalizeEnv)
    : result (list (list (string * pyval))) :=
  let segs := _split_session_into_timeline_segments s in
  numbered (fun i g => _build_step_snapshot_record (fz_mode cfg) (fz_versions cfg)
              (fz_mask_nonlast cfg) s (SessionManager.session_id s) g i (length segs) iid label
              (fz_mode cfg) (fe_uid env false i) (fe_timestamp env)) segs.

Definition session_records (s : Session) (iid : string) (label : pyval) (env : FinalizeEnv)
    : result (list (list (string * pyval))) :=
  match fz_mode cfg with
  | tito => let! a := lineage_records s iid label env in
            let! b := timeline_records s iid label env in
            Ok (a ++ b)
  | snapshot => timeline_records s iid label env
  end.

Definition segment_total (s : Session) : nat :=
  match fz_mode cfg with
  | tito => length (_split_session_into_lineage_segments s)
  | snapshot => length (_split_session_into_timeline_segments s)
  end.

(** [extra_info.update({"finalization_complete": ..., "finalization_id": ...})] *)
Definition mark_finalized (fid : string) (r : list (string * pyval)) : list (string * pyval) :=
  let extra := match pget r "extra_info" with PDict d => d | _ => [] end in
  dset r "extra_info" (PDict (dset (dset extra "finalization_complete" (PBool true))
                                   "finalization_id" (PStr fid))).

Definition finalization_result (s : Session) (sid iid : string) (env : FinalizeEnv)
    : list (string * pyval) :=
  [("success", PBool true); ("session_id", PStr sid);
   ("trajectory_id", PStr (SessionManager.session_id s)); ("instance_id", PStr iid);
   ("finalization_id", PStr (fe_id env)); ("num_steps", pnat (length (steps s)));
   ("num_turns", pnat (length (turn_ids s))); ("num_segments", pnat (segment_total s));
   ("num_timeline_segments", pnat (length (_split_session_into_timeline_segments s)));
   ("history_rewritten", PBool (history_rewritten s));
   ("token_build_mode", PStr (mode_name (fz_mode cfg))); ("token_build_model", opt_text (fz_model cfg));
   ("record_token_versions", PBool (fz_versions cfg));
   ("mask_nonlast_version_tokens", PBool (fz_mask_nonlast cfg))]
  ++ match fz_runtime cfg with
     | Some rt => [("tq_trajectory_ref", TQTrajectoryRef_to_dict (trajectory_ref rt s))]
     | None => []
     end.

(** ** The handler *)

Abbreviation State := (SessionManager * TrajectoryStore)%type.

(** Before the lock: the cached answer, an error, or the session whose lock is awaited. *)
Definition enter_finalize (m : SessionManager) (body : list (string * pyval)) (now : float)
    : SessionManager * outcome (list (string * pyval) + Session) :=
  match dget body "session_id" with
  | None => (m, Fail (Uncaught (KeyError "session_id")))
  | Some _ =>
      let sid := default "" (body_text body "session_id") in
      if existsb (phas body) build_keys
      then (m, Fail (HTTPException 400 (PStr "token_build_mode is configured at proxy startup")))
      else
        let '(m, cached) := get_finalization_result m sid now in
        match cached with
        | Some r => (m, Done (inl r))
        | None => match get_session m sid with
                  | Some s => (m, Done (inr s))
                  | None => (m, Fail (HTTPException 404 (PStr ("Session " +:+ sid +:+ " not found"))))
                  end
        end
  end.

(** With the lock of [held]; [purged] is what the hook chain's purge returns. *)
Definition finalize_locked (st : State) (body : list (string * pyval)) (held : Session)
    (env : FinalizeEnv) (purged : nat) : State * outcome (list (string * pyval)) :=
  let '(m, store) := st in
  let sid := default "" (body_text body "session_id") in
  let '(m, cached) := get_finalization_result m sid (fe_clock env) in
  match cached with
  | Some r => ((m, store), Done r)
  | None =>
      match get_session m sid with
      | None => ((m, store), Fail (HTTPException 404 (PStr ("Session " +:+ sid +:+ " not found"))))
      | Some s =>
          if negb (Nat.eqb (oid s) (oid held))
          then ((m, store), Fail (HTTPException 404 (PStr ("Session " +:+ sid +:+ " not found"))))
          else if Nat.eqb (length (steps s)) 0
          then ((m, store), Fail (HTTPException 400 (PStr "Session has no turns")))
          else
            let iid := or_str (body_text body "instance_id") (SessionManager.instance_id s) in
            match session_records s iid (pget body "label") env with
            | Raise e => ((m, store), Fail (Uncaught e))
            | Ok records =>
                let result := finalization_result s sid iid env in
                let write r := {| wr_data := mark_finalized (fe_id env) r; wr_uuids := fe_uuids env;
                                  wr_time := fe_clock env |} in
                match write_many (map write records) (fe_clock env) store with
                | (Raise e, store) => ((m, store), Fail (Uncaught e))
                | (Ok _, store) =>
                    let '(m, _) := SessionManager.finalize_session m sid (Some result) (fe_clock env) in
                    ((m, store),
                     Done (match purged with
                           | O => result
                           | n => dset result "tool_call_hook_keys_purged" (pnat n)
                           end))
                end
            end
      end
  end.

(** A finalization that does not wait. *)
Definition finalize_request (st : State) (body : list (string * pyval)) (env : FinalizeEnv)
    (purged : nat) : State * outcome (list (string * pyval)) :=
  let '(m, store) := st in
  match enter_finalize m body (fe_clock env) with
  | (m, Fail f) => ((m, store), Fail f)
  | (m, Done (inl r)) => ((m, store), Done r)
  | (m, Done (inr s)) => finalize_locked (m, store) body s env purged
  end.

(** ** Discard *)

(** [removed_segments]: every view is popped, one is returned. *)
Definition discard_reply (sid : string) (removed : bool) (segments purged : nat) : list (string * pyval) :=
  [("success", PBool true); ("session_id", PStr sid); ("session_removed", PBool removed);
   ("segments_removed", pnat segments); ("tool_call_hook_keys_purged", pnat purged)].

Definition discard_state (st : State) (sid : string) (now : float) (purged : nat)
    : State * list (string * pyval) :=
  let '(m, removed) := SessionManager.discard_session (fst st) sid in
  let '(segs, store) := pop_trajectory (snd st) sid None None now in
  ((m, store), discard_reply sid removed (length segs) purged).

Definition cached_refs (cached : option (list (string * pyval))) : result (list TQFieldRef) :=
  match cached with
  | Some r => let raw := pget r "tq_trajectory_ref" in
              if is_tq_trajectory_ref_dict raw
              then let! t := TQTrajectoryRef_from_dict raw in Ok (tr_refs t)
              else Ok []
  | None => Ok []
  end.

(** With a transfer queue: the state and the fields, [active] being the held session. *)
Definition discard_offloaded {T} `{KV T} (rt : TransferQueueRuntime) (st : State) (t : T)
    (active : option Session) (sid : string) (now : float) (purged : nat)
    : State * T * result (list (string * pyval)) :=
  let active_refs := match active with
                     | Some s => if bool_decide (is_Some (SessionManager.incarnation_id s))
                                 then tr_refs (trajectory_ref rt s) else []
                     | None => []
                     end in
  let '(m, cached) := get_finalization_result (fst st) sid now in
  match cached_refs cached with
  | Raise e => ((m, snd st), t, Raise e)
  | Ok refs =>
      let '(st, reply) := discard_state (m, snd st) sid now purged in
      (st, clear_refs t (active_refs ++ refs), Ok reply)
  end.

(** ** Reads *)

Definition _trajectory_read (store : TrajectoryStore) (body : list (string * pyval)) (now : float)
    : TrajectoryStore * outcome (list TrajectorySegment + list (list TrajectorySegment)) :=
  let view := body_text body "segment_view" in
  let iid := body_text body "instance_id" in
  match pget body "segment_view" with
  | PNone | PStr "lineage" | PStr "timeline" =>
      match _trajectory_id_from_body body with
      | PStr (String _ _ as tid) =>
          if py_truth (pget body "drain")
          then let '(data, store) := pop_trajectory store tid iid view now in (store, Done (inl data))
          else (store, Done (inl (read_trajectory store tid iid view)))
      | _ =>
          let max_groups := match pget body "max_groups" with PInt z => Some z | _ => None end in
          let '(data, store) := read_batch store max_groups now in
          (store, Done (inr data))
      end
  | _ => (store, Fail (HTTPException 400 (PStr "segment_view must be 'lineage' or 'timeline'")))
  end.
End Finalize.
