(* ===== verification/FinalizeTheorems.v ===== *)
(** * Theorems of finalization

    Finalizing a session changes everything or nothing, is idempotent, and for a session
    of a proxy run it succeeds and publishes exactly the session's segments. *)

From S2P Require Import Prelude.
From S2P Require Import PyFloat.
From S2P Require Import PyVal.
From S2P Require Import Transport.
From S2P Require Import TrajectoryStore.
From S2P Require Import SessionManager.
From S2P Require Import Tito.
From S2P Require Import Segments.
From S2P Require Import Offload.
From S2P Require Import Chat.
From S2P Require Import Pipeline.
From S2P Require Import Lineages.
From S2P Require Import ProxyRuns.
From S2P Require Import ProxyExamples.
From S2P Require Import Finalize.

Local Open Scope string_scope.
Local Open Scope list_scope.
Local Open Scope py_scope.

(** ** A record converts to an item *)

(** What the store's item of a finalized record is. *)
Record published (fid tid iid view : string) (count ix : nat) (toks : list Z) (t : TrajectorySegment) : Prop := {
  pb_trajectory : trajectory_id t = tid;
  pb_instance : TrajectoryStore.instance_id t = iid;
  pb_index : segment_index t = IInt (Z.of_nat ix);
  pb_count : segment_count t = IInt (Z.of_nat count);
  pb_tokens : tokens t = pints toks;
  pb_view : pget (extra_info t) "segment_view" = PStr view;
  pb_id : pget (extra_info t) "finalization_id" = PStr fid;
  pb_complete : pget (extra_info t) "finalization_complete" = PBool true }.

Section Convert.
Context `{PyText}.

(** The conversion of a record, from what it looks up. *)
Lemma item_from_lookups d u tid turn iid ix count msgs toks l mask extra u1 u2 u3 now :
  tid <> "" ->
  dget d "uid" = Some (PStr u) -> dget d "trajectory_id" = Some (PStr tid) ->
  dget d "turn_id" = Some (PStr turn) -> dget d "instance_id" = Some (PStr iid) ->
  dget d "segment_index" = Some (pnat ix) -> dget d "segment_count" = Some (pnat count) ->
  dget d "messages" = Some msgs -> dget d "tokens" = Some (pints toks) ->
  dget d "full_logprobs" = Some (pfloats l) -> dget d "full_loss_mask" = Some (pints mask) ->
  dget d "extra_info" = Some (PDict extra) ->
  length l = length toks -> length mask = length toks ->
  (dget d "full_versions" = None \/ exists vs, dget d "full_versions" = Some (pstrs vs) /\ length vs = length toks) ->
  (dget d "routed_experts_chunks" = None \/ exists c, dget d "routed_experts_chunks" = Some (PList c)) ->
  exists t, _item_from_dict u1 u2 u3 now d = Ok t /\ trajectory_id t = tid /\
    TrajectoryStore.instance_id t = iid /\ segment_index t = IInt (Z.of_nat ix) /\
    segment_count t = IInt (Z.of_nat count) /\ tokens t = pints toks /\ extra_info t = extra.
Proof using.
  intros T E1 E2 E3 E4 E5 E6 E7 E8 E9 E10 E11 Ll Lm V X.
  assert (M : missing_field d ["tokens"; "full_logprobs"; "full_loss_mask"] = None).
  { unfold missing_field, phas. cbn. by rewrite E8, E9, E10. }
  unfold _item_from_dict. rewrite M. unfold pget, phas, pindex, dget_def, py_or.
  rewrite E1, E2, E3, E4, E5, E6, E7, E8, E9, E10, E11.
  assert (py_truth (PStr tid) = true) as -> by (destruct tid; done).
  cbn [is_pnone as_id negb res_bind py_len pints pfloats parse_field is_tq_field_layout_dict _has_schema].
  rewrite !length_map, Ll, Lm, Z.eqb_refl, Nat.eqb_refl. cbn [negb].
  assert (Xe : parse_field match dget d "routed_experts_chunks" with Some x => x | None => PNone end
               = Ok (SRaw match dget d "routed_experts_chunks" with Some x => x | None => PNone end)).
  { destruct X as [-> |(c & ->)]; done. }
  rewrite Xe. destruct V as [-> |(vs & -> & Lv)]; cbn.
  - eexists. split; [reflexivity|]. done.
  - rewrite length_map, Lv, Nat.eqb_refl. cbn. eexists. split; [reflexivity|]. done.
Qed.

Lemma convert_published fid u tid turn iid ix count msgs tl toks l mask label fin extra versions experts us now view :
  tid <> "" ->
  length l = length toks -> length mask = length toks ->
  (forall vs, versions = Some vs -> length vs = length toks) ->
  (forall y, experts <> ELayout y) ->
  pget extra "segment_view" = PStr view ->
  exists t, convert_record {| wr_data := mark_finalized fid
      (segment_record u tid turn iid ix count msgs tl toks (LLocal l) mask label fin extra versions experts);
      wr_uuids := us; wr_time := now |} = Ok t /\ published fid tid iid view count ix toks t.
Proof using.
  intros T Ll Lm Lv Le V. destruct us as [[u1 u2] u3]. unfold convert_record. cbn [wr_data wr_uuids wr_time].
  set (extra' := dset (dset extra "finalization_complete" (PBool true)) "finalization_id" (PStr fid)).
  change (mark_finalized fid _) with (segment_record u tid turn iid ix count msgs tl toks (LLocal l) mask label fin
                                        extra' versions experts).
  destruct (item_from_lookups (segment_record u tid turn iid ix count msgs tl toks (LLocal l) mask label fin
              extra' versions experts) u tid turn iid ix count msgs toks l mask extra' u1 u2 u3 now)
    as (t & E & P1 & P2 & P3 & P4 & P5 & P6); try done.
  - destruct versions as [vs|]; [right; exists vs; by split; [|apply Lv]|left].
    by destruct experts as [|c|y]; [..|by destruct (Le y)].
  - destruct experts as [|c|y]; [left|right; exists (map PDict c)|by destruct (Le y)]; by destruct versions.
  - exists t. split; [done|]. split; try done; rewrite P6; unfold extra', pget, dget_def in *.
    + by rewrite !dget_dset_ne.
    + by rewrite dget_dset_eq.
    + by rewrite dget_dset_ne, dget_dset_eq.
Qed.
End Convert.

(** ** The records of a session build *)

(** Without transfer queue every field of a step is in the step. *)
Record local_step (st : StepRecord) : Prop := {
  ls_concat : exists l, sr_concat_response_logprobs st = inl l;
  ls_response : exists l, sr_response_logprobs st = inl l;
  ls_experts : exists c, sr_response_routed_experts_chunks st = inl c }.

Lemma refs_of_local {A B} (f : B -> FieldValue A) l : Forall (fun x => exists v, f x = FLocal v) l ->
  refs_of (map f l) = [].
Proof. induction 1 as [|x l [v E] F IH]; [done|]. unfold refs_of in *. cbn [map omap list_omap]. by rewrite E. Qed.

(** The record [r] is stored as an item with these contents. *)
Definition stores `{PyText} (fid tid iid view : string) (count ix : nat) (toks : list Z)
    (r : list (string * pyval)) : Prop :=
  forall us now, exists t, convert_record {| wr_data := mark_finalized fid r; wr_uuids := us; wr_time := now |} = Ok t /\
    published fid tid iid view count ix toks t.

Lemma concat_lengths {A B C} (f : C -> list A) (g : C -> list B) l :
  Forall (fun x => length (f x) = length (g x)) l ->
  length (concat (map f l)) = length (concat (map g l)).
Proof. induction 1 as [|x l E F IH]; [done|]. cbn [map concat]. by rewrite !length_app, E, IH. Qed.

Lemma zsum_lengths {A C} (f : C -> list A) l :
  zsum (map (fun x => Z.of_nat (length (f x))) l) = Z.of_nat (length (concat (map f l))).
Proof.
  induction l as [|x l IH]; [done|]. cbn [map concat]. rewrite zsum_cons, IH, length_app. lia.
Qed.

Lemma add_unseen_last l : forall cands, cands <> [] \/ l <> [] -> exists x, last (add_unseen cands l) = Some x.
Proof.
  assert (N : forall l : list string, l <> [] -> exists x, last l = Some x).
  { intros l' N. destruct (last l') eqn:E; [by eexists|]. by apply last_None in E. }
  assert (K : forall l cands, cands <> [] -> add_unseen cands l <> []).
  { intros l'. unfold add_unseen. induction l' as [|x l' IH]; intros c Hc; [done|]. simpl. apply IH.
    case_bool_decide; [done|]. by destruct c. }
  intros cands [D|D].
  - by apply N, K.
  - destruct l as [|x l]; [done|]. apply N. unfold add_unseen. simpl. apply (K l).
    case_bool_decide as I; [intros ->; by apply elem_of_nil in I|by destruct cands].
Qed.

Lemma segment_turns boundary reasons_before lineage sts : forall current reasons,
  Forall (fun g => sg_turn_ids g = _ordered_turn_ids (sg_steps g))
         (segment_loop boundary reasons_before lineage current reasons sts).
Proof.
  induction sts as [|st sts IH]; intros current reasons; simpl.
  - destruct current; by repeat constructor.
  - case_match; [|by apply IH]. apply Forall_app. split; [|by apply IH].
    destruct current; by repeat constructor.
Qed.

Section Build.
Context `{PyText}.
Variable pcfg : Config.
Variables (versions mask_nonlast : bool).

Lemma experts_local mode l count : Forall local_step l ->
  exists f, _build_routed_experts_field mode l count = Ok f /\ forall y, f <> ELayout y.
Proof using.
  intros L. unfold _build_routed_experts_field, build_concatenated_routed_experts. rewrite refs_of_local.
  - eexists. split; [reflexivity|]. intros y. by destruct (locals_of _).
  - eapply Forall_impl; [exact L|]. intros st [_ _ [c E]]. exists c. unfold chunks_field. by rewrite E.
Qed.

Lemma lineage_record_ok s tid g ix count iid label uid ts fid :
  tid <> "" -> cf_mode pcfg = tito ->
  sg_steps g <> [] -> sg_turn_ids g = _ordered_turn_ids (sg_steps g) ->
  Forall (step_aligned pcfg) (sg_steps g) -> Forall local_step (sg_steps g) ->
  exists r, _build_tito_lineage_segment_record tito versions mask_nonlast s tid g ix count iid label uid ts = Ok r /\
    stores fid tid iid "lineage" count ix (concat (map sr_concat_token_ids (sg_steps g))) r.
Proof using.
  intros T M N Tu A L. unfold _build_tito_lineage_segment_record.
  destruct (last (sg_steps g)) as [base|] eqn:Lb; [|by apply last_None in Lb].
  destruct (last (sg_turn_ids g)) as [turn|] eqn:Lt.
  2: { exfalso. rewrite Tu in Lt. unfold _ordered_turn_ids in Lt.
       destruct (add_unseen_last (map sr_turn_id (sg_steps g)) []) as [x E]; [|congruence].
       right. by destruct (sg_steps g). }
  assert (Lm : length (concat (map sr_concat_token_ids (sg_steps g)))
               = length (concat (map sr_concat_response_mask (sg_steps g)))).
  { apply concat_lengths. eapply Forall_impl; [exact A|]. intros st As.
    destruct (al_mask _ _ As M) as (n & Ln & ->). by rewrite length_app, !length_replicate. }
  assert (Lv : length (concat (map sr_concat_versions (sg_steps g)))
               = length (concat (map sr_concat_token_ids (sg_steps g)))).
  { apply concat_lengths. eapply Forall_impl; [exact A|]. intros st As. by apply (al_versions _ _ As). }
  assert (B : exists l, build_concatenated_logprobs (map (fun st => field_of (sr_concat_response_logprobs st)) (sg_steps g))
      (map (fun st => Z.of_nat (length (sr_concat_token_ids st))) (sg_steps g))
      (length (concat (map sr_concat_token_ids (sg_steps g)))) = Ok (LLocal l) /\
      length l = length (concat (map sr_concat_token_ids (sg_steps g)))).
  { unfold build_concatenated_logprobs. rewrite zsum_lengths, Z.eqb_refl, refs_of_local.
    2: { eapply Forall_impl; [exact L|]. intros st [[l E] _ _]. exists l. by rewrite E. }
    unfold locals_of. rewrite map_map.
    assert (E : length (concat (map (fun st => match field_of (sr_concat_response_logprobs st) with
                  FLocal l => l | FRemote _ => [] end) (sg_steps g)))
                = length (concat (map sr_concat_token_ids (sg_steps g)))).
    { apply concat_lengths. apply Forall_forall. intros st I.
      rewrite Forall_forall in A, L. destruct (L st I) as [[l E] _ _]. rewrite E. by apply (al_logprobs _ _ (A st I) M). }
    rewrite E, Nat.eqb_refl. eexists. split; [reflexivity|done]. }
  destruct B as (l & -> & Ll). cbn [res_bind]. rewrite Lm, Nat.eqb_refl, Lv, Lm, Nat.eqb_refl, andb_false_r.
  destruct (experts_local tito _ (length (concat (map sr_concat_response_mask (sg_steps g)))) L) as (f & -> & F).
  cbn -[concat map]. eexists. split; [reflexivity|]. intros us now.
  apply convert_published; try done.
  intros vs. destruct versions; [|done]. by intros [= <-].
Qed.

Lemma index_of_member l st : st ∈ l -> exists i, index_of_step l (sr_step_id st) = Some i.
Proof using.
  induction l as [|x l IH]; [by intros ?%elem_of_nil|]. cbn [index_of_step]. intros I.
  destruct (String.eqb_spec (sr_step_id x) (sr_step_id st)); [by eexists|].
  apply elem_of_cons in I as [->|I]; [done|]. destruct (IH I) as [i ->]. by exists (S i).
Qed.

Lemma timeline_record_ok s tid st ix count mode iid label uid ts fid :
  tid <> "" -> st ∈ steps s -> Forall local_step (steps s) ->
  exists r, _build_step_snapshot_record mode versions mask_nonlast s tid (timeline_segment st) ix count iid label
              mode uid ts = Ok r /\
    stores fid tid iid "timeline" count ix (sr_all_token_ids st) r.
Proof using.
  intros T I L. unfold _build_step_snapshot_record, timeline_segment. cbn [sg_steps last].
  set (n := length (sr_all_token_ids st)). set (p := Nat.min _ n).
  assert (Pn : (p + (n - p) = n)%nat) by (unfold p; lia).
  pose proof (proj1 (Forall_forall _ _) L st I) as [_ [lr Er] _].
  pose proof (snapshot_logprobs_aligned (field_of_val (sr_response_logprobs st)) p (n - p) n (sr_all_logprobs_invalid st)) as S.
  destruct (build_snapshot_logprobs _ _ _ _ _) as [[[l|y] inv]|e] eqn:B; cycle 1.
  { exfalso. rewrite Er in B. unfold build_snapshot_logprobs in B. rewrite Pn, Nat.eqb_refl in B. cbn in B.
    by destruct (normalize_logprobs_to_length _ _). }
  { exfalso. by destruct S. }
  destruct S as (Ll & _ & _). cbn [res_bind].
  assert (E : exists sts, routed_experts_steps s st mode = Ok sts /\ Forall local_step sts).
  { unfold routed_experts_steps. destruct mode.
    - destruct (index_of_member (lineage_steps s (sr_lineage_id st)) st) as [i ->].
      { apply list_elem_of_In, List.filter_In. split; [by apply list_elem_of_In|by apply String.eqb_eq]. }
      eexists. split; [reflexivity|]. apply Forall_drop, Forall_take.
      rewrite Forall_forall in *. intros x Hx. apply L. unfold lineage_steps in Hx.
      apply list_elem_of_In, List.filter_In in Hx as [Hx _]. by apply list_elem_of_In.
    - eexists. split; [reflexivity|]. constructor; [|constructor]. by apply (proj1 (Forall_forall _ _) L). }
  destruct E as (sts & -> & Ls). cbn [res_bind].
  destruct (experts_local mode sts n Ls) as (f & -> & F). cbn [res_bind].
  eexists. split; [reflexivity|]. intros us now. apply convert_published; try done.
  - rewrite length_app, !length_replicate. lia.
  - intros vs. destruct versions; [|done]. intros [= <-]. rewrite length_app, !length_replicate. lia.
Qed.
End Build.

(** ** A batch of items is accepted *)

(** The items of one view, in order. *)
Definition batch_of (fid tid iid view : string) (toks : list (list Z)) (ts : list TrajectorySegment) : Prop :=
  length ts = length toks /\
  forall i t tk, ts !! i = Some t -> toks !! i = Some tk -> published fid tid iid view (length toks) i tk t.

Section Batch.
Context `{PyText}.
Variables (fid tid iid : string).

Lemma batch_item view toks ts t : batch_of fid tid iid view toks ts -> t ∈ ts ->
  exists i tk, ts !! i = Some t /\ toks !! i = Some tk /\ published fid tid iid view (length toks) i tk t.
Proof using.
  intros [L P] I. apply list_elem_of_lookup in I as [i I].
  destruct (lookup_lt_is_Some_2 toks i) as [tk K]; [rewrite <- L; by eapply lookup_lt_Some|].
  exists i, tk. split; [done|]. split; [done|]. by apply P.
Qed.

Lemma batch_view view toks ts t : batch_of fid tid iid view toks ts -> t ∈ ts -> _item_segment_view t = Some view.
Proof using.
  intros B I. destruct (batch_item _ _ _ _ B I) as (i & tk & _ & _ & P).
  unfold _item_segment_view. by rewrite (pb_view _ _ _ _ _ _ _ _ P).
Qed.

Lemma batch_indexes view toks ts : batch_of fid tid iid view toks ts ->
  map (fun t => index_val (segment_index t)) ts = map Z.of_nat (seq 0 (length ts)) /\
  map (fun t => index_is_bool (segment_index t)) ts = replicate (length ts) false /\
  map segment_count ts = replicate (length ts) (IInt (Z.of_nat (length ts))).
Proof using.
  intros B. pose proof B as [L _].
  assert (E : forall i t, ts !! i = Some t -> segment_index t = IInt (Z.of_nat i) /\
                          segment_count t = IInt (Z.of_nat (length ts))).
  { intros i t I. destruct (lookup_lt_is_Some_2 toks i) as [tk K]; [rewrite <- L; by eapply lookup_lt_Some|].
    pose proof (proj2 B _ _ _ I K) as P. rewrite L. by destruct P. }
  clear B L. split_and!; apply list_eq; intros i; rewrite ?list_lookup_fmap.
  - destruct (ts !! i) as [t|] eqn:I; simpl.
    + destruct (E _ _ I) as [-> _]. rewrite lookup_seq_lt by (by eapply lookup_lt_Some). done.
    + apply lookup_ge_None in I. by rewrite lookup_seq_ge.
  - destruct (ts !! i) as [t|] eqn:I; simpl.
    + destruct (E _ _ I) as [-> _]. rewrite lookup_replicate_2 by (by eapply lookup_lt_Some). done.
    + apply lookup_ge_None in I. symmetry. by apply lookup_replicate_None.
  - destruct (ts !! i) as [t|] eqn:I; simpl.
    + destruct (E _ _ I) as [_ ->]. rewrite lookup_replicate_2 by (by eapply lookup_lt_Some). done.
    + apply lookup_ge_None in I. symmetry. by apply lookup_replicate_None.
Qed.

Lemma forallb_replicate {A} (f : A -> bool) n x : f x = true -> forallb f (replicate n x) = true.
Proof using. intros F. induction n as [|n IH]; [done|]. simpl. by rewrite F. Qed.

Lemma existsb_map {A B} (f : B -> bool) (g : A -> B) l : existsb (fun x => f (g x)) l = existsb f (map g l).
Proof using. induction l as [|x l IH]; [done|]. simpl. by rewrite IH. Qed.

Lemma existsb_all_false l : existsb (fun b : bool => b) (replicate l false) = false.
Proof using. by induction l. Qed.

Lemma batch_complete view toks ts : batch_of fid tid iid view toks ts -> ts <> [] -> view_complete ts = true.
Proof using.
  intros B N. destruct (batch_indexes _ _ _ B) as (Ix & Ib & Ct). unfold view_complete.
  rewrite Ix, Ct, (existsb_map (fun b => b) (fun t => index_is_bool (segment_index t))), Ib.
  destruct ts as [|t0 ts']; [done|]. set (n := length (t0 :: ts')) in *.
  change (replicate n (IInt (Z.of_nat n))) with (IInt (Z.of_nat n) :: replicate (length ts') (IInt (Z.of_nat n))).
  cbn [map index_val index_is_bool negb one_value].
  rewrite Z.eqb_refl, existsb_all_false. cbn [negb andb].
  rewrite (bool_decide_true (NoDup _)) by (apply NoDup_fmap; [intros x y; lia|apply NoDup_seq]).
  rewrite !andb_true_r, !andb_true_iff. split_and!.
  - rewrite forallb_forall. intros x I. apply bool_decide_eq_true.
    apply list_elem_of_In, list_elem_of_fmap in I as (y & -> & I). apply elem_of_replicate in I as [-> _]. done.
  - apply forallb_forall. intros z I. apply list_elem_of_In, list_elem_of_fmap in I as (k & -> & I).
    apply elem_of_seq in I. rewrite andb_true_iff, Z.leb_le, Z.ltb_lt. lia.
  - apply forallb_forall. intros k I. apply bool_decide_eq_true, list_elem_of_fmap_2. by apply list_elem_of_In.
Qed.

Lemma batch_sorted view toks ts : batch_of fid tid iid view toks ts -> sort_segments ts = ts.
Proof using.
  intros B. destruct (batch_indexes _ _ _ B) as (Ix & _ & _). unfold sort_segments. apply sort_by_id.
  clear B. revert Ix. generalize 0%nat. induction ts as [|t ts IH]; intros n Ix; [constructor|].
  cbn [map length seq] in Ix. injection Ix as I0 Ix. constructor; [by eapply IH|].
  apply Forall_forall. intros x I. apply negb_true_iff. unfold seg_ltb. rewrite I0.
  assert (M : index_val (segment_index x) ∈ map (fun t => index_val (segment_index t)) ts)
    by (apply list_elem_of_fmap; by exists x).
  rewrite Ix in M. apply list_elem_of_fmap in M as (k & -> & K). apply elem_of_seq in K.
  rewrite (proj2 (Z.ltb_ge _ _)), (proj2 (Z.eqb_neq _ _)) by lia. done.
Qed.
End Batch.

Section Publish.
Context `{PyText}.
Variables (fid tid iid : string).
Abbreviation batch_of := (batch_of fid tid iid).

(** The items of both views. *)
Variables (la ti : list (list Z)) (a b : list TrajectorySegment).
Hypothesis A : batch_of "lineage" la a.
Hypothesis B : batch_of "timeline" ti b.
Hypothesis F : fid <> "".

Lemma both_items t : t ∈ a ++ b -> exists v c i tk, published fid tid iid v c i tk t /\ (v = "lineage" \/ v = "timeline").
Proof using A B.
  rewrite elem_of_app. intros [I|I].
  - destruct (batch_item _ _ _ _ _ _ _ A I) as (i & tk & _ & _ & P). eexists _, _, _, _. split; [exact P|by left].
  - destruct (batch_item _ _ _ _ _ _ _ B I) as (i & tk & _ & _ & P). eexists _, _, _, _. split; [exact P|by right].
Qed.

Lemma filter_by_view v (x y : list TrajectorySegment) : (forall t, t ∈ x -> _item_segment_view t = Some v) ->
  (forall t, t ∈ y -> _item_segment_view t <> Some v) ->
  filter (fun t => _item_segment_view t = Some v) x = x /\ filter (fun t => _item_segment_view t = Some v) y = [].
Proof using.
  intros X Y. split; [by apply filter_id|by apply filter_nil].
Qed.

Lemma lineage_view : view_items (a ++ b) "lineage" = a.
Proof using A B.
  unfold view_items. rewrite filter_app.
  destruct (filter_by_view "lineage" a b) as [-> ->]; [..|by rewrite app_nil_r].
  - intros t. by apply batch_view with (1 := A).
  - intros t I. rewrite (batch_view _ _ _ _ _ _ t B I). by intros [=].
Qed.

Lemma timeline_view : view_items (a ++ b) "timeline" = b.
Proof using A B.
  unfold view_items. rewrite filter_app.
  destruct (filter_by_view "timeline" b a) as [-> ->]; [..|done].
  - intros t. by apply batch_view with (1 := B).
  - intros t I. rewrite (batch_view _ _ _ _ _ _ t A I). by intros [=].
Qed.

Lemma one_value_const {T X} `{EqDecision X} (f : T -> X) l x : l <> [] -> (forall t, t ∈ l -> f t = x) ->
  one_value (map f l) = true.
Proof using.
  intros N E. destruct l as [|t l]; [done|]. simpl. apply forallb_forall. intros y I.
  apply bool_decide_eq_true. apply list_elem_of_In, list_elem_of_fmap in I as (u & -> & I).
  rewrite (E t), (E u); [done|by right|by left].
Qed.

Lemma existsb_none {T} (f : T -> bool) l : (forall t, t ∈ l -> f t = false) -> existsb f l = false.
Proof using.
  intros E. destruct (existsb f l) eqn:X; [|done]. apply existsb_exists in X as (t & I & Ft).
  rewrite E in Ft; [done|by apply list_elem_of_In].
Qed.

Lemma batch_accepted : a ++ b <> [] -> _validate_finalized_batch (a ++ b) = Ok tt.
Proof using A B F.
  intros N. unfold _validate_finalized_batch. destruct (a ++ b) as [|t0 ts] eqn:E; [done|]. rewrite <- E in *. clear E t0 ts.
  assert (Ids : forall t, t ∈ a ++ b -> pget (extra_info t) "finalization_id" = PStr fid).
  { intros t I. destruct (both_items t I) as (v & c & i & tk & P & _). by destruct P. }
  assert (Mk : existsb marked (a ++ b) = true).
  { destruct (a ++ b) as [|t ts]; [done|]. simpl. unfold marked. apply orb_true_iff. left. apply orb_true_iff. left.
    pose proof (Ids t ltac:(by left)) as E. unfold pget, dget_def, phas in *. by destruct (dget _ _). }
  rewrite Mk. cbn [negb].
  assert (Hd : all_eq_head (map (fun t => pget (extra_info t) "finalization_id") (a ++ b)) = true /\
               head_nonempty_str (map (fun t => pget (extra_info t) "finalization_id") (a ++ b)) = true).
  { destruct (a ++ b) as [|t ts]; [done|]. cbn [map all_eq_head head_nonempty_str]. rewrite (Ids t) by left. split.
    - apply forallb_forall. intros x I. apply list_elem_of_In, list_elem_of_fmap in I as (u & -> & I).
      rewrite (Ids u) by (by right). simpl. apply String.eqb_refl.
    - by apply negb_true_iff, String.eqb_neq. }
  destruct Hd as [-> ->]. rewrite existsb_none; [|intros t I; destruct (both_items t I) as (v & c & i & tk & P & _);
    by rewrite (pb_complete _ _ _ _ _ _ _ _ P)].
  cbn [negb orb raise_if res_bind].
  rewrite (one_value_const _ _ tid), (one_value_const _ _ iid); try done;
    [|intros t I; destruct (both_items t I) as (v & c & i & tk & P & _); by destruct P..].
  cbn [negb orb raise_if res_bind]. rewrite existsb_none.
  2: { intros t I. destruct (both_items t I) as (v & c & i & tk & P & V). unfold _item_segment_view.
       rewrite (pb_view _ _ _ _ _ _ _ _ P). apply negb_false_iff, bool_decide_eq_true. simpl.
       destruct V as [-> | ->]; [left|right; left]. }
  cbn [negb orb raise_if res_bind].
  rewrite (proj2 (forallb_forall _ _)); [done|]. intros v I. unfold batch_views in I.
  apply list_elem_of_In, elem_of_remove_dups, list_elem_of_omap in I as (t & I & V).
  apply elem_of_app in I as [I|I].
  - rewrite (batch_view _ _ _ _ _ _ t A I) in V. injection V as <-. rewrite lineage_view.
    eapply batch_complete; [exact A|]. intros ->. by apply elem_of_nil in I.
  - rewrite (batch_view _ _ _ _ _ _ t B I) in V. injection V as <-. rewrite timeline_view.
    eapply batch_complete; [exact B|]. intros ->. by apply elem_of_nil in I.
Qed.

(** What the batch's writing makes readable. *)
Lemma batch_readable now store : traj store tid = [] ->
  let store' := run_ops (write_ops (a ++ b) now) store in
  read_trajectory store' tid None (Some "lineage") = a /\
  read_trajectory store' tid None (Some "timeline") = b.
Proof using A B.
  intros E store'. destruct (write_items_lists (a ++ b) now store) as (_ & W & _).
  assert (T : traj store' tid = a ++ b).
  { unfold store'. rewrite W, E. simpl. apply filter_id. intros t I.
    destruct (both_items t I) as (v & c & i & tk & P & _). by destruct P. }
  unfold read_trajectory, _filter_segment_view. rewrite T. cbn [String.eqb]. split.
  - change (filter _ (a ++ b)) with (view_items (a ++ b) "lineage"). rewrite lineage_view. by eapply batch_sorted.
  - change (filter _ (a ++ b)) with (view_items (a ++ b) "timeline"). rewrite timeline_view. by eapply batch_sorted.
Qed.
End Publish.

(** ** The records convert *)

Lemma numbered_ok (f : nat -> Segment -> result (list (string * pyval))) (P : nat -> list (string * pyval) -> Prop) segs :
  (forall i g, segs !! i = Some g -> exists r, f i g = Ok r /\ P i r) ->
  exists rs, numbered f segs = Ok rs /\ length rs = length segs /\ forall i r, rs !! i = Some r -> P i r.
Proof.
  intros E. unfold numbered.
  assert (G : forall l, (forall ig, ig ∈ l -> exists r, f (fst ig) (snd ig) = Ok r /\ P (fst ig) r) ->
    exists rs, mapM_res (fun ig => f (fst ig) (snd ig)) l = Ok rs /\ Forall2 (fun ig r => P (fst ig) r) l rs).
  { induction l as [|ig l IH]; intros Q; [by exists []|].
    destruct (Q ig ltac:(by left)) as (r & E1 & P1).
    destruct IH as (rs & E2 & P2); [intros x I; apply Q; by right|].
    exists (r :: rs). cbn [mapM_res]. rewrite E1, E2. split; [done|]. by constructor. }
  destruct (G (enumerate segs)) as (rs & E1 & P1).
  { intros [i g] I. apply elem_of_enumerate in I. by apply E. }
  exists rs. split; [done|]. assert (L : length rs = length segs).
  { rewrite <- (Forall2_length _ _ _ P1). unfold enumerate. apply length_imap. }
  split; [done|]. intros i r I.
  destruct (Forall2_lookup_r _ _ _ _ _ P1 I) as ([j g] & K & Q). rewrite enumerate_lookup in K.
  destruct (segs !! i); [|done]. by injection K as -> ->.
Qed.

Section Theorems.
Context `{PyText}.
Variable cfg : FinalizeConfig.

(** [finalize_session]'s conversion of one record. *)
Abbreviation write env := (fun r => {| wr_data := mark_finalized (fe_id env) r; wr_uuids := fe_uuids env;
                                       wr_time := fe_clock env |}).

Lemma convert_batch env tid iid view toks rs :
  length rs = length toks ->
  (forall i r tk, rs !! i = Some r -> toks !! i = Some tk -> stores (fe_id env) tid iid view (length toks) i tk r) ->
  exists ts, mapM_res convert_record (map (write env) rs) = Ok ts /\ batch_of (fe_id env) tid iid view toks ts.
Proof using.
  intros L P.
  assert (Q : forall l n, (forall i r, l !! i = Some r -> exists tk, toks !! (n + i)%nat = Some tk /\
              stores (fe_id env) tid iid view (length toks) (n + i) tk r) ->
    exists ts, mapM_res convert_record (map (write env) l) = Ok ts /\ length ts = length l /\
      forall i t, ts !! i = Some t -> exists tk, toks !! (n + i)%nat = Some tk /\
        published (fe_id env) tid iid view (length toks) (n + i) tk t).
  { induction l as [|r l IH]; intros n E.
    - exists []. split; [done|]. split; [done|]. intros i t X. by destruct i.
    - destruct (E 0%nat r eq_refl) as (tk & K & Sr). destruct (Sr (fe_uuids env) (fe_clock env)) as (t & C & Pb).
      destruct (IH (S n)) as (ts & M & Lt & Ps).
      { intros i r' I. rewrite Nat.add_succ_comm. by apply E. }
      exists (t :: ts). cbn [map mapM_res]. rewrite C, M. split; [done|]. split; [by simpl; rewrite Lt|].
      intros [|i] t' I; [injection I as <-; by exists tk|]. rewrite <- Nat.add_succ_comm. by apply Ps. }
  destruct (Q rs 0%nat) as (ts & M & Lt & Ps).
  { intros i r I. destruct (lookup_lt_is_Some_2 toks i) as [tk K]; [rewrite <- L; by eapply lookup_lt_Some|].
    exists tk. split; [done|]. by apply P. }
  exists ts. split; [done|]. split; [by rewrite Lt|]. intros i t tk I K.
  destruct (Ps i t I) as (tk' & K' & Pb). simpl in K'. rewrite K in K'. by injection K' as ->.
Qed.

Definition segment_tokens (g : Segment) : list Z := concat (map sr_concat_token_ids (sg_steps g)).

(** The tokens a finalized session publishes in its lineage view. *)
Definition lineage_tokens (s : Session) : list (list Z) :=
  match fz_mode cfg with
  | tito => map segment_tokens (_split_session_into_lineage_segments s)
  | snapshot => []
  end.

Lemma lineage_batch pcfg s iid label env : cf_mode pcfg = tito -> fz_mode cfg = tito ->
  good pcfg s -> Forall local_step (steps s) -> SessionManager.session_id s <> "" ->
  exists rs ts, lineage_records cfg s iid label env = Ok rs /\
    mapM_res convert_record (map (write env) rs) = Ok ts /\
    batch_of (fe_id env) (SessionManager.session_id s) iid "lineage"
      (map segment_tokens (_split_session_into_lineage_segments s)) ts.
Proof using.
  intros M M' [V [I _]] L N. pose proof (lineage_split_parts s (sv_lineages _ _ V)) as (Pm & W & _).
  unfold lineage_records. rewrite M'. set (segs := _split_session_into_lineage_segments s) in *.
  assert (Tu : Forall (fun g => sg_turn_ids g = _ordered_turn_ids (sg_steps g)) segs).
  { unfold segs, _split_session_into_lineage_segments. apply Forall_concat, Forall_map, Forall_forall.
    intros l _. apply segment_turns. }
  assert (Sub : forall g st, g ∈ segs -> st ∈ sg_steps g -> st ∈ steps s).
  { intros g st Ig Is. rewrite <- Pm. apply elem_of_concat_map. by exists g. }
  destruct (numbered_ok (fun i g => _build_tito_lineage_segment_record tito (fz_versions cfg) (fz_mask_nonlast cfg) s
      (SessionManager.session_id s) g i (length segs) iid label (fe_uid env true i) (fe_timestamp env))
      (fun i r => forall tk, map segment_tokens segs !! i = Some tk ->
         stores (fe_id env) (SessionManager.session_id s) iid "lineage" (length segs) i tk r) segs)
    as (rs & E & Lr & P).
  { intros i g Ig. pose proof (list_elem_of_lookup_2 _ _ _ Ig) as Mg.
    destruct (lineage_record_ok pcfg (fz_versions cfg) (fz_mask_nonlast cfg) s (SessionManager.session_id s) g i
                (length segs) iid label (fe_uid env true i) (fe_timestamp env) (fe_id env)) as (r & Er & St); try done.
    - rewrite Forall_forall in W. destruct (W g Mg) as (x & l & -> & _). done.
    - by apply (proj1 (Forall_forall _ _) Tu).
    - apply Forall_forall. intros st Is. rewrite Forall_forall in I. by eapply I, Sub.
    - apply Forall_forall. intros st Is. rewrite Forall_forall in L. by eapply L, Sub.
    - exists r. split; [done|]. intros tk K. rewrite list_lookup_fmap, Ig in K. by injection K as <-. }
  rewrite E. destruct (convert_batch env (SessionManager.session_id s) iid "lineage" (map segment_tokens segs) rs)
    as (ts & C & Bt); [by rewrite length_map| |by exists rs, ts].
  intros i r tk Ir K. rewrite length_map. by apply (P i r Ir).
Qed.

Lemma timeline_batch s iid label env : Forall local_step (steps s) -> SessionManager.session_id s <> "" ->
  exists rs ts, timeline_records cfg s iid label env = Ok rs /\
    mapM_res convert_record (map (write env) rs) = Ok ts /\
    batch_of (fe_id env) (SessionManager.session_id s) iid "timeline" (map sr_all_token_ids (steps s)) ts.
Proof using.
  intros L N. unfold timeline_records, _split_session_into_timeline_segments.
  destruct (numbered_ok (fun i g => _build_step_snapshot_record (fz_mode cfg) (fz_versions cfg) (fz_mask_nonlast cfg) s
      (SessionManager.session_id s) g i (length (map timeline_segment (steps s))) iid label (fz_mode cfg)
      (fe_uid env false i) (fe_timestamp env))
      (fun i r => forall tk, map sr_all_token_ids (steps s) !! i = Some tk ->
         stores (fe_id env) (SessionManager.session_id s) iid "timeline" (length (steps s)) i tk r)
      (map timeline_segment (steps s))) as (rs & E & Lr & P).
  { intros i g Ig. rewrite list_lookup_fmap in Ig. destruct (steps s !! i) as [st|] eqn:Is; [|done]. injection Ig as <-.
    destruct (timeline_record_ok (fz_versions cfg) (fz_mask_nonlast cfg) s (SessionManager.session_id s) st i
                (length (map timeline_segment (steps s))) (fz_mode cfg) iid label (fe_uid env false i) (fe_timestamp env) (fe_id env))
      as (r & Er & St); try done; [by eapply list_elem_of_lookup_2|].
    exists r. split; [done|]. intros tk K. rewrite list_lookup_fmap, Is in K. injection K as <-. by rewrite length_map in St. }
  rewrite E. destruct (convert_batch env (SessionManager.session_id s) iid "timeline" (map sr_all_token_ids (steps s)) rs)
    as (ts & C & Bt); [by rewrite Lr, !length_map| |by exists rs, ts].
  intros i r tk Ir K. rewrite length_map. by apply (P i r Ir).
Qed.

Lemma mapM_res_app {X Y} (f : X -> result Y) l1 l2 r1 r2 :
  mapM_res f l1 = Ok r1 -> mapM_res f l2 = Ok r2 -> mapM_res f (l1 ++ l2) = Ok (r1 ++ r2).
Proof using. rewrite !mapM_res_Forall2. apply Forall2_app. Qed.

(** All records of a session, as the batch that is written. *)
Lemma session_batch pcfg s iid label env : cf_mode pcfg = fz_mode cfg ->
  good pcfg s -> Forall local_step (steps s) -> SessionManager.session_id s <> "" ->
  exists rs a b, session_records cfg s iid label env = Ok rs /\
    mapM_res convert_record (map (write env) rs) = Ok (a ++ b) /\
    batch_of (fe_id env) (SessionManager.session_id s) iid "lineage" (lineage_tokens s) a /\
    batch_of (fe_id env) (SessionManager.session_id s) iid "timeline" (map sr_all_token_ids (steps s)) b.
Proof using.
  intros M G L N. destruct (timeline_batch s iid label env L N) as (rb & b & Eb & Cb & Bb).
  unfold session_records, lineage_tokens. rewrite Eb. destruct (fz_mode cfg) eqn:E.
  - destruct (lineage_batch pcfg s iid label env M E G L N) as (ra & a & -> & Ca & Ba).
    exists (ra ++ rb), a, b. split; [done|]. split; [|done]. rewrite map_app. by apply mapM_res_app.
  - exists rb, [], b. split; [done|]. split; [done|]. split; [|done]. split; [done|]. by intros i.
Qed.

(** The items' tokens, read off a batch. *)
Lemma batch_tokens fid tid iid view toks ts : batch_of fid tid iid view toks ts -> map tokens ts = map pints toks.
Proof using.
  intros [L P]. apply list_eq. intros i. rewrite !list_lookup_fmap.
  destruct (ts !! i) as [t|] eqn:I, (toks !! i) as [tk|] eqn:K; simpl; try done.
  - f_equal. by apply (pb_tokens _ _ _ _ _ _ _ _ (P i t tk I K)).
  - apply lookup_lt_Some in I. apply lookup_ge_None in K. lia.
  - apply lookup_lt_Some in K. apply lookup_ge_None in I. lia.
Qed.

(** C3: Finalization publishes.  Let [s] be a session with the invariants of a proxy run
    ([manager_ok], [good], in the mode the endpoint has), with at least one step (without
    one the endpoint refuses), all of them stored locally, its id and the finalization id
    not empty; let the request name it, no result be cached for it, and the store have
    nothing of its trajectory.  Then finalizing succeeds: no record fails to build, to
    convert or to pass the batch check.  The session is closed and its result cached, and
    the store then serves, in TITO mode, one lineage item per lineage segment with the
    joined tokens of its steps, and one timeline item per step with the tokens of that
    step, and no other items of that trajectory, each view numbered 0..N-1.  What is pinned
    of an item are its tokens and its index. *)
Theorem finalize_publishes pcfg m store body s env purged :
  let sid := SessionManager.session_id s in
  let m0 := _cleanup_expired_locked m (fe_clock env) in
  manager_ok m -> cf_mode pcfg = fz_mode cfg -> good pcfg s -> Forall local_step (steps s) ->
  steps s <> [] -> sid <> "" -> fe_id env <> "" -> body_text body "session_id" = Some sid ->
  dget (_finalization_results m0) sid = None -> dget (_sessions m0) sid = Some s -> traj store sid = [] ->
  exists m' store' r, finalize_locked cfg (m, store) body s env purged = ((m', store'), Done r) /\
    dget (_sessions m') sid = None /\ is_Some (dget (_finalized_session_ids m') sid) /\
    is_Some (dget (_finalization_results m') sid) /\
    let lineage := read_trajectory store' sid None (Some "lineage") in
    let timeline := read_trajectory store' sid None (Some "timeline") in
    map tokens lineage = map pints (lineage_tokens s) /\
    map tokens timeline = map (fun st => pints (sr_all_token_ids st)) (steps s) /\
    map (fun t => index_val (segment_index t)) lineage = map Z.of_nat (seq 0 (length lineage)) /\
    map (fun t => index_val (segment_index t)) timeline = map Z.of_nat (seq 0 (length timeline)).
Proof using.
  intros sid m0 Mk M G L N Ns F Eb Ec Es Et.
  set (iid := or_str (body_text body "instance_id") (SessionManager.instance_id s)).
  destruct (session_batch pcfg s iid (pget body "label") env M G L Ns) as (rs & a & b & Er & C & A & B).
  assert (Nb : a ++ b <> []).
  { intros X. apply app_eq_nil in X as [_ ->]. destruct B as [B _]. rewrite length_map in B. by destruct (steps s). }
  assert (Nl : Nat.eqb (length (steps s)) 0 = false) by (apply Nat.eqb_neq; by destruct (steps s)).
  pose proof (batch_accepted _ _ _ _ _ _ _ A B F Nb) as V.
  destruct (batch_readable _ _ _ _ _ _ _ A B (fe_clock env) store Et) as [R1 R2].
  eexists _, _, _. split.
  { unfold finalize_locked. rewrite Eb. cbn [default from_option id]. unfold get_finalization_result. fold m0. rewrite Ec.
    unfold get_session. rewrite Es, Nat.eqb_refl, Nl. cbn [negb]. fold iid. rewrite Er. unfold write_many.
    rewrite C, V. unfold SessionManager.finalize_session. rewrite Es. reflexivity. }
  cbn [_sessions _finalized_session_ids _finalization_results].
  split; [apply dget_dpop_eq, (cleanup_ok m (fe_clock env) Mk)|].
  split; [by rewrite dget_dset_eq|]. split; [by rewrite dget_dset_eq|].
  unfold _write_items. destruct (a ++ b) as [|t0 ts0] eqn:Eab; [done|]. cbn [fst]. rewrite <- Eab in *.
  fold sid in R1, R2. rewrite R1, R2, (batch_tokens _ _ _ _ _ _ A), (batch_tokens _ _ _ _ _ _ B), map_map.
  split; [done|]. split; [done|]. split; [apply (batch_indexes _ _ _ _ _ _ A)|apply (batch_indexes _ _ _ _ _ _ B)].
Qed.
End Theorems.

(** ** Atomicity and idempotence *)

Section Repeat.
Context `{PyText}.
Variable cfg : FinalizeConfig.

Lemma write_many_refused rs now store e store' : write_many rs now store = (Raise e, store') -> store' = store.
Proof using.
  unfold write_many. destruct (mapM_res _ _); [|by intros [= _ <-]].
  destruct (_validate_finalized_batch _); [done|by intros [= _ <-]].
Qed.

(** A finalization that is refused or fails, on whatever path, stores nothing and
    leaves the session open: the trajectory store is unchanged and the manager is what
    the expiry sweep alone makes of it. *)
Theorem finalize_failure_changes_nothing m store body held env purged m' store' f :
  finalize_locked cfg (m, store) body held env purged = ((m', store'), Fail f) ->
  store' = store /\ m' = _cleanup_expired_locked m (fe_clock env).
Proof using.
  unfold finalize_locked, get_finalization_result.
  set (m0 := _cleanup_expired_locked m (fe_clock env)). destruct (dget (_finalization_results m0) _); [done|].
  destruct (get_session m0 _) as [s|]; [|by intros [= <- <- _]].
  destruct (negb _); [by intros [= <- <- _]|]. destruct (Nat.eqb _ 0); [by intros [= <- <- _]|].
  destruct (session_records _ _ _ _ _) as [rs|e]; [|by intros [= <- <- _]].
  destruct (write_many _ _ store) as [[ts|e] st] eqn:W.
  - unfold SessionManager.finalize_session. by destruct (dget (_sessions m0) _).
  - intros [= <- <- _]. by apply write_many_refused in W.
Qed.

(** The key [tool_call_hook_keys_purged] is added after the result is cached. *)
Definition but_purged (r r0 : list (string * pyval)) : Prop :=
  r = r0 \/ exists n, r = dset r0 "tool_call_hook_keys_purged" n.

Lemma finalize_locked_cached m store body held env purged m' store' r : manager_ok m ->
  finalize_locked cfg (m, store) body held env purged = ((m', store'), Done r) ->
  manager_ok m' /\ exists r0, dget (_finalization_results m') (default "" (body_text body "session_id")) = Some r0 /\
    but_purged r r0.
Proof using.
  intros M. unfold finalize_locked, get_finalization_result. apply (cleanup_ok m (fe_clock env)) in M.
  set (m0 := _cleanup_expired_locked m (fe_clock env)) in *. set (sid := default "" _).
  destruct (dget (_finalization_results m0) sid) as [r0|] eqn:E0.
  { intros [= <- _ <-]. split; [done|]. exists r0. split; [done|by left]. }
  unfold get_session. destruct (dget (_sessions m0) sid) as [s|] eqn:Es; [|done].
  destruct (negb _); [done|]. destruct (Nat.eqb _ 0); [done|].
  destruct (session_records _ _ _ _ _) as [rs|e]; [|done].
  destruct (write_many _ _ store) as [[ts|e] st] eqn:W; [|done].
  set (res := finalization_result _ _ _ _ _).
  pose proof (finalize_ok m0 sid (Some res) (fe_clock env) M) as M1. unfold SessionManager.finalize_session in *.
  rewrite Es in *. cbn [fst] in M1. intros [= <- _ <-]. split; [done|]. exists res.
  cbn [_finalization_results]. rewrite dget_dset_eq. split; [done|]. destruct purged; [by left|right; by eexists].
Qed.

Lemma cached_survives m now sid r0 : manager_ok m -> dget (_finalization_results m) sid = Some r0 ->
  (forall tf, dget (_finalized_session_ids m) sid = Some tf -> finalized_expired m now tf = false) ->
  dget (_finalization_results (_cleanup_expired_locked m now)) sid = Some r0.
Proof using.
  intros M E X. destruct (mo_cached _ M sid ltac:(by eexists)) as [tf Ef].
  unfold _cleanup_expired_locked. cbn [_finalization_results].
  assert (N : sid ∉ map fst (List.filter (fun kt => finalized_expired m now (snd kt)) (_finalized_session_ids m))).
  { intros I. apply list_elem_of_fmap in I as ([k t] & -> & I). apply list_elem_of_In, List.filter_In in I as [I F].
    apply list_elem_of_In in I. apply dget_NoDup_elem in I; [|apply M]. simpl in *. rewrite (X t I) in F. done. }
  revert N E. generalize (_finalization_results m).
  induction (map fst _) as [|k l IH]; intros d N E; [done|]. cbn [fold_left]. apply IH; [set_solver|].
  rewrite dget_dpop_ne; [done|set_solver].
Qed.

(** Finalization is idempotent.  Once a finalization of a session has been answered,
    every repetition of the request within the expiry of the session's record is
    answered with the same result (without the purge count, which is not cached) and
    writes nothing: the store is the same and no session is closed. *)
Theorem finalize_idempotent m store body env purged m1 store1 r env2 purged2 :
  manager_ok m -> finalize_request cfg (m, store) body env purged = ((m1, store1), Done r) ->
  let sid := default "" (body_text body "session_id") in
  (forall tf, dget (_finalized_session_ids m1) sid = Some tf -> finalized_expired m1 (fe_clock env2) tf = false) ->
  exists r0, finalize_request cfg (m1, store1) body env2 purged2
             = ((_cleanup_expired_locked m1 (fe_clock env2), store1), Done r0) /\ but_purged r r0.
Proof using.
  intros M E sid X. unfold finalize_request, enter_finalize in *.
  destruct (dget body "session_id"); [|done]. fold sid in E |- *.
  destruct (existsb (phas body) build_keys); [done|]. unfold get_finalization_result in E |- *.
  pose proof (cleanup_ok m (fe_clock env) M) as M0. set (m0 := _cleanup_expired_locked m (fe_clock env)) in *.
  assert (K : manager_ok m1 /\ exists r0, dget (_finalization_results m1) sid = Some r0 /\ but_purged r r0).
  { destruct (dget (_finalization_results m0) sid) as [r0|] eqn:E0.
    - injection E as <- _ <-. split; [done|]. exists r0. split; [done|by left].
    - destruct (get_session m0 sid) as [s|]; [|done]. by eapply finalize_locked_cached. }
  destruct K as (M1 & r0 & E0 & P). rewrite (cached_survives m1 _ sid r0 M1 E0 X). by exists r0.
Qed.
End Repeat.

(** ** Witnesses *)

Definition w_fz_cfg : FinalizeConfig :=
  {| fz_mode := tito; fz_model := Some "qwen3_5"; fz_versions := true; fz_mask_nonlast := false; fz_runtime := None |}.

Definition w_fz_env (clock : Z) : FinalizeEnv :=
  {| fe_clock := w_t clock; fe_id := "f1"; fe_uid := fun l i => (if l then "L" else "T") +:+ str_of_Z (Z.of_nat i);
     fe_timestamp := "t"; fe_uuids := ("a", "b", "c") |}.

Definition w_fz_body : list (string * pyval) := [("session_id", PStr "s")].
Definition w_fz_store : TrajectoryStore := TrajectoryStore__init__ 1 (w_t 300).

#[local] Existing Instance x_text.

Definition w_local (st : StepRecord) : bool :=
  match sr_concat_response_logprobs st, sr_response_logprobs st, sr_response_routed_experts_chunks st with
  | inl _, inl _, inl _ => true
  | _, _, _ => false
  end.

Lemma w_local_step st : w_local st = true -> local_step st.
Proof. unfold w_local. intros E. split; repeat case_match; try discriminate; by eexists. Qed.

(** The session of the two requests, ready to be finalized. *)
Lemma w_fz_ready : exists w s, x_run x_start x_two = Some w /\
  dget (_sessions (px_manager w)) "s" = Some s /\ SessionManager.session_id s = "s" /\ steps s <> [] /\
  Forall local_step (steps s) /\
  dget (_sessions (_cleanup_expired_locked (px_manager w) (w_t 3))) "s" = Some s /\
  dget (_finalization_results (_cleanup_expired_locked (px_manager w) (w_t 3))) "s" = None /\
  manager_ok (px_manager w) /\ good x_cfg s /\
  lineage_tokens w_fz_cfg s = [[60; 104; 105; 62; 94; 111; 107; 60; 103; 111; 62; 94; 111; 107]]%Z.
Proof.
  assert (L : (w ← x_run x_start x_two; s ← dget (_sessions (px_manager w)) "s";
               Some (SessionManager.session_id s, length (steps s), forallb w_local (steps s),
                     within_timeout (px_manager w) (w_t 3) (last_active s),
                     dget (_finalization_results (_cleanup_expired_locked (px_manager w) (w_t 3))) "s",
                     lineage_tokens w_fz_cfg s))
              = Some ("s", 2%nat, true, true, None, [[60; 104; 105; 62; 94; 111; 107; 60; 103; 111; 62; 94; 111; 107]]%Z))
    by (vm_compute; reflexivity).
  destruct (x_run x_start x_two) as [w|] eqn:R; [|discriminate]. cbn [mbind option_bind] in L.
  destruct (dget (_sessions (px_manager w)) "s") as [s|] eqn:D; [|discriminate]. cbn [mbind option_bind] in L.
  injection L as L1 L2 L3 L4 L5 L6. exists w, s.
  pose proof (pi_good _ _ (reachable_px _ _ _ _ _ _ _ _ _ _ _ _ _ _ _ _ _ x_two_allowed x_two_waits R)) as [M G].
  assert (Sw : dget (_sessions (_cleanup_expired_locked (px_manager w) (w_t 3))) "s" = Some s).
  { rewrite cleanup_session by apply M. rewrite D. cbn [mbind option_bind]. unfold sweep_one.
    assert (within_timeout (px_manager w) (w_t 3) (last_active s) = true) as -> by exact L4. reflexivity. }
  split; [exact eq_refl|]. split; [exact D|]. split; [exact L1|].
  split; [intros X; rewrite X in L2; discriminate|]. split.
  { apply Forall_forall. intros st I. apply w_local_step. rewrite forallb_forall in L3. apply L3. by apply list_elem_of_In. }
  exact (conj Sw (conj L5 (conj M (conj (G _ _ D) L6)))).
Qed.

Lemma finalize_publishes_witness : exists w s m' store' r, x_run x_start x_two = Some w /\
  finalize_locked w_fz_cfg (px_manager w, w_fz_store) w_fz_body s (w_fz_env 3) 0 = ((m', store'), Done r) /\
  dget (_sessions m') "s" = None /\
  map tokens (read_trajectory store' "s" None (Some "lineage"))
  = [pints [60; 104; 105; 62; 94; 111; 107; 60; 103; 111; 62; 94; 111; 107]%Z].
Proof.
  destruct w_fz_ready as (w & s & R & D & I & N & L & Sw & C & M & G & Tk).
  rewrite <- I in Sw, C.
  assert (Ns : SessionManager.session_id s <> "") by (rewrite I; discriminate).
  assert (Bs : body_text w_fz_body "session_id" = Some (SessionManager.session_id s)) by (rewrite I; reflexivity).
  destruct (finalize_publishes w_fz_cfg x_cfg (px_manager w) w_fz_store w_fz_body s (w_fz_env 3) 0
              M eq_refl G L N Ns ltac:(discriminate) Bs C Sw eq_refl)
    as (m' & store' & r & E & P1 & _ & _ & P2 & _).
  rewrite I in P1, P2. rewrite Tk in P2. exists w, s, m', store', r.
  exact (conj R (conj E (conj P1 P2))).
Defined.

Lemma w_fz_empty_ok : manager_ok (SessionManager__init__ (w_t 10)).
Proof. split; try constructor; try done; intros k [x E]; done. Qed.

(** A session that does not exist. *)
Lemma finalize_failure_changes_nothing_witness :
  snd (fst (finalize_locked w_fz_cfg (SessionManager__init__ (w_t 10), w_fz_store) w_fz_body
              (new_session 0 "s" "i" (w_t 1) (w_t 1)) (w_fz_env 3) 0)) = w_fz_store.
Proof.
  destruct (finalize_failure_changes_nothing w_fz_cfg (SessionManager__init__ (w_t 10)) w_fz_store w_fz_body
    (new_session 0 "s" "i" (w_t 1) (w_t 1)) (w_fz_env 3) 0 _ _ _ eq_refl) as [E _]. exact E.
Defined.

Lemma w_fz_twice : exists w m1 store1 r, x_run x_start x_two = Some w /\ manager_ok (px_manager w) /\
  finalize_request w_fz_cfg (px_manager w, w_fz_store) w_fz_body (w_fz_env 3) 3 = ((m1, store1), Done r) /\
  forall tf, dget (_finalized_session_ids m1) "s" = Some tf -> finalized_expired m1 (w_t 4) tf = false.
Proof.
  destruct w_fz_ready as (w & s & R & _ & _ & _ & _ & _ & _ & M & _).
  assert (L : (w ← x_run x_start x_two;
               match finalize_request w_fz_cfg (px_manager w, w_fz_store) w_fz_body (w_fz_env 3) 3 with
               | ((m1, _), Done _) => Some (finalized_expired m1 (w_t 4) <$> dget (_finalized_session_ids m1) "s")
               | _ => None
               end) = Some (Some false)) by (vm_compute; reflexivity).
  rewrite R in L. cbn [mbind option_bind] in L.
  destruct (finalize_request _ _ _ _ _) as [[m1 store1] [r|f]] eqn:E; [|discriminate].
  exists w, m1, store1, r. refine (conj R (conj M (conj E _))).
  intros tf T. rewrite T in L. injection L as L. exact L.
Qed.

(** The session again, after it was finalized with a purge of three keys. *)
Lemma finalize_idempotent_witness : exists w m1 store1 r r0, x_run x_start x_two = Some w /\
  finalize_request w_fz_cfg (px_manager w, w_fz_store) w_fz_body (w_fz_env 3) 3 = ((m1, store1), Done r) /\
  finalize_request w_fz_cfg (m1, store1) w_fz_body (w_fz_env 4) 0
  = ((_cleanup_expired_locked m1 (w_t 4), store1), Done r0) /\ but_purged r r0.
Proof.
  destruct w_fz_twice as (w & m1 & store1 & r & R & M & E & X).
  destruct (finalize_idempotent w_fz_cfg (px_manager w) w_fz_store w_fz_body (w_fz_env 3) 3 m1 store1 r (w_fz_env 4) 0 M E X)
    as (r0 & E0 & B).
  exists w, m1, store1, r, r0. exact (conj R (conj E (conj E0 B))).
Defined.
