(* ===== verification/Samples.v ===== *)
(** * Training samples from trajectory segments ([dressage/rollout/artifacts/samples.py])

    [write_sample_from_segment] turns a finalized proxy segment into the arrays the
    trainer consumes.  [Sample] has the attributes of slime's [Sample] the code
    touches; [metadata = None] stands for a value that is not a dictionary.  Decoding
    a routed-experts payload (base64 and numpy) is the parameter [decode]: it gives
    the rows of a chunk.  An exception leaves a half-written sample behind, which the
    callers drop; the model returns the exception. *)

From S2P Require Import Prelude.
From S2P Require Import PyFloat.
From S2P Require Import PyVal.
From S2P Require Import Transport.
From Stdlib Require Import Ascii SpecFloat.

Local Open Scope string_scope.
Local Open Scope list_scope.
Local Open Scope py_scope.

Abbreviation dict := (list (string * pyval)).

Record Sample : Type := {
  index : option Z;
  group_index : option Z;
  sp_session_id : option string;
  tokens : list pyval;
  response : string;
  response_length : Z;
  loss_mask : option (list Z);
  rollout_log_probs : option (list float);
  reward : pyval;
  status : string;
  remove_sample : bool;
  rollout_id : option Z;
  metadata : option dict;
  rollout_routed_experts : option (list (list Z));
  sp_prompt : pyval;
  sp_label : option string;
  sp_generate_function_path : option string }.

(** The attributes of [args] read here, [None] when absent. *)
Record SampleArgs : Type := {
  max_tokens_per_gpu : option Z;
  context_parallel_size : option Z;
  cp_size : option Z;
  num_layers : option Z;
  moe_router_topk : option Z;
  use_rollout_routing_replay : bool }.

Definition TQ_SAMPLE_REF_METADATA_KEY : string := "dressage_tq_sample_ref".

(** [value or default] *)
Definition py_or (v d : pyval) : pyval := if py_truth v then v else d.

Section Samples.
Context `{PyText}.

(** ** Choosing a segment *)

Definition segment_index_of (d : dict) : result Z := py_int (dget_def (PInt 0) d "segment_index").

(** [(int(item.get("segment_index", 0)), float(item.get("timestamp") or 0.0))] *)
Definition last_key (d : dict) : result (Z * float) :=
  let! i := segment_index_of d in
  let! t := py_float (py_or (pget d "timestamp") (PFloat f0)) in
  Ok (i, t).

Definition last_key_lt (x y : Z * float) : bool :=
  (fst x <? fst y)%Z || ((fst x =? fst y)%Z && fltb (snd x) (snd y)).

Definition select_last_segment (data : list dict) : result dict :=
  check! Nat.eqb (length data) 0 else ValueError "proxy returned no trajectory segments" ;;
  let! keyed := mapM_res (fun d => let! k := last_key d in Ok (k, d)) data in
  match last (sort_by (fun x y => negb (last_key_lt (fst y) (fst x))) keyed) with
  | Some (_, d) => Ok d
  | None => Raise (ValueError "proxy returned no trajectory segments")
  end.

(** ** Normalizing the arrays *)

(** [reversed(messages)], the first assistant message with content. *)
Fixpoint last_content (rev_messages : list pyval) (fallback : string) : result string :=
  match rev_messages with
  | [] => Ok fallback
  | PDict m :: rest =>
      if py_eqb (pget m "role") (PStr "assistant") && negb (is_pnone (pget m "content"))
      then Ok (py_str (pget m "content")) else last_content rest fallback
  | _ :: _ => Raise (AttributeError "get")
  end.

Definition _last_assistant_content (messages : list pyval) (fallback : string) : result string :=
  last_content (rev messages) fallback.

Definition _required_segment_list (segment : dict) (key : string) : result (list pyval) :=
  match dget segment key with
  | None => Raise (ValueError "selected segment missing required field")
  | Some PNone => Raise (ValueError "selected segment field is null")
  | Some v => match py_list v with
              | Ok l => Ok l
              | Raise _ => Raise (ValueError "selected segment field is not a list")
              end
  end.

(** [value.is_integer()] of a float *)
Definition is_integer (f : float) : bool :=
  match f with
  | S754_zero _ => true
  | S754_finite _ m e => (0 <=? e)%Z || (Z.pos m mod 2 ^ (- e) =? 0)%Z
  | _ => false
  end.

Definition mask_value (v : pyval) : result Z :=
  check! (match v with PFloat f => negb (is_integer f) | _ => false end)
    else ValueError "full_loss_mask is not 0 or 1" ;;
  match py_int v with
  | Ok z => if ((z =? 0) || (z =? 1))%Z then Ok z
            else Raise (ValueError "full_loss_mask is not 0 or 1")
  | Raise _ => Raise (ValueError "full_loss_mask cannot be converted to int")
  end.

Definition _normalize_segment_loss_mask (values : list pyval) : result (list Z) :=
  mapM_res mask_value values.

Definition _normalize_segment_logprobs (values : list pyval) : result (list float) :=
  mapM_res (fun v => match py_float v with
                     | Ok f => Ok f
                     | Raise _ => Raise (ValueError "full_logprobs cannot be converted to float")
                     end) values.

Definition _normalize_segment_versions (values : list pyval) : list string :=
  map (fun v => if is_pnone v then "unknown" else py_str v) values.

(** ** Versions *)

Record span : Type := { sp_start : nat; sp_end : nat; sp_version : string }.

(** The loop over [enumerate(versions[1:], start=1)]. *)
Fixpoint spans_loop (versions : list string) (ix start : nat) (current : string) : list span :=
  match versions with
  | [] => [{| sp_start := start; sp_end := ix; sp_version := current |}]
  | v :: rest =>
      if String.eqb v current then spans_loop rest (S ix) start current
      else {| sp_start := start; sp_end := ix; sp_version := current |}
           :: spans_loop rest (S ix) ix v
  end.

Definition _compress_version_spans (versions : list string) : list span :=
  match versions with [] => [] | v :: rest => spans_loop rest 1 0 v end.

Definition span_dict (s : span) : pyval :=
  PDict [("start", PInt (Z.of_nat (sp_start s))); ("end", PInt (Z.of_nat (sp_end s)));
         ("version", PStr (sp_version s))].

Definition _is_real_output_version (version : string) : bool :=
  negb (is_non_real (strip version)).

Definition trainable (mv : Z * string) : bool :=
  (fst mv =? 1)%Z && _is_real_output_version (snd mv).

Definition _trainable_output_versions (mask : list Z) (versions : list string) : list string :=
  map snd (List.filter trainable (zip mask versions)).

Definition _trainable_output_version_bounds (mask : list Z) (versions : list string)
    : option (string * string) :=
  let vs := _trainable_output_versions mask versions in
  match vs with
  | [] => None
  | v :: _ => Some (v, default v (last vs))
  end.

(** [len(set(l)) > 1] *)
Definition several (l : list string) : bool :=
  match l with [] => false | v :: rest => negb (forallb (String.eqb v) rest) end.

Definition _has_token_level_partial_rollout (mask : list Z) (versions : list string) : bool :=
  several (_trainable_output_versions mask versions).

Definition _mask_nonlast_version_tokens (mask : list Z) (versions : list string) : list Z :=
  let vs := _trainable_output_versions mask versions in
  if negb (several vs) then mask
  else match last vs with
       | Some lv => map (fun mv => if trainable mv && String.eqb (snd mv) lv then 1%Z else 0%Z)
                        (zip mask versions)
       | None => mask
       end.

Definition _segment_masks_nonlast_version_tokens (segment : dict) : result bool :=
  match py_or (pget segment "extra_info") (PDict []) with
  | PDict e => Ok (py_truth (pget e "mask_nonlast_version_tokens"))
  | _ => Raise (AttributeError "get")
  end.

(** ** Aligned arrays *)

Record Arrays : Type := {
  ar_tokens : list pyval;
  ar_mask : list Z;
  ar_logprobs : (list float + TQFieldLayout)%type;
  ar_versions : option (list string) }.

Definition logprobs_aligned (n : nat) (lp : list float + TQFieldLayout) : bool :=
  match lp with
  | inl l => Nat.eqb n (length l)
  | inr l => (Z.of_nat n =? token_count l)%Z
  end.

Definition _segment_arrays (segment : dict) : result Arrays :=
  let! toks := _required_segment_list segment "tokens" in
  let! raw_mask := _required_segment_list segment "full_loss_mask" in
  let! mask := _normalize_segment_loss_mask raw_mask in
  let raw := pget segment "full_logprobs" in
  let! lps := (if is_tq_field_layout_dict raw
               then let! l := TQFieldLayout_from_dict raw in Ok (inr l)
               else let! v := _required_segment_list segment "full_logprobs" in
                    let! l := _normalize_segment_logprobs v in Ok (inl l)) in
  let! versions := (if is_pnone (pget segment "full_versions") then Ok None
                    else let! v := _required_segment_list segment "full_versions" in
                         Ok (Some (_normalize_segment_versions v))) in
  let n := length toks in
  check! Nat.eqb n 0 else ValueError "selected segment has empty tokens" ;;
  check! negb (Nat.eqb n (length mask)) else ValueError "tokens length != full_loss_mask length" ;;
  check! negb (logprobs_aligned n lps) else ValueError "tokens length != full_logprobs length" ;;
  check! (match versions with Some v => negb (Nat.eqb n (length v)) | None => false end)
    else ValueError "tokens length != full_versions length" ;;
  Ok {| ar_tokens := toks; ar_mask := mask; ar_logprobs := lps; ar_versions := versions |}.

Definition _segment_token_cap (a : SampleArgs) : option Z :=
  match max_tokens_per_gpu a with
  | None => None
  | Some m => Some (m * match context_parallel_size a with
                        | Some c => c
                        | None => default 1 (cp_size a)
                        end)%Z
  end.

(** [l[:n]] *)
Definition slice_to {A} (n : Z) (l : list A) : list A :=
  if (n <? 0)%Z then take (Z.to_nat (Z.of_nat (length l) + n)) l else take (Z.to_nat n) l.

Definition truncate (ar : Arrays) (cap : option Z) : Arrays * bool :=
  match cap with
  | Some c =>
      if (c <? Z.of_nat (length (ar_tokens ar)))%Z
      then ({| ar_tokens := slice_to c (ar_tokens ar); ar_mask := slice_to c (ar_mask ar);
               ar_logprobs := match ar_logprobs ar with
                              | inl l => inl (slice_to c l)
                              | inr l => inr l
                              end;
               ar_versions := slice_to c <$> ar_versions ar |}, true)
      else (ar, false)
  | None => (ar, false)
  end.

(** [next((idx for idx, value in enumerate(mask) if value == 1), default)] *)
Fixpoint first_one (mask : list Z) (ix : nat) (dflt : nat) : nat :=
  match mask with
  | [] => dflt
  | m :: rest => if (m =? 1)%Z then ix else first_one rest (S ix) dflt
  end.

(** ** Routed experts *)

Section Experts.
Variable decode : pyval -> result (list (list Z)).

Definition chunk_rows (chunk : pyval) : result (list (list Z)) :=
  let! rows := decode chunk in
  match chunk with
  | PDict d =>
      let! v := pindex d "row_count" in
      let! n := py_int v in
      check! negb (n =? Z.of_nat (length rows))%Z
        else ValueError "routed_experts chunk row count does not match its payload" ;;
      Ok rows
  | _ => Raise (TypeError "row_count")
  end.

Definition extract_routed_experts (segment : dict) (a : SampleArgs) (expected : Z)
    : result (option (list (list Z))) :=
  match num_layers a, moe_router_topk a with
  | Some _, Some _ =>
      let info := pget segment "routed_experts_chunks" in
      if negb (py_truth info) then Ok None
      else
        let! chunks := py_list info in
        let! parts := mapM_res chunk_rows chunks in
        let rows := concat parts in
        if (0 <? expected)%Z then
          check! (Z.of_nat (length rows) <? expected - 1)%Z
            else ValueError "routed_experts length does not match trajectory tokens" ;;
          Ok (Some (take (Z.to_nat (expected - 1)) rows))
        else Ok (Some rows)
  | _, _ => Ok None
  end.

(** ** The sample *)

Definition opt_pyval (o : option string) : pyval :=
  match o with Some s => PStr s | None => PNone end.

Definition pop_keys : list string :=
  ["dressage_partial_rollout"; "dressage_async_group_id"; "response_versions";
   "response_version_spans"; "dressage_start_token_version"; "dressage_end_token_version";
   "full_versions"; "version_spans"].

(** The version entries of the metadata. *)
Definition version_metadata (m : dict) (mask : list Z) (versions : option (list string)) : dict :=
  match versions with
  | None => m
  | Some vs =>
      let m := dset m "full_versions" (PList (map PStr vs)) in
      let m := dset m "version_spans" (PList (map span_dict (_compress_version_spans vs))) in
      let m := match _trainable_output_version_bounds mask vs with
               | Some (a, b) => dset (dset m "dressage_start_token_version" (PStr a))
                                     "dressage_end_token_version" (PStr b)
               | None => m
               end in
      if _has_token_level_partial_rollout mask vs
      then dset m "dressage_partial_rollout" (PBool true) else m
  end.

Definition segment_uids (all : list dict) : list pyval :=
  List.filter (fun v => negb (is_pnone v)) (map (fun d => pget d "uid") all).

Definition write_sample_from_segment (sample : Sample) (a : SampleArgs) (segment : dict)
    (all_segments : list dict) (session_id : option string) (instance_id : pyval)
    (agent_response : string)
    : result Sample :=
  let! ar0 := _segment_arrays segment in
  let '(ar, truncated) := truncate ar0 (_segment_token_cap a) in
  let! flag := (match ar_versions ar with
                | Some _ => _segment_masks_nonlast_version_tokens segment
                | None => Ok false
                end) in
  let train_mask := match ar_versions ar with
                    | Some vs => if flag then _mask_nonlast_version_tokens (ar_mask ar) vs
                                 else ar_mask ar
                    | None => ar_mask ar
                    end in
  let n := length (ar_tokens ar) in
  let start := first_one (ar_mask ar) 0 n in
  let rlen := (n - start)%nat in
  let lmask := drop start train_mask in
  let lps := match ar_logprobs ar with inl l => Some (drop start l) | inr _ => None end in
  check! negb (Nat.eqb (length lmask) rlen) else ValueError "loss_mask length != response_length" ;;
  check! (match lps with Some l => negb (Nat.eqb (length l) rlen) | None => false end)
    else ValueError "rollout_log_probs length != response_length" ;;
  let messages := py_or (pget segment "messages") (PList []) in
  let! msgs := py_list messages in
  let! text := _last_assistant_content msgs agent_response in
  match metadata sample with
  | None => Raise (TypeError "metadata does not support item assignment")
  | Some m =>
      let m := dset m "session_id" (opt_pyval session_id) in
      let m := dset m "instance_id" instance_id in
      let m := dset m "messages" messages in
      let m := dset m "proxy_extra_info" (py_or (pget segment "extra_info") (PDict [])) in
      let m := fold_left dpop pop_keys m in
      let m := version_metadata m (ar_mask ar) (ar_versions ar) in
      let m := dset m "segment_count" (PInt (Z.of_nat (length all_segments))) in
      let m := dset m "selected_segment_index" (dget_def (PInt 0) segment "segment_index") in
      let m := dset m "all_segment_uids" (PList (segment_uids all_segments)) in
      let m := if truncated then dset m "truncated" (PBool true) else m in
      let raw := pget segment "routed_experts_chunks" in
      let! experts_layout := (if is_tq_field_layout_dict raw
                              then let! l := TQFieldLayout_from_dict raw in Ok (Some l)
                              else Ok None) in
      let layouts0 := match ar_logprobs ar with
                      | inr l => [(logical_field l, TQFieldLayout_to_dict l)]
                      | inl _ => []
                      end in
      let layouts := match experts_layout with
                     | Some l => dset layouts0 (logical_field l) (TQFieldLayout_to_dict l)
                     | None => layouts0
                     end in
      let! experts := (match experts_layout with
                       | Some _ => Ok None
                       | None => extract_routed_experts segment a (Z.of_nat n)
                       end) in
      let m := match layouts with
               | [] => m
               | _ => dset m TQ_SAMPLE_REF_METADATA_KEY (PDict layouts)
               end in
      check! (match experts, experts_layout with
              | None, None => use_rollout_routing_replay a
              | _, _ => false
              end)
        else ValueError "use_rollout_routing_replay is enabled but segment contains no routed_experts." ;;
      let finish_reason := py_str (py_or (pget segment "finish_reason") (PStr "stop")) in
      Ok {| index := index sample; group_index := group_index sample;
            sp_session_id := sp_session_id sample; tokens := ar_tokens ar; response := text;
            response_length := Z.of_nat rlen; loss_mask := Some lmask; rollout_log_probs := lps;
            reward := reward sample;
            status := if String.eqb finish_reason "length" then "truncated" else "completed";
            remove_sample := remove_sample sample; rollout_id := rollout_id sample;
            metadata := Some m;
            rollout_routed_experts := match experts with
                                      | Some r => Some r
                                      | None => rollout_routed_experts sample
                                      end;
            sp_prompt := sp_prompt sample; sp_label := sp_label sample;
            sp_generate_function_path := sp_generate_function_path sample |}
  end.
End Experts.
End Samples.

(** ** Version spans *)

Definition expand_span (s : span) : list string := replicate (sp_end s - sp_start s) (sp_version s).

(** Spans that tile [a..b) without gaps, neighbours carrying different versions. *)
Fixpoint tiles (a b : nat) (l : list span) : Prop :=
  match l with
  | [] => a = b
  | s :: rest => sp_start s = a /\ (a < sp_end s <= b)%nat /\ tiles (sp_end s) b rest /\
                 (forall s', head rest = Some s' -> sp_version s' <> sp_version s)
  end.

Lemma spans_loop_spec vs : forall ix start cur, (start < ix)%nat ->
  concat (map expand_span (spans_loop vs ix start cur)) = replicate (ix - start) cur ++ vs /\
  tiles start (ix + length vs) (spans_loop vs ix start cur) /\
  (exists s rest, spans_loop vs ix start cur = s :: rest /\ sp_version s = cur).
Proof.
  induction vs as [|v vs IH]; intros ix start cur L; simpl.
  - split; [done|]. split; [|by eauto]. split; [done|]. split; [lia|]. split; [lia|done].
  - destruct (String.eqb_spec v cur) as [->|N].
    + destruct (IH (S ix) start cur) as (E & T & Hd); [lia|]. split; [|split; [|done]].
      * rewrite E. replace (S ix - start)%nat with ((ix - start) + 1)%nat by lia.
        by rewrite replicate_add, <- app_assoc.
      * by replace (ix + S (length vs))%nat with (S ix + length vs)%nat by lia.
    + destruct (IH (S ix) ix v) as (E & T & (s & rest & Es & Ev)); [lia|]. split; [|split; [|by eauto]].
      * simpl. rewrite E. f_equal. by replace (S ix - ix)%nat with 1%nat by lia.
      * simpl. split; [done|]. split; [lia|].
        replace (ix + S (length vs))%nat with (S ix + length vs)%nat by lia.
        split; [done|]. intros s' Hs'. rewrite Es in Hs'. simpl in Hs'. congruence.
Qed.

(** Version spans lose nothing: expanding the compressed spans gives back the
    per-token versions, and the spans tile the token axis with neighbouring spans
    carrying different versions. *)
Theorem version_spans_roundtrip versions :
  concat (map expand_span (_compress_version_spans versions)) = versions /\
  tiles 0 (length versions) (_compress_version_spans versions).
Proof.
  destruct versions as [|v vs]; [done|]. simpl.
  destruct (spans_loop_spec vs 1 0 v) as (E & T & _); [lia|]. by split.
Qed.

(** ** Masks *)

Lemma first_one_spec mask : forall ix d,
  (ix + length mask <= d)%nat ->
  (ix <= first_one mask ix d <= d)%nat /\
  (forall j, (ix + j < first_one mask ix d)%nat -> mask !! j <> Some 1%Z) /\
  ((first_one mask ix d < d)%nat -> d = (ix + length mask)%nat ->
   mask !! (first_one mask ix d - ix)%nat = Some 1%Z).
Proof.
  induction mask as [|m mask IH]; intros ix d L; simpl in *.
  - split; [lia|]. split; [done|]. lia.
  - destruct (Z.eqb_spec m 1) as [->|N].
    + split; [lia|]. split; [intros; lia|]. by rewrite Nat.sub_diag.
    + destruct (IH (S ix) d) as (A & B & C); [lia|]. split; [lia|]. split.
      * intros [|j] Hj; simpl; [congruence|]. apply B. lia.
      * intros Hd Ed. specialize (C Hd ltac:(lia)).
        replace (first_one mask (S ix) d - ix)%nat with (S (first_one mask (S ix) d - S ix)) by lia.
        done.
Qed.

Section SampleFacts.
Context `{PyText}.

Lemma trainable_lookup mask vs i v :
  mask !! i = Some 1%Z -> vs !! i = Some v -> _is_real_output_version v = true ->
  v ∈ _trainable_output_versions mask vs.
Proof.
  intros Em Ev R. unfold _trainable_output_versions. apply list_elem_of_fmap.
  exists (1%Z, v). split; [done|]. apply list_elem_of_In, filter_In. split.
  - apply list_elem_of_In, list_elem_of_lookup. exists i. rewrite lookup_zip_with, Em. simpl.
    by rewrite Ev.
  - unfold trainable. simpl. by rewrite R.
Qed.

Lemma not_several l x y : several l = false -> x ∈ l -> y ∈ l -> x = y.
Proof.
  destruct l as [|v l]; [by intros _ ?%elem_of_nil|]. simpl. rewrite negb_false_iff, forallb_forall.
  intros F. assert (G : forall z, z ∈ v :: l -> z = v).
  { intros z [->|I]%elem_of_cons; [done|]. apply list_elem_of_In, F, String.eqb_eq in I. done. }
  intros Hx Hy. rewrite (G x Hx), (G y Hy). done.
Qed.

(** Masking only clears entries, and leaves a single real version to train on. *)
Lemma mask_nonlast_spec mask vs :
  length mask = length vs ->
  length (_mask_nonlast_version_tokens mask vs) = length mask /\
  (forall i, _mask_nonlast_version_tokens mask vs !! i = Some 1%Z -> mask !! i = Some 1%Z) /\
  (forall i j v w, _mask_nonlast_version_tokens mask vs !! i = Some 1%Z ->
     _mask_nonlast_version_tokens mask vs !! j = Some 1%Z ->
     vs !! i = Some v -> vs !! j = Some w ->
     _is_real_output_version v = true -> _is_real_output_version w = true -> v = w).
Proof.
  intros L. unfold _mask_nonlast_version_tokens.
  destruct (several (_trainable_output_versions mask vs)) eqn:Sv; simpl.
  - destruct (last (_trainable_output_versions mask vs)) as [lv|] eqn:El.
    + assert (G : forall i, map (fun mv : Z * string => if trainable mv && String.eqb (snd mv) lv then 1%Z else 0%Z)
          (zip mask vs) !! i = Some 1%Z -> mask !! i = Some 1%Z /\ vs !! i = Some lv).
      { intros i E. rewrite list_lookup_fmap, lookup_zip_with in E.
        destruct (mask !! i) as [m|]; [|done]. simpl in E. destruct (vs !! i) as [v|]; [|done].
        simpl in E. destruct (trainable (m, v) && String.eqb v lv) eqn:B; [|done].
        bool_hyps. unfold trainable in *. bool_hyps.
        match goal with X : String.eqb v lv = true |- _ => apply String.eqb_eq in X as -> end.
        match goal with X : (_ =? _)%Z = true |- _ => apply Z.eqb_eq in X; simpl in X; subst end.
        done. }
      split; [rewrite length_map, length_zip_with; lia|]. split; [intros i E; by apply G|].
      intros i j v w Ei Ej Ev Ew _ _. destruct (G i Ei), (G j Ej). congruence.
    + apply last_None in El. by rewrite El in Sv.
  - split; [done|]. split; [done|]. intros i j v w Ei Ej Ev Ew Rv Rw.
    eapply not_several; [exact Sv|exact (trainable_lookup _ _ _ _ Ei Ev Rv)|exact (trainable_lookup _ _ _ _ Ej Ew Rw)].
Qed.

Lemma segment_arrays_aligned segment ar :
  _segment_arrays segment = Ok ar ->
  ar_tokens ar <> [] /\ length (ar_mask ar) = length (ar_tokens ar) /\
  logprobs_aligned (length (ar_tokens ar)) (ar_logprobs ar) = true /\
  (forall vs, ar_versions ar = Some vs -> length vs = length (ar_tokens ar)) /\
  Forall (fun m => m = 0 \/ m = 1)%Z (ar_mask ar).
Proof.
  unfold _segment_arrays. intros E. res_inv. subst ar. simpl.
  match goal with X : _normalize_segment_loss_mask _ = Ok ?m |- _ => apply mapM_res_Forall2 in X as F end.
  repeat match goal with X : raise_if _ _ = Ok _ |- _ =>
    unfold raise_if in X; match type of X with (if ?b then _ else _) = _ =>
      destruct b eqn:?; [discriminate X|clear X] end end.
  bool_hyps.
  repeat match goal with X : Nat.eqb _ _ = true |- _ => apply Nat.eqb_eq in X
                     | X : Nat.eqb _ _ = false |- _ => apply Nat.eqb_neq in X end.
  repeat split; auto.
  - intros ->. simpl in *. lia.
  - intros vs ->. bool_hyps. match goal with X : Nat.eqb _ (length vs) = true |- _ => apply Nat.eqb_eq in X end. lia.
  - clear -F. induction F as [|x y l k Hx F IH]; constructor; [|done].
    unfold mask_value in Hx. res_inv. destruct (py_int x) as [z|]; [|done].
    destruct (Z.eqb_spec z 0), (Z.eqb_spec z 1); simpl in *; simplify_eq; auto.
Qed.
End SampleFacts.

Section SampleTheorem.
Context `{PyText}.

(** Cutting keeps the arrays aligned, and under the cap when it is not negative. *)
Lemma truncate_spec ar0 cap ar b :
  truncate ar0 cap = (ar, b) -> length (ar_mask ar0) = length (ar_tokens ar0) ->
  logprobs_aligned (length (ar_tokens ar0)) (ar_logprobs ar0) = true ->
  (forall vs, ar_versions ar0 = Some vs -> length vs = length (ar_tokens ar0)) ->
  exists k, ar_tokens ar = take k (ar_tokens ar0) /\ ar_mask ar = take k (ar_mask ar0) /\
    (forall l, ar_logprobs ar = inl l -> exists l0, ar_logprobs ar0 = inl l0 /\ l = take k l0) /\
    (forall vs, ar_versions ar = Some vs -> exists vs0, ar_versions ar0 = Some vs0 /\ vs = take k vs0) /\
    (forall c, cap = Some c -> (0 <= c)%Z -> (Z.of_nat (length (ar_tokens ar)) <= c)%Z).
Proof.
  intros E Lm Ll Lv. set (n := length (ar_tokens ar0)) in *.
  assert (Sl : forall {A} c (l : list A), length l = n ->
            slice_to c l = take (if (c <? 0)%Z then Z.to_nat (Z.of_nat n + c) else Z.to_nat c) l).
  { intros A c l Hl. unfold slice_to. rewrite Hl. by destruct (c <? 0)%Z. }
  assert (Id : exists k, ar_tokens ar0 = take k (ar_tokens ar0) /\ ar_mask ar0 = take k (ar_mask ar0) /\
    (forall l, ar_logprobs ar0 = inl l -> exists l0, ar_logprobs ar0 = inl l0 /\ l = take k l0) /\
    (forall vs, ar_versions ar0 = Some vs -> exists vs0, ar_versions ar0 = Some vs0 /\ vs = take k vs0)).
  { exists n. split; [by rewrite take_ge|]. split; [by rewrite take_ge by lia|]. split.
    - intros l El. rewrite El in Ll. apply Nat.eqb_eq in Ll. exists l. by rewrite take_ge by lia.
    - intros vs Ev. exists vs. split; [done|]. rewrite take_ge; [done|]. rewrite (Lv _ Ev). lia. }
  unfold truncate in E. destruct cap as [c|].
  - destruct (c <? Z.of_nat (length (ar_tokens ar0)))%Z eqn:C; simplify_eq; simpl.
    + eexists. rewrite (Sl _ c (ar_tokens ar0)), (Sl _ c (ar_mask ar0)) by done.
      split; [done|]. split; [done|]. split; [|split].
      * intros l El. destruct (ar_logprobs ar0) as [l0|] eqn:E0; [|done]. simplify_eq. exists l0.
        apply Nat.eqb_eq in Ll. split; [done|]. apply Sl. by rewrite Ll.
      * intros vs Ev. destruct (ar_versions ar0) as [vs0|] eqn:E0; [|done].
        injection Ev as <-. exists vs0. split; [done|]. apply Sl. by apply Lv.
      * intros c' [= <-] Hc. rewrite length_take. destruct (c <? 0)%Z eqn:C0; lia.
    + destruct Id as (k & A & B & C' & D). exists k. repeat split; auto.
      intros c' [= <-] Hc. lia.
  - simplify_eq. destruct Id as (k & A & B & C' & D). exists k. by repeat split.
Qed.

Lemma truncate_versions ar0 cap ar b :
  truncate ar0 cap = (ar, b) -> is_Some (ar_versions ar0) -> is_Some (ar_versions ar).
Proof.
  unfold truncate. intros E [vs Ev]. destruct cap as [c|]; [destruct (_ <? _)%Z|];
    injection E as <- <-; simpl; rewrite ?Ev; by eexists.
Qed.

(** The mask after the versions other than the last were cleared. *)
Definition trained_mask (ar : Arrays) (flag : bool) : list Z :=
  match ar_versions ar with
  | Some vs => if flag then _mask_nonlast_version_tokens (ar_mask ar) vs else ar_mask ar
  | None => ar_mask ar
  end.

Lemma trained_mask_spec ar flag :
  (forall vs, ar_versions ar = Some vs -> length vs = length (ar_mask ar)) ->
  length (trained_mask ar flag) = length (ar_mask ar) /\
  (forall i, trained_mask ar flag !! i = Some 1%Z -> ar_mask ar !! i = Some 1%Z) /\
  (forall vs i j v w, ar_versions ar = Some vs -> flag = true ->
     trained_mask ar flag !! i = Some 1%Z -> trained_mask ar flag !! j = Some 1%Z ->
     vs !! i = Some v -> vs !! j = Some w ->
     _is_real_output_version v = true -> _is_real_output_version w = true -> v = w).
Proof.
  intros L. unfold trained_mask. destruct (ar_versions ar) as [vs|]; [|by repeat split].
  destruct flag; [|by repeat split].
  destruct (mask_nonlast_spec (ar_mask ar) vs) as (A & B & C); [by rewrite (L vs)|].
  split; [done|]. split; [done|]. intros vs' i j v w [= <-] _. apply C.
Qed.

(** What a written sample holds, in terms of the truncated arrays. *)
Lemma write_sample_fields decode sample a segment all sid iid text s' :
  write_sample_from_segment decode sample a segment all sid iid text = Ok s' ->
  exists ar0 ar tr flag, _segment_arrays segment = Ok ar0 /\
    truncate ar0 (_segment_token_cap a) = (ar, tr) /\
    (is_Some (ar_versions ar) -> _segment_masks_nonlast_version_tokens segment = Ok flag) /\
    let start := first_one (ar_mask ar) 0 (length (ar_tokens ar)) in
    tokens s' = ar_tokens ar /\ loss_mask s' = Some (drop start (trained_mask ar flag)) /\
    response_length s' = Z.of_nat (length (ar_tokens ar) - start) /\
    rollout_log_probs s' = match ar_logprobs ar with inl l => Some (drop start l) | inr _ => None end.
Proof.
  intros E. unfold write_sample_from_segment in E.
  destruct (_segment_arrays segment) as [ar0|]; [|done]. cbn [res_bind] in E.
  destruct (truncate ar0 (_segment_token_cap a)) as [ar tr] eqn:Et.
  destruct (match ar_versions ar with
            | Some _ => _segment_masks_nonlast_version_tokens segment
            | None => Ok false end) as [flag|] eqn:Ef; [|done]. cbn [res_bind] in E.
  fold (trained_mask ar flag) in E. exists ar0, ar, tr, flag. split; [done|]. split; [done|].
  split; [intros [vs Ev]; by rewrite Ev in Ef|]. clear Ef.
  res_inv. destruct (metadata sample); [|done]. res_inv. by subst s'.
Qed.

(** C34: A sample is aligned with its segment.  On success the tokens are a prefix
    of the segment's, within the token cap; the response starts at the first
    trainable token and nothing trainable lies before it; the loss mask and the
    log-probabilities have the response's length and sit at their tokens; every
    trained position was trainable in the segment; and when the segment asks for it,
    the trained tokens of real versions all come from one version. *)
Theorem write_sample_aligned decode sample a segment all sid iid text s' :
  write_sample_from_segment decode sample a segment all sid iid text = Ok s' ->
  exists ar k start lm, _segment_arrays segment = Ok ar /\
    tokens s' = take k (ar_tokens ar) /\
    (forall c, _segment_token_cap a = Some c -> (0 <= c)%Z -> (Z.of_nat (length (tokens s')) <= c)%Z) /\
    loss_mask s' = Some lm /\ response_length s' = Z.of_nat (length lm) /\
    (start + length lm = length (tokens s'))%nat /\
    (forall j, (j < start)%nat -> take k (ar_mask ar) !! j <> Some 1%Z) /\
    (lm <> [] -> take k (ar_mask ar) !! start = Some 1%Z) /\
    (forall i, lm !! i = Some 1%Z -> ar_mask ar !! (start + i)%nat = Some 1%Z) /\
    (forall lp, rollout_log_probs s' = Some lp ->
       exists l0, ar_logprobs ar = inl l0 /\ lp = drop start (take k l0) /\ length lp = length lm) /\
    (forall vs, ar_versions ar = Some vs -> _segment_masks_nonlast_version_tokens segment = Ok true ->
       forall i j v w, lm !! i = Some 1%Z -> lm !! j = Some 1%Z ->
         vs !! (start + i)%nat = Some v -> vs !! (start + j)%nat = Some w ->
         _is_real_output_version v = true -> _is_real_output_version w = true -> v = w).
Proof.
  intros E. destruct (write_sample_fields _ _ _ _ _ _ _ _ _ E)
    as (ar0 & ar & tr & flag & Ea & Et & Ef & Q1 & Q2 & Q3 & Q4).
  destruct (segment_arrays_aligned _ _ Ea) as (_ & Lm & Ll & Lv & _).
  destruct (truncate_spec _ _ _ _ Et Lm Ll Lv) as (k & Tk & Mk & Lk & Vk & Ck).
  set (n := length (ar_tokens ar)) in *. set (start := first_one (ar_mask ar) 0 n) in *.
  assert (Hn : length (ar_mask ar) = n) by (unfold n; rewrite Tk, Mk, !length_take; lia).
  assert (Lvs : forall vs, ar_versions ar = Some vs -> length vs = length (ar_mask ar)).
  { intros vs Ev. destruct (Vk vs Ev) as (vs0 & E0 & ->). rewrite Mk, !length_take, (Lv _ E0). lia. }
  destruct (trained_mask_spec ar flag Lvs) as (Ht & Hsub & Hone).
  destruct (first_one_spec (ar_mask ar) 0 n) as (S1 & S2 & S3); [lia|]. fold start in S1, S2, S3.
  exists ar0, k, start, (drop start (trained_mask ar flag)). rewrite Q1, Q2, Q3, Q4.
  assert (Ld : length (drop start (trained_mask ar flag)) = (n - start)%nat) by (rewrite length_drop; lia).
  split; [done|]. split; [done|]. split; [done|]. split; [done|]. split; [by rewrite Ld|].
  split; [rewrite Ld; fold n; lia|]. split; [rewrite <- Mk; intros j Hj; apply S2; lia|].
  split; [|split; [|split]].
  - intros Hl. rewrite <- Mk. rewrite <- (Nat.sub_0_r start). apply S3; [|lia].
    destruct (drop start (trained_mask ar flag)); [done|]. simpl in Ld. lia.
  - intros i Hi. rewrite lookup_drop in Hi. apply Hsub in Hi. rewrite Mk in Hi.
    by apply lookup_take_Some in Hi as [Hi _].
  - intros lp El. destruct (ar_logprobs ar) as [l|] eqn:E1; [|done]. injection El as <-.
    destruct (Lk l eq_refl) as (l0 & E0 & ->). exists l0. split; [done|]. split; [done|].
    rewrite E0 in Ll. apply Nat.eqb_eq in Ll. rewrite length_drop, length_take, Ld.
    unfold n. rewrite Tk, length_take. lia.
  - intros vs Ev Fl i j v w Hi Hj Hv Hw Rv Rw. rewrite lookup_drop in Hi, Hj.
    destruct (truncate_versions _ _ _ _ Et ltac:(by eexists)) as [vs' Ev'].
    assert (flag = true) as -> by (specialize (Ef ltac:(by eexists)); congruence).
    destruct (Vk vs' Ev') as (vs0 & E0 & ->). assert (vs0 = vs) as -> by congruence.
    assert (Hlt : forall x, trained_mask ar true !! x = Some 1%Z -> (x < k)%nat).
    { intros x Hx. apply lookup_lt_Some in Hx. rewrite Ht, Mk, length_take in Hx. lia. }
    eapply Hone; [exact Ev'|done|exact Hi|exact Hj| | |done|done]; rewrite lookup_take_lt; auto.
Qed.
End SampleTheorem.

(** ** Witness *)

#[local] Instance w_sample_text : PyText :=
  {| py_repr := fun _ => ""; py_parse_float := fun _ => None |}.

Definition w_sample : Sample :=
  {| index := Some 0%Z; group_index := Some 0%Z; sp_session_id := None; tokens := []; response := "";
     response_length := 0; loss_mask := None; rollout_log_probs := None; reward := PNone;
     status := "pending"; remove_sample := false; rollout_id := None; metadata := Some [];
     rollout_routed_experts := None; sp_prompt := PNone; sp_label := None;
     sp_generate_function_path := None |}.

Definition w_sample_args : SampleArgs :=
  {| max_tokens_per_gpu := Some 4%Z; context_parallel_size := None; cp_size := None;
     num_layers := None; moe_router_topk := None; use_rollout_routing_replay := false |}.

(** Five tokens of versions 1 and 2, cut to four, trained on version 2 only. *)
Definition w_segment : dict :=
  [("segment_index", PInt 0); ("uid", PStr "u");
   ("tokens", PList (map PInt [10; 11; 12; 13; 14]%Z));
   ("full_loss_mask", PList (map PInt [0; 1; 1; 1; 1]%Z));
   ("full_logprobs", PList (map (fun _ => PFloat f0) [0; 0; 0; 0; 0]%Z));
   ("full_versions", PList [PNone; PStr "1"; PStr "1"; PStr "2"; PStr "2"]);
   ("extra_info", PDict [("mask_nonlast_version_tokens", PBool true)])].

Lemma write_sample_aligned_witness :
  exists s', write_sample_from_segment (fun _ => Ok []) w_sample w_sample_args w_segment [w_segment]
               (Some "s") (PStr "i") "hi" = Ok s' /\
    loss_mask s' = Some [0; 0; 1]%Z /\
    (exists ar k start (lm : list Z), _segment_arrays w_segment = Ok ar /\ tokens s' = take k (ar_tokens ar) /\
       (start + length lm = length (tokens s'))%nat).
Proof.
  eexists. split; [vm_compute; reflexivity|]. split; [reflexivity|].
  edestruct (write_sample_aligned (fun _ => Ok []) w_sample w_sample_args w_segment [w_segment]
               (Some "s") (PStr "i") "hi") as (ar & k & start & lm & A & B & _ & _ & _ & C & _);
    [vm_compute; reflexivity|].
  exists ar, k, start, lm. split; [exact A|]. split; [exact B|exact C].
Defined.
