(* ===== verification/Rewards.v ===== *)
(** * Multi-segment trajectories and their rewards

    [dressage/rollout/multi_segment.py] expands the segments of one trajectory into
    samples; [dressage/training/reward_post_process.py] normalizes the rewards per
    group and gives every segment of a trajectory the advantage of its last one.
    Python's [sum] of floats (which changed in 3.12) and [**] (the C library's [pow])
    are the parameters [py_sum] and [py_pow]. *)

From S2P Require Import Prelude.
From S2P Require Import PyFloat.
From S2P Require Import PyVal.
From S2P Require Import Samples.
From Stdlib Require Import SpecFloat.

Local Open Scope string_scope.
Local Open Scope list_scope.
Local Open Scope py_scope.

(** ** [multi_segment.py] *)

Definition with_sample (s : Sample) (rid : option Z) (rw : pyval) (rm : bool)
    (sid : option string) (m : option dict) : Sample :=
  {| index := index s; group_index := group_index s; sp_session_id := sid; tokens := tokens s;
     response := response s; response_length := response_length s; loss_mask := loss_mask s;
     rollout_log_probs := rollout_log_probs s; reward := rw; status := status s;
     remove_sample := rm; rollout_id := rid; metadata := m;
     rollout_routed_experts := rollout_routed_experts s;
     sp_prompt := sp_prompt s; sp_label := sp_label s;
     sp_generate_function_path := sp_generate_function_path s |}.

(** [a or b] on optional strings *)
Definition str_or (a b : option string) : option string :=
  match a with
  | Some s => if String.eqb s "" then b else a
  | None => b
  end.

(** [obj] is [f"{id(sample):x}"]. *)
Definition mark_aborted_no_grad (s : Sample) (session_id instance_id : option string)
    (obj : string) : Sample :=
  let m := default [] (metadata s) in
  let m := if is_pnone (pget m "parent_traj_id")
           then dset m "parent_traj_id"
                  (PStr (default "" (str_or session_id (str_or instance_id (Some ("aborted-" +:+ obj))))))
           else m in
  let m := if is_pnone (pget m "instance_id")
           then dset m "instance_id" (match str_or instance_id None with
                                      | Some i => PStr i
                                      | None => pget m "parent_traj_id"
                                      end)
           else m in
  let dead := match str_or session_id None with
              | Some x => PStr x
              | None => py_or (pget m "session_id") (opt_pyval (sp_session_id s))
              end in
  let m := if is_pnone dead then m else dset m "last_failed_session_id" dead in
  with_sample s (rollout_id s) (reward s) true None (Some (dpop m "session_id")).

Section Expand.
Context `{PyText}.
Variable decode : pyval -> result (list (list Z)).

(** One turn of the loop of [expand_segments_to_samples]. *)
Definition expand_one (template : Sample) (a : SampleArgs) (sorted : list dict)
    (sid : option string) (iid : pyval) (text : string) (last_idx : nat) (isg : nat * (Z * dict))
    : result Sample :=
  let '(i, (ix, segment)) := isg in
  let s0 := with_sample template (index template) (reward template) (remove_sample template)
              (sp_session_id template) (metadata template) in
  let! s := write_sample_from_segment decode s0 a segment sorted sid iid text in
  let m := dset (dset (default [] (metadata s)) "parent_traj_id" (opt_pyval sid))
                "segment_index" (PInt ix) in
  Ok (with_sample s (rollout_id s)
        (if Nat.eqb i last_idx then reward s else PFloat f0) (remove_sample s)
        (sp_session_id s) (Some m)).

(** [len(set(l)) != len(l)] *)
Definition has_dup (l : list Z) : bool := negb (bool_decide (NoDup l)).

Definition expand_segments_to_samples (template : Sample) (segments : list dict)
    (a : SampleArgs) (text : string) (session_id instance_id : option string)
    : result (list Sample) :=
  check! Nat.eqb (length segments) 0 else ValueError "expand_segments_to_samples: empty segments list" ;;
  let sid := match session_id with Some s => Some s | None => sp_session_id template end in
  let iid := match instance_id with
             | Some i => PStr i
             | None => match metadata template with
                       | Some m => pget m "instance_id"
                       | None => PNone
                       end
             end in
  let! keyed := mapM_res (fun d => let! i := segment_index_of d in Ok (i, d)) segments in
  let sorted := sort_by (fun x y => (fst x <=? fst y)%Z) keyed in
  check! has_dup (map fst sorted) else ValueError "duplicate segment_index in segments" ;;
  mapM_res (expand_one template a (map snd sorted) sid iid text (length sorted - 1))
           (enumerate sorted).
End Expand.

(** ** [reward_post_process.py] *)

Section Rewards.
Context `{PyText}.

(** A dictionary whose keys are Python values. *)
Fixpoint group_add {A} (groups : list (pyval * list A)) (k : pyval) (x : A)
    : list (pyval * list A) :=
  match groups with
  | [] => [(k, [x])]
  | (k', l) :: rest => if py_eqb k k' then (k', l ++ [x]) :: rest else (k', l) :: group_add rest k x
  end.

(** [s.metadata.get("parent_traj_id") if s.metadata else None] *)
Definition parent_of (s : Sample) : pyval := pget (default [] (metadata s)) "parent_traj_id".

Definition in_parent (s : Sample) : bool := negb (remove_sample s) && py_truth (parent_of s).

Definition parent_groups (samples : list Sample) : list (pyval * list nat) :=
  fold_left (fun g ix => if in_parent (snd ix) then group_add g (parent_of (snd ix)) (fst ix) else g)
            (enumerate samples) [].

Definition _segment_index_of (samples : list Sample) (i : nat) : result Z :=
  match samples !! i with
  | Some s => segment_index_of (default [] (metadata s))
  | None => Raise (IndexError "list index out of range")
  end.

(** [max(seg_indices, key=...)]: the first maximal one. *)
Fixpoint max_keyed (best : nat * Z) (l : list (nat * Z)) : nat * Z :=
  match l with
  | [] => best
  | x :: rest => max_keyed (if (snd best <? snd x)%Z then x else best) rest
  end.

Definition anchor_of (samples : list Sample) (l : list nat) : result nat :=
  let! keyed := mapM_res (fun i => let! k := _segment_index_of samples i in Ok (i, k)) l in
  match keyed with
  | [] => Raise (ValueError "max() arg is an empty sequence")
  | x :: rest => Ok (fst (max_keyed x rest))
  end.

(** The groups with their anchors. *)
Definition _compute_parent_groups (samples : list Sample) : result (list (list nat * nat)) :=
  mapM_res (fun g => let! a := anchor_of samples (snd g) in Ok (snd g, a)) (parent_groups samples).

Definition broadcast_one (values : list float) (g : list nat * nat) : list float :=
  match values !! snd g with
  | None => values
  | Some r => fold_left (fun vs i => <[i := r]> vs) (fst g) values
  end.

Definition _broadcast_to_segments (values : list float) (groups : list (list nat * nat))
    : list float :=
  fold_left broadcast_one groups values.

Record RewardArgs : Type := {
  reward_key : option string;
  advantage_estimator : string;
  rewards_normalization : bool;
  grpo_std_normalization : bool }.

Definition raw_reward (a : RewardArgs) (s : Sample) : result float :=
  let! r := (match reward s with
             | PDict d => match str_or (reward_key a) None with
                          | Some k => pindex d k
                          | None => Ok (PFloat f0)
                          end
             | r => Ok r
             end) in
  match r with PNone => Ok f0 | _ => py_float r end.

Variable py_sum : list float -> float.
Variable py_pow : float -> float -> float.

Definition _NONE_GROUP : Z := -1.

Definition group_of (s : Sample) : Z := default _NONE_GROUP (group_index s).

(** Does the sample take part in its group's normalization? *)
Definition normalized_member (anchors : list nat) (i : nat) (s : Sample) : bool :=
  negb (remove_sample s) && (bool_decide (i ∈ anchors) || negb (py_truth (parent_of s))).

(** [groups], keyed by [group_index], in order of first appearance. *)
Definition zgroup_add (groups : list (Z * list (nat * float))) (k : Z) (x : nat * float)
    : list (Z * list (nat * float)) :=
  dset groups k (dget_def [] groups k ++ [x]).

Definition norm_groups (samples : list Sample) (raw : list float) (anchors : list nat)
    : list (Z * list (nat * float)) :=
  fold_left (fun g ix =>
               if normalized_member anchors (fst ix) (snd ix)
               then zgroup_add g (group_of (snd ix)) (fst ix, default f0 (raw !! fst ix)) else g)
            (enumerate samples) [].

Definition fone : float := f_of_Z 1.
Definition ftwo : float := f_of_Z 2.
Definition fhalf : float := fdiv fone ftwo.
(** [1e-6], the nearest binary64 number *)
Definition std_floor : float := S754_finite false 4722366482869645 (-72).

(** The normalized values of one group. *)
Definition normalize_values (a : RewardArgs) (values : list float) : list float :=
  let mean_val := match values with
                  | [] => f0
                  | _ => fdiv (py_sum values) (f_of_Z (Z.of_nat (length values)))
                  end in
  let normalized := map (fun v => fsub v mean_val) values in
  if (String.eqb (advantage_estimator a) "grpo" || String.eqb (advantage_estimator a) "gspo")
     && grpo_std_normalization a
  then
    let var := match normalized with
               | [] => f0
               | _ => fdiv (py_sum (map (fun v => py_pow v ftwo) normalized))
                           (f_of_Z (Z.of_nat (length normalized)))
               end in
    let std := py_pow var fhalf in
    if fltb std_floor std then map (fun v => fdiv v std) normalized else normalized
  else normalized.

Definition write_values (rewards : list float) (ivs : list (nat * float)) : list float :=
  fold_left (fun rs iv => <[fst iv := snd iv]> rs) ivs rewards.

Definition normalize_group (a : RewardArgs) (rewards : list float) (members : list (nat * float))
    : list float :=
  write_values rewards (zip (map fst members) (normalize_values a (map snd members))).

Definition normalizes (a : RewardArgs) : bool :=
  (String.eqb (advantage_estimator a) "grpo" || String.eqb (advantage_estimator a) "gspo"
   || String.eqb (advantage_estimator a) "reinforce_plus_plus_baseline")
  && rewards_normalization a.

Definition reward_post_process (a : RewardArgs) (samples : list Sample)
    : result (list float * list float) :=
  let! raw := mapM_res (raw_reward a) samples in
  let! pg := _compute_parent_groups samples in
  if negb (normalizes a) then Ok (raw, _broadcast_to_segments raw pg)
  else
    let groups := norm_groups samples raw (map snd pg) in
    let rewards := fold_left (normalize_group a) (map snd groups) raw in
    Ok (raw, _broadcast_to_segments rewards pg).
End Rewards.

(** ** Writing into a list *)

Lemma write_values_length ivs : forall rs, length (write_values rs ivs) = length rs.
Proof.
  induction ivs as [|[i v] ivs IH]; intros rs; [done|]. unfold write_values in *. simpl.
  by rewrite IH, length_insert.
Qed.

Lemma write_values_app rs a b : write_values rs (a ++ b) = write_values (write_values rs a) b.
Proof. unfold write_values. by rewrite fold_left_app. Qed.

Lemma write_values_other ivs : forall rs i, i ∉ map fst ivs -> write_values rs ivs !! i = rs !! i.
Proof.
  induction ivs as [|[j v] ivs IH]; intros rs i N; [done|]. unfold write_values in *. simpl in *.
  rewrite IH by set_solver. rewrite list_lookup_insert_ne; [done|]. intros ->. apply N. by left.
Qed.

Lemma write_values_in ivs : forall rs i v, NoDup (map fst ivs) -> (i, v) ∈ ivs ->
  (i < length rs)%nat -> write_values rs ivs !! i = Some v.
Proof.
  induction ivs as [|[j w] ivs IH]; intros rs i v N I L; [by apply elem_of_nil in I|].
  apply NoDup_cons in N as [Nj N]. unfold write_values in *. simpl in *.
  apply elem_of_cons in I as [[= -> ->]|I].
  - change (write_values (<[j:=w]> rs) ivs !! j = Some w). rewrite write_values_other by done.
    by apply list_lookup_insert_eq.
  - apply IH; [done|done|]. by rewrite length_insert.
Qed.

(** ** Parent groups *)

Section ParentGroups.

Fixpoint find_group {A} (groups : list (pyval * list A)) (k : pyval) : option (list A) :=
  match groups with
  | [] => None
  | (k', l) :: rest => if py_eqb k k' then Some l else find_group rest k
  end.

Lemma find_group_add_self {A} (g : list (pyval * list A)) k x :
  py_eqb k k = true ->
  find_group (group_add g k x) k = Some (default [] (find_group g k) ++ [x]).
Proof.
  intros R. induction g as [|[k' l] g IH]; simpl; [by rewrite R|].
  destruct (py_eqb k k') eqn:E; simpl; by rewrite E.
Qed.

Lemma find_group_add_grows {A} (g : list (pyval * list A)) k k' x y l :
  find_group g k = Some l -> y ∈ l -> exists l', find_group (group_add g k' x) k = Some l' /\ y ∈ l'.
Proof.
  induction g as [|[k1 l1] g IH]; simpl; [done|].
  destruct (py_eqb k' k1); simpl; destruct (py_eqb k k1).
  - intros [= <-] I. eexists. split; [done|]. set_solver.
  - eauto.
  - intros [= <-] I. eauto.
  - auto.
Qed.

Lemma group_add_concat {A} (g : list (pyval * list A)) k x :
  concat (map snd (group_add g k x)) ≡ₚ concat (map snd g) ++ [x].
Proof.
  induction g as [|[k' l] g IH]; simpl; [done|].
  destruct (py_eqb k k'); simpl; [|by rewrite IH, app_assoc].
  rewrite <- !app_assoc. apply Permutation_app_head. apply Permutation_app_comm.
Qed.

Definition pg_step (g : list (pyval * list nat)) (ix : nat * Sample) : list (pyval * list nat) :=
  if in_parent (snd ix) then group_add g (parent_of (snd ix)) (fst ix) else g.

Lemma pg_concat l : forall g,
  concat (map snd (fold_left pg_step l g)) ≡ₚ
  concat (map snd g) ++ map fst (List.filter (fun ix => in_parent (snd ix)) l).
Proof.
  induction l as [|[i s] l IH]; intros g; simpl; [by rewrite app_nil_r|].
  rewrite IH. unfold pg_step at 1. simpl. destruct (in_parent s); simpl; [|done].
  rewrite group_add_concat, <- app_assoc. done.
Qed.

Lemma pg_found l k : py_eqb k k = true -> forall g i s,
  (i, s) ∈ l -> in_parent s = true -> parent_of s = k ->
  exists m, find_group (fold_left pg_step l g) k = Some m /\ i ∈ m.
Proof.
  intros R. induction l as [|[j t] l IH]; intros g i s I P E; [by apply elem_of_nil in I|].
  assert (Keep : forall l g i m, find_group g k = Some m -> i ∈ m ->
            exists m', find_group (fold_left pg_step l g) k = Some m' /\ i ∈ m').
  { clear. induction l as [|[j t] l IH]; intros g i m Em Im; [by eauto|]. simpl.
    unfold pg_step at 2. simpl. destruct (in_parent t); [|by eapply IH].
    destruct (find_group_add_grows g k (parent_of t) j i m Em Im) as (m' & E' & I'). by eapply IH. }
  apply elem_of_cons in I as [[= -> ->]|I]; simpl; [|by eapply IH].
  unfold pg_step at 2. simpl. rewrite P, E. eapply Keep; [by apply find_group_add_self|]. set_solver.
Qed.

Lemma find_group_in {A} (g : list (pyval * list A)) k m :
  find_group g k = Some m -> exists k', (k', m) ∈ g.
Proof.
  induction g as [|[k1 l] g IH]; simpl; [done|]. destruct (py_eqb k k1).
  - intros [= <-]. exists k1. by left.
  - intros E. destruct (IH E) as [k' I]. exists k'. by right.
Qed.

Lemma enumerate_NoDup {A} (l : list A) : NoDup (map fst (enumerate l)).
Proof.
  unfold enumerate. assert (forall k, map fst (imap (fun i x => (k + i, x)%nat) l) = seq k (length l)) as X.
  { induction l as [|x l IH]; intros k; simpl; [done|]. rewrite Nat.add_0_r. f_equal.
    rewrite <- (IH (S k)). f_equal. apply imap_ext. intros. simpl. f_equal. lia. }
  change (imap pair l) with (imap (fun i x => (0 + i, x)%nat) l). rewrite X. apply NoDup_seq.
Qed.

Lemma parent_groups_NoDup samples : NoDup (concat (map snd (parent_groups samples))).
Proof.
  unfold parent_groups. change (fun g ix => _) with pg_step. rewrite pg_concat. simpl.
  pose proof (enumerate_NoDup samples) as N. revert N. generalize (enumerate samples). intros l.
  induction l as [|[i s] l IH]; simpl; [done|]. intros [Ni N]%NoDup_cons.
  destruct (in_parent s); simpl; [|by apply IH]. apply NoDup_cons. split; [|by apply IH].
  intros I. apply Ni. apply list_elem_of_fmap in I as (x & -> & I).
  apply list_elem_of_In, filter_In in I as [I _]. apply list_elem_of_fmap. exists x.
  split; [done|]. by apply list_elem_of_In.
Qed.

Lemma parent_groups_elem samples i :
  i ∈ concat (map snd (parent_groups samples)) <->
  exists s, samples !! i = Some s /\ in_parent s = true.
Proof.
  unfold parent_groups. change (fun g ix => _) with pg_step. rewrite pg_concat. simpl.
  rewrite list_elem_of_fmap. split.
  - intros ([j s] & -> & I). apply list_elem_of_In, filter_In in I as [I P].
    apply list_elem_of_In, elem_of_enumerate in I. eauto.
  - intros (s & E & P). exists (i, s). split; [done|]. apply list_elem_of_In, filter_In.
    split; [|done]. by apply list_elem_of_In, elem_of_enumerate.
Qed.
End ParentGroups.

(** ** Anchors and broadcasting *)

Section Broadcast.
Context `{PyText}.

Lemma max_keyed_in l : forall b, max_keyed b l = b \/ max_keyed b l ∈ l.
Proof.
  induction l as [|x l IH]; intros b; simpl; [by left|].
  destruct (IH (if (snd b <? snd x)%Z then x else b)) as [E|I]; [|right; by right].
  rewrite E. destruct (snd b <? snd x)%Z; [right; by left|by left].
Qed.

Lemma max_keyed_max l : forall b x, x = b \/ x ∈ l -> (snd x <= snd (max_keyed b l))%Z.
Proof.
  induction l as [|y l IH]; intros b x Hx; simpl; [destruct Hx as [->|[]%elem_of_nil]; lia|].
  destruct Hx as [->|[->|I]%elem_of_cons]; [| |by apply IH; right].
  - specialize (IH (if (snd b <? snd y)%Z then y else b) _ (or_introl eq_refl)).
    destruct (snd b <? snd y)%Z eqn:E; lia.
  - specialize (IH (if (snd b <? snd y)%Z then y else b) _ (or_introl eq_refl)).
    destruct (snd b <? snd y)%Z eqn:E; lia.
Qed.

(** The anchor is a member with the largest segment index. *)
Lemma anchor_of_spec samples l a :
  anchor_of samples l = Ok a ->
  a ∈ l /\ exists ka, _segment_index_of samples a = Ok ka /\
    forall i, i ∈ l -> exists k, _segment_index_of samples i = Ok k /\ (k <= ka)%Z.
Proof.
  unfold anchor_of. intros E. destruct (mapM_res _ l) as [keyed|] eqn:Em; [|done].
  cbn [res_bind] in E. apply mapM_res_Forall2 in Em.
  assert (K : forall x, x ∈ keyed -> fst x ∈ l /\ _segment_index_of samples (fst x) = Ok (snd x)).
  { clear E. induction Em as [|i x l keyed Hx F IH]; intros y Hy; [by apply elem_of_nil in Hy|].
    apply elem_of_cons in Hy as [->|Hy].
    - destruct (_segment_index_of samples i) eqn:Ei; [|done]. injection Hx as <-. simpl.
      split; [by left|done].
    - destruct (IH y Hy). split; [by right|done]. }
  assert (K' : forall i, i ∈ l -> exists x, x ∈ keyed /\ fst x = i).
  { clear E K. induction Em as [|i x l keyed Hx F IH]; intros j Hj; [by apply elem_of_nil in Hj|].
    apply elem_of_cons in Hj as [->|Hj].
    - destruct (_segment_index_of samples i); [|done]. injection Hx as <-. eexists. split; [by left|done].
    - destruct (IH j Hj) as (y & I & ?). exists y. split; [by right|done]. }
  destruct keyed as [|x rest]; [done|]. injection E as <-.
  assert (I : max_keyed x rest ∈ x :: rest).
  { destruct (max_keyed_in rest x) as [->|I]; [by left|by right]. }
  destruct (K _ I) as [Il Ek]. split; [done|]. eexists. split; [exact Ek|].
  intros i Hi. destruct (K' i Hi) as (y & Iy & <-). destruct (K y Iy) as [_ Ey].
  eexists. split; [exact Ey|]. apply max_keyed_max. by apply elem_of_cons in Iy.
Qed.

Lemma broadcast_one_write values g r :
  values !! snd g = Some r -> broadcast_one values g = write_values values (map (fun i => (i, r)) (fst g)).
Proof.
  intros E. unfold broadcast_one. rewrite E. unfold write_values. clear E.
  revert values. induction (fst g) as [|i l IH]; intros values; [done|]. simpl. apply IH.
Qed.

Lemma broadcast_length gs : forall values, length (_broadcast_to_segments values gs) = length values.
Proof.
  induction gs as [|g gs IH]; intros values; [done|]. unfold _broadcast_to_segments in *. simpl.
  rewrite IH. destruct (values !! snd g) eqn:E.
  - by rewrite (broadcast_one_write _ _ _ E), write_values_length.
  - unfold broadcast_one. by rewrite E.
Qed.

Lemma map_fst_const {A B} (l : list A) (r : B) : map fst (map (fun i => (i, r)) l) = l.
Proof. induction l as [|x l IH]; simpl; [done|]. by rewrite IH. Qed.

(** Broadcasting over disjoint groups: members get the anchor's value, others keep theirs. *)
Lemma broadcast_spec gs : forall values,
  NoDup (concat (map fst gs)) ->
  (forall g, g ∈ gs -> snd g ∈ fst g) ->
  (forall i, i ∈ concat (map fst gs) -> (i < length values)%nat) ->
  (forall i, i ∉ concat (map fst gs) -> _broadcast_to_segments values gs !! i = values !! i) /\
  (forall g i, g ∈ gs -> i ∈ fst g -> _broadcast_to_segments values gs !! i = values !! snd g).
Proof.
  induction gs as [|g gs IH]; intros values N A L.
  { split; [done|]. intros g i Ig. by apply elem_of_nil in Ig. }
  simpl in N. apply NoDup_app in N as (Ng & D & N).
  assert (Ha : snd g ∈ fst g) by (apply A; by left).
  destruct (lookup_lt_is_Some_2 values (snd g)) as [r Er]; [apply L; simpl; set_solver|].
  unfold _broadcast_to_segments in *. simpl. rewrite (broadcast_one_write _ _ _ Er).
  set (v1 := write_values values (map (fun i => (i, r)) (fst g))).
  destruct (IH v1) as [H1 H2]; [done|intros; apply A; by right| |].
  { intros i Hi. unfold v1. rewrite write_values_length. apply L. simpl. set_solver. }
  assert (O : forall i, i ∉ fst g -> v1 !! i = values !! i).
  { intros i Hi. unfold v1. apply write_values_other. by rewrite map_fst_const. }
  assert (In : forall i, i ∈ fst g -> v1 !! i = Some r).
  { intros i Hi. unfold v1. apply write_values_in; [by rewrite map_fst_const| |apply L; simpl; set_solver].
    apply list_elem_of_fmap. by exists i. }
  split.
  - intros i Hi. simpl in Hi. rewrite H1 by set_solver. apply O. set_solver.
  - intros g' i [->|Ig]%elem_of_cons Hi.
    + rewrite H1 by (by apply D). rewrite Er. by apply In.
    + rewrite (H2 g' i Ig Hi). apply O. intros Q. apply (D _ Q).
      apply list_elem_of_In, in_concat. exists (fst g'). split.
      * apply in_map. by apply list_elem_of_In.
      * apply list_elem_of_In, A. by right.
Qed.

(** The groups with anchors: the lists are those of [parent_groups]. *)
Lemma compute_parent_groups_spec samples pg :
  _compute_parent_groups samples = Ok pg ->
  map fst pg = map snd (parent_groups samples) /\
  forall g, g ∈ pg -> anchor_of samples (fst g) = Ok (snd g).
Proof.
  unfold _compute_parent_groups. intros E. apply mapM_res_Forall2 in E.
  induction E as [|x g l pg Hx F [IH1 IH2]]; [split; [done|by intros g ?%elem_of_nil]|].
  destruct (anchor_of samples (snd x)) as [a|] eqn:Ea; [|done]. injection Hx as <-. simpl.
  rewrite IH1. split; [done|]. intros g [->|Ig]%elem_of_cons; [done|auto].
Qed.
End Broadcast.

(** ** Normalization groups *)

Section NormGroups.
Context `{PyText}.
Variable py_sum : list float -> float.
Variable py_pow : float -> float -> float.

Lemma normalize_values_length a vs : length (normalize_values py_sum py_pow a vs) = length vs.
Proof.
  unfold normalize_values. destruct (_ && _); [destruct (fltb _ _)|]; by rewrite ?length_map.
Qed.

(** The members of group [k], in sample order. *)
Definition members (samples : list Sample) (raw : list float) (anchors : list nat) (k : Z)
    : list (nat * float) :=
  map (fun ix => (fst ix, default f0 (raw !! fst ix)))
      (List.filter (fun ix => normalized_member anchors (fst ix) (snd ix)
                              && (group_of (snd ix) =? k)%Z) (enumerate samples)).

Definition ng_step (raw : list float) (anchors : list nat) (g : list (Z * list (nat * float)))
    (ix : nat * Sample) : list (Z * list (nat * float)) :=
  if normalized_member anchors (fst ix) (snd ix)
  then zgroup_add g (group_of (snd ix)) (fst ix, default f0 (raw !! fst ix)) else g.

Lemma ng_fold raw anchors l : forall g, NoDup (dkeys g) ->
  NoDup (dkeys (fold_left (ng_step raw anchors) l g)) /\
  forall k, dget_def [] (fold_left (ng_step raw anchors) l g) k =
    dget_def [] g k ++ map (fun ix => (fst ix, default f0 (raw !! fst ix)))
      (List.filter (fun ix => normalized_member anchors (fst ix) (snd ix)
                              && (group_of (snd ix) =? k)%Z) l).
Proof.
  induction l as [|[i s] l IH]; intros g N; simpl; [split; [done|intros; by rewrite app_nil_r]|].
  unfold ng_step at 2 4. simpl. destruct (normalized_member anchors i s); simpl; [|by apply IH].
  destruct (IH (zgroup_add g (group_of s) (i, default f0 (raw !! i)))) as [N' E];
    [by apply dset_NoDup|]. split; [done|]. intros k. rewrite E. unfold zgroup_add, dget_def at 1.
  rewrite dget_dset. destruct (Z.eqb_spec (group_of s) k) as [<-|Ne].
  - rewrite decide_True by done. simpl. by rewrite <- app_assoc.
  - rewrite decide_False by done. done.
Qed.

Lemma norm_groups_members samples raw anchors k ms :
  (k, ms) ∈ norm_groups samples raw anchors -> ms = members samples raw anchors k.
Proof.
  intros I. unfold norm_groups in I. change (fun g ix => _) with (ng_step raw anchors) in I.
  destruct (ng_fold raw anchors (enumerate samples) []) as [N E]; [constructor|].
  specialize (E k). apply (dget_NoDup_elem _ _ _ N) in I. unfold dget_def in E at 1.
  rewrite I in E. done.
Qed.

(** Every member's group is among the groups. *)
Lemma norm_groups_found samples raw anchors i s :
  samples !! i = Some s -> normalized_member anchors i s = true ->
  (group_of s, members samples raw anchors (group_of s)) ∈ norm_groups samples raw anchors.
Proof.
  intros Es M. unfold norm_groups. change (fun g ix => _) with (ng_step raw anchors).
  destruct (ng_fold raw anchors (enumerate samples) []) as [N E]; [constructor|].
  specialize (E (group_of s)). simpl in E. unfold dget_def in E.
  destruct (dget (fold_left _ _ _) (group_of s)) as [ms|] eqn:Ed.
  - rewrite E in Ed. by apply dget_elem.
  - exfalso. assert (I : (i, s) ∈ List.filter (fun ix => normalized_member anchors (fst ix) (snd ix)
        && (group_of (snd ix) =? group_of s)%Z) (enumerate samples)).
    { apply list_elem_of_In, filter_In. split; [by apply list_elem_of_In, elem_of_enumerate|].
      simpl. by rewrite M, Z.eqb_refl. }
    destruct (List.filter _ _); [by apply elem_of_nil in I|done].
Qed.

Lemma members_elem samples raw anchors k i x :
  (i, x) ∈ members samples raw anchors k <->
  exists s, samples !! i = Some s /\ normalized_member anchors i s = true /\ group_of s = k /\
            x = default f0 (raw !! i).
Proof.
  unfold members. rewrite list_elem_of_fmap. split.
  - intros ([j s] & [= -> ->] & I). apply list_elem_of_In, filter_In in I as [I B]. simpl in *.
    apply andb_prop in B as [B1 B2]. apply Z.eqb_eq in B2.
    apply list_elem_of_In, elem_of_enumerate in I. eauto 10.
  - intros (s & Es & M & Eg & ->). exists (i, s). split; [done|]. apply list_elem_of_In, filter_In.
    split; [by apply list_elem_of_In, elem_of_enumerate|]. simpl. by rewrite M, Eg, Z.eqb_refl.
Qed.

Lemma members_NoDup samples raw anchors k : NoDup (map fst (members samples raw anchors k)).
Proof.
  unfold members. rewrite map_map. simpl. pose proof (enumerate_NoDup samples) as N. revert N.
  generalize (enumerate samples). intros l. induction l as [|[i s] l IH]; simpl; [done|].
  intros [Ni N]%NoDup_cons. destruct (_ && _); simpl; [|by apply IH].
  apply NoDup_cons. split; [|by apply IH]. intros I. apply Ni.
  apply list_elem_of_fmap in I as (x & -> & I). apply list_elem_of_In, filter_In in I as [I _].
  apply list_elem_of_fmap. exists x. split; [done|]. by apply list_elem_of_In.
Qed.

Definition group_writes (a : RewardArgs) (ms : list (nat * float)) : list (nat * float) :=
  zip (map fst ms) (normalize_values py_sum py_pow a (map snd ms)).

Lemma group_writes_fst a ms : map fst (group_writes a ms) = map fst ms.
Proof.
  unfold group_writes. apply fst_zip. rewrite normalize_values_length, !length_map. lia.
Qed.

Lemma normalize_groups_writes a gs : forall rewards,
  fold_left (normalize_group py_sum py_pow a) gs rewards =
  write_values rewards (concat (map (group_writes a) gs)).
Proof.
  induction gs as [|ms gs IH]; intros rewards; [done|]. simpl. rewrite IH, write_values_app. done.
Qed.

(** All the writes of all the groups touch distinct positions. *)
Lemma all_writes_NoDup a samples raw anchors :
  NoDup (map fst (concat (map (group_writes a) (map snd (norm_groups samples raw anchors))))).
Proof.
  assert (Hm : forall k ms, (k, ms) ∈ norm_groups samples raw anchors ->
            ms = members samples raw anchors k) by apply norm_groups_members.
  assert (Nk : NoDup (dkeys (norm_groups samples raw anchors))).
  { unfold norm_groups. change (fun g ix => _) with (ng_step raw anchors).
    by apply ng_fold; constructor. }
  revert Hm Nk. generalize (norm_groups samples raw anchors). intros gs.
  induction gs as [|[k ms] gs IH]; intros Hm Nk; simpl; [constructor|].
  apply NoDup_cons in Nk as [Nk' Nk]. rewrite map_app. apply NoDup_app.
  split; [rewrite group_writes_fst, (Hm k ms ltac:(by left)); apply members_NoDup|].
  split; [|apply IH; [intros; apply Hm; by right|done]].
  intros i Hi Hj. rewrite group_writes_fst, (Hm k ms ltac:(by left)) in Hi.
  apply list_elem_of_fmap in Hi as ([i' x] & -> & Hi). simpl in *.
  apply members_elem in Hi as (s & Es & _ & Eg & _).
  apply list_elem_of_fmap in Hj as ([j y] & Ej & Hj). simpl in Ej. subst j.
  apply list_elem_of_In, in_concat in Hj as (ws & Hw & Hj).
  apply in_map_iff in Hw as (ms' & <- & Hms). apply in_map_iff in Hms as ([k' ms''] & <- & Hk).
  apply list_elem_of_In in Hk, Hj. simpl in *.
  assert (i' ∈ map fst (group_writes a ms'')) as Q by (apply list_elem_of_fmap; by exists (i', y)).
  rewrite group_writes_fst, (Hm k' ms'' ltac:(by right)) in Q.
  apply list_elem_of_fmap in Q as ([i2 x2] & -> & Q). apply members_elem in Q as (s2 & Es2 & _ & Eg2 & _).
  simpl in *. assert (k = k') as -> by congruence. apply Nk'. apply list_elem_of_fmap.
  by exists (k', ms'').
Qed.
End NormGroups.

(** ** Trajectories and their last segments *)

Section Trajectories.
Context `{PyText}.

(** The live segments of the trajectory [p], in sample order. *)
Definition is_segment (p : string) (s : Sample) : bool :=
  negb (remove_sample s) && match parent_of s with PStr q => String.eqb q p | _ => false end.

Definition segments_of (samples : list Sample) (p : string) : list nat :=
  map fst (List.filter (fun ix => is_segment p (snd ix)) (enumerate samples)).

(** [a] is the segment of [p] with the highest index, the first one when there are several. *)
Definition last_segment (samples : list Sample) (p : string) (a : nat) : Prop :=
  exists before after k, segments_of samples p = before ++ a :: after /\
    _segment_index_of samples a = Ok k /\
    (forall i, i ∈ before -> exists ki, _segment_index_of samples i = Ok ki /\ (ki < k)%Z) /\
    (forall i, i ∈ after -> exists ki, _segment_index_of samples i = Ok ki /\ (ki <= k)%Z).

(** The samples that count in their prompt group: a live sample without a trajectory, and
    the last segment of each trajectory. *)
Definition votes (samples : list Sample) (i : nat) (s : Sample) : Prop :=
  remove_sample s = false /\
  (py_truth (parent_of s) = false \/
   exists p, parent_of s = PStr p /\ p <> "" /\ last_segment samples p i).

Definition string_parents (samples : list Sample) : Prop :=
  forall s, s ∈ samples -> py_truth (parent_of s) = true -> exists p, parent_of s = PStr p.

Lemma py_eqb_str v p : py_eqb v (PStr p) = true <-> v = PStr p.
Proof.
  destruct v; simpl; try (split; intros E; discriminate E).
  rewrite String.eqb_eq. split; [by intros ->|by intros [= ->]].
Qed.

Lemma py_eqb_str_l v p : py_eqb (PStr p) v = true <-> v = PStr p.
Proof.
  destruct v; simpl; try (split; intros E; discriminate E).
  rewrite String.eqb_eq. split; [by intros ->|by intros [= ->]].
Qed.

Lemma find_group_add_other {A} (g : list (pyval * list A)) k x p : k <> PStr p ->
  find_group (group_add g k x) (PStr p) = find_group g (PStr p).
Proof.
  intros Nk. assert (E0 : py_eqb (PStr p) k = false).
  { destruct (py_eqb (PStr p) k) eqn:E; [|done]. by apply py_eqb_str_l in E. }
  induction g as [|[k1 l1] g IH]; cbn [group_add find_group]; [by rewrite E0|].
  destruct (py_eqb k k1) eqn:E1; cbn [find_group].
  - destruct (py_eqb (PStr p) k1) eqn:E2; [|done]. apply py_eqb_str_l in E2 as ->. by apply py_eqb_str in E1.
  - by destruct (py_eqb (PStr p) k1).
Qed.

Lemma find_group_fold p l : p <> "" -> forall g,
  default [] (find_group (fold_left pg_step l g) (PStr p)) =
  default [] (find_group g (PStr p)) ++ map fst (List.filter (fun ix => is_segment p (snd ix)) l).
Proof.
  intros Np. induction l as [|[i s] l IH]; intros g; simpl; [by rewrite app_nil_r|].
  rewrite IH. unfold pg_step, is_segment at 2, in_parent. simpl.
  destruct (remove_sample s); simpl; [done|].
  assert (Dec : parent_of s = PStr p \/ parent_of s <> PStr p).
  { rewrite <- py_eqb_str. destruct (py_eqb _ _); [by left|by right]. }
  destruct Dec as [->|Ne]; simpl.
  - rewrite (proj2 (String.eqb_neq p "") Np), String.eqb_refl. simpl.
    rewrite find_group_add_self by apply String.eqb_refl. simpl. by rewrite <- app_assoc.
  - assert (X : (match parent_of s with PStr q => String.eqb q p | _ => false end) = false).
    { destruct (parent_of s) as [| | | |q| |] eqn:Pe; try done. apply String.eqb_neq. by intros ->. }
    rewrite X. destruct (py_truth (parent_of s)); [|done]. by rewrite find_group_add_other.
Qed.

(** The group of a trajectory holds exactly its segments. *)
Lemma parent_group_segments samples p : p <> "" -> segments_of samples p <> [] ->
  segments_of samples p ∈ map snd (parent_groups samples).
Proof.
  intros Np Ne. pose proof (find_group_fold p (enumerate samples) Np []) as F. simpl in F.
  fold (segments_of samples p) in F. unfold parent_groups. change (fun g ix => _) with pg_step.
  destruct (find_group _ (PStr p)) as [m|] eqn:E; simpl in F; [|by rewrite <- F in Ne].
  subst m. apply find_group_in in E as [k I]. apply list_elem_of_fmap. by exists (k, segments_of samples p).
Qed.

Lemma segments_of_elem samples p i :
  i ∈ segments_of samples p <-> exists s, samples !! i = Some s /\ remove_sample s = false /\ parent_of s = PStr p.
Proof.
  unfold segments_of. rewrite list_elem_of_fmap. split.
  - intros ([j s] & -> & I). apply list_elem_of_In, filter_In in I as [I B]. simpl in *.
    apply list_elem_of_In, elem_of_enumerate in I. unfold is_segment in B. apply andb_prop in B as [B1 B2].
    exists s. split; [done|]. split; [by destruct (remove_sample s)|].
    destruct (parent_of s); try done. by apply String.eqb_eq in B2 as ->.
  - intros (s & E & R & P). exists (i, s). split; [done|]. apply list_elem_of_In, filter_In.
    split; [by apply list_elem_of_In, elem_of_enumerate|]. unfold is_segment. simpl.
    by rewrite R, P, String.eqb_refl.
Qed.

Lemma max_keyed_split l : forall b, exists before after, b :: l = before ++ max_keyed b l :: after /\
  (forall x, x ∈ before -> (snd x < snd (max_keyed b l))%Z) /\
  (forall x, x ∈ after -> (snd x <= snd (max_keyed b l))%Z).
Proof.
  induction l as [|x l IH]; intros b; cbn [max_keyed].
  { exists [], []. split; [done|]. by split; intros x ?%elem_of_nil. }
  destruct (Z.ltb_spec (snd b) (snd x)) as [Lt|Ge].
  - destruct (IH x) as (l1 & l2 & E & B & A). exists (b :: l1), l2. rewrite E. split; [done|].
    split; [|done]. assert (Lx : (snd x <= snd (max_keyed x l))%Z) by (apply max_keyed_max; by left).
    intros y [->|I]%elem_of_cons; [lia|auto].
  - destruct (IH b) as (l1 & l2 & E & B & A). destruct l1 as [|b' l1]; injection E as E1 E2.
    + exists [], (x :: l2). split; [by rewrite <- E1, <- E2|]. split; [by intros y ?%elem_of_nil|].
      intros y I. apply elem_of_cons in I as [->|I]; [by rewrite <- E1|by apply A].
    + subst b'. exists (b :: x :: l1), l2. split; [simpl; do 2 f_equal; exact E2|]. split; [|done].
      assert (snd b < snd (max_keyed b l))%Z by (apply B; by left).
      intros y [->|[->|I]%elem_of_cons]%elem_of_cons; [done|lia|apply B; by right].
Qed.

Lemma anchor_last samples p a : anchor_of samples (segments_of samples p) = Ok a -> last_segment samples p a.
Proof.
  unfold anchor_of. intros E. destruct (mapM_res _ _) as [keyed|] eqn:Em; [|done].
  cbn [res_bind] in E. apply mapM_res_Forall2 in Em. destruct keyed as [|x rest]; [done|]. injection E as <-.
  destruct (max_keyed_split rest x) as (l1 & l2 & E & B & A). rewrite E in Em.
  assert (K : forall l k i, Forall2 (fun i x => (let! k := _segment_index_of samples i in Ok (i, k)) = Ok x) l k ->
    i ∈ l -> exists y, y ∈ k /\ _segment_index_of samples i = Ok (snd y)).
  { intros l k i F I. apply list_elem_of_lookup in I as [n Hn].
    destruct (Forall2_lookup_l _ _ _ _ _ F Hn) as (y & Hy & Ey). exists y.
    destruct (_segment_index_of samples i) as [z|]; [|done]. injection Ey as <-.
    split; [by eapply list_elem_of_lookup_2|done]. }
  apply Forall2_app_inv_r in Em as (s1 & s2 & F1 & F2 & Es).
  apply Forall2_cons_inv_r in F2 as (m & s3 & Em & F2 & ->).
  destruct (_segment_index_of samples m) as [z|] eqn:Ez; [|done]. injection Em as Em.
  rewrite <- Em in *. simpl in *. exists s1, s3, z. split_and!; [done|done| |]; intros i Hi.
  - destruct (K _ _ _ F1 Hi) as (y & Hy & ->). eauto.
  - destruct (K _ _ _ F2 Hi) as (y & Hy & ->). eauto.
Qed.

Lemma last_segment_unique samples p a b : last_segment samples p a -> last_segment samples p b -> a = b.
Proof.
  intros (l1 & l2 & k & E & Ek & B & A) (l1' & l2' & k' & E' & Ek' & B' & A').
  rewrite E in E'. apply app_eq_app in E' as (l & [[E1 E2]|[E1 E2]]).
  - destruct l as [|c l]; injection E2 as <- E2; [done|]. exfalso.
    assert (I : b ∈ l1) by (rewrite E1; set_solver). assert (J : a ∈ l2') by (rewrite E2; set_solver).
    destruct (B b I) as (x & Ex & Lx). destruct (A' a J) as (y & Ey & Ly).
    assert (x = k' /\ y = k) as [-> ->] by (split; congruence). lia.
  - destruct l as [|c l]; injection E2 as <- E2; [done|]. exfalso.
    assert (I : a ∈ l1') by (rewrite E1; set_solver). assert (J : b ∈ l2) by (rewrite E2; set_solver).
    destruct (B' a I) as (x & Ex & Lx). destruct (A b J) as (y & Ey & Ly).
    assert (x = k /\ y = k') as [-> ->] by (split; congruence). lia.
Qed.

Lemma last_segment_in samples p a : last_segment samples p a -> a ∈ segments_of samples p.
Proof. intros (l1 & l2 & k & -> & _). set_solver. Qed.

(** The groups with anchors, for a trajectory. *)
Lemma trajectory_group samples pg p : _compute_parent_groups samples = Ok pg -> p <> "" ->
  segments_of samples p <> [] -> exists a, (segments_of samples p, a) ∈ pg /\ last_segment samples p a.
Proof.
  intros E Np Ne. destruct (compute_parent_groups_spec _ _ E) as [Hf Ha].
  pose proof (parent_group_segments samples p Np Ne) as I. rewrite <- Hf in I.
  apply list_elem_of_fmap in I as ([m a] & Em & I). simpl in Em. subst m. exists a. split; [done|].
  apply anchor_last. exact (Ha _ I).
Qed.

Lemma NoDup_concat_same {A} (ls : list (list A)) l1 l2 x :
  NoDup (concat ls) -> l1 ∈ ls -> l2 ∈ ls -> x ∈ l1 -> x ∈ l2 -> l1 = l2.
Proof.
  intros N I1 I2 X1 X2. induction ls as [|l ls IH]; [by apply elem_of_nil in I1|].
  simpl in N. apply NoDup_app in N as (_ & D & N).
  assert (C : forall m, m ∈ ls -> x ∈ m -> x ∈ concat ls).
  { intros m Im Xm. apply list_elem_of_In, in_concat. exists m. by rewrite <- !list_elem_of_In. }
  apply elem_of_cons in I1 as [->|I1]; apply elem_of_cons in I2 as [->|I2]; eauto; exfalso; eapply D; eauto.
Qed.

(** The anchors are the last segments. *)
Lemma normalized_votes samples pg i s : _compute_parent_groups samples = Ok pg -> string_parents samples ->
  samples !! i = Some s -> normalized_member (map snd pg) i s = true <-> votes samples i s.
Proof.
  intros E Sp Es. destruct (compute_parent_groups_spec _ _ E) as [Hf Ha]. unfold normalized_member, votes.
  destruct (remove_sample s) eqn:R; simpl; [by split; [|intros [? _]]|].
  destruct (py_truth (parent_of s)) eqn:T; simpl.
  2: { rewrite orb_true_r. split; [auto|done]. }
  rewrite orb_false_r. destruct (Sp s ltac:(by eapply list_elem_of_lookup_2) T) as [p P].
  assert (Np : p <> "") by (intros ->; by rewrite P in T).
  assert (Si : i ∈ segments_of samples p) by (apply segments_of_elem; eauto).
  destruct (trajectory_group samples pg p E Np) as (a & Ia & La); [intros X; rewrite X in Si; by apply elem_of_nil in Si|].
  rewrite bool_decide_eq_true. split.
  - intros I. apply list_elem_of_fmap in I as (g & -> & Ig).
    destruct (anchor_of_spec _ _ _ (Ha g Ig)) as [Ig2 _].
    assert (fst g = segments_of samples p) as Eg.
    { eapply (NoDup_concat_same (map fst pg)); [rewrite Hf; apply parent_groups_NoDup| | |exact Ig2|exact Si];
        apply list_elem_of_fmap; [by exists g|by exists (segments_of samples p, a)]. }
    split; [done|]. right. exists p. split_and!; [done|done|]. apply anchor_last. rewrite <- Eg. by apply Ha.
  - intros [_ [X|(q & Q & _ & L)]]; [done|]. assert (q = p) as -> by congruence.
    rewrite (last_segment_unique _ _ _ _ L La). apply list_elem_of_fmap. by exists (segments_of samples p, a).
Qed.
End Trajectories.

(** ** Theorems *)

Section RewardTheorems.
Context `{PyText}.
Variable py_sum : list float -> float.
Variable py_pow : float -> float -> float.

(** The rewards before broadcasting. *)
Definition group_rewards (a : RewardArgs) (samples : list Sample) (raw : list float)
    (anchors : list nat) : list float :=
  if normalizes a
  then write_values raw (concat (map (group_writes py_sum py_pow a)
                                     (map snd (norm_groups samples raw anchors))))
  else raw.

Lemma reward_post_process_eq a samples raw rewards :
  reward_post_process py_sum py_pow a samples = Ok (raw, rewards) ->
  exists pg, _compute_parent_groups samples = Ok pg /\ mapM_res (raw_reward a) samples = Ok raw /\
    rewards = _broadcast_to_segments (group_rewards a samples raw (map snd pg)) pg.
Proof.
  unfold reward_post_process, group_rewards. intros E.
  destruct (mapM_res (raw_reward a) samples) as [raw'|]; [|done]. cbn [res_bind] in E.
  destruct (_compute_parent_groups samples) as [pg|]; [|done]. cbn [res_bind] in E.
  exists pg. destruct (normalizes a); injection E as <- <-; [|done].
  by rewrite normalize_groups_writes.
Qed.

(** Only members of a normalization group are rewritten, and they get its value. *)
Lemma group_rewards_spec a samples raw anchors :
  length raw = length samples ->
  (forall i s, samples !! i = Some s -> normalized_member anchors i s = false ->
     group_rewards a samples raw anchors !! i = raw !! i) /\
  (normalizes a = true -> forall i s, samples !! i = Some s -> normalized_member anchors i s = true ->
     exists v, group_rewards a samples raw anchors !! i = Some v /\
       (i, v) ∈ group_writes py_sum py_pow a (members samples raw anchors (group_of s))).
Proof.
  intros L. unfold group_rewards. split.
  - intros i s Es M. destruct (normalizes a); [|done]. apply write_values_other. intros I.
    apply list_elem_of_fmap in I as ([j y] & Ej & I). simpl in Ej. subst j.
    apply list_elem_of_In, in_concat in I as (ws & Hw & I).
    apply in_map_iff in Hw as (ms & <- & Hms). apply in_map_iff in Hms as ([k ms'] & <- & Hk).
    apply list_elem_of_In in Hk, I. simpl in *.
    assert (i ∈ map fst (group_writes py_sum py_pow a ms')) as Q
      by (apply list_elem_of_fmap; by exists (i, y)).
    rewrite group_writes_fst, (norm_groups_members _ _ _ _ _ Hk) in Q.
    apply list_elem_of_fmap in Q as ([i2 x2] & Ei2 & Q). simpl in Ei2. subst i2.
    apply members_elem in Q as (s2 & Es2 & M2 & _). congruence.
  - intros -> i s Es M. pose proof (norm_groups_found samples raw anchors i s Es M) as G.
    set (ms := members samples raw anchors (group_of s)) in *.
    assert (I : i ∈ map fst (group_writes py_sum py_pow a ms)).
    { rewrite group_writes_fst. apply list_elem_of_fmap. exists (i, default f0 (raw !! i)).
      split; [done|]. apply members_elem. eauto. }
    apply list_elem_of_fmap in I as ([j v] & Ej & I). simpl in Ej. subst j.
    exists v. split; [|done]. apply write_values_in; [apply all_writes_NoDup| |].
    + apply list_elem_of_In, in_concat. exists (group_writes py_sum py_pow a ms). split.
      * apply in_map, in_map_iff. exists (group_of s, ms). split; [done|]. by apply list_elem_of_In.
      * by apply list_elem_of_In.
    + rewrite L. by eapply lookup_lt_Some.
Qed.

(** The advantage of the reward [x] among the rewards [xs] of its prompt group. *)
Definition advantage (a : RewardArgs) (xs : list float) (x : float) : float :=
  let n := f_of_Z (Z.of_nat (length xs)) in
  let mean := fdiv (py_sum xs) n in
  let std := py_pow (fdiv (py_sum (map (fun v => py_pow (fsub v mean) ftwo) xs)) n) fhalf in
  if (String.eqb (advantage_estimator a) "grpo" || String.eqb (advantage_estimator a) "gspo")
     && grpo_std_normalization a && fltb std_floor std
  then fdiv (fsub x mean) std else fsub x mean.

Lemma normalize_advantage a xs : normalize_values py_sum py_pow a xs = map (advantage a xs) xs.
Proof.
  destruct xs as [|x xs]; [unfold normalize_values; simpl; by repeat case_match|].
  unfold normalize_values, advantage. cbv zeta.
  match goal with |- context [map (fun v => fsub v ?m) (x :: xs)] => set (mean := m) end.
  change (match map (fun v => fsub v mean) (x :: xs) with [] => f0 | _ => ?e end) with e.
  rewrite length_map, map_map. destruct (_ && grpo_std_normalization a); simpl andb; [|done].
  cbv iota. destruct (fltb std_floor _); [|done]. by rewrite map_map.
Qed.

Lemma group_writes_advantage a ms i v : (i, v) ∈ group_writes py_sum py_pow a ms ->
  exists x, (i, x) ∈ ms /\ v = advantage a (map snd ms) x.
Proof.
  unfold group_writes. rewrite normalize_advantage. generalize (advantage a (map snd ms)). intros f I.
  induction ms as [|[j y] ms IH]; simpl in I; [by apply elem_of_nil in I|].
  apply elem_of_cons in I as [[= -> ->]|I]; [exists y; split; [by left|done]|].
  destruct (IH I) as (x & Ix & ->). exists x. split; [by right|done].
Qed.

Lemma filter_sorted {A} (f : nat * A -> bool) l : StronglySorted lt (map fst l) ->
  StronglySorted lt (map fst (List.filter f l)).
Proof.
  induction l as [|x l IH]; intros S; simpl; [constructor|]. apply StronglySorted_inv in S as [S F].
  destruct (f x); simpl; [|by apply IH]. constructor; [by apply IH|].
  rewrite List.Forall_forall in F |- *. intros y Hy. apply F. apply in_map_iff in Hy as (z & <- & Hz).
  apply filter_In in Hz as [Hz _]. by apply in_map.
Qed.

Lemma members_sorted samples raw anchors k : StronglySorted lt (map fst (members samples raw anchors k)).
Proof.
  unfold members. rewrite map_map. simpl. apply filter_sorted. unfold enumerate.
  assert (X : forall k, map fst (imap (fun i x => (k + i, x)%nat) samples) = seq k (length samples)).
  { induction samples as [|x l IH]; intros j; simpl; [done|]. rewrite Nat.add_0_r. f_equal.
    rewrite <- (IH (S j)). f_equal. apply imap_ext. intros. simpl. f_equal. lia. }
  change (imap pair samples) with (imap (fun i x => (0 + i, x)%nat) samples). rewrite X.
  generalize 0%nat. generalize (length samples). clear. induction n as [|n IH]; intros j; simpl; [constructor|].
  constructor; [done|]. apply List.Forall_forall. intros y Hy. apply in_seq in Hy. lia.
Qed.

(** What broadcasting does to the rewards of the groups. *)
Lemma reward_post_process_broadcast a samples raw rewards :
  reward_post_process py_sum py_pow a samples = Ok (raw, rewards) ->
  exists pg, _compute_parent_groups samples = Ok pg /\ mapM_res (raw_reward a) samples = Ok raw /\
    let r1 := group_rewards a samples raw (map snd pg) in
    length rewards = length samples /\
    (forall g i, g ∈ pg -> i ∈ fst g -> rewards !! i = r1 !! snd g) /\
    (forall g, g ∈ pg -> snd g ∈ fst g) /\
    (forall i s, samples !! i = Some s -> in_parent s = false -> rewards !! i = r1 !! i).
Proof.
  intros E. destruct (reward_post_process_eq _ _ _ _ E) as (pg & Epg & Eraw & ->).
  exists pg. split; [done|]. split; [done|]. apply mapM_res_length in Eraw as Lr. cbv zeta.
  destruct (compute_parent_groups_spec _ _ Epg) as [Hf Ha].
  set (r1 := group_rewards a samples raw (map snd pg)).
  assert (L1 : length r1 = length samples).
  { unfold r1, group_rewards. destruct (normalizes a); [|done]. by rewrite write_values_length. }
  assert (Em : forall i, i ∈ concat (map fst pg) <-> exists s, samples !! i = Some s /\ in_parent s = true).
  { intros i. rewrite Hf. apply parent_groups_elem. }
  assert (An : forall g, g ∈ pg -> snd g ∈ fst g).
  { intros g Ig. by apply (anchor_of_spec samples (fst g) (snd g) (Ha g Ig)). }
  destruct (broadcast_spec pg r1) as [Bo Bi]; [|done| |].
  { rewrite Hf. apply parent_groups_NoDup. }
  { intros i Hi. apply Em in Hi as (s & Es & _). rewrite L1. by eapply lookup_lt_Some. }
  split_and!; [by rewrite broadcast_length|done|done|].
  intros i s Es P. apply Bo. intros I. apply Em in I as (s' & Es' & P'). congruence.
Qed.

(** C35: Every trajectory is one vote.  After post-processing, all live segments of a
    trajectory carry the value of its last segment, the one with the highest segment index
    (the first such); removed samples keep their raw reward; and with normalization on,
    each last segment and each live sample without a trajectory carries its raw reward
    less the mean, and divided by the standard deviation where that is asked for, taken
    over the raw rewards of exactly these samples of its prompt group, in sample order.
    Without normalization they carry their raw reward. *)
Theorem trajectory_advantage a samples raw rewards :
  reward_post_process py_sum py_pow a samples = Ok (raw, rewards) ->
  Forall2 (fun s r => raw_reward a s = Ok r) samples raw /\ length rewards = length samples /\
  (forall p, p <> "" -> segments_of samples p <> [] -> exists l, last_segment samples p l /\
     forall i, i ∈ segments_of samples p -> rewards !! i = rewards !! l) /\
  (forall i s, samples !! i = Some s -> remove_sample s = true -> rewards !! i = raw !! i) /\
  (string_parents samples -> forall i s, samples !! i = Some s -> votes samples i s ->
     exists x, raw !! i = Some x /\
     if normalizes a
     then exists ms, StronglySorted lt (map fst ms) /\
       (forall j y, (j, y) ∈ ms <-> exists t, samples !! j = Some t /\ votes samples j t /\
          group_of t = group_of s /\ raw !! j = Some y) /\
       rewards !! i = Some (advantage a (map snd ms) x)
     else rewards !! i = Some x).
Proof.
  intros E. destruct (reward_post_process_broadcast _ _ _ _ E) as (pg & Epg & Eraw & L & Bi & An & Bo).
  apply mapM_res_length in Eraw as Lr. apply mapM_res_Forall2 in Eraw as Fr.
  destruct (group_rewards_spec a samples raw (map snd pg) Lr) as [Go Gi].
  split; [done|]. split; [done|]. split; [|split].
  - intros p Np Ne. destruct (trajectory_group samples pg p Epg Np Ne) as (l & Il & Ll).
    exists l. split; [done|]. intros i Hi. rewrite (Bi _ i Il Hi). symmetry. apply (Bi _ l Il). exact (An _ Il).
  - intros i s Es R. rewrite (Bo i s Es) by (unfold in_parent; by rewrite R).
    apply (Go i s Es). unfold normalized_member. by rewrite R.
  - intros Sp i s Es V. pose proof (proj2 (normalized_votes samples pg i s Epg Sp Es) V) as M.
    assert (Rr : rewards !! i = group_rewards a samples raw (map snd pg) !! i).
    { unfold normalized_member in M. apply andb_prop in M as [M1 M2]. apply orb_prop in M2 as [M2|M2].
      - apply bool_decide_eq_true in M2. apply list_elem_of_fmap in M2 as (g & -> & Ig).
        apply (Bi g _ Ig). by apply An.
      - apply (Bo i s Es). unfold in_parent. apply negb_true_iff in M2. by rewrite M2, andb_false_r. }
    destruct (lookup_lt_is_Some_2 raw i) as [x Ex]; [rewrite Lr; by eapply lookup_lt_Some|].
    exists x. split; [done|]. destruct (normalizes a) eqn:Nm; [|unfold group_rewards in Rr; by rewrite Nm, Ex in Rr].
    destruct (Gi eq_refl i s Es M) as (v & Ev & Iv).
    exists (members samples raw (map snd pg) (group_of s)). split; [apply members_sorted|]. split.
    + intros j y. rewrite members_elem. split.
      * intros (t & Et & Mt & Gt & ->). exists t. split_and!; [done|by apply (normalized_votes samples pg)|done|].
        destruct (lookup_lt_is_Some_2 raw j) as [z ->]; [rewrite Lr; by eapply lookup_lt_Some|done].
      * intros (t & Et & Vt & Gt & Ey). exists t. rewrite Ey. split_and!; try done. by apply (normalized_votes samples pg).
    + destruct (group_writes_advantage _ _ _ _ Iv) as (x' & Ix & ->). apply members_elem in Ix as (t & _ & _ & _ & ->).
      by rewrite Rr, Ev, Ex.
Qed.
End RewardTheorems.

(** ** Expansion *)

Section ExpandTheorem.
Context `{PyText}.
Variable decode : pyval -> result (list (list Z)).

Lemma write_sample_frame sample a segment all sid iid text s' :
  write_sample_from_segment decode sample a segment all sid iid text = Ok s' ->
  rollout_id s' = rollout_id sample /\ reward s' = reward sample /\
  remove_sample s' = remove_sample sample /\ group_index s' = group_index sample.
Proof.
  unfold write_sample_from_segment. intros E. res_inv.
  destruct (truncate _ _) as [ar tr]. res_inv. destruct (metadata sample); [|done].
  res_inv. by subst s'.
Qed.

Lemma strictly_sorted (l : list Z) :
  StronglySorted Z.le l -> NoDup l -> StronglySorted Z.lt l.
Proof.
  induction 1 as [|x l S IH F]; intros N; [constructor|]. apply NoDup_cons in N as [Nx N].
  constructor; [by apply IH|]. rewrite Forall_forall in *. intros y Hy. specialize (F y Hy).
  assert (x <> y) by (intros ->; done). lia.
Qed.

(** The keyed segments in order. *)
Lemma keyed_segments segments keyed :
  mapM_res (fun d => let! i := segment_index_of d in Ok (i, d)) segments = Ok keyed ->
  map snd keyed = segments.
Proof.
  intros E. apply mapM_res_Forall2 in E.
  induction E as [|d k ds ks Hk F IH]; [done|]. simpl. rewrite IH. f_equal.
  destruct (segment_index_of d); [|done]. by injection Hk as <-.
Qed.

(** One sample per segment, in order of strictly increasing segment index.  All
    samples of a trajectory share the template's index as rollout id and the session
    as parent, each holds its own segment's arrays, and exactly the last one keeps the
    reward to be computed while the others carry 0.0. *)
Theorem expand_segments_sound template segments a text session_id instance_id out :
  expand_segments_to_samples decode template segments a text session_id instance_id = Ok out ->
  exists sorted, map snd sorted ≡ₚ segments /\ StronglySorted Z.lt (map fst sorted) /\
    length out = length segments /\
    forall i ix d s, sorted !! i = Some (ix, d) -> out !! i = Some s ->
      rollout_id s = index template /\
      parent_of s = opt_pyval (match session_id with Some x => Some x | None => sp_session_id template end) /\
      pget (default [] (metadata s)) "segment_index" = PInt ix /\
      reward s = (if Nat.eqb i (length segments - 1) then reward template else PFloat f0) /\
      exists s0 w iid, write_sample_from_segment decode s0 a d (map snd sorted)
          (match session_id with Some x => Some x | None => sp_session_id template end) iid text = Ok w /\
        tokens s = tokens w /\ loss_mask s = loss_mask w /\ rollout_log_probs s = rollout_log_probs w.
Proof.
  unfold expand_segments_to_samples. intros E.
  destruct (raise_if (Nat.eqb (length segments) 0) _) as [u|] eqn:E0; [|done]. cbn [res_bind] in E.
  set (sid := match session_id with Some x => Some x | None => sp_session_id template end) in *.
  destruct (mapM_res _ segments) as [keyed|] eqn:Ek; [|done]. cbn [res_bind] in E.
  set (sorted := sort_by (fun x y => (fst x <=? fst y)%Z) keyed) in *.
  destruct (raise_if (has_dup (map fst sorted)) _) as [u'|] eqn:Ed; [|done]. cbn [res_bind] in E.
  assert (Pm : sorted ≡ₚ keyed) by apply sort_by_perm.
  assert (Ls : length sorted = length segments).
  { rewrite Pm. rewrite <- (keyed_segments _ _ Ek). by rewrite length_map. }
  apply mapM_res_length in E as Lo. apply mapM_res_Forall2 in E.
  assert (Lenum : length (enumerate sorted) = length sorted) by (unfold enumerate; apply length_imap).
  exists sorted. split; [rewrite <- (keyed_segments _ _ Ek); by rewrite Pm|]. split.
  - apply strictly_sorted.
    + apply (sort_by_keys_sorted _ fst); intros; lia.
    + unfold raise_if, has_dup in Ed. case_bool_decide; [done|]. discriminate Ed.
  - split; [by rewrite Lo, Lenum, Ls|]. intros i ix d s Hs Ho.
    assert (He : enumerate sorted !! i = Some (i, (ix, d))) by (by rewrite enumerate_lookup, Hs).
    pose proof (Forall2_lookup_lr _ _ _ _ _ _ E He Ho) as X. unfold expand_one in X.
    match type of X with res_bind ?m _ = _ => destruct m as [w|] eqn:Ew; [|done] end.
    cbn [res_bind] in X. injection X as <-.
    destruct (write_sample_frame _ _ _ _ _ _ _ _ Ew) as (F1 & F2 & _). simpl in F1, F2 |- *.
    rewrite <- Ls. split; [done|]. split.
    + unfold parent_of. simpl. unfold pget, dget_def. rewrite dget_dset_ne by done.
      by rewrite dget_dset_eq.
    + split; [unfold pget, dget_def; by rewrite dget_dset_eq|]. split; [by rewrite <- F2|].
      eexists _, w, _. split; [exact Ew|]. done.
Qed.
End ExpandTheorem.

(** ** Witnesses *)

#[local] Instance w_rw_text : PyText :=
  {| py_repr := fun _ => ""; py_parse_float := fun _ => None |}.

Definition w_rw_segment (ix : Z) : dict :=
  [("segment_index", PInt ix); ("uid", PStr "u"); ("tokens", PList (map PInt [10; 11]%Z));
   ("full_loss_mask", PList (map PInt [0; 1]%Z));
   ("full_logprobs", PList [PFloat f0; PFloat f0])].

Lemma expand_segments_sound_witness :
  exists out, expand_segments_to_samples (fun _ => Ok []) w_sample
      [w_rw_segment 1; w_rw_segment 0] w_sample_args "hi" (Some "s") None = Ok out /\
    map reward out = [PFloat f0; PNone] /\ length out = 2%nat.
Proof.
  eexists. split; [vm_compute; reflexivity|]. split; [reflexivity|].
  edestruct (expand_segments_sound (fun _ => Ok []) w_sample
      [w_rw_segment 1; w_rw_segment 0] w_sample_args "hi" (Some "s") None) as (sorted & _ & _ & L & _);
    [vm_compute; reflexivity|exact L].
Defined.

(** Two trajectories of one prompt, the first with two segments. *)
Definition w_live (p : string) (ix : Z) (r : Z) : Sample :=
  with_sample w_sample (Some 0%Z) (PInt r) false None
    (Some [("parent_traj_id", PStr p); ("segment_index", PInt ix)]).

Definition w_samples : list Sample := [w_live "a" 0 0; w_live "a" 1 1; w_live "b" 0 0].

Definition w_rw_args : RewardArgs :=
  {| reward_key := None; advantage_estimator := "grpo"; rewards_normalization := true;
     grpo_std_normalization := false |}.

(** The trajectory [a] enters with the reward of its segment 1. *)
Lemma trajectory_advantage_witness :
  exists raw rewards, reward_post_process fsum (fun x _ => x) w_rw_args w_samples = Ok (raw, rewards) /\
    rewards = [fhalf; fhalf; fsub f0 fhalf] /\
    exists l, last_segment w_samples "a" l /\ rewards !! 0%nat = rewards !! l.
Proof.
  eexists _, _. split; [vm_compute; reflexivity|]. split; [vm_compute; reflexivity|].
  edestruct (trajectory_advantage fsum (fun x _ => x) w_rw_args w_samples) as (_ & _ & T & _);
    [vm_compute; reflexivity|].
  destruct (T "a") as (l & Ll & Tl); [discriminate|discriminate|].
  exists l. split; [exact Ll|]. apply Tl. vm_compute. left.
Defined.
