(* ===== verification/Staleness.v ===== *)
(** * Version staleness ([dressage/rollout/staleness.py])

    Asynchronous rollout drops groups whose trajectories end on a weight version
    older than the last [keep_versions] versions seen.  [versions] lists the versions
    in the order they were first observed. *)

From S2P Require Import Prelude.
From S2P Require Import PyFloat.
From S2P Require Import PyVal.
From S2P Require Import Samples.

Local Open Scope string_scope.
Local Open Scope list_scope.
Local Open Scope py_scope.

Record StalenessTracker : Type := {
  keep_versions : option Z;
  versions : list string }.

Record StalenessGroupFilter : Type := {
  tracker : StalenessTracker;
  dropped_groups : nat }.

Record PendingGroup : Type := { group_id : Z; pg_samples : list Sample }.

Definition enabled (t : StalenessTracker) : bool :=
  match keep_versions t with Some _ => true | None => false end.

Section Staleness.
Context `{PyText}.

Definition config_from_args (raw : pyval) : result (option Z) :=
  match raw with
  | PNone => Ok None
  | _ => let! v := py_int raw in
         check! (v <? 0)%Z else ValueError "dressage_staleness_keep_versions must be an integer >= 0" ;;
         Ok (if (v =? 0)%Z then None else Some v)
  end.

Definition real_version (value : pyval) : option string :=
  match value with
  | PNone => None
  | _ => let v := strip (py_str value) in if is_non_real v then None else Some v
  end.

Definition trajectory_key (s : Sample) : string :=
  match metadata s with
  | Some m => match pget m "parent_traj_id" with PNone => "" | v => py_str v end
  | None => ""
  end.

(** [int(metadata.get("segment_index", 0))]; the position is this with the order. *)
Definition seg_index (s : Sample) : result Z :=
  match metadata s with
  | Some m => py_int (dget_def (PInt 0) m "segment_index")
  | None => Ok 0%Z
  end.

Definition position_le (a b : Z * nat) : bool :=
  ((fst a <? fst b) || ((fst a =? fst b) && (Z.of_nat (snd a) <=? Z.of_nat (snd b))))%Z.

(** The body of the loop over [enumerate(group)]. *)
Definition latest_step (d : list (string * ((Z * nat) * string))) (ox : nat * Sample)
    : result (list (string * ((Z * nat) * string))) :=
  let '(order, s) := ox in
  match real_version (pget (default [] (metadata s)) "dressage_end_token_version") with
  | None => Ok d
  | Some v =>
      let k := trajectory_key s in
      if String.eqb k "" then Ok d
      else
        let! ix := seg_index s in
        match dget d k with
        | Some (p, _) => if position_le p (ix, order) then Ok (dset d k ((ix, order), v)) else Ok d
        | None => Ok (dset d k ((ix, order), v))
        end
  end.

Fixpoint latest_loop (d : list (string * ((Z * nat) * string))) (l : list (nat * Sample))
    : result (list (string * ((Z * nat) * string))) :=
  match l with
  | [] => Ok d
  | x :: rest => let! d' := latest_step d x in latest_loop d' rest
  end.

(** [trajectory_version_infos]: key and version of each trajectory. *)
Definition trajectory_version_infos (group : list Sample) : result (list (string * string)) :=
  let! d := latest_loop [] (enumerate group) in
  Ok (map (fun kv => (fst kv, snd (snd kv))) d).

Definition current_version_index (t : StalenessTracker) : option Z :=
  match versions t with [] => None | vs => Some (Z.of_nat (length vs) - 1)%Z end.

Definition cutoff_version_index (t : StalenessTracker) : option Z :=
  match keep_versions t, versions t with
  | Some k, (_ :: _) as vs => Some (Z.max 0 (Z.of_nat (length vs) - k))
  | _, _ => None
  end.

Definition observe_version (vs : list string) (v : string) : list string :=
  if bool_decide (v ∈ vs) then vs else vs ++ [v].

Definition observe_group (t : StalenessTracker) (group : list Sample)
    : result (StalenessTracker * bool) :=
  if negb (enabled t) then Ok (t, false)
  else
    let! infos := trajectory_version_infos group in
    let vs := fold_left observe_version (map snd infos) (versions t) in
    Ok ({| keep_versions := keep_versions t; versions := vs |},
        negb (Nat.eqb (length vs) (length (versions t)))).

(** [self.versions.index(version)] *)
Fixpoint index_from (vs : list string) (v : string) (i : Z) : result Z :=
  match vs with
  | [] => Raise (ValueError "is not in list")
  | x :: rest => if String.eqb x v then Ok i else index_from rest v (i + 1)
  end.

Definition version_index (t : StalenessTracker) (v : string) : result Z :=
  index_from (versions t) v 0.

(** [any(...)], stopping at the first hit. *)
Fixpoint any_below (t : StalenessTracker) (cutoff : Z) (vs : list string) : result bool :=
  match vs with
  | [] => Ok false
  | v :: rest => let! i := version_index t v in
                 if (i <? cutoff)%Z then Ok true else any_below t cutoff rest
  end.

Definition should_drop_group (t : StalenessTracker) (group : list Sample) : result bool :=
  match cutoff_version_index t with
  | None => Ok false
  | Some c => let! infos := trajectory_version_infos group in any_below t c (map snd infos)
  end.

(** ** [StalenessGroupFilter] *)

Definition observe_completed (f : StalenessGroupFilter) (groups : list (option (list Sample)))
    : result (StalenessGroupFilter * bool) :=
  fold_left (fun acc g =>
               let! fb := acc in
               match g with
               | None => Ok fb
               | Some group =>
                   let! tb := observe_group (tracker (fst fb)) group in
                   Ok ({| tracker := fst tb; dropped_groups := dropped_groups (fst fb) |},
                       snd fb || snd tb)
               end) groups (Ok (f, false)).

Definition keep_group (f : StalenessGroupFilter) (group : list Sample)
    : result (StalenessGroupFilter * bool) :=
  if negb (enabled (tracker f)) then Ok (f, true)
  else
    let! drop := should_drop_group (tracker f) group in
    if drop then Ok ({| tracker := tracker f; dropped_groups := S (dropped_groups f) |}, false)
    else Ok (f, true).

Fixpoint filter_loop (f : StalenessGroupFilter) (groups : list PendingGroup)
    : result (StalenessGroupFilter * list PendingGroup) :=
  match groups with
  | [] => Ok (f, [])
  | g :: rest =>
      let! fb := keep_group f (pg_samples g) in
      let! fr := filter_loop (fst fb) rest in
      Ok (fst fr, if snd fb then g :: snd fr else snd fr)
  end.

Definition filter_pending (f : StalenessGroupFilter) (groups : list PendingGroup)
    : result (StalenessGroupFilter * list PendingGroup) :=
  if negb (enabled (tracker f)) then Ok (f, groups) else filter_loop f groups.

(** ** Facts *)

Lemma index_from_spec vs : forall v i j, index_from vs v i = Ok j ->
  exists k, j = (i + Z.of_nat k)%Z /\ vs !! k = Some v.
Proof.
  induction vs as [|x vs IH]; intros v i j E; simpl in E; [done|].
  destruct (String.eqb_spec x v) as [->|N].
  - injection E as <-. exists 0%nat. split; [lia|done].
  - destruct (IH _ _ _ E) as (k & -> & L). exists (S k). split; [lia|done].
Qed.

Lemma index_from_total vs : forall v i, v ∈ vs -> exists j, index_from vs v i = Ok j.
Proof.
  induction vs as [|x vs IH]; intros v i I; [by apply elem_of_nil in I|]. simpl.
  destruct (String.eqb_spec x v); [by eauto|]. apply IH. set_solver.
Qed.

Lemma observe_version_spec l : forall vs, NoDup vs ->
  NoDup (fold_left observe_version l vs) /\ vs `prefix_of` fold_left observe_version l vs /\
  forall v, v ∈ l -> v ∈ fold_left observe_version l vs.
Proof.
  induction l as [|x l IH]; intros vs N; simpl.
  - split; [done|]. split; [done|]. by intros v ?%elem_of_nil.
  - assert (N' : NoDup (observe_version vs x) /\ vs `prefix_of` observe_version vs x /\
              x ∈ observe_version vs x).
    { unfold observe_version. case_bool_decide as B; [by repeat split|].
      split; [apply NoDup_app; split; [done|]; split; [set_solver|apply NoDup_singleton]|].
      split; [by eexists|set_solver]. }
    destruct N' as (N1 & P1 & I1). destruct (IH _ N1) as (N2 & P2 & I2).
    split; [done|]. split; [by trans (observe_version vs x)|].
    intros v [->|I]%elem_of_cons; [|by apply I2]. by eapply elem_of_prefix.
Qed.

(** Versions are distinct, and those of [g]'s trajectories are known. *)
Definition knows (t : StalenessTracker) (g : list Sample) : Prop :=
  exists infos, trajectory_version_infos g = Ok infos /\ forall v, v ∈ map snd infos -> v ∈ versions t.

Lemma observe_group_spec t g t' b :
  observe_group t g = Ok (t', b) -> NoDup (versions t) ->
  NoDup (versions t') /\ keep_versions t' = keep_versions t /\
  (forall v, v ∈ versions t -> v ∈ versions t') /\ (enabled t = true -> knows t' g).
Proof.
  unfold observe_group. intros E N. destruct (enabled t) eqn:En; simpl in E; [|by simplify_eq].
  destruct (trajectory_version_infos g) as [infos|] eqn:Ei; [|done]. injection E as <- _. simpl.
  destruct (observe_version_spec (map snd infos) _ N) as (A & B & C). split; [done|].
  split; [done|]. split; [intros v Hv; by eapply elem_of_prefix|].
  intros _. exists infos. by split.
Qed.

Lemma observe_completed_spec gs : forall f f' b b0,
  fold_left (fun acc g =>
               let! fb := acc in
               match g with
               | None => Ok fb
               | Some group =>
                   let! tb := observe_group (tracker (fst fb)) group in
                   Ok ({| tracker := fst tb; dropped_groups := dropped_groups (fst fb) |},
                       snd fb || snd tb)
               end) gs (Ok (f, b0)) = Ok (f', b) ->
  NoDup (versions (tracker f)) ->
  NoDup (versions (tracker f')) /\ keep_versions (tracker f') = keep_versions (tracker f) /\
  (forall v, v ∈ versions (tracker f) -> v ∈ versions (tracker f')) /\
  (enabled (tracker f) = true -> forall g, Some g ∈ gs -> knows (tracker f') g).
Proof.
  induction gs as [|g gs IH]; intros f f' b b0 E N; simpl in E.
  { simplify_eq. repeat split; auto. by intros _ g ?%elem_of_nil. }
  destruct g as [g|]; simpl in E.
  - destruct (observe_group (tracker f) g) as [[t1 b1]|e] eqn:E1; simpl in E.
    + destruct (observe_group_spec _ _ _ _ E1 N) as (N1 & K1 & M1 & G1).
      destruct (IH _ _ _ _ E N1) as (N2 & K2 & M2 & G2). simpl in *.
      split; [done|]. split; [congruence|]. split; [auto|].
      intros En g' [[= ->]|I]%elem_of_cons.
      * destruct (G1 En) as (infos & Ei & Hv). exists infos. split; [done|]. auto.
      * apply G2; [|done]. unfold enabled in *. by rewrite K1.
    + exfalso. clear -E. induction gs as [|g' gs IH]; simpl in E; [done|auto].
  - destruct (IH _ _ _ _ E N) as (N2 & K2 & M2 & G2). repeat split; auto.
    intros En g' [[= ]|I]%elem_of_cons. by apply G2.
Qed.

Lemma any_below_spec t c vs :
  NoDup (versions t) -> (0 <= c)%Z -> (forall v, v ∈ vs -> v ∈ versions t) ->
  exists b, any_below t c vs = Ok b /\
    (b = false <-> forall v, v ∈ vs -> v ∈ drop (Z.to_nat c) (versions t)).
Proof.
  intros N Hc. induction vs as [|v vs IH]; intros Hv; simpl.
  { exists false. split; [done|]. split; [by intros _ v ?%elem_of_nil|done]. }
  destruct (index_from_total (versions t) v 0) as [j Ej]; [apply Hv; by left|].
  unfold version_index. rewrite Ej. cbn [res_bind].
  destruct (index_from_spec _ _ _ _ Ej) as (k & -> & Lk).
  assert (W : v ∈ drop (Z.to_nat c) (versions t) <-> (c <= Z.of_nat k)%Z).
  { rewrite list_elem_of_lookup. setoid_rewrite lookup_drop. split.
    - intros [i Hi]. assert (Z.to_nat c + i = k)%nat by (by eapply NoDup_lookup). lia.
    - intros L. exists (k - Z.to_nat c)%nat. by replace (Z.to_nat c + (k - Z.to_nat c))%nat with k by lia. }
  destruct (Z.ltb_spec (0 + Z.of_nat k) c) as [L|L].
  - exists true. split; [done|]. split; [done|]. intros F. assert (v ∈ drop (Z.to_nat c) (versions t))
      by (apply F; by left). apply W in H0. lia.
  - destruct IH as (b & E & Hb); [intros; apply Hv; by right|]. exists b. split; [done|].
    rewrite Hb. split; [|intros F w Hw; apply F; by right].
    intros F w [->|Hw]%elem_of_cons; [apply W; lia|by apply F].
Qed.

Lemma cutoff_nonempty t k :
  keep_versions t = Some k -> (0 < k)%Z -> versions t <> [] ->
  cutoff_version_index t = Some (Z.max 0 (Z.of_nat (length (versions t)) - k)).
Proof.
  intros Ek Hk Hv. unfold cutoff_version_index, current_version_index. rewrite Ek.
  destruct (versions t) as [|v vs]; [done|]. repeat (f_equal; try lia).
Qed.

(** The test of a group whose versions are all known. *)
Lemma keep_group_window f' k g infos :
  keep_versions (tracker f') = Some k -> (0 < k)%Z -> NoDup (versions (tracker f')) ->
  trajectory_version_infos g = Ok infos -> (forall v, v ∈ map snd infos -> v ∈ versions (tracker f')) ->
  exists f'' kept, keep_group f' g = Ok (f'', kept) /\
    (kept = true <-> forall v, v ∈ map snd infos ->
       v ∈ drop (length (versions (tracker f')) - Z.to_nat k) (versions (tracker f'))) /\
    tracker f'' = tracker f' /\
    dropped_groups f'' = (dropped_groups f' + (if kept then 0 else 1))%nat.
Proof.
  intros K' Hk N' Ei Hv.
  assert (En' : enabled (tracker f') = true) by (unfold enabled; by rewrite K').
  unfold keep_group, should_drop_group. rewrite En'. cbn [negb].
  destruct (versions (tracker f')) as [|v0 vs] eqn:Ev.
  - unfold cutoff_version_index. rewrite K', Ev.
    exists f', true. split; [done|]. split; [|split; [done|lia]].
    split; [|done]. intros _ v Hx. specialize (Hv v Hx). by apply elem_of_nil in Hv.
  - rewrite (cutoff_nonempty (tracker f') k) by (congruence || lia).
    rewrite Ei. cbn [res_bind]. rewrite <- Ev in *.
    destruct (any_below_spec (tracker f') (Z.max 0 (Z.of_nat (length (versions (tracker f'))) - k))
                (map snd infos) N' ltac:(lia) Hv) as (b & Eb & Hb).
    rewrite Eb. cbn [res_bind].
    replace (Z.to_nat (Z.max 0 (Z.of_nat (length (versions (tracker f'))) - k)))
      with (length (versions (tracker f')) - Z.to_nat k)%nat in Hb by lia.
    destruct b; eexists _, _; (split; [reflexivity|]); simpl;
      (split; [|split; [done|lia]]); rewrite <- Hb; naive_solver.
Qed.
(** The distinct strings of [l] in the order of their first occurrence. *)
Fixpoint first_occurrences (l : list string) : list string :=
  match l with
  | [] => []
  | v :: rest => v :: filter (fun w => w <> v) (first_occurrences rest)
  end.

Lemma first_occurrences_in l v : v ∈ first_occurrences l <-> v ∈ l.
Proof.
  induction l as [|x l IH]; simpl; [done|]. rewrite !elem_of_cons, list_elem_of_filter, IH.
  destruct (decide (v = x)); naive_solver.
Qed.

Lemma first_occurrences_snoc l v :
  first_occurrences (l ++ [v]) = first_occurrences l ++ (if decide (v ∈ l) then [] else [v]).
Proof.
  induction l as [|x l IH]; simpl; [done|]. rewrite IH, filter_app. f_equal. f_equal.
  destruct (decide (v ∈ l)), (decide (v ∈ x :: l)) as [I|I]; simpl; try done.
  - destruct I. by right.
  - apply elem_of_cons in I as [->|I]; [|done]. by rewrite filter_cons_False by naive_solver.
  - rewrite filter_cons_True; [done|]. intros ->. apply I. by left.
Qed.

Lemma first_occurrences_NoDup l : NoDup l -> first_occurrences l = l.
Proof.
  induction 1 as [|x l Nx N IH]; simpl; [done|]. rewrite IH. f_equal.
  clear -Nx. induction l as [|y l IH]; [done|].
  rewrite filter_cons_True by set_solver. rewrite IH by set_solver. done.
Qed.

(** The tracker keeps the versions in the order of their first observation. *)
Lemma observe_versions_order vs l : NoDup vs -> fold_left observe_version l vs = first_occurrences (vs ++ l).
Proof.
  intros N. induction l as [|v l IH] using rev_ind.
  - simpl. by rewrite app_nil_r, first_occurrences_NoDup.
  - rewrite fold_left_app, app_assoc, first_occurrences_snoc, IH. simpl. unfold observe_version.
    case_bool_decide as B; rewrite first_occurrences_in in B;
      (destruct (decide (v ∈ vs ++ l)) as [I|I]; [|]); try done. by rewrite app_nil_r.
Qed.

Lemma observe_completed_versions gs : forall f f' b b0,
  fold_left (fun acc g =>
               let! fb := acc in
               match g with
               | None => Ok fb
               | Some group =>
                   let! tb := observe_group (tracker (fst fb)) group in
                   Ok ({| tracker := fst tb; dropped_groups := dropped_groups (fst fb) |},
                       snd fb || snd tb)
               end) gs (Ok (f, b0)) = Ok (f', b) ->
  enabled (tracker f) = true ->
  exists obs, Forall2 (fun g infos => trajectory_version_infos g = Ok infos) (omap id gs) obs /\
    versions (tracker f') = fold_left observe_version (map snd (concat obs)) (versions (tracker f)).
Proof.
  induction gs as [|g gs IH]; intros f f' b b0 E En; simpl in E.
  { simplify_eq. by exists []. }
  destruct g as [g|]; simpl in E; [|by apply (IH _ _ _ _ E)].
  unfold observe_group at 2 in E. rewrite En in E. simpl in E.
  destruct (trajectory_version_infos g) as [infos|] eqn:Ei; simpl in E.
  - destruct (IH _ _ _ _ E) as (obs & F & V); [exact En|]. exists (infos :: obs). simpl in *.
    split; [by constructor|]. by rewrite V, map_app, fold_left_app.
  - exfalso. clear -E. induction gs as [|g' gs IH]; simpl in E; [done|auto].
Qed.

End Staleness.

(** ** Witness *)

#[local] Instance w_st_text : PyText :=
  {| py_repr := fun _ => ""; py_parse_float := fun _ => None |}.

Definition w_st_sample (traj version : string) : Sample :=
  {| index := None; group_index := None; sp_session_id := None; tokens := []; response := "";
     response_length := 0; loss_mask := None; rollout_log_probs := None; reward := PNone;
     status := "completed"; remove_sample := false; rollout_id := None;
     metadata := Some [("parent_traj_id", PStr traj); ("dressage_end_token_version", PStr version)];
     rollout_routed_experts := None; sp_prompt := PNone; sp_label := None;
     sp_generate_function_path := None |}.

Definition w_filter : StalenessGroupFilter :=
  {| tracker := {| keep_versions := Some 1%Z; versions := [] |}; dropped_groups := 0 |}.

Definition w_groups : list (option (list Sample)) :=
  [Some [w_st_sample "a" "1"]; None; Some [w_st_sample "b" "2"]].

