(* ===== verification/Mopd.v ===== *)
(** * Teacher routing of the rotating-teacher distillation ([dressage/rollout/mopd.py])

    The configuration names teachers and datasets; every dataset routes its rows to
    one teacher through the row metadata, and every flattened training sample is
    routed by its metadata.  [load_mopd_config] reads a file and resolves paths against
    the file system; what it does besides is [from_dict]. *)

From Stdlib Require Import Ascii.
From S2P Require Import Prelude.
From S2P Require Import PyFloat.
From S2P Require Import PyVal.
From Stdlib Require Import SpecFloat.
From S2P Require Import Samples.
From S2P Require Import Rewards.

Local Open Scope string_scope.
Local Open Scope list_scope.
Local Open Scope py_scope.

Definition _BLACKBOX_GENERATE_PATH : string :=
  "dressage.rollout.generate.blackbox_dispatch.generate".

Definition _ROLLOUT_MODES : list string := ["blackbox"; "whitebox"].

Record MOPDTeacher : Type := {
  teacher_id : string;
  load : string;
  ckpt_step : option Z }.

Record MOPDDataset : Type := {
  ds_name : string;
  ds_path : string;
  ds_teacher_id : string;
  ds_weight : float;
  ds_metadata : dict;
  ds_agent_mode : string;
  ds_generate_function_path : option string }.

Record MOPDConfig : Type := {
  teachers : list (string * MOPDTeacher);
  datasets : list MOPDDataset;
  reward_modules : list string;
  runtime_env_keys : list string;
  base_model : option string }.

(** ** [pathlib]: the last component of a path without its suffix (up to Python 3.13) *)

(** The parts of a path between slashes. *)
Fixpoint split_slash (s acc : string) : list string :=
  match s with
  | EmptyString => [acc]
  | String c s' => if Ascii.eqb c "/"%char then acc :: split_slash s' "" else split_slash s' (acc +:+ String c "")
  end.

Definition path_name (path : string) : string :=
  default "" (last (List.filter (fun p => negb (String.eqb p "" || String.eqb p "."))
                                (split_slash path ""))).

(** The text before the last dot, if there is a dot. *)
Fixpoint before_last_dot (s : string) : option string :=
  match s with
  | EmptyString => None
  | String c s' =>
      match before_last_dot s' with
      | Some t => Some (String c t)
      | None => if Ascii.eqb c "."%char then Some "" else None
      end
  end.

Definition path_stem (path : string) : string :=
  let name := path_name path in
  match before_last_dot name with
  | Some t => if (Nat.ltb 0 (String.length t) && Nat.ltb (String.length t) (String.length name - 1))
              then t else name
  | None => name
  end.

Section Mopd.
Context `{PyText}.

(** [value in (None, "")] *)
Definition is_blank (v : pyval) : bool :=
  match v with
  | PNone => true
  | PStr s => String.eqb s ""
  | _ => false
  end.

Definition _optional_string (v : pyval) : option string :=
  if is_blank v then None
  else let text := strip (py_str v) in if String.eqb text "" then None else Some text.

Definition _rollout_config (raw : dict) : result (string * option string) :=
  match _optional_string (pget raw "agent_mode") with
  | None => Raise (ValueError "MOPD dataset requires agent_mode")
  | Some m =>
      let mode := lower m in
      check! negb (bool_decide (mode ∈ _ROLLOUT_MODES)) else ValueError "MOPD dataset agent_mode must be blackbox|whitebox" ;;
      let function_path := _optional_string (pget raw "generate_function_path") in
      let function_path := match function_path with
                           | None => if String.eqb mode "blackbox" then Some _BLACKBOX_GENERATE_PATH else None
                           | Some p => Some p
                           end in
      check! (match function_path with None => String.eqb mode "whitebox" | Some _ => false end)
        else ValueError "MOPD dataset uses whitebox rollout and requires generate_function_path" ;;
      Ok (mode, function_path)
  end.

(** [str(value.get(k) or "").strip()] *)
Definition stripped_text (d : dict) (k : string) : string :=
  strip (py_str (py_or (pget d k) (PStr ""))).

(** One turn of the loop over [raw_teachers.items()]. *)
Definition parse_teacher (ts : list (string * MOPDTeacher)) (kv : string * pyval)
    : result (list (string * MOPDTeacher)) :=
  let tid := strip (fst kv) in
  match (if String.eqb tid "" then None
         else match snd kv with PDict d => Some d | _ => None end) with
  | None => Raise (ValueError "invalid MOPD teacher entry")
  | Some value =>
      let load := stripped_text value "load" in
      check! String.eqb load "" else ValueError "MOPD teacher requires a Megatron checkpoint 'load'" ;;
      let raw_step := pget value "ckpt_step" in
      let! step := (if is_blank raw_step then Ok None
                    else let! z := py_int raw_step in Ok (Some z)) in
      check! (match step with Some z => (z <? 0)%Z | None => false end)
        else ValueError "MOPD teacher ckpt_step must be non-negative" ;;
      Ok (dset ts tid {| teacher_id := tid; load := load; ckpt_step := step |})
  end.

Fixpoint parse_teachers (ts : list (string * MOPDTeacher)) (l : dict)
    : result (list (string * MOPDTeacher)) :=
  match l with
  | [] => Ok ts
  | kv :: rest => let! ts' := parse_teacher ts kv in parse_teachers ts' rest
  end.

Definition _string_tuple (v : pyval) : result (list string) :=
  match v with
  | PList l => Ok (List.filter (fun s => negb (String.eqb s "")) (map (fun x => strip (py_str x)) l))
  | _ => Raise (ValueError "MOPD field must be a list")
  end.

(** One turn of the loop over the datasets; [names] are those seen. *)
Definition parse_dataset (ts : list (string * MOPDTeacher)) (names : list string) (v : pyval)
    : result MOPDDataset :=
  match v with
  | PDict value =>
      let path := stripped_text value "path" in
      check! String.eqb path "" else ValueError "MOPD dataset requires path" ;;
      let name := strip (py_str (py_or (pget value "name") (PStr (path_stem path)))) in
      check! (String.eqb name "" || bool_decide (name ∈ names))
        else ValueError "MOPD dataset name must be unique and non-empty" ;;
      match _optional_string (pget value "teacher_id") with
      | None => Raise (ValueError "MOPD dataset requires teacher_id")
      | Some tid =>
          check! negb (bool_decide (tid ∈ dkeys ts)) else ValueError "MOPD dataset routes to unknown teacher" ;;
          let! weight := py_float (dget_def (PFloat f1) value "weight") in
          check! fleb weight f0 else ValueError "MOPD dataset weight must be positive" ;;
          match py_or (pget value "metadata") (PDict []) with
          | PDict m =>
              let! mode_path := _rollout_config value in
              Ok {| ds_name := name; ds_path := path; ds_teacher_id := tid; ds_weight := weight;
                    ds_metadata := dset m "teacher_id" (PStr tid); ds_agent_mode := fst mode_path;
                    ds_generate_function_path := snd mode_path |}
          | _ => Raise (ValueError "MOPD dataset metadata must be an object")
          end
      end
  | _ => Raise (ValueError "MOPD dataset must be an object")
  end.

Fixpoint dataset_loop (ts : list (string * MOPDTeacher)) (done : list MOPDDataset) (l : list pyval)
    : result (list MOPDDataset) :=
  match l with
  | [] => Ok done
  | v :: rest =>
      let! d := parse_dataset ts (map ds_name done) v in dataset_loop ts (done ++ [d]) rest
  end.

Definition _parse_datasets (ts : list (string * MOPDTeacher)) (raw : pyval)
    : result (list MOPDDataset) :=
  match raw with
  | PList l => dataset_loop ts [] l
  | _ => Raise (ValueError "MOPD datasets must be a list")
  end.

Definition from_dict (v : pyval) : result MOPDConfig :=
  match v with
  | PDict raw =>
      match pget raw "teachers" with
      | PDict ((_ :: _) as raw_teachers) =>
          let! ts := parse_teachers [] raw_teachers in
          let! ds := _parse_datasets ts (py_or (pget raw "datasets") (PList [])) in
          let! rm := _string_tuple (py_or (pget raw "reward_modules") (PList [])) in
          let! rk := _string_tuple (py_or (pget raw "runtime_env_keys") (PList [])) in
          Ok {| teachers := ts; datasets := ds; reward_modules := rm; runtime_env_keys := rk;
                base_model := _optional_string (pget raw "base_model") |}
      | _ => Raise (ValueError "MOPD config requires a non-empty 'teachers' object")
      end
  | _ => Raise (ValueError "MOPD config must be a JSON object")
  end.

(** ** Routing *)

Definition route_mopd_teacher (metadata : option dict) (config : MOPDConfig) : result MOPDTeacher :=
  match metadata with
  | None => Raise (ValueError "MOPD sample metadata requires teacher_id")
  | Some m =>
      match _optional_string (pget m "teacher_id") with
      | None => Raise (ValueError "MOPD sample metadata requires teacher_id")
      | Some tid =>
          match dget (teachers config) tid with
          | None => Raise (ValueError "unknown MOPD teacher_id")
          | Some t => Ok t
          end
      end
  end.

(** The trajectory a sample belongs to. *)
Definition mopd_parent_id (s : Sample) : string :=
  let fallback := PStr ("sample:" +:+ match index s with Some i => str_of_Z i | None => "None" end) in
  py_str (py_or (pget (default [] (metadata s)) "parent_traj_id")
                (py_or (opt_pyval (sp_session_id s)) fallback)).

Fixpoint collect_loop (config : MOPDConfig) (routes : list (string * string)) (samples : list Sample)
    : result (list string) :=
  match samples with
  | [] => Ok []
  | s :: rest =>
      let! t := route_mopd_teacher (metadata s) config in
      let p := mopd_parent_id s in
      let previous := dget_def (teacher_id t) routes p in
      check! negb (String.eqb previous (teacher_id t)) else ValueError "MOPD sibling routing conflict" ;;
      let! ids := collect_loop config (dset routes p previous) rest in
      Ok (teacher_id t :: ids)
  end.

Definition collect_mopd_teacher_ids (samples : list Sample) (config : MOPDConfig)
    : result (list string) := collect_loop config [] samples.
End Mopd.

Section MopdFacts.
Context `{PyText}.

Lemma optional_string_Some v s : _optional_string v = Some s -> s <> "" /\ strip s = s.
Proof.
  unfold _optional_string. destruct (is_blank v); [done|].
  destruct (String.eqb_spec (strip (py_str v)) "") as [|N]; [done|]. intros [= <-].
  split; [done|apply strip_idem].
Qed.

Lemma optional_string_PStr s : s <> "" -> strip s = s -> _optional_string (PStr s) = Some s.
Proof.
  intros N E. unfold _optional_string. simpl. rewrite E.
  by destruct (String.eqb_spec s "") as [?|_].
Qed.

(** The teachers of a parsed configuration. *)
Definition teacher_ok (ts : list (string * MOPDTeacher)) : Prop :=
  NoDup (dkeys ts) /\ forall k t, dget ts k = Some t ->
    teacher_id t = k /\ k <> "" /\ load t <> "" /\
    match ckpt_step t with Some z => (0 <= z)%Z | None => True end.

Lemma parse_teacher_ok ts kv ts' :
  parse_teacher ts kv = Ok ts' -> teacher_ok ts -> teacher_ok ts' /\ ts' <> [].
Proof.
  unfold parse_teacher. destruct (String.eqb_spec (strip (fst kv)) "") as [|Nt]; [done|].
  destruct (snd kv) as [| | | | | |value] eqn:Ev; try done.
  destruct (String.eqb_spec (stripped_text value "load") "") as [|Nl]; [done|]. simpl.
  intros E [N T].
  assert (K : exists step, ts' = dset ts (strip (fst kv)) {| teacher_id := strip (fst kv);
              load := stripped_text value "load"; ckpt_step := step |} /\
            match step with Some z => (0 <= z)%Z | None => True end).
  { destruct (is_blank _); simpl in E; [injection E as <-; by eexists|].
    destruct (py_int _) as [z|]; [|done]. simpl in E.
    destruct (Z.ltb_spec z 0); [done|]. injection E as <-. by eexists. }
  destruct K as (step & -> & P). set (t := {| teacher_id := _ |}) in *. split; [|intros Q; pose proof (dget_dset_eq ts (strip (fst kv)) t) as Q'; by rewrite Q in Q'].
  split; [by apply dset_NoDup|]. intros k t' L. destruct (decide (strip (fst kv) = k)) as [<-|D].
  - rewrite dget_dset_eq in L. injection L as <-. by repeat split.
  - rewrite dget_dset_ne in L by done. by apply T.
Qed.

Lemma parse_teachers_ok l : forall ts ts',
  parse_teachers ts l = Ok ts' -> teacher_ok ts -> teacher_ok ts' /\ (ts <> [] \/ l <> [] -> ts' <> []).
Proof.
  induction l as [|kv l IH]; intros ts ts' E T; simpl in E; [injection E as <-; naive_solver|].
  destruct (parse_teacher ts kv) as [ts1|] eqn:E1; [|done]. simpl in E.
  destruct (parse_teacher_ok _ _ _ E1 T) as [T1 N1].
  destruct (IH _ _ E T1) as [T2 N2]. split; [done|]. intros _. apply N2. by left.
Qed.

(** A parsed dataset against the teachers. *)
Definition dataset_ok (ts : list (string * MOPDTeacher)) (d : MOPDDataset) : Prop :=
  ds_name d <> "" /\ ds_path d <> "" /\ fleb (ds_weight d) f0 = false /\
  ds_teacher_id d ∈ dkeys ts /\ ds_teacher_id d <> "" /\
  _optional_string (pget (ds_metadata d) "teacher_id") = Some (ds_teacher_id d) /\
  ds_agent_mode d ∈ _ROLLOUT_MODES /\ is_Some (ds_generate_function_path d).

Lemma rollout_config_ok raw m p :
  _rollout_config raw = Ok (m, p) -> m ∈ _ROLLOUT_MODES /\ is_Some p.
Proof.
  unfold _rollout_config. destruct (_optional_string (pget raw "agent_mode")) as [m0|]; [|done].
  destruct (bool_decide_reflect (lower m0 ∈ _ROLLOUT_MODES)) as [I|]; [|done]. simpl.
  destruct (_optional_string _); simpl; [by intros [= <- <-]|].
  destruct (String.eqb_spec (lower m0) "blackbox"); simpl; [by intros [= <- <-]|].
  destruct (String.eqb_spec (lower m0) "whitebox"); simpl; [done|].
  exfalso. unfold _ROLLOUT_MODES in I. set_solver.
Qed.

Lemma parse_dataset_ok ts names v d :
  parse_dataset ts names v = Ok d -> dataset_ok ts d /\ ds_name d ∉ names.
Proof.
  unfold parse_dataset. destruct v as [| | | | | |value]; try done.
  destruct (String.eqb_spec (stripped_text value "path") "") as [|Np]; [done|]. cbn [raise_if res_bind].
  generalize (strip (py_str (py_or (pget value "name") (PStr (path_stem (stripped_text value "path")))))) as name. intros name.
  destruct (String.eqb_spec name "") as [|Nn]; [done|]. cbn [orb].
  destruct (bool_decide_reflect (name ∈ names)) as [|Nu]; [done|]. cbn [raise_if res_bind].
  destruct (_optional_string (pget value "teacher_id")) as [tid|] eqn:Et; [|done].
  destruct (bool_decide_reflect (tid ∈ dkeys ts)) as [It|]; [|done]. cbn [negb raise_if res_bind].
  destruct (py_float _) as [w|]; [|done]. cbn [res_bind].
  destruct (fleb w f0) eqn:Ew; [done|]. cbn [raise_if res_bind].
  destruct (py_or _ _) as [| | | | | |m]; try done.
  destruct (_rollout_config value) as [[mode p]|] eqn:Er; [|done]. intros [= <-].
  destruct (optional_string_Some _ _ Et) as [Nt St]. destruct (rollout_config_ok _ _ _ Er) as [Im Ip].
  split; [|done]. repeat split; try done. simpl. unfold pget, dget_def. rewrite dget_dset_eq. simpl.
  by apply optional_string_PStr.
Qed.

Lemma dataset_loop_ok ts l : forall ds ds',
  dataset_loop ts ds l = Ok ds' ->
  NoDup (map ds_name ds) /\ Forall (dataset_ok ts) ds ->
  NoDup (map ds_name ds') /\ Forall (dataset_ok ts) ds' /\ length ds' = (length ds + length l)%nat.
Proof.
  induction l as [|v l IH]; intros ds ds' E [N F]; simpl in E.
  { injection E as <-. split; [done|]. split; [done|]. simpl. lia. }
  destruct (parse_dataset ts (map ds_name ds) v) as [d|] eqn:Ed; [|done]. simpl in E.
  destruct (parse_dataset_ok _ _ _ _ Ed) as [D U].
  destruct (IH _ _ E) as (N' & F' & L).
  { split; [|by apply Forall_app; split; [|apply Forall_singleton]].
    rewrite map_app. apply NoDup_app. split; [done|]. split; [|apply NoDup_singleton].
    simpl. set_solver. }
  split; [done|]. split; [done|]. rewrite length_app in L. simpl in *. lia.
Qed.

Lemma from_dict_ok v c :
  from_dict v = Ok c ->
  teacher_ok (teachers c) /\ teachers c <> [] /\ NoDup (map ds_name (datasets c)) /\
  Forall (dataset_ok (teachers c)) (datasets c).
Proof.
  unfold from_dict. destruct v as [| | | | | |raw]; try done.
  destruct (pget raw "teachers") as [| | | | | |[|kv rt]]; try done.
  destruct (parse_teachers [] (kv :: rt)) as [ts|] eqn:Et; [|done]. cbn [res_bind].
  destruct (_parse_datasets ts _) as [ds|] eqn:Ed; [|done]. cbn [res_bind].
  destruct (_string_tuple _) as [rm|]; [|done]. cbn [res_bind].
  destruct (_string_tuple _) as [rk|]; [|done]. cbn [res_bind]. intros [= <-]. simpl.
  destruct (parse_teachers_ok _ _ _ Et) as [T N]; [by split; [constructor|]|].
  split; [done|]. split; [apply N; by right|].
  unfold _parse_datasets in Ed. destruct (py_or _ _) as [| | | | |l|]; try done.
  destruct (dataset_loop_ok _ _ _ _ Ed) as (Nd & F & _); [by repeat constructor|]. done.
Qed.

(** [weight <= 0] is false of a NaN as well. *)
Lemma not_le_zero (w : float) : fleb w f0 = false -> fltb f0 w = true \/ w = S754_nan.
Proof using. destruct w as [s|s| |s m e]; try destruct s; simpl; auto; try done; by left. Qed.

(** C40: A configuration that parses is closed under routing: it has a teacher, each
    stored under its own id with a checkpoint and a non-negative step; dataset names
    are non-empty and distinct; a weight is positive, or a NaN; every rollout mode has
    a generate function; and a row that carries a dataset's metadata, with any other
    keys added, is routed to the teacher that dataset names. *)
Theorem mopd_config_closed v c :
  from_dict v = Ok c ->
  teachers c <> [] /\
  (forall k t, dget (teachers c) k = Some t -> teacher_id t = k /\ load t <> "" /\
     match ckpt_step t with Some z => (0 <= z)%Z | None => True end) /\
  NoDup (map ds_name (datasets c)) /\
  forall d, d ∈ datasets c ->
    ds_name d <> "" /\ (fltb f0 (ds_weight d) = true \/ ds_weight d = S754_nan) /\
    ds_agent_mode d ∈ _ROLLOUT_MODES /\ is_Some (ds_generate_function_path d) /\
    forall m, pget m "teacher_id" = pget (ds_metadata d) "teacher_id" ->
      exists t, route_mopd_teacher (Some m) c = Ok t /\ teacher_id t = ds_teacher_id d.
Proof.
  intros E. destruct (from_dict_ok _ _ E) as ([Nk T] & Ne & Nd & F). split; [done|].
  split; [intros k t L; destruct (T k t L) as (A & _ & B & C); by repeat split|].
  split; [done|]. intros d Id. rewrite Forall_forall in F.
  destruct (F d Id) as (A & _ & W & K & _ & O & M & G).
  split; [done|]. split; [by apply not_le_zero|]. split; [done|]. split; [done|].
  intros m Em. unfold route_mopd_teacher. rewrite Em, O.
  destruct (dget (teachers c) (ds_teacher_id d)) as [t|] eqn:L; [|by apply dget_None_key in L].
  exists t. split; [done|]. by apply T in L as [? _].
Qed.

(** The teacher id a sample is routed to. *)
Definition routed (c : MOPDConfig) (s : Sample) (tid : string) : Prop :=
  exists t, route_mopd_teacher (metadata s) c = Ok t /\ teacher_id t = tid.

Definition agrees (routes : list (string * string)) (s : Sample) (tid : string) : Prop :=
  match dget routes (mopd_parent_id s) with Some p => p = tid | None => True end.

Lemma collect_loop_sound c samples : forall routes ids,
  collect_loop c routes samples = Ok ids ->
  Forall2 (fun s tid => routed c s tid /\ agrees routes s tid) samples ids /\
  forall i j s1 s2 a b, samples !! i = Some s1 -> samples !! j = Some s2 ->
    ids !! i = Some a -> ids !! j = Some b -> mopd_parent_id s1 = mopd_parent_id s2 -> a = b.
Proof.
  induction samples as [|s samples IH]; intros routes ids E; simpl in E.
  { injection E as <-. split; [constructor|done]. }
  destruct (route_mopd_teacher (metadata s) c) as [t|] eqn:Et; [|done]. cbn [res_bind] in E.
  destruct (String.eqb_spec (dget_def (teacher_id t) routes (mopd_parent_id s)) (teacher_id t)) as [Ep|];
    [|done]. cbn [negb raise_if res_bind] in E.
  destruct (collect_loop c _ samples) as [ids'|] eqn:El; [|done]. injection E as <-.
  destruct (IH _ _ El) as [F A]. rewrite Ep in F.
  assert (Ag : agrees routes s (teacher_id t)).
  { unfold agrees, dget_def in *. by destruct (dget routes _). }
  assert (G : forall j s2 b, samples !! j = Some s2 -> ids' !! j = Some b ->
            mopd_parent_id s = mopd_parent_id s2 -> teacher_id t = b).
  { intros j s2 b L2 Lb Em. destruct (Forall2_lookup_l _ _ _ _ _ F L2) as (b' & Lb' & _ & Ab).
    unfold agrees in Ab. rewrite <- Em, dget_dset_eq in Ab. congruence. }
  split.
  - constructor; [by split; [exists t|]|]. eapply Forall2_impl; [exact F|].
    intros s' b [R Ab]. split; [done|]. unfold agrees in *.
    destruct (decide (mopd_parent_id s = mopd_parent_id s')) as [Em|D].
    + rewrite <- Em in *. rewrite dget_dset_eq in Ab. by subst b.
    + by rewrite dget_dset_ne in Ab.
  - intros [|i] [|j] s1 s2 a b; simpl; intros L1 L2 La Lb Em.
    + congruence.
    + injection L1 as <-. injection La as <-. by eapply G.
    + injection L2 as <-. injection Lb as <-. symmetry. by eapply G.
    + by eapply (A i j).
Qed.

Lemma collect_loop_complete c samples : forall routes,
  (forall s, s ∈ samples -> exists tid, routed c s tid /\ agrees routes s tid) ->
  (forall s1 s2 a b, s1 ∈ samples -> s2 ∈ samples -> mopd_parent_id s1 = mopd_parent_id s2 ->
     routed c s1 a -> routed c s2 b -> a = b) ->
  exists ids, collect_loop c routes samples = Ok ids.
Proof.
  induction samples as [|s samples IH]; intros routes R A; simpl; [by eexists|].
  destruct (R s) as (tid & (t & Et & <-) & Ag); [by left|]. rewrite Et. cbn [res_bind].
  assert (Ep : dget_def (teacher_id t) routes (mopd_parent_id s) = teacher_id t).
  { unfold agrees, dget_def in *. by destruct (dget routes _). }
  rewrite Ep, String.eqb_refl. cbn [negb raise_if res_bind].
  destruct (IH (dset routes (mopd_parent_id s) (teacher_id t))) as [ids ->]; [| |by eexists].
  - intros s' I. destruct (R s') as (tid' & Rt & Ag'); [by right|]. exists tid'. split; [done|].
    unfold agrees in *. destruct (decide (mopd_parent_id s = mopd_parent_id s')) as [Em|D].
    + rewrite <- Em, dget_dset_eq. eapply (A s s'); [by left|by right|done|by exists t|done].
    + by rewrite dget_dset_ne.
  - intros s1 s2 a b I1 I2. apply A; by right.
Qed.

(** Teacher ids are collected exactly when every sample is routed and the
    segments of one trajectory agree: [collect_mopd_teacher_ids] returns iff each
    sample has a known teacher and samples with the same parent have the same one,
    and then it returns one id per sample, the one the sample is routed to. *)
Theorem teacher_ids_iff samples c ids :
  collect_mopd_teacher_ids samples c = Ok ids <->
  Forall2 (routed c) samples ids /\
  forall i j s1 s2 a b, samples !! i = Some s1 -> samples !! j = Some s2 ->
    ids !! i = Some a -> ids !! j = Some b -> mopd_parent_id s1 = mopd_parent_id s2 -> a = b.
Proof.
  unfold collect_mopd_teacher_ids. split.
  - intros E. destruct (collect_loop_sound _ _ _ _ E) as [F A]. split; [|done].
    eapply Forall2_impl; [exact F|]. by intros s tid [? _].
  - intros [F A]. destruct (collect_loop_complete c samples []) as [ids' E].
    + intros s [i L]%list_elem_of_lookup. destruct (Forall2_lookup_l _ _ _ _ _ F L) as (a & _ & R).
      by exists a.
    + intros s1 s2 a b [i L1]%list_elem_of_lookup [j L2]%list_elem_of_lookup Em R1 R2.
      destruct (Forall2_lookup_l _ _ _ _ _ F L1) as (a' & La & R1').
      destruct (Forall2_lookup_l _ _ _ _ _ F L2) as (b' & Lb & R2').
      destruct R1 as (?&?&<-), R1' as (?&?&<-), R2 as (?&?&<-), R2' as (?&?&<-).
      assert (Q := A _ _ _ _ _ _ L1 L2 La Lb Em). congruence.
    + rewrite E. f_equal. destruct (collect_loop_sound _ _ _ _ E) as [F' _]. clear -F F'.
      revert ids F. induction F' as [|s t' samples ids' [R _] F' IH]; intros ids F;
        inversion F as [|? t ? ? R' F2]; subst; [done|]. f_equal; [|by apply IH].
      destruct R as (?&?&<-), R' as (?&?&<-). congruence.
Qed.
End MopdFacts.

(** ** Witness *)

#[local] Instance w_mopd_text : PyText :=
  {| py_repr := fun _ => ""; py_parse_float := fun _ => None |}.

Definition w_mopd_raw : pyval :=
  PDict [("teachers", PDict [(" math ", PDict [("load", PStr "/ckpt/math"); ("ckpt_step", PInt 7)])]);
         ("datasets", PList [PDict [("path", PStr "/data/gsm8k.train.jsonl"); ("teacher_id", PStr "math");
                                    ("agent_mode", PStr "BlackBox")]])].

(** One teacher and one dataset, named after its file: its rows go to that teacher. *)
Lemma mopd_config_closed_witness : exists c d t,
  from_dict w_mopd_raw = Ok c /\ d ∈ datasets c /\ ds_name d = "gsm8k.train" /\
  route_mopd_teacher (Some (("split", PStr "train") :: ds_metadata d)) c = Ok t /\
  teacher_id t = "math".
Proof.
  let r := eval vm_compute in (from_dict w_mopd_raw) in
  match r with Ok ?c => assert (E : from_dict w_mopd_raw = Ok c) by (vm_compute; reflexivity) end.
  destruct (mopd_config_closed _ _ E) as (_ & _ & _ & D).
  edestruct D as (_ & _ & _ & _ & R); [left|].
  edestruct (R (("split", PStr "train") :: [("teacher_id", PStr "math")])) as (t & Et & It);
    [reflexivity|].
  eexists _, _, t. split; [exact E|]. split; [left|]. split; [reflexivity|].
  split; [exact Et|exact It].
Defined.

(** The check of a weight lets a NaN, which JSON input may contain, through. *)
Lemma nan_weight_accepted : exists c d,
  from_dict (PDict [("teachers", PDict [("math", PDict [("load", PStr "/ckpt/math")])]);
                    ("datasets", PList [PDict [("path", PStr "/data/gsm8k.jsonl"); ("teacher_id", PStr "math");
                                               ("weight", PFloat S754_nan); ("agent_mode", PStr "blackbox")]])]) =
    Ok c /\ d ∈ datasets c /\ ds_weight d = S754_nan.
Proof. eexists _, _. split; [vm_compute; reflexivity|]. split; [left|reflexivity]. Qed.
