(* ===== verification/Convert.v ===== *)
(** * Training batches ([dressage/rollout/convert_samples.py])

    The converter turns the flattened samples of one rollout into the columns of a
    training batch: it fills missing rollout ids, instantiates and zeroes loss masks,
    computes the loss denominators, and refuses batches that mix local values with
    transferred ones.  [config] is the teacher configuration at the configured path,
    [None] when there is no such path.  Layouts are dictionaries, as the samples are
    written.  An exception leaves the masks written so far behind; the model returns the
    exception. *)

From S2P Require Import Prelude.
From S2P Require Import PyFloat.
From S2P Require Import PyVal.
From S2P Require Import Transport.
From S2P Require Import Samples.
From S2P Require Import Rewards.
From S2P Require Import Mopd.

Local Open Scope string_scope.
Local Open Scope list_scope.
Local Open Scope py_scope.

(** A sample with the attributes only the converter reads. *)
Record TrainSample : Type := {
  base : Sample;
  train_metadata : option pyval;
  multimodal_train_inputs : option pyval;
  teacher_log_probs : option (list float) }.

Record ConvertArgs : Type := {
  ca_reward : RewardArgs;
  ca_sample : SampleArgs;
  global_batch_size : Z }.

(** [train_data]; optional columns are [None] when the key is absent. *)
Record TrainData : Type := {
  td_tokens : list (list pyval);
  td_response_lengths : list Z;
  td_rewards : list float;
  td_raw_reward : list pyval;
  td_truncated : list Z;
  td_sample_indices : list (option Z);
  td_rollout_ids : list Z;
  td_loss_masks : list (list Z);
  td_rollout_mask_sums : list pyval;
  td_round_number : option (list pyval);
  td_rollout_log_probs : option (list (option (list float)));
  td_routed_experts : option (list (option (list (list Z))));
  td_metadata : option (list (option pyval));
  td_multimodal_train_inputs : option (list (option pyval));
  td_prompt : option (list pyval);
  td_teacher_log_probs : option (list (option (list float))) }.

Definition _PROMPT_EQUAL_ESTIMATORS : list string := ["grpo"; "reinforce_plus_plus_baseline"].

(** ** Rollout ids *)

(** [while tmp_id in existed: tmp_id += 1]; more steps than ids are never needed. *)
Fixpoint next_free (fuel : nat) (tmp_id : Z) (existed : list Z) : Z :=
  match fuel with
  | O => tmp_id
  | S fuel' => if bool_decide (tmp_id ∈ existed) then next_free fuel' (tmp_id + 1) existed else tmp_id
  end.

Fixpoint fill_ids (tmp_id : Z) (existed : list Z) (ids : list (option Z)) : list Z :=
  match ids with
  | [] => []
  | Some r :: rest => r :: fill_ids tmp_id existed rest
  | None :: rest =>
      let t := next_free (S (length existed)) tmp_id existed in
      t :: fill_ids t (t :: existed) rest
  end.

Definition given_ids (ids : list (option Z)) : list Z := omap id ids.

Definition fill_rollout_ids (ids : list (option Z)) : list Z := fill_ids 0 (given_ids ids) ids.

(** ** Loss masks *)

Definition with_mask (s : TrainSample) (m : list Z) : TrainSample :=
  let b := base s in
  {| base := {| index := index b; group_index := group_index b; sp_session_id := sp_session_id b;
                tokens := tokens b; response := response b; response_length := response_length b;
                loss_mask := Some m; rollout_log_probs := rollout_log_probs b; reward := reward b;
                status := status b; remove_sample := remove_sample b; rollout_id := rollout_id b;
                metadata := metadata b; rollout_routed_experts := rollout_routed_experts b;
                sp_prompt := sp_prompt b; sp_label := sp_label b;
                sp_generate_function_path := sp_generate_function_path b |};
     train_metadata := train_metadata s; multimodal_train_inputs := multimodal_train_inputs s;
     teacher_log_probs := teacher_log_probs s |}.

(** [[x] * n] *)
Definition repeat_Z (x n : Z) : list Z := replicate (Z.to_nat n) x.

Definition mask_of (s : TrainSample) : result (list Z) :=
  let m := default (repeat_Z 1 (response_length (base s))) (loss_mask (base s)) in
  check! negb (Z.of_nat (length m) =? response_length (base s))%Z
    else AssertionError "loss mask length != response length" ;;
  Ok (if remove_sample (base s) then repeat_Z 0 (response_length (base s)) else m).

(** ** Denominators *)

(** One turn of the first loop of [_prompt_equal_rollout_mask_sums]. *)
Definition count_prompt `{PyText} (counts : list (string * Z)) (sm : TrainSample * list Z)
    : result (list (string * Z)) :=
  let '(s, m) := sm in
  let md := default [] (metadata (base s)) in
  let pid := pget md "instance_id" in
  check! is_pnone (pget md "parent_traj_id") else AssertionError "sample has no metadata['parent_traj_id']" ;;
  check! is_pnone pid else AssertionError "sample has no metadata['instance_id']" ;;
  if remove_sample (base s) then Ok counts
  else
    check! (match group_index (base s) with None => true | Some _ => false end)
      else AssertionError "real sample has group_index=None" ;;
    Ok (dset counts (py_str pid) (dget_def 0%Z counts (py_str pid) + zsum m)%Z).

Fixpoint count_prompts `{PyText} (counts : list (string * Z)) (l : list (TrainSample * list Z))
    : result (list (string * Z)) :=
  match l with
  | [] => Ok counts
  | x :: rest => let! c := count_prompt counts x in count_prompts c rest
  end.

(** [str(metadata.get("instance_id", ""))] *)
Definition prompt_id `{PyText} (s : TrainSample) : string :=
  py_str (dget_def (PStr "") (default [] (metadata (base s))) "instance_id").

(** [prompt_count / gbs], the quotient of the two as floats, exact for counts and batch
    sizes up to [2^53]. *)
Definition prompt_scale (count : nat) (gbs : Z) : float :=
  if ((0 <? gbs) && (0 <? Z.of_nat count))%Z then fdiv (f_of_Z (Z.of_nat count)) (f_of_Z gbs) else f0.

(** The live prompts are the keys of the counts: both are written together. *)
Definition _prompt_equal_rollout_mask_sums `{PyText} (gbs : Z) (samples : list TrainSample)
    (loss_masks : list (list Z)) : result (list float) :=
  let! counts := count_prompts [] (zip samples loss_masks) in
  let scale := prompt_scale (length (dkeys counts)) gbs in
  Ok (map (fun s => fmul (f_of_Z (dget_def 0%Z counts (prompt_id s))) scale) samples).

Definition rollout_total_mask (l : list (Z * Z)) : list (Z * Z) :=
  fold_left (fun d rm => dset d (fst rm) (dget_def 0%Z d (fst rm) + snd rm)%Z) l [].

Definition rollout_sums (ids : list Z) (mask_sums : list Z) : list Z :=
  map (dget_def 0%Z (rollout_total_mask (zip ids mask_sums))) ids.

(** ** Transferred fields *)

Definition tq_layout (s : TrainSample) : pyval :=
  pget (default [] (metadata (base s))) TQ_SAMPLE_REF_METADATA_KEY.

(** The fields of a layout dictionary. *)
Definition layout_fields (v : pyval) : result (list string) :=
  match v with
  | PNone => Ok []
  | PDict d => Ok (map fst d)
  | _ => Raise (TypeError "layouts must be a dictionary")
  end.

Definition missing_field (remote fields : list string) : bool :=
  existsb (fun f => negb (bool_decide (f ∈ fields))) remote.

(** ** The converter *)

Section Convert.
Context `{PyText}.
Variable py_sum : list float -> float.
Variable py_pow : float -> float -> float.

(** [sample.metadata and key in sample.metadata] *)
Definition has_meta (s : TrainSample) (k : string) : bool :=
  match metadata (base s) with Some m => phas m k | None => false end.

(** [sample.metadata[key]] *)
Definition meta_index (s : TrainSample) (k : string) : result pyval :=
  match metadata (base s) with
  | Some m => pindex m k
  | None => Raise (TypeError "'NoneType' object is not subscriptable")
  end.

(** [np.zeros((len(tokens) - 1, num_layers, topk))], one row per token. *)
Definition dummy_experts (a : SampleArgs) (s : TrainSample) : result (list (list Z)) :=
  match num_layers a, moe_router_topk a with
  | Some l, Some k =>
      let n := (Z.of_nat (length (tokens (base s))) - 1)%Z in
      check! ((n <? 0) || (l <? 0) || (k <? 0))%Z else ValueError "negative dimensions are not allowed" ;;
      Ok (replicate (Z.to_nat n) (replicate (Z.to_nat (l * k)) 0%Z))
  | _, _ => Raise (AttributeError "num_layers")
  end.

Definition replay_experts (a : SampleArgs) (s : TrainSample) : result (option (list (list Z))) :=
  match rollout_routed_experts (base s) with
  | Some v => Ok (Some v)
  | None => if remove_sample (base s) then let! z := dummy_experts a s in Ok (Some z) else Ok None
  end.

(** The columns that need the first sample. *)
Definition optional_columns (a : ConvertArgs) (remote : list string) (s0 : TrainSample)
    (samples : list TrainSample) (td : TrainData) : result TrainData :=
  let! rounds := (if has_meta s0 "round_number"
                  then let! l := mapM_res (fun s => meta_index s "round_number") samples in Ok (Some l)
                  else Ok None) in
  let lps := if negb (bool_decide ("full_logprobs" ∈ remote))
                && match rollout_log_probs (base s0) with Some _ => true | None => false end
             then Some (map (fun s => rollout_log_probs (base s)) samples) else None in
  let local_experts := negb (bool_decide ("routed_experts" ∈ remote)) in
  let! experts := (if use_rollout_routing_replay (ca_sample a) && local_experts
                   then let! l := mapM_res (replay_experts (ca_sample a)) samples in Ok (Some l)
                   else if local_experts
                        && match rollout_routed_experts (base s0) with Some _ => true | None => false end
                   then Ok (Some (map (fun s => rollout_routed_experts (base s)) samples))
                   else Ok None) in
  Ok {| td_tokens := td_tokens td; td_response_lengths := td_response_lengths td;
        td_rewards := td_rewards td; td_raw_reward := td_raw_reward td;
        td_truncated := td_truncated td; td_sample_indices := td_sample_indices td;
        td_rollout_ids := td_rollout_ids td; td_loss_masks := td_loss_masks td;
        td_rollout_mask_sums := td_rollout_mask_sums td;
        td_round_number := rounds; td_rollout_log_probs := lps; td_routed_experts := experts;
        td_metadata := match train_metadata s0 with
                       | Some _ => Some (map train_metadata samples)
                       | None => None
                       end;
        td_multimodal_train_inputs :=
          if existsb (fun s => match multimodal_train_inputs s with Some _ => true | None => false end) samples
          then Some (map multimodal_train_inputs samples) else None;
        td_prompt := td_prompt td; td_teacher_log_probs := td_teacher_log_probs td |}.

(** [prompt] and [teacher_log_probs]. *)
Definition prompt_columns (config : option (result MOPDConfig)) (remote : list string)
    (s0 : TrainSample) (samples : list TrainSample)
    : result (option (list pyval) * option (list (option (list float)))) :=
  match remote, config with
  | _ :: _, Some _ => Raise (ValueError "TransferQueue and MOPD cannot share train_data['prompt']")
  | _ :: _, None => Ok (Some (map tq_layout samples), None)
  | [], Some loaded =>
      let! c := loaded in
      let! ids := collect_mopd_teacher_ids (map base samples) c in
      Ok (Some (map PStr ids), None)
  | [], None =>
      Ok (None, match teacher_log_probs s0 with
                | Some _ => Some (map teacher_log_probs samples)
                | None => None
                end)
  end.

Definition raw_reward_column (samples : list TrainSample) (raw : list float) : list pyval :=
  if existsb (fun s => has_meta s "raw_reward") samples
  then map (fun s => match metadata (base s) with
                     | Some m => dget_def (reward (base s)) m "raw_reward"
                     | None => reward (base s)
                     end) samples
  else map PFloat raw.

(** The transferred fields of the batch, refused when a live sample lacks one. *)
Definition remote_fields (samples : list TrainSample) : result (list string) :=
  let! fields := mapM_res (fun s => layout_fields (tq_layout s)) samples in
  let remote := concat fields in
  check! existsb (fun sf => missing_field remote (snd sf) && negb (remove_sample (base (fst sf))))
                 (zip samples fields)
    else ValueError "TransferQueue fields cannot mix actual values and layouts in one batch" ;;
  Ok remote.

Definition mask_sums_column (a : ConvertArgs) (samples : list TrainSample) (ids : list Z)
    (masks : list (list Z)) : result (list pyval) :=
  if bool_decide (advantage_estimator (ca_reward a) ∈ _PROMPT_EQUAL_ESTIMATORS)
  then let! l := _prompt_equal_rollout_mask_sums (global_batch_size a) samples masks in Ok (map PFloat l)
  else Ok (map PInt (rollout_sums ids (map zsum masks))).

(** Returns the columns and the samples with their masks written back. *)
Definition convert_samples_to_train_data (a : ConvertArgs) (config : option (result MOPDConfig))
    (samples : list TrainSample) : result (TrainData * list TrainSample) :=
  let! rr := reward_post_process py_sum py_pow (ca_reward a) (map base samples) in
  let '(raw, rewards) := rr in
  check! negb (Nat.eqb (length raw) (length samples)) else AssertionError "raw_rewards" ;;
  check! negb (Nat.eqb (length rewards) (length samples)) else AssertionError "rewards" ;;
  let ids := fill_rollout_ids (map (fun s => rollout_id (base s)) samples) in
  let! remote := remote_fields samples in
  let! masks := mapM_res mask_of samples in
  let samples' := zip_with with_mask samples masks in
  let! sums := mask_sums_column a samples' ids masks in
  match samples' with
  | [] => Raise (IndexError "list index out of range")
  | s0 :: _ =>
      let td := {| td_tokens := map (fun s => tokens (base s)) samples';
                   td_response_lengths := map (fun s => response_length (base s)) samples';
                   td_rewards := rewards; td_raw_reward := raw_reward_column samples' raw;
                   td_truncated := map (fun s => if String.eqb (status (base s)) "truncated" then 1%Z else 0%Z) samples';
                   td_sample_indices := map (fun s => index (base s)) samples';
                   td_rollout_ids := ids; td_loss_masks := masks; td_rollout_mask_sums := sums;
                   td_round_number := None; td_rollout_log_probs := None; td_routed_experts := None;
                   td_metadata := None; td_multimodal_train_inputs := None; td_prompt := None;
                   td_teacher_log_probs := None |} in
      let! td := optional_columns a remote s0 samples' td in
      let! pt := prompt_columns config remote s0 samples' in
      Ok ({| td_tokens := td_tokens td; td_response_lengths := td_response_lengths td;
             td_rewards := td_rewards td; td_raw_reward := td_raw_reward td;
             td_truncated := td_truncated td; td_sample_indices := td_sample_indices td;
             td_rollout_ids := td_rollout_ids td; td_loss_masks := td_loss_masks td;
             td_rollout_mask_sums := td_rollout_mask_sums td; td_round_number := td_round_number td;
             td_rollout_log_probs := td_rollout_log_probs td; td_routed_experts := td_routed_experts td;
             td_metadata := td_metadata td; td_multimodal_train_inputs := td_multimodal_train_inputs td;
             td_prompt := fst pt; td_teacher_log_probs := snd pt |}, samples')
  end.
End Convert.

(** ** Filling rollout ids *)

Lemma next_free_search fuel existed : forall t,
  let r := next_free fuel t existed in
  (t <= r)%Z /\ (forall u, (t <= u < r)%Z -> u ∈ existed) /\
  (r ∉ existed \/ r = (t + Z.of_nat fuel)%Z).
Proof.
  induction fuel as [|fuel IH]; intros t; simpl; [split; [lia|]; split; [lia|right; lia]|].
  destruct (bool_decide_reflect (t ∈ existed)) as [I|N]; [|split; [lia|]; split; [lia|by left]].
  destruct (IH (t + 1)%Z) as (A & B & C). split; [lia|]. split.
  - intros u Hu. destruct (decide (u = t)) as [->|]; [done|]. apply B. lia.
  - destruct C as [C|C]; [by left|]. right. lia.
Qed.

(** Enough fuel: the search cannot pass more numbers than there are ids. *)
Lemma next_free_spec t existed :
  let r := next_free (S (length existed)) t existed in
  (t <= r)%Z /\ (forall u, (t <= u < r)%Z -> u ∈ existed) /\ r ∉ existed.
Proof.
  destruct (next_free_search (S (length existed)) existed t) as (A & B & C).
  split; [done|]. split; [done|]. destruct C as [C|C]; [done|]. exfalso.
  assert (S : seqZ t (Z.of_nat (S (length existed))) ⊆+ existed).
  { apply NoDup_submseteq; [apply NoDup_seqZ|]. intros u Hu%elem_of_seqZ. apply B. lia. }
  apply submseteq_length in S. rewrite length_seqZ in S. lia.
Qed.

Lemma fill_ids_spec ids : forall tmp existed,
  (forall r, r ∈ given_ids ids -> r ∈ existed) ->
  let out := fill_ids tmp existed ids in
  length out = length ids /\
  (forall i r, ids !! i = Some (Some r) -> out !! i = Some r) /\
  (forall i, ids !! i = Some None -> exists t, out !! i = Some t /\ (tmp <= t)%Z /\ ~ (t ∈ existed) /\
     (forall j, j <> i -> out !! j <> Some t) /\
     (forall u, (tmp <= u < t)%Z -> u ∈ existed \/ u ∈ out)).
Proof.
  induction ids as [|[r|] ids IH]; intros tmp existed G; simpl in *.
  - split; [done|]. by split; intros i; rewrite lookup_nil.
  - unfold given_ids in G. simpl in G.
    destruct (IH tmp existed) as (L & K & F); [intros; apply G; by right|].
    split; [by rewrite L|]. split; [intros [|i]; simpl; [by intros ? [= ->]|apply K]|].
    intros [|i] E; [done|]. simpl in E. destruct (F i E) as (t & Et & Lt & Nt & Ut & Ht).
    exists t. split; [done|]. split; [done|]. split; [done|]. split.
    + intros [|j] D; simpl; [|apply Ut; lia]. intros [= ->]. apply Nt, G. by left.
    + intros u Hu. destruct (Ht u Hu); [by left|right; by right].
  - change (given_ids (None :: ids)) with (given_ids ids) in G.
    destruct (next_free_spec tmp existed) as (A & B & C). simpl in A, B, C.
    set (t0 := if bool_decide (tmp ∈ existed) then _ else _) in *.
    destruct (IH t0 (t0 :: existed)) as (L & K & F); [intros; right; by apply G|].
    split; [by rewrite L|]. split; [by intros [|i]; simpl; [|apply K]|].
    intros [|i] E; simpl in *.
    + exists t0. split; [done|]. split; [done|]. split; [done|]. split; [|intros u Hu; left; by apply B].
      intros [|j] D; [done|]. simpl. intros Ej.
      assert (Hj : (j < length ids)%nat) by (rewrite <- L; by eapply lookup_lt_Some).
      destruct (lookup_lt_is_Some_2 ids j Hj) as [[r|] Er].
      * assert (r = t0) as -> by (pose proof (K _ _ Er); congruence).
        apply C, G. apply list_elem_of_omap. exists (Some t0). split; [by eapply list_elem_of_lookup_2|done].
      * destruct (F j Er) as (t & Et & _ & Nt & _). assert (t = t0) as -> by congruence. apply Nt. by left.
    + destruct (F i E) as (t & Et & Lt & Nt & Ut & Ht).
      exists t. split; [done|]. split; [lia|]. split; [set_solver|]. split.
      * intros [|j] D; simpl; [intros [= ->]; apply Nt; by left|apply Ut; lia].
      * intros u Hu. destruct (decide (u < t0)%Z); [left; apply B; lia|].
        destruct (Ht u ltac:(lia)) as [[->|]%elem_of_cons|]; [right; by left|by left|right; by right].
Qed.

(** Missing rollout ids are filled without collisions: a given id is kept where
    it is, every filled id is non-negative, differs from all given ids and from every
    other id of the batch, and no smaller non-negative id was left unused. *)
Theorem rollout_ids_filled ids :
  length (fill_rollout_ids ids) = length ids /\
  (forall i r, ids !! i = Some (Some r) -> fill_rollout_ids ids !! i = Some r) /\
  (forall i, ids !! i = Some None -> exists t, fill_rollout_ids ids !! i = Some t /\ (0 <= t)%Z /\
     (t ∉ given_ids ids) /\ (forall j, j <> i -> fill_rollout_ids ids !! j <> Some t) /\
     (forall u, (0 <= u < t)%Z -> u ∈ fill_rollout_ids ids)).
Proof.
  unfold fill_rollout_ids. destruct (fill_ids_spec ids 0 (given_ids ids)) as (L & K & F); [done|].
  split; [done|]. split; [done|]. intros i E. destruct (F i E) as (t & Et & Lt & Nt & Ut & Ht).
  exists t. repeat (split; [done|]). intros u Hu. destruct (Ht u Hu) as [I|]; [|done].
  apply list_elem_of_omap in I as ([r|] & [j Lj]%list_elem_of_lookup & [= ->]).
  eapply list_elem_of_lookup_2, K, Lj.
Qed.

(** ** Sums by key *)

Section Accumulate.
Context {K X : Type} `{EqDecision K} (key : X -> K) (value : X -> Z).

Definition accumulate (l : list X) (d : list (K * Z)) : list (K * Z) :=
  fold_left (fun d x => dset d (key x) (dget_def 0%Z d (key x) + value x)%Z) l d.

Lemma accumulate_sum l : forall d q,
  dget_def 0%Z (accumulate l d) q =
  (dget_def 0%Z d q + zsum (map value (List.filter (fun x => bool_decide (key x = q)) l)))%Z.
Proof.
  induction l as [|x l IH]; intros d q; simpl; [cbn; lia|]. unfold accumulate in *. simpl. rewrite IH.
  case_bool_decide as E.
  - rewrite map_cons, zsum_cons. subst q. unfold dget_def at 1. rewrite dget_dset_eq. simpl. lia.
  - unfold dget_def at 1 3. by rewrite dget_dset_ne.
Qed.

Lemma accumulate_keys l : forall d, NoDup (dkeys d) ->
  NoDup (dkeys (accumulate l d)) /\
  forall q, q ∈ dkeys (accumulate l d) <-> q ∈ dkeys d \/ q ∈ map key l.
Proof.
  induction l as [|x l IH]; intros d N; simpl; [split; [done|set_solver]|].
  destruct (IH (dset d (key x) (dget_def 0%Z d (key x) + value x)%Z)) as [N' E'];
    [by apply dset_NoDup|]. split; [done|]. intros q. unfold accumulate in *. simpl. rewrite E'.
  rewrite dkeys_dset. case_decide; set_solver.
Qed.

Lemma accumulate_length l : length (dkeys (accumulate l [])) = length (remove_dups (map key l)).
Proof.
  apply Permutation_length. destruct (accumulate_keys l []) as [N E]; [constructor|].
  apply NoDup_Permutation; [done|apply NoDup_remove_dups|]. intros q.
  rewrite E, elem_of_remove_dups. set_solver.
Qed.
End Accumulate.

(** ** Denominators *)

Lemma rollout_total_mask_eq l : rollout_total_mask l = accumulate fst snd l [].
Proof. done. Qed.

Section ConvertFacts.
Context `{PyText}.

Definition is_live (sm : TrainSample * list Z) : bool := negb (remove_sample (base (fst sm))).

(** What the first loop of [_prompt_equal_rollout_mask_sums] asserts of a sample. *)
Definition prompt_checked (s : TrainSample) : Prop :=
  pget (default [] (metadata (base s))) "parent_traj_id" <> PNone /\
  pget (default [] (metadata (base s))) "instance_id" <> PNone /\
  (remove_sample (base s) = false -> is_Some (group_index (base s))).

Lemma count_prompts_eq l : forall counts out,
  count_prompts counts l = Ok out ->
  out = accumulate (fun sm => prompt_id (fst sm)) (fun sm => zsum (snd sm)) (List.filter is_live l) counts /\
  Forall (fun sm => prompt_checked (fst sm)) l.
Proof.
  induction l as [|[s m] l IH]; intros counts out E; cbn [count_prompts] in E; [by injection E as <-|].
  destruct (count_prompt counts (s, m)) as [c|] eqn:E1; [|done]. cbn [res_bind] in E.
  destruct (IH _ _ E) as [-> F]. unfold count_prompt in E1.
  destruct (is_pnone (pget _ "parent_traj_id")) eqn:P1; [done|]. cbn [raise_if res_bind] in E1.
  destruct (is_pnone (pget _ "instance_id")) eqn:P2; [done|]. cbn [raise_if res_bind] in E1.
  assert (Ep : py_str (pget (default [] (metadata (base s))) "instance_id") = prompt_id s).
  { unfold prompt_id, pget, dget_def in *. by destruct (dget _ "instance_id"). }
  assert (C1 : pget (default [] (metadata (base s))) "parent_traj_id" <> PNone) by (by intros Q; rewrite Q in P1).
  assert (C2 : pget (default [] (metadata (base s))) "instance_id" <> PNone) by (by intros Q; rewrite Q in P2).
  cbn [List.filter]. change (is_live (s, m)) with (negb (remove_sample (base s))). destruct (remove_sample (base s)) eqn:R; cbn [negb].
  - injection E1 as <-. split; [done|]. constructor; [|done]. split; [done|]. split; [done|]. cbn [fst]. by rewrite R.
  - destruct (group_index (base s)) eqn:Gi; [|done]. injection E1 as <-. rewrite Ep. split; [done|].
    constructor; [|done]. split; [done|]. split; [done|]. intros _. cbn [fst]. by rewrite Gi.
Qed.

(** Live tokens of one prompt, and the number of live prompts. *)
Definition prompt_tokens (l : list (TrainSample * list Z)) (p : string) : Z :=
  zsum (map (fun sm => zsum (snd sm))
            (List.filter (fun sm => bool_decide (prompt_id (fst sm) = p)) (List.filter is_live l))).

Definition live_prompts (l : list (TrainSample * list Z)) : nat :=
  length (remove_dups (map (fun sm => prompt_id (fst sm)) (List.filter is_live l))).

(** Tokens of one rollout. *)
Definition rollout_tokens (ids : list Z) (masks : list (list Z)) (r : Z) : Z :=
  zsum (map snd (List.filter (fun im => bool_decide (fst im = r)) (zip ids (map zsum masks)))).

Lemma prompt_equal_eq gbs samples masks out :
  _prompt_equal_rollout_mask_sums gbs samples masks = Ok out ->
  out = map (fun s => fmul (f_of_Z (prompt_tokens (zip samples masks) (prompt_id s)))
                           (prompt_scale (live_prompts (zip samples masks)) gbs)) samples.
Proof.
  unfold _prompt_equal_rollout_mask_sums. destruct (count_prompts [] _) as [c|] eqn:E; [|done].
  intros [= <-]. destruct (count_prompts_eq _ _ _ E) as [-> _]. rewrite accumulate_length.
  apply map_ext. intros s. by rewrite accumulate_sum.
Qed.

Lemma rollout_sums_eq ids masks :
  rollout_sums ids (map zsum masks) = map (rollout_tokens ids masks) ids.
Proof.
  unfold rollout_sums. apply map_ext. intros r.
  by rewrite rollout_total_mask_eq, accumulate_sum.
Qed.


(** ** The converter *)

Variable py_sum : list float -> float.
Variable py_pow : float -> float -> float.

Lemma convert_inv a config samples td samples' :
  convert_samples_to_train_data py_sum py_pow a config samples = Ok (td, samples') ->
  exists raw remote masks s0 rest,
    length raw = length samples /\ length (td_rewards td) = length samples /\
    remote_fields samples = Ok remote /\ mapM_res mask_of samples = Ok masks /\
    samples' = zip_with with_mask samples masks /\ samples' = s0 :: rest /\
    td_rollout_ids td = fill_rollout_ids (map (fun s => rollout_id (base s)) samples) /\
    mask_sums_column a samples' (td_rollout_ids td) masks = Ok (td_rollout_mask_sums td) /\
    td_tokens td = map (fun s => tokens (base s)) samples' /\
    td_raw_reward td = raw_reward_column samples' raw /\ td_loss_masks td = masks /\
    prompt_columns config remote s0 samples' = Ok (td_prompt td, td_teacher_log_probs td).
Proof.
  unfold convert_samples_to_train_data. destruct (reward_post_process _ _ _ _) as [[raw rewards]|]; [|done].
  cbn [res_bind]. destruct (Nat.eqb_spec (length raw) (length samples)) as [Lr|]; [|done].
  cbn [negb raise_if res_bind].
  destruct (Nat.eqb_spec (length rewards) (length samples)) as [Lw|]; [|done]. cbn [negb raise_if res_bind].
  destruct (remote_fields samples) as [remote|] eqn:Er; [|done]. cbn [res_bind].
  destruct (mapM_res mask_of samples) as [masks|] eqn:Em; [|done]. cbn [res_bind].
  destruct (mask_sums_column _ _ _ _) as [sums|] eqn:Es; [|done]. cbn [res_bind].
  destruct (zip_with with_mask samples masks) as [|s0 rest] eqn:Ez; [done|].
  destruct (optional_columns _ _ _ _ _) as [td0|] eqn:Eo; [|done]. cbn [res_bind].
  destruct (prompt_columns config remote s0 (s0 :: rest)) as [[p t]|] eqn:Ep; [|done]. intros [= <- <-].
  unfold optional_columns in Eo.
  destruct (if has_meta s0 "round_number" then _ else _) as [rounds|]; [|done]. cbn [res_bind] in Eo.
  destruct (if use_rollout_routing_replay _ && _ then _ else _) as [ex|]; [|done]. cbn [res_bind] in Eo.
  injection Eo as <-. cbn. by exists raw, remote, masks, s0, rest.
Qed.

Lemma mask_of_spec s m :
  mask_of s = Ok m ->
  Z.of_nat (length m) = response_length (base s) /\
  (if remove_sample (base s) then Forall (eq 0%Z) m
   else m = default (repeat_Z 1 (response_length (base s))) (loss_mask (base s))).
Proof.
  unfold mask_of. destruct (Z.eqb_spec (Z.of_nat (length (default (repeat_Z 1 (response_length (base s)))
    (loss_mask (base s))))) (response_length (base s))) as [L|]; [|done].
  cbn [negb raise_if res_bind]. intros [= <-]. destruct (remove_sample (base s)); [|done].
  unfold repeat_Z. rewrite length_replicate. split; [lia|]. by apply Forall_replicate.
Qed.

Lemma remote_fields_spec samples remote :
  remote_fields samples = Ok remote ->
  exists fields, Forall2 (fun s fs => layout_fields (tq_layout s) = Ok fs) samples fields /\
    remote = concat fields /\
    forall i s fs, samples !! i = Some s -> fields !! i = Some fs -> remove_sample (base s) = false ->
      forall f, f ∈ remote -> f ∈ fs.
Proof.
  unfold remote_fields. destruct (mapM_res _ samples) as [fields|] eqn:Ef; [|done]. cbn [res_bind].
  destruct (existsb _ _) eqn:Ex; [done|]. intros [= <-]. exists fields.
  split; [by apply mapM_res_Forall2|]. split; [done|]. intros i s fs Ls Lf R f If.
  destruct (decide (f ∈ fs)) as [|N]; [done|]. exfalso. rewrite <- not_true_iff_false in Ex. apply Ex.
  apply existsb_exists. exists (s, fs). split.
  - apply list_elem_of_In, list_elem_of_lookup. exists i. by rewrite lookup_zip_with, Ls, Lf.
  - cbn [fst snd]. rewrite R, andb_true_r. apply existsb_exists. exists f.
    split; [by apply list_elem_of_In|]. by rewrite bool_decide_false.
Qed.

(** Loss denominators.  For the estimators that weigh prompts equally the
    denominator of a sample is the number of live loss tokens of its prompt times the
    number of live prompts over the global batch size; otherwise it is the number of
    loss tokens of its whole rollout.  Removed samples count for neither. *)
Theorem loss_denominators a config samples td samples' :
  convert_samples_to_train_data py_sum py_pow a config samples = Ok (td, samples') ->
  td_rollout_mask_sums td =
    (if bool_decide (advantage_estimator (ca_reward a) ∈ _PROMPT_EQUAL_ESTIMATORS)
     then map (fun s => PFloat (fmul (f_of_Z (prompt_tokens (zip samples' (td_loss_masks td)) (prompt_id s)))
                                     (prompt_scale (live_prompts (zip samples' (td_loss_masks td)))
                                                   (global_batch_size a)))) samples'
     else map (fun r => PInt (rollout_tokens (td_rollout_ids td) (td_loss_masks td) r)) (td_rollout_ids td)) /\
  (forall i s, samples !! i = Some s -> remove_sample (base s) = true ->
     exists m, td_loss_masks td !! i = Some m /\ zsum m = 0%Z).
Proof.
  intros E. destruct (convert_inv _ _ _ _ _ E) as
    (raw & remote & masks & s0 & rest & _ & _ & _ & Em & _ & _ & _ & Es & _ & _ & -> & _). split.
  - unfold mask_sums_column in Es. destruct (bool_decide _).
    + destruct (_prompt_equal_rollout_mask_sums _ _ _) as [l|] eqn:El; [|done].
      cbn [res_bind] in Es. injection Es as <-. rewrite (prompt_equal_eq _ _ _ _ El). by rewrite map_map.
    + injection Es as <-. by rewrite rollout_sums_eq, map_map.
  - intros i s Ls R. apply mapM_res_Forall2 in Em.
    destruct (Forall2_lookup_l _ _ _ _ _ Em Ls) as (m & Lm & M). exists m. split; [done|].
    apply mask_of_spec in M as [_ M]. rewrite R in M. clear -M.
    induction M as [|? m <- M IH]; [done|]. by rewrite zsum_cons, IH.
Qed.

(** Column alignment.  The columns of a training batch all have one entry per
    sample; a loss mask has the sample's response length, is zero for a removed sample
    and otherwise the sample's own mask, or all ones when it had none; rollout ids are
    the filled ids; and when some sample carries transferred fields, the layouts are
    forwarded and every live sample has all of those fields. *)
Theorem train_columns_aligned a config samples td samples' :
  convert_samples_to_train_data py_sum py_pow a config samples = Ok (td, samples') ->
  length (td_tokens td) = length samples /\ length (td_rewards td) = length samples /\
  length (td_raw_reward td) = length samples /\ length (td_rollout_ids td) = length samples /\
  length (td_loss_masks td) = length samples /\ length (td_rollout_mask_sums td) = length samples /\
  td_rollout_ids td = fill_rollout_ids (map (fun s => rollout_id (base s)) samples) /\
  (forall i s, samples !! i = Some s -> exists m, td_loss_masks td !! i = Some m /\
     samples' !! i = Some (with_mask s m) /\ Z.of_nat (length m) = response_length (base s) /\
     (if remove_sample (base s) then Forall (eq 0%Z) m
      else m = default (repeat_Z 1 (response_length (base s))) (loss_mask (base s)))) /\
  (forall s d f, s ∈ samples -> tq_layout s = PDict d -> f ∈ dkeys d ->
     config = None /\ td_prompt td = Some (map tq_layout samples') /\
     forall s', s' ∈ samples -> remove_sample (base s') = false ->
       exists d', tq_layout s' = PDict d' /\ f ∈ dkeys d').
Proof.
  intros E. destruct (convert_inv _ _ _ _ _ E) as
    (raw & remote & masks & s0 & rest & Lr & Lw & Er & Em & Es' & Ec & Ei & Es & Et & Erw & Elm & Ep).
  apply mapM_res_length in Em as Lm.
  assert (Ls' : length samples' = length samples) by (rewrite Es', length_zip_with; lia).
  assert (Li : length (td_rollout_ids td) = length samples).
  { rewrite Ei. unfold fill_rollout_ids. etrans; [eapply fill_ids_spec; done|]. by rewrite length_map. }
  rewrite Et, Erw, Elm, Li, length_map. split; [done|]. split; [done|].
  split; [unfold raw_reward_column; destruct (existsb _ _); rewrite length_map; congruence|].
  split; [done|]. split; [done|]. split.
  { unfold mask_sums_column in Es. destruct (bool_decide _).
    - destruct (_prompt_equal_rollout_mask_sums _ _ _) as [l|] eqn:El; [|done].
      cbn [res_bind] in Es. injection Es as <-. rewrite (prompt_equal_eq _ _ _ _ El). by rewrite !length_map.
    - injection Es as <-. unfold rollout_sums. by rewrite !length_map. }
  split; [done|]. split.
  - intros i s Ls. assert (F := proj1 (mapM_res_Forall2 _ _ _) Em).
    destruct (Forall2_lookup_l _ _ _ _ _ F Ls) as (m & L & M). exists m. split; [done|].
    split; [by rewrite Es', lookup_zip_with, Ls, L|]. by apply mask_of_spec.
  - intros s d f [i Ls]%list_elem_of_lookup El If.
    destruct (remote_fields_spec _ _ Er) as (fields & F & -> & C).
    destruct (Forall2_lookup_l _ _ _ _ _ F Ls) as (fs & Lf & Efs). rewrite El in Efs. injection Efs as <-.
    assert (Ir : f ∈ concat fields).
    { apply list_elem_of_In, in_concat. exists (dkeys d). split; apply list_elem_of_In; [|done].
      by eapply list_elem_of_lookup_2. }
    assert (P : config = None /\ td_prompt td = Some (map tq_layout samples')).
    { unfold prompt_columns in Ep. destruct (concat fields); [by apply elem_of_nil in Ir|].
      destruct config; [done|]. by injection Ep as <- _. }
    destruct P as [-> ->]. split; [done|]. split; [done|]. intros s' [j Lj]%list_elem_of_lookup R.
    destruct (Forall2_lookup_l _ _ _ _ _ F Lj) as (fs' & Lf' & Efs').
    assert (If' := C j s' fs' Lj Lf' R f Ir).
    destruct (tq_layout s') as [| | | | | |d']; try done; injection Efs' as <-; [by apply elem_of_nil in If'|].
    by exists d'.
Qed.
End ConvertFacts.

(** ** Witnesses *)

#[local] Instance w_conv_text : PyText :=
  {| py_repr := fun _ => ""; py_parse_float := fun _ => None |}.

Definition w_train (traj inst : string) (mask : option (list Z)) (dead : bool) (rid : option Z) : TrainSample :=
  {| base := {| index := Some 0%Z; group_index := Some 0%Z; sp_session_id := None;
                tokens := [PInt 1; PInt 2; PInt 3]; response := ""; response_length := 2;
                loss_mask := mask; rollout_log_probs := None; reward := PFloat f1;
                status := "completed"; remove_sample := dead; rollout_id := rid;
                metadata := Some ([("parent_traj_id", PStr traj); ("instance_id", PStr inst)] ++
                                  if dead then [] else [(TQ_SAMPLE_REF_METADATA_KEY, PDict [("full_logprobs", PInt 0)])]);
                rollout_routed_experts := None; sp_prompt := PNone; sp_label := None;
                sp_generate_function_path := None |};
     train_metadata := None; multimodal_train_inputs := None; teacher_log_probs := None |}.

Definition w_batch : list TrainSample :=
  [w_train "a" "p" None false (Some 1%Z); w_train "b" "p" (Some [1; 0]%Z) false None;
   w_train "c" "q" (Some [0; 1]%Z) false None; w_train "d" "q" None true (Some 0%Z)].

Definition w_conv_args (estimator : string) : ConvertArgs :=
  {| ca_reward := {| reward_key := None; advantage_estimator := estimator;
                     rewards_normalization := true; grpo_std_normalization := false |};
     ca_sample := {| max_tokens_per_gpu := None; context_parallel_size := None; cp_size := None;
                     num_layers := None; moe_router_topk := None; use_rollout_routing_replay := false |};
     global_batch_size := 4 |}.

Definition w_convert (estimator : string) : result (TrainData * list TrainSample) :=
  convert_samples_to_train_data fsum (fun x _ => x) (w_conv_args estimator) None w_batch.

(** Two prompts with 3 and 1 live tokens in a batch of 4: the denominators are
    3 * 2/4 and 1 * 2/4. *)
Lemma loss_denominators_witness : exists td samples',
  w_convert "grpo" = Ok (td, samples') /\
  td_rollout_mask_sums td =
    map PFloat [fdiv (f_of_Z 3) (f_of_Z 2); fdiv (f_of_Z 3) (f_of_Z 2);
                fdiv (f_of_Z 1) (f_of_Z 2); fdiv (f_of_Z 1) (f_of_Z 2)].
Proof.
  let r := eval vm_compute in (w_convert "grpo") in
  match r with Ok (?td, ?s) =>
    assert (E : w_convert "grpo" = Ok (td, s)) by (vm_compute; reflexivity); exists td, s end.
  split; [exact E|]. destruct (loss_denominators _ _ _ _ _ _ _ E) as [D _].
  rewrite D. vm_compute. reflexivity.
Defined.

(** Rollout ids 1 and 0 are taken, so 2 and 3 are filled in; the layouts go to [prompt]. *)
Lemma train_columns_aligned_witness : exists td samples',
  w_convert "ppo" = Ok (td, samples') /\ td_rollout_ids td = [1; 2; 3; 0]%Z /\
  length (td_loss_masks td) = 4%nat /\ td_prompt td = Some (map tq_layout samples').
Proof.
  let r := eval vm_compute in (w_convert "ppo") in
  match r with Ok (?td, ?s) =>
    assert (E : w_convert "ppo" = Ok (td, s)) by (vm_compute; reflexivity); exists td, s end.
  destruct (train_columns_aligned _ _ _ _ _ _ _ E) as (_ & _ & _ & _ & L & _ & I & _ & F).
  split; [exact E|]. split; [rewrite I; vm_compute; reflexivity|]. split; [exact L|].
  edestruct F as (_ & P & _); [left|reflexivity|left|exact P].
Defined.
