(* ===== verification/DataSource.v ===== *)
(** * The text-first data source ([dressage/rollout/data_source.py])

    [DressageDataSource] hands out prompt groups: groups returned for retry first, in
    the order they came back, then fresh rows, each cloned [n_samples_per_prompt]
    times.  Rows come from one JSONL file, epoch after epoch, or from a weighted
    mixture of files.  [prompt_lines path] are the lines of a file, [shuffle seed rows]
    is what [random.shuffle] seeded with [seed] makes of the rows, [py_sum] is Python's
    [sum] of floats; [parent_init] and [parent_get_samples] are the methods inherited
    from slime, which only multimodal prompts use.  Group counts are not negative. *)

From S2P Require Import Prelude.
From S2P Require Import PyFloat.
From S2P Require Import PyVal.
From S2P Require Import Json.
From S2P Require Import Samples.
From S2P Require Import Mopd.

Local Open Scope string_scope.
Local Open Scope list_scope.
Local Open Scope py_scope.

Record DataArgs : Type := {
  input_key : option string;
  label_key : option string;
  metadata_key : string;
  multimodal_keys : bool;
  prompt_data : option string;
  mixture_datasets : list MOPDDataset;
  rollout_shuffle : bool;
  rollout_seed : Z;
  n_samples_per_prompt : Z;
  sglang_enable_deterministic_inference : bool }.

(** The parallel lists [_mixture_*]. *)
Record Mixture : Type := {
  mixture_samples : list (list Sample);
  mixture_weights : list float;
  mixture_current : list float;
  mixture_offsets : list nat;
  mixture_epochs : list Z }.

Record DressageDataSource : Type := {
  buffer : list (list Sample);
  epoch_id : Z;
  sample_group_index : Z;
  sample_index : Z;
  sample_offset : nat;
  source_samples : option (list Sample);
  mixture : option Mixture }.

Definition with_buffer (b : list (list Sample)) (s : DressageDataSource) : DressageDataSource :=
  {| buffer := b; epoch_id := epoch_id s; sample_group_index := sample_group_index s;
     sample_index := sample_index s; sample_offset := sample_offset s;
     source_samples := source_samples s; mixture := mixture s |}.

Definition with_epoch (e : Z) (off : nat) (rows : option (list Sample)) (s : DressageDataSource)
    : DressageDataSource :=
  {| buffer := buffer s; epoch_id := e; sample_group_index := sample_group_index s;
     sample_index := sample_index s; sample_offset := off; source_samples := rows;
     mixture := mixture s |}.

Definition with_mixture (m : Mixture) (s : DressageDataSource) : DressageDataSource :=
  {| buffer := buffer s; epoch_id := epoch_id s; sample_group_index := sample_group_index s;
     sample_index := sample_index s; sample_offset := sample_offset s;
     source_samples := source_samples s; mixture := Some m |}.

Definition with_indices (gi si : Z) (s : DressageDataSource) : DressageDataSource :=
  {| buffer := buffer s; epoch_id := epoch_id s; sample_group_index := gi; sample_index := si;
     sample_offset := sample_offset s; source_samples := source_samples s; mixture := mixture s |}.

Definition source_len (s : DressageDataSource) : nat :=
  match mixture s, source_samples s with
  | Some m, _ => sum_list (map length (mixture_samples m))
  | None, Some rows => length rows
  | None, None => 0
  end.

Section Load.
Context `{PyText}.
Variable prompt_lines : string -> list string.

(** ** Loading rows *)

(** [_read_jsonl]: blank and undecodable lines are skipped. *)
Definition _read_jsonl (path : string) : list pyval :=
  omap (fun line => let l := strip line in if String.eqb l "" then None else json_loads l)
       (prompt_lines path).

(** [dict(value or {})]; only dictionaries and lists of pairs with string keys convert. *)
Fixpoint dict_of_pairs (l : list pyval) (d : dict) : result dict :=
  match l with
  | [] => Ok d
  | PList [PStr k; v] :: rest => dict_of_pairs rest (dset d k v)
  | _ => Raise (ValueError "dictionary update sequence")
  end.

Definition py_dict (v : pyval) : result dict :=
  if negb (py_truth v) then Ok []
  else match v with
       | PDict d => Ok d
       | PList l => dict_of_pairs l []
       | _ => Raise (TypeError "object is not iterable")
       end.

Definition passthrough_keys : list string :=
  ["agent_mode"; "env_type"; "env_args"; "tool_set"; "agent_id"; "reward_fn"].

(** [if key in data and key not in meta: meta[key] = data[key]] *)
Definition pass_key (data meta : dict) (key : string) : dict :=
  match dget data key with
  | Some v => if phas meta key then meta else dset meta key v
  | None => meta
  end.

Definition pass_item (skip : list string) (meta : dict) (kv : string * pyval) : dict :=
  if bool_decide (fst kv ∈ skip) || phas meta (fst kv) then meta else dset meta (fst kv) (snd kv).

Definition update (d e : dict) : dict := fold_left (fun d kv => dset d (fst kv) (snd kv)) e d.

Definition new_sample (prompt : pyval) (label : option string) (meta : dict)
    (gpath : option string) : Sample :=
  {| index := None; group_index := None; sp_session_id := None; tokens := []; response := "";
     response_length := 0; loss_mask := None; rollout_log_probs := None; reward := PNone;
     status := "pending"; remove_sample := false; rollout_id := None; metadata := Some meta;
     rollout_routed_experts := None; sp_prompt := prompt; sp_label := label;
     sp_generate_function_path := gpath |}.

(** The body of the loop of [_load_text_first]. *)
Definition load_row (prompt_key : string) (label_key : option string) (metadata_key : string)
    (overrides : dict) (gpath : option string) (row : pyval) : result Sample :=
  match row with
  | PDict data =>
      let label := match label_key with
                   | Some k => if String.eqb k "" then pget data "label" else pget data k
                   | None => pget data "label"
                   end in
      let! meta := py_dict (pget data metadata_key) in
      let meta := fold_left (pass_key data) passthrough_keys meta in
      let skip := [prompt_key; "label"; metadata_key] ++ match label_key with
                                                         | Some k => [k]
                                                         | None => []
                                                         end in
      let meta := fold_left (pass_item skip) data meta in
      let meta := update meta overrides in
      let path := py_or (opt_pyval gpath)
                        (py_or (pget data "generate_function_path")
                               (pget meta "generate_function_path")) in
      Ok (new_sample (dget_def (PStr "") data prompt_key)
            (if is_pnone label then None else Some (py_str label)) meta
            (if py_truth path then Some (strip (py_str path)) else None))
  | _ => Raise (AttributeError "get")
  end.

Definition _load_text_first (path prompt_key : string) (label_key : option string)
    (metadata_key : string) (overrides : dict) (gpath : option string) : result (list Sample) :=
  mapM_res (load_row prompt_key label_key metadata_key overrides gpath) (_read_jsonl path).
End Load.

Section Source.
Context `{PyText}.
Variable prompt_lines : string -> list string.
Variable shuffle : Z -> list Sample -> list Sample.
Variable py_sum : list float -> float.
Variable parent_init : DressageDataSource -> result DressageDataSource.
Variable parent_get_samples : DressageDataSource -> Z -> result (DressageDataSource * list (list Sample)).

(** ** Construction *)

Definition _shuffle (a : DataArgs) (epoch : Z) (s : DressageDataSource) : DressageDataSource :=
  match source_samples s with
  | None => s
  | Some rows => with_epoch epoch (sample_offset s) (Some (shuffle (rollout_seed a + epoch) rows)) s
  end.

Fixpoint load_datasets (prompt_key : string) (a : DataArgs) (l : list MOPDDataset)
    : result (list (list Sample)) :=
  match l with
  | [] => Ok []
  | d :: rest =>
      let! rows := _load_text_first prompt_lines (ds_path d) prompt_key (label_key a)
                     (metadata_key a) (ds_metadata d) (ds_generate_function_path d) in
      check! Nat.eqb (length rows) 0 else ValueError "MOPD dataset has no valid samples" ;;
      let! more := load_datasets prompt_key a rest in
      Ok (rows :: more)
  end.

Definition empty_source : DressageDataSource :=
  {| buffer := []; epoch_id := 0; sample_group_index := 0; sample_index := 0; sample_offset := 0;
     source_samples := None; mixture := None |}.

(** [DressageDataSource(args)]; the datasets of the MOPD configuration count only for
    text prompts. *)
Definition DressageDataSource__init__ (a : DataArgs) : result DressageDataSource :=
  let prompt_key := match input_key a with
                    | Some k => if String.eqb k "" then "prompt" else k
                    | None => "prompt"
                    end in
  let load p := _load_text_first prompt_lines p prompt_key (label_key a) (metadata_key a) [] None in
  let path := match prompt_data a with
              | Some p => if String.eqb p "" then None else Some p
              | None => None
              end in
  match (if multimodal_keys a then [] else mixture_datasets a), path with
  | (_ :: _) as l, _ =>
      let! samples := load_datasets prompt_key a l in
      Ok (with_mixture {| mixture_samples := samples; mixture_weights := map ds_weight l;
                          mixture_current := map (fun _ => f0) samples;
                          mixture_offsets := map (fun _ => 0%nat) samples;
                          mixture_epochs := map (fun _ => 0%Z) samples |} empty_source)
  | [], None => Ok (with_epoch 0 0 (Some []) empty_source)
  | [], Some p =>
      if multimodal_keys a then
        match parent_init empty_source with
        | Ok s => Ok (with_epoch (epoch_id s) (sample_offset s) None s)
        | Raise _ => let! rows := load p in Ok (with_epoch 0 0 (Some rows) empty_source)
        end
      else
        let! rows := load p in
        let s := with_epoch 0 0 (Some rows) empty_source in
        Ok (if rollout_shuffle a then _shuffle a 0 s else s)
  end.

(** ** The weighted mixture *)

(** [(c, -i) > (b, -j)] *)
Definition current_gt (x y : nat * float) : bool :=
  if feqb (snd x) (snd y) then Nat.ltb (fst x) (fst y) else fltb (snd y) (snd x).

(** [max(range(len(current)), key=...)]: the first of the greatest. *)
Fixpoint max_index (current : list float) (i : nat) (best : nat * float) : nat :=
  match current with
  | [] => fst best
  | c :: rest => max_index rest (S i) (if current_gt (i, c) best then (i, c) else best)
  end.

Definition _next_mixture_sample (a : DataArgs) (m : Mixture) : result (Mixture * Sample) :=
  let total := py_sum (mixture_weights m) in
  let current := zip_with fadd (mixture_current m) (mixture_weights m) in
  match current with
  | [] => Raise (ValueError "max() iterable argument is empty")
  | c :: rest =>
      let k := max_index rest 1 (0%nat, c) in
      let current := alter (fun x => fsub x total) k current in
      match mixture_samples m !! k, mixture_offsets m !! k, mixture_epochs m !! k with
      | Some rows, Some off, Some epoch =>
          let fresh := Nat.leb (length rows) off in
          let epoch' := (if fresh then epoch + 1 else epoch)%Z in
          let rows' := if fresh && rollout_shuffle a
                       then shuffle (rollout_seed a + epoch' * 1009 + Z.of_nat k) rows else rows in
          let off' := if fresh then 0%nat else off in
          let m' := {| mixture_samples := <[k := rows']> (mixture_samples m);
                       mixture_weights := mixture_weights m; mixture_current := current;
                       mixture_offsets := <[k := S off']> (mixture_offsets m);
                       mixture_epochs := <[k := epoch']> (mixture_epochs m) |} in
          match rows' !! off' with
          | Some s => Ok (m', s)
          | None => Raise (IndexError "list index out of range")
          end
      | _, _, _ => Raise (IndexError "list index out of range")
      end
  end.

Fixpoint mixture_rows (a : DataArgs) (n : nat) (m : Mixture) : result (Mixture * list Sample) :=
  match n with
  | O => Ok (m, [])
  | S n' => let! ms := _next_mixture_sample a m in
            let! mr := mixture_rows a n' (fst ms) in
            Ok (fst mr, snd ms :: snd mr)
  end.

(** ** [get_samples] *)

(** The end of an epoch: the rows are shuffled again and the offset restarts. *)
Definition roll_epoch (a : DataArgs) (s : DressageDataSource) : DressageDataSource :=
  let s := with_epoch (epoch_id s + 1) (sample_offset s) (source_samples s) s in
  let s := if rollout_shuffle a then _shuffle a (epoch_id s) s else s in
  with_epoch (epoch_id s) 0 (source_samples s) s.

Definition current_rows (s : DressageDataSource) : list Sample := default [] (source_samples s).

(** The loop over one file's rows; it stops when there are none. *)
Fixpoint take_rows (a : DataArgs) (n : nat) (s : DressageDataSource)
    : DressageDataSource * list Sample :=
  match n with
  | O => (s, [])
  | S n' =>
      let s := if Nat.leb (length (current_rows s)) (sample_offset s) then roll_epoch a s else s in
      match current_rows s !! sample_offset s with
      | None => (s, [])
      | Some row =>
          let '(s', l) := take_rows a n' (with_epoch (epoch_id s) (S (sample_offset s))
                                            (source_samples s) s) in
          (s', row :: l)
      end
  end.

Definition with_identity (s : Sample) (gi si : Z) (sid : option string) (m : option dict) : Sample :=
  {| index := Some si; group_index := Some gi; sp_session_id := sid; tokens := tokens s;
     response := response s; response_length := response_length s; loss_mask := loss_mask s;
     rollout_log_probs := rollout_log_probs s; reward := reward s; status := status s;
     remove_sample := remove_sample s; rollout_id := rollout_id s; metadata := m;
     rollout_routed_experts := rollout_routed_experts s; sp_prompt := sp_prompt s;
     sp_label := sp_label s; sp_generate_function_path := sp_generate_function_path s |}.

(** One copy of a row. *)
Definition clone_sample (a : DataArgs) (gi si : Z) (base : Sample) : Sample :=
  match metadata base with
  | Some m =>
      if sglang_enable_deterministic_inference a && py_eqb (pget m "agent_mode") (PStr "blackbox")
      then let sid := "bbs-det-" +:+ str_of_Z (rollout_seed a) +:+ "-" +:+ str_of_Z si in
           with_identity base gi si (Some sid)
             (Some (dset m "dressage_deterministic_session_id" (PStr sid)))
      else with_identity base gi si (sp_session_id base) (Some m)
  | None => with_identity base gi si (sp_session_id base) None
  end.

Fixpoint clone_group (a : DataArgs) (gi si : Z) (n : nat) (base : Sample) : list Sample :=
  match n with
  | O => []
  | S n' => clone_sample a gi si base :: clone_group a gi (si + 1) n' base
  end.

Definition n_per (a : DataArgs) : nat := Z.to_nat (n_samples_per_prompt a).

Fixpoint clone_groups (a : DataArgs) (gi si : Z) (bases : list Sample) : list (list Sample) :=
  match bases with
  | [] => []
  | b :: rest => clone_group a gi si (n_per a) b
                 :: clone_groups a (gi + 1) (si + Z.of_nat (n_per a)) rest
  end.

Definition issue (a : DataArgs) (s : DressageDataSource) (bases : list Sample)
    : DressageDataSource * list (list Sample) :=
  (with_indices (sample_group_index s + Z.of_nat (length bases))
                (sample_index s + Z.of_nat (length bases * n_per a)) s,
   clone_groups a (sample_group_index s) (sample_index s) bases).

(** [_get_samples_from_buffer] *)
Definition _get_samples_from_buffer (num : nat) (s : DressageDataSource)
    : DressageDataSource * list (list Sample) :=
  let k := Nat.min (length (buffer s)) num in
  (with_buffer (drop k (buffer s)) s, take k (buffer s)).

(** The base rows of [num] fresh groups; the inherited method makes its own groups. *)
Definition fresh_rows (a : DataArgs) (num : nat) (s : DressageDataSource)
    : result (DressageDataSource * list Sample) :=
  match mixture s, source_samples s with
  | Some m, _ => let! mr := mixture_rows a num m in Ok (with_mixture (fst mr) s, snd mr)
  | None, Some _ => Ok (take_rows a num s)
  | None, None => Ok (s, [])
  end.

Definition get_samples (a : DataArgs) (num : nat) (s : DressageDataSource)
    : result (DressageDataSource * list (list Sample)) :=
  let '(s1, buffered) := _get_samples_from_buffer num s in
  let num := (num - length buffered)%nat in
  match num with
  | O => Ok (s1, buffered)
  | _ =>
      match mixture s1, source_samples s1 with
      | None, None => let! sg := parent_get_samples s1 (Z.of_nat num) in
                      Ok (fst sg, buffered ++ snd sg)
      | _, _ => let! sb := fresh_rows a num s1 in
                let '(s2, groups) := issue a (fst sb) (snd sb) in
                Ok (s2, buffered ++ groups)
      end
  end.

Definition add_samples (groups : list (list Sample)) (s : DressageDataSource) : DressageDataSource :=
  with_buffer (buffer s ++ groups) s.
End Source.

(** ** Facts *)

Section SourceFacts.
Context `{PyText}.
Variable prompt_lines : string -> list string.
Variable shuffle : Z -> list Sample -> list Sample.
Variable py_sum : list float -> float.
Variable parent_get_samples : DressageDataSource -> Z -> result (DressageDataSource * list (list Sample)).

Lemma clone_sample_index a gi si b :
  index (clone_sample a gi si b) = Some si /\ group_index (clone_sample a gi si b) = Some gi.
Proof using. unfold clone_sample. destruct (metadata b); [case_match|]; done. Qed.

Lemma clone_group_indices a gi n b : forall si,
  map index (clone_group a gi si n b) = map Some (seqZ si (Z.of_nat n)) /\
  Forall (fun x => group_index x = Some gi) (clone_group a gi si n b).
Proof using.
  induction n as [|n IH]; intros si; [by rewrite seqZ_nil|].
  rewrite seqZ_cons by lia. simpl. destruct (clone_sample_index a gi si b) as [E G].
  replace (Z.pred (Z.of_nat (S n))) with (Z.of_nat n) by lia.
  rewrite <- (Z.add_1_r si). destruct (IH (si + 1)%Z) as [-> F]. rewrite E. auto.
Qed.

Lemma clone_group_length a gi n b : forall si, length (clone_group a gi si n b) = n.
Proof using. induction n; intros si; simpl; auto. Qed.

(** The groups made of [bases]: consecutive sample indices, one group index each. *)
Lemma clone_groups_indices a bases : forall gi si,
  map index (concat (clone_groups a gi si bases)) =
    map Some (seqZ si (Z.of_nat (length bases * n_per a))) /\
  Forall (fun g => length g = n_per a) (clone_groups a gi si bases) /\
  map (fun g => map group_index g) (clone_groups a gi si bases) =
    map (fun i => replicate (n_per a) (Some i)) (seqZ gi (Z.of_nat (length bases))).
Proof using.
  induction bases as [|b bases IH]; intros gi si; [by rewrite !seqZ_nil|].
  simpl. rewrite map_app. destruct (clone_group_indices a gi (n_per a) b si) as [-> G].
  destruct (IH (gi + 1)%Z (si + Z.of_nat (n_per a))%Z) as (E & L & M). rewrite E. split; [|split].
  - rewrite <- map_app, <- seqZ_app by lia. do 2 f_equal. lia.
  - constructor; [apply clone_group_length|done].
  - rewrite seqZ_cons by lia. simpl.
    replace (Z.pred (Z.of_nat (S (length bases)))) with (Z.of_nat (length bases)) by lia.
    rewrite <- (Z.add_1_r gi). f_equal; [|exact M].
    rewrite <- (clone_group_length a gi (n_per a) b si) at 2.
    clear -G. induction G as [|x l Hx G IH]; simpl; [done|]. rewrite Hx, IH. done.
Qed.

Lemma clone_groups_length a bases : forall gi si, length (clone_groups a gi si bases) = length bases.
Proof using. induction bases; intros gi si; simpl; auto. Qed.

Lemma take_rows_counters a n : forall s, let s' := fst (take_rows shuffle a n s) in
  sample_group_index s' = sample_group_index s /\ sample_index s' = sample_index s /\
  buffer s' = buffer s /\ mixture s' = mixture s /\
  (source_samples s <> None -> source_samples s' <> None).
Proof using.
  induction n as [|n IH]; intros s; simpl; [done|].
  set (s1 := if Nat.leb _ _ then _ else _).
  assert (B : sample_group_index s1 = sample_group_index s /\ sample_index s1 = sample_index s /\
    buffer s1 = buffer s /\ mixture s1 = mixture s /\
    (source_samples s <> None -> source_samples s1 <> None)).
  { unfold s1, roll_epoch, _shuffle. repeat case_match; simpl in *; subst; simpl; auto. all: try done.
    all: split_and!; try done. }
  clearbody s1. case_match; [|done].
  match goal with |- context [take_rows _ _ n ?t] => specialize (IH t); destruct (take_rows shuffle a n t) end.
  simpl in *. destruct B as (B1 & B2 & B3 & B4 & B). destruct IH as (-> & -> & -> & -> & I). split_and!; auto.
Qed.

(** Not inherited from slime: a mixture or a text file. *)
Definition text_first (s : DressageDataSource) : Prop :=
  match mixture s, source_samples s with None, None => False | _, _ => True end.

Lemma fresh_rows_counters a n s s' l : fresh_rows shuffle py_sum a n s = Ok (s', l) ->
  sample_group_index s' = sample_group_index s /\ sample_index s' = sample_index s /\
  buffer s' = buffer s /\ (text_first s -> text_first s').
Proof using.
  unfold fresh_rows, text_first. destruct (mixture s) as [m|] eqn:M; simpl.
  - destruct (mixture_rows _ _ _ _ _); [|done]. intros [= <- <-]. done.
  - destruct (source_samples s) as [rows|] eqn:R.
    + intros E. assert (E0 : take_rows shuffle a n s = (s', l)) by congruence. clear E. rename E0 into E. pose proof (take_rows_counters a n s) as T. rewrite E in T.
      simpl in T. destruct T as (-> & -> & -> & -> & T). rewrite M. repeat split; try done.
      rewrite R in T. destruct (source_samples s'); [done|]. by destruct T.
    + intros [= <- <-]. by rewrite M, R.
Qed.

(** What one call hands out: the buffered groups first, then groups cloned from fresh
    rows under the next indices. *)
Lemma get_samples_spec a n s s' out : text_first s ->
  get_samples shuffle py_sum parent_get_samples a n s = Ok (s', out) ->
  exists s2 bases,
    fresh_rows shuffle py_sum a (n - length (buffer s)) (with_buffer (drop n (buffer s)) s)
      = Ok (s2, bases) /\
    s' = with_indices (sample_group_index s + Z.of_nat (length bases))
                      (sample_index s + Z.of_nat (length bases * n_per a)) s2 /\
    out = take n (buffer s) ++ clone_groups a (sample_group_index s) (sample_index s) bases.
Proof using.
  intros T. unfold get_samples, _get_samples_from_buffer.
  assert (K : take (Nat.min (length (buffer s)) n) (buffer s) = take n (buffer s)
    /\ drop (Nat.min (length (buffer s)) n) (buffer s) = drop n (buffer s)).
  { destruct (decide (n <= length (buffer s))%nat).
    - by rewrite Nat.min_r by lia.
    - rewrite Nat.min_l by lia. rewrite !take_ge, !drop_ge by lia. done. }
  destruct K as [-> ->]. rewrite length_take.
  replace (n - Nat.min n (length (buffer s)))%nat with (n - length (buffer s))%nat by lia.
  set (s1 := with_buffer (drop n (buffer s)) s). assert (T1 : text_first s1) by done.
  destruct (n - length (buffer s))%nat as [|k] eqn:K.
  - intros [= <- <-]. exists s1, []. rewrite app_nil_r. repeat split.
    + unfold fresh_rows, text_first, s1 in *. destruct s as [? ? ? ? ? [rows|] [m|]]; simpl in *; done.
    + unfold with_indices, s1. simpl. rewrite !Z.add_0_r. done.
  - intros E. assert (E' : (let! sb := fresh_rows shuffle py_sum a (S k) s1 in
        let '(s2, groups) := issue a (fst sb) (snd sb) in
        Ok (s2, take n (buffer s) ++ groups)) = Ok (s', out)).
    { unfold text_first in T1. destruct (mixture s1), (source_samples s1); done. }
    destruct (fresh_rows shuffle py_sum a (S k) s1) as [[s2 l]|] eqn:F; [|done].
    simpl in E'. injection E' as <- <-. exists s2, l.
    destruct (fresh_rows_counters _ _ _ _ _ F) as (-> & -> & _ & _). done.
Qed.

(** ** Calls in sequence *)

(** What the rollout code does with its data buffer. *)
Inductive source_op : Type :=
| OpGet (num : nat)
| OpAdd (groups : list (list Sample)).

(** A run of calls, with the groups handed out by each; the buffered ones come first. *)
Fixpoint source_run (a : DataArgs) (ops : list source_op) (s : DressageDataSource)
    : result (DressageDataSource * list (list (list Sample))) :=
  match ops with
  | [] => Ok (s, [])
  | OpAdd groups :: rest => source_run a rest (add_samples groups s)
  | OpGet num :: rest =>
      let! so := get_samples shuffle py_sum parent_get_samples a num s in
      let! sr := source_run a rest (fst so) in
      Ok (fst sr, snd so :: snd sr)
  end.

(** The groups added in a run. *)
Fixpoint added (ops : list source_op) : list (list Sample) :=
  match ops with
  | [] => []
  | OpAdd groups :: rest => groups ++ added rest
  | OpGet _ :: rest => added rest
  end.

(** The fresh groups of a run whose buffer holds [b]: those past the buffered ones. *)
Fixpoint fresh_of (ops : list source_op) (b : nat) (outs : list (list (list Sample)))
    : list (list Sample) :=
  match ops, outs with
  | OpAdd groups :: rest, _ => fresh_of rest (b + length groups) outs
  | OpGet num :: rest, out :: more =>
      drop (Nat.min b num) out ++ fresh_of rest (b - num) more
  | _, _ => []
  end.

(** The groups a run took from the buffer. *)
Fixpoint retried_of (ops : list source_op) (b : nat) (outs : list (list (list Sample)))
    : list (list Sample) :=
  match ops, outs with
  | OpAdd groups :: rest, _ => retried_of rest (b + length groups) outs
  | OpGet num :: rest, out :: more =>
      take (Nat.min b num) out ++ retried_of rest (b - num) more
  | _, _ => []
  end.

Lemma get_samples_split a n s s' out : text_first s ->
  get_samples shuffle py_sum parent_get_samples a n s = Ok (s', out) ->
  exists bases,
    take (Nat.min (length (buffer s)) n) out = take n (buffer s) /\
    drop (Nat.min (length (buffer s)) n) out =
      clone_groups a (sample_group_index s) (sample_index s) bases /\
    buffer s' = drop n (buffer s) /\ text_first s' /\
    sample_group_index s' = (sample_group_index s + Z.of_nat (length bases))%Z /\
    sample_index s' = (sample_index s + Z.of_nat (length bases * n_per a))%Z.
Proof using.
  intros T E. destruct (get_samples_spec _ _ _ _ _ T E) as (s2 & bases & F & -> & ->).
  destruct (fresh_rows_counters _ _ _ _ _ F) as (_ & _ & B & T2). exists bases. simpl in *.
  replace (Nat.min (length (buffer s)) n) with (length (take n (buffer s)))
    by (rewrite length_take; lia).
  rewrite take_app_length, drop_app_length. split_and!; auto.
Qed.

Lemma source_run_spec a ops : forall s s' outs, text_first s ->
  source_run a ops s = Ok (s', outs) ->
  (exists bases, fresh_of ops (length (buffer s)) outs =
       clone_groups a (sample_group_index s) (sample_index s) bases /\
     sample_group_index s' = (sample_group_index s + Z.of_nat (length bases))%Z /\
     sample_index s' = (sample_index s + Z.of_nat (length bases * n_per a))%Z) /\
  retried_of ops (length (buffer s)) outs ++ buffer s' = buffer s ++ added ops /\ text_first s'.
Proof using.
  induction ops as [|[num|groups] ops IH]; intros s s' outs T E; simpl in E |- *.
  - injection E as <- <-. split_and!; [|by rewrite app_nil_r|done]. exists []. simpl. split_and!; try done; lia.
  - destruct (get_samples _ _ _ a num s) as [[s1 out]|] eqn:G; [|done]. simpl in E.
    destruct (source_run a ops s1) as [[s2 more]|] eqn:R; [|done]. injection E as <- <-.
    destruct (get_samples_split _ _ _ _ _ T G) as (b1 & Ht & Hd & B & T1 & G1 & I1).
    destruct (IH _ _ _ T1 R) as ((b2 & F2 & G2 & I2) & Q & T2).
    rewrite B in F2, Q. rewrite length_drop in F2, Q. rewrite Ht, Hd. split; [|split; [|done]].
    + exists (b1 ++ b2). rewrite F2, G2, I2, G1, I1, length_app. split_and!; [|lia|lia].
      clear. generalize (sample_group_index s) (sample_index s).
      induction b1 as [|b b1 IH]; intros gi si; simpl.
      * by rewrite !Z.add_0_r.
      * f_equal. rewrite <- IH. do 2 f_equal; [lia..].
    + rewrite <- app_assoc, Q, app_assoc, take_drop. done.
  - destruct (IH (add_samples groups s) s' outs T E) as (F & Q & T2). simpl in F, Q.
    rewrite length_app in F, Q. rewrite Q, <- app_assoc. auto.
Qed.

(** Over any sequence of [get_samples] and [add_samples] calls, the fresh samples get
    the indices that follow the counter, in order and without a gap or a repetition, in
    groups of [n_samples_per_prompt] whose samples share the next group index; and the
    groups given back for a retry leave the buffer first in, first out, each once, ahead
    of fresh rows. *)
Theorem issued_identities a ops s s' outs : text_first s -> source_run a ops s = Ok (s', outs) ->
  let fresh := fresh_of ops (length (buffer s)) outs in
  map index (concat fresh) =
    map Some (seqZ (sample_index s) (sample_index s' - sample_index s)) /\
  map (fun g => map group_index g) fresh =
    map (fun i => replicate (n_per a) (Some i))
        (seqZ (sample_group_index s) (sample_group_index s' - sample_group_index s)) /\
  Forall (fun g => length g = n_per a) fresh /\
  retried_of ops (length (buffer s)) outs ++ buffer s' = buffer s ++ added ops.
Proof using.
  intros T E. destruct (source_run_spec _ _ _ _ _ T E) as ((bases & F & G & I) & Q & _).
  cbv zeta. rewrite F, G, I.
  destruct (clone_groups_indices a bases (sample_group_index s) (sample_index s)) as (E1 & E2 & E3).
  rewrite E1, E3. split_and!; try done; do 2 f_equal; lia.
Qed.

(** ** Epochs *)

Lemma take_rows_within a rows n : forall s, source_samples s = Some rows ->
  (sample_offset s + n <= length rows)%nat ->
  take_rows shuffle a n s =
    (with_epoch (epoch_id s) (sample_offset s + n) (Some rows) s, take n (drop (sample_offset s) rows)).
Proof using.
  induction n as [|n IH]; intros s R L.
  - rewrite Nat.add_0_r, take_0. unfold with_epoch. destruct s. simpl in *. by subst.
  - destruct (lookup_lt_is_Some_2 rows (sample_offset s)) as [x Hx]; [lia|].
    cbn [take_rows]. replace (current_rows s) with rows by (unfold current_rows; by rewrite R).
    rewrite (proj2 (Nat.leb_gt _ _)) by lia.
    replace (current_rows s) with rows by (unfold current_rows; by rewrite R). rewrite Hx, R.
    rewrite IH by (simpl; auto; lia). simpl.
    rewrite (drop_S _ _ _ Hx). unfold with_epoch. simpl. by rewrite Nat.add_succ_r.
Qed.

Lemma take_rows_add a n m : forall s, length (snd (take_rows shuffle a n s)) = n ->
  take_rows shuffle a (n + m) s =
    (fst (take_rows shuffle a m (fst (take_rows shuffle a n s))),
     snd (take_rows shuffle a n s) ++ snd (take_rows shuffle a m (fst (take_rows shuffle a n s)))).
Proof using.
  induction n as [|n IH]; intros s L; simpl; [by destruct (take_rows shuffle a m s)|].
  simpl in L. set (s1 := if Nat.leb _ _ then _ else _) in *. clearbody s1.
  destruct (current_rows s1 !! sample_offset s1) as [row|]; [|done].
  set (s2 := with_epoch _ _ _ _) in *. clearbody s2. specialize (IH s2).
  destruct (take_rows shuffle a n s2) as [s3 l]. simpl in *. rewrite IH by lia. done.
Qed.

Lemma take_rows_roll a n s : (length (current_rows s) <= sample_offset s)%nat ->
  (0 < length (current_rows (roll_epoch shuffle a s)))%nat -> n <> O ->
  take_rows shuffle a n s = take_rows shuffle a n (roll_epoch shuffle a s).
Proof using.
  intros L P N. destruct n as [|n]; [done|]. simpl.
  assert (Z0 : sample_offset (roll_epoch shuffle a s) = 0%nat) by done.
  rewrite (proj2 (Nat.leb_le _ _)) by lia.
  rewrite (proj2 (Nat.leb_gt _ _)); [done|lia].
Qed.

Lemma roll_epoch_rows a rows s : source_samples s = Some rows ->
  exists e, roll_epoch shuffle a s =
    with_epoch e 0 (Some (if rollout_shuffle a then shuffle (rollout_seed a + (epoch_id s + 1)) rows
                          else rows)) s.
Proof using.
  intros R. unfold roll_epoch, _shuffle. destruct (rollout_shuffle a); simpl; rewrite R; simpl;
    eexists; unfold with_epoch; simpl; reflexivity.
Qed.

Section Epochs.
Context (Hshuffle : forall seed l, shuffle seed l ≡ₚ l).

Lemma take_epochs a k : forall s rows, source_samples s = Some rows -> rows <> [] ->
  (sample_offset s = 0%nat \/ sample_offset s = length rows) ->
  exists s' bases, take_rows shuffle a (k * length rows) s = (s', bases) /\
    bases ≡ₚ concat (replicate k rows) /\ (rollout_shuffle a = false -> bases = concat (replicate k rows)).
Proof using Hshuffle.
  induction k as [|k IH]; intros s rows R NE O; [exists s, []; done|].
  assert (P : (0 < length rows)%nat) by (destruct rows; simpl; [done|lia]).
  (* the first epoch *)
  assert (first : exists s1 rows1, rows1 ≡ₚ rows /\ (rollout_shuffle a = false -> rows1 = rows) /\
    take_rows shuffle a (length rows) s = (s1, rows1) /\ source_samples s1 = Some rows1 /\
    sample_offset s1 = length rows1).
  { destruct O as [O|O].
    - eexists _, rows. rewrite (take_rows_within a rows) by (rewrite ?O; simpl; auto; lia).
      rewrite O, drop_0, firstn_all. split_and!; done.
    - destruct (roll_epoch_rows a rows s R) as (e & Er).
      set (rows1 := if rollout_shuffle a then _ else rows) in Er.
      assert (P1 : rows1 ≡ₚ rows) by (unfold rows1; case_match; auto).
      assert (L1 : length rows1 = length rows) by by rewrite P1.
      exists (with_epoch e (length rows) (Some rows1) s), rows1. split; [done|]. split.
      { unfold rows1. by intros ->. }
      rewrite take_rows_roll; [|unfold current_rows; rewrite R; simpl; lia
        |unfold current_rows; rewrite Er; simpl; lia|lia].
      rewrite Er, (take_rows_within a rows1) by (simpl; auto; lia). simpl.
      rewrite drop_0, <- L1, firstn_all. done. }
  destruct first as (s1 & rows1 & P1 & Q1 & E1 & R1 & O1).
  assert (L1 : length rows1 = length rows) by by rewrite P1.
  assert (NE1 : rows1 <> []) by (destruct rows1; simpl in *; [lia|done]).
  destruct (IH s1 rows1 R1 NE1 (or_intror O1)) as (s2 & bases & E2 & P2 & Q2).
  exists s2, (rows1 ++ bases). simpl. rewrite take_rows_add by (rewrite E1; simpl; lia).
  rewrite E1. cbn [fst snd]. rewrite L1 in E2. rewrite E2. cbn [fst snd]. split; [done|]. split.
  - rewrite P2. f_equiv; [done|]. clear -P1. induction k as [|k IH]; simpl; [done|]. by rewrite IH, P1.
  - intros F. rewrite Q2, (Q1 F) by done. done.
Qed.

(** From the boundary of an epoch, asking for [k] times as many groups as the file has
    rows delivers every row exactly [k] times, in file order when rows are not shuffled;
    the call always returns, with the counters as the new identities. *)
Theorem epochs_deliver_rows a k s rows : mixture s = None -> buffer s = [] ->
  source_samples s = Some rows -> rows <> [] ->
  (sample_offset s = 0%nat \/ sample_offset s = length rows) ->
  exists s' bases,
    get_samples shuffle py_sum parent_get_samples a (k * length rows) s =
      Ok (s', clone_groups a (sample_group_index s) (sample_index s) bases) /\
    bases ≡ₚ concat (replicate k rows) /\
    (rollout_shuffle a = false -> bases = concat (replicate k rows)).
Proof using Hshuffle.
  intros M B R NE O. destruct (take_epochs a k s rows R NE O) as (s1 & bases & E & P & Q).
  unfold get_samples, _get_samples_from_buffer. rewrite B. cbn [length Nat.min drop take].
  rewrite Nat.sub_0_r. assert (W : with_buffer [] s = s) by (destruct s; simpl in *; by subst).
  rewrite W. destruct (k * length rows)%nat eqn:K.
  - exists s, []. injection E as <- <-. done.
  - pose proof (take_rows_counters a (S n) s) as C. rewrite E in C. simpl in C.
    destruct C as (C1 & C2 & _). eexists _, bases.
    rewrite M, R. unfold fresh_rows. rewrite M, R, E. cbn [res_bind fst snd issue].
    rewrite C1, C2. split_and!; done.
Qed.
End Epochs.
End SourceFacts.

(** ** The mixture *)

Section MixtureFacts.
Context `{PyText}.
Variable prompt_lines : string -> list string.
Variable shuffle : Z -> list Sample -> list Sample.
Variable py_sum : list float -> float.
Variable parent_init : DressageDataSource -> result DressageDataSource.
Variable parent_get_samples : DressageDataSource -> Z -> result (DressageDataSource * list (list Sample)).
Context (Hshuffle : forall seed l, shuffle seed l ≡ₚ l).

(** As many weights, accumulators, offsets and epochs as datasets, none of them empty. *)
Record mixture_wf (m : Mixture) : Prop := {
  wf_some : mixture_samples m <> [];
  wf_weights : length (mixture_weights m) = length (mixture_samples m);
  wf_current : length (mixture_current m) = length (mixture_samples m);
  wf_offsets : length (mixture_offsets m) = length (mixture_samples m);
  wf_epochs : length (mixture_epochs m) = length (mixture_samples m);
  wf_rows : Forall (fun rows => rows <> []) (mixture_samples m) }.

Lemma max_index_bound cur : forall i best, (fst best < i)%nat ->
  (max_index cur i best < i + length cur)%nat.
Proof using.
  induction cur as [|c cur IH]; intros i best L; simpl; [lia|].
  case_match; (eapply Nat.lt_le_trans; [apply IH; simpl; lia|lia]).
Qed.

Lemma next_mixture_ok a m : mixture_wf m ->
  exists m' s, _next_mixture_sample shuffle py_sum a m = Ok (m', s) /\ mixture_wf m' /\
    Forall2 (fun rows rows' => rows' ≡ₚ rows) (mixture_samples m) (mixture_samples m') /\
    s ∈ concat (mixture_samples m).
Proof using Hshuffle.
  intros [W1 W2 W3 W4 W5 W6]. unfold _next_mixture_sample.
  assert (L : length (zip_with fadd (mixture_current m) (mixture_weights m)) =
              length (mixture_samples m)) by (rewrite length_zip_with; lia).
  set (cur := zip_with fadd _ _) in *. destruct cur as [|c rest] eqn:Ec.
  { destruct (mixture_samples m); [done|discriminate]. }
  set (k := max_index rest 1 (0%nat, c)).
  assert (K : (k < length (mixture_samples m))%nat).
  { eapply Nat.lt_le_trans; [apply max_index_bound; simpl; lia|]. simpl in L. lia. }
  destruct (lookup_lt_is_Some_2 (mixture_samples m) k K) as [rows Hr].
  destruct (lookup_lt_is_Some_2 (mixture_offsets m) k) as [off Ho]; [lia|].
  destruct (lookup_lt_is_Some_2 (mixture_epochs m) k) as [ep He]; [lia|].
  clearbody k. rewrite Hr, Ho, He. clear Ec.
  assert (NE : rows <> []) by (eapply Forall_lookup_1 in W6; eauto).
  set (fresh := Nat.leb (length rows) off).
  match goal with |- context [<[k := ?r]> (mixture_samples m)] => set (rows' := r) end.
  assert (P : rows' ≡ₚ rows) by (unfold rows'; case_match; auto).
  assert (LT : ((if fresh then 0 else off) < length rows')%nat).
  { rewrite P. unfold fresh. destruct (Nat.leb_spec (length rows) off); [|lia].
    destruct rows; [done|simpl; lia]. }
  destruct (lookup_lt_is_Some_2 _ _ LT) as [s Hs].
  clearbody rows'. cbv zeta. rewrite Hs. eexists _, s. split; [reflexivity|]. split; [|split].
  - constructor; simpl; rewrite ?length_insert, ?length_alter; try done.
    + intros Q. apply (f_equal length) in Q. rewrite length_insert in Q. simpl in Q. lia.
    + apply Forall_insert; [done|]. intros ->. apply Permutation_nil in P. done.
  - simpl. apply Forall2_same_length_lookup_2; [by rewrite length_insert|].
    intros i x y Hx Hy. destruct (decide (i = k)) as [->|N].
    + rewrite list_lookup_insert_eq in Hy by done. by simplify_eq.
    + rewrite list_lookup_insert_ne in Hy by done. by simplify_eq.
  - apply list_elem_of_In, in_concat. exists rows.
    split; apply list_elem_of_In; [by eapply list_elem_of_lookup_2|].
    rewrite <- P. by eapply list_elem_of_lookup_2.
Qed.

Lemma concat_perm_elem (l l' : list (list Sample)) x :
  Forall2 (fun r r' => r' ≡ₚ r) l l' -> x ∈ concat l' <-> x ∈ concat l.
Proof using.
  induction 1 as [|r r' l l' P F IH]; simpl; [done|]. rewrite !elem_of_app, IH, P. done.
Qed.

Lemma mixture_rows_ok a n : forall m, mixture_wf m ->
  exists m' l, mixture_rows shuffle py_sum a n m = Ok (m', l) /\ mixture_wf m' /\ length l = n /\
    Forall (fun s => s ∈ concat (mixture_samples m)) l.
Proof using Hshuffle.
  induction n as [|n IH]; intros m W; [by exists m, []|]. simpl.
  destruct (next_mixture_ok a m W) as (m1 & s & -> & W1 & F & I). simpl.
  destruct (IH m1 W1) as (m2 & l & -> & W2 & L & Fl). simpl.
  exists m2, (s :: l). split_and!; simpl; auto. constructor; [done|].
  eapply Forall_impl; [exact Fl|]. intros x. by rewrite (concat_perm_elem _ _ _ F).
Qed.

Definition mixture_source_wf (s : DressageDataSource) : Prop :=
  exists m, mixture s = Some m /\ mixture_wf m.

Lemma mixture_get_samples a n s : mixture_source_wf s ->
  exists s' out, get_samples shuffle py_sum parent_get_samples a n s = Ok (s', out) /\
    mixture_source_wf s' /\ length out = n.
Proof using Hshuffle.
  intros (m & M & W). unfold get_samples, _get_samples_from_buffer.
  set (b := take _ _). assert (L : (length b <= n)%nat) by (unfold b; rewrite length_take; lia).
  destruct (n - length b)%nat as [|k] eqn:K.
  - eexists _, b. split; [done|]. split; [by exists m|lia].
  - cbn [mixture source_samples with_buffer]. rewrite M. unfold fresh_rows. simpl mixture. rewrite M.
    destruct (mixture_rows_ok a (S k) m W) as (m' & l & E & W' & Ll & _). rewrite E. simpl.
    eexists _, _. split; [done|]. split; [by exists m'|].
    rewrite length_app, clone_groups_length. lia.
Qed.

Lemma load_datasets_wf pk a l : forall rows, load_datasets prompt_lines pk a l = Ok rows ->
  length rows = length l /\ Forall (fun r => r <> []) rows.
Proof using.
  induction l as [|d l IH]; intros rows E; simpl in E; [by injection E as <-|].
  destruct (_load_text_first _ _ _ _ _ _ _) as [r|] eqn:Er; [|done]. simpl in E.
  destruct (Nat.eqb_spec (length r) 0) as [|N]; [done|]. simpl in E.
  destruct (load_datasets _ _ _ l) as [more|] eqn:Em; [|done]. injection E as <-.
  destruct (IH _ eq_refl) as [L F]. simpl. split; [lia|]. constructor; [|done].
  intros ->. by apply N.
Qed.

Lemma init_mixture_wf a s : DressageDataSource__init__ prompt_lines shuffle parent_init a = Ok s ->
  multimodal_keys a = false -> mixture_datasets a <> [] -> mixture_source_wf s.
Proof using.
  unfold DressageDataSource__init__. intros E MM ND. rewrite MM in E.
  destruct (mixture_datasets a) as [|d l]; [done|]. cbv zeta in E.
  destruct (load_datasets _ _ _ _) as [rows|] eqn:Er; [|done]. injection E as <-.
  destruct (load_datasets_wf _ _ _ _ Er) as [L F]. eexists. split; [reflexivity|].
  constructor; cbn -[map]; rewrite ?length_map; auto. intros ->. discriminate.
Qed.

(** The sizes asked for in a run. *)
Fixpoint requested (ops : list source_op) : list nat :=
  match ops with
  | [] => []
  | OpGet n :: rest => n :: requested rest
  | OpAdd _ :: rest => requested rest
  end.

(** A data source built over a weighted mixture never raises and never runs short: in
    any sequence of calls every [get_samples n] returns exactly [n] groups, whatever the
    weights, since each dataset starts a new epoch when it is exhausted. *)
Theorem mixture_never_short a s ops :
  DressageDataSource__init__ prompt_lines shuffle parent_init a = Ok s ->
  multimodal_keys a = false -> mixture_datasets a <> [] ->
  exists s' outs, source_run shuffle py_sum parent_get_samples a ops s = Ok (s', outs) /\
    map length outs = requested ops.
Proof using Hshuffle.
  intros E MM ND. pose proof (init_mixture_wf a s E MM ND) as W. clear E. revert s W.
  induction ops as [|[n|g] ops IH]; intros s W; simpl.
  - by exists s, [].
  - destruct (mixture_get_samples a n s W) as (s1 & out & -> & W1 & L). simpl.
    destruct (IH s1 W1) as (s2 & outs & -> & Lo). simpl. eexists _, _. split; [done|].
    simpl. by rewrite L, Lo.
  - destruct W as (m & M & W). apply IH. by exists m.
Qed.
End MixtureFacts.

(** ** The buffer as the rollout code sees it *)

(** [get_samples] and [add_samples] of a data buffer, and what its clients rely on. *)
Class DataBuffer (D : Type) : Type := {
  db_get : nat -> D -> result (D * list (list Sample));
  db_add : list (list Sample) -> D -> D;
  db_ok : D -> Prop;
  db_get_ok : forall n d d' out, db_ok d -> db_get n d = Ok (d', out) ->
    db_ok d' /\ (length out <= n)%nat;
  db_add_ok : forall groups d, db_ok d -> db_ok (db_add groups d) }.

Section BufferInstance.
Context `{PyText}.
Variable shuffle : Z -> list Sample -> list Sample.
Variable py_sum : list float -> float.
Variable parent_get_samples : DressageDataSource -> Z -> result (DressageDataSource * list (list Sample)).
Variable a : DataArgs.

Lemma take_rows_length n : forall s, (length (snd (take_rows shuffle a n s)) <= n)%nat.
Proof using.
  induction n as [|n IH]; intros s; simpl; [lia|].
  set (s1 := if Nat.leb _ _ then _ else _). clearbody s1. case_match; [|simpl; lia].
  set (s2 := with_epoch _ _ _ _). specialize (IH s2). destruct (take_rows shuffle a n s2). simpl in *. lia.
Qed.

Lemma mixture_rows_length n : forall m m' l, mixture_rows shuffle py_sum a n m = Ok (m', l) ->
  length l = n.
Proof using.
  induction n as [|n IH]; intros m m' l E; simpl in E; [by injection E as <- <-|].
  destruct (_next_mixture_sample shuffle py_sum a m) as [[m1 s]|]; [|done]. simpl in E.
  destruct (mixture_rows shuffle py_sum a n m1) as [[m2 r]|] eqn:R; [|done]. injection E as <- <-.
  simpl. by rewrite (IH _ _ _ R).
Qed.

Lemma get_samples_buffer n s s' out : text_first s ->
  get_samples shuffle py_sum parent_get_samples a n s = Ok (s', out) ->
  text_first s' /\ (length out <= n)%nat.
Proof using.
  intros T E. destruct (get_samples_spec _ _ _ _ _ _ _ _ T E) as (s2 & bases & F & -> & ->).
  destruct (fresh_rows_counters _ _ _ _ _ _ _ F) as (_ & _ & _ & T2). split; [by apply T2|].
  rewrite length_app, length_take, clone_groups_length.
  assert (L : (length bases <= n - length (buffer s))%nat); [|lia].
  unfold fresh_rows in F. simpl in F. destruct (mixture s) as [m|].
  - destruct (mixture_rows _ _ _ _ m) as [[m' l]|] eqn:R; [|done]. injection F as <- <-.
    by rewrite (mixture_rows_length _ _ _ _ R).
  - destruct (source_samples s).
    + match type of F with Ok ?x = _ => assert (F1 : x = (s2, bases)) by congruence end.
      replace bases with (snd (s2, bases)) by done. rewrite <- F1. apply take_rows_length.
    + injection F as <- <-. simpl. lia.
Qed.

Definition source_buffer : DataBuffer DressageDataSource := {|
  db_get := get_samples shuffle py_sum parent_get_samples a;
  db_add := add_samples;
  db_ok := text_first;
  db_get_ok := get_samples_buffer;
  db_add_ok := fun groups s T => T |}.
End BufferInstance.

(** ** Witnesses *)

#[local] Instance w_source_text : PyText :=
  {| py_repr := fun _ => ""; py_parse_float := fun _ => None |}.

Definition w_data_args : DataArgs :=
  {| input_key := None; label_key := None; metadata_key := "metadata"; multimodal_keys := false;
     prompt_data := Some "train.jsonl"; mixture_datasets := []; rollout_shuffle := true;
     rollout_seed := 42; n_samples_per_prompt := 2;
     sglang_enable_deterministic_inference := true |}.

Definition w_row (name : string) : Sample :=
  new_sample (PStr name) None [("agent_mode", PStr "blackbox")] None.

Definition w_shuffle (seed : Z) (l : list Sample) : list Sample := if Z.even seed then l else rev l.

Lemma w_shuffle_perm seed l : w_shuffle seed l ≡ₚ l.
Proof. unfold w_shuffle. case_match; [done|]. symmetry. apply Permutation_rev. Qed.

Definition w_no_parent (s : DressageDataSource) (n : Z)
    : result (DressageDataSource * list (list Sample)) := Ok (s, []).

Definition w_source : DressageDataSource :=
  with_epoch 0 0 (Some [w_row "a"; w_row "b"; w_row "c"]) empty_source.

Definition w_ops : list source_op := [OpGet 2; OpAdd [[w_row "retry"]]; OpGet 3].

Definition w_run : result (DressageDataSource * list (list (list Sample))) :=
  source_run w_shuffle fsum w_no_parent w_data_args w_ops w_source.

(** Four fresh groups of two, the retried one first in the second call. *)
Lemma issued_identities_witness : exists s' outs, w_run = Ok (s', outs) /\
  map (fun g => map sp_prompt g) (concat outs) =
    map (fun n => [PStr n; PStr n]) ["a"; "b"] ++ [[PStr "retry"]] ++
    map (fun n => [PStr n; PStr n]) ["c"; "c"] /\
  map index (concat (fresh_of w_ops 0 outs)) = map Some (seqZ 0 8).
Proof.
  destruct w_run as [[s' outs]|] eqn:E; [|vm_compute in E; discriminate].
  exists s', outs. split; [done|].
  pose proof (issued_identities w_shuffle fsum w_no_parent w_data_args w_ops w_source s' outs I E) as T.
  split.
  - vm_compute in E. injection E as <- <-. reflexivity.
  - destruct T as (T & _). cbn [w_source buffer with_epoch empty_source length] in T. rewrite T.
    vm_compute in E. injection E as <- <-. reflexivity.
Defined.

Lemma epochs_deliver_rows_witness : exists s' bases,
  get_samples w_shuffle fsum w_no_parent w_data_args (2 * 3) w_source =
    Ok (s', clone_groups w_data_args 0 0 bases) /\
  bases ≡ₚ concat (replicate 2 [w_row "a"; w_row "b"; w_row "c"]).
Proof.
  destruct (epochs_deliver_rows w_shuffle fsum w_no_parent w_shuffle_perm w_data_args 2 w_source
    [w_row "a"; w_row "b"; w_row "c"] eq_refl eq_refl eq_refl ltac:(discriminate) (or_introl eq_refl))
    as (s' & bases & E & P & _).
  exists s', bases. split; [exact E|exact P].
Defined.

Definition w_dataset (path : string) (weight : Z) : MOPDDataset :=
  {| ds_name := path; ds_path := path; ds_teacher_id := "t"; ds_weight := f_of_Z weight;
     ds_metadata := [("env_type", PStr path)]; ds_agent_mode := "blackbox";
     ds_generate_function_path := None |}.

Definition w_mixture_args : DataArgs :=
  {| input_key := None; label_key := None; metadata_key := "metadata"; multimodal_keys := false;
     prompt_data := None; mixture_datasets := [w_dataset "x" 3; w_dataset "y" 1];
     rollout_shuffle := false; rollout_seed := 42; n_samples_per_prompt := 1;
     sglang_enable_deterministic_inference := false |}.

Definition w_lines (path : string) : list string :=
  [json_dumps (PDict [("prompt", PStr path)]); ""; "not json"].

Definition w_mixture_source : result DressageDataSource :=
  DressageDataSource__init__ w_lines w_shuffle (fun s => Ok s) w_mixture_args.

Lemma mixture_never_short_witness : exists s s' outs, w_mixture_source = Ok s /\
  source_run w_shuffle fsum w_no_parent w_mixture_args [OpGet 5] s = Ok (s', outs) /\
  map length outs = [5%nat].
Proof.
  destruct w_mixture_source as [s|] eqn:E; [|vm_compute in E; discriminate].
  destruct (mixture_never_short w_lines w_shuffle fsum (fun s => Ok s) w_no_parent w_shuffle_perm
    w_mixture_args s [OpGet 5] E eq_refl ltac:(discriminate)) as (s' & outs & R & L).
  exists s, s', outs. split; [done|]. split; [exact R|exact L].
Defined.

(** Weights 3 and 1: three rows of the first dataset, one of the second, in every four. *)
Example mixture_order : (let! s := w_mixture_source in
  let! so := get_samples w_shuffle fsum w_no_parent w_mixture_args 8 s in
  Ok (map (fun g => map sp_prompt g) (snd so))) =
  Ok (map (fun n => [PStr n]) ["x"; "x"; "y"; "x"; "x"; "x"; "y"; "x"]).
Proof. vm_compute. reflexivity. Qed.

Example deterministic_sessions : (let! so := get_samples w_shuffle fsum w_no_parent w_data_args 1 w_source in
  Ok (map (fun g => map sp_session_id g) (snd so))) =
  Ok [[Some "bbs-det-42-0"; Some "bbs-det-42-1"]].
Proof. vm_compute. reflexivity. Qed.
