(* ===== verification/Backend.v ===== *)
(** * Blackbox backend options ([dressage/paddock/blackbox/common/defaults.py])

    The registration options of an agent backend: static defaults per backend, an
    environment limit on steps, defaults computed from the rollout arguments, and the
    user's options merged over all of them.  [args] is the dictionary of the attributes
    of the argument object ([None] is no object); [env] is the process environment.
    Values are immutable here, so [copy.deepcopy] is the identity. *)

From S2P Require Import Prelude.
From S2P Require Import PyFloat.
From S2P Require Import PyVal.
From S2P Require Import Samples.

Local Open Scope string_scope.
Local Open Scope list_scope.
Local Open Scope py_scope.

Definition DEFAULT_BLACKBOX_TYPE : string := "opencode".
Definition BLACKBOX_MAX_STEPS_ENV : string := "DRESSAGE_BLACKBOX_MAX_STEPS".
Definition BLACKBOX_COMPACT_THRESHOLD_ENV : string := "DRESSAGE_BLACKBOX_COMPACT_THRESHOLD".

Definition DEFAULT_OPENCODE_COMPACTION : dict := [("auto", PBool true); ("prune", PBool true)].

Definition _OPENCODE_STATIC_BACKEND_DEFAULTS : dict :=
  [("provider_id", PStr "sglang"); ("provider_name", PStr "Dressage Proxy");
   ("provider_package", PStr "@ai-sdk/openai-compatible"); ("model_id", PStr "proxy-model");
   ("model_name", PStr "Dressage Proxy")].

Definition _OPENCLAW_STATIC_BACKEND_DEFAULTS : dict :=
  [("agent_id", PStr "default"); ("provider_id", PStr "sglang"); ("model_id", PStr "proxy-model");
   ("model_name", PStr "Dressage Proxy"); ("api_key", PStr "sglang-local")].

Definition _CLAUDE_CODE_STATIC_BACKEND_DEFAULTS : dict :=
  [("model", PDict [("id", PStr "proxy-model"); ("name", PStr "Dressage Proxy");
                    ("supported_capabilities",
                     PList [PStr "thinking"; PStr "adaptive_thinking"; PStr "interleaved_thinking"])]);
   ("max_turns", PInt 20); ("permission_mode", PStr "default"); ("setting_sources", PStr "user");
   ("system_prompt_mode", PStr "append");
   ("gateway", PDict [("auth_token", PStr "blackbox-local")]);
   ("thinking", PDict [("enabled", PBool true); ("interleaved", PBool true); ("budget_tokens", PNone)]);
   ("compaction", PDict [("auto", PBool true)]);
   ("compat", PDict [("disable_prompt_caching", PBool true); ("disable_nonessential_traffic", PBool true)]);
   ("subagents", PDict [("enabled", PBool false)])].

Definition _CODEX_STATIC_BACKEND_DEFAULTS : dict :=
  [("model", PDict [("id", PStr "proxy-model"); ("name", PStr "Dressage Proxy")]);
   ("model_provider_id", PStr "dressage_proxy"); ("sandbox_mode", PStr "danger-full-access");
   ("approval_policy", PStr "never"); ("skip_git_repo_check", PBool true);
   ("ignore_rules", PBool true); ("web_search", PStr "disabled")].

Definition _KNOWN_BACKEND_DEFAULTS : list (string * dict) :=
  [("opencode", _OPENCODE_STATIC_BACKEND_DEFAULTS); ("openclaw", _OPENCLAW_STATIC_BACKEND_DEFAULTS);
   ("claude_code", _CLAUDE_CODE_STATIC_BACKEND_DEFAULTS); ("codex", _CODEX_STATIC_BACKEND_DEFAULTS)].

Definition _DYNAMIC_BACKEND_KEYS : list (string * list string) :=
  [("opencode", ["model_limit"; "compaction"; "proxy"]);
   ("openclaw", ["context_window"; "max_tokens"; "request"; "compaction"; "proxy"]);
   ("claude_code", ["compaction"; "proxy"]); ("codex", ["proxy"])].

(** ** [_deep_merge] *)

(** [merged[key]] after one override: two dictionaries merge, anything else replaces. *)
Fixpoint merge_value (old : option pyval) (v : pyval) {struct v} : pyval :=
  match v, old with
  | PDict o, Some (PDict m) =>
      PDict ((fix go (o : list (string * pyval)) (m : dict) : dict :=
                match o with
                | [] => m
                | (k, x) :: rest => go rest (dset m k (merge_value (dget m k) x))
                end) o m)
  | _, _ => v
  end.

Definition _deep_merge (defaults overrides : dict) : dict :=
  fold_left (fun m kv => dset m (fst kv) (merge_value (dget m (fst kv)) (snd kv))) overrides defaults.

Section Backend.
Context `{PyText}.
Variable env : string -> option string.

Definition normalize_blackbox_type (v : pyval) : string :=
  let value := lower (strip (py_str (py_or v (PStr DEFAULT_BLACKBOX_TYPE)))) in
  if String.eqb value "" then DEFAULT_BLACKBOX_TYPE else value.

(** ** Integers from the arguments and the environment *)

(** [int(value)] whose [TypeError] and [ValueError] become [ValueError msg]. *)
Definition int_or_value_error (v : pyval) (msg : string) : result Z :=
  match py_int v with Ok z => Ok z | Raise _ => Raise (ValueError msg) end.

Definition _positive_int_arg (args : dict) (attr : string) : result Z :=
  match pget args attr with
  | PNone => Raise (ValueError "backend_options require the argument")
  | v => let! z := int_or_value_error v "must be a positive integer" in
         check! (z <=? 0)%Z else ValueError "must be a positive integer" ;; Ok z
  end.

Definition _rollout_temperature_arg (args : dict) : result float :=
  match dget_def (PFloat f1) args "rollout_temperature" with
  | PNone => Ok f1
  | v => match py_float v with
         | Raise _ => Raise (ValueError "--rollout-temperature must be a non-negative float")
         | Ok f => check! fltb f f0 else ValueError "--rollout-temperature must be a non-negative float" ;;
                   Ok f
         end
  end.

Definition _context_parallel_size (args : dict) : result Z :=
  let v := match pget args "context_parallel_size" with
           | PNone => dget_def (PInt 1) args "cp_size"
           | v => v
           end in
  let! z := int_or_value_error v "--context-parallel-size must be a positive integer" in
  check! (z <=? 0)%Z else ValueError "--context-parallel-size must be a positive integer" ;; Ok z.

(** [raw is None or not raw.strip()] *)
Definition env_text (name : string) : option string :=
  match env name with
  | None => None
  | Some raw => if String.eqb (strip raw) "" then None else Some raw
  end.

Definition _compact_threshold (context : Z) (backend : string) : result (option Z) :=
  if negb (bool_decide (backend ∈ ["opencode"; "openclaw"; "claude_code"])) then Ok None
  else match env_text BLACKBOX_COMPACT_THRESHOLD_ENV with
       | None => Ok None
       | Some raw =>
           match parse_int raw with
           | None => Raise (ValueError "DRESSAGE_BLACKBOX_COMPACT_THRESHOLD must be a positive integer")
           | Some t => check! (t <=? 0)%Z || (context <? t)%Z
                         else ValueError "DRESSAGE_BLACKBOX_COMPACT_THRESHOLD must be a positive integer" ;;
                       Ok (Some t)
           end
       end.

Definition _environment_backend_defaults (backend : string) : result dict :=
  match dget _DYNAMIC_BACKEND_KEYS backend, env_text BLACKBOX_MAX_STEPS_ENV with
  | Some _, Some raw =>
      let normalized := lower (strip raw) in
      if String.eqb normalized "0" then Ok [("proxy", PDict [("max_steps", PNone)])]
      else match parse_int normalized with
           | None => Raise (ValueError "DRESSAGE_BLACKBOX_MAX_STEPS must be a positive integer or 0")
           | Some z => check! (z <=? 0)%Z
                         else ValueError "DRESSAGE_BLACKBOX_MAX_STEPS must be a positive integer or 0" ;;
                       Ok [("proxy", PDict [("max_steps", PInt z)])]
           end
  | _, _ => Ok []
  end.

Record TokenDefaults : Type := {
  td_context : Z;
  td_output : Z;
  td_input : Z;
  td_reserved : Z }.

Definition _dynamic_token_defaults (args : dict) (backend : string) : result TokenDefaults :=
  let! max_tokens := _positive_int_arg args "max_tokens_per_gpu" in
  let! cp := _context_parallel_size args in
  let! output := _positive_int_arg args "rollout_max_response_len" in
  let context := (max_tokens * cp)%Z in
  let legacy := (context - output)%Z in
  check! (legacy <=? 0)%Z else ValueError "backend_options require --max-tokens-per-gpu" ;;
  let! threshold := _compact_threshold context backend in
  Ok (match threshold with
      | None => {| td_context := context; td_output := output; td_input := legacy;
                   td_reserved := Z.min (Z.max 1 (legacy / 4)) (Z.min 8192 (legacy - 1)) |}
      | Some t => {| td_context := context; td_output := output; td_input := context;
                     td_reserved := context - t |}
      end).

(** [int(t * 100 / context)] of positive integers; the quotient is the float nearest to
    the exact one when both fit in 53 bits. *)
Definition compact_percent (t context : Z) : Z :=
  match py_int (PFloat (fdiv (f_of_Z (t * 100)) (f_of_Z context))) with
  | Ok z => Z.max 1 (Z.min 100 z)
  | Raise _ => 1
  end.

Definition dynamic_backend_defaults_for (v : pyval) (args : dict) : result dict :=
  let backend := normalize_blackbox_type v in
  let proxy t := ("proxy", PDict [("default_temperature", PFloat t)]) in
  if String.eqb backend "codex" then
    let! t := _rollout_temperature_arg args in Ok [proxy t]
  else
    let! l := _dynamic_token_defaults args backend in
    if String.eqb backend "opencode" then
      let! t := _rollout_temperature_arg args in
      Ok [("model_limit", PDict [("context", PInt (td_context l)); ("output", PInt (td_output l));
                                 ("input", PInt (td_input l))]);
          proxy t;
          ("compaction", PDict (dset DEFAULT_OPENCODE_COMPACTION "reserved" (PInt (td_reserved l))))]
    else if String.eqb backend "openclaw" then
      let! t := _rollout_temperature_arg args in
      Ok [("context_window", PInt (td_context l)); ("max_tokens", PInt (td_output l));
          ("request", PDict [("max_tokens", PInt (td_output l))]); proxy t;
          ("compaction", PDict [("reserve_tokens", PInt (td_reserved l));
                                ("reserve_tokens_floor", PInt (td_reserved l))])]
    else if String.eqb backend "claude_code" then
      let! threshold := _compact_threshold (td_context l) backend in
      let compaction := [("auto", PBool true)] ++
        match threshold with
        | Some c => [("auto_compact_pct_override", PInt (compact_percent c (td_context l)))]
        | None => []
        end in
      let! t := _rollout_temperature_arg args in
      Ok [proxy t; ("compaction", PDict compaction)]
    else Ok [].

Definition _should_add_dynamic_defaults (backend : string) (options : option dict)
    (args : option dict) : bool :=
  match args, dget _DYNAMIC_BACKEND_KEYS backend with
  | Some _, Some keys =>
      match options with
      | None => true
      | Some o => existsb (fun k => match dget o k with
                                    | None => true
                                    | Some (PDict _) => true
                                    | Some _ => false
                                    end) keys
      end
  | _, _ => false
  end.

Definition static_defaults (backend : string) : result dict :=
  let! e := _environment_backend_defaults backend in
  Ok (_deep_merge (dget_def [] _KNOWN_BACKEND_DEFAULTS backend) e).

Definition backend_defaults_for (v : pyval) (args : option dict) : result dict :=
  let backend := normalize_blackbox_type v in
  let! defaults := static_defaults backend in
  match args, dget _DYNAMIC_BACKEND_KEYS backend with
  | Some a, Some _ => let! d := dynamic_backend_defaults_for (PStr backend) a in
                      Ok (_deep_merge defaults d)
  | _, _ => Ok defaults
  end.

(** The defaults that [merge_backend_options] puts under the user's options. *)
Definition layered_defaults (backend : string) (options args : option dict) : result dict :=
  let! defaults := static_defaults backend in
  match args, _should_add_dynamic_defaults backend options args with
  | Some a, true => let! d := dynamic_backend_defaults_for (PStr backend) a in
                    Ok (_deep_merge defaults d)
  | _, _ => Ok defaults
  end.

(** [merge_backend_options]; options that are neither [None] nor a dictionary are
    returned as they are. *)
Definition merge_options (backend : string) (options args : option dict) : result dict :=
  let! defaults := layered_defaults backend options args in
  Ok (match options, defaults with
      | None, _ => defaults
      | Some o, [] => o
      | Some o, _ => _deep_merge defaults o
      end).

Definition merge_backend_options (v options : pyval) (args : option dict) : result pyval :=
  let backend := normalize_blackbox_type v in
  match options with
  | PNone => let! d := merge_options backend None args in Ok (PDict d)
  | PDict o => let! d := merge_options backend (Some o) args in Ok (PDict d)
  | _ => Ok options
  end.
End Backend.

(** ** Facts *)

(** The dictionaries inside a value have distinct keys. *)
Fixpoint dict_regular (v : pyval) : Prop :=
  match v with
  | PDict d => NoDup (map fst d) /\ (fix go (d : list (string * pyval)) : Prop :=
                 match d with [] => True | kv :: r => dict_regular (snd kv) /\ go r end) d
  | _ => True
  end.

Lemma dict_regular_get d k v : dict_regular (PDict d) -> dget d k = Some v -> dict_regular v.
Proof.
  intros [_ R]. induction d as [|[k' x] d IH]; simpl; [done|]. destruct R as [Rx R].
  case_decide; [by intros [= <-]|]. by apply IH.
Qed.

(** [value[k1][k2]...] *)
Fixpoint plookup (path : list string) (v : pyval) : option pyval :=
  match path with
  | [] => Some v
  | k :: rest => match v with
                 | PDict d => match dget d k with Some x => plookup rest x | None => None end
                 | _ => None
                 end
  end.

Definition leaf (v : pyval) : bool := match v with PDict _ => false | _ => true end.

(** The overrides say nothing at or above this path. *)
Fixpoint untouched (path : list string) (o : dict) : Prop :=
  match path with
  | [] => False
  | k :: rest => match dget o k with
                 | None => True
                 | Some (PDict o') => untouched rest o'
                 | Some _ => False
                 end
  end.

Lemma merge_value_dict o m : merge_value (Some (PDict m)) (PDict o) = PDict (_deep_merge m o).
Proof.
  simpl. f_equal. unfold _deep_merge. revert m.
  induction o as [|[k x] o IH]; intros m; simpl; [done|]. by rewrite IH.
Qed.

Lemma dget_deep_merge o : forall m k, NoDup (map fst o) ->
  dget (_deep_merge m o) k =
    match dget o k with None => dget m k | Some v => Some (merge_value (dget m k) v) end.
Proof.
  induction o as [|[k' x] o IH]; intros m k N; simpl; [done|]. apply NoDup_cons in N as [N1 N2].
  change (_deep_merge m ((k', x) :: o)) with
    (_deep_merge (dset m k' (merge_value (dget m k') x)) o).
  rewrite IH by done. destruct (decide (k = k')) as [->|NE].
  - rewrite (proj2 (dget_None_key o k')) by done. by rewrite dget_dset_eq.
  - rewrite dget_dset_ne by done. done.
Qed.

(** A leaf of the overrides is found at its path after the merge. *)
Lemma deep_merge_override path : forall m o v, dict_regular (PDict o) ->
  plookup path (PDict o) = Some v -> leaf v = true ->
  plookup path (PDict (_deep_merge m o)) = Some v.
Proof.
  induction path as [|k path IH]; intros m o v R E L; simpl in *; [by injection E as <-|].
  rewrite dget_deep_merge by apply R. destruct (dget o k) as [x|] eqn:D; [|done].
  pose proof (dict_regular_get _ _ _ R D) as Rx.
  destruct x as [| | | | | |ox]; try exact E.
  destruct (dget m k) as [y|]; [|exact E]. destruct y as [| | | | | |my]; try exact E.
  rewrite merge_value_dict. by apply IH.
Qed.

(** Elsewhere the defaults show through. *)
Lemma deep_merge_default path : forall m o, dict_regular (PDict o) -> untouched path o ->
  (forall d, plookup path (PDict m) = Some d ->
     plookup path (PDict (_deep_merge m o)) = Some d).
Proof.
  induction path as [|k path IH]; intros m o R U d E; simpl in U; [done|]. simpl in *.
  rewrite dget_deep_merge by apply R. destruct (dget o k) as [x|] eqn:D; [|done].
  pose proof (dict_regular_get _ _ _ R D) as Rx. destruct x as [| | | | | |ox]; try done.
  destruct (dget m k) as [y|]; [|done]. destruct y as [| | | | | |my]; try by (destruct path; done).
  rewrite merge_value_dict. by apply IH.
Qed.

Section BackendFacts.
Context `{PyText}.
Variable env : string -> option string.

Lemma raise_if_ok {A} (b : bool) (e : exn) (k : result A) (x : A) :
  (check! b else e ;; k) = Ok x -> b = false /\ k = Ok x.
Proof using. destruct b; simpl; [done|auto]. Qed.

Lemma positive_int_arg_pos args attr z : _positive_int_arg args attr = Ok z -> (0 < z)%Z.
Proof using.
  unfold _positive_int_arg, int_or_value_error. intros E.
  assert (Q : exists v, (let! z0 := (match py_int v with Ok z => Ok z
     | Raise _ => Raise (ValueError "must be a positive integer") end) in
     check! (z0 <=? 0)%Z else ValueError "must be a positive integer" ;; Ok z0) = Ok z).
  { exists (pget args attr). destruct (pget args attr); try done; exact E. }
  destruct Q as [v Q]. destruct (py_int v); [|done]. simpl in Q.
  apply raise_if_ok in Q as [B Q]. injection Q as <-. lia.
Qed.

Lemma context_parallel_pos args z : _context_parallel_size args = Ok z -> (0 < z)%Z.
Proof using.
  unfold _context_parallel_size, int_or_value_error. intros E.
  match type of E with context [py_int ?v] => destruct (py_int v); [|done] end. simpl in E.
  apply raise_if_ok in E as [B E]. injection E as <-. lia.
Qed.

Lemma compact_threshold_bounds context backend t :
  _compact_threshold env context backend = Ok (Some t) -> (0 < t <= context)%Z.
Proof using.
  unfold _compact_threshold. repeat case_match; try done. intros E.
  apply raise_if_ok in E as [B E]. injection E as <-. apply orb_false_iff in B. lia.
Qed.

(** The token limits computed from the rollout arguments are usable whenever the call
    returns: room for the prompt beside the response, and a compaction reserve smaller
    than the window it is taken from, so that compaction starts at a positive size. *)
Theorem token_defaults_bounds args backend d :
  _dynamic_token_defaults env args backend = Ok d ->
  (0 < td_output d < td_context d /\ 0 < td_input d <= td_context d /\
   0 <= td_reserved d < td_input d)%Z.
Proof using.
  unfold _dynamic_token_defaults. intros E.
  destruct (_positive_int_arg args "max_tokens_per_gpu") as [mt|] eqn:E1; [|done]. simpl in E.
  destruct (_context_parallel_size args) as [cp|] eqn:E2; [|done]. simpl in E.
  destruct (_positive_int_arg args "rollout_max_response_len") as [out|] eqn:E3; [|done]. simpl in E.
  apply raise_if_ok in E as [B E].
  destruct (_compact_threshold env (mt * cp) backend) as [[t|]|] eqn:E4; [| |done]; simpl in E;
    injection E as <-; simpl; pose proof (positive_int_arg_pos _ _ _ E3).
  - pose proof (compact_threshold_bounds _ _ _ E4). lia.
  - assert (0 <= (mt * cp - out) / 4)%Z by (apply Z.div_pos; lia). lia.
Qed.

(** The user's backend options win over every default, at every depth, and hide
    nothing else: a value the user gives is found at its path in the merged options, and
    wherever the user gives no value on the path the default is found. *)
Theorem merge_options_precedence v o args r : dict_regular (PDict o) ->
  merge_backend_options env v (PDict o) args = Ok r ->
  exists d, layered_defaults env (normalize_blackbox_type v) (Some o) args = Ok d /\
    (forall path x, plookup path (PDict o) = Some x -> leaf x = true -> plookup path r = Some x) /\
    (forall path x, untouched path o -> plookup path (PDict d) = Some x -> plookup path r = Some x).
Proof using.
  intros R E. unfold merge_backend_options, merge_options in E.
  destruct (layered_defaults env _ _ _) as [d|] eqn:D; [|done].
  simpl in E. injection E as <-. exists d. split; [done|]. clear D.
  assert (M : match d with [] => o | _ :: _ => _deep_merge d o end = o /\ d = [] \/
              match d with [] => o | _ :: _ => _deep_merge d o end = _deep_merge d o).
  { destruct d; auto. }
  destruct M as [[-> ->]| ->]; split.
  - done.
  - intros [|k path] x U; [done|]. done.
  - intros path x. by apply deep_merge_override.
  - intros path x U. by apply deep_merge_default.
Qed.
End BackendFacts.

(** ** Witnesses *)

#[local] Instance w_backend_text : PyText :=
  {| py_repr := fun _ => ""; py_parse_float := fun _ => None |}.

Definition w_backend_env (name : string) : option string :=
  if String.eqb name BLACKBOX_MAX_STEPS_ENV then Some " 30 " else None.

Definition w_backend_args : dict :=
  [("max_tokens_per_gpu", PInt 16384); ("context_parallel_size", PInt 2);
   ("rollout_max_response_len", PInt 4096)].

Lemma token_defaults_bounds_witness : exists d,
  _dynamic_token_defaults w_backend_env w_backend_args "opencode" = Ok d /\
  td_input d = 28672%Z /\ td_reserved d = 7168%Z /\ (0 <= td_reserved d < td_input d)%Z.
Proof.
  destruct (_dynamic_token_defaults w_backend_env w_backend_args "opencode") as [d|] eqn:E;
    [|vm_compute in E; discriminate].
  exists d. pose proof (token_defaults_bounds w_backend_env w_backend_args "opencode" d E) as (_ & _ & B).
  split; [done|]. vm_compute in E. injection E as <-. split_and!; try done; apply B.
Defined.

Definition w_options : dict :=
  [("model_limit", PDict [("output", PInt 100)]); ("proxy", PDict [("keep", PBool true)])].

Lemma merge_options_precedence_witness : exists r,
  merge_backend_options w_backend_env (PStr " OpenCode ") (PDict w_options) (Some w_backend_args) = Ok r /\
  plookup ["model_limit"; "output"] r = Some (PInt 100) /\
  plookup ["model_limit"; "context"] r = Some (PInt 32768) /\
  plookup ["proxy"; "max_steps"] r = Some (PInt 30) /\
  plookup ["proxy"; "keep"] r = Some (PBool true).
Proof.
  destruct (merge_backend_options w_backend_env (PStr " OpenCode ") (PDict w_options)
              (Some w_backend_args)) as [r|] eqn:E; [|vm_compute in E; discriminate].
  assert (R : dict_regular (PDict w_options)) by (simpl; repeat constructor; set_solver).
  destruct (merge_options_precedence w_backend_env (PStr " OpenCode ") w_options (Some w_backend_args) r
    R E) as (d & D & U & K).
  exists r. split; [done|]. vm_compute in D. injection D as <-. split_and!.
  - by apply U.
  - by apply K.
  - by apply K.
  - by apply U.
Defined.
