(* ===== verification/Prewarm.v ===== *)
(** * Sandbox prewarming ([dressage/rollout/prewarm], [dressage/paddock/lifecycle.py])

    [PrewarmStore] owns the initialization task of every sandbox that was started ahead
    of its rollout, until dispatch claims it or it is scheduled for disposal;
    [PrewarmScheduler] fetches groups ahead and asks the store to start their sandboxes.
    A paddock has type [P] and the state its [init] makes type [S].  [Loop] is the event
    loop as these files use it: the numbers of the tasks it has created, the UUIDs it has
    handed out, and the background tasks that [track_lifecycle_task] keeps.  What a task
    does is an argument where the code awaits it. *)

From S2P Require Import Prelude.
From S2P Require Import PyFloat.
From S2P Require Import PyVal.
From S2P Require Import Samples.
From S2P Require Import Mopd.
From S2P Require Import DataSource.
From S2P Require Import Backend.

Local Open Scope string_scope.
Local Open Scope list_scope.
Local Open Scope py_scope.

(** ** Configuration *)

Section Config.
Variable env : string -> option string.

Definition DEFAULT_PREWARM_AHEAD : Z := 8.

Definition prewarm_enabled : result bool :=
  if negb (String.eqb (lower (strip (default "" (env "DRESSAGE_SANDBOX_PROVIDER")))) "e2b")
  then Ok false
  else match env_text env "DRESSAGE_SANDBOX_PREWARM" with
       | None => Ok true
       | Some value =>
           if String.eqb (strip value) "1" then Ok true
           else if String.eqb (strip value) "0" then Ok false
           else Raise (ValueError "DRESSAGE_SANDBOX_PREWARM must be 0 or 1")
       end.

Definition _positive_int_env (name : string) (def : Z) : result Z :=
  match parse_int (default (str_of_Z def) (env name)) with
  | None => Raise (ValueError "must be an integer")
  | Some z => check! (z <=? 0)%Z else ValueError "must be positive" ;; Ok z
  end.

Definition prewarm_ahead : result Z :=
  _positive_int_env "DRESSAGE_SANDBOX_PREWARM_AHEAD" DEFAULT_PREWARM_AHEAD.
End Config.

(** ** Environment arguments ([dressage/rollout/generate/runtime.py]) *)

Definition _PADDOCK_ENV_ARG_KEYS : list string :=
  ["sandbox_timeout_sec"; "sandbox_image"; "sandbox_cmd"; "sandbox_extra_params"].

Definition paddock_env_args_from_metadata (metadata : dict) (extra : dict) : dict :=
  update (omap (fun k => (fun v => (k, v)) <$> dget metadata k) _PADDOCK_ENV_ARG_KEYS) extra.

(** [{"blackbox_type": ...}] when the metadata names one or it is not the default. *)
Definition extra_env_args `{PyText} (metadata : dict) : dict :=
  let blackbox_type := normalize_blackbox_type (py_or (pget metadata "blackbox_type")
                                                       (PStr DEFAULT_BLACKBOX_TYPE)) in
  if phas metadata "blackbox_type" || negb (String.eqb blackbox_type DEFAULT_BLACKBOX_TYPE)
  then [("blackbox_type", PStr blackbox_type)] else [].

(** ** State *)

Record _PrewarmRecord {P : Type} : Type := {
  session_id : string;
  group_id : Z;
  paddock : P;
  env_args : dict;
  task : nat }.
Arguments _PrewarmRecord : clear implicits.

Record PrewarmHandle {P S : Type} : Type := {
  ph_session_id : string;
  ph_group_id : Z;
  ph_paddock : P;
  ph_state : S;
  ph_env_args : dict }.
Arguments PrewarmHandle : clear implicits.

Record PrewarmStore {P : Type} : Type := {
  _records : list (string * _PrewarmRecord P);
  _group_sessions : list (Z * list string) }.
Arguments PrewarmStore : clear implicits.

(** Background work that still owns a sandbox: the disposal of a prewarm, a scheduled
    termination, and a release call that outlived its timeout. *)
Inductive LifecycleWork {P : Type} : Type :=
| Dispose (r : _PrewarmRecord P)
| Terminate (p : P) (sid : string) (args : dict)
| Release (p : P) (sid : string) (args : dict).
Arguments LifecycleWork : clear implicits.

Record Loop {P : Type} : Type := {
  next_task : nat;
  next_uuid : nat;
  lifecycle_tasks : list (nat * LifecycleWork P) }.
Arguments Loop : clear implicits.

Section Store.
Context `{PyText} {P S : Type}.
Variable uuid : nat -> string.

(** [create_task] *)
Definition create_task (lp : Loop P) : nat * Loop P :=
  (next_task lp, {| next_task := 1 + next_task lp; next_uuid := next_uuid lp;
                    lifecycle_tasks := lifecycle_tasks lp |}).

(** [schedule_lifecycle_task] *)
Definition schedule_lifecycle_task (w : LifecycleWork P) (lp : Loop P) : Loop P :=
  let '(t, lp) := create_task lp in
  {| next_task := next_task lp; next_uuid := next_uuid lp;
     lifecycle_tasks := lifecycle_tasks lp ++ [(t, w)] |}.

Definition pending_lifecycle_task_count (lp : Loop P) : nat := length (lifecycle_tasks lp).

Definition uuid4 (lp : Loop P) : string * Loop P :=
  (uuid (next_uuid lp), {| next_task := next_task lp; next_uuid := 1 + next_uuid lp;
                           lifecycle_tasks := lifecycle_tasks lp |}).

Definition with_session (sid : option string) (s : Sample) : Sample :=
  {| index := index s; group_index := group_index s; sp_session_id := sid; tokens := tokens s;
     response := response s; response_length := response_length s; loss_mask := loss_mask s;
     rollout_log_probs := rollout_log_probs s; reward := reward s; status := status s;
     remove_sample := remove_sample s; rollout_id := rollout_id s; metadata := metadata s;
     rollout_routed_experts := rollout_routed_experts s; sp_prompt := sp_prompt s;
     sp_label := sp_label s; sp_generate_function_path := sp_generate_function_path s |}.

Definition with_metadata (m : dict) (s : Sample) : Sample :=
  {| index := index s; group_index := group_index s; sp_session_id := sp_session_id s;
     tokens := tokens s; response := response s; response_length := response_length s;
     loss_mask := loss_mask s; rollout_log_probs := rollout_log_probs s; reward := reward s;
     status := status s; remove_sample := remove_sample s; rollout_id := rollout_id s;
     metadata := Some m; rollout_routed_experts := rollout_routed_experts s;
     sp_prompt := sp_prompt s; sp_label := sp_label s;
     sp_generate_function_path := sp_generate_function_path s |}.

Definition deterministic_session (s : Sample) : option string :=
  match pget (default [] (metadata s)) "dressage_deterministic_session_id" with
  | PStr d => Some d
  | _ => None
  end.

Definition with_prefix (sid : string) : string :=
  if String.prefix "bbs-" sid then sid else "bbs-" +:+ sid.

Definition ensure_blackbox_session_id (s : Sample) (lp : Loop P)
    : result (Sample * string * Loop P) :=
  match deterministic_session s with
  | Some d =>
      let! retry := py_int (dget_def (PInt 0) (default [] (metadata s)) "dressage_retry_count") in
      let sid := with_prefix (if (retry =? 0)%Z then d else d +:+ "-retry-" +:+ str_of_Z retry) in
      Ok (with_session (Some sid) s, sid, lp)
  | None =>
      let '(raw, lp) := match sp_session_id s with Some x => (x, lp) | None => uuid4 lp end in
      let sid := with_prefix raw in
      Ok (with_session (Some sid) s, sid, lp)
  end.

(** ** [PrewarmStore] *)

Definition unclaimed_count (st : PrewarmStore P) : nat := length (_records st).

(** [setdefault(group_id, set()).add(session_id)] *)
Definition add_session (gs : list (Z * list string)) (gid : Z) (sid : string)
    : list (Z * list string) :=
  let set := dget_def [] gs gid in
  dset gs gid (if bool_decide (sid ∈ set) then set else set ++ [sid]).

(** The session id, [None] when the session is already being prewarmed. *)
Definition start (s : Sample) (gid : Z) (p : P) (args : dict) (st : PrewarmStore P) (lp : Loop P)
    : result (Sample * option string * PrewarmStore P * Loop P) :=
  let! sl := ensure_blackbox_session_id s lp in
  let '(s, sid, lp) := sl in
  match dget (_records st) sid with
  | Some _ => Ok (s, None, st, lp)
  | None =>
      let '(t, lp) := create_task lp in
      let r := {| session_id := sid; group_id := gid; paddock := p; env_args := args; task := t |} in
      Ok (s, Some sid,
          {| _records := dset (_records st) sid r;
             _group_sessions := add_session (_group_sessions st) gid sid |}, lp)
  end.

(** The sessions of a group without [sid]; an empty set is dropped. *)
Definition discard_session (gs : list (Z * list string)) (gid : Z) (sid : string)
    : list (Z * list string) :=
  match dget gs gid with
  | None => gs
  | Some set => match List.filter (fun x => negb (String.eqb x sid)) set with
                | [] => dpop gs gid
                | set' => dset gs gid set'
                end
  end.

Definition _take (sid : string) (st : PrewarmStore P) : option (_PrewarmRecord P) * PrewarmStore P :=
  match dget (_records st) sid with
  | None => (None, st)
  | Some r => (Some r, {| _records := dpop (_records st) sid;
                          _group_sessions := discard_session (_group_sessions st) (group_id r) sid |})
  end.

Definition _schedule_dispose (r : _PrewarmRecord P) (lp : Loop P) : Loop P :=
  schedule_lifecycle_task (Dispose r) lp.

Definition _schedule_cleanup_records (rs : list (_PrewarmRecord P)) (lp : Loop P) : Loop P :=
  fold_left (fun lp r => _schedule_dispose r lp) rs lp.

(** How the await of a record's task ends. *)
Inductive init_outcome : Type :=
| InitReady (state : S)
| InitFailed
| ClaimCancelled.

Inductive claim_result : Type :=
| NoPrewarm
| Fallback (r : _PrewarmRecord P)
| Handle (r : _PrewarmRecord P) (h : PrewarmHandle P S)
| Cancelled (r : _PrewarmRecord P).

Definition claim (sid : option string) (o : nat -> init_outcome) (st : PrewarmStore P) (lp : Loop P)
    : claim_result * PrewarmStore P * Loop P :=
  match sid with
  | None => (NoPrewarm, st, lp)
  | Some sid =>
      match _take sid st with
      | (None, st) => (NoPrewarm, st, lp)
      | (Some r, st) =>
          match o (task r) with
          | ClaimCancelled => (Cancelled r, st, _schedule_dispose r lp)
          | InitFailed => (Fallback r, st, lp)
          | InitReady state =>
              (Handle r {| ph_session_id := session_id r; ph_group_id := group_id r;
                           ph_paddock := paddock r; ph_state := state; ph_env_args := env_args r |},
               st, lp)
          end
      end
  end.

(** Removing the records of the given sessions; those found are returned in order. *)
Fixpoint pop_records (sids : list string) (rs : list (string * _PrewarmRecord P))
    : list (_PrewarmRecord P) * list (string * _PrewarmRecord P) :=
  match sids with
  | [] => ([], rs)
  | sid :: rest =>
      let '(l, rs') := pop_records rest (dpop rs sid) in
      (match dget rs sid with Some r => r :: l | None => l end, rs')
  end.

Definition cleanup_group (gid : Z) (st : PrewarmStore P) (lp : Loop P) : PrewarmStore P * Loop P :=
  let '(l, rs) := pop_records (dget_def [] (_group_sessions st) gid) (_records st) in
  ({| _records := rs; _group_sessions := dpop (_group_sessions st) gid |},
   _schedule_cleanup_records l lp).

Definition cleanup_all (st : PrewarmStore P) (lp : Loop P) : PrewarmStore P * Loop P :=
  ({| _records := []; _group_sessions := [] |},
   _schedule_cleanup_records (map snd (_records st)) lp).
End Store.
Arguments init_outcome : clear implicits.
Arguments claim_result : clear implicits.

(** ** Lifecycle work ([dressage/paddock/lifecycle.py]) *)

Section Lifecycle.
Context `{PyText} {P : Type}.
Variable env : string -> option string.

Definition terminate_timeout_sec : float :=
  match py_parse_float (default "30" (env "DRESSAGE_PADDOCK_TERMINATE_TIMEOUT_SEC")) with
  | None => f_of_Z 30
  | Some timeout => if fleb timeout f0 then f_of_Z 30 else timeout
  end.

(** How the wait for a release call ends. *)
Inductive release_outcome : Type :=
| Released
| ReleaseFailed
| ReleaseTimedOut
| ReleaseCancelled.

(** [track_lifecycle_task] *)
Definition track_lifecycle_task (t : nat) (w : LifecycleWork P) (lp : Loop P) : Loop P :=
  {| next_task := next_task lp; next_uuid := next_uuid lp;
     lifecycle_tasks := lifecycle_tasks lp ++ [(t, w)] |}.

(** The call is made in a task of its own, which outlives a timeout or a cancellation.
    The flag says that [CancelledError] is raised. *)
Definition terminate_paddock_best_effort (p : P) (sid : string) (args : dict)
    (o : release_outcome) (lp : Loop P) : bool * Loop P :=
  let '(t, lp) := create_task lp in
  match o with
  | ReleaseCancelled => (true, track_lifecycle_task t (Release p sid args) lp)
  | ReleaseTimedOut => (false, track_lifecycle_task t (Release p sid args) lp)
  | Released | ReleaseFailed => (false, lp)
  end.

Definition schedule_terminate_paddock (p : P) (sid : string) (args : dict) (lp : Loop P) : Loop P :=
  schedule_lifecycle_task (Terminate p sid args) lp.

(** A tracked task runs to its end: the sandboxes whose release call it makes, and the
    loop after it.  A [Release] is the call itself, made before it was tracked. *)
Definition run_lifecycle (o : nat -> release_outcome) (tw : nat * LifecycleWork P) (lp : Loop P)
    : list string * Loop P :=
  match snd tw with
  | Dispose r => ([session_id r], snd (terminate_paddock_best_effort (paddock r) (session_id r)
                                         (env_args r) (o (fst tw)) lp))
  | Terminate p sid args => ([sid], snd (terminate_paddock_best_effort p sid args (o (fst tw)) lp))
  | Release _ _ _ => ([], lp)
  end.

Fixpoint gather (o : nat -> release_outcome) (tasks : list (nat * LifecycleWork P)) (lp : Loop P)
    : list string * Loop P :=
  match tasks with
  | [] => ([], lp)
  | tw :: rest => let '(l, lp) := run_lifecycle o tw lp in
                  let '(l', lp) := gather o rest lp in (l ++ l', lp)
  end.

(** [for task in tasks: tracked.discard(task)] *)
Definition drop_finished (tasks : list (nat * LifecycleWork P)) (lp : Loop P) : Loop P :=
  {| next_task := next_task lp; next_uuid := next_uuid lp;
     lifecycle_tasks := List.filter (fun tw => negb (bool_decide (fst tw ∈ map fst tasks)))
                                    (lifecycle_tasks lp) |}.

(** [drain_lifecycle_tasks]; [None] when the fuel runs out. *)
Fixpoint drain_lifecycle_tasks (fuel : nat) (o : nat -> release_outcome) (lp : Loop P)
    : option (list string * Loop P) :=
  match fuel with
  | O => None
  | S n =>
      match lifecycle_tasks lp with
      | [] => Some ([], lp)
      | tasks => let '(l, lp) := gather o tasks lp in
                 '(l', lp) ← drain_lifecycle_tasks n o (drop_finished tasks lp);
                 Some (l ++ l', lp)
      end
  end.
End Lifecycle.

(** ** [PrewarmScheduler] *)

Record PrewarmScheduler : Type := {
  sched_enabled : bool;
  ahead : Z;
  _prefetched_groups : list (Z * list Sample);
  _next_group_id : Z }.

Section Scheduler.
Context `{PyText} {P D : Type} `{DataBuffer D}.
Variable env : string -> option string.
Variable uuid : nat -> string.

(** [PrewarmScheduler()] *)
Definition PrewarmScheduler__init__ : result PrewarmScheduler :=
  let! en := prewarm_enabled env in
  let! n := (if en then prewarm_ahead env else Ok 0%Z) in
  Ok {| sched_enabled := en; ahead := n; _prefetched_groups := []; _next_group_id := 0 |}.

Definition allocate_group_id (sc : PrewarmScheduler) : Z * PrewarmScheduler :=
  (_next_group_id sc,
   {| sched_enabled := sched_enabled sc; ahead := ahead sc;
      _prefetched_groups := _prefetched_groups sc; _next_group_id := (_next_group_id sc + 1)%Z |}).

Definition with_prefetched (l : list (Z * list Sample)) (sc : PrewarmScheduler) : PrewarmScheduler :=
  {| sched_enabled := sched_enabled sc; ahead := ahead sc; _prefetched_groups := l;
     _next_group_id := _next_group_id sc |}.

(** One sample of [_prefetch_and_prewarm]: its state, and whether a sandbox was started. *)
Definition prewarm_sample (p : P) (gid : Z) (s : Sample) (st : PrewarmStore P) (lp : Loop P)
    : Sample * PrewarmStore P * Loop P * result bool :=
  let m := default [] (metadata s) in
  let s := with_metadata m s in
  let args := paddock_env_args_from_metadata m (extra_env_args m) in
  match start uuid s gid p args st lp with
  | Raise e => (s, st, lp, Raise e)
  | Ok (s, None, st, lp) => (s, st, lp, Ok false)
  | Ok (s, Some _, st, lp) =>
      (with_metadata (dset (default [] (metadata s)) "prewarm_requested" (PBool true)) s, st, lp, Ok true)
  end.

(** The samples are changed in place, also when a later one raises. *)
Fixpoint prewarm_samples (p : P) (gid : Z) (l : list Sample) (st : PrewarmStore P) (lp : Loop P)
    : list Sample * PrewarmStore P * Loop P * result nat :=
  match l with
  | [] => ([], st, lp, Ok 0%nat)
  | s :: rest =>
      match prewarm_sample p gid s st lp with
      | (s, st, lp, Raise e) => (s :: rest, st, lp, Raise e)
      | (s, st, lp, Ok b) =>
          let '(rest, st, lp, n) := prewarm_samples p gid rest st lp in
          (s :: rest, st, lp, let! k := n in Ok ((if b then 1 else 0) + k)%nat)
      end
  end.

(** [p] is the paddock of the environment, [None] when it cannot be built. *)
Definition _prefetch_and_prewarm (p : option P) (group : list Sample) (gid : Z)
    (st : PrewarmStore P) (lp : Loop P) : list Sample * PrewarmStore P * Loop P * result nat :=
  match p with
  | None => (group, st, lp, Ok 0%nat)
  | Some p => prewarm_samples p gid group st lp
  end.

(** The loop of [do_prefetch]; [n] is the number of groups still missing.  When the data
    buffer raises, the groups queued before stay queued. *)
Fixpoint prefetch_loop (p : option P) (n : nat) (d : D) (sc : PrewarmScheduler)
    (st : PrewarmStore P) (lp : Loop P)
    : D * PrewarmScheduler * PrewarmStore P * Loop P * result unit :=
  match n with
  | O => (d, sc, st, lp, Ok tt)
  | S n' =>
      match db_get 1 d with
      | Raise e => (d, sc, st, lp, Raise e)
      | Ok (d, []) => (d, sc, st, lp, Ok tt)
      | Ok (d, group :: _) =>
          let '(gid, sc) := allocate_group_id sc in
          let '(group, st, lp, _) := _prefetch_and_prewarm p group gid st lp in
          prefetch_loop p n' d (with_prefetched (_prefetched_groups sc ++ [(gid, group)]) sc) st lp
      end
  end.

Definition do_prefetch (p : option P) (d : D) (sc : PrewarmScheduler) (st : PrewarmStore P)
    (lp : Loop P) : D * PrewarmScheduler * PrewarmStore P * Loop P * result unit :=
  if negb (sched_enabled sc) then (d, sc, st, lp, Ok tt)
  else if negb (Nat.eqb (pending_lifecycle_task_count lp) 0) then (d, sc, st, lp, Ok tt)
  else prefetch_loop p (Z.to_nat (ahead sc - Z.of_nat (length (_prefetched_groups sc)))) d sc st lp.

Definition pop_next_group (d : D) (sc : PrewarmScheduler)
    : result (D * PrewarmScheduler * option (Z * list Sample)) :=
  match _prefetched_groups sc with
  | g :: rest => Ok (d, with_prefetched rest sc, Some g)
  | [] =>
      let! dg := db_get 1 d in
      match snd dg with
      | [] => Ok (fst dg, sc, None)
      | group :: _ => let '(gid, sc) := allocate_group_id sc in Ok (fst dg, sc, Some (gid, group))
      end
  end.

(** [cleanup]: what was fetched but not dispatched is dropped. *)
Definition cleanup (sc : PrewarmScheduler) (st : PrewarmStore P) (lp : Loop P)
    : PrewarmScheduler * PrewarmStore P * Loop P :=
  let '(st, lp) := cleanup_all st lp in (with_prefetched [] sc, st, lp).
End Scheduler.

(** ** The store's invariant *)

Section StoreFacts.
Context `{PyText} {P S : Type}.
Variable uuid : nat -> string.
Implicit Types (st : PrewarmStore P) (lp : Loop P) (r : _PrewarmRecord P).

(** The two dictionaries agree: a session is listed under exactly its record's group. *)
Record store_wf (st : PrewarmStore P) : Prop := {
  wf_keys : NoDup (dkeys (_records st));
  wf_sid : forall sid r, dget (_records st) sid = Some r -> session_id r = sid;
  wf_groups : NoDup (dkeys (_group_sessions st));
  wf_index : forall gid sid, sid ∈ dget_def [] (_group_sessions st) gid <->
               exists r, dget (_records st) sid = Some r /\ group_id r = gid;
  wf_sets : forall gid l, dget (_group_sessions st) gid = Some l -> l <> [] /\ NoDup l }.

Definition empty_store : PrewarmStore P := {| _records := []; _group_sessions := [] |}.

Lemma empty_store_wf : store_wf empty_store.
Proof using.
  constructor; simpl; [constructor|done|constructor| |done].
  intros gid sid. unfold dget_def. simpl. split; [by intros ?%elem_of_nil|by intros (r & ? & _)].
Qed.

Lemma wf_sets_NoDup st gid : store_wf st -> NoDup (dget_def [] (_group_sessions st) gid).
Proof using.
  intros W. unfold dget_def. destruct (dget _ gid) eqn:E; [|constructor]. by eapply wf_sets.
Qed.

Lemma dpop_perm (rs : list (string * _PrewarmRecord P)) sid r :
  dget rs sid = Some r -> map snd rs ≡ₚ r :: map snd (dpop rs sid).
Proof using. intros E. by rewrite (dget_dpop_perm _ _ _ E) at 1. Qed.

Lemma add_session_get gs gid sid gid' x :
  x ∈ dget_def [] (add_session gs gid sid) gid' <->
  x ∈ dget_def [] gs gid' \/ (gid' = gid /\ x = sid).
Proof using.
  unfold add_session, dget_def at 1. destruct (decide (gid' = gid)) as [->|N].
  - rewrite dget_dset_eq. case_bool_decide; [|rewrite elem_of_app, list_elem_of_singleton]; intuition congruence.
  - rewrite dget_dset_ne by done. fold (dget_def [] gs gid'). intuition congruence.
Qed.

Lemma start_wf s gid p args st lp s' o st' lp' : store_wf st ->
  start uuid s gid p args st lp = Ok (s', o, st', lp') -> store_wf st'.
Proof using.
  intros W E. unfold start in E. destruct (ensure_blackbox_session_id _ s lp) as [[[s1 sid] lp1]|]; [|done].
  simpl in E. destruct (dget (_records st) sid) as [r|] eqn:D; injection E as <- <- <- <-; [done|].
  destruct W as [W1 W2 W3 W4 W5]. constructor; simpl.
  - by apply dset_NoDup.
  - intros sid' r. rewrite dget_dset. case_decide; [by intros [= <-]|]. apply W2.
  - by apply dset_NoDup.
  - intros g x. rewrite add_session_get, W4, dget_dset. split.
    + intros [(r & R & G)|[-> ->]].
      * exists r. case_decide; [congruence|done].
      * eexists. by rewrite decide_True.
    + intros (r & R & G). case_decide; [right; injection R as <-; simpl in G; by subst|left; by exists r].
  - intros g l. unfold add_session. rewrite dget_dset. case_decide; [|apply W5].
    intros [= <-]. case_bool_decide as I; [|].
    + unfold dget_def in *. destruct (dget (_group_sessions st) gid) eqn:G; [by eapply W5|].
      by apply elem_of_nil in I.
    + split; [by destruct (dget_def [] _ _)|]. apply NoDup_app. split_and!.
      * unfold dget_def. destruct (dget (_group_sessions st) gid) eqn:G; [by eapply W5|constructor].
      * intros x Ix ->%list_elem_of_singleton. done.
      * apply NoDup_singleton.
Qed.

Lemma discard_session_get gs gid sid gid' x : NoDup (dkeys gs) ->
  x ∈ dget_def [] (discard_session gs gid sid) gid' <->
  x ∈ dget_def [] gs gid' /\ ~ (gid' = gid /\ x = sid).
Proof using.
  intros N. unfold discard_session. destruct (dget gs gid) as [set|] eqn:G.
  - assert (M : forall x, x ∈ List.filter (fun x => negb (String.eqb x sid)) set <-> x ∈ set /\ x <> sid).
    { intros y. rewrite !list_elem_of_In, filter_In, negb_true_iff, String.eqb_neq. done. }
    destruct (decide (gid' = gid)) as [->|NE].
    + unfold dget_def at 2. rewrite G. specialize (M x).
      destruct (List.filter _ set) as [|y l] eqn:F; unfold dget_def.
      * rewrite dget_dpop_eq by done. rewrite M. intuition congruence.
      * rewrite dget_dset_eq, M. intuition congruence.
    + destruct (List.filter _ set) as [|y l]; unfold dget_def;
        [rewrite dget_dpop_ne by done|rewrite dget_dset_ne by done]; intuition congruence.
  - unfold dget_def. destruct (decide (gid' = gid)) as [->|NE]; [rewrite G|]; [|intuition congruence].
    split; [by intros ?%elem_of_nil|by intros [? _]].
Qed.

Lemma take_wf sid st o st' : store_wf st -> _take sid st = (o, st') -> store_wf st'.
Proof using.
  intros W E. unfold _take in E. destruct (dget (_records st) sid) as [r|] eqn:D;
    injection E as <- <-; [|done].
  destruct W as [W1 W2 W3 W4 W5]. constructor; simpl.
  - by apply dpop_NoDup.
  - intros sid' r'. rewrite dget_dpop by done. case_decide; [done|]. apply W2.
  - unfold discard_session. repeat case_match; auto using dpop_NoDup, dset_NoDup.
  - intros g x. rewrite discard_session_get, W4 by done. rewrite dget_dpop by done. split.
    + intros [(r' & R & G) N]. exists r'. case_decide as Dx; [|done]. subst x.
      destruct N. split; [congruence|done].
    + intros (r' & R & G). case_decide; [done|]. split; [by exists r'|]. by intros [_ ->].
  - intros g l. unfold discard_session. destruct (dget (_group_sessions st) (group_id r)) as [set|] eqn:G;
      [|apply W5].
    destruct (List.filter _ set) as [|y fl] eqn:F.
    + rewrite dget_dpop by done. case_decide; [done|apply W5].
    + rewrite dget_dset. case_decide; [|apply W5]. intros [= <-]. rewrite <- F. split; [by rewrite F|].
      apply NoDup_ListNoDup, List.NoDup_filter, NoDup_ListNoDup. by eapply W5.
Qed.

Lemma pop_records_spec sids : forall (rs : list (string * _PrewarmRecord P)) l rs',
  NoDup (dkeys rs) -> pop_records sids rs = (l, rs') ->
  NoDup (dkeys rs') /\
  (forall k, dget rs' k = if bool_decide (k ∈ sids) then None else dget rs k) /\
  map snd rs ≡ₚ l ++ map snd rs'.
Proof using.
  induction sids as [|sid sids IH]; intros rs l rs' N E; simpl in E.
  - injection E as <- <-. done.
  - destruct (pop_records sids (dpop rs sid)) as [l1 rs1] eqn:Q. injection E as <- <-.
    destruct (IH _ _ _ (dpop_NoDup _ _ N) Q) as (N1 & G1 & P1). split; [done|]. split.
    + intros k. rewrite G1, dget_dpop by done.
      destruct (decide (k = sid)) as [->|NE].
      * rewrite decide_True by done. rewrite (bool_decide_true (sid ∈ sid :: sids)) by left. by case_match.
      * rewrite decide_False by done.
        rewrite (bool_decide_ext (k ∈ sids) (k ∈ sid :: sids)); [done|]. rewrite elem_of_cons. intuition congruence.
    + destruct (dget rs sid) as [r|] eqn:D.
      * rewrite (dpop_perm _ _ _ D). simpl. by rewrite P1.
      * rewrite <- P1. clear -D. induction rs as [|[k x] rs IH]; simpl in *; [done|].
        case_decide; [done|]. simpl. f_equiv. by apply IH.
Qed.

Lemma cleanup_group_wf gid st lp st' lp' : store_wf st ->
  cleanup_group gid st lp = (st', lp') -> store_wf st' /\
  forall sid r, dget (_records st') sid = Some r <->
                dget (_records st) sid = Some r /\ group_id r <> gid.
Proof using.
  intros W E. unfold cleanup_group in E. destruct (pop_records _ _) as [l rs] eqn:Q.
  injection E as <- <-. destruct W as [W1 W2 W3 W4 W5].
  destruct (pop_records_spec _ _ _ _ W1 Q) as (N & G & _). simpl.
  assert (K : forall sid r, dget rs sid = Some r <->
    dget (_records st) sid = Some r /\ group_id r <> gid).
  { intros sid r. rewrite G. case_bool_decide as I.
    - apply W4 in I as (r' & R & Gr). split; [done|]. intros [R' Ng]. congruence.
    - split; [|by intros [? _]]. intros R. split; [done|]. intros Gr. apply I, W4. by exists r. }
  split; [|exact K]. constructor; simpl; [done| | by apply dpop_NoDup | |].
  - intros sid r R. apply K in R as [R _]. by apply W2.
  - intros g x. unfold dget_def. rewrite dget_dpop by done. case_decide as Dg.
    + subst g. split; [by intros ?%elem_of_nil|]. intros (r & R & Gr). apply K in R as [_ ?]. done.
    + fold (dget_def [] (_group_sessions st) g). rewrite W4. split; intros (r & R & Gr); exists r.
      * rewrite K. split; [split; [done|congruence]|done].
      * apply K in R as [R _]. done.
  - intros g l'. rewrite dget_dpop by done. case_decide; [done|apply W5].
Qed.

(** ** Who owns a started sandbox *)

(** The calls on the store. *)
Inductive prewarm_op : Type :=
| PStart (s : Sample) (gid : Z) (p : P) (args : dict)
| PClaim (sid : option string) (o : nat -> init_outcome S)
| PCleanupGroup (gid : Z)
| PCleanupAll.

(** The store and the loop, with the tasks the calls have started and given away. *)
Record Prewarming : Type := {
  pw_store : PrewarmStore P;
  pw_loop : Loop P;
  pw_started : list nat;
  pw_claimed : list nat;
  pw_failed : list nat }.

Definition prewarm_step (op : prewarm_op) (w : Prewarming) : result Prewarming :=
  match op with
  | PStart s gid p args =>
      let! q := start uuid s gid p args (pw_store w) (pw_loop w) in
      let '(_, o, st, lp) := q in
      let new := match o with
                 | Some sid => match dget (_records st) sid with Some r => [task r] | None => [] end
                 | None => []
                 end in
      Ok {| pw_store := st; pw_loop := lp; pw_started := pw_started w ++ new;
            pw_claimed := pw_claimed w; pw_failed := pw_failed w |}
  | PClaim sid o =>
      let '(c, st, lp) := claim sid o (pw_store w) (pw_loop w) in
      Ok {| pw_store := st; pw_loop := lp; pw_started := pw_started w;
            pw_claimed := pw_claimed w ++ match c with Handle r _ => [task r] | _ => [] end;
            pw_failed := pw_failed w ++ match c with Fallback r => [task r] | _ => [] end |}
  | PCleanupGroup gid =>
      let '(st, lp) := cleanup_group gid (pw_store w) (pw_loop w) in
      Ok {| pw_store := st; pw_loop := lp; pw_started := pw_started w; pw_claimed := pw_claimed w;
            pw_failed := pw_failed w |}
  | PCleanupAll =>
      let '(st, lp) := cleanup_all (pw_store w) (pw_loop w) in
      Ok {| pw_store := st; pw_loop := lp; pw_started := pw_started w; pw_claimed := pw_claimed w;
            pw_failed := pw_failed w |}
  end.

Fixpoint prewarm_run (ops : list prewarm_op) (w : Prewarming) : result Prewarming :=
  match ops with
  | [] => Ok w
  | op :: rest => let! w := prewarm_step op w in prewarm_run rest w
  end.

Definition initial_prewarming : Prewarming :=
  {| pw_store := empty_store;
     pw_loop := {| next_task := 0; next_uuid := 0; lifecycle_tasks := [] |};
     pw_started := []; pw_claimed := []; pw_failed := [] |}.

(** The tasks scheduled for disposal. *)
Definition disposed (lp : Loop P) : list nat :=
  omap (fun tw => match snd tw with Dispose r => Some (task r) | _ => None end) (lifecycle_tasks lp).

Definition stored (st : PrewarmStore P) : list nat := map task (map snd (_records st)).

Record prewarming_ok (w : Prewarming) : Prop := {
  po_store : store_wf (pw_store w);
  po_owners : pw_started w ≡ₚ stored (pw_store w) ++ pw_claimed w ++ pw_failed w ++ disposed (pw_loop w);
  po_fresh : Forall (fun t => (t < next_task (pw_loop w))%nat) (pw_started w);
  po_distinct : NoDup (pw_started w) }.

Lemma schedule_dispose_disposed r lp :
  disposed (_schedule_dispose r lp) = disposed lp ++ [task r] /\
  (next_task lp <= next_task (_schedule_dispose r lp))%nat.
Proof using.
  unfold disposed, _schedule_dispose, schedule_lifecycle_task. simpl. rewrite omap_app. simpl.
  split; [done|lia].
Qed.

Lemma cleanup_records_disposed l : forall lp,
  disposed (_schedule_cleanup_records l lp) = disposed lp ++ map task l /\
  (next_task lp <= next_task (_schedule_cleanup_records l lp))%nat.
Proof using.
  induction l as [|r l IH]; intros lp; simpl; [rewrite app_nil_r; split; [done|lia]|].
  destruct (IH (_schedule_dispose r lp)) as [E L].
  destruct (schedule_dispose_disposed r lp) as [E' L'].
  unfold _schedule_cleanup_records in *. simpl. rewrite E, E', <- app_assoc. split; [done|lia].
Qed.

Lemma ensure_loop s lp s' sid lp' : ensure_blackbox_session_id uuid s lp = Ok (s', sid, lp') ->
  next_task lp' = next_task lp /\ lifecycle_tasks lp' = lifecycle_tasks lp.
Proof using.
  unfold ensure_blackbox_session_id. destruct (deterministic_session s).
  - destruct (py_int _); simpl; [|done]. by intros [= <- <- <-].
  - destruct (sp_session_id s); simpl; by intros [= <- <- <-].
Qed.

Lemma fresh_mono n m (l : list nat) : Forall (fun t => (t < n)%nat) l -> (n <= m)%nat ->
  Forall (fun t => (t < m)%nat) l.
Proof using. intros F L. eapply Forall_impl; [exact F|]. simpl. lia. Qed.

Lemma start_ok s gid p args w w' : prewarming_ok w ->
  prewarm_step (PStart s gid p args) w = Ok w' -> prewarming_ok w'.
Proof using.
  intros [W O F N] E. simpl in E.
  destruct (start _ _ _ _ _ _ _) as [[[[s' o] st] lp]|] eqn:Q; [|done]. simpl in E. injection E as <-.
  pose proof (start_wf _ _ _ _ _ _ _ _ _ _ W Q) as W'. unfold start in Q.
  destruct (ensure_blackbox_session_id _ s _) as [[[s1 sid] lp1]|] eqn:En; [|done]. simpl in Q.
  destruct (ensure_loop _ _ _ _ _ En) as [Nt Lt].
  destruct (dget (_records (pw_store w)) sid) as [r|] eqn:D; injection Q as <- <- <- <-.
  - rewrite app_nil_r. constructor; simpl; [done| | |done].
    + unfold disposed. by rewrite Lt.
    + by rewrite Nt.
  - simpl. rewrite dget_dset_eq. simpl. constructor; simpl; [done| | |].
    + unfold stored, disposed in *. simpl. rewrite Lt.
      assert (P1 : map task (map snd (dset (_records (pw_store w)) sid
          {| session_id := sid; group_id := gid; paddock := p; env_args := args; task := next_task lp1 |}))
        = map task (map snd (_records (pw_store w))) ++ [next_task lp1]).
      { clear -D. induction (_records (pw_store w)) as [|[k x] rs IH]; simpl in *; [done|].
        case_decide; [done|]. simpl. by rewrite IH. }
      rewrite P1, O. solve_Permutation.
    + apply Forall_app. split; [eapply fresh_mono; [exact F|lia]|]. constructor; [lia|done].
    + apply NoDup_app. split_and!; [done| |apply NoDup_singleton].
      intros t It ->%list_elem_of_singleton. rewrite Forall_forall in F. specialize (F _ It). lia.
Qed.

Lemma take_stored sid st r st' : store_wf st -> _take sid st = (Some r, st') ->
  stored st ≡ₚ task r :: stored st'.
Proof using.
  intros W E. unfold _take in E. destruct (dget (_records st) sid) as [r0|] eqn:D; [|done].
  injection E as -> <-. unfold stored. simpl. by rewrite (dpop_perm _ _ _ D).
Qed.

Lemma prewarm_step_ok op w w' : prewarming_ok w -> prewarm_step op w = Ok w' -> prewarming_ok w'.
Proof using.
  intros K E. destruct op as [s gid p args|sid o|gid|]; [by eapply start_ok| | |];
    destruct K as [W O F N]; simpl in E.
  - destruct sid as [sid|]; [|simpl in E; injection E as <-; by constructor; rewrite ?app_nil_r].
    simpl in E. destruct (_take sid (pw_store w)) as [[r|] st] eqn:Tk.
    + pose proof (take_wf _ _ _ _ W Tk) as W'. pose proof (take_stored _ _ _ _ W Tk) as P1.
      destruct (o (task r)); injection E as <-; constructor; simpl; rewrite ?app_nil_r; try done.
      * rewrite O, P1. solve_Permutation.
      * rewrite O, P1. solve_Permutation.
      * destruct (schedule_dispose_disposed r (pw_loop w)) as [-> _]. rewrite O, P1. solve_Permutation.
      * eapply fresh_mono; [exact F|simpl; lia].
    + assert (st = pw_store w) as ->.
      { unfold _take in Tk. destruct (dget _ sid); congruence. }
      injection E as <-. constructor; simpl; rewrite ?app_nil_r; done.
  - destruct (cleanup_group gid _ _) as [st lp] eqn:C. injection E as <-.
    destruct (cleanup_group_wf _ _ _ _ _ W C) as [W' _]. unfold cleanup_group in C.
    destruct (pop_records _ _) as [l rs] eqn:Q. injection C as <- <-.
    destruct (pop_records_spec _ _ _ _ (wf_keys _ W) Q) as (_ & _ & P1).
    destruct (cleanup_records_disposed l (pw_loop w)) as [E2 L2].
    constructor; simpl; [done| |by eapply fresh_mono|done].
    unfold stored in *. rewrite E2, O, P1, map_app. simpl. solve_Permutation.
  - injection E as <-. destruct (cleanup_records_disposed (map snd (_records (pw_store w))) (pw_loop w))
      as [E2 L2].
    constructor; simpl; [apply empty_store_wf| |by eapply fresh_mono|done].
    rewrite E2, O. unfold stored. simpl. solve_Permutation.
Qed.

Lemma prewarm_run_ok ops : forall w w', prewarming_ok w -> prewarm_run ops w = Ok w' -> prewarming_ok w'.
Proof using.
  induction ops as [|op ops IH]; intros w w' K E; simpl in E; [by injection E as <-|].
  destruct (prewarm_step op w) as [w1|] eqn:Q; [|done]. simpl in E.
  eapply IH; [by eapply prewarm_step_ok|done].
Qed.

Lemma initial_ok : prewarming_ok initial_prewarming.
Proof using. constructor; simpl; [apply empty_store_wf|done|constructor|constructor]. Qed.

(** C28: every sandbox that a prewarm started has exactly one owner at any time: the store,
    the rollout that claimed it, the claim that saw its initialization fail, or one
    scheduled disposal; none is disposed twice, disposed after being claimed, or lost; and
    the store's two indexes list the same unclaimed sessions. *)
Theorem prewarm_single_owner ops w : prewarm_run ops initial_prewarming = Ok w ->
  pw_started w ≡ₚ stored (pw_store w) ++ pw_claimed w ++ pw_failed w ++ disposed (pw_loop w) /\
  NoDup (stored (pw_store w) ++ pw_claimed w ++ pw_failed w ++ disposed (pw_loop w)) /\
  (forall gid sid, sid ∈ dget_def [] (_group_sessions (pw_store w)) gid <->
     exists r, dget (_records (pw_store w)) sid = Some r /\ group_id r = gid).
Proof using.
  intros E. destruct (prewarm_run_ok _ _ _ initial_ok E) as [W O F N]. split_and!; [done| |apply W].
  by rewrite <- O.
Qed.

(** When a group completes, its sandboxes that dispatch never claimed, and no others,
    leave the store and are each scheduled for disposal; a full cleanup leaves nothing. *)
Theorem cleanup_group_disposes ops gid w st lp : prewarm_run ops initial_prewarming = Ok w ->
  cleanup_group gid (pw_store w) (pw_loop w) = (st, lp) ->
  (forall sid r, dget (_records st) sid = Some r <->
     dget (_records (pw_store w)) sid = Some r /\ group_id r <> gid) /\
  (exists l, disposed lp = disposed (pw_loop w) ++ l /\
     stored (pw_store w) ≡ₚ l ++ stored st) /\
  dget (_group_sessions st) gid = None /\
  (let '(st', lp') := cleanup_all st lp in
   unclaimed_count st' = 0%nat /\ disposed lp' = disposed lp ++ stored st).
Proof using.
  intros E C. destruct (prewarm_run_ok _ _ _ initial_ok E) as [W _ _ _].
  destruct (cleanup_group_wf _ _ _ _ _ W C) as [W' K]. split; [exact K|]. unfold cleanup_group in C.
  destruct (pop_records _ _) as [l rs] eqn:Q. injection C as <- <-.
  destruct (pop_records_spec _ _ _ _ (wf_keys _ W) Q) as (_ & _ & P1). split; [|split].
  - exists (map task l). split; [apply cleanup_records_disposed|].
    unfold stored. simpl. by rewrite P1, !map_app.
  - simpl. apply dget_dpop_eq, W.
  - unfold cleanup_all. split; [done|]. by apply (cleanup_records_disposed (map snd rs)).
Qed.

(** ** Session ids *)

Lemma bbs_prefix_app p s : String.prefix p (p +:+ s) = true.
Proof using. induction p as [|c p IH]; simpl; [by destruct s|]. by destruct (Ascii.ascii_dec c c). Qed.

Lemma with_prefix_prefix sid : String.prefix "bbs-" (with_prefix sid) = true.
Proof using. unfold with_prefix. destruct (String.prefix "bbs-" sid) eqn:E; [done|]. apply (bbs_prefix_app "bbs-"). Qed.

(** [ensure_blackbox_session_id] gives the sample an id that starts with [bbs-]; asking
    again gives the same id and draws no further UUID, so the prewarm and the dispatch of
    one sample agree on its session. *)
Theorem session_id_stable s lp s' sid lp' : ensure_blackbox_session_id uuid s lp = Ok (s', sid, lp') ->
  sp_session_id s' = Some sid /\ String.prefix "bbs-" sid = true /\
  ensure_blackbox_session_id uuid s' lp' = Ok (s', sid, lp').
Proof using.
  unfold ensure_blackbox_session_id. intros E.
  assert (D : forall x, deterministic_session (with_session x s) = deterministic_session s) by done.
  destruct (deterministic_session s) as [d|] eqn:Ds.
  - destruct (py_int _) as [z|] eqn:Z; [|done]. simpl in E. injection E as <- <- <-.
    split; [done|]. split; [apply with_prefix_prefix|]. rewrite D. simpl metadata. rewrite Z. done.
  - destruct (match sp_session_id s with Some x => (x, lp) | None => uuid4 uuid lp end) as [raw lp1].
    injection E as <- <- <-. split; [done|]. split; [apply with_prefix_prefix|]. rewrite D. simpl.
    assert (I : with_prefix (with_prefix raw) = with_prefix raw).
    { unfold with_prefix at 1. by rewrite with_prefix_prefix. }
    by rewrite I.
Qed.
End StoreFacts.

(** ** Draining *)

Section DrainFacts.
Context `{PyText} {P : Type}.
Implicit Types (lp : Loop P).

(** The sandboxes whose release the tracked work still has to call. *)
Definition owed (tasks : list (nat * LifecycleWork P)) : list string :=
  omap (fun tw => match snd tw with
                  | Dispose r => Some (session_id r)
                  | Terminate _ sid _ => Some sid
                  | Release _ _ _ => None
                  end) tasks.

Definition loop_fresh lp : Prop := Forall (fun tw => (fst tw < next_task lp)%nat) (lifecycle_tasks lp).

Lemma gather_spec o tasks : forall lp, exists new, let '(l, lp') := gather o tasks lp in
  l = owed tasks /\ lifecycle_tasks lp' = lifecycle_tasks lp ++ new /\ owed new = [] /\
  (length new <= length (owed tasks))%nat /\ (next_task lp <= next_task lp')%nat /\
  Forall (fun tw => (next_task lp <= fst tw < next_task lp')%nat) new.
Proof using.
  induction tasks as [|tw tasks IH]; intros lp.
  - exists []. simpl. rewrite app_nil_r. split_and!; auto.
  - assert (R : exists n1, let '(l1, lp1) := run_lifecycle o tw lp in
      l1 = owed [tw] /\ lifecycle_tasks lp1 = lifecycle_tasks lp ++ n1 /\ owed n1 = [] /\
      (length n1 <= length (owed [tw]))%nat /\ (next_task lp <= next_task lp1)%nat /\
      Forall (fun tw => (next_task lp <= fst tw < next_task lp1)%nat) n1).
    { destruct tw as [t [r|p sid args|p sid args]]; simpl;
        [destruct (o t)|destruct (o t)|]; simpl;
        first [exists []; rewrite app_nil_r; simpl; split_and!; auto; lia
              |eexists [_]; simpl; split_and!; auto; try lia; repeat constructor; simpl; lia]. }
    destruct R as [n1 R]. cbn [gather]. destruct (run_lifecycle o tw lp) as [l1 lp1].
    destruct R as (-> & T1 & O1 & L1 & N1 & F1).
    destruct (IH lp1) as [n2 R2]. destruct (gather o tasks lp1) as [l2 lp2].
    destruct R2 as (-> & T2 & O2 & L2 & N2 & F2). exists (n1 ++ n2).
    assert (OA : forall a b, owed (a ++ b) = owed a ++ owed b) by (intros; apply omap_app).
    change (tw :: tasks) with ([tw] ++ tasks). rewrite !OA, !length_app.
    split_and!; [done|by rewrite T2, T1, <- app_assoc|by rewrite O1, O2|lia|lia|].
    apply Forall_app. split; (eapply Forall_impl; [eassumption|simpl; lia]).
Qed.

Lemma drop_finished_spec tasks new lp : lifecycle_tasks lp = tasks ++ new ->
  (forall tw, tw ∈ new -> forall tw', tw' ∈ tasks -> fst tw <> fst tw') ->
  lifecycle_tasks (drop_finished tasks lp) = new.
Proof using.
  intros E D. unfold drop_finished. simpl. rewrite E, List.filter_app. rewrite filter_none, filter_all.
  - done.
  - apply Forall_forall. intros tw I. apply negb_true_iff, bool_decide_false.
    intros (tw' & E' & I')%list_elem_of_fmap. by apply (D tw I tw' I').
  - apply Forall_forall. intros tw I. apply negb_false_iff, bool_decide_true.
    apply list_elem_of_fmap. by exists tw.
Qed.

Lemma drain_round o lp : loop_fresh lp -> lifecycle_tasks lp <> [] ->
  exists lp', loop_fresh lp' /\ owed (lifecycle_tasks lp') = [] /\
    (owed (lifecycle_tasks lp) = [] -> lifecycle_tasks lp' = []) /\
    forall n, drain_lifecycle_tasks (S n) o lp =
      '(l', lp2) ← drain_lifecycle_tasks n o lp'; Some (owed (lifecycle_tasks lp) ++ l', lp2).
Proof using.
  intros F NE. destruct (lifecycle_tasks lp) as [|tw tasks] eqn:T; [done|].
  destruct (gather_spec o (tw :: tasks) lp) as [new G].
  destruct (gather o (tw :: tasks) lp) as [l lp1] eqn:Q. destruct G as (-> & T1 & O1 & L1 & N1 & F1).
  assert (R : lifecycle_tasks (drop_finished (tw :: tasks) lp1) = new).
  { apply drop_finished_spec; [by rewrite T1, T|]. intros x Ix y Iy E.
    rewrite Forall_forall in F1. specialize (F1 _ Ix). unfold loop_fresh in F. rewrite T in F.
    rewrite Forall_forall in F. specialize (F _ Iy). lia. }
  exists (drop_finished (tw :: tasks) lp1). rewrite R.
  split_and!; [|done| |intros n; cbn [drain_lifecycle_tasks]; by rewrite T, Q].
  - unfold loop_fresh. rewrite R. simpl. eapply Forall_impl; [exact F1|]. simpl. lia.
  - intros Z. rewrite Z in L1. destruct new; [done|simpl in L1; lia].
Qed.

(** Draining at shutdown ends after at most two rounds of waiting, even when release
    calls time out and are tracked again meanwhile; nothing is tracked afterwards and the
    release of every sandbox that was owed one has been called exactly once, in order. *)
Theorem drain_ends o lp : loop_fresh lp ->
  exists lp', drain_lifecycle_tasks 3 o lp = Some (owed (lifecycle_tasks lp), lp') /\
    lifecycle_tasks lp' = [].
Proof using.
  intros F. destruct (lifecycle_tasks lp) as [|tw tasks] eqn:T.
  { exists lp. simpl. by rewrite T. }
  destruct (drain_round o lp F) as (lp1 & F1 & O1 & _ & R1); [by rewrite T|]. rewrite R1, T.
  destruct (lifecycle_tasks lp1) as [|tw1 tasks1] eqn:T1.
  { exists lp1. simpl. rewrite T1. simpl. by rewrite app_nil_r. }
  destruct (drain_round o lp1 F1) as (lp2 & F2 & _ & O2 & R2); [by rewrite T1|].
  rewrite R2, T1. rewrite T1 in O2. simpl in O1. specialize (O2 O1).
  exists lp2. simpl. rewrite O2. simpl. rewrite !app_nil_r. simpl in O1. rewrite O1.
  by rewrite app_nil_r.
Qed.
End DrainFacts.

(** ** What the scheduler prefetches *)

Section SchedulerFacts.
Context `{PyText} {P D : Type} `{DataBuffer D}.
Variable uuid : nat -> string.

(** The samples of a group before and after its sandboxes are started: only the session
    and the metadata may change. *)
Definition same_sample (s s' : Sample) : Prop :=
  index s' = index s /\ group_index s' = group_index s /\ sp_prompt s' = sp_prompt s /\
  sp_label s' = sp_label s /\ status s' = status s.

Lemma prewarm_samples_same (p : P) gid l : forall st lp l' st' lp' n,
  prewarm_samples uuid p gid l st lp = (l', st', lp', n) -> Forall2 same_sample l l'.
Proof using.
  assert (refl : forall l, Forall2 same_sample l l).
  { intros l0. induction l0; constructor; [done|auto]. }
  induction l as [|s l IH]; intros st lp l' st' lp' n E; simpl in E.
  - injection E as <- <- <- <-. constructor.
  - destruct (prewarm_sample uuid p gid s st lp) as [[[s1 st1] lp1] r] eqn:Q.
    assert (S1 : same_sample s s1).
    { unfold prewarm_sample, start in Q.
      destruct (ensure_blackbox_session_id _ _ lp) as [[[s2 sid] lp2]|] eqn:En; simpl in Q;
        [|by injection Q as <- <- <- <-].
      assert (S2 : same_sample s s2).
      { unfold ensure_blackbox_session_id in En. destruct (deterministic_session _).
        - destruct (py_int _); simpl in En; [|done]. by injection En as <- <- <-.
        - destruct (sp_session_id _); simpl in En; by injection En as <- <- <-. }
      destruct (dget (_records st) sid); simpl in Q; by injection Q as <- <- <- <-. }
    destruct r.
    + destruct (prewarm_samples uuid p gid l st1 lp1) as [[[r2 st2] lp2] n2] eqn:R.
      injection E as <- <- <- <-. constructor; [done|by eapply IH].
    + injection E as <- <- <- <-. by constructor.
Qed.

Lemma prefetch_loop_spec (p : option P) n : forall (d : D) sc st lp d' sc' st' lp' o,
  prefetch_loop uuid p n d sc st lp = (d', sc', st', lp', o) ->
  exists new, _prefetched_groups sc' = _prefetched_groups sc ++ new /\
    map fst new = seqZ (_next_group_id sc) (Z.of_nat (length new)) /\
    _next_group_id sc' = (_next_group_id sc + Z.of_nat (length new))%Z /\
    (length new <= n)%nat /\ ahead sc' = ahead sc /\ sched_enabled sc' = sched_enabled sc.
Proof using.
  induction n as [|n IH]; intros d sc st lp d' sc' st' lp' o E; simpl in E.
  - injection E as <- <- <- <- _. exists []. rewrite app_nil_r. simpl. split_and!; auto; lia.
  - destruct (db_get 1 d) as [[d1 [|g out]]|].
    1, 3: injection E as <- <- <- <- _; exists []; rewrite app_nil_r; simpl; split_and!; auto; lia.
    + destruct (_prefetch_and_prewarm uuid p g (_next_group_id sc) st lp) as [[[g' st1] lp1] r].
      destruct (IH _ _ _ _ _ _ _ _ _ E) as (new & E1 & E2 & E3 & L & E5 & E6). simpl in *.
      exists ((_next_group_id sc, g') :: new). simpl. rewrite E1, E2, E3, <- app_assoc.
      split_and!; [done| |lia|lia|done|done].
      rewrite (seqZ_cons (_next_group_id sc)) by lia. f_equal. rewrite Z.add_1_r. f_equal. lia.
Qed.

(** Prefetching appends groups to the queue under consecutive group ids and never
    holds more than [ahead] of them because of it; it does nothing when prewarming is off
    or while sandboxes still wait for their release. *)
Theorem prefetch_bounded (p : option P) (d : D) sc st lp d' sc' st' lp' o :
  do_prefetch uuid p d sc st lp = (d', sc', st', lp', o) ->
  exists new, _prefetched_groups sc' = _prefetched_groups sc ++ new /\
    map fst new = seqZ (_next_group_id sc) (Z.of_nat (length new)) /\
    _next_group_id sc' = (_next_group_id sc + Z.of_nat (length new))%Z /\
    (new <> [] -> (Z.of_nat (length (_prefetched_groups sc')) <= ahead sc)%Z /\
       sched_enabled sc = true /\ lifecycle_tasks lp = []).
Proof using.
  unfold do_prefetch. intros E. destruct (sched_enabled sc) eqn:En; simpl in E.
  2: { injection E as <- <- <- <- _. exists []. rewrite app_nil_r. simpl. split_and!; auto; [lia|done]. }
  destruct (Nat.eqb_spec (pending_lifecycle_task_count lp) 0) as [Z0|]; simpl in E.
  2: { injection E as <- <- <- <- _. exists []. rewrite app_nil_r. simpl. split_and!; auto; [lia|done]. }
  destruct (prefetch_loop_spec _ _ _ _ _ _ _ _ _ _ _ E) as (new & E1 & E2 & E3 & L & _). exists new.
  split_and!; auto. intros NE. rewrite E1, length_app. split_and!; [|done|].
  - destruct new; [done|simpl in *; lia].
  - unfold pending_lifecycle_task_count in Z0. by destruct (lifecycle_tasks lp).
Qed.
End SchedulerFacts.

(** ** Witnesses *)

#[local] Instance w_prewarm_text : PyText :=
  {| py_repr := fun _ => ""; py_parse_float := fun _ => None |}.

Definition w_uuid (n : nat) : string := "u" +:+ str_of_Z (Z.of_nat n).

Definition w_prewarm_ops : list (prewarm_op (P := unit) (S := unit)) :=
  [PStart (w_row "a") 0 tt []; PStart (w_row "b") 0 tt []; PStart (w_row "c") 1 tt [];
   PStart (w_row "d") 1 tt []; PClaim (Some "bbs-u0") (fun _ => InitReady tt);
   PClaim (Some "bbs-u2") (fun _ => InitFailed); PClaim (Some "bbs-u9") (fun _ => InitFailed)].

Definition w_prewarming : result (Prewarming (P := unit)) :=
  prewarm_run w_uuid w_prewarm_ops initial_prewarming.

Lemma prewarm_single_owner_witness : exists w, w_prewarming = Ok w /\
  pw_started w ≡ₚ [1; 3]%nat ++ [0]%nat ++ [2]%nat ++ [].
Proof.
  destruct w_prewarming as [w|] eqn:E; [|vm_compute in E; discriminate].
  exists w. split; [done|].
  pose proof (prewarm_single_owner w_uuid w_prewarm_ops w E) as (O & _ & _).
  vm_compute in E. injection E as <-. exact O.
Defined.

Lemma cleanup_group_disposes_witness : exists w st lp, w_prewarming = Ok w /\
  cleanup_group 0 (pw_store w) (pw_loop w) = (st, lp) /\
  dget (_group_sessions st) 0%Z = None /\ stored st = [3]%nat /\ disposed lp = [1]%nat.
Proof.
  destruct w_prewarming as [w|] eqn:E; [|vm_compute in E; discriminate].
  destruct (cleanup_group 0 (pw_store w) (pw_loop w)) as [st lp] eqn:C.
  pose proof (cleanup_group_disposes w_uuid w_prewarm_ops 0 w st lp E C) as (_ & _ & G & _).
  exists w, st, lp. split_and!; [done|done|exact G| |];
    vm_compute in E; injection E as <-; vm_compute in C; injection C as <- <-; reflexivity.
Defined.

Definition w_loop : Loop unit := {| next_task := 0; next_uuid := 0; lifecycle_tasks := [] |}.

Lemma session_id_stable_witness : exists s' lp',
  ensure_blackbox_session_id w_uuid (w_row "a") w_loop = Ok (s', "bbs-u0", lp') /\
  ensure_blackbox_session_id w_uuid s' lp' = Ok (s', "bbs-u0", lp').
Proof.
  destruct (ensure_blackbox_session_id w_uuid (w_row "a") w_loop) as [[[s' sid] lp']|] eqn:E;
    [|vm_compute in E; discriminate].
  pose proof (session_id_stable w_uuid (w_row "a") w_loop s' sid lp' E) as (_ & _ & T).
  assert (sid = "bbs-u0") as -> by (vm_compute in E; injection E as _ <- _; reflexivity).
  exists s', lp'. split; [done|exact T].
Defined.

Definition w_busy_loop : Loop unit :=
  schedule_terminate_paddock tt "bbs-1" [] (schedule_terminate_paddock tt "bbs-0" [] w_loop).

(** Both releases time out: a second round waits for the two calls. *)
Lemma drain_ends_witness : loop_fresh w_busy_loop /\
  exists lp', drain_lifecycle_tasks 3 (fun _ => ReleaseTimedOut) w_busy_loop =
    Some (["bbs-0"; "bbs-1"], lp') /\ lifecycle_tasks lp' = [].
Proof.
  assert (F : loop_fresh w_busy_loop) by (unfold loop_fresh; simpl; repeat constructor; simpl; lia).
  split; [exact F|]. exact (drain_ends (fun _ => ReleaseTimedOut) w_busy_loop F).
Defined.

Definition w_buffer : DataBuffer DressageDataSource :=
  source_buffer w_shuffle fsum w_no_parent w_data_args.

Definition w_scheduler : PrewarmScheduler :=
  {| sched_enabled := true; ahead := 2; _prefetched_groups := []; _next_group_id := 5 |}.

Lemma prefetch_bounded_witness : exists d' sc' st' lp',
  do_prefetch (H0 := w_buffer) w_uuid (Some tt) w_source w_scheduler empty_store w_loop =
    (d', sc', st', lp', Ok tt) /\
  map fst (_prefetched_groups sc') = [5; 6]%Z /\ unclaimed_count st' = 4%nat /\
  _next_group_id sc' = 7%Z.
Proof.
  destruct (do_prefetch (H0 := w_buffer) w_uuid (Some tt) w_source w_scheduler empty_store w_loop)
    as [[[[d' sc'] st'] lp'] o] eqn:E.
  destruct (prefetch_bounded (H0 := w_buffer) w_uuid (Some tt) w_source w_scheduler empty_store w_loop
    d' sc' st' lp' o E) as (new & E1 & E2 & E3 & _).
  assert (o = Ok tt) as -> by (vm_compute in E; by injection E).
  exists d', sc', st', lp'. split; [done|]. simpl in E1. rewrite E1, E2, E3.
  vm_compute in E. injection E as <- <- <- <-. vm_compute in E1. subst new. split_and!; reflexivity.
Defined.
