(* ===== verification/RolloutGroups.v ===== *)
(** * Groups coming back from a rollout

    The helpers of [dressage/rollout/fully_async_rollout.py] that the three rollout
    entrypoints share: flattening a generation result, recognizing failed groups, counting
    and preparing retries, the no-gradient placeholder of a group that failed for good, and
    the test that a batch has something to train on.  An exception is its class name and
    its text. *)

From S2P Require Import Prelude.
From S2P Require Import PyFloat.
From S2P Require Import PyVal.
From S2P Require Import Samples.
From S2P Require Import Rewards.
From S2P Require Import Prewarm.
From Stdlib Require Import Ascii.

Local Open Scope string_scope.
Local Open Scope list_scope.
Local Open Scope py_scope.

Record task_error : Type := { err_type : string; err_text : string }.

(** An element of a generation result: a sample, or the segments of one trajectory. *)
Inductive item : Type :=
| One (s : Sample)
| Many (l : list Sample).

Definition item_samples (i : item) : list Sample :=
  match i with One s => [s] | Many l => l end.

(** [_flatten_multi_segment_result] *)
Definition _flatten_multi_segment_result (result : list item) : list Sample :=
  concat (map item_samples result).

Record CompletedGroup : Type := {
  cg_group_id : Z;
  original_group : list Sample;
  cg_result : option (list Sample);
  cg_error : option task_error }.

Definition upper_ascii (c : ascii) : ascii :=
  let n := N_of_ascii c in if ((97 <=? n) && (n <=? 122))%N then ascii_of_N (n - 32) else c.

Fixpoint upper (s : string) : string :=
  match s with
  | EmptyString => EmptyString
  | String c r => String (upper_ascii c) (upper r)
  end.

(** The name of a status is its value in upper case. *)
Definition _sample_status_name (s : Sample) : string := upper (status s).

Definition _is_aborted_group (group : list Sample) : bool :=
  existsb (fun s => String.eqb (_sample_status_name s) "ABORTED") group.

Definition is_failed (c : CompletedGroup) : bool :=
  match cg_error c, cg_result c with
  | Some _, _ | None, None => true
  | None, Some g => _is_aborted_group g
  end.

Definition for_training (c : CompletedGroup) : list Sample :=
  match cg_result c with Some g => g | None => original_group c end.

(** [_completed_from_task]: how a generation task ended. *)
Definition _completed_from_task (gid : Z) (group : list Sample)
    (outcome : list Sample + task_error) : CompletedGroup :=
  match outcome with
  | inl r => {| cg_group_id := gid; original_group := group; cg_result := Some r; cg_error := None |}
  | inr e => {| cg_group_id := gid; original_group := group; cg_result := None; cg_error := Some e |}
  end.

(** [completed.result or completed.original_group] *)
Definition failed_group (c : CompletedGroup) : list Sample :=
  match cg_result c with
  | Some (_ :: _ as g) => g
  | _ => original_group c
  end.

(** [sub in s] *)
Fixpoint str_in (sub s : string) : bool :=
  String.prefix sub s || match s with EmptyString => false | String _ r => str_in sub r end.

Definition _STALENESS_ERROR_MARKER : string := "partial_rollout_staleness_exceeded".

Section Groups.
Context `{PyText}.
Variable env : string -> option string.

Fixpoint _contains_staleness_marker (v : pyval) : bool :=
  match v with
  | PNone => false
  | PDict d => existsb (fun kv => str_in _STALENESS_ERROR_MARKER (fst kv) ||
                                  _contains_staleness_marker (snd kv)) d
  | PList l => existsb _contains_staleness_marker l
  | _ => str_in _STALENESS_ERROR_MARKER (py_str v)
  end.

Definition _sample_metadata (s : Sample) : dict := default [] (metadata s).

Definition _group_has_staleness_failure (group : list Sample) (error : option task_error) : bool :=
  match error with Some e => str_in _STALENESS_ERROR_MARKER (err_text e) | None => false end ||
  existsb (fun s => _contains_staleness_marker (PDict (_sample_metadata s))) group.

(** ** Failure summaries *)

(** [s.split()] *)
Fixpoint split_words (s : string) (word : string) : list string :=
  match s with
  | EmptyString => if String.eqb word "" then [] else [word]
  | String c r =>
      if py_space c then (if String.eqb word "" then [] else [word]) ++ split_words r ""
      else split_words r (word +:+ String c "")
  end.

(** [_short_error] with its limit of 500 characters. *)
Definition _short_error (v : pyval) : string :=
  let text := Json.join " " (split_words (py_str v) "") in
  if (String.length text <=? 500)%nat then text else String.substring 0 500 text +:+ "...".

Definition status_counts (group : list Sample) : list (string * Z) :=
  fold_left (fun d s => let k := _sample_status_name s in dset d k (dget_def 0%Z d k + 1)%Z) group [].

Definition sample_summary (s : Sample) : list string :=
  let m := _sample_metadata s in
  let parts := omap (fun key => let v := pget m key in
                       if py_truth v then Some (key +:+ "=" +:+ _short_error v) else None)
                    ["blackbox_error"; "rollout_error"] in
  match parts with
  | [] => []
  | _ => let sid := py_or (pget m "session_id")
                      (py_or (opt_pyval (sp_session_id s)) (pget m "last_failed_session_id")) in
         ["sample[" +:+ py_str (match index s with Some i => PInt i | None => PNone end) +:+
          " session_id=" +:+ py_str sid +:+
          " instance_id=" +:+ py_str (pget m "instance_id") +:+ "] " +:+ Json.join " " parts]
  end.

Definition _group_failure_summary (group : list Sample) (error : option task_error) : string :=
  let parts :=
    match error with
    | Some e => ["task_error=" +:+ err_type e +:+ ": " +:+ _short_error (PStr (err_text e))]
    | None => []
    end ++
    match status_counts group with
    | [] => []
    | counts => ["statuses=" +:+ Json.join ","
                   (map (fun kv => fst kv +:+ ":" +:+ str_of_Z (snd kv))
                        (sort_by Json.key_leb counts))]
    end ++ concat (map sample_summary (take 3 group)) in
  match parts with [] => "no detailed failure metadata" | _ => Json.join "; " parts end.

(** ** Something to train on *)

Definition _sample_has_trainable_tokens (s : Sample) : bool :=
  if remove_sample s then false
  else if (response_length s <=? 0)%Z then false
  else match loss_mask s with
       | None => true
       | Some mask => existsb (fun z => negb (z =? 0)%Z) mask
       end.

Definition _group_has_trainable_tokens (group : list Sample) : bool :=
  existsb _sample_has_trainable_tokens group.

Definition _allow_empty_train_batch : bool :=
  bool_decide (lower (default "" (env "DRESSAGE_ALLOW_EMPTY_TRAIN_BATCH")) ∈ ["1"; "true"; "yes"]).

(** [sorted(groups, key=lambda group: getattr(group[0], "index", 0))]; an empty group or
    a sample without an index cannot be compared. *)
Definition first_index (group : list Sample) : result Z :=
  match group with
  | [] => Raise (IndexError "list index out of range")
  | s :: _ => match index s with
              | Some i => Ok i
              | None => Raise (TypeError "'<' not supported")
              end
  end.

Definition sort_groups (groups : list (list Sample)) : result (list (list Sample)) :=
  match groups with
  | [g] => let! _ := (match g with [] => Raise (IndexError "list index out of range") | _ => Ok tt end) in
           Ok groups
  | _ => let! keyed := mapM_res (fun g => let! i := first_index g in Ok (i, g)) groups in
         Ok (map snd (sort_by (fun x y => (fst x <=? fst y)%Z) keyed))
  end.

(** The end of every rollout call: sorted groups, refused when nothing can be trained on. *)
Definition finish_batch (groups : list (list Sample)) : result (list (list Sample)) :=
  let! sorted := sort_groups groups in
  check! negb _allow_empty_train_batch && negb (existsb _group_has_trainable_tokens sorted)
    else RuntimeError "rollout produced no trainable samples" ;;
  Ok sorted.

(** ** Placeholders and retries *)

(** [obj] names the object for the id of a sample with neither session nor instance. *)
Definition mark_no_grad_one (error : option task_error) (obj : string) (s : Sample) : Sample :=
  let m := _sample_metadata s in
  let m := match error with Some e => dset m "rollout_error" (PStr (err_text e)) | None => m end in
  let opt k := match pget m k with PNone => None | v => Some (py_str v) end in
  let s := mark_aborted_no_grad (with_metadata m s) (opt "session_id") (opt "instance_id") obj in
  {| index := index s; group_index := group_index s; sp_session_id := sp_session_id s;
     tokens := match tokens s with [] => [PInt 0] | l => l end; response := response s;
     response_length := 0; loss_mask := Some []; rollout_log_probs := Some [];
     reward := PFloat f0; status := "failed"; remove_sample := remove_sample s;
     rollout_id := rollout_id s; metadata := metadata s;
     rollout_routed_experts := rollout_routed_experts s; sp_prompt := sp_prompt s;
     sp_label := sp_label s; sp_generate_function_path := sp_generate_function_path s |}.

Definition _mark_no_grad_failed (group : list Sample) (error : option task_error)
    (obj : nat -> string) : list Sample :=
  imap (fun i s => mark_no_grad_one error (obj i) s) group.

Definition _retry_count (group : list Sample) : result Z :=
  match group with
  | [] => Ok 0%Z
  | s :: _ => py_int (dget_def (PInt 0) (_sample_metadata s) "dressage_retry_count")
  end.

Definition increment_one (s : Sample) : result Sample :=
  let m := _sample_metadata s in
  let previous := py_or (pget m "session_id") (opt_pyval (sp_session_id s)) in
  let m := if is_pnone previous then m else dset m "last_retry_session_id" previous in
  let m := dpop (dpop (dpop m "session_id") "parent_traj_id") "segment_index" in
  let! n := py_int (dget_def (PInt 0) m "dressage_retry_count") in
  let m := dset m "dressage_retry_count" (PInt (n + 1)) in
  Ok (with_sample s (rollout_id s) (reward s) false None (Some m)).

Definition _increment_retry (group : list Sample) : result (list Sample) :=
  mapM_res increment_one group.

(** A retry adds one to the count of the group. *)
Lemma increment_retry_count group group' : group <> [] -> _increment_retry group = Ok group' ->
  exists n, _retry_count group = Ok n /\ _retry_count group' = Ok (n + 1)%Z.
Proof using.
  intros NE E. destruct group as [|s group]; [done|]. unfold _increment_retry in E. simpl in E.
  unfold increment_one at 1 in E. set (m := dpop (dpop (dpop _ _) _) _) in E.
  assert (M : dget m "dressage_retry_count" = dget (_sample_metadata s) "dressage_retry_count").
  { unfold m. rewrite !dget_dpop_ne by done. destruct (is_pnone _); [done|]. by rewrite dget_dset_ne. }
  clearbody m. unfold dget_def in E. rewrite M in E.
  destruct (py_int (match dget (_sample_metadata s) _ with Some v => v | None => PInt 0 end)) as [n|] eqn:Z;
    [|done].
  cbn [res_bind] in E. destruct (mapM_res increment_one group) as [r|]; [|done]. injection E as <-.
  exists n. split; [exact Z|]. unfold _retry_count, _sample_metadata, dget_def. simpl. by rewrite dget_dset_eq.
Qed.
End Groups.

(** [int(rollout_id) + 1 >= num_rollout], unless the environment turns the drain off. *)
Definition env_off (value : string) : bool :=
  bool_decide (lower value ∈ ["0"; "false"; "no"; "off"]).

Definition _should_drain_worker_on_rollout (env : string -> option string)
    (num_rollout : option pyval) (rollout_id : Z) : bool :=
  if env_off (default "1" (env "DRESSAGE_DRAIN_FULLY_ASYNC_WORKER_ON_FINAL_ROLLOUT")) then false
  else match num_rollout with
       | None => false
       | Some v => match py_int v with
                   | Ok n => (n <=? rollout_id + 1)%Z
                   | Raise _ => false
                   end
       end.
