(* ===== verification/AsyncRollout.v ===== *)
(** * Asynchronous rollout: the worker and the rollout call

    [dressage/rollout/fully_async_rollout.py] and [partial_async_rollout.py].  A worker
    thread keeps prompt groups in generation and puts the completed ones on a bounded
    queue; each rollout call drains the queue until it has a batch.  Both threads are
    small-step machines over the shared worker state and the data buffer: [worker_step]
    and [call_step] are the next atomic action of each; [system_step] interleaves them with
    what the event loop does (a generation task ends, a task claims a prewarmed sandbox)
    and with [stop].  The two modules differ in the fields of [Mode].  [events] records
    where a group that leaves the machine goes. *)

From S2P Require Import Prelude.
From S2P Require Import PyFloat.
From S2P Require Import PyVal.
From S2P Require Import Samples.
From S2P Require Import Staleness.
From S2P Require Import DataSource.
From S2P Require Import Backend.
From S2P Require Import Prewarm.
From S2P Require Import RolloutGroups.

Local Open Scope string_scope.
Local Open Scope list_scope.
Local Open Scope py_scope.

(** ** Configuration *)

Section Config.
Context `{PyText}.
Variable env : string -> option string.
(** The attributes of [args]. *)
Variable args : dict.

(** [int(os.environ.get(name, str(default)))] *)
Definition env_int_default (name : string) (def : Z) : result Z :=
  match env name with
  | None => Ok def
  | Some v => match parse_int v with
              | Some z => Ok z
              | None => Raise (ValueError "invalid literal for int()")
              end
  end.

(** [_int_attr]: a falsy or unreadable value is the default. *)
Definition _int_attr (name : string) (def : Z) : Z :=
  match py_int (py_or (dget_def (PInt def) args name) (PInt def)) with
  | Ok z => z
  | Raise _ => def
  end.

(** [_env_int] *)
Definition _env_int (name : string) : result (option Z) :=
  match env name with
  | None => Ok None
  | Some v => if String.eqb v "" then Ok None
              else match parse_int v with
                   | Some z => Ok (Some z)
                   | None => Raise (ValueError "must be an integer")
                   end
  end.

(** [_env_flag] *)
Definition _env_flag (name : string) (def : bool) : bool :=
  match env name with
  | None => def
  | Some v => if String.eqb v "" then def else negb (env_off v)
  end.

Definition _is_final_rollout (rollout_id : Z) : bool :=
  match dget args "num_rollout" with
  | None => false
  | Some v => match py_int v with Ok n => (n <=? rollout_id + 1)%Z | Raise _ => false end
  end.

Definition _should_drain_partial (rollout_id : Z) : bool :=
  _is_final_rollout rollout_id && _env_flag "DRESSAGE_DRAIN_PARTIAL_WORKER_ON_FINAL_ROLLOUT" true.

(** [int(math.ceil(a / b))] of positive integers below [2 ^ 53]. *)
Definition ceil_div (a b : Z) : Z := ((a + b - 1) / b)%Z.

Definition _partial_target_groups : result Z :=
  let batch := Z.max 1 (_int_attr "rollout_batch_size" 1) in
  let n := Z.max 1 (_int_attr "n_samples_per_prompt" 1) in
  let full := (batch * n)%Z in
  let! groups := _env_int "DRESSAGE_PARTIAL_ROLLOUT_TARGET_GROUPS" in
  match groups with
  | Some g => Ok (Z.max 1 (Z.min batch g))
  | None =>
      let! samples := _env_int "DRESSAGE_PARTIAL_ROLLOUT_TARGET_SAMPLES" in
      let target := match samples with
                    | Some s => s
                    | None => let global := _int_attr "global_batch_size" full in
                              if (global <? full)%Z then global else full
                    end in
      Ok (Z.max 1 (Z.min batch (ceil_div (Z.max 1 target) n)))
  end.

Record WorkerConfig : Type := {
  max_active_groups : Z;
  output_size : Z;
  high_watermark : Z }.

(** [int(output_size * 0.8)] *)
Definition eighty_percent (size : Z) : Z :=
  match py_int (PFloat (fmul (f_of_Z size) (fdiv (f_of_Z 8) (f_of_Z 10)))) with
  | Ok z => z
  | Raise _ => 0
  end.

Definition worker_config : result WorkerConfig :=
  let batch := py_str (dget_def (PInt 1) args "rollout_batch_size") in
  let! m := py_int (PStr (default batch (env "DRESSAGE_ASYNC_MAX_ACTIVE_GROUPS"))) in
  let! size := env_int_default "DRESSAGE_ASYNC_OUTPUT_QUEUE_SIZE" 1000 in
  Ok {| max_active_groups := m; output_size := size;
        high_watermark := Z.max 1 (eighty_percent size) |}.

(** What differs between the two entrypoints, and the limits of one call. *)
Record Mode : Type := {
  partial : bool;
  target : Z;
  max_retries : Z;
  max_dropped : Z;
  final_drain : bool;
  call_rollout_id : Z }.

(** The first lines of [generate_rollout_async]; its caller stops the worker. *)
Definition fully_mode (rollout_id : Z) : result Mode :=
  let! t := py_int (dget_def (PInt 1) args "rollout_batch_size") in
  let! r := env_int_default "DRESSAGE_ROLLOUT_MAX_RETRIES" 2 in
  let! m := env_int_default "DRESSAGE_ASYNC_MAX_DROPPED_FAILED_GROUPS" (Z.max (t * 10) 100) in
  Ok {| partial := false; target := t; max_retries := r; max_dropped := m;
        final_drain := _should_drain_worker_on_rollout env (dget args "num_rollout") rollout_id;
        call_rollout_id := rollout_id |}.

(** The first lines of [generate_rollout_partial_async_impl]. *)
Definition partial_mode (rollout_id : Z) : result Mode :=
  let! t := _partial_target_groups in
  let! r := env_int_default "DRESSAGE_ROLLOUT_MAX_RETRIES" 2 in
  let! m := env_int_default "DRESSAGE_ASYNC_MAX_DROPPED_FAILED_GROUPS" (Z.max (t * 10) 100) in
  Ok {| partial := true; target := t; max_retries := r; max_dropped := m;
        final_drain := _should_drain_partial rollout_id; call_rollout_id := rollout_id |}.
End Config.

(** ** State *)

(** A group in generation, and how its task ended once it has. *)
Record ActiveGroup : Type := {
  ag_group : list Sample;
  ag_outcome : option (list item + task_error) }.

(** Where the worker thread is in [continuous_worker_loop]. *)
Inductive WorkerPc : Type :=
| WTop
| WCollect (done : list Z)
| WPut (c : CompletedGroup) (done : list Z)
| WCleanup (gid : Z) (done : list Z)
| WPrefetch
| WDispatch
| WStopped.

Record Worker {P : Type} : Type := {
  running : bool;
  scheduler : PrewarmScheduler;
  active : list (Z * ActiveGroup);
  output_queue : list CompletedGroup;
  worker_pc : WorkerPc;
  current_rollout_id : Z;
  store : PrewarmStore P;
  loop : Loop P }.
Arguments Worker : clear implicits.

(** Where a rollout call is. *)
Inductive CallPc : Type :=
| CDrain (got : list CompletedGroup)
| CProcess (ids : list Z)
| CReturn (leftovers : list CompletedGroup)
| CStop
| CJoin
| CFinish
| CDone (batch : list (list Sample))
| CFailed (e : exn).

Record Call : Type := {
  call_pc : CallPc;
  completed_by_id : list (Z * CompletedGroup);
  call_data : list PendingGroup;
  dropped_failed_groups : Z;
  retried_groups : Z;
  staleness_rejected : Z;
  staleness_filter : StalenessGroupFilter }.

(** A group leaving the machine. *)
Inductive event : Type :=
| Retried (gid : Z)
| DroppedFailed (gid : Z)
| DroppedStale (gid : Z)
| DroppedFull (gid : Z)
| Abandoned (gid : Z)
| Lost (gid : Z)
| Drained (gid : Z)
| Delivered (gid : Z).

Definition event_group (e : event) : Z :=
  match e with
  | Retried g | DroppedFailed g | DroppedStale g | DroppedFull g | Abandoned g | Lost g | Drained g
  | Delivered g => g
  end.

Section Setters.
Context {P : Type}.

Definition with_running (b : bool) (w : Worker P) : Worker P :=
  {| running := b; scheduler := scheduler w; active := active w; output_queue := output_queue w;
     worker_pc := worker_pc w; current_rollout_id := current_rollout_id w; store := store w;
     loop := loop w |}.

Definition with_active (l : list (Z * ActiveGroup)) (w : Worker P) : Worker P :=
  {| running := running w; scheduler := scheduler w; active := l; output_queue := output_queue w;
     worker_pc := worker_pc w; current_rollout_id := current_rollout_id w; store := store w;
     loop := loop w |}.

Definition with_queue (q : list CompletedGroup) (w : Worker P) : Worker P :=
  {| running := running w; scheduler := scheduler w; active := active w; output_queue := q;
     worker_pc := worker_pc w; current_rollout_id := current_rollout_id w; store := store w;
     loop := loop w |}.

Definition with_pc (pc : WorkerPc) (w : Worker P) : Worker P :=
  {| running := running w; scheduler := scheduler w; active := active w;
     output_queue := output_queue w; worker_pc := pc; current_rollout_id := current_rollout_id w;
     store := store w; loop := loop w |}.

Definition with_scheduler (sc : PrewarmScheduler) (w : Worker P) : Worker P :=
  {| running := running w; scheduler := sc; active := active w; output_queue := output_queue w;
     worker_pc := worker_pc w; current_rollout_id := current_rollout_id w; store := store w;
     loop := loop w |}.

Definition with_store (sl : PrewarmStore P * Loop P) (w : Worker P) : Worker P :=
  {| running := running w; scheduler := scheduler w; active := active w;
     output_queue := output_queue w; worker_pc := worker_pc w;
     current_rollout_id := current_rollout_id w; store := fst sl; loop := snd sl |}.

Definition set_rollout_id (r : Z) (w : Worker P) : Worker P :=
  {| running := running w; scheduler := scheduler w; active := active w;
     output_queue := output_queue w; worker_pc := worker_pc w; current_rollout_id := r;
     store := store w; loop := loop w |}.
End Setters.

Definition with_call_pc (pc : CallPc) (c : Call) : Call :=
  {| call_pc := pc; completed_by_id := completed_by_id c; call_data := call_data c;
     dropped_failed_groups := dropped_failed_groups c; retried_groups := retried_groups c;
     staleness_rejected := staleness_rejected c; staleness_filter := staleness_filter c |}.

Section Machine.
Context `{PyText} {P D : Type} `{DataBuffer D}.
Variable env : string -> option string.
Variable uuid : nat -> string.
Variable cfg : WorkerConfig.
Variable mode : Mode.
(** The paddock of the environment, and how release calls end. *)
Variable env_paddock : option P.
Variable release : nat -> release_outcome.

(** ** The worker thread *)

(** [queue.Queue.full]; a size that is not positive is no bound. *)
Definition queue_full (w : Worker P) : bool :=
  (0 <? output_size cfg)%Z && (output_size cfg <=? Z.of_nat (length (output_queue w)))%Z.

(** [_annotate_submitted_group] *)
Definition annotate_submitted (gid rid : Z) (s : Sample) : Sample :=
  let m := _sample_metadata s in
  let m := if phas m "dressage_start_rollout_id" then m
           else dset m "dressage_start_rollout_id" (PInt rid) in
  with_metadata (dset (dset m "dressage_async_group_id" (PInt gid))
                      "dressage_partial_rollout" (PBool true)) s.

(** [_annotate_returned_group] *)
Definition annotate_returned (gid rid : Z) (s : Sample) : Sample :=
  with_metadata (dset (dset (dset (_sample_metadata s) "dressage_return_rollout_id" (PInt rid))
                            "dressage_return_async_group_id" (PInt gid))
                      "dressage_partial_rollout_returned" (PBool true)) s.

(** The ids of the active tasks that are done. *)
Definition done_tasks (w : Worker P) : list Z :=
  omap (fun kv => match ag_outcome (snd kv) with Some _ => Some (fst kv) | None => None end) (active w).

Definition completed_of (gid : Z) (g : ActiveGroup) : CompletedGroup :=
  _completed_from_task gid (ag_group g)
    (match ag_outcome g with
     | Some (inl r) => inl (_flatten_multi_segment_result r)
     | Some (inr e) => inr e
     | None => inr {| err_type := "InvalidStateError"; err_text := "Result is not set." |}
     end).

(** [await self._scheduler.cleanup_group(gid)] *)
Definition worker_cleanup_group (gid : Z) (w : Worker P) : Worker P :=
  with_store (cleanup_group gid (store w) (loop w)) w.

(** The [finally] block: what is active is cancelled, what was prefetched is dropped. *)
Definition worker_shutdown (w : Worker P) : Worker P * list event :=
  let lost := map fst (active w) ++ map fst (_prefetched_groups (scheduler w)) in
  let w := fold_left (fun w gid => worker_cleanup_group gid w) (map fst (active w)) w in
  let '(sc, st, lp) := cleanup (scheduler w) (store w) (loop w) in
  let lp := match drain_lifecycle_tasks 3 release lp with Some (_, lp) => lp | None => lp end in
  (with_pc WStopped (with_active [] (with_scheduler sc (with_store (st, lp) w))), map Abandoned lost).

(** One action of [continuous_worker_loop].  An exception of the data buffer ends the
    loop through its [finally]. *)
Definition worker_step (w : Worker P) (d : D) : Worker P * D * list event :=
  let crash := let '(w, e) := worker_shutdown w in (w, d, e) in
  match worker_pc w with
  | WTop => if running w then (with_pc (WCollect (done_tasks w)) w, d, []) else crash
  | WCollect [] => (with_pc WPrefetch w, d, [])
  | WCollect (gid :: rest) =>
      match dget (active w) gid with
      | None => (with_pc (WCollect rest) w, d, [])
      | Some g => (with_pc (WPut (completed_of gid g) rest) (with_active (dpop (active w) gid) w), d, [])
      end
  | WPut c rest =>
      if negb (queue_full w)
      then (with_pc (WCleanup (cg_group_id c) rest) (with_queue (output_queue w ++ [c]) w), d, [])
      else if running w then (w, d, [])
      else (with_pc (WCleanup (cg_group_id c) rest) w, d, [DroppedFull (cg_group_id c)])
  | WCleanup gid rest => (with_pc (WCollect rest) (worker_cleanup_group gid w), d, [])
  | WPrefetch =>
      let '(d, sc, st, lp, o) := do_prefetch uuid env_paddock d (scheduler w) (store w) (loop w) in
      let w := with_scheduler sc (with_store (st, lp) w) in
      match o with
      | Raise _ => let '(w, e) := worker_shutdown w in (w, d, e)
      | Ok _ => (with_pc WDispatch w, d, [])
      end
  | WDispatch =>
      if running w && (Z.of_nat (length (active w)) <? max_active_groups cfg)%Z &&
         (Z.of_nat (length (output_queue w)) <? high_watermark cfg)%Z
      then match pop_next_group d (scheduler w) with
           | Raise _ => crash
           | Ok (d, sc, None) => (with_pc WTop (with_scheduler sc w), d, [])
           | Ok (d, sc, Some (gid, group)) =>
               let group := if partial mode
                            then map (annotate_submitted gid (current_rollout_id w)) group else group in
               (with_scheduler sc
                  (with_active (dset (active w) gid {| ag_group := group; ag_outcome := None |}) w), d, [])
           end
      else (with_pc WTop w, d, [])
  | WStopped => (w, d, [])
  end.

(** A generation task ends; the samples of its group may have been changed in place. *)
Definition finish_task (gid : Z) (group : list Sample) (o : list item + task_error) (w : Worker P)
    : Worker P :=
  match dget (active w) gid with
  | Some {| ag_outcome := None |} =>
      with_active (dset (active w) gid {| ag_group := group; ag_outcome := Some o |}) w
  | _ => w
  end.

(** ** The rollout call *)

Definition new_call (t : StalenessTracker) : Call :=
  {| call_pc := CProcess []; completed_by_id := []; call_data := []; dropped_failed_groups := 0;
     retried_groups := 0; staleness_rejected := 0;
     staleness_filter := {| tracker := t; dropped_groups := 0 |} |}.

(** After [get_completed_groups]: versions are observed, what became stale is dropped from
    the pending data, and the groups are filed by id. *)
Definition call_intake (got : list CompletedGroup) (c : Call) : result (Call * list event) :=
  let! fb := observe_completed (staleness_filter c) (map cg_result got) in
  let! fd := (if snd fb && negb (Nat.eqb (length (call_data c)) 0)
              then filter_pending (fst fb) (call_data c) else Ok (fst fb, call_data c)) in
  let dropped := List.filter (fun g => negb (bool_decide (Staleness.group_id g ∈
                   map Staleness.group_id (snd fd)))) (call_data c) in
  let by_id := fold_left (fun m g => dset m (cg_group_id g) g) got (completed_by_id c) in
  Ok ({| call_pc := CProcess (dkeys by_id); completed_by_id := by_id; call_data := snd fd;
         dropped_failed_groups := dropped_failed_groups c; retried_groups := retried_groups c;
         staleness_rejected := staleness_rejected c; staleness_filter := fst fd |},
      map (fun g => DroppedStale (Staleness.group_id g)) dropped).

(** The counters of a call after one failed group. *)
Definition count_failed (c : Call) (by_id : list (Z * CompletedGroup)) (pc : CallPc)
    (dropped retried stale : Z) : Call :=
  {| call_pc := pc; completed_by_id := by_id; call_data := call_data c;
     dropped_failed_groups := dropped_failed_groups c + dropped;
     retried_groups := retried_groups c + retried;
     staleness_rejected := staleness_rejected c + stale; staleness_filter := staleness_filter c |}.

(** A failed group goes back to the buffer while it has retries left. *)
Definition take_failed (gid : Z) (g : CompletedGroup) (by_id : list (Z * CompletedGroup))
    (rest : list Z) (c : Call) (d : D) : result (Call * D * list event) :=
  let stale := if partial mode && _group_has_staleness_failure (failed_group g) (cg_error g)
               then 1%Z else 0%Z in
  let! n := _retry_count (original_group g) in
  if (n <? max_retries mode)%Z then
    let! group := _increment_retry (original_group g) in
    Ok (count_failed c by_id (CProcess rest) 0 1 stale, db_add [group] d, [Retried gid])
  else
    let c := count_failed c by_id (CProcess rest) 1 0 stale in
    Ok (if (max_dropped mode <=? dropped_failed_groups c)%Z
        then with_call_pc (CFailed (RuntimeError "rollout dropped too many failed groups")) c else c,
        d, [DroppedFailed gid]).

(** The body of the loop over [completed_by_id]. *)
Definition call_take (gid : Z) (rest : list Z) (c : Call) (d : D) : result (Call * D * list event) :=
  match dget (completed_by_id c) gid with
  | None => Raise (KeyError "")
  | Some g =>
      let by_id := dpop (completed_by_id c) gid in
      match is_failed g, cg_result g with
      | false, Some group =>
          let! fk := keep_group (staleness_filter c) group in
          let group := if partial mode then map (annotate_returned gid (call_rollout_id mode)) group
                       else group in
          let pending := {| Staleness.group_id := gid; pg_samples := group |} in
          Ok ({| call_pc := CProcess rest; completed_by_id := by_id;
                 call_data := if snd fk then call_data c ++ [pending] else call_data c;
                 dropped_failed_groups := dropped_failed_groups c;
                 retried_groups := retried_groups c; staleness_rejected := staleness_rejected c;
                 staleness_filter := fst fk |}, d,
              if snd fk then [] else [DroppedStale gid])
      | _, _ => take_failed gid g by_id rest c d
      end
  end.

Definition batch_full (c : Call) : bool := (target mode <=? Z.of_nat (length (call_data c)))%Z.

(** The batch is complete: what is left over goes back on the queue in a partial rollout
    that is not the last one; nothing else keeps it. *)
Definition call_full (c : Call) : Call * list event :=
  let left := map snd (completed_by_id c) in
  let c' pc := {| call_pc := pc; completed_by_id := []; call_data := call_data c;
                  dropped_failed_groups := dropped_failed_groups c;
                  retried_groups := retried_groups c; staleness_rejected := staleness_rejected c;
                  staleness_filter := staleness_filter c |} in
  if partial mode then
    if final_drain mode then (c' CStop, map (fun g => Drained (cg_group_id g)) left)
    else (c' (CReturn left), [])
  else (c' CFinish, map (fun g => Lost (cg_group_id g)) left).

Definition or_failed (c : Call) (d : D) (m : result (Call * D * list event))
    : Call * D * list event :=
  match m with Ok x => x | Raise e => (with_call_pc (CFailed e) c, d, []) end.

(** One action of a rollout call.  [CJoin] is the end of the wait for the worker thread,
    which has stopped by then or has been given up on. *)
Definition call_step (w : Worker P) (d : D) (c : Call) : Worker P * D * Call * list event :=
  match call_pc c with
  | CDrain got =>
      match output_queue w with
      | g :: q => (with_queue q w, d, with_call_pc (CDrain (got ++ [g])) c, [])
      | [] => match call_intake got c with
              | Ok (c, e) => (w, d, c, e)
              | Raise x => (w, d, with_call_pc (CFailed x) c, map (fun g => Lost (cg_group_id g)) got)
              end
      end
  | CProcess ids =>
      if batch_full c then let '(c, e) := call_full c in (w, d, c, e)
      else match ids with
           | [] => (w, d, with_call_pc (CDrain []) c, [])
           | gid :: rest => let '(c, d, e) := or_failed c d (call_take gid rest c d) in (w, d, c, e)
           end
  | CReturn [] => (w, d, with_call_pc CFinish c, [])
  | CReturn (g :: rest) =>
      if negb (queue_full w)
      then (with_queue (output_queue w ++ [g]) w, d, with_call_pc (CReturn rest) c, [])
      else if running w then (w, d, c, [])
      else (w, d, with_call_pc (CReturn rest) c, [DroppedFull (cg_group_id g)])
  | CStop => (with_running false w, d, with_call_pc CJoin c, [])
  | CJoin => (with_queue [] w, d, with_call_pc CFinish c,
              map (fun g => Drained (cg_group_id g)) (output_queue w))
  | CFinish =>
      (w, d, with_call_pc (match finish_batch env (map pg_samples (call_data c)) with
                           | Ok batch => CDone batch
                           | Raise e => CFailed e
                           end) c, [])
  | CDone _ | CFailed _ => (w, d, c, [])
  end.

(** ** Both threads *)

Record System : Type := {
  sys_worker : Worker P;
  sys_data : D;
  sys_call : option Call;
  sys_log : list event }.

Inductive action : Type :=
| AWorker
| ACall
| AFinish (gid : Z) (group : list Sample) (o : list item + task_error)
| AClaim (sid : option string) (o : nat -> init_outcome unit)
| AStop
| ANewCall (t : StalenessTracker) (rollout_id : Z).

(** Where a finished call leaves its groups. *)
Definition call_leaves (c : Call) : list event :=
  match call_pc c with
  | CDone _ => map (fun g => Delivered (Staleness.group_id g)) (call_data c)
  | _ => map (fun g => Lost (Staleness.group_id g)) (call_data c)
  end ++ map (fun kv => Lost (fst kv)) (completed_by_id c).

Definition call_over (o : option Call) : bool :=
  match o with
  | None => true
  | Some c => match call_pc c with CDone _ | CFailed _ => true | _ => false end
  end.

Definition system_step (a : action) (s : System) : System :=
  match a with
  | AWorker => let '(w, d, e) := worker_step (sys_worker s) (sys_data s) in
               {| sys_worker := w; sys_data := d; sys_call := sys_call s; sys_log := sys_log s ++ e |}
  | ACall =>
      match sys_call s with
      | None => s
      | Some c => let '(w, d, c, e) := call_step (sys_worker s) (sys_data s) c in
                  {| sys_worker := w; sys_data := d; sys_call := Some c; sys_log := sys_log s ++ e |}
      end
  | AFinish gid group o =>
      {| sys_worker := finish_task gid group o (sys_worker s); sys_data := sys_data s;
         sys_call := sys_call s; sys_log := sys_log s |}
  | AClaim sid o =>
      let w := sys_worker s in
      let '(_, st, lp) := claim sid o (store w) (loop w) in
      {| sys_worker := with_store (st, lp) w; sys_data := sys_data s; sys_call := sys_call s;
         sys_log := sys_log s |}
  | AStop => {| sys_worker := with_running false (sys_worker s); sys_data := sys_data s;
                sys_call := sys_call s; sys_log := sys_log s |}
  | ANewCall t rid =>
      if call_over (sys_call s)
      then {| sys_worker := (if partial mode then set_rollout_id rid (sys_worker s) else sys_worker s);
              sys_data := sys_data s; sys_call := Some (new_call t);
              sys_log := sys_log s ++ match sys_call s with Some c => call_leaves c | None => [] end |}
      else s
  end.

Definition system_run (l : list action) (s : System) : System :=
  fold_left (fun s a => system_step a s) l s.

(** A worker that has just been started, and no call yet. *)
Definition initial_worker (sc : PrewarmScheduler) : Worker P :=
  {| running := true; scheduler := sc; active := []; output_queue := []; worker_pc := WTop;
     current_rollout_id := 0; store := empty_store;
     loop := {| next_task := 0; next_uuid := 0; lifecycle_tasks := [] |} |}.

Definition initial_system (sc : PrewarmScheduler) (d : D) : System :=
  {| sys_worker := initial_worker sc; sys_data := d; sys_call := None; sys_log := [] |}.
End Machine.
Arguments System : clear implicits.

(** ** Conservation of groups *)

Section Conservation.
Context `{PyText} {P D : Type} `{DataBuffer D}.
Variable env : string -> option string.
Variable uuid : nat -> string.
Variable cfg : WorkerConfig.
Variable mode : Mode.
Variable env_paddock : option P.
Variable release : nat -> release_outcome.
Implicit Types (w : Worker P) (c : Call) (d : D).

Definition hand (pc : WorkerPc) : list Z :=
  match pc with WPut c _ => [cg_group_id c] | _ => [] end.

(** The groups on the worker's side. *)
Definition worker_ids (w : Worker P) : list Z :=
  map fst (_prefetched_groups (scheduler w)) ++ dkeys (active w) ++ hand (worker_pc w) ++
  map cg_group_id (output_queue w).

Definition pc_ids (pc : CallPc) : list Z :=
  match pc with CDrain got => map cg_group_id got | CReturn l => map cg_group_id l | _ => [] end.

(** The groups a call holds. *)
Definition call_ids (c : Call) : list Z :=
  pc_ids (call_pc c) ++ dkeys (completed_by_id c) ++ map Staleness.group_id (call_data c).

Definition log_ids (l : list event) : list Z := map event_group l.

Definition next_id (w : Worker P) : Z := _next_group_id (scheduler w).

(** The groups filed in a call are filed under their own id. *)
Definition keyed (c : Call) : Prop :=
  Forall (fun kv => cg_group_id (snd kv) = fst kv) (completed_by_id c).

Definition all_ids (s : System P D) : list Z :=
  worker_ids (sys_worker s) ++ default [] (call_ids <$> sys_call s) ++ log_ids (sys_log s).

Record accounted (s : System P D) : Prop := {
  ac_ids : all_ids s ≡ₚ seqZ 0 (next_id (sys_worker s));
  ac_next : (0 <= next_id (sys_worker s))%Z;
  ac_keyed : match sys_call s with Some c => keyed c | None => True end }.

Lemma accounted_NoDup s : accounted s -> NoDup (all_ids s).
Proof using. intros [A _ _]. rewrite A. apply NoDup_seqZ. Qed.

Lemma log_ids_app l k : log_ids (l ++ k) = log_ids l ++ log_ids k.
Proof using. apply map_app. Qed.

Lemma dpop_keys_perm {V} (m : list (Z * V)) k v : dget m k = Some v -> dkeys m ≡ₚ k :: dkeys (dpop m k).
Proof using.
  induction m as [|[k' x] m IH]; simpl; [done|]. case_decide as E; [by subst|].
  intros G. simpl. rewrite IH by done. apply Permutation_swap.
Qed.

Lemma dset_fresh_keys {V} (m : list (Z * V)) k v : k ∉ dkeys m -> dkeys (dset m k v) = dkeys m ++ [k].
Proof using. intros N. rewrite dkeys_dset. by rewrite decide_False. Qed.

Lemma keyed_values (m : list (Z * CompletedGroup)) :
  Forall (fun kv => cg_group_id (snd kv) = fst kv) m -> map cg_group_id (map snd m) = dkeys m.
Proof using. induction 1 as [|[k g] m E F IH]; simpl in *; [done|]. by rewrite E, IH. Qed.

(** *** The worker's steps *)

Lemma cleanup_fold_fields l : forall w,
  let w' := fold_left (fun w gid => worker_cleanup_group gid w) l w in
  scheduler w' = scheduler w /\ output_queue w' = output_queue w.
Proof using. induction l as [|gid l IH]; intros w; simpl; [done|]. apply (IH (worker_cleanup_group gid w)). Qed.

Lemma shutdown_ids w w' e : hand (worker_pc w) = [] -> worker_shutdown release w = (w', e) ->
  worker_ids w ≡ₚ worker_ids w' ++ log_ids e /\ next_id w' = next_id w.
Proof using.
  intros Hh E. unfold worker_shutdown in E.
  destruct (cleanup_fold_fields (map fst (active w)) w) as [F1 F2].
  set (w1 := fold_left _ _ w) in *. clearbody w1. cbv zeta in F1, F2.
  unfold cleanup, cleanup_all in E. injection E as <- <-.
  unfold worker_ids, next_id. simpl. rewrite Hh, F1, F2. simpl. split; [|done].
  unfold log_ids. rewrite map_map. simpl. rewrite map_id. unfold dkeys. solve_Permutation.
Qed.

Lemma prefetch_ids d w d' sc' st' lp' o :
  do_prefetch uuid env_paddock d (scheduler w) (store w) (loop w) = (d', sc', st', lp', o) ->
  exists k, map fst (_prefetched_groups sc') =
              map fst (_prefetched_groups (scheduler w)) ++ seqZ (next_id w) (Z.of_nat k) /\
    _next_group_id sc' = (next_id w + Z.of_nat k)%Z.
Proof using.
  unfold do_prefetch, next_id. intros E. destruct (negb _).
  { injection E as <- <- <- <- _. exists 0%nat. rewrite seqZ_nil, app_nil_r by lia. split; [done|lia]. }
  destruct (negb _).
  { injection E as <- <- <- <- _. exists 0%nat. rewrite seqZ_nil, app_nil_r by lia. split; [done|lia]. }
  destruct (prefetch_loop_spec _ _ _ _ _ _ _ _ _ _ _ _ E) as (new & E1 & E2 & E3 & _).
  exists (length new). rewrite E1, map_app, E2. done.
Qed.

Lemma pop_next_ids d sc d' sc' gid g : pop_next_group d sc = Ok (d', sc', Some (gid, g)) ->
  (map fst (_prefetched_groups sc) = gid :: map fst (_prefetched_groups sc') /\
   _next_group_id sc' = _next_group_id sc) \/
  (_prefetched_groups sc = [] /\ _prefetched_groups sc' = [] /\ gid = _next_group_id sc /\
   _next_group_id sc' = (_next_group_id sc + 1)%Z).
Proof using.
  unfold pop_next_group. destruct (_prefetched_groups sc) as [|[i x] rest] eqn:Q.
  - destruct (db_get 1 d) as [[d1 out]|]; [|done]. simpl. destruct out as [|y out]; [done|].
    intros [= <- <- <- <-]. right. simpl. by rewrite Q.
  - intros [= <- <- <- <-]. left. done.
Qed.

Lemma pop_next_none d sc d' sc' : pop_next_group d sc = Ok (d', sc', None) -> sc' = sc.
Proof using.
  unfold pop_next_group. destruct (_prefetched_groups sc); [|done].
  destruct (db_get 1 d) as [[d1 out]|]; [|done]. simpl. destruct out; by intros [= <- <-].
Qed.

(** What a step of the worker does to the ids: new ones come from the counter, the others
    move or leave through an event. *)
Lemma worker_step_ids w d w' d' e : worker_step uuid cfg mode env_paddock release w d = (w', d', e) ->
  NoDup (worker_ids w ++ seqZ (next_id w) 1) ->
  exists k, worker_ids w ++ seqZ (next_id w) (Z.of_nat k) ≡ₚ worker_ids w' ++ log_ids e /\
    next_id w' = (next_id w + Z.of_nat k)%Z.
Proof using.
  intros E ND.
  assert (same : forall w1 e1, worker_ids w ≡ₚ worker_ids w1 ++ log_ids e1 -> next_id w1 = next_id w ->
    exists k, worker_ids w ++ seqZ (next_id w) (Z.of_nat k) ≡ₚ worker_ids w1 ++ log_ids e1 /\
      next_id w1 = (next_id w + Z.of_nat k)%Z).
  { intros w1 e1 Pm N1. exists 0%nat. rewrite seqZ_nil, app_nil_r by lia. split; [done|lia]. }
  unfold worker_step in E.
  destruct (worker_pc w) as [|[|gid rest]|c rest|gid rest| | |] eqn:Pc.
  - destruct (running w); [|destruct (worker_shutdown release w) as [w1 e1] eqn:Sh].
    + injection E as <- <- <-. apply same; [|done]. unfold worker_ids. simpl. rewrite Pc. simpl.
      by rewrite app_nil_r.
    + injection E as <- <- <-. apply (shutdown_ids w w1 e1) in Sh as [S1 S2]; [|by rewrite Pc]. auto.
  - injection E as <- <- <-. apply same; [|done]. unfold worker_ids. simpl. rewrite Pc. simpl.
    by rewrite app_nil_r.
  - destruct (dget (active w) gid) as [g|] eqn:G; injection E as <- <- <-; apply same; try done.
    + unfold worker_ids. simpl. rewrite Pc, (dpop_keys_perm _ _ _ G).
      assert (cg_group_id (completed_of gid g) = gid) as ->.
      { unfold completed_of, _completed_from_task. by destruct (ag_outcome g) as [[|]|]. }
      simpl. rewrite app_nil_r. solve_Permutation.
    + unfold worker_ids. simpl. rewrite Pc. simpl. by rewrite app_nil_r.
  - destruct (negb (queue_full cfg w)); [|destruct (running w)]; injection E as <- <- <-;
      apply same; try done; unfold worker_ids; simpl; rewrite Pc; simpl; rewrite ?app_nil_r, ?map_app;
      simpl; solve_Permutation.
  - injection E as <- <- <-. apply same; [|done]. unfold worker_ids. simpl. rewrite Pc. simpl.
    by rewrite app_nil_r.
  - destruct (do_prefetch _ _ _ _ _ _) as [[[[d1 sc] st] lp] o] eqn:Q.
    destruct (prefetch_ids _ _ _ _ _ _ _ Q) as (k & E1 & E2). exists k.
    set (wp := with_scheduler sc (with_store (st, lp) w)) in *.
    assert (K : worker_ids w ++ seqZ (next_id w) (Z.of_nat k) ≡ₚ worker_ids wp /\
      next_id wp = (next_id w + Z.of_nat k)%Z).
    { split; [|done]. unfold worker_ids, wp. simpl. rewrite Pc, E1. simpl. solve_Permutation. }
    destruct K as [K1 K2]. destruct o.
    + injection E as <- <- <-. rewrite K1. split; [|done]. unfold worker_ids. simpl. rewrite Pc.
      by rewrite app_nil_r.
    + destruct (worker_shutdown release wp) as [w1 e1] eqn:Sh. injection E as <- <- <-.
      apply (shutdown_ids wp w1 e1) in Sh as [S1 S2]; [|unfold wp; simpl; by rewrite Pc].
      by rewrite K1, S1, S2.
  - destruct (_ && _); [|injection E as <- <- <-; apply same; [|done]; unfold worker_ids; simpl;
                           rewrite Pc; simpl; by rewrite app_nil_r].
    destruct (pop_next_group d (scheduler w)) as [[[d1 sc] [[gid g]|]]|] eqn:Q.
    + injection E as <- <- <-. unfold worker_ids, next_id in *. simpl in *. rewrite Pc in *. simpl in *.
      assert (gid ∉ dkeys (active w)) as Nk.
      { destruct (pop_next_ids _ _ _ _ _ _ Q) as [[E1 _]|(E1 & _ & -> & _)].
        - rewrite E1 in ND. simpl in ND. apply NoDup_cons in ND as [ND _]. set_solver.
        - rewrite E1 in ND. apply NoDup_app in ND as (_ & ND & _). intros I. apply (ND (_next_group_id (scheduler w))).
          + set_solver.
          + apply elem_of_seqZ. lia. }
      rewrite dset_fresh_keys by done.
      destruct (pop_next_ids _ _ _ _ _ _ Q) as [[E1 E2]|(E1 & E2 & E3 & E4)].
      * exists 0%nat. rewrite seqZ_nil, E1, E2, !app_nil_r by lia. split; [solve_Permutation|lia].
      * exists 1%nat. rewrite E1, E2, E4, app_nil_r. split; [|lia].
        rewrite E3. rewrite (seqZ_cons _ (Z.of_nat 1)) by lia. rewrite seqZ_nil by lia. simpl. solve_Permutation.
    + injection E as <- <- <-. apply pop_next_none in Q as ->. apply same; [|done].
      unfold worker_ids. simpl. rewrite Pc. simpl. by rewrite app_nil_r.
    + destruct (worker_shutdown release w) as [w1 e1] eqn:Sh. injection E as <- <- <-.
      apply (shutdown_ids w w1 e1) in Sh as [S1 S2]; [|by rewrite Pc]. auto.
  - injection E as <- <- <-. apply same; [|done]. by rewrite app_nil_r.
Qed.

(** *** The call's steps *)

Lemma filter_loop_sublist f l : forall f' l', filter_loop f l = Ok (f', l') -> sublist l' l.
Proof using.
  revert f. induction l as [|g l IH]; intros f f' l' E; simpl in E; [by injection E as <- <-|].
  destruct (keep_group f (pg_samples g)) as [[f1 b]|]; [|done]. simpl in E.
  destruct (filter_loop f1 l) as [[f2 r]|] eqn:Q; [|done]. injection E as <- <-.
  destruct b; [apply sublist_skip|apply sublist_cons]; by eapply IH.
Qed.

Lemma kept_split (l l' : list PendingGroup) : sublist l' l -> NoDup (map Staleness.group_id l) ->
  map Staleness.group_id l ≡ₚ map Staleness.group_id l' ++
    map Staleness.group_id (List.filter (fun g => negb (bool_decide (Staleness.group_id g ∈
      map Staleness.group_id l'))) l).
Proof using.
  induction 1 as [|x l' l S IH|x l' l S IH]; intros ND; [done| |]; simpl in ND;
    apply NoDup_cons in ND as [Nx ND]; simpl.
  - rewrite bool_decide_true by left. simpl. f_equiv. rewrite (IH ND). f_equiv.
    match goal with |- ?a ≡ₚ ?b => assert (Q : a = b); [|by rewrite Q] end.
    f_equal. apply filter_ext_in. intros g Ig. f_equal.
    apply bool_decide_ext. rewrite elem_of_cons. split; [by right|]. intros [Eg|]; [|done].
    destruct Nx. rewrite <- Eg. apply list_elem_of_fmap. exists g. split; [done|]. by apply list_elem_of_In.
  - rewrite bool_decide_false.
    + simpl. rewrite (IH ND). apply Permutation_middle.
    + intros (g & Eg & Ig)%list_elem_of_fmap. apply Nx. rewrite Eg. apply list_elem_of_fmap. exists g.
      split; [done|]. eapply elem_of_submseteq; [exact Ig|]. by apply sublist_submseteq.
Qed.

Lemma file_groups got : forall m : list (Z * CompletedGroup),
  Forall (fun kv => cg_group_id (snd kv) = fst kv) m ->
  NoDup (map cg_group_id got ++ dkeys m) ->
  let m' := fold_left (fun m g => dset m (cg_group_id g) g) got m in
  dkeys m' ≡ₚ map cg_group_id got ++ dkeys m /\ Forall (fun kv => cg_group_id (snd kv) = fst kv) m'.
Proof using.
  induction got as [|g got IH]; intros m K ND; simpl; [done|]. simpl in ND.
  apply NoDup_cons in ND as [Ng ND].
  assert (Fk : cg_group_id g ∉ dkeys m) by set_solver.
  destruct (IH (dset m (cg_group_id g) g)) as [P1 K1].
  - clear -K Fk. induction m as [|[k x] m IH]; simpl in *; [by repeat constructor|].
    apply Forall_cons in K as [Kx K]. case_decide; [set_solver|]. constructor; [done|]. apply IH; [done|set_solver].
  - rewrite dset_fresh_keys by done. rewrite app_assoc. rewrite (Permutation_app_comm _ [cg_group_id g]).
    simpl. constructor; done.
  - split; [|exact K1]. rewrite P1, dset_fresh_keys by done. solve_Permutation.
Qed.

Lemma call_intake_ids got c c' e : call_pc c = CDrain got -> keyed c -> NoDup (call_ids c) ->
  call_intake got c = Ok (c', e) -> call_ids c ≡ₚ call_ids c' ++ log_ids e /\ keyed c'.
Proof using.
  intros Pc K ND E. unfold call_ids in ND. rewrite Pc in ND. cbn [pc_ids] in ND.
  unfold call_intake in E.
  destruct (observe_completed _ _) as [[f b]|]; [|done]. cbn [res_bind fst snd] in E.
  match type of E with res_bind ?m _ = _ => destruct m as [[f2 kept]|] eqn:Q end; [|done].
  cbn [res_bind fst snd] in E. injection E as <- <-.
  assert (S : sublist kept (call_data c)).
  { destruct (_ && _); [|by injection Q as <- <-]. unfold filter_pending in Q.
    destruct (negb _); [by injection Q as <- <-|]. by eapply filter_loop_sublist. }
  assert (ND1 : NoDup (map cg_group_id got ++ dkeys (completed_by_id c))).
  { rewrite app_assoc in ND. by apply NoDup_app in ND as (ND & _ & _). }
  assert (ND2 : NoDup (map Staleness.group_id (call_data c))).
  { rewrite app_assoc in ND. by apply NoDup_app in ND as (_ & _ & ND). }
  destruct (file_groups got _ K ND1) as [P1 K1]. split; [|exact K1].
  unfold call_ids, log_ids. cbn [call_pc completed_by_id call_data pc_ids]. rewrite Pc. cbn [pc_ids].
  rewrite P1, (kept_split _ _ S ND2) at 1. rewrite map_map. simpl. solve_Permutation.
Qed.

Lemma keyed_dpop (m : list (Z * CompletedGroup)) gid :
  Forall (fun kv => cg_group_id (snd kv) = fst kv) m ->
  Forall (fun kv => cg_group_id (snd kv) = fst kv) (dpop m gid).
Proof using.
  induction 1 as [|[k g] m E F IH]; simpl; [constructor|]. case_decide; [done|]. by constructor.
Qed.

Lemma call_take_ids gid rest c d c' d' e : call_pc c = CProcess (gid :: rest) -> keyed c ->
  call_take mode gid rest c d = Ok (c', d', e) -> call_ids c ≡ₚ call_ids c' ++ log_ids e /\ keyed c'.
Proof using.
  intros Pc K E. unfold call_take in E. destruct (dget (completed_by_id c) gid) as [g|] eqn:G; [|done].
  assert (Kp := keyed_dpop _ gid K).
  assert (failed : take_failed mode gid g (dpop (completed_by_id c) gid) rest c d = Ok (c', d', e) ->
    call_ids c ≡ₚ call_ids c' ++ log_ids e /\ keyed c').
  { unfold take_failed. intros F. destruct (_retry_count _) as [n|]; [|done]. simpl in F.
    destruct (n <? max_retries mode)%Z.
    - destruct (_increment_retry _); [|done]. simpl in F. injection F as <- <- <-. split; [|exact Kp].
      unfold call_ids. rewrite Pc. simpl. rewrite (dpop_keys_perm _ _ _ G). solve_Permutation.
    - injection F as <- <- <-. split; [|by destruct (_ <=? _)%Z].
      unfold call_ids. rewrite Pc. destruct (_ <=? _)%Z; simpl; rewrite (dpop_keys_perm _ _ _ G); solve_Permutation. }
  destruct (is_failed g); [by apply failed|]. destruct (cg_result g) as [group|]; [|by apply failed].
  destruct (keep_group _ group) as [[f b]|]; [|done]. simpl in E. injection E as <- <- <-.
  split; [|exact Kp]. unfold call_ids. rewrite Pc. simpl. rewrite (dpop_keys_perm _ _ _ G).
  destruct b; rewrite ?map_app; simpl; solve_Permutation.
Qed.

Lemma log_groups (f : CompletedGroup -> event) l : (forall g, event_group (f g) = cg_group_id g) ->
  log_ids (map f l) = map cg_group_id l.
Proof using. intros Hf. unfold log_ids. rewrite map_map. by apply map_ext. Qed.

Lemma call_full_ids ids c c' e : call_pc c = CProcess ids -> keyed c ->
  call_full mode c = (c', e) -> call_ids c ≡ₚ call_ids c' ++ log_ids e /\ keyed c'.
Proof using.
  intros Pc K E. unfold call_full in E. pose proof (keyed_values _ K) as V.
  destruct (partial mode); [destruct (final_drain mode)|]; injection E as <- <-;
    (split; [|constructor]); unfold call_ids; rewrite Pc, ?log_groups by done; simpl; rewrite ?V; simpl;
    solve_Permutation.
Qed.

Lemma or_failed_ids ids c d m c' d' e : call_pc c = CProcess ids -> or_failed c d m = (c', d', e) ->
  m = Ok (c', d', e) \/
  (e = [] /\ call_ids c' = call_ids c /\ completed_by_id c' = completed_by_id c).
Proof using.
  intros Pc E. destruct m as [x|ex]; simpl in E; [left; by rewrite E|]. right. injection E as <- <- <-.
  unfold call_ids. simpl. by rewrite Pc.
Qed.

(** What a step of the call does: a group moves between the queue and the call, or leaves
    through an event. *)
Lemma call_step_ids w d c w' d' c' e : call_step env cfg mode w d c = (w', d', c', e) ->
  keyed c -> NoDup (call_ids c) ->
  worker_ids w ++ call_ids c ≡ₚ worker_ids w' ++ call_ids c' ++ log_ids e /\
  next_id w' = next_id w /\ keyed c'.
Proof using.
  intros E K ND. unfold call_step in E.
  assert (same : forall c1 e1, call_ids c ≡ₚ call_ids c1 ++ log_ids e1 /\ keyed c1 ->
    worker_ids w ++ call_ids c ≡ₚ worker_ids w ++ call_ids c1 ++ log_ids e1 /\
    next_id w = next_id w /\ keyed c1).
  { intros c1 e1 [P1 K1]. split; [by rewrite P1|done]. }
  destruct (call_pc c) as [got|ids|left| | | | |] eqn:Pc.
  - destruct (output_queue w) as [|g q] eqn:Q.
    + destruct (call_intake got c) as [[c1 e1]|x] eqn:I; injection E as <- <- <- <-; apply same.
      * by eapply call_intake_ids.
      * split; [|exact K]. unfold call_ids. rewrite Pc, log_groups by done. simpl. solve_Permutation.
    + injection E as <- <- <- <-. split; [|done]. unfold worker_ids, call_ids. simpl.
      rewrite Pc, Q. simpl. rewrite map_app. simpl. solve_Permutation.
  - destruct (batch_full mode c).
    + destruct (call_full mode c) as [c1 e1] eqn:F. injection E as <- <- <- <-. apply same.
      by eapply call_full_ids.
    + destruct ids as [|gid rest].
      * injection E as <- <- <- <-. apply same. split; [|exact K]. unfold call_ids. rewrite Pc. simpl.
        by rewrite app_nil_r.
      * destruct (or_failed c d _) as [[c1 d1] e1] eqn:F. injection E as <- <- <- <-. apply same.
        destruct (or_failed_ids _ _ _ _ _ _ _ Pc F) as [T|(-> & I & B)].
        -- by eapply call_take_ids.
        -- rewrite I, app_nil_r. split; [done|]. unfold keyed. by rewrite B.
  - destruct left as [|g rest].
    + injection E as <- <- <- <-. apply same. split; [|exact K]. unfold call_ids. rewrite Pc. simpl.
      by rewrite app_nil_r.
    + destruct (negb _); [|destruct (running w)]; injection E as <- <- <- <-; (split; [|done]);
        unfold worker_ids, call_ids; simpl; rewrite Pc; simpl; rewrite ?map_app; simpl; solve_Permutation.
  - injection E as <- <- <- <-. split; [|done]. unfold worker_ids, call_ids. simpl. rewrite Pc. simpl.
    by rewrite app_nil_r.
  - injection E as <- <- <- <-. split; [|done]. unfold worker_ids, call_ids. simpl.
    rewrite Pc, log_groups by done. simpl. solve_Permutation.
  - injection E as <- <- <- <-. apply same. split; [|exact K]. unfold call_ids. rewrite Pc.
    destruct (finish_batch _ _); simpl; by rewrite app_nil_r.
  - injection E as <- <- <- <-. apply same. split; [|exact K]. by rewrite app_nil_r.
  - injection E as <- <- <- <-. apply same. split; [|exact K]. by rewrite app_nil_r.
Qed.

(** *** The system *)

Abbreviation step := (system_step env uuid cfg mode env_paddock release).
Abbreviation run := (system_run env uuid cfg mode env_paddock release).

Lemma finish_task_ids gid g o w : worker_ids (finish_task gid g o w) = worker_ids w /\
  next_id (finish_task gid g o w) = next_id w.
Proof using.
  unfold finish_task. destruct (dget (active w) gid) as [[gr [x|]]|] eqn:G; try done.
  split; [|done]. unfold worker_ids. simpl. do 2 f_equal. rewrite dkeys_dset.
  rewrite decide_True; [done|]. by eapply dget_Some_key.
Qed.

Lemma call_leaves_ids c : (exists b, call_pc c = CDone b) \/ (exists e, call_pc c = CFailed e) ->
  call_ids c ≡ₚ log_ids (call_leaves c).
Proof using.
  intros Pc. unfold call_leaves, call_ids, log_ids. rewrite map_app, map_map. simpl.
  destruct Pc as [[b Pc]|[e Pc]]; rewrite Pc, map_map; simpl; unfold dkeys; solve_Permutation.
Qed.

Lemma system_step_accounted a s : accounted s -> accounted (step a s).
Proof using.
  intros A. pose proof (accounted_NoDup s A) as ND. destruct A as [A N K].
  assert (seq_next : forall k, seqZ 0 (next_id (sys_worker s)) ++
      seqZ (next_id (sys_worker s)) (Z.of_nat k) = seqZ 0 (next_id (sys_worker s) + Z.of_nat k)).
  { intros k. rewrite seqZ_app by lia. do 2 f_equal. }
  destruct a as [| |gid g o|sid o| |t rid]; simpl.
  - destruct (worker_step _ _ _ _ _ (sys_worker s) (sys_data s)) as [[w d] e] eqn:E.
    destruct (worker_step_ids _ _ _ _ _ E) as (k & P1 & N1).
    { apply NoDup_app. unfold all_ids in ND. apply NoDup_app in ND as (ND & _ & _).
      split; [done|]. split; [|apply NoDup_seqZ]. intros x Ix Jx.
      assert (x ∈ all_ids s) as Kx by (unfold all_ids; apply elem_of_app; by left).
      rewrite A in Kx. apply elem_of_seqZ in Kx. apply elem_of_seqZ in Jx. lia. }
    constructor; simpl; [|lia|exact K]. unfold all_ids in *. simpl. rewrite N1, <- seq_next, <- A, log_ids_app.
    transitivity ((worker_ids w ++ log_ids e) ++ default [] (call_ids <$> sys_call s) ++ log_ids (sys_log s));
      [solve_Permutation|]. rewrite <- P1. solve_Permutation.
  - destruct (sys_call s) as [c|] eqn:Sc; [|by constructor; rewrite ?Sc].
    destruct (call_step _ _ _ (sys_worker s) (sys_data s) c) as [[[w d] c'] e] eqn:E.
    destruct (call_step_ids _ _ _ _ _ _ _ E K) as (P1 & N1 & K1).
    { unfold all_ids in ND. rewrite Sc in ND. simpl in ND. by apply NoDup_app in ND as (_ & _ & [ND _]%NoDup_app). }
    constructor; simpl; [|lia|exact K1]. unfold all_ids in *. simpl. rewrite Sc in A. simpl in A.
    rewrite N1, <- A, log_ids_app.
    transitivity ((worker_ids w ++ call_ids c' ++ log_ids e) ++ log_ids (sys_log s)); [solve_Permutation|].
    rewrite <- P1. solve_Permutation.
  - destruct (finish_task_ids gid g o (sys_worker s)) as [F1 F2].
    constructor; simpl; [|by rewrite F2|exact K]. unfold all_ids in *. simpl. by rewrite F1, F2.
  - destruct (claim sid o _ _) as [[cr st] lp]. constructor; simpl; [exact A|exact N|exact K].
  - constructor; simpl; [exact A|exact N|exact K].
  - destruct (call_over (sys_call s)) eqn:O; [|by constructor].
    assert (W : forall b : bool, worker_ids (if b then set_rollout_id rid (sys_worker s) else sys_worker s) =
      worker_ids (sys_worker s) /\ next_id (if b then set_rollout_id rid (sys_worker s) else sys_worker s) =
      next_id (sys_worker s)) by (intros []; done).
    destruct (W (partial mode)) as [W1 W2]. constructor; simpl; [|by rewrite W2|constructor].
    unfold all_ids in *. simpl. rewrite W1, W2, <- A, log_ids_app. f_equiv.
    destruct (sys_call s) as [c|]; [|by rewrite app_nil_r]. simpl.
    rewrite (call_leaves_ids c); [solve_Permutation|]. simpl in O. destruct (call_pc c); try done; eauto.
Qed.

Lemma initial_accounted sc d : _prefetched_groups sc = [] -> _next_group_id sc = 0%Z ->
  accounted (initial_system (P := P) sc d).
Proof using.
  intros E N. constructor; simpl; [|unfold next_id; simpl; lia|done].
  unfold all_ids, worker_ids, next_id. simpl. by rewrite E, N.
Qed.

Lemma run_accounted l : forall s, accounted s -> accounted (run l s).
Proof using. induction l as [|a l IH]; intros s A; simpl; [done|]. by apply IH, system_step_accounted. Qed.

(** C4: in every interleaving of the worker thread, rollout calls, ending generation tasks
    and a stop, each group that was ever taken from the data buffer is in exactly one
    place: prefetched, in generation, in the worker's hand, on the output queue, held by
    the call, or gone through exactly one recorded event (retried, dropped with a reason,
    delivered, abandoned or drained at shutdown, lost). *)
Theorem groups_accounted sc d l : _prefetched_groups sc = [] -> _next_group_id sc = 0%Z ->
  let s := run l (initial_system sc d) in
  all_ids s ≡ₚ seqZ 0 (next_id (sys_worker s)) /\ NoDup (all_ids s).
Proof using.
  intros E N. pose proof (run_accounted l _ (initial_accounted sc d E N)) as A. split; [apply A|].
  by apply accounted_NoDup.
Qed.

(** *** What a call returns *)

(** The pending data of a call, the limit on dropped groups, and the dictionary that is
    empty once the batch is complete. *)
Record call_ok (c : Call) : Prop := {
  ok_length : (Z.of_nat (length (call_data c)) <= Z.max 0 (target mode))%Z;
  ok_whole : Forall (fun g => _is_aborted_group (pg_samples g) = false) (call_data c);
  ok_dropped : match call_pc c with
               | CFailed _ => True
               | _ => (0 < max_dropped mode -> dropped_failed_groups c < max_dropped mode)%Z
               end;
  ok_full : match call_pc c with
            | CReturn _ | CStop | CJoin | CFinish => batch_full mode c = true /\ completed_by_id c = []
            | CDone batch => batch_full mode c = true /\ completed_by_id c = [] /\
                             finish_batch env (map pg_samples (call_data c)) = Ok batch
            | _ => True
            end }.

Lemma annotate_status f l : (forall s, status (f s) = status s) ->
  _is_aborted_group (map f l) = _is_aborted_group l.
Proof using.
  intros Hf. unfold _is_aborted_group. induction l as [|s l IH]; simpl; [done|].
  rewrite IH. unfold _sample_status_name. by rewrite Hf.
Qed.

Lemma is_failed_whole g group : is_failed g = false -> cg_result g = Some group ->
  _is_aborted_group group = false.
Proof using. unfold is_failed. intros E R. rewrite R in E. by destruct (cg_error g). Qed.

Lemma call_intake_ok got c c' e : call_ok c -> (forall x, call_pc c <> CFailed x) ->
  call_intake got c = Ok (c', e) -> call_ok c'.
Proof using.
  intros [L W Dr F] NF E. unfold call_intake in E.
  destruct (observe_completed _ _) as [[f b]|]; [|done]. cbn [res_bind fst snd] in E.
  match type of E with res_bind ?m _ = _ => destruct m as [[f2 kept]|] eqn:Q end; [|done].
  cbn [res_bind fst snd] in E. injection E as <- <-.
  assert (S : sublist kept (call_data c)).
  { destruct (_ && _); [|by injection Q as <- <-]. unfold filter_pending in Q.
    destruct (negb _); [by injection Q as <- <-|]. by eapply filter_loop_sublist. }
  constructor; simpl; [| | |done].
  - apply sublist_length in S. lia.
  - rewrite Forall_forall in W |- *. intros g Ig. apply W. eapply elem_of_submseteq; [exact Ig|].
    by apply sublist_submseteq.
  - destruct (call_pc c); try exact Dr. by destruct (NF e).
Qed.

Lemma call_take_ok gid rest c d c' d' e : call_ok c -> batch_full mode c = false ->
  call_pc c = CProcess (gid :: rest) -> call_take mode gid rest c d = Ok (c', d', e) -> call_ok c'.
Proof using.
  intros [L W Dr F] NB Pc E. rewrite Pc in Dr. unfold call_take in E.
  destruct (dget (completed_by_id c) gid) as [g|] eqn:G; [|done].
  assert (failed : take_failed mode gid g (dpop (completed_by_id c) gid) rest c d = Ok (c', d', e) ->
    call_ok c').
  { unfold take_failed. intros Fe. destruct (_retry_count _) as [n|]; [|done]. simpl in Fe.
    destruct (n <? max_retries mode)%Z.
    - destruct (_increment_retry _); [|done]. simpl in Fe. injection Fe as <- <- <-.
      constructor; simpl; [done|done| |done]. intros M. specialize (Dr M). lia.
    - injection Fe as <- <- <-. destruct (max_dropped mode <=? _)%Z eqn:B; simpl in B; [by constructor|].
      constructor; simpl; [done|done| |done]. intros M. lia. }
  destruct (is_failed g) eqn:Fg; [by apply failed|].
  destruct (cg_result g) as [group|] eqn:R; [|by apply failed].
  destruct (keep_group _ group) as [[f b]|]; [|done]. simpl in E. injection E as <- <- <-.
  unfold batch_full in NB. constructor; simpl; [| |done|done].
  - destruct b; [|done]. rewrite length_app. simpl. lia.
  - destruct b; [|done]. apply Forall_app. split; [done|]. repeat constructor. simpl.
    destruct (partial mode); [rewrite annotate_status by done|]; by eapply is_failed_whole.
Qed.

Lemma call_step_ok w d c w' d' c' e : call_step env cfg mode w d c = (w', d', c', e) ->
  call_ok c -> call_ok c'.
Proof using.
  intros E K. unfold call_step in E.
  destruct (call_pc c) as [got|ids|left| | | | |] eqn:Pc.
  - destruct (output_queue w) as [|g q] eqn:Q.
    + destruct (call_intake got c) as [[c1 e1]|x] eqn:I; injection E as <- <- <- <-.
      * eapply call_intake_ok; [exact K| |exact I]. by rewrite Pc.
      * destruct K as [L W Dr F]. by constructor.
    + injection E as <- <- <- <-. destruct K as [L W Dr F]. rewrite Pc in Dr. by constructor.
  - destruct (batch_full mode c) eqn:B.
    + unfold call_full in E. destruct K as [L W Dr F]. rewrite Pc in Dr.
      destruct (partial mode); [destruct (final_drain mode)|]; injection E as <- <- <- <-; by constructor.
    + destruct ids as [|gid rest].
      * injection E as <- <- <- <-. destruct K as [L W Dr F]. rewrite Pc in Dr. by constructor.
      * destruct (call_take mode gid rest c d) as [[[c1 d1] e1]|x] eqn:T; simpl in E; injection E as <- <- <- <-.
        -- by eapply call_take_ok.
        -- destruct K as [L W Dr F]. by constructor.
  - destruct K as [L W Dr F]. rewrite Pc in Dr, F. destruct left as [|g rest].
    + injection E as <- <- <- <-. by constructor.
    + destruct (negb _); [|destruct (running w)]; injection E as <- <- <- <-; constructor; simpl; rewrite ?Pc; done.
  - injection E as <- <- <- <-. destruct K as [L W Dr F]. rewrite Pc in Dr, F. by constructor.
  - injection E as <- <- <- <-. destruct K as [L W Dr F]. rewrite Pc in Dr, F. by constructor.
  - injection E as <- <- <- <-. destruct K as [L W Dr F]. rewrite Pc in Dr, F.
    destruct (finish_batch _ _) eqn:Fb; constructor; simpl; try done. by destruct F.
  - by injection E as <- <- <- <-.
  - by injection E as <- <- <- <-.
Qed.

Definition system_call_ok (s : System P D) : Prop :=
  match sys_call s with Some c => call_ok c | None => True end.

Lemma step_call_ok a s : system_call_ok s -> system_call_ok (step a s).
Proof using.
  unfold system_call_ok. intros K. destruct a as [| |gid g o|sid o| |t rid]; simpl.
  - by destruct (worker_step _ _ _ _ _ _ _) as [[? ?] ?].
  - destruct (sys_call s) as [c|] eqn:Sc; simpl; [|by rewrite Sc].
    destruct (call_step _ _ _ _ _ c) as [[[w d] c'] e] eqn:E. simpl. by eapply call_step_ok.
  - done.
  - by destruct (claim _ _ _ _) as [[? ?] ?].
  - done.
  - destruct (call_over (sys_call s)); [|done]. simpl. constructor; simpl; [lia|constructor|auto|done].
Qed.

Lemma run_call_ok l : forall s, system_call_ok s -> system_call_ok (run l s).
Proof using. induction l as [|a l IH]; intros s K; simpl; [done|]. by apply IH, step_call_ok. Qed.

Lemma sort_groups_spec groups sorted : sort_groups groups = Ok sorted ->
  sorted ≡ₚ groups /\
  ((exists g, groups = [g]) \/
   exists keys, mapM_res first_index sorted = Ok keys /\ StronglySorted Z.le keys).
Proof using.
  unfold sort_groups. intros E.
  assert (many : (let! keyed := mapM_res (fun g => let! i := first_index g in Ok (i, g)) groups in
     Ok (map snd (sort_by (fun x y => (fst x <=? fst y)%Z) keyed))) = Ok sorted ->
    sorted ≡ₚ groups /\ exists keys, mapM_res first_index sorted = Ok keys /\ StronglySorted Z.le keys).
  { clear E. destruct (mapM_res _ groups) as [keyed|] eqn:M; [|done]. simpl. intros [= <-].
    apply mapM_res_Forall2 in M. split.
    - rewrite sort_by_perm. match goal with |- ?a ≡ₚ ?b => assert (Q : a = b); [|by rewrite Q] end. clear -M.
      induction M as [|g k gs ks R M IH]; simpl; [done|]. rewrite IH.
      destruct (first_index g); [|done]. by injection R as <-.
    - exists (map fst (sort_by (fun x y => (fst x <=? fst y)%Z) keyed)). split.
      + assert (F : Forall (fun k => first_index (snd k) = Ok (fst k))
          (sort_by (fun x y => (fst x <=? fst y)%Z) keyed)).
        { rewrite sort_by_perm. clear -M. induction M as [|g k gs ks R M IH]; constructor; [|done].
          destruct (first_index g) eqn:Fi; [|done]. by injection R as <-. }
        revert F. generalize (sort_by (fun x y => (fst x <=? fst y)%Z) keyed). clear.
        intros l. induction 1 as [|k l Fk F IH]; simpl; [done|]. by rewrite Fk, IH.
      + apply (sort_by_keys_sorted (fun x y : Z * list Sample => (fst x <=? fst y)%Z) fst); simpl; intros; lia. }
  destruct groups as [|g [|g2 gs]]; [|destruct g; [done|]; simpl in E; injection E as <-; eauto|];
    destruct (many E) as [P1 K1]; eauto.
Qed.

(** C36: a rollout call that returns, in whatever interleaving with the worker, returns
    exactly the groups it asked for: the target number, none of them aborted, in the order
    of their first sample's index, with something to train on unless empty batches are
    allowed; and it has dropped fewer failed groups than the limit. *)
Theorem batch_exact sc d l c batch :
  sys_call (run l (initial_system sc d)) = Some c -> call_pc c = CDone batch ->
  Z.of_nat (length batch) = Z.max 0 (target mode) /\
  batch ≡ₚ map pg_samples (call_data c) /\
  Forall (fun g => _is_aborted_group g = false) batch /\
  ((exists g, batch = [g]) \/
   exists keys, mapM_res first_index batch = Ok keys /\ StronglySorted Z.le keys) /\
  (_allow_empty_train_batch env = false -> existsb _group_has_trainable_tokens batch = true) /\
  (0 < max_dropped mode -> dropped_failed_groups c < max_dropped mode)%Z.
Proof using.
  intros Sc Pc. pose proof (run_call_ok l (initial_system sc d) I) as K.
  unfold system_call_ok in K. rewrite Sc in K. destruct K as [L W Dr F]. rewrite Pc in Dr, F.
  destruct F as (B & _ & F). unfold finish_batch in F.
  destruct (sort_groups _) as [sorted|] eqn:S; [|done]. simpl in F.
  apply raise_if_ok in F as [T F]. injection F as <-.
  destruct (sort_groups_spec _ _ S) as [P1 O1]. unfold batch_full in B. split_and!; [|done| | | |done].
  - rewrite P1, length_map. lia.
  - rewrite P1. by apply Forall_map.
  - destruct O1 as [[g G]|O1]; [left|by right]. rewrite G in P1. apply Permutation_singleton_r in P1. eauto.
  - intros A. rewrite A in T. simpl in T. by apply negb_false_iff in T.
Qed.

(** *** What a partial rollout keeps *)

Definition is_failed_pc (s : System P D) : Prop :=
  match sys_call s with Some c => exists e, call_pc c = CFailed e | None => False end.

(** No call of the run ends with an exception. *)
Fixpoint no_failure (l : list action) (s : System P D) : Prop :=
  ~ is_failed_pc s /\ match l with [] => True | a :: rest => no_failure rest (step a s) end.

Definition is_lost (e : event) : bool :=
  match e with Lost _ => true | Drained _ => negb (final_drain mode) | _ => false end.

Definition kept_log (s : System P D) : Prop := existsb is_lost (sys_log s) = false.

Definition not_stopping (s : System P D) : Prop :=
  match sys_call s with
  | Some c => match call_pc c with CStop | CJoin => final_drain mode = true | _ => True end
  | None => True
  end.

Lemma existsb_map_false {A} (f : A -> event) l : (forall x, is_lost (f x) = false) ->
  existsb is_lost (map f l) = false.
Proof using. intros Hf. induction l; simpl; [done|]. by rewrite Hf. Qed.

Lemma worker_step_kept w d : existsb is_lost (snd (worker_step uuid cfg mode env_paddock release w d)) = false.
Proof using.
  unfold worker_step, worker_shutdown, cleanup, cleanup_all. repeat case_match; simplify_eq; simpl; try done;
    by apply existsb_map_false.
Qed.

Lemma take_failed_kept gid g m rest c d x : take_failed mode gid g m rest c d = Ok x ->
  existsb is_lost (snd x) = false /\ call_pc (fst (fst x)) <> CStop /\ call_pc (fst (fst x)) <> CJoin.
Proof using.
  unfold take_failed. destruct (_retry_count _); [|done]. simpl. destruct (_ <? _)%Z.
  - destruct (_increment_retry _); [|done]. by intros [= <-].
  - intros [= <-]. simpl. by destruct (_ <=? _)%Z.
Qed.

Lemma call_take_kept gid rest c d x : call_take mode gid rest c d = Ok x ->
  existsb is_lost (snd x) = false /\ call_pc (fst (fst x)) <> CStop /\ call_pc (fst (fst x)) <> CJoin.
Proof using.
  unfold call_take. destruct (dget _ gid) as [g|]; [|done].
  destruct (is_failed g); [by apply take_failed_kept|].
  destruct (cg_result g); [|by apply take_failed_kept].
  destruct (keep_group _ _) as [[f b]|]; [|done]. intros [= <-]. by destruct b.
Qed.

Lemma call_step_kept w d c w' d' c' e : partial mode = true -> call_ok c ->
  (match call_pc c with CStop | CJoin => final_drain mode = true | _ => True end) ->
  call_step env cfg mode w d c = (w', d', c', e) -> (forall x, call_pc c' <> CFailed x) ->
  existsb is_lost e = false /\
  match call_pc c' with CStop | CJoin => final_drain mode = true | _ => True end.
Proof using.
  intros Pm K NS E NF. unfold call_step in E.
  destruct (call_pc c) as [got|ids|left| | | | |] eqn:Pc.
  - destruct (output_queue w).
    + destruct (call_intake got c) as [[c1 e1]|x] eqn:I; injection E as <- <- <- <-.
      * unfold call_intake in I. destruct (observe_completed _ _); [|done]. simpl in I.
        match type of I with res_bind ?m _ = _ => destruct m; [|done] end. simpl in I.
        injection I as <- <-. simpl. split; [|done]. by apply existsb_map_false.
      * by destruct (NF x).
    + by injection E as <- <- <- <-.
  - destruct (batch_full mode c).
    + unfold call_full in E. rewrite Pm in E. destruct (final_drain mode) eqn:Fd; injection E as <- <- <- <-;
        (split; [|done]); [apply existsb_map_false; intros; simpl; by rewrite Fd|done].
    + destruct ids as [|gid rest]; [by injection E as <- <- <- <-|].
      destruct (call_take mode gid rest c d) as [[[c1 d1] e1]|x] eqn:T; simpl in E; injection E as <- <- <- <-.
      * destruct (call_take_kept _ _ _ _ _ T) as (T1 & T2 & T3). simpl in *. split; [done|].
        by destruct (call_pc c1).
      * by destruct (NF x).
  - destruct left; [by injection E as <- <- <- <-|].
    destruct (negb _); [|destruct (running w)]; injection E as <- <- <- <-; simpl; rewrite ?Pc; done.
  - by injection E as <- <- <- <-.
  - injection E as <- <- <- <-. split; [|done]. apply existsb_map_false. intros. simpl. by rewrite NS.
  - injection E as <- <- <- <-. simpl. split; [done|]. by destruct (finish_batch _ _).
  - injection E as <- <- <- <-. by rewrite Pc.
  - injection E as <- <- <- <-. by rewrite Pc.
Qed.

Lemma step_kept a s : partial mode = true -> system_call_ok s -> kept_log s -> not_stopping s ->
  ~ is_failed_pc s -> ~ is_failed_pc (step a s) -> kept_log (step a s) /\ not_stopping (step a s).
Proof using.
  intros Pm K Lg NS NF NF'. unfold kept_log, not_stopping, system_call_ok, is_failed_pc in *.
  destruct a as [| |gid g o|sid o| |t rid]; simpl in *.
  - pose proof (worker_step_kept (sys_worker s) (sys_data s)) as Wk.
    destruct (worker_step _ _ _ _ _ _ _) as [[? ?] e]. simpl in *. by rewrite existsb_app, Lg.
  - destruct (sys_call s) as [c|] eqn:Sc; [|by rewrite Sc].
    destruct (call_step _ _ _ _ _ c) as [[[w d] c'] e] eqn:E. simpl in *.
    destruct (call_step_kept _ _ _ _ _ _ _ Pm K NS E) as [C1 C2]; [intros x Ex; apply NF'; eauto|].
    by rewrite existsb_app, Lg.
  - done.
  - by destruct (claim _ _ _ _) as [[? ?] ?].
  - done.
  - destruct (call_over (sys_call s)) eqn:O; [|done]. simpl. split; [|done]. rewrite existsb_app, Lg. simpl.
    destruct (sys_call s) as [c|]; [|done]. destruct K as [_ _ _ F]. simpl in O. unfold call_leaves.
    destruct (call_pc c) eqn:Pc; try done; [|by destruct NF; eauto].
    destruct F as (_ & -> & _). rewrite app_nil_r. by apply existsb_map_false.
Qed.

(** What an event of the log says of the run it is found in: a full queue drops a group
    only when the worker has been told to stop, a group is abandoned only when the worker
    thread has ended, and groups are drained only after the last rollout. *)
Definition kept_event (s : System P D) (e : event) : Prop :=
  match e with
  | Retried _ | DroppedFailed _ | DroppedStale _ | Delivered _ => True
  | DroppedFull _ => running (sys_worker s) = false
  | Abandoned _ => worker_pc (sys_worker s) = WStopped
  | Drained _ => final_drain mode = true
  | Lost _ => False
  end.

Definition is_stop (e : event) : bool := match e with DroppedFull _ | Abandoned _ => true | _ => false end.

Definition stop_event (w : Worker P) (e : event) : Prop :=
  match e with
  | DroppedFull _ => running w = false
  | Abandoned _ => worker_pc w = WStopped
  | _ => True
  end.

(** Once stopped, always stopped. *)
Definition stays_stopped (w w' : Worker P) : Prop :=
  (running w = false -> running w' = false) /\ (worker_pc w = WStopped -> worker_pc w' = WStopped).

Lemma stop_event_mono w w' e : stays_stopped w w' -> stop_event w e -> stop_event w' e.
Proof using. intros [A B]. destruct e; simpl; auto. Qed.

Lemma shutdown_stops w w' e : worker_shutdown release w = (w', e) ->
  worker_pc w' = WStopped /\ Forall (stop_event w') e /\ (running w = false -> running w' = false).
Proof using.
  unfold worker_shutdown. rewrite (surjective_pairing (cleanup _ _ _)).
  assert (R : forall l w, running (fold_left (fun w gid => worker_cleanup_group gid w) l w) = running w).
  { clear. induction l as [|g l IH]; intros w; simpl; [done|]. by rewrite IH. }
  destruct (cleanup _ _ _) as [[sc st] lp]. simpl. intros [= <- <-]. simpl. rewrite R.
  split_and!; try done. apply Forall_map, Forall_true. done.
Qed.

Lemma worker_step_stops w d w' d' e : worker_step uuid cfg mode env_paddock release w d = (w', d', e) ->
  Forall (stop_event w') e /\ stays_stopped w w'.
Proof using.
  unfold worker_step, stays_stopped. destruct (worker_shutdown release w) as [w1 e1] eqn:Sh.
  destruct (shutdown_stops w w1 e1 Sh) as (S1 & S2 & S3).
  destruct (worker_pc w) as [|[|gid rest]|c rest|gid rest| | |] eqn:Pc; intros E.
  - destruct (running w) eqn:R; injection E as <- <- <-; simpl; rewrite ?R; repeat split; auto; done.
  - by injection E as <- <- <-.
  - destruct (dget (active w) gid); by injection E as <- <- <-.
  - destruct (negb _); [by injection E as <- <- <-|].
    destruct (running w) eqn:R; injection E as <- <- <-; simpl; rewrite ?R, ?Pc; repeat split; auto;
      by repeat constructor.
  - by injection E as <- <- <-.
  - destruct (do_prefetch _ _ _ _ _ _) as [[[[d1 sc] st] lp] [u|x]]; [injection E as <- <- <-; by repeat split|].
    match type of E with context [worker_shutdown release ?v] =>
      destruct (worker_shutdown release v) as [w2 e2] eqn:Sh2 end. injection E as <- <- <-.
    destruct (shutdown_stops _ _ _ Sh2) as (F1 & F2 & F3). split; [exact F2|split; [exact F3|by intros _]].
  - destruct (_ && _); [|by injection E as <- <- <-].
    destruct (pop_next_group _ _) as [[[? ?] [[g gr]|]]|]; injection E as <- <- <-; simpl;
      rewrite ?Pc; auto; by repeat split.
  - injection E as <- <- <-. by rewrite Pc.
Qed.

Definition not_stop (e : event) : Prop := is_stop e = false.

Lemma not_stop_event w e : not_stop e -> stop_event w e.
Proof using. by destruct e. Qed.

Lemma not_stop_map {A} (f : A -> event) l : (forall x, is_stop (f x) = false) -> Forall not_stop (map f l).
Proof using. intros E. induction l; simpl; constructor; auto. apply E. Qed.

Lemma take_failed_not_stop gid g m rest c d x : take_failed mode gid g m rest c d = Ok x ->
  Forall not_stop (snd x).
Proof using.
  unfold take_failed. destruct (_retry_count _); [|done]. simpl. destruct (_ <? _)%Z.
  - destruct (_increment_retry _); [|done]. intros [= <-]. by repeat constructor.
  - intros [= <-]. by repeat constructor.
Qed.

Lemma call_take_not_stop gid rest c d x : call_take mode gid rest c d = Ok x -> Forall not_stop (snd x).
Proof using.
  unfold call_take. destruct (dget _ gid) as [g|]; [|done].
  destruct (is_failed g); [by apply take_failed_not_stop|].
  destruct (cg_result g); [|by apply take_failed_not_stop].
  destruct (keep_group _ _) as [[f b]|]; [|done]. intros [= <-]. destruct b; by repeat constructor.
Qed.

Lemma call_step_stops w d c w' d' c' e : call_step env cfg mode w d c = (w', d', c', e) ->
  Forall (stop_event w') e /\ stays_stopped w w'.
Proof using.
  assert (Ns : forall w l, Forall not_stop l -> Forall (stop_event w) l).
  { intros v l F. eapply Forall_impl; [exact F|]. intros x. apply not_stop_event. }
  unfold call_step, stays_stopped. intros E. destruct (call_pc c) as [got|ids|left| | | | |].
  - destruct (output_queue w); [|by injection E as <- <- <- <-].
    destruct (call_intake got c) as [[c1 e1]|x] eqn:I.
    + injection E as <- <- <- <-. split; [|done]. apply Ns. unfold call_intake in I.
      destruct (observe_completed _ _); [|done]. simpl in I.
      simpl in I. match type of I with res_bind ?m _ = _ => destruct m; [|done] end.
      injection I as <- <-. by apply not_stop_map.
    + injection E as <- <- <- <-. split; [|done]. by apply Ns, not_stop_map.
  - destruct (batch_full mode c).
    + unfold call_full in E. destruct (partial mode); [destruct (final_drain mode)|];
        injection E as <- <- <- <-; (split; [|done]); apply Ns; try done; by apply not_stop_map.
    + destruct ids as [|gid rest]; [by injection E as <- <- <- <-|].
      destruct (call_take mode gid rest c d) as [[[c1 d1] e1]|x] eqn:T; simpl in E; injection E as <- <- <- <-.
      * split; [|done]. apply Ns. apply (call_take_not_stop _ _ _ _ _ T).
      * done.
  - destruct left; [by injection E as <- <- <- <-|].
    destruct (negb _); [by injection E as <- <- <- <-|].
    destruct (running w) eqn:R; injection E as <- <- <- <-; [done|]. split; [|by rewrite R]. by repeat constructor.
  - by injection E as <- <- <- <-.
  - injection E as <- <- <- <-. split; [|done]. by apply Ns, not_stop_map.
  - by injection E as <- <- <- <-.
  - by injection E as <- <- <- <-.
  - by injection E as <- <- <- <-.
Qed.

Lemma call_leaves_not_stop c : Forall not_stop (call_leaves c).
Proof using.
  unfold call_leaves. apply Forall_app. split; [|by apply not_stop_map].
  destruct (call_pc c); by apply not_stop_map.
Qed.

Definition stop_log (s : System P D) : Prop := Forall (stop_event (sys_worker s)) (sys_log s).

Lemma step_stop_log a s : stop_log s -> stop_log (step a s).
Proof using.
  assert (G : forall w w' l e, Forall (stop_event w) l -> Forall (stop_event w') e /\ stays_stopped w w' ->
    Forall (stop_event w') (l ++ e)).
  { intros w w' l e L [Fe St]. apply Forall_app. split; [|done]. eapply Forall_impl; [exact L|].
    intros x. by apply stop_event_mono. }
  intros L. unfold stop_log in *. destruct a as [| |gid g o|sid o| |t rid]; simpl.
  - destruct (worker_step _ _ _ _ _ _ _) as [[w d] e] eqn:E. simpl.
    eapply G; [done|]. by eapply worker_step_stops.
  - destruct (sys_call s) as [c|]; [|done]. destruct (call_step _ _ _ _ _ c) as [[[w d] c'] e] eqn:E. simpl.
    eapply G; [done|]. by eapply call_step_stops.
  - rewrite <- (app_nil_r (sys_log s)). eapply G; [done|]. split; [done|]. unfold finish_task, stays_stopped.
    by destruct (dget _ gid) as [[? [|]]|].
  - destruct (claim _ _ _ _) as [[? ?] ?]. simpl. rewrite <- (app_nil_r (sys_log s)). by eapply G.
  - rewrite <- (app_nil_r (sys_log s)). by eapply G.
  - destruct (call_over (sys_call s)); [|done]. simpl. eapply G; [done|]. split.
    + destruct (sys_call s); [|done]. eapply Forall_impl; [apply call_leaves_not_stop|].
      intros x. apply not_stop_event.
    + by destruct (partial mode).
Qed.

Lemma run_stop_log sc d l : stop_log (run l (initial_system sc d)).
Proof using.
  assert (G : forall l s, stop_log s -> stop_log (run l s)); [|apply G; constructor].
  clear. induction l as [|a l IH]; intros s L; simpl; [done|]. by apply IH, step_stop_log.
Qed.

Lemma run_kept_log sc d l : partial mode = true -> no_failure l (initial_system sc d) ->
  kept_log (run l (initial_system sc d)).
Proof using.
  intros Pm NF.
  assert (G : forall l s, system_call_ok s -> kept_log s -> not_stopping s -> no_failure l s ->
      kept_log (run l s)); [|by apply G].
  clear -Pm. induction l as [|a l IH]; intros s K Lg NS [N1 N2]; simpl; [done|].
  assert (N3 : ~ is_failed_pc (step a s)) by (destruct l; apply N2).
  destruct (step_kept a s Pm K Lg NS N1 N3). apply IH; auto. by apply step_call_ok.
Qed.

Lemma run_kept_events sc d l : partial mode = true -> no_failure l (initial_system sc d) ->
  Forall (kept_event (run l (initial_system sc d))) (sys_log (run l (initial_system sc d))).
Proof using.
  intros Pm NF. apply Forall_forall. intros e Ie. pose proof (run_kept_log sc d l Pm NF) as K.
  pose proof (proj1 (Forall_forall _ _) (run_stop_log sc d l) e Ie) as S.
  assert (L : is_lost e = false).
  { unfold kept_log in K. destruct (is_lost e) eqn:L; [|done].
    assert (X : existsb is_lost (sys_log (run l (initial_system sc d))) = true); [|congruence].
    apply existsb_exists. exists e. split; [by apply list_elem_of_In|done]. }
  destruct e; simpl in *; try done. by destruct (final_drain mode).
Qed.

(** C16: in a partial rollout no group is lost.  In every interleaving of the worker thread,
    rollout calls, ending generation tasks and stops in which no call ends with an
    exception, each group ever taken from the data buffer is still at the worker
    (prefetched, in generation, in its hand or on its queue), or held by the current call,
    or went through a recorded event of which none is a loss: it was delivered, returned
    to the buffer for a retry, dropped as failed or stale, dropped at a full queue once the
    worker was told to stop, abandoned when the worker thread ended, or drained by a final
    rollout.  So the groups a call took beyond its batch have to go back on the queue. *)
Theorem partial_keeps_groups sc d l : partial mode = true ->
  _prefetched_groups sc = [] -> _next_group_id sc = 0%Z -> no_failure l (initial_system sc d) ->
  let s := run l (initial_system sc d) in
  (forall e, e ∈ sys_log s -> kept_event s e) /\
  forall gid, (0 <= gid < next_id (sys_worker s))%Z ->
    gid ∈ worker_ids (sys_worker s) \/
    (exists c, sys_call s = Some c /\ gid ∈ call_ids c) \/
    exists e, e ∈ sys_log s /\ event_group e = gid /\ kept_event s e.
Proof using.
  intros Pm E N NF s. pose proof (run_kept_events sc d l Pm NF) as K. rewrite Forall_forall in K.
  split; [exact K|]. intros gid Hg.
  destruct (run_accounted l _ (initial_accounted sc d E N)) as [A _ _]. fold s in A.
  assert (I : gid ∈ all_ids s) by (rewrite A; apply elem_of_seqZ; lia).
  unfold all_ids in I. rewrite !elem_of_app in I. destruct I as [I|[I|I]]; [by left|right; left|right; right].
  - destruct (sys_call s) as [c|]; simpl in I; [by exists c|by apply elem_of_nil in I].
  - unfold log_ids in I. apply list_elem_of_In, in_map_iff in I as (e & <- & Ie).
    apply list_elem_of_In in Ie. exists e. auto.
Qed.

(** *** Bounds of the worker *)

Definition worker_bounded (w : Worker P) : Prop :=
  (Z.of_nat (length (active w)) <= Z.max 0 (max_active_groups cfg))%Z /\
  (0 < output_size cfg -> Z.of_nat (length (output_queue w)) <= output_size cfg)%Z.

Lemma dpop_length {V} (m : list (Z * V)) k : (length (dpop m k) <= length m)%nat.
Proof using. induction m as [|[k' v] m IH]; simpl; [done|]. case_decide; simpl; lia. Qed.

Lemma dset_length {V} (m : list (Z * V)) k v : (length (dset m k v) <= S (length m))%nat.
Proof using. induction m as [|[k' x] m IH]; simpl; [done|]. case_decide; simpl; lia. Qed.

Lemma queue_room w : queue_full cfg w = false -> (0 < output_size cfg)%Z ->
  (Z.of_nat (length (output_queue w)) < output_size cfg)%Z.
Proof using. unfold queue_full. intros E S. rewrite (proj2 (Z.ltb_lt _ _)) in E by done. simpl in E. lia. Qed.

Lemma shutdown_bounded w : worker_bounded w -> worker_bounded (fst (worker_shutdown release w)).
Proof using.
  intros [A Q]. unfold worker_shutdown, cleanup, cleanup_all.
  destruct (cleanup_fold_fields (map fst (active w)) w) as [_ F2].
  set (w1 := fold_left _ _ w) in *. clearbody w1. cbv zeta in F2.
  unfold worker_bounded. simpl. rewrite F2. split; [lia|done].
Qed.

Lemma worker_step_bounded w d :
  worker_bounded w -> worker_bounded (fst (fst (worker_step uuid cfg mode env_paddock release w d))).
Proof using.
  intros B. pose proof (shutdown_bounded w B) as Sh. unfold worker_step.
  destruct (worker_shutdown release w) as [w1 e1]. simpl in Sh. destruct B as [A Q].
  destruct (worker_pc w) as [|[|gid rest]|c rest|gid rest| | |]; simpl; try done.
  - by destruct (running w).
  - destruct (dget (active w) gid); [|done]. split; simpl; [|done].
    pose proof (dpop_length (active w) gid). lia.
  - destruct (queue_full cfg w) eqn:F; simpl; [by destruct (running w)|].
    split; simpl; [done|]. intros S. rewrite length_app. simpl. pose proof (queue_room w F S). lia.
  - destruct (do_prefetch _ _ _ _ _ _) as [[[[d1 sc] st] lp] [u|x]]; [done|].
    exact (shutdown_bounded (with_scheduler sc (with_store (st, lp) w)) (conj A Q)).
  - destruct (_ && _) eqn:G; [|done]. apply andb_true_iff in G as [G _]. apply andb_true_iff in G as [_ G].
    destruct (pop_next_group _ _) as [[[? ?] [[gid g]|]]|]; simpl; try done.
    split; simpl; [|done].
    match goal with |- context [dset (active w) gid ?v] => pose proof (dset_length (active w) gid v) end. lia.
Qed.

Lemma call_step_bounded w d c : worker_bounded w ->
  worker_bounded (fst (fst (fst (call_step env cfg mode w d c)))).
Proof using.
  intros [A Q]. unfold call_step. destruct (call_pc c) as [got|ids|left| | | | |]; try done.
  - destruct (output_queue w) as [|g q] eqn:E.
    + destruct (call_intake got c) as [[? ?]|]; simpl; by (split; rewrite ?E).
    + split; simpl; [done|]. intros S. specialize (Q S). simpl in Q. lia.
  - destruct (batch_full mode c); [by destruct (call_full mode c)|]. destruct ids as [|gid rest]; [done|].
    by destruct (or_failed c d _) as [[? ?] ?].
  - destruct left as [|g rest]; [done|]. destruct (queue_full cfg w) eqn:F; simpl; [by destruct (running w)|].
    split; simpl; [done|]. intros S. rewrite length_app. simpl. pose proof (queue_room w F S). lia.
  - split; simpl; [done|lia].
Qed.

(** The worker never has more than [max_active_groups] groups in generation and the
    output queue never exceeds its size, whatever the interleaving. *)
Theorem worker_stays_bounded sc d l : worker_bounded (sys_worker (run l (initial_system sc d))).
Proof using.
  assert (G : forall l s, worker_bounded (sys_worker s) -> worker_bounded (sys_worker (run l s))).
  { clear. induction l as [|a l IH]; intros s B; simpl; [done|]. apply IH.
    destruct a as [| |gid g o|sid o| |t rid]; simpl.
    - pose proof (worker_step_bounded (sys_worker s) (sys_data s) B).
      by destruct (worker_step _ _ _ _ _ _ _) as [[? ?] ?].
    - destruct (sys_call s) as [c|]; [|done]. pose proof (call_step_bounded (sys_worker s) (sys_data s) c B).
      by destruct (call_step _ _ _ _ _ c) as [[[? ?] ?] ?].
    - unfold finish_task. destruct (dget (active (sys_worker s)) gid) as [[gr [x|]]|] eqn:G; try done.
      destruct B as [A Q]. split; simpl; [|done].
      assert (L : length (dset (active (sys_worker s)) gid {| ag_group := g; ag_outcome := Some o |}) =
        length (active (sys_worker s))); [|lia].
      transitivity (length (dkeys (dset (active (sys_worker s)) gid {| ag_group := g; ag_outcome := Some o |})));
        [by unfold dkeys; rewrite length_map|].
      rewrite dkeys_dset, decide_True; [unfold dkeys; by rewrite length_map|by eapply dget_Some_key].
    - by destruct (claim _ _ _ _) as [[? ?] ?].
    - done.
    - destruct (call_over _); [|done]. simpl. by destruct (partial mode). }
  apply G. split; simpl; lia.
Qed.

(** *** Retries *)

(** A failed group that goes back to the buffer had fewer retries than the limit and
    comes back with one more, its dead session forgotten in every sample; a failed group
    whose retries are used up is dropped and counted, and reaching the limit of dropped
    groups ends the call with an error instead of waiting for ever. *)
Theorem failed_group_retried gid rest c d c' d' e g :
  call_take mode gid rest c d = Ok (c', d', e) -> dget (completed_by_id c) gid = Some g ->
  is_failed g = true -> original_group g <> [] ->
  exists n, _retry_count (original_group g) = Ok n /\
  (((n < max_retries mode)%Z /\ e = [Retried gid] /\ call_pc c' = CProcess rest /\
     exists g', _increment_retry (original_group g) = Ok g' /\ d' = db_add [g'] d /\
       _retry_count g' = Ok (n + 1)%Z /\
       Forall (fun s => sp_session_id s = None /\ remove_sample s = false) g')
   \/
   (max_retries mode <= n)%Z /\ e = [DroppedFailed gid] /\ d' = d /\
     dropped_failed_groups c' = (dropped_failed_groups c + 1)%Z /\
     ((max_dropped mode <= dropped_failed_groups c')%Z <-> call_pc c' <> CProcess rest)).
Proof using.
  intros E G Fl NE. unfold call_take in E. rewrite G, Fl in E. unfold take_failed in E.
  destruct (_retry_count (original_group g)) as [n|] eqn:R; [|done]. cbn [res_bind] in E. exists n.
  split; [done|]. destruct (Z.ltb_spec n (max_retries mode)) as [Lt|Ge].
  - left. destruct (_increment_retry (original_group g)) as [g'|] eqn:I; [|done]. simpl in E.
    injection E as <- <- <-. split_and!; [done|done|done|]. exists g'. split_and!; [done|done| |].
    + destruct (increment_retry_count _ _ NE I) as (m & R1 & R2). congruence.
    + apply mapM_res_Forall2 in I. clear -I. induction I as [|s s' l l' Is I IH]; constructor; [|done].
      unfold increment_one in Is. destruct (py_int _); [|done]. simpl in Is. by injection Is as <-.
  - right. destruct (Z.leb_spec (max_dropped mode) (dropped_failed_groups c + 1)) as [B|B].
    + rewrite (proj2 (Z.leb_le _ _)) in E by done. injection E as <- <- <-. simpl.
      split_and!; try done; lia.
    + rewrite (proj2 (Z.leb_gt _ _)) in E by done. injection E as <- <- <-. simpl.
      split_and!; [lia|done|done|done|split; [lia|by intros []]].
Qed.
End Conservation.

(** ** The size of a partial batch *)

(** The number of groups a partial rollout waits for is between one and the rollout
    batch; without the explicit group count it is the least number of groups that covers
    the requested samples, capped by the batch. *)
Theorem partial_target_bounds env args t : _partial_target_groups env args = Ok t ->
  let batch := Z.max 1 (_int_attr args "rollout_batch_size" 1) in
  let n := Z.max 1 (_int_attr args "n_samples_per_prompt" 1) in
  (1 <= t <= batch)%Z /\
  (_env_int env "DRESSAGE_PARTIAL_ROLLOUT_TARGET_GROUPS" = Ok None ->
   forall s, _env_int env "DRESSAGE_PARTIAL_ROLLOUT_TARGET_SAMPLES" = Ok (Some s) ->
     (Z.min s (batch * n) <= t * n)%Z /\ ((t - 1) * n < Z.max 1 s)%Z).
Proof.
  unfold _partial_target_groups. cbv zeta.
  set (batch := Z.max 1 (_int_attr args "rollout_batch_size" 1)).
  set (n := Z.max 1 (_int_attr args "n_samples_per_prompt" 1)).
  destruct (_env_int env "DRESSAGE_PARTIAL_ROLLOUT_TARGET_GROUPS") as [[g|]|]; cbn [res_bind]; [| |done].
  - intros [= <-]. split; [lia|done].
  - destruct (_env_int env "DRESSAGE_PARTIAL_ROLLOUT_TARGET_SAMPLES") as [o|]; cbn [res_bind]; [|done].
    intros [= <-]. split; [lia|]. intros _ s [= ->].
    assert (B : (1 <= batch)%Z) by lia. assert (N : (1 <= n)%Z) by lia. clearbody batch n.
    set (k := ceil_div (Z.max 1 s) n).
    assert (K : (Z.max 1 s <= k * n < Z.max 1 s + n)%Z).
    { unfold k, ceil_div. pose proof (Z.div_mod (Z.max 1 s + n - 1) n).
      pose proof (Z.mod_pos_bound (Z.max 1 s + n - 1) n). lia. }
    clearbody k. split; nia.
Qed.

(** ** Witnesses *)

#[local] Instance w_async_text : PyText :=
  {| py_repr := fun _ => ""; py_parse_float := fun _ => None |}.

Definition w_async_args : DataArgs :=
  {| input_key := None; label_key := None; metadata_key := "metadata"; multimodal_keys := false;
     prompt_data := Some "train.jsonl"; mixture_datasets := []; rollout_shuffle := false;
     rollout_seed := 42; n_samples_per_prompt := 1;
     sglang_enable_deterministic_inference := false |}.

#[local] Instance w_async_buffer : DataBuffer DressageDataSource :=
  source_buffer w_shuffle fsum w_no_parent w_async_args.

Definition w_env (name : string) : option string := None.

Definition w_cfg : WorkerConfig := {| max_active_groups := 2; output_size := 10; high_watermark := 8 |}.

Definition w_mode (is_partial : bool) : Mode :=
  {| partial := is_partial; target := 1; max_retries := 1; max_dropped := 100; final_drain := false;
     call_rollout_id := 7 |}.

Definition w_async_scheduler : PrewarmScheduler :=
  {| sched_enabled := false; ahead := 0; _prefetched_groups := []; _next_group_id := 0 |}.

(** A sample with one trained token. *)
Definition w_done (i : Z) : Sample :=
  {| index := Some i; group_index := Some i; sp_session_id := None; tokens := [PInt 1; PInt 2];
     response := "ok"; response_length := 1; loss_mask := Some [1%Z]; rollout_log_probs := None;
     reward := PNone; status := "completed"; remove_sample := false; rollout_id := None;
     metadata := Some []; rollout_routed_experts := None; sp_prompt := PStr "p"; sp_label := None;
     sp_generate_function_path := None |}.

Abbreviation w_initial := (initial_system (P := unit) w_async_scheduler w_source).

Abbreviation w_system is_partial l :=
  (system_run w_env w_uuid w_cfg (w_mode is_partial) None (fun _ => Released) l w_initial).

(** Two groups start, both finish, and one call that wants one group runs to its end. *)
Definition w_actions : list action :=
  repeat AWorker 6 ++ [AFinish 0 [w_done 0] (inl [One (w_done 0)]);
                       AFinish 1 [w_done 1] (inl [Many [w_done 1; w_done 1]])] ++
  repeat AWorker 8 ++ [ANewCall {| keep_versions := None; versions := [] |} 7] ++ repeat ACall 10.

Lemma groups_accounted_witness :
  all_ids (w_system true w_actions) ≡ₚ seqZ 0 (next_id (sys_worker (w_system true w_actions))) /\
  next_id (sys_worker (w_system true w_actions)) = 2%Z.
Proof.
  split; [|vm_compute; reflexivity].
  exact (proj1 (groups_accounted w_env w_uuid w_cfg (w_mode true) None (fun _ => Released)
    w_async_scheduler w_source w_actions eq_refl eq_refl)).
Defined.

Definition call_done (s : System unit DressageDataSource) : bool :=
  match sys_call s with
  | Some c => match call_pc c with CDone _ => true | _ => false end
  | None => false
  end.

Lemma call_done_sound s : call_done s = true ->
  exists c batch, sys_call s = Some c /\ call_pc c = CDone batch.
Proof.
  unfold call_done. intros E. destruct (sys_call s) as [c|]; [|done].
  destruct (call_pc c) as [| | | | | |batch|] eqn:Pc; try done. by exists c, batch.
Qed.

Lemma w_partial_done : call_done (w_system true w_actions) = true.
Proof. vm_compute. reflexivity. Qed.

Lemma w_fully_done : call_done (w_system false w_actions) = true.
Proof. vm_compute. reflexivity. Qed.

Lemma batch_exact_witness : exists c batch, sys_call (w_system true w_actions) = Some c /\
  call_pc c = CDone batch /\ Z.of_nat (length batch) = 1%Z.
Proof.
  exact (match call_done_sound _ w_partial_done with
         | ex_intro _ c (ex_intro _ batch (conj Sc Pc)) =>
             ex_intro _ c (ex_intro _ batch (conj Sc (conj Pc
               (proj1 (batch_exact w_env w_uuid w_cfg (w_mode true) None (fun _ => Released)
                  w_async_scheduler w_source w_actions c batch Sc Pc)))))
         end).
Defined.

Definition is_failed_pcb (s : System unit DressageDataSource) : bool :=
  match sys_call s with Some c => match call_pc c with CFailed _ => true | _ => false end | None => false end.

Fixpoint no_failureb (l : list action) (s : System unit DressageDataSource) : bool :=
  negb (is_failed_pcb s) &&
  match l with
  | [] => true
  | a :: rest => no_failureb rest
      (system_step w_env w_uuid w_cfg (w_mode true) None (fun _ => Released) a s)
  end.

Lemma no_failureb_sound l : forall s, no_failureb l s = true ->
  no_failure w_env w_uuid w_cfg (w_mode true) None (fun _ => Released) l s.
Proof.
  induction l as [|a l IH]; intros s E; simpl in E |- *; apply andb_true_iff in E as [E1 E2];
    (split; [|auto]); unfold is_failed_pcb in E1; unfold is_failed_pc; intros X;
    destruct (sys_call s) as [c|]; try done; destruct X as [e X]; by rewrite X in E1.
Qed.

Lemma w_no_failure : no_failureb w_actions w_initial = true.
Proof. vm_compute. reflexivity. Qed.

Lemma w_queued_back : map cg_group_id (output_queue (sys_worker (w_system true w_actions))) = [1%Z].
Proof. vm_compute. reflexivity. Qed.

(** The second group is back on the queue and nothing is lost. *)
Lemma partial_keeps_groups_witness :
  (forall e, e ∈ sys_log (w_system true w_actions) -> kept_event (w_mode true) (w_system true w_actions) e) /\
  next_id (sys_worker (w_system true w_actions)) = 2%Z /\
  map cg_group_id (output_queue (sys_worker (w_system true w_actions))) = [1%Z].
Proof.
  split; [|split; [vm_compute; reflexivity|exact w_queued_back]].
  exact (proj1 (partial_keeps_groups w_env w_uuid w_cfg (w_mode true) None (fun _ => Released)
    w_async_scheduler w_source w_actions eq_refl eq_refl eq_refl (no_failureb_sound _ _ w_no_failure))).
Defined.

(** The fully asynchronous call drops the second group: it is completed and trainable, but
    neither delivered, nor queued, nor given back for a retry. *)
Lemma fully_async_loses_surplus :
  (exists c batch, sys_call (w_system false w_actions) = Some c /\ call_pc c = CDone batch) /\
  sys_log (w_system false w_actions) = [Lost 1] /\
  output_queue (sys_worker (w_system false w_actions)) = [] /\
  buffer (sys_data (w_system false w_actions)) = [].
Proof.
  split; [exact (call_done_sound _ w_fully_done)|]. vm_compute. auto.
Qed.

Definition w_failed_group : CompletedGroup :=
  {| cg_group_id := 0; original_group := [w_done 0]; cg_result := None;
     cg_error := Some {| err_type := "RuntimeError"; err_text := "boom" |} |}.

Definition w_failed_call : Call :=
  {| call_pc := CProcess [0%Z]; completed_by_id := [(0%Z, w_failed_group)]; call_data := [];
     dropped_failed_groups := 0; retried_groups := 0; staleness_rejected := 0;
     staleness_filter := {| tracker := {| keep_versions := None; versions := [] |}; dropped_groups := 0 |} |}.

Lemma failed_group_retried_witness : exists c' d' e,
  call_take (w_mode true) 0 [] w_failed_call w_source = Ok (c', d', e) /\ e = [Retried 0] /\
  exists n, _retry_count [w_done 0] = Ok n /\ length (buffer d') = 1%nat.
Proof.
  destruct (call_take (w_mode true) 0 [] w_failed_call w_source) as [[[c' d'] e]|] eqn:E;
    [|vm_compute in E; discriminate].
  destruct (failed_group_retried (w_mode true) 0 [] w_failed_call w_source c' d' e w_failed_group E
    eq_refl eq_refl ltac:(discriminate)) as (n & R & _).
  exists c', d', e. split; [done|]. vm_compute in E. injection E as <- <- <-.
  split; [done|]. exists n. split; [exact R|reflexivity].
Defined.

Definition w_target_env (name : string) : option string :=
  if String.eqb name "DRESSAGE_PARTIAL_ROLLOUT_TARGET_SAMPLES" then Some "50" else None.

Definition w_target_args : dict := [("rollout_batch_size", PInt 16); ("n_samples_per_prompt", PInt 8)].

(** 50 samples in groups of 8: seven groups. *)
Lemma partial_target_bounds_witness : exists t,
  _partial_target_groups w_target_env w_target_args = Ok t /\ t = 7%Z /\ (1 <= t <= 16)%Z.
Proof.
  destruct (_partial_target_groups w_target_env w_target_args) as [t|] eqn:E; [|vm_compute in E; discriminate].
  exists t. split; [done|]. pose proof (proj1 (partial_target_bounds w_target_env w_target_args t E)) as B.
  vm_compute in E. injection E as <-. split; [done|exact B].
Defined.

Example watermark : (let! c := worker_config w_env w_target_args in Ok (high_watermark c)) = Ok 800%Z.
Proof. vm_compute. reflexivity. Qed.
