(* ===== verification/SyncRollout.v ===== *)
(** * Synchronous rollout ([dressage/rollout/sync_rollout.py])

    [_run_sync_rollout] submits the whole batch at once and waits until every group has a
    result; a failed group is submitted again while it has retries left and is then
    replaced by a placeholder without gradient.  [asyncio.wait] hands over the finished
    tasks in any order: a [Choice] is the next finished task, by its position among the
    pending ones, with its group as generation left it and its outcome. *)

From S2P Require Import Prelude.
From S2P Require Import PyFloat.
From S2P Require Import PyVal.
From S2P Require Import Samples.
From S2P Require Import Rewards.
From S2P Require Import DataSource.
From S2P Require Import Backend.
From S2P Require Import Prewarm.
From S2P Require Import RolloutGroups.

Local Open Scope string_scope.
Local Open Scope list_scope.
Local Open Scope py_scope.

Record SyncState : Type := {
  pendings : list (list Sample);
  sync_data : list (list Sample) }.

Record Choice : Type := {
  ch_task : nat;
  ch_group : list Sample;
  ch_outcome : list item + task_error }.

Section Sync.
Context `{PyText} {D : Type} `{DataBuffer D}.
Variable env : string -> option string.
Variable max_retries : Z.
Variable obj : nat -> string.

(** [_max_retries()] *)
Definition _max_retries : result Z :=
  match env "DRESSAGE_ROLLOUT_MAX_RETRIES" with
  | None => Ok 2%Z
  | Some v => match parse_int v with
              | Some z => Ok z
              | None => Raise (ValueError "invalid literal for int()")
              end
  end.

(** [error is not None or _is_aborted_group(result_group or group_for_task)] *)
Definition sync_failed (group : list Sample) (o : list item + task_error) : bool :=
  match o with
  | inr _ => true
  | inl r => match _flatten_multi_segment_result r with
             | [] => _is_aborted_group group
             | flat => _is_aborted_group flat
             end
  end.

Definition outcome_error (o : list item + task_error) : option task_error :=
  match o with inl _ => None | inr e => Some e end.

Definition outcome_samples (o : list item + task_error) : list Sample :=
  match o with inl r => _flatten_multi_segment_result r | inr _ => [] end.

(** The body of the loop over the finished tasks. *)
Definition sync_step (c : Choice) (st : SyncState) : result SyncState :=
  match pendings st !! ch_task c with
  | None => Raise (KeyError "")
  | Some _ =>
      let rest := delete (ch_task c) (pendings st) in
      if negb (sync_failed (ch_group c) (ch_outcome c))
      then Ok {| pendings := rest; sync_data := sync_data st ++ [outcome_samples (ch_outcome c)] |}
      else
        let! n := _retry_count (ch_group c) in
        if (n <? max_retries)%Z then
          let! g := _increment_retry (ch_group c) in
          Ok {| pendings := rest ++ [g]; sync_data := sync_data st |}
        else Ok {| pendings := rest;
                   sync_data := sync_data st ++
                     [_mark_no_grad_failed (ch_group c) (outcome_error (ch_outcome c)) obj] |}
  end.

(** [while pendings]: [next] makes the environment's choice; [None] when the fuel is out. *)
Fixpoint sync_loop (fuel : nat) (next : SyncState -> Choice) (st : SyncState)
    : option (result SyncState) :=
  match pendings st with
  | [] => Some (Ok st)
  | _ => match fuel with
         | O => None
         | S n => match sync_step (next st) st with
                  | Raise e => Some (Raise e)
                  | Ok st => sync_loop n next st
                  end
         end
  end.

Definition sync_start (target : nat) (d : D) : result (D * SyncState) :=
  let! dg := db_get target d in
  check! (length (snd dg) <? target)%nat
    else RuntimeError "data_buffer.get_samples returned too few groups" ;;
  Ok (fst dg, {| pendings := snd dg; sync_data := [] |}).

Definition _run_sync_rollout (fuel : nat) (next : SyncState -> Choice) (target : nat) (d : D)
    : option (result (D * list (list Sample))) :=
  match sync_start target d with
  | Raise e => Some (Raise e)
  | Ok (d, st) =>
      match sync_loop fuel next st with
      | None => None
      | Some (Raise e) => Some (Raise e)
      | Some (Ok st) => Some (let! batch := finish_batch env (sync_data st) in Ok (d, batch))
      end
  end.

(** ** Termination *)

(** A group whose samples have a readable retry counter. *)
Definition readable (g : list Sample) : Prop :=
  g <> [] /\ Forall (fun s => exists z, dget_def (PInt 0) (_sample_metadata s) "dressage_retry_count" = PInt z) g.

(** A choice picks a pending task, and generation leaves the retry counters of its group
    readable and its count alone. *)
Definition fair (next : SyncState -> Choice) : Prop := forall st, pendings st <> [] ->
  Forall readable (pendings st) ->
  exists g, pendings st !! ch_task (next st) = Some g /\ readable (ch_group (next st)) /\
    _retry_count (ch_group (next st)) = _retry_count g.

Lemma readable_count g : readable g -> exists n, _retry_count g = Ok n.
Proof using.
  intros [NE F]. destruct g as [|s g]; [done|]. apply Forall_cons in F as [[z Z] _].
  exists z. unfold _retry_count. by rewrite Z.
Qed.

Lemma increment_one_readable s z :
  dget_def (PInt 0) (_sample_metadata s) "dressage_retry_count" = PInt z ->
  exists s', increment_one s = Ok s' /\
    dget_def (PInt 0) (_sample_metadata s') "dressage_retry_count" = PInt (z + 1).
Proof using.
  intros Z. unfold increment_one. set (m := dpop (dpop (dpop _ _) _) _).
  assert (M : dget_def (PInt 0) m "dressage_retry_count" = PInt z).
  { rewrite <- Z. unfold m, dget_def. rewrite !dget_dpop_ne by done. destruct (is_pnone _); [done|].
    by rewrite dget_dset_ne. }
  clearbody m. rewrite M. eexists. split; [reflexivity|].
  unfold _sample_metadata, dget_def. simpl. by rewrite dget_dset_eq.
Qed.

Lemma readable_increment g : readable g -> exists g', _increment_retry g = Ok g' /\ readable g'.
Proof using.
  intros [NE F].
  assert (X : exists g', _increment_retry g = Ok g' /\ length g' = length g /\
    Forall (fun s => exists z, dget_def (PInt 0) (_sample_metadata s) "dressage_retry_count" = PInt z) g').
  { clear NE. unfold _increment_retry. induction F as [|s g [z Z] F (g' & E & L & F')]; simpl; [by exists []|].
    destruct (increment_one_readable s z Z) as (s' & -> & Z'). rewrite E. exists (s' :: g').
    simpl. split; [done|]. split; [lia|]. constructor; [by exists (z + 1)%Z|done]. }
  destruct X as (g' & E & L & F'). exists g'. split; [done|]. split; [|done].
  intros ->. destruct g; done.
Qed.

(** The attempts a group has left. *)
Definition attempts (g : list Sample) : nat :=
  match _retry_count g with Ok n => S (Z.to_nat (max_retries - n)) | Raise _ => 1 end.

Definition fuel_needed (st : SyncState) : nat := sum_list (map attempts (pendings st)).

Lemma sum_delete (l : list (list Sample)) i g : l !! i = Some g ->
  sum_list (map attempts l) = (attempts g + sum_list (map attempts (delete i l)))%nat.
Proof using.
  revert i. induction l as [|x l IH]; intros [|i] E; simpl in *; try done; [by injection E as ->|].
  rewrite (IH i E). lia.
Qed.

Lemma sum_app (l k : list (list Sample)) :
  sum_list (map attempts (l ++ k)) = (sum_list (map attempts l) + sum_list (map attempts k))%nat.
Proof using. induction l as [|x l IH]; simpl; [done|]. rewrite IH. lia. Qed.


Lemma sync_step_progress next st : fair next -> pendings st <> [] -> Forall readable (pendings st) ->
  exists st', sync_step (next st) st = Ok st' /\ (fuel_needed st' < fuel_needed st)%nat /\
    (length (pendings st') + length (sync_data st') = length (pendings st) + length (sync_data st))%nat /\
    Forall readable (pendings st').
Proof using.
  intros F NE Rd. destruct (F st NE Rd) as (g & P & Rg & RC).
  destruct (readable_count _ Rg) as [n R']. assert (R : _retry_count g = Ok n) by congruence.
  destruct (readable_increment _ Rg) as (g' & I & Rg').
  pose proof (sum_delete _ _ _ P) as Sd. pose proof (length_delete _ _ (mk_is_Some _ _ P)) as L.
  pose proof (lookup_lt_Some _ _ _ P) as Lt.
  assert (Rr : Forall readable (delete (ch_task (next st)) (pendings st))).
  { rewrite (delete_Permutation _ _ _ P) in Rd. by apply Forall_cons in Rd as [_ Rd]. }
  assert (A : attempts g = S (Z.to_nat (max_retries - n))) by (unfold attempts; by rewrite R).
  unfold sync_step, fuel_needed. rewrite P.
  destruct (negb _); [eexists; split; [done|]; simpl; rewrite length_app; simpl; split_and!; [lia|lia|done]|].
  rewrite R'. cbn [res_bind]. destruct (Z.ltb_spec n max_retries) as [Hl|Hg].
  - rewrite I. eexists. split; [done|]. simpl. rewrite sum_app, length_app. simpl.
    destruct (increment_retry_count _ _ (proj1 Rg) I) as (m & M1 & M2).
    assert (m = n) as -> by congruence.
    unfold attempts at 2. rewrite M2. split_and!; [lia|lia|]. apply Forall_app. split; [done|by constructor].
  - eexists. split; [done|]. simpl. rewrite length_app. simpl. split_and!; [lia|lia|done].
Qed.

(** ** What becomes of a submitted group *)

(** A task that raised, or whose samples (those of its group when it returned none) have
    one that was aborted. *)
Definition attempt_failed (c : Choice) : Prop :=
  match ch_outcome c with
  | inr _ => True
  | inl r => exists s, _sample_status_name s = "ABORTED" /\
      s ∈ match _flatten_multi_segment_result r with [] => ch_group c | flat => flat end
  end.

(** A sample that takes no part in training. *)
Definition no_grad (s : Sample) : Prop :=
  remove_sample s = true /\ loss_mask s = Some [] /\ status s = "failed" /\ sp_session_id s = None.

(** The states of a rollout that started in [st0]. *)
Inductive reached (next : SyncState -> Choice) (st0 : SyncState) : SyncState -> Prop :=
| reached_start : reached next st0 st0
| reached_step st st' : reached next st0 st -> pendings st <> [] -> sync_step (next st) st = Ok st' ->
    reached next st0 st'.

(** [ends_as g out]: the pending group [g] ends in the batch as [out].  An attempt is the
    choice made in a state of the rollout that has [g] pending at the chosen place. *)
Inductive ends_as (next : SyncState -> Choice) (st0 : SyncState) : list Sample -> list Sample -> Prop :=
| ends_result st g r : reached next st0 st -> pendings st !! ch_task (next st) = Some g ->
    ~ attempt_failed (next st) -> ch_outcome (next st) = inl r ->
    ends_as next st0 g (_flatten_multi_segment_result r)
| ends_placeholder st g n : reached next st0 st -> pendings st !! ch_task (next st) = Some g ->
    attempt_failed (next st) -> _retry_count g = Ok n -> (max_retries <= n)%Z ->
    Forall no_grad (_mark_no_grad_failed (ch_group (next st)) (outcome_error (ch_outcome (next st))) obj) ->
    ends_as next st0 g (_mark_no_grad_failed (ch_group (next st)) (outcome_error (ch_outcome (next st))) obj)
| ends_retry st g n g' out : reached next st0 st -> pendings st !! ch_task (next st) = Some g ->
    attempt_failed (next st) -> _retry_count g = Ok n -> (n < max_retries)%Z ->
    _increment_retry (ch_group (next st)) = Ok g' -> _retry_count g' = Ok (n + 1)%Z ->
    ends_as next st0 g' out -> ends_as next st0 g out.

Lemma sync_failed_spec c : sync_failed (ch_group c) (ch_outcome c) = true <-> attempt_failed c.
Proof using.
  assert (A : forall g, _is_aborted_group g = true <-> exists s, _sample_status_name s = "ABORTED" /\ s ∈ g).
  { intros g. unfold _is_aborted_group. rewrite existsb_exists. split; intros (s & X & Y); exists s;
      rewrite list_elem_of_In in *; by rewrite String.eqb_eq in *. }
  unfold sync_failed, attempt_failed. destruct (ch_outcome c) as [r|e]; [|done].
  destruct (_flatten_multi_segment_result r); apply A.
Qed.

Lemma mark_no_grad_samples g e : Forall no_grad (_mark_no_grad_failed g e obj).
Proof using.
  apply Forall_forall. intros s Is. unfold _mark_no_grad_failed in Is.
  apply list_elem_of_lookup in Is as [i Hi]. rewrite list_lookup_imap in Hi.
  destruct (g !! i); [|done]. by injection Hi as <-.
Qed.

Lemma Forall2_undelete {A B} (R : A -> B -> Prop) (l : list A) : forall i g out outs,
  l !! i = Some g -> R g out -> Forall2 R (delete i l) outs ->
  exists outs', Forall2 R l outs' /\ outs' ≡ₚ out :: outs.
Proof using.
  induction l as [|x l IH]; intros [|i] g out outs E Ro F; try done; simpl in *.
  - injection E as ->. exists (out :: outs). split; [by constructor|done].
  - apply Forall2_cons_inv_l in F as (y & ys & Ry & F & ->).
    destruct (IH i g out ys E Ro F) as (o & Fo & Po). exists (y :: o).
    split; [by constructor|]. rewrite Po. by constructor.
Qed.

(** One step of the loop, for the groups that are pending after it. *)
Lemma sync_step_ends next st0 st st' outs : fair next -> reached next st0 st -> pendings st <> [] ->
  Forall readable (pendings st) -> sync_step (next st) st = Ok st' ->
  Forall2 (ends_as next st0) (pendings st') outs ->
  exists outs', Forall2 (ends_as next st0) (pendings st) outs' /\
    sync_data st' ++ outs ≡ₚ sync_data st ++ outs'.
Proof using.
  intros F Rc NE Rd E Fo. destruct (F st NE Rd) as (g & P & Rg & RC). unfold sync_step in E. rewrite P in E.
  assert (K : forall out rest, Forall2 (ends_as next st0) (delete (ch_task (next st)) (pendings st)) rest ->
    ends_as next st0 g out -> exists outs', Forall2 (ends_as next st0) (pendings st) outs' /\ outs' ≡ₚ out :: rest).
  { intros out rest Fr En. by eapply Forall2_undelete. }
  destruct (sync_failed (ch_group (next st)) (ch_outcome (next st))) eqn:Fl; simpl in E.
  - assert (Af : attempt_failed (next st)) by by apply sync_failed_spec. rewrite RC in E.
    destruct (_retry_count g) as [n|] eqn:Rn; [|done]. simpl in E. destruct (Z.ltb_spec n max_retries) as [Lt|Ge].
    + destruct (_increment_retry (ch_group (next st))) as [g'|] eqn:I; [|done]. injection E as <-. simpl in *.
      apply Forall2_app_inv_l in Fo as (o1 & o2 & F1 & F2 & ->).
      apply Forall2_cons_inv_l in F2 as (y & ys & Ry & F2 & ->). apply Forall2_nil_inv_l in F2 as ->.
      destruct (increment_retry_count _ _ (proj1 Rg) I) as (m & M1 & M2). assert (m = n) as -> by congruence.
      destruct (K y o1 F1) as (o & Fr & Po); [by eapply ends_retry|].
      exists o. split; [done|]. rewrite Po. solve_Permutation.
    + injection E as <-. simpl in *.
      destruct (K (_mark_no_grad_failed (ch_group (next st)) (outcome_error (ch_outcome (next st))) obj) outs Fo)
        as (o & Fr & Po); [eapply ends_placeholder; eauto; apply mark_no_grad_samples|].
      exists o. split; [done|]. rewrite Po. solve_Permutation.
  - assert (Af : ~ attempt_failed (next st)) by (rewrite <- sync_failed_spec; congruence).
    injection E as <-. simpl in *. destruct (ch_outcome (next st)) as [r|e] eqn:O; [|done]. simpl in *.
    destruct (K (_flatten_multi_segment_result r) outs Fo) as (o & Fr & Po); [by eapply ends_result|].
    exists o. split; [done|]. rewrite Po. solve_Permutation.
Qed.

Lemma sync_loop_ends next st0 : fair next -> forall fuel st, (fuel_needed st <= fuel)%nat ->
  reached next st0 st -> Forall readable (pendings st) ->
  exists st' outs, sync_loop fuel next st = Some (Ok st') /\ pendings st' = [] /\
    Forall2 (ends_as next st0) (pendings st) outs /\ sync_data st' ≡ₚ sync_data st ++ outs.
Proof using.
  intros F fuel. induction fuel as [|fuel IH]; intros st L Rc Rd.
  - assert (E : pendings st = []).
    { destruct (pendings st) as [|g l] eqn:E; [done|]. unfold fuel_needed in L. rewrite E in L. simpl in L.
      assert (1 <= attempts g)%nat by (unfold attempts; case_match; lia). lia. }
    exists st, []. simpl. rewrite E, app_nil_r. done.
  - destruct (pendings st) as [|g l] eqn:E.
    { exists st, []. simpl. rewrite E, app_nil_r. done. }
    assert (NE : pendings st <> []) by by rewrite E. rewrite <- E in Rd |- *.
    destruct (sync_step_progress next st F NE Rd) as (st1 & S1 & Lt & Q & Rd1).
    destruct (IH st1) as (st2 & outs & S2 & P2 & F2 & D2);
      [lia|by eapply reached_step|done|].
    destruct (sync_step_ends next st0 st st1 outs F Rc NE Rd S1 F2) as (outs' & F3 & D3).
    exists st2, outs'. simpl. rewrite E, S1, <- E. split_and!; [done|done|done|by rewrite D2].
Qed.

(** C33: a synchronous rollout ends: with a fuel of [max_retries + 1] attempts per group,
    whichever tasks finish first and whatever their outcomes, the batch holds for every
    submitted group exactly one entry.  It is the flattened result of an attempt that
    succeeded (it did not raise and none of its samples was aborted), or, when an attempt
    failed with no retries left, its placeholder without gradient; an attempt that failed
    with retries left submits the group again with one retry more.  The only other ends
    are too few groups at the start and a batch that cannot be sorted or trained on. *)
Theorem sync_rollout_ends next target d d' st : fair next -> db_ok d ->
  sync_start target d = Ok (d', st) -> Forall readable (pendings st) ->
  exists st' outs, sync_loop (fuel_needed st) next st = Some (Ok st') /\
    _run_sync_rollout (fuel_needed st) next target d =
      Some (let! batch := finish_batch env (sync_data st') in Ok (d', batch)) /\
    pendings st' = [] /\ length (sync_data st') = target /\
    Forall2 (ends_as next st) (pendings st) outs /\ sync_data st' ≡ₚ outs.
Proof using.
  intros F Hok E Rd.
  destruct (sync_loop_ends next st F (fuel_needed st) st (Nat.le_refl _) (reached_start _ _) Rd)
    as (st' & outs & S & P & Fo & Pm).
  exists st', outs. unfold _run_sync_rollout. rewrite E, S.
  unfold sync_start in E. destruct (db_get target d) as [[d1 out]|] eqn:G; [|done]. simpl in E.
  apply raise_if_ok in E as [B E]. injection E as <- <-. simpl in *.
  destruct (db_get_ok _ _ _ _ Hok G) as [_ Lo]. apply Nat.ltb_ge in B.
  split_and!; try done. rewrite Pm, <- (Forall2_length _ _ _ Fo). lia.
Qed.

(** What a finished task puts into the batch: a whole result, or a placeholder whose every
    sample is removed from the loss and has no trained token. *)
Lemma sync_step_data c st st' g : sync_step c st = Ok st' -> g ∈ sync_data st' ->
  g ∈ sync_data st \/
  (_is_aborted_group g = false /\ g = outcome_samples (ch_outcome c)) \/
  (Forall no_grad g /\ _group_has_trainable_tokens g = false /\
   exists n, _retry_count (ch_group c) = Ok n /\ (max_retries <= n)%Z).
Proof using.
  unfold sync_step. destruct (pendings st !! _); [|done]. destruct (sync_failed _ _) eqn:Fl; simpl.
  - destruct (_retry_count (ch_group c)) as [n|] eqn:R; [|done]. simpl.
    destruct (Z.ltb_spec n max_retries) as [Lt|Ge].
    + destruct (_increment_retry _); [|done]. intros [= <-] I. by left.
    + intros [= <-] I. simpl in I. apply elem_of_app in I as [I|I]; [by left|].
      apply list_elem_of_singleton in I as ->. right. right.
      pose proof (mark_no_grad_samples (ch_group c) (outcome_error (ch_outcome c))) as Q.
      split; [exact Q|]. split; [|by exists n]. unfold _group_has_trainable_tokens.
      clear -Q. induction Q as [|s l (Rm & _) Q IH]; simpl; [done|].
      unfold _sample_has_trainable_tokens at 1. by rewrite Rm.
  - intros [= <-] I. simpl in I. apply elem_of_app in I as [I|I]; [by left|].
    apply list_elem_of_singleton in I as ->. right. left. split; [|done].
    unfold sync_failed in Fl. destruct (ch_outcome c) as [r|]; [|done]. simpl.
    by destruct (_flatten_multi_segment_result r).
Qed.
End Sync.

(** ** Witness *)

#[local] Instance w_sync_text : PyText :=
  {| py_repr := fun _ => ""; py_parse_float := fun _ => None |}.

#[local] Instance w_sync_buffer : DataBuffer DressageDataSource :=
  source_buffer w_shuffle fsum w_no_parent w_data_args.

Definition w_sync_env (name : string) : option string := None.

(** The first pending group fails on its first attempt and succeeds on the second. *)
Definition w_next (st : SyncState) : Choice :=
  let g := default [] (head (pendings st)) in
  {| ch_task := 0; ch_group := g;
     ch_outcome := match _retry_count g with
                   | Ok 0%Z => inr {| err_type := "TimeoutError"; err_text := "late" |}
                   | _ => inl (map One g)
                   end |}.

Lemma w_next_fair : fair w_next.
Proof.
  intros st NE Rd. destruct (pendings st) as [|g l] eqn:E; [done|]. apply Forall_cons in Rd as [Rg _].
  exists g. unfold w_next. simpl. by rewrite E.
Qed.

Lemma sync_rollout_ends_witness : exists d' st st' outs,
  sync_start 2 w_source = Ok (d', st) /\
  sync_loop 1 (fun _ => "") (fuel_needed 1 st) w_next st = Some (Ok st') /\
  length (sync_data st') = 2%nat /\
  Forall2 (ends_as 1 (fun _ => "") w_next st) (pendings st) outs /\ sync_data st' ≡ₚ outs.
Proof.
  destruct (sync_start 2 w_source) as [[d' st]|] eqn:E; [|vm_compute in E; discriminate].
  assert (Rd : Forall readable (pendings st)).
  { vm_compute in E. injection E as <- <-.
    repeat (constructor; [split; [discriminate|repeat (constructor; [by eexists|]); constructor]|]).
    constructor. }
  assert (Hok : db_ok w_source) by (vm_compute; exact I).
  destruct (sync_rollout_ends w_sync_env 1 (fun _ => "") w_next 2 w_source d' st w_next_fair Hok E Rd)
    as (st' & outs & S & _ & _ & L & Fo & Pm).
  exists d', st, st', outs. split_and!; [done|exact S|exact L|exact Fo|exact Pm].
Defined.
