(* ===== verification/ExecuteCmds.v ===== *)
(** * Commands around an agent's turn, and how its failures are read
    ([dressage/paddock/blackbox/execute_hooks.py], [failures.py], [common/command.py])

    The commands of [metadata.blackbox_execute_cmds] are validated before a rollout and
    run in the sandbox before and after the agent; each leaves a record in the sample's
    metadata.  An exception of a rollout is a [dexn]; an HTTP status error carries the
    response the code looks at.  What a command or a call answers is an argument.
    Lengths count bytes, which are characters on ASCII text. *)

From S2P Require Import Prelude.
From S2P Require Import PyFloat.
From S2P Require Import PyVal.
From S2P Require Import Samples.

From Stdlib Require Import Ascii.

Local Open Scope string_scope.
Local Open Scope list_scope.
Local Open Scope py_scope.

(** ** Exceptions of a rollout *)

(** [httpx.HTTPStatusError]: its text, and the parts of its request and response that are
    read; [he_json] is [None] when the body is no JSON. *)
Record http_error : Type := {
  he_message : string;
  he_method : string;
  he_url : string;
  he_request_headers : list (string * string);
  he_request_body : option string;
  he_status : Z;
  he_reason : string;
  he_headers : list (string * string);
  he_text : string;
  he_json : option pyval }.

Record BlackboxAgentFailure : Type := {
  af_message : string;
  kind : string;
  state : option string;
  agent_response : string;
  details : list (string * pyval);
  http_status_code : option Z }.

Inductive dexn : Type :=
| Cancelled                                 (* [asyncio.CancelledError] *)
| HTTPStatusError (e : http_error)
| AgentFailure (f : BlackboxAgentFailure)
| PyExn (e : exn)
| OtherError (module name message : string).

Definition exn_name (e : exn) : string :=
  match e with
  | ValueError _ => "ValueError"
  | TypeError _ => "TypeError"
  | KeyError _ => "KeyError"
  | IndexError _ => "IndexError"
  | AssertionError _ => "AssertionError"
  | RuntimeError _ => "RuntimeError"
  | AttributeError _ => "AttributeError"
  | SessionFinalizedError _ => "SessionFinalizedError"
  end.

Definition exn_message (e : exn) : string :=
  match e with
  | ValueError m | TypeError m | KeyError m | IndexError m | AssertionError m | RuntimeError m
  | AttributeError m | SessionFinalizedError m => m
  end.

(** [type(exc).__name__], [type(exc).__module__] and [str(exc)] *)
Definition type_name (e : dexn) : string :=
  match e with
  | Cancelled => "CancelledError"
  | HTTPStatusError _ => "HTTPStatusError"
  | AgentFailure _ => "BlackboxAgentFailure"
  | PyExn e => exn_name e
  | OtherError _ n _ => n
  end.

Definition type_module (e : dexn) : string :=
  match e with
  | Cancelled => "asyncio.exceptions"
  | HTTPStatusError _ => "httpx"
  | AgentFailure _ => "dressage.paddock.blackbox.failures"
  | PyExn _ => "builtins"
  | OtherError m _ _ => m
  end.

Definition exc_text (e : dexn) : string :=
  match e with
  | Cancelled => ""
  | HTTPStatusError h => he_message h
  | AgentFailure f => af_message f
  | PyExn e => exn_message e
  | OtherError _ _ m => m
  end.

(** The line ends of [str.splitlines] on ASCII. *)
Definition line_end (c : ascii) : bool :=
  let n := N_of_ascii c in ((10 <=? n) && (n <=? 13) || (28 <=? n) && (n <=? 30))%N.

(** The rest of the current line, and the lines that follow it. *)
Fixpoint lines_from (s : string) : string * list string :=
  match s with
  | EmptyString => ("", [])
  | String c s' =>
      if line_end c
      then let rest := match c, s' with
                       | "013"%char, String "010" t => t     (* a carriage return and a new line *)
                       | _, _ => s'
                       end in
           ("", match rest with
                | EmptyString => []
                | _ => let '(l, ls) := lines_from s' in
                       match c, s' with
                       | "013"%char, String "010" _ => ls
                       | _, _ => l :: ls
                       end
                end)
      else let '(l, ls) := lines_from s' in (String c l, ls)
  end.

Definition splitlines (s : string) : list string :=
  match s with
  | EmptyString => []
  | _ => let '(l, ls) := lines_from s in l :: ls
  end.

Definition join_space (l : list string) : string :=
  match l with
  | [] => ""
  | x :: rest => fold_left (fun acc y => acc +:+ " " +:+ y) rest x
  end.

Definition _exception_summary (e : dexn) : string :=
  let s := join_space (splitlines (exc_text e)) in
  if String.eqb s "" then type_name e else s.

(** ** Command payloads ([common/command.py]) *)

Section Commands.
Context `{PyText}.

(** [c in s] of a character *)
Fixpoint has_char (c : ascii) (s : string) : bool :=
  match s with
  | EmptyString => false
  | String c' s' => bool_decide (c = c') || has_char c s'
  end.

Definition normalize_execute_cmd (cmd : pyval) : result string :=
  match cmd with
  | PStr s =>
      let normalized := strip s in
      check! String.eqb normalized "" else ValueError "cmd must be a non-empty string" ;;
      check! existsb (fun c => has_char c normalized) ["010"; "013"; "000"]%char
        else ValueError "cmd must be a single line without NUL bytes" ;;
      Ok normalized
  | _ => Raise (TypeError "cmd must be a string")
  end.

Definition normalize_execute_cmd_timeout (timeout : pyval) : result (option float) :=
  match timeout with
  | PNone => Ok None
  | PInt _ | PFloat _ =>
      let! t := py_float timeout in
      check! fleb t f0 else ValueError "timeout must be > 0" ;;
      Ok (Some t)
  | _ => Raise (TypeError "timeout must be a positive number or None")
  end.

Definition build_execute_cmd_payload (cmd timeout : pyval) : result (string * option float) :=
  let! c := normalize_execute_cmd cmd in
  let! t := normalize_execute_cmd_timeout timeout in
  Ok (c, t).

(** ** The schedule ([execute_hooks.py]) *)

Definition EXECUTE_CMD_STAGES : list string := ["before_agent"; "after_agent"].
Definition _ALLOWED_COMMAND_KEYS : list string := ["name"; "cmd"; "timeout"; "required"; "stdout_limit"].
Definition _REQUIRED_COMMAND_KEYS : list string := ["name"; "cmd"; "required"].

(** [cmd_stdout_limit] is whatever the metadata holds: it is not validated. *)
Record BlackboxExecuteCmd : Type := {
  cmd_stage : string;
  cmd_name : string;
  cmd_text : string;
  cmd_timeout : option float;
  cmd_required : bool;
  cmd_stdout_limit : pyval }.

Definition _parse_command (stage : string) (value : pyval) : result BlackboxExecuteCmd :=
  match value with
  | PDict d =>
      check! existsb (fun k => negb (bool_decide (k ∈ _ALLOWED_COMMAND_KEYS))) (dkeys d)
        else ValueError "contains unsupported key(s)" ;;
      check! existsb (fun k => negb (phas d k)) _REQUIRED_COMMAND_KEYS
        else ValueError "missing required key(s)" ;;
      match pget d "name" with
      | PStr name =>
          check! String.eqb (strip name) "" else ValueError "name must be a non-empty string" ;;
          match pget d "required" with
          | PBool required =>
              let! payload := build_execute_cmd_payload (pget d "cmd") (pget d "timeout") in
              Ok {| cmd_stage := stage; cmd_name := strip name; cmd_text := fst payload;
                    cmd_timeout := snd payload; cmd_required := required;
                    cmd_stdout_limit := pget d "stdout_limit" |}
          | _ => Raise (ValueError "required must be a bool")
          end
      | _ => Raise (ValueError "name must be a non-empty string")
      end
  | _ => Raise (ValueError "must be a dict")
  end.

Abbreviation schedule := (list (string * list BlackboxExecuteCmd)).

Definition _empty_schedule : schedule := map (fun stage => (stage, [])) EXECUTE_CMD_STAGES.

Definition parse_stage (value : dict) (stage : string) : result (string * list BlackboxExecuteCmd) :=
  match dget_def (PList []) value stage with
  | PList l => let! cmds := mapM_res (_parse_command stage) l in Ok (stage, cmds)
  | _ => Raise (ValueError "stage must be a list")
  end.

Definition parse_blackbox_execute_cmds (value : pyval) : result schedule :=
  match value with
  | PNone => Ok _empty_schedule
  | PDict d =>
      check! existsb (fun k => negb (bool_decide (k ∈ EXECUTE_CMD_STAGES))) (dkeys d)
        else ValueError "metadata.blackbox_execute_cmds contains unsupported stage(s)" ;;
      mapM_res (parse_stage d) EXECUTE_CMD_STAGES
  | _ => Raise (ValueError "metadata.blackbox_execute_cmds must be a dict")
  end.

(** ** Records of execution *)

(** [text[:z]] *)
Definition text_prefix (z : Z) (s : string) : string :=
  let n := Z.of_nat (String.length s) in
  String.substring 0 (Z.to_nat (if (z <? 0)%Z then Z.max 0 (n + z) else Z.min n z)) s.

Definition truncated_metadata_text (value limit : pyval) : result (string * bool) :=
  let text := if is_pnone value then "" else py_str value in
  let n := Z.of_nat (String.length text) in
  let cut z := if (n <=? z)%Z then (text, false) else (text_prefix z text, true) in
  match limit with
  | PNone => Ok (text, false)
  | PInt z => Ok (cut z)
  | PBool b => Ok (cut (py_int_of_bool b))
  | PFloat f => if fleb (f_of_Z n) f then Ok (text, false)
                else Raise (TypeError "slice indices must be integers")
  | _ => Raise (TypeError "'<=' not supported")
  end.

(** JSON-like values are kept as they are. *)
Fixpoint _json_safe (v : pyval) : pyval :=
  match v with
  | PList l => PList (map _json_safe l)
  | PDict d => PDict (map (fun kv => (fst kv, _json_safe (snd kv))) d)
  | _ => v
  end.

Definition _execute_cmd_result_summary (res limit : pyval) : result dict :=
  match res with
  | PDict d =>
      let summary := map (fun kv => (fst kv, _json_safe (snd kv))) d in
      let! out := truncated_metadata_text (pget summary "stdout") limit in
      let! err := truncated_metadata_text (pget summary "stderr") limit in
      Ok (fold_left (fun s kv => dset s (fst kv) (snd kv))
            [("stdout", PStr (fst out)); ("stderr", PStr (fst err));
             ("stdout_truncated", PBool (snd out)); ("stderr_truncated", PBool (snd err))] summary)
  | _ =>
      let! raw := truncated_metadata_text res limit in
      Ok [("raw", PStr (fst raw)); ("raw_truncated", PBool (snd raw))]
  end.

Definition _execute_cmd_failed (summary : dict) : bool :=
  negb (py_eqb (pget summary "returncode") (PInt 0)) ||
  match pget summary "timed_out" with PBool true => true | _ => false end.

Definition SENSITIVE_HEADERS : list string :=
  ["authorization"; "api-key"; "x-api-key"; "cookie"; "set-cookie"].

Definition _headers_for_log (headers : list (string * string)) : dict :=
  fold_left (fun d kv => dset d (fst kv)
    (PStr (if bool_decide (lower (fst kv) ∈ SENSITIVE_HEADERS) then "<redacted>" else snd kv)))
    headers [].

(** The body of a request is UTF-8 text. *)
Definition _bytes_for_log (data : option string) : pyval :=
  match data with
  | None | Some "" => PNone
  | Some s => PStr s
  end.

Definition _http_exception_details (e : dexn) : pyval :=
  match e with
  | HTTPStatusError h =>
      PDict [("request", PDict [("method", PStr (he_method h)); ("url", PStr (he_url h));
                                ("headers", PDict (_headers_for_log (he_request_headers h)));
                                ("body", _bytes_for_log (he_request_body h))]);
             ("response", PDict [("status_code", PInt (he_status h)); ("reason_phrase", PStr (he_reason h));
                                 ("headers", PDict (_headers_for_log (he_headers h)));
                                 ("body", PStr (he_text h))])]
  | _ => PNone
  end.

Definition cmd_fields (c : BlackboxExecuteCmd) : dict :=
  [("stage", PStr (cmd_stage c)); ("name", PStr (cmd_name c)); ("cmd", PStr (cmd_text c));
   ("timeout", match cmd_timeout c with Some t => PFloat t | None => PNone end);
   ("required", PBool (cmd_required c))].

Definition error_record (c : BlackboxExecuteCmd) (e : dexn) : pyval :=
  PDict (cmd_fields c ++
    [("cmd_error", PDict [("type", PStr (type_module e +:+ "." +:+ type_name e));
                          ("message", PStr (exc_text e)); ("summary", PStr (_exception_summary e))]);
     ("http", _http_exception_details e)]).

Definition result_record (c : BlackboxExecuteCmd) (summary : dict) : pyval :=
  PDict (cmd_fields c ++ [("cmd_result", PDict summary)]).

(** [metadata.setdefault("execute_cmds", []).append(record)] *)
Definition append_record (r : pyval) (m : dict) : dict + dexn :=
  match dget_def (PList []) m "execute_cmds" with
  | PList l => inl (dset m "execute_cmds" (PList (l ++ [r])))
  | _ => inr (PyExn (AttributeError "append"))
  end.

(** [_execute_blackbox_cmd], given whether the paddock has [execute_cmd] and what the call
    answers: the metadata afterwards, and the exception raised, if any. *)
Definition _execute_blackbox_cmd (can_execute : bool) (answer : pyval + dexn)
    (c : BlackboxExecuteCmd) (m : dict) : dict * option dexn :=
  if negb can_execute then (m, Some (PyExn (TypeError "does not implement execute_cmd"))) else
  match answer with
  | inr Cancelled => (m, Some Cancelled)
  | inr e =>
      match append_record (error_record c e) m with
      | inr x => (m, Some x)
      | inl m => (m, if cmd_required c then Some e else None)
      end
  | inl res =>
      match _execute_cmd_result_summary res (cmd_stdout_limit c) with
      | Raise x => (m, Some (PyExn x))
      | Ok summary =>
          match append_record (result_record c summary) m with
          | inr x => (m, Some x)
          | inl m => (m, if cmd_required c && _execute_cmd_failed summary
                         then Some (PyExn (RuntimeError "required execute_cmd failed")) else None)
          end
      end
  end.

(** The commands of one stage: [answers] are those of the calls, in order.  The second
    component lists the commands that were sent to the paddock. *)
Fixpoint execute_cmds (can_execute : bool) (answers : nat -> pyval + dexn)
    (cmds : list BlackboxExecuteCmd) (m : dict) : dict * list BlackboxExecuteCmd * option dexn :=
  match cmds with
  | [] => (m, [], None)
  | c :: rest =>
      let sent := if can_execute then [c] else [] in
      match _execute_blackbox_cmd can_execute (answers 0%nat) c m with
      | (m, Some e) => (m, sent, Some e)
      | (m, None) => let '(m, sent', e) := execute_cmds can_execute (fun k => answers (S k)) rest m in
                     (m, sent ++ sent', e)
      end
  end.

Definition execute_blackbox_cmds_for_stage (can_execute : bool) (answers : nat -> pyval + dexn)
    (sched : schedule) (stage : string) (m : dict) : dict * list BlackboxExecuteCmd * option dexn :=
  if negb (bool_decide (stage ∈ EXECUTE_CMD_STAGES))
  then (m, [], Some (PyExn (ValueError "unsupported execute_cmd stage")))
  else execute_cmds can_execute answers (dget_def [] sched stage) m.
End Commands.

(** ** Agent failures ([failures.py]) *)

Section Failures.
Context `{PyText}.

Definition AGENT_FAILED_STATES : list string := ["desynced"; "error"; "failed"].
Definition SEMANTIC_HTTP_ERROR_LABELS : list (string * string) :=
  [("backend_timeout", "backend timeout"); ("context_overflow", "context overflow");
   ("max_steps_exceeded", "max steps exceeded")].
Definition SEMANTIC_HTTP_ERRORS : list string := dkeys SEMANTIC_HTTP_ERROR_LABELS.
Definition HARVESTABLE_AGENT_ERRORS : list string := ["context_overflow"; "max_steps_exceeded"].
Definition METADATA_TEXT_LIMIT : Z := 4096.
Definition GENERATION_PREEMPTED_MARKER : string := "Dressage proxy generation_preempted".

Definition agent_response_text (payload : pyval) : string :=
  match payload with
  | PDict d =>
      match omap (fun k => match pget d k with PNone => None | v => Some v end)
                 ["response"; "content"; "message"; "text"; "output"] with
      | v :: _ => py_str v
      | [] => py_str payload
      end
  | PNone => ""
  | _ => py_str payload
  end.

Definition _agent_payload_state (payload : pyval) : option string :=
  match payload with
  | PDict d => match py_or (pget d "state") (pget d "status") with
               | PNone => None
               | v => Some (py_str v)
               end
  | _ => None
  end.

Definition failure_from_payload_state (payload : pyval) (text : string) : option BlackboxAgentFailure :=
  match _agent_payload_state payload with
  | Some st =>
      if bool_decide (lower st ∈ AGENT_FAILED_STATES)
      then Some {| af_message := "blackbox agent returned failed state " +:+ py_repr (PStr st);
                   kind := "agent_failed_state"; state := Some st; agent_response := text;
                   details := []; http_status_code := None |}
      else None
  | None => None
  end.

Definition _http_error_json (h : http_error) : dict :=
  match he_json h with Some (PDict d) => d | _ => [] end.

(** [x in SEMANTIC_HTTP_ERRORS]: a list or a dictionary cannot be hashed. *)
Definition semantic_error (v : pyval) : result (option string) :=
  match v with
  | PStr s => Ok (if bool_decide (s ∈ SEMANTIC_HTTP_ERRORS) then Some s else None)
  | PList _ | PDict _ => Raise (TypeError "unhashable type")
  | _ => Ok None
  end.

Definition failure_from_call_agent_exception (e : dexn) : result (option BlackboxAgentFailure) :=
  match e with
  | HTTPStatusError h =>
      let payload := _http_error_json h in
      let! code := semantic_error (pget payload "error") in
      Ok (match code with
          | None => None
          | Some code =>
              let details := match pget payload "details" with PDict d => d | _ => [] end in
              let message := py_or (pget payload "message") (PStr ("blackbox agent " +:+ code)) in
              Some {| af_message := "blackbox agent " +:+ dget_def code SEMANTIC_HTTP_ERROR_LABELS code
                        +:+ " (HTTP " +:+ str_of_Z (he_status h) +:+ "): " +:+ py_str message;
                      kind := code; state := py_str <$> dget details "state"; agent_response := "";
                      details := map (fun kv => (fst kv, _json_safe (snd kv))) details;
                      http_status_code := Some (he_status h) |}
          end)
  | _ => Ok None
  end.

(** [sub in s] of strings *)
Fixpoint contains (sub s : string) : bool :=
  String.prefix sub s || match s with EmptyString => false | String _ s' => contains sub s' end.

Definition expected_abort_from_call_agent_exception (e : dexn) : option string :=
  match e with
  | HTTPStatusError h =>
      let payload := _http_error_json h in
      if (he_status h =? 502)%Z && py_eqb (pget payload "error") (PStr "backend_error") &&
         negb (is_pnone (pget payload "message")) &&
         contains GENERATION_PREEMPTED_MARKER (py_str (pget payload "message"))
      then Some "generation_preempted" else None
  | _ => None
  end.

Definition _truncated_metadata_text (s : string) : string * bool :=
  if (Z.of_nat (String.length s) <=? METADATA_TEXT_LIMIT)%Z then (s, false)
  else (text_prefix METADATA_TEXT_LIMIT s, true).

(** [metadata.update(l)] *)
Definition update_all (m l : dict) : dict := fold_left (fun m kv => dset m (fst kv) (snd kv)) l m.

Definition record_agent_failure_metadata (m : dict) (f : BlackboxAgentFailure) : dict :=
  update_all m
    ([("blackbox_agent_error_kind", PStr (kind f))] ++
     match state f with Some s => [("blackbox_agent_state", PStr s)] | None => [] end ++
     match http_status_code f with
     | Some z => [("blackbox_agent_http_status_code", PInt z)] | None => [] end ++
     match details f with
     | [] => [] | d => [("blackbox_agent_error_details", _json_safe (PDict d))] end ++
     match agent_response f with
     | "" => []
     | s => [("blackbox_agent_response", PStr (fst (_truncated_metadata_text s)));
             ("blackbox_agent_response_truncated", PBool (snd (_truncated_metadata_text s)))]
     end).

Definition record_agent_early_stop_metadata (m : dict) (f : BlackboxAgentFailure) : dict :=
  update_all m [("blackbox_agent_early_stop", PBool true);
                ("blackbox_agent_early_stop_kind", PStr (kind f))].

Definition _http_status_error_metadata (e : dexn) : dict :=
  match e with
  | HTTPStatusError h =>
      [("http_status_code", PInt (he_status h))] ++
      match he_text h with
      | "" => []
      | s => [("http_response_body", PStr (fst (_truncated_metadata_text s)));
              ("http_response_body_truncated", PBool (snd (_truncated_metadata_text s)))]
      end ++
      match he_json h with Some v => [("http_response_json", _json_safe v)] | None => [] end
  | _ => []
  end.

Definition record_blackbox_abort_for_retry (m : dict) (session_id : string) (e : dexn) : dict :=
  let history := match pget m "blackbox_failure_history" with PList l => l | _ => [] end in
  let http := _http_status_error_metadata e in
  let error_text := match pget http "http_response_body" with
                    | PStr body => exc_text e +:+ "; response_body=" +:+ body
                    | _ => exc_text e
                    end in
  let entry := [("session_id", PStr session_id); ("error_type", PStr (type_name e));
                ("error", PStr error_text);
                ("retry_count", dget_def (PInt 0) m "dressage_retry_count")] ++ http in
  update_all m
    ([("blackbox_failure_history", PList (history ++ [PDict entry]));
      ("blackbox_error", PStr error_text)] ++
     map (fun kv => ("blackbox_" +:+ fst kv, snd kv)) http).
End Failures.

(** ** Facts *)

Lemma json_safe_id v : _json_safe v = v.
Proof.
  induction v as [| | | | |l IH|d IH] using pyval_ind_strong; try done; simpl; f_equal.
  - induction IH as [|x l E _ IHl]; [done|]. simpl. by rewrite E, IHl.
  - induction IH as [|[k x] d E _ IHd]; [done|]. simpl in *. by rewrite E, IHd.
Qed.

(** ** The schedule is well formed *)

Section ScheduleFacts.
Context `{PyText}.

(** What a parsed command satisfies, whatever the metadata was. *)
Record command_ok (stage : string) (c : BlackboxExecuteCmd) : Prop := {
  ok_stage : cmd_stage c = stage;
  ok_name : cmd_name c <> "" /\ strip (cmd_name c) = cmd_name c;
  ok_text : cmd_text c <> "" /\ strip (cmd_text c) = cmd_text c;
  ok_line : forall ch, ch ∈ ["010"; "013"; "000"]%char -> has_char ch (cmd_text c) = false;
  ok_timeout : forall t, cmd_timeout c = Some t -> fleb t f0 = false }.

Lemma check_ok {A} b e (k : unit -> result A) r : res_bind (raise_if b e) k = Ok r -> b = false /\ k tt = Ok r.
Proof using. by destruct b. Qed.

Lemma normalize_cmd_ok v s : normalize_execute_cmd v = Ok s ->
  s <> "" /\ strip s = s /\ forall ch, ch ∈ ["010"; "013"; "000"]%char -> has_char ch s = false.
Proof using.
  destruct v as [| | | |t| |]; try done. simpl. intros E.
  apply check_ok in E as [E1 E]. apply check_ok in E as [E2 E]. injection E as <-.
  apply String.eqb_neq in E1. split_and!; [done|apply strip_idem|].
  intros ch I. simpl in E2. rewrite !orb_false_r, !orb_false_iff in E2.
  set_unfold in I. intuition congruence.
Qed.

Lemma normalize_timeout_ok v t : normalize_execute_cmd_timeout v = Ok (Some t) -> fleb t f0 = false.
Proof using.
  unfold normalize_execute_cmd_timeout. destruct v; try done;
    (destruct (py_float _) as [u|]; [|done]; cbn [res_bind]; intros E;
     apply check_ok in E as [E1 E]; by injection E as <-).
Qed.

Lemma parse_command_ok stage v c : _parse_command stage v = Ok c -> command_ok stage c.
Proof using.
  intros E. destruct v as [| | | | | |d]; try discriminate E. unfold _parse_command in E.
  apply check_ok in E as [_ E]. apply check_ok in E as [_ E].
  destruct (pget d "name") as [| | | |name| |]; try discriminate E.
  apply check_ok in E as [N E]. apply String.eqb_neq in N.
  destruct (pget d "required") as [|r| | | | |]; try discriminate E.
  unfold build_execute_cmd_payload in E.
  destruct (normalize_execute_cmd _) as [s|] eqn:S; [|discriminate E]. cbn [res_bind] in E.
  destruct (normalize_execute_cmd_timeout _) as [t|] eqn:T; [|discriminate E].
  injection E as <-. apply normalize_cmd_ok in S as (S1 & S2 & S3).
  split; simpl; [done|split; [done|apply strip_idem]|done|done|].
  intros u ->. by apply normalize_timeout_ok in T.
Qed.

(** A schedule that parses has both stages, in order; each command of the metadata gives
    one command of its stage, whose name and text are stripped and not empty, whose text is
    a single line without NUL bytes, and whose timeout, if any, is positive. *)
Theorem parsed_schedule_ok v s : parse_blackbox_execute_cmds v = Ok s ->
  dkeys s = EXECUTE_CMD_STAGES /\
  forall stage cmds, (stage, cmds) ∈ s -> Forall (command_ok stage) cmds /\
    match v with
    | PDict d => exists l, dget_def (PList []) d stage = PList l /\ length cmds = length l
    | _ => cmds = []
    end.
Proof using.
  intros E. destruct v as [| | | | | |d]; try discriminate E.
  - injection E as <-. split; [done|]. intros stage cmds I. unfold _empty_schedule in I. simpl in I.
    set_unfold in I. naive_solver.
  - unfold parse_blackbox_execute_cmds in E. apply check_ok in E as [_ E].
    apply mapM_res_Forall2 in E. split.
    + unfold dkeys. clear -E. induction E as [|st x l l' Ex E IH]; [done|]. simpl. rewrite IH. f_equal.
      unfold parse_stage in Ex. destruct (dget_def _ _ _); try discriminate Ex.
      destruct (mapM_res _ _); [|discriminate Ex]. by injection Ex as <-.
    + intros stage cmds I. apply list_elem_of_lookup in I as [i I].
      destruct (Forall2_lookup_r _ _ _ _ _ E I) as (st & _ & Ex). unfold parse_stage in Ex.
      destruct (dget_def _ _ st) as [| | | | |l|] eqn:L; try discriminate Ex.
      destruct (mapM_res _ _) as [cs|] eqn:M; [|discriminate Ex]. injection Ex as <- <-. split.
      * apply mapM_res_Forall2 in M. clear -M.
        induction M; constructor; eauto using parse_command_ok.
      * exists l. split; [done|]. by apply mapM_res_length in M.
Qed.

(** ** What a stage leaves behind *)

(** A command was sent and answered, and the record kept of it. *)
Definition recorded (c : BlackboxExecuteCmd) (answer : pyval + dexn) (r : pyval) : Prop :=
  match answer with
  | inr e => e <> Cancelled /\ r = error_record c e
  | inl res => exists summary, _execute_cmd_result_summary res (cmd_stdout_limit c) = Ok summary /\
                               r = result_record c summary
  end.

(** A command whose answer ends the stage with [e], with the record it leaves, if any. *)
Definition stops (c : BlackboxExecuteCmd) (answer : pyval + dexn) (e : dexn) (r : list pyval) : Prop :=
  match answer with
  | inr Cancelled => e = Cancelled /\ r = []
  | inr x => cmd_required c = true /\ e = x /\ r = [error_record c x]
  | inl res =>
      match _execute_cmd_result_summary res (cmd_stdout_limit c) with
      | Raise x => e = PyExn x /\ r = []
      | Ok summary => cmd_required c = true /\ _execute_cmd_failed summary = true /\
                      e = PyExn (RuntimeError "required execute_cmd failed") /\
                      r = [result_record c summary]
      end
  end.

Lemma append_record_list r m l : dget_def (PList []) m "execute_cmds" = PList l ->
  append_record r m = inl (dset m "execute_cmds" (PList (l ++ [r]))).
Proof using. intros E. unfold append_record. by rewrite E. Qed.

(** [m'] is [m] with [rs] more records. *)
Definition adds_records (rs : list pyval) (m m' : dict) : Prop :=
  (forall l, dget_def (PList []) m "execute_cmds" = PList l ->
     dget_def (PList []) m' "execute_cmds" = PList (l ++ rs)) /\
  forall k, k <> "execute_cmds" -> dget m' k = dget m k.

Lemma adds_none m : adds_records [] m m.
Proof using. split; [|done]. intros l ->. by rewrite app_nil_r. Qed.

Lemma adds_one r m l : dget_def (PList []) m "execute_cmds" = PList l ->
  adds_records [r] m (dset m "execute_cmds" (PList (l ++ [r]))).
Proof using.
  intros L. split.
  - intros l' L'. rewrite L in L'. injection L' as <-. unfold dget_def. by rewrite dget_dset_eq.
  - intros k N. rewrite dget_dset_ne; [done|congruence].
Qed.

Lemma adds_app rs rs' m m1 m2 l : dget_def (PList []) m "execute_cmds" = PList l ->
  adds_records rs m m1 -> adds_records rs' m1 m2 -> adds_records (rs ++ rs') m m2.
Proof using.
  intros L [A B] [A' B']. split.
  - intros l' L'. rewrite (A' _ (A _ L')). by rewrite app_assoc.
  - intros k N. by rewrite B', B.
Qed.

(** One command: it goes on with one record more, or it stops the stage. *)
Lemma execute_one_spec answer c m l m' e : dget_def (PList []) m "execute_cmds" = PList l ->
  _execute_blackbox_cmd true answer c m = (m', e) ->
  exists rs, adds_records rs m m' /\
    match e with
    | None => exists r, rs = [r] /\ recorded c answer r
    | Some x => stops c answer x rs
    end.
Proof using.
  intros L E. unfold _execute_blackbox_cmd in E. simpl in E.
  destruct answer as [res|x].
  - destruct (_execute_cmd_result_summary _ _) as [summary|x] eqn:S.
    + rewrite (append_record_list _ _ _ L) in E. exists [result_record c summary].
      destruct (cmd_required c && _execute_cmd_failed summary) eqn:F; injection E as <- <-;
        (split; [by apply adds_one|]); unfold stops, recorded; rewrite S; [|eauto].
      apply andb_true_iff in F as [F1 F2]. done.
    + injection E as <- <-. exists []. split; [apply adds_none|]. unfold stops. by rewrite S.
  - assert (x = Cancelled \/ x <> Cancelled) as [->|NC] by (destruct x; auto; by right).
    + injection E as <- <-. exists []. split; [apply adds_none|done].
    + assert (E' : (dset m "execute_cmds" (PList (l ++ [error_record c x])),
                    if cmd_required c then Some x else None) = (m', e)).
      { rewrite <- E. destruct x; try done; by rewrite (append_record_list _ _ _ L). }
      exists [error_record c x]. destruct (cmd_required c) eqn:R; injection E' as <- <-;
        (split; [by apply adds_one|]).
      * unfold stops. by destruct x.
      * by exists (error_record c x).
Qed.

(** The commands of a stage run in order, each at most once and none after the stage has
    stopped; each that went on has left exactly one record, in order, and the other
    metadata is as before.  A stage ends early only on cancellation, on a required
    command that failed, or on a command whose output limit cannot be applied. *)
Theorem stage_records cmds answers m l m' sent e : dget_def (PList []) m "execute_cmds" = PList l ->
  execute_cmds true answers cmds m = (m', sent, e) ->
  exists rs last, adds_records (rs ++ last) m m' /\
    match e with
    | None => sent = cmds /\ last = []
    | Some x => exists c rest, cmds = sent ++ rest /\ sent = take (length rs) cmds ++ [c] /\
                  stops c (answers (length rs)) x last
    end /\
    forall i c, (i < length rs)%nat -> sent !! i = Some c ->
      exists r, rs !! i = Some r /\ recorded c (answers i) r.
Proof using.
  revert answers m l m' sent e. induction cmds as [|c cmds IH]; intros answers m l m' sent e L E.
  - injection E as <- <- <-. exists [], []. split; [apply adds_none|]. split; [done|]. intros i c Lt. simpl in Lt. lia.
  - simpl in E. destruct (_execute_blackbox_cmd true (answers 0%nat) c m) as [m1 e1] eqn:X.
    destruct (execute_one_spec _ _ _ _ _ _ L X) as (rs1 & A1 & S1). destruct e1 as [x|].
    + injection E as <- <- <-. exists [], rs1. split; [done|]. split; [by exists c, cmds|].
      intros i c' Lt. simpl in Lt. lia.
    + destruct (execute_cmds true (fun k => answers (S k)) cmds m1) as [[m2 sent2] e2] eqn:Y.
      injection E as <- <- <-. destruct S1 as (r & -> & R).
      destruct (IH _ _ _ _ _ _ (proj1 A1 _ L) Y) as (rs & last & A2 & S2 & F).
      exists (r :: rs), last. split; [exact (adds_app [r] _ _ _ _ _ L A1 A2)|]. split.
      * destruct e2 as [x|].
        -- destruct S2 as (c' & rest & -> & E2 & St). exists c', rest. simpl. split; [done|]. split; [by f_equal|done].
        -- by destruct S2 as [-> ->].
      * intros [|i] c' Lt; simpl; [intros [= <-]; by exists r|]. apply F. simpl in Lt. lia.
Qed.
End ScheduleFacts.

(** ** Witnesses *)

#[local] Instance w_exec_text : PyText := {| py_repr := fun _ => ""; py_parse_float := fun _ => None |}.

Definition w_cmd_value (name : string) (required : bool) (extra : dict) : pyval :=
  PDict ([("name", PStr name); ("cmd", PStr (" run " +:+ name)); ("required", PBool required)] ++ extra).

Definition w_cmds_value : pyval :=
  PDict [("after_agent", PList [w_cmd_value "score" true [("timeout", PInt 5)]]);
         ("before_agent", PList [w_cmd_value "setup" false []; w_cmd_value "check" true [];
                                 w_cmd_value "never" false []])].

Definition w_schedule : list (string * list BlackboxExecuteCmd) :=
  Eval vm_compute in match parse_blackbox_execute_cmds w_cmds_value with Ok s => s | Raise _ => [] end.

Lemma w_schedule_parsed : parse_blackbox_execute_cmds w_cmds_value = Ok w_schedule.
Proof. vm_compute. reflexivity. Qed.

Lemma parsed_schedule_ok_witness :
  dkeys w_schedule = EXECUTE_CMD_STAGES /\ length (dget_def [] w_schedule "before_agent") = 3%nat.
Proof.
  split; [exact (proj1 (parsed_schedule_ok w_cmds_value w_schedule w_schedule_parsed))|reflexivity].
Defined.

(** The first command answers an error and is optional, the second is required and fails. *)
Definition w_answers (k : nat) : pyval + dexn :=
  match k with
  | 0 => inr (PyExn (RuntimeError "connection lost"))
  | 1 => inl (PDict [("returncode", PInt 1); ("stdout", PStr "bad")])
  | _ => inl (PDict [("returncode", PInt 0)])
  end.

Definition w_stage_run : dict * list BlackboxExecuteCmd * option dexn :=
  Eval vm_compute in execute_cmds true w_answers (dget_def [] w_schedule "before_agent") [("k", PInt 7)].

Lemma w_stage_ran :
  execute_cmds true w_answers (dget_def [] w_schedule "before_agent") [("k", PInt 7)] =
    (fst (fst w_stage_run), snd (fst w_stage_run), snd w_stage_run).
Proof. vm_compute. reflexivity. Qed.

Lemma stage_records_witness :
  (exists rs last, adds_records (rs ++ last) [("k", PInt 7)] (fst (fst w_stage_run))) /\
  map cmd_name (snd (fst w_stage_run)) = ["setup"; "check"] /\
  snd w_stage_run = Some (PyExn (RuntimeError "required execute_cmd failed")).
Proof.
  split; [|split; reflexivity].
  destruct (stage_records _ _ [("k", PInt 7)] [] _ _ _ eq_refl w_stage_ran) as (rs & last & A & _).
  exists rs, last. exact A.
Defined.

(** [stdout_limit] is not validated when the schedule is parsed: an optional command that
    succeeded still ends the stage with a [TypeError], and leaves no record. *)
Lemma unchecked_limit_stops_optional :
  exists c, _parse_command "before_agent" (w_cmd_value "setup" false [("stdout_limit", PStr "8")]) = Ok c /\
    execute_cmds true (fun _ => inl (PDict [("returncode", PInt 0)])) [c] [] =
      ([], [c], Some (PyExn (TypeError "'<=' not supported"))).
Proof. eexists. vm_compute. split; reflexivity. Qed.
