(* ===== verification/Effects.v ===== *)
(** * Computations with state and exceptions

    An [eff S E A] is a piece of asynchronous code between two states of the objects it
    shares with others: it returns a value or raises, and the state it leaves survives the
    exception, as in Python.  [hoare] is its program logic, with one postcondition for
    returning and one for raising; the rules follow the constructs. *)

From S2P Require Import Prelude.

Local Open Scope list_scope.

Section Effects.
Context {S E : Type}.

Definition eff (A : Type) : Type := S -> (A + E) * S.

Definition ret {A} (a : A) : eff A := fun s => (inl a, s).
Definition raise {A} (e : E) : eff A := fun s => (inr e, s).

Definition bind {A B} (m : eff A) (k : A -> eff B) : eff B :=
  fun s => match m s with
           | (inl a, s') => k a s'
           | (inr e, s') => (inr e, s')
           end.

Definition get {A} (f : S -> A) : eff A := fun s => (inl (f s), s).
Definition modify (f : S -> S) : eff unit := fun s => (inl tt, f s).

(** A value the environment supplies: an answer or an exception. *)
Definition lift {A} (a : A + E) : eff A := fun s => (a, s).

(** [try: m except E as e: h(e)]; the handler may raise again. *)
Definition catch {A} (m : eff A) (h : E -> eff A) : eff A :=
  fun s => match m s with
           | (inl a, s') => (inl a, s')
           | (inr e, s') => h e s'
           end.

(** [try: m finally: f(exc)], where [exc] is the exception in flight: when [f] raises, its
    exception replaces it. *)
Definition finally {A} (m : eff A) (f : option E -> eff unit) : eff A :=
  fun s => let '(r, s) := m s in
           match f (match r with inl _ => None | inr e => Some e end) s with
           | (inl _, s) => (r, s)
           | (inr e, s) => (inr e, s)
           end.

(** ** Program logic *)

Definition hoare {A} (P : S -> Prop) (m : eff A) (Q : A -> S -> Prop) (R : E -> S -> Prop) : Prop :=
  forall s, P s -> match m s with
                   | (inl a, s') => Q a s'
                   | (inr e, s') => R e s'
                   end.

Lemma hoare_ret {A} (a : A) (Q : A -> S -> Prop) R : hoare (Q a) (ret a) Q R.
Proof using. by intros s. Qed.

Lemma hoare_raise {A} e (Q : A -> S -> Prop) R : hoare (R e) (raise e) Q R.
Proof using. by intros s. Qed.

Lemma hoare_bind {A B} P (m : eff A) (k : A -> eff B) Q Q' R :
  hoare P m Q R -> (forall a, hoare (Q a) (k a) Q' R) -> hoare P (bind m k) Q' R.
Proof using.
  intros Hm Hk s Ps. specialize (Hm s Ps). unfold bind.
  destruct (m s) as [[a|e] s']; [by apply Hk|done].
Qed.

Lemma hoare_get {A} (f : S -> A) P R : hoare P (get f) (fun a s => P s /\ a = f s) R.
Proof using. by intros s. Qed.

Lemma hoare_modify f (Q : unit -> S -> Prop) R : hoare (fun s => Q tt (f s)) (modify f) Q R.
Proof using. by intros s. Qed.

Lemma hoare_lift {A} (a : A + E) P (Q : A -> S -> Prop) R :
  (forall x s, a = inl x -> P s -> Q x s) -> (forall e s, a = inr e -> P s -> R e s) ->
  hoare P (lift a) Q R.
Proof using. intros Hq Hr s Ps. unfold lift. destruct a; eauto. Qed.

Lemma hoare_catch {A} P (m : eff A) h Q R R' :
  hoare P m Q R -> (forall e, hoare (R e) (h e) Q R') -> hoare P (catch m h) Q R'.
Proof using.
  intros Hm Hh s Ps. specialize (Hm s Ps). unfold catch.
  destruct (m s) as [[a|e] s']; [done|by apply Hh].
Qed.

Lemma hoare_finally {A} P (m : eff A) f Q R Q' R' :
  hoare P m Q R ->
  (forall a, hoare (Q a) (f None) (fun _ => Q' a) R') ->
  (forall e, hoare (R e) (f (Some e)) (fun _ => R' e) R') ->
  hoare P (finally m f) Q' R'.
Proof using.
  intros Hm Hq Hr s Ps. specialize (Hm s Ps). unfold finally. destruct (m s) as [[a|e] s'].
  - specialize (Hq a s' Hm). by destruct (f None s') as [[[]|e] s2].
  - specialize (Hr e s' Hm). by destruct (f (Some e) s') as [[[]|e'] s2].
Qed.

Lemma hoare_weaken {A} (P P' : S -> Prop) (m : eff A) (Q Q' : A -> S -> Prop) (R R' : E -> S -> Prop) :
  hoare P' m Q' R' -> (forall s, P s -> P' s) -> (forall a s, Q' a s -> Q a s) ->
  (forall e s, R' e s -> R e s) -> hoare P m Q R.
Proof using.
  intros Hm HP HQ HR s Ps. specialize (Hm s (HP _ Ps)). destruct (m s) as [[a|e] s']; auto.
Qed.

(** A run of [m] that ends in [r]. *)
Lemma hoare_run {A} P (m : eff A) Q R s r s' : hoare P m Q R -> P s -> m s = (r, s') ->
  match r with inl a => Q a s' | inr e => R e s' end.
Proof using. intros Hm Ps E0. specialize (Hm s Ps). rewrite E0 in Hm. by destruct r. Qed.
End Effects.
Arguments eff : clear implicits.

Notation "'await!' x ':=' m 'in' k" := (bind m (fun x => k))
  (at level 10, x binder, m at level 100, k at level 200) : py_scope.
Notation "'step!' m ';;' k" := (bind m (fun _ => k))
  (at level 10, m at level 99, k at level 200) : py_scope.
