(* ===== verification/Dispatch.v ===== *)
(** * Dispatch of one rollout ([dressage/rollout/generate/blackbox_dispatch.py],
    [generate/runtime.py])

    [generate] runs one rollout in a sandbox: it claims the prewarmed sandbox or starts
    one, registers the agent and the session, calls the agent, finalizes the session, reads
    the trajectory and makes one sample per segment.  Whatever happens, the sandbox is
    given to a termination task and an unfinished session is discarded.  A [Frame] holds
    the objects the code shares and the local variables its [finally] reads; [Env] is what
    the awaited calls answer.  The sample's metadata is one dictionary that is read and
    written through [f_sample].  A retried call is one call here; retries are modelled in
    the client. *)

From S2P Require Import Prelude.
From S2P Require Import PyFloat.
From S2P Require Import PyVal.
From S2P Require Import Samples.
From S2P Require Import Rewards.
From S2P Require Import DataSource.
From S2P Require Import Backend.
From S2P Require Import Prewarm.
From S2P Require Import RolloutGroups.
From S2P Require Import ExecuteCmds.
From S2P Require Import Effects.

Local Open Scope string_scope.
Local Open Scope list_scope.
Local Open Scope py_scope.

(** ** State *)

(** The calls a rollout makes to the sandbox service and the proxy, in order, with the
    outcome where it matters. *)
Inductive call {P S : Type} : Type :=
| CClaimed (sid : string) (h : PrewarmHandle P S)
| CClaimCancelled (r : _PrewarmRecord P)
| CInit (p : P) (sid : string) (args : dict) (ready : bool)
| CRegisterAgent (sid : string)
| CExecute (cmds : list BlackboxExecuteCmd)
| CRegisterContext (sid : string)
| CCallAgent (sid : string)
| CFinalize (sid : string) (done : bool)
| CReadTrajectory (sid : string)
| CDiscard (sid : string).
Arguments call : clear implicits.

Record Frame {P S : Type} : Type := {
  f_sample : Sample;
  f_store : PrewarmStore P;
  f_loop : Loop P;
  f_calls : list (call P S);
  f_session : string;
  f_env_args : dict;
  f_paddock : option P;
  f_state : option S;
  f_initialized : bool;
  f_context_owned : bool;
  f_agent_response : string }.
Arguments Frame : clear implicits.

(** What the environment answers to the calls of one rollout. *)
Record Env {P S : Type} : Type := {
  en_environ : string -> option string;
  en_backend_args : dict;                  (* [args], as [merge_backend_options] reads it *)
  en_sample_args : SampleArgs;             (* [args], as [write_sample_from_segment] does *)
  en_sampling_seed : pyval;
  en_instance_uuid : string;
  en_object_id : string;                   (* [f"{id(sample):x}"] *)
  en_claim : nat -> init_outcome S;
  en_wait : float;                         (* how long the claim took *)
  en_proxy_client : option dexn;
  en_paddock : P + dexn;
  en_can_register_agent : bool;
  en_can_execute : bool;
  en_can_register_context : bool;
  en_can_discard : bool;
  en_init : string -> pyval -> dict -> S + dexn;
  en_register_agent : S -> string -> string -> string -> pyval -> unit + dexn;
  en_execute : string -> nat -> pyval + dexn;      (* by stage and command *)
  en_register_context : string -> unit + dexn;
  en_call_agent : S -> string -> list pyval -> dict -> pyval + dexn;
  en_finalize : string -> unit + dexn;
  en_read_trajectory : string -> dict + dexn;
  en_write_session : unit + dexn;          (* the artifact writer *)
  en_write_samples : unit + dexn;
  en_write_error : option string + dexn;
  en_discard : string -> option dexn;      (* how the discard request itself ends *)
  en_discard_cancelled : bool }.           (* whether the wait for it is cancelled *)
Arguments Env : clear implicits.

Section Frames.
Context {P S : Type}.
Implicit Types f : Frame P S.

Definition with_frame_sample (s : Sample) f : Frame P S :=
  {| f_sample := s; f_store := f_store f; f_loop := f_loop f; f_calls := f_calls f;
     f_session := f_session f; f_env_args := f_env_args f; f_paddock := f_paddock f;
     f_state := f_state f; f_initialized := f_initialized f;
     f_context_owned := f_context_owned f; f_agent_response := f_agent_response f |}.

Definition with_frame_store (st : PrewarmStore P) (lp : Loop P) f : Frame P S :=
  {| f_sample := f_sample f; f_store := st; f_loop := lp; f_calls := f_calls f;
     f_session := f_session f; f_env_args := f_env_args f; f_paddock := f_paddock f;
     f_state := f_state f; f_initialized := f_initialized f;
     f_context_owned := f_context_owned f; f_agent_response := f_agent_response f |}.

Definition with_calls (l : list (call P S)) f : Frame P S :=
  {| f_sample := f_sample f; f_store := f_store f; f_loop := f_loop f; f_calls := f_calls f ++ l;
     f_session := f_session f; f_env_args := f_env_args f; f_paddock := f_paddock f;
     f_state := f_state f; f_initialized := f_initialized f;
     f_context_owned := f_context_owned f; f_agent_response := f_agent_response f |}.

Definition with_frame_session (sid : string) f : Frame P S :=
  {| f_sample := f_sample f; f_store := f_store f; f_loop := f_loop f; f_calls := f_calls f;
     f_session := sid; f_env_args := f_env_args f; f_paddock := f_paddock f;
     f_state := f_state f; f_initialized := f_initialized f;
     f_context_owned := f_context_owned f; f_agent_response := f_agent_response f |}.

(** The sandbox of the rollout, once it is ready. *)
Definition with_sandbox (p : P) (st : S) (args : dict) f : Frame P S :=
  {| f_sample := f_sample f; f_store := f_store f; f_loop := f_loop f; f_calls := f_calls f;
     f_session := f_session f; f_env_args := args; f_paddock := Some p;
     f_state := Some st; f_initialized := true;
     f_context_owned := f_context_owned f; f_agent_response := f_agent_response f |}.

Definition with_paddock (p : P) f : Frame P S :=
  {| f_sample := f_sample f; f_store := f_store f; f_loop := f_loop f; f_calls := f_calls f;
     f_session := f_session f; f_env_args := f_env_args f; f_paddock := Some p;
     f_state := f_state f; f_initialized := f_initialized f;
     f_context_owned := f_context_owned f; f_agent_response := f_agent_response f |}.

Definition with_context (b : bool) f : Frame P S :=
  {| f_sample := f_sample f; f_store := f_store f; f_loop := f_loop f; f_calls := f_calls f;
     f_session := f_session f; f_env_args := f_env_args f; f_paddock := f_paddock f;
     f_state := f_state f; f_initialized := f_initialized f;
     f_context_owned := b; f_agent_response := f_agent_response f |}.

Definition with_response (text : string) f : Frame P S :=
  {| f_sample := f_sample f; f_store := f_store f; f_loop := f_loop f; f_calls := f_calls f;
     f_session := f_session f; f_env_args := f_env_args f; f_paddock := f_paddock f;
     f_state := f_state f; f_initialized := f_initialized f;
     f_context_owned := f_context_owned f; f_agent_response := text |}.

Definition frame_metadata f : dict := default [] (metadata (f_sample f)).

Definition in_metadata (g : dict -> dict) f : Frame P S :=
  with_frame_sample (Prewarm.with_metadata (g (frame_metadata f)) (f_sample f)) f.
End Frames.

Section Dispatch.
Context `{PyText} {P S : Type}.
Variable uuid : nat -> string.
Variable decode : pyval -> result (list (list Z)).
Variable en : Env P S.

Abbreviation M := (eff (Frame P S) dexn).

Definition lift_res {A} (r : result A) : M A :=
  match r with Ok a => ret a | Raise e => raise (PyExn e) end.

Definition set_metadata (k : string) (v : pyval) : M unit := modify (in_metadata (fun m => dset m k v)).

(** ** Before the rollout *)

(** [_instance_id] *)
Definition instance_id (s : Sample) : string :=
  match pget (default [] (metadata s)) "instance_id", group_index s with
  | PNone, Some g => str_of_Z g
  | PNone, None => en_instance_uuid en
  | v, _ => py_str v
  end.

Definition PREVIOUS_KEYS : list string :=
  ["blackbox_error"; "blackbox_error_log_path"; "blackbox_expected_abort"; "blackbox_agent_early_stop";
   "blackbox_agent_early_stop_kind"; "session_context_discard_error"].

Definition clear_previous (m : dict) : dict :=
  dset (fold_left dpop PREVIOUS_KEYS m) "execute_cmds" (PList []).

(** [ensure_blackbox_session_id(sample)] *)
Definition ensure_session : M string :=
  await! s := get f_sample in
  await! lp := get f_loop in
  await! st := get f_store in
  await! r := lift_res (ensure_blackbox_session_id uuid s lp) in
  let '(s, sid, lp) := r in
  step! modify (with_frame_sample s) ;;
  step! modify (with_frame_store st lp) ;;
  ret sid.

Definition with_env_args (args : dict) (f : Frame P S) : Frame P S :=
  {| f_sample := f_sample f; f_store := f_store f; f_loop := f_loop f; f_calls := f_calls f;
     f_session := f_session f; f_env_args := args; f_paddock := f_paddock f;
     f_state := f_state f; f_initialized := f_initialized f;
     f_context_owned := f_context_owned f; f_agent_response := f_agent_response f |}.

(** What precedes the [try]: the instance id and the agent type. *)
Definition prepare (evaluation : bool) : M (string * string) :=
  step! (if evaluation then raise (PyExn (ValueError "blackbox_dispatch does not support evaluation mode"))
         else ret tt) ;;
  step! modify (in_metadata clear_previous) ;;
  await! sid := ensure_session in
  step! modify (with_frame_session sid) ;;
  await! iid := get (fun f => instance_id (f_sample f)) in
  step! set_metadata "session_id" (PStr sid) ;;
  step! set_metadata "instance_id" (PStr iid) ;;
  await! m := get frame_metadata in
  let blackbox_type := normalize_blackbox_type (py_or (pget m "blackbox_type") (PStr DEFAULT_BLACKBOX_TYPE)) in
  step! modify (with_env_args (paddock_env_args_from_metadata m (extra_env_args m))) ;;
  ret (iid, blackbox_type).

(** ** The agent's options *)

(** The seed of the rollout forces the proxy's sampling. *)
Definition with_seed (seed : Z) (options : pyval) : pyval :=
  match options with
  | PDict o =>
      let proxy := match pget o "proxy" with PDict p => p | _ => [] end in
      PDict (dset o "proxy" (PDict (dset (dset proxy "sampling_mode" (PStr "force"))
                                         "sampling_seed_base" (PInt seed))))
  | _ => options
  end.

Definition backend_options (blackbox_type : string) : M pyval :=
  await! m := get frame_metadata in
  await! options := lift_res (merge_backend_options (en_environ en) (PStr blackbox_type)
                                (pget m "backend_options") (Some (en_backend_args en))) in
  match en_sampling_seed en with
  | PNone => ret options
  | v => await! seed := lift_res (py_int v) in
         step! set_metadata "rollout_sampling_seed" (PInt seed) ;;
         ret (with_seed seed options)
  end.

(** ** The sandbox *)

Definition claim_prewarm : M (option (PrewarmHandle P S)) :=
  await! sid := get f_session in
  await! st := get f_store in
  await! lp := get f_loop in
  let '(r, st, lp) := claim (Some sid) (en_claim en) st lp in
  step! modify (with_frame_store st lp) ;;
  match r with
  | Prewarm.Cancelled r => step! modify (with_calls [CClaimCancelled r]) ;; raise Cancelled
  | NoPrewarm | Fallback _ => ret None
  | Handle _ h => step! modify (with_calls [CClaimed sid h]) ;; ret (Some h)
  end.

Definition use_prewarmed (h : PrewarmHandle P S) (requested : bool) : M unit :=
  step! modify (with_sandbox (ph_paddock h) (ph_state h) (ph_env_args h)) ;;
  if requested
  then step! set_metadata "prewarm_hit" (PInt 1) ;;
       set_metadata "prewarm_wait_seconds" (PFloat (en_wait en))
  else ret tt.

(** The session of a rollout that found no prewarmed sandbox. *)
Definition miss_session : M string :=
  await! previous := get f_session in
  await! s := get f_sample in
  match deterministic_session s with
  | Some _ => let sid := previous +:+ "-miss" in
              step! modify (with_frame_sample (with_session (Some sid) s)) ;; ret sid
  | None => step! modify (with_frame_sample (with_session None s)) ;; ensure_session
  end.

Definition start_sandbox (requested : bool) : M unit :=
  step! (if requested then set_metadata "prewarm_hit" (PInt 0) else ret tt) ;;
  await! sid := miss_session in
  step! modify (with_frame_session sid) ;;
  step! set_metadata "session_id" (PStr sid) ;;
  await! p := lift (en_paddock en) in
  step! modify (with_paddock p) ;;
  await! m := get frame_metadata in
  await! args := get f_env_args in
  match en_init en sid (pget m "env_type") args with
  | inr e => step! modify (with_calls [CInit p sid args false]) ;; raise e
  | inl st => step! modify (with_calls [CInit p sid args true]) ;; modify (with_sandbox p st args)
  end.

Definition acquire_sandbox : M unit :=
  step! match en_proxy_client en with Some e => raise e | None => ret tt end ;;
  await! requested := get (fun f => py_truth (pget (frame_metadata f) "prewarm_requested")) in
  await! handle := claim_prewarm in
  match handle with
  | Some h => use_prewarmed h requested
  | None => start_sandbox requested
  end.

(** The state of the sandbox; [acquire_sandbox] has set it. *)
Definition sandbox_state : M S :=
  await! st := get f_state in
  match st with Some st => ret st | None => raise (PyExn (AttributeError "state")) end.

Definition register_agent (iid blackbox_type : string) (options : pyval) : M unit :=
  step! (if en_can_register_agent en then ret tt
         else raise (PyExn (TypeError "does not implement register_agent"))) ;;
  await! st := sandbox_state in
  await! sid := get f_session in
  step! modify (with_calls [CRegisterAgent sid]) ;;
  lift (en_register_agent en st iid sid blackbox_type options).

Definition run_stage (sched : list (string * list BlackboxExecuteCmd)) (stage : string) : M unit :=
  await! m := get frame_metadata in
  let '(m', sent, e) := execute_blackbox_cmds_for_stage (en_can_execute en) (en_execute en stage)
                          sched stage m in
  step! modify (in_metadata (fun _ => m')) ;;
  step! modify (with_calls [CExecute sent]) ;;
  match e with Some x => raise x | None => ret tt end.

Definition register_context : M unit :=
  if en_can_register_context en
  then await! sid := get f_session in
       step! modify (with_context true) ;;
       step! modify (with_calls [CRegisterContext sid]) ;;
       lift (en_register_context en sid)
  else ret tt.

(** ** The agent *)

(** [dict(message)] *)
Definition message_dict (v : pyval) : result dict :=
  match v with
  | PDict d => Ok d
  | PList l => dict_of_pairs l []
  | PStr s => if String.eqb s "" then Ok []
              else Raise (ValueError "dictionary update sequence element has the wrong length")
  | _ => Raise (TypeError "object is not iterable")
  end.

Definition _chat_messages_from_prompt (prompt : pyval) : result (list pyval) :=
  match prompt with
  | PList l => mapM_res (fun m => let! d := message_dict m in Ok (PDict d)) l
  | _ => Ok [PDict [("role", PStr "user"); ("content", PStr (py_str prompt))]]
  end.

(** The answer of the agent; [None] when it stopped early and its trajectory is kept. *)
Definition call_agent : M (option pyval) :=
  catch
    (await! st := sandbox_state in
     await! sid := get f_session in
     await! s := get f_sample in
     await! messages := lift_res (_chat_messages_from_prompt (sp_prompt s)) in
     step! modify (with_calls [CCallAgent sid]) ;;
     await! payload := lift (en_call_agent en st sid messages
                               (update [("source", PStr "dressage")] (default [] (metadata s)))) in
     ret (Some payload))
    (fun e =>
       match e with
       | Cancelled => raise Cancelled
       | _ =>
           await! failure := lift_res (failure_from_call_agent_exception e) in
           match failure with
           | None => raise e
           | Some a =>
               step! modify (in_metadata (fun m => record_agent_failure_metadata m a)) ;;
               if bool_decide (kind a ∈ HARVESTABLE_AGENT_ERRORS)
               then step! modify (in_metadata (fun m => record_agent_early_stop_metadata m a)) ;; ret None
               else raise (AgentFailure a)
           end
       end).

Definition check_payload (payload : option pyval) : M unit :=
  match payload with
  | None => ret tt
  | Some v =>
      let text := agent_response_text v in
      step! modify (with_response text) ;;
      match failure_from_payload_state v text with
      | Some a => step! modify (in_metadata (fun m => record_agent_failure_metadata m a)) ;;
                  raise (AgentFailure a)
      | None => ret tt
      end
  end.

(** ** The trajectory *)

(** [except Exception]: everything but a cancellation is dropped. *)
Definition best_effort (m : M unit) : M unit :=
  catch m (fun e => match e with Cancelled => raise Cancelled | _ => ret tt end).

Definition finalize_session : M unit :=
  await! sid := get f_session in
  match en_finalize en sid with
  | inr e => step! modify (with_calls [CFinalize sid false]) ;; raise e
  | inl _ => step! modify (with_calls [CFinalize sid true]) ;; modify (with_context false)
  end.

(** [trajectory_payload.get("data") or []]; items that are no dictionaries have no [get]. *)
Definition segments_of (payload : dict) : result (list dict) :=
  let data := pget payload "data" in
  if negb (py_truth data) then Ok []
  else let! l := py_list data in
       mapM_res (fun v => match v with PDict d => Ok d | _ => Raise (AttributeError "get") end) l.

Definition harvest (iid : string) : M (list Sample) :=
  step! finalize_session ;;
  await! sid := get f_session in
  step! modify (with_calls [CReadTrajectory sid]) ;;
  await! payload := lift (en_read_trajectory en sid) in
  step! best_effort (lift (en_write_session en)) ;;
  await! segments := lift_res (segments_of payload) in
  await! s := get f_sample in
  await! text := get f_agent_response in
  await! out := lift_res (expand_segments_to_samples decode s segments (en_sample_args en) text
                            (Some sid) (Some iid)) in
  step! best_effort (lift (en_write_samples en)) ;;
  ret out.

(** ** Errors and cleanup *)

Definition with_status (st : string) (s : Sample) : Sample :=
  {| index := index s; group_index := group_index s; sp_session_id := sp_session_id s;
     tokens := tokens s; response := response s; response_length := response_length s;
     loss_mask := loss_mask s; rollout_log_probs := rollout_log_probs s; reward := reward s;
     status := st; remove_sample := remove_sample s; rollout_id := rollout_id s;
     metadata := metadata s; rollout_routed_experts := rollout_routed_experts s;
     sp_prompt := sp_prompt s; sp_label := sp_label s;
     sp_generate_function_path := sp_generate_function_path s |}.

(** The handler of every exception but a cancellation. *)
Definition abort_sample (iid : string) (e : dexn) : M unit :=
  await! sid := get f_session in
  step! match expected_abort_from_call_agent_exception e with
        | Some reason => set_metadata "blackbox_expected_abort" (PStr reason)
        | None =>
            step! best_effort
              (await! path := lift (en_write_error en) in
               match path with
               | Some p => set_metadata "blackbox_error_log_path" (PStr p)
               | None => ret tt
               end) ;;
            modify (in_metadata (fun m => record_blackbox_abort_for_retry m sid e))
        end ;;
  modify (fun f => with_frame_sample
          (with_status "aborted"
             (mark_aborted_no_grad (f_sample f) (Some sid) (Some iid) (en_object_id en))) f).

(** The discard runs in a task of its own that a cancellation of the wait does not stop;
    the cancellation is raised when it has ended. *)
Definition _discard_session_context : M unit :=
  if en_can_discard en
  then await! sid := get f_session in
       step! modify (with_calls [CDiscard sid]) ;;
       step! match en_discard en sid with
             | Some e => set_metadata "session_context_discard_error" (PStr (_exception_summary e))
             | None => ret tt
             end ;;
       if en_discard_cancelled en then raise Cancelled else ret tt
  else ret tt.

Definition release_sandbox : M unit :=
  modify (fun f =>
    match f_initialized f, f_paddock f with
    | true, Some p => with_frame_store (f_store f)
                        (schedule_terminate_paddock p (f_session f) (f_env_args f) (f_loop f)) f
    | _, _ => f
    end).

(** The [finally] block, with the exception in flight. *)
Definition cleanup_rollout (active : option dexn) : M unit :=
  finally
    (await! owned := get f_context_owned in
     if owned
     then catch _discard_session_context
            (fun e => match e, active with
                      | Cancelled, Some Cancelled => ret tt
                      | _, _ => raise e
                      end)
     else ret tt)
    (fun _ => release_sandbox).

(** ** [generate] *)

Definition rollout (iid blackbox_type : string) : M (list Sample) :=
  await! cmds := get (fun f => pget (frame_metadata f) "blackbox_execute_cmds") in
  await! sched := lift_res (parse_blackbox_execute_cmds cmds) in
  await! options := backend_options blackbox_type in
  step! acquire_sandbox ;;
  step! register_agent iid blackbox_type options ;;
  step! run_stage sched "before_agent" ;;
  step! register_context ;;
  await! payload := call_agent in
  step! check_payload payload ;;
  step! run_stage sched "after_agent" ;;
  harvest iid.

(** The result: the samples of the segments, or the sample itself, aborted.  It is read
    last because the [finally] block may still write its metadata. *)
Definition generate (evaluation : bool) : M item :=
  await! ids := prepare evaluation in
  let '(iid, blackbox_type) := ids in
  await! out :=
    finally
      (catch (await! l := rollout iid blackbox_type in ret (Some l))
         (fun e => match e with
                   | Cancelled => raise Cancelled
                   | _ => step! abort_sample iid e ;; ret None
                   end))
      cleanup_rollout in
  match out with
  | Some l => ret (Many l)
  | None => await! s := get f_sample in ret (One s)
  end.

(** The frame before any local variable is set. *)
Definition initial_frame (s : Sample) (st : PrewarmStore P) (lp : Loop P) : Frame P S :=
  {| f_sample := s; f_store := st; f_loop := lp; f_calls := []; f_session := "";
     f_env_args := []; f_paddock := None; f_state := None; f_initialized := false;
     f_context_owned := false; f_agent_response := "" |}.
End Dispatch.

(** ** What the environment has seen *)

(** The sandboxes a rollout has become the owner of, with the session and the arguments
    they run under; the disposals of sandboxes whose claim was cancelled; the sessions it
    has registered, finalized and discarded. *)
Definition acquired {P S} (c : call P S) : option (P * string * dict) :=
  match c with
  | CClaimed sid h => Some (ph_paddock h, sid, ph_env_args h)
  | CInit p sid args true => Some (p, sid, args)
  | _ => None
  end.

Definition abandoned {P S} (c : call P S) : option (LifecycleWork P) :=
  match c with CClaimCancelled r => Some (Dispose r) | _ => None end.

Definition registered {P S} (c : call P S) : option string :=
  match c with CRegisterContext sid => Some sid | _ => None end.

Definition finalized {P S} (c : call P S) : option string :=
  match c with CFinalize sid true => Some sid | _ => None end.

Definition discarded {P S} (c : call P S) : option string :=
  match c with CDiscard sid => Some sid | _ => None end.

Definition works {P} (lp : Loop P) : list (LifecycleWork P) := map snd (lifecycle_tasks lp).

Definition terminate_of {P} (a : P * string * dict) : LifecycleWork P :=
  let '(p, sid, args) := a in Terminate p sid args.

(** The part of a frame the accounting is about. *)
Record Books {P : Type} : Type := {
  b_works : list (LifecycleWork P);
  b_acquired : list (P * string * dict);
  b_abandoned : list (LifecycleWork P);
  b_registered : list string;
  b_finalized : list string;
  b_discarded : list string;
  b_session : string;
  b_env_args : dict;
  b_paddock : option P;
  b_initialized : bool;
  b_owned : bool }.
Arguments Books : clear implicits.

Definition books {P S} (f : Frame P S) : Books P :=
  {| b_works := works (f_loop f); b_acquired := omap acquired (f_calls f);
     b_abandoned := omap abandoned (f_calls f); b_registered := omap registered (f_calls f);
     b_finalized := omap finalized (f_calls f); b_discarded := omap discarded (f_calls f);
     b_session := f_session f; b_env_args := f_env_args f; b_paddock := f_paddock f;
     b_initialized := f_initialized f; b_owned := f_context_owned f |}.

(** A piece of the rollout that leaves the books alone, whether it returns or raises. *)
Definition neutral {P S A} (m : eff (Frame P S) dexn A) : Prop := forall f, books (snd (m f)) = books f.

Section Neutral.
Context {P S : Type}.
Abbreviation M := (eff (Frame P S) dexn).

Lemma neutral_ret {A} (a : A) : neutral (ret a : M A).
Proof using. done. Qed.

Lemma neutral_raise {A} e : neutral (raise e : M A).
Proof using. done. Qed.

Lemma neutral_get {A} (g : Frame P S -> A) : neutral (get g : M A).
Proof using. done. Qed.

Lemma neutral_lift {A} (a : A + dexn) : neutral (lift a : M A).
Proof using. done. Qed.

Lemma neutral_lift_res {A} (r : result A) : neutral (lift_res r : M A).
Proof using. by destruct r. Qed.

Lemma neutral_bind {A B} (m : M A) (k : A -> M B) :
  neutral m -> (forall a, neutral (k a)) -> neutral (bind m k).
Proof using.
  intros Hm Hk f. specialize (Hm f). unfold bind. destruct (m f) as [[a|e] f']; [|done].
  simpl in Hm. by rewrite Hk.
Qed.

Lemma neutral_catch {A} (m : M A) h : neutral m -> (forall e, neutral (h e)) -> neutral (catch m h).
Proof using.
  intros Hm Hh f. specialize (Hm f). unfold catch. destruct (m f) as [[a|e] f']; [done|].
  simpl in Hm. by rewrite Hh.
Qed.

Lemma neutral_modify g : (forall f, books (g f) = books f) -> neutral (modify g : M unit).
Proof using. intros H f. exact (H f). Qed.

Lemma neutral_metadata g : neutral (modify (in_metadata g) : M unit).
Proof using. done. Qed.

Lemma neutral_set k v : neutral (set_metadata k v : M unit).
Proof using. done. Qed.

(** A call the accounting does not look at. *)
Lemma neutral_calls l : omap acquired l = [] -> omap abandoned l = [] -> omap registered l = [] ->
  omap finalized l = [] -> omap discarded l = [] -> neutral (modify (with_calls l) : M unit).
Proof using.
  intros H1 H2 H3 H4 H5 f. unfold books; simpl. rewrite !omap_app, H1, H2, H3, H4, H5, !app_nil_r. done.
Qed.

(** What holds of the books holds across a neutral piece. *)
Lemma neutral_hoare {A} (m : M A) (B : Books P -> Prop) : neutral m ->
  hoare (fun f => B (books f)) m (fun _ f => B (books f)) (fun _ f => B (books f)).
Proof using. intros N f Bf. specialize (N f). destruct (m f) as [[a|e] f']; simpl in N; by rewrite N. Qed.
End Neutral.

Create HintDb neutral discriminated.
#[export] Hint Constants Opaque : neutral.
#[export] Hint Resolve neutral_ret neutral_raise neutral_get neutral_lift neutral_lift_res
  neutral_bind neutral_catch neutral_modify neutral_metadata neutral_set neutral_calls : neutral.

(** Goes through a computation and looks for pieces that touch the books. *)
Ltac neutral :=
  repeat first
    [ progress intros
    | solve [auto with neutral]
    | match goal with |- neutral (modify _) => apply neutral_modify; intros ?; reflexivity end
    | match goal with |- neutral (bind _ _) => apply neutral_bind end
    | match goal with |- neutral (catch _ _) => apply neutral_catch end
    | match goal with |- neutral (if ?b then _ else _) => destruct b end
    | match goal with |- neutral (match ?x with _ => _ end) => destruct x end ].

(** ** The books of a rollout *)

Section Accounting.
Context `{PyText} {P S : Type}.
Variable uuid : nat -> string.
Variable decode : pyval -> result (list (list Z)).
Variable en : Env P S.

(** Inside the [try]: no termination has been scheduled and nothing discarded yet, and the
    local variables say which sandbox and which session are owned. *)
Record settled (w0 : list (LifecycleWork P)) (b : Books P) : Prop := {
  sb_works : b_works b = w0 ++ b_abandoned b;
  sb_acquired : b_acquired b = match b_initialized b, b_paddock b with
                               | true, Some p => [(p, b_session b, b_env_args b)]
                               | _, _ => []
                               end;
  sb_one : (length (b_acquired b) + length (b_abandoned b) <= 1)%nat;
  sb_discarded : b_discarded b = [];
  sb_registered : (length (b_registered b) <= 1)%nat;
  sb_context : if b_owned b then b_registered b = [b_session b] /\ b_finalized b = []
               else b_registered b = [] \/ b_finalized b = b_registered b }.

Definition unregistered (b : Books P) : Prop :=
  b_owned b = false /\ b_registered b = [] /\ b_finalized b = [].

Definition fresh (b : Books P) : Prop :=
  b_initialized b = false /\ b_acquired b = [] /\ b_abandoned b = [] /\ unregistered b.

(** After the [finally]: every sandbox the rollout owned has one termination task, under
    the session it was started with, and a session that was registered and not finalized
    has been discarded once. *)
Record released (w0 : list (LifecycleWork P)) (b : Books P) : Prop := {
  rb_works : b_works b = w0 ++ b_abandoned b ++ map terminate_of (b_acquired b);
  rb_one : (length (b_acquired b) + length (b_abandoned b) <= 1)%nat;
  rb_registered : (length (b_registered b) <= 1)%nat;
  rb_discarded : b_discarded b = match en_can_discard en, b_finalized b with
                                 | true, [] => b_registered b
                                 | _, _ => []
                                 end }.

Lemma ensure_session_neutral : neutral (ensure_session (S := S) uuid : eff (Frame P S) dexn _).
Proof using.
  intros f. unfold ensure_session, bind, get. simpl.
  destruct (ensure_blackbox_session_id uuid (f_sample f) (f_loop f)) as [[[s sid] lp]|] eqn:E; [|done].
  apply ensure_loop in E as [_ L]. unfold books, works; simpl. by rewrite L.
Qed.

Lemma miss_session_neutral : neutral (miss_session (S := S) uuid : eff (Frame P S) dexn _).
Proof using. unfold miss_session. neutral. apply ensure_session_neutral. Qed.
#[local] Hint Resolve ensure_session_neutral miss_session_neutral : neutral.

(** The session may be renamed while nothing is owned. *)
Lemma fresh_session w0 f g : settled w0 (books f) -> fresh (books f) ->
  f_loop (g f) = f_loop f -> f_calls (g f) = f_calls f -> f_initialized (g f) = f_initialized f ->
  f_context_owned (g f) = f_context_owned f ->
  settled w0 (books (g f : Frame P S)) /\ fresh (books (g f)).
Proof using.
  unfold fresh, unregistered, books. intros [W A O D Rg C] (I & Aq & Ab & U & R & Fi) E1 E2 E3 E4.
  simpl in *. rewrite E1, E2, E3, E4. rewrite Aq, Ab, R, Fi, U, I in *.
  split; [split; simpl; rewrite ?Aq, ?Ab, ?R, ?Fi; auto|auto 10].
Qed.

Lemma claim_works sid o (st : PrewarmStore P) lp r st' lp' :
  claim (S := S) (Some sid) o st lp = (r, st', lp') ->
  works lp' = works lp ++ match r with Prewarm.Cancelled r => [Dispose r] | _ => [] end.
Proof using.
  unfold claim. intros E. destruct (_take sid st) as [[r0|] st0];
    [|injection E as <- <- <-; by rewrite app_nil_r].
  destruct (o (task r0)); injection E as <- <- <-; rewrite ?app_nil_r; [done|done|].
  unfold _schedule_dispose, schedule_lifecycle_task, works. simpl. by rewrite map_app.
Qed.

(** A neutral piece keeps what is known of the books. *)
Lemma neutral_keep {A} w0 (B : Books P -> Prop) (m : eff (Frame P S) dexn A) :
  (forall b, B b -> settled w0 b) -> neutral m ->
  hoare (fun f => B (books f)) m (fun _ f => B (books f)) (fun _ f => settled w0 (books f)).
Proof using.
  intros HB N. eapply hoare_weaken; [exact (neutral_hoare m B N)|done|done|]. intros e s Bs. by apply HB.
Qed.

Definition idle (w0 : list (LifecycleWork P)) (b : Books P) : Prop := settled w0 b /\ fresh b.

(** Nothing is owned yet, and the session has its final name. *)
Definition named (w0 : list (LifecycleWork P)) (sid : string) (b : Books P) : Prop :=
  idle w0 b /\ b_session b = sid.

(** A sandbox becomes the rollout's own. *)
Lemma sandbox_acquired w0 sid f p st args c : named w0 sid (books f) ->
  acquired c = Some (p, sid, args) -> abandoned c = None -> registered c = None ->
  finalized c = None -> discarded c = None ->
  let f' := with_sandbox (S := S) p st args (with_calls [c] f) in
  settled w0 (books f') /\ unregistered (books f').
Proof using.
  intros [[[W A O D Rg C] (I & Aq & Ab & U & R & Fi)] Se] E1 E2 E3 E4 E5.
  unfold books, unregistered in *. simpl in *.
  rewrite !omap_app in *. simpl. rewrite E1, E2, E3, E4, E5. rewrite Aq, Ab, R, Fi, U, I, Se in *.
  simpl in *. split; [split; simpl; rewrite ?app_nil_r in *; auto|done].
Qed.

Lemma named_calls w0 sid f c : named w0 sid (books f) ->
  acquired c = None -> abandoned c = None -> registered c = None -> finalized c = None ->
  discarded c = None -> settled w0 (books (with_calls (S := S) [c] f)).
Proof using.
  intros [[I _] _] E1 E2 E3 E4 E5. unfold books in *. simpl in *.
  rewrite !omap_app. simpl. by rewrite E1, E2, E3, E4, E5, !app_nil_r.
Qed.

(** [start_sandbox] gets a sandbox from [init] or leaves everything as it was. *)
Lemma start_sandbox_spec w0 requested :
  hoare (fun f => idle w0 (books f)) (start_sandbox uuid en requested)
    (fun _ f => settled w0 (books f) /\ unregistered (books f)) (fun _ f => settled w0 (books f)).
Proof using.
  assert (N : forall A (m : eff (Frame P S) dexn A), neutral m -> hoare (fun f => idle w0 (books f)) m
            (fun _ f => idle w0 (books f)) (fun _ f => settled w0 (books f)))
    by (intros A m; apply neutral_keep; by intros b []).
  assert (N' : forall sid A (m : eff (Frame P S) dexn A), neutral m ->
            hoare (fun f => named w0 sid (books f)) m
            (fun _ f => named w0 sid (books f)) (fun _ f => settled w0 (books f)))
    by (intros sid A m; apply neutral_keep; by intros b [[] _]).
  unfold start_sandbox. eapply hoare_bind; [apply N; neutral|]. intros ?.
  eapply hoare_bind; [apply N; neutral|]. intros sid.
  eapply hoare_bind with (Q := fun _ f => named w0 sid (books f));
    [intros f [I F]; split; [by apply fresh_session|done]|].
  intros ?. eapply hoare_bind; [apply N'; neutral|]. intros ?.
  eapply hoare_bind; [apply N'; neutral|]. intros p.
  eapply hoare_bind with (Q := fun _ f => named w0 sid (books f));
    [intros f [[I F] Se]; split; [by apply fresh_session|done]|].
  intros ?. eapply hoare_bind; [apply N'; neutral|]. intros m f I. unfold bind, get.
  destruct (en_init en sid (pget m "env_type") (f_env_args f)) as [st|e].
  - by apply (sandbox_acquired w0 sid).
  - by apply (named_calls w0 sid).
Qed.

Lemma claim_prewarm_run f r st lp :
  claim (Some (f_session f)) (en_claim en) (f_store f) (f_loop f) = (r, st, lp) ->
  claim_prewarm en f =
    let f1 := with_frame_store st lp f in
    match r with
    | Prewarm.Cancelled r => (inr Cancelled, with_calls [CClaimCancelled r] f1)
    | NoPrewarm | Fallback _ => (inl None, f1)
    | Handle _ h => (inl (Some h), with_calls [CClaimed (f_session f) h] f1)
    end.
Proof using. intros C. unfold claim_prewarm, bind, get. rewrite C. by destruct r. Qed.

Lemma acquire_sandbox_spec w0 :
  hoare (fun f => idle w0 (books f)) (acquire_sandbox uuid en)
    (fun _ f => settled w0 (books f) /\ unregistered (books f)) (fun _ f => settled w0 (books f)).
Proof using.
  assert (N : forall A (m : eff (Frame P S) dexn A), neutral m -> hoare (fun f => idle w0 (books f)) m
            (fun _ f => idle w0 (books f)) (fun _ f => settled w0 (books f)))
    by (intros A m; apply neutral_keep; by intros b []).
  unfold acquire_sandbox. eapply hoare_bind; [apply N; neutral|]. intros ?.
  eapply hoare_bind; [apply N; neutral|]. intros requested f I.
  destruct (claim (Some (f_session f)) (en_claim en) (f_store f) (f_loop f)) as [[r st] lp] eqn:C.
  unfold bind at 1. rewrite (claim_prewarm_run _ _ _ _ C). apply claim_works in C. cbv zeta.
  set (f1 := with_frame_store st lp f).
  assert (I1 : match r with Prewarm.Cancelled _ => True | _ => idle w0 (books f1) end).
  { destruct r; try done; rewrite app_nil_r in C; unfold idle, books in *; simpl in *; by rewrite C. }
  destruct r as [|r|r h|r].
  - by apply start_sandbox_spec.
  - by apply start_sandbox_spec.
  - unfold use_prewarmed.
    assert (X := sandbox_acquired w0 (f_session f) f1 (ph_paddock h) (ph_state h) (ph_env_args h)
                   (CClaimed (f_session f) h) (conj I1 eq_refl) eq_refl eq_refl eq_refl eq_refl eq_refl).
    by destruct requested.
  - destruct I as [[W A O D Rg Cx] (In & Aq & Ab & U & R & Fi)]. unfold books, works in *. simpl in *.
    rewrite Aq, Ab, R, Fi, U, In in *. rewrite C, W, !omap_app, Aq, Ab, R, Fi. simpl.
    split; simpl; rewrite ?D, ?app_nil_r; auto.
Qed.

(** The next piece is neutral: what [N] says is known stays known. *)
Ltac keep N := eapply hoare_bind; [apply N; neutral|].

Lemma register_context_spec w0 :
  hoare (fun f => settled w0 (books f) /\ unregistered (books f)) (register_context en)
    (fun _ f => settled w0 (books f) /\ b_finalized (books f) = []) (fun _ f => settled w0 (books f)).
Proof using.
  intros f [[W A O D Rg C] (U & R & Fi)]. unfold register_context.
  destruct (en_can_register_context en); [|done]. unfold bind, get, modify, lift.
  assert (K : let b := books (with_calls [CRegisterContext (f_session f)] (with_context true f)) in
              settled w0 b /\ b_finalized b = []).
  { unfold books in *. simpl in *. rewrite !omap_app, Fi, R. simpl.
    split; [split; simpl; rewrite ?app_nil_r; auto|done]. }
  destruct (en_register_context en (f_session f)); [done|apply K].
Qed.

Lemma finalize_session_spec w0 :
  hoare (fun f => settled w0 (books f) /\ b_finalized (books f) = []) (finalize_session en)
    (fun _ f => settled w0 (books f) /\ b_finalized (books f) = [b_session (books f)])
    (fun _ f => settled w0 (books f)).
Proof using.
  intros f [[W A O D Rg C] Fi]. unfold finalize_session, bind, get.
  destruct (en_finalize en (f_session f)); unfold modify, raise, books in *; simpl in *;
    rewrite !omap_app, Fi; simpl.
  - split; [|done]. split; simpl; rewrite ?app_nil_r; auto. rewrite Fi in C.
    destruct (f_context_owned f); [|destruct C as [C|C]; [by left|rewrite <- C; by left]].
    destruct C as [-> _]. by right.
  - split; simpl; rewrite ?app_nil_r, ?Fi; auto. by rewrite Fi in C.
Qed.

(** What is true of the samples of a finished rollout. *)
Definition harvested (f : Frame P S) (out : list Sample) : Prop :=
  out <> [] /\ b_finalized (books f) = [f_session f] /\
  Forall (fun s => parent_of s = PStr (f_session f)) out.

Lemma expanded_segments s segments text sid iid out :
  expand_segments_to_samples decode s segments (en_sample_args en) text (Some sid) (Some iid) = Ok out ->
  out <> [] /\ Forall (fun s' => parent_of s' = PStr sid) out.
Proof using.
  intros E. destruct (expand_segments_sound _ _ _ _ _ _ _ _ E) as (sorted & Pm & _ & L & F). split.
  - intros ->. destruct segments; [discriminate E|discriminate L].
  - apply Forall_lookup. intros i s' Ho.
    assert (Ls : length sorted = length out) by (rewrite L, <- Pm; by rewrite length_map).
    assert (Lt := lookup_lt_Some _ _ _ Ho). rewrite <- Ls in Lt.
    apply lookup_lt_is_Some in Lt as [[ix d] Hs]. by destruct (F _ _ _ _ Hs Ho) as (_ & Hp & _).
Qed.

Lemma best_effort_neutral (m : eff (Frame P S) dexn unit) : neutral m -> neutral (best_effort m).
Proof using. intros N. unfold best_effort. neutral. Qed.
#[local] Hint Resolve best_effort_neutral : neutral.

Lemma harvest_spec w0 iid :
  hoare (fun f => settled w0 (books f) /\ b_finalized (books f) = []) (harvest decode en iid)
    (fun out f => settled w0 (books f) /\ harvested f out) (fun _ f => settled w0 (books f)).
Proof using.
  set (B := fun b : Books P => settled w0 b /\ b_finalized b = [b_session b]).
  assert (N : forall A (m : eff (Frame P S) dexn A), neutral m -> hoare (fun f => B (books f)) m
            (fun _ f => B (books f)) (fun _ f => settled w0 (books f)))
    by (intros A m; apply neutral_keep; by intros b [? _]).
  unfold harvest. eapply hoare_bind; [apply finalize_session_spec|]. intros ?.
  eapply hoare_bind with (Q := fun sid f => B (books f) /\ sid = f_session f); [by intros f|].
  intros sid.
  assert (N' : forall A (m : eff (Frame P S) dexn A), neutral m ->
            hoare (fun f => B (books f) /\ sid = b_session (books f)) m
            (fun _ f => B (books f) /\ sid = b_session (books f)) (fun _ f => settled w0 (books f)))
    by (intros A m; apply (neutral_keep w0 (fun b => B b /\ sid = b_session b)); by intros b [[? _] _]).
  keep N'; intros _u. keep N'; intros payload. keep N'; intros _u'. keep N'; intros segments.
  keep N'; intros s. keep N'; intros text.
  eapply hoare_bind with (Q := fun out f => (B (books f) /\ sid = b_session (books f)) /\
    out <> [] /\ Forall (fun s => parent_of s = PStr sid) out).
  - intros f [Bf Sf].
    destruct (expand_segments_to_samples decode s segments _ text (Some sid) (Some iid)) as [out|] eqn:E.
    + split; [by split|]. by apply expanded_segments in E.
    + by destruct Bf.
  - intros out. eapply hoare_bind with (Q := fun _ f => (B (books f) /\ sid = b_session (books f)) /\
      out <> [] /\ Forall (fun s => parent_of s = PStr sid) out).
    + intros f [Bf Fo]. specialize (N' _ (best_effort (lift (en_write_samples en))) ltac:(neutral) f Bf).
      by destruct (best_effort _ f) as [[]].
    + intros [] f [[[I Fi] Sf] [NE Fo]]. split; [done|]. split_and!; [done|done|].
      change (f_session f) with (b_session (books f)). by rewrite <- Sf.
Qed.

Lemma run_stage_neutral sched stage : neutral (run_stage (S := S) en sched stage : eff (Frame P S) dexn _).
Proof using.
  unfold run_stage. apply neutral_bind; [apply neutral_get|]. intros m.
  destruct (execute_blackbox_cmds_for_stage _ _ _ _ _) as [[m' sent] e]. neutral.
Qed.

Lemma register_agent_neutral iid bt options : neutral (register_agent en iid bt options).
Proof using. unfold register_agent, sandbox_state. neutral. Qed.

Lemma call_agent_neutral : neutral (call_agent en).
Proof using. unfold call_agent, sandbox_state. neutral. Qed.

Lemma check_payload_neutral payload : neutral (check_payload (S := S) payload : eff (Frame P S) dexn _).
Proof using. unfold check_payload. neutral. Qed.

Lemma backend_options_neutral bt : neutral (backend_options en bt).
Proof using. unfold backend_options. neutral. Qed.
#[local] Hint Resolve run_stage_neutral register_agent_neutral call_agent_neutral
  check_payload_neutral backend_options_neutral : neutral.

Lemma rollout_spec w0 iid bt :
  hoare (fun f => idle w0 (books f)) (rollout uuid decode en iid bt)
    (fun out f => settled w0 (books f) /\ harvested f out) (fun _ f => settled w0 (books f)).
Proof using.
  assert (K : forall (B : Books P -> Prop), (forall b, B b -> settled w0 b) ->
            forall A (m : eff (Frame P S) dexn A), neutral m -> hoare (fun f => B (books f)) m
              (fun _ f => B (books f)) (fun _ f => settled w0 (books f)))
    by (intros B HB A m; by apply neutral_keep).
  pose proof (K (idle w0) (fun b I => proj1 I)) as N.
  pose proof (K (fun b => settled w0 b /\ unregistered b) (fun b I => proj1 I)) as N1.
  pose proof (K (fun b => settled w0 b /\ b_finalized b = []) (fun b I => proj1 I)) as N2. clear K.
  unfold rollout. keep N; intros cmds. keep N; intros sched. keep N; intros options.
  eapply hoare_bind; [apply acquire_sandbox_spec|]. intros [].
  keep N1; intros []. keep N1; intros [].
  eapply hoare_bind; [apply register_context_spec|]. intros [].
  keep N2; intros payload. keep N2; intros []. keep N2; intros []. apply harvest_spec.
Qed.

Lemma abort_sample_neutral iid e : neutral (abort_sample en iid e).
Proof using. unfold abort_sample, best_effort. neutral. Qed.

(** Nothing that happens while an error is handled leaves it, but a cancellation. *)
Lemma best_effort_raises (m : eff (Frame P S) dexn unit) f :
  match best_effort m f with (inr e, _) => e = Cancelled | _ => True end.
Proof using. unfold best_effort, catch. destruct (m f) as [[[]|[]] f']; done. Qed.

(** The aborted sample is out of the loss and ready for a retry with a new session. *)
Definition aborted_sample (sid : string) (s : Sample) : Prop :=
  _sample_status_name s = "ABORTED" /\ remove_sample s = true /\ sp_session_id s = None /\
  (sid <> "" -> pget (default [] (metadata s)) "last_failed_session_id" = PStr sid).

Lemma aborted_marked sid iid obj s :
  aborted_sample sid (with_status "aborted" (mark_aborted_no_grad s (Some sid) (Some iid) obj)).
Proof using.
  split; [reflexivity|]. split; [done|]. split; [done|]. intros NE.
  assert (E : str_or (Some sid) None = Some sid)
    by (unfold str_or; apply String.eqb_neq in NE; by rewrite NE).
  unfold mark_aborted_no_grad. rewrite E. simpl.
  unfold pget, dget_def. rewrite dget_dpop_ne by done. by rewrite dget_dset_eq.
Qed.

Lemma aborted_set sid k v s : aborted_sample sid s -> k <> "last_failed_session_id" ->
  aborted_sample sid (Prewarm.with_metadata (dset (default [] (metadata s)) k v) s).
Proof using.
  intros (A & R & Se & L) Nk. split; [done|]. split; [done|]. split; [done|]. intros NE. simpl.
  unfold pget, dget_def in *. rewrite dget_dset_ne by done. by apply L.
Qed.

(** What handling an error leaves: the aborted sample, or a cancellation. *)
Lemma abort_sample_run iid e f :
  match abort_sample en iid e f with
  | (inl _, f') => f_session f' = f_session f /\ aborted_sample (f_session f) (f_sample f')
  | (inr x, _) => x = Cancelled
  end.
Proof using.
  unfold abort_sample. set (log := best_effort _).
  assert (N : neutral log) by (unfold log, best_effort; neutral).
  assert (R : match log f with (inr x, _) => x = Cancelled | _ => True end) by apply best_effort_raises.
  specialize (N f). clearbody log. unfold bind, get.
  destruct (expected_abort_from_call_agent_exception e) as [reason|].
  - split; [done|]. apply aborted_marked.
  - destruct (log f) as [[[]|x] f1]; [|done]. split; [|apply aborted_marked].
    exact (f_equal b_session N).
Qed.

(** The sample after the [finally]: at most the note of a failed discard is new. *)
Definition same_sample (s s' : Sample) : Prop :=
  s' = s \/ exists v, s' = Prewarm.with_metadata
                             (dset (default [] (metadata s)) "session_context_discard_error" v) s.

Lemma finally_run {A} (m : eff (Frame P S) dexn A) g f r f1 : m f = (r, f1) ->
  finally m g f = match g (match r with inl _ => None | inr e => Some e end) f1 with
                  | (inl _, f2) => (r, f2)
                  | (inr e, f2) => (inr e, f2)
                  end.
Proof using. intros E. unfold finally. by rewrite E. Qed.

Lemma discard_session_run f f1 r : _discard_session_context en f = (r, f1) ->
  (r = inl tt \/ r = inr Cancelled) /\ same_sample (f_sample f) (f_sample f1) /\
  f_loop f1 = f_loop f /\ f_session f1 = f_session f /\ f_env_args f1 = f_env_args f /\
  f_paddock f1 = f_paddock f /\ f_initialized f1 = f_initialized f /\
  f_context_owned f1 = f_context_owned f /\
  f_calls f1 = f_calls f ++ (if en_can_discard en then [CDiscard (f_session f)] else []).
Proof using.
  unfold _discard_session_context. destruct (en_can_discard en).
  - unfold bind, get. destruct (en_discard en (f_session f)) as [e|];
      destruct (en_discard_cancelled en); intros E; injection E as <- <-;
      (split_and!; [auto|unfold same_sample; eauto|done..]).
  - intros E; injection E as <- <-. rewrite app_nil_r. split_and!; [auto|by left|done..].
Qed.

(** What the [finally] block does to the books. *)
Definition settle (b : Books P) : Books P :=
  {| b_works := b_works b ++ map terminate_of (match b_initialized b, b_paddock b with
                                               | true, Some p => [(p, b_session b, b_env_args b)]
                                               | _, _ => []
                                               end);
     b_acquired := b_acquired b; b_abandoned := b_abandoned b; b_registered := b_registered b;
     b_finalized := b_finalized b;
     b_discarded := b_discarded b ++ (if b_owned b && en_can_discard en then [b_session b] else []);
     b_session := b_session b; b_env_args := b_env_args b; b_paddock := b_paddock b;
     b_initialized := b_initialized b; b_owned := b_owned b |}.

Lemma settle_released w0 b : settled w0 b -> released w0 (settle b).
Proof using.
  intros [W A O D Rg C]. split; simpl.
  - by rewrite W, A, app_assoc.
  - done.
  - done.
  - rewrite D. destruct (b_owned b); simpl.
    + destruct C as [-> ->]. by destruct (en_can_discard en).
    + destruct C as [-> | ->]; by destruct (en_can_discard en), (b_registered b), (b_finalized b).
Qed.

Lemma finally_run' {A} (m : eff (Frame P S) dexn A) g f : finally m g f =
  let '(r, f1) := m f in
  match g (match r with inl _ => None | inr e => Some e end) f1 with
  | (inl _, f2) => (r, f2)
  | (inr e, f2) => (inr e, f2)
  end.
Proof using. done. Qed.

(** The [finally] block settles the books; it may raise a cancellation, nothing else. *)
Lemma cleanup_run active f r f' : cleanup_rollout en active f = (r, f') ->
  books f' = settle (books f) /\ (r = inl tt \/ r = inr Cancelled) /\
  same_sample (f_sample f) (f_sample f').
Proof using.
  unfold cleanup_rollout. rewrite finally_run'. set (m := bind _ _). intros E.
  assert (X : exists r1 f1, m f = (r1, f1) /\ (r1 = inl tt \/ r1 = inr Cancelled) /\
            same_sample (f_sample f) (f_sample f1) /\
            f_loop f1 = f_loop f /\ f_session f1 = f_session f /\ f_env_args f1 = f_env_args f /\
            f_paddock f1 = f_paddock f /\ f_initialized f1 = f_initialized f /\
            f_context_owned f1 = f_context_owned f /\
            f_calls f1 = f_calls f ++ (if f_context_owned f && en_can_discard en
                                       then [CDiscard (f_session f)] else [])).
  { unfold m, bind, get. destruct (f_context_owned f) eqn:Ow.
    - unfold catch. destruct (_discard_session_context en f) as [r2 f2] eqn:Dr.
      apply discard_session_run in Dr as (R & X).
      rewrite Ow in X. cbn [andb]. destruct R as [-> | ->].
      + exists (inl tt), f2. split; [done|]. split; [by left|]. exact X.
      + exists (match active with Some Cancelled => inl tt | _ => inr Cancelled end), f2.
        split; [by destruct active as [[]|]|]. split; [destruct active as [[]|]; auto|]. exact X.
    - exists (inl tt), f. rewrite app_nil_r. split_and!; auto. by left. }
  destruct X as (r1 & f1 & Mf & R1 & Sm & L & Se & Ar & Pd & In & Ow & Ca).
  rewrite Mf in E. clear m Mf.
  unfold release_sandbox, modify in E. rewrite In, Pd in E.
  assert (F' : f' = match f_initialized f, f_paddock f with
                    | true, Some p => with_frame_store (f_store f1)
                        (schedule_terminate_paddock p (f_session f1) (f_env_args f1) (f_loop f1)) f1
                    | _, _ => f1
                    end /\ r = r1) by (destruct R1 as [-> | ->]; by injection E as <- <-).
  destruct F' as [-> ->]. clear E. split; [|split; [done|by destruct (f_initialized f), (f_paddock f)]].
  unfold books, settle; simpl.
  destruct (f_initialized f) eqn:I2, (f_paddock f) as [p|] eqn:P2; simpl;
    rewrite ?In, ?Pd, ?Ow, ?Se, ?Ar, ?Ca, !omap_app; unfold works; simpl; rewrite ?map_app, ?L;
    destruct (f_context_owned f), (en_can_discard en); simpl; rewrite ?app_nil_r; reflexivity.
Qed.

(** Before the [try] nothing is owned. *)
Lemma prepare_spec s st lp evaluation :
  match prepare uuid en evaluation (initial_frame (S := S) s st lp) with
  | (inl _, f) => idle (works lp) (books f)
  | (inr _, f) => idle (works lp) (books f)
  end.
Proof using.
  set (w0 := works lp).
  assert (I0 : idle w0 (books (initial_frame (S := S) s st lp))).
  { unfold idle, fresh, unregistered, books; simpl. split; [split; simpl; auto; by rewrite app_nil_r|done]. }
  assert (N : forall A (m : eff (Frame P S) dexn A), neutral m -> hoare (fun f => idle w0 (books f)) m
            (fun _ f => idle w0 (books f)) (fun _ f => idle w0 (books f)))
    by (intros A m; apply neutral_hoare).
  assert (T : hoare (fun f => idle w0 (books f)) (prepare uuid en evaluation)
                (fun _ f => idle w0 (books f)) (fun _ f => idle w0 (books f))).
  { unfold prepare. keep N; intros ?. keep N; intros ?. keep N; intros sid.
    eapply hoare_bind with (Q := fun _ f => idle w0 (books f)); [intros f [I F]; by apply fresh_session|].
    intros ?. keep N; intros iid. keep N; intros ?. keep N; intros ?. keep N; intros m.
    eapply hoare_bind with (Q := fun _ f => idle w0 (books f)); [intros f [I F]; by apply fresh_session|].
    intros ?. apply N. neutral. }
  exact (T _ I0).
Qed.

(** The [try] statement. *)
Definition try_rollout (iid bt : string) : eff (Frame P S) dexn (option (list Sample)) :=
  catch (await! l := rollout uuid decode en iid bt in ret (Some l))
    (fun e => match e with
              | Cancelled => raise Cancelled
              | _ => step! abort_sample en iid e ;; ret None
              end).

Lemma try_rollout_spec w0 iid bt f r f1 : idle w0 (books f) -> try_rollout iid bt f = (r, f1) ->
  settled w0 (books f1) /\
  match r with
  | inl (Some l) => harvested f1 l
  | inl None => aborted_sample (f_session f1) (f_sample f1)
  | inr e => e = Cancelled
  end.
Proof using.
  intros I E. unfold try_rollout, catch in E. unfold bind at 1 in E.
  pose proof (rollout_spec w0 iid bt f I) as R. destruct (rollout uuid decode en iid bt f) as [[l|e] f2].
  - injection E as <- <-. exact R.
  - assert (Ab : forall e f1 r, (step! abort_sample en iid e ;; ret None)%py f2 = (r, f1) ->
              settled w0 (books f1) /\
              match r with
              | inl (Some l) => harvested f1 l
              | inl None => aborted_sample (f_session f1) (f_sample f1)
              | inr e => e = Cancelled
              end).
    { clear E f1 r e. intros e f1 r E. pose proof (abort_sample_run iid e f2) as A.
      pose proof (abort_sample_neutral iid e f2) as N. unfold bind in E.
      destruct (abort_sample en iid e f2) as [[[]|x] f3]; injection E as <- <-; simpl in N; rewrite N.
      - destruct A as [Se A]. rewrite Se. by split.
      - by split. }
    destruct e; [by injection E as <- <-|by eapply Ab..].
Qed.

Lemma same_sample_aborted sid s s' : aborted_sample sid s -> same_sample s s' -> aborted_sample sid s'.
Proof using. intros A [-> | [v ->]]; [done|]. by apply aborted_set. Qed.

Lemma generate_spec evaluation s st lp r f :
  generate uuid decode en evaluation (initial_frame s st lp) = (r, f) ->
  released (works lp) (books f) /\
  match r with
  | inl (Many out) => harvested f out
  | inl (One s') => s' = f_sample f /\ aborted_sample (f_session f) s'
  | inr e => e = Cancelled \/ fresh (books f)
  end.
Proof using.
  unfold generate. pose proof (prepare_spec s st lp evaluation) as Pr. unfold bind at 1.
  destruct (prepare uuid en evaluation (initial_frame s st lp)) as [[[iid bt]|e] f0]; intros E.
  - unfold bind at 1 in E. rewrite finally_run' in E. fold (try_rollout iid bt) in E.
    destruct (try_rollout iid bt f0) as [r1 f1] eqn:T.
    destruct (try_rollout_spec _ _ _ _ _ _ Pr T) as [Se Rs].
    destruct (cleanup_rollout en _ f1) as [r2 f2] eqn:Cl. apply cleanup_run in Cl as (Bk & R2 & Sm).
    assert (Rl : released (works lp) (books f2)) by (rewrite Bk; by apply settle_released).
    assert (Ss : f_session f2 = f_session f1) by exact (f_equal b_session Bk).
    assert (Fs : b_finalized (books f2) = b_finalized (books f1)) by exact (f_equal b_finalized Bk).
    destruct R2 as [-> | ->]; [|by injection E as <- <-; auto].
    destruct r1 as [[l|]|e]; injection E as <- <-; (split; [done|]).
    + unfold harvested in *. by rewrite Ss, Fs.
    + split; [done|]. rewrite Ss. by eapply same_sample_aborted.
    + by left.
  - injection E as <- <-. destruct Pr as [Se Fr]. split; [|by right].
    destruct Se as [W A O D Rg C]. destruct Fr as (I & Aq & Ab & U & R & Fi).
    split; rewrite ?W, ?Aq, ?Ab, ?R, ?Fi, ?D; simpl; auto. by destruct (en_can_discard en).
Qed.

(** C11: However a rollout ends, each sandbox it owned has exactly one termination task, with
    the paddock, the session and the arguments it was acquired with; a sandbox whose claim
    was cancelled has its disposal; no other task is scheduled.  It owns at most one. *)
Theorem rollout_releases_sandbox evaluation s st lp r f :
  generate uuid decode en evaluation (initial_frame s st lp) = (r, f) ->
  map snd (lifecycle_tasks (f_loop f)) =
    map snd (lifecycle_tasks lp) ++ omap abandoned (f_calls f) ++
    map terminate_of (omap acquired (f_calls f)) /\
  (length (omap acquired (f_calls f)) + length (omap abandoned (f_calls f)) <= 1)%nat.
Proof using. intros E. by destruct (generate_spec _ _ _ _ _ _ E) as [[W O _ _] _]. Qed.

(** C12: However a rollout ends, the session it registered with the proxy, if any, has been
    finalized or has been discarded exactly once, never both. *)
Theorem rollout_settles_session evaluation s st lp r f :
  generate uuid decode en evaluation (initial_frame s st lp) = (r, f) ->
  (length (omap registered (f_calls f)) <= 1)%nat /\
  (en_can_discard en = true ->
   omap discarded (f_calls f) = match omap finalized (f_calls f) with
                                | [] => omap registered (f_calls f)
                                | _ => []
                                end).
Proof using.
  intros E. destruct (generate_spec _ _ _ _ _ _ E) as [[_ _ R D] _]. split; [done|].
  intros Cd. by rewrite Cd in D.
Qed.

(** C37: A rollout returns the samples of a finalized session, all children of that session, or
    its own sample aborted, out of the loss and with its session forgotten but noted;
    what it raises is a cancellation, unless it failed before it owned anything. *)
Theorem rollout_result evaluation s st lp r f :
  generate uuid decode en evaluation (initial_frame s st lp) = (r, f) ->
  match r with
  | inl (Many out) => out <> [] /\ omap finalized (f_calls f) = [f_session f] /\
                      Forall (fun s => parent_of s = PStr (f_session f)) out
  | inl (One s') => s' = f_sample f /\ aborted_sample (f_session f) s'
  | inr e => e = Cancelled \/
             omap acquired (f_calls f) = [] /\ omap abandoned (f_calls f) = [] /\
             omap registered (f_calls f) = []
  end.
Proof using.
  intros E. destruct (generate_spec _ _ _ _ _ _ E) as [_ R]. destruct r as [[s'|out]|e]; [done|done|].
  destruct R as [->|(_ & A & B & _ & C & _)]; auto.
Qed.
End Accounting.

(** ** Groups ([generate/runtime.py]) *)

Section Groups.
Context `{PyText}.

(** The proxy session a sample belongs to. *)
Definition trajectory_id_of (s : Sample) : option string :=
  let m := default [] (metadata s) in
  match py_or (pget m "parent_traj_id")
          (py_or (pget m "last_failed_session_id")
             (py_or (pget m "session_id") (opt_pyval (sp_session_id s)))) with
  | PNone => None
  | v => Some (py_str v)
  end.

(** The loop over the samples, with the ids already seen. *)
Fixpoint trajectory_ids (samples : list Sample) (seen : list string) : list string :=
  match samples with
  | [] => []
  | s :: rest =>
      match trajectory_id_of s with
      | None => trajectory_ids rest seen
      | Some sid => if bool_decide (sid ∈ seen) then trajectory_ids rest seen
                    else sid :: trajectory_ids rest (sid :: seen)
      end
  end.

(** The answer to one discard request; the client raises for everything else. *)
Definition discard_proxy_session_best_effort (answer : string -> dict + dexn) (sid : string) : bool :=
  if String.eqb sid "" then true
  else match answer sid with
       | inl d => negb (match pget d "success" with PBool false => true | _ => false end)
       | inr _ => false
       end.

Definition discard_rollout_groups_best_effort (answer : string -> dict + dexn)
    (groups : list (list Sample)) : list string * bool :=
  let ids := trajectory_ids (concat groups) [] in
  (List.filter (fun sid => negb (String.eqb sid "")) ids,
   forallb (discard_proxy_session_best_effort answer) ids).

(** [generate_group]: how the generation ended, and the sessions it discards. *)
Definition generate_group (outcome : list item + dexn) (group : list Sample)
    : (list item + dexn) * list string :=
  let generated := match outcome with inl r => _flatten_multi_segment_result r | inr _ => [] end in
  let failed := match outcome with inl _ => _is_aborted_group generated | inr _ => true end in
  (outcome, if failed then fst (discard_rollout_groups_best_effort (fun _ => inl []) [generated; group])
            else []).

Lemma trajectory_ids_spec samples : forall seen, NoDup (trajectory_ids samples seen) /\
  forall sid, sid ∈ trajectory_ids samples seen <->
    (sid ∉ seen) /\ exists s, s ∈ samples /\ trajectory_id_of s = Some sid.
Proof using.
  induction samples as [|s rest IH]; intros seen; simpl.
  - split; [constructor|]. intros sid. split; [by intros ?%not_elem_of_nil|].
    intros (_ & s & I & _). by apply not_elem_of_nil in I.
  - destruct (trajectory_id_of s) as [x|] eqn:T.
    + case_bool_decide as D.
      * destruct (IH seen) as [N E]. split; [done|]. intros sid. rewrite E. split; intros (A & s' & I & F).
        -- split; [done|]. exists s'. split; [by right|done].
        -- split; [done|]. apply elem_of_cons in I as [->|I]; [congruence|]. by exists s'.
      * destruct (IH (x :: seen)) as [N E]. split.
        -- constructor; [|done]. rewrite E. intros [F _]. apply F. by left.
        -- intros sid. rewrite elem_of_cons, E, not_elem_of_cons. split.
           ++ intros [->|((A & B) & s' & I & F)]; [split; [done|]; exists s; split; [by left|done]|].
              split; [done|]. exists s'. split; [by right|done].
           ++ intros (A & s' & I & F). destruct (decide (sid = x)) as [->|Ne]; [by left|right].
              split; [done|]. apply elem_of_cons in I as [->|I]; [congruence|]. by exists s'.
    + destruct (IH seen) as [N E]. split; [done|]. intros sid. rewrite E.
      split; intros (A & s' & I & F); (split; [done|]).
      * exists s'. split; [by right|done].
      * apply elem_of_cons in I as [->|I]; [congruence|]. by exists s'.
Qed.

(** A group that failed has the session of each of its samples discarded, each once; a
    group that succeeded has none discarded. *)
Theorem failed_group_discarded outcome group r ids : generate_group outcome group = (r, ids) ->
  r = outcome /\ NoDup ids /\
  forall sid, sid ∈ ids <-> sid <> "" /\
    match outcome with
    | inl res => _is_aborted_group (_flatten_multi_segment_result res) = true /\
                 exists s, s ∈ _flatten_multi_segment_result res ++ group /\ trajectory_id_of s = Some sid
    | inr _ => exists s, s ∈ group /\ trajectory_id_of s = Some sid
    end.
Proof using.
  unfold generate_group. intros E. injection E as <- <-. split; [done|].
  set (gen := match outcome with inl r => _ | inr _ => [] end).
  assert (C : concat [gen; group] = gen ++ group) by (simpl; by rewrite app_nil_r).
  unfold discard_rollout_groups_best_effort. cbn [fst]. rewrite ?C, ?app_nil_r.
  destruct (trajectory_ids_spec (gen ++ group) []) as [N Sp].
  assert (F : forall sid, sid ∈ List.filter (fun sid => negb (String.eqb sid "")) (trajectory_ids (gen ++ group) [])
            <-> sid <> "" /\ exists s, s ∈ gen ++ group /\ trajectory_id_of s = Some sid).
  { intros sid. rewrite list_elem_of_In, filter_In, <- list_elem_of_In, Sp, negb_true_iff, String.eqb_neq.
    split; [by intros [[_ ?] ?]|]. intros [? ?]. split; [|done]. split; [apply not_elem_of_nil|done]. }
  assert (Nf : NoDup (List.filter (fun sid => negb (String.eqb sid "")) (trajectory_ids (gen ++ group) []))).
  { apply NoDup_ListNoDup, List.NoDup_filter, NoDup_ListNoDup. exact N. }
  destruct outcome as [res|e]; fold gen.
  - unfold gen in *. destruct (_is_aborted_group (_flatten_multi_segment_result res)).
    + split; [done|]. intros sid. rewrite F. naive_solver.
    + split; [constructor|]. intros sid. split; [by intros ?%not_elem_of_nil|]. intros (_ & ? & _). done.
  - split; [done|]. exact F.
Qed.
End Groups.

(** ** Witnesses *)

#[local] Instance w_dispatch_text : PyText := {| py_repr := fun _ => ""; py_parse_float := fun _ => None |}.

(** A prewarm miss; the answer of the agent is [answer]. *)
Definition w_env (answer : pyval + dexn) : Env nat string :=
  {| en_environ := fun _ => None; en_backend_args := []; en_sample_args := w_sample_args;
     en_sampling_seed := PNone; en_instance_uuid := "u"; en_object_id := "0";
     en_claim := fun _ => InitFailed; en_wait := f0; en_proxy_client := None;
     en_paddock := inl 7%nat; en_can_register_agent := true; en_can_execute := true;
     en_can_register_context := true; en_can_discard := true;
     en_init := fun _ _ _ => inl "ready"; en_register_agent := fun _ _ _ _ _ => inl tt;
     en_execute := fun _ _ => inl (PDict [("returncode", PInt 0)]);
     en_register_context := fun _ => inl tt; en_call_agent := fun _ _ _ _ => answer;
     en_finalize := fun _ => inl tt;
     en_read_trajectory := fun _ => inl [("data", PList [PDict (w_rw_segment 1); PDict (w_rw_segment 0)])];
     en_write_session := inr (PyExn (RuntimeError "disk full")); en_write_samples := inl tt;
     en_write_error := inl (Some "error.json"); en_discard := fun _ => None;
     en_discard_cancelled := false |}.

(** The agent reports that its context overflowed. *)
Definition w_overflow : dexn :=
  HTTPStatusError
    {| he_message := "blackbox turn context_overflow (HTTP 409)"; he_method := "GET"; he_url := "u";
       he_request_headers := []; he_request_body := None; he_status := 409; he_reason := "";
       he_headers := []; he_text := ""; he_json := Some (PDict [("error", PStr "context_overflow")]) |}.

(** Options that are no dictionary are used as they are. *)
Definition w_dispatch_sample : Sample :=
  Prewarm.with_metadata [("backend_options", PStr "none"); ("blackbox_type", PStr "other")] w_sample.

Definition w_dispatch_loop : Loop nat := {| next_task := 0; next_uuid := 0; lifecycle_tasks := [] |}.

Abbreviation w_dispatch answer :=
  (generate (fun n => str_of_Z (Z.of_nat n)) (fun _ => Ok []) (w_env answer) false
    (initial_frame w_dispatch_sample {| _records := []; _group_sessions := [] |} w_dispatch_loop)).

Lemma w_harvested : exists l, fst (w_dispatch (inr w_overflow)) = inl (Many l) /\ length l = 2%nat.
Proof. eexists. vm_compute. split; reflexivity. Qed.

Lemma w_interrupted : fst (w_dispatch (inr Cancelled)) = inr Cancelled.
Proof. vm_compute. reflexivity. Qed.

Lemma rollout_releases_sandbox_witness :
  map snd (lifecycle_tasks (f_loop (snd (w_dispatch (inr Cancelled))))) =
    [Terminate 7%nat "bbs-1" [("blackbox_type", PStr "other")]].
Proof.
  exact (proj1 (rollout_releases_sandbox (fun n => str_of_Z (Z.of_nat n)) (fun _ => Ok [])
    (w_env (inr Cancelled)) false w_dispatch_sample {| _records := []; _group_sessions := [] |}
    w_dispatch_loop _ _ (surjective_pairing _))).
Defined.

Lemma rollout_settles_session_witness :
  omap discarded (f_calls (snd (w_dispatch (inr Cancelled)))) = ["bbs-1"] /\
  omap registered (f_calls (snd (w_dispatch (inr Cancelled)))) = ["bbs-1"].
Proof.
  split; [|vm_compute; reflexivity].
  exact (proj2 (rollout_settles_session (fun n => str_of_Z (Z.of_nat n)) (fun _ => Ok [])
    (w_env (inr Cancelled)) false w_dispatch_sample {| _records := []; _group_sessions := [] |}
    w_dispatch_loop _ _ (surjective_pairing _)) eq_refl).
Defined.

Lemma w_dispatch_pair : w_dispatch (inr w_overflow) =
  (fst (w_dispatch (inr w_overflow)), snd (w_dispatch (inr w_overflow))).
Proof. apply surjective_pairing. Qed.

Lemma rollout_result_witness :
  omap finalized (f_calls (snd (w_dispatch (inr w_overflow)))) = ["bbs-1"] /\
  exists l, fst (w_dispatch (inr w_overflow)) = inl (Many l) /\ l <> [].
Proof.
  split; [vm_compute; reflexivity|]. destruct w_harvested as (l & E & _). exists l. split; [exact E|].
  pose proof (rollout_result (fun n => str_of_Z (Z.of_nat n)) (fun _ => Ok [])
    (w_env (inr w_overflow)) false w_dispatch_sample {| _records := []; _group_sessions := [] |}
    w_dispatch_loop _ _ w_dispatch_pair) as R.
  rewrite E in R. exact (proj1 R).
Defined.

Definition w_group_outcome : list item + dexn :=
  inl [One (with_status "aborted" (with_session (Some "s1") w_sample)); One (with_session (Some "s2") w_sample)].

Lemma failed_group_discarded_witness :
  snd (generate_group w_group_outcome [with_session (Some "s1") w_sample]) = ["s1"; "s2"] /\
  NoDup (snd (generate_group w_group_outcome [with_session (Some "s1") w_sample])).
Proof.
  split; [reflexivity|].
  exact (proj1 (proj2 (failed_group_discarded w_group_outcome [with_session (Some "s1") w_sample] _ _
                         (surjective_pairing _)))).
Defined.
