(* ===== verification/BlackboxClient.v ===== *)
(** * Requests to the blackbox server ([dressage/paddock/blackbox/client.py],
    [common/http_retry.py], [common/utils.py])

    A request is retried on connection failures and on the retryable statuses, with
    exponential backoff, jitter and [Retry-After]; an agent's turn is submitted once and
    polled until it is committed or has failed, and a failed turn is raised as the HTTP
    error the synchronous call would have raised.  What each attempt answers, the clock,
    [random.random()] and the parsing of HTTP dates are arguments. *)

From S2P Require Import Prelude.
From S2P Require Import PyFloat.
From S2P Require Import PyVal.
From S2P Require Import Samples.
From S2P Require Import ExecuteCmds.

Local Open Scope string_scope.
Local Open Scope list_scope.
Local Open Scope py_scope.

(** [min(a, b)]: keeps the first argument unless the second is below it. *)
Definition fmin (a b : float) : float := if fltb b a then b else a.

(** ** Configuration ([common/utils.py]) *)

Section Config.
Context `{PyText}.
Variable env : string -> option string.

Definition _env_int (name : string) (def min_value : Z) : Z :=
  match env name with
  | None | Some "" => def
  | Some value => match parse_int value with
                  | Some z => if (z <? min_value)%Z then def else z
                  | None => def
                  end
  end.

Definition _env_float (name : string) (def min_value : float) : float :=
  match env name with
  | None | Some "" => def
  | Some value => match py_parse_float value with
                  | Some f => if fltb f min_value then def else f
                  | None => def
                  end
  end.

(** Decimal literals of the source: the nearest binary64 numbers. *)
Definition f_0_2 : float := fdiv (f_of_Z 2) (f_of_Z 10).

Record RetryConfig : Type := {
  max_attempts : Z;
  initial_delay : float;
  max_delay : float;
  jitter_fraction : float }.

Definition _retry_config : RetryConfig :=
  {| max_attempts := _env_int "DRESSAGE_BLACKBOX_AGENT_REQUEST_MAX_ATTEMPTS"
                       (_env_int "DRESSAGE_SANDBOX_AGENT_REQUEST_MAX_ATTEMPTS" 6 1) 1;
     initial_delay := _env_float "DRESSAGE_BLACKBOX_AGENT_REQUEST_INITIAL_DELAY_SEC"
                        (_env_float "DRESSAGE_SANDBOX_AGENT_REQUEST_INITIAL_DELAY_SEC" (f_of_Z 1) f0) f0;
     max_delay := _env_float "DRESSAGE_BLACKBOX_AGENT_REQUEST_MAX_DELAY_SEC"
                    (_env_float "DRESSAGE_SANDBOX_AGENT_REQUEST_MAX_DELAY_SEC" (f_of_Z 10) f0) f0;
     jitter_fraction := _env_float "DRESSAGE_BLACKBOX_AGENT_REQUEST_JITTER_FRACTION"
                          (_env_float "DRESSAGE_SANDBOX_AGENT_REQUEST_JITTER_FRACTION" f_0_2 f0) f0 |}.

Definition _CALL_MODE_ENV : string := "DRESSAGE_BLACKBOX_AGENT_CALL_MODE".
Definition _DEFAULT_CALL_MODE : string := "async".
Definition _VALID_CALL_MODES : list string := ["sync"; "async"].

Definition _resolve_call_mode : string :=
  match env _CALL_MODE_ENV with
  | None | Some "" => _DEFAULT_CALL_MODE
  | Some raw => let mode := lower (strip raw) in
                if bool_decide (mode ∈ _VALID_CALL_MODES) then mode else _DEFAULT_CALL_MODE
  end.
End Config.

(** ** Retries ([common/http_retry.py]) *)

(** How one attempt ends.  A response is the [http_error] that [raise_for_status] would
    raise for it, with its [Retry-After] header. *)
Inductive attempt : Type :=
| Response (h : http_error) (retry_after : option string)
| ConnectError (message : string)
| ConnectTimeout (message : string)
| PoolTimeout (message : string)
| ReadTimeout (message : string)
| RequestFailed (e : dexn).

(** The exception of an attempt that has no response. *)
Definition attempt_error (a : attempt) : dexn :=
  match a with
  | Response h _ => HTTPStatusError h
  | ConnectError m => OtherError "httpx" "ConnectError" m
  | ConnectTimeout m => OtherError "httpx" "ConnectTimeout" m
  | PoolTimeout m => OtherError "httpx" "PoolTimeout" m
  | ReadTimeout m => OtherError "httpx" "ReadTimeout" m
  | RequestFailed e => e
  end.

Definition DEFAULT_RETRY_HTTP_STATUS_CODES : list Z := [503%Z].

(** [response.is_success] *)
Definition is_success (h : http_error) : bool := ((200 <=? he_status h) && (he_status h <=? 299))%Z.

Definition raise_for_status (h : http_error) : http_error + dexn :=
  if is_success h then inl h else inr (HTTPStatusError h).

Section Retry.
Context `{PyText}.
Variable random : nat -> float.                (* [random.random()] of each wait *)
Variable http_date : string -> option float.   (* seconds until a date of an HTTP header *)
Variable cfg : RetryConfig.

(** [delay + random.uniform(0.0, delay * jitter_fraction)] *)
Definition _jittered_delay (delay : float) (k : nat) : float :=
  if fleb delay f0 || fleb (jitter_fraction cfg) f0 then delay
  else fadd delay (fadd f0 (fmul (fsub (fmul delay (jitter_fraction cfg)) f0) (random k))).

Definition _next_delay (delay : float) : float :=
  if fltb f0 (max_delay cfg)
  then fmin (if fltb f0 delay then fmul delay (f_of_Z 2) else initial_delay cfg) (max_delay cfg)
  else f0.

Definition first_delay : float :=
  if fltb f0 (max_delay cfg) then fmin (initial_delay cfg) (max_delay cfg) else f0.

Definition _parse_retry_after_seconds (value : option string) : option float :=
  match value with
  | None => None
  | Some v =>
      let raw := strip v in
      if String.eqb raw "" then None
      else match py_parse_float raw with
           | Some f => Some (fmax f f0)
           | None => (fun s => fmax s f0) <$> http_date raw
           end
  end.

Definition _retry_after_or_jittered_delay (retry_after : option string) (delay : float) (k : nat) : float :=
  match _parse_retry_after_seconds retry_after with
  | Some r => if fltb f0 (max_delay cfg) then fmin r (max_delay cfg) else r
  | None => _jittered_delay delay k
  end.

(** The connection failures that are retried; a read timeout only of a GET. *)
Definition retried_failure (get : bool) (a : attempt) : bool :=
  match a with
  | ConnectError _ | ConnectTimeout _ | PoolTimeout _ => true
  | ReadTimeout _ => get
  | _ => false
  end.

Definition pause (sleep_for : float) : list float := if fltb f0 sleep_for then [sleep_for] else [].

(** The loop of [post_json_with_retry] and [get_json_with_retry] with [n] attempts left,
    from attempt [k]: the result, and the waits. *)
Fixpoint retry_loop (get : bool) (statuses : list Z) (answers : nat -> attempt) (n k : nat)
    (delay : float) : (http_error + dexn) * list float :=
  match n with
  | O => (inr (PyExn (RuntimeError "unreachable blackbox HTTP retry loop exit")), [])
  | S n' =>
      let again sleep_for :=
        let '(r, sleeps) := retry_loop get statuses answers n' (S k) (_next_delay delay) in
        (r, pause sleep_for ++ sleeps) in
      match answers k with
      | Response h retry_after =>
          if bool_decide (he_status h ∈ statuses)
          then match n', raise_for_status h with
               | O, inr e => (inr e, [])
               | _, _ => again (_retry_after_or_jittered_delay retry_after delay k)
               end
          else (raise_for_status h, [])
      | a => if retried_failure get a
             then match n' with
                  | O => (inr (attempt_error a), [])
                  | _ => again (_jittered_delay delay k)
                  end
             else (inr (attempt_error a), [])
      end
  end.

Definition request_with_retry (get : bool) (answers : nat -> attempt) : (http_error + dexn) * list float :=
  retry_loop get DEFAULT_RETRY_HTTP_STATUS_CODES answers (Z.to_nat (max_attempts cfg)) 0 first_delay.

Definition post_json_with_retry := request_with_retry false.
Definition get_json_with_retry := request_with_retry true.
End Retry.

(** ** Turns ([client.py]) *)

Section Client.
Context `{PyText}.
Variable env : string -> option string.
Variable json_text : pyval -> string.          (* the body [httpx.Response(json=...)] has *)

Definition _TURN_ERROR_STATES : list string := ["failed"; "unknown"; "cancelled"].
Definition _TURN_COMMITTED : string := "committed".

(** [response.json()] that must be a dictionary: it is read by [get]. *)
Definition response_dict (h : http_error) : dict + dexn :=
  match he_json h with
  | Some (PDict d) => inl d
  | Some _ => inr (PyExn (AttributeError "get"))
  | None => inr (PyExn (ValueError "Expecting value"))
  end.

Definition _committed_call_payload (data : dict) (idempotent_replay : bool) : pyval :=
  PDict [("request_id", dget_def (PStr "") data "request_id");
         ("session_id", pget data "session_id"); ("instance_id", pget data "instance_id");
         ("turn_id", pget data "turn_id"); ("state", pget data "state");
         ("idempotent_replay", PBool idempotent_replay);
         ("outputs", py_or (pget data "outputs") (PList []));
         ("backend", pget data "backend"); ("usage", pget data "usage")].

(** The error of a failed turn, as an HTTP error. *)
Definition _raise_turn_error (data : dict) (url : string) : dexn :=
  let error := match pget data "error" with PDict e => e | _ => [] end in
  match py_int (py_or (pget error "http_status") (PInt 502)) with
  | Raise x => PyExn x
  | Ok status =>
      let code := dget_def (PStr "backend_error") error "error" in
      let body := PDict [("error", code);
                         ("message", dget_def (PStr "blackbox turn failed") error "message");
                         ("details", match pget error "details" with PDict d => PDict d | _ => PDict [] end)] in
      HTTPStatusError
        {| he_message := "blackbox turn " +:+ py_str code +:+ " (HTTP " +:+ str_of_Z status +:+ ")";
           he_method := "GET"; he_url := url; he_request_headers := []; he_request_body := None;
           he_status := status; he_reason := ""; he_headers := []; he_text := json_text body;
           he_json := Some body |}
  end.

(** One poll that was answered: [None] goes on polling. *)
Definition poll_answer (data : dict) (url : string) (idempotent_replay : bool) : option (pyval + dexn) :=
  let status := py_str (py_or (pget data "status") (PStr "")) in
  if String.eqb status _TURN_COMMITTED then Some (inl (_committed_call_payload data idempotent_replay))
  else if bool_decide (status ∈ _TURN_ERROR_STATES) then Some (inr (_raise_turn_error data url))
  else None.

(** [_poll_turn]: [answers] are the outcomes of the retried GET requests and [clock] the
    time before each; [None] when the fuel runs out. *)
Fixpoint poll_loop (fuel : nat) (deadline : option float) (clock : nat -> float)
    (answers : nat -> http_error + dexn) (url : string) (replay : bool) (k : nat) : option (pyval + dexn) :=
  match fuel with
  | O => None
  | S fuel' =>
      if match deadline with Some t => fleb t (clock k) | None => false end
      then Some (inr (OtherError "builtins" "TimeoutError" "blackbox turn poll exceeded total timeout"))
      else match answers k with
           | inr e => Some (inr e)
           | inl h =>
               match response_dict h with
               | inr e => Some (inr e)
               | inl data =>
                   match poll_answer data url replay with
                   | Some r => Some r
                   | None => poll_loop fuel' deadline clock answers url replay (S k)
                   end
               end
           end
  end.

(** [start] is the clock when polling begins. *)
Definition _poll_turn (fuel : nat) (start : float) (clock : nat -> float)
    (answers : nat -> http_error + dexn) (url : string) (replay : bool) : option (pyval + dexn) :=
  let total := _env_float env "DRESSAGE_BLACKBOX_AGENT_POLL_TOTAL_TIMEOUT_SEC" f0 f0 in
  let deadline := if fltb f0 total then Some (fadd start total) else None in
  poll_loop fuel deadline clock answers url replay 0.

(** [call_agent] once the turn was submitted. *)
Definition call_agent (fuel : nat) (submit : http_error + dexn) (start : float) (clock : nat -> float)
    (answers : nat -> http_error + dexn) (url : string) : option (pyval + dexn) :=
  match submit with
  | inr e => Some (inr e)
  | inl h =>
      if String.eqb (_resolve_call_mode env) "sync"
      then Some (match he_json h with
                 | Some v => inl v
                 | None => inr (PyExn (ValueError "Expecting value"))
                 end)
      else match response_dict h with
           | inr e => Some (inr e)
           | inl d => _poll_turn fuel start clock answers url
                        (py_truth (dget_def (PBool false) d "idempotent_replay"))
           end
  end.
End Client.

(** ** Facts *)

Section RetryFacts.
Context `{PyText}.
Variable random : nat -> float.
Variable http_date : string -> option float.
Variable cfg : RetryConfig.

(** An answer that is retried while attempts are left, and what the last one gives. *)
Definition retryable (get : bool) (statuses : list Z) (a : attempt) : bool :=
  match a with
  | Response h _ => bool_decide (he_status h ∈ statuses)
  | _ => retried_failure get a
  end.

Definition attempt_result (a : attempt) : http_error + dexn :=
  match a with Response h _ => raise_for_status h | _ => inr (attempt_error a) end.

(** A wait is a base delay, or one with its jitter, and no base delay exceeds the limit. *)
Definition wait_ok (w : float) : Prop :=
  fltb f0 w = true /\
  (fltb f0 (max_delay cfg) = true ->
   exists d k, fltb (max_delay cfg) d = false /\ (w = d \/ w = _jittered_delay random cfg d k)).

Lemma fmin_le a b : fltb b (fmin a b) = false.
Proof using. unfold fmin. destruct (fltb b a) eqn:E; [apply fltb_irrefl|done]. Qed.

Lemma next_delay_le d : fltb f0 (max_delay cfg) = true -> fltb (max_delay cfg) (_next_delay cfg d) = false.
Proof using. intros E. unfold _next_delay. rewrite E. apply fmin_le. Qed.

Lemma pause_ok w : (fltb f0 (max_delay cfg) = true ->
    exists d k, fltb (max_delay cfg) d = false /\ (w = d \/ w = _jittered_delay random cfg d k)) ->
  Forall wait_ok (pause w).
Proof using. intros E. unfold pause. destruct (fltb f0 w) eqn:P; repeat constructor; done. Qed.

Lemma jittered_ok d k : (fltb f0 (max_delay cfg) = true -> fltb (max_delay cfg) d = false) ->
  Forall wait_ok (pause (_jittered_delay random cfg d k)).
Proof using. intros E. apply pause_ok. intros M. exists d, k. auto. Qed.

Lemma retry_after_ok ra d k : (fltb f0 (max_delay cfg) = true -> fltb (max_delay cfg) d = false) ->
  Forall wait_ok (pause (_retry_after_or_jittered_delay random http_date cfg ra d k)).
Proof using.
  intros E. unfold _retry_after_or_jittered_delay.
  destruct (_parse_retry_after_seconds http_date ra) as [r|]; [|by apply jittered_ok].
  apply pause_ok. intros M. rewrite M. exists (fmin r (max_delay cfg)), 0%nat. split; [apply fmin_le|by left].
Qed.

Lemma pause_length w : (length (pause w) <= 1)%nat.
Proof using. unfold pause. destruct (fltb f0 w); simpl; lia. Qed.

(** The loop ends with the first answer that is not retried, or with the last one. *)
Lemma retry_loop_spec get statuses answers n : forall k delay,
  (forall h, he_status h ∈ statuses -> is_success h = false) ->
  (fltb f0 (max_delay cfg) = true -> fltb (max_delay cfg) delay = false) ->
  let '(r, sleeps) := retry_loop random http_date cfg get statuses answers (S n) k delay in
  exists j, (j <= n)%nat /\ r = attempt_result (answers (k + j)%nat) /\
    (forall i, (i < j)%nat -> retryable get statuses (answers (k + i)%nat) = true) /\
    (j = n \/ retryable get statuses (answers (k + j)%nat) = false) /\
    (length sleeps <= j)%nat /\ Forall wait_ok sleeps.
Proof using.
  induction n as [|n IH]; intros k delay Hs Hd; cbn [retry_loop].
  - assert (Last : forall r, r = attempt_result (answers k) ->
        exists j, (j <= 0)%nat /\ r = attempt_result (answers (k + j)%nat) /\
          (forall i, (i < j)%nat -> retryable get statuses (answers (k + i)%nat) = true) /\
          (j = 0%nat \/ retryable get statuses (answers (k + j)%nat) = false) /\
          (length (@nil float) <= j)%nat /\ Forall wait_ok []).
    { intros r ->. exists 0%nat. rewrite Nat.add_0_r. split_and!; auto using Forall_nil_2; intros; lia. }
    destruct (answers k) as [h ra|m|m|m|m|e] eqn:A; cbn [retried_failure].
    2-6: try destruct get; by apply Last.
    unfold attempt_result, raise_for_status in *.
    case_bool_decide as D; [rewrite (Hs _ D) in *|]; by apply Last.
  - assert (Go : forall sleep_for, retryable get statuses (answers k) = true ->
        Forall wait_ok (pause sleep_for) ->
        let '(r, sleeps) := (let '(r, sleeps) := retry_loop random http_date cfg get statuses answers (S n)
                                (S k) (_next_delay cfg delay) in (r, pause sleep_for ++ sleeps)) in
        exists j, (j <= S n)%nat /\ r = attempt_result (answers (k + j)%nat) /\
          (forall i, (i < j)%nat -> retryable get statuses (answers (k + i)%nat) = true) /\
          (j = S n \/ retryable get statuses (answers (k + j)%nat) = false) /\
          (length sleeps <= j)%nat /\ Forall wait_ok sleeps).
    { intros sf R P. specialize (IH (S k) (_next_delay cfg delay) Hs (next_delay_le delay)).
      destruct (retry_loop _ _ _ _ _ _ _ _ _) as [r sleeps]. destruct IH as (j & L & E & F & Z & Ls & Fs).
      exists (S j). rewrite !Nat.add_succ_r. split; [lia|]. split; [done|]. split.
      - intros [|i] Li; [by rewrite Nat.add_0_r|]. rewrite Nat.add_succ_r. apply F. lia.
      - split; [destruct Z as [->|Z]; [by left|by right]|]. split; [|by apply Forall_app].
        rewrite length_app. pose proof (pause_length sf). lia. }
    assert (Stop : retryable get statuses (answers k) = false -> forall r, r = attempt_result (answers k) ->
        exists j, (j <= S n)%nat /\ r = attempt_result (answers (k + j)%nat) /\
          (forall i, (i < j)%nat -> retryable get statuses (answers (k + i)%nat) = true) /\
          (j = S n \/ retryable get statuses (answers (k + j)%nat) = false) /\
          (length (@nil float) <= j)%nat /\ Forall wait_ok []).
    { intros R r ->. exists 0%nat. rewrite Nat.add_0_r. split_and!; auto using Forall_nil_2; intros; lia. }
    destruct (answers k) as [h ra|m|m|m|m|e] eqn:A; cbn [retried_failure] in *.
    + case_bool_decide as D; [|apply Stop; [cbn [retryable]; by apply bool_decide_eq_false_2|done]].
      apply Go; [cbn [retryable]; by apply bool_decide_eq_true_2|by apply retry_after_ok].
    + apply Go; [done|by apply jittered_ok].
    + apply Go; [done|by apply jittered_ok].
    + apply Go; [done|by apply jittered_ok].
    + destruct get; [apply Go; [done|by apply jittered_ok]|by apply Stop].
    + by apply Stop.
Qed.
End RetryFacts.

Section ClientFacts.
Context `{PyText}.
Variable env : string -> option string.

Lemma env_int_min name def m : (m <= def)%Z -> (m <= _env_int env name def m)%Z.
Proof using.
  intros L. unfold _env_int. destruct (env name) as [[|c s]|]; try done.
  destruct (parse_int _) as [z|]; [|done]. destruct (Z.ltb_spec z m); lia.
Qed.

Lemma retry_config_attempts : (1 <= max_attempts (_retry_config env))%Z.
Proof using. unfold _retry_config. cbn [max_attempts]. by repeat apply env_int_min. Qed.

(** A request is made at least once and at most [max_attempts] times, whatever the
    environment configures: every attempt before the last one failed to connect or was
    answered 503 (a GET is also retried when reading times out), the result is that of the
    last attempt, and it is either final or the last one allowed.  Each wait is positive
    and starts from a delay within the configured limit. *)
Theorem request_retried random http_date get answers :
  let cfg := _retry_config env in
  let '(r, sleeps) := request_with_retry random http_date cfg get answers in
  exists j, (Z.of_nat j < max_attempts cfg)%Z /\ r = attempt_result (answers j) /\
    (forall i, (i < j)%nat -> retryable get [503%Z] (answers i) = true) /\
    ((Z.of_nat j + 1)%Z = max_attempts cfg \/ retryable get [503%Z] (answers j) = false) /\
    (length sleeps <= j)%nat /\ Forall (wait_ok random cfg) sleeps.
Proof using.
  intros cfg. unfold request_with_retry. pose proof retry_config_attempts as L. fold cfg in L.
  destruct (Z.to_nat (max_attempts cfg)) as [|n] eqn:N; [lia|].
  pose proof (retry_loop_spec random http_date cfg get DEFAULT_RETRY_HTTP_STATUS_CODES answers n 0
                (first_delay cfg)) as T.
  destruct (retry_loop _ _ _ _ _ _ _ _ _) as [r sleeps]. destruct T as (j & Lj & E & F & Z & W).
  - intros h Hs. apply list_elem_of_singleton in Hs. unfold is_success. rewrite Hs. done.
  - intros M. unfold first_delay. rewrite M. apply fmin_le.
  - exists j. split; [lia|]. split; [done|]. split; [done|]. split; [|done].
    destruct Z as [->|Z]; [left; lia|by right].
Qed.

(** ** Turns *)

Variable json_text : pyval -> string.

(** A poll that ends the wait, and the others. *)
Definition settles (a : http_error + dexn) (url : string) (replay : bool) : option (pyval + dexn) :=
  match a with
  | inr e => Some (inr e)
  | inl h => match response_dict h with
             | inr e => Some (inr e)
             | inl data => poll_answer json_text data url replay
             end
  end.

Lemma poll_loop_skip deadline clock answers url replay j : forall fuel k,
  (forall i, (i < j)%nat -> settles (answers (k + i)%nat) url replay = None /\
     match deadline with Some t => fleb t (clock (k + i)%nat) = false | None => True end) ->
  poll_loop json_text (j + fuel) deadline clock answers url replay k =
    poll_loop json_text fuel deadline clock answers url replay (k + j).
Proof using.
  induction j as [|j IH]; intros fuel k F; [by rewrite Nat.add_0_r|].
  destruct (F 0%nat ltac:(lia)) as [S0 D0]. rewrite Nat.add_0_r in S0, D0.
  cbn [Nat.add poll_loop]. unfold settles in S0.
  assert (D : match deadline with Some t => fleb t (clock k) | None => false end = false)
    by (by destruct deadline).
  rewrite D. destruct (answers k) as [h|e]; [|done]. destruct (response_dict h) as [data|e]; [|done].
  rewrite S0. rewrite IH; [by rewrite Nat.add_succ_r|].
  intros i Li. specialize (F (S i) ltac:(lia)). by rewrite Nat.add_succ_r in F.
Qed.

(** Polling ends with the first answer that settles the turn, or with [TimeoutError] at the
    first poll after the deadline, whichever comes first. *)
Theorem poll_settles deadline clock answers url replay j :
  (forall i, (i < j)%nat -> settles (answers i) url replay = None /\
     match deadline with Some t => fleb t (clock i) = false | None => True end) ->
  match deadline with
  | Some t => if fleb t (clock j) then True else settles (answers j) url replay <> None
  | None => settles (answers j) url replay <> None
  end ->
  forall fuel, (j < fuel)%nat ->
  poll_loop json_text fuel deadline clock answers url replay 0 =
    if match deadline with Some t => fleb t (clock j) | None => false end
    then Some (inr (OtherError "builtins" "TimeoutError" "blackbox turn poll exceeded total timeout"))
    else settles (answers j) url replay.
Proof using.
  intros F Sj fuel L. replace fuel with (j + S (fuel - j - 1))%nat by lia.
  rewrite poll_loop_skip by (intros i Li; by apply F). cbn [Nat.add poll_loop].
  destruct (match deadline with Some t => fleb t (clock j) | None => false end) eqn:D; [done|].
  assert (Se : settles (answers j) url replay <> None).
  { destruct deadline as [t|]; [by rewrite D in Sj|done]. }
  unfold settles in *. destruct (answers j) as [h|e]; [|done]. destruct (response_dict h) as [data|e]; [|done].
  by destruct (poll_answer json_text data url replay).
Qed.

End ClientFacts.

(** ** Witnesses *)

#[local] Instance w_client_text : PyText := {| py_repr := fun _ => ""; py_parse_float := fun _ => None |}.

Definition w_turn (status : string) (error : dict) : http_error :=
  {| he_message := ""; he_method := "GET"; he_url := "u"; he_request_headers := [];
     he_request_body := None; he_status := 200; he_reason := ""; he_headers := []; he_text := "";
     he_json := Some (PDict [("status", PStr status); ("error", PDict error)]) |}.

Definition w_polls (k : nat) : http_error + dexn :=
  inl (match k with
       | 0 => w_turn "queued" []
       | 1 => w_turn "inflight" []
       | _ => w_turn "failed" [("error", PStr "context_overflow"); ("http_status", PInt 409)]
       end).

(** The third answer settles the turn before the deadline. *)
Lemma poll_settles_witness :
  poll_loop (fun _ => "") 9 (Some (f_of_Z 60)) (fun k => f_of_Z (Z.of_nat k)) w_polls "u" false 0 =
    settles (fun _ => "") (w_polls 2) "u" false.
Proof.
  apply (poll_settles (fun _ => "") (Some (f_of_Z 60)) (fun k => f_of_Z (Z.of_nat k)) w_polls "u" false 2).
  - intros [|[|i]] L; [split; reflexivity..|lia].
  - discriminate.
  - lia.
Defined.

(** Two refused connections and a 503 with [Retry-After], then a success. *)
Definition w_attempts (k : nat) : attempt :=
  match k with
  | 0 | 1 => ConnectError "refused"
  | 2 => Response {| he_message := ""; he_method := "POST"; he_url := "u"; he_request_headers := [];
                     he_request_body := None; he_status := 503; he_reason := ""; he_headers := [];
                     he_text := ""; he_json := None |} (Some "3")
  | _ => Response (w_turn "queued" []) None
  end.

Definition w_retry_text : PyText :=
  {| py_repr := fun _ => ""; py_parse_float := fun _ => Some (f_of_Z 3) |}.

Definition w_retry_config : RetryConfig :=
  {| max_attempts := 6; initial_delay := f_of_Z 1; max_delay := f_of_Z 10; jitter_fraction := f0 |}.

Example retried_three_times :
  @request_with_retry w_retry_text (fun _ => f0) (fun _ => None) w_retry_config false w_attempts =
    (inl (w_turn "queued" []), [f_of_Z 1; f_of_Z 2; f_of_Z 3]).
Proof. vm_compute. reflexivity. Qed.
