(* ===== verification/Config.v ===== *)
(** * Runtime defaults ([dressage/config/config.py])

    Addresses, modes and model defaults from the environment [env]; an empty variable
    counts as unset.  The host name lookup is an argument. *)

From S2P Require Import Prelude.
From S2P Require Import PyVal.
From S2P Require Import Rewards.

From Stdlib Require Import Ascii.

Local Open Scope string_scope.
Local Open Scope list_scope.
Local Open Scope py_scope.

Definition DEFAULT_PROXY_PORT : Z := 8800.
Definition DEFAULT_SGLANG_ROUTER_PORT : Z := 8000.
Definition DEFAULT_PADDOCK_MODE : string := "blackbox".
Definition DEFAULT_SANDBOX_PROVIDER : string := "local_bwrap".
Definition DEFAULT_LOCAL_BWRAP_NAMESPACE : string := "dressage".
Definition DEFAULT_LOCAL_BWRAP_MANAGER_NAME : string := "dressage_local_bwrap_manager".
Definition DEFAULT_TOKEN_BUILD_MODEL : string := "qwen3_5".

Record TokenBuildDefaults : Type := {
  model_mask_type : option string;
  model_tool_call_type : option string;
  model_reasoning_type : option string;
  tito_model : option string }.

Section Config.
Variable env : string -> option string.
Variable resolved_host : option string.   (* [gethostbyname(gethostname())], if it succeeds *)

(** [os.environ.get(name) or default] *)
Definition env_or (name default_value : string) : string := default default_value (str_or (env name) None).

Definition run_name (default_name : string) : string := env_or "DRESSAGE_RUN_NAME" default_name.

Definition _env_choice (name default_value : string) : string :=
  match str_or (env name) None with
  | None => default_value
  | Some value => lower (strip value)
  end.

Definition _env_int (name : string) (default_value : Z) : result Z :=
  match str_or (env name) None with
  | None => Ok default_value
  | Some value => match parse_int value with
                  | Some z => Ok z
                  | None => Raise (ValueError "must be an integer")
                  end
  end.

Definition proxy_port : result Z := _env_int "PROXY_PORT" DEFAULT_PROXY_PORT.

Definition master_addr : string :=
  env_or "MASTER_ADDR" (default "127.0.0.1" (str_or resolved_host None)).

(** [f"http://{host}:{port}"], unless the variable [name] gives the whole URL. *)
Definition service_url (name host_name port_name : string) (default_port : Z) : result string :=
  match str_or (env name) None with
  | Some value => Ok value
  | None => let! port := _env_int port_name default_port in
            Ok ("http://" +:+ env_or host_name master_addr +:+ ":" +:+ str_of_Z port)
  end.

Definition proxy_url : result string :=
  service_url "DRESSAGE_PROXY_URL" "PROXY_PUBLIC_HOST" "PROXY_PORT" DEFAULT_PROXY_PORT.

Definition proxy_local_url : result string := proxy_url.
Definition proxy_public_url : result string := proxy_url.

Definition sglang_router_url : result string :=
  service_url "SGLANG_ROUTER_URL" "SGLANG_ROUTER_HOST" "SGLANG_ROUTER_PORT" DEFAULT_SGLANG_ROUTER_PORT.

Definition paddock_mode : string := _env_choice "DRESSAGE_PADDOCK_MODE" DEFAULT_PADDOCK_MODE.

Definition sandbox_provider : string := _env_choice "DRESSAGE_SANDBOX_PROVIDER" DEFAULT_SANDBOX_PROVIDER.

Definition local_bwrap_pool_mode (mode : option string) : string :=
  match str_or (env "DRESSAGE_LOCAL_BWRAP_POOL_MODE") None with
  | Some value => lower (strip value)
  | None => if String.eqb (lower (strip (default paddock_mode (str_or mode None)))) "whitebox"
            then "command_only" else "blackbox"
  end.

Definition local_bwrap_namespace : string :=
  env_or "DRESSAGE_LOCAL_BWRAP_RAY_NAMESPACE" DEFAULT_LOCAL_BWRAP_NAMESPACE.

Definition local_bwrap_manager_name : string :=
  env_or "DRESSAGE_LOCAL_BWRAP_MANAGER_NAME" DEFAULT_LOCAL_BWRAP_MANAGER_NAME.

Definition token_build_defaults (token_build_mode : string) (token_build_model : option string)
    : result TokenBuildDefaults :=
  let model := lower (strip (default DEFAULT_TOKEN_BUILD_MODEL (str_or token_build_model None))) in
  check! negb (bool_decide (model ∈ ["qwen3_5"; "qwen3_6"])) else ValueError "unsupported token_build_model=" ;;
  Ok {| model_mask_type := Some "qwen3_5"; model_tool_call_type := Some "qwen3_5";
        model_reasoning_type := Some "qwen3";
        tito_model := if String.eqb token_build_mode "tito" then Some model else None |}.
End Config.

(** ** Paddocks from the environment ([paddock/factory.py], [generate/runtime.py]) *)

(** What a paddock is made from. *)
Inductive paddock_kind : Type :=
| PaddockClass (module_path attr : string)
| BlackboxAgentPaddock
| WhiteboxToolPaddock.

(** [path.rpartition(".")] with a module part *)
Fixpoint rpartition_dot (s : string) : option (string * string) :=
  match s with
  | EmptyString => None
  | String c s' => match rpartition_dot s' with
                   | Some (a, b) => Some (String c a, b)
                   | None => if bool_decide (c = "."%char) then Some (EmptyString, s') else None
                   end
  end.

Definition load_object (path : string) : result paddock_kind :=
  match rpartition_dot path with
  | None | Some (EmptyString, _) => Raise (ValueError "invalid object path: ")
  | Some (m, attr) => Ok (PaddockClass m attr)
  end.

Section Factory.
Variable env : string -> option string.

Definition create_paddock_from_env (mode : option string) : result paddock_kind :=
  match str_or (env "DRESSAGE_PADDOCK_CLASS") None with
  | Some path => load_object path
  | None =>
      let mode := lower (strip (default (paddock_mode env)
                                  (str_or mode (str_or (env "DRESSAGE_PADDOCK_MODE") None)))) in
      if String.eqb mode "blackbox" then Ok BlackboxAgentPaddock
      else if String.eqb mode "whitebox" then Ok WhiteboxToolPaddock
      else Raise (ValueError "unsupported DRESSAGE_PADDOCK_MODE=")
  end.

(** [_PADDOCK] and [_PADDOCK_BY_MODE]; a paddock is the number of its creation. *)
Record PaddockCache : Type := {
  _PADDOCK : option (nat * paddock_kind);
  _PADDOCK_BY_MODE : list (string * string * (nat * paddock_kind));
  created : nat }.

Definition get_paddock_from_env (allow_whitebox_mode : bool) (mode : option string) (c : PaddockCache)
    : result ((nat * paddock_kind) * PaddockCache) :=
  match _PADDOCK c with
  | Some p => Ok (p, c)
  | None =>
      let class_path := str_or (env "DRESSAGE_PADDOCK_CLASS") None in
      let m := lower (strip (default "blackbox" (str_or mode (str_or (env "DRESSAGE_PADDOCK_MODE") None)))) in
      check! match class_path with None => negb allow_whitebox_mode && String.eqb m "whitebox" | _ => false end
        else ValueError "blackbox_dispatch does not support whitebox mode" ;;
      match mode with
      | None =>
          let! k := create_paddock_from_env None in
          let p := (created c, k) in
          Ok (p, {| _PADDOCK := Some p; _PADDOCK_BY_MODE := _PADDOCK_BY_MODE c; created := S (created c) |})
      | Some _ =>
          let key := (default "" class_path, m) in
          match dget (_PADDOCK_BY_MODE c) key with
          | Some p => Ok (p, c)
          | None =>
              let! k := create_paddock_from_env (Some m) in
              let p := (created c, k) in
              Ok (p, {| _PADDOCK := None; _PADDOCK_BY_MODE := dset (_PADDOCK_BY_MODE c) key p;
                        created := S (created c) |})
          end
      end
  end.
End Factory.

(** A request is answered by the same paddock when it is repeated. *)
Lemma paddock_cached env allow mode c p c' : get_paddock_from_env env allow mode c = Ok (p, c') ->
  get_paddock_from_env env allow mode c' = Ok (p, c').
Proof.
  unfold get_paddock_from_env. destruct (_PADDOCK c) as [q|] eqn:E; [intros [= <- <-]; by rewrite E|].
  destruct (raise_if _ _) as [[]|]; [|done]. cbn [res_bind]. destruct mode as [md|].
  - destruct (dget (_PADDOCK_BY_MODE c) _) as [q|] eqn:D; [intros [= <- <-]; rewrite E; by rewrite D|].
    destruct (create_paddock_from_env env _) as [k|]; [|done]. intros [= <- <-]. cbn.
    by rewrite dget_dset_eq.
  - destruct (create_paddock_from_env env None) as [k|]; [|done]. by intros [= <- <-].
Qed.
