(* ===== verification/Paddock.v ===== *)
(** * The blackbox paddock ([dressage/paddock/blackbox/paddock.py], [paddock/lifecycle.py],
    [paddock/factory.py], [common/utils.py])

    A paddock owns the sandbox leases its provider has created: [init] creates one and
    keeps it when the sandbox answers, every other way out of [init] hands it to a
    lifecycle task, and [terminate] gives it back.  [init] awaits in three places, where
    other calls run and where it may be cancelled; [step] takes one such turn.  What the
    provider and the sandbox answer is part of the action. *)

From S2P Require Import Prelude.
From S2P Require Import PyFloat.
From S2P Require Import PyVal.
From S2P Require Import Samples.
From S2P Require Import DataSource.
From S2P Require Import Backend.
From S2P Require Import ExecuteCmds.

From Stdlib Require Import Ascii.

Local Open Scope string_scope.
Local Open Scope list_scope.
Local Open Scope py_scope.

(** ** URLs a sandbox can reach ([common/utils.py]) *)

(** The text before and after the first character that satisfies [p]. *)
Fixpoint split_at (p : ascii -> bool) (s : string) : string * option (ascii * string) :=
  match s with
  | EmptyString => (EmptyString, None)
  | String c s' => if p c then (EmptyString, Some (c, s'))
                   else let '(a, r) := split_at p s' in (String c a, r)
  end.

(** The text after the last [c]; all of it when there is none. *)
Fixpoint after_last (c : ascii) (s : string) : string :=
  match s with
  | EmptyString => EmptyString
  | String x s' => if has_char c s' then after_last c s'
                   else if bool_decide (x = c) then s' else s
  end.

Fixpoint all_chars (p : ascii -> bool) (s : string) : bool :=
  match s with EmptyString => true | String c s' => p c && all_chars p s' end.

Fixpoint filter_chars (p : ascii -> bool) (s : string) : string :=
  match s with
  | EmptyString => EmptyString
  | String c s' => if p c then String c (filter_chars p s') else filter_chars p s'
  end.

Definition is_alpha (c : ascii) : bool :=
  let n := N_of_ascii c in ((65 <=? n) && (n <=? 90) || (97 <=? n) && (n <=? 122))%N.

Definition scheme_char (c : ascii) : bool :=
  is_alpha c || match digit_val c with Some _ => true | None => false end ||
  bool_decide (c ∈ ["+"; "-"; "."]%char).

(** Leading control characters and blanks go, and tabs and line ends everywhere. *)
Fixpoint lstrip_control (s : string) : string :=
  match s with
  | EmptyString => EmptyString
  | String c s' => if (N_of_ascii c <=? 32)%N then lstrip_control s' else s
  end.

Definition url_clean (s : string) : string :=
  filter_chars (fun c => negb (bool_decide (c ∈ ["009"; "010"; "013"]%char))) (lstrip_control s).

(** [urlsplit]: the scheme, and what follows it. *)
Definition split_scheme (s : string) : string * string :=
  match split_at (fun c => bool_decide (c = ":"%char)) s with
  | (String c a, Some (_, rest)) =>
      if is_alpha c && all_chars scheme_char a then (lower (String c a), rest) else ("", s)
  | _ => ("", s)
  end.

Definition netloc (rest : string) : string :=
  match rest with
  | String "/" (String "/" r) => fst (split_at (fun c => bool_decide (c ∈ ["/"; "?"; "#"]%char)) r)
  | _ => ""
  end.

(** [SplitResult.hostname] *)
Definition hostname (loc : string) : option string :=
  let info := after_last "@" loc in
  let host := match split_at (fun c => bool_decide (c = "["%char)) info with
              | (_, Some (_, bracketed)) => fst (split_at (fun c => bool_decide (c = "]"%char)) bracketed)
              | (h, None) => fst (split_at (fun c => bool_decide (c = ":"%char)) h)
              end in
  if String.eqb host "" then None
  else Some (match split_at (fun c => bool_decide (c = "%"%char)) host with
             | (h, Some (c, zone)) => lower h +:+ String c zone
             | (h, None) => lower h
             end).

(** [urlparse(url).scheme] and [.hostname]; unbalanced brackets raise. *)
Definition urlparse (url : string) : result (string * option string) :=
  let '(scheme, rest) := split_scheme (url_clean url) in
  let loc := netloc rest in
  check! xorb (has_char "[" loc) (has_char "]" loc) else ValueError "Invalid IPv6 URL" ;;
  Ok (scheme, hostname loc).

Definition LOCAL_PROXY_HOSTS : list string := ["localhost"; "127.0.0.1"; "0.0.0.0"; "::1"].

Definition _validate_public_proxy_url (value : string) : result string :=
  let url := rstrip_slash value in
  let! parsed := urlparse url in
  match parsed with
  | (scheme, Some host) =>
      check! negb (bool_decide (scheme ∈ ["http"; "https"]))
        else ValueError "DRESSAGE_PROXY_URL must be an http(s) URL with a host" ;;
      check! bool_decide (lower host ∈ LOCAL_PROXY_HOSTS) || String.prefix "127." (lower host)
        else ValueError "DRESSAGE_PROXY_URL must be reachable from the sandbox" ;;
      Ok url
  | _ => Raise (ValueError "DRESSAGE_PROXY_URL must be an http(s) URL with a host")
  end.

(** [default_url] is [dressage.config.proxy_url()]. *)
Definition _require_public_proxy_url (proxy_public_url : option string) (default_url : string)
    : result string :=
  let value := match proxy_public_url with
               | None | Some "" => default_url
               | Some v => v
               end in
  check! String.eqb value "" else ValueError "DRESSAGE_PROXY_URL must be set" ;;
  _validate_public_proxy_url value.

(** ** Leases and states ([dressage/sandbox/types.py], [common/state.py]) *)

Record SandboxEndpoint : Type := { ep_url : string; ep_headers : list (string * string) }.

Definition normalized (e : SandboxEndpoint) : SandboxEndpoint :=
  {| ep_url := rstrip_slash (ep_url e); ep_headers := ep_headers e |}.

(** [lease_id] is the identity of the object. *)
Record SandboxLease : Type := {
  lease_id : nat;
  lease_trajectory_id : string;
  lease_provider : string;
  lease_sandbox_id : option string;
  lease_endpoints : list (string * SandboxEndpoint);
  lease_metadata : dict }.

Record SandboxState : Type := {
  st_trajectory_id : string;
  sandbox_url : string;
  sandbox_id : option string;
  raw_register_response : dict }.

Definition with_endpoint (name : string) (e : SandboxEndpoint) (l : SandboxLease) : SandboxLease :=
  {| lease_id := lease_id l; lease_trajectory_id := lease_trajectory_id l;
     lease_provider := lease_provider l; lease_sandbox_id := lease_sandbox_id l;
     lease_endpoints := dset (lease_endpoints l) name e; lease_metadata := lease_metadata l |}.

(** The [SandboxState] of a lease whose blackbox endpoint is [e]. *)
Definition state_of (traj : string) (l : SandboxLease) (e : SandboxEndpoint) : SandboxState :=
  {| st_trajectory_id := traj; sandbox_url := ep_url e; sandbox_id := lease_sandbox_id l;
     raw_register_response :=
       [("provider", PStr (lease_provider l)); ("sandbox_id", opt_pyval (lease_sandbox_id l));
        ("metadata", PDict (lease_metadata l));
        ("endpoints", PDict (map (fun ke => (fst ke, PStr (ep_url (snd ke)))) (lease_endpoints l)))] |}.

(** ** Configuration *)

Section Paddock.
Context `{PyText}.
Variable env : string -> option string.
Variable provider_name : string.

Definition _provider_blackbox_port_env : option string :=
  if String.eqb provider_name "e2b" then env "DRESSAGE_E2B_BLACKBOX_PORT"
  else if String.eqb provider_name "local_bwrap" then env "DRESSAGE_LOCAL_BWRAP_BLACKBOX_PORT"
  else None.

(** [x or y] on optional text *)
Definition text_or (a : option string) (b : option string) : option string :=
  match a with None | Some "" => b | _ => a end.

(** [self._blackbox_port] *)
Definition blackbox_port (port : pyval) : result Z :=
  py_int (if py_truth port then port
          else PStr (default "31000"
                       (text_or (text_or (env "DRESSAGE_BLACKBOX_PORT") _provider_blackbox_port_env)
                                (Some "31000")))).

(** [self._wait_health] when it is not given *)
Definition wait_health : bool :=
  match env "DRESSAGE_BLACKBOX_SKIP_HEALTHCHECK" with
  | Some v => negb (bool_decide (v ∈ ["1"; "true"; "TRUE"; "yes"]))
  | None => true
  end.

Definition DEFAULT_SERVER_CONFIG : dict :=
  [("runtime_root", PStr "/workspace_sandbox/blackbox_server_runtime"); ("backend_timeout", PInt 1800)].

(** A local server takes its runtime root from its own environment. *)
Definition _server_config_for_provider : dict :=
  if String.eqb provider_name "local_bwrap" then dpop DEFAULT_SERVER_CONFIG "runtime_root"
  else DEFAULT_SERVER_CONFIG.

(** The port of the sandbox service, from the arguments of [init]. *)
Definition service_port (default_port : Z) (env_args : dict) : result Z :=
  py_int (py_or (pget env_args "blackbox_port") (PInt default_port)).

(** ** The objects of the paddock and the tasks in flight *)

(** Where an [init] waits: for the provider, for the endpoint and the health check of its
    lease, or not any more. *)
Inductive InitPc : Type :=
| ICreating (create : nat)
| IPreparing (l : SandboxLease)
| IDone (r : SandboxState + dexn).

(** Lifecycle tasks: one that waits for a provider's create whose caller was cancelled, and
    one that terminates a lease. *)
Inductive LeaseWork : Type :=
| WaitCreate (create : nat)
| TerminateLease (l : SandboxLease).

Record World : Type := {
  _leases : list (string * SandboxLease);
  _states : list (string * SandboxState);
  inits : list (string * InitPc);          (* by number, with the trajectory *)
  creates : nat;                           (* create tasks so far; each [init] makes one *)
  works : list LeaseWork;                  (* [_LIFECYCLE_TASKS] *)
  terminated : list SandboxLease;          (* [provider.terminate(lease)] calls *)
  made : nat }.                            (* leases the provider has returned *)

Definition with_store (ls : list (string * SandboxLease)) (ss : list (string * SandboxState)) (w : World) : World :=
  {| _leases := ls; _states := ss; inits := inits w; creates := creates w; works := works w;
     terminated := terminated w; made := made w |}.

Definition with_init (i : nat) (traj : string) (pc : InitPc) (w : World) : World :=
  {| _leases := _leases w; _states := _states w; inits := <[i := (traj, pc)]> (inits w);
     creates := creates w; works := works w; terminated := terminated w; made := made w |}.

Definition with_works (l : list LeaseWork) (w : World) : World :=
  {| _leases := _leases w; _states := _states w; inits := inits w; creates := creates w; works := l;
     terminated := terminated w; made := made w |}.

Definition with_terminated (l : SandboxLease) (w : World) : World :=
  {| _leases := _leases w; _states := _states w; inits := inits w; creates := creates w;
     works := works w; terminated := terminated w ++ [l]; made := made w |}.

(** ** [init] *)

(** Up to the first await: the provider's create runs in a task of its own. *)
Definition init_start (default_port : Z) (traj : string) (env_args : dict) (w : World) : World :=
  match service_port default_port env_args with
  | Raise e =>
      {| _leases := _leases w; _states := _states w; inits := inits w ++ [(traj, IDone (inr (PyExn e)))];
         creates := creates w; works := works w; terminated := terminated w; made := made w |}
  | Ok _ =>
      {| _leases := _leases w; _states := _states w; inits := inits w ++ [(traj, ICreating (creates w))];
         creates := S (creates w); works := works w; terminated := terminated w; made := made w |}
  end.

(** What the provider fills in of a lease. *)
Record LeaseData : Type := {
  ld_trajectory_id : string;
  ld_sandbox_id : option string;
  ld_endpoints : list (string * SandboxEndpoint);
  ld_metadata : dict }.

Definition lease_of (d : LeaseData) (id : nat) : SandboxLease :=
  {| lease_id := id; lease_trajectory_id := ld_trajectory_id d; lease_provider := provider_name;
     lease_sandbox_id := ld_sandbox_id d; lease_endpoints := ld_endpoints d;
     lease_metadata := ld_metadata d |}.

(** A create task ends: its [init] goes on with the lease or raises, or the lifecycle task
    that waits for it has a lease to terminate or ends. *)
Definition waits_for (c : nat) (x : string * InitPc) : bool :=
  match snd x with ICreating c' => Nat.eqb c c' | _ => false end.

Definition finish_wait (c : nat) (l : option SandboxLease) (works : list LeaseWork) : list LeaseWork :=
  concat (map (fun t => match t with
                        | WaitCreate c' => if Nat.eqb c c'
                                           then match l with Some l => [TerminateLease l] | None => [] end
                                           else [t]
                        | _ => [t]
                        end) works).

Definition create_end (c : nat) (answer : LeaseData + dexn) (w : World) : World :=
  match list_find (fun x => waits_for c x = true) (inits w) with
  | Some (i, (traj, _)) =>
      match answer with
      | inr e => with_init i traj (IDone (inr e)) w
      | inl d => let w := with_init i traj (IPreparing (lease_of d (made w))) w in
                 {| _leases := _leases w; _states := _states w; inits := inits w; creates := creates w;
                    works := works w; terminated := terminated w; made := S (made w) |}
      end
  | None =>
      if existsb (fun t => match t with WaitCreate c' => Nat.eqb c c' | _ => false end) (works w)
      then match answer with
           | inr _ => with_works (finish_wait c None (works w)) w
           | inl d =>
               let w := with_works (finish_wait c (Some (lease_of d (made w))) (works w)) w in
               {| _leases := _leases w; _states := _states w; inits := inits w; creates := creates w;
                  works := works w; terminated := terminated w; made := S (made w) |}
           end
      else w
  end.

(** An [init] raises after it got its lease: a lifecycle task terminates it. *)
Definition init_fail (i : nat) (traj : string) (l : SandboxLease) (e : dexn) (w : World) : World :=
  let w := with_works (works w ++ [TerminateLease l]) w in
  let w := with_store (dpop (_leases w) traj) (dpop (_states w) traj) w in
  with_init i traj (IDone (inr e)) w.

Definition init_cancel (i : nat) (w : World) : World :=
  match inits w !! i with
  | Some (traj, ICreating c) =>
      with_init i traj (IDone (inr Cancelled)) (with_works (works w ++ [WaitCreate c]) w)
  | Some (traj, IPreparing l) => init_fail i traj l Cancelled w
  | _ => w
  end.

(** The endpoint of the lease, from the provider when the lease has none, its health check,
    and the state. *)
Definition prepared (wait : bool) (traj : string) (l : SandboxLease) (public_url : SandboxEndpoint + dexn)
    (health : unit + dexn) : (SandboxLease * SandboxState) + (SandboxLease * dexn) :=
  match dget (lease_endpoints l) "blackbox", public_url with
  | None, inr e => inr (l, e)
  | None, inl e =>
      let l := with_endpoint "blackbox" e l in
      match (if wait then health else inl tt) with
      | inr x => inr (l, x)
      | inl _ => inl (l, state_of traj l (normalized e))
      end
  | Some e, _ =>
      match (if wait then health else inl tt) with
      | inr x => inr (l, x)
      | inl _ => inl (l, state_of traj l (normalized e))
      end
  end.

Definition init_prepared (wait : bool) (i : nat) (public_url : SandboxEndpoint + dexn)
    (health : unit + dexn) (w : World) : World :=
  match inits w !! i with
  | Some (traj, IPreparing l) =>
      match prepared wait traj l public_url health with
      | inl (l, st) =>
          with_init i traj (IDone (inl st))
            (with_store (dset (_leases w) traj l) (dset (_states w) traj st) w)
      | inr (l, e) => init_fail i traj l e w
      end
  | _ => w
  end.

(** ** [terminate] and the lifecycle tasks *)

Inductive termination : Type :=
| MissingSandbox
| ByTrajectory (traj : string)
| ByLease (l : SandboxLease).

Definition terminate (traj : string) (w : World) : termination * World :=
  let w' := with_store (dpop (_leases w) traj) (dpop (_states w) traj) w in
  match dget (_leases w) traj, dget (_states w) traj with
  | None, None => (MissingSandbox, w')
  | None, Some s => (ByTrajectory (st_trajectory_id s), w')
  | Some l, _ => (ByLease l, with_terminated l w')
  end.

(** [terminate_provider_lease_best_effort]: the call is made in a task of its own, which a
    timeout or a cancellation does not stop. *)
Definition run_work (t : nat) (w : World) : World :=
  match works w !! t with
  | Some (TerminateLease l) => with_terminated l (with_works (delete t (works w)) w)
  | _ => w
  end.

(** ** Use of a sandbox *)

Definition _resolve_state (s : SandboxState + string) (w : World) : result SandboxState :=
  match s with
  | inl s => Ok s
  | inr traj => match dget (_states w) traj with
                | Some s => Ok s
                | None => Raise (KeyError "sandbox state not found")
                end
  end.

Definition _endpoint_for_state (s : SandboxState) (l : option SandboxLease) : SandboxEndpoint :=
  match l with
  | Some l => match dget (lease_endpoints l) "blackbox" with
              | Some e => normalized e
              | None => {| ep_url := sandbox_url s; ep_headers := [] |}
              end
  | None => {| ep_url := sandbox_url s; ep_headers := [] |}
  end.

(** The endpoint and the payload of [register_agent]. *)
Definition register_agent (s : SandboxState + string) (instance_id session_id : string)
    (router_url : option string) (proxy_public_url : string) (blackbox_type options : pyval)
    (router_api_path : string) (system_prompt_file : option string) (w : World)
    : result (SandboxEndpoint * dict) :=
  let! st := _resolve_state s w in
  let endpoint := _endpoint_for_state st (dget (_leases w) (st_trajectory_id st)) in
  let! router := _validate_public_proxy_url (match router_url with
                                             | None | Some "" => proxy_public_url
                                             | Some u => u
                                             end) in
  let bt := normalize_blackbox_type blackbox_type in
  let! merged := merge_backend_options env (PStr bt) options None in
  Ok (endpoint,
      [("blackbox_type", PStr bt); ("router", PStr router); ("router_api_path", PStr router_api_path);
       ("bound_instance_id", PStr instance_id); ("bound_session_id", PStr session_id);
       ("backend_options", merged); ("server_config", PDict _server_config_for_provider)] ++
      match sandbox_id st with
      | None | Some "" => []
      | Some i => [("bound_sandbox_id", PStr i)]
      end ++
      match system_prompt_file with Some p => [("system_prompt_file", PStr p)] | None => [] end).

Definition _select_states (traj : option string) (w : World) : result (list (string * SandboxState)) :=
  match traj with
  | None => Ok (_states w)
  | Some t => let! s := _resolve_state (inr t) w in Ok [(t, s)]
  end.

(** [pause], given what each server answers. *)
Definition pause (answers : string -> dict + dexn) (reason : string) (traj : option string) (w : World)
    : (dict + dexn) :=
  match _select_states traj w with
  | Raise e => inr (PyExn e)
  | Ok states =>
      (fix go (l : list (string * SandboxState)) (acc : list (string * pyval)) : dict + dexn :=
         match l with
         | [] => inl [("status", PStr "paused"); ("reason", PStr reason);
                      ("quiesced", PBool (forallb (fun kv => match snd kv with
                                                             | PDict r => py_truth (dget_def (PBool true) r "quiesced")
                                                             | _ => true
                                                             end) acc));
                      ("results", PDict acc)]
         | (t, _) :: rest => match answers t with
                             | inr e => inr e
                             | inl r => go rest (acc ++ [(t, PDict r)])
                             end
         end) states []
  end.

Definition resume (answers : string -> dict + dexn) (version : option string) (reason : string)
    (traj : option string) (w : World) : dict + dexn :=
  match _select_states traj w with
  | Raise e => inr (PyExn e)
  | Ok states =>
      (fix go (l : list (string * SandboxState)) (acc : list (string * pyval)) : dict + dexn :=
         match l with
         | [] => inl [("status", PStr "resumed"); ("reason", PStr reason);
                      ("version", opt_pyval version); ("results", PDict acc)]
         | (t, _) :: rest => match answers t with
                             | inr e => inr e
                             | inl r => go rest (acc ++ [(t, PDict r)])
                             end
         end) states []
  end.

(** ** Runs *)

Inductive action : Type :=
| AInit (traj : string) (env_args : dict)
| ACreateEnds (create : nat) (answer : LeaseData + dexn)
| ACancel (init : nat)
| APrepared (init : nat) (public_url : SandboxEndpoint + dexn) (health : unit + dexn)
| AWork (task : nat)
| ATerminate (traj : string).

Definition step (default_port : Z) (wait : bool) (a : action) (w : World) : World :=
  match a with
  | AInit traj args => init_start default_port traj args w
  | ACreateEnds c answer => create_end c answer w
  | ACancel i => init_cancel i w
  | APrepared i url health => init_prepared wait i url health w
  | AWork t => run_work t w
  | ATerminate traj => snd (terminate traj w)
  end.

Definition run (default_port : Z) (wait : bool) (l : list action) (w : World) : World :=
  fold_left (fun w a => step default_port wait a w) l w.

Definition initial_world : World :=
  {| _leases := []; _states := []; inits := []; creates := 0; works := []; terminated := []; made := 0 |}.
End Paddock.

(** ** Who owns a lease *)

Definition preparing (x : string * InitPc) : option nat :=
  match snd x with IPreparing l => Some (lease_id l) | _ => None end.

Definition creating (x : string * InitPc) : option nat :=
  match snd x with ICreating c => Some c | _ => None end.

Definition to_terminate (t : LeaseWork) : option nat :=
  match t with TerminateLease l => Some (lease_id l) | _ => None end.

Definition waiting (t : LeaseWork) : option nat :=
  match t with WaitCreate c => Some c | _ => None end.

Definition kept (ls : list (string * SandboxLease)) : list nat := map (fun kv => lease_id (snd kv)) ls.

(** The leases held by an [init] in flight, by the paddock, and by a lifecycle task, and
    those given back to the provider. *)
Definition owners (w : World) : list nat :=
  omap preparing (inits w) ++ kept (_leases w) ++ omap to_terminate (works w) ++
  map lease_id (terminated w).

(** The trajectories whose [init] has not returned. *)
Definition in_flight (x : string * InitPc) : option string :=
  match snd x with IDone _ => None | _ => Some (fst x) end.

(** The create tasks somebody waits for. *)
Definition awaited (w : World) : list nat := omap creating (inits w) ++ omap waiting (works w).

Record paddock_ok (w : World) : Prop := {
  po_owned : owners w ≡ₚ seq 0 (made w);
  po_inits : NoDup (map fst (inits w));
  po_known : forall traj, traj ∈ dkeys (_leases w) -> traj ∈ map fst (inits w);
  po_flight : forall traj, traj ∈ omap in_flight (inits w) -> dget (_leases w) traj = None;
  po_awaited : NoDup (awaited w);
  po_created : Forall (fun c => (c < creates w)%nat) (awaited w) }.

(** The trajectories the actions of a run start. *)
Definition started (l : list action) : list string :=
  omap (fun a => match a with AInit traj _ => Some traj | _ => None end) l.

Lemma initial_paddock_ok : paddock_ok initial_world.
Proof.
  split; simpl; try (by constructor); intros traj I; by apply not_elem_of_nil in I.
Qed.

Definition olist {A} (o : option A) : list A := match o with Some x => [x] | None => [] end.

Lemma omap_split {A B} (g : A -> option B) (l : list A) i x y : l !! i = Some x ->
  omap g l ≡ₚ olist (g x) ++ omap g (delete i l) /\
  omap g (<[i:=y]> l) ≡ₚ olist (g y) ++ omap g (delete i l).
Proof.
  intros L. assert (D : delete i l = take i l ++ drop (S i) l) by apply delete_take_drop.
  assert (Li := lookup_lt_Some _ _ _ L). rewrite D, omap_app. split.
  - rewrite <- (take_drop_middle l i x L) at 1. rewrite omap_app. simpl.
    destruct (g x); simpl; solve_Permutation.
  - rewrite insert_take_drop by done. rewrite omap_app. simpl. destruct (g y); simpl; solve_Permutation.
Qed.

(** What becomes of the owners when the [i]th [init] moves on. *)
Lemma init_moves (l : list (string * InitPc)) i traj pc pc' : l !! i = Some (traj, pc) ->
  map fst (<[i := (traj, pc')]> l) = map fst l /\
  (exists R, omap preparing l ≡ₚ olist (preparing (traj, pc)) ++ R /\
             omap preparing (<[i := (traj, pc')]> l) ≡ₚ olist (preparing (traj, pc')) ++ R) /\
  (exists R, omap creating l ≡ₚ olist (creating (traj, pc)) ++ R /\
             omap creating (<[i := (traj, pc')]> l) ≡ₚ olist (creating (traj, pc')) ++ R) /\
  (exists R, omap in_flight l ≡ₚ olist (in_flight (traj, pc)) ++ R /\
             omap in_flight (<[i := (traj, pc')]> l) ≡ₚ olist (in_flight (traj, pc')) ++ R).
Proof.
  intros L. split.
  - rewrite list_fmap_insert. apply list_insert_id. by rewrite list_lookup_fmap, L.
  - split_and!; eexists; by apply omap_split.
Qed.

Lemma kept_dpop ls traj l : dget ls traj = Some l -> kept ls ≡ₚ lease_id l :: kept (dpop ls traj).
Proof. intros E. unfold kept. by rewrite (dget_dpop_perm _ _ _ E) at 1. Qed.

(** Exactly one lifecycle task waits for a create that somebody waits for. *)
Lemma finish_wait_owned c (l : option SandboxLease) ts : NoDup (omap waiting ts) ->
  existsb (fun t => match t with WaitCreate c' => Nat.eqb c c' | _ => false end) ts = true ->
  omap to_terminate (finish_wait c l ts) ≡ₚ olist (lease_id <$> l) ++ omap to_terminate ts /\
  c :: omap waiting (finish_wait c l ts) ≡ₚ omap waiting ts.
Proof.
  assert (Cons : forall t us, finish_wait c l (t :: us) =
            match t with
            | WaitCreate c' => if Nat.eqb c c' then match l with Some l => [TerminateLease l] | None => [] end
                               else [t]
            | _ => [t]
            end ++ finish_wait c l us) by done.
  assert (Other : forall us, c ∉ omap waiting us -> finish_wait c l us = us).
  { induction us as [|[c'|l'] us IH]; intros N; [done| |]; rewrite Cons; simpl in *.
    - destruct (Nat.eqb_spec c c') as [->|]; [set_solver|]. simpl. f_equal. apply IH. set_solver.
    - f_equal. by apply IH. }
  induction ts as [|[c'|l'] ts IH]; intros N E; [done| |]; rewrite Cons; simpl in *.
  - apply NoDup_cons in N as [N1 N2]. destruct (Nat.eqb_spec c c') as [->|Ne].
    + rewrite (Other ts N1). by destruct l.
    + simpl. destruct (IH N2 E) as [I1 I2]. split; [done|]. rewrite <- I2. apply Permutation_swap.
  - destruct (IH N E) as [I1 I2]. split; [|done]. rewrite I1. destruct l; simpl; [apply Permutation_swap|done].
Qed.


Section PaddockFacts.
Context `{PyText}.
Variable provider_name : string.

Lemma init_start_ok port traj args w : paddock_ok w -> traj ∉ map fst (inits w) ->
  paddock_ok (init_start port traj args w) /\
  map fst (inits (init_start port traj args w)) = map fst (inits w) ++ [traj].
Proof using.
  intros [Ow In Kn Fl Aw Cr] N. unfold init_start.
  destruct (service_port port args); (split; [|simpl; by rewrite map_app]).
  - split; simpl.
    + unfold owners in *; simpl. rewrite omap_app. simpl. by rewrite app_nil_r.
    + rewrite map_app. apply NoDup_app. split_and!; [done|set_solver|apply NoDup_singleton].
    + intros t I. rewrite map_app. apply elem_of_app. left. by apply Kn.
    + intros t I. rewrite omap_app in I. apply elem_of_app in I as [I|I]; [by apply Fl|].
      apply list_elem_of_singleton in I as ->. apply dget_None_key. intros K. by apply N, Kn.
    + unfold awaited in *; simpl. rewrite omap_app. simpl.
      assert (P : (omap creating (inits w) ++ [creates w]) ++ omap waiting (works w) ≡ₚ
                  creates w :: awaited w) by (unfold awaited; solve_Permutation).
      rewrite P. constructor; [|done]. intros I. rewrite Forall_forall in Cr. apply Cr in I. lia.
    + unfold awaited in *; simpl. rewrite omap_app. simpl. rewrite !Forall_app in *.
      destruct Cr as [C1 C2]. split_and!; [eapply Forall_impl; [exact C1|]; simpl; lia|
        repeat constructor|eapply Forall_impl; [exact C2|]; simpl; lia].
  - split; simpl; unfold owners, awaited in *; simpl; rewrite ?omap_app; simpl; rewrite ?app_nil_r; try done.
    + rewrite map_app. apply NoDup_app. split_and!; [done|set_solver|apply NoDup_singleton].
    + intros t I. rewrite map_app. apply elem_of_app. left. by apply Kn.
Qed.

Lemma in_flight_known l t : t ∈ omap in_flight l -> t ∈ map fst l.
Proof using.
  intros I. apply list_elem_of_omap in I as ([t' pc] & I & E). apply list_elem_of_fmap.
  exists (t', pc). split; [|done]. unfold in_flight in E. simpl in *. destruct pc; try discriminate E; by injection E as <-.
Qed.

Lemma in_flight_NoDup l : NoDup (map fst l) -> NoDup (omap in_flight l).
Proof using.
  induction l as [|[t pc] l IH]; simpl; [constructor|]. intros [N1 N2]%NoDup_cons.
  assert (N : t ∉ omap in_flight l) by (intros I; by apply N1, in_flight_known).
  destruct pc; simpl; [constructor|constructor|]; auto.
Qed.

(** An [init] moves on and the other tables change with it. *)
Lemma move_ok w w' i traj pc pc' : paddock_ok w -> inits w !! i = Some (traj, pc) ->
  inits w' = <[i := (traj, pc')]> (inits w) -> creates w' = creates w ->
  (forall R, omap preparing (inits w) ≡ₚ olist (preparing (traj, pc)) ++ R ->
     olist (preparing (traj, pc')) ++ R ++ kept (_leases w') ++ omap to_terminate (works w') ++
       map lease_id (terminated w') ≡ₚ seq 0 (made w')) ->
  (forall t, t ∈ dkeys (_leases w') -> t ∈ dkeys (_leases w) \/ t = traj) ->
  in_flight (traj, pc) <> None -> (in_flight (traj, pc') = None \/ _leases w' = _leases w) ->
  (forall t, t <> traj -> dget (_leases w') t = dget (_leases w) t) ->
  (olist (creating (traj, pc')) ++ omap waiting (works w') ≡ₚ
     olist (creating (traj, pc)) ++ omap waiting (works w) \/
   olist (creating (traj, pc')) = [] /\ omap waiting (works w') = omap waiting (works w)) ->
  paddock_ok w'.
Proof using.
  intros [Ow In Kn Fl Aw Cr] L Ei Ec HO HK HN HF HL HW.
  destruct (init_moves _ _ _ _ pc' L) as (Mf & (R1 & P1 & P1') & (R2 & P2 & P2') & (R3 & P3 & P3')).
  assert (W : exists x, awaited w ≡ₚ x ++ awaited w').
  { unfold awaited. rewrite Ei. destruct HW as [HW|[E1 E2]].
    - exists []. rewrite app_nil_l, P2, P2'.
      trans (R2 ++ olist (creating (traj, pc)) ++ omap waiting (works w)); [solve_Permutation|].
      rewrite <- HW. solve_Permutation.
    - exists (olist (creating (traj, pc))). rewrite P2, P2', E1, E2. by rewrite app_nil_l, app_assoc. }
  destruct W as [x Wx]. split.
  - unfold owners. rewrite Ei, P1', <- app_assoc. by apply HO.
  - by rewrite Ei, Mf.
  - intros t I. rewrite Ei, Mf. destruct (HK t I) as [I' | ->]; [by apply Kn|].
    apply list_elem_of_fmap. exists (traj, pc). split; [done|]. by eapply list_elem_of_lookup_2.
  - assert (F1 : in_flight (traj, pc) = Some traj) by (by destruct pc).
    rewrite F1 in P3. pose proof (in_flight_NoDup _ In) as N3. rewrite P3 in N3.
    simpl in N3. apply NoDup_cons in N3 as [N3 _].
    assert (Fr : forall t, t ∈ R3 -> dget (_leases w') t = None).
    { intros t I. rewrite HL; [|by intros ->]. apply Fl. rewrite P3. by right. }
    intros t I. rewrite Ei, P3' in I. destruct HF as [HF|HF].
    + rewrite HF in I. by apply Fr.
    + apply elem_of_app in I as [I|I]; [|by apply Fr]. rewrite HF. apply Fl.
      assert (t = traj) as -> by (destruct pc'; simpl in I; set_solver). rewrite P3. by left.
  - rewrite Wx in Aw. by apply NoDup_app in Aw as (_ & _ & ?).
  - rewrite Wx, Forall_app in Cr. rewrite Ec. by apply Cr.
Qed.

Lemma waits_creating c x : waits_for c x = true -> exists traj, x = (traj, ICreating c).
Proof using.
  destruct x as [t [c'|l|r]]; unfold waits_for; simpl; try done. intros E%Nat.eqb_eq. subst. eauto.
Qed.

Lemma create_end_ok c answer w : paddock_ok w -> paddock_ok (create_end provider_name c answer w).
Proof using.
  intros K. unfold create_end. destruct (list_find _ (inits w)) as [[i [traj pc]]|] eqn:F.
  - apply list_find_Some in F as (L & Wf & _). apply waits_creating in Wf as [t [= -> ->]].
    assert (Cr : forall l : list nat, [c] ++ l ≡ₚ [c] ++ l) by done.
    destruct answer as [d|e]; (eapply (move_ok w); [done|exact L|reflexivity..| | | | | |]).
    + intros R P. cbn [made works terminated _leases with_init]. rewrite seq_S, <- (po_owned w K).
      unfold owners. rewrite P. simpl. solve_Permutation.
    + auto.
    + done.
    + by right.
    + done.
    + by right.
    + intros R P. rewrite <- (po_owned w K). unfold owners. by rewrite P.
    + auto.
    + done.
    + by left.
    + done.
    + by right.
  - destruct (existsb _ (works w)) eqn:E; [|done]. destruct K as [Ow In Kn Fl Aw Cr].
    assert (Nw : NoDup (omap waiting (works w))) by (by apply NoDup_app in Aw as (_ & _ & ?)).
    set (l := match answer with inl d => Some (lease_of provider_name d (made w)) | inr _ => None end).
    destruct (finish_wait_owned c l (works w) Nw E) as [F1 F2].
    assert (Pw : awaited w ≡ₚ c :: omap creating (inits w) ++ omap waiting (finish_wait c l (works w))).
    { unfold awaited. rewrite <- F2. solve_Permutation. }
    rewrite Pw in Aw, Cr. apply NoDup_cons in Aw as [_ Aw]. apply Forall_cons in Cr as [_ Cr].
    destruct answer as [d|e]; split; try done.
    + cbn [made]. rewrite seq_S, <- Ow. unfold owners. cbn. fold l. rewrite F1. cbn. solve_Permutation.
    + rewrite <- Ow. unfold owners. cbn. fold l. by rewrite F1.
Qed.

Lemma dget_dpop_absent {V} (d : list (string * V)) k t : dget d k = None -> dget (dpop d k) t = dget d t.
Proof using. intros E. by rewrite dpop_absent. Qed.

(** Raising with a lease hands it to a lifecycle task. *)
Lemma init_fail_ok i traj l l' e w : paddock_ok w -> inits w !! i = Some (traj, IPreparing l) ->
  lease_id l' = lease_id l -> paddock_ok (init_fail i traj l' e w).
Proof using.
  intros K L El. assert (G : dget (_leases w) traj = None).
  { apply (po_flight w K). apply list_elem_of_omap. exists (traj, IPreparing l).
    split; [by eapply list_elem_of_lookup_2|done]. }
  unfold init_fail. cbn [_leases _states with_works with_store works]. rewrite (dpop_absent _ _ G).
  eapply (move_ok w); [done|exact L|reflexivity..| | | | | |].
  - intros R P. rewrite <- (po_owned w K). unfold owners. rewrite P. cbn. rewrite omap_app. cbn.
    rewrite El. solve_Permutation.
  - auto.
  - done.
  - by left.
  - done.
  - right. split; [done|]. cbn. rewrite omap_app. cbn. by rewrite app_nil_r.
Qed.

Lemma init_cancel_ok i w : paddock_ok w -> paddock_ok (init_cancel i w).
Proof using.
  intros K. unfold init_cancel. destruct (inits w !! i) as [[traj [c|l|r]]|] eqn:L; try done.
  - eapply (move_ok w); [done|exact L|reflexivity..| | | | | |].
    + intros R P. rewrite <- (po_owned w K). unfold owners. rewrite P. cbn. rewrite omap_app. cbn.
      by rewrite app_nil_r.
    + auto.
    + done.
    + by left.
    + done.
    + left. cbn. rewrite omap_app. cbn. solve_Permutation.
  - by eapply init_fail_ok.
Qed.

Lemma prepared_id wait traj l url health :
  match prepared wait traj l url health with
  | inl (l', _) => lease_id l' = lease_id l
  | inr (l', _) => lease_id l' = lease_id l
  end.
Proof using. unfold prepared. destruct (dget _ _), url, wait, health; done. Qed.

Lemma init_prepared_ok wait i url health w : paddock_ok w -> paddock_ok (init_prepared wait i url health w).
Proof using.
  intros K. unfold init_prepared. destruct (inits w !! i) as [[traj [c|l|r]]|] eqn:L; try done.
  pose proof (prepared_id wait traj l url health) as Pi.
  destruct (prepared wait traj l url health) as [[l' st]|[l' e]]; [|by eapply init_fail_ok].
  assert (G : dget (_leases w) traj = None).
  { apply (po_flight w K). apply list_elem_of_omap. exists (traj, IPreparing l).
    split; [by eapply list_elem_of_lookup_2|done]. }
  assert (N : traj ∉ dkeys (_leases w)) by (by apply dget_None_key).
  eapply (move_ok w); [done|exact L|reflexivity..| | | | | |].
  - intros R P. rewrite <- (po_owned w K). unfold owners. rewrite P. cbn. rewrite dset_fresh by done.
    unfold kept. rewrite map_app. cbn. rewrite Pi. solve_Permutation.
  - intros t I. cbn in I. rewrite dset_fresh in I by done. unfold dkeys in I. rewrite map_app in I.
    apply elem_of_app in I as [I|I]; [by left|right]. by apply list_elem_of_singleton in I.
  - done.
  - by left.
  - intros t Ne. cbn. by rewrite dget_dset_ne.
  - by right.
Qed.

Lemma terminate_ok traj w : paddock_ok w -> paddock_ok (snd (terminate traj w)).
Proof using.
  intros [Ow In Kn Fl Aw Cr]. unfold terminate.
  destruct (dget (_leases w) traj) as [l|] eqn:G.
  - assert (Pk : dkeys (_leases w) ≡ₚ traj :: dkeys (dpop (_leases w) traj))
      by (unfold dkeys; by rewrite (dget_dpop_perm _ _ _ G) at 1).
    cbn [snd]. split; try done.
    + rewrite <- Ow. unfold owners. cbn. rewrite (kept_dpop _ _ _ G), map_app. cbn. solve_Permutation.
    + intros t I. apply Kn. rewrite Pk. by right.
    + intros t I. cbn. rewrite dget_dpop_ne; [by apply Fl|]. intros ->. specialize (Fl _ I). congruence.
  - destruct (dget (_states w) traj); cbn [snd]; split; cbn; rewrite ?(dpop_absent _ _ G); try done;
      unfold owners, awaited in *; cbn; by rewrite (dpop_absent _ _ G).
Qed.

Lemma run_work_ok t w : paddock_ok w -> paddock_ok (run_work t w).
Proof using.
  intros [Ow In Kn Fl Aw Cr]. unfold run_work. destruct (works w !! t) as [[c|l]|] eqn:L; try done.
  destruct (omap_split to_terminate (works w) t _ (TerminateLease l) L) as [P1 _].
  destruct (omap_split waiting (works w) t _ (TerminateLease l) L) as [P2 _].
  assert (A : awaited (with_terminated l (with_works (delete t (works w)) w)) ≡ₚ awaited w)
    by (unfold awaited; cbn; by rewrite P2).
  split; try done.
  - rewrite <- Ow. unfold owners. cbn. rewrite P1, map_app. cbn. solve_Permutation.
  - by rewrite A.
  - by rewrite A.
Qed.

(** Only [init] starts a trajectory. *)
Lemma step_trajs port wait a w :
  map fst (inits (step provider_name port wait a w)) = map fst (inits w) ++ started [a].
Proof using.
  assert (I : forall i traj pc pc' (l : list (string * InitPc)), l !! i = Some (traj, pc) ->
            map fst (<[i := (traj, pc')]> l) = map fst l ++ [])
    by (intros i traj pc pc' l L; rewrite app_nil_r; by apply (init_moves _ _ _ _ pc' L)).
  destruct a as [traj args|c answer|i|i url health|t|traj]; cbn [step started omap list_omap].
  - unfold init_start. destruct (service_port _ _); cbn; by rewrite map_app.
  - unfold create_end. destruct (list_find _ _) as [[i [traj pc]]|] eqn:F.
    + apply list_find_Some in F as (L & _ & _). destruct answer; cbn; by eapply I.
    + destruct (existsb _ _); destruct answer; cbn; by rewrite app_nil_r.
  - unfold init_cancel. destruct (inits w !! i) as [[traj [c|l|r]]|] eqn:L; cbn;
      rewrite ?app_nil_r; try done; rewrite <- (app_nil_r (map fst (inits w))); by eapply I.
  - unfold init_prepared. destruct (inits w !! i) as [[traj [c|l|r]]|] eqn:L; cbn;
      rewrite ?app_nil_r; try done.
    rewrite <- (app_nil_r (map fst (inits w))).
    destruct (prepared _ _ _ _ _) as [[]|[]]; cbn; by eapply I.
  - unfold run_work. destruct (works w !! t) as [[]|]; cbn; by rewrite app_nil_r.
  - unfold terminate. destruct (dget (_leases w) traj), (dget (_states w) traj); cbn; by rewrite app_nil_r.
Qed.

Lemma step_ok port wait a w : paddock_ok w -> NoDup (map fst (inits w) ++ started [a]) ->
  paddock_ok (step provider_name port wait a w).
Proof using.
  intros K N. destruct a as [traj args|c answer|i|i url health|t|traj]; cbn [step].
  - apply init_start_ok; [done|]. cbn in N. apply NoDup_app in N as (_ & N & _). intros I.
    apply (N _ I). by left.
  - by apply create_end_ok.
  - by apply init_cancel_ok.
  - by apply init_prepared_ok.
  - by apply run_work_ok.
  - by apply terminate_ok.
Qed.

Lemma run_ok port wait l : forall w, paddock_ok w -> NoDup (map fst (inits w) ++ started l) ->
  paddock_ok (run provider_name port wait l w).
Proof using.
  induction l as [|a l IH]; intros w K N; [done|]. cbn [run fold_left].
  assert (E : started (a :: l) = started [a] ++ started l) by (by destruct a).
  rewrite E, app_assoc in N. apply IH.
  - apply step_ok; [done|]. by apply NoDup_app in N as (N & _ & _).
  - by rewrite step_trajs.
Qed.

(** C30: when no trajectory is initialised twice, then in every interleaving of the [init]
    calls, cancellations, ends of provider creates, health checks, terminations and
    lifecycle tasks, each lease the provider has returned has exactly one owner: the [init] that is preparing it, the
    paddock, a lifecycle task that will terminate it, or the provider, to which it was
    given back; none is given back twice and none is forgotten. *)
Theorem lease_single_owner port wait l : NoDup (started l) ->
  let w := run provider_name port wait l initial_world in
  owners w ≡ₚ seq 0 (made w) /\ NoDup (owners w) /\
  (omap preparing (inits w) = [] -> works w = [] -> _leases w = [] ->
   map lease_id (terminated w) ≡ₚ seq 0 (made w)).
Proof using.
  intros N w. assert (K : paddock_ok w) by (apply run_ok; [apply initial_paddock_ok|done]).
  split_and!; [apply K| |].
  - rewrite (po_owned _ K). apply NoDup_seq.
  - intros E1 E2 E3. rewrite <- (po_owned _ K). unfold owners. by rewrite E1, E2, E3.
Qed.
End PaddockFacts.

(** ** Witnesses *)

#[local] Instance w_paddock_text : PyText := {| py_repr := fun _ => ""; py_parse_float := fun _ => None |}.

Definition w_lease_data (traj : string) : LeaseData :=
  {| ld_trajectory_id := traj; ld_sandbox_id := Some "sb";
     ld_endpoints := [("blackbox", {| ep_url := "http://host:31000/"; ep_headers := [] |})];
     ld_metadata := [] |}.

(** The first caller is cancelled while the provider is still creating its sandbox; the
    second one is served and terminated; the third one's health check fails. *)
Definition w_paddock_actions : list action :=
  [AInit "a" []; AInit "b" []; ACancel 0; ACreateEnds 1 (inl (w_lease_data "b"));
   ACreateEnds 0 (inl (w_lease_data "a")); AWork 0;
   APrepared 1 (inr Cancelled) (inl tt); AInit "c" []; ACreateEnds 2 (inl (w_lease_data "c"));
   APrepared 2 (inr Cancelled) (inr (PyExn (RuntimeError "unhealthy"))); ATerminate "b"; AWork 0].

Abbreviation w_paddock_world := (run "e2b" 31000 true w_paddock_actions initial_world).

Lemma w_paddock_distinct : NoDup (started w_paddock_actions).
Proof. repeat constructor; set_solver. Qed.

Lemma w_paddock_quiet : omap preparing (inits w_paddock_world) = [] /\ works w_paddock_world = [] /\
  _leases w_paddock_world = [] /\ made w_paddock_world = 3%nat /\
  map lease_id (terminated w_paddock_world) = [1; 0; 2]%nat.
Proof. vm_compute. auto. Qed.

Lemma lease_single_owner_witness : map lease_id (terminated w_paddock_world) ≡ₚ seq 0 3.
Proof.
  destruct w_paddock_quiet as (E1 & E2 & E3 & E4 & _).
  pose proof (proj2 (proj2 (lease_single_owner "e2b" 31000 true w_paddock_actions w_paddock_distinct)) E1 E2 E3) as P.
  rewrite E4 in P. exact P.
Defined.

Example public_urls :
  map _validate_public_proxy_url ["http://proxy.example:8800/"; "http://user@LocalHost:1/x"; "https://127.1.2.3";
                                  "http://[::1]:80"; "ftp://proxy"; "proxy:8800"] =
  [Ok "http://proxy.example:8800"; Raise (ValueError "DRESSAGE_PROXY_URL must be reachable from the sandbox");
   Raise (ValueError "DRESSAGE_PROXY_URL must be reachable from the sandbox");
   Raise (ValueError "DRESSAGE_PROXY_URL must be reachable from the sandbox");
   Raise (ValueError "DRESSAGE_PROXY_URL must be an http(s) URL with a host");
   Raise (ValueError "DRESSAGE_PROXY_URL must be an http(s) URL with a host")].
Proof. vm_compute. reflexivity. Qed.

(** [init] does not look for a lease the trajectory already has: the second of two inits of
    one trajectory overwrites the first one's lease, which then has no owner. *)
Definition w_reinit_actions : list action :=
  [AInit "a" []; ACreateEnds 0 (inl (w_lease_data "a")); APrepared 0 (inr Cancelled) (inl tt);
   AInit "a" []; ACreateEnds 1 (inl (w_lease_data "a")); APrepared 1 (inr Cancelled) (inl tt)].

Lemma reinit_forgets_lease : let w := run "e2b" 31000 true w_reinit_actions initial_world in
  owners w = [1%nat] /\ made w = 2%nat.
Proof. vm_compute. auto. Qed.
