(* ===== verification/ServerModels.v ===== *)
(** * Data of the blackbox server ([blackbox_server/config.py], [core/models.py],
    [core/hashing.py], [core/errors.py], [store/session_store.py])

    Configurations and their overrides, messages and their JSON form, the fingerprints two
    requests are compared by, sessions with their turn ledgers, and the capacity rule of
    the session store.  A session object is shared by the store and by the tasks that
    hold it, so the store maps session ids to object numbers; [BlackboxServer] keeps the
    objects.  Dates are microseconds. *)

From Stdlib Require Import Ascii.
From S2P Require Import Prelude.
From S2P Require Import PyFloat.
From S2P Require Import PyVal.
From S2P Require Import Json.
From S2P Require Import Sha256.
From S2P Require Import Paddock.

Local Open Scope string_scope.
Local Open Scope list_scope.
Local Open Scope py_scope.

(** ** Errors *)

(** What a handler raises: an error answer with its status, a failed assertion, or another
    exception of Python. *)
Inductive ApiError : Type :=
| Api (status_code : Z) (error message : string) (details : list (string * pyval))
| Internal (e : exn).

(** ** Configuration *)

Record BlackboxServerConfig : Type := {
  host : string;
  port : Z;
  runtime_root : string;
  max_sessions : Z;
  max_turns : Z;
  backend_timeout : float;
  execute_cmd_timeout : float;
  router_timeout : Z;
  shutdown_timeout : float;
  health_check_interval : float;
  health_check_timeout : float;
  runtime_health_check_interval : float;
  runtime_health_check_retries : Z;
  runtime_health_check_retry_delay : float }.

Record ServerConfigOverride : Type := {
  o_runtime_root : option string;
  o_max_sessions : option Z;
  o_max_turns : option Z;
  o_backend_timeout : option float;
  o_execute_cmd_timeout : option float;
  o_router_timeout : option Z;
  o_runtime_health_check_interval : option float;
  o_runtime_health_check_retries : option Z;
  o_runtime_health_check_retry_delay : option float }.

Definition apply (o : ServerConfigOverride) (c : BlackboxServerConfig) : BlackboxServerConfig := {|
  host := host c;
  port := port c;
  runtime_root := default (runtime_root c) (o_runtime_root o);
  max_sessions := default (max_sessions c) (o_max_sessions o);
  max_turns := default (max_turns c) (o_max_turns o);
  backend_timeout := default (backend_timeout c) (o_backend_timeout o);
  execute_cmd_timeout := default (execute_cmd_timeout c) (o_execute_cmd_timeout o);
  router_timeout := default (router_timeout c) (o_router_timeout o);
  shutdown_timeout := shutdown_timeout c;
  health_check_interval := health_check_interval c;
  health_check_timeout := health_check_timeout c;
  runtime_health_check_interval :=
    default (runtime_health_check_interval c) (o_runtime_health_check_interval o);
  runtime_health_check_retries :=
    default (runtime_health_check_retries c) (o_runtime_health_check_retries o);
  runtime_health_check_retry_delay :=
    default (runtime_health_check_retry_delay c) (o_runtime_health_check_retry_delay o) |}.

(** The fields that are set, in their order. *)
Definition opt_field {A : Type} (k : string) (f : A -> pyval) (o : option A) : list (string * pyval) :=
  match o with Some x => [(k, f x)] | None => [] end.

Definition explicit_values (o : ServerConfigOverride) : list (string * pyval) :=
  opt_field "runtime_root" PStr (o_runtime_root o)
  ++ opt_field "max_sessions" PInt (o_max_sessions o)
  ++ opt_field "max_turns" PInt (o_max_turns o)
  ++ opt_field "backend_timeout" PFloat (o_backend_timeout o)
  ++ opt_field "execute_cmd_timeout" PFloat (o_execute_cmd_timeout o)
  ++ opt_field "router_timeout" PInt (o_router_timeout o)
  ++ opt_field "runtime_health_check_interval" PFloat (o_runtime_health_check_interval o)
  ++ opt_field "runtime_health_check_retries" PInt (o_runtime_health_check_retries o)
  ++ opt_field "runtime_health_check_retry_delay" PFloat (o_runtime_health_check_retry_delay o).

Section Env.
Context `{PyText}.
Variable env : string -> option string.

Definition _get_env_str (name dflt : string) : string := default dflt (env name).

Definition _get_env_int (name : string) (dflt : Z) : result Z :=
  match env name with None => Ok dflt | Some raw => py_int (PStr raw) end.

Definition _get_env_float (name : string) (dflt : float) : result float :=
  match env name with None => Ok dflt | Some raw => py_float (PStr raw) end.

Definition f_of_ratio (n d : Z) : float := fdiv (f_of_Z n) (f_of_Z d).

(** The fields the environment does not set keep their defaults; the last check is the
    fields' bounds. *)
Definition from_env : result BlackboxServerConfig :=
  let! port := _get_env_int "BBS_PORT" 23456 in
  let! max_sessions := _get_env_int "BBS_MAX_SESSIONS" 1 in
  let! max_turns := _get_env_int "BBS_MAX_TURNS" 200 in
  let! backend_timeout := _get_env_float "BBS_BACKEND_TIMEOUT" (f_of_Z 960) in
  let! execute_cmd_timeout := _get_env_float "BBS_EXECUTE_CMD_TIMEOUT" (f_of_Z 600) in
  let! router_timeout := _get_env_int "BBS_ROUTER_TIMEOUT" 600000 in
  let! shutdown_timeout := _get_env_float "BBS_SHUTDOWN_TIMEOUT" (f_of_Z 30) in
  let! interval := _get_env_float "BBS_RUNTIME_HEALTH_CHECK_INTERVAL" (f_of_Z 10) in
  let! retries := _get_env_int "BBS_RUNTIME_HEALTH_CHECK_RETRIES" 3 in
  let! delay := _get_env_float "BBS_RUNTIME_HEALTH_CHECK_RETRY_DELAY" (f_of_ratio 1 2) in
  check! (max_sessions <? 1)%Z || negb (fltb f0 execute_cmd_timeout) || (retries <? 1)%Z
         || negb (fleb f0 delay)
    else ValueError "validation error for BlackboxServerConfig" ;;
  Ok {| host := _get_env_str "BBS_HOST" "0.0.0.0"; port := port;
        runtime_root := _get_env_str "BBS_RUNTIME_ROOT" "/tmp/blackbox_server";
        max_sessions := max_sessions; max_turns := max_turns;
        backend_timeout := backend_timeout; execute_cmd_timeout := execute_cmd_timeout;
        router_timeout := router_timeout; shutdown_timeout := shutdown_timeout;
        health_check_interval := f_of_Z 2; health_check_timeout := f_of_Z 60;
        runtime_health_check_interval := interval; runtime_health_check_retries := retries;
        runtime_health_check_retry_delay := delay |}.
End Env.

(** ** Messages *)

Record FunctionCall : Type := { fc_name : string; arguments : string }.
Record ToolCall : Type := { tc_id : string; function : FunctionCall }.

Record Message : Type := {
  role : string;
  content : option string;
  reasoning_content : option string;
  tool_calls : option (list ToolCall);
  tool_call_id : option string;
  name : option string }.

(** [model_dump(mode="json", exclude_none=True)] *)
Definition tool_call_dump (t : ToolCall) : pyval :=
  PDict [("id", PStr (tc_id t)); ("type", PStr "function");
         ("function", PDict [("name", PStr (fc_name (function t)));
                             ("arguments", PStr (arguments (function t)))])].

Definition message_dump (m : Message) : pyval :=
  PDict ([("role", PStr (role m))]
         ++ opt_field "content" PStr (content m)
         ++ opt_field "reasoning_content" PStr (reasoning_content m)
         ++ opt_field "tool_calls" (fun l => PList (map tool_call_dump l)) (tool_calls m)
         ++ opt_field "tool_call_id" PStr (tool_call_id m)
         ++ opt_field "name" PStr (name m)).

Record TraceEvent : Type := {
  ev_turn_id : string;
  seq : Z;
  source : string;
  event_type : string;
  payload : list (string * pyval);
  ev_created_at : Z }.

Record TurnUsage : Type := {
  total_tokens : Z;
  input_tokens : Z;
  output_tokens : Z;
  reasoning_tokens : Z;
  steps : Z;
  usage_tool_calls : Z }.

Record AdapterResponse : Type := {
  outputs : list Message;
  ar_trace_events : list TraceEvent;
  usage : TurnUsage;
  ar_backend_session_id : string }.

Record BackendCapabilities : Type := {
  chat : bool;
  abort : bool;
  pause_resume : bool;
  stream : bool;
  multi_message_input : bool;
  system_message : bool;
  history_injection : bool }.

(** ** Fingerprints *)

Fixpoint canonicalize (v : pyval) : pyval :=
  match v with
  | PList l => PList (map canonicalize l)
  | PDict d =>
      PDict (sort_by key_leb
               ((fix go (d : list (string * pyval)) : list (string * pyval) :=
                   match d with
                   | [] => []
                   | (k, x) :: d' => if is_pnone x then go d' else (k, canonicalize x) :: go d'
                   end) d))
  | v => v
  end.

Section Fingerprints.
Context `{PyText}.

Definition stable_json (v : pyval) : string := json_dumps (canonicalize v).
Definition sha256_hex (v : pyval) : string := hex_of (sha256 (bytes_of (stable_json v))).

Definition message_request_fingerprint (messages : list Message) : string :=
  sha256_hex (PList (map message_dump messages)).
End Fingerprints.

(** The path of a parsed URL: between the network location and the query, without the
    parameters of its last segment. *)
Definition url_path (scheme rest : string) : string :=
  let after := match rest with
               | String "/" (String "/" r) =>
                   match split_at (fun c => bool_decide (c ∈ ["/"; "?"; "#"]%char)) r with
                   | (_, Some (c, t)) => String c t
                   | (_, None) => ""
                   end
               | r => r
               end in
  let path := fst (split_at (fun c => bool_decide (c ∈ ["?"; "#"]%char)) after) in
  if bool_decide (scheme ∈ [""; "ftp"; "hdl"; "prospero"; "http"; "https"; "shttp"; "rtsp"; "rtsps";
                            "rtspu"; "sip"; "sips"; "mms"; "sftp"; "tel"])
  then let last := after_last "/" path in
       let dir := String.substring 0 (String.length path - String.length last) path in
       dir +:+ fst (split_at (fun c => bool_decide (c = ";"%char)) last)
  else path.

(** [urlunparse] without parameters, query and fragment, for a non-empty location and a path
    that starts with a slash. *)
Definition url_of (scheme loc path : string) : string :=
  (if String.eqb scheme "" then "" else scheme +:+ ":") +:+ "//" +:+ loc +:+ path.

(** [needle in text] *)
Fixpoint str_contains (needle text : string) : bool :=
  String.prefix needle text
  || match text with "" => false | String _ t => str_contains needle t end.

Definition str_or (a b : string) : string := if String.eqb a "" then b else a.

Definition normalize_router (router router_api_path : string) : result (string * string) :=
  let raw := strip router in
  let raw := if str_contains "://" raw then raw else "http://" +:+ raw in
  let! _ := urlparse raw in
  let '(scheme, rest) := split_scheme (url_clean raw) in
  let loc := netloc rest in
  check! String.eqb loc "" else ValueError "Invalid router value" ;;
  let path := str_or (url_path scheme rest) (str_or router_api_path "/v1") in
  let path := if String.prefix "/" path then path else "/" +:+ path in
  Ok (rstrip_slash (url_of (str_or scheme "http") loc path), path).

Record RegisterRequest : Type := {
  rr_blackbox_type : string;
  router : string;
  router_api_path : string;
  rr_bound_session_id : option string;
  rr_bound_instance_id : option string;
  rr_bound_sandbox_id : option string;
  system_prompt_file : option string;
  backend_options : list (string * pyval);
  server_config : option ServerConfigOverride }.

Definition opt_str (o : option string) : pyval := from_option PStr PNone o.

(** [abspath] is [os.path.abspath]. *)
Definition binding_request_fingerprint `{PyText} (abspath : string -> string)
    (r : RegisterRequest) (router_base_url : string) : string :=
  sha256_hex (PDict [
    ("blackbox_type", PStr (rr_blackbox_type r));
    ("router_base_url", PStr router_base_url);
    ("bound_session_id", opt_str (rr_bound_session_id r));
    ("bound_instance_id", opt_str (rr_bound_instance_id r));
    ("bound_sandbox_id", opt_str (rr_bound_sandbox_id r));
    ("system_prompt_file", opt_str (abspath <$> system_prompt_file r));
    ("backend_options", PDict (backend_options r));
    ("server_config", PDict (from_option explicit_values [] (server_config r)))]).

(** ** Sessions and turns *)

Inductive ServerState : Type := IDLE | INITIALIZING | READY | ERROR | SHUTTING_DOWN.
Inductive SessionState : Type := ACTIVE | DESYNCED | ABORTED.
Inductive TurnStatus : Type := QUEUED | INFLIGHT | COMMITTED | FAILED | CANCELLED | UNKNOWN.

#[export] Instance ServerState_eq_dec : EqDecision ServerState.
Proof. solve_decision. Defined.
#[export] Instance SessionState_eq_dec : EqDecision SessionState.
Proof. solve_decision. Defined.
#[export] Instance TurnStatus_eq_dec : EqDecision TurnStatus.
Proof. solve_decision. Defined.

Record TurnRecord : Type := {
  turn_id : string;
  request_fingerprint : string;
  status : TurnStatus;
  request_messages : list Message;
  response : option AdapterResponse;
  error : option (list (string * pyval));
  created_at : Z;
  updated_at : Z }.

Record SessionContext : Type := {
  session_id : string;
  s_state : SessionState;
  s_blackbox_type : string;
  backend_session_id : option string;
  router_base_url : string;
  conversation_history : list Message;
  trace_events : list TraceEvent;
  turn_ledger : list (string * TurnRecord);
  turn_count : Z;
  s_created_at : Z;
  s_updated_at : Z;
  metadata : list (string * pyval) }.

(** Updates of a record's fields. *)
Definition settle_record (st : TurnStatus) (resp : option AdapterResponse)
    (err : option (list (string * pyval))) (now : Z) (r : TurnRecord) : TurnRecord := {|
  turn_id := turn_id r; request_fingerprint := request_fingerprint r; status := st;
  request_messages := request_messages r; response := resp; error := err;
  created_at := created_at r; updated_at := now |}.

Definition with_ledger (l : list (string * TurnRecord)) (s : SessionContext) : SessionContext := {|
  session_id := session_id s; s_state := s_state s; s_blackbox_type := s_blackbox_type s;
  backend_session_id := backend_session_id s; router_base_url := router_base_url s;
  conversation_history := conversation_history s; trace_events := trace_events s;
  turn_ledger := l; turn_count := turn_count s; s_created_at := s_created_at s;
  s_updated_at := s_updated_at s; metadata := metadata s |}.

Definition with_state (st : SessionState) (now : Z) (s : SessionContext) : SessionContext := {|
  session_id := session_id s; s_state := st; s_blackbox_type := s_blackbox_type s;
  backend_session_id := backend_session_id s; router_base_url := router_base_url s;
  conversation_history := conversation_history s; trace_events := trace_events s;
  turn_ledger := turn_ledger s; turn_count := turn_count s; s_created_at := s_created_at s;
  s_updated_at := now; metadata := metadata s |}.

Definition touch (now : Z) (s : SessionContext) : SessionContext := with_state (s_state s) now s.

Definition with_metadata (m : list (string * pyval)) (s : SessionContext) : SessionContext := {|
  session_id := session_id s; s_state := s_state s; s_blackbox_type := s_blackbox_type s;
  backend_session_id := backend_session_id s; router_base_url := router_base_url s;
  conversation_history := conversation_history s; trace_events := trace_events s;
  turn_ledger := turn_ledger s; turn_count := turn_count s; s_created_at := s_created_at s;
  s_updated_at := s_updated_at s; metadata := m |}.

(** ** The session store *)

Section Store.
Variable session_of : nat -> option SessionContext.     (* the session objects *)

Definition sessions_in (store : list (string * nat)) : list SessionContext :=
  omap (fun kv => session_of (snd kv)) store.

(** [min] by [(updated_at, created_at, session_id)] *)
Definition age (s : SessionContext) : Z * Z * string := (s_updated_at s, s_created_at s, session_id s).

Definition age_ltb (a b : Z * Z * string) : bool :=
  match Z.compare (fst (fst a)) (fst (fst b)) with
  | Lt => true
  | Gt => false
  | Eq => match Z.compare (snd (fst a)) (snd (fst b)) with
          | Lt => true
          | Gt => false
          | Eq => match String.compare (snd a) (snd b) with Lt => true | _ => false end
          end
  end.

Definition older (a b : SessionContext) : bool := age_ltb (age a) (age b).

Definition aborted_in (store : list (string * nat)) : list SessionContext :=
  List.filter (fun s => bool_decide (s_state s = ABORTED)) (sessions_in store).

Definition _evict_oldest_aborted_locked (store : list (string * nat)) : list (string * nat) :=
  match aborted_in store with
  | [] => store
  | s :: l => dpop store (session_id (min_by older s l))
  end.

(** The session's object and whether the factory has to make it, as object [fresh]; [None]
    is [SessionCapacityError]. *)
Definition get_or_create (sid : string) (fresh : nat) (capacity : Z) (store : list (string * nat))
    : option (nat * bool) * list (string * nat) :=
  match dget store sid with
  | Some o => (Some (o, false), store)
  | None =>
      let store := if (capacity <=? Z.of_nat (length store))%Z
                   then _evict_oldest_aborted_locked store else store in
      if (capacity <=? Z.of_nat (length store))%Z then (None, store)
      else (Some (fresh, true), dset store sid fresh)
  end.

Definition counts (store : list (string * nat)) : Z * Z * Z * Z :=
  let count st := Z.of_nat (count_by (fun s => bool_decide (s_state s = st)) (sessions_in store)) in
  (count ACTIVE, count DESYNCED, count ABORTED, Z.of_nat (length store)).

Definition has_open_sessions (store : list (string * nat)) : bool :=
  existsb (fun s => bool_decide (s_state s = ACTIVE) || bool_decide (s_state s = DESYNCED))
    (sessions_in store).
End Store.

(** [mark_all_non_aborted_desynced], on one session *)
Definition desync (now : Z) (s : SessionContext) : SessionContext :=
  if bool_decide (s_state s = ABORTED) then s else with_state DESYNCED now s.

(** ** Fingerprints tell requests apart *)

Section FingerprintTheorems.
Context `{PyText}.

Fixpoint canon_items (d : list (string * pyval)) : list (string * pyval) :=
  match d with
  | [] => []
  | (k, x) :: d' => if is_pnone x then canon_items d' else (k, canonicalize x) :: canon_items d'
  end.

Lemma canonicalize_dict d : canonicalize (PDict d) = PDict (sort_by key_leb (canon_items d)).
Proof using.
  simpl. by do 2 f_equal.
Qed.

Lemma canon_items_keys d : dkeys (canon_items d) `sublist_of` dkeys d.
Proof using.
  induction d as [|[k x] d IH]; [done|]. simpl. destruct (is_pnone x); simpl; by constructor.
Qed.

Lemma canon_items_Forall (P : pyval -> Prop) d :
  Forall (fun kv => P (canonicalize (snd kv))) d -> Forall (fun kv => P (snd kv)) (canon_items d).
Proof using.
  induction d as [|[k x] d IH]; intros F; [constructor|]. apply Forall_cons in F as [Fx F].
  simpl. destruct (is_pnone x); [auto|]. constructor; auto.
Qed.

Lemma canonicalize_plain v : json_plain v -> json_plain (canonicalize v).
Proof using.
  induction v as [|b|z|f|s|l IH|d IH] using pyval_ind_strong; intros J; try done.
  - apply json_plain_list in J. change (json_plain (PList (map canonicalize l))).
    apply json_plain_list, Forall_map. rewrite Forall_forall in *. auto.
  - apply json_plain_dict in J as [ND J]. rewrite canonicalize_dict. apply json_plain_dict. split.
    + unfold dkeys. rewrite sort_by_perm. by eapply sublist_NoDup; [|apply canon_items_keys].
    + rewrite sort_by_perm. apply canon_items_Forall. rewrite Forall_forall in *. auto.
Qed.

Lemma canonicalize_sorted v : json_sorted (canonicalize v) = canonicalize v.
Proof using.
  induction v as [|b|z|f|s|l IH|d IH] using pyval_ind_strong; try done.
  - cbn [canonicalize json_sorted]. f_equal. rewrite map_map. apply map_ext_in.
    intros x Hx. rewrite Forall_forall in IH. apply IH. by apply list_elem_of_In.
  - rewrite canonicalize_dict, json_sorted_dict. f_equal.
    rewrite (sort_by_id key_leb (sort_by key_leb _)) by
      (apply sort_by_sorted; [apply key_leb_total|apply key_leb_trans]).
    transitivity (map id (sort_by key_leb (canon_items d))); [|by rewrite map_id].
    apply map_ext_in. intros [k x] Hx. unfold sorted_item. simpl. f_equal.
    apply (canon_items_Forall (fun v => json_sorted v = v)) in IH.
    rewrite Forall_forall in IH. apply (IH (k, x)).
    apply list_elem_of_In in Hx. by rewrite sort_by_perm in Hx.
Qed.

(** Two values have one text exactly when they differ at most in entries that are [None] and
    in the order of keys. *)
Lemma stable_json_iff a b : json_plain a -> json_plain b ->
  stable_json a = stable_json b <-> canonicalize a = canonicalize b.
Proof using.
  intros Ja Jb. unfold stable_json. split; [|by intros ->]. intros E.
  apply (f_equal json_loads) in E.
  rewrite !loads_dumps, !canonicalize_sorted in E by auto using canonicalize_plain. by injection E.
Qed.

Lemma canon_get d k : NoDup (dkeys d) ->
  dget (sort_by key_leb (canon_items d)) k
  = x ← dget d k; if is_pnone x then None else Some (canonicalize x).
Proof using.
  intros ND. rewrite <- (dget_perm (canon_items d)); cycle 1.
  { by eapply sublist_NoDup; [|apply canon_items_keys]. }
  { by rewrite sort_by_perm. }
  induction d as [|[k' x] d IH]; [done|]. apply NoDup_cons in ND as [Nk ND].
  specialize (IH ND). simpl. destruct (decide (k = k')) as [->|Hk].
  - destruct (is_pnone x) eqn:X; simpl; rewrite ?decide_True, ?X by done; [|done].
    rewrite IH. by rewrite (proj2 (dget_None_key d k') Nk).
  - destruct (is_pnone x); simpl; rewrite ?decide_False by done; done.
Qed.

Lemma tool_call_dump_canon t t' :
  canonicalize (tool_call_dump t) = canonicalize (tool_call_dump t') -> t = t'.
Proof using. destruct t as [i [n a]], t' as [i' [n' a']]. vm_compute. by intros [= -> -> ->]. Qed.

Lemma dumps_inj {A} (f : A -> pyval) l l' :
  (forall x y, canonicalize (f x) = canonicalize (f y) -> x = y) ->
  map canonicalize (map f l) = map canonicalize (map f l') -> l = l'.
Proof using.
  intros F. revert l'. induction l as [|x l IH]; intros [|y l'] E; try done.
  injection E as E1 E2. f_equal; auto.
Qed.

Definition message_items (m : Message) : list (string * pyval) :=
  match message_dump m with PDict d => d | _ => [] end.

Lemma message_items_NoDup m : NoDup (dkeys (message_items m)).
Proof using.
  apply (bool_decide_eq_true (NoDup (dkeys (message_items m)))).
  by destruct m as [r [] [] [] [] []].
Qed.

Lemma message_plain m : json_plain (message_dump m).
Proof using.
  change (json_plain (PDict (message_items m))). apply json_plain_dict.
  split; [apply message_items_NoDup|]. apply Forall_forall. intros [k x] Hx. simpl.
  assert (Hs : forall l, json_plain (PList (map tool_call_dump l))).
  { intros l. apply json_plain_list, Forall_map, Forall_true. intros [i [n a]].
    vm_compute. repeat split; repeat constructor; set_solver. }
  unfold message_items in Hx. simpl in Hx.
  destruct m as [r [] [] [] [] []]; simpl in Hx; set_solver.
Qed.

(** A field of the dump. *)
Definition field (m : Message) (k : string) : option pyval :=
  x ← dget (message_items m) k; if is_pnone x then None else Some (canonicalize x).

Lemma message_fields m :
  field m "role" = Some (PStr (role m)) /\ field m "content" = PStr <$> content m
  /\ field m "reasoning_content" = PStr <$> reasoning_content m
  /\ field m "tool_calls" = (fun l => PList (map canonicalize (map tool_call_dump l))) <$> tool_calls m
  /\ field m "tool_call_id" = PStr <$> tool_call_id m /\ field m "name" = PStr <$> name m.
Proof using. by destruct m as [r [] [] [] [] []]. Qed.

Lemma PStr_fmap_inj (a b : option string) : PStr <$> a = PStr <$> b -> a = b.
Proof using. destruct a, b; simpl; congruence. Qed.

Lemma message_dump_canon m m' :
  canonicalize (message_dump m) = canonicalize (message_dump m') -> m = m'.
Proof using.
  change (canonicalize (PDict (message_items m)) = canonicalize (PDict (message_items m')) -> m = m').
  rewrite !canonicalize_dict. intros E0.
  assert (E : sort_by key_leb (canon_items (message_items m)) = sort_by key_leb (canon_items (message_items m')))
    by (apply (f_equal (fun v => match v with PDict d => d | _ => [] end) E0)).
  assert (G : forall k, field m k = field m' k).
  { intros k. unfold field. rewrite <- !canon_get by apply message_items_NoDup. by rewrite E. }
  clear E E0.
  pose proof (G "role") as G1. pose proof (G "content") as G2. pose proof (G "reasoning_content") as G3.
  pose proof (G "tool_calls") as G4. pose proof (G "tool_call_id") as G5. pose proof (G "name") as G6.
  destruct (message_fields m) as (F1 & F2 & F3 & F4 & F5 & F6).
  destruct (message_fields m') as (F1' & F2' & F3' & F4' & F5' & F6').
  rewrite F1, F1' in G1. rewrite F2, F2' in G2. rewrite F3, F3' in G3.
  rewrite F4, F4' in G4. rewrite F5, F5' in G5. rewrite F6, F6' in G6. clear G F1 F2 F3 F4 F5 F6 F1' F2' F3' F4' F5' F6'.
  destruct m as [r c rc tc ti n], m' as [r' c' rc' tc' ti' n']. simpl in *.
  assert (tc = tc') as ->.
  { destruct tc as [l|], tc' as [l'|]; try done. f_equal. injection G4 as G4.
    by apply (dumps_inj tool_call_dump), G4; apply tool_call_dump_canon. }
  injection G1 as ->. f_equal; by apply PStr_fmap_inj.
Qed.

(** C18: The text whose hash is the fingerprint of a list of messages determines the messages:
    two turns with equal texts carry equal messages, so a turn id that is used again is
    replayed only for the request it was first used with, unless SHA-256 collides. *)
Theorem fingerprint_text_faithful l l' :
  stable_json (PList (map message_dump l)) = stable_json (PList (map message_dump l')) <-> l = l'.
Proof using.
  split; [|by intros ->]. intros E.
  apply stable_json_iff in E; [|apply json_plain_list, Forall_map, Forall_true, message_plain..].
  injection E as E. apply (dumps_inj message_dump), E. apply message_dump_canon.
Qed.
End FingerprintTheorems.

(** ** The store keeps its capacity *)

Section StoreTheorems.
Variable session_of : nat -> option SessionContext.

(** What the store knows of its sessions: distinct ids, each the id of its object. *)
Record store_ok (store : list (string * nat)) : Prop := {
  store_keys : NoDup (dkeys store);
  store_sessions : forall sid o, (sid, o) ∈ store ->
    exists s, session_of o = Some s /\ session_id s = sid }.

#[local] Instance age_ltb_total : TotalLt age_ltb.
Proof using.
  split; unfold age_ltb.
  - intros [[u c] n]. simpl. by rewrite !Z.compare_refl, string_compare_refl.
  - intros [[u c] n] [[u' c'] n'] [[u'' c''] n'']. simpl.
    destruct (Z.compare_spec u u'), (Z.compare_spec u' u''), (Z.compare_spec u u''),
      (Z.compare_spec c c'), (Z.compare_spec c' c''), (Z.compare_spec c c''); try done; try lia.
    destruct (String.compare n n') eqn:E, (String.compare n' n'') eqn:E'; try done.
    by rewrite (string_compare_lt_trans _ _ _ E E').
  - intros [[u c] n] [[u' c'] n']. simpl.
    destruct (Z.compare_spec u u'), (Z.compare_spec u' u), (Z.compare_spec c c'),
      (Z.compare_spec c' c); try done; try lia. subst.
    rewrite (String.compare_antisym n' n).
    destruct (String.compare n n') eqn:E; try done. intros _ _. by apply String.compare_eq_iff in E as ->.
Qed.

Lemma oldest_in s l : min_by older s l ∈ s :: l.
Proof using. destruct (min_by_in older s l) as [->|]; [left|by right]. Qed.

Lemma oldest_least s l s' : s' ∈ s :: l -> older s' (min_by older s l) = false.
Proof using.
  intros Hs. unfold older at 1.
  change (age_ltb (age s') (age (min_by (fun a b => age_ltb (age a) (age b)) s l)) = false).
  rewrite (min_by_map age age_ltb). apply (min_by_least age_ltb).
  apply elem_of_cons in Hs as [->|Hs]; [by left|right]. by apply elem_of_map_intro.
Qed.

Lemma elem_of_aborted store s :
  s ∈ aborted_in session_of store
  <-> s_state s = ABORTED /\ exists sid o, (sid, o) ∈ store /\ session_of o = Some s.
Proof using.
  unfold aborted_in, sessions_in. rewrite list_elem_of_In, List.filter_In, <- list_elem_of_In, bool_decide_eq_true.
  rewrite list_elem_of_omap. split.
  - intros ([[sid o] [Hin E]] & A). eauto.
  - intros (A & sid & o & Hin & E). split; [|done]. by exists (sid, o).
Qed.

(** An eviction removes one aborted session, none of the aborted being older. *)
Lemma evict_spec store (store' := _evict_oldest_aborted_locked session_of store) : store_ok store ->
  store' = store /\ aborted_in session_of store = []
  \/ exists sid o s, store ≡ₚ (sid, o) :: store' /\ session_of o = Some s /\ s_state s = ABORTED
       /\ forall s', s' ∈ aborted_in session_of store -> older s' s = false.
Proof using.
  intros [ND OK]. subst store'. unfold _evict_oldest_aborted_locked.
  destruct (aborted_in session_of store) as [|s l] eqn:A; [by left|]. right.
  pose proof (oldest_in s l) as Hin. pose proof (oldest_least s l) as Hle.
  set (m := min_by older s l) in *. rewrite <- A in Hin. apply elem_of_aborted in Hin as (Hs & sid & o & Hin & E).
  exists sid, o, m. destruct (OK _ _ Hin) as (m' & E' & <-). assert (m' = m) as -> by congruence.
  split_and!; auto. apply dget_dpop_perm. by apply dget_NoDup_elem.
Qed.

Lemma store_ok_perm store store' kv : store ≡ₚ kv :: store' -> store_ok store -> store_ok store'.
Proof using.
  intros P [ND OK]. split.
  - unfold dkeys in ND. rewrite P in ND. by apply NoDup_cons in ND as [_ ND].
  - intros sid o Hin. apply OK. rewrite P. by right.
Qed.

(** A session is found under its id, or is created when the store, after evicting the
    aborted session that was left alone longest, is below its capacity.  No session that is
    not aborted is ever evicted, no other than the one found or created is added, and the
    store does not outgrow its capacity. *)
Theorem get_or_create_capacity store sid fresh capacity :
  store_ok store ->
  let '(found, store') := get_or_create session_of sid fresh capacity store in
  (forall o, dget store sid = Some o -> found = Some (o, false) /\ store' = store)
  /\ (dget store sid = None ->
        match found with
        | None => (capacity <= Z.of_nat (length store'))%Z
        | Some (o, created) => o = fresh /\ created = true /\ (Z.of_nat (length store') <= capacity)%Z
                                /\ dget store' sid = Some fresh
        end)
  /\ (forall sid' o s, sid' <> sid -> dget store sid' = Some o -> session_of o = Some s ->
        s_state s <> ABORTED -> dget store' sid' = Some o)
  /\ (forall sid', sid' <> sid -> dget store' sid' = dget store sid' \/ dget store' sid' = None)
  /\ (length store <= length store' + 1)%nat.
Proof using.
  intros OK. unfold get_or_create. destruct (dget store sid) as [o|] eqn:G.
  { split_and!; try naive_solver; lia. }
  set (room := if (capacity <=? Z.of_nat (length store))%Z then _ else store).
  assert (ROOM : store = room \/ exists sid' o s, store ≡ₚ (sid', o) :: room /\ session_of o = Some s
                   /\ s_state s = ABORTED).
  { subst room. case_match; [|by left]. destruct (evict_spec store OK) as [[-> _]|(?&?&?&?&?&?&_)];
      [by left|right]. eauto 10. }
  assert (OK' : store_ok room) by (destruct ROOM as [<-|(?&?&?&P&_)]; [done|by eapply store_ok_perm]).
  assert (NG : dget room sid = None).
  { destruct ROOM as [<-|(sid' & o & s & P & _)]; [done|]. rewrite dget_None_key in *.
    intros Hin. apply G. unfold dkeys in *. rewrite P. by right. }
  assert (KEEP : forall sid' o s, dget store sid' = Some o -> session_of o = Some s ->
            s_state s <> ABORTED -> dget room sid' = Some o).
  { intros sid' o s Hg Ho Hs. destruct ROOM as [<-|(sid'' & o' & s' & P & Ho' & A)]; [done|].
    rewrite (dget_perm _ _ _ (store_keys _ OK) P) in Hg. simpl in Hg. case_decide; [|done]. congruence. }
  assert (SUB : forall sid', dget room sid' = dget store sid' \/ dget room sid' = None).
  { intros sid'. destruct ROOM as [<-|(sid'' & o' & s' & P & Ho' & A)]; [by left|].
    rewrite (dget_perm _ _ _ (store_keys _ OK) P). simpl. case_decide; [|by left].
    right. subst. apply dget_None_key. pose proof (store_keys _ OK) as ND. unfold dkeys in ND.
    rewrite P in ND. by apply NoDup_cons in ND as [? _]. }
  assert (LEN : (length store <= length room + 1)%nat).
  { destruct ROOM as [<-|(?&?&?&P&_)]; [lia|]. rewrite P. simpl. lia. }
  clearbody room. destruct (Z.leb_spec capacity (Z.of_nat (length room))).
  - split_and!; try naive_solver.
  - rewrite dset_fresh by (by apply dget_None_key). split_and!; try naive_solver.
    + intros _. rewrite length_app. simpl. split_and!; try done; [lia|].
      rewrite <- dset_fresh by (by apply dget_None_key). apply dget_dset_eq.
    + intros sid' o s Hne. rewrite <- dset_fresh by (by apply dget_None_key).
      rewrite dget_dset_ne by done. eauto.
    + intros sid' Hne. rewrite <- dset_fresh by (by apply dget_None_key).
      rewrite dget_dset_ne by done. eauto.
    + rewrite length_app. lia.
Qed.

End StoreTheorems.

(** A store of one session that may keep one: the session is aborted, so a new one takes its
    place. *)
Example get_or_create_capacity_witness :
  let s := {| session_id := "a"; s_state := ABORTED; s_blackbox_type := "codex"; backend_session_id := None;
              router_base_url := ""; conversation_history := []; trace_events := []; turn_ledger := [];
              turn_count := 0; s_created_at := 0; s_updated_at := 5; metadata := [] |} in
  let session_of (o : nat) := match o with O => Some s | _ => None end in
  store_ok session_of [("a", 0%nat)]
  /\ get_or_create session_of "b" 1 1 [("a", 0%nat)] = (Some (1%nat, true), [("b", 1%nat)])
  /\ (forall sid' o s, sid' <> "b" -> dget [("a", 0%nat)] sid' = Some o -> session_of o = Some s ->
        s_state s <> ABORTED -> dget [("b", 1%nat)] sid' = Some o).
Proof.
  intros s session_of.
  assert (OK : store_ok session_of [("a", 0%nat)]).
  { split; [repeat constructor; set_solver|]. intros sid o [= -> ->]%list_elem_of_singleton. by exists s. }
  split_and!; [done|by vm_compute|].
  exact (proj1 (proj2 (proj2 (get_or_create_capacity session_of [("a", 0%nat)] "b" 1 1 OK)))).
Defined.

