(* ===== verification/BlackboxServer.v ===== *)
(** * The blackbox server ([blackbox_server/core/server.py], [core/monitoring.py])

    A server is bound to one rollout: it keeps a backend adapter and a session whose turns
    run one at a time.  A request or a background turn is a task with a program counter;
    [step] runs one task from an await to the next with the answer of what it waited for,
    and [event] lets tasks take such sections in any order.  Session objects ([objs]) are
    shared by the store and by the tasks that hold them, and each carries the lock the
    store keeps for it.  [_handle_unknown_turn], [_run_turn], [submit_turn] and the others
    are cut exactly where they wait: for the pause to end, for a session's lock, for the
    adapter, for an event. *)

From Stdlib Require Import Ascii.
From S2P Require Import Prelude.
From S2P Require Import PyFloat.
From S2P Require Import PyVal.
From S2P Require Import Routing.
From S2P Require Import Paddock.
From S2P Require Import ServerModels.

Local Open Scope string_scope.
Local Open Scope list_scope.
Local Open Scope py_scope.

(** ** Requests, answers, outcomes *)

Record MessageRequest : Type := {
  mr_turn_id : option string;
  messages : list Message;
  mr_metadata : list (string * pyval) }.

Record TurnSubmission : Type := {
  ts_turn_id : string;
  ts_status : TurnStatus;
  idempotent_replay : bool;
  instance_id : option string }.

Record SystemPrompt : Type := { source_file : string; runtime_file : string; applies_to : string }.

Record BindingInfo : Type := {
  runtime_id : string;
  b_blackbox_type : string;
  router_raw : string;
  b_router_base_url : string;
  b_router_api_path : string;
  bound_session_id : string;
  bound_instance_id : string;
  bound_sandbox_id : option string;
  system_prompt : option SystemPrompt;
  runtime_dir : string;
  registered_at : Z;
  b_backend_options : list (string * pyval) }.

Record ProxyOptions : Type := {
  sticky_header_name : string;
  max_steps : option Z;
  default_temperature : option float;
  sampling_mode : option string;
  sampling_seed_base : option Z }.

(** How [_run_turn]'s call of the adapter ends; the timeout is the server's own. *)
Inductive backend_answer : Type :=
| Answered (r : AdapterResponse)
| BackendTimeout
| BackendContextOverflow (message : string) (details : list (string * pyval))
| BackendMaxStepsExceeded (message : string) (details : list (string * pyval))
| BackendFailure (process : bool) (message : string)
| BackendUnexpected (message : string).

Record failure : Type := {
  fl_error : string;
  fl_message : string;
  fl_http_status : Z;
  fl_extra_details : list (string * pyval);
  fl_process_error : bool }.

Definition outcome (a : backend_answer) : AdapterResponse + failure :=
  match a with
  | Answered r => inl r
  | BackendTimeout =>
      inr {| fl_error := "backend_timeout"; fl_message := "Backend call exceeded backend_timeout.";
             fl_http_status := 504; fl_extra_details := []; fl_process_error := false |}
  | BackendContextOverflow m d =>
      inr {| fl_error := "context_overflow"; fl_message := m; fl_http_status := 413;
             fl_extra_details := d; fl_process_error := false |}
  | BackendMaxStepsExceeded m d =>
      inr {| fl_error := "max_steps_exceeded"; fl_message := m; fl_http_status := 429;
             fl_extra_details := d; fl_process_error := false |}
  | BackendFailure p m =>
      inr {| fl_error := "backend_error"; fl_message := "Backend request failed: " +:+ m;
             fl_http_status := 502; fl_extra_details := []; fl_process_error := p |}
  | BackendUnexpected m =>
      inr {| fl_error := "internal_error"; fl_message := "Unexpected backend failure: " +:+ m;
             fl_http_status := 500; fl_extra_details := []; fl_process_error := false |}
  end.

Record MessageResponse : Type := {
  r_turn_id : string;
  r_state : SessionState;
  r_replay : bool;
  r_outputs : list Message;
  r_backend_type : string;
  r_backend_session_id : string;
  r_usage : TurnUsage }.

Record TurnStatusResponse : Type := {
  t_turn_id : string;
  t_status : TurnStatus;
  t_state : SessionState;
  t_result : option (list Message * TurnUsage * (string * string));
  t_error : option (list (string * pyval));
  t_created_at : Z;
  t_updated_at : Z }.

Inductive reply : Type :=
| Submitted (s : TurnSubmission)
| Message_ (m : MessageResponse)
| TurnOf (t : TurnStatusResponse)
| CancelOf (status : string) (state : SessionState)
| CmdResult (r : list (string * pyval))
| AbortOf (state : SessionState) (mode : string)
| Registered (existing : bool)
| Paused (already : bool) (result : list (string * pyval))
| Resumed (was_paused : bool) (result : list (string * pyval))
| Nothing
| Failed_ (e : ApiError).

(** ** The server's state *)

Record Server : Type := {
  _state : ServerState;
  _base_config : BlackboxServerConfig;
  _effective_config : BlackboxServerConfig;
  _adapter : option nat;
  _binding : option BindingInfo;
  _binding_request_fingerprint : option string;
  _capabilities : option BackendCapabilities;
  _monitoring : bool;
  _init_lock : option nat;
  _shutdown_started : bool;
  _paused : bool;
  _pause_reason : option string;
  _current_version : option string }.

(** A session object with its lock's holder. *)
Record Obj : Type := { ctx : SessionContext; holder : option nat }.

(** Where a task waits. *)
Inductive pc : Type :=
| SubmitPaused (sid : string) (req : MessageRequest) (sync : bool)
| SubmitLock (o : nat) (sid : string) (req : MessageRequest) (sync : bool)
| SubmitHealth (o : nat) (sid tid fp : string) (req : MessageRequest) (sync : bool)
| SendWait (sid bound : string) (sub : TurnSubmission) (ev : option nat)
| SendLock (o : nat) (sid : string) (sub : TurnSubmission)
| RunStart (sid tid : string) (req : MessageRequest)
| RunLock (o : nat) (sid tid : string) (req : MessageRequest)
| RunCall (o : nat) (sid tid : string) (req : MessageRequest)
| RunInterrupted (o : nat) (sid tid : string)
| RunSettle (o : nat) (sid tid : string) (req : MessageRequest) (out : AdapterResponse + failure)
| RunAbort (o : nat) (sid tid : string) (f : failure)
| RunHealth (o : nat) (sid tid : string) (f : failure)
| CancelLock (o : nat) (sid tid : string)
| CancelAbort (status : string) (state : SessionState)
| GetWait (o : nat) (sid tid : string) (ev : option nat)
| GetLock (o : nat) (sid tid : string)
| CmdLock (o : nat) (sid cmd : string)
| CmdRun (o : nat)
| AbortTerminate (o : nat) (sid : string)
| AbortLock (o : nat) (sid : string)
| AbortAdapter (o : nat) (sid : string) (acquired : bool)
| RegLock (r : RegisterRequest) (base_url api_path : string) (prompt : option string)
    (cfg : BlackboxServerConfig) (po : ProxyOptions) (fp : string)
| RegTeardown (reset : bool) (r : RegisterRequest) (base_url api_path : string) (prompt : option string)
    (cfg : BlackboxServerConfig) (po : ProxyOptions)
| RegInit (b : BindingInfo) (cfg : BlackboxServerConfig)
| PauseAdapter (already : bool)
| ResumeAdapter (version : option string)
| ShutdownCmds
| ShutdownTurns
| Done (r : reply).

Record Task : Type := { at_ : pc; cancelling : bool }.

(** The calls made to adapters. *)
Inductive acall : Type :=
| SendMessage (o : nat) (tid : string) (sent : list Message)
| AbortSession (o : nat).

Record World : Type := {
  srv : Server;
  objs : list Obj;
  _sessions : list (string * nat);
  events : list bool;
  _turn_events : list ((string * string) * nat);
  _active_turn_tasks : list (string * nat);
  tasks : list Task;
  calls : list acall }.

Definition with_srv (s : Server) (w : World) : World := {|
  srv := s; objs := objs w; _sessions := _sessions w; events := events w;
  _turn_events := _turn_events w; _active_turn_tasks := _active_turn_tasks w; tasks := tasks w;
  calls := calls w |}.

Definition with_objs (l : list Obj) (w : World) : World := {|
  srv := srv w; objs := l; _sessions := _sessions w; events := events w;
  _turn_events := _turn_events w; _active_turn_tasks := _active_turn_tasks w; tasks := tasks w;
  calls := calls w |}.

Definition with_sessions (l : list (string * nat)) (w : World) : World := {|
  srv := srv w; objs := objs w; _sessions := l; events := events w;
  _turn_events := _turn_events w; _active_turn_tasks := _active_turn_tasks w; tasks := tasks w;
  calls := calls w |}.

Definition with_events (l : list bool) (d : list ((string * string) * nat)) (w : World) : World := {|
  srv := srv w; objs := objs w; _sessions := _sessions w; events := l; _turn_events := d;
  _active_turn_tasks := _active_turn_tasks w; tasks := tasks w; calls := calls w |}.

Definition with_active (d : list (string * nat)) (w : World) : World := {|
  srv := srv w; objs := objs w; _sessions := _sessions w; events := events w;
  _turn_events := _turn_events w; _active_turn_tasks := d; tasks := tasks w; calls := calls w |}.

Definition with_tasks (l : list Task) (w : World) : World := {|
  srv := srv w; objs := objs w; _sessions := _sessions w; events := events w;
  _turn_events := _turn_events w; _active_turn_tasks := _active_turn_tasks w; tasks := l;
  calls := calls w |}.

Definition called (c : acall) (w : World) : World := {|
  srv := srv w; objs := objs w; _sessions := _sessions w; events := events w;
  _turn_events := _turn_events w; _active_turn_tasks := _active_turn_tasks w; tasks := tasks w;
  calls := calls w ++ [c] |}.

(** The task goes on waiting at [p]; a cancellation it received is spent. *)
Definition goto (t : nat) (p : pc) (w : World) : World :=
  with_tasks (<[t := {| at_ := p; cancelling := false |}]> (tasks w)) w.

Definition spawn (p : pc) (w : World) : World :=
  with_tasks (tasks w ++ [{| at_ := p; cancelling := false |}]) w.

Definition fail (t : nat) (e : ApiError) (w : World) : World := goto t (Done (Failed_ e)) w.

Definition cancel (t : nat) (w : World) : World :=
  with_tasks (alter (fun k => {| at_ := at_ k; cancelling := true |}) t (tasks w)) w.

(** [session_lock] *)
Definition set_holder (h : option nat) (x : Obj) : Obj := {| ctx := ctx x; holder := h |}.
Definition on_ctx (f : SessionContext -> SessionContext) (x : Obj) : Obj :=
  {| ctx := f (ctx x); holder := holder x |}.

Definition update (o : nat) (f : SessionContext -> SessionContext) (w : World) : World :=
  with_objs (alter (on_ctx f) o (objs w)) w.
Definition acquire (o t : nat) (w : World) : World := with_objs (alter (set_holder (Some t)) o (objs w)) w.
Definition release (o : nat) (w : World) : World := with_objs (alter (set_holder None) o (objs w)) w.

Definition set_event (e : nat) (w : World) : World := with_events (<[e := true]> (events w)) (_turn_events w) w.

Definition set_turn_event (sid tid : string) (w : World) : World :=
  match dget (_turn_events w) (sid, tid) with
  | Some e => set_event e w
  | None => w
  end.

Definition set_state (st : ServerState) (s : Server) : Server := {|
  _state := st; _base_config := _base_config s; _effective_config := _effective_config s;
  _adapter := _adapter s; _binding := _binding s;
  _binding_request_fingerprint := _binding_request_fingerprint s; _capabilities := _capabilities s;
  _monitoring := _monitoring s; _init_lock := _init_lock s; _shutdown_started := _shutdown_started s;
  _paused := _paused s; _pause_reason := _pause_reason s; _current_version := _current_version s |}.

(** The fields a registration replaces together. *)
Definition set_binding (a : option nat) (b : option BindingInfo) (c : option BackendCapabilities)
    (cfg : BlackboxServerConfig) (mon : bool) (s : Server) : Server := {|
  _state := _state s; _base_config := _base_config s; _effective_config := cfg;
  _adapter := a; _binding := b;
  _binding_request_fingerprint := _binding_request_fingerprint s; _capabilities := c;
  _monitoring := mon; _init_lock := _init_lock s; _shutdown_started := _shutdown_started s;
  _paused := _paused s; _pause_reason := _pause_reason s; _current_version := _current_version s |}.

Definition set_fingerprint (fp : option string) (s : Server) : Server := {|
  _state := _state s; _base_config := _base_config s; _effective_config := _effective_config s;
  _adapter := _adapter s; _binding := _binding s; _binding_request_fingerprint := fp;
  _capabilities := _capabilities s; _monitoring := _monitoring s; _init_lock := _init_lock s;
  _shutdown_started := _shutdown_started s;
  _paused := _paused s; _pause_reason := _pause_reason s; _current_version := _current_version s |}.

Definition set_init_lock (h : option nat) (s : Server) : Server := {|
  _state := _state s; _base_config := _base_config s; _effective_config := _effective_config s;
  _adapter := _adapter s; _binding := _binding s;
  _binding_request_fingerprint := _binding_request_fingerprint s; _capabilities := _capabilities s;
  _monitoring := _monitoring s; _init_lock := h; _shutdown_started := _shutdown_started s;
  _paused := _paused s; _pause_reason := _pause_reason s; _current_version := _current_version s |}.

Definition set_pause (p : bool) (reason version : option string) (s : Server) : Server := {|
  _state := _state s; _base_config := _base_config s; _effective_config := _effective_config s;
  _adapter := _adapter s; _binding := _binding s;
  _binding_request_fingerprint := _binding_request_fingerprint s; _capabilities := _capabilities s;
  _monitoring := _monitoring s; _init_lock := _init_lock s; _shutdown_started := _shutdown_started s;
  _paused := p; _pause_reason := reason; _current_version := version |}.

Definition set_shutdown (s : Server) : Server := {|
  _state := SHUTTING_DOWN; _base_config := _base_config s; _effective_config := _effective_config s;
  _adapter := _adapter s; _binding := _binding s;
  _binding_request_fingerprint := _binding_request_fingerprint s; _capabilities := _capabilities s;
  _monitoring := _monitoring s; _init_lock := _init_lock s; _shutdown_started := true;
  _paused := _paused s; _pause_reason := _pause_reason s; _current_version := _current_version s |}.

Definition on_srv (f : Server -> Server) (w : World) : World := with_srv (f (srv w)) w.

(** ** Checks of requests *)

Definition _TURN_MODE_KEY := "__bbs_turn_mode".
Definition _TURN_MODE_SINGLE := "single".
Definition _TURN_MODE_EXPLICIT := "explicit".
Definition _DEFAULT_TURN_ID_KEY := "__bbs_default_turn_id".
Definition _ACTIVE_TURN_STATUSES : list TurnStatus := [QUEUED; INFLIGHT].
Definition _TERMINAL_TURN_STATUSES : list TurnStatus := [COMMITTED; FAILED; CANCELLED; UNKNOWN].
Definition _POST_AGENT_COMMAND_ERROR_CODES : list string := ["context_overflow"; "max_steps_exceeded"].

Definition is_active (st : TurnStatus) : bool := bool_decide (st ∈ _ACTIVE_TURN_STATUSES).

Definition state_text (st : SessionState) : string :=
  match st with ACTIVE => "active" | DESYNCED => "desynced" | ABORTED => "aborted" end.

Definition status_text (st : TurnStatus) : string :=
  match st with
  | QUEUED => "queued" | INFLIGHT => "inflight" | COMMITTED => "committed" | FAILED => "failed"
  | CANCELLED => "cancelled" | UNKNOWN => "unknown"
  end.

(** [^[A-Za-z0-9][A-Za-z0-9._:-]{0,127}$] *)
Definition alnum (c : ascii) : bool :=
  let n := N_of_ascii c in
  ((48 <=? n) && (n <=? 57) || (65 <=? n) && (n <=? 90) || (97 <=? n) && (n <=? 122))%N.

Definition identifier (s : string) : bool :=
  match s with
  | EmptyString => false
  | String c s' => alnum c && all_chars (fun c => alnum c || bool_decide (c ∈ ["."; "_"; ":"; "-"]%char)) s'
                   && (String.length s' <=? 127)%nat
  end.

Definition _validate_identifier (field value : string) : option ApiError :=
  if identifier value then None
  else Some (Api 400 "request_error" (field +:+ " has invalid format.") [(field, PStr value)]).

Definition _ensure_state_ready_for_messages (s : Server) : option ApiError :=
  if bool_decide (_state s = READY) then None
  else Some (Api 503 "service_unavailable" "Server is not ready." []).

(** The session id the binding serves, if there is a binding. *)
Definition _require_bound_session_match (s : Server) (sid : string) : ApiError + option string :=
  match _binding s with
  | None => inr None
  | Some b =>
      if String.eqb sid (bound_session_id b) then inr (Some (bound_session_id b))
      else inl (Api 409 "bound_session_mismatch"
                    "This rollout binding only serves the registered session_id."
                    [("expected_session_id", PStr (bound_session_id b)); ("actual_session_id", PStr sid)])
  end.

Definition blank (s : string) : bool := String.eqb (strip s) "".

Definition _validate_message_request (s : Server) (ms : list Message) (c : BackendCapabilities)
    : option ApiError :=
  let bad m := Some (Api 400 "request_error" m []) in
  let other (m : Message) :=
    if String.eqb (role m) "system" then bad "/messages does not support role=system in phase 1."
    else if negb (history_injection c) && bool_decide (role m ∈ ["assistant"; "tool"])
    then bad "Current backend does not support assistant/tool history injection."
    else None in
  let others := match omap other ms with e :: _ => Some e | [] => None end in
  match ms with
  | [] => bad "messages must not be empty."
  | m :: rest =>
      if negb (multi_message_input c) && negb (bool_decide (rest = [])) then
        bad "Current backend accepts exactly one input message."
      else match _binding s with
           | Some b =>
               if bool_decide (b_blackbox_type b ∈ ["opencode"; "openclaw"; "claude_code"; "codex"])
               then if negb (String.eqb (role m) "user") then
                      bad (b_blackbox_type b +:+ " phase 1 only accepts a user message.")
                    else match content m with
                         | None => bad (b_blackbox_type b +:+ " phase 1 requires non-empty user content.")
                         | Some c => if blank c then
                                       bad (b_blackbox_type b +:+ " phase 1 requires non-empty user content.")
                                     else others
                         end
               else others
           | None => others
           end
  end.

Definition _validate_execute_cmd_request (cfg : BlackboxServerConfig) (cmd : string) (timeout : option float)
    : ApiError + (string * float) :=
  if blank cmd then inl (Api 400 "request_error" "cmd must not be empty." [])
  else if negb (all_chars (fun c => negb (bool_decide (N_of_ascii c ∈ [10; 13; 0]%N))) cmd)
  then inl (Api 400 "request_error" "cmd must be a single-line command." [])
  else inr (strip cmd, default (execute_cmd_timeout cfg) timeout).

Definition _response_instance_id (s : Server) : option string := bound_instance_id <$> _binding s.

(** ** Turns of a session *)

Definition _active_turn_id (s : SessionContext) : option string :=
  match List.find (fun kv => is_active (status (snd kv))) (turn_ledger s) with
  | Some (_, r) => Some (turn_id r)
  | None => None
  end.

(** [max] by [(updated_at, created_at, turn_id)]: the first of the greatest. *)
Definition later_turn (a b : TurnRecord) : bool :=
  age_ltb (updated_at b, created_at b, turn_id b) (updated_at a, created_at a, turn_id a).

Definition _session_allows_post_agent_commands (s : SessionContext) : bool :=
  match s_state s, map snd (turn_ledger s) with
  | DESYNCED, r :: rest =>
      let latest := min_by later_turn r rest in
      bool_decide (status latest = UNKNOWN)
      && match error latest with
         | Some e => match pget e "error" with
                     | PStr c => bool_decide (c ∈ _POST_AGENT_COMMAND_ERROR_CODES)
                     | _ => false
                     end
         | None => false
         end
  | _, _ => false
  end.

(** [fresh] is the generated id.  The mode is kept in the session's metadata even when the
    request fails later. *)
Definition _resolve_turn_id (fresh : string) (request_turn_id : option string) (s : SessionContext)
    : (ApiError + string) * SessionContext :=
  let mode := pget (metadata s) _TURN_MODE_KEY in
  let dflt := pget (metadata s) _DEFAULT_TURN_ID_KEY in
  let single := match mode with PStr m => String.eqb m _TURN_MODE_SINGLE | _ => false end in
  match request_turn_id with
  | None =>
      if match mode with PStr m => String.eqb m _TURN_MODE_EXPLICIT | _ => false end
      then (inl (Api 400 "request_error"
                     "turn_id is required after this session has used explicit turn ids."
                     [("session_id", PStr (session_id s))]), s)
      else match single, dflt with
           | true, PStr d => (inr d, s)
           | _, _ => (inr fresh,
                      with_metadata (dset (dset (metadata s) _TURN_MODE_KEY (PStr _TURN_MODE_SINGLE))
                                       _DEFAULT_TURN_ID_KEY (PStr fresh)) s)
           end
  | Some tid =>
      if single
      then match dflt with
           | PStr d => if String.eqb tid d then (inr tid, s)
                       else (inl (Api 409 "conflict" "This session uses a generated single-turn id." []), s)
           | _ => (inl (Api 409 "conflict" "This session uses a generated single-turn id." []), s)
           end
      else if is_pnone mode
      then (inr tid, with_metadata (dset (metadata s) _TURN_MODE_KEY (PStr _TURN_MODE_EXPLICIT)) s)
      else (inr tid, s)
  end.

Definition failed_details (s : SessionContext) (tid : string) : list (string * pyval) :=
  [("session_id", PStr (session_id s)); ("turn_id", PStr tid)].

Definition error_payload (code message : string) (status : Z) (details : list (string * pyval))
    : list (string * pyval) :=
  [("error", PStr code); ("message", PStr message); ("http_status", PInt status); ("details", PDict details)].

(** Settling a turn of a session: its record, when the turn is there, and the session's date. *)
Definition settle (tid : string) (st : TurnStatus) (err : list (string * pyval)) (now : Z)
    (s : SessionContext) : SessionContext :=
  match dget (turn_ledger s) tid with
  | Some r => touch now (with_ledger (dset (turn_ledger s) tid
                                        (settle_record st (response r) (Some err) now r)) s)
  | None => s
  end.

Definition desync_open (now : Z) (s : SessionContext) : SessionContext :=
  if bool_decide (s_state s = ABORTED) then touch now s else with_state DESYNCED now s.

Definition _finalize_interrupted_turn_locked (shutdown : bool) (tid : string) (now : Z)
    (s : SessionContext) : SessionContext :=
  match dget (turn_ledger s) tid with
  | Some r =>
      if bool_decide (status r ∈ _TERMINAL_TURN_STATUSES) then s
      else if shutdown
      then desync_open now
             (settle tid UNKNOWN (error_payload "server_shutdown"
                "Server shut down while the turn was in flight." 504 (failed_details s tid)) now s)
      else settle tid CANCELLED (error_payload "cancelled" "Turn cancelled while in flight." 499
                                   (failed_details s tid)) now s
  | None => s
  end.

(** [_handle_unknown_turn], up to its first await. *)
Definition record_unknown (tid : string) (f : failure) (now : Z) (s : SessionContext) : SessionContext :=
  let details := foldl (fun d kv => dset d (fst kv) (snd kv)) (failed_details s tid) (fl_extra_details f) in
  desync_open now
    (settle tid UNKNOWN [("error", PStr (fl_error f)); ("message", PStr (fl_message f));
                         ("details", PDict details); ("http_status", PInt (fl_http_status f))] now s).

Definition commit_turn (tid : string) (sent : list Message) (r : AdapterResponse) (now : Z)
    (s : SessionContext) : SessionContext :=
  match dget (turn_ledger s) tid with
  | Some rec => {|
      session_id := session_id s; s_state := s_state s; s_blackbox_type := s_blackbox_type s;
      backend_session_id := Some (ar_backend_session_id r); router_base_url := router_base_url s;
      conversation_history := conversation_history s ++ sent ++ outputs r;
      trace_events := trace_events s ++ ar_trace_events r;
      turn_ledger := dset (turn_ledger s) tid (settle_record COMMITTED (Some r) (error rec) now rec);
      turn_count := (turn_count s + 1)%Z;
      s_created_at := s_created_at s; s_updated_at := now; metadata := metadata s |}
  | None => s
  end.

Definition start_turn (tid : string) (now : Z) (s : SessionContext) : SessionContext :=
  match dget (turn_ledger s) tid with
  | Some r => with_ledger (dset (turn_ledger s) tid
                             (settle_record INFLIGHT (response r) (error r) now r)) s
  | None => s
  end.

Definition queue_turn (tid fp : string) (ms : list Message) (now : Z) (s : SessionContext) : SessionContext :=
  with_ledger (dset (turn_ledger s) tid
    {| turn_id := tid; request_fingerprint := fp; status := QUEUED; request_messages := ms;
       response := None; error := None; created_at := now; updated_at := now |}) s.

(** [abort_session] on a session: the turns that are active become unknown. *)
Definition abort_turns (sid : string) (now : Z) (s : SessionContext) : SessionContext :=
  with_ledger (map (fun kv : string * TurnRecord =>
    let '(k, r) := kv in
    (k, if is_active (status r)
        then settle_record UNKNOWN (response r)
               (Some (error_payload "aborted" "Session was aborted while turn was in flight." 409
                        [("session_id", PStr sid); ("turn_id", PStr (turn_id r))])) now r
        else r)) (turn_ledger s)) s.

(** ** Sections *)

Definition _mark_backend_error (now : Z) (w : World) : World :=
  if bool_decide (_state (srv w) = ERROR) then w
  else foldl (fun w kv => update (snd kv) (desync now) w) (on_srv (set_state ERROR) w) (_sessions w).

(** [_run_turn]'s [finally]. *)
Definition run_finally (t : nat) (sid tid : string) (w : World) : World :=
  let w := set_turn_event sid tid w in
  let w := match dget (_active_turn_tasks w) sid with
           | Some t' => if bool_decide (t' = t) then with_active (dpop (_active_turn_tasks w) sid) w else w
           | None => w
           end in
  goto t (Done Nothing) w.

Definition session_missing : ApiError :=
  Api 500 "internal_error" "Bound session was not initialized." [].

Definition not_found (what : string) : ApiError := Api 404 "not_found" (what +:+ " does not exist.") [].

(** What a handler finds first: the session object the binding serves. *)
Definition bound_session (missing : ApiError) (sid : string) (w : World) : ApiError + nat :=
  match _require_bound_session_match (srv w) sid with
  | inl e => inl e
  | inr None => inl (Api 500 "internal_error" "Rollout binding is missing bound_session_id." [])
  | inr (Some b) => match dget (_sessions w) b with Some o => inr o | None => inl missing end
  end.

(** Checks one after the other. *)
Fixpoint first_error (l : list (option ApiError)) : option ApiError :=
  match l with
  | [] => None
  | Some e :: _ => Some e
  | None :: l' => first_error l'
  end.

(** [submit_turn] from the end of the pause to the session's lock. *)
Definition submit_enter (t : nat) (sid : string) (req : MessageRequest) (sync : bool) (w : World) : World :=
  let ids := [_validate_identifier "session_id" sid;
              mr_turn_id req ≫= _validate_identifier "turn_id"] in
  match first_error ids, _capabilities (srv w) with
  | Some e, _ => fail t e w
  | None, None => fail t (Api 503 "service_unavailable" "Backend capabilities are unavailable." []) w
  | None, Some c =>
      match _validate_message_request (srv w) (messages req) c with
      | Some e => fail t e w
      | None =>
          match _binding (srv w), _adapter (srv w) with
          | Some _, Some _ =>
              match bound_session session_missing sid w with
              | inl e => fail t e w
              | inr o => goto t (SubmitLock o sid req sync) w
              end
          | _, _ => fail t (Internal (AssertionError "")) w
          end
      end
  end.

(** After a submission the synchronous facade waits for the turn's event. *)
Definition submitted (t : nat) (sid : string) (sub : TurnSubmission) (sync : bool) (w : World) : World :=
  if negb sync then goto t (Done (Submitted sub)) w
  else match _binding (srv w) with
       | None => fail t (Internal (AttributeError "binding")) w
       | Some b =>
           let ev := if is_active (ts_status sub)
                     then dget (_turn_events w) (bound_session_id b, ts_turn_id sub) else None in
           goto t (SendWait sid (bound_session_id b) sub ev) w
       end.

(** The checks [submit_turn] makes under the session's lock: an error, the existing record,
    or the turn to queue. *)
Inductive admission : Type :=
| Rejected (e : ApiError)
| Replayed (r : TurnRecord)
| TurnAdmitted (tid fp : string).

Section Sections.
Context `{PyText}.

Definition admit_turn (cap : Z) (fresh : string) (sid : string) (req : MessageRequest) (s : SessionContext)
    : admission * SessionContext :=
  match s_state s with
  | ABORTED => (Rejected (Api 409 "conflict" "Session has been aborted and cannot accept new turns." []), s)
  | DESYNCED => (Rejected (Api 409 "conflict" "Session is desynced and cannot accept new turns." []), s)
  | ACTIVE =>
      if (cap <=? turn_count s)%Z
      then (Rejected (Api 429 "too_many_requests" "Session reached the max committed turn limit." []), s)
      else match _resolve_turn_id fresh (mr_turn_id req) s with
           | (inl e, s) => (Rejected e, s)
           | (inr tid, s) =>
               let fp := message_request_fingerprint (messages req) in
               match dget (turn_ledger s) tid with
               | Some r => if String.eqb (request_fingerprint r) fp then (Replayed r, s)
                           else (Rejected (Api 409 "conflict"
                                   "Same turn_id was already used with a different request body."
                                   [("session_id", PStr sid); ("turn_id", PStr tid)]), s)
               | None => match _active_turn_id s with
                         | Some a => (Rejected (Api 409 "conflict"
                                        "Session already has an active turn in progress."
                                        [("session_id", PStr sid); ("turn_id", PStr tid);
                                         ("active_turn_id", PStr a)]), s)
                         | None => (TurnAdmitted tid fp, s)
                         end
               end
           end
  end.

(** The lock is taken and kept while the adapter's health is checked. *)
Definition submit_locked (t o : nat) (fresh sid : string) (req : MessageRequest) (sync : bool) (w : World)
    : World :=
  match objs w !! o with
  | None => w
  | Some x =>
      let '(a, s) := admit_turn (max_turns (_effective_config (srv w))) fresh sid req (ctx x) in
      let w := update o (fun _ => s) w in
      match a with
      | Rejected e => fail t e w
      | Replayed r =>
          submitted t sid {| ts_turn_id := turn_id r; ts_status := status r; idempotent_replay := true;
                             instance_id := _response_instance_id (srv w) |} sync w
      | TurnAdmitted tid fp => goto t (SubmitHealth o sid tid fp req sync) (acquire o t w)
      end
  end.

(** A healthy backend: the turn is queued and its task created. *)
Definition submit_health (t o : nat) (sid tid fp : string) (req : MessageRequest) (sync : bool)
    (healthy : bool) (now : Z) (w : World) : World :=
  if negb healthy
  then fail t (Api 503 "service_unavailable" "Backend is unavailable." []) (release o (_mark_backend_error now w))
  else let w := update o (queue_turn tid fp (messages req) now) w in
       let w := with_events (events w ++ [false]) (dset (_turn_events w) (sid, tid) (length (events w))) w in
       let w := with_active (dset (_active_turn_tasks w) sid (length (tasks w))) w in
       let w := release o (spawn (RunStart sid tid req) w) in
       submitted t sid {| ts_turn_id := tid; ts_status := QUEUED; idempotent_replay := false;
                          instance_id := _response_instance_id (srv w) |} sync w.
End Sections.

(** [_raise_from_turn_error]; a record's error is one the server wrote. *)
Definition _raise_from_turn_error (sid : string) (r : TurnRecord) : ApiError :=
  let e := default [] (error r) in
  let status := match pget e "http_status" with PInt z => if (z =? 0)%Z then 500%Z else z | _ => 500%Z end in
  let text k d := match pget e k with PStr "" => d | PStr s => s | _ => d end in
  Api status (text "error" "backend_error") (text "message" "Turn failed.")
    (match pget e "details" with
     | PDict d => d
     | _ => [("session_id", PStr sid); ("turn_id", PStr (turn_id r))]
     end).

Definition message_response (b : BindingInfo) (s : SessionContext) (r : TurnRecord) (a : AdapterResponse)
    (replay : bool) : MessageResponse :=
  {| r_turn_id := turn_id r; r_state := s_state s; r_replay := replay; r_outputs := outputs a;
     r_backend_type := b_blackbox_type b; r_backend_session_id := ar_backend_session_id a;
     r_usage := usage a |}.

(** [send_message] once the turn's event is set: the session the binding serves now. *)
Definition send_settled (t : nat) (sid bound : string) (sub : TurnSubmission) (w : World) : World :=
  match dget (_sessions w) bound with
  | None => fail t session_missing w
  | Some o => goto t (SendLock o sid sub) w
  end.

Definition send_locked (t o : nat) (sid : string) (sub : TurnSubmission) (w : World) : World :=
  match objs w !! o with
  | None => w
  | Some x =>
      match dget (turn_ledger (ctx x)) (ts_turn_id sub) with
      | None => fail t (Api 500 "internal_error" "Turn record disappeared before completion." []) w
      | Some r =>
          match status r, response r with
          | COMMITTED, Some a =>
              match _binding (srv w) with
              | Some b => goto t (Done (Message_ (message_response b (ctx x) r a (idempotent_replay sub)))) w
              | None => fail t (Internal (AssertionError "")) w
              end
          | _, _ => fail t (_raise_from_turn_error sid r) w
          end
      end
  end.

(** ** [_run_turn] *)

Definition run_start (t : nat) (sid tid : string) (req : MessageRequest) (w : World) : World :=
  match dget (_sessions w) sid with
  | None => run_finally t sid tid w
  | Some o => goto t (RunLock o sid tid req) w
  end.

(** The turn is marked in flight under the lock and the adapter is called. *)
Definition run_locked (t o : nat) (sid tid : string) (req : MessageRequest) (now : Z) (w : World) : World :=
  match objs w !! o with
  | None => w
  | Some x =>
      match dget (turn_ledger (ctx x)) tid with
      | Some r =>
          if bool_decide (status r = QUEUED)
          then goto t (RunCall o sid tid req)
                 (called (SendMessage o tid (messages req)) (update o (start_turn tid now) w))
          else run_finally t sid tid w
      | None => run_finally t sid tid w
      end
  end.

Definition run_settle (t o : nat) (sid tid : string) (req : MessageRequest)
    (out : AdapterResponse + failure) (now : Z) (w : World) : World :=
  match objs w !! o with
  | None => w
  | Some x =>
      match dget (turn_ledger (ctx x)) tid with
      | Some r =>
          if bool_decide (status r = INFLIGHT)
          then match out with
               | inl a => run_finally t sid tid (update o (commit_turn tid (messages req) a now) w)
               | inr f => goto t (RunAbort o sid tid f) (acquire o t (update o (record_unknown tid f now) w))
               end
          else run_finally t sid tid w
      | None => run_finally t sid tid w
      end
  end.

(** The adapter is told to abandon the session, then asked for its health. *)
Definition run_abort (t o : nat) (sid tid : string) (f : failure) (w : World) : World :=
  goto t (RunHealth o sid tid f)
    (match _adapter (srv w) with Some _ => called (AbortSession o) w | None => w end).

Definition run_health (t o : nat) (sid tid : string) (f : failure) (healthy : bool) (now : Z) (w : World)
    : World :=
  let w := match _adapter (srv w) with
           | Some _ => if healthy then w else _mark_backend_error now w
           | None => w
           end in
  let w := if fl_process_error f then _mark_backend_error now w else w in
  run_finally t sid tid (release o w).

Definition run_interrupted (t o : nat) (sid tid : string) (now : Z) (w : World) : World :=
  run_finally t sid tid
    (update o (_finalize_interrupted_turn_locked (_shutdown_started (srv w)) tid now) w).

(** A cancellation is delivered where the task waits: before its first section nothing of it
    runs; in the call of the adapter the turn is settled; anywhere else only [finally] runs. *)
Definition run_cancelled (t : nat) (p : pc) (w : World) : World :=
  match p with
  | RunStart _ _ _ => goto t (Done Nothing) w
  | RunCall o sid tid _ => goto t (RunInterrupted o sid tid) w
  | RunLock _ sid tid _ | RunSettle _ sid tid _ _ | RunInterrupted _ sid tid => run_finally t sid tid w
  | RunAbort o sid tid _ | RunHealth o sid tid _ => run_finally t sid tid (release o w)
  | p => goto t p w
  end.

(** ** The other requests on a turn or a session *)

(** The object a request on a turn finds; without a binding there is none. *)
Definition found_session (sid : string) (w : World) : ApiError + nat :=
  match _require_bound_session_match (srv w) sid with
  | inl e => inl e
  | inr b => match b ≫= dget (_sessions w) with
             | Some o => inr o
             | None => inl (not_found "Session")
             end
  end.

Definition on_turn (t : nat) (sid tid : string) (k : nat -> World -> World) (w : World) : World :=
  match first_error [_validate_identifier "session_id" sid; _validate_identifier "turn_id" tid] with
  | Some e => fail t e w
  | None => match found_session sid w with inl e => fail t e w | inr o => k o w end
  end.

Definition _MAX_TURN_WAIT_SECONDS : Z := 60.

Definition get_turn (t : nat) (sid tid : string) (wait_seconds : float) (w : World) : World :=
  on_turn t sid tid (fun o w =>
    match x ← objs w !! o; dget (turn_ledger (ctx x)) tid with
    | None => fail t (not_found "Turn") w
    | Some r =>
        if fltb f0 wait_seconds && is_active (status r)
        then match dget (_turn_events w) (sid, tid) with
             | Some e => goto t (GetWait o sid tid (Some e)) w
             | None => goto t (GetLock o sid tid) w
             end
        else goto t (GetLock o sid tid) w
    end) w.

Definition turn_status_response (b : option BindingInfo) (s : SessionContext) (r : TurnRecord)
    : ApiError + TurnStatusResponse :=
  let answer res err := {| t_turn_id := turn_id r; t_status := status r; t_state := s_state s;
                           t_result := res; t_error := err; t_created_at := created_at r;
                           t_updated_at := updated_at r |} in
  match status r, response r with
  | COMMITTED, Some a =>
      match b with
      | Some b => inr (answer (Some (outputs a, usage a, (b_blackbox_type b, ar_backend_session_id a))) None)
      | None => inl (Internal (AssertionError ""))
      end
  | st, _ => inr (answer None (if bool_decide (st ∈ _TERMINAL_TURN_STATUSES) then error r else None))
  end.

Definition get_locked (t o : nat) (sid tid : string) (w : World) : World :=
  match objs w !! o with
  | None => w
  | Some x =>
      match dget (turn_ledger (ctx x)) tid with
      | None => fail t (not_found "Turn") w
      | Some r => match turn_status_response (_binding (srv w)) (ctx x) r with
                  | inl e => fail t e w
                  | inr a => goto t (Done (TurnOf a)) w
                  end
      end
  end.

Definition cancel_turn (t : nat) (sid tid : string) (w : World) : World :=
  on_turn t sid tid (fun o w => goto t (CancelLock o sid tid) w) w.

(** A queued turn is cancelled; the task of one in flight is, and the adapter is told. *)
Definition cancel_locked (t o : nat) (sid tid : string) (now : Z) (w : World) : World :=
  match objs w !! o with
  | None => w
  | Some x =>
      match dget (turn_ledger (ctx x)) tid with
      | None => fail t (not_found "Turn") w
      | Some r =>
          match status r with
          | QUEUED =>
              goto t (Done (CancelOf "cancelled" (s_state (ctx x))))
                (set_turn_event sid tid
                  (update o (settle tid CANCELLED
                     (error_payload "cancelled" "Turn cancelled before execution." 499
                        [("session_id", PStr sid); ("turn_id", PStr tid)]) now) w))
          | INFLIGHT =>
              let w := match dget (_active_turn_tasks w) sid with Some k => cancel k w | None => w end in
              match _adapter (srv w) with
              | Some _ => goto t (CancelAbort "cancel_requested" (s_state (ctx x))) (called (AbortSession o) w)
              | None => goto t (Done (CancelOf "cancel_requested" (s_state (ctx x)))) w
              end
          | st => goto t (Done (CancelOf (status_text st) (s_state (ctx x)))) w
          end
      end
  end.

Definition execute_cmd (t : nat) (sid cmd : string) (timeout : option float) (w : World) : World :=
  match first_error [_ensure_state_ready_for_messages (srv w); _validate_identifier "session_id" sid] with
  | Some e => fail t e w
  | None =>
      match _validate_execute_cmd_request (_effective_config (srv w)) cmd timeout with
      | inl e => fail t e w
      | inr (cmd, _) =>
          match _binding (srv w) with
          | None => fail t (Internal (AssertionError "")) w
          | Some _ => match bound_session (not_found "Session") sid w with
                      | inl e => fail t e w
                      | inr o => goto t (CmdLock o sid cmd) w
                      end
          end
      end
  end.

(** What stands against a command on a session. *)
Definition cmd_refused (sid : string) (s : SessionContext) : option ApiError :=
  match s_state s with
  | ABORTED => Some (Api 409 "conflict" "Session has been aborted and cannot execute commands." [])
  | st =>
      if bool_decide (st = DESYNCED) && negb (_session_allows_post_agent_commands s)
      then Some (Api 409 "conflict" "Session is desynced and cannot execute commands." [])
      else match _active_turn_id s with
           | Some a => Some (Api 409 "conflict"
                              "Session has an active turn in progress and cannot execute commands."
                              [("session_id", PStr sid); ("active_turn_id", PStr a)])
           | None => None
           end
  end.

Definition cmd_locked (t o : nat) (sid : string) (w : World) : World :=
  match objs w !! o with
  | None => w
  | Some x => match cmd_refused sid (ctx x) with
              | Some e => fail t e w
              | None => goto t (CmdRun o) (acquire o t w)
              end
  end.

Definition cmd_ended (t o : nat) (res : option (list (string * pyval))) (now : Z) (w : World) : World :=
  match res with
  | Some r => goto t (Done (CmdResult r)) (release o (update o (touch now) w))
  | None => fail t (Api 502 "backend_error" "execute_cmd failed" []) (release o w)
  end.

Definition abort_session (t : nat) (sid : string) (w : World) : World :=
  match _validate_identifier "session_id" sid with
  | Some e => fail t e w
  | None =>
      match _require_bound_session_match (srv w) sid with
      | inl e => fail t e w
      | inr _ => match dget (_sessions w) sid with
                 | None => fail t (not_found "Session") w
                 | Some o => goto t (AbortTerminate o sid) w
                 end
      end
  end.

(** With the session's lock, or without it when waiting for it took too long. *)
Definition abort_entered (t o : nat) (sid : string) (acquired : bool) (w : World) : World :=
  match objs w !! o with
  | None => w
  | Some x =>
      match s_state (ctx x) with
      | ABORTED => goto t (Done (AbortOf ABORTED "noop")) w
      | _ =>
          let w := match dget (_active_turn_tasks w) sid with Some k => cancel k w | None => w end in
          let w := if acquired then acquire o t w else w in
          goto t (AbortAdapter o sid acquired)
            (match _adapter (srv w) with Some _ => called (AbortSession o) w | None => w end)
      end
  end.

Definition abort_finish (t o : nat) (sid : string) (acquired : bool) (now : Z) (w : World) : World :=
  match objs w !! o with
  | None => w
  | Some x =>
      let active := List.filter (fun kv => is_active (status (snd kv))) (turn_ledger (ctx x)) in
      let w := update o (fun s => abort_turns sid now (with_state ABORTED now s)) w in
      let w := foldl (fun w kv => set_turn_event sid (turn_id (snd kv)) w) w active in
      goto t (Done (AbortOf ABORTED "best_effort")) (if acquired then release o w else w)
  end.

(** ** Pausing *)

Definition pause_generation (t : nat) (reason : string) (w : World) : World :=
  match _ensure_state_ready_for_messages (srv w), _adapter (srv w) with
  | Some e, _ => fail t e w
  | None, None => fail t (Internal (AssertionError "")) w
  | None, Some _ =>
      goto t (PauseAdapter (_paused (srv w)))
        (on_srv (fun s => set_pause true (Some reason) (_current_version s) s) w)
  end.

Definition pause_answered (t : nat) (already : bool) (res : list (string * pyval)) (w : World) : World :=
  if py_truth (dget_def (PBool true) res "quiesced") then goto t (Done (Paused already res)) w
  else fail t (Api 503 "pause_timeout"
                 "Rollout pause did not reach model-quiesced state before timeout." res) w.

Definition resume_generation (t : nat) (version : option string) (w : World) : World :=
  match _ensure_state_ready_for_messages (srv w), _adapter (srv w) with
  | Some e, _ => fail t e w
  | None, None => fail t (Internal (AssertionError "")) w
  | None, Some _ => goto t (ResumeAdapter version) w
  end.

Definition resume_answered (t : nat) (version : option string) (res : list (string * pyval)) (w : World)
    : World :=
  let version := match version with Some v => Some v | None => _current_version (srv w) end in
  goto t (Done (Resumed (_paused (srv w)) res)) (on_srv (set_pause false None version) w).

(** ** Registration *)

Definition KNOWN_BACKENDS : list string := ["opencode"; "openclaw"; "claude_code"; "codex"].

(** [adapter.capabilities()], the same for every adapter. *)
Definition capabilities : BackendCapabilities := {|
  chat := true; abort := true; pause_resume := true; stream := false; multi_message_input := false;
  system_message := true; history_injection := false |}.

Section Registration.
Context `{PyText}.
Variable abspath : string -> string.                       (* [os.path.abspath] *)
Variable isfile readable : string -> bool.
Variable read_text : string -> option string.              (* [None]: it cannot be read *)
Variable proxy_options_of : list (string * pyval) -> option ProxyOptions.  (* its validation *)

Definition _validate_system_prompt_file (path : option string) : ApiError + option string :=
  match abspath <$> path with
  | None => inr None
  | Some p =>
      let bad m := inl (Api 400 "request_error" ("system_prompt_file " +:+ m) []) in
      if negb (String.prefix "/" p) then bad "must be an absolute path."
      else if negb (isfile p) then bad "does not exist."
      else if negb (readable p) then bad "is not readable."
      else inr (Some p)
  end.

Definition _parse_proxy_options (options : list (string * pyval)) : ApiError + ProxyOptions :=
  match pget options "proxy" with
  | PNone | PDict _ =>
      match proxy_options_of (match pget options "proxy" with PDict d => d | _ => [] end) with
      | Some p => inr p
      | None => inl (Api 400 "request_error" "Invalid proxy config" [])
      end
  | _ => inl (Api 400 "request_error" "backend_options.proxy must be an object." [])
  end.

Definition _validate_register_binding (r : RegisterRequest) : option ApiError :=
  let required f := Some (Api 400 "request_error" (f +:+ " is required.") []) in
  match rr_bound_session_id r, rr_bound_instance_id r with
  | None, _ | Some "", _ => required "bound_session_id"
  | _, None | _, Some "" => required "bound_instance_id"
  | Some s, Some i => first_error [_validate_identifier "session_id" s; _validate_identifier "instance_id" i]
  end.

(** [register] up to the initialization lock. *)
Definition register (t : nat) (r : RegisterRequest) (w : World) : World :=
  if bool_decide (_state (srv w) = SHUTTING_DOWN)
  then fail t (Api 503 "service_unavailable" "Server is shutting down." []) w
  else match normalize_router (router r) (router_api_path r) with
       | Raise e => fail t (Internal e) w
       | Ok (base_url, api_path) =>
           match _validate_system_prompt_file (system_prompt_file r) with
           | inl e => fail t e w
           | inr prompt =>
               if negb (bool_decide (rr_blackbox_type r ∈ KNOWN_BACKENDS))
               then fail t (Api 400 "request_error" "Unsupported blackbox_type"
                              [("blackbox_type", PStr (rr_blackbox_type r))]) w
               else
                 let cfg := from_option (fun o => apply o (_base_config (srv w))) (_base_config (srv w))
                              (server_config r) in
                 match _parse_proxy_options (backend_options r), _validate_register_binding r with
                 | inl e, _ | _, Some e => fail t e w
                 | inr po, None =>
                     goto t (RegLock r base_url api_path prompt cfg po
                               (binding_request_fingerprint abspath r base_url)) w
                 end
           end
       end.

Definition session_at (w : World) (o : nat) : option SessionContext := ctx <$> objs w !! o.

Definition reg_locked (t : nat) (r : RegisterRequest) (base_url api_path : string) (prompt : option string)
    (cfg : BlackboxServerConfig) (po : ProxyOptions) (fp : string) (w : World) : World :=
  let s := srv w in
  match _state s with
  | INITIALIZING => fail t (Api 409 "conflict" "Server is initializing." []) w
  | SHUTTING_DOWN => fail t (Api 503 "service_unavailable" "Server is shutting down." []) w
  | st =>
      let same := bool_decide (_binding_request_fingerprint s = Some fp) in
      let bound := match _binding s with Some _ => true | None => false end in
      if same && bool_decide (st = READY) && bound then goto t (Done (Registered true)) w
      else if negb same && bound && has_open_sessions (session_at w) (_sessions w)
      then fail t (Api 409 "conflict" "Cannot rebind while active or desynced sessions still exist." []) w
      else goto t (RegTeardown (negb same && bound) r base_url api_path prompt cfg po)
             (on_srv (fun s => set_init_lock (Some t)
                                 (set_fingerprint (Some fp) (set_state INITIALIZING s))) w)
  end.

Definition prompt_target (blackbox_type dir : string) : string * string :=
  if String.eqb blackbox_type "opencode"
  then (dir +:+ "/home/.config/opencode/prompts/build.txt", "build")
  else if String.eqb blackbox_type "openclaw"
  then (dir +:+ "/home/.openclaw/workspace/AGENTS.md", "openclaw")
  else (dir +:+ "/prompts/system.txt", blackbox_type).

(** [_build_binding_context]; [generated] is the generated runtime id. *)
Definition binding_of (r : RegisterRequest) (base_url api_path : string) (prompt : option string)
    (cfg : BlackboxServerConfig) (po : ProxyOptions) (generated : string) (now : Z) : BindingInfo :=
  let sid := default "" (rr_bound_session_id r) in
  let rid := if bool_decide (sampling_mode po = Some "force") then sid else generated in
  let dir := rstrip_slash (runtime_root cfg) +:+ "/" +:+ rid in
  {| runtime_id := rid; b_blackbox_type := rr_blackbox_type r; router_raw := router r;
     b_router_base_url := base_url; b_router_api_path := api_path; bound_session_id := sid;
     bound_instance_id := default "" (rr_bound_instance_id r);
     bound_sandbox_id := match rr_bound_sandbox_id r with Some "" => None | i => i end;
     system_prompt := (fun p => let '(f, a) := prompt_target (rr_blackbox_type r) dir in
                                {| source_file := p; runtime_file := f; applies_to := a |}) <$> prompt;
     runtime_dir := dir; registered_at := now; b_backend_options := backend_options r |}.

(** Every failure drops the binding; the state and the fingerprint tell them apart. *)
Definition reg_failed (t : nat) (st : ServerState) (fp : option string) (cfg : BlackboxServerConfig)
    (e : ApiError) (w : World) : World :=
  fail t e (on_srv (fun s => set_init_lock None (set_fingerprint fp (set_state st
                              (set_binding None None None cfg false s)))) w).

Definition init_error : ApiError := Api 502 "backend_error" "Failed to initialize backend" [].

(** The old binding is gone; [made] tells whether the runtime directory could be made. *)
Definition reg_torn_down (t : nat) (reset : bool) (r : RegisterRequest) (base_url api_path : string)
    (prompt : option string) (cfg : BlackboxServerConfig) (po : ProxyOptions) (generated : string)
    (made : bool) (now : Z) (w : World) : World :=
  let w := on_srv (fun s => set_binding None None None (_base_config s) false s) w in
  let w := if reset then with_sessions [] w else w in
  if negb made
  then reg_failed t ERROR (_binding_request_fingerprint (srv w)) (_base_config (srv w)) init_error w
  else goto t (RegInit (binding_of r base_url api_path prompt cfg po generated now) cfg)
         (on_srv (fun s => set_binding (Some t) None None (_base_config s) false s) w).

Definition new_session (b : BindingInfo) (now : Z) : SessionContext := {|
  session_id := bound_session_id b; s_state := ACTIVE; s_blackbox_type := b_blackbox_type b;
  backend_session_id := None; router_base_url := b_router_base_url b; conversation_history := [];
  trace_events := []; turn_ledger := []; turn_count := 0; s_created_at := now; s_updated_at := now;
  metadata := [] |}.

Definition _inject_system_prompt (b : BindingInfo) (now : Z) (s : SessionContext) : SessionContext :=
  match p ← system_prompt b; (fun text => (p, text)) <$> read_text (source_file p) with
  | Some (p, text) =>
      if blank text then s
      else {| session_id := session_id s; s_state := s_state s; s_blackbox_type := s_blackbox_type s;
              backend_session_id := backend_session_id s; router_base_url := router_base_url s;
              conversation_history :=
                {| role := "system"; content := Some text; reasoning_content := None;
                   tool_calls := None; tool_call_id := None; name := None |} :: conversation_history s;
              trace_events := trace_events s ++
                [{| ev_turn_id := "__init__"; seq := 0; source := "blackbox_server";
                    event_type := "system_prompt_injected";
                    payload := [("source_file", PStr (source_file p));
                                ("content_length", PInt (py_len text))]; ev_created_at := now |}];
              turn_ledger := turn_ledger s; turn_count := turn_count s; s_created_at := s_created_at s;
              s_updated_at := s_updated_at s; metadata := metadata s |}
  | None => s
  end.

(** [_ensure_bound_session_initialized]; [false] is [SessionCapacityError]. *)
Definition _ensure_bound_session_initialized (b : BindingInfo) (cap now : Z) (w : World) : bool * World :=
  match get_or_create (session_at w) (bound_session_id b) (length (objs w)) cap (_sessions w) with
  | (None, store) => (false, with_sessions store w)
  | (Some (_, false), store) => (true, with_sessions store w)
  | (Some (_, true), store) =>
      (true, with_sessions store
               (with_objs (objs w ++ [{| ctx := _inject_system_prompt b now (new_session b now);
                                         holder := None |}]) w))
  end.

Inductive init_answer : Type := InitOk | InitProtocol (message : string) | InitFailed.

Definition reg_initialized (t : nat) (b : BindingInfo) (cfg : BlackboxServerConfig) (a : init_answer)
    (now : Z) (w : World) : World :=
  match a with
  | InitProtocol m =>
      reg_failed t IDLE None (_base_config (srv w))
        (Api 400 "request_error" m [("blackbox_type", PStr (b_blackbox_type b))]) w
  | InitFailed => reg_failed t ERROR (_binding_request_fingerprint (srv w)) (_effective_config (srv w)) init_error w
  | InitOk =>
      match _ensure_bound_session_initialized b (max_sessions cfg) now w with
      | (false, w) => reg_failed t ERROR (_binding_request_fingerprint (srv w)) cfg init_error w
      | (true, w) =>
          goto t (Done (Registered false))
            (on_srv (fun s => set_init_lock None (set_state READY
                       (set_binding (_adapter s) (Some b) (Some capabilities) cfg true s))) w)
      end
  end.
End Registration.

(** ** Shutdown *)

Definition graceful_shutdown (t : nat) (w : World) : World :=
  if _shutdown_started (srv w) then goto t (Done Nothing) w
  else goto t ShutdownCmds (on_srv set_shutdown w).

(** The turn tasks that are not done are cancelled. *)
Definition shutdown_turns (t : nat) (w : World) : World :=
  goto t ShutdownTurns (foldl (fun w kv => cancel (snd kv) w) w (_active_turn_tasks w)).

(** ** Tasks *)

(** What a waiting task is told. *)
Inductive answer : Type :=
| Go                                          (* a lock, an event, the end of a call *)
| Fresh (id : string)                         (* a lock, and a generated turn id *)
| Backend (a : backend_answer)
| Health (healthy : bool)
| TimedOut
| CmdEnded (res : option (list (string * pyval)))
| AdapterSays (res : list (string * pyval))
| Made (generated : string) (ok : bool)
| Init (a : init_answer).

Definition free (o : nat) (w : World) : bool :=
  match objs w !! o with Some x => bool_decide (holder x = None) | None => false end.

Definition is_set (e : option nat) (w : World) : bool :=
  match e with None => true | Some e => bool_decide (events w !! e = Some true) end.

Section Tasks.
Context `{PyText}.
Variable abspath : string -> string.
Variable isfile readable : string -> bool.
Variable read_text : string -> option string.
Variable proxy_options_of : list (string * pyval) -> option ProxyOptions.

Definition resume_task (t : nat) (p : pc) (a : answer) (now : Z) (w : World) : World :=
  match p, a with
  | SubmitPaused sid req sync, Go => if _paused (srv w) then w else submit_enter t sid req sync w
  | SubmitLock o sid req sync, Fresh id => if free o w then submit_locked t o id sid req sync w else w
  | SubmitHealth o sid tid fp req sync, Health b => submit_health t o sid tid fp req sync b now w
  | SendWait sid bound sub ev, Go => if is_set ev w then send_settled t sid bound sub w else w
  | SendLock o sid sub, Go => if free o w then send_locked t o sid sub w else w
  | RunStart sid tid req, Go => run_start t sid tid req w
  | RunLock o sid tid req, Go => if free o w then run_locked t o sid tid req now w else w
  | RunCall o sid tid req, Backend b => goto t (RunSettle o sid tid req (outcome b)) w
  | RunInterrupted o sid tid, Go => if free o w then run_interrupted t o sid tid now w else w
  | RunSettle o sid tid req out, Go => if free o w then run_settle t o sid tid req out now w else w
  | RunAbort o sid tid f, Go => run_abort t o sid tid f w
  | RunHealth o sid tid f, Health b => run_health t o sid tid f b now w
  | CancelLock o sid tid, Go => if free o w then cancel_locked t o sid tid now w else w
  | CancelAbort st s, Go => goto t (Done (CancelOf st s)) w
  | GetWait o sid tid ev, Go => if is_set ev w then goto t (GetLock o sid tid) w else w
  | GetWait o sid tid ev, TimedOut => goto t (GetLock o sid tid) w
  | GetLock o sid tid, Go => if free o w then get_locked t o sid tid w else w
  | CmdLock o sid cmd, Go => if free o w then cmd_locked t o sid w else w
  | CmdRun o, CmdEnded res => cmd_ended t o res now w
  | AbortTerminate o sid, Go => goto t (AbortLock o sid) w
  | AbortLock o sid, Go => if free o w then abort_entered t o sid true w else w
  | AbortLock o sid, TimedOut => abort_entered t o sid false w
  | AbortAdapter o sid acquired, Go => abort_finish t o sid acquired now w
  | RegLock r base_url api_path prompt cfg po fp, Go =>
      if bool_decide (_init_lock (srv w) = None)
      then reg_locked t r base_url api_path prompt cfg po fp w else w
  | RegTeardown reset r base_url api_path prompt cfg po, Made id ok =>
      reg_torn_down t reset r base_url api_path prompt cfg po id ok now w
  | RegInit b cfg, Init i => reg_initialized read_text t b cfg i now w
  | PauseAdapter already, AdapterSays res => pause_answered t already res w
  | ResumeAdapter version, AdapterSays res => resume_answered t version res w
  | ShutdownCmds, Go => shutdown_turns t w
  | ShutdownTurns, Go => goto t (Done Nothing) w
  | _, _ => w
  end.

Definition step (t : nat) (a : answer) (now : Z) (w : World) : World :=
  match tasks w !! t with
  | Some k => if cancelling k then run_cancelled t (at_ k) w else resume_task t (at_ k) a now w
  | None => w
  end.

Inductive op : Type :=
| OpSubmit (sid : string) (req : MessageRequest)
| OpSend (sid : string) (req : MessageRequest)
| OpGet (sid tid : string) (wait_seconds : float)
| OpCancel (sid tid : string)
| OpExecute (sid cmd : string) (timeout : option float)
| OpAbort (sid : string)
| OpRegister (r : RegisterRequest)
| OpPause (reason : string)
| OpResume (version : option string)
| OpShutdown.

(** A submission, once the server is known to be ready. *)
Definition submit_turn (t : nat) (sid : string) (req : MessageRequest) (sync : bool) (w : World) : World :=
  match _ensure_state_ready_for_messages (srv w) with
  | Some e => fail t e w
  | None => goto t (SubmitPaused sid req sync) w
  end.

Definition begin (t : nat) (o : op) (w : World) : World :=
  match o with
  | OpSubmit sid req =>
      match mr_turn_id req with
      | None => fail t (Api 400 "request_error" "turn_id is required for async submissions."
                          [("session_id", PStr sid)]) w
      | Some _ => submit_turn t sid req false w
      end
  | OpSend sid req => submit_turn t sid req true w
  | OpGet sid tid wait => get_turn t sid tid wait w
  | OpCancel sid tid => cancel_turn t sid tid w
  | OpExecute sid cmd timeout => execute_cmd t sid cmd timeout w
  | OpAbort sid => abort_session t sid w
  | OpRegister r => register abspath isfile readable proxy_options_of t r w
  | OpPause reason => pause_generation t reason w
  | OpResume version => resume_generation t version w
  | OpShutdown => graceful_shutdown t w
  end.

Inductive event : Type :=
| Call (o : op)
| Step (t : nat) (a : answer) (now : Z)
| MonitorFailed (now : Z).

Definition apply_event (e : event) (w : World) : World :=
  match e with
  | Call o => begin (length (tasks w)) o (spawn (Done Nothing) w)
  | Step t a now => step t a now w
  | MonitorFailed now => if _monitoring (srv w) then _mark_backend_error now w else w
  end.

Definition run_events (es : list event) (w : World) : World := foldl (fun w e => apply_event e w) w es.
End Tasks.

Definition initial_server (cfg : BlackboxServerConfig) : Server := {|
  _state := IDLE; _base_config := cfg; _effective_config := cfg; _adapter := None; _binding := None;
  _binding_request_fingerprint := None; _capabilities := None; _monitoring := false; _init_lock := None;
  _shutdown_started := false; _paused := false; _pause_reason := None; _current_version := None |}.

Definition initial (cfg : BlackboxServerConfig) : World := {|
  srv := initial_server cfg; objs := []; _sessions := []; events := []; _turn_events := [];
  _active_turn_tasks := []; tasks := []; calls := [] |}.
