(* ===== verification/ServerTurns.v ===== *)
(** * The turns of a blackbox session, in every interleaving

    [turn_step] is the contract of a session: what may happen to its ledger, its history
    and the messages its backend is sent.  Every section of the server moves every session
    by such steps ([change_section], the refinement), so the theorems about [turn_step]
    hold of any run: turns are executed at most once and one at a time, a settled turn never
    changes, and the history is what was sent and answered, in order.  The runs at the end
    show what the server does not promise. *)

From S2P Require Import Prelude.
From S2P Require Import PyFloat.
From S2P Require Import PyVal.
From S2P Require Import ServerModels.
From S2P Require Import BlackboxServer.

Local Open Scope string_scope.
Local Open Scope list_scope.

(** ** The contract of a session *)

Definition ledger_status (s : SessionContext) (tid : string) : option TurnStatus :=
  status <$> dget (turn_ledger s) tid.

Definition settled_status (st : TurnStatus) : Prop := is_active st = false.

(** A step of session [o], with the calls made to the backend so far. *)
Inductive turn_step (o : nat) : SessionContext * list acall -> SessionContext * list acall -> Prop :=
| step_queue s c tid fp ms now :
    dget (turn_ledger s) tid = None -> _active_turn_id s = None ->
    turn_step o (s, c) (queue_turn tid fp ms now s, c)
| step_start s c tid ms now :
    ledger_status s tid = Some QUEUED ->
    turn_step o (s, c) (start_turn tid now s, c ++ [SendMessage o tid ms])
| step_commit s c tid ms a now :
    ledger_status s tid = Some INFLIGHT -> SendMessage o tid ms ∈ c ->
    turn_step o (s, c) (commit_turn tid ms a now s, c)
| step_settle s c tid st err now :
    (exists st0, ledger_status s tid = Some st0 /\ is_active st0 = true) ->
    st = CANCELLED \/ st = UNKNOWN ->
    turn_step o (s, c) (settle tid st err now s, c)
| step_abort s c sid now : turn_step o (s, c) (abort_turns sid now s, c)
| step_state s c st now : turn_step o (s, c) (with_state st now s, c)
| step_metadata s c m : turn_step o (s, c) (with_metadata m s, c)
| step_call s c k :
    (forall tid ms, k <> SendMessage o tid ms) -> turn_step o (s, c) (s, c ++ [k]).

(** The messages a turn was executed with. *)
Fixpoint sent (o : nat) (tid : string) (c : list acall) : option (list Message) :=
  match c with
  | [] => None
  | SendMessage o' tid' ms :: c' => if decide (o' = o /\ tid' = tid) then Some ms else sent o tid c'
  | _ :: c' => sent o tid c'
  end.

Definition executions (o : nat) (c : list acall) : list string :=
  omap (fun k => match k with
                 | SendMessage o' tid _ => if decide (o' = o) then Some tid else None
                 | _ => None
                 end) c.

(** What a turn adds to the history. *)
Definition contribution (o : nat) (c : list acall) (kv : string * TurnRecord) : list Message :=
  match response (snd kv) with
  | Some a => default [] (sent o (fst kv) c) ++ outputs a
  | None => []
  end.

Definition committed (r : TurnRecord) : bool := bool_decide (status r = COMMITTED).

Record session_ok (o : nat) (s : SessionContext) (c : list acall) : Prop := {
  ok_keys : NoDup (dkeys (turn_ledger s));
  ok_ids : forall k r, (k, r) ∈ turn_ledger s -> turn_id r = k;
  ok_last : forall i kv, turn_ledger s !! i = Some kv -> is_active (status (snd kv)) = true ->
    S i = length (turn_ledger s);
  ok_count : turn_count s = Z.of_nat (count_by (fun kv => committed (snd kv)) (turn_ledger s));
  ok_response : forall k r, (k, r) ∈ turn_ledger s -> (status r = COMMITTED <-> is_Some (response r));
  ok_once : NoDup (executions o c);
  ok_executed : forall tid, tid ∈ executions o c ->
    exists st, ledger_status s tid = Some st /\ st <> QUEUED;
  ok_running : forall tid st, ledger_status s tid = Some st -> st = INFLIGHT \/ st = COMMITTED ->
    tid ∈ executions o c;
  ok_history : exists prompt, (length prompt <= 1)%nat /\
    conversation_history s = prompt ++ concat (map (contribution o c) (turn_ledger s)) }.

(** ** Facts about ledgers *)

Lemma sent_executions o tid c : tid ∈ executions o c <-> is_Some (sent o tid c).
Proof.
  unfold executions. induction c as [|[o' tid' ms|o'] c IH]; simpl.
  - rewrite elem_of_nil. split; [done|by intros []].
  - destruct (decide (o' = o)) as [->|Ho]; [|rewrite decide_False by naive_solver; done].
    rewrite elem_of_cons, IH. destruct (decide (tid' = tid)) as [->|Ht].
    + rewrite decide_True by done. naive_solver.
    + rewrite decide_False by naive_solver. naive_solver.
  - done.
Qed.

Lemma executions_app o c c' : executions o (c ++ c') = executions o c ++ executions o c'.
Proof. apply omap_app. Qed.

Lemma sent_app o tid c c' :
  sent o tid (c ++ c') = match sent o tid c with Some ms => Some ms | None => sent o tid c' end.
Proof. induction c as [|[o' tid' ms|o'] c IH]; simpl; [done| |done]. by case_decide. Qed.

Lemma sent_once o tid c ms : NoDup (executions o c) -> SendMessage o tid ms ∈ c -> sent o tid c = Some ms.
Proof.
  induction c as [|[o' tid' ms'|o'] c IH]; intros ND Hin; [set_solver| |]; simpl in *.
  - destruct (decide (o' = o)) as [->|Ho].
    + apply NoDup_cons in ND as [Nin ND]. apply elem_of_cons in Hin as [[= -> ->]|Hin].
      * by rewrite decide_True.
      * rewrite decide_False; [auto|]. intros [_ ->]. apply Nin, sent_executions. rewrite IH by done. eauto.
    + rewrite decide_False by naive_solver. apply IH; [done|]. set_solver.
  - apply IH; [done|]. set_solver.
Qed.

(** A ledger with one record replaced. *)
Lemma dset_split {V} (d : list (string * V)) k v v' : dget d k = Some v ->
  exists a b, d = a ++ (k, v) :: b /\ (k ∉ dkeys a) /\ dset d k v' = a ++ (k, v') :: b.
Proof.
  induction d as [|[k1 v1] d IH]; simpl; [done|]. case_decide.
  - intros [= ->]. subst. exists [], d. split_and!; [done|set_solver|done].
  - intros Hg. destruct (IH Hg) as (a & b & -> & Na & ->).
    exists ((k1, v1) :: a), b. split_and!; [done| |done]. simpl. set_solver.
Qed.

(** Replacing the record of a turn, as a map over the ledger. *)
Definition upd (g : string -> TurnRecord -> TurnRecord) (kv : string * TurnRecord) : string * TurnRecord :=
  (fst kv, g (fst kv) (snd kv)).

Definition at_turn (tid : string) (h : TurnRecord -> TurnRecord) (k : string) (r : TurnRecord) : TurnRecord :=
  if decide (k = tid) then h r else r.

Lemma dset_upd d tid h r : NoDup (dkeys d) -> dget d tid = Some r ->
  dset d tid (h r) = map (upd (at_turn tid h)) d.
Proof.
  induction d as [|[k v] d IH]; simpl; [done|]. intros ND Hg. apply NoDup_cons in ND as [Nk ND].
  unfold upd at 1, at_turn. simpl. destruct (decide (tid = k)) as [->|Hne].
  - injection Hg as ->. rewrite decide_True by done. f_equal.
    transitivity (map id d); [by rewrite map_id|]. apply map_ext_in. intros [k' r'] Hin.
    unfold upd, at_turn. simpl. rewrite decide_False; [done|]. intros ->. apply Nk.
    apply list_elem_of_In in Hin. by eapply (elem_of_map_intro fst) in Hin.
  - rewrite decide_False by done. f_equal. auto.
Qed.

Lemma dget_upd d g k : dget (map (upd g) d) k = g k <$> dget d k.
Proof.
  induction d as [|[k' v] d IH]; simpl; [done|]. case_decide; [by subst|done].
Qed.

Lemma dkeys_upd g d : dkeys (map (upd g) d) = dkeys d.
Proof. unfold dkeys. rewrite map_map. by apply map_ext. Qed.

Lemma elem_of_upd g d k r : (k, r) ∈ map (upd g) d <-> exists r0, (k, r0) ∈ d /\ r = g k r0.
Proof.
  rewrite list_elem_of_In, in_map_iff. unfold upd. split.
  - intros ([k' r'] & [= -> <-] & Hin%list_elem_of_In). eauto.
  - intros (r0 & Hin%list_elem_of_In & ->). by exists (k, r0).
Qed.

(** What [map_ok] asks of a change of records. *)
Definition keeps (s : SessionContext) (g : string -> TurnRecord -> TurnRecord) : Prop :=
  forall k r, (k, r) ∈ turn_ledger s ->
    turn_id (g k r) = turn_id r
    /\ (is_active (status (g k r)) = true -> is_active (status r) = true)
    /\ (status (g k r) = COMMITTED <-> is_Some (response (g k r))).

Lemma map_ok o s s' c c' g :
  session_ok o s c -> turn_ledger s' = map (upd g) (turn_ledger s) -> keeps s g ->
  turn_count s' = Z.of_nat (count_by (fun kv => committed (snd kv)) (turn_ledger s')) ->
  NoDup (executions o c') ->
  (forall tid, tid ∈ executions o c' -> exists st, ledger_status s' tid = Some st /\ st <> QUEUED) ->
  (forall tid st, ledger_status s' tid = Some st -> st = INFLIGHT \/ st = COMMITTED -> tid ∈ executions o c') ->
  (exists prompt, (length prompt <= 1)%nat /\
     conversation_history s' = prompt ++ concat (map (contribution o c') (turn_ledger s'))) ->
  session_ok o s' c'.
Proof.
  intros OK E K Hc Hn He Hr Hh. split; try done.
  - rewrite E, dkeys_upd. apply OK.
  - intros k r. rewrite E, elem_of_upd. intros (r0 & Hin & ->).
    rewrite (proj1 (K _ _ Hin)). by eapply ok_ids.
  - intros i kv. rewrite E, length_map.
    change (map (upd g) (turn_ledger s)) with (upd g <$> turn_ledger s). rewrite list_lookup_fmap. destruct (turn_ledger s !! i) as [[k r]|] eqn:L; simpl; [|done].
    intros [= <-] A. simpl in A. eapply ok_last; [done..|].
    apply (K k r); [by eapply list_elem_of_lookup_2|done].
  - intros k r. rewrite E, elem_of_upd. intros (r0 & Hin & ->). apply (K _ _ Hin).
Qed.

(** The two parts of [session_ok] that speak of the outcome of turns are untouched by a
    change that commits nothing. *)
Definition commits_nothing (s : SessionContext) (g : string -> TurnRecord -> TurnRecord) : Prop :=
  forall k r, (k, r) ∈ turn_ledger s -> committed (g k r) = committed r /\ response (g k r) = response r.

Lemma count_upd s g : commits_nothing s g ->
  count_by (fun kv : string * TurnRecord => committed (snd kv)) (map (upd g) (turn_ledger s))
  = count_by (fun kv => committed (snd kv)) (turn_ledger s).
Proof.
  unfold commits_nothing. induction (turn_ledger s) as [|[k r] l IH]; intros K; [done|].
  unfold count_by in *. simpl. rewrite (proj1 (K k r ltac:(left))).
  destruct (committed r); simpl; rewrite IH; try done; intros k' r' Hin; apply K; by right.
Qed.

Lemma contribution_upd o c s g : commits_nothing s g ->
  map (contribution o c) (map (upd g) (turn_ledger s)) = map (contribution o c) (turn_ledger s).
Proof.
  intros K. rewrite map_map. apply map_ext_in. intros [k r] Hin. apply list_elem_of_In in Hin.
  unfold contribution, upd. simpl. by rewrite (proj2 (K k r Hin)).
Qed.

Lemma status_upd s s' g k : turn_ledger s' = map (upd g) (turn_ledger s) ->
  ledger_status s' k = (fun r => status (g k r)) <$> dget (turn_ledger s) k.
Proof. intros E. unfold ledger_status. rewrite E, dget_upd. by destruct (dget _ _). Qed.

(** A change of records that commits nothing and starts nothing. *)
Lemma upd_ok o s s' c g :
  session_ok o s c -> turn_ledger s' = map (upd g) (turn_ledger s) -> keeps s g -> commits_nothing s g ->
  (forall k r, (k, r) ∈ turn_ledger s -> status (g k r) = status r \/
     (is_active (status (g k r)) = false)) ->
  turn_count s' = turn_count s -> conversation_history s' = conversation_history s ->
  session_ok o s' c.
Proof.
  intros OK E K N St Hc Hh. eapply map_ok; [done..| | | | |].
  - rewrite Hc, E, count_upd by done. apply OK.
  - apply OK.
  - intros tid Hin. destruct (ok_executed _ _ _ OK tid Hin) as (st & Hst & Hq).
    rewrite (status_upd s s' g) by done. unfold ledger_status in Hst.
    destruct (dget (turn_ledger s) tid) as [r|] eqn:G; [|done]. injection Hst as <-. simpl.
    eexists. split; [done|]. apply dget_elem in G. destruct (St _ _ G) as [->|A]; [done|].
    intros X. by rewrite X in A.
  - intros tid st. rewrite (status_upd s s' g) by done. intros Hst Hor.
    destruct (dget (turn_ledger s) tid) as [r|] eqn:G; [|done]. injection Hst as <-.
    pose proof (dget_elem _ _ _ G) as Hin.
    apply (ok_running _ _ _ OK tid (status r)); [unfold ledger_status; by rewrite G|].
    destruct (St _ _ Hin) as [<-|A]; [done|]. destruct Hor as [X|X]; [by rewrite X in A|].
    right. pose proof (proj1 (N _ _ Hin)) as Hcm. unfold committed in Hcm. rewrite X in Hcm.
    symmetry in Hcm. by apply bool_decide_eq_true in Hcm.
  - rewrite Hh, E, contribution_upd by done. apply OK.
Qed.

(** ** The steps keep the contract *)

Lemma same_ok o s s' c : turn_ledger s' = turn_ledger s -> turn_count s' = turn_count s ->
  conversation_history s' = conversation_history s -> session_ok o s c -> session_ok o s' c.
Proof.
  intros El Ec Eh [? ? ? ? ? ? Hx Hr ?]. unfold ledger_status in *. split; unfold ledger_status; rewrite ?El, ?Ec, ?Eh; auto.
Qed.

Lemma status_elem s tid st : ledger_status s tid = Some st ->
  exists r, dget (turn_ledger s) tid = Some r /\ status r = st.
Proof. unfold ledger_status. destruct (dget _ _); [|done]. intros [= <-]. eauto. Qed.

Lemma active_found (d : list (string * TurnRecord)) i kv :
  List.find (fun kv => is_active (status (snd kv))) d = None -> d !! i = Some kv ->
  is_active (status (snd kv)) = false.
Proof.
  intros F L. eapply (List.find_none _ _ F). apply list_elem_of_In. by eapply list_elem_of_lookup_2.
Qed.

Lemma no_active s i kv : _active_turn_id s = None -> turn_ledger s !! i = Some kv ->
  is_active (status (snd kv)) = false.
Proof.
  unfold _active_turn_id. destruct (List.find _ _) as [[]|] eqn:F; [done|]. intros _. by apply active_found.
Qed.

Lemma queue_ok o s c tid fp ms now :
  dget (turn_ledger s) tid = None -> _active_turn_id s = None ->
  session_ok o s c -> session_ok o (queue_turn tid fp ms now s) c.
Proof.
  intros Hg Ha OK. pose proof (proj1 (dget_None_key _ _) Hg) as Nk.
  assert (E : turn_ledger (queue_turn tid fp ms now s) = turn_ledger s ++
     [(tid, {| turn_id := tid; request_fingerprint := fp; status := QUEUED; request_messages := ms;
               response := None; error := None; created_at := now; updated_at := now |})])
    by (simpl; by apply dset_fresh).
  set (r := {| turn_id := tid |}) in E.
  assert (Nx : tid ∉ executions o c).
  { intros Hin. destruct (ok_executed _ _ _ OK _ Hin) as (st & Hst & _).
    unfold ledger_status in Hst. by rewrite Hg in Hst. }
  assert (St : forall k, ledger_status (queue_turn tid fp ms now s) k
                 = if decide (tid = k) then Some QUEUED else ledger_status s k).
  { intros k. unfold ledger_status. simpl. rewrite dget_dset. by case_decide. }
  split; rewrite ?E.
  - unfold dkeys. rewrite map_app. apply NoDup_app. split_and!; [apply OK| |apply NoDup_singleton].
    simpl. set_solver.
  - intros k r'. rewrite elem_of_app, list_elem_of_singleton. intros [Hin|[= -> ->]]; [by eapply ok_ids|done].
  - intros i kv. rewrite length_app. simpl. intros L A. apply lookup_app_Some in L as [L|[Hi L]].
    + by rewrite (no_active _ _ _ Ha L) in A.
    + apply list_lookup_singleton_Some in L as [? _]. lia.
  - rewrite count_by_app. simpl. rewrite (ok_count _ _ _ OK). unfold count_by. simpl. lia.
  - intros k r'. rewrite elem_of_app, list_elem_of_singleton. intros [Hin|[= -> ->]]; [by eapply ok_response|].
    simpl. split; [done|by intros []].
  - apply OK.
  - intros k Hk. rewrite St. rewrite decide_False by (by intros ->). by apply (ok_executed _ _ _ OK).
  - intros k st. rewrite St. case_decide; [intros [= <-] []; done|]. by apply (ok_running _ _ _ OK).
  - destruct (ok_history _ _ _ OK) as (p & Hp & Hh). exists p. split; [done|]. simpl.
    rewrite Hh, map_app, concat_app. simpl. by rewrite app_nil_r.
Qed.

Lemma keeps_at s tid h r0 : NoDup (dkeys (turn_ledger s)) ->
  (forall k r, (k, r) ∈ turn_ledger s -> (status r = COMMITTED <-> is_Some (response r))) ->
  dget (turn_ledger s) tid = Some r0 ->
  turn_id (h r0) = turn_id r0 /\ (is_active (status (h r0)) = true -> is_active (status r0) = true)
  /\ (status (h r0) = COMMITTED <-> is_Some (response (h r0))) ->
  keeps s (at_turn tid h).
Proof.
  intros ND R G K k r Hin. unfold at_turn. case_decide; [|split; [done|split; [done|by apply (R k)]]].
  subst. rewrite (dget_NoDup_elem _ _ _ ND Hin) in G. by injection G as ->.
Qed.

(** The record [tid] of a well-formed ledger, and its replacement. *)
Lemma settle_record_ok o s s' c tid r0 st resp err now :
  session_ok o s c -> dget (turn_ledger s) tid = Some r0 -> is_active (status r0) = true ->
  is_active st = false -> st <> COMMITTED -> resp = response r0 ->
  turn_ledger s' = dset (turn_ledger s) tid (settle_record st resp err now r0) ->
  turn_count s' = turn_count s -> conversation_history s' = conversation_history s ->
  session_ok o s' c.
Proof.
  intros OK G A A' NC -> E Hc Hh.
  assert (NR : response r0 = None).
  { destruct (response r0) eqn:R; [|done]. exfalso.
    assert (status r0 = COMMITTED) as X; [|by rewrite X in A].
    apply (ok_response _ _ _ OK tid r0); [by apply dget_elem|]. eauto. }
  set (h := fun r => settle_record st (response r) err now r).
  assert (G' : forall k r, (k, r) ∈ turn_ledger s -> k = tid -> r = r0).
  { intros k r Hin ->. rewrite (dget_NoDup_elem _ _ _ (ok_keys _ _ _ OK) Hin) in G. congruence. }
  apply (upd_ok o s s' c (at_turn tid h)); try done.
  - rewrite E. apply (dset_upd _ _ h); [apply OK|done].
  - eapply keeps_at; [apply OK|apply OK|done|]. simpl. rewrite NR.
    split; [done|split; [by rewrite A'|]]. split; [done|by intros []].
  - intros k r Hin. unfold at_turn. case_decide as D; [|done]. rewrite (G' _ _ Hin D) in *.
    unfold committed. simpl. split; [|done]. rewrite bool_decide_eq_false_2 by done.
    symmetry. apply bool_decide_eq_false. intros X. by rewrite X in A.
  - intros k r Hin. unfold at_turn. case_decide; [by right|by left].
Qed.

Lemma settle_ok o s c tid st err now :
  (exists st0, ledger_status s tid = Some st0 /\ is_active st0 = true) -> st = CANCELLED \/ st = UNKNOWN ->
  session_ok o s c -> session_ok o (settle tid st err now s) c.
Proof.
  intros (st0 & (r & G & <-)%status_elem & A) Hst OK. unfold settle. rewrite G.
  eapply (settle_record_ok o s _ c tid r st (response r)); try done; by destruct Hst as [->| ->].
Qed.

Lemma abort_ok o s c sid now : session_ok o s c -> session_ok o (abort_turns sid now s) c.
Proof.
  intros OK.
  set (g := fun (k : string) (r : TurnRecord) =>
     if is_active (status r)
        then settle_record UNKNOWN (response r)
               (Some (error_payload "aborted" "Session was aborted while turn was in flight." 409
                        [("session_id", PStr sid); ("turn_id", PStr (turn_id r))])) now r
        else r).
  assert (R : forall k r, (k, r) ∈ turn_ledger s -> is_active (status r) = true -> response r = None).
  { intros k r Hin A. destruct (response r) eqn:R; [|done].
    rewrite (proj2 (ok_response _ _ _ OK k r Hin)) in A by eauto. done. }
  apply (upd_ok o s _ c g); try done.
  - simpl. apply map_ext. by intros [k r].
  - intros k r Hin. unfold g. destruct (is_active (status r)) eqn:A; [|].
    + simpl. rewrite (R _ _ Hin A). split; [done|split; [done|]]. split; [done|by intros []].
    + split; [done|split; [congruence|by eapply ok_response]].
  - intros k r Hin. unfold g, committed. destruct (is_active (status r)) eqn:A; [|done]. simpl.
    split; [|done]. symmetry. apply bool_decide_eq_false. intros X. by rewrite X in A.
  - intros k r Hin. unfold g. destruct (is_active (status r)); [by right|by left].
Qed.

(** More calls change neither what an executed turn was sent nor its contribution. *)
Lemma contribution_app o s c c' : session_ok o s c ->
  map (contribution o (c ++ c')) (turn_ledger s) = map (contribution o c) (turn_ledger s).
Proof.
  intros OK. apply map_ext_in. intros [k r] Hin. apply list_elem_of_In in Hin.
  unfold contribution. simpl. destruct (response r) as [a|] eqn:R; [|done].
  rewrite sent_app. destruct (proj1 (sent_executions o k c)) as [ms ->]; [|done].
  apply (ok_running _ _ _ OK k (status r)); [|right; apply (ok_response _ _ _ OK k); eauto].
  unfold ledger_status. by rewrite (dget_NoDup_elem _ _ _ (ok_keys _ _ _ OK) Hin).
Qed.

Lemma executions_send o c o' tid ms :
  executions o (c ++ [SendMessage o' tid ms]) = executions o c ++ (if decide (o' = o) then [tid] else []).
Proof. rewrite executions_app. unfold executions at 2. simpl. by case_decide. Qed.

Lemma turn_start_ok o s c tid ms now : ledger_status s tid = Some QUEUED ->
  session_ok o s c -> session_ok o (start_turn tid now s) (c ++ [SendMessage o tid ms]).
Proof.
  intros (r0 & G & Hq)%status_elem OK. unfold start_turn. rewrite G.
  set (h := fun r => settle_record INFLIGHT (response r) (error r) now r).
  set (s' := with_ledger _ _).
  assert (E : turn_ledger s' = map (upd (at_turn tid h)) (turn_ledger s))
    by (apply (dset_upd _ _ h); [apply OK|done]).
  pose proof (dget_elem _ _ _ G) as Hin0.
  assert (NR : response r0 = None).
  { destruct (response r0) eqn:R; [|done]. rewrite (proj2 (ok_response _ _ _ OK _ _ Hin0)) in Hq by eauto. done. }
  assert (G' : forall r, (tid, r) ∈ turn_ledger s -> r = r0).
  { intros r Hin. rewrite (dget_NoDup_elem _ _ _ (ok_keys _ _ _ OK) Hin) in G. congruence. }
  assert (Nx : tid ∉ executions o c).
  { intros Hin. destruct (ok_executed _ _ _ OK _ Hin) as (st & Hst & N).
    unfold ledger_status in Hst. rewrite G in Hst. simpl in Hst. congruence. }
  assert (CN : commits_nothing s (at_turn tid h)).
  { intros k r Hin. unfold at_turn. case_decide; [|done]. subst. rewrite (G' _ Hin). unfold committed.
    simpl. by rewrite Hq. }
  assert (St : forall k, ledger_status s' k = if decide (k = tid) then Some INFLIGHT else ledger_status s k).
  { intros k. rewrite (status_upd s s' _ _ E). unfold at_turn, ledger_status.
    case_decide; [subst; by rewrite G|done]. }
  apply (map_ok o s s' c _ (at_turn tid h)); try done; rewrite ?executions_send, ?decide_True by done.
  - eapply keeps_at; [apply OK|apply OK|done|]. simpl. rewrite NR, Hq. split; [done|split; [done|]].
    split; [done|by intros []].
  - rewrite E, count_upd by done. apply OK.
  - apply NoDup_app. split_and!; [apply OK|set_solver|apply NoDup_singleton].
  - intros k. rewrite St, elem_of_app, list_elem_of_singleton. case_decide; [by eauto|].
    intros [Hk|?]; [|done]. by apply (ok_executed _ _ _ OK).
  - intros k st. rewrite St, elem_of_app, list_elem_of_singleton. case_decide; [by right|].
    intros. left. by eapply ok_running.
  - rewrite E, contribution_upd, contribution_app by done. apply OK.
Qed.

Lemma turn_commit_ok o s c tid ms a now : ledger_status s tid = Some INFLIGHT -> SendMessage o tid ms ∈ c ->
  session_ok o s c -> session_ok o (commit_turn tid ms a now s) c.
Proof.
  intros (r0 & G & Hq)%status_elem Hsent OK. unfold commit_turn. rewrite G.
  set (h := fun r => settle_record COMMITTED (Some a) (error r) now r). set (s' := Build_SessionContext _ _ _ _ _ _ _ _ _ _ _ _).
  pose proof (dget_elem _ _ _ G) as Hin0. apply list_elem_of_lookup in Hin0 as [i Hi].
  pose proof (ok_last _ _ _ OK i _ Hi) as Hlast. simpl in Hlast. rewrite Hq in Hlast. specialize (Hlast eq_refl).
  assert (L : turn_ledger s = take i (turn_ledger s) ++ [(tid, r0)]).
  { rewrite <- (take_drop_middle _ _ _ Hi) at 1. rewrite drop_ge by lia. done. }
  set (l0 := take i (turn_ledger s)) in *.
  assert (N0 : tid ∉ dkeys l0).
  { pose proof (ok_keys _ _ _ OK) as ND. rewrite L in ND. unfold dkeys in ND. rewrite map_app in ND.
    apply NoDup_app in ND as (_ & ND & _). intros X. apply (ND tid X). simpl. by left. }
  assert (NR : response r0 = None).
  { destruct (response r0) eqn:R; [|done].
    rewrite (proj2 (ok_response _ _ _ OK _ _ (dget_elem _ _ _ G))) in Hq by eauto. done. }
  assert (E : turn_ledger s' = map (upd (at_turn tid h)) (turn_ledger s))
    by (apply (dset_upd _ _ h); [apply OK|done]).
  assert (E' : turn_ledger s' = l0 ++ [(tid, h r0)]).
  { rewrite E, L, map_app. simpl. unfold upd at 2, at_turn at 2. simpl. rewrite decide_True by done. f_equal.
    transitivity (map id l0); [|by rewrite map_id]. apply map_ext_in. intros [k r] Hin.
    unfold upd, at_turn. simpl. rewrite decide_False; [done|]. intros ->. apply N0.
    apply list_elem_of_In in Hin. by apply (elem_of_map_intro fst) in Hin. }
  assert (St : forall k, ledger_status s' k = if decide (k = tid) then Some COMMITTED else ledger_status s k).
  { intros k. rewrite (status_upd s s' _ _ E). unfold at_turn, ledger_status.
    case_decide; [subst; by rewrite G|done]. }
  assert (X : tid ∈ executions o c).
  { apply sent_executions. rewrite (sent_once o tid c ms); [eauto|apply OK|done]. }
  apply (map_ok o s s' c _ (at_turn tid h)); try done.
  - eapply keeps_at; [apply OK|apply OK|done|]. simpl. rewrite Hq. split; [done|split; [done|]]. split; [eauto|done].
  - simpl turn_count. rewrite E', (ok_count _ _ _ OK), L, !count_by_app. unfold count_by at 2 4. simpl.
    unfold committed at 2. rewrite Hq. rewrite bool_decide_eq_false_2 by done. simpl. lia.
  - apply OK.
  - intros k Hk. rewrite St. case_decide; [by eauto|]. by apply (ok_executed _ _ _ OK).
  - intros k st. rewrite St. case_decide; [by subst|]. by apply (ok_running _ _ _ OK).
  - destruct (ok_history _ _ _ OK) as (p & Hp & Hh). exists p. split; [done|].
    simpl conversation_history. rewrite E', Hh, L, !map_app, !concat_app. simpl.
    unfold contribution at 2 4. simpl. rewrite NR, (sent_once o tid c ms) by (done || apply OK). simpl.
    by rewrite !app_nil_r, <- !app_assoc.
Qed.

Lemma call_ok o s c k : (forall tid ms, k <> SendMessage o tid ms) ->
  session_ok o s c -> session_ok o s (c ++ [k]).
Proof.
  intros Nk OK.
  assert (E : executions o (c ++ [k]) = executions o c).
  { rewrite executions_app. destruct k as [o' tid ms|]; simpl; [|by rewrite app_nil_r].
    rewrite decide_False by (intros ->; by eapply Nk). by rewrite app_nil_r. }
  split; rewrite ?E; try apply OK.
  rewrite contribution_app by done. apply OK.
Qed.

Lemma turn_step_ok o p p' : turn_step o p p' -> session_ok o (fst p) (snd p) -> session_ok o (fst p') (snd p').
Proof.
  intros []; simpl; intros OK.
  - by apply queue_ok.
  - by apply turn_start_ok.
  - by apply turn_commit_ok.
  - by apply settle_ok.
  - by apply abort_ok.
  - by eapply same_ok, OK.
  - by eapply same_ok, OK.
  - by apply call_ok.
Qed.

Lemma turn_steps_ok o p p' : rtc (turn_step o) p p' ->
  session_ok o (fst p) (snd p) -> session_ok o (fst p') (snd p').
Proof. induction 1; eauto using turn_step_ok. Qed.

(** ** A settled turn never changes *)

(** Later states of a session: every turn is still there under its fingerprint, settled turns
    are the same, and the history has only grown. *)
Record later (s s' : SessionContext) : Prop := {
  later_turns : forall tid r, dget (turn_ledger s) tid = Some r -> exists r',
    dget (turn_ledger s') tid = Some r' /\ request_fingerprint r' = request_fingerprint r
    /\ (settled_status (status r) -> r' = r) /\ (status r <> QUEUED -> status r' <> QUEUED);
  later_history : conversation_history s `prefix_of` conversation_history s' }.

#[export] Instance later_preorder : PreOrder later.
Proof.
  split.
  - intros s. split; [|done]. intros tid r G. exists r. auto.
  - intros s1 s2 s3 [T1 H1] [T2 H2]. split; [|by etrans]. intros tid r G.
    destruct (T1 _ _ G) as (r' & G' & F' & S' & Q'). destruct (T2 _ _ G') as (r'' & G'' & F'' & S'' & Q'').
    exists r''. split; [done|]. split; [congruence|]. split; [|auto].
    intros Hs. specialize (S' Hs) as ->. auto.
Qed.

Lemma later_upd s s' g : turn_ledger s' = map (upd g) (turn_ledger s) ->
  conversation_history s `prefix_of` conversation_history s' ->
  (forall k r, dget (turn_ledger s) k = Some r -> request_fingerprint (g k r) = request_fingerprint r
     /\ (settled_status (status r) -> g k r = r) /\ (status r <> QUEUED -> status (g k r) <> QUEUED)) ->
  later s s'.
Proof.
  intros E Hh K. split; [|done]. intros tid r G. exists (g tid r).
  split; [by rewrite E, dget_upd, G|]. by apply K.
Qed.

Lemma later_record s s' tid r0 st resp err now : NoDup (dkeys (turn_ledger s)) ->
  dget (turn_ledger s) tid = Some r0 -> is_active (status r0) = true -> st <> QUEUED ->
  turn_ledger s' = dset (turn_ledger s) tid (settle_record st resp err now r0) ->
  conversation_history s `prefix_of` conversation_history s' -> later s s'.
Proof.
  intros ND G A Q E Hh. apply (later_upd s s' (at_turn tid (settle_record st resp err now))); [|done|].
  - rewrite E. by apply (dset_upd _ _ (settle_record st resp err now)).
  - intros k r Hk. unfold at_turn. case_decide; [|done]. subst. simpl. split; [done|]. split; [|done].
    unfold settled_status. congruence.
Qed.

Lemma turn_step_later o p p' : turn_step o p p' -> session_ok o (fst p) (snd p) -> later (fst p) (fst p').
Proof.
  intros []; simpl; intros OK.
  - split; [|done]. intros k r G. exists r. simpl. rewrite dget_dset_ne by congruence. auto.
  - destruct (status_elem _ _ _ H) as (r & G & Q). unfold start_turn. rewrite G.
    eapply later_record; [apply OK|done|by rewrite Q| |done..]. done.
  - destruct (status_elem _ _ _ H) as (r & G & Q). unfold commit_turn. rewrite G.
    eapply later_record; [apply OK|done|by rewrite Q| |done|]; [done|]. simpl. apply prefix_app_r. done.
  - destruct H as (st0 & (r & G & <-)%status_elem & A). unfold settle. rewrite G.
    eapply later_record; [apply OK|done|done| |done..]. by destruct H0 as [->| ->].
  - apply (later_upd _ _ (fun _ r => if is_active (status r)
       then settle_record UNKNOWN (response r)
              (Some (error_payload "aborted" "Session was aborted while turn was in flight." 409
                       [("session_id", PStr sid); ("turn_id", PStr (turn_id r))])) now r
       else r)); [simpl; apply map_ext; by intros []|done|].
    intros k r G. unfold settled_status. by destruct (is_active (status r)).
  - split; [|done]. intros ? r G. by exists r.
  - split; [|done]. intros ? r G. by exists r.
  - split; [|done]. intros ? r G. by exists r.
Qed.

(** ** The server implements the contract *)

(** A session that gets no new turn. *)
Definition quiet (s s' : SessionContext) : Prop :=
  (forall tid, dget (turn_ledger s) tid = None -> dget (turn_ledger s') tid = None)
  /\ (_active_turn_id s = None -> _active_turn_id s' = None).

#[export] Instance quiet_preorder : PreOrder quiet.
Proof. split; [by split|]. intros s1 s2 s3 [T1 A1] [T2 A2]. split; auto. Qed.

(** A lock that task [t] may take or release. *)
Definition mine (t : nat) (h : option nat) : Prop := h = None \/ h = Some t.

(** What a section of task [t] does to the sessions and to the calls. *)
Record change (t : nat) (w w' : World) : Prop := {
  ch_calls : calls w `prefix_of` calls w';
  ch_objs : forall o x, objs w !! o = Some x -> exists x', objs w' !! o = Some x'
    /\ rtc (turn_step o) (ctx x, calls w) (ctx x', calls w')
    /\ (quiet (ctx x) (ctx x') \/ mine t (holder x))
    /\ (holder x' = holder x \/ mine t (holder x) /\ mine t (holder x'));
  ch_none : forall o, objs w !! o = None -> objs w' !! o = None
    /\ executions o (calls w') = executions o (calls w) }.

#[export] Instance change_preorder t : PreOrder (change t).
Proof.
  split.
  - intros w. split; [done| |done]. intros o x L. exists x. split; [done|]. split; [reflexivity|]. split; left; reflexivity.
  - intros w1 w2 w3 [C1 O1 N1] [C2 O2 N2]. split; [by etrans| |].
    + intros o x L. destruct (O1 _ _ L) as (x2 & L2 & R2 & Q2 & H2).
      destruct (O2 _ _ L2) as (x3 & L3 & R3 & Q3 & H3). exists x3.
      split; [done|]. split; [by etrans|]. split.
      * destruct Q2 as [Q2|]; [|by right]. destruct Q3 as [Q3|Q3]; [left; by etrans|].
        destruct H2 as [H2|[]]; [|by right]. right. by rewrite <- H2.
      * destruct H2 as [H2|[M2 M2']], H3 as [H3|[M3 M3']]; [left; congruence|right..].
        -- by rewrite H2 in M3.
        -- by rewrite H3.
        -- done.
    + intros o L. destruct (N1 _ L) as [L2 ->%eq_sym]. destruct (N2 _ L2) as [L3 ->]. done.
Qed.

Lemma change_view t w w' : objs w' = objs w -> calls w' = calls w -> change t w w'.
Proof.
  intros Eo Ec. split.
  - by rewrite Ec.
  - intros o x L. exists x. rewrite Eo, Ec. split; [done|]. split; [reflexivity|]. split; left; reflexivity.
  - intros o L. by rewrite Eo, Ec.
Qed.

Lemma change_update t w o f :
  (forall x, objs w !! o = Some x -> rtc (turn_step o) (ctx x, calls w) (f (ctx x), calls w)
     /\ (quiet (ctx x) (f (ctx x)) \/ mine t (holder x))) ->
  change t w (update o f w).
Proof.
  intros K. split; [done| |].
  - intros o' x L. destruct (decide (o' = o)) as [->|Ho].
    + exists (on_ctx f x). simpl. rewrite list_lookup_alter_eq, L. destruct (K _ L). split; [done|]. split; [done|]. split; [done|by left].
    + exists x. simpl. rewrite list_lookup_alter_ne by done. split; [done|]. split; [reflexivity|]. split; left; reflexivity.
  - intros o' L. simpl. destruct (decide (o' = o)) as [->|Ho];
      [by rewrite list_lookup_alter_eq, L|by rewrite list_lookup_alter_ne].
Qed.

Lemma change_lock t w o h : mine t h -> (forall x, objs w !! o = Some x -> mine t (holder x)) ->
  change t w (with_objs (alter (set_holder h) o (objs w)) w).
Proof.
  intros Mh K. split; [done| |].
  - intros o' x L. destruct (decide (o' = o)) as [->|Ho].
    + exists (set_holder h x). simpl. rewrite list_lookup_alter_eq, L. split; [done|]. split; [reflexivity|]. split; [left; reflexivity|right; eauto].
    + exists x. simpl. rewrite list_lookup_alter_ne by done. split; [done|]. split; [reflexivity|]. split; left; reflexivity.
  - intros o' L. simpl. destruct (decide (o' = o)) as [->|Ho];
      [by rewrite list_lookup_alter_eq, L|by rewrite list_lookup_alter_ne].
Qed.

Lemma change_call t w k : (forall o tid ms, k <> SendMessage o tid ms) -> change t w (called k w).
Proof.
  intros Nk. split; [by apply prefix_app_r| |].
  - intros o x L. exists x. simpl. split; [done|]. split; [apply rtc_once; by constructor|]. split; left; reflexivity.
  - intros o L. simpl. split; [done|]. rewrite executions_app. destruct k as [o' tid ms|]; [|simpl; by rewrite app_nil_r].
    by destruct (Nk o' tid ms).
Qed.

(** The start of a turn and its call are one step. *)
Lemma change_start t w o tid ms now x : objs w !! o = Some x -> ledger_status (ctx x) tid = Some QUEUED ->
  change t w (called (SendMessage o tid ms) (update o (start_turn tid now) w)).
Proof.
  intros Lo Hq. destruct (status_elem _ _ _ Hq) as (r & G & Q). split; [by apply prefix_app_r| |].
  - intros o' x' L. simpl. destruct (decide (o' = o)) as [->|Ho].
    + rewrite L in Lo. injection Lo as ->. exists (on_ctx (start_turn tid now) x).
      rewrite list_lookup_alter_eq, L. split; [done|]. split; [apply rtc_once; by constructor|]. split; [|by left].
      left. unfold start_turn. simpl. rewrite G. split.
      * intros k Hk. simpl. rewrite dget_dset_ne by congruence. done.
      * intros Ha. apply dget_elem, list_elem_of_lookup in G as [i Hi].
        pose proof (no_active _ _ _ Ha Hi) as A. simpl in A. by rewrite Q in A.
    + exists x'. rewrite list_lookup_alter_ne by done. split; [done|]. split; [|split; by left].
      apply rtc_once. constructor. congruence.
  - intros o' L. simpl. rewrite executions_send. destruct (decide (o' = o)) as [->|Ho]; [congruence|].
    rewrite list_lookup_alter_ne, decide_False, app_nil_r by congruence. done.
Qed.

(** ** Tasks *)

Definition pcs (w : World) : list pc := at_ <$> tasks w.

Definition holds (t o : nat) (w : World) : Prop := exists x, objs w !! o = Some x /\ holder x = Some t.

(** What the server knows at each place where a task waits. *)
Definition task_ok (t : nat) (p : pc) (w : World) : Prop :=
  match p with
  | SubmitHealth o sid tid fp req sync =>
      exists x, objs w !! o = Some x /\ holder x = Some t
        /\ dget (turn_ledger (ctx x)) tid = None /\ _active_turn_id (ctx x) = None
  | RunCall o sid tid req | RunSettle o sid tid req _ => SendMessage o tid (messages req) ∈ calls w
  | RunAbort o _ _ _ | RunHealth o _ _ _ | CmdRun o | AbortAdapter o _ true => holds t o w
  | _ => True
  end.

Record world_ok (w : World) : Prop := {
  w_sessions : forall o x, objs w !! o = Some x -> session_ok o (ctx x) (calls w);
  w_none : forall o, objs w !! o = None -> executions o (calls w) = [];
  w_tasks : forall t p, pcs w !! t = Some p -> task_ok t p w }.

(** Other tasks keep what they know. *)
Lemma task_ok_change t t' p w w' : t' <> t -> change t w w' -> task_ok t' p w -> task_ok t' p w'.
Proof.
  intros Ht [C O N].
  assert (Hold : forall o, holds t' o w -> holds t' o w').
  { intros o (x & L & Hx). destruct (O _ _ L) as (x' & L' & _ & _ & [E|[M _]]); exists x'.
    - split; congruence.
    - unfold mine in M. destruct M; congruence. }
  destruct p; simpl; auto.
  - intros (x & L & Hx & G & A). destruct (O _ _ L) as (x' & L' & _ & [[Q1 Q2]|M] & E).
    + exists x'. destruct E as [E|[M _]]; [split_and!; auto; congruence|]. destruct M; congruence.
    + destruct M; congruence.
  - intros Hin. by eapply elem_of_prefix.
  - intros Hin. by eapply elem_of_prefix.
  - destruct acquired; auto.
Qed.

(** Where a section leaves the tasks. *)
Definition lands (t : nat) (w w' : World) : Prop :=
  exists p extra, pcs w' = <[t := p]> (pcs w) ++ extra
    /\ Forall (fun p => exists sid tid req, p = RunStart sid tid req) extra /\ task_ok t p w'.

Definition moves (t : nat) (w w' : World) : Prop := change t w w' /\ lands t w w'.

Lemma moves_ok t w w' : moves t w w' -> (t < length (tasks w))%nat -> world_ok w -> world_ok w'.
Proof.
  intros [Ch (p & extra & E & X & Tp)] Ht [S N T]. pose proof Ch as [C O Nn]. split.
  - intros o x' L'. destruct (objs w !! o) as [x|] eqn:L; [|by rewrite (proj1 (Nn _ L)) in L'].
    destruct (O _ _ L) as (x1 & L1 & R & _). rewrite L1 in L'. injection L' as <-.
    by apply (turn_steps_ok o _ _ R), S.
  - intros o L'. destruct (objs w !! o) as [x|] eqn:L.
    + destruct (O _ _ L) as (x1 & L1 & _). congruence.
    + rewrite (proj2 (Nn _ L)). auto.
  - intros t' p' L'. rewrite E in L'. apply lookup_app_Some in L' as [L'|[_ L']].
    + destruct (decide (t' = t)) as [->|Hne].
      * rewrite list_lookup_insert_eq in L' by (unfold pcs; by rewrite length_fmap). by injection L' as <-.
      * rewrite list_lookup_insert_ne in L' by done. eapply task_ok_change; eauto.
    + apply list_elem_of_lookup_2 in L'. rewrite Forall_forall in X.
      destruct (X _ L') as (sid & tid & req & ->). done.
Qed.

(** *** Landing *)

Lemma pcs_goto t p w : pcs (goto t p w) = <[t := p]> (pcs w).
Proof. unfold pcs. simpl. by rewrite list_fmap_insert. Qed.

Lemma pcs_cancel k w : pcs (cancel k w) = pcs w.
Proof.
  unfold pcs. simpl. apply list_eq. intros i. rewrite !list_lookup_fmap.
  destruct (decide (i = k)) as [->|Hi];
    [rewrite list_lookup_alter_eq|by rewrite list_lookup_alter_ne]. by destruct (tasks w !! k).
Qed.

Lemma view_turn_event sid tid w :
  objs (set_turn_event sid tid w) = objs w /\ calls (set_turn_event sid tid w) = calls w
  /\ pcs (set_turn_event sid tid w) = pcs w.
Proof. unfold set_turn_event. by destruct (dget _ _). Qed.

Lemma moves_land t w w1 p extra : change t w w1 -> pcs w1 = pcs w ++ extra ->
  (t < length (tasks w))%nat ->
  Forall (fun p => exists sid tid req, p = RunStart sid tid req) extra -> task_ok t p w1 ->
  moves t w (goto t p w1).
Proof.
  intros Ch E Ht X Tp. split.
  - etrans; [done|]. by apply change_view.
  - exists p, extra. split; [|split; [done|by destruct p]].
    rewrite pcs_goto, E. apply insert_app_l. unfold pcs. by rewrite length_fmap.
Qed.

Lemma moves_goto t w w1 p : change t w w1 -> pcs w1 = pcs w -> (t < length (tasks w))%nat ->
  task_ok t p w1 -> moves t w (goto t p w1).
Proof. intros. eapply (moves_land _ _ _ _ []); rewrite ?app_nil_r; by auto. Qed.

Lemma moves_finally t w w1 sid tid : change t w w1 -> pcs w1 = pcs w -> (t < length (tasks w))%nat ->
  moves t w (run_finally t sid tid w1).
Proof.
  intros Ch E Ht. unfold run_finally. set (w2 := match dget _ _ with Some _ => _ | None => _ end).
  destruct (view_turn_event sid tid w1) as (V1 & V2 & V3).
  assert (V : objs w2 = objs w1 /\ calls w2 = calls w1 /\ pcs w2 = pcs w1).
  { subst w2. destruct (dget _ _); [case_bool_decide|]; by rewrite <- ?V1, <- ?V2, <- ?V3. }
  destruct V as (Vo & Vc & Vp). apply moves_goto; [|congruence|done|done].
  etrans; [done|]. by apply change_view.
Qed.

(** Updates that give a session no new turn. *)
Lemma change_quiet t w o f :
  (forall x, objs w !! o = Some x -> rtc (turn_step o) (ctx x, calls w) (f (ctx x), calls w)
     /\ quiet (ctx x) (f (ctx x))) -> change t w (update o f w).
Proof. intros K. apply change_update. intros x L. destruct (K _ L). auto. Qed.

Lemma quiet_ledger s s' : turn_ledger s' = turn_ledger s -> quiet s s'.
Proof. intros E. unfold quiet, _active_turn_id. by rewrite E. Qed.

Lemma quiet_settle s tid r r' : dget (turn_ledger s) tid = Some r -> is_active (status r) = true ->
  forall s', turn_ledger s' = dset (turn_ledger s) tid r' -> quiet s s'.
Proof.
  intros G A s' E. split.
  - intros k Hk. by rewrite E, dget_dset_ne by congruence.
  - intros Ha. apply dget_elem, list_elem_of_lookup in G as [i Hi].
    pose proof (no_active _ _ _ Ha Hi) as A'. simpl in A'. congruence.
Qed.

Lemma change_state t w o (f : SessionContext -> SessionState) now :
  change t w (update o (fun s => with_state (f s) now s) w).
Proof.
  apply change_quiet. intros x L. split; [apply rtc_once; constructor|by apply quiet_ledger].
Qed.

Lemma steps_desync o s c now : rtc (turn_step o) (s, c) (desync now s, c) /\ quiet s (desync now s).
Proof.
  unfold desync. case_bool_decide; [done|]. split; [apply rtc_once; constructor|by apply quiet_ledger].
Qed.

Lemma change_backend_error t now w : change t w (_mark_backend_error now w)
  /\ pcs (_mark_backend_error now w) = pcs w.
Proof.
  unfold _mark_backend_error. case_bool_decide; [done|].
  assert (K : forall l w1, change t w w1 /\ pcs w1 = pcs w ->
    change t w (foldl (fun w kv => update (snd kv) (desync now) w) w1 l)
    /\ pcs (foldl (fun w (kv : string * nat) => update (snd kv) (desync now) w) w1 l) = pcs w).
  { induction l as [|[k o] l IH]; intros w1 [C P]; [done|]. apply IH. split; [|done].
    etrans; [done|]. apply change_quiet. intros x _. apply steps_desync. }
  apply K. split; [by apply change_view|done].
Qed.

Lemma steps_settle o s c tid st err now :
  (exists st0, ledger_status s tid = Some st0 /\ is_active st0 = true) -> st = CANCELLED \/ st = UNKNOWN ->
  rtc (turn_step o) (s, c) (settle tid st err now s, c) /\ quiet s (settle tid st err now s).
Proof.
  intros A Hst. split; [apply rtc_once; by constructor|].
  destruct A as (st0 & (r & G & <-)%status_elem & A). unfold settle. rewrite G.
  by apply (quiet_settle s tid r (settle_record st (response r) (Some err) now r) G A).
Qed.

Lemma steps_open o s0 s c now :
  rtc (turn_step o) (s0, c) (s, c) /\ quiet s0 s ->
  rtc (turn_step o) (s0, c) (desync_open now s, c) /\ quiet s0 (desync_open now s).
Proof.
  intros [R Q]. unfold desync_open, touch. split.
  - etrans; [done|]. apply rtc_once. case_bool_decide; constructor.
  - etrans; [done|]. apply quiet_ledger. by case_bool_decide.
Qed.

Lemma steps_unknown o s c tid f now :
  (exists st0, ledger_status s tid = Some st0 /\ is_active st0 = true) ->
  rtc (turn_step o) (s, c) (record_unknown tid f now s, c) /\ quiet s (record_unknown tid f now s).
Proof. intros A. unfold record_unknown. apply steps_open, steps_settle; auto. Qed.

Lemma steps_interrupted o s c sh tid now :
  rtc (turn_step o) (s, c) (_finalize_interrupted_turn_locked sh tid now s, c)
  /\ quiet s (_finalize_interrupted_turn_locked sh tid now s).
Proof.
  unfold _finalize_interrupted_turn_locked. destruct (dget (turn_ledger s) tid) as [r|] eqn:G; [|done].
  case_bool_decide as T; [done|].
  assert (A : exists st0, ledger_status s tid = Some st0 /\ is_active st0 = true).
  { exists (status r). unfold ledger_status. rewrite G. split; [done|].
    destruct (status r); try done; by destruct T; unfold _TERMINAL_TURN_STATUSES; set_solver. }
  destruct sh; [apply steps_open|]; apply steps_settle; auto.
Qed.

Lemma steps_resolve o s c fresh rid : let s' := snd (_resolve_turn_id fresh rid s) in
  rtc (turn_step o) (s, c) (s', c) /\ turn_ledger s' = turn_ledger s.
Proof.
  unfold _resolve_turn_id.
  assert (K : forall m, rtc (turn_step o) (s, c) (with_metadata m s, c)) by (intros; apply rtc_once; constructor).
  repeat (case_match; simpl; try done; auto).
Qed.

Lemma steps_abort o s c sid now st :
  let s' := abort_turns sid now (with_state st now s) in
  rtc (turn_step o) (s, c) (s', c) /\ quiet s s'.
Proof.
  split; [etrans; apply rtc_once; [apply (step_state o s c st now)|constructor]|].
  unfold abort_turns. split; simpl.
  - intros k. induction (turn_ledger s) as [|[k' r] l IH]; simpl; [done|]. by case_decide.
  - unfold _active_turn_id. simpl. intros Ha. destruct (List.find _ (turn_ledger s)) as [[]|] eqn:F; [done|].
    clear Ha. induction (turn_ledger s) as [|[k r] l IH]; simpl in *; [done|].
    destruct (is_active (status r)) eqn:A; [done|]. simpl. rewrite A. by apply IH.
Qed.

(** *** Locks *)

Definition owned (t o : nat) (w : World) : Prop := forall x, objs w !! o = Some x -> mine t (holder x).

Lemma owned_change t o w w' : change t w w' -> owned t o w -> owned t o w'.
Proof.
  intros [C O N] Ow x' L'. destruct (objs w !! o) as [x|] eqn:L.
  - destruct (O _ _ L) as (x1 & L1 & _ & _ & [E|[_ M]]); rewrite L1 in L'; injection L' as <-; [|done].
    rewrite E. by apply Ow.
  - by rewrite (proj1 (N _ L)) in L'.
Qed.

Lemma free_owned t o w : free o w = true -> owned t o w.
Proof. unfold free. intros F x L. rewrite L in F. apply bool_decide_eq_true in F. by left. Qed.

Lemma holds_owned t o w : holds t o w -> owned t o w.
Proof. intros (x & L & Hx) x' L'. right. congruence. Qed.

Lemma change_release t o w w1 : change t w w1 -> owned t o w -> change t w (release o w1).
Proof. intros C Ow. etrans; [done|]. apply change_lock; [by left|]. by eapply owned_change. Qed.

Lemma change_acquire t o w w1 : change t w w1 -> owned t o w -> change t w (acquire o t w1).
Proof. intros C Ow. etrans; [done|]. apply change_lock; [by right|]. by eapply owned_change. Qed.

Lemma holds_acquire t o w x : objs w !! o = Some x -> holds t o (acquire o t w).
Proof. intros L. exists (set_holder (Some t) x). simpl. by rewrite list_lookup_alter_eq, L. Qed.

(** *** Sections *)

(** Sections that end by waiting somewhere, after a harmless change. *)
Ltac land :=
  repeat case_match; try (apply moves_finally || apply moves_goto); try done; try (by apply change_view).

Section Moves.
Context `{PyText}.
Variables (t : nat) (w : World).
Hypothesis Ht : (t < length (tasks w))%nat.

Lemma submit_enter_moves sid req sync : moves t w (submit_enter t sid req sync w).
Proof using Ht. unfold submit_enter, fail. land. Qed.

Lemma submitted_moves w1 sid sub sync extra : change t w w1 -> pcs w1 = pcs w ++ extra ->
  Forall (fun p => exists sid tid req, p = RunStart sid tid req) extra ->
  moves t w (submitted t sid sub sync w1).
Proof using Ht.
  intros Ch E X. unfold submitted, fail. repeat case_match; by eapply moves_land.
Qed.

Lemma admit_spec o cap fresh sid req s c a s' : admit_turn cap fresh sid req s = (a, s') ->
  rtc (turn_step o) (s, c) (s', c)
  /\ match a with
     | TurnAdmitted tid fp => dget (turn_ledger s') tid = None /\ _active_turn_id s' = None
     | _ => True
     end.
Proof using.
  unfold admit_turn. pose proof (steps_resolve o s c fresh (mr_turn_id req)) as [R _].
  destruct (s_state s); try (by intros [= <- <-]). case_match; [by intros [= <- <-]|].
  destruct (_resolve_turn_id _ _ _) as [[e|tid] s1]; simpl in R; [by intros [= <- <-]|].
  destruct (dget (turn_ledger s1) tid) eqn:G; [case_match; by intros [= <- <-]|].
  destruct (_active_turn_id s1) eqn:A; by intros [= <- <-].
Qed.

Lemma submit_locked_moves o fresh sid req sync : free o w = true ->
  moves t w (submit_locked t o fresh sid req sync w) \/ submit_locked t o fresh sid req sync w = w.
Proof using Ht.
  intros F. unfold submit_locked. destruct (objs w !! o) as [x|] eqn:L; [left|by right].
  destruct (admit_turn _ _ _ _ _) as [a s] eqn:A. destruct (admit_spec o _ _ _ _ _ (calls w) _ _ A) as [R Ha].
  assert (Ch : change t w (update o (fun _ => s) w)).
  { apply change_update. intros y Ly. rewrite Ly in L. injection L as ->. split; [done|]. right.
    by apply (free_owned t o w F). }
  destruct a as [e|r|tid fp].
  - by apply moves_goto.
  - eapply (submitted_moves _ _ _ _ []); [exact Ch|rewrite app_nil_r; reflexivity|constructor].
  - apply moves_goto; [|done|done|].
    + apply change_acquire; [done|by apply free_owned].
    + exists (set_holder (Some t) (on_ctx (fun _ => s) x)). simpl.
      rewrite !list_lookup_alter_eq, L. simpl. destruct Ha. by split_and!.
Qed.

Lemma submit_health_moves o sid tid fp req sync healthy now :
  task_ok t (SubmitHealth o sid tid fp req sync) w ->
  moves t w (submit_health t o sid tid fp req sync healthy now w).
Proof using Ht.
  intros (x & L & Hx & G & A). assert (Ow : owned t o w) by (apply holds_owned; by exists x).
  unfold submit_health. destruct healthy; simpl.
  - eapply (submitted_moves _ _ _ _ [RunStart sid tid req]).
    + apply change_release; [|done].
      transitivity (update o (queue_turn tid fp (messages req) now) w); [|by apply change_view].
      apply (change_update t w o (queue_turn tid fp (messages req) now)). intros y Ly. rewrite Ly in L. injection L as ->.
      split; [apply rtc_once; by constructor|by right; right].
    + unfold pcs. simpl. by rewrite fmap_app.
    + constructor; [by eauto|constructor].
  - destruct (change_backend_error t now w) as [C P]. apply moves_goto; [|done|done|done].
    by apply change_release.
Qed.

Lemma send_moves sid bound sub : moves t w (send_settled t sid bound sub w).
Proof using Ht. unfold send_settled, fail. land. Qed.

Lemma send_locked_moves o sid sub : moves t w (send_locked t o sid sub w) \/ send_locked t o sid sub w = w.
Proof using Ht.
  unfold send_locked, fail. destruct (objs w !! o); [left|by right]. land.
Qed.

Lemma run_start_moves sid tid req : moves t w (run_start t sid tid req w).
Proof using Ht. unfold run_start. case_match; [by apply moves_goto|by apply moves_finally]. Qed.

Lemma run_locked_moves o sid tid req now :
  moves t w (run_locked t o sid tid req now w) \/ run_locked t o sid tid req now w = w.
Proof using Ht.
  unfold run_locked. destruct (objs w !! o) as [x|] eqn:L; [left|by right].
  destruct (dget _ _) as [r|] eqn:G; [case_bool_decide as Q|]; [|by apply moves_finally..].
  apply moves_goto; [|done|done|].
  - eapply change_start; [done|]. unfold ledger_status. by rewrite G, <- Q.
  - simpl. set_solver.
Qed.

Lemma run_settle_moves o sid tid req out now : free o w = true -> task_ok t (RunSettle o sid tid req out) w ->
  moves t w (run_settle t o sid tid req out now w) \/ run_settle t o sid tid req out now w = w.
Proof using Ht.
  simpl. intros F Hs. unfold run_settle. destruct (objs w !! o) as [x|] eqn:L; [left|by right].
  destruct (dget _ _) as [r|] eqn:G; [case_bool_decide as Q|]; [|by apply moves_finally..].
  assert (St : ledger_status (ctx x) tid = Some INFLIGHT) by (unfold ledger_status; by rewrite G, <- Q).
  destruct out as [a|f].
  - apply moves_finally; [|done|done]. apply change_quiet. intros y Ly. rewrite Ly in L. injection L as ->.
    split; [apply rtc_once; by constructor|]. unfold commit_turn. rewrite G.
    eapply (quiet_settle _ _ _ (settle_record COMMITTED (Some a) (error r) now r) G); [by rewrite Q|done].
  - apply moves_goto; [|done|done|].
    + apply change_acquire; [|by apply free_owned]. apply change_quiet. intros y Ly. rewrite Ly in L.
      injection L as ->. apply steps_unknown. eauto.
    + simpl. eapply holds_acquire. simpl. by rewrite list_lookup_alter_eq, L.
Qed.

Lemma run_abort_moves o sid tid f : task_ok t (RunAbort o sid tid f) w -> moves t w (run_abort t o sid tid f w).
Proof using Ht.
  intros T. unfold run_abort. apply moves_goto; [|by case_match|done|by case_match].
  case_match; [by apply change_call|done].
Qed.

Lemma run_health_moves o sid tid f healthy now : task_ok t (RunHealth o sid tid f) w ->
  moves t w (run_health t o sid tid f healthy now w).
Proof using Ht.
  intros T%holds_owned. unfold run_health.
  assert (K : forall b w1, change t w w1 /\ pcs w1 = pcs w ->
    change t w (if b : bool then _mark_backend_error now w1 else w1)
    /\ pcs (if b then _mark_backend_error now w1 else w1) = pcs w).
  { intros [] w1 [C P]; [|done]. destruct (change_backend_error t now w1) as [C' ->].
    split; [by etrans|done]. }
  set (w1 := match _adapter (srv w) with Some _ => _ | None => _ end).
  assert (K1 : change t w w1 /\ pcs w1 = pcs w).
  { subst w1. case_match; [|done]. destruct healthy; [done|]. apply (change_backend_error t now w). }
  destruct (K (fl_process_error f) w1 K1) as [C P]. apply moves_finally; [|done|done]. by apply change_release.
Qed.

Lemma run_interrupted_moves o sid tid now : moves t w (run_interrupted t o sid tid now w).
Proof using Ht.
  unfold run_interrupted. apply moves_finally; [|done|done]. apply change_quiet. intros x _.
  apply steps_interrupted.
Qed.

Lemma run_cancelled_moves p : task_ok t p w -> moves t w (run_cancelled t p w).
Proof using Ht.
  intros T. destruct p; simpl; try (by apply moves_finally); try (by apply moves_goto).
  - apply moves_finally; [|done|done]. by apply change_release, holds_owned.
  - apply moves_finally; [|done|done]. by apply change_release, holds_owned.
Qed.
End Moves.

Section OtherMoves.
Context `{PyText}.
Variables (t : nat) (w : World).
Hypothesis Ht : (t < length (tasks w))%nat.

Lemma on_turn_moves sid tid k : (forall o, moves t w (k o w)) -> moves t w (on_turn t sid tid k w).
Proof using Ht.
  intros K. unfold on_turn, fail. destruct (first_error _); [by apply moves_goto|].
  destruct (found_session sid w); [by apply moves_goto|done].
Qed.

Lemma get_turn_moves sid tid wait : moves t w (get_turn t sid tid wait w).
Proof using Ht. apply on_turn_moves. intros o. unfold fail. land. Qed.

Lemma get_locked_moves o sid tid : moves t w (get_locked t o sid tid w) \/ get_locked t o sid tid w = w.
Proof using Ht. unfold get_locked, fail. destruct (objs w !! o); [left|by right]. land. Qed.

Lemma cancel_turn_moves sid tid : moves t w (cancel_turn t sid tid w).
Proof using Ht. apply on_turn_moves. intros o. by apply moves_goto. Qed.

(** Asking for a task's cancellation shows in none of the views. *)
Lemma change_cancel k : change t w (cancel k w).
Proof using. by apply change_view. Qed.

Lemma change_turn_event w1 sid tid : change t w w1 /\ pcs w1 = pcs w ->
  change t w (set_turn_event sid tid w1) /\ pcs (set_turn_event sid tid w1) = pcs w.
Proof using.
  intros [C P]. destruct (view_turn_event sid tid w1) as (Eo & Ec & Ep). split; [|congruence].
  etrans; [done|]. by apply change_view.
Qed.

Lemma cancel_locked_moves o sid tid now :
  moves t w (cancel_locked t o sid tid now w) \/ cancel_locked t o sid tid now w = w.
Proof using Ht.
  unfold cancel_locked, fail. destruct (objs w !! o) as [x|] eqn:L; [left|by right].
  destruct (dget _ _) as [r|] eqn:G; [|by apply moves_goto].
  destruct (status r) eqn:Q; try (by apply moves_goto).
  - match goal with |- moves _ _ (goto _ _ (set_turn_event _ _ ?w1)) =>
      destruct (change_turn_event w1 sid tid) as [C P] end.
    + split; [|done]. apply change_quiet. intros y Ly. rewrite Ly in L. injection L as ->.
      apply steps_settle; [|by left]. exists QUEUED. unfold ledger_status. by rewrite G; simpl; rewrite Q.
    + by apply moves_goto.
  - set (w1 := match dget (_active_turn_tasks w) sid with Some _ => _ | None => _ end).
    assert (K : change t w w1 /\ pcs w1 = pcs w).
    { subst w1. case_match; [|done]. split; [apply change_cancel|apply pcs_cancel]. }
    destruct K as [C P]. case_match; apply moves_goto; try done.
    etrans; [done|]. by apply change_call.
Qed.

Lemma execute_cmd_moves sid cmd timeout : moves t w (execute_cmd t sid cmd timeout w).
Proof using Ht. unfold execute_cmd, fail. land. Qed.

Lemma cmd_locked_moves o sid : free o w = true ->
  moves t w (cmd_locked t o sid w) \/ cmd_locked t o sid w = w.
Proof using Ht.
  intros F. unfold cmd_locked, fail. destruct (objs w !! o) as [x|] eqn:L; [left|by right].
  case_match; apply moves_goto; try done.
  - apply change_acquire; [done|by apply free_owned].
  - by eapply holds_acquire.
Qed.

Lemma cmd_ended_moves o res now : task_ok t (CmdRun o) w -> moves t w (cmd_ended t o res now w).
Proof using Ht.
  intros T%holds_owned. unfold cmd_ended, fail.
  destruct res; (apply moves_goto; [|done..]); apply change_release; try done.
  apply (change_state t w o s_state).
Qed.

Lemma abort_session_moves sid : moves t w (abort_session t sid w).
Proof using Ht. unfold abort_session, fail. land. Qed.

Lemma abort_entered_moves o sid b : (b = true -> free o w = true) ->
  moves t w (abort_entered t o sid b w) \/ abort_entered t o sid b w = w.
Proof using Ht.
  intros F. unfold abort_entered. destruct (objs w !! o) as [x|] eqn:L; [left|by right].
  set (w1 := match dget (_active_turn_tasks w) sid with Some _ => _ | None => _ end).
  assert (K : change t w w1 /\ pcs w1 = pcs w /\ objs w1 = objs w).
  { subst w1. case_match; [|done]. split_and!; [apply change_cancel|apply pcs_cancel|done]. }
  destruct K as (C & P & Eo). set (w2 := if b then acquire o t w1 else w1).
  assert (K : change t w w2 /\ pcs w2 = pcs w /\ (b = true -> holds t o w2)).
  { subst w2. destruct b; [|done]. split_and!; [|done|].
    - apply change_acquire; [done|]. apply free_owned. by apply F.
    - intros _. eapply holds_acquire. by rewrite Eo. }
  destruct K as (C2 & P2 & H2).
  destruct (s_state (ctx x)); try (by apply moves_goto); fold w2; case_match; apply moves_goto; try done.
  all: try (etrans; [exact C2|by apply change_call]).
  all: destruct b; [|done]; destruct (H2 eq_refl) as (y & Ly & Hy); exists y; done.
Qed.

Lemma abort_finish_moves o sid b now : task_ok t (AbortAdapter o sid b) w ->
  moves t w (abort_finish t o sid b now w) \/ abort_finish t o sid b now w = w.
Proof using Ht.
  intros T. unfold abort_finish. destruct (objs w !! o) as [x|] eqn:L; [left|by right].
  set (w1 := update o _ w).
  assert (K : change t w w1 /\ pcs w1 = pcs w).
  { split; [|done]. apply change_quiet. intros y _. apply steps_abort. }
  clearbody w1. generalize (List.filter (fun kv => is_active (status (snd kv))) (turn_ledger (ctx x))).
  intros l. revert w1 K. induction l as [|kv l IH]; intros w1 K; simpl.
  - destruct K as [C P]. apply moves_goto; try done; destruct b; try done.
    by apply change_release, holds_owned.
  - apply IH. by apply change_turn_event.
Qed.

Lemma shutdown_turns_moves : moves t w (shutdown_turns t w).
Proof using Ht.
  unfold shutdown_turns.
  assert (K : forall l w1, change t w w1 /\ pcs w1 = pcs w ->
    moves t w (goto t ShutdownTurns (foldl (fun w (kv : string * nat) => cancel (snd kv) w) w1 l))).
  { induction l as [|kv l IH]; intros w1 [C P]; simpl; [by apply moves_goto|]. apply IH.
    rewrite pcs_cancel. split; [|done]. etrans; [done|]. by apply change_view. }
  by apply K.
Qed.

Lemma reg_torn_down_moves reset r base_url api_path prompt cfg po id ok now :
  moves t w (reg_torn_down t reset r base_url api_path prompt cfg po id ok now w).
Proof using Ht. unfold reg_torn_down, reg_failed, fail. destruct reset, ok; simpl; apply moves_goto; try done; by apply change_view. Qed.

Lemma reg_locked_moves r base_url api_path prompt cfg po fp :
  moves t w (reg_locked t r base_url api_path prompt cfg po fp w).
Proof using Ht. unfold reg_locked, fail. land. Qed.
End OtherMoves.

(** *** Any section, any event *)

(** The sessions of [w'] are sessions of [w], moved by steps of their contract, or new. *)
Definition refines (w w' : World) : Prop :=
  forall o x, objs w !! o = Some x -> exists x', objs w' !! o = Some x'
    /\ rtc (turn_step o) (ctx x, calls w) (ctx x', calls w').

#[export] Instance refines_preorder : PreOrder refines.
Proof.
  split; [by intros w o x L; exists x|]. intros w1 w2 w3 R1 R2 o x L.
  destruct (R1 _ _ L) as (x2 & L2 & S2). destruct (R2 _ _ L2) as (x3 & L3 & S3).
  exists x3. split; [done|by etrans].
Qed.

Definition sound (w w' : World) : Prop := world_ok w -> world_ok w' /\ refines w w'.

Lemma moves_sound t w w' : (t < length (tasks w))%nat -> moves t w w' -> sound w w'.
Proof.
  intros Ht M OK. split; [by eapply moves_ok|]. intros o x L.
  destruct (ch_objs _ _ _ (proj1 M) _ _ L) as (x' & L' & R & _). eauto.
Qed.

Lemma sound_refl w : sound w w.
Proof. by split. Qed.

(** A new session has an empty ledger. *)
Lemma append_ok w s p t : turn_ledger s = [] -> turn_count s = 0%Z ->
  (length (conversation_history s) <= 1)%nat ->
  world_ok w -> task_ok t p w -> forall w', objs w' = objs w ++ [{| ctx := s; holder := None |}] ->
  calls w' = calls w -> pcs w' = <[t := p]> (pcs w) -> world_ok w' /\ refines w w'.
Proof.
  intros El Ec Eh [S N T] Tp w' Eo Ecl Ep.
  assert (M : forall t' p', task_ok t' p' w -> task_ok t' p' w').
  { assert (Hold : forall t' o, holds t' o w -> holds t' o w').
    { intros t' o (x & L & Hx). exists x. rewrite Eo. split; [|done]. by apply lookup_app_l_Some. }
    intros t' p'. destruct p'; simpl; rewrite ?Ecl; auto.
    - intros (x & L & Hx). exists x. rewrite Eo. split; [|done]. by apply lookup_app_l_Some.
    - destruct acquired; auto. }
  split; [split|].
  - intros o x L. rewrite Eo in L. rewrite Ecl. apply lookup_app_Some in L as [L|[Hi L]]; [by apply S|].
    apply list_lookup_singleton_Some in L as [_ <-]. simpl.
    assert (X : executions o (calls w) = []) by (apply N, lookup_ge_None; lia).
    split; unfold ledger_status; rewrite ?El, ?X; simpl; try done; try (by constructor); try set_solver.
    exists (conversation_history s). split; [done|]. by rewrite app_nil_r.
  - intros o L. rewrite Eo in L. rewrite Ecl. apply N. rewrite lookup_ge_None, length_app in L.
    apply lookup_ge_None. lia.
  - intros t' p' L. rewrite Ep in L. apply M. destruct (decide (t' = t)) as [->|Hne].
    + apply list_lookup_insert_Some in L as [(_ & <- & _)|[? _]]; done.
    + rewrite list_lookup_insert_ne in L by done. by apply T.
  - intros o x L. exists x. rewrite Eo, Ecl. split; [by apply lookup_app_l_Some|done].
Qed.

Section Events.
Context `{PyText}.
Variable abspath : string -> string.
Variable isfile readable : string -> bool.
Variable read_text : string -> option string.
Variable proxy_options_of : list (string * pyval) -> option ProxyOptions.

Lemma injected b now : let s := _inject_system_prompt read_text b now (new_session b now) in
  turn_ledger s = [] /\ turn_count s = 0%Z /\ (length (conversation_history s) <= 1)%nat.
Proof using.
  unfold _inject_system_prompt. destruct (p ← system_prompt b; _) as [[p text]|]; [destruct (blank text)|];
    simpl; split_and!; lia || done.
Qed.

Lemma reg_initialized_sound t b cfg a now w : (t < length (tasks w))%nat ->
  sound w (reg_initialized read_text t b cfg a now w).
Proof using.
  intros Ht. unfold reg_initialized, reg_failed, fail. destruct a as [|m|];
    [|eapply moves_sound; [done|]; apply moves_goto; try done; by apply change_view..].
  unfold _ensure_bound_session_initialized.
  destruct (get_or_create _ _ _ _ _) as [[[o [|]]|] store];
    [|eapply moves_sound; [done|]; apply moves_goto; try done; by apply change_view..].
  intros OK. destruct (injected b now) as (El & Ec & Eh).
  eapply (append_ok w _ (Done (Registered false)) t); try done. by rewrite pcs_goto.
Qed.

Lemma register_moves t r w : (t < length (tasks w))%nat ->
  moves t w (register abspath isfile readable proxy_options_of t r w).
Proof using. intros Ht. unfold register, fail. land. Qed.

Lemma resume_sound t p a now w : (t < length (tasks w))%nat -> pcs w !! t = Some p -> world_ok w ->
  sound w (resume_task read_text t p a now w).
Proof using.
  intros Ht L OK. pose proof (w_tasks _ OK _ _ L) as Tp.
  assert (Mv : forall w', moves t w w' -> sound w w') by (intros; by eapply moves_sound).
  assert (Me : forall w', moves t w w' \/ w' = w -> sound w w') by (intros ? [| ->]; [auto|apply sound_refl]).
  assert (Mf : forall (b : bool) w', (b = true -> moves t w w' \/ w' = w) -> sound w (if b then w' else w)).
  { intros [] w' K; [by apply Me, K|apply sound_refl]. }
  destruct p, a; simpl; try apply sound_refl; try (apply Mf; intros F); try (apply Mv, moves_goto; done).
  - destruct (_paused (srv w)); [apply sound_refl|]. by apply Mv, submit_enter_moves.
  - by apply submit_locked_moves.
  - by apply Mv, submit_health_moves.
  - left. by apply send_moves.
  - by apply send_locked_moves.
  - by apply Mv, run_start_moves.
  - by apply run_locked_moves.
  - left. by apply run_interrupted_moves.
  - by apply run_settle_moves.
  - by apply Mv, run_abort_moves.
  - by apply Mv, run_health_moves.
  - by apply cancel_locked_moves.
  - left. by apply moves_goto.
  - by apply get_locked_moves.
  - by apply cmd_locked_moves.
  - by apply Mv, cmd_ended_moves.
  - by apply abort_entered_moves.
  - by apply Me, abort_entered_moves.
  - by apply Me, abort_finish_moves.
  - left. by apply reg_locked_moves.
  - by apply Mv, reg_torn_down_moves.
  - by apply reg_initialized_sound.
  - apply Mv. unfold pause_answered, fail. land.
  - apply Mv. unfold resume_answered. apply moves_goto; try done. by apply change_view.
  - by apply Mv, shutdown_turns_moves.
Qed.

Lemma step_sound t a now w : sound w (step read_text t a now w).
Proof using.
  unfold step. destruct (tasks w !! t) as [k|] eqn:L; [|apply sound_refl].
  assert (Ht : (t < length (tasks w))%nat) by (by eapply lookup_lt_Some).
  assert (Lp : pcs w !! t = Some (at_ k)) by (unfold pcs; by rewrite list_lookup_fmap, L).
  intros OK. destruct (cancelling k).
  - apply (moves_sound t); [done| |done]. apply run_cancelled_moves; [done|]. by apply (w_tasks _ OK).
  - by apply resume_sound.
Qed.

Lemma begin_moves t o w : (t < length (tasks w))%nat ->
  moves t w (begin abspath isfile readable proxy_options_of t o w).
Proof using.
  intros Ht. destruct o; simpl; unfold submit_turn, fail.
  - land.
  - land.
  - by apply get_turn_moves.
  - by apply cancel_turn_moves.
  - by apply execute_cmd_moves.
  - by apply abort_session_moves.
  - by apply register_moves.
  - unfold pause_generation, fail. land.
  - unfold resume_generation, fail. land.
  - unfold graceful_shutdown. land.
Qed.

Lemma backend_error_sound now w : sound w (_mark_backend_error now w).
Proof using.
  intros OK. destruct (change_backend_error 0 now w) as [C P]. split.
  - destruct C as [C O N]. split.
    + intros o x' L'. destruct (objs w !! o) as [x|] eqn:L; [|by rewrite (proj1 (N _ L)) in L'].
      destruct (O _ _ L) as (x1 & L1 & R & _). rewrite L1 in L'. injection L' as <-.
      apply (turn_steps_ok o _ _ R), OK, L.
    + intros o L'. destruct (objs w !! o) as [x|] eqn:L.
      * destruct (O _ _ L) as (x1 & L1 & _). congruence.
      * rewrite (proj2 (N _ L)). by apply OK.
    + intros t p L. rewrite P in L. eapply (task_ok_change (S t) t); [lia|apply change_backend_error|].
      by apply OK.
  - intros o x L. destruct (ch_objs _ _ _ C _ _ L) as (x' & L' & R & _). eauto.
Qed.

(** Every event keeps the invariant and moves the sessions by steps of their contract. *)
Lemma event_sound e w : sound w (apply_event abspath isfile readable read_text proxy_options_of e w).
Proof using.
  destruct e as [o|t a now|now]; simpl; [|apply step_sound|].
  - intros OK. set (w0 := spawn (Done Nothing) w).
    assert (OK0 : world_ok w0).
    { destruct OK as [S N T]. split; [done|done|]. intros t p L. unfold pcs in L. simpl in L.
      rewrite fmap_app in L. apply lookup_app_Some in L as [L|[_ L]]; [by apply T|].
      by apply list_lookup_singleton_Some in L as [_ <-]. }
    assert (R0 : refines w w0) by (intros o' x L; by exists x).
    assert (Ht : (length (tasks w) < length (tasks w0))%nat) by (simpl; rewrite length_app; simpl; lia).
    destruct (moves_sound _ _ _ Ht (begin_moves _ o w0 Ht) OK0) as [OK1 R1]. split; [done|by etrans].
  - destruct (_monitoring (srv w)); [apply backend_error_sound|apply sound_refl].
Qed.

Lemma events_sound es w : sound w (run_events abspath isfile readable read_text proxy_options_of es w).
Proof using.
  unfold run_events. revert w. induction es as [|e es IH]; intros w; [apply sound_refl|]. intros OK.
  destruct (event_sound e w OK) as [OK1 R1]. destruct (IH _ OK1) as [OK2 R2]. split; [done|by etrans].
Qed.

Lemma server_initial_ok cfg : world_ok (initial cfg).
Proof using. by split. Qed.
End Events.

(** ** What every run of the server keeps *)

Section Runs.
Context `{PyText}.
Variable abspath : string -> string.
Variable isfile readable : string -> bool.
Variable read_text : string -> option string.
Variable proxy_options_of : list (string * pyval) -> option ProxyOptions.
Variable cfg : BlackboxServerConfig.

Definition run (es : list event) : World :=
  run_events abspath isfile readable read_text proxy_options_of es (initial cfg).

Lemma run_app es es' : run (es ++ es') = run_events abspath isfile readable read_text proxy_options_of es' (run es).
Proof using. apply foldl_app. Qed.

Lemma server_run_ok es : world_ok (run es).
Proof using. by apply events_sound, server_initial_ok. Qed.

(** C5: In every interleaving of requests, background turns, cancellations, aborts, health
    failures and registrations, the backend is called at most once for a turn of a session.
    It was called for every turn that is in flight or committed, and for no turn that is
    still queued (a turn that is cancelled or failed may have been settled before it ran).
    No two turns are active together, the turn count is the number of committed turns, and
    the history is the prompt followed by what each committed turn was sent and answered,
    in order. *)
Theorem session_contract es o x : objs (run es) !! o = Some x ->
  let s := ctx x in let c := calls (run es) in
  NoDup (executions o c)
  /\ (forall tid, tid ∈ executions o c -> exists st, ledger_status s tid = Some st /\ st <> QUEUED)
  /\ (forall tid st, ledger_status s tid = Some st -> st = INFLIGHT \/ st = COMMITTED -> tid ∈ executions o c)
  /\ (forall i j kv kv', turn_ledger s !! i = Some kv -> turn_ledger s !! j = Some kv' ->
        is_active (status (snd kv)) = true -> is_active (status (snd kv')) = true -> i = j)
  /\ turn_count s = Z.of_nat (count_by (fun kv => committed (snd kv)) (turn_ledger s))
  /\ exists prompt, (length prompt <= 1)%nat /\
       conversation_history s = prompt ++ concat (map (contribution o c) (turn_ledger s)).
Proof using.
  intros L s c. pose proof (w_sessions _ (server_run_ok es) _ _ L) as OK. fold s c in OK.
  split; [apply OK|]. split; [apply OK|]. split; [apply OK|]. split; [|split; apply OK].
  intros i j kv kv' Li Lj Ai Aj. pose proof (ok_last _ _ _ OK _ _ Li Ai).
  pose proof (ok_last _ _ _ OK _ _ Lj Aj). lia.
Qed.

(** The sessions of a longer run are later states of those of a shorter one. *)
Lemma steps_later o p p' : rtc (turn_step o) p p' -> session_ok o (fst p) (snd p) -> later (fst p) (fst p').
Proof using.
  induction 1 as [|p1 p2 p3 S _ IH]; intros OK; [done|].
  etrans; [by eapply turn_step_later|]. apply IH. by eapply turn_step_ok.
Qed.

(** C15: What was answered to a turn stays the answer: whatever happens afterwards, a settled
    turn keeps its record, a turn that left the queue does not come back to it, no turn
    disappears from its session or changes its fingerprint, and the history only grows. *)
Theorem settled_turn_final es es' o x : objs (run es) !! o = Some x ->
  exists x', objs (run (es ++ es')) !! o = Some x'
    /\ (conversation_history (ctx x) `prefix_of` conversation_history (ctx x'))
    /\ forall tid r, dget (turn_ledger (ctx x)) tid = Some r -> exists r',
         dget (turn_ledger (ctx x')) tid = Some r' /\ request_fingerprint r' = request_fingerprint r
         /\ (is_active (status r) = false -> r' = r) /\ (status r <> QUEUED -> status r' <> QUEUED).
Proof using.
  intros L. rewrite run_app.
  destruct (events_sound abspath isfile readable read_text proxy_options_of es' _ (server_run_ok es)) as [_ R].
  destruct (R _ _ L) as (x' & L' & St). exists x'. split; [done|].
  destruct (steps_later o _ _ St) as [T Hh]; [by apply (w_sessions _ (server_run_ok es))|]. done.
Qed.

End Runs.

(** C17: A submission is admitted exactly when the session is active and below its limit, its
    turn id may be used in the session's mode and is new, and no turn is active.  An id that is
    known is replayed for an equal list of messages, and refused otherwise as soon as the two
    fingerprints differ.  Nothing but the mode of turn ids is changed by the checks. *)
Theorem submission_admitted `{PyText} cap fresh sid req s :
  let '(a, s') := admit_turn cap fresh sid req s in
  let fp := message_request_fingerprint (messages req) in
  turn_ledger s' = turn_ledger s
  /\ (forall tid fp', a = TurnAdmitted tid fp' <->
        fp' = fp /\ s_state s = ACTIVE /\ (turn_count s < cap)%Z
        /\ fst (_resolve_turn_id fresh (mr_turn_id req) s) = inr tid
        /\ dget (turn_ledger s) tid = None /\ _active_turn_id s = None)
  /\ (forall r, a = Replayed r -> request_fingerprint r = fp
        /\ exists tid, dget (turn_ledger s) tid = Some r
             /\ fst (_resolve_turn_id fresh (mr_turn_id req) s) = inr tid)
  /\ (forall tid r ms, s_state s = ACTIVE -> (turn_count s < cap)%Z ->
        fst (_resolve_turn_id fresh (mr_turn_id req) s) = inr tid -> dget (turn_ledger s) tid = Some r ->
        request_fingerprint r = message_request_fingerprint ms -> ms = messages req -> a = Replayed r).
Proof.
  unfold admit_turn. destruct (steps_resolve 0 s [] fresh (mr_turn_id req)) as [_ E].
  assert (Ea : _active_turn_id (snd (_resolve_turn_id fresh (mr_turn_id req) s)) = _active_turn_id s)
    by (unfold _active_turn_id; by rewrite E).
  destruct (s_state s); try (split_and!; naive_solver).
  destruct (Z.leb_spec cap (turn_count s)); [split_and!; try naive_solver lia|].
  destruct (_resolve_turn_id _ _ _) as [[e|tid] s1]; simpl in *; [split_and!; naive_solver|].
  rewrite E, Ea. destruct (dget (turn_ledger s) tid) as [r|] eqn:G.
  - destruct (String.eqb_spec (request_fingerprint r) (message_request_fingerprint (messages req)));
      split_and!; naive_solver.
  - destruct (_active_turn_id s) eqn:A; split_and!; naive_solver.
Qed.

(** ** A concrete server *)

#[local] Instance w_server_text : PyText := {| py_repr := fun _ => ""; py_parse_float := fun _ => None |}.

Definition w_cfg : BlackboxServerConfig := {|
  host := "0.0.0.0"; port := 23456; runtime_root := "/tmp/bbs"; max_sessions := 1; max_turns := 2;
  backend_timeout := f_of_Z 960; execute_cmd_timeout := f_of_Z 600; router_timeout := 600000;
  shutdown_timeout := f_of_Z 30; health_check_interval := f_of_Z 2; health_check_timeout := f_of_Z 60;
  runtime_health_check_interval := f_of_Z 10; runtime_health_check_retries := 3;
  runtime_health_check_retry_delay := f_of_Z 1 |}.

Definition w_user (text : string) : Message := {|
  role := "user"; content := Some text; reasoning_content := None; tool_calls := None;
  tool_call_id := None; name := None |}.

Definition w_reply (text : string) : AdapterResponse := {|
  outputs := [{| role := "assistant"; content := Some text; reasoning_content := None;
                 tool_calls := None; tool_call_id := None; name := None |}];
  ar_trace_events := []; ar_backend_session_id := "b1";
  usage := {| total_tokens := 0; input_tokens := 0; output_tokens := 0; reasoning_tokens := 0;
              steps := 1; usage_tool_calls := 0 |} |}.

Definition w_register : RegisterRequest := {|
  rr_blackbox_type := "codex"; router := "http://proxy:8100"; router_api_path := "/v1";
  rr_bound_session_id := Some "s1"; rr_bound_instance_id := Some "i1"; rr_bound_sandbox_id := None;
  system_prompt_file := None; backend_options := []; server_config := None |}.

Definition w_proxy (_ : list (string * pyval)) : option ProxyOptions :=
  Some {| sticky_header_name := "X-SMG-Routing-Key"; max_steps := Some 100%Z; default_temperature := None;
          sampling_mode := None; sampling_seed_base := None |}.

Definition w_submit (tid text : string) : op :=
  OpSubmit "s1" {| mr_turn_id := Some tid; messages := [w_user text]; mr_metadata := [] |}.

Abbreviation w_run := (run (fun p => p) (fun _ => true) (fun _ => true) (fun _ => None) w_proxy w_cfg).

(** Registration by task 0, a submission by task 1, its turn as task 2. *)
Definition w_registered : list event :=
  [Call (OpRegister w_register); Step 0 Go 1; Step 0 (Made "r1" true) 2; Step 0 (Init InitOk) 3].

Definition w_queued : list event :=
  w_registered ++ [Call (w_submit "t1" "hello"); Step 1 Go 4; Step 1 (Fresh "") 4; Step 1 (Health true) 5].

Definition w_committed : list event :=
  w_queued ++ [Step 2 Go 6; Step 2 Go 6; Step 2 (Backend (Answered (w_reply "done"))) 7; Step 2 Go 8].

Definition w_object (es : list event) : Obj :=
  default {| ctx := new_session (binding_of w_register "" "" None w_cfg
                      {| sticky_header_name := ""; max_steps := None; default_temperature := None;
                         sampling_mode := None; sampling_seed_base := None |} "" 0) 0;
             holder := None |} (objs (w_run es) !! 0%nat).

Lemma w_object_eq : objs (w_run w_committed) !! 0%nat = Some (w_object w_committed).
Proof. vm_compute. reflexivity. Qed.

Example session_contract_witness :
  objs (w_run w_committed) !! 0%nat = Some (w_object w_committed)
  /\ ledger_status (ctx (w_object w_committed)) "t1" = Some COMMITTED
  /\ NoDup (executions 0 (calls (w_run w_committed))).
Proof.
  split; [exact w_object_eq|]. split; [by vm_compute|].
  exact (proj1 (session_contract _ _ _ _ _ _ _ _ _ w_object_eq)).
Defined.

(** After the turn committed, a command runs and the session is aborted. *)
Example settled_turn_final_witness :
  objs (w_run w_committed) !! 0%nat = Some (w_object w_committed)
  /\ exists x', objs (w_run (w_committed ++ [Call (OpAbort "s1"); Step 3 Go 9; Step 3 Go 9; Step 3 Go 9]))
                !! 0%nat = Some x'
     /\ (conversation_history (ctx (w_object w_committed)) `prefix_of` conversation_history (ctx x')).
Proof.
  split; [exact w_object_eq|].
  destruct (settled_turn_final (fun p => p) (fun _ => true) (fun _ => true) (fun _ => None) w_proxy w_cfg
              w_committed [Call (OpAbort "s1"); Step 3 Go 9; Step 3 Go 9; Step 3 Go 9] 0 _ w_object_eq)
    as (x' & L' & P & _).
  exists x'. exact (conj L' P).
Defined.

Example submission_admitted_witness :
  let s := new_session (binding_of w_register "" "" None w_cfg
             {| sticky_header_name := ""; max_steps := None; default_temperature := None;
                sampling_mode := None; sampling_seed_base := None |} "" 0) 0 in
  let req := {| mr_turn_id := Some "t1"; messages := [w_user "hello"]; mr_metadata := [] |} in
  turn_ledger (snd (admit_turn 2 "x" "s1" req s)) = turn_ledger s.
Proof.
  intros s req. pose proof (submission_admitted 2 "x" "s1" req s) as P.
  destruct (admit_turn 2 "x" "s1" req s) as [a s']. exact (proj1 P).
Defined.

(** ** What the server does not promise *)

(** An abort that cannot have the session's lock within its timeout goes on without it.  A
    submission that waits for the backend's health with the lock held then queues its turn in
    the aborted session, and the turn is executed. *)
Lemma aborted_session_runs_turn :
  let w := w_run (w_registered ++
    [Call (w_submit "t1" "hello"); Step 1 Go 4; Step 1 (Fresh "") 4;
     Call (OpAbort "s1"); Step 2 Go 5; Step 2 TimedOut 10; Step 2 Go 10;
     Step 1 (Health true) 11; Step 3 Go 12; Step 3 Go 12]) in
  (fun x => (s_state (ctx x), ledger_status (ctx x) "t1")) <$> objs w !! 0%nat
    = Some (ABORTED, Some INFLIGHT)
  /\ executions 0 (calls w) = ["t1"]
  /\ at_ <$> tasks w !! 2%nat = Some (Done (AbortOf ABORTED "best_effort")).
Proof. vm_compute. done. Qed.

(** A registration that is under way when the server shuts down makes the server ready again. *)
Lemma shutdown_then_ready :
  let w := w_run [Call (OpRegister w_register); Step 0 Go 1; Step 0 (Made "r1" true) 2;
                  Call OpShutdown; Step 1 Go 2; Step 1 Go 2; Step 0 (Init InitOk) 3] in
  _shutdown_started (srv w) = true /\ _state (srv w) = READY
  /\ at_ <$> tasks w !! 1%nat = Some (Done Nothing).
Proof. vm_compute. done. Qed.
