(* ===== verification/TurnErrors.v ===== *)
(** * Errors of an agent's turn, from the server to the rollout
    ([blackbox_server/app.py], [blackbox_server/core/server.py],
    [dressage/paddock/blackbox/client.py], [failures.py])

    A failed turn reaches the rollout in one of two ways.  The synchronous call gets the
    error answer that [api_error_handler] makes of the turn's record; the asynchronous call
    polls the record itself and builds an HTTP error of it.  The rollout classifies both
    with the same two functions, and has to come to the same result. *)

From S2P Require Import Prelude.
From S2P Require Import PyFloat.
From S2P Require Import PyVal.
From S2P Require Import Samples.
From S2P Require Import ExecuteCmds.
From S2P Require BlackboxClient ServerModels BlackboxServer.

Local Open Scope string_scope.
Local Open Scope list_scope.
Local Open Scope py_scope.

Abbreviation record_error := ServerModels.error.

(** [api_error_handler]: the status and the body of the answer to an [ApiError]; another
    exception is not handled here. *)
Definition api_error_handler (request_id : string) (e : ServerModels.ApiError) : option (Z * dict) :=
  match e with
  | ServerModels.Api status_code error message details =>
      Some (status_code, [("request_id", PStr request_id); ("error", PStr error);
                          ("message", PStr message); ("details", PDict details)])
  | ServerModels.Internal _ => None
  end.

(** The error of a record, as the server writes it: what is missing in it is not empty. *)
Record written (e : dict) (code message : string) (http_status : Z) (details : dict) : Prop := {
  wr_error : dget e "error" = Some (PStr code);
  wr_message : dget e "message" = Some (PStr message);
  wr_status : dget e "http_status" = Some (PInt http_status);
  wr_details : dget e "details" = Some (PDict details);
  wr_code_set : code <> "";
  wr_message_set : message <> "";
  wr_status_set : http_status <> 0%Z }.

(** The errors the server records have this form: those of an interrupted turn, and those
    of a failed call of the adapter whose message is not empty. *)
Lemma error_payload_written code message status details : code <> "" -> message <> "" -> status <> 0%Z ->
  written (BlackboxServer.error_payload code message status details) code message status details.
Proof. by intros. Qed.

Lemma recorded_failure_written tid a f now s r : BlackboxServer.outcome a = inr f ->
  dget (ServerModels.turn_ledger s) tid = Some r -> BlackboxServer.fl_message f <> "" ->
  exists r' e details, dget (ServerModels.turn_ledger (BlackboxServer.record_unknown tid f now s)) tid = Some r' /\
    record_error r' = Some e /\
    written e (BlackboxServer.fl_error f) (BlackboxServer.fl_message f) (BlackboxServer.fl_http_status f) details.
Proof.
  intros O D M. unfold BlackboxServer.record_unknown, BlackboxServer.settle. rewrite D.
  eexists _, _, _. split; [|split].
  - unfold BlackboxServer.desync_open. case_bool_decide; simpl; apply dget_dset_eq.
  - reflexivity.
  - unfold BlackboxServer.outcome in O. destruct a; simplify_eq; by constructor.
Qed.

Section Facts.
Context `{PyText}.
Variable json_text : pyval -> string.

Lemma map_id_json (d : dict) : map (fun kv => (fst kv, _json_safe (snd kv))) d = d.
Proof using. induction d as [|[k v] d IH]; [done|]. simpl. by rewrite json_safe_id, IH. Qed.

(** The classification reads the status and three fields of the body. *)
Definition same_error (h h' : http_error) : Prop :=
  he_status h = he_status h' /\
  forall k, k ∈ ["error"; "message"; "details"] -> pget (_http_error_json h) k = pget (_http_error_json h') k.

Lemma same_error_classified h h' : same_error h h' ->
  failure_from_call_agent_exception (HTTPStatusError h) = failure_from_call_agent_exception (HTTPStatusError h') /\
  expected_abort_from_call_agent_exception (HTTPStatusError h) =
    expected_abort_from_call_agent_exception (HTTPStatusError h').
Proof using.
  intros [S K]. unfold failure_from_call_agent_exception, expected_abort_from_call_agent_exception.
  by rewrite S, !K by set_solver.
Qed.

(** The error the asynchronous call raises of a record. *)
Lemma raise_turn_error_spec data url e code message status details :
  dget data "error" = Some (PDict e) -> written e code message status details ->
  exists h, BlackboxClient._raise_turn_error json_text data url = HTTPStatusError h /\ he_status h = status /\
    he_json h = Some (PDict [("error", PStr code); ("message", PStr message); ("details", PDict details)]).
Proof using.
  intros E [W1 W2 W3 W4 _ _ W7]. unfold BlackboxClient._raise_turn_error.
  assert (PE : pget data "error" = PDict e) by (unfold pget, dget_def; by rewrite E).
  assert (PH : pget e "http_status" = PInt status) by (unfold pget, dget_def; by rewrite W3).
  assert (PD : pget e "details" = PDict details) by (unfold pget, dget_def; by rewrite W4).
  rewrite PE, PH, PD. unfold dget_def. rewrite W1, W2.
  assert (PI : py_int (py_or (PInt status) (PInt 502)) = Ok status).
  { unfold py_or. simpl. by rewrite (proj2 (Z.eqb_neq status 0) W7). }
  rewrite PI. eexists. done.
Qed.

(** The answer the synchronous call gets for the same record. *)
Lemma raise_from_turn_error_spec sid r e request_id code message status details :
  record_error r = Some e -> written e code message status details ->
  api_error_handler request_id (BlackboxServer._raise_from_turn_error sid r) =
    Some (status, [("request_id", PStr request_id); ("error", PStr code); ("message", PStr message);
                   ("details", PDict details)]).
Proof using.
  intros E [W1 W2 W3 W4 W5 W6 W7]. unfold BlackboxServer._raise_from_turn_error. rewrite E.
  change (default [] (Some e)) with e. unfold pget, dget_def. rewrite W1, W2, W3, W4, (proj2 (Z.eqb_neq status 0) W7).
  by destruct code, message.
Qed.

(** C39: a failed turn is classified the same whether the rollout waited for it in one
    synchronous request or polled it.  For a turn whose record has the error [e], let
    [sync] be the HTTP error of the server's answer to the synchronous call.  The error
    raised by the asynchronous call that polls the record has the status, error code,
    message and details of [sync], and both functions of the rollout give the same result
    on it: the semantic failure with its code, status, message and details for the three
    codes rollouts understand and none for another code, and the expected abort exactly
    for a 502 backend error whose message has the preemption marker. *)
Theorem turn_error_classified sid r e code message status details request_id sync data url :
  record_error r = Some e -> written e code message status details ->
  api_error_handler request_id (BlackboxServer._raise_from_turn_error sid r) =
    Some (he_status sync, _http_error_json sync) ->
  dget data "error" = Some (PDict e) ->
  exists async, BlackboxClient._raise_turn_error json_text data url = HTTPStatusError async /\
    he_status async = status /\ same_error async sync /\
    failure_from_call_agent_exception (HTTPStatusError async) =
      failure_from_call_agent_exception (HTTPStatusError sync) /\
    expected_abort_from_call_agent_exception (HTTPStatusError async) =
      expected_abort_from_call_agent_exception (HTTPStatusError sync) /\
    failure_from_call_agent_exception (HTTPStatusError async) =
      Ok (if bool_decide (code ∈ ["backend_timeout"; "context_overflow"; "max_steps_exceeded"])
          then Some {| af_message := "blackbox agent " +:+ dget_def code SEMANTIC_HTTP_ERROR_LABELS code
                         +:+ " (HTTP " +:+ str_of_Z status +:+ "): " +:+ message;
                       kind := code; state := py_str <$> dget details "state"; agent_response := "";
                       details := details; http_status_code := Some status |}
          else None) /\
    (expected_abort_from_call_agent_exception (HTTPStatusError async) = Some "generation_preempted" <->
     status = 502%Z /\ code = "backend_error" /\ contains GENERATION_PREEMPTED_MARKER message = true).
Proof using.
  intros R W S D. rewrite (raise_from_turn_error_spec sid r e request_id _ _ _ _ R W) in S. injection S as S1 S2.
  destruct (raise_turn_error_spec data url e _ _ _ _ D W) as (async & E & St & J). exists async.
  assert (Sm : same_error async sync).
  { split; [congruence|]. intros k Hk. unfold _http_error_json at 1. rewrite J, <- S2.
    set_unfold in Hk. by destruct Hk as [-> | [-> | [-> | []]]]. }
  destruct (same_error_classified _ _ Sm) as [F A]. split_and!; try done.
  - unfold failure_from_call_agent_exception, _http_error_json. rewrite J.
    change (pget _ "error") with (PStr code). cbn [semantic_error]. unfold SEMANTIC_HTTP_ERRORS. simpl dkeys.
    case_bool_decide; [|done]. cbn [res_bind]. change (pget _ "details") with (PDict details).
    change (pget _ "message") with (PStr message). rewrite map_id_json, St. unfold py_or. simpl py_truth.
    by rewrite (proj2 (String.eqb_neq message "") (wr_message_set _ _ _ _ _ W)).
  - unfold expected_abort_from_call_agent_exception, _http_error_json. rewrite J, St.
    change (pget _ "error") with (PStr code). change (pget _ "message") with (PStr message).
    simpl is_pnone. simpl py_str. cbn [negb]. rewrite andb_true_r. split.
    + destruct (_ && _) eqn:B; [|done]. intros _. apply andb_prop in B as [B B3].
      apply andb_prop in B as [B1 B2]. apply Z.eqb_eq in B1. by apply String.eqb_eq in B2.
    + intros (-> & -> & C). by rewrite C.
Qed.
End Facts.

(** ** Witness *)

#[local] Instance w_turn_error_text : PyText := {| py_repr := fun _ => ""; py_parse_float := fun _ => None |}.

Definition w_error : dict :=
  BlackboxServer.error_payload "context_overflow" "too long" 413 [("state", PStr "idle")].

Definition w_record : ServerModels.TurnRecord :=
  {| ServerModels.turn_id := "t"; ServerModels.request_fingerprint := ""; ServerModels.status := ServerModels.UNKNOWN;
     ServerModels.request_messages := []; ServerModels.response := None; ServerModels.error := Some w_error;
     ServerModels.created_at := 0; ServerModels.updated_at := 0 |}.

Definition w_sync : http_error :=
  {| he_message := "Client error"; he_method := "POST"; he_url := "u"; he_request_headers := [];
     he_request_body := None; he_status := 413; he_reason := ""; he_headers := []; he_text := "";
     he_json := Some (PDict [("request_id", PStr "req-1"); ("error", PStr "context_overflow");
                             ("message", PStr "too long"); ("details", PDict [("state", PStr "idle")])]) |}.

Lemma turn_error_classified_witness :
  exists async f, BlackboxClient._raise_turn_error (fun _ => "")
      [("status", PStr "unknown"); ("error", PDict w_error)] "u" = HTTPStatusError async /\
    failure_from_call_agent_exception (HTTPStatusError async) = Ok (Some f) /\
    failure_from_call_agent_exception (HTTPStatusError w_sync) = Ok (Some f) /\
    af_message f = "blackbox agent context overflow (HTTP 413): too long".
Proof.
  destruct (turn_error_classified (fun _ => "") "s" w_record w_error "context_overflow" "too long" 413
    [("state", PStr "idle")] "req-1" w_sync [("status", PStr "unknown"); ("error", PDict w_error)] "u")
    as (async & E & _ & _ & F & _ & G & _).
  - reflexivity.
  - apply error_payload_written; discriminate.
  - reflexivity.
  - reflexivity.
  - rewrite G in F. exists async. eexists. split; [exact E|]. split; [exact G|]. split; [symmetry; exact F|reflexivity].
Defined.
