(* ===== verification/BackendWait.v ===== *)
(** * Waiting for a backend ([blackbox_server/core/server.py])

    [_wait_for_backend_call_excluding_pause] bounds a backend call by a timeout that is meant
    not to count the time the rollout is paused, and [_adapter_health_with_retry] asks for a
    backend's health a few times.  Times are microseconds of the event loop's clock; when the
    call ends, when the server is paused and when it is resumed are the environment's. *)

From S2P Require Import Prelude.
From S2P Require Import PyFloat.

Local Open Scope Z_scope.
Local Open Scope list_scope.

Inductive wait_result : Type :=
| Finished (at_ : Z)      (* the call's result is returned *)
| TimedOut (at_ : Z)      (* [asyncio.TimeoutError] *)
| Blocked.                (* paused for good, and the call does not end *)

Section Wait.
Variable done_at : option Z.            (* when the call ends *)
Variable paused : Z -> bool.            (* [self._paused] *)
Variable resume_after : Z -> option Z.  (* when the resume event of a pause is set *)

(** Whether the call has ended by a time. *)
Definition ended (t : Z) : bool := match done_at with Some d => d <=? t | None => false end.

(** The loop, with [fuel] rounds: [None] when they are used up. *)
Fixpoint wait_loop (fuel : nat) (now deadline : Z) : option wait_result :=
  match fuel with
  | O => None
  | S fuel =>
      if ended now then Some (Finished now)
      else if paused now
      then match resume_after now, done_at with
           | Some r, _ =>
               if ended r then Some (Finished (default r done_at))
               else wait_loop fuel r (deadline + (r - now))
           | None, Some d => Some (Finished d)
           | None, None => Some Blocked
           end
      else if deadline - now <=? 0 then Some (TimedOut now)
      else if ended deadline then Some (Finished (default deadline done_at)) else Some (TimedOut deadline)
  end.

Definition _wait_for_backend_call_excluding_pause (fuel : nat) (now timeout : Z) : option wait_result :=
  wait_loop fuel now (now + timeout).

Lemma wait_loop_S fuel now deadline : wait_loop (S fuel) now deadline =
  if ended now then Some (Finished now)
  else if paused now
  then match resume_after now, done_at with
       | Some r, _ =>
           if ended r then Some (Finished (default r done_at))
           else wait_loop fuel r (deadline + (r - now))
       | None, Some d => Some (Finished d)
       | None, None => Some Blocked
       end
  else if deadline - now <=? 0 then Some (TimedOut now)
  else if ended deadline then Some (Finished (default deadline done_at)) else Some (TimedOut deadline).
Proof using. done. Qed.

(** The loop ends as soon as it sees the server running: a round more than the pauses that
    follow one another is enough. *)
Lemma wait_loop_ends now deadline (pauses : list Z) :
  (forall i t, (now :: pauses) !! i = Some t -> paused t = true ->
     resume_after t = None \/ exists r, resume_after t = Some r /\ (now :: pauses) !! S i = Some r) ->
  is_Some (wait_loop (S (length pauses)) now deadline).
Proof using.
  revert now deadline. induction pauses as [|r l IH]; intros now deadline K; rewrite wait_loop_S;
    (destruct (ended now); [by eauto|]);
    (destruct (paused now) eqn:P; [|repeat case_match; by eauto]).
  - destruct (K 0%nat now eq_refl P) as [->|(r & -> & L)]; [by case_match; eauto|done].
  - destruct (K 0%nat now eq_refl P) as [->|(r' & -> & [= <-])]; [by case_match; eauto|].
    destruct (ended r); [by eauto|]. apply IH. intros i t L Pt. exact (K (S i) t L Pt).
Qed.

(** The result of a call that starts while the server runs does not depend on any pause:
    a pause that begins during the call is counted against the timeout. *)
Lemma pause_during_call_counted fuel now timeout : paused now = false -> ended now = false -> 0 < timeout ->
  _wait_for_backend_call_excluding_pause (S fuel) now timeout
  = Some (if ended (now + timeout) then Finished (default (now + timeout) done_at)
          else TimedOut (now + timeout)).
Proof using.
  intros P E T. unfold _wait_for_backend_call_excluding_pause. cbn [wait_loop]. rewrite E, P.
  rewrite (proj2 (Z.leb_gt _ _)) by lia. by case_match.
Qed.

(** The pause a call starts in is excluded: it is given the timeout after the
    last resumption, whatever they last, and its own end before that is returned. *)
Lemma leading_pause_excluded fuel now timeout r : ended now = false -> paused now = true ->
  resume_after now = Some r -> paused r = false -> 0 < timeout -> now <= r ->
  _wait_for_backend_call_excluding_pause (S (S fuel)) now timeout
  = Some (match done_at with
          | Some d => if d <=? r + timeout then Finished d else TimedOut (r + timeout)
          | None => TimedOut (r + timeout)
          end).
Proof using.
  intros E P R P' T Le. unfold _wait_for_backend_call_excluding_pause. cbn [wait_loop]. rewrite E, P, R.
  replace (now + timeout + (r - now)) with (r + timeout) by lia. unfold ended in *. rewrite P'.
  replace (r + timeout - r) with timeout by lia. rewrite (proj2 (Z.leb_gt timeout 0)) by lia.
  destruct done_at as [d|]; [|done]. simpl.
  destruct (Z.leb_spec d r); [by rewrite (proj2 (Z.leb_le _ _)) by lia|]. by case_match.
Qed.
End Wait.

(** A call of 10 units that is paused from 1 to 100 and ends at 20 units of running time would
    be within its timeout of 15; it is timed out at 15. *)
Example paused_call_times_out :
  _wait_for_backend_call_excluding_pause (Some 105) (fun t => (1 <=? t) && (t <? 100)) (fun _ => Some 100) 5 0 15
  = Some (TimedOut 15).
Proof. reflexivity. Qed.

Section Health.
Variable health : nat -> bool + unit.    (* [adapter.health()] of each attempt, or an exception *)

(** [_adapter_health_with_retry] with [n] attempts left: the answer and the number of attempts. *)
Fixpoint health_attempts (n k : nat) : bool * nat :=
  match n with
  | O => (false, k)
  | S n => match health k with
           | inl true => (true, S k)
           | _ => health_attempts n (S k)
           end
  end.

Definition _adapter_health_with_retry (adapter : bool) (retries : Z) : bool :=
  adapter && fst (health_attempts (Z.to_nat (Z.max 1 retries)) 0).

Lemma health_attempts_iff n k :
  fst (health_attempts n k) = true <-> exists i, (k <= i < k + n)%nat /\ health i = inl true.
Proof using.
  revert k. induction n as [|n IH]; intros k; simpl; [split; [done|]; intros (i & ? & _); lia|].
  destruct (health k) as [[|]|u] eqn:E; simpl.
  - split; [intros _; exists k; split; [lia|done]|done].
  - rewrite IH. split; intros (i & ? & Hi); exists i; (split; [|done]); [lia|].
    destruct (decide (i = k)); [subst; congruence|lia].
  - rewrite IH. split; intros (i & ? & Hi); exists i; (split; [|done]); [lia|].
    destruct (decide (i = k)); [subst; congruence|lia].
Qed.
End Health.
