(* ===== verification/Slots.v ===== *)
(** * Sandbox slots of a node ([dressage/sandbox/local/bwrap/slot.py], [supervisor.py])

    A supervisor keeps a fixed number of slots, leases a slot to a trajectory, and after the
    lease stops the slot's server, clears its directories and starts it again.  Leasing and
    releasing are atomic; starting, resetting, checking and shutting a slot down are tasks
    ([Task_]) that wait for the slot's lock, for a process or for its health, and [step] runs
    one of them from an await to the next.  What is in a slot's directories is [contents]:
    the lease that may have written there since they were cleared. *)

From Stdlib Require Import Ascii.
From S2P Require Import Prelude.
From S2P Require Import PyFloat.
From S2P Require Import PyVal.
From S2P Require Import Json.
From S2P Require Import Paddock.

Local Open Scope string_scope.
Local Open Scope list_scope.
Local Open Scope py_scope.

(** ** Names *)

Inductive SlotStatus : Type :=
| EMPTY | STARTING | READY | LEASED | RELEASING | RESETTING | RESTARTING | FAILED | DEAD | LOST.

#[export] Instance SlotStatus_eq_dec : EqDecision SlotStatus.
Proof. solve_decision. Defined.

Definition slot_status_text (st : SlotStatus) : string :=
  match st with
  | EMPTY => "EMPTY" | STARTING => "STARTING" | READY => "READY" | LEASED => "LEASED"
  | RELEASING => "RELEASING" | RESETTING => "RESETTING" | RESTARTING => "RESTARTING"
  | FAILED => "FAILED" | DEAD => "DEAD" | LOST => "LOST"
  end.

Inductive PoolMode : Type := POOL_BLACKBOX | POOL_COMMAND_ONLY.

#[export] Instance PoolMode_eq_dec : EqDecision PoolMode.
Proof. solve_decision. Defined.

Fixpoint map_chars (f : ascii -> ascii) (s : string) : string :=
  match s with
  | EmptyString => EmptyString
  | String c s' => String (f c) (map_chars f s')
  end.

Definition normalize_pool_mode (value : option string) : result PoolMode :=
  let text := match value with None | Some "" => "blackbox" | Some v => v end in
  let text := map_chars (fun c => if bool_decide (c = "-"%char) then "_"%char else c) (lower (strip text)) in
  if bool_decide (text ∈ ["command"; "commands"; "commandonly"; "command_only"]) then Ok POOL_COMMAND_ONLY
  else if String.eqb text "blackbox" then Ok POOL_BLACKBOX
  else Raise (ValueError "unsupported local_bwrap pool mode").

(** [strip(chars)] *)
Fixpoint lstrip_chars (p : ascii -> bool) (s : string) : string :=
  match s with
  | EmptyString => EmptyString
  | String c s' => if p c then lstrip_chars p s' else s
  end.

Fixpoint rstrip_chars (p : ascii -> bool) (s : string) : string :=
  match s with
  | EmptyString => EmptyString
  | String c s' =>
      match rstrip_chars p s' with
      | EmptyString => if p c then EmptyString else String c EmptyString
      | r => String c r
      end
  end.

Definition name_char (c : ascii) : bool :=
  let n := N_of_ascii c in
  ((48 <=? n) && (n <=? 57) || (65 <=? n) && (n <=? 90) || (97 <=? n) && (n <=? 122))%N
  || bool_decide (c ∈ ["."; "_"; "-"]%char).

(** [_safe_name]: characters that are not allowed become underscores, one for each. *)
Definition _safe_name (value : string) : string :=
  let t := map_chars (fun c => if name_char c then c else "_"%char) value in
  let t := rstrip_chars (fun c => bool_decide (c ∈ ["."; "_"]%char))
             (lstrip_chars (fun c => bool_decide (c ∈ ["."; "_"]%char)) t) in
  if String.eqb t "" then "node" else t.

(** [re.sub("[^A-Za-z0-9_.-]+", "_", value)]: a run becomes one underscore. *)
Fixpoint squeeze (in_run : bool) (s : string) : string :=
  match s with
  | EmptyString => EmptyString
  | String c s' =>
      if name_char c then String c (squeeze false s')
      else if in_run then squeeze true s' else String "_"%char (squeeze true s')
  end.

Definition safe_session_path_component (value : option string) : string :=
  match value with
  | None | Some "" => "unknown-session"
  | Some v =>
      let p := fun c => bool_decide (c ∈ ["."; "_"; "-"]%char) in
      let t := rstrip_chars p (lstrip_chars p (squeeze false v)) in
      if String.eqb t "" then "unknown-session" else t
  end.

Fixpoint zeros (n : nat) : string := match n with O => "" | S n => String "0"%char (zeros n) end.

(** [f"{n:04d}"] *)
Definition pad4 (n : Z) : string :=
  let t := str_of_Z n in zeros (4 - String.length t) +:+ t.

(** ** Slots *)

Record SlotRuntime : Type := {
  slot_id : nat;
  port : Z;
  generation : Z;
  status : SlotStatus;
  process_pid : option Z;
  cleanup_token : option string;
  lease_id : option string;
  trajectory_id : option string;
  acquired_ts : option float;
  last_health_ts : float;
  last_error : option string;
  contents : option string;      (* the last lease granted since the directories were cleared *)
  slot_lock : option nat }.

Definition is_available (s : SlotRuntime) : bool :=
  bool_decide (status s = READY) && bool_decide (lease_id s = None).

Definition set_status (st : SlotStatus) (s : SlotRuntime) : SlotRuntime := {|
  slot_id := slot_id s; port := port s; generation := generation s; status := st;
  process_pid := process_pid s; cleanup_token := cleanup_token s; lease_id := lease_id s;
  trajectory_id := trajectory_id s; acquired_ts := acquired_ts s; last_health_ts := last_health_ts s;
  last_error := last_error s; contents := contents s; slot_lock := slot_lock s |}.

Definition set_lease (lease traj : option string) (ts : option float) (s : SlotRuntime) : SlotRuntime := {|
  slot_id := slot_id s; port := port s; generation := generation s; status := status s;
  process_pid := process_pid s; cleanup_token := cleanup_token s; lease_id := lease;
  trajectory_id := traj; acquired_ts := ts; last_health_ts := last_health_ts s;
  last_error := last_error s; contents := match lease with Some l => Some l | None => contents s end;
  slot_lock := slot_lock s |}.

Definition clear_lease : SlotRuntime -> SlotRuntime := set_lease None None None.

Definition set_process (pid : option Z) (s : SlotRuntime) : SlotRuntime := {|
  slot_id := slot_id s; port := port s; generation := generation s; status := status s;
  process_pid := pid; cleanup_token := cleanup_token s; lease_id := lease_id s;
  trajectory_id := trajectory_id s; acquired_ts := acquired_ts s; last_health_ts := last_health_ts s;
  last_error := last_error s; contents := contents s; slot_lock := slot_lock s |}.

Definition set_error (e : option string) (s : SlotRuntime) : SlotRuntime := {|
  slot_id := slot_id s; port := port s; generation := generation s; status := status s;
  process_pid := process_pid s; cleanup_token := cleanup_token s; lease_id := lease_id s;
  trajectory_id := trajectory_id s; acquired_ts := acquired_ts s; last_health_ts := last_health_ts s;
  last_error := e; contents := contents s; slot_lock := slot_lock s |}.

Definition set_health (ts : float) (s : SlotRuntime) : SlotRuntime := {|
  slot_id := slot_id s; port := port s; generation := generation s; status := status s;
  process_pid := process_pid s; cleanup_token := cleanup_token s; lease_id := lease_id s;
  trajectory_id := trajectory_id s; acquired_ts := acquired_ts s; last_health_ts := ts;
  last_error := last_error s; contents := contents s; slot_lock := slot_lock s |}.

(** [generation += 1] with a fresh cleanup token. *)
Definition next_generation (token : string) (s : SlotRuntime) : SlotRuntime := {|
  slot_id := slot_id s; port := port s; generation := (generation s + 1)%Z; status := status s;
  process_pid := process_pid s; cleanup_token := Some token; lease_id := lease_id s;
  trajectory_id := trajectory_id s; acquired_ts := acquired_ts s; last_health_ts := last_health_ts s;
  last_error := last_error s; contents := contents s; slot_lock := slot_lock s |}.

(** [reset_runtime_dirs]: the directories are moved to the archive or removed, and made again; a
    lease that is still there may go on writing. *)
Definition reset_runtime_dirs (s : SlotRuntime) : SlotRuntime := {|
  slot_id := slot_id s; port := port s; generation := generation s; status := status s;
  process_pid := process_pid s; cleanup_token := cleanup_token s; lease_id := lease_id s;
  trajectory_id := trajectory_id s; acquired_ts := acquired_ts s; last_health_ts := last_health_ts s;
  last_error := last_error s; contents := lease_id s; slot_lock := slot_lock s |}.

Definition set_lock (h : option nat) (s : SlotRuntime) : SlotRuntime := {|
  slot_id := slot_id s; port := port s; generation := generation s; status := status s;
  process_pid := process_pid s; cleanup_token := cleanup_token s; lease_id := lease_id s;
  trajectory_id := trajectory_id s; acquired_ts := acquired_ts s; last_health_ts := last_health_ts s;
  last_error := last_error s; contents := contents s; slot_lock := h |}.

(** [_allocate_archive_dir]: the session's name, or the first free name with a suffix, among
    the names in the archive; [fuel] bounds the suffixes tried. *)
Fixpoint collision_name (fuel : nat) (taken : list string) (base : string) (suffix : Z) : option string :=
  match fuel with
  | O => None
  | S fuel =>
      let c := base +:+ "-" +:+ str_of_Z suffix in
      if bool_decide (c ∈ taken) then collision_name fuel taken base (suffix + 1) else Some c
  end.

Definition _allocate_archive_dir (taken : list string) (session : option string) (timestamp : string)
    : option string :=
  let name := safe_session_path_component session in
  if bool_decide (name ∈ taken)
  then collision_name (S (length taken)) taken (name +:+ "-collision-" +:+ timestamp) 1
  else Some name.

(** ** The supervisor *)

(** Where a task on slot [i] waits. *)
Inductive pc : Type :=
| StartBegin (i : nat)
| StartProc (i : nat) (locked : bool)
| StartHealth (i : nat) (locked : bool)
| StartStop (i : nat) (locked : bool)
| PrepLock (i : nat)
| ResetLock (i : nat) (expected : option Z)
| ResetStopClosed (i : nat)
| ResetStopCommand (i : nat)
| ResetStopHard (i : nat) (expected : option Z)
| ShutdownLock (i : nat)
| ShutdownStop (i : nat)
| HealthCheck (i : nat)
| CommandLock (i : nat) (lease traj : option string)
| CommandRun (i : nat)
| Fin.

Record Supervisor : Type := {
  node_id : string;
  node_ip : string;
  advertise_host : string;
  pool_mode : PoolMode;
  soft_reset : bool;              (* [reset_strategy == "soft"] *)
  _slots : list SlotRuntime;
  tasks : list pc;
  _closed : bool }.

Definition with_slots (l : list SlotRuntime) (u : Supervisor) : Supervisor := {|
  node_id := node_id u; node_ip := node_ip u; advertise_host := advertise_host u;
  pool_mode := pool_mode u; soft_reset := soft_reset u; _slots := l; tasks := tasks u;
  _closed := _closed u |}.

Definition with_tasks (l : list pc) (u : Supervisor) : Supervisor := {|
  node_id := node_id u; node_ip := node_ip u; advertise_host := advertise_host u;
  pool_mode := pool_mode u; soft_reset := soft_reset u; _slots := _slots u; tasks := l;
  _closed := _closed u |}.

Definition close (u : Supervisor) : Supervisor := {|
  node_id := node_id u; node_ip := node_ip u; advertise_host := advertise_host u;
  pool_mode := pool_mode u; soft_reset := soft_reset u; _slots := _slots u; tasks := tasks u;
  _closed := true |}.

Definition on_slot (i : nat) (f : SlotRuntime -> SlotRuntime) (u : Supervisor) : Supervisor :=
  with_slots (alter f i (_slots u)) u.

Definition goto (t : nat) (p : pc) (u : Supervisor) : Supervisor := with_tasks (<[t := p]> (tasks u)) u.
Definition spawn (p : pc) (u : Supervisor) : Supervisor := with_tasks (tasks u ++ [p]) u.

(** [_schedule_task]: nothing is scheduled on a closed supervisor. *)
Definition _schedule_task (p : pc) (u : Supervisor) : Supervisor := if _closed u then u else spawn p u.

(** The end of a task, which leaves the slot's lock if it holds it. *)
Definition finish (t i : nat) (locked : bool) (u : Supervisor) : Supervisor :=
  goto t Fin (if locked then on_slot i (set_lock None) u else u).

Definition new_slot (base_port : Z) (i : nat) : SlotRuntime := {|
  slot_id := i; port := (base_port + Z.of_nat i)%Z; generation := 0; status := EMPTY; process_pid := None;
  cleanup_token := None; lease_id := None; trajectory_id := None; acquired_ts := None;
  last_health_ts := f0; last_error := None; contents := None; slot_lock := None |}.

Definition Supervisor__init__ (node ip host : string) (mode : PoolMode) (soft : bool) (capacity base_port : Z)
    : result Supervisor :=
  check! (capacity <? 0)%Z else ValueError "capacity must be non-negative" ;;
  Ok {| node_id := node; node_ip := ip; advertise_host := host; pool_mode := mode; soft_reset := soft;
        _slots := map (new_slot base_port) (seq 0 (Z.to_nat capacity)); tasks := []; _closed := false |}.

(** ** Leases *)

Definition holds_lease (st : SlotStatus) : bool := bool_decide (st ∈ [LEASED; LOST]).

Definition _slot_for_trajectory (traj : string) (u : Supervisor) : option SlotRuntime :=
  List.find (fun s => bool_decide (trajectory_id s = Some traj) && holds_lease (status s)) (_slots u).

Definition _slot_for_lease (lease traj : option string) (u : Supervisor) : option SlotRuntime :=
  List.find (fun s =>
    bool_decide (status s ∈ [LEASED; LOST; RELEASING; RESETTING])
    && match lease, traj with
       | Some l, _ => bool_decide (lease_id s = Some l)
       | None, Some t => bool_decide (trajectory_id s = Some t)
       | None, None => false
       end) (_slots u).

Definition sandbox_url (u : Supervisor) (s : SlotRuntime) : string :=
  "http://" +:+ advertise_host u +:+ ":" +:+ str_of_Z (port s).

Record LeasePayload : Type := {
  lp_lease_id : option string;
  lp_trajectory_id : option string;
  lp_node_id : string;
  lp_node_ip : string;
  lp_slot_id : nat;
  lp_port : Z;
  lp_sandbox_url : option string;
  lp_generation : Z;
  lp_ready : bool;
  lp_status : SlotStatus }.

Definition _lease_payload (u : Supervisor) (s : SlotRuntime) : LeasePayload := {|
  lp_lease_id := lease_id s; lp_trajectory_id := trajectory_id s; lp_node_id := node_id u;
  lp_node_ip := node_ip u; lp_slot_id := slot_id s; lp_port := port s;
  lp_sandbox_url := if bool_decide (pool_mode u = POOL_BLACKBOX) then Some (sandbox_url u s) else None;
  lp_generation := generation s; lp_ready := holds_lease (status s); lp_status := status s |}.

Definition cut (n : nat) (s : string) : string := String.substring 0 n s.

(** [uuid] is the part drawn at random. *)
Definition _new_lease_id (u : Supervisor) (s : SlotRuntime) (traj uuid : string) : string :=
  "lease-" +:+ cut 12 (_safe_name (node_id u)) +:+ "-" +:+ pad4 (Z.of_nat (slot_id s)) +:+ "-gen"
  +:+ str_of_Z (generation s) +:+ "-" +:+ cut 32 (_safe_name traj) +:+ "-" +:+ uuid.

(** What [acquire] does each time it looks for a slot: the payload, [None] to look again later,
    or an exception. *)
Definition acquire (traj uuid : string) (now : float) (u : Supervisor)
    : result (option LeasePayload) * Supervisor :=
  if _closed u then (Raise (RuntimeError "local_bwrap supervisor is shut down"), u)
  else match _slot_for_trajectory traj u with
       | Some s => (Ok (Some (_lease_payload u s)), u)
       | None =>
           match List.find is_available (_slots u) with
           | None => (Ok None, u)
           | Some s =>
               let lease := _new_lease_id u s traj uuid in
               let grant s := set_lease (Some lease) (Some traj) (Some now) (set_status LEASED s) in
               (Ok (Some (_lease_payload u (grant s))), on_slot (slot_id s) grant u)
           end
       end.

(** [release]: what was released, if anything was, and its reset as a task. *)
Definition release (lease traj : option string) (u : Supervisor) : option LeasePayload * Supervisor :=
  match _slot_for_lease lease traj u with
  | None => (None, u)
  | Some s =>
      let p := _lease_payload u s in
      if _closed u then (Some p, on_slot (slot_id s) (fun s => clear_lease (set_status DEAD s)) u)
      else (Some p, _schedule_task (ResetLock (slot_id s) (Some (lp_generation p)))
                      (on_slot (slot_id s) (fun s => clear_lease (set_status RELEASING s)) u))
  end.

Definition opt_or (a b : option string) : option string :=
  match a with None | Some "" => b | _ => a end.

Definition force_release (i : nat) (lease : option string) (u : Supervisor)
    : result (option LeasePayload) * Supervisor :=
  match _slots u !! i with
  | None => (Raise (IndexError "list index out of range"), u)
  | Some s => let '(p, u) := release (opt_or lease (lease_id s)) (trajectory_id s) u in (Ok p, u)
  end.

Definition restart_slot (i : nat) (u : Supervisor) : Supervisor :=
  if _closed u then u
  else spawn (ResetLock i None) (on_slot i (fun s => clear_lease (set_status RESTARTING s)) u).

(** ** Starting and resetting *)

(** [_start_slot], up to its first await; [dirs] tells whether the directories could be
    cleared. *)
Definition start_slot (t i : nat) (locked : bool) (token : string) (dirs : bool) (u : Supervisor)
    : Supervisor :=
  if _closed u then finish t i locked (on_slot i (set_status EMPTY) u)
  else
    let u := on_slot i (fun s => set_error None (set_process None (next_generation token
                                   (set_status STARTING s)))) u in
    if dirs then goto t (StartProc i locked) (on_slot i reset_runtime_dirs u) else finish t i locked u.

Definition start_failed (t i : nat) (locked : bool) (e : string) (u : Supervisor) : Supervisor :=
  finish t i locked (on_slot i (fun s => set_error (Some e) (set_status FAILED s)) u).

(** [_prepare_command_only_slot], once it has the slot's lock. *)
Definition prepare_slot (t i : nat) (token : string) (dirs : bool) (u : Supervisor) : Supervisor :=
  if _closed u then finish t i false (on_slot i (set_status EMPTY) u)
  else
    let u := on_slot i (fun s => set_error None (clear_lease (set_process None (next_generation token
                                   (set_status RESETTING s))))) u in
    finish t i false (if dirs then on_slot i (fun s => set_status READY (reset_runtime_dirs s)) u else u).

Definition stale (u : Supervisor) (i : nat) (expected : option Z) : bool :=
  match expected, _slots u !! i with
  | Some g, Some s => negb (bool_decide (generation s = g))
  | _, _ => false
  end.

(** [_reset_slot], once it has the slot's lock. *)
Definition reset_locked (t i : nat) (expected : option Z) (dirs : bool) (u : Supervisor) : Supervisor :=
  let lock := on_slot i (set_lock (Some t)) in
  if _closed u then goto t (ResetStopClosed i) (lock u)
  else if stale u i expected then goto t Fin u
  else match pool_mode u with
       | POOL_COMMAND_ONLY => goto t (ResetStopCommand i) (lock (on_slot i (set_status RESETTING) u))
       | POOL_BLACKBOX =>
           if soft_reset u
           then goto t Fin (if dirs
                            then on_slot i (fun s => set_error None (set_status READY (reset_runtime_dirs s))) u
                            else u)
           else goto t (ResetStopHard i expected) (lock (on_slot i (set_status RESTARTING) u))
       end.

(** The process is gone and so is the lease. *)
Definition vacate (st : SlotStatus) (s : SlotRuntime) : SlotRuntime :=
  set_status st (clear_lease (set_process None s)).

Definition reset_command (t i : nat) (token : string) (dirs : bool) (u : Supervisor) : Supervisor :=
  let u := on_slot i (set_process None) u in
  if negb dirs then finish t i true u
  else finish t i true
         (on_slot i (fun s => set_status (if _closed u then EMPTY else READY)
                                (set_error None (clear_lease (next_generation token (reset_runtime_dirs s))))) u).

Definition reset_hard (t i : nat) (expected : option Z) (token : string) (dirs : bool) (u : Supervisor)
    : Supervisor :=
  let u := on_slot i (set_process None) u in
  if _closed u then finish t i true (on_slot i (fun s => clear_lease (set_status EMPTY s)) u)
  else if stale u i expected then finish t i true u
  else if negb dirs then finish t i true u
  else start_slot t i true token dirs (on_slot i reset_runtime_dirs u).

(** [_check_live_slots_once] on one slot, once the check has answered. *)
Definition checked (t i : nat) (ok : bool) (now : float) (u : Supervisor) : Supervisor :=
  match _slots u !! i with
  | None => goto t Fin u
  | Some s =>
      if ok then goto t Fin (on_slot i (set_health now) u)
      else match status s with
           | LEASED => goto t Fin (on_slot i (fun s => set_error (Some "health check failed while leased")
                                                         (set_status LOST s)) u)
           | _ => _schedule_task (ResetLock i (Some (generation s)))
                    (goto t Fin (on_slot i (set_status DEAD) u))
           end
  end.

(** What a waiting task is told: whether what it waited for succeeded, whether the directories
    can be cleared when it clears them, and values it draws. *)
Record answer : Type := { ok : bool; dirs : bool; pid : option Z; token : string; text : string; now : float }.

Definition unlocked (i : nat) (u : Supervisor) : bool :=
  match _slots u !! i with Some s => bool_decide (slot_lock s = None) | None => false end.

(** [_ensure_slot_still_active] *)
Definition still_active (s : SlotRuntime) (lease traj : option string) : bool :=
  holds_lease (status s)
  && match lease with Some l => bool_decide (lease_id s = Some l) | None => true end
  && match traj with Some t => bool_decide (trajectory_id s = Some t) | None => true end.

(** A task whose [runner.stop] raises leaves the slot as it is. *)
Definition resume (t : nat) (p : pc) (a : answer) (u : Supervisor) : Supervisor :=
  match p with
  | StartBegin i => start_slot t i false (token a) (dirs a) u
  | StartProc i locked =>
      if negb (ok a) then start_failed t i locked (text a) u
      else
        let u := on_slot i (set_process (pid a)) u in
        goto t (if _closed u then StartStop i locked else StartHealth i locked) u
  | StartHealth i locked =>
      if negb (ok a) then start_failed t i locked (text a) u
      else if _closed u then goto t (StartStop i locked) u
      else finish t i locked (on_slot i (fun s => set_health (now a) (set_status READY s)) u)
  | StartStop i locked =>
      if negb (ok a) then start_failed t i locked (text a) u
      else finish t i locked (on_slot i (fun s => set_status EMPTY (set_process None s)) u)
  | PrepLock i => if unlocked i u then prepare_slot t i (token a) (dirs a) u else u
  | ResetLock i expected => if unlocked i u then reset_locked t i expected (dirs a) u else u
  | ResetStopClosed i => finish t i true (if ok a then on_slot i (vacate EMPTY) u else u)
  | ResetStopCommand i => if ok a then reset_command t i (token a) (dirs a) u else finish t i true u
  | ResetStopHard i expected =>
      if ok a then reset_hard t i expected (token a) (dirs a) u else finish t i true u
  | ShutdownLock i => if unlocked i u then goto t (ShutdownStop i) (on_slot i (set_lock (Some t)) u) else u
  | ShutdownStop i => finish t i true (if ok a then on_slot i (vacate EMPTY) u else u)
  | HealthCheck i => checked t i (ok a) (now a) u
  | CommandLock i lease traj =>
      match _slots u !! i with
      | Some s =>
          if bool_decide (slot_lock s = None)
          then if still_active s lease traj then goto t (CommandRun i) (on_slot i (set_lock (Some t)) u)
               else goto t Fin u
          else u
      | None => u
      end
  | CommandRun i => finish t i true u
  | Fin => u
  end.

Definition step (t : nat) (a : answer) (u : Supervisor) : Supervisor :=
  match tasks u !! t with Some p => resume t p a u | None => u end.

(** ** The operations together *)

Definition startable (s : SlotRuntime) : bool :=
  bool_decide (status s ∈ [EMPTY; FAILED; DEAD]) && bool_decide (lease_id s = None).

Definition start_pool (u : Supervisor) : Supervisor :=
  if _closed u then u
  else foldl (fun u s => spawn (match pool_mode u with
                                | POOL_COMMAND_ONLY => PrepLock (slot_id s)
                                | POOL_BLACKBOX => StartBegin (slot_id s)
                                end) u) u (List.filter startable (_slots u)).

Definition shutdown (u : Supervisor) : Supervisor :=
  foldl (fun u s => spawn (ShutdownLock (slot_id s)) u) (close u) (_slots u).

(** The health loop of a blackbox pool looks at a slot that should have a live server. *)
Definition check_slot (i : nat) (u : Supervisor) : Supervisor :=
  match _slots u !! i with
  | Some s =>
      if negb (_closed u) && bool_decide (pool_mode u = POOL_BLACKBOX)
         && bool_decide (status s ∈ [READY; LEASED])
      then spawn (HealthCheck i) u else u
  | None => u
  end.

(** [run_command], up to the slot's lock. *)
Definition run_command (lease traj : option string) (u : Supervisor) : result unit * Supervisor :=
  match _slot_for_lease lease traj u with
  | Some s => if holds_lease (status s) then (Ok tt, spawn (CommandLock (slot_id s) lease traj) u)
              else (Raise (KeyError "active local_bwrap lease not found"), u)
  | None => (Raise (KeyError "active local_bwrap lease not found"), u)
  end.

Definition _counts (st : SlotStatus) (u : Supervisor) : nat :=
  count_by (fun s => bool_decide (status s = st)) (_slots u).

Definition _last_error (u : Supervisor) : option string :=
  match List.find (fun s => match last_error s with None | Some "" => false | _ => true end) (rev (_slots u)) with
  | Some s => last_error s
  | None => None
  end.

Inductive event : Type :=
| StartPool
| Acquire (traj uuid : string) (now : float)
| Release (lease traj : option string)
| ForceRelease (i : nat) (lease : option string)
| RestartSlot (i : nat)
| CheckSlot (i : nat)
| RunCommand (lease traj : option string)
| Shutdown
| Step (t : nat) (a : answer).

Definition apply_event (e : event) (u : Supervisor) : Supervisor :=
  match e with
  | StartPool => start_pool u
  | Acquire traj uuid now => snd (acquire traj uuid now u)
  | Release lease traj => snd (release lease traj u)
  | ForceRelease i lease => snd (force_release i lease u)
  | RestartSlot i => restart_slot i u
  | CheckSlot i => check_slot i u
  | RunCommand lease traj => snd (run_command lease traj u)
  | Shutdown => shutdown u
  | Step t a => step t a u
  end.

Definition run_events (es : list event) (u : Supervisor) : Supervisor := foldl (fun u e => apply_event e u) u es.
