(* ===== verification/SlotTheorems.v ===== *)
(** * Leases start in clean directories

    The supervisor of [Slots] over whole runs: from a pool that was started once, whatever is
    acquired, released, checked, run and shut down and in whatever order the tasks resume, a
    slot that [acquire] may grant has had its directories cleared since the last lease on it
    ([lease_starts_clean]), and a trajectory holds at most one slot ([one_slot_per_trajectory]).
    The last section shows a run in which a late health check takes a slot from the trajectory
    that has just acquired it and leaves the slot unusable. *)

From S2P Require Import Prelude.
From S2P Require Import PyFloat.
From S2P Require Import PyVal.
From S2P Require Import Lineages.
From S2P Require Import Offload.
From S2P Require Import Slots.

Local Open Scope string_scope.
Local Open Scope list_scope.

(** ** What holds of a slot and of a task *)

Definition at_slot (p : pc) : option nat :=
  match p with
  | StartBegin i | StartProc i _ | StartHealth i _ | StartStop i _ | PrepLock i | ResetLock i _
  | ResetStopClosed i | ResetStopCommand i | ResetStopHard i _ | ShutdownLock i | ShutdownStop i
  | HealthCheck i | CommandLock i _ _ | CommandRun i => Some i
  | Fin => None
  end.

(** The tasks of [start_pool], which start a slot without its lock. *)
Definition boot (p : pc) : bool :=
  match p with
  | StartBegin _ | StartProc _ false | StartHealth _ false | PrepLock _ => true
  | _ => false
  end.

Definition slot_ok (s : SlotRuntime) : Prop :=
  (status s = READY -> lease_id s = None -> contents s = None)
  /\ (lease_id s = None -> trajectory_id s = None).

Definition booting (s : SlotRuntime) : Prop :=
  lease_id s = None /\ contents s = None /\ (status s = EMPTY \/ status s = STARTING).

Definition restarting (t : nat) (s : SlotRuntime) : Prop :=
  slot_lock s = Some t /\ contents s = lease_id s /\ (status s = STARTING \/ status s = DEAD).

Definition task_ok (m : PoolMode) (t : nat) (p : pc) (s : SlotRuntime) : Prop :=
  match p with
  | StartBegin _ | StartProc _ false | StartHealth _ false | PrepLock _ => booting s
  | StartProc _ true | StartHealth _ true => restarting t s /\ m = POOL_BLACKBOX
  | ResetStopHard _ _ => slot_lock s = Some t /\ m = POOL_BLACKBOX
  | ResetStopCommand _ =>
      slot_lock s = Some t /\ status s = RESETTING /\ lease_id s = None /\ m = POOL_COMMAND_ONLY
  | CommandRun _ => slot_lock s = Some t
  | ResetLock _ g =>
      m = POOL_COMMAND_ONLY ->
      exists g0, g = Some g0 /\ (g0 <= generation s)%Z
        /\ (g0 = generation s -> lease_id s = None /\ (status s = RELEASING \/ status s = RESETTING))
  | HealthCheck _ => m = POOL_BLACKBOX
  | CommandLock _ _ _ | Fin => True
  | StartStop _ _ | ResetStopClosed _ | ShutdownLock _ | ShutdownStop _ => False
  end.

Definition slots_ok (u : Supervisor) : Prop :=
  forall i s, _slots u !! i = Some s -> slot_id s = i /\ slot_ok s.

Record open_ok (u : Supervisor) : Prop := {
  open_slots : slots_ok u;
  open_tasks : forall t p i, tasks u !! t = Some p -> at_slot p = Some i ->
    exists s, _slots u !! i = Some s /\ task_ok (pool_mode u) t p s;
  open_boot : forall t t' p p' i, tasks u !! t = Some p -> tasks u !! t' = Some p' ->
    boot p = true -> at_slot p = Some i -> at_slot p' = Some i -> t = t' }.

(** A closed supervisor makes no slot ready: only the slots matter then. *)
Definition pool_ok (u : Supervisor) : Prop :=
  slots_ok u /\ (_closed u = false -> open_ok u).

(** ** Changing one slot and one task *)

Lemma on_slot_on_slot i f g u : on_slot i f (on_slot i g u) = on_slot i (fun s => f (g s)) u.
Proof. unfold on_slot, with_slots; simpl. f_equal. apply list_alter_alter_eq. Qed.

Lemma on_slot_id i u : on_slot i id u = u.
Proof. destruct u. unfold on_slot, with_slots; simpl. f_equal. by rewrite list_alter_id. Qed.

Lemma on_slot_goto i f t p u : on_slot i f (goto t p u) = goto t p (on_slot i f u).
Proof. reflexivity. Qed.

Lemma lookup_on_slot u i j f s : _slots (on_slot i f u) !! j = Some s ->
  (i = j /\ exists s0, _slots u !! j = Some s0 /\ s = f s0) \/ (i <> j /\ _slots u !! j = Some s).
Proof.
  simpl. destruct (decide (i = j)) as [-> | Hne].
  - rewrite list_lookup_alter_eq. destruct (_slots u !! j) eqn:E; simpl; [|done].
    intros [= <-]. left. eauto.
  - rewrite list_lookup_alter_ne by done. auto.
Qed.

Lemma slots_ok_update u i f :
  slots_ok u ->
  (forall s, _slots u !! i = Some s -> slot_ok s -> slot_id (f s) = slot_id s /\ slot_ok (f s)) ->
  slots_ok (on_slot i f u).
Proof.
  intros Hs Hf j s Hj. apply lookup_on_slot in Hj as [(-> & s0 & E & ->) | [_ E]]; [|by apply Hs].
  destruct (Hs _ _ E) as [Hid Hok], (Hf _ E Hok) as [Hid' Hok']. split; [congruence | done].
Qed.

(** The tasks that [f] may disturb are those of the slot it changes. *)
Definition undisturbed (m : PoolMode) (t i : nat) (s s' : SlotRuntime) : Prop :=
  forall t' q, t' <> t -> boot q = false -> at_slot q = Some i -> task_ok m t' q s -> task_ok m t' q s'.

Lemma open_update u t p i s p' f :
  open_ok u -> tasks u !! t = Some p -> at_slot p = Some i -> _slots u !! i = Some s ->
  (at_slot p' = Some i \/ p' = Fin) -> (boot p' = true -> boot p = true) ->
  slot_id (f s) = slot_id s -> slot_ok (f s) -> task_ok (pool_mode u) t p' (f s) ->
  (boot p = false -> undisturbed (pool_mode u) t i s (f s)) ->
  open_ok (goto t p' (on_slot i f u)).
Proof.
  intros Hu Ht Hi Hs Hp' Hb Hid Hok Htask Hothers.
  assert (Hlt : (t < length (tasks u))%nat) by eauto using lookup_lt_Some.
  split; simpl.
  - apply (slots_ok_update u); [apply Hu|]. intros s0 E _. by simplify_eq.
  - intros t' q j Hq Hj. destruct (decide (t' = t)) as [-> | Hne].
    + rewrite list_lookup_insert_eq in Hq by done. simplify_eq.
      destruct Hp' as [Hp' | ->]; [|done]. simplify_eq.
      exists (f s). rewrite list_lookup_alter_eq, Hs. done.
    + rewrite list_lookup_insert_ne in Hq by done.
      destruct (open_tasks _ Hu _ _ _ Hq Hj) as (s0 & E0 & H0).
      destruct (decide (i = j)) as [<- | Hij].
      * simplify_eq. exists (f s). rewrite list_lookup_alter_eq, Hs. split; [done|].
        destruct (boot p) eqn:Ebp.
        { by destruct Hne; symmetry; eapply (open_boot _ Hu). }
        apply Hothers; try done.
        destruct (boot q) eqn:Eq; [|done]. by destruct Hne; eapply (open_boot _ Hu).
      * exists s0. rewrite list_lookup_alter_ne by done. done.
  - intros t1 t2 q1 q2 j H1 H2 Hb1 Hj1 Hj2.
    assert (Hold : forall t' q, <[t:=p']> (tasks u) !! t' = Some q -> at_slot q = Some j ->
              exists q0, tasks u !! t' = Some q0 /\ at_slot q0 = Some j /\ (boot q = true -> boot q0 = true)).
    { intros t' q Hq Hj. destruct (decide (t' = t)) as [-> | Hne].
      - rewrite list_lookup_insert_eq in Hq by done. simplify_eq.
        destruct Hp' as [Hp' | ->]; [|done]. simplify_eq. eauto.
      - rewrite list_lookup_insert_ne in Hq by done. eauto. }
    destruct (Hold _ _ H1 Hj1) as (q1' & ? & ? & ?), (Hold _ _ H2 Hj2) as (q2' & ? & ? & ?).
    eapply (open_boot _ Hu); eauto.
Qed.

(** A task appears, and the slot it is about changes. *)
Lemma open_spawn u i s p' f :
  open_ok u -> _slots u !! i = Some s -> at_slot p' = Some i -> boot p' = false ->
  ~ booting s -> slot_id (f s) = slot_id s -> slot_ok (f s) ->
  task_ok (pool_mode u) (length (tasks u)) p' (f s) ->
  (forall t, undisturbed (pool_mode u) t i s (f s)) ->
  open_ok (spawn p' (on_slot i f u)).
Proof.
  intros Hu Hs Hp' Hb Hnb Hid Hok Htask Hothers.
  assert (Hq : forall t q j, (tasks u ++ [p']) !! t = Some q -> at_slot q = Some j ->
             tasks u !! t = Some q \/ (t = length (tasks u) /\ q = p')).
  { intros t q j Hq _. apply lookup_app_Some in Hq as [? | [Hge Hq]]; [by left|].
    apply list_lookup_singleton_Some in Hq as [? ->]. right. split; [lia | done]. }
  assert (Hnoboot : forall t q, tasks u !! t = Some q -> at_slot q = Some i -> boot q = false).
  { intros t q Eq Hj. destruct (open_tasks _ Hu _ _ _ Eq Hj) as (s0 & E0 & H0). simplify_eq.
    destruct q as [|? []|? []| | | | | | | | | | | |]; simpl in *; done || (exfalso; tauto). }
  split; simpl.
  - apply (slots_ok_update u); [apply Hu|]. intros s0 E _. by simplify_eq.
  - intros t q j Eq Hj. destruct (Hq _ _ _ Eq Hj) as [E | [-> ->]].
    + destruct (open_tasks _ Hu _ _ _ E Hj) as (s0 & E0 & H0).
      destruct (decide (i = j)) as [<- | Hij].
      * simplify_eq. exists (f s). rewrite list_lookup_alter_eq, Hs. split; [done|].
        apply (Hothers (S t)); eauto.
      * exists s0. by rewrite list_lookup_alter_ne.
    + simplify_eq. exists (f s). by rewrite list_lookup_alter_eq, Hs.
  - intros t1 t2 q1 q2 j H1 H2 Hb1 Hj1 Hj2.
    destruct (Hq _ _ _ H1 Hj1) as [E1 | [-> ->]]; [|congruence].
    destruct (Hq _ _ _ H2 Hj2) as [E2 | [-> ->]]; [by eapply (open_boot _ Hu)|].
    rewrite Hp' in Hj2. simplify_eq. rewrite (Hnoboot _ _ E1) in Hb1; done.
Qed.

(** ** A closed supervisor *)

Definition safe (f : SlotRuntime -> SlotRuntime) : Prop :=
  forall s, slot_ok s -> slot_id (f s) = slot_id s /\ slot_ok (f s).

Lemma slots_ok_safe u i f : safe f -> slots_ok u -> slots_ok (on_slot i f u).
Proof. intros Hf Hu. apply slots_ok_update; [done|]. intros s _ Hs. by apply Hf. Qed.

Lemma slots_ok_goto t p u : slots_ok u -> slots_ok (goto t p u).
Proof. done. Qed.

Lemma slots_ok_spawn p u : slots_ok u -> slots_ok (spawn p u).
Proof. done. Qed.

Lemma slots_ok_finish t i locked u : slots_ok u -> slots_ok (finish t i locked u).
Proof.
  intros Hu. apply slots_ok_goto. destruct locked; [|done].
  apply slots_ok_safe; [|done]. intros s Hs. done.
Qed.

Ltac solve_safe :=
  intros ? [? ?]; split; [done | split; simpl; first [done | discriminate | tauto | congruence]].

Ltac solve_slots :=
  repeat first
    [ apply slots_ok_finish | apply slots_ok_goto | apply slots_ok_spawn
    | apply slots_ok_safe; [solve_safe|] ]; try done.

Lemma start_slot_closed t i locked token dirs u :
  _closed u = true -> slots_ok u -> slots_ok (start_slot t i locked token dirs u).
Proof. intros Hc Hu. unfold start_slot. rewrite Hc. solve_slots. Qed.

Lemma resume_closed t p a u :
  _closed u = true -> slots_ok u -> slots_ok (resume t p a u).
Proof.
  intros Hc Hu.
  assert (Hc' : forall i f, _closed (on_slot i f u) = true) by (intros; exact Hc).
  destruct p as [i|i l|i l|i l|i|i g|i|i|i g|i|i|i|i lease traj|i|]; simpl; unfold start_failed;
    try (destruct (unlocked i u); [|done]).
  - by apply start_slot_closed.
  - destruct (negb (ok a)); rewrite ?Hc'; solve_slots.
  - destruct (negb (ok a)); rewrite ?Hc; solve_slots.
  - destruct (negb (ok a)); solve_slots.
  - unfold prepare_slot. rewrite Hc. solve_slots.
  - unfold reset_locked. rewrite Hc. solve_slots.
  - destruct (ok a); solve_slots.
  - unfold reset_command. destruct (ok a), (dirs a); simpl; rewrite ?Hc; solve_slots.
  - unfold reset_hard. destruct (ok a); simpl; rewrite ?Hc; solve_slots.
  - solve_slots.
  - destruct (ok a); solve_slots.
  - unfold checked, _schedule_task. destruct (_slots u !! i) as [s|]; [|done].
    destruct (ok a); [solve_slots|]. simpl. rewrite Hc. destruct (status s); solve_slots.
  - destruct (_slots u !! i) as [s|]; [|done].
    destruct (bool_decide _); [|done]. destruct (still_active _ _ _); solve_slots.
  - solve_slots.
  - done.
Qed.

(** ** Which tasks a change disturbs *)

Lemma unlocked_none i u s : unlocked i u = true -> _slots u !! i = Some s -> slot_lock s = None.
Proof. unfold unlocked. intros H E. rewrite E in H. by apply bool_decide_eq_true in H. Qed.

(** The waiting tasks of a slot: those that can be there while its lock is free. *)
Definition waiting_ok (m : PoolMode) (s s' : SlotRuntime) : Prop :=
  m = POOL_COMMAND_ONLY ->
  forall g0, (g0 <= generation s)%Z ->
    (g0 = generation s -> lease_id s = None /\ (status s = RELEASING \/ status s = RESETTING)) ->
    (g0 <= generation s')%Z
    /\ (g0 = generation s' -> lease_id s' = None /\ (status s' = RELEASING \/ status s' = RESETTING)).

Lemma undisturbed_waiting m t i s s' :
  (slot_lock s = None \/ slot_lock s = Some t) -> waiting_ok m s s' -> undisturbed m t i s s'.
Proof.
  intros Hl Hw t' q Hne Hb Hi Hq.
  destruct q as [|? []|? []| | | | | | | | | | | |]; simpl in *; unfold restarting in *; try done;
    try (exfalso; destruct Hl; intuition congruence).
  intros Hm. destruct (Hq Hm) as (g0 & ? & ? & ?). exists g0. split; [done|]. by apply Hw.
Qed.

Lemma waiting_blackbox s s' : waiting_ok POOL_BLACKBOX s s'.
Proof. intros [=]. Qed.

Lemma waiting_same m s s' :
  generation s' = generation s -> lease_id s' = lease_id s -> status s' = status s -> waiting_ok m s s'.
Proof. intros E1 E2 E3 _ g0. by rewrite E1, E2, E3. Qed.

Lemma waiting_next m s s' : generation s' = (generation s + 1)%Z -> waiting_ok m s s'.
Proof. intros E _ g0 ? ?. rewrite E. split; lia. Qed.

#[local] Hint Resolve waiting_blackbox waiting_same waiting_next undisturbed_waiting : core.

(** ** Steps of an open supervisor *)

Lemma open_of u t p i : open_ok u -> tasks u !! t = Some p -> at_slot p = Some i ->
  exists s, _slots u !! i = Some s /\ slot_ok s /\ task_ok (pool_mode u) t p s.
Proof.
  intros Hu Ht Hi. destruct (open_tasks _ Hu _ _ _ Ht Hi) as (s & Hs & Hok).
  exists s. split; [done|]. split; [by apply (open_slots _ Hu _ _ Hs) | done].
Qed.

Lemma open_goto u t p i p' s :
  open_ok u -> tasks u !! t = Some p -> at_slot p = Some i -> _slots u !! i = Some s ->
  (at_slot p' = Some i \/ p' = Fin) -> (boot p' = true -> boot p = true) ->
  task_ok (pool_mode u) t p' s -> open_ok (goto t p' u).
Proof.
  intros Hu Ht Hi Hs Hp' Hb Hok. rewrite <- (on_slot_id i u).
  eapply open_update; try eassumption; try done.
  - by apply (open_slots _ Hu _ _ Hs).
  - intros _ t' q Hne Hq Hj. done.
Qed.

Ltac solve_field := first [ done | discriminate | tauto | congruence ].

(** A task that goes on changes its own slot. *)
Ltac go_on :=
  eapply open_update; [eassumption | eassumption | reflexivity || eassumption | eassumption |..];
  simpl;
  first [ left; reflexivity | right; reflexivity | done
        | split; simpl; intros; solve_field
        | unfold restarting, booting in *; simpl in *; intuition (auto; congruence)
        | idtac ].

Lemma open_start_false t i a u :
  open_ok u -> _closed u = false -> tasks u !! t = Some (StartBegin i) ->
  open_ok (start_slot t i false (token a) (dirs a) u).
Proof.
  intros Hu Hc Ht. destruct (open_of _ _ _ _ Hu Ht eq_refl) as (s & Hs & [Hr Htr] & Hb).
  unfold start_slot, finish. rewrite Hc. simpl in Hb. unfold booting in Hb.
  destruct (dirs a); rewrite ?on_slot_on_slot; go_on.
Qed.

Lemma open_start_true t i g token dirs u s p :
  open_ok u -> _closed u = false -> tasks u !! t = Some p -> at_slot p = Some i -> boot p = false ->
  _slots u !! i = Some s -> slot_lock s = Some t -> pool_mode u = POOL_BLACKBOX ->
  (forall s, slot_lock (g s) = slot_lock s /\ slot_id (g s) = slot_id s
             /\ lease_id (g s) = lease_id s /\ trajectory_id (g s) = trajectory_id s) ->
  open_ok (start_slot t i true token dirs (on_slot i g u)).
Proof.
  intros Hu Hc Ht Hi Hb Hs Hl Hm Hg. destruct (Hg s) as (G1 & G2 & G3 & G4).
  destruct (open_slots _ Hu _ _ Hs) as [_ [_ Htr]].
  unfold start_slot, finish. replace (_closed (on_slot i g u)) with false by done.
  destruct dirs; rewrite ?on_slot_on_slot;
    go_on; unfold restarting; simpl; rewrite ?G1, ?G3; auto;
    first [ split; simpl; intros; [discriminate | rewrite G4; apply Htr; congruence]
          | intros _; rewrite Hm; auto ].
Qed.

Lemma open_start_failed t i locked e u p s :
  open_ok u -> tasks u !! t = Some p -> at_slot p = Some i -> _slots u !! i = Some s ->
  (locked = true -> slot_lock s = Some t /\ pool_mode u = POOL_BLACKBOX) -> boot p = negb locked ->
  open_ok (start_failed t i locked e u).
Proof.
  intros Hu Ht Hi Hs Hl Hb. destruct (open_slots _ Hu _ _ Hs) as [_ [Hr Htr]].
  unfold start_failed, finish. destruct locked; rewrite ?on_slot_on_slot; go_on.
  intros _. destruct Hl as [Hl Hm]; [done|]. rewrite Hm. auto.
Qed.

Lemma open_start_proc t i locked a u :
  open_ok u -> _closed u = false -> tasks u !! t = Some (StartProc i locked) ->
  open_ok (resume t (StartProc i locked) a u).
Proof.
  intros Hu Hc Ht. destruct (open_of _ _ _ _ Hu Ht eq_refl) as (s & Hs & [Hr Htr] & Hb).
  simpl. destruct (ok a); simpl.
  - rewrite Hc. go_on; destruct locked; simpl; try done.
    intros _. destruct Hb as [[Hb _] ->]. auto.
  - eapply open_start_failed; eauto; destruct locked; simpl in *; try done.
    by destruct Hb as [[? _] ->].
Qed.

Lemma open_start_health t i locked a u :
  open_ok u -> _closed u = false -> tasks u !! t = Some (StartHealth i locked) ->
  open_ok (resume t (StartHealth i locked) a u).
Proof.
  intros Hu Hc Ht. destruct (open_of _ _ _ _ Hu Ht eq_refl) as (s & Hs & [Hr Htr] & Hb).
  simpl. destruct (ok a); simpl.
  - rewrite Hc. unfold finish. destruct locked; rewrite ?on_slot_on_slot; simpl in Hb.
    + destruct Hb as [(Hl & Hcon & _) Hm]. go_on. rewrite Hm. auto.
    + destruct Hb as (Hl & Hcon & _). go_on.
  - eapply open_start_failed; eauto; destruct locked; simpl in *; try done.
    by destruct Hb as [[? _] ->].
Qed.

Lemma open_prep t i a u :
  open_ok u -> _closed u = false -> tasks u !! t = Some (PrepLock i) ->
  open_ok (resume t (PrepLock i) a u).
Proof.
  intros Hu Hc Ht. destruct (open_of _ _ _ _ Hu Ht eq_refl) as (s & Hs & [Hr Htr] & Hb).
  simpl. destruct (unlocked i u); [|done]. unfold prepare_slot, finish. rewrite Hc.
  destruct Hb as (Hl & Hcon & _). destruct (dirs a); rewrite ?on_slot_on_slot; go_on.
Qed.

Lemma stale_some u i s g0 : _slots u !! i = Some s ->
  stale u i (Some g0) = false -> g0 = generation s.
Proof.
  unfold stale. intros -> H. apply negb_false_iff, bool_decide_eq_true in H. done.
Qed.

Lemma open_reset_lock t i g a u :
  open_ok u -> _closed u = false -> tasks u !! t = Some (ResetLock i g) ->
  open_ok (resume t (ResetLock i g) a u).
Proof.
  intros Hu Hc Ht. destruct (open_of _ _ _ _ Hu Ht eq_refl) as (s & Hs & [Hr Htr] & Hb).
  simpl. destruct (unlocked i u) eqn:El; [|done]. pose proof (unlocked_none _ _ _ El Hs) as Hn.
  unfold reset_locked. rewrite Hc.
  destruct (stale u i g) eqn:Est.
  { eapply open_goto; eauto. done. }
  simpl in Hb. destruct (pool_mode u) eqn:Em.
  - assert (Hw : forall s', undisturbed POOL_BLACKBOX t i s s') by (intros; auto).
    destruct (soft_reset u).
    + destruct (dirs a); [|eapply open_goto; eauto; done].
      go_on. intros _. rewrite Em. auto.
    + rewrite on_slot_on_slot. go_on. intros _. rewrite Em. auto.
  - destruct (Hb eq_refl) as (g0 & -> & Hle & Hg). apply stale_some with (s := s) in Est; [|done].
    destruct (Hg Est) as [Hlease Hst].
    rewrite on_slot_on_slot. go_on. rewrite Em. intros _. apply undisturbed_waiting; [auto|].
    intros _ g1 H1 H2. simpl. auto.
Qed.

Lemma open_reset_command t i a u :
  open_ok u -> _closed u = false -> tasks u !! t = Some (ResetStopCommand i) ->
  open_ok (resume t (ResetStopCommand i) a u).
Proof.
  intros Hu Hc Ht. destruct (open_of _ _ _ _ Hu Ht eq_refl) as (s & Hs & [Hr Htr] & Hb).
  simpl in Hb. destruct Hb as (Hl & Hst & Hlease & Hm).
  simpl. unfold reset_command, finish. simpl. rewrite Hc.
  destruct (ok a); simpl; [destruct (dirs a); simpl|]; rewrite ?on_slot_on_slot; go_on;
    intros _; apply undisturbed_waiting; auto.
Qed.

Lemma open_reset_hard t i g a u :
  open_ok u -> _closed u = false -> tasks u !! t = Some (ResetStopHard i g) ->
  open_ok (resume t (ResetStopHard i g) a u).
Proof.
  intros Hu Hc Ht. destruct (open_of _ _ _ _ Hu Ht eq_refl) as (s & Hs & [Hr Htr] & Hb).
  destruct Hb as [Hl Hm]. simpl. unfold reset_hard. simpl. rewrite Hc.
  assert (Hend : forall f, safe f -> open_ok (goto t Fin (on_slot i (fun s => set_lock None (f s)) u))).
  { intros f Hf. destruct (Hf s) as [Hid [Hr' Htr']]; [done|]. go_on. intros _. rewrite Hm. auto. }
  destruct (ok a); [|by apply (Hend id)].
  destruct (stale _ i g); [|destruct (dirs a); simpl].
  - unfold finish. rewrite on_slot_on_slot. apply (Hend (set_process None)). solve_safe.
  - rewrite on_slot_on_slot. eapply open_start_true; eauto.
  - unfold finish. rewrite on_slot_on_slot. apply (Hend (set_process None)). solve_safe.
Qed.

(** In a blackbox pool, a change of the status of a slot that is not starting disturbs nothing. *)
Lemma undisturbed_status t i s s' :
  slot_lock s' = slot_lock s -> contents s' = contents s -> lease_id s' = lease_id s ->
  (status s' = status s \/ status s' = DEAD \/ status s = LEASED) ->
  undisturbed POOL_BLACKBOX t i s s'.
Proof.
  intros El Ec Ei Est t' q _ Hb _ Hq.
  destruct q as [|? []|? []| | | | | | | | | | | |]; simpl in *; unfold restarting in *; try done;
    rewrite ?El, ?Ec, ?Ei; intuition congruence.
Qed.

Lemma open_spawn_same u i s p :
  open_ok u -> _slots u !! i = Some s -> at_slot p = Some i -> boot p = false ->
  ~ booting s -> task_ok (pool_mode u) (length (tasks u)) p s -> open_ok (spawn p u).
Proof.
  intros Hu Hs Hi Hb Hn Hok. rewrite <- (on_slot_id i u).
  eapply open_spawn; eauto; [by apply (open_slots _ Hu _ _ Hs)|]. by intros t t' q.
Qed.

Lemma open_checked t i a u :
  open_ok u -> _closed u = false -> tasks u !! t = Some (HealthCheck i) ->
  open_ok (resume t (HealthCheck i) a u).
Proof.
  intros Hu Hc Ht. destruct (open_of _ _ _ _ Hu Ht eq_refl) as (s & Hs & [Hr Htr] & Hm).
  simpl in *. unfold checked. rewrite Hs.
  destruct (ok a).
  { go_on. intros _. rewrite Hm. apply undisturbed_status; auto. }
  assert (Hlost : status s = LEASED -> open_ok (goto t Fin (on_slot i (fun s =>
            set_error (Some "health check failed while leased") (set_status LOST s)) u))).
  { intros E. go_on. intros _. rewrite Hm. apply undisturbed_status; auto. }
  assert (Hdead : open_ok (_schedule_task (ResetLock i (Some (generation s)))
                             (goto t Fin (on_slot i (set_status DEAD) u)))).
  { unfold _schedule_task. simpl. rewrite Hc.
    eapply (open_spawn_same _ i (set_status DEAD s)); try done.
    - go_on. intros _. rewrite Hm. apply undisturbed_status; auto.
    - simpl. by rewrite list_lookup_alter_eq, Hs.
    - unfold booting. simpl. intuition discriminate.
    - simpl. rewrite Hm. done. }
  destruct (status s); auto.
Qed.

Lemma open_command t i a u p :
  open_ok u -> _closed u = false -> tasks u !! t = Some p ->
  p = CommandRun i \/ (exists lease traj, p = CommandLock i lease traj) ->
  open_ok (resume t p a u).
Proof.
  intros Hu Hc Ht [-> | (lease & traj & ->)];
    destruct (open_of _ _ _ _ Hu Ht eq_refl) as (s & Hs & [Hr Htr] & Hb); simpl in *.
  - unfold finish. go_on.
  - rewrite Hs. destruct (bool_decide _) eqn:El; [|done]. apply bool_decide_eq_true in El.
    destruct (still_active _ _ _); [|eapply open_goto; eauto; done].
    go_on.
Qed.

Lemma resume_open t p a u :
  open_ok u -> _closed u = false -> tasks u !! t = Some p -> open_ok (resume t p a u).
Proof.
  intros Hu Hc Ht. destruct (at_slot p) as [i|] eqn:Hi; [|by destruct p].
  destruct (open_of _ _ _ _ Hu Ht Hi) as (s & _ & _ & Hok).
  destruct p; simpl in Hi, Hok; try done; try (injection Hi as ->);
    eauto using open_start_false, open_start_proc, open_start_health, open_prep, open_reset_lock,
      open_reset_command, open_reset_hard, open_checked, open_command.
Qed.

Lemma closed_finish t i l u : _closed (finish t i l u) = _closed u.
Proof. by destruct l. Qed.

Lemma closed_start_slot t i l tok d u : _closed (start_slot t i l tok d u) = _closed u.
Proof.
  unfold start_slot. destruct (_closed u) eqn:E; [by rewrite closed_finish|].
  destruct d; [done | by rewrite closed_finish].
Qed.

Lemma closed_resume t p a u : _closed (resume t p a u) = _closed u.
Proof.
  destruct p as [i|i l|i l|i l|i|i g|i|i|i g|i|i|i|i lease traj|i|]; simpl;
    unfold start_failed, prepare_slot, reset_locked, reset_command, reset_hard, checked, _schedule_task;
    repeat case_match; rewrite ?closed_finish, ?closed_start_slot; try done.
Qed.

(** ** The pool as a whole *)

Lemma pool_step t a u : pool_ok u -> pool_ok (step t a u).
Proof.
  intros [Hs Ho]. unfold step. destruct (tasks u !! t) as [p|] eqn:Ht; [|done].
  destruct (_closed u) eqn:Hc.
  - split; [by apply resume_closed|]. rewrite closed_resume, Hc. discriminate.
  - assert (open_ok (resume t p a u)) by (apply resume_open; auto). split; [apply H | done].
Qed.

Lemma slot_found (P : SlotRuntime -> bool) u s : slots_ok u -> List.find P (_slots u) = Some s ->
  _slots u !! slot_id s = Some s /\ slot_ok s /\ P s = true.
Proof.
  intros Hu Hf. apply List.find_some in Hf as [Hin HP]. apply list_elem_of_In in Hin.
  apply list_elem_of_lookup in Hin as [i Hi]. destruct (Hu _ _ Hi) as [<- Hok]. done.
Qed.

Lemma open_slot u i s f :
  open_ok u -> _slots u !! i = Some s -> slot_id (f s) = slot_id s -> slot_ok (f s) ->
  (forall t q, task_ok (pool_mode u) t q s -> task_ok (pool_mode u) t q (f s)) -> open_ok (on_slot i f u).
Proof.
  intros Hu Hs Hid Hok Hq. split; simpl.
  - apply slots_ok_update; [apply Hu|]. intros s0 E _. by simplify_eq.
  - intros t q j Ht Hj. destruct (open_tasks _ Hu _ _ _ Ht Hj) as (s0 & E0 & H0).
    destruct (decide (i = j)) as [<- | Hne].
    + simplify_eq. exists (f s). rewrite list_lookup_alter_eq, Hs. auto.
    + exists s0. by rewrite list_lookup_alter_ne.
  - apply (open_boot _ Hu).
Qed.

Lemma pool_acquire traj uuid now u : pool_ok u -> pool_ok (snd (acquire traj uuid now u)).
Proof.
  intros Hu. destruct (Hu) as [Hs Ho]. unfold acquire.
  destruct (_closed u) eqn:Hc; [done|]. specialize (Ho eq_refl).
  destruct (_slot_for_trajectory traj u); [done|].
  destruct (List.find is_available (_slots u)) as [s|] eqn:Hf; [|done].
  destruct (slot_found _ _ _ Hs Hf) as (Hi & Hok & Hav).
  unfold is_available in Hav. apply andb_true_iff in Hav as [Hr Hl].
  apply bool_decide_eq_true in Hr, Hl.
  assert (open_ok (on_slot (slot_id s) (fun s0 => set_lease (Some (_new_lease_id u s traj uuid)) (Some traj)
                     (Some now) (set_status LEASED s0)) u)) as Hn.
  { eapply open_slot; eauto; [by split|].
    intros t q Hq. destruct q as [|? []|? []| | | | | | | | | | | |]; simpl in *;
      unfold booting, restarting in *; try done; try (exfalso; intuition congruence).
    intros Hm. destruct (Hq Hm) as (g0 & ? & ? & H). exists g0. split_and!; [done..|].
    intros E. destruct (H E) as [_ [|]]; congruence. }
  split; [apply Hn | done].
Qed.

Lemma lease_found lease traj u s : slots_ok u -> _slot_for_lease lease traj u = Some s ->
  _slots u !! slot_id s = Some s /\ slot_ok s /\ lease_id s <> None
  /\ (status s = LEASED \/ status s = LOST \/ status s = RELEASING \/ status s = RESETTING).
Proof.
  intros Hs Hf. unfold _slot_for_lease in Hf.
  destruct (slot_found _ _ _ Hs Hf) as (Hi & [Hr Htr] & H).
  apply andb_true_iff in H as [Hst Hm]. apply bool_decide_eq_true in Hst.
  split_and!; [done | done | | set_solver].
  intros E. specialize (Htr E).
  destruct lease, traj; try done; apply bool_decide_eq_true in Hm; congruence.
Qed.

Lemma pool_release lease traj u : pool_ok u -> pool_ok (snd (release lease traj u)).
Proof.
  intros Hu. destruct (Hu) as [Hs Ho]. unfold release. destruct (_slot_for_lease lease traj u) as [s|] eqn:Hf; [|done].
  destruct (lease_found _ _ _ _ Hs Hf) as (Hi & Hok & Hl & Hst).
  destruct (_closed u) eqn:Hc; simpl.
  - split; [|simpl; rewrite Hc; discriminate]. apply slots_ok_safe; [solve_safe | done].
  - specialize (Ho eq_refl).
    assert (open_ok (spawn (ResetLock (slot_id s) (Some (generation s)))
                       (on_slot (slot_id s) (fun s => clear_lease (set_status RELEASING s)) u))) as Hn.
    { eapply open_spawn; eauto.
      - unfold booting. tauto.
      - split; simpl; [discriminate | done].
      - simpl. intros _. exists (generation s). split_and!; auto; lia.
      - intros t t' q _ Hb _ Hq.
        destruct q as [|? []|? []| | | | | | | | | | | |]; simpl in *;
          unfold restarting in *; try done; try (exfalso; intuition congruence).
        intros Hm. destruct (Hq Hm) as (g0 & ? & ? & H). exists g0. split_and!; [done..|].
        intros E. destruct (H E). done. }
    unfold _schedule_task. simpl. rewrite Hc. split; [apply Hn | done].
Qed.

Lemma pool_spawn p i s u : pool_ok u -> _closed u = false -> _slots u !! i = Some s -> at_slot p = Some i ->
  boot p = false -> ~ booting s -> task_ok (pool_mode u) (length (tasks u)) p s -> pool_ok (spawn p u).
Proof.
  intros [Hs Ho] Hc Hi Hp Hb Hn Hok. split; [done|]. intros _. by eapply open_spawn_same; auto.
Qed.

Lemma pool_check_slot i u : pool_ok u -> pool_ok (check_slot i u).
Proof.
  intros Hu. unfold check_slot. destruct (_slots u !! i) as [s|] eqn:Hi; [|done].
  destruct (_ && _) eqn:H; [|done]. rewrite !andb_true_iff in H. destruct H as [[Hc Hm] Hst].
  apply negb_true_iff in Hc. apply bool_decide_eq_true in Hm, Hst.
  eapply pool_spawn; eauto. intros (_ & _ & [E | E]); rewrite E in Hst; set_solver.
Qed.

Lemma pool_run_command lease traj u : pool_ok u -> pool_ok (snd (run_command lease traj u)).
Proof.
  intros Hu. unfold run_command. destruct (_slot_for_lease lease traj u) as [s|] eqn:Hf; [|done].
  destruct (lease_found _ _ _ _ (proj1 Hu) Hf) as (Hi & _ & Hl & _).
  destruct (holds_lease (status s)); [|done]. simpl.
  destruct (_closed u) eqn:Hc.
  - split; [exact (proj1 Hu)|]. intros E. simpl in E. congruence.
  - eapply pool_spawn; eauto; [unfold booting; tauto | done].
Qed.

Lemma pool_shutdown u : pool_ok u -> pool_ok (shutdown u).
Proof.
  intros [Hs _]. unfold shutdown.
  assert (forall l v, slots_ok v -> _closed v = true ->
            pool_ok (foldl (fun u s => spawn (ShutdownLock (slot_id s)) u) v l)) as H.
  { induction l as [|s l IH]; intros v Hv Hc; simpl; [|by apply IH].
    split; [done|]. intros E. simpl in E. congruence. }
  by apply H.
Qed.

(** ** From the start of the pool *)

Definition first_task (m : PoolMode) (s : SlotRuntime) : pc :=
  match m with POOL_COMMAND_ONLY => PrepLock (slot_id s) | POOL_BLACKBOX => StartBegin (slot_id s) end.

Lemma foldl_spawn (l : list SlotRuntime) : forall u,
  foldl (fun u s => spawn (first_task (pool_mode u) s) u) u l
  = with_tasks (tasks u ++ map (first_task (pool_mode u)) l) u.
Proof.
  induction l as [|s l IH]; intros u; simpl.
  - rewrite app_nil_r. by destruct u.
  - rewrite IH. simpl. by rewrite <- app_assoc.
Qed.

Lemma init_slots node ip host m soft cap base u :
  Supervisor__init__ node ip host m soft cap base = Ok u ->
  _closed u = false /\ tasks u = [] /\
  exists n, _slots u = map (new_slot base) (seq 0 n).
Proof.
  unfold Supervisor__init__. intros H. destruct (cap <? 0)%Z; [done|]. injection H as <-. eauto.
Qed.

Lemma new_slot_lookup base n i s :
  map (new_slot base) (seq 0 n) !! i = Some s -> s = new_slot base i.
Proof.
  intros H. apply list_lookup_fmap_Some in H as (j & -> & Hj).
  apply lookup_seq in Hj as [-> _]. done.
Qed.

Lemma pool_started node ip host m soft cap base u :
  Supervisor__init__ node ip host m soft cap base = Ok u -> pool_ok (start_pool u).
Proof.
  intros H. destruct (init_slots _ _ _ _ _ _ _ _ H) as (Hc & Ht & n & Hn). unfold start_pool. rewrite Hc.
  change (pool_ok (foldl (fun u s => spawn (first_task (pool_mode u) s) u) u (List.filter startable (_slots u)))).
  rewrite foldl_spawn, Ht. simpl.
  assert (Hall : List.filter startable (_slots u) = _slots u).
  { rewrite Hn. clear. induction (seq 0 n) as [|j l IH]; simpl; [done|]. by rewrite IH. }
  rewrite Hall.
  assert (Hslots : slots_ok u).
  { intros i s Hi. rewrite Hn in Hi. apply new_slot_lookup in Hi as ->. done. }
  assert (Htask : forall t p i, map (first_task (pool_mode u)) (_slots u) !! t = Some p ->
            at_slot p = Some i -> t = i /\ exists s, _slots u !! i = Some s /\ p = first_task (pool_mode u) s).
  { intros t p i Hp Hi. apply list_lookup_fmap_Some in Hp as (s & -> & Hs).
    assert (at_slot (first_task (pool_mode u) s) = Some (slot_id s)) as Hat by (by destruct (pool_mode u)).
    destruct (Hslots _ _ Hs) as [Hid _]. rewrite Hi, Hid in Hat. injection Hat as ->. eauto. }
  split; [done|]. intros _. split; simpl.
  - done.
  - intros t p i Hp Hi. destruct (Htask _ _ _ Hp Hi) as (-> & s & Hs & ->). exists s. split; [done|].
    rewrite Hn in Hs. apply new_slot_lookup in Hs as ->.
    destruct (pool_mode u); (split; [done | split; [done | by left]]).
  - intros t t' p p' i Hp Hp' _ Hi Hi'.
    destruct (Htask _ _ _ Hp Hi) as [-> _], (Htask _ _ _ Hp' Hi') as [-> _]. done.
Qed.

(** What happens to a pool on its own: nothing starts it twice or restarts a slot by hand. *)
Definition automatic (e : event) : bool :=
  match e with StartPool | RestartSlot _ => false | _ => true end.

Lemma pool_event e u : automatic e = true -> pool_ok u -> pool_ok (apply_event e u).
Proof.
  destruct e as [|traj uuid ts|lease traj|i lease|i|i|lease traj| |t a]; simpl; intros He Hu; try done.
  - by apply pool_acquire.
  - by apply pool_release.
  - unfold force_release. destruct (_slots u !! i) as [s|]; [|done].
    pose proof (pool_release (opt_or lease (lease_id s)) (trajectory_id s) u Hu).
    by destruct (release _ _ u).
  - by apply pool_check_slot.
  - by apply pool_run_command.
  - by apply pool_shutdown.
  - by apply pool_step.
Qed.

Lemma pool_events es : forall u, forallb automatic es = true -> pool_ok u -> pool_ok (run_events es u).
Proof.
  induction es as [|e es IH]; intros u H Hu; [done|]. simpl in H. apply andb_true_iff in H as [He H].
  simpl. apply IH; [done|]. by apply pool_event.
Qed.

(** C9: From a pool that is started once, whatever is acquired, released, health checked, run and
    shut down afterwards and in whatever order the tasks of its slots resume: when [acquire]
    grants a new lease, the slot it grants is free and its directories have been cleared since
    the previous lease on it ended, so no trajectory finds another's files. *)
Theorem lease_starts_clean (node ip host : string) (m : PoolMode) (soft : bool) (cap base : Z)
    (u0 u : Supervisor) (es : list event) (traj uuid : string) (ts : float) (p : LeasePayload)
    (Hinit : Supervisor__init__ node ip host m soft cap base = Ok u0)
    (Hes : forallb automatic es = true)
    (Hu : u = run_events (StartPool :: es) u0)
    (Hnew : _slot_for_trajectory traj u = None)
    (Hacq : fst (acquire traj uuid ts u) = Ok (Some p)) :
  exists s, _slots u !! lp_slot_id p = Some s
    /\ status s = READY /\ lease_id s = None /\ trajectory_id s = None /\ contents s = None.
Proof.
  assert (Hok : pool_ok u) by (subst u; apply (pool_events es (start_pool u0)); [done | by eapply pool_started]).
  unfold acquire in Hacq. destruct (_closed u); [done|]. rewrite Hnew in Hacq.
  destruct (List.find is_available (_slots u)) as [s|] eqn:Hf; simpl in Hacq; [|discriminate].
  injection Hacq as <-. destruct (slot_found _ _ _ (proj1 Hok) Hf) as (Hi & [Hr Htr] & Hav).
  apply andb_true_iff in Hav as [H1 H2]. apply bool_decide_eq_true in H1, H2.
  exists s. split_and!; auto.
Qed.

(** A pool of two command slots: a lease is released, the slot is cleared while another
    trajectory takes the other slot, and a third one gets the cleared slot. *)
Definition nothing_told : answer := {| ok := true; dirs := true; pid := None; token := "t"; text := ""; now := f0 |}.

Definition lease_run : list event :=
  [ Step 0 nothing_told; Step 1 nothing_told; Acquire "a" "u1" f0; Release None (Some "a");
    Acquire "b" "u2" f0; Step 2 nothing_told; Step 2 nothing_told ].

Definition lease_pool : Supervisor := {|
  node_id := "n"; node_ip := "ip"; advertise_host := "h"; pool_mode := POOL_COMMAND_ONLY; soft_reset := false;
  _slots := [new_slot 20000 0; new_slot 20000 1]; tasks := []; _closed := false |}.

Definition lease_end : Supervisor := run_events (StartPool :: lease_run) lease_pool.

Lemma lease_end_run : lease_end = run_events (StartPool :: lease_run) lease_pool.
Proof. unfold lease_end. reflexivity. Qed.

Lemma lease_end_free : _slot_for_trajectory "c" lease_end = None.
Proof. vm_compute. reflexivity. Qed.

Lemma lease_end_grants : exists p, fst (acquire "c" "u3" f0 lease_end) = Ok (Some p)
  /\ lp_slot_id p = 0%nat /\ lp_generation p = 2%Z.
Proof. vm_compute. eauto. Qed.

Lemma lease_starts_clean_witness :
  Supervisor__init__ "n" "ip" "h" POOL_COMMAND_ONLY false 2 20000 = Ok lease_pool
  /\ forallb automatic lease_run = true
  /\ exists s, _slots lease_end !! 0%nat = Some s
       /\ status s = READY /\ lease_id s = None /\ trajectory_id s = None /\ contents s = None.
Proof.
  split; [reflexivity|]. split; [reflexivity|].
  destruct lease_end_grants as (p & Hp & Hi & _).
  destruct (lease_starts_clean "n" "ip" "h" POOL_COMMAND_ONLY false 2 20000 lease_pool lease_end
              lease_run "c" "u3" f0 p eq_refl eq_refl lease_end_run lease_end_free Hp) as (s & H).
  rewrite Hi in H. eauto.
Defined.

(** ** A trajectory holds at most one slot *)

(** Nothing but [acquire] gives a slot to a trajectory. *)
Definition keeps_slot (f : SlotRuntime -> SlotRuntime) (s : SlotRuntime) : Prop :=
  slot_id (f s) = slot_id s
  /\ (holds_lease (status (f s)) = true ->
      holds_lease (status s) = true /\ trajectory_id (f s) = trajectory_id s).

Definition keeps (u u' : Supervisor) : Prop :=
  forall i s', _slots u' !! i = Some s' ->
    exists s, _slots u !! i = Some s /\ slot_id s' = slot_id s
      /\ (holds_lease (status s') = true ->
          holds_lease (status s) = true /\ trajectory_id s' = trajectory_id s).

Lemma keeps_refl u : keeps u u.
Proof. intros i s Hs. eauto. Qed.

Lemma keeps_goto u v t p : keeps u v -> keeps u (goto t p v).
Proof. done. Qed.

Lemma keeps_spawn u v p : keeps u v -> keeps u (spawn p v).
Proof. done. Qed.

Lemma keeps_on_slot u v i f :
  (forall s, _slots v !! i = Some s -> keeps_slot f s) -> keeps u v -> keeps u (on_slot i f v).
Proof.
  intros Hf Huv j s' Hj. apply lookup_on_slot in Hj as [(-> & s0 & E & ->) | [_ E]]; [|by apply Huv].
  destruct (Huv _ _ E) as (s & Hs & Hid & Hold), (Hf _ E) as [Hid' Hold'].
  exists s. split_and!; [done | congruence |]. intros H. destruct (Hold' H) as [H1 Ht1].
  destruct (Hold H1) as [H2 Ht2]. split; [done | congruence].
Qed.

Lemma keeps_finish u v t i l : keeps u v -> keeps u (finish t i l v).
Proof.
  intros H. apply keeps_goto. destruct l; [|done].
  apply keeps_on_slot; [|done]. by intros s _.
Qed.

Ltac solve_keeps :=
  repeat first
    [ apply keeps_finish | apply keeps_goto | apply keeps_spawn
    | apply keeps_on_slot; [intros ? _; split; [done | simpl; (done || discriminate)]|] ];
  try done; try apply keeps_refl.

Lemma keeps_start_slot u v t i l tok d : keeps u v -> keeps u (start_slot t i l tok d v).
Proof. intros H. unfold start_slot. destruct (_closed v); [|destruct d]; solve_keeps. Qed.

Lemma keeps_resume t p a u : keeps u (resume t p a u).
Proof.
  assert (Hu := keeps_refl u).
  destruct p as [i|i l|i l|i l|i|i g|i|i|i g|i|i|i|i lease traj|i|]; simpl;
    unfold start_failed, prepare_slot, reset_locked, reset_command, reset_hard;
    try (repeat case_match; by solve_keeps).
  - by apply keeps_start_slot.
  - repeat case_match; solve_keeps. apply keeps_start_slot. solve_keeps.
  - unfold checked, _schedule_task. destruct (_slots u !! i) as [s|] eqn:Hs; [|done].
    destruct (ok a); [solve_keeps|]. cbv iota.
    destruct (status s) eqn:E; try (case (_closed _); solve_keeps).
    apply keeps_goto, keeps_on_slot; [|done].
    intros s0 Hs0. simplify_eq. split; [done|]. intros _. by rewrite E.
Qed.

Lemma keeps_release lease traj u : keeps u (snd (release lease traj u)).
Proof.
  unfold release, _schedule_task. destruct (_slot_for_lease lease traj u); [|apply keeps_refl].
  destruct (_closed u) eqn:E; simpl; rewrite ?E; solve_keeps.
Qed.

Lemma keeps_event e u :
  match e with Acquire _ _ _ => True | _ => keeps u (apply_event e u) end.
Proof.
  destruct e as [|traj uuid ts|lease traj|i lease|i|i|lease traj| |t a]; simpl; try done.
  - unfold start_pool. destruct (_closed u); [apply keeps_refl|].
    change (keeps u (foldl (fun u s => spawn (first_task (pool_mode u) s) u) u (List.filter startable (_slots u)))).
    rewrite foldl_spawn. exact (keeps_refl u).
  - apply keeps_release.
  - unfold force_release. destruct (_slots u !! i) as [s|]; [|apply keeps_refl].
    pose proof (keeps_release (opt_or lease (lease_id s)) (trajectory_id s) u). by destruct (release _ _ u).
  - unfold restart_slot. destruct (_closed u); solve_keeps.
  - unfold check_slot. repeat case_match; solve_keeps.
  - unfold run_command. repeat case_match; solve_keeps.
  - unfold shutdown. assert (forall l v, keeps u v ->
      keeps u (foldl (fun u s => spawn (ShutdownLock (slot_id s)) u) v l)) as H; [|apply H; exact (keeps_refl u)].
    induction l as [|s l IH]; intros v Hv; simpl; [done|]. by apply IH.
  - unfold step. destruct (tasks u !! t); [apply keeps_resume | apply keeps_refl].
Qed.

Definition one_slot_each (u : Supervisor) : Prop :=
  (forall i s, _slots u !! i = Some s -> slot_id s = i)
  /\ forall i j si sj traj, _slots u !! i = Some si -> _slots u !! j = Some sj ->
       holds_lease (status si) = true -> holds_lease (status sj) = true ->
       trajectory_id si = Some traj -> trajectory_id sj = Some traj -> i = j.

Lemma one_slot_keeps u u' : keeps u u' -> one_slot_each u -> one_slot_each u'.
Proof.
  intros Hk [Hid Hone]. split.
  - intros i s Hs. destruct (Hk _ _ Hs) as (s0 & Hs0 & -> & _). by apply Hid.
  - intros i j si sj traj Hi Hj Hhi Hhj Hti Htj.
    destruct (Hk _ _ Hi) as (si' & Hi' & _ & Hi2), (Hk _ _ Hj) as (sj' & Hj' & _ & Hj2).
    destruct (Hi2 Hhi) as [? Ei], (Hj2 Hhj) as [? Ej]. rewrite Hti in Ei. rewrite Htj in Ej. eauto.
Qed.

(** A slot is granted when no slot is held by the trajectory. *)
Lemma one_slot_acquire traj uuid ts u : one_slot_each u -> one_slot_each (snd (acquire traj uuid ts u)).
Proof.
  intros Hu. destruct (Hu) as [Hid Hone]. unfold acquire. destruct (_closed u); [done|].
  destruct (_slot_for_trajectory traj u) as [|] eqn:Hnone; [done|].
  destruct (List.find is_available (_slots u)) as [s|] eqn:Hf; [|done]. simpl.
  set (f := fun s0 => set_lease _ _ _ (set_status LEASED s0)).
  apply List.find_some in Hf as [Hin _].
  assert (Hfree : forall j sj, _slots u !! j = Some sj -> holds_lease (status sj) = true ->
            trajectory_id sj <> Some traj).
  { intros j sj Hj Hh Ht. unfold _slot_for_trajectory in Hnone.
    apply list_elem_of_lookup_2, list_elem_of_In, (List.find_none _ _ Hnone) in Hj.
    by rewrite Hh, bool_decide_eq_true_2 in Hj. }
  split.
  - intros i s' Hi. apply lookup_on_slot in Hi as [(<- & s0 & E & ->) | [_ E]]; exact (Hid _ _ E).
  - intros i j si sj t Hi Hj Hhi Hhj Hti Htj.
    apply lookup_on_slot in Hi as [(<- & s1 & E1 & ->) | [Hni E1]];
      apply lookup_on_slot in Hj as [(<- & s2 & E2 & ->) | [Hnj E2]]; [done| | |by eapply Hone].
    + simpl in Hti. simplify_eq. by destruct (Hfree _ _ E2 Hhj).
    + simpl in Htj. simplify_eq. by destruct (Hfree _ _ E1 Hhi).
Qed.

Lemma one_slot_events es : forall u, one_slot_each u -> one_slot_each (run_events es u).
Proof.
  induction es as [|e es IH]; intros u Hu; [done|]. simpl. apply IH.
  pose proof (keeps_event e u) as Hk. destruct e; try (by eapply one_slot_keeps).
  by apply one_slot_acquire.
Qed.

(** C24: Whatever happens to a supervisor from its creation on, starts, leases, releases,
    restarts, health checks, commands, shutdown and every step of their tasks in any order, two
    slots that are leased or lost never belong to the same trajectory. *)
Theorem one_slot_per_trajectory (node ip host : string) (m : PoolMode) (soft : bool) (cap base : Z)
    (u0 : Supervisor) (es : list event) (i j : nat) (si sj : SlotRuntime) (traj : string)
    (Hinit : Supervisor__init__ node ip host m soft cap base = Ok u0)
    (Hi : _slots (run_events es u0) !! i = Some si) (Hj : _slots (run_events es u0) !! j = Some sj)
    (Hli : holds_lease (status si) = true) (Hlj : holds_lease (status sj) = true)
    (Hti : trajectory_id si = Some traj) (Htj : trajectory_id sj = Some traj) : i = j.
Proof.
  destruct (init_slots _ _ _ _ _ _ _ _ Hinit) as (_ & _ & n & Hn).
  assert (one_slot_each u0) as H0.
  { split; rewrite Hn.
    - intros k s Hk. by apply new_slot_lookup in Hk as ->.
    - intros k l sk sl t Hk _ Hh. by apply new_slot_lookup in Hk as ->. }
  destruct (one_slot_events es u0 H0) as [_ Hone]. by eapply Hone.
Qed.

Lemma lease_end_holds : exists s, _slots lease_end !! 1%nat = Some s
  /\ holds_lease (status s) = true /\ trajectory_id s = Some "b".
Proof. vm_compute. eauto. Qed.

Lemma one_slot_per_trajectory_witness :
  exists s, _slots lease_end !! 1%nat = Some s /\ trajectory_id s = Some "b" /\ (1 = 1)%nat.
Proof.
  destruct lease_end_holds as (s & Hs & Hh & Ht). exists s. split; [exact Hs|]. split; [exact Ht|].
  rewrite lease_end_run in Hs.
  exact (one_slot_per_trajectory "n" "ip" "h" POOL_COMMAND_ONLY false 2 20000 lease_pool
           (StartPool :: lease_run) 1 1 s s "b" eq_refl Hs Hs Hh Hh Ht Ht).
Defined.

(** ** A late health check

    A check that was sent to the old server of a slot fails while the new one starts: the slot
    is marked dead and a reset is scheduled with the generation the slot has now.  The start then
    makes the slot ready, a trajectory takes it, and the reset, which is not stale, stops its
    server and leaves the slot ready with the lease still on it. *)
Definition told (o : bool) : answer :=
  {| ok := o; dirs := true; pid := Some 7%Z; token := "t"; text := "refused"; now := f0 |}.

Definition late_check_run : list event :=
  [ StartPool; Step 0 (told true); Step 0 (told true); Step 0 (told true);
    Acquire "a" "u1" f0; CheckSlot 0; Release None (Some "a"); Step 2 (told true); Step 2 (told true);
    Step 1 (told false); Step 2 (told true); Step 2 (told true); Acquire "b" "u2" f0;
    Step 3 (told true); Step 3 (told true); Step 3 (told true); Step 3 (told true) ].

Definition late_check_pool : Supervisor := {|
  node_id := "n"; node_ip := "ip"; advertise_host := "h"; pool_mode := POOL_BLACKBOX; soft_reset := false;
  _slots := [new_slot 20000 0]; tasks := []; _closed := false |}.

(** The slot is ready, it carries a lease that can no longer be released, and nobody can acquire
    it: it is lost until it is restarted by hand. *)
Lemma late_check_loses_slot :
  let u := run_events late_check_run late_check_pool in
  (exists s lease, _slots u = [s] /\ status s = READY /\ trajectory_id s = Some "b" /\ lease_id s = Some lease
     /\ release (Some lease) (Some "b") u = (None, u))
  /\ acquire "b" "u3" f0 u = (Ok None, u) /\ acquire "c" "u4" f0 u = (Ok None, u)
  /\ List.filter (fun p => negb (match p with Fin => true | _ => false end)) (tasks u) = [].
Proof. vm_compute. split_and!; [do 2 eexists; split_and!; reflexivity|reflexivity..]. Qed.

(** ** Archives never overwrite one another *)

Lemma suffix_inj (base : string) (m n : nat) :
  base +:+ "-" +:+ str_of_Z (Z.of_nat m) = base +:+ "-" +:+ str_of_Z (Z.of_nat n) -> m = n.
Proof.
  intros E. do 2 apply sapp_inj in E. pose proof (str_of_nat_parse m) as H.
  rewrite E, str_of_nat_parse in H. by simplify_eq.
Qed.

Lemma collision_name_taken taken base fuel : forall k,
  collision_name fuel taken base (Z.of_nat k) = None ->
  Forall (fun c => c ∈ taken) (map (fun n => base +:+ "-" +:+ str_of_Z (Z.of_nat n)) (seq k fuel)).
Proof.
  induction fuel as [|fuel IH]; intros k; simpl; [constructor|].
  destruct (bool_decide _) eqn:E; [|done]. apply bool_decide_eq_true in E. intros H.
  constructor; [done|]. apply IH. by rewrite Nat2Z.inj_succ.
Qed.

Lemma collision_name_fresh taken base fuel : forall k c,
  collision_name fuel taken base k = Some c -> c ∉ taken.
Proof.
  induction fuel as [|fuel IH]; intros k c; simpl; [done|].
  destruct (bool_decide _) eqn:E; [apply IH|]. apply bool_decide_eq_false in E. by intros [= <-].
Qed.

(** Archiving a session's directories always finds a name, and it is not the name of an
    archive that is already there: the suffixes tried are one more than the archives. *)
Theorem archive_name_fresh (taken : list string) (session : option string) (timestamp : string) :
  exists name, _allocate_archive_dir taken session timestamp = Some name /\ name ∉ taken.
Proof.
  unfold _allocate_archive_dir. destruct (bool_decide _) eqn:E.
  - set (base := _ +:+ _). destruct (collision_name _ taken base 1) as [c|] eqn:Ec.
    + exists c. split; [done|]. by eapply collision_name_fresh.
    + exfalso. apply (collision_name_taken taken base _ 1) in Ec.
      assert (Hs : map (fun n => base +:+ "-" +:+ str_of_Z (Z.of_nat n)) (seq 1 (S (length taken))) ⊆+ taken).
      { apply NoDup_submseteq; [|rewrite Forall_forall in Ec; exact Ec].
        apply NoDup_fmap_2; [|apply NoDup_seq]. intros m n. apply suffix_inj. }
      apply submseteq_length in Hs. rewrite length_map, length_seq in Hs. lia.
  - apply bool_decide_eq_false in E. eauto.
Qed.
