(* ===== verification/LlmConvert.v ===== *)
(** * Translation between model APIs ([blackbox_server/proxy/rollout_llm_proxy.py])

    The agents speak the Anthropic messages API or the OpenAI responses API; the proxy in front
    of the rollout speaks chat completions.  This file holds the translations of requests and of
    complete answers, in both directions; [LlmStream] translates answers that are streamed.
    [json_text] is [json.dumps(v, ensure_ascii=False)]; a membership test in a set of strings
    raises for a list or a dictionary, which Python cannot hash. *)

From Stdlib Require Import Ascii.
From S2P Require Import Prelude.
From S2P Require Import PyFloat.
From S2P Require Import PyVal.
From S2P Require Import Json.

Local Open Scope string_scope.
Local Open Scope list_scope.
Local Open Scope py_scope.

Abbreviation dict := (list (string * pyval)) (only parsing).

(** ** Values *)

(** [a or b] *)
Definition por (a b : pyval) : pyval := if py_truth a then a else b.

(** [v == s] for a literal [s] *)
Definition is_text (v : pyval) (s : string) : bool :=
  match v with PStr t => String.eqb t s | _ => false end.

(** [v in {...}] for a set of strings *)
Definition in_set (v : pyval) (l : list string) : result bool :=
  match v with
  | PList _ | PDict _ => Raise (TypeError "unhashable type")
  | PStr s => Ok (bool_decide (s ∈ l))
  | _ => Ok false
  end.

(** [d.get(k) if isinstance(d.get(k), dict) else {}] *)
Definition dict_at (d : dict) (k : string) : dict := match pget d k with PDict x => x | _ => [] end.

Definition lf : string := String "010"%char "".

(** ["\n".join(part for part in parts if part)] *)
Definition join_lines (parts : list string) : string :=
  join lf (List.filter (fun p => negb (String.eqb p "")) parts).

Section Text.
Context `{PyText}.

Fixpoint json_text (v : pyval) : string :=
  match v with
  | PNone => "null"
  | PBool b => if b then "true" else "false"
  | PInt z => str_of_Z z
  | PFloat f => dumps_float f
  | PStr s => dumps_str s
  | PList l => "[" +:+ join ", " (map json_text l) +:+ "]"
  | PDict d =>
      "{" +:+ join ", " ((fix enc (d : dict) : list string :=
                            match d with
                            | [] => []
                            | (k, x) :: d' => (dumps_str k +:+ ": " +:+ json_text x) :: enc d'
                            end) d) +:+ "}"
  end.

(** [str(d.get(k1) or d.get(k2) or ... or default)] *)
Definition text_or (d : dict) (keys : list string) (default : string) : string :=
  py_str (foldr (fun k v => por (pget d k) v) (PStr default) keys).

(** [arguments if isinstance(arguments, str) else json.dumps(arguments or {})] *)
Definition arguments_text (v : pyval) : string :=
  match v with PStr s => s | _ => json_text (por v (PDict [])) end.

(** ** The responses API *)

Definition response_part_text (item : pyval) : result string :=
  match item with
  | PStr s => Ok s
  | PDict d =>
      let! known := in_set (pget d "type") ["input_text"; "output_text"; "text"] in
      Ok (if known && negb (is_pnone (pget d "text")) then py_str (pget d "text")
          else if negb (is_pnone (pget d "text")) then py_str (pget d "text")
          else if negb (is_pnone (pget d "output")) then py_str (pget d "output")
          else json_text item)
  | _ => Ok (py_str item)
  end.

Definition _openai_responses_content_to_text (value : pyval) : result string :=
  match value with
  | PNone => Ok ""
  | PStr s => Ok s
  | PList l => let! parts := mapM_res response_part_text l in Ok (join_lines parts)
  | _ => Ok (json_text value)
  end.

(** The text of the first of [keys] that has one. *)
Fixpoint first_text (d : dict) (keys : list string) : result string :=
  match keys with
  | [] => Ok ""
  | k :: keys =>
      if phas d k
      then let! text := _openai_responses_content_to_text (pget d k) in
           if String.eqb text "" then first_text d keys else Ok text
      else first_text d keys
  end.

Definition _openai_chat_message_reasoning_to_text (message : dict) : result string :=
  first_text message ["reasoning_content"; "reasoning"].

Definition summary_part (part : pyval) : result (list string) :=
  match part with
  | PStr s => Ok [s]
  | PDict d =>
      let text := por (pget d "text") (por (pget d "summary_text") (pget d "content")) in
      if is_pnone text then Ok []
      else let! t := _openai_responses_content_to_text text in Ok [t]
  | _ => Ok [py_str part]
  end.

Definition _openai_response_reasoning_to_text (item : dict) : result string :=
  let! text := match pget item "summary" with
               | PList l => let! parts := mapM_res summary_part l in Ok (join_lines (concat parts))
               | _ => Ok ""
               end in
  if String.eqb text "" then first_text item ["content"; "text"; "reasoning_content"; "reasoning"]
  else Ok text.

Definition _openai_response_function_call_to_chat_tool_call (item : dict) : pyval :=
  PDict [("id", PStr (text_or item ["call_id"; "id"] "call_proxy"));
         ("type", PStr "function");
         ("function", PDict [("name", PStr (text_or item ["name"] "tool"));
                             ("arguments", PStr (arguments_text (pget item "arguments")))])].

Definition _openai_response_function_call_to_chat_message (item : dict) (reasoning : option string) : dict :=
  [("role", PStr "assistant"); ("content", PNone);
   ("tool_calls", PList [_openai_response_function_call_to_chat_tool_call item])]
  ++ match reasoning with
     | None | Some "" => []
     | Some r => [("reasoning_content", PStr r)]
     end.

(** What the loop over the input keeps. *)
Record input_state : Type := {
  system_parts : list string;
  messages : list dict;
  pending_assistant_index : option nat;
  pending_reasoning_content : option string }.

(** A message that ends what was pending. *)
Definition plain_message (m : dict) (st : input_state) : input_state := {|
  system_parts := system_parts st; messages := messages st ++ [m];
  pending_assistant_index := None; pending_reasoning_content := None |}.

Definition user_message (content : string) : dict := [("role", PStr "user"); ("content", PStr content)].

Definition add_reasoning (text : string) (st : input_state) : input_state := {|
  system_parts := system_parts st; messages := messages st; pending_assistant_index := None;
  pending_reasoning_content :=
    if String.eqb text "" then pending_reasoning_content st
    else match pending_reasoning_content st with
         | None | Some "" => Some text
         | Some p => Some (p +:+ lf +:+ text)
         end |}.

(** [message.setdefault]-like: the list of tool calls is created when there is none. *)
Definition append_tool_call (call : pyval) (m : dict) : dict :=
  dset m "tool_calls" (match pget m "tool_calls" with PList l => PList (l ++ [call]) | _ => PList [call] end).

Definition add_function_call (item : dict) (st : input_state) : input_state :=
  match pending_assistant_index st with
  | Some i => {|
      system_parts := system_parts st;
      messages := alter (append_tool_call (_openai_response_function_call_to_chat_tool_call item)) i (messages st);
      pending_assistant_index := Some i; pending_reasoning_content := pending_reasoning_content st |}
  | None => {|
      system_parts := system_parts st;
      messages := messages st ++ [_openai_response_function_call_to_chat_message item (pending_reasoning_content st)];
      pending_assistant_index := Some (length (messages st)); pending_reasoning_content := None |}
  end.

Definition add_message (role content : string) (st : input_state) : input_state :=
  if bool_decide (role ∈ ["developer"; "system"]) then {|
    system_parts := if String.eqb content "" then system_parts st else system_parts st ++ [content];
    messages := messages st; pending_assistant_index := None; pending_reasoning_content := None |}
  else
    let role := if bool_decide (role ∈ ["user"; "assistant"; "tool"]) then role else "user" in
    let assistant := String.eqb role "assistant" in
    {| system_parts := system_parts st;
       messages := messages st ++
         [[("role", PStr role); ("content", PStr content)]
          ++ match pending_reasoning_content st with
             | None | Some "" => []
             | Some r => if assistant then [("reasoning_content", PStr r)] else []
             end];
       pending_assistant_index := if assistant then Some (length (messages st)) else None;
       pending_reasoning_content := None |}.

Definition input_item (st : input_state) (item : pyval) : result input_state :=
  match item with
  | PStr s => Ok (plain_message (user_message s) st)
  | PDict d =>
      let item_type := pget d "type" in
      if is_text item_type "reasoning" then
        let! text := _openai_response_reasoning_to_text d in Ok (add_reasoning text st)
      else if is_text item_type "function_call" then Ok (add_function_call d st)
      else if is_text item_type "function_call_output" then
        let! content := _openai_responses_content_to_text (pget d "output") in
        Ok (plain_message [("role", PStr "tool");
                           ("tool_call_id", PStr (text_or d ["call_id"; "id"] "call_proxy"));
                           ("content", PStr content)] st)
      else if is_text item_type "message" || negb (is_pnone (pget d "role")) then
        let role := lower (text_or d ["role"] "user") in
        let! content := _openai_responses_content_to_text (pget d "content") in
        Ok (add_message role content st)
      else Ok (plain_message (user_message (json_text item)) st)
  | _ => let! content := _openai_responses_content_to_text item in
         Ok (plain_message (user_message content) st)
  end.

Fixpoint input_items (st : input_state) (l : list pyval) : result input_state :=
  match l with
  | [] => Ok st
  | item :: l => let! st := input_item st item in input_items st l
  end.

Definition no_input : input_state := {|
  system_parts := []; messages := []; pending_assistant_index := None; pending_reasoning_content := None |}.

Definition _openai_responses_input_to_chat_messages (value : pyval) : result (list string * list dict) :=
  match value with
  | PNone => Ok ([], [])
  | PStr s => Ok ([], [user_message s])
  | PList l => let! st := input_items no_input l in Ok (system_parts st, messages st)
  | _ => let! content := _openai_responses_content_to_text value in Ok ([], [user_message content])
  end.
End Text.

Section Answers.
Context `{PyText}.

Definition empty_schema : pyval := PDict [("type", PStr "object"); ("properties", PDict [])].

Definition chat_tool (raw : dict) : option pyval :=
  if is_text (pget raw "type") "function" then
    let f := match pget raw "function" with PDict f => f | _ => raw end in
    Some (PDict [("type", PStr "function");
                 ("function", PDict ([("name", PStr (text_or f ["name"] "tool"));
                                      ("description", PStr (text_or f ["description"] ""));
                                      ("parameters", por (pget f "parameters") empty_schema)]
                                     ++ if phas f "strict" then [("strict", pget f "strict")] else []))])
  else None.

Definition _openai_responses_tools_to_chat_tools (value : pyval) : list pyval :=
  match value with
  | PList l => omap (fun tool => match tool with PDict d => chat_tool d | _ => None end) l
  | _ => []
  end.

Definition named_function (name : pyval) : pyval :=
  PDict [("type", PStr "function"); ("function", PDict [("name", PStr (py_str name))])].

Definition _openai_responses_tool_choice_to_chat (value : pyval) : pyval :=
  match value with
  | PStr s => PStr s
  | PDict d =>
      if is_text (pget d "type") "function" then
        let f := match pget d "function" with PDict f => f | _ => d end in
        if py_truth (pget f "name") then named_function (pget f "name") else PNone
      else PNone
  | _ => PNone
  end.

(** The entries of [payload] that are handed on, under the names they get. *)
Definition copied (payload : dict) (names : list (string * string)) : dict :=
  omap (fun st => if phas payload (fst st) then Some (snd st, pget payload (fst st)) else None) names.

(** A system message is put before the others. *)
Definition with_system (parts : list string) (l : list dict) : list dict :=
  match parts with
  | [] => l
  | _ => [("role", PStr "system"); ("content", PStr (join (lf +:+ lf) parts))] :: l
  end.

Definition tool_fields (tools : list pyval) (choice : pyval) : dict :=
  match tools with [] => [] | _ => [("tools", PList tools)] end
  ++ if is_pnone choice then [] else [("tool_choice", choice)].

Definition _openai_responses_to_chat_completion (payload : dict) : result dict :=
  let! instructions := _openai_responses_content_to_text (pget payload "instructions") in
  let! input := _openai_responses_input_to_chat_messages (pget payload "input") in
  let parts := (if String.eqb instructions "" then [] else [instructions]) ++ fst input in
  Ok ([("model", por (pget payload "model") (PStr "proxy-model"));
       ("messages", PList (map PDict (with_system parts (snd input))));
       ("stream", PBool (py_truth (dget_def (PBool false) payload "stream")))]
      ++ copied payload [("max_output_tokens", "max_tokens"); ("temperature", "temperature");
                         ("top_p", "top_p"); ("parallel_tool_calls", "parallel_tool_calls")]
      ++ tool_fields (_openai_responses_tools_to_chat_tools (pget payload "tools"))
                     (_openai_responses_tool_choice_to_chat (pget payload "tool_choice"))).

(** ** Answers in the responses API *)

Definition _openai_response_message_item (text status item_id : string) : pyval :=
  PDict [("id", PStr item_id); ("type", PStr "message"); ("status", PStr status); ("role", PStr "assistant");
         ("content", PList [PDict [("type", PStr "output_text"); ("text", PStr text)]])].

Definition _openai_response_reasoning_item (text item_id : string) : pyval :=
  PDict [("id", PStr item_id); ("type", PStr "reasoning");
         ("summary", PList [PDict [("type", PStr "summary_text"); ("text", PStr text)]])].

Definition _openai_response_function_call_item (call_id name arguments : string) : pyval :=
  PDict [("type", PStr "function_call"); ("id", PStr ("fc_" +:+ call_id)); ("call_id", PStr call_id);
         ("name", PStr name); ("arguments", PStr arguments); ("status", PStr "completed")].

(** One tool call and its index in the list. *)
Definition response_call (index : nat) (tool_call : pyval) : option pyval :=
  match tool_call with
  | PDict d =>
      let f := dict_at d "function" in
      Some (_openai_response_function_call_item
              (text_or d ["id"] ("call_proxy_" +:+ str_of_Z (Z.of_nat index)))
              (text_or f ["name"] "tool") (arguments_text (pget f "arguments")))
  | _ => None
  end.

Definition _openai_tool_calls_to_response_items (value : pyval) : list pyval :=
  match value with
  | PList l => omap (fun ic => response_call (fst ic) (snd ic)) (zip (seq 0 (length l)) l)
  | _ => []
  end.

(** [int(d.get(k1, d.get(k2, 0)) or 0)] *)
Definition count_of (d : dict) (k1 k2 : string) : result Z :=
  py_int (por (dget_def (dget_def (PInt 0) d k2) d k1) (PInt 0)).

Definition _openai_usage_to_response_usage (value : pyval) : result (Z * Z * Z) :=
  match value with
  | PDict d =>
      let! i := count_of d "prompt_tokens" "input_tokens" in
      let! o := count_of d "completion_tokens" "output_tokens" in
      let! t := py_int (por (dget_def (PInt (i + o)) d "total_tokens") (PInt 0)) in
      Ok (i, o, if (t <=? 0)%Z then (i + o)%Z else t)
  | _ => Ok (0, 0, 0)%Z
  end.

Definition usage_value (u : Z * Z * Z) : pyval :=
  let '(i, o, t) := u in
  PDict [("input_tokens", PInt i); ("output_tokens", PInt o); ("total_tokens", PInt t)].

Definition _first_openai_choice (payload : dict) : dict :=
  match pget payload "choices" with PList (PDict c :: _) => c | _ => [] end.

(** What an answer holds: its reasoning, its text unless there are only tool calls, and the
    tool calls. *)
Definition response_output (reasoning text : string) (reasoning_id text_id : string) (calls : list pyval)
    : list pyval :=
  (if String.eqb reasoning "" then [] else [_openai_response_reasoning_item reasoning reasoning_id])
  ++ (if negb (String.eqb text "") || match calls with [] => true | _ => false end
      then [_openai_response_message_item text "completed" text_id] else [])
  ++ calls.

Definition _chat_completion_to_openai_response (payload original_request : dict) : result dict :=
  let message := dict_at (_first_openai_choice payload) "message" in
  let! reasoning := _openai_chat_message_reasoning_to_text message in
  let! text := _openai_responses_content_to_text (pget message "content") in
  let calls := _openai_tool_calls_to_response_items (pget message "tool_calls") in
  let! usage := _openai_usage_to_response_usage (pget payload "usage") in
  Ok [("id", PStr (text_or payload ["id"] "resp_proxy")); ("object", PStr "response");
      ("status", PStr "completed");
      ("model", PStr (py_str (por (pget payload "model") (por (pget original_request "model") (PStr "proxy-model")))));
      ("output", PList (response_output reasoning text "rs_proxy" "msg_proxy" calls));
      ("usage", usage_value usage)].

(** ** The messages API *)

Definition anthropic_part_text (item : pyval) : list string :=
  match item with
  | PStr s => [s]
  | PDict d => if negb (is_pnone (pget d "text")) then [py_str (pget d "text")] else [json_text item]
  | _ => []
  end.

Definition _anthropic_content_to_text (value : pyval) : string :=
  match value with
  | PNone => ""
  | PStr s => s
  | PList l => join_lines (concat (map anthropic_part_text l))
  | _ => json_text value
  end.

(** The text, reasoning and tool calls of the blocks of an assistant's message. *)
Definition assistant_parts : Type := list string * list string * list pyval.

Definition assistant_block (acc : assistant_parts) (block : pyval) : result assistant_parts :=
  let '(text, reasoning, calls) := acc in
  match block with
  | PDict d =>
      let t := pget d "type" in
      if is_text t "text" && negb (is_pnone (pget d "text"))
      then Ok (text ++ [py_str (pget d "text")], reasoning, calls)
      else
        let! think := in_set t ["thinking"; "redacted_thinking"] in
        if think then
          let v := por (pget d "thinking") (por (pget d "text") (pget d "data")) in
          Ok (text, if is_pnone v then reasoning else reasoning ++ [py_str v], calls)
        else if is_text t "tool_use" then
          Ok (text, reasoning,
              calls ++ [PDict [("id", PStr (text_or d ["id"] "toolu_proxy")); ("type", PStr "function");
                               ("function", PDict [("name", PStr (text_or d ["name"] "tool"));
                                                   ("arguments", PStr (arguments_text (pget d "input")))])]])
        else Ok acc
  | _ => Ok acc
  end.

Fixpoint assistant_blocks (acc : assistant_parts) (l : list pyval) : result assistant_parts :=
  match l with
  | [] => Ok acc
  | b :: l => let! acc := assistant_block acc b in assistant_blocks acc l
  end.

Definition assistant_message (parts : assistant_parts) : dict :=
  let '(text, reasoning, calls) := parts in
  [("role", PStr "assistant"); ("content", match text with [] => PNone | _ => PStr (join lf text) end)]
  ++ match reasoning with [] => [] | _ => [("reasoning_content", PStr (join lf reasoning))] end
  ++ match calls with [] => [] | _ => [("tool_calls", PList calls)] end.

(** Text is held back until a tool result or the end. *)
Definition user_block (acc : list dict * list string) (block : pyval) : list dict * list string :=
  let '(l, pending) := acc in
  match block with
  | PDict d =>
      if is_text (pget d "type") "text" && negb (is_pnone (pget d "text"))
      then (l, pending ++ [py_str (pget d "text")])
      else if is_text (pget d "type") "tool_result" then
        ((match pending with [] => l | _ => l ++ [user_message (join lf pending)] end)
         ++ [[("role", PStr "tool"); ("tool_call_id", PStr (text_or d ["tool_use_id"; "id"] "toolu_proxy"));
              ("content", PStr (_anthropic_content_to_text (pget d "content")))]], [])
      else (l, pending ++ [json_text block])
  | _ => (l, pending ++ [py_str block])
  end.

Definition _anthropic_message_to_openai_messages (message : dict) : result (list dict) :=
  let role := text_or message ["role"] "user" in
  match pget message "content" with
  | PStr s => Ok [[("role", PStr role); ("content", PStr s)]]
  | PList content =>
      if String.eqb role "assistant"
      then let! parts := assistant_blocks ([], [], []) content in Ok [assistant_message parts]
      else
        let '(l, pending) := foldl user_block ([], []) content in
        Ok (match pending, l with
            | [], _ :: _ => l
            | _, _ => l ++ [user_message (join lf pending)]
            end)
  | content => Ok [[("role", PStr role); ("content", PStr (_anthropic_content_to_text content))]]
  end.

Definition _anthropic_tools_to_openai_tools (value : pyval) : list pyval :=
  match value with
  | PList l =>
      omap (fun tool => match tool with
        | PDict d => Some (PDict [("type", PStr "function");
            ("function", PDict [("name", PStr (text_or d ["name"] "tool"));
                                ("description", PStr (text_or d ["description"] ""));
                                ("parameters", por (pget d "input_schema") empty_schema)])])
        | _ => None
        end) l
  | _ => []
  end.

Definition _anthropic_tool_choice_to_openai (value : pyval) : result pyval :=
  match value with
  | PStr s => Ok (if String.eqb s "any" then PStr "required"
                  else if bool_decide (s ∈ ["auto"; "none"; "required"]) then PStr s else PNone)
  | PDict d =>
      let t := pget d "type" in
      if is_text t "any" then Ok (PStr "required")
      else
        let! known := in_set t ["auto"; "none"] in
        Ok (if known then t
            else if is_text t "tool" && py_truth (pget d "name") then named_function (pget d "name") else PNone)
  | _ => Ok PNone
  end.

(** The messages of a request: the system texts, and the others translated. *)
Fixpoint anthropic_messages (l : list pyval) : result (list string * list dict) :=
  match l with
  | [] => Ok ([], [])
  | PDict m :: l =>
      if String.eqb (lower (text_or m ["role"] "")) "system" then
        let text := _anthropic_content_to_text (pget m "content") in
        let! r := anthropic_messages l in
        Ok ((if String.eqb text "" then [] else [text]) ++ fst r, snd r)
      else
        let! ms := _anthropic_message_to_openai_messages m in
        let! r := anthropic_messages l in
        Ok (fst r, ms ++ snd r)
  | _ :: l => anthropic_messages l
  end.

Definition _anthropic_messages_to_openai_chat_completion (payload : dict) : result dict :=
  let system := _anthropic_content_to_text (pget payload "system") in
  let! items := py_list (por (pget payload "messages") (PList [])) in
  let! r := anthropic_messages items in
  let parts := (if String.eqb system "" then [] else [system]) ++ fst r in
  let! choice := _anthropic_tool_choice_to_openai (pget payload "tool_choice") in
  Ok ([("model", por (pget payload "model") (PStr "proxy-model"));
       ("messages", PList (map PDict (with_system parts (snd r))));
       ("stream", PBool (py_truth (dget_def (PBool false) payload "stream")))]
      ++ copied payload [("max_tokens", "max_tokens"); ("temperature", "temperature"); ("top_p", "top_p");
                         ("metadata", "metadata"); ("thinking", "thinking"); ("stop_sequences", "stop")]
      ++ tool_fields (_anthropic_tools_to_openai_tools (pget payload "tools")) choice).

(** ** Answers in the messages API *)

Definition tool_use_block (tool_call : pyval) : option pyval :=
  match tool_call with
  | PDict d =>
      let f := dict_at d "function" in
      let parsed := match pget f "arguments" with
                    | PStr s => match json_loads s with
                                | Some v => v
                                | None => PDict [("arguments", PStr s)]
                                end
                    | v => v
                    end in
      Some (PDict [("type", PStr "tool_use"); ("id", PStr (text_or d ["id"] "toolu_proxy"));
                   ("name", PStr (text_or f ["name"] "tool"));
                   ("input", match parsed with PDict x => PDict x | _ => PDict [] end)])
  | _ => None
  end.

(** An answer has at least one block. *)
Definition or_empty_text (content : list pyval) : list pyval :=
  match content with
  | [] => [PDict [("type", PStr "text"); ("text", PStr "")]]
  | _ => content
  end.

Definition _openai_message_to_anthropic_content (message : dict) : list pyval :=
  let reasoning := por (pget message "reasoning_content") (pget message "reasoning") in
  let text := pget message "content" in
  or_empty_text
    ((if py_truth reasoning then [PDict [("type", PStr "thinking"); ("thinking", PStr (py_str reasoning))]] else [])
    ++ (if py_truth text then [PDict [("type", PStr "text"); ("text", PStr (py_str text))]] else [])
    ++ match pget message "tool_calls" with PList l => omap tool_use_block l | _ => [] end).

Definition _openai_usage_to_anthropic_usage (value : pyval) : result (Z * Z) :=
  match value with
  | PDict d =>
      let! i := count_of d "prompt_tokens" "input_tokens" in
      let! o := count_of d "completion_tokens" "output_tokens" in
      Ok (i, o)
  | _ => Ok (0, 0)%Z
  end.

Definition _openai_finish_reason_to_anthropic (value : pyval) : result string :=
  let! missing := match value with PNone => Ok true | _ => in_set value [""] end in
  if missing then Ok "end_turn"
  else
    let normalized := py_str value in
    Ok (if String.eqb normalized "stop" then "end_turn"
        else if String.eqb normalized "length" then "max_tokens"
        else if String.eqb normalized "tool_calls" then "tool_use"
        else normalized).

Definition _openai_chat_completion_to_anthropic_message (payload : dict) : result dict :=
  let choice := _first_openai_choice payload in
  let message := dict_at choice "message" in
  let! usage := _openai_usage_to_anthropic_usage (pget payload "usage") in
  let! stop := _openai_finish_reason_to_anthropic (pget choice "finish_reason") in
  Ok [("id", PStr (text_or payload ["id"] "msg_proxy")); ("type", PStr "message"); ("role", PStr "assistant");
      ("model", PStr (text_or payload ["model"] "proxy-model"));
      ("content", PList (_openai_message_to_anthropic_content message));
      ("stop_reason", PStr stop); ("stop_sequence", PNone);
      ("usage", PDict [("input_tokens", PInt (fst usage)); ("output_tokens", PInt (snd usage))])].
End Answers.
