(* ===== verification/LlmStream.v ===== *)
(** * Streamed answers ([blackbox_server/proxy/rollout_llm_proxy.py])

    The proxy reads the server-sent events of a chat completion and writes those of the API the
    agent speaks.  [_iter_openai_sse_payloads] cuts the bytes into events, decodes each (invalid
    UTF-8 becomes U+FFFD, as in CPython) and collects its data lines; a generator is modelled by
    what it yields and how it ends ([gen]). *)

From Stdlib Require Import Ascii SpecFloat.
From S2P Require Import Prelude.
From S2P Require Import PyFloat.
From S2P Require Import PyVal.
From S2P Require Import Json.
From S2P Require Import LlmConvert.

Local Open Scope string_scope.
Local Open Scope list_scope.
Local Open Scope py_scope.

(** ** Bytes and text *)

Definition byte (n : N) : ascii := ascii_of_N n.
Definition in_range (c : ascii) (r : N * N) : bool :=
  let n := N_of_ascii c in ((fst r <=? n) && (n <=? snd r))%N.

Definition fffd : string := String (byte 239) (String (byte 191) (String (byte 189) "")).

Definition cont : N * N := (128, 191)%N.

(** The ranges of the bytes that may follow a byte that starts a character; [None]: no
    character starts with it. *)
Definition followers (c : ascii) : option (list (N * N)) :=
  if in_range c (0, 127)%N then Some []
  else if in_range c (194, 223)%N then Some [cont]
  else if in_range c (224, 224)%N then Some [(160, 191)%N; cont]
  else if in_range c (237, 237)%N then Some [(128, 159)%N; cont]
  else if in_range c (225, 239)%N then Some [cont; cont]
  else if in_range c (240, 240)%N then Some [(144, 191)%N; cont; cont]
  else if in_range c (241, 243)%N then Some [cont; cont; cont]
  else if in_range c (244, 244)%N then Some [(128, 143)%N; cont; cont]
  else None.

(** [bytes.decode("utf-8", errors="replace")]: [pend] is the part of a character read so far and
    [need] what must follow; a part that does not go on is replaced as a whole. *)
Fixpoint decode_from (pend : string) (need : list (N * N)) (s : string) : string :=
  match s with
  | EmptyString => match need with [] => "" | _ => fffd end
  | String c s' =>
      let lead (bad : string) :=
        match followers c with
        | None => bad +:+ fffd +:+ decode_from "" [] s'
        | Some [] => bad +:+ String c (decode_from "" [] s')
        | Some rs => bad +:+ decode_from (String c "") rs s'
        end in
      match need with
      | [] => lead ""
      | r :: rs =>
          if in_range c r
          then match rs with
               | [] => pend +:+ String c (decode_from "" [] s')
               | _ => decode_from (pend +:+ String c "") rs s'
               end
          else lead fffd
      end
  end.

Definition decode_replace (s : string) : string := decode_from "" [] s.

(** [str.splitlines], the separators of Unicode included: [cur] is the line so far. *)
Definition line_end (c : ascii) : bool := in_range c (10, 13)%N || in_range c (28, 30)%N.

Fixpoint lines_from (cur s : string) : list string :=
  match s with
  | EmptyString => if String.eqb cur "" then [] else [cur]
  | String c s' =>
      let go := lines_from (cur +:+ String c "") s' in
      match s' with
      | String c1 s1 =>
          if bool_decide (c = byte 13) && bool_decide (c1 = byte 10) then cur :: lines_from "" s1
          else if bool_decide (c = byte 194) && bool_decide (c1 = byte 133) then cur :: lines_from "" s1
          else match s1 with
               | String c2 s2 =>
                   if bool_decide (c = byte 226) && bool_decide (c1 = byte 128) && in_range c2 (168, 169)%N
                   then cur :: lines_from "" s2
                   else if line_end c then cur :: lines_from "" s' else go
               | EmptyString => if line_end c then cur :: lines_from "" s' else go
               end
      | EmptyString => if line_end c then cur :: lines_from "" s' else go
      end
  end.

Definition splitlines (s : string) : list string := lines_from "" s.

(** ** Server-sent events *)

Definition lf_char : ascii := byte 10.

(** The events that end before an empty line, and what is left; [cur] is the event so far. *)
Fixpoint split_frames (cur s : string) : list string * string :=
  match s with
  | EmptyString => ([], cur)
  | String c s' =>
      match s' with
      | String c1 s1 =>
          if bool_decide (c = lf_char) && bool_decide (c1 = lf_char)
          then let '(l, rest) := split_frames "" s1 in (cur :: l, rest)
          else split_frames (cur +:+ String c "") s'
      | EmptyString => ([], cur +:+ String c "")
      end
  end.

(** [str.strip] on UTF-8: the white space of Unicode is removed at both ends. *)
Definition space2 (c c1 : ascii) : bool :=
  bool_decide (c = byte 194) && (bool_decide (c1 = byte 133) || bool_decide (c1 = byte 160)).
Definition space3 (c c1 c2 : ascii) : bool :=
  (bool_decide (c = byte 225) && bool_decide (c1 = byte 154) && bool_decide (c2 = byte 128))
  || (bool_decide (c = byte 226) && bool_decide (c1 = byte 128)
      && (in_range c2 (128, 138)%N || in_range c2 (168, 169)%N || bool_decide (c2 = byte 175)))
  || (bool_decide (c = byte 226) && bool_decide (c1 = byte 129) && bool_decide (c2 = byte 159))
  || (bool_decide (c = byte 227) && bool_decide (c1 = byte 128) && bool_decide (c2 = byte 128)).

Fixpoint drop_spaces (s : string) : string :=
  match s with
  | EmptyString => ""
  | String c s1 =>
      if py_space c then drop_spaces s1
      else match s1 with
           | String c1 s2 =>
               if space2 c c1 then drop_spaces s2
               else match s2 with
                    | String c2 s3 => if space3 c c1 c2 then drop_spaces s3 else s
                    | EmptyString => s
                    end
           | EmptyString => s
           end
  end.

Fixpoint drop_end_spaces (s : string) : string :=
  if String.eqb (drop_spaces s) "" then ""
  else match s with String c s => String c (drop_end_spaces s) | EmptyString => "" end.

Definition strip_text (s : string) : string := drop_end_spaces (drop_spaces s).

Definition data_line (line : string) : option string :=
  if starts "data:" line then Some (strip_text (drop_str 5 line)) else None.

Definition _payloads_from_sse_event (raw_event : string) : list string :=
  match omap data_line (splitlines raw_event) with
  | [] => []
  | l => [join lf l]
  end.

Definition frame_payloads (frames : list string) : list string :=
  concat (map (fun f => _payloads_from_sse_event (decode_replace f)) frames).

(** What is read from a chunk after [buffer] was left over. *)
Fixpoint read_chunks (buffer : string) (chunks : list string) : list string :=
  match chunks with
  | [] => if String.eqb (strip buffer) "" then [] else _payloads_from_sse_event (decode_replace buffer)
  | c :: chunks =>
      let '(frames, rest) := split_frames "" (buffer +:+ c) in
      frame_payloads frames ++ read_chunks rest chunks
  end.

Definition _iter_openai_sse_payloads (first_bytes : string) (chunks : list string) : list string :=
  read_chunks "" (first_bytes :: chunks).

Record sse : Type := { ev_name : string; ev_data : pyval }.

Definition sse_bytes `{PyText} (e : sse) : string :=
  "event: " +:+ ev_name e +:+ lf +:+ "data: " +:+ json_text (ev_data e) +:+ lf +:+ lf.

Definition event (name : string) (fields : dict) : sse :=
  {| ev_name := name; ev_data := PDict (("type", PStr name) :: fields) |}.

(** ** Generators: what was yielded, and the result *)

Definition gen (A : Type) : Type := list sse * result A.

Definition ret {A} (a : A) : gen A := ([], Ok a).
Definition yield (e : sse) : gen unit := ([e], Ok tt).
Definition lift {A} (r : result A) : gen A := ([], r).
Definition gbind {A B} (m : gen A) (k : A -> gen B) : gen B :=
  match m with
  | (es, Ok a) => let '(es', r) := k a in (es ++ es', r)
  | (es, Raise e) => (es, Raise e)
  end.

Notation "'do!' x ':=' m 'in' k" := (gbind m (fun x => k))
  (at level 10, x name, m at level 100, k at level 200, right associativity) : py_scope.

(** ** Events of the messages API *)

Record _AnthropicStreamState : Type := {
  model : string;
  _active_block_type : option string;
  _active_block_index : option nat;
  _next_index : nat;
  _finished : bool;
  _tool_call_blocks : list (Z * nat) }.

Definition AnthropicStreamState__init__ : _AnthropicStreamState := {|
  model := "proxy-model"; _active_block_type := None; _active_block_index := None; _next_index := 0;
  _finished := false; _tool_call_blocks := [] |}.

Definition no_usage : pyval := PDict [("input_tokens", PInt 0); ("output_tokens", PInt 0)].

Definition message_start (model : string) : sse :=
  event "message_start" [("message", PDict [
    ("id", PStr "msg_proxy_stream"); ("type", PStr "message"); ("role", PStr "assistant"); ("model", PStr model);
    ("content", PList []); ("stop_reason", PNone); ("stop_sequence", PNone); ("usage", no_usage)])].

Definition block_start (index : nat) (block : dict) : sse :=
  event "content_block_start" [("index", PInt (Z.of_nat index)); ("content_block", PDict block)].
Definition block_delta (index : nat) (delta : dict) : sse :=
  event "content_block_delta" [("index", PInt (Z.of_nat index)); ("delta", PDict delta)].
Definition block_stop (index : nat) : sse := event "content_block_stop" [("index", PInt (Z.of_nat index))].

Definition _stop_active_block (st : _AnthropicStreamState) : gen _AnthropicStreamState :=
  match _active_block_index st with
  | None => ret st
  | Some i => ([block_stop i],
               Ok {| model := model st; _active_block_type := None; _active_block_index := None;
                     _next_index := _next_index st; _finished := _finished st;
                     _tool_call_blocks := _tool_call_blocks st |})
  end.

(** A block of the given type gets the next index and is active. *)
Definition open_block (block_type : string) (st : _AnthropicStreamState) : _AnthropicStreamState := {|
  model := model st; _active_block_type := Some block_type; _active_block_index := Some (_next_index st);
  _next_index := S (_next_index st); _finished := _finished st; _tool_call_blocks := _tool_call_blocks st |}.

Definition note_tool_call (tool_index : Z) (index : nat) (st : _AnthropicStreamState) : _AnthropicStreamState := {|
  model := model st; _active_block_type := _active_block_type st; _active_block_index := _active_block_index st;
  _next_index := _next_index st; _finished := _finished st;
  _tool_call_blocks := (tool_index, index) :: _tool_call_blocks st |}.

Definition set_model (m : string) (st : _AnthropicStreamState) : _AnthropicStreamState := {|
  model := m; _active_block_type := _active_block_type st; _active_block_index := _active_block_index st;
  _next_index := _next_index st; _finished := _finished st; _tool_call_blocks := _tool_call_blocks st |}.

Definition set_finished (st : _AnthropicStreamState) : _AnthropicStreamState := {|
  model := model st; _active_block_type := _active_block_type st; _active_block_index := _active_block_index st;
  _next_index := _next_index st; _finished := true; _tool_call_blocks := _tool_call_blocks st |}.

Definition emit_text_like_block (block_type text delta_type delta_key : string) (st : _AnthropicStreamState)
    : gen _AnthropicStreamState :=
  do! st := (if bool_decide (_active_block_type st = Some block_type) then ret st
             else
               do! st := _stop_active_block st in
               let key := if String.eqb block_type "text" then "text" else "thinking" in
               ([block_start (_next_index st) [("type", PStr block_type); (key, PStr "")]],
                Ok (open_block block_type st))) in
  match _active_block_index st with
  | None => lift (Raise (AssertionError ""))
  | Some i => ([block_delta i [("type", PStr delta_type); (delta_key, PStr text)]], Ok st)
  end.

Definition tool_block (st : _AnthropicStreamState) (tool_index : Z) : option nat :=
  snd <$> List.find (fun kv => (fst kv =? tool_index)%Z) (_tool_call_blocks st).

Section Streams.
Context `{PyText}.

Definition emit_tool_call_delta (tool_call : dict) (st : _AnthropicStreamState) : gen _AnthropicStreamState :=
  do! tool_index := lift (py_int (por (dget_def (PInt 0) tool_call "index") (PInt 0))) in
  let f := dict_at tool_call "function" in
  do! sti := (match tool_block st tool_index with
              | Some i => ret (st, i)
              | None =>
                  do! st := _stop_active_block st in
                  let i := _next_index st in
                  ([block_start i [("type", PStr "tool_use");
                                   ("id", PStr (text_or tool_call ["id"] ("toolu_" +:+ str_of_Z tool_index)));
                                   ("name", PStr (text_or f ["name"] "tool")); ("input", PDict [])]],
                   Ok (note_tool_call tool_index i (open_block ("tool_use:" +:+ str_of_Z tool_index) st), i))
              end) in
  let '(st, i) := sti in
  if py_truth (pget f "arguments")
  then ([block_delta i [("type", PStr "input_json_delta"); ("partial_json", PStr (py_str (pget f "arguments")))]],
        Ok st)
  else ret st.

Fixpoint emit_tool_calls (l : list pyval) (st : _AnthropicStreamState) : gen _AnthropicStreamState :=
  match l with
  | [] => ret st
  | PDict d :: l => do! st := emit_tool_call_delta d st in emit_tool_calls l st
  | _ :: l => emit_tool_calls l st
  end.

Definition finish (stop_reason : string) (output_tokens : Z) (st : _AnthropicStreamState)
    : gen _AnthropicStreamState :=
  if _finished st then ret st
  else
    do! st := _stop_active_block st in
    ([event "message_delta" [("delta", PDict [("stop_reason", PStr stop_reason); ("stop_sequence", PNone)]);
                             ("usage", PDict [("output_tokens", PInt output_tokens)])];
      event "message_stop" []], Ok (set_finished st)).

(** The parts of a delta. *)
Definition delta_reasoning (delta : dict) : pyval := por (pget delta "reasoning_content") (pget delta "reasoning").

(** One chunk that is a dictionary; [inr] when the answer is complete. *)
Definition anthropic_chunk (chunk : dict) (st : _AnthropicStreamState)
    : gen (_AnthropicStreamState + _AnthropicStreamState) :=
  let st := if py_truth (pget chunk "model") then set_model (py_str (pget chunk "model")) st else st in
  do! usage := lift (_openai_usage_to_anthropic_usage (pget chunk "usage")) in
  let choice := _first_openai_choice chunk in
  let delta := dict_at choice "delta" in
  do! st := (if py_truth (delta_reasoning delta)
             then emit_text_like_block "thinking" (py_str (delta_reasoning delta)) "thinking_delta" "thinking" st
             else ret st) in
  do! st := (if py_truth (pget delta "content")
             then emit_text_like_block "text" (py_str (pget delta "content")) "text_delta" "text" st
             else ret st) in
  do! st := (match pget delta "tool_calls" with PList l => emit_tool_calls l st | _ => ret st end) in
  if is_pnone (pget choice "finish_reason") then ret (inl st)
  else
    do! stop := lift (_openai_finish_reason_to_anthropic (pget choice "finish_reason")) in
    do! st := finish stop (snd usage) st in
    ret (inr st).

Fixpoint anthropic_chunks (payloads : list string) (st : _AnthropicStreamState) : gen _AnthropicStreamState :=
  match payloads with
  | [] => finish "end_turn" 0 st
  | p :: payloads =>
      if String.eqb p "[DONE]" then finish "end_turn" 0 st
      else match json_loads p with
           | Some (PDict chunk) =>
               do! r := anthropic_chunk chunk st in
               match r with
               | inl st => anthropic_chunks payloads st
               | inr st => ret st
               end
           | _ => anthropic_chunks payloads st
           end
  end.

Definition _iter_anthropic_events_from_openai_stream (first_bytes : string) (chunks : list string) : gen unit :=
  do! _ := yield (message_start "proxy-model") in
  do! _ := anthropic_chunks (_iter_openai_sse_payloads first_bytes chunks) AnthropicStreamState__init__ in
  ret tt.
End Streams.

(** ** Events of the responses API *)

Definition _openai_response_payload (response_id model text : string) (usage : pyval) (status item_id : string)
    (include_output : bool) (output : option (list pyval)) : pyval :=
  PDict [("id", PStr response_id); ("object", PStr "response"); ("status", PStr status); ("model", PStr model);
         ("output", PList (match output with
                           | Some l => l
                           | None => if include_output then [_openai_response_message_item text status item_id]
                                     else []
                           end));
         ("usage", usage)].

(** The fields of a tool call that the deltas have filled in. *)
Record call_state : Type := {
  cs_id : option string;
  cs_type : option string;
  cs_name : option string;
  arguments_parts : list string }.

Definition no_call : call_state := {| cs_id := None; cs_type := None; cs_name := None; arguments_parts := [] |}.

Fixpoint zget (d : list (Z * call_state)) (k : Z) : option call_state :=
  match d with
  | [] => None
  | (k', v) :: d => if (k' =? k)%Z then Some v else zget d k
  end.

(** [d[k] = v]: a new key comes last. *)
Fixpoint zset (d : list (Z * call_state)) (k : Z) (v : call_state) : list (Z * call_state) :=
  match d with
  | [] => [(k, v)]
  | (k', v') :: d => if (k' =? k)%Z then (k, v) :: d else (k', v') :: zset d k v
  end.

Section ResponseStream.
Context `{PyText}.

(** [int(raw_index)], or 0 where it raises [TypeError] or [ValueError]; an infinity raises
    [OverflowError], which is not caught. *)
Definition call_index (raw : pyval) : result Z :=
  match raw with
  | PFloat (S754_infinity _) => Raise (RuntimeError "cannot convert float infinity to integer")
  | _ => match py_int raw with Ok i => Ok i | Raise _ => Ok 0%Z end
  end.

Definition keep_text (v : pyval) (old : option string) : option string :=
  if py_truth v then Some (py_str v) else old.

Definition _accumulate_openai_stream_tool_call_delta (tool_call : pyval) (deltas : list (Z * call_state))
    : result (list (Z * call_state)) :=
  match tool_call with
  | PDict d =>
      let! index := call_index (pget d "index") in
      let st := default no_call (zget deltas index) in
      let f := dict_at d "function" in
      Ok (zset deltas index {|
            cs_id := keep_text (pget d "id") (cs_id st);
            cs_type := keep_text (pget d "type") (cs_type st);
            cs_name := keep_text (pget f "name") (cs_name st);
            arguments_parts := arguments_parts st
              ++ if is_pnone (pget f "arguments") then [] else [arguments_text (pget f "arguments")] |})
  | _ => Ok deltas
  end.

Fixpoint accumulate_calls (l : list pyval) (deltas : list (Z * call_state)) : result (list (Z * call_state)) :=
  match l with
  | [] => Ok deltas
  | c :: l => let! deltas := _accumulate_openai_stream_tool_call_delta c deltas in accumulate_calls l deltas
  end.

(** The item of a tool call and the pieces its arguments came in. *)
Record call_record : Type := { item : dict; argument_deltas : list string }.

Definition filled (o : option string) : bool := match o with None | Some "" => false | _ => true end.
Definition or_text (o : option string) (d : string) : string := match o with None | Some "" => d | Some s => s end.

Definition call_item (call_id name arguments : string) : dict :=
  match _openai_response_function_call_item call_id name arguments with PDict d => d | _ => [] end.

Definition stream_record (kv : Z * call_state) : option call_record :=
  let '(index, st) := kv in
  if filled (cs_id st) || filled (cs_name st) || match arguments_parts st with [] => false | _ => true end
  then Some {| item := call_item (or_text (cs_id st) ("call_proxy_" +:+ str_of_Z index))
                                 (or_text (cs_name st) "tool") (join "" (arguments_parts st));
               argument_deltas := arguments_parts st |}
  else None.

Definition index_leb (a b : Z * call_state) : bool := (fst a <=? fst b)%Z.

Definition _openai_stream_tool_call_records (deltas : list (Z * call_state)) : list call_record :=
  omap stream_record (sort_by index_leb deltas).

Definition _openai_response_stream_reasoning_item_events (output_index : nat) (item : dict) : list sse :=
  let fields := [("item_id", PStr (py_str (pget item "id"))); ("output_index", PInt (Z.of_nat output_index));
                 ("item", PDict item)] in
  [event "response.output_item.added" fields; event "response.output_item.done" fields].

Definition _openai_response_stream_text_item_events (item_id : string) (output_index : nat) (text : string)
    : list sse :=
  let at_item fields := ("item_id", PStr item_id) :: ("output_index", PInt (Z.of_nat output_index))
                          :: ("content_index", PInt 0) :: fields in
  [event "response.output_item.added"
     [("output_index", PInt (Z.of_nat output_index));
      ("item", _openai_response_message_item "" "in_progress" item_id)];
   event "response.content_part.added" (at_item [("part", PDict [("type", PStr "output_text"); ("text", PStr "")])])]
  ++ (if String.eqb text "" then [] else [event "response.output_text.delta" (at_item [("delta", PStr text)])])
  ++ [event "response.output_text.done" (at_item [("text", PStr text)]);
      event "response.content_part.done"
        (at_item [("part", PDict [("type", PStr "output_text"); ("text", PStr text)])]);
      event "response.output_item.done"
        [("item_id", PStr item_id); ("output_index", PInt (Z.of_nat output_index));
         ("item", _openai_response_message_item text "completed" item_id)]].

Definition _openai_response_stream_function_call_item_events (response_id : string) (output_index : nat)
    (it : dict) (argument_deltas : list string) : list sse :=
  let item_id := py_str (pget it "id") in
  let at_output fields := ("response_id", PStr response_id) :: fields in
  let at_item fields := at_output (("item_id", PStr item_id) :: ("output_index", PInt (Z.of_nat output_index))
                                     :: fields) in
  let deltas := match argument_deltas with
                | [] => if py_truth (pget it "arguments") then [py_str (pget it "arguments")] else []
                | _ => argument_deltas
                end in
  [event "response.output_item.added"
     (at_output [("output_index", PInt (Z.of_nat output_index));
                 ("item", PDict (dset (dset it "status" (PStr "in_progress")) "arguments" (PStr "")))])]
  ++ map (fun d => event "response.function_call_arguments.delta" (at_item [("delta", PStr d)])) deltas
  ++ [event "response.function_call_arguments.done"
        (at_item [("arguments", PStr (text_or it ["arguments"] "")); ("item", PDict it)]);
      event "response.output_item.done" (at_item [("item", PDict it)])].

(** What is read from the stream. *)
Record response_state : Type := {
  rs_model : string;
  reasoning_parts : list string;
  text_parts : list string;
  tool_call_deltas : list (Z * call_state);
  rs_usage : option (Z * Z * Z) }.

Definition response_chunk (chunk : dict) (st : response_state) : result response_state :=
  let! usage := match pget chunk "usage" with
                | PDict d => let! u := _openai_usage_to_response_usage (PDict d) in Ok (Some u)
                | _ => Ok (rs_usage st)
                end in
  let delta := dict_at (_first_openai_choice chunk) "delta" in
  let! calls := match pget delta "tool_calls" with
                | PList l => accumulate_calls l (tool_call_deltas st)
                | _ => Ok (tool_call_deltas st)
                end in
  Ok {| rs_model := if py_truth (pget chunk "model") then py_str (pget chunk "model") else rs_model st;
        reasoning_parts := reasoning_parts st
          ++ if py_truth (delta_reasoning delta) then [py_str (delta_reasoning delta)] else [];
        text_parts := text_parts st ++ if py_truth (pget delta "content") then [py_str (pget delta "content")] else [];
        tool_call_deltas := calls;
        rs_usage := usage |}.

Fixpoint response_chunks (payloads : list string) (st : response_state) : result response_state :=
  match payloads with
  | [] => Ok st
  | p :: payloads =>
      if String.eqb p "[DONE]" then Ok st
      else match json_loads p with
           | Some (PDict chunk) => let! st := response_chunk chunk st in response_chunks payloads st
           | _ => response_chunks payloads st
           end
  end.

(** The reasoning item, the text item and the items of tool calls: the events of each, and the
    items themselves. *)
Definition reasoning_events (reasoning : string) (output : list pyval) : list sse * list pyval :=
  if String.eqb reasoning "" then ([], output)
  else let it := _openai_response_reasoning_item reasoning "rs_proxy_stream" in
       (_openai_response_stream_reasoning_item_events (length output) (match it with PDict d => d | _ => [] end),
        output ++ [it]).

Definition text_events (text : string) (no_calls : bool) (output : list pyval) : list sse * list pyval :=
  if negb (String.eqb text "") || no_calls
  then (_openai_response_stream_text_item_events "msg_proxy_stream" (length output) text,
        output ++ [_openai_response_message_item text "completed" "msg_proxy_stream"])
  else ([], output).

Fixpoint call_events (records : list call_record) (output : list pyval) : list sse * list pyval :=
  match records with
  | [] => ([], output)
  | r :: records =>
      let '(es, out) := call_events records (output ++ [PDict (item r)]) in
      (_openai_response_stream_function_call_item_events "resp_proxy_stream" (length output) (item r)
         (argument_deltas r) ++ es, out)
  end.

Definition response_tail (st : response_state) : list sse :=
  let reasoning := join "" (reasoning_parts st) in
  let text := join "" (text_parts st) in
  let records := _openai_stream_tool_call_records (tool_call_deltas st) in
  let '(e1, out1) := reasoning_events reasoning [] in
  let '(e2, out2) := text_events text (match records with [] => true | _ => false end) out1 in
  let '(e3, out3) := call_events records out2 in
  e1 ++ e2 ++ e3
  ++ [event "response.completed"
        [("response", _openai_response_payload "resp_proxy_stream" (rs_model st) text
                        (usage_value (default (0, 0, 0)%Z (rs_usage st))) "completed" "msg_proxy" true (Some out3))]].

Definition _iter_openai_response_events_from_chat_stream (first_bytes : string) (chunks : list string)
    (original_request : dict) : gen unit :=
  let model := text_or original_request ["model"] "proxy-model" in
  do! _ := yield (event "response.created"
                    [("response", _openai_response_payload "resp_proxy_stream" model "" PNone "in_progress"
                                    "msg_proxy" false None)]) in
  do! st := lift (response_chunks (_iter_openai_sse_payloads first_bytes chunks)
                    {| rs_model := model; reasoning_parts := []; text_parts := []; tool_call_deltas := [];
                       rs_usage := None |}) in
  (response_tail st, Ok tt).

Definition _openai_response_stream_events_for_text (response_id model text : string) (usage : Z * Z * Z)
    : list sse :=
  [event "response.created"
     [("response", _openai_response_payload response_id model "" PNone "in_progress" "msg_proxy_stream" false None)]]
  ++ _openai_response_stream_text_item_events "msg_proxy_stream" 0 text
  ++ [event "response.completed"
        [("response", _openai_response_payload response_id model text (usage_value usage) "completed"
                        "msg_proxy_stream" true None)]].
End ResponseStream.
