(* ===== verification/LlmTheorems.v ===== *)
(** * The translated answers

    The theorems about [LlmConvert] and [LlmStream]: how the bytes of a stream are cut into
    chunks does not matter ([sse_chunking]); the events written for an agent of the messages API
    are well formed and carry exactly what the chunks held ([anthropic_stream_content]); the
    items of a streamed answer of the responses API are those of its last event
    ([response_stream_items]); an answer that the agent sends back as part of its next request
    becomes the message it was made from ([response_round_trip], [anthropic_round_trip]). *)

From Stdlib Require Import Ascii.
From S2P Require Import Prelude.
From S2P Require Import PyFloat.
From S2P Require Import PyVal.
From S2P Require Import Json.
From S2P Require Import LlmConvert.
From S2P Require Import LlmStream.

Local Open Scope string_scope.
Local Open Scope list_scope.
Local Open Scope py_scope.

(** ** Chunks *)

Lemma split_frames_step cur c c1 s : split_frames cur (String c (String c1 s))
  = if bool_decide (c = lf_char) && bool_decide (c1 = lf_char)
    then let '(l, rest) := split_frames "" s in (cur :: l, rest)
    else split_frames (cur +:+ String c "") (String c1 s).
Proof. reflexivity. Qed.

Lemma split_frames_app n : forall a cur b, (String.length a <= n)%nat ->
  split_frames "" (cur +:+ (a +:+ b)) = split_frames cur (a +:+ b) ->
  split_frames cur (a +:+ b)
  = let '(l1, r1) := split_frames cur a in
    let '(l2, r2) := split_frames "" (r1 +:+ b) in (l1 ++ l2, r2).
Proof.
  induction n as [|n IH]; intros [|c a] cur b Hn H; simpl in Hn; try lia.
  1, 2: change ("" +:+ b) with b in *; cbn [split_frames]; rewrite H; by destruct (split_frames cur b).
  destruct a as [|c1 a].
  - rewrite <- H. change (split_frames cur (String c "")) with (@nil string, cur +:+ String c "").
    cbv iota beta. rewrite sapp_assoc. by destruct (split_frames "" _).
  - change (String c (String c1 a) +:+ b) with (String c (String c1 (a +:+ b))) in *.
    rewrite !split_frames_step in *. destruct (_ && _) eqn:E.
    + rewrite (IH a "" b); [| simpl in Hn; lia | reflexivity]. destruct (split_frames "" a) as [l1 r1].
      by destruct (split_frames "" (r1 +:+ b)).
    + assert (H' : split_frames "" ((cur +:+ String c "") +:+ (String c1 a +:+ b))
                   = split_frames (cur +:+ String c "") (String c1 a +:+ b)).
      { change (String c1 a +:+ b) with (String c1 (a +:+ b)). rewrite <- H, sapp_assoc. done. }
      apply (IH (String c1 a)); [simpl in *; lia | done].
Qed.

Lemma split_app a b :
  split_frames "" (a +:+ b)
  = let '(l1, r1) := split_frames "" a in
    let '(l2, r2) := split_frames "" (r1 +:+ b) in (l1 ++ l2, r2).
Proof. by apply (split_frames_app (String.length a)). Qed.

Lemma frame_payloads_app l l' : frame_payloads (l ++ l') = frame_payloads l ++ frame_payloads l'.
Proof. unfold frame_payloads. by rewrite map_app, concat_app. Qed.

Definition all_bytes (chunks : list string) : string := foldr String.append "" chunks.

Lemma read_chunks_step buffer c chunks : read_chunks buffer (c :: chunks)
  = let '(frames, rest) := split_frames "" (buffer +:+ c) in frame_payloads frames ++ read_chunks rest chunks.
Proof. reflexivity. Qed.

Lemma read_chunks_join chunks : forall buffer c,
  read_chunks buffer (c :: chunks) = read_chunks "" [buffer +:+ (c +:+ all_bytes chunks)].
Proof.
  induction chunks as [|c1 chunks IH]; intros buffer c.
  - unfold all_bytes. simpl. by rewrite sapp_nil.
  - change (all_bytes (c1 :: chunks)) with (c1 +:+ all_bytes chunks).
    rewrite <- sapp_assoc, !read_chunks_step. change ("" +:+ ?x) with x.
    rewrite (split_app (buffer +:+ c)). destruct (split_frames "" (buffer +:+ c)) as [l1 r1].
    rewrite IH, read_chunks_step. change ("" +:+ ?x) with x.
    destruct (split_frames "" (r1 +:+ (c1 +:+ all_bytes chunks))) as [l2 r2].
    by rewrite frame_payloads_app, <- app_assoc.
Qed.

(** C25: the payloads read from a stream depend on its bytes only, not on how they are cut into
    chunks: not when a chunk ends inside an event, inside the empty line between two events or
    inside a character. *)
Theorem sse_chunking (first_bytes : string) (chunks : list string) :
  _iter_openai_sse_payloads first_bytes chunks
  = _iter_openai_sse_payloads (first_bytes +:+ all_bytes chunks) [].
Proof. apply (read_chunks_join chunks ""). Qed.

(** ** What a client of the messages API makes of the events *)

Record client : Type := {
  started : bool;
  c_blocks : list (dict * string);      (* the block as it was started, and the text added to it *)
  c_open : option nat;
  c_stop : option string;
  c_ended : bool }.

Definition new_client : client := {|
  started := false; c_blocks := []; c_open := None; c_stop := None; c_ended := false |}.

(** The kinds of blocks, the type of their deltas and the key of the delta's text. *)
Definition delta_key (block_type : string) : option (string * string) :=
  if String.eqb block_type "text" then Some ("text_delta", "text")
  else if String.eqb block_type "thinking" then Some ("thinking_delta", "thinking")
  else if String.eqb block_type "tool_use" then Some ("input_json_delta", "partial_json")
  else None.

Definition delta_text (block delta : dict) : option string :=
  match pget block "type" with
  | PStr t =>
      '(ty, key) ← delta_key t;
      if is_text (pget delta "type") ty then match pget delta key with PStr s => Some s | _ => None end else None
  | _ => None
  end.

Definition index_of (d : dict) : option nat :=
  match pget d "index" with PInt i => if (0 <=? i)%Z then Some (Z.to_nat i) else None | _ => None end.

(** One event; [None] when it does not fit.  A strict client takes deltas for the open block
    only. *)
Definition client_event (strict : bool) (c : client) (e : sse) : option client :=
  match ev_data e with
  | PDict d =>
      let name := ev_name e in
      if negb (is_text (pget d "type") name) || c_ended c then None
      else if String.eqb name "message_start" then
        if started c then None
        else Some {| started := true; c_blocks := []; c_open := None; c_stop := None; c_ended := false |}
      else if negb (started c) then None
      else if String.eqb name "content_block_start" then
        i ← index_of d;
        if bool_decide (c_open c = None /\ c_stop c = None /\ i = length (c_blocks c))
        then Some {| started := true; c_blocks := c_blocks c ++ [(dict_at d "content_block", "")];
                     c_open := Some i; c_stop := None; c_ended := false |}
        else None
      else if String.eqb name "content_block_delta" then
        i ← index_of d;
        b ← c_blocks c !! i;
        s ← delta_text (fst b) (dict_at d "delta");
        if bool_decide (c_stop c = None) && (negb strict || bool_decide (c_open c = Some i))
        then Some {| started := true; c_blocks := alter (fun b => (fst b, snd b +:+ s)) i (c_blocks c);
                     c_open := c_open c; c_stop := None; c_ended := false |}
        else None
      else if String.eqb name "content_block_stop" then
        i ← index_of d;
        if bool_decide (c_open c = Some i)
        then Some {| started := true; c_blocks := c_blocks c; c_open := None; c_stop := c_stop c; c_ended := false |}
        else None
      else if String.eqb name "message_delta" then
        match pget (dict_at d "delta") "stop_reason" with
        | PStr s =>
            if bool_decide (c_open c = None /\ c_stop c = None)
            then Some {| started := true; c_blocks := c_blocks c; c_open := None; c_stop := Some s; c_ended := false |}
            else None
        | _ => None
        end
      else if String.eqb name "message_stop" then
        if bool_decide (c_stop c = None) then None
        else Some {| started := true; c_blocks := c_blocks c; c_open := c_open c; c_stop := c_stop c; c_ended := true |}
      else None
  | _ => None
  end.

Fixpoint client_run (strict : bool) (c : client) (es : list sse) : option client :=
  match es with
  | [] => Some c
  | e :: es => c ← client_event strict c e; client_run strict c es
  end.

Lemma client_run_app strict es : forall c es',
  client_run strict c (es ++ es') = (c' ← client_run strict c es; client_run strict c' es').
Proof.
  induction es as [|e es IH]; intros c es'; simpl; [done|].
  destruct (client_event strict c e); simpl; [apply IH | done].
Qed.

(** ** What the chunks hold *)

Inductive tag : Type := TThought | TSaid | TCalled (index : Z).

#[export] Instance tag_eq_dec : EqDecision tag.
Proof. solve_decision. Defined.

Inductive piece : Type :=
| Thought (s : string)
| Said (s : string)
| Called (index : Z) (id name arguments : string).

Section Pieces.
Context `{PyText}.

Definition call_piece (d : dict) : result piece :=
  let! i := py_int (por (dget_def (PInt 0) d "index") (PInt 0)) in
  let f := dict_at d "function" in
  Ok (Called i (text_or d ["id"] ("toolu_" +:+ str_of_Z i)) (text_or f ["name"] "tool")
        (if py_truth (pget f "arguments") then py_str (pget f "arguments") else "")).

(** The pieces up to an exception. *)
Fixpoint call_pieces (l : list pyval) : list piece * result unit :=
  match l with
  | [] => ([], Ok tt)
  | PDict d :: l =>
      match call_piece d with
      | Ok p => let '(ps, r) := call_pieces l in (p :: ps, r)
      | Raise e => ([], Raise e)
      end
  | _ :: l => call_pieces l
  end.

(** The pieces of one chunk; [Some] reason ends the answer. *)
Definition chunk_pieces (chunk : dict) : list piece * result (option string) :=
  match _openai_usage_to_anthropic_usage (pget chunk "usage") with
  | Raise e => ([], Raise e)
  | Ok _ =>
      let choice := _first_openai_choice chunk in
      let delta := dict_at choice "delta" in
      let '(calls, r) := match pget delta "tool_calls" with PList l => call_pieces l | _ => ([], Ok tt) end in
      ((if py_truth (delta_reasoning delta) then [Thought (py_str (delta_reasoning delta))] else [])
       ++ (if py_truth (pget delta "content") then [Said (py_str (pget delta "content"))] else [])
       ++ calls,
       let! _ := r in
       if is_pnone (pget choice "finish_reason") then Ok None
       else let! stop := _openai_finish_reason_to_anthropic (pget choice "finish_reason") in Ok (Some stop))
  end.

Fixpoint answer_pieces (payloads : list string) : list piece * result string :=
  match payloads with
  | [] => ([], Ok "end_turn")
  | p :: payloads =>
      if String.eqb p "[DONE]" then ([], Ok "end_turn")
      else match json_loads p with
           | Some (PDict chunk) =>
               match chunk_pieces chunk with
               | (ps, Ok None) => let '(ps', r) := answer_pieces payloads in (ps ++ ps', r)
               | (ps, Ok (Some stop)) => (ps, Ok stop)
               | (ps, Raise e) => (ps, Raise e)
               end
           | _ => answer_pieces payloads
           end
  end.
End Pieces.

(** ** The blocks that the pieces make *)

Abbreviation tagged := (tag * (dict * string))%type.

Definition find_call (l : list tagged) (i : Z) : option nat :=
  fst <$> list_find (fun b => fst b = TCalled i) l.

Definition add_text (s : string) (b : tagged) : tagged := (fst b, (fst (snd b), snd (snd b) +:+ s)).

Definition text_block (t : tag) (start : dict) (s : string) (l : list tagged) : list tagged :=
  if bool_decide (fst <$> last l = Some t) then alter (add_text s) (length l - 1) l else l ++ [(t, (start, s))].

(** Thoughts and text go on the last block when it is of their kind; a call has one block. *)
Definition add_piece (l : list tagged) (p : piece) : list tagged :=
  match p with
  | Thought s => text_block TThought [("type", PStr "thinking"); ("thinking", PStr "")] s l
  | Said s => text_block TSaid [("type", PStr "text"); ("text", PStr "")] s l
  | Called i id name a =>
      match find_call l i with
      | Some k => alter (add_text a) k l
      | None => l ++ [(TCalled i, ([("type", PStr "tool_use"); ("id", PStr id); ("name", PStr name);
                                    ("input", PDict [])], a))]
      end
  end.

(** No call is taken up again once another block has been started. *)
Fixpoint in_order (l : list tagged) (ps : list piece) : Prop :=
  match ps with
  | [] => True
  | p :: ps =>
      match p with
      | Called i _ _ _ => forall k, find_call l i = Some k -> S k = length l
      | _ => True
      end /\ in_order (add_piece l p) ps
  end.

(** ** The events carry the pieces *)

Definition label (t : tag) : string :=
  match t with TThought => "thinking" | TSaid => "text" | TCalled i => "tool_use:" +:+ str_of_Z i end.

Definition kind_of (t : tag) : string :=
  match t with TThought => "thinking" | TSaid => "text" | TCalled _ => "tool_use" end.

(** The writer's state, the client's state and the blocks so far. *)
Record agree (st : _AnthropicStreamState) (c : client) (l : list tagged) : Prop := {
  ag_client : c = {| started := true; c_blocks := map snd l; c_open := _active_block_index st;
                     c_stop := None; c_ended := false |};
  ag_active : match last l with
              | None => _active_block_index st = None /\ _active_block_type st = None
              | Some b => _active_block_index st = Some (length l - 1)%nat
                          /\ _active_block_type st = Some (label (fst b))
              end;
  ag_next : _next_index st = length l;
  ag_calls : forall i, tool_block st i = find_call l i;
  ag_kind : forall k b, l !! k = Some b ->
    pget (fst (snd b)) "type" = PStr (kind_of (fst b));
  ag_finished : _finished st = false }.

Lemma index_of_event i fields : index_of (("type", fields) :: ("index", PInt (Z.of_nat i)) :: []) = Some i.
Proof. unfold index_of. simpl. rewrite (proj2 (Z.leb_le _ _)) by lia. by rewrite Nat2Z.id. Qed.

Lemma index_of_nat i t rest : index_of (("type", t) :: ("index", PInt (Z.of_nat i)) :: rest) = Some i.
Proof. unfold index_of. simpl. rewrite (proj2 (Z.leb_le _ _)) by lia. by rewrite Nat2Z.id. Qed.

Lemma client_start strict bs i b : i = length bs ->
  client_event strict {| started := true; c_blocks := bs; c_open := None; c_stop := None; c_ended := false |}
    (block_start i b)
  = Some {| started := true; c_blocks := bs ++ [(b, "")]; c_open := Some i; c_stop := None; c_ended := false |}.
Proof.
  intros ->. unfold client_event, block_start, event. cbn [ev_data ev_name]. rewrite index_of_nat. simpl.
  by rewrite bool_decide_eq_true_2.
Qed.

Lemma client_delta strict bs op i b delta s : bs !! i = Some b -> delta_text (fst b) delta = Some s ->
  (strict = true -> op = Some i) ->
  client_event strict {| started := true; c_blocks := bs; c_open := op; c_stop := None; c_ended := false |}
    (block_delta i delta)
  = Some {| started := true; c_blocks := alter (fun b => (fst b, snd b +:+ s)) i bs; c_open := op;
            c_stop := None; c_ended := false |}.
Proof.
  intros Hb Hs Ho. unfold client_event, block_delta, event. cbn [ev_data ev_name]. rewrite index_of_nat. simpl.
  rewrite Hb. simpl. unfold dict_at. simpl. rewrite Hs. simpl.
  destruct strict; [|done]. rewrite bool_decide_eq_true_2 by auto. done.
Qed.

Lemma client_stop_block strict bs i stop :
  client_event strict {| started := true; c_blocks := bs; c_open := Some i; c_stop := stop; c_ended := false |}
    (block_stop i)
  = Some {| started := true; c_blocks := bs; c_open := None; c_stop := stop; c_ended := false |}.
Proof.
  unfold client_event, block_stop, event. cbn [ev_data ev_name]. rewrite index_of_event. simpl.
  by rewrite bool_decide_eq_true_2.
Qed.

(** What is active is stopped. *)
Lemma stop_active strict st c l : agree st c l -> exists st' es,
  _stop_active_block st = (es, Ok st')
  /\ client_run strict c es = Some {| started := true; c_blocks := map snd l; c_open := None;
                                      c_stop := None; c_ended := false |}
  /\ _next_index st' = length l /\ (forall i, tool_block st' i = find_call l i) /\ _finished st' = false.
Proof.
  intros A. destruct A as [-> _ An Ac _ Af]. unfold _stop_active_block.
  destruct (_active_block_index st) as [i|] eqn:E.
  - eexists _, _. split; [reflexivity|]. cbn [client_run]. rewrite client_stop_block. done.
  - exists st, []. done.
Qed.

Lemma gbind_ok {A B} (m : gen A) (k : A -> gen B) es a :
  m = (es, Ok a) -> gbind m k = (es ++ fst (k a), snd (k a)).
Proof. intros ->. simpl. by destruct (k a). Qed.

Lemma find_call_cons b l i : find_call (b :: l) i
  = if bool_decide (fst b = TCalled i) then Some 0%nat else S <$> find_call l i.
Proof.
  unfold find_call. simpl.
  destruct (decide (fst b = TCalled i)); [by rewrite bool_decide_eq_true_2|].
  rewrite bool_decide_eq_false_2 by done.
  match goal with |- context[prod_map S id <$> ?o] => by destruct o as [[]|] end.
Qed.

Lemma find_call_alter s k l i : find_call (alter (add_text s) k l) i = find_call l i.
Proof.
  revert k. induction l as [|b l IH]; intros [|k]; simpl; try done.
  - change (find_call (add_text s b :: l) i = find_call (b :: l) i). by rewrite !find_call_cons.
  - change (find_call (b :: alter (add_text s) k l) i = find_call (b :: l) i). by rewrite !find_call_cons, IH.
Qed.

Lemma find_call_app l b i : find_call (l ++ [b]) i
  = match find_call l i with
    | Some k => Some k
    | None => if bool_decide (fst b = TCalled i) then Some (length l) else None
    end.
Proof.
  induction l as [|x l IH]; simpl app; rewrite !find_call_cons; [done|]. rewrite IH.
  destruct (bool_decide (fst x = _)); [done|]. by destruct (find_call l i), (bool_decide _).
Qed.

Lemma find_call_lookup l i k : find_call l i = Some k -> exists b, l !! k = Some b /\ fst b = TCalled i.
Proof.
  unfold find_call. intros Hf. apply fmap_Some in Hf as ([k' b] & Hf & ->).
  apply list_find_Some in Hf as (Hl & Ht & _). eauto.
Qed.

Lemma last_alter {A} (f : A -> A) k (l : list A) :
  last (alter f k l) = if bool_decide (S k = length l) then f <$> last l else last l.
Proof.
  rewrite !last_lookup, length_alter. destruct (length l) as [|n] eqn:E.
  - apply nil_length_inv in E as ->. by destruct k.
  - simpl. destruct (decide (k = n)) as [-> | Hne].
    + rewrite list_lookup_alter_eq, bool_decide_eq_true_2 by done. done.
    + rewrite list_lookup_alter_ne by done. rewrite bool_decide_eq_false_2 by lia. done.
Qed.

(** More text for a block. *)
Lemma agree_delta strict st c l i b delta s : agree st c l -> l !! i = Some b ->
  delta_text (fst (snd b)) delta = Some s -> (strict = true -> S i = length l) ->
  exists c', client_run strict c [block_delta i delta] = Some c' /\ agree st c' (alter (add_text s) i l).
Proof.
  intros A Hb Hs Ho. destruct A as [-> Aa An Ac Ak Af]. cbn [client_run].
  assert (Hsnd : map snd l !! i = Some (snd b)) by (apply list_lookup_fmap_Some; eauto).
  assert (Hopen : strict = true -> _active_block_index st = Some i).
  { intros Hst. specialize (Ho Hst). 
    assert (El : last l = Some b) by (rewrite last_lookup; replace (pred (length l)) with i by lia; exact Hb).
    rewrite El in Aa. destruct Aa as [-> _]. f_equal. lia. }
  rewrite (client_delta strict _ _ i (snd b) delta s Hsnd Hs Hopen).
  eexists. split; [reflexivity|]. split; simpl; rewrite ?length_alter; try done.
  - f_equal. symmetry. apply list_fmap_alter. by apply Forall_true.
  - rewrite last_alter. destruct (bool_decide _); [|done]. by destruct (last l).
  - intros j. by rewrite find_call_alter.
  - intros k b' Hk. destruct (decide (i = k)) as [<- | Hne].
    + rewrite list_lookup_alter_eq, Hb in Hk. injection Hk as <-. exact (Ak i b Hb).
    + rewrite list_lookup_alter_ne in Hk by done. by apply (Ak k).
Qed.

(** A new block. *)
Lemma agree_open strict st l t start :
  _active_block_index st = Some (length l) -> _active_block_type st = Some (label t) ->
  _next_index st = S (length l) -> _finished st = false ->
  (forall i, tool_block st i = find_call (l ++ [(t, (start, ""))]) i) ->
  (forall k b, l !! k = Some b -> pget (fst (snd b)) "type" = PStr (kind_of (fst b))) ->
  pget start "type" = PStr (kind_of t) ->
  exists c', client_run strict {| started := true; c_blocks := map snd l; c_open := None; c_stop := None; c_ended := false |}
    [block_start (length l) start] = Some c' /\ agree st c' (l ++ [(t, (start, ""))]).
Proof.
  intros Ha Hty Hn Hf Hc Hk Hs. cbn [client_run]. rewrite client_start by (by rewrite length_map).
  eexists. split; [reflexivity|].
  split; rewrite ?length_app; simpl; try done.
  - by rewrite map_app, Ha.
  - rewrite last_snoc. split; [rewrite Ha; f_equal; lia | done].
  - lia.
  - intros k b Hb. apply lookup_app_Some in Hb as [Hb | [_ Hb]]; [by apply (Hk k)|].
    apply list_lookup_singleton_Some in Hb as [_ <-]. done.
Qed.

Lemma label_inj t t' : (forall i, t' <> TCalled i) -> label t = label t' -> t = t'.
Proof. intros Ht. destruct t, t'; simpl; try done. exfalso. by eapply Ht. Qed.

Lemma client_run_cat strict c es c1 es' c2 : client_run strict c es = Some c1 ->
  client_run strict c1 es' = Some c2 -> client_run strict c (es ++ es') = Some c2.
Proof. intros H1 H2. by rewrite client_run_app, H1. Qed.

Lemma alter_last {A} (f : A -> A) (l : list A) x : alter f (length l) (l ++ [x]) = l ++ [f x].
Proof. rewrite alter_app_r_alt by lia. by rewrite Nat.sub_diag. Qed.

Definition text_start (t : tag) : dict :=
  [("type", PStr (kind_of t)); (if String.eqb (kind_of t) "text" then "text" else "thinking", PStr "")].

Lemma emit_text_ok strict st c l t dt dk s : agree st c l -> (forall i, t <> TCalled i) ->
  delta_key (kind_of t) = Some (dt, dk) ->
  exists es st' c', emit_text_like_block (label t) s dt dk st = (es, Ok st')
    /\ client_run strict c es = Some c' /\ agree st' c' (text_block t (text_start t) s l).
Proof.
  intros A Ht Hd. unfold emit_text_like_block, text_block.
  assert (Hlab : label t = kind_of t) by (destruct t; try done; by destruct (Ht index)).
  assert (Htext : forall b : tagged, fst b = t -> pget (fst (snd b)) "type" = PStr (kind_of (fst b)) ->
            delta_text (fst (snd b)) [("type", PStr dt); (dk, PStr s)] = Some s).
  { intros b <- Hk. unfold delta_text. rewrite Hk, Hd. destruct (fst b); injection Hd as <- <-; reflexivity. }
  pose proof (ag_active _ _ _ A) as Aa.
  destruct (decide (fst <$> last l = Some t)) as [E | E].
  - rewrite (bool_decide_eq_true_2 (fst <$> last l = _)) by done.
    apply fmap_Some in E as (b & El & Eb). rewrite El in Aa. destruct Aa as [Ai Aty].
    rewrite bool_decide_eq_true_2 by (by rewrite Aty, Eb). unfold ret, gbind. rewrite Ai.
    assert (Hb : l !! (length l - 1)%nat = Some b).
    { rewrite last_lookup in El. by replace (length l - 1)%nat with (pred (length l)) by lia. }
    destruct (agree_delta strict st c l (length l - 1) b [("type", PStr dt); (dk, PStr s)] s)
      as (c' & Hc' & A'); try done.
    + apply Htext; [done | by apply (ag_kind _ _ _ A _ _ Hb)].
    + intros _. destruct l; [done | simpl; lia].
    + eexists _, _, c'. split; [reflexivity | done].
  - rewrite (bool_decide_eq_false_2 (fst <$> last l = _)) by done.
    rewrite bool_decide_eq_false_2.
    2: { intros Ety. apply E. destruct (last l) as [b|]; [|destruct Aa; congruence].
         destruct Aa as [_ Aty]. rewrite Ety in Aty. injection Aty as Aty. simpl. f_equal. symmetry.
         symmetry in Aty. apply label_inj in Aty; done. }
    destruct (stop_active strict st c l A) as (st1 & es1 & -> & Hrun & Hn & Hc & Hf). unfold gbind at 2.
    rewrite Hlab. fold (text_start t). rewrite <- Hlab.
    destruct (agree_open strict (open_block (label t) st1) l t (text_start t)) as (c2 & Hc2 & A2);
      simpl; rewrite ?Hn; try done; [|by apply (ag_kind _ _ _ A)|].
    { intros i. rewrite find_call_app. simpl. rewrite bool_decide_eq_false_2 by apply Ht.
      transitivity (tool_block st1 i); [done|]. rewrite Hc. by destruct (find_call l i). }
    unfold gbind. change (_active_block_index (open_block (label t) st1)) with (Some (_next_index st1)).
    destruct (agree_delta strict _ _ _ (length l) (t, (text_start t, "")) [("type", PStr dt); (dk, PStr s)] s A2)
      as (c' & Hc' & A').
    + by rewrite lookup_app_r, Nat.sub_diag by done.
    + by apply Htext.
    + rewrite length_app. simpl. lia.
    + rewrite alter_last in A'. eexists _, _, c'. split; [reflexivity|]. split; [|done].
      eapply client_run_cat; [eapply client_run_cat; [exact Hrun | exact Hc2] | exact Hc'].
Qed.

Section Emission.
Context `{PyText}.

(** The next piece does not take up an earlier call. *)
Definition fits (l : list tagged) (p : piece) : Prop :=
  match p with Called i _ _ _ => forall k, find_call l i = Some k -> S k = length l | _ => True end.

Lemma add_text_nil (k : nat) (l : list tagged) : alter (add_text "") k l = l.
Proof. apply list_alter_id. intros [t [b s]]. unfold add_text. simpl. by rewrite sapp_nil. Qed.

Definition call_start (id name : string) : dict :=
  [("type", PStr "tool_use"); ("id", PStr id); ("name", PStr name); ("input", PDict [])].

(** The arguments that come with a delta. *)
Definition arguments_delta (i : nat) (v : pyval) : list sse :=
  if py_truth v then [block_delta i [("type", PStr "input_json_delta"); ("partial_json", PStr (py_str v))]] else [].

Lemma agree_arguments strict st c l i b v j : agree st c l -> l !! i = Some b -> fst b = TCalled j ->
  (strict = true -> S i = length l) ->
  exists c', client_run strict c (arguments_delta i v) = Some c'
    /\ agree st c' (alter (add_text (if py_truth v then py_str v else "")) i l).
Proof.
  intros A Hb Hj Ho. unfold arguments_delta. destruct (py_truth v).
  - eapply agree_delta; eauto. unfold delta_text. by rewrite (ag_kind _ _ _ A _ _ Hb), Hj.
  - rewrite add_text_nil. eauto.
Qed.

Lemma emit_call_ok strict st c l d p : agree st c l -> call_piece d = Ok p -> (strict = true -> fits l p) ->
  exists es st' c', emit_tool_call_delta d st = (es, Ok st')
    /\ client_run strict c es = Some c' /\ agree st' c' (add_piece l p).
Proof.
  intros A Hp Hfits. unfold call_piece in Hp. unfold emit_tool_call_delta.
  destruct (py_int _) as [i|] eqn:Ei; [|done]. injection Hp as <-. simpl in Hfits.
  unfold lift. unfold gbind at 1. cbn [add_piece].
  rewrite (ag_calls _ _ _ A). destruct (find_call l i) as [k|] eqn:Ek.
  - destruct (find_call_lookup _ _ _ Ek) as (b & Hb & Hbi).
    destruct (agree_arguments strict st c l k b (pget (dict_at d "function") "arguments") i A Hb Hbi)
      as (c' & Hc' & A'); [by intros Hst; apply (Hfits Hst)|].
    exists (arguments_delta k (pget (dict_at d "function") "arguments")), st, c'.
    split; [|done]. unfold arguments_delta, ret, gbind. by destruct (py_truth _).
  - destruct (stop_active strict st c l A) as (st1 & es1 & -> & Hrun & Hn & Hc & Hf).
    set (id := text_or d ["id"] _). set (name := text_or _ ["name"] "tool").
    set (v := pget (dict_at d "function") "arguments").
    set (st2 := note_tool_call i (_next_index st1) (open_block ("tool_use:" +:+ str_of_Z i) st1)).
    destruct (agree_open strict st2 l (TCalled i) (call_start id name)) as (c2 & Hc2 & A2);
      simpl; rewrite ?Hn; try done; [|by apply (ag_kind _ _ _ A)|].
    { intros j. rewrite find_call_app. destruct (decide (i = j)) as [<- | Hij].
      - rewrite Ek. unfold tool_block. simpl. by rewrite Z.eqb_refl, bool_decide_eq_true_2, Hn by done.
      - transitivity (tool_block st1 j).
        + unfold tool_block. simpl. by rewrite (proj2 (Z.eqb_neq i j)).
        + simpl. rewrite Hc, bool_decide_eq_false_2 by congruence. by destruct (find_call l j). }
    destruct (agree_arguments strict _ _ _ (length l) (TCalled i, (call_start id name, "")) v i A2)
      as (c' & Hc' & A'); try done.
    { by rewrite lookup_app_r, Nat.sub_diag by done. }
    { rewrite length_app. simpl. lia. }
    rewrite alter_last in A'.
    exists (es1 ++ [block_start (length l) (call_start id name)] ++ arguments_delta (length l) v), st2, c'.
    split; [|split; [|exact A']].
    + unfold ret, gbind, arguments_delta. destruct (py_truth v); simpl; unfold st2;
        by rewrite Hn, <- app_assoc.
    + eapply client_run_cat; [exact Hrun|]. eapply client_run_cat; [exact Hc2 | exact Hc'].
Qed.

(** A generator that yields the pieces [ps] to a client that has the blocks [l]. *)
Definition carries (strict : bool) (c : client) (l : list tagged) (ps : list piece) (r : result unit)
    (m : gen _AnthropicStreamState) : Prop :=
  exists st' c', client_run strict c (fst m) = Some c' /\ agree st' c' (foldl add_piece l ps)
    /\ snd m = match r with Ok _ => Ok st' | Raise e => Raise e end.

Lemma in_order_app ps ps' : forall l,
  in_order l (ps ++ ps') <-> in_order l ps /\ in_order (foldl add_piece l ps) ps'.
Proof.
  induction ps as [|p ps IH]; intros l; simpl; [tauto|]. rewrite IH. tauto.
Qed.

Lemma carries_ret strict st c l : agree st c l -> carries strict c l [] (Ok tt) (ret st).
Proof. intros A. by exists st, c. Qed.

Lemma carries_bind strict c l ps ps' r m k : carries strict c l ps (Ok tt) m ->
  (forall st' c', agree st' c' (foldl add_piece l ps) -> carries strict c' (foldl add_piece l ps) ps' r (k st')) ->
  carries strict c l (ps ++ ps') r (gbind m k).
Proof.
  intros (st1 & c1 & H1 & A1 & E1) Hk. destruct m as [es1 r1]. simpl in *. subst r1.
  destruct (Hk st1 c1 A1) as (st2 & c2 & H2 & A2 & E2). exists st2, c2. rewrite foldl_app.
  destruct (k st1) as [es2 r2]. simpl in *. split; [|done]. by eapply client_run_cat.
Qed.

Lemma carries_raise strict c l ps e m k : carries strict c l ps (Raise e) m ->
  carries strict c l ps (Raise e) (gbind m k).
Proof.
  intros (st1 & c1 & H1 & A1 & E1). destruct m as [es1 r1]. simpl in *. subst r1. by exists st1, c1.
Qed.

Lemma emit_tool_calls_ok strict items : forall st c l, agree st c l ->
  (strict = true -> in_order l (fst (call_pieces items))) ->
  carries strict c l (fst (call_pieces items)) (snd (call_pieces items)) (emit_tool_calls items st).
Proof.
  induction items as [|x items IH]; intros st c l A Hord; [by apply carries_ret|].
  destruct x as [| | | | | |d]; try (by apply IH). cbn [call_pieces emit_tool_calls] in *.
  destruct (call_piece d) as [p|e] eqn:Ep.
  - destruct (call_pieces items) as [ps r] eqn:Eps. simpl in *.
    apply (carries_bind strict c l [p]).
    + destruct (emit_call_ok strict st c l d p A Ep) as (es & st' & c' & -> & Hrun & A').
      { intros Hs. by destruct (Hord Hs). }
      by exists st', c'.
    + intros st' c' A'. simpl. apply IH; [done|]. intros Hs. by destruct (Hord Hs).
  - exists st, c. split; [|split; [done|]]; simpl; unfold call_piece in Ep; unfold emit_tool_call_delta;
      destruct (py_int _); simplify_eq/=; done.
Qed.

Lemma agree_model m st c l : agree st c l -> agree (set_model m st) c l.
Proof. intros [A1 A2 A3 A4 A5 A6]. by split. Qed.

(** The client when the answer is complete. *)
Definition complete (l : list tagged) (stop : string) : client := {|
  started := true; c_blocks := map snd l; c_open := None; c_stop := Some stop; c_ended := true |}.

Lemma finish_events_ok strict stop n st c l : agree st c l -> exists es st',
  finish stop n st = (es, Ok st') /\ client_run strict c es = Some (complete l stop).
Proof.
  intros A. unfold finish. rewrite (ag_finished _ _ _ A).
  destruct (stop_active strict st c l A) as (st1 & es1 & -> & Hrun & _).
  eexists _, _. split; [reflexivity|]. eapply client_run_cat; [exact Hrun | reflexivity].
Qed.

(** What a chunk of pieces [ps] does: the answer goes on, ends, or an exception is raised. *)
Definition chunk_carries (strict : bool) (c : client) (l : list tagged) (ps : list piece)
    (r : result (option string)) (m : gen (_AnthropicStreamState + _AnthropicStreamState)) : Prop :=
  match r with
  | Ok None => exists st' c', client_run strict c (fst m) = Some c' /\ agree st' c' (foldl add_piece l ps)
                              /\ snd m = Ok (inl st')
  | Ok (Some stop) => exists st', client_run strict c (fst m) = Some (complete (foldl add_piece l ps) stop)
                                  /\ snd m = Ok (inr st')
  | Raise e => exists st' c', client_run strict c (fst m) = Some c' /\ agree st' c' (foldl add_piece l ps)
                              /\ snd m = Raise e
  end.

Lemma chunk_bind strict c l ps ps' r m k : carries strict c l ps (Ok tt) m ->
  (forall st' c', agree st' c' (foldl add_piece l ps) -> chunk_carries strict c' (foldl add_piece l ps) ps' r (k st')) ->
  chunk_carries strict c l (ps ++ ps') r (gbind m k).
Proof.
  intros (st1 & c1 & H1 & A1 & E1) Hk. destruct m as [es1 r1]. simpl in *. subst r1.
  specialize (Hk st1 c1 A1). destruct (k st1) as [es2 r2]. unfold chunk_carries in *. rewrite foldl_app.
  destruct r as [[stop|]|e].
  - destruct Hk as (st' & H2 & E2). exists st'. simpl in *. split; [by eapply client_run_cat | done].
  - destruct Hk as (st' & c' & H2 & A2 & E2). exists st', c'. simpl in *. split; [by eapply client_run_cat | done].
  - destruct Hk as (st' & c' & H2 & A2 & E2). exists st', c'. simpl in *. split; [by eapply client_run_cat | done].
Qed.

Lemma thought_ok strict st c l v : agree st c l ->
  carries strict c l (if py_truth v then [Thought (py_str v)] else []) (Ok tt)
    (if py_truth v then emit_text_like_block "thinking" (py_str v) "thinking_delta" "thinking" st else ret st).
Proof.
  intros A. destruct (py_truth v); [|by apply carries_ret].
  destruct (emit_text_ok strict st c l TThought "thinking_delta" "thinking" (py_str v)) as (es & st' & c' & E & R & A');
    try done. simpl label in E. rewrite E. by exists st', c'.
Qed.

Lemma said_ok strict st c l v : agree st c l ->
  carries strict c l (if py_truth v then [Said (py_str v)] else []) (Ok tt)
    (if py_truth v then emit_text_like_block "text" (py_str v) "text_delta" "text" st else ret st).
Proof.
  intros A. destruct (py_truth v); [|by apply carries_ret].
  destruct (emit_text_ok strict st c l TSaid "text_delta" "text" (py_str v)) as (es & st' & c' & E & R & A');
    try done. simpl label in E. rewrite E. by exists st', c'.
Qed.

Lemma lift_ok {A B} (a : A) (k : A -> gen B) : gbind (lift (Ok a)) k = k a.
Proof. simpl. by destruct (k a). Qed.

Lemma chunk_raise strict c l ps e m k : carries strict c l ps (Raise e) m ->
  chunk_carries strict c l ps (Raise e) (gbind m k).
Proof.
  intros (st1 & c1 & H1 & A1 & E1). destruct m as [es1 r1]. simpl in *. subst r1. by exists st1, c1.
Qed.

Lemma chunk_end strict st c l (n : Z) v : agree st c l ->
  chunk_carries strict c l [] (if is_pnone v then Ok None
                               else let! stop := _openai_finish_reason_to_anthropic v in Ok (Some stop))
    (if is_pnone v then ret (inl st)
     else do! stop := lift (_openai_finish_reason_to_anthropic v) in
          do! st := finish stop n st in ret (inr st)).
Proof.
  intros A. destruct (is_pnone v); [by exists st, c|].
  destruct (_openai_finish_reason_to_anthropic v) as [stop|e]; simpl; [|by exists st, c].
  destruct (finish_events_ok strict stop n st c l A) as (es & st' & -> & Hrun). simpl.
  exists st'. simpl. by rewrite app_nil_r.
Qed.

Lemma anthropic_chunk_ok strict st c l chunk : agree st c l ->
  (strict = true -> in_order l (fst (chunk_pieces chunk))) ->
  chunk_carries strict c l (fst (chunk_pieces chunk)) (snd (chunk_pieces chunk)) (anthropic_chunk chunk st).
Proof.
  intros A Hord. unfold chunk_pieces, anthropic_chunk in *.
  set (st0 := if py_truth (pget chunk "model") then _ else _).
  assert (A0 : agree st0 c l) by (unfold st0; destruct (py_truth (pget chunk "model")); [by apply agree_model | done]).
  destruct (_openai_usage_to_anthropic_usage _) as [usage|e]; [|by exists st0, c].
  rewrite lift_ok.
  set (choice := _first_openai_choice chunk) in *. set (delta := dict_at choice "delta") in *.
  set (calls := match pget delta "tool_calls" with PList l => call_pieces l | _ => ([], Ok tt) end) in *.
  destruct calls as [cs r] eqn:Ec. simpl in Hord. cbn [fst snd].
  assert (Hcalls : forall st c l, agree st c l -> (strict = true -> in_order l cs) ->
            carries strict c l cs r (match pget delta "tool_calls" with PList l => emit_tool_calls l st | _ => ret st end)).
  { intros st' c' l' A' Ho. unfold calls in Ec.
    destruct (pget delta "tool_calls") as [| | | | |items|]; simplify_eq; try by apply carries_ret.
    pose proof (emit_tool_calls_ok strict items st' c' l' A') as Hi. rewrite Ec in Hi. by apply Hi. }
  eapply (chunk_bind strict c l); [by apply thought_ok|]. intros st1 c1 A1.
  eapply (chunk_bind strict); [by apply said_ok|]. intros st2 c2 A2.
  assert (Ho : strict = true -> in_order (foldl add_piece (foldl add_piece l
             (if py_truth (delta_reasoning delta) then [Thought (py_str (delta_reasoning delta))] else []))
             (if py_truth (pget delta "content") then [Said (py_str (pget delta "content"))] else [])) cs).
  { intros Hs. specialize (Hord Hs). rewrite !in_order_app in Hord. tauto. }
  specialize (Hcalls st2 c2 _ A2 Ho). rewrite <- (app_nil_r cs). destruct r as [u|e].
  - eapply (chunk_bind strict); [exact Hcalls|]. intros st3 c3 A3. by apply (chunk_end strict st3).
  - rewrite app_nil_r. by apply chunk_raise.
Qed.

(** What the client holds after pieces [ps] and result [r]. *)
Lemma anthropic_chunks_ok strict payloads : forall st c l, agree st c l ->
  let '(ps, r) := answer_pieces payloads in
  (strict = true -> in_order l ps) ->
  exists c', client_run strict c (fst (anthropic_chunks payloads st)) = Some c'
    /\ c_blocks c' = map snd (foldl add_piece l ps)
    /\ match r with
       | Ok stop => c' = complete (foldl add_piece l ps) stop
                    /\ exists st', snd (anthropic_chunks payloads st) = Ok st'
       | Raise e => c_ended c' = false /\ snd (anthropic_chunks payloads st) = Raise e
       end.
Proof.
  assert (Hend : forall st c l, agree st c l -> exists c',
            client_run strict c (fst (finish "end_turn" 0 st)) = Some c'
            /\ c_blocks c' = map snd (foldl add_piece l [])
            /\ c' = complete (foldl add_piece l []) "end_turn"
            /\ exists st', snd (finish "end_turn" 0 st) = Ok st').
  { intros st c l A. destruct (finish_events_ok strict "end_turn" 0 st c l A) as (es & st' & -> & Hrun).
    eexists. split; [exact Hrun|]. eauto. }
  induction payloads as [|p payloads IH]; intros st c l A; cbn [answer_pieces anthropic_chunks].
  { intros _. by apply Hend. }
  destruct (String.eqb p "[DONE]"); [intros _; by apply Hend|].
  destruct (json_loads p) as [v|]; [|by apply IH]. destruct v as [| | | | | |chunk]; try by apply IH.
  destruct (chunk_pieces chunk) as [ps r] eqn:Ep.
  assert (Hchunk : (strict = true -> in_order l ps) -> chunk_carries strict c l ps r (anthropic_chunk chunk st)).
  { intros Ho. pose proof (anthropic_chunk_ok strict st c l chunk A) as Hc. rewrite Ep in Hc. by apply Hc. }
  destruct r as [[stop|]|e].
  - intros Ho. destruct (Hchunk Ho) as (st' & Hrun & E). destruct (anthropic_chunk chunk st) as [es r].
    simpl in *. subst r. simpl. rewrite app_nil_r.
    eexists. split; [exact Hrun|]. split; [done|]. split; [done | by exists st'].
  - destruct (answer_pieces payloads) as [ps' r'] eqn:Ea. intros Ho.
    destruct Hchunk as (st' & c' & Hrun & A' & E); [intros Hs; by destruct (proj1 (in_order_app _ _ _) (Ho Hs))|].
    destruct (anthropic_chunk chunk st) as [es r]. simpl in *. subst r. simpl.
    destruct (IH st' c' _ A') as (c2 & H2 & Hb & Hr);
      [intros Hs; by destruct (proj1 (in_order_app _ _ _) (Ho Hs))|].
    rewrite foldl_app. destruct (anthropic_chunks payloads st') as [es2 r2]. simpl in *.
    exists c2. split; [by eapply client_run_cat | done].
  - intros Ho. destruct (Hchunk Ho) as (st' & c' & Hrun & A' & E). destruct (anthropic_chunk chunk st) as [es r].
    simpl in *. subst r. simpl. destruct A' as [-> ? ? ? ? ?]. eauto.
Qed.

(** C21: whatever bytes arrive and however the answer ends, a client that follows the events
    written for the messages API (one start, blocks numbered without gaps and opened one at a
    time, deltas of a block's type for blocks that exist, then the stop reason and the end) ends
    with exactly the blocks that the chunks describe: reasoning and text joined while they
    follow one another, one block for each tool call with all its arguments, and the stop reason
    of the chunk that ends the answer.  An exception leaves the client with the blocks before it
    and no end.  A strict client, which takes deltas for the open block only, does the same when
    no tool call is taken up again after another block was started. *)
Theorem anthropic_stream_content (strict : bool) (first_bytes : string) (chunks : list string) :
  let '(ps, r) := answer_pieces (_iter_openai_sse_payloads first_bytes chunks) in
  let '(es, r') := _iter_anthropic_events_from_openai_stream first_bytes chunks in
  (strict = true -> in_order [] ps) ->
  exists c, client_run strict new_client es = Some c
    /\ c_blocks c = map snd (foldl add_piece [] ps)
    /\ match r with
       | Ok stop => c = complete (foldl add_piece [] ps) stop /\ r' = Ok tt
       | Raise e => c_ended c = false /\ r' = Raise e
       end.
Proof.
  set (c0 := {| started := true; c_blocks := []; c_open := None; c_stop := None; c_ended := false |}).
  pose proof (anthropic_chunks_ok strict (_iter_openai_sse_payloads first_bytes chunks)
                AnthropicStreamState__init__ c0 []) as Hrun.
  destruct (answer_pieces _) as [ps r]. unfold _iter_anthropic_events_from_openai_stream.
  destruct (anthropic_chunks _ _) as [es r0]. unfold yield, gbind, ret.
  assert (A : agree AnthropicStreamState__init__ c0 []) by (split; done).
  specialize (Hrun A). simpl in Hrun.
  destruct r0 as [st'|e0]; rewrite ?app_nil_r; intros Ho; destruct (Hrun Ho) as (c' & H1 & H2 & H3);
    exists c'; (split; [|split; [done|]]).
  - simpl. exact H1.
  - destruct r; [by destruct H3 as [-> _] | by destruct H3].
  - simpl. exact H1.
  - destruct r; [by destruct H3 as [_ [? [=]]] | destruct H3 as [? [= ->]]; done].
Qed.
End Emission.

#[local] Instance no_text : PyText := {| py_repr := fun _ => ""; py_parse_float := fun _ => None |}.

Definition chunk_frame (delta : dict) (reason : pyval) : string :=
  "data: " +:+ json_text (PDict [("choices", PList [PDict [("delta", PDict delta); ("finish_reason", reason)]])])
  +:+ lf +:+ lf.

Definition call_delta (i : Z) (name arguments : string) : pyval :=
  PDict [("index", PInt i); ("function", PDict [("name", PStr name); ("arguments", PStr arguments)])].

(** Two pieces of text, then a call in two pieces. *)
Definition plain_stream : list string :=
  [chunk_frame [("content", PStr "lo")] PNone;
   chunk_frame [("tool_calls", PList [call_delta 0 "f" "{1"])] PNone;
   chunk_frame [("tool_calls", PList [call_delta 0 "" "}"])] (PStr "tool_calls")].

Definition hello : string := chunk_frame [("content", PStr "hel")] PNone.

Definition plain_pieces : list piece :=
  [Said "hel"; Said "lo"; Called 0 "toolu_0" "f" "{1"; Called 0 "toolu_0" "tool" "}"].

Lemma plain_answer :
  answer_pieces (_iter_openai_sse_payloads hello plain_stream) = (plain_pieces, Ok "tool_use").
Proof. vm_compute. reflexivity. Qed.

Lemma plain_in_order : in_order [] plain_pieces.
Proof.
  repeat split; intros k E; vm_compute in E; simplify_eq; reflexivity.
Qed.

Lemma anthropic_stream_content_witness :
  exists es c, _iter_anthropic_events_from_openai_stream hello plain_stream = (es, Ok tt)
    /\ client_run true new_client es = Some c
    /\ map snd (c_blocks c) = ["hello"; "{1}"] /\ c_stop c = Some "tool_use" /\ c_ended c = true.
Proof.
  pose proof (anthropic_stream_content true hello plain_stream) as Hrun.
  rewrite plain_answer in Hrun.
  destruct (_iter_anthropic_events_from_openai_stream hello plain_stream) as [es r].
  destruct (Hrun (fun _ => plain_in_order)) as (c & Hc & _ & -> & ->).
  eexists es, _. split; [reflexivity|]. split; [exact Hc|]. repeat split; reflexivity.
Defined.

(** The pieces of two calls that arrive in turns: the second piece of the first call is written
    for a block that was closed, and a strict client stops there. *)
Lemma interleaved_calls_reopen :
  let m := _iter_anthropic_events_from_openai_stream ""
             [chunk_frame [("tool_calls", PList [call_delta 0 "f" "{1"; call_delta 1 "g" "{2"; call_delta 0 "" "}"])]
                (PStr "tool_calls")] in
  snd m = Ok tt
  /\ client_run true new_client (fst m) = None
  /\ (map snd <$> (c_blocks <$> client_run false new_client (fst m))) = Some ["{1}"; "{2"].
Proof. vm_compute. auto. Qed.

(** [str.splitlines] also ends a line at U+2028, which JSON allows inside a string: the rest of
    the data line is lost, the text left is not JSON, and the chunk is skipped. *)
Definition line_separator : string := String (byte 226) (String (byte 128) (String (byte 168) "")).

Lemma line_separator_loses_chunk :
  json_loads (drop_str 6 (chunk_frame [("content", PStr ("a" +:+ line_separator +:+ "b"))] PNone)) <> None
  /\ answer_pieces (_iter_openai_sse_payloads
       (chunk_frame [("content", PStr ("a" +:+ line_separator +:+ "b"))] PNone)
       [chunk_frame [("content", PStr "c")] (PStr "stop")]) = ([Said "c"], Ok "end_turn").
Proof. vm_compute. split; [discriminate | reflexivity]. Qed.

(** ** Answers that come back *)

Section RoundTrips.
Context `{PyText}.

Definition call : Type := string * string * string.       (* id, name, arguments *)

Definition call_value (c : call) : pyval :=
  let '(id, name, a) := c in
  PDict [("id", PStr id); ("type", PStr "function");
         ("function", PDict [("name", PStr name); ("arguments", PStr a)])].

(** An assistant's message of a chat completion. *)
Definition message_value (text reasoning : string) (calls : list call) : dict :=
  [("role", PStr "assistant");
   ("content", if String.eqb text "" then match calls with [] => PStr "" | _ => PNone end else PStr text)]
  ++ (if String.eqb reasoning "" then [] else [("reasoning_content", PStr reasoning)])
  ++ match calls with [] => [] | _ => [("tool_calls", PList (map call_value calls))] end.

Definition named (c : call) : Prop := let '(id, name, _) := c in id <> "" /\ name <> "".

Definition call_response (c : call) : pyval :=
  let '(id, name, a) := c in _openai_response_function_call_item id name a.

Lemma py_truth_str s : s <> "" -> py_truth (PStr s) = true.
Proof. intros Hs. simpl. by rewrite (proj2 (String.eqb_neq _ _) Hs). Qed.

Lemma text_or_here d k keys default : py_truth (pget d k) = true ->
  text_or d (k :: keys) default = py_str (pget d k).
Proof. intros E. unfold text_or. simpl. unfold por at 1. by rewrite E. Qed.

Lemma response_calls calls : Forall named calls -> forall k,
  omap (fun ic => response_call (fst ic) (snd ic)) (zip (seq k (length calls)) (map call_value calls))
  = map call_response calls.
Proof.
  induction 1 as [|[[id name] a] calls [Hi Hn] _ IH]; intros k; [done|]. simpl. rewrite IH.
  unfold dict_at. simpl. by rewrite !text_or_here by (by apply py_truth_str).
Qed.

Lemma chat_call_back c : named c -> exists d, call_response c = PDict d
  /\ pget d "type" = PStr "function_call"
  /\ _openai_response_function_call_to_chat_tool_call d = call_value c.
Proof.
  destruct c as [[id name] a]. intros [Hi Hn]. eexists. split; [reflexivity|]. split; [done|].
  unfold _openai_response_function_call_to_chat_tool_call. by rewrite !text_or_here by (by apply py_truth_str).
Qed.

(** What the message of a state is, key by key. *)
Definition same_fields (m m' : dict) : Prop := forall k, pget m k = pget m' k.

Lemma pget_dset d k v k' : pget (dset d k v) k' = if bool_decide (k' = k) then v else pget d k'.
Proof.
  unfold pget, dget_def. destruct (decide (k' = k)) as [-> | Hne].
  - by rewrite bool_decide_eq_true_2, dget_dset_eq.
  - by rewrite bool_decide_eq_false_2, dget_dset_ne.
Qed.

Definition calls_value (l : list pyval) : pyval := match l with [] => PNone | _ => PList l end.

(** Calls are appended to the message that waits for them. *)
Lemma calls_appended calls : Forall named calls -> forall st ms m l,
  messages st = ms ++ [m] -> pending_assistant_index st = Some (length ms) ->
  pget m "tool_calls" = calls_value l ->
  exists st' m', input_items st (map call_response calls) = Ok st'
    /\ messages st' = ms ++ [m'] /\ system_parts st' = system_parts st
    /\ forall k, pget m' k = if bool_decide (k = "tool_calls")
                             then calls_value (l ++ map call_value calls)
                             else pget m k.
Proof.
  induction 1 as [|c calls Hc Hcs IH]; intros st ms m l Hm Hp Hl.
  - exists st, m. split; [done|]. split; [done|]. split; [done|]. intros k. rewrite app_nil_r.
    destruct (bool_decide_reflect (k = "tool_calls")) as [->|]; [|done]. rewrite Hl. by destruct l.
  - destruct (chat_call_back c Hc) as (d & Ed & Et & Ec). simpl. rewrite Ed. simpl. rewrite Et. simpl.
    unfold add_function_call. rewrite Hp.
    set (st1 := {| system_parts := _ |}).
    destruct (IH st1 ms (append_tool_call (call_value c) m) (l ++ [call_value c])) as (st' & m' & E & Hm' & Hs & Hk).
    + simpl. by rewrite Hm, Ec, alter_last.
    + done.
    + unfold append_tool_call. rewrite pget_dset. simpl. rewrite Hl. by destruct l.
    + exists st', m'. split; [exact E|]. split; [done|]. split; [done|]. intros k. rewrite Hk.
      rewrite <- app_assoc. destruct (bool_decide_reflect (k = "tool_calls")) as [->|Hne]; [done|].
      unfold append_tool_call. rewrite pget_dset. by rewrite bool_decide_eq_false_2.
Qed.

Lemma pget_none (d : dict) k : k ∉ dkeys d -> pget d k = PNone.
Proof. intros Hk. unfold pget, dget_def. by rewrite (proj2 (dget_None_key d k) Hk). Qed.

(** The keys a message has at most. *)
Definition message_keys : list string := ["role"; "content"; "reasoning_content"; "tool_calls"].

Lemma fields_equal (m m' : dict) :
  (forall k, k ∈ message_keys -> pget m k = pget m' k) ->
  (forall k, k ∉ message_keys -> pget m k = PNone /\ pget m' k = PNone) -> same_fields m m'.
Proof.
  intros Hin Hout k. destruct (decide (k ∈ message_keys)); [auto|]. by destruct (Hout k n) as [-> ->].
Qed.

(** Reading the message [m] that calls were appended to. *)
Lemma appended_fields m m' text reasoning all l :
  (forall k, pget m' k = if bool_decide (k = "tool_calls")
                         then calls_value l else pget m k) ->
  (forall k, k ∉ message_keys -> pget m k = PNone) -> l = map call_value all ->
  pget m "role" = PStr "assistant" ->
  pget m "content" = pget (message_value text reasoning all) "content" ->
  pget m "reasoning_content" = (if String.eqb reasoning "" then PNone else PStr reasoning) ->
  same_fields m' (message_value text reasoning all).
Proof.
  intros Hk Hout -> Hr Hc Hre. apply fields_equal.
  - intros k Hin. rewrite Hk. unfold message_keys in Hin.
    apply elem_of_cons in Hin as [-> | Hin]; [exact Hr|].
    apply elem_of_cons in Hin as [-> | Hin]; [exact Hc|].
    apply elem_of_cons in Hin as [-> | Hin].
    { rewrite bool_decide_eq_false_2 by done. rewrite Hre. unfold message_value.
      destruct (String.eqb reasoning ""); [by destruct all | done]. }
    apply list_elem_of_singleton in Hin as ->. rewrite bool_decide_eq_true_2 by done.
    unfold message_value. by destruct (String.eqb reasoning ""), all.
  - intros k Hn. rewrite Hk. rewrite bool_decide_eq_false_2 by (intros ->; apply Hn; set_solver).
    split; [by apply Hout|]. apply pget_none. intros Hin. apply Hn.
    unfold message_value, dkeys in Hin. unfold message_keys.
    destruct (String.eqb reasoning ""), all; simpl in Hin; set_solver.
Qed.

Definition nothing_pending (st : input_state) : Prop :=
  pending_assistant_index st = None /\ pending_reasoning_content st = None.

Lemma join_lines_one s : join_lines [s] = s.
Proof. unfold join_lines. simpl. by destruct (String.eqb_spec s "") as [->|]. Qed.

Definition hold_reasoning (reasoning : string) (st : input_state) : input_state :=
  if String.eqb reasoning "" then st
  else {| system_parts := system_parts st; messages := messages st; pending_assistant_index := None;
          pending_reasoning_content := Some reasoning |}.

Lemma reasoning_read reasoning id st rest : nothing_pending st ->
  input_items st ((if String.eqb reasoning "" then [] else [_openai_response_reasoning_item reasoning id]) ++ rest)
  = input_items (hold_reasoning reasoning st) rest.
Proof.
  intros [Hi Hp]. unfold hold_reasoning. destruct (String.eqb_spec reasoning "") as [|Hne]; [done|].
  simpl. unfold _openai_response_reasoning_to_text, summary_part. simpl.
  unfold por. simpl. rewrite (proj2 (String.eqb_neq _ _) Hne). simpl. rewrite join_lines_one.
  rewrite (proj2 (String.eqb_neq _ _) Hne). simpl. unfold add_reasoning.
  by rewrite (proj2 (String.eqb_neq _ _) Hne), Hp.
Qed.

(** The fields of a message before calls are appended. *)
Definition base_message (content : pyval) (reasoning : string) (calls : list pyval) : dict :=
  [("role", PStr "assistant"); ("content", content)]
  ++ match calls with [] => [] | _ => [("tool_calls", PList calls)] end
  ++ (if String.eqb reasoning "" then [] else [("reasoning_content", PStr reasoning)]).

Lemma base_message_keys content reasoning calls k : k ∉ message_keys -> pget (base_message content reasoning calls) k = PNone.
Proof.
  intros Hn. apply pget_none. intros Hin. apply Hn. unfold base_message, dkeys in Hin. unfold message_keys.
  destruct calls, (String.eqb reasoning ""); simpl in Hin; set_solver.
Qed.

Lemma answer_read text reasoning calls rid tid st : Forall named calls -> nothing_pending st ->
  exists st' m, input_items st (response_output reasoning text rid tid (map call_response calls)) = Ok st'
    /\ messages st' = messages st ++ [m] /\ system_parts st' = system_parts st
    /\ same_fields m (message_value text reasoning calls).
Proof.
  intros Hc Hp. unfold response_output. rewrite reasoning_read by done.
  set (st1 := hold_reasoning reasoning st).
  assert (H1 : messages st1 = messages st /\ system_parts st1 = system_parts st /\ pending_assistant_index st1 = None
            /\ pending_reasoning_content st1 = if String.eqb reasoning "" then None else Some reasoning).
  { destruct Hp. unfold st1, hold_reasoning. by destruct (String.eqb reasoning ""). }
  destruct H1 as (Hms & Hsys & Hidx & Hpend). clearbody st1.
  destruct (negb (String.eqb text "") || match map call_response calls with [] => true | _ => false end) eqn:Et.
  - simpl. rewrite join_lines_one. simpl.
    set (st2 := add_message "assistant" text st1).
    destruct (calls_appended calls Hc st2 (messages st) (base_message (PStr text) reasoning []) [])
      as (st' & m & E & Hm & Hs & Hk).
    + simpl. rewrite Hms, Hpend. unfold base_message. by destruct reasoning.
    + simpl. by rewrite Hms.
    + unfold base_message. by destruct (String.eqb reasoning "").
    + exists st', m. split; [exact E|]. split; [done|]. split; [by rewrite Hs, <- Hsys|].
      apply (appended_fields (base_message (PStr text) reasoning []) m text reasoning calls ([] ++ map call_value calls));
        [exact Hk|by intros; apply base_message_keys|done| | |].
      * done.
      * unfold message_value. simpl. destruct (String.eqb_spec text "") as [->|]; [|done]. by destruct calls.
      * unfold base_message. by destruct (String.eqb reasoning "").
  - apply orb_false_iff in Et as [Et Ec]. apply negb_false_iff, String.eqb_eq in Et as ->.
    destruct calls as [|c calls]; [done|]. inversion_clear Hc as [|? ? Hc1 Hcs].
    destruct (chat_call_back c Hc1) as (d & Ed & Ety & Ecall).
    simpl. rewrite Ed. simpl. rewrite Ety. simpl. unfold add_function_call. rewrite Hidx.
    set (st2 := {| system_parts := _ |}).
    destruct (calls_appended calls Hcs st2 (messages st) (base_message PNone reasoning [call_value c]) [call_value c])
      as (st' & m & E & Hm & Hs & Hk).
    + simpl. rewrite Hms, Hpend. unfold _openai_response_function_call_to_chat_message, base_message. rewrite Ecall.
      by destruct reasoning.
    + simpl. by rewrite Hms.
    + done.
    + exists st', m. split; [exact E|]. split; [done|]. split; [by rewrite Hs, <- Hsys|].
      apply (appended_fields (base_message PNone reasoning [call_value c]) m "" reasoning (c :: calls)
               ([call_value c] ++ map call_value calls)); [exact Hk|by intros; apply base_message_keys|done|done|done|].
      unfold base_message. by destruct (String.eqb reasoning "").
Qed.

(** C22: an answer of the rollout model that an agent of the responses API receives and sends back
    in its next request becomes the assistant's message it was made from, field by field: its
    text (none when there are only tool calls), its reasoning, and its tool calls with their
    ids, names and arguments, so that the conversation the proxy has seen is a prefix of the one
    it is asked to continue. *)
Theorem response_round_trip (payload request r : dict) (text reasoning : string) (calls : list call)
    (st : input_state)
    (Hm : dict_at (_first_openai_choice payload) "message" = message_value text reasoning calls)
    (Hcalls : Forall named calls)
    (Hr : _chat_completion_to_openai_response payload request = Ok r)
    (Hp : nothing_pending st) :
  exists items st' m, pget r "output" = PList items
    /\ input_items st items = Ok st'
    /\ messages st' = messages st ++ [m] /\ system_parts st' = system_parts st
    /\ same_fields m (message_value text reasoning calls).
Proof.
  unfold _chat_completion_to_openai_response in Hr. rewrite Hm in Hr.
  assert (Hreason : _openai_chat_message_reasoning_to_text (message_value text reasoning calls) = Ok reasoning).
  { unfold _openai_chat_message_reasoning_to_text, message_value.
    destruct (String.eqb_spec reasoning "") as [->|Hne]; [by destruct calls|].
    simpl. by rewrite (proj2 (String.eqb_neq _ _) Hne). }
  assert (Htext : _openai_responses_content_to_text (pget (message_value text reasoning calls) "content") = Ok text).
  { unfold message_value. simpl. destruct (String.eqb_spec text "") as [->|]; [|done]. by destruct calls. }
  assert (Hitems : _openai_tool_calls_to_response_items (pget (message_value text reasoning calls) "tool_calls")
                   = map call_response calls).
  { unfold message_value. destruct calls as [|c calls]; [by destruct (String.eqb reasoning "")|].
    transitivity (_openai_tool_calls_to_response_items (PList (map call_value (c :: calls))));
      [by destruct (String.eqb reasoning "")|].
    unfold _openai_tool_calls_to_response_items. rewrite length_map. by apply response_calls. }
  rewrite Hreason in Hr. simpl in Hr. rewrite Htext in Hr. simpl in Hr. rewrite Hitems in Hr.
  destruct (_openai_usage_to_response_usage _) as [u|]; [|done]. injection Hr as <-.
  destruct (answer_read text reasoning calls "rs_proxy" "msg_proxy" st Hcalls Hp) as (st' & m & H1).
  eexists _, st', m. split; [reflexivity | exact H1].
Qed.

(** Arguments that are the text of an object as [json.dumps] writes it. *)
Definition canonical_call (c : call) : Prop :=
  let '(_, _, a) := c in exists d, json_loads a = Some (PDict d) /\ json_text (PDict d) = a.

Lemma use_block id name a d : id <> "" -> name <> "" -> json_loads a = Some (PDict d) ->
  tool_use_block (call_value (id, name, a))
  = Some (PDict [("type", PStr "tool_use"); ("id", PStr id); ("name", PStr name); ("input", PDict d)]).
Proof.
  intros Hi Hn Hl. unfold tool_use_block, call_value, dict_at. simpl. rewrite Hl.
  by rewrite !text_or_here by (by apply py_truth_str).
Qed.

Lemma use_read c acc : named c -> canonical_call c -> exists b, tool_use_block (call_value c) = Some b
  /\ assistant_block acc b = (let '(text, reasoning, calls) := acc in Ok (text, reasoning, calls ++ [call_value c])).
Proof.
  destruct c as [[id name] a]. intros [Hi Hn] (d & Hl & Ht). eexists. split; [by apply use_block|].
  assert (Ha : arguments_text (PDict d) = a) by (rewrite <- Ht; by destruct d).
  destruct acc as [[text reasoning] calls]. simpl.
  rewrite !text_or_here by (by apply py_truth_str). unfold arguments_text in Ha.
  change (pget _ "input") with (PDict d). by rewrite Ha.
Qed.

Lemma uses_read calls : Forall named calls -> Forall canonical_call calls -> forall text reasoning l,
  assistant_blocks (text, reasoning, l) (omap tool_use_block (map call_value calls))
  = Ok (text, reasoning, l ++ map call_value calls).
Proof.
  intros Hn. induction Hn as [|c calls Hn _ IH]; intros Hc text reasoning l; [by rewrite app_nil_r|].
  inversion_clear Hc as [|? ? Hc1 Hcs]. cbn [map omap list_omap].
  destruct (use_read c (text, reasoning, l) Hn Hc1) as (b & Eb & Hb).
  change (omap tool_use_block (call_value c :: map call_value calls)) with
    (match tool_use_block (call_value c) with
     | Some b => b :: omap tool_use_block (map call_value calls)
     | None => omap tool_use_block (map call_value calls)
     end).
  rewrite Eb. cbn [assistant_blocks]. rewrite Hb. cbn [res_bind]. rewrite IH by done. by rewrite <- app_assoc.
Qed.

Lemma uses_nil calls : Forall named calls -> Forall canonical_call calls ->
  omap tool_use_block (map call_value calls) = [] -> calls = [].
Proof.
  intros Hn Hc E. pose proof (uses_read calls Hn Hc [] [] []) as H0. rewrite E in H0. simpl in H0.
  injection H0 as H0. by destruct calls.
Qed.

Definition answer_blocks (text reasoning : string) (uses : list pyval) : list pyval :=
  (if String.eqb reasoning "" then [] else [PDict [("type", PStr "thinking"); ("thinking", PStr reasoning)]])
  ++ (if String.eqb text "" then [] else [PDict [("type", PStr "text"); ("text", PStr text)]]) ++ uses.

(** An answer that an agent of the messages API receives and sends back becomes the
    assistant's message it was made from: its text, its reasoning, and its tool calls with their
    ids and names, and their arguments when these are written the way [json.dumps] writes them.
    Only an answer of nothing but reasoning loses its empty text. *)
Theorem anthropic_round_trip (text reasoning : string) (calls : list call)
    (Hnamed : Forall named calls) (Hcanonical : Forall canonical_call calls)
    (Hsome : text = "" -> calls = [] -> reasoning = "") :
  exists m,
    _anthropic_message_to_openai_messages
      [("role", PStr "assistant");
       ("content", PList (_openai_message_to_anthropic_content (message_value text reasoning calls)))] = Ok [m]
    /\ same_fields m (message_value text reasoning calls).
Proof.
  set (uses := omap tool_use_block (map call_value calls)).
  assert (Hcontent : _openai_message_to_anthropic_content (message_value text reasoning calls)
    = or_empty_text (answer_blocks text reasoning uses)).
  { unfold _openai_message_to_anthropic_content, message_value, answer_blocks, uses.
    destruct (String.eqb_spec reasoning "") as [->|Hr], (String.eqb_spec text "") as [->|Ht], calls as [|c calls];
      unfold por, pget, dget_def; simpl;
      repeat (rewrite ?(proj2 (String.eqb_neq _ _) Hr), ?(proj2 (String.eqb_neq _ _) Ht); simpl); reflexivity. }
  rewrite Hcontent. clear Hcontent. unfold _anthropic_message_to_openai_messages. simpl text_or. cbn [pget].
  assert (Hblocks : exists parts,
    assistant_blocks ([], [], [])
      (or_empty_text (answer_blocks text reasoning uses)) = Ok parts
    /\ same_fields (assistant_message parts) (message_value text reasoning calls)).
  { pose proof (uses_read calls Hnamed Hcanonical) as Hu. fold uses in Hu.
    pose proof (uses_nil calls Hnamed Hcanonical) as Hnil. fold uses in Hnil.
    assert (Hno : calls = [] -> uses = []) by (intros ->; done). clearbody uses.
    unfold answer_blocks.
    destruct (String.eqb_spec reasoning "") as [->|Hr], (String.eqb_spec text "") as [->|Ht]; cbn [app].
    - destruct uses as [|b uses]; [rewrite (Hnil eq_refl); eexists; by split|].
      eexists. split; [apply Hu|]. intros k. destruct calls; [by discriminate Hno | done].
    - simpl. eexists. split; [apply Hu|]. unfold message_value.
      rewrite (proj2 (String.eqb_neq _ _) Ht). intros k. simpl. by destruct calls.
    - simpl. unfold por. simpl. rewrite (proj2 (String.eqb_neq _ _) Hr). simpl.
      eexists. split; [apply Hu|]. destruct calls as [|c calls]; [by destruct Hr; apply Hsome|].
      unfold message_value. rewrite (proj2 (String.eqb_neq _ _) Hr). by intros k.
    - simpl. unfold por. simpl. rewrite (proj2 (String.eqb_neq _ _) Hr). simpl.
      eexists. split; [apply Hu|]. unfold message_value.
      rewrite (proj2 (String.eqb_neq _ _) Hr), (proj2 (String.eqb_neq _ _) Ht). intros k. by destruct calls. }
  destruct Hblocks as (parts & E & Hs). exists (assistant_message parts). split; [|exact Hs].
  change (text_or _ ["role"] "user") with "assistant". simpl String.eqb. cbv iota.
  change (pget _ "content") with (PList (or_empty_text (answer_blocks text reasoning uses))).
  cbv iota. by rewrite E.
Qed.
End RoundTrips.

Definition two_calls : list call := [("c1", "run", "{}"); ("c2", "read", json_text (PDict [("path", PStr "a")]))].

Definition two_calls_payload : dict :=
  [("choices", PList [PDict [("message", PDict (message_value "done" "think" two_calls))]])].

Lemma two_calls_named : Forall named two_calls.
Proof. repeat constructor; discriminate. Qed.

Lemma two_calls_answer : exists r, _chat_completion_to_openai_response two_calls_payload [] = Ok r.
Proof. eexists. vm_compute. reflexivity. Qed.

Lemma response_round_trip_witness :
  exists r items st' m, _chat_completion_to_openai_response two_calls_payload [] = Ok r
    /\ pget r "output" = PList items /\ input_items no_input items = Ok st'
    /\ messages st' = [m] /\ same_fields m (message_value "done" "think" two_calls).
Proof.
  destruct two_calls_answer as (r & Hr).
  destruct (response_round_trip two_calls_payload [] r "done" "think" two_calls no_input eq_refl two_calls_named Hr
              (conj eq_refl eq_refl)) as (items & st' & m & H1 & H2 & H3 & _ & H4).
  exists r, items, st', m. repeat split; assumption.
Defined.

Lemma two_calls_canonical : Forall canonical_call two_calls.
Proof. repeat constructor; eexists; split; vm_compute; reflexivity. Qed.

Lemma anthropic_round_trip_witness :
  exists m, _anthropic_message_to_openai_messages
      [("role", PStr "assistant");
       ("content", PList (_openai_message_to_anthropic_content (message_value "" "think" two_calls)))] = Ok [m]
    /\ same_fields m (message_value "" "think" two_calls).
Proof.
  apply (anthropic_round_trip "" "think" two_calls two_calls_named two_calls_canonical).
  intros _. discriminate.
Defined.

(** ** Streamed answers of the responses API *)

Section ResponseItems.
Context `{PyText}.

(** The items that are reported done, with their indexes. *)
Definition done_item (e : sse) : option (pyval * pyval) :=
  match ev_data e with
  | PDict d => if String.eqb (ev_name e) "response.output_item.done"
               then Some (pget d "output_index", pget d "item") else None
  | _ => None
  end.

Definition numbered (k : nat) (l : list pyval) : list (pyval * pyval) :=
  zip (map (fun i => PInt (Z.of_nat i)) (seq k (length l))) l.

Lemma numbered_app k l l' : numbered k (l ++ l') = numbered k l ++ numbered (k + length l) l'.
Proof.
  unfold numbered. rewrite length_app, seq_app, map_app, zip_with_app; [done|]. by rewrite length_map, length_seq.
Qed.

Lemma text_item_done id i text :
  omap done_item (_openai_response_stream_text_item_events id i text)
  = [(PInt (Z.of_nat i), _openai_response_message_item text "completed" id)].
Proof. unfold _openai_response_stream_text_item_events. by destruct (String.eqb text ""). Qed.

Lemma call_item_done rid i it ds :
  omap done_item (_openai_response_stream_function_call_item_events rid i it ds)
  = [(PInt (Z.of_nat i), PDict it)].
Proof.
  unfold _openai_response_stream_function_call_item_events.
  set (deltas := match ds with [] => _ | _ => ds end). clearbody deltas.
  simpl. induction deltas as [|d deltas IH]; simpl; [done|]. exact IH.
Qed.

Lemma reasoning_done reasoning :
  omap done_item (fst (reasoning_events reasoning [])) = numbered 0 (snd (reasoning_events reasoning [])).
Proof. unfold reasoning_events. by destruct (String.eqb reasoning ""). Qed.

Lemma text_done text no_calls out : exists l, snd (text_events text no_calls out) = out ++ l
  /\ omap done_item (fst (text_events text no_calls out)) = numbered (length out) l.
Proof.
  unfold text_events. destruct (_ || _); cbn [fst snd].
  - eexists. split; [reflexivity|]. by rewrite text_item_done.
  - exists []. by rewrite app_nil_r.
Qed.

Lemma calls_done records : forall out, exists l, snd (call_events records out) = out ++ l
  /\ l = map (fun r => PDict (item r)) records
  /\ omap done_item (fst (call_events records out)) = numbered (length out) l.
Proof.
  induction records as [|r records IH]; intros out; cbn [call_events map fst snd].
  - exists []. by rewrite app_nil_r.
  - destruct (IH (out ++ [PDict (item r)])) as (l & El & Em & En).
    destruct (call_events records (out ++ [PDict (item r)])) as [es out'].
    cbn [fst snd] in *. exists (PDict (item r) :: l). split; [by rewrite El, <- app_assoc|].
    split; [by rewrite Em|]. rewrite omap_app, call_item_done, En, length_app. cbn [length].
    change (PDict (item r) :: l) with ([PDict (item r)] ++ l). by rewrite (numbered_app _ [_]).
Qed.

(** A streamed answer of the responses API reports each of its items done exactly once,
    numbered from 0 in the order of the output of its last event, and that output is the one the
    same answer has when it is not streamed: the reasoning, the text unless there are only tool
    calls, and the tool calls in the order of their indexes. *)
Theorem response_stream_items (st : response_state) :
  let reasoning := join "" (reasoning_parts st) in
  let text := join "" (text_parts st) in
  let calls := map (fun r => PDict (item r)) (_openai_stream_tool_call_records (tool_call_deltas st)) in
  let out := response_output reasoning text "rs_proxy_stream" "msg_proxy_stream" calls in
  exists es, response_tail st
    = es ++ [event "response.completed"
               [("response", PDict [("id", PStr "resp_proxy_stream"); ("object", PStr "response");
                                    ("status", PStr "completed"); ("model", PStr (rs_model st));
                                    ("output", PList out);
                                    ("usage", usage_value (default (0, 0, 0)%Z (rs_usage st)))])]]
    /\ omap done_item es = numbered 0 out.
Proof.
  intros reasoning text calls out. unfold response_tail. fold reasoning text.
  set (records := _openai_stream_tool_call_records _) in *.
  pose proof (reasoning_done reasoning) as H1.
  assert (Hout1 : snd (reasoning_events reasoning [])
    = if String.eqb reasoning "" then [] else [_openai_response_reasoning_item reasoning "rs_proxy_stream"])
    by (unfold reasoning_events; by destruct (String.eqb reasoning "")).
  destruct (reasoning_events reasoning []) as [e1 out1]. simpl in H1, Hout1.
  set (no_calls := match records with [] => true | _ => false end).
  destruct (text_done text no_calls out1) as (l2 & E2 & H2).
  assert (Hl2 : l2 = if negb (String.eqb text "") || no_calls
                     then [_openai_response_message_item text "completed" "msg_proxy_stream"] else []).
  { unfold text_events in E2. destruct (_ || _); simpl in E2.
    - by apply app_inv_head in E2.
    - rewrite <- (app_nil_r out1) in E2 at 1. by apply app_inv_head in E2. }
  destruct (text_events text no_calls out1) as [e2 out2]. simpl in E2, H2.
  destruct (calls_done records out2) as (l3 & E3 & Em & H3).
  destruct (call_events records out2) as [e3 out3]. simpl in E3, H3.
  assert (Hout : out3 = out).
  { rewrite E3, E2, Em, Hout1, Hl2. unfold out, response_output, calls, no_calls. rewrite <- app_assoc.
    by destruct records. }
  exists (e1 ++ e2 ++ e3). split.
  - unfold _openai_response_payload. by rewrite <- Hout, <- !app_assoc.
  - rewrite !omap_app, H1, H2, H3, <- Hout, E3, E2, !numbered_app, length_app. by rewrite <- app_assoc.
Qed.
End ResponseItems.
