(* ===== verification/LlmRequests.v ===== *)
(** * Requests through the model proxy ([blackbox_server/proxy/rollout_llm_proxy.py])

    What the proxy does with one request, apart from waiting: which API it speaks and where it
    is sent, the headers it is sent with, what is changed in its body, what the answer of the
    rollout means, and what the agent is answered.  [LlmProxy] puts the steps together.  A body
    in UTF-16 or UTF-32 is not modelled; texts are UTF-8. *)

From Stdlib Require Import Ascii.
From S2P Require Import Prelude.
From S2P Require Import PyFloat.
From S2P Require Import PyVal.
From S2P Require Import Json.
From S2P Require Import LlmConvert.
From S2P Require Import LlmStream.

Local Open Scope string_scope.
Local Open Scope list_scope.
Local Open Scope py_scope.

Abbreviation headers := (list (string * string)) (only parsing).

Definition DRESSAGE_ROLLOUT_INVALIDATED_ERRORS : list string :=
  ["generation_preempted"; "partial_rollout_staleness_exceeded"; "trajectory_version_changed"].

(** ** Settings *)

Record proxy_config : Type := {
  upstream_origin : string;
  router_api_path : string;
  bound_session_id : string;
  bound_instance_id : string;
  sticky_header_name : string;
  bound_sandbox_id : option string;
  max_steps : option Z;
  default_temperature : option float;
  debug_log_dir : option string;
  upstream_headers : headers;
  expected_version : option string;
  model_override : option string;
  sampling_mode : option string;
  sampling_temperature : option float;
  sampling_top_p : option float;
  sampling_seed_base : option Z }.

(** [RolloutLLMProxy.__init__]: the paths lose their trailing slashes, the sampling mode is checked. *)
Definition init_config (c : proxy_config) : result proxy_config :=
  let path := rstrip_slash (router_api_path c) in
  if bool_decide (sampling_mode c ∈ [None; Some "fill_missing"; Some "force"]) then
    Ok {| upstream_origin := rstrip_slash (upstream_origin c);
          router_api_path := if String.eqb path "" then "/" else path;
          bound_session_id := bound_session_id c; bound_instance_id := bound_instance_id c;
          sticky_header_name := sticky_header_name c; bound_sandbox_id := bound_sandbox_id c;
          max_steps := max_steps c; default_temperature := default_temperature c;
          debug_log_dir := debug_log_dir c; upstream_headers := upstream_headers c;
          expected_version := expected_version c; model_override := model_override c;
          sampling_mode := sampling_mode c; sampling_temperature := sampling_temperature c;
          sampling_top_p := sampling_top_p c; sampling_seed_base := sampling_seed_base c |}
  else Raise (ValueError "sampling_mode must be 'fill_missing', 'force', or None").

(** ** Addresses *)

Definition ends (suffix s : string) : bool :=
  (String.length suffix <=? String.length s)%nat
  && String.eqb (drop_str (String.length s - String.length suffix) s) suffix.

Fixpoint lstrip_slash (s : string) : string :=
  match s with
  | String c s' => if bool_decide (c = "/"%char) then lstrip_slash s' else s
  | EmptyString => ""
  end.

(** [method.upper() == "POST"] and the last parts of the path *)
Definition is_post (method path last : string) : bool :=
  String.eqb (lower method) "post" && ends last (rstrip_slash ("/" +:+ path)).

Definition _is_chat_completion (method path : string) : bool := is_post method path "/chat/completions".
Definition _is_anthropic_messages (method path : string) : bool := is_post method path "/messages".
Definition _is_openai_responses (method path : string) : bool := is_post method path "/responses".

(** The kinds of requests; the three model requests exclude one another. *)
Inductive kind : Type := KChat | KAnthropic | KResponses | KOther.

#[export] Instance kind_eq_dec : EqDecision kind.
Proof. solve_decision. Defined.

Definition request_kind (method path : string) : kind :=
  if _is_chat_completion method path then KChat
  else if _is_anthropic_messages method path then KAnthropic
  else if _is_openai_responses method path then KResponses
  else KOther.

Definition is_model_request (k : kind) : bool := match k with KOther => false | _ => true end.

Definition _join_upstream (c : proxy_config) (path query : string) : string :=
  let url := upstream_origin c +:+ "/" +:+ lstrip_slash path in
  if String.eqb query "" then url else url +:+ "?" +:+ query.

Definition _openai_chat_completions_upstream_url (c : proxy_config) : string :=
  if String.eqb (router_api_path c) "/" then upstream_origin c +:+ "/chat/completions"
  else upstream_origin c +:+ router_api_path c +:+ "/chat/completions".

Definition upstream_url (c : proxy_config) (k : kind) (path query : string) : string :=
  match k with
  | KAnthropic | KResponses => _openai_chat_completions_upstream_url c
  | _ => _join_upstream c path query
  end.

Definition _control_url (c : proxy_config) (endpoint : string) : string :=
  let endpoint := if starts "/" endpoint then endpoint else "/" +:+ endpoint in
  let base := if String.eqb (router_api_path c) "/" then upstream_origin c
              else rstrip_slash (upstream_origin c +:+ router_api_path c) in
  base +:+ endpoint.

(** ** Headers *)

Definition same_name (a b : string) : bool := String.eqb (lower a) (lower b).

Definition _set_header (h : headers) (name value : string) : headers :=
  dset (List.filter (fun kv => negb (same_name (fst kv) name)) h) name value.

Definition set_headers (h l : headers) : headers := foldl (fun h kv => _set_header h (fst kv) (snd kv)) h l.

Definition reserved_headers (c : proxy_config) (is_chat is_anthropic : bool) : list string :=
  ["host"; "content-length"; "transfer-encoding"]
  ++ (if is_chat
      then ["accept-encoding"; lower (sticky_header_name c); "x-session-id"; "x-instance-id"; "x-turn-id";
            "x-dressage-partial-rollout"; "x-dressage-expected-version"; "x-dressage-sandbox-id"]
      else [])
  ++ (if is_anthropic
      then ["anthropic-beta"; "anthropic-dangerous-direct-browser-access"; "anthropic-version"; "x-app";
            "x-claude-code-session-id"]
      else []).

(** Whether a header of the client is handed on. *)
Definition handed_on (c : proxy_config) (is_chat is_anthropic : bool) (name : string) : bool :=
  negb (bool_decide (lower name ∈ reserved_headers c is_chat is_anthropic))
  && negb (is_anthropic && starts "x-stainless-" (lower name)).

Definition client_headers (c : proxy_config) (is_chat is_anthropic : bool) (original : headers) : headers :=
  foldl (fun h kv => if handed_on c is_chat is_anthropic (fst kv) then dset h (fst kv) (snd kv) else h)
        [] original.

Definition opt_header (name : string) (v : option string) : headers :=
  match v with None | Some "" => [] | Some v => [(name, v)] end.

(** What a model request is sent with, in the order it is set. *)
Definition bound_headers (c : proxy_config) (version turn_id : option string) : headers :=
  [(sticky_header_name c, bound_session_id c); ("X-Session-Id", bound_session_id c);
   ("X-Instance-Id", bound_instance_id c)]
  ++ opt_header "X-Turn-Id" turn_id
  ++ opt_header "X-Dressage-Sandbox-Id" (bound_sandbox_id c)
  ++ [("X-Dressage-Partial-Rollout", "1")]
  ++ match version with None => [] | Some v => [("X-Dressage-Expected-Version", v)] end
  ++ [("Accept-Encoding", "identity")].

Definition _build_upstream_headers (c : proxy_config) (version : option string) (original : headers)
    (is_chat is_anthropic : bool) (turn_id : option string) : headers :=
  let h := set_headers (client_headers c is_chat is_anthropic original) (upstream_headers c) in
  if is_chat then set_headers h (bound_headers c version turn_id) else h.

Definition control_headers (c : proxy_config) (version : option string) : headers :=
  set_headers (upstream_headers c)
    ([("X-Session-Id", bound_session_id c); ("X-Instance-Id", bound_instance_id c)]
     ++ match version with None => [] | Some v => [("X-Dressage-Expected-Version", v)] end).

Fixpoint contains (needle s : string) : bool :=
  starts needle s || match s with String _ s' => contains needle s' | EmptyString => false end.

Definition secret_header (c : proxy_config) (name : string) : bool :=
  let n := lower name in
  bool_decide (n ∈ map (fun kv => lower (fst kv)) (upstream_headers c))
  || bool_decide (n ∈ ["authorization"; "proxy-authorization"; "cookie"; "set-cookie"; "x-api-key"; "api-key";
                       "apikey"])
  || contains "token" n || ends "-api-key" n.

Definition _redact_headers (c : proxy_config) (h : headers) : headers :=
  map (fun kv => if secret_header c (fst kv) then (fst kv, "<redacted>") else kv) h.

(** ** Bytes *)

(** [bytes.decode("utf-8")] succeeds; [surrogates] is the error handler ["surrogatepass"]. *)
Definition next_bytes (surrogates : bool) (b : ascii) : option (list (N * N)) :=
  if surrogates && bool_decide (b = byte 237) then Some [cont; cont] else followers b.

Fixpoint utf8_from (surrogates : bool) (expected : list (N * N)) (s : string) : bool :=
  match s, expected with
  | EmptyString, [] => true
  | EmptyString, _ => false
  | String b s', [] =>
      match next_bytes surrogates b with Some l => utf8_from surrogates l s' | None => false end
  | String b s', r :: l => in_range b r && utf8_from surrogates l s'
  end.

Definition utf8_ok (surrogates : bool) (s : string) : bool := utf8_from surrogates [] s.

(** [json.loads(body.decode("utf-8"))], [None] where it raises. *)
Definition loads_strict `{PyText} (body : string) : option pyval := if utf8_ok false body then json_loads body else None.

(** [json.loads(body)] of bytes: a mark at the start is skipped; what is not UTF-8 raises
    [UnicodeDecodeError], what is not JSON is [None]. *)
Definition loads_bytes `{PyText} (body : string) : result (option pyval) :=
  let body := match body with
              | String a (String b (String c rest)) =>
                  if bool_decide ([a; b; c] = [byte 239; byte 187; byte 191]) then rest else body
              | _ => body
              end in
  if utf8_ok true body then Ok (json_loads body) else Raise (ValueError "invalid UTF-8").

(** The characters of a UTF-8 text. *)
Fixpoint chars_from (cur s : string) : list string :=
  match s with
  | EmptyString => if String.eqb cur "" then [] else [cur]
  | String b s' =>
      if in_range b cont || String.eqb cur "" then chars_from (cur +:+ String b "") s'
      else cur :: chars_from (String b "") s'
  end.

Definition characters (s : string) : list string := chars_from "" s.

Definition hex_byte (b : ascii) : string :=
  let n := N_of_ascii b in String (hex_lower (n / 16)) (String (hex_lower (n mod 16)) "").

Fixpoint hex_text (s : string) : string :=
  match s with EmptyString => "" | String b s' => hex_byte b +:+ hex_text s' end.

Definition control_char (ch : string) : bool :=
  match ch with
  | String b "" => (N_of_ascii b <? 32)%N && negb (bool_decide (b ∈ [byte 9; byte 10; byte 13]))
  | _ => false
  end.

Definition binary_preview (body : string) (limit : nat) : string :=
  let hex_limit := Nat.min limit 96 in
  "<" +:+ str_of_Z (Z.of_nat (String.length body)) +:+ " bytes binary; hex="
  +:+ hex_text (String.substring 0 hex_limit body)
  +:+ (if (hex_limit <? String.length body)%nat then "...(truncated)" else "") +:+ ">".

Definition _preview_bytes (body : string) (limit : nat) : string :=
  if String.eqb body "" then ""
  else if negb (utf8_ok false body) then binary_preview body limit
  else
    let text := characters body in
    let sample := take limit text in
    if (Nat.max 8 (length sample / 10) <? count_by control_char sample)%nat then binary_preview body limit
    else if (length text <=? limit)%nat then body
    else join "" (take limit text) +:+ "...(truncated)".

(** ** The body of a request *)

Record prepared : Type := {
  p_kind : kind;
  p_body : option dict;      (* [body_json] *)
  p_original : dict;         (* the body before it was translated *)
  p_streaming : bool;
  p_bytes : string }.

Section Requests.
Context `{PyText}.

(** What is read and translated before the request is entered; only a JSON object is. *)
Definition prepare (k : kind) (body : string) : result prepared :=
  let! parsed := if String.eqb body "" then Ok None else loads_bytes body in
  match parsed with
  | Some (PDict d) =>
      let streaming := is_model_request k && py_truth (dget_def (PBool false) d "stream") in
      let! body_json := match k with
                        | KAnthropic => _anthropic_messages_to_openai_chat_completion d
                        | KResponses => _openai_responses_to_chat_completion d
                        | _ => Ok d
                        end in
      Ok {| p_kind := k; p_body := Some body_json; p_original := d; p_streaming := streaming; p_bytes := body |}
  | _ => Ok {| p_kind := k; p_body := None; p_original := []; p_streaming := false; p_bytes := body |}
  end.

(** [len(v)] *)
Definition py_len (v : pyval) : result nat :=
  match v with
  | PList l => Ok (length l)
  | PDict d => Ok (length d)
  | PStr s => Ok (length (characters s))
  | _ => Raise (TypeError "object has no len()")
  end.

Definition forced (c : proxy_config) : bool := bool_decide (sampling_mode c = Some "force").

Definition override_model (c : proxy_config) (body : dict) : dict :=
  match model_override c with
  | Some m => if phas body "model" then dset body "model" (PStr m) else body
  | None => body
  end.

(** [body[k] = v] when the policy forces it or the request leaves it open. *)
Definition policy_value (c : proxy_config) (k : string) (v : option pyval) (body : dict) : dict :=
  match v with
  | Some v => if forced c || is_pnone (pget body k) then dset body k v else body
  | None => body
  end.

(** The sampling policy; [seq] counts the requests it was applied to. *)
Definition sampling_policy (c : proxy_config) (seq : Z) (body : dict) : dict * Z :=
  match sampling_mode c with
  | None => (body, seq)
  | Some _ =>
      let body := policy_value c "temperature" (PFloat <$> sampling_temperature c) body in
      let body := policy_value c "top_p" (PFloat <$> sampling_top_p c) body in
      let body := policy_value c "seed" ((fun base => PInt (base + seq)%Z) <$> sampling_seed_base c) body in
      (body, (seq + 1)%Z)
  end.

Definition default_temperature_value (c : proxy_config) (body : dict) : dict :=
  match default_temperature c with
  | Some t => if is_pnone (pget body "temperature") then dset body "temperature" (PFloat t) else body
  | None => body
  end.

Definition stream_options (body : dict) : dict :=
  if py_truth (dget_def (PBool false) body "stream")
  then dset body "stream_options" (PDict (dset (dict_at body "stream_options") "include_usage" (PBool true)))
  else dpop body "stream_options".

Definition rewrite_body (c : proxy_config) (seq : Z) (body : dict) : dict * Z :=
  let '(body, seq) := sampling_policy c seq (override_model c body) in
  (stream_options (default_temperature_value c body), seq).

(** What is sent for a request that was entered, and the new count.  The length of the messages
    is computed for the log, and raises when they have none. *)
Definition outgoing (c : proxy_config) (seq : Z) (p : prepared) : result (string * Z) :=
  match p_body p with
  | Some body =>
      if is_model_request (p_kind p) then
        let! _ := py_len (dget_def (PList []) body "messages") in
        let '(body, seq) := rewrite_body c seq body in
        Ok (if py_eqb (PDict body) (PDict (p_original p)) then p_bytes p else json_text (PDict body), seq)
      else Ok (p_bytes p, seq)
  | None => Ok (p_bytes p, seq)
  end.

(** ** What the rollout answered *)

Record upstream : Type := { u_status : Z; u_headers : headers; u_content : string }.

Definition code_of (d : dict) : pyval := por (pget d "code") (pget d "error").

Definition _context_overflow_payload_from_response (status_code : Z) (body : string) : option dict :=
  if negb (status_code =? 413)%Z || String.eqb body "" then None
  else match loads_strict body with
       | Some (PDict d) => if is_text (code_of d) "context_overflow" then Some d else None
       | _ => None
       end.

Definition _rollout_invalidated_payload_from_response (status_code : Z) (body : string) : result (option dict) :=
  if negb (status_code =? 502)%Z || String.eqb body "" then Ok None
  else match loads_strict body with
       | Some (PDict d) =>
           let candidate := match pget d "detail" with PDict x => x | _ => d end in
           let! known := in_set (code_of candidate) DRESSAGE_ROLLOUT_INVALIDATED_ERRORS in
           Ok (if known then Some candidate else None)
       | _ => Ok None
       end.

(** An error in the first event of a stream whose status was sent before the answer was known. *)
Definition payload_error (payload : string) : option (Z * string) :=
  if String.eqb payload "[DONE]" then None
  else match json_loads payload with
       | Some (PDict d) =>
           match pget d "error" with
           | PDict error =>
               match pget error "status_code" with
               | PInt z => if (400 <=? z)%Z && (z <=? 599)%Z then Some (z, json_text (PDict error)) else None
               | _ => None
               end
           | _ => None
           end
       | _ => None
       end.

Definition _sniff_first_frame_error (frame : string) : option (Z * string) :=
  if utf8_ok false frame then head (omap payload_error (_payloads_from_sse_event frame)) else None.
End Requests.

(** [buffer.find(b"\n\n")]: the first frame and what follows it. *)
Fixpoint cut_frame (cur s : string) : option (string * string) :=
  match s with
  | String c (String c1 s1 as s') =>
      if bool_decide (c = lf_char) && bool_decide (c1 = lf_char) then Some (cur, s1)
      else cut_frame (cur +:+ String c "") s'
  | _ => None
  end.

(** [frame.strip()] of bytes is empty *)
Definition byte_space (b : ascii) : bool := in_range b (9, 13)%N || in_range b (32, 32)%N.
Fixpoint blank_frame (s : string) : bool :=
  match s with EmptyString => true | String b s' => byte_space b && blank_frame s' end.

Fixpoint lstrip_lines (s : string) : string :=
  match s with
  | String b s' => if bool_decide (b ∈ [byte 10; byte 13]) then lstrip_lines s' else s
  | EmptyString => ""
  end.

(** An empty frame or a comment that keeps the connection alive. *)
Definition keepalive (frame : string) : bool := blank_frame frame || starts ":" (lstrip_lines frame).

(** The frames of [buffer] up to the first that is not kept back: that frame and what is behind
    it, or what is left. *)
Fixpoint first_frame (fuel : nat) (buffer : string) : (string * string) + string :=
  match fuel with
  | O => inr buffer
  | S fuel =>
      match cut_frame "" buffer with
      | None => inr buffer
      | Some (frame, rest) => if keepalive frame then first_frame fuel rest else inl (frame, rest)
      end
  end.

Definition lf2 : string := lf +:+ lf.

(** One chunk of [_drain_keepalive_prelude]: what was kept, or the result. *)
Definition prelude_chunk `{PyText} (buffer chunk : string) : (string * option (Z * string)) + string :=
  let buffer := buffer +:+ chunk in
  match first_frame (String.length buffer) buffer with
  | inl (frame, rest) => inl (frame +:+ lf2 +:+ rest, _sniff_first_frame_error frame)
  | inr buffer => inr buffer
  end.

(** The first bytes and the error, and the chunks that were not read. *)
Fixpoint drain_prelude `{PyText} (buffer : string) (chunks : list string)
    : string * option (Z * string) * list string :=
  match chunks with
  | [] => (buffer, None, [])
  | c :: chunks =>
      match prelude_chunk buffer c with
      | inl (first, error) => (first, error, chunks)
      | inr buffer => drain_prelude buffer chunks
      end
  end.

Definition _drain_keepalive_prelude `{PyText} (chunks : list string) : string * option (Z * string) * list string :=
  drain_prelude "" chunks.

(** ** Answers for the agent *)

Record answer : Type := { a_status : Z; a_headers : headers; a_type : option string; a_body : string }.

Definition json_answer (status : Z) (body : string) : answer :=
  {| a_status := status; a_headers := []; a_type := Some "application/json"; a_body := body |}.
Definition event_answer (body : string) : answer :=
  {| a_status := 200; a_headers := []; a_type := Some "text/event-stream"; a_body := body |}.

(** The headers of the rollout's answer that still hold for the agent's. *)
Definition response_headers (h : headers) : headers :=
  dpop (dpop (dpop h "content-encoding") "transfer-encoding") "content-length".

Section Answers.
Context `{PyText}.

Definition three_counts : pyval :=
  PDict [("prompt_tokens", PInt 0); ("completion_tokens", PInt 0); ("total_tokens", PInt 0)].

Definition synthetic_choice (key : string) : pyval :=
  PList [PDict [("index", PInt 0); (key, PDict [("role", PStr "assistant"); ("content", PStr "")]);
                ("finish_reason", PStr "stop")]].

Definition _synthetic_chat_completion_response : answer :=
  json_answer 200 (json_text (PDict [
    ("id", PStr "chatcmpl-rollout-invalidated"); ("object", PStr "chat.completion"); ("created", PInt 0);
    ("model", PStr "proxy-model"); ("choices", synthetic_choice "message"); ("usage", three_counts)])).

Definition _synthetic_chat_completion_stream_response : answer :=
  event_answer ("data: " +:+ json_text (PDict [
    ("id", PStr "chatcmpl-rollout-invalidated"); ("object", PStr "chat.completion.chunk"); ("created", PInt 0);
    ("model", PStr "proxy-model"); ("choices", synthetic_choice "delta")]) +:+ lf2
    +:+ "data: [DONE]" +:+ lf2).

Definition _synthetic_openai_response : answer :=
  json_answer 200 (json_text (PDict [
    ("id", PStr "resp-rollout-invalidated"); ("object", PStr "response"); ("status", PStr "completed");
    ("model", PStr "proxy-model");
    ("output", PList [PDict [("type", PStr "message"); ("role", PStr "assistant");
                             ("content", PList [PDict [("type", PStr "output_text"); ("text", PStr "")]])]]);
    ("usage", usage_value (0, 0, 0)%Z)])).

Definition events_text (es : list sse) : string := join "" (map sse_bytes es).

Definition _synthetic_openai_response_stream_response : answer :=
  event_answer (events_text
    (_openai_response_stream_events_for_text "resp-rollout-invalidated" "proxy-model" "" (0, 0, 0)%Z)).

Definition _synthetic_anthropic_message_response : answer :=
  json_answer 200 (json_text (PDict [
    ("id", PStr "msg_rollout_invalidated"); ("type", PStr "message"); ("role", PStr "assistant");
    ("model", PStr "proxy-model"); ("content", PList [PDict [("type", PStr "text"); ("text", PStr "")]]);
    ("stop_reason", PStr "end_turn"); ("stop_sequence", PNone); ("usage", no_usage)])).

Definition _synthetic_anthropic_message_stream_response : answer :=
  event_answer (events_text [
    event "message_start" [("message", PDict [
      ("id", PStr "msg_rollout_invalidated"); ("type", PStr "message"); ("role", PStr "assistant");
      ("model", PStr "proxy-model"); ("content", PList []); ("stop_reason", PNone); ("stop_sequence", PNone);
      ("usage", no_usage)])];
    event "message_delta" [("delta", PDict [("stop_reason", PStr "end_turn"); ("stop_sequence", PNone)]);
                           ("usage", PDict [("output_tokens", PInt 0)])];
    event "message_stop" []]).

Definition synthetic_answer (k : kind) (streaming : bool) : answer :=
  match k, streaming with
  | KAnthropic, false => _synthetic_anthropic_message_response
  | KAnthropic, true => _synthetic_anthropic_message_stream_response
  | KResponses, false => _synthetic_openai_response
  | KResponses, true => _synthetic_openai_response_stream_response
  | _, false => _synthetic_chat_completion_response
  | _, true => _synthetic_chat_completion_stream_response
  end.

Definition anthropic_error (error_type message : string) : pyval :=
  PDict [("type", PStr "error"); ("error", PDict [("type", PStr error_type); ("message", PStr message)])].

Definition status_message (status : Z) (body : string) : string :=
  let preview := _preview_bytes body 1000 in
  "Upstream returned HTTP " +:+ str_of_Z status +:+ (if String.eqb preview "" then "" else ": " +:+ preview).

Definition _anthropic_non_retry_upstream_error_response (status : Z) (body : string) : answer :=
  json_answer 400 (json_text (anthropic_error "upstream_error" (status_message status body))).

Definition _anthropic_error_response_from_bytes (status : Z) (body : string) : answer :=
  let message := if String.eqb body "" then "Upstream error." else _preview_bytes body 1000 in
  let parsed := if String.eqb body "" then PDict [] else default (PDict []) (loads_strict body) in
  let '(error_type, message) :=
    match parsed with
    | PDict d =>
        match pget d "error" with
        | PDict e => (text_or e ["type"; "code"] "api_error", text_or e ["message"] message)
        | _ => ("api_error", if is_pnone (pget d "message") then message else py_str (pget d "message"))
        end
    | _ => ("api_error", message)
    end in
  json_answer status (json_text (anthropic_error error_type message)).

(** The answer to an error of the rollout that is not taken for an invalidated rollout. *)
Definition error_answer (k : kind) (u : upstream) (content_type : option string) : answer :=
  match k with
  | KAnthropic =>
      if ((500 <=? u_status u) && (u_status u <? 600))%Z
      then _anthropic_non_retry_upstream_error_response (u_status u) (u_content u)
      else _anthropic_error_response_from_bytes (u_status u) (u_content u)
  | _ =>
      let h := response_headers (u_headers u) in
      {| a_status := u_status u;
         a_headers := match content_type with None => h | Some t => dset h "content-type" t end;
         a_type := None; a_body := u_content u |}
  end.

(** The dictionary a complete answer is read as. *)
Definition answer_dict (content : string) : result dict :=
  let! v := loads_bytes content in Ok (match v with Some (PDict d) => d | _ => [] end).

Definition translated_answer (u : upstream) (d : dict) : answer :=
  {| a_status := u_status u; a_headers := dset (response_headers (u_headers u)) "content-type" "application/json";
     a_type := Some "application/json"; a_body := json_text (PDict d) |}.

(** The answer to a complete answer of the rollout. *)
Definition success_answer (k : kind) (original_request : dict) (u : upstream) : result answer :=
  match k with
  | KAnthropic =>
      let! d := answer_dict (u_content u) in
      let! m := _openai_chat_completion_to_anthropic_message d in
      Ok (translated_answer u m)
  | KResponses =>
      let! d := answer_dict (u_content u) in
      let! r := _chat_completion_to_openai_response d original_request in
      Ok (translated_answer u r)
  | _ => Ok {| a_status := u_status u; a_headers := response_headers (u_headers u); a_type := None;
               a_body := u_content u |}
  end.

(** What is streamed to the agent for the chunks of a streamed answer, and how it ends. *)
Definition streamed_body (k : kind) (original_request : dict) (first : string) (chunks : list string)
    : string * result unit :=
  match k with
  | KAnthropic => let '(es, r) := _iter_anthropic_events_from_openai_stream first chunks in (events_text es, r)
  | KResponses =>
      let '(es, r) := _iter_openai_response_events_from_chat_stream first chunks original_request in
      (events_text es, r)
  | _ => (first +:+ join "" chunks, Ok tt)
  end.
End Answers.

(** ** What is recorded of an error *)

Section Dumps.
Context `{PyText}.

Definition header_dict (h : headers) : pyval := PDict (map (fun kv => (fst kv, PStr (snd kv))) h).

Definition list_length (v : pyval) : pyval :=
  PInt (Z.of_nat (match v with PList l => length l | _ => 0%nat end)).

Definition _json_body_or_none (body : string) : pyval :=
  if String.eqb body "" then PNone else default PNone (loads_strict body).

Definition _upstream_request_dump (c : proxy_config) (url : string) (status_code : Z) (h : headers) (body : string)
    : pyval :=
  let parsed := match _json_body_or_none body with PDict d => Some d | _ => None end in
  let d := default [] parsed in
  PDict [("upstream_url", PStr url); ("status_code", PInt status_code);
         ("headers", header_dict (_redact_headers c h));
         ("top_level_keys", PList (map PStr (sort_by (fun a b => bool_decide (String.le a b)) (dkeys d))));
         ("message_count", list_length (pget d "messages")); ("tool_count", list_length (pget d "tools"));
         ("has_thinking", PBool (phas d "thinking")); ("has_metadata", PBool (phas d "metadata"));
         ("has_stream_options", PBool (phas d "stream_options"));
         ("body", match parsed with Some d => PDict d | None => PStr (_preview_bytes body (100 * 100)) end)].

Definition _upstream_response_dump (c : proxy_config) (status_code : Z) (h : headers) (body : string) : pyval :=
  PDict ([("status_code", PInt status_code); ("headers", header_dict (_redact_headers c h));
          ("body_preview", PStr (_preview_bytes body (100 * 100)))]
         ++ match _json_body_or_none body with PNone => [] | v => [("body", v)] end).

Definition safe_char (b : ascii) : bool :=
  in_range b (48, 57)%N || in_range b (65, 90)%N || in_range b (97, 122)%N
  || bool_decide (b ∈ [byte 45; byte 95; byte 46]).

(** [_safe_filename] on identifiers, which are ASCII. *)
Fixpoint _safe_filename (s : string) : string :=
  match s with
  | EmptyString => ""
  | String b s' => String (if safe_char b then b else byte 95) (_safe_filename s')
  end.

Definition dump_path (dir what : string) (turn_id : option string) (step : Z) : string :=
  let name := match turn_id with None | Some "" => "untagged" | Some t => t end in
  dir +:+ "/" +:+ what +:+ "." +:+ _safe_filename name +:+ "." +:+ str_of_Z step +:+ ".json".

(** [write_error]: the [OSError] that writing the two dumps raised. *)
Definition _failed_upstream_error_payload (c : proxy_config) (turn_id : option string) (step : Z) (url : string)
    (u : upstream) (write_error : option string) : dict :=
  [("error", PStr "upstream_request_failed"); ("message", PStr (status_message (u_status u) (u_content u)));
   ("status_code", PInt (u_status u)); ("upstream_url", PStr url);
   ("turn_id", match turn_id with Some t => PStr t | None => PNone end); ("step", PInt step)]
  ++ match debug_log_dir c, write_error with
     | None, _ => []
     | Some _, Some e => [("dump_error", PStr e)]
     | Some dir, None =>
         [("request_path", PStr (dump_path dir "upstream_request" turn_id step));
          ("response_path", PStr (dump_path dir "upstream_response" turn_id step))]
     end.
End Dumps.
