(* ===== verification/LlmProxy.v ===== *)
(** * The model proxy of a session ([blackbox_server/proxy/rollout_llm_proxy.py])

    A turn opens a scope; the agent's model requests enter it one by one, get a step number
    each, and are counted while they are in flight, so that the turn can be drained.  A request
    is cut at its awaits (waiting for a resume, sending, reading an error, the first event and
    the others, closing the stream); what the rollout answers, and when, is the environment's.
    No section under [_scope_lock] awaits, so the lock is always free and taking it is not an
    await.  [rq_marked] is a ghost: the request was counted and not discounted. *)

From S2P Require Import Prelude.
From S2P Require Import PyFloat.
From S2P Require Import PyVal.
From S2P Require Import Json.
From S2P Require Import LlmConvert.
From S2P Require Import LlmStream.
From S2P Require Import LlmRequests.

Local Open Scope string_scope.
Local Open Scope list_scope.
Local Open Scope py_scope.

(** ** State *)

Record _TurnScope : Type := {
  turn_id : string;
  backend_session_id : option string;
  step_counter : nat;
  inflight_requests : nat;
  context_overflow_error : option dict;
  rollout_invalidated_error : option dict;
  max_steps_error : option dict;
  failed_upstream_error : option dict;
  drained : bool;
  max_steps_exceeded : bool }.

Definition new_scope (id : string) (backend : option string) : _TurnScope := {|
  turn_id := id; backend_session_id := backend; step_counter := 0; inflight_requests := 0;
  context_overflow_error := None; rollout_invalidated_error := None; max_steps_error := None;
  failed_upstream_error := None; drained := true; max_steps_exceeded := false |}.

Record _TurnSnapshot : Type := {
  sn_turn_id : option string;
  sn_backend_session_id : option string;
  sn_step : nat;
  sn_scope : option nat;          (* the scope object *)
  sn_max_steps_exceeded : bool }.

Inductive outcome : Type :=
| Answered (a : answer)
| Streamed (status : Z) (h : headers) (media_type body : string) (r : result unit)
| Raised (e : exn).

Inductive pc : Type :=
| WaitResume
| Sending
| Reading (status : Z) (h : headers)                    (* [aread] of an error *)
| Opening (status : Z) (h : headers) (buffer : string)  (* [_drain_keepalive_prelude] *)
| Forwarding (status : Z) (h : headers) (first : string) (chunks : list string)
| Closing (o : outcome)                                 (* [aclose], then the outcome *)
| Ended (o : outcome).

Record request : Type := {
  rq_url : string;
  rq_client : headers;
  rq_prepared : prepared;
  rq_snapshot : option _TurnSnapshot;
  rq_sent : option (headers * string);
  rq_marked : bool;
  rq_pc : pc }.

Record proxy : Type := {
  config : proxy_config;
  scopes : list _TurnScope;
  _turn_scope : option nat;
  _paused : bool;
  _pause_reason : option string;
  _current_version : option string;
  _resume_event : bool;
  _pause_started_at : option Z;
  _total_paused_seconds : Z;
  _sampling_request_sequence : Z;
  requests : list request }.

Definition initial_proxy (c : proxy_config) : proxy := {|
  config := c; scopes := []; _turn_scope := None; _paused := false; _pause_reason := None;
  _current_version := expected_version c; _resume_event := true; _pause_started_at := None;
  _total_paused_seconds := 0; _sampling_request_sequence := 0; requests := [] |}.

Definition RolloutLLMProxy__init__ (c : proxy_config) : result proxy :=
  let! c := init_config c in Ok (initial_proxy c).

(** ** Updates *)

Definition with_scopes (l : list _TurnScope) (p : proxy) : proxy := {|
  config := config p; scopes := l; _turn_scope := _turn_scope p; _paused := _paused p;
  _pause_reason := _pause_reason p; _current_version := _current_version p; _resume_event := _resume_event p;
  _pause_started_at := _pause_started_at p; _total_paused_seconds := _total_paused_seconds p;
  _sampling_request_sequence := _sampling_request_sequence p; requests := requests p |}.

Definition with_turn (t : option nat) (p : proxy) : proxy := {|
  config := config p; scopes := scopes p; _turn_scope := t; _paused := _paused p;
  _pause_reason := _pause_reason p; _current_version := _current_version p; _resume_event := _resume_event p;
  _pause_started_at := _pause_started_at p; _total_paused_seconds := _total_paused_seconds p;
  _sampling_request_sequence := _sampling_request_sequence p; requests := requests p |}.

Definition with_requests (l : list request) (p : proxy) : proxy := {|
  config := config p; scopes := scopes p; _turn_scope := _turn_scope p; _paused := _paused p;
  _pause_reason := _pause_reason p; _current_version := _current_version p; _resume_event := _resume_event p;
  _pause_started_at := _pause_started_at p; _total_paused_seconds := _total_paused_seconds p;
  _sampling_request_sequence := _sampling_request_sequence p; requests := l |}.

Definition with_sequence (n : Z) (p : proxy) : proxy := {|
  config := config p; scopes := scopes p; _turn_scope := _turn_scope p; _paused := _paused p;
  _pause_reason := _pause_reason p; _current_version := _current_version p; _resume_event := _resume_event p;
  _pause_started_at := _pause_started_at p; _total_paused_seconds := _total_paused_seconds p;
  _sampling_request_sequence := n; requests := requests p |}.

Definition with_pause (paused : bool) (reason version : option string) (since : option Z) (total : Z) (p : proxy)
    : proxy := {|
  config := config p; scopes := scopes p; _turn_scope := _turn_scope p; _paused := paused;
  _pause_reason := reason; _current_version := version; _resume_event := negb paused;
  _pause_started_at := since; _total_paused_seconds := total;
  _sampling_request_sequence := _sampling_request_sequence p; requests := requests p |}.

Definition on_scope (i : nat) (f : _TurnScope -> _TurnScope) (p : proxy) : proxy :=
  with_scopes (alter f i (scopes p)) p.

Definition set_counts (steps inflight : nat) (d : bool) (s : _TurnScope) : _TurnScope := {|
  turn_id := turn_id s; backend_session_id := backend_session_id s; step_counter := steps;
  inflight_requests := inflight; context_overflow_error := context_overflow_error s;
  rollout_invalidated_error := rollout_invalidated_error s; max_steps_error := max_steps_error s;
  failed_upstream_error := failed_upstream_error s; drained := d; max_steps_exceeded := max_steps_exceeded s |}.

Definition set_backend (b : string) (s : _TurnScope) : _TurnScope := {|
  turn_id := turn_id s; backend_session_id := Some b; step_counter := step_counter s;
  inflight_requests := inflight_requests s; context_overflow_error := context_overflow_error s;
  rollout_invalidated_error := rollout_invalidated_error s; max_steps_error := max_steps_error s;
  failed_upstream_error := failed_upstream_error s; drained := drained s; max_steps_exceeded := max_steps_exceeded s |}.

Definition set_overflow (e : option dict) (s : _TurnScope) : _TurnScope := {|
  turn_id := turn_id s; backend_session_id := backend_session_id s; step_counter := step_counter s;
  inflight_requests := inflight_requests s; context_overflow_error := e;
  rollout_invalidated_error := rollout_invalidated_error s; max_steps_error := max_steps_error s;
  failed_upstream_error := failed_upstream_error s; drained := drained s; max_steps_exceeded := max_steps_exceeded s |}.

Definition set_invalidated (e : option dict) (s : _TurnScope) : _TurnScope := {|
  turn_id := turn_id s; backend_session_id := backend_session_id s; step_counter := step_counter s;
  inflight_requests := inflight_requests s; context_overflow_error := context_overflow_error s;
  rollout_invalidated_error := e; max_steps_error := max_steps_error s;
  failed_upstream_error := failed_upstream_error s; drained := drained s; max_steps_exceeded := max_steps_exceeded s |}.

Definition set_max_steps (e : option dict) (s : _TurnScope) : _TurnScope := {|
  turn_id := turn_id s; backend_session_id := backend_session_id s; step_counter := step_counter s;
  inflight_requests := inflight_requests s; context_overflow_error := context_overflow_error s;
  rollout_invalidated_error := rollout_invalidated_error s; max_steps_error := e;
  failed_upstream_error := failed_upstream_error s; drained := drained s;
  max_steps_exceeded := match e with Some _ => true | None => false end |}.

Definition set_failed (e : option dict) (s : _TurnScope) : _TurnScope := {|
  turn_id := turn_id s; backend_session_id := backend_session_id s; step_counter := step_counter s;
  inflight_requests := inflight_requests s; context_overflow_error := context_overflow_error s;
  rollout_invalidated_error := rollout_invalidated_error s; max_steps_error := max_steps_error s;
  failed_upstream_error := e; drained := drained s; max_steps_exceeded := max_steps_exceeded s |}.

Definition at_pc (c : pc) (r : request) : request := {|
  rq_url := rq_url r; rq_client := rq_client r; rq_prepared := rq_prepared r; rq_snapshot := rq_snapshot r;
  rq_sent := rq_sent r; rq_marked := rq_marked r; rq_pc := c |}.

Definition unmarked (r : request) : request := {|
  rq_url := rq_url r; rq_client := rq_client r; rq_prepared := rq_prepared r; rq_snapshot := rq_snapshot r;
  rq_sent := rq_sent r; rq_marked := false; rq_pc := rq_pc r |}.

Definition entered (sn : _TurnSnapshot) (r : request) : request := {|
  rq_url := rq_url r; rq_client := rq_client r; rq_prepared := rq_prepared r; rq_snapshot := Some sn;
  rq_sent := rq_sent r;
  rq_marked := match sn_scope sn with Some _ => negb (sn_max_steps_exceeded sn) | None => false end;
  rq_pc := rq_pc r |}.

Definition sending (h : headers) (body : string) (r : request) : request := {|
  rq_url := rq_url r; rq_client := rq_client r; rq_prepared := rq_prepared r; rq_snapshot := rq_snapshot r;
  rq_sent := Some (h, body); rq_marked := rq_marked r; rq_pc := Sending |}.

(** ** Turns, pauses and the errors of a turn *)

Definition open_turn (id : string) (backend : option string) (p : proxy) : result proxy :=
  match _turn_scope p with
  | Some _ => Raise (RuntimeError "turn scope is already active")
  | None => Ok (with_turn (Some (length (scopes p))) (with_scopes (scopes p ++ [new_scope id backend]) p))
  end.

Definition on_turn (f : _TurnScope -> _TurnScope) (p : proxy) : proxy :=
  match _turn_scope p with Some i => on_scope i f p | None => p end.

Definition update_turn_backend_session (backend : string) (p : proxy) : proxy := on_turn (set_backend backend) p.

Definition clear_turn (p : proxy) : proxy := with_turn None p.

(** The state that [pause] sets before it tells the rollout, [now] being the loop's time. *)
Definition pause (reason : string) (now : Z) (p : proxy) : proxy :=
  with_pause true (Some reason) (_current_version p)
    (match _pause_started_at p with None => Some now | t => t end) (_total_paused_seconds p) p.

(** The state that [resume] sets when the rollout has answered. *)
Definition resume (version : option string) (now : Z) (p : proxy) : proxy :=
  with_pause false None (match version with None => _current_version p | v => v end) None
    (match _pause_started_at p with Some t => _total_paused_seconds p + (now - t) | None => _total_paused_seconds p end)%Z
    p.

(** [result.setdefault(...)]: the answers of [pause] and [resume]. *)
Definition setdefault (d : dict) (k : string) (v : pyval) : dict := if phas d k then d else dset d k v.

Definition _http_inflight_count (p : proxy) : nat :=
  match _turn_scope p with
  | Some i => match scopes p !! i with Some s => inflight_requests s | None => 0 end
  | None => 0
  end.

Definition inflight_value (p : proxy) : pyval := PInt (Z.of_nat (_http_inflight_count p)).

Definition pause_result (answer : dict) (already_paused : bool) (reason : string) (p : proxy) : dict :=
  let r := setdefault answer "status" (PStr (if already_paused then "already_paused" else "paused")) in
  dset (setdefault r "reason" (PStr reason)) "http_inflight_requests" (inflight_value p).

Definition opt_text (o : option string) : pyval := match o with Some s => PStr s | None => PNone end.

Definition resume_result (answer : dict) (was_paused : bool) (reason : string) (p : proxy) : dict :=
  let r := setdefault answer "status" (PStr (if was_paused then "resumed" else "already_running")) in
  let r := setdefault (setdefault r "reason" (PStr reason)) "version" (opt_text (_current_version p)) in
  dset r "http_inflight_requests" (inflight_value p).

Definition pause_state (p : proxy) : dict :=
  [("paused", PBool (_paused p)); ("pause_reason", opt_text (_pause_reason p));
   ("version", opt_text (_current_version p)); ("http_inflight_requests", inflight_value p);
   ("total_paused_seconds", PInt (_total_paused_seconds p))].

(** The errors of the turn that can be taken away. *)
Inductive error_kind : Type := EContextOverflow | ERolloutInvalidated | EMaxSteps | EFailedUpstream.

Definition error_of (k : error_kind) (s : _TurnScope) : option dict :=
  match k with
  | EContextOverflow => context_overflow_error s
  | ERolloutInvalidated => rollout_invalidated_error s
  | EMaxSteps => max_steps_error s
  | EFailedUpstream => failed_upstream_error s
  end.

Definition clear_error (k : error_kind) : _TurnScope -> _TurnScope :=
  match k with
  | EContextOverflow => set_overflow None
  | ERolloutInvalidated => set_invalidated None
  | EMaxSteps => set_max_steps None
  | EFailedUpstream => set_failed None
  end.

Definition consume_error (k : error_kind) (p : proxy) : option dict * proxy :=
  match (_turn_scope p ≫= fun i => scopes p !! i) ≫= error_of k with
  | Some e => (Some e, on_turn (clear_error k) p)
  | None => (None, p)
  end.

(** ** Entering a turn *)

Definition no_turn : _TurnSnapshot := {|
  sn_turn_id := None; sn_backend_session_id := None; sn_step := 0; sn_scope := None; sn_max_steps_exceeded := false |}.

Definition snapshot_of (i : nat) (s : _TurnScope) (exceeded : bool) : _TurnSnapshot := {|
  sn_turn_id := Some (turn_id s); sn_backend_session_id := backend_session_id s; sn_step := step_counter s;
  sn_scope := Some i; sn_max_steps_exceeded := exceeded |}.

Definition steps_used_up (c : proxy_config) (s : _TurnScope) : bool :=
  match max_steps c with Some m => (m <=? Z.of_nat (step_counter s))%Z | None => false end.

Definition count_request (s : _TurnScope) : _TurnScope :=
  set_counts (S (step_counter s)) (S (inflight_requests s)) false s.

(** One round of [_enter_chat_request]: [None] while the proxy is paused. *)
Definition _enter_chat_request (p : proxy) : option (_TurnSnapshot * proxy) :=
  if _paused p then None
  else match _turn_scope p with
       | None => Some (no_turn, p)
       | Some i =>
           match scopes p !! i with
           | None => Some (no_turn, p)
           | Some s =>
               if steps_used_up (config p) s then Some (snapshot_of i s true, p)
               else Some (snapshot_of i s false, on_scope i count_request p)
           end
       end.

Definition finish_request (s : _TurnScope) : _TurnScope :=
  let n := pred (inflight_requests s) in
  set_counts (step_counter s) n (if (n =? 0)%nat then true else drained s) s.

Definition snapshot_scope (r : request) : option nat := rq_snapshot r ≫= sn_scope.

(** [_mark_request_finished], for a request that has a scope. *)
Definition _mark_request_finished (p : proxy) (r : request) : proxy * request :=
  match snapshot_scope r with
  | Some i => (on_scope i finish_request p, unmarked r)
  | None => (p, r)
  end.

Section Proxy.
Context `{PyText}.
(** The [OSError] that writing the dumps of a step of a turn raises. *)
Variable write_error : option string -> nat -> option string.

Definition max_steps_details (c : proxy_config) (sn : _TurnSnapshot) : list (string * pyval) :=
  [("max_steps", match max_steps c with Some m => PInt m | None => PNone end);
   ("attempted_step", PInt (Z.of_nat (sn_step sn)))].

Definition _max_steps_exceeded_response (c : proxy_config) (sn : _TurnSnapshot) (k : kind) : answer :=
  let error := ("error", PDict [("message", PStr "Turn exceeded max_steps."); ("type", PStr "rate_limit_error");
                                ("code", PStr "max_steps_exceeded");
                                ("details", PDict (max_steps_details c sn))]) in
  json_answer 429 (json_text (PDict (match k with KAnthropic => [("type", PStr "error"); error] | _ => [error] end))).

Definition _max_steps_error_payload (c : proxy_config) (sn : _TurnSnapshot) : dict :=
  [("error", PStr "max_steps_exceeded"); ("message", PStr "Turn exceeded max_steps.");
   ("details", PDict ([("session_id", PStr (bound_session_id c)); ("turn_id", opt_text (sn_turn_id sn))]
                      ++ max_steps_details c sn
                      ++ [("backend_message", PStr "429 Turn exceeded max_steps.");
                          ("raw_error_code", PStr "rate_limit_error")]))].

(** What follows the entry: the step limit, the changes to the body, the headers, and the
    request is sent.  An exception here is outside every [try]. *)
Definition forward (p : proxy) (r : request) : proxy * request :=
  let k := p_kind (rq_prepared r) in
  let sn := default no_turn (rq_snapshot r) in
  if sn_max_steps_exceeded sn then
    (match sn_scope sn with
     | Some i => on_scope i (set_max_steps (Some (_max_steps_error_payload (config p) sn))) p
     | None => p
     end, at_pc (Ended (Answered (_max_steps_exceeded_response (config p) sn k))) r)
  else match outgoing (config p) (_sampling_request_sequence p) (rq_prepared r) with
       | Raise e => (p, at_pc (Ended (Raised e)) r)
       | Ok (body, seq) =>
           (with_sequence seq p,
            sending (_build_upstream_headers (config p) (_current_version p) (rq_client r) (is_model_request k)
                       (bool_decide (k = KAnthropic)) (sn_turn_id sn)) body r)
       end.

Definition enter (p : proxy) (r : request) : proxy * request :=
  if is_model_request (p_kind (rq_prepared r)) then
    match _enter_chat_request p with
    | None => (p, at_pc WaitResume r)
    | Some (sn, p) => forward p (entered sn r)
    end
  else forward p r.

(** A request whose body has been read: [_handle_proxy] up to its next await. *)
Definition _handle_proxy (method path query : string) (h : headers) (body : string) (p : proxy) : proxy :=
  let k := request_kind method path in
  let new pr := {| rq_url := upstream_url (config p) k path query; rq_client := h; rq_prepared := pr;
                   rq_snapshot := None; rq_sent := None; rq_marked := false; rq_pc := WaitResume |} in
  let '(p, r) :=
    match prepare k body with
    | Raise e => (p, at_pc (Ended (Raised e))
                       (new {| p_kind := k; p_body := None; p_original := []; p_streaming := false; p_bytes := body |}))
    | Ok pr => enter p (new pr)
    end in
  with_requests (requests p ++ [r]) p.

(** ** The answer of the rollout *)

(** What an error is recorded as, for a request with a scope: whether the rollout was
    invalidated. *)
Definition record_error (p : proxy) (r : request) (u : upstream) : proxy * result bool :=
  match snapshot_scope r with
  | None => (p, Ok false)
  | Some i =>
      let p := match _context_overflow_payload_from_response (u_status u) (u_content u) with
               | Some e => on_scope i (set_overflow (Some e)) p
               | None => p
               end in
      match _rollout_invalidated_payload_from_response (u_status u) (u_content u) with
      | Raise e => (p, Raise e)
      | Ok (Some e) => (on_scope i (set_invalidated (Some e)) p, Ok true)
      | Ok None =>
          let sn := default no_turn (rq_snapshot r) in
          (on_scope i (set_failed (Some (_failed_upstream_error_payload (config p) (sn_turn_id sn)
             (Z.of_nat (sn_step sn)) (rq_url r) u (write_error (sn_turn_id sn) (sn_step sn))))) p, Ok false)
      end
  end.

(** The answer to an error, and what is recorded. *)
Definition on_error (p : proxy) (r : request) (u : upstream) (content_type : option string)
    : proxy * result answer :=
  let '(p, invalidated) := record_error p r u in
  let pr := rq_prepared r in
  (p, match invalidated with
      | Raise e => Raise e
      | Ok true => Ok (synthetic_answer (p_kind pr) (p_streaming pr))
      | Ok false => Ok (error_answer (p_kind pr) u content_type)
      end).

Definition outcome_of (a : result answer) : outcome := match a with Ok a => Answered a | Raise e => Raised e end.

(** A complete answer ([_plain_proxy] and the two that translate); the request is discounted
    in a [finally]. *)
Definition plain_reply (p : proxy) (r : request) (u : upstream) : proxy * request :=
  let pr := rq_prepared r in
  let '(p, a) := if (400 <=? u_status u)%Z then on_error p r u None
                 else (p, success_answer (p_kind pr) (p_original pr) u) in
  let '(p, r) := _mark_request_finished p r in
  (p, at_pc (Ended (outcome_of a)) r).

(** An error instead of a stream: an exception of the classification is outside every [try]. *)
Definition stream_error (p : proxy) (r : request) (u : upstream) (content_type : option string) : proxy * request :=
  let '(p, a) := on_error p r u content_type in
  (p, at_pc (match a with Ok a => Closing (Answered a) | Raise e => Ended (Raised e) end) r).

(** The type of an error that comes as an event is changed, but not by the messages API. *)
Definition sniffed_type : option string := Some "application/json".

Definition stream_headers (k : kind) (h : headers) : headers * string :=
  match k with
  | KChat => (response_headers h, default "text/event-stream" (dget h "content-type"))
  | _ => ([], "text/event-stream")
  end.

Definition stream_end (r : request) (status : Z) (h : headers) (first : string) (chunks : list string) : outcome :=
  let pr := rq_prepared r in
  let '(h, media_type) := stream_headers (p_kind pr) h in
  let '(body, res) := streamed_body (p_kind pr) (p_original pr) first chunks in
  Streamed status h media_type body res.

(** What a request can be told while it waits. *)
Inductive news : Type :=
| Resumed
| Replied (u : upstream)       (* of a stream, only the status and the headers *)
| Body (content : string)
| Chunk (c : option string)    (* [None]: no more is read *)
| Closed
| Failed (e : exn).            (* the await raises, or the task is cancelled *)

(** One step of a request; [None] when it does not wait for such news. *)
Definition request_step (p : proxy) (r : request) (n : news) : option (proxy * request) :=
  match rq_pc r, n with
  | WaitResume, Resumed => if _resume_event p then Some (enter p r) else None
  | WaitResume, Failed e => Some (p, at_pc (Ended (Raised e)) r)
  | Sending, Failed e => let '(p, r) := _mark_request_finished p r in Some (p, at_pc (Ended (Raised e)) r)
  | Sending, Replied u =>
      Some (if p_streaming (rq_prepared r)
            then (p, at_pc (if (400 <=? u_status u)%Z then Reading (u_status u) (u_headers u)
                            else Opening (u_status u) (u_headers u) "") r)
            else plain_reply p r u)
  | Reading status h, Body content =>
      Some (stream_error p r {| u_status := status; u_headers := h; u_content := content |} None)
  | Reading _ _, Failed e => Some (p, at_pc (Ended (Raised e)) r)
  | Opening status h buffer, Chunk (Some c) =>
      Some (match prelude_chunk buffer c with
            | inr buffer => (p, at_pc (Opening status h buffer) r)
            | inl (first, None) => (p, at_pc (Forwarding status h first []) r)
            | inl (_, Some (error_status, error_body)) =>
                stream_error p r {| u_status := error_status; u_headers := h; u_content := error_body |} sniffed_type
            end)
  | Opening status h buffer, Chunk None => Some (p, at_pc (Forwarding status h buffer []) r)
  | Opening _ _ _, Failed e => Some (p, at_pc (Closing (Raised e)) r)
  | Forwarding status h first chunks, Chunk (Some c) =>
      Some (p, at_pc (Forwarding status h first (chunks ++ [c])) r)
  | Forwarding status h first chunks, Chunk None =>
      Some (p, at_pc (Closing (stream_end r status h first chunks)) r)
  | Forwarding _ _ _ _, Failed e => Some (p, at_pc (Closing (Raised e)) r)
  | Closing o, Closed => let '(p, r) := _mark_request_finished p r in Some (p, at_pc (Ended o) r)
  | Closing _, Failed e => Some (p, at_pc (Ended (Raised e)) r)
  | _, _ => None
  end.

Inductive event : Type :=
| ERequest (method path query : string) (h : headers) (body : string)
| ENews (i : nat) (n : news)
| EOpenTurn (id : string) (backend : option string)
| EUpdateTurn (backend : string)
| EClearTurn
| EPause (reason : string) (now : Z)
| EResume (version : option string) (now : Z)
| EConsume (k : error_kind).

Definition apply_event (p : proxy) (ev : event) : option proxy :=
  match ev with
  | ERequest method path query h body => Some (_handle_proxy method path query h body p)
  | ENews i n =>
      match requests p !! i with
      | Some r => match request_step p r n with
                  | Some (p, r) => Some (with_requests (<[i := r]> (requests p)) p)
                  | None => None
                  end
      | None => None
      end
  | EOpenTurn id backend => Some (match open_turn id backend p with Ok p => p | Raise _ => p end)
  | EUpdateTurn backend => Some (update_turn_backend_session backend p)
  | EClearTurn => Some (clear_turn p)
  | EPause reason now => Some (pause reason now p)
  | EResume version now => Some (resume version now p)
  | EConsume k => Some (snd (consume_error k p))
  end.

Fixpoint run_events (p : proxy) (evs : list event) : option proxy :=
  match evs with
  | [] => Some p
  | ev :: evs => match apply_event p ev with Some p => run_events p evs | None => None end
  end.
End Proxy.

(** ** Draining a turn *)

Inductive drain_result : Type :=
| Drained (at_ : Z)
| TimedOut (at_ : Z)
| Blocked.              (* paused for good, and nothing ends *)

Section Drain.
Variable drained_at : option Z.       (* when the event is set *)

Definition is_drained (t : Z) : bool := match drained_at with Some d => (d <=? t)%Z | None => false end.

(** [_wait_event_excluding_pause]: the pauses that are not over, as their start and end, in
    order; a pause without an end is never resumed.  Each is waited for in two rounds of the
    loop, one until it starts and one until it ends. *)
Fixpoint wait_excluding (now deadline : Z) (pauses : list (Z * option Z)) : drain_result :=
  match pauses with
  | [] =>
      if is_drained now then Drained now
      else if (deadline - now <=? 0)%Z then TimedOut now
      else if is_drained deadline then Drained (default deadline drained_at) else TimedOut deadline
  | (s, e) :: pauses =>
      if is_drained now then Drained now
      else if (now <? s)%Z && (deadline - now <=? 0)%Z then TimedOut now
      else if (now <? s)%Z && (deadline <=? s)%Z
      then if is_drained deadline then Drained (default deadline drained_at) else TimedOut deadline
      else if is_drained (Z.max now s) then Drained (default now drained_at)
      else match e with
           | None => match drained_at with Some d => Drained d | None => Blocked end
           | Some e =>
               if is_drained e then Drained (default e drained_at)
               else wait_excluding e (deadline + (e - Z.max now s)) pauses
           end
  end.

(** [drain_turn] from a time on. *)
Definition drain_turn (now : Z) (timeout : option Z) (pauses : list (Z * option Z)) : drain_result :=
  match timeout with
  | None => match drained_at with Some d => Drained (Z.max now d) | None => Blocked end
  | Some t => wait_excluding now (now + t) pauses
  end.
End Drain.
