(* ===== verification/LlmProxyTheorems.v ===== *)
(** * The model proxy: theorems

    About [LlmRequests] and [LlmProxy]: a model request is sent with the headers the proxy is
    bound to, whatever the agent sends ([forwarded_headers]); what opens a stream is cut the
    same way however its bytes arrive ([keepalive_prelude]); the requests of a turn are numbered
    and counted exactly ([requests_accounted]), and a turn is drained when its last request has
    ended, unless an exception escapes where no [try] catches it ([turn_drains],
    [unread_error_never_drains]); pauses do not count against the timeout of the drain
    ([drain_excludes_pauses]). *)

From Stdlib Require Import Ascii.
From S2P Require Import Prelude.
From S2P Require Import PyFloat.
From S2P Require Import PyVal.
From S2P Require Import Json.
From S2P Require Import LlmConvert.
From S2P Require Import LlmStream.
From S2P Require Import LlmTheorems.
From S2P Require Import LlmRequests.
From S2P Require Import LlmProxy.

Local Open Scope string_scope.
Local Open Scope list_scope.
Local Open Scope py_scope.

(** ** Headers *)

(** The values a header has, its name compared without case. *)
Definition values (n : string) (h : list (string * string)) : list string :=
  map snd (List.filter (fun kv => same_name (fst kv) n) h).

(** The value set last under a name. *)
Definition last_value (n : string) (l : list (string * string)) : option string := last (values n l).

Lemma same_name_iff a b : same_name a b = true <-> lower a = lower b.
Proof. apply String.eqb_eq. Qed.

Lemma values_app n h k : values n (h ++ k) = values n h ++ values n k.
Proof. unfold values. by rewrite List.filter_app, map_app. Qed.

Lemma filter_header_other n name (h : list (string * string)) :
  List.filter (fun kv => same_name (fst kv) n) (List.filter (fun kv => negb (same_name (fst kv) name)) h)
  = if same_name name n then [] else List.filter (fun kv => same_name (fst kv) n) h.
Proof.
  destruct (same_name name n) eqn:E; induction h as [|[k v] h IH]; simpl; try done;
    destruct (same_name k name) eqn:E1; simpl; rewrite ?IH; [done| | |done];
    destruct (same_name k n) eqn:E2; try done; rewrite ?same_name_iff in *; exfalso.
  - assert (same_name k name = true) by (apply same_name_iff; congruence). congruence.
  - assert (same_name name n = true) by (apply same_name_iff; congruence). congruence.
Qed.

Lemma values_set_header n h name v :
  values n (_set_header h name v) = if same_name name n then [v] else values n h.
Proof.
  unfold _set_header. rewrite dset_fresh.
  - rewrite values_app. unfold values at 1. rewrite filter_header_other. unfold values. simpl.
    destruct (same_name name n); simpl; by rewrite ?app_nil_r.
  - intros ([k v'] & <- & Hin)%list_elem_of_In%in_map_iff. apply List.filter_In in Hin as [_ Hin].
    simpl in Hin. rewrite (proj2 (same_name_iff k k) eq_refl) in Hin. done.
Qed.

Lemma values_one n k v : values n [(k, v)] = if same_name k n then [v] else [].
Proof. unfold values. simpl. by destruct (same_name k n). Qed.

Lemma values_set_headers n l : forall h,
  values n (set_headers h l) = match last_value n l with Some v => [v] | None => values n h end.
Proof.
  unfold set_headers, last_value. induction l as [|[k v] l IH] using rev_ind; intros h; [done|].
  rewrite foldl_app. simpl. rewrite values_set_header, IH, values_app, values_one.
  destruct (same_name k n); [by rewrite last_snoc | by rewrite app_nil_r].
Qed.

Lemma handed_on_name c chat anth n n' : lower n = lower n' -> handed_on c chat anth n = handed_on c chat anth n'.
Proof. unfold handed_on. by intros ->. Qed.

(** What is handed on of the client's headers comes from the client, under a name that is. *)
Lemma client_headers_from c chat anth original : forall kv,
  kv ∈ client_headers c chat anth original -> kv ∈ original /\ handed_on c chat anth (fst kv) = true.
Proof.
  unfold client_headers. induction original as [|[k v] l IH] using rev_ind; intros kv; [set_solver|].
  rewrite foldl_app. simpl. set (h := foldl _ _ _) in *. destruct (handed_on c chat anth k) eqn:E.
  - intros Hin. assert (kv = (k, v) \/ kv ∈ h) as [->|Hh].
    { clear -Hin. induction h as [|[k' v'] h IH]; simpl in *; [set_solver|]. case_decide; set_solver. }
    + split; [set_solver|done].
    + destruct (IH kv Hh). split; [set_solver|done].
  - intros Hin. destruct (IH kv Hin). split; [set_solver|done].
Qed.

(** The values set last under the names of the proxy's own headers. *)
Lemma last_bound n c version turn_id :
  last_value n (bound_headers c version turn_id)
  = last (values n [(sticky_header_name c, bound_session_id c); ("X-Session-Id", bound_session_id c);
                    ("X-Instance-Id", bound_instance_id c)]
          ++ values n (opt_header "X-Turn-Id" turn_id) ++ values n (opt_header "X-Dressage-Sandbox-Id" (bound_sandbox_id c))
          ++ values n [("X-Dressage-Partial-Rollout", "1")]
          ++ values n (match version with None => [] | Some v => [("X-Dressage-Expected-Version", v)] end)
          ++ values n [("Accept-Encoding", "identity")]).
Proof. unfold last_value, bound_headers. by rewrite !values_app. Qed.

Lemma values_opt n name o : values n (opt_header name o)
  = match o with None | Some "" => [] | Some v => if same_name name n then [v] else [] end.
Proof. destruct o as [[|a t]|]; [done| |done]. apply values_one. Qed.

Lemma values_version n (version : option string) :
  values n (match version with None => [] | Some v => [("X-Dressage-Expected-Version", v)] end)
  = match version with None => [] | Some v => if same_name "X-Dressage-Expected-Version" n then [v] else [] end.
Proof. destruct version as [v|]; [apply values_one|done]. Qed.

(** The headers set after a name of the proxy have other names. *)
Ltac bound_values :=
  rewrite last_bound, !values_opt, values_version; unfold values; simpl;
  repeat match goal with |- context [same_name ?a ?b] =>
    let x := eval vm_compute in (same_name a b) in
    match x with true => idtac | false => idtac end; change (same_name a b) with x; simpl end;
  repeat case_match; try done.

Lemma last_session c version turn_id :
  last_value "X-Session-Id" (bound_headers c version turn_id) = Some (bound_session_id c).
Proof. bound_values. Qed.

Lemma last_instance c version turn_id :
  last_value "X-Instance-Id" (bound_headers c version turn_id) = Some (bound_instance_id c).
Proof. bound_values. Qed.

Lemma last_turn c version t : t <> "" ->
  last_value "X-Turn-Id" (bound_headers c version (Some t)) = Some t.
Proof. intros Ht. bound_values. Qed.

(** C23: every header of a model request is the one the proxy is bound to, whatever the agent
    sends: a bound name (without case) has exactly the value set last for it, then come the
    static headers of the proxy, and an agent's header is handed on only under a name that is
    neither; the session, the instance and the turn are those of the proxy. *)
Theorem forwarded_headers (c : proxy_config) (version turn_id : option string)
    (original : list (string * string)) (is_anthropic : bool) :
  let h := _build_upstream_headers c version original true is_anthropic turn_id in
  (forall n, match last_value n (bound_headers c version turn_id), last_value n (upstream_headers c) with
             | Some v, _ => values n h = [v]
             | None, Some v => values n h = [v]
             | None, None => forall v, v ∈ values n h -> handed_on c true is_anthropic n = true
                                         /\ exists k, lower k = lower n /\ (k, v) ∈ original
             end)
  /\ values "X-Session-Id" h = [bound_session_id c]
  /\ values "X-Instance-Id" h = [bound_instance_id c]
  /\ (forall t, turn_id = Some t -> t <> "" -> values "X-Turn-Id" h = [t]).
Proof.
  intros h. assert (Hv : forall n, values n h = match last_value n (bound_headers c version turn_id) with
    | Some v => [v] | None => match last_value n (upstream_headers c) with
                              | Some v => [v] | None => values n (client_headers c true is_anthropic original) end end).
  { intros n. unfold h, _build_upstream_headers. by rewrite !values_set_headers. }
  split; [|rewrite !Hv; split_and!].
  - intros n. rewrite Hv. destruct (last_value n (bound_headers _ _ _)) as [v|]; [done|].
    destruct (last_value n (upstream_headers c)) as [v|]; [done|].
    intros v ([k v'] & <- & Hin)%list_elem_of_In%in_map_iff.
    apply List.filter_In in Hin as [Hin Hn]. simpl in *. apply same_name_iff in Hn.
    apply list_elem_of_In, client_headers_from in Hin as [Hin Hh]. simpl in Hh. split; [|by eauto].
    by rewrite <- (handed_on_name c true is_anthropic k n Hn).
  - by rewrite last_session.
  - by rewrite last_instance.
  - intros t Et Ht. by rewrite Et, last_turn.
Qed.

(** ** The start of a stream *)

Lemma cut_frame_app a : forall cur b f r, cut_frame cur a = Some (f, r) ->
  cut_frame cur (a +:+ b) = Some (f, r +:+ b).
Proof.
  induction a as [|c [|c1 a] IH]; intros cur b f r E; [done|done|].
  change (String c (String c1 a) +:+ b) with (String c (String c1 (a +:+ b))).
  simpl in E |- *. destruct (bool_decide (c = lf_char) && bool_decide (c1 = lf_char)); [by simplify_eq|].
  exact (IH _ b f r E).
Qed.

Lemma cut_frame_parts s : forall cur f r, cut_frame cur s = Some (f, r) -> cur +:+ s = f +:+ lf2 +:+ r.
Proof.
  induction s as [|c [|c1 s] IH]; intros cur f r E; [done|done|].
  simpl in E. destruct (bool_decide (c = lf_char) && bool_decide (c1 = lf_char)) eqn:B.
  - apply andb_true_iff in B as [->%bool_decide_eq_true_1 ->%bool_decide_eq_true_1]. by simplify_eq.
  - apply IH in E. rewrite <- E, sapp_assoc. done.
Qed.

Lemma cut_frame_shorter s cur f r : cut_frame cur s = Some (f, r) -> (String.length r < String.length s)%nat.
Proof.
  revert cur. induction s as [|c [|c1 s] IH]; intros cur E; [done|done|].
  simpl in E. destruct (_ && _); [simplify_eq; simpl; lia|]. apply IH in E. simpl in *. lia.
Qed.

(** The fuel: one round for each frame. *)
Lemma first_frame_fuel n m s : (String.length s <= n)%nat -> (String.length s <= m)%nat ->
  first_frame n s = first_frame m s.
Proof.
  revert m s. induction n as [|n IH]; intros [|m] s Hn Hm; try done; simpl.
  1, 2: destruct s; [done | simpl in *; lia].
  destruct (cut_frame "" s) as [[f r]|] eqn:E; [|done]. apply cut_frame_shorter in E.
  destruct (keepalive f); [apply IH; lia|done].
Qed.

(** What the bytes [s] open with. *)
Definition opening (s : string) : (string * string) + string := first_frame (String.length s) s.

Lemma opening_eq s : opening s = match cut_frame "" s with
  | None => inr s
  | Some (f, r) => if keepalive f then opening r else inl (f, r)
  end.
Proof.
  unfold opening. rewrite (first_frame_fuel _ (S (String.length s)) s) by lia. simpl.
  destruct (cut_frame "" s) as [[f r]|] eqn:E; [|done]. apply cut_frame_shorter in E.
  destruct (keepalive f); [apply first_frame_fuel; lia|done].
Qed.

(** More bytes do not change a first frame, and are read behind what is left otherwise. *)
Lemma opening_app n : forall a b, (String.length a <= n)%nat ->
  opening (a +:+ b) = match opening a with
                      | inl (f, r) => inl (f, r +:+ b)
                      | inr rest => opening (rest +:+ b)
                      end.
Proof.
  induction n as [|n IH]; intros a b Hn; rewrite (opening_eq a).
  - by destruct a; [|simpl in Hn; lia].
  - destruct (cut_frame "" a) as [[f r]|] eqn:E; [|done].
    rewrite opening_eq, (cut_frame_app _ _ b _ _ E). apply cut_frame_shorter in E.
    destruct (keepalive f); [apply IH; lia|done].
Qed.

Lemma opening_parts n : forall a frame after, (String.length a <= n)%nat -> opening a = inl (frame, after) ->
  keepalive frame = false /\ exists dropped, a = dropped +:+ frame +:+ lf2 +:+ after.
Proof.
  induction n as [|n IH]; intros a frame after Hn E; rewrite opening_eq in E.
  - by destruct a; [|simpl in Hn; lia].
  - destruct (cut_frame "" a) as [[f r]|] eqn:C; [|done].
    pose proof (cut_frame_parts _ _ _ _ C) as Ha. change ("" +:+ a) with a in Ha.
    destruct (keepalive f) eqn:K.
    + destruct (IH r frame after) as (Hf & d & Hr); [apply cut_frame_shorter in C; lia|done|].
      split; [done|]. exists (f +:+ lf2 +:+ d). rewrite Ha, Hr. by rewrite !sapp_assoc.
    + simplify_eq. split; [done|]. by exists "".
Qed.

(** What is left opens with no frame. *)
Lemma opening_left n : forall a rest, (String.length a <= n)%nat -> opening a = inr rest -> opening rest = inr rest.
Proof.
  induction n as [|n IH]; intros a rest Hn E; rewrite opening_eq in E.
  - destruct a; [simpl in E; by simplify_eq|simpl in Hn; lia].
  - destruct (cut_frame "" a) as [[f r]|] eqn:C.
    + destruct (keepalive f); [|done]. apply (IH r); [apply cut_frame_shorter in C; lia|done].
    + simplify_eq. by rewrite opening_eq, C.
Qed.

Lemma drain_prelude_opening `{PyText} chunks : forall buffer, opening buffer = inr buffer ->
  let '(first, error, rest) := drain_prelude buffer chunks in
  match opening (buffer +:+ all_bytes chunks) with
  | inl (frame, after) =>
      error = _sniff_first_frame_error frame /\ first +:+ all_bytes rest = frame +:+ lf2 +:+ after
  | inr kept => first = kept /\ error = None /\ rest = []
  end.
Proof.
  induction chunks as [|c chunks IH]; intros buffer Hb; simpl.
  - by rewrite sapp_nil, Hb.
  - unfold prelude_chunk. fold (opening (buffer +:+ c)). rewrite <- sapp_assoc, (opening_app _ (buffer +:+ c) _ (le_n _)).
    destruct (opening (buffer +:+ c)) as [[f r]|rest] eqn:E.
    + split; [done|]. by rewrite !sapp_assoc.
    + apply IH. exact (opening_left _ _ _ (le_n _) E).
Qed.

(** What opens a stream is found by its bytes alone, however they are cut into chunks: the
    empty frames and the comments that keep the connection alive are dropped, the error is the
    one of the first frame that is neither, and that frame and every byte after it are handed
    on; a stream without such a frame is handed on as what is left of it. *)
Theorem keepalive_prelude `{PyText} (chunks : list string) :
  let '(first, error, rest) := _drain_keepalive_prelude chunks in
  match opening (all_bytes chunks) with
  | inl (frame, after) =>
      keepalive frame = false /\ error = _sniff_first_frame_error frame
      /\ first +:+ all_bytes rest = frame +:+ lf2 +:+ after
      /\ exists dropped, all_bytes chunks = dropped +:+ first +:+ all_bytes rest
  | inr kept => first = kept /\ error = None /\ rest = []
  end.
Proof.
  pose proof (drain_prelude_opening chunks "" eq_refl) as P. unfold _drain_keepalive_prelude.
  destruct (drain_prelude "" chunks) as [[first error] rest].
  change ("" +:+ all_bytes chunks) with (all_bytes chunks) in P.
  destruct (opening (all_bytes chunks)) as [[frame after]|kept] eqn:E; [|done].
  destruct P as [-> ->]. destruct (opening_parts _ _ _ _ (le_n _) E) as (Hk & dropped & ->). by eauto.
Qed.

(** ** Counting the requests of a turn *)

(** The counters of a scope, and what matters of a request. *)
Definition tally : Type := nat * nat * bool.
Definition core : Type := option _TurnSnapshot * bool.

Definition tally_of (s : _TurnScope) : tally := (step_counter s, inflight_requests s, drained s).
Definition core_of (r : request) : core := (rq_snapshot r, rq_marked r).

Definition steps (t : tally) : nat := fst (fst t).
Definition inflight (t : tally) : nat := snd (fst t).

Definition count_in (t : tally) : tally := (S (steps t), S (inflight t), false).
Definition count_out (t : tally) : tally :=
  (steps t, pred (inflight t), if (pred (inflight t) =? 0)%nat then true else snd t).

Definition counted (i : nat) (c : core) : bool :=
  snd c && bool_decide ((fst c ≫= sn_scope) = Some i).
Definition step_in (i : nat) (c : core) : option nat :=
  match fst c with
  | Some sn => if bool_decide (sn_scope sn = Some i) && negb (sn_max_steps_exceeded sn) then Some (sn_step sn) else None
  | None => None
  end.

Definition within (limit : option Z) (n : nat) : Prop :=
  match limit with Some m => (Z.of_nat n <= Z.max 0 m)%Z | None => True end.

(** The counters of a scope agree with the requests. *)
Definition tally_ok (limit : option Z) (cores : list core) (i : nat) (t : tally) : Prop :=
  inflight t = count_by (counted i) cores /\ snd t = (inflight t =? 0)%nat
  /\ omap (step_in i) cores ≡ₚ seq 0 (steps t) /\ within limit (steps t).

Definition core_ok (n : nat) (c : core) : Prop :=
  (snd c = true -> exists sn i, fst c = Some sn /\ sn_scope sn = Some i /\ sn_max_steps_exceeded sn = false)
  /\ (forall sn i, fst c = Some sn -> sn_scope sn = Some i -> (i < n)%nat).

Definition counts_ok (limit : option Z) (ts : list tally) (cores : list core) : Prop :=
  (forall i t, ts !! i = Some t -> tally_ok limit cores i t) /\ Forall (core_ok (length ts)) cores.

(** What a step does to the counters and to the request. *)
Inductive core_step (limit : option Z) (turn : option nat) (ts : list tally) : core -> list tally -> core -> Prop :=
| core_same c : core_step limit turn ts c ts c
| core_uncounted sn :
    (forall i, sn_scope sn = Some i -> sn_max_steps_exceeded sn = true /\ (i < length ts)%nat) ->
    core_step limit turn ts (None, false) ts (Some sn, false)
| core_enter sn i t :
    turn = Some i -> ts !! i = Some t -> within limit (S (steps t)) ->
    sn_scope sn = Some i -> sn_step sn = steps t -> sn_max_steps_exceeded sn = false ->
    core_step limit turn ts (None, false) (alter count_in i ts) (Some sn, true)
| core_leave sn i : sn_scope sn = Some i -> core_step limit turn ts (Some sn, true) (alter count_out i ts) (Some sn, false).

Lemma omap_insert_same {A B} (f : A -> option B) (l : list A) j x y :
  l !! j = Some x -> f y = f x -> omap f (<[j := y]> l) = omap f l.
Proof.
  revert j. induction l as [|z l IH]; intros [|j] E F; simpl in *; try done.
  - simplify_eq. by rewrite F.
  - destruct (f z); [f_equal|]; by apply (IH j).
Qed.

Lemma omap_insert_new {A B} (f : A -> option B) (l : list A) j x y b :
  l !! j = Some x -> f x = None -> f y = Some b -> omap f (<[j := y]> l) ≡ₚ b :: omap f l.
Proof.
  revert j. induction l as [|z l IH]; intros [|j] E Fx Fy; simpl in *; try done.
  - simplify_eq. by rewrite Fx, Fy.
  - destruct (f z) as [d|]; [|by apply (IH j)].
    transitivity (d :: b :: omap f l); [apply Permutation_skip; by apply (IH j) | apply Permutation_swap].
Qed.

Lemma core_ok_more n m c : (n <= m)%nat -> core_ok n c -> core_ok m c.
Proof. intros L [K1 K2]. split; [done|]. intros sn i E S. specialize (K2 sn i E S). lia. Qed.

(** A request that changes without being counted in or out. *)
Lemma tally_ok_same limit cores i t j c c' : tally_ok limit cores i t -> cores !! j = Some c ->
  counted i c' = counted i c -> step_in i c' = step_in i c -> tally_ok limit (<[j := c']> cores) i t.
Proof.
  intros (I & D & P & W) L C S. split; [|split; [done|split; [|done]]].
  - pose proof (count_by_insert (counted i) cores j c c' L) as K. rewrite C in K. lia.
  - by rewrite (omap_insert_same _ _ _ _ _ L S).
Qed.

Lemma counted_in i sn m : sn_scope sn = Some i -> counted i (Some sn, m) = m.
Proof. intros Hi. unfold counted. simpl. rewrite Hi, bool_decide_true by done. apply andb_true_r. Qed.

(** A request that is counted in, and one that is counted out. *)
Lemma tally_ok_enter limit cores i t j sn : tally_ok limit cores i t -> cores !! j = Some (None, false) ->
  within limit (S (steps t)) -> sn_scope sn = Some i -> sn_step sn = steps t -> sn_max_steps_exceeded sn = false ->
  tally_ok limit (<[j := (Some sn, true)]> cores) i (count_in t).
Proof.
  intros (I & D & P & _) L W Hi Hk He. split; [|split; [done|split; [|done]]].
  - pose proof (count_by_insert (counted i) cores j _ (Some sn, true) L) as C.
    change (counted i (None, false)) with false in C. rewrite (counted_in _ _ _ Hi) in C. simpl in C. unfold count_in, inflight in *. simpl. unfold tally, core in *. lia.
  - rewrite (omap_insert_new (step_in i) cores j _ (Some sn, true) (steps t) L); [|done|].
    + change (steps (count_in t)) with (S (steps t)). rewrite P, seq_S. apply Permutation_cons_append.
    + unfold step_in. simpl. by rewrite Hi, He, Hk, bool_decide_true.
Qed.

Lemma tally_ok_leave limit cores i t j sn : tally_ok limit cores i t -> cores !! j = Some (Some sn, true) ->
  sn_scope sn = Some i -> tally_ok limit (<[j := (Some sn, false)]> cores) i (count_out t).
Proof.
  intros (I & D & P & W) L Hi.
  pose proof (count_by_insert (counted i) cores j _ (Some sn, false) L) as C. rewrite !(counted_in _ _ _ Hi) in C. simpl in C. split; [|split; [|split; [|done]]].
  - unfold count_out, inflight, tally, core in *. simpl. lia.
  - unfold count_out, inflight in *. simpl. destruct (pred (snd (fst t)) =? 0)%nat eqn:Z; [done|].
    rewrite D. apply Nat.eqb_neq in Z. apply Nat.eqb_neq. unfold tally, core in *. lia.
  - by rewrite (omap_insert_same (A:=core) (step_in i) cores j _ _ L).
Qed.

(** The other scopes do not see it. *)
Lemma tally_ok_other limit cores i t j sn o m m' i' : tally_ok limit cores i t -> cores !! j = Some (o, m) ->
  sn_scope sn = Some i' -> i <> i' -> o = None \/ o = Some sn ->
  tally_ok limit (<[j := (Some sn, m')]> cores) i t.
Proof.
  intros T L Hi N O. apply (tally_ok_same _ _ _ _ _ _ _ T L).
  - unfold counted. simpl. destruct O as [-> | ->]; simpl; rewrite ?Hi, ?(bool_decide_false (Some i' = Some i)) by congruence;
      by rewrite ?andb_false_r.
  - unfold step_in. simpl. destruct O as [-> | ->]; simpl; by rewrite Hi, ?(bool_decide_false (Some i' = Some i)) by congruence.
Qed.

Lemma core_step_ok limit turn ts cores j c ts' c' : counts_ok limit ts cores -> cores !! j = Some c ->
  core_step limit turn ts c ts' c' -> counts_ok limit ts' (<[j := c']> cores).
Proof.
  intros [T F] L S. pose proof (Forall_lookup_1 _ _ _ _ F L) as K.
  destruct S as [c|sn Hs|sn i t Ht Ti W Hi Hk He|sn i Hi].
  - by rewrite (list_insert_id cores j c L).
  - split.
    + intros i t Ti. apply (tally_ok_same _ _ _ _ _ _ _ (T i t Ti) L); [done|]. unfold step_in. simpl.
      destruct (bool_decide (sn_scope sn = Some i)) eqn:B; [|done]. apply bool_decide_eq_true_1 in B.
      by rewrite (proj1 (Hs i B)).
    + apply Forall_insert; [done|]. split; [done|]. intros sn' i [= <-] S. by apply Hs.
  - split; [|rewrite length_alter; apply Forall_insert; [done|]; split; [by eauto|]].
    2: { intros sn' i' [= <-] S. simpl in *. apply lookup_lt_Some in Ti. congruence. }
    intros i' t' Ti'. destruct (decide (i' = i)) as [->|N].
    + rewrite list_lookup_alter_eq, Ti in Ti'. simpl in Ti'. simplify_eq. by apply tally_ok_enter; [apply T|..].
    + rewrite list_lookup_alter_ne in Ti' by done. apply (tally_ok_other _ _ _ _ _ _ _ _ _ i (T i' t' Ti') L); auto.
  - split; [|rewrite length_alter; apply Forall_insert; [done|]; split; [done|]; by apply K].
    intros i' t' Ti'. destruct (decide (i' = i)) as [->|N].
    + rewrite list_lookup_alter_eq in Ti'. destruct (ts !! i) as [t|] eqn:Ti; [|done]. simpl in Ti'. simplify_eq.
      by apply tally_ok_leave; [apply T|..].
    + rewrite list_lookup_alter_ne in Ti' by done. apply (tally_ok_other _ _ _ _ _ _ _ _ _ i (T i' t' Ti') L); auto.
Qed.

Definition tallies (p : proxy) : list tally := map tally_of (scopes p).
Definition limit_of (p : proxy) : option Z := max_steps (config p).

(** What a request that is at a point has been counted for. *)
Definition ok_request (r : request) : Prop :=
  match rq_pc r with
  | WaitResume => core_of r = (None, false)
  | Ended _ => True
  | _ => forall i, snapshot_scope r = Some i -> rq_marked r = true
  end.

(** The proxy is the same but for the errors of its scopes and the sampling count. *)
Definition quiet (p p' : proxy) : Prop :=
  config p' = config p /\ _turn_scope p' = _turn_scope p /\ requests p' = requests p /\ tallies p' = tallies p.

Definition goes (p : proxy) (r : request) (p' : proxy) (r' : request) : Prop :=
  config p' = config p /\ _turn_scope p' = _turn_scope p /\ requests p' = requests p
  /\ core_step (limit_of p) (_turn_scope p) (tallies p) (core_of r) (tallies p') (core_of r')
  /\ ok_request r'.

Lemma map_alter {A B} (f : A -> B) (g : A -> A) (h : B -> B) (l : list A) i :
  (forall x, f (g x) = h (f x)) -> map f (alter g i l) = alter h i (map f l).
Proof.
  intros E. revert i. induction l as [|x l IH]; intros [|i]; simpl; [done|done|by rewrite E|].
  f_equal. apply IH.
Qed.

Lemma alter_same {A} (f : A -> A) (l : list A) i : (forall x, f x = x) -> alter f i l = l.
Proof.
  intros E. revert i. induction l as [|x l IH]; intros [|i]; simpl; [done|done|by rewrite E|].
  f_equal. apply IH.
Qed.

Lemma quiet_refl p : quiet p p.
Proof. done. Qed.

Lemma quiet_trans p q r : quiet p q -> quiet q r -> quiet p r.
Proof. intros (?&?&?&?) (?&?&?&?). split_and!; congruence. Qed.

Lemma quiet_scope i f p : (forall s, tally_of (f s) = tally_of s) -> quiet p (on_scope i f p).
Proof.
  intros E. split_and!; try done. unfold tallies, on_scope. simpl. rewrite (map_alter _ _ (fun t => t)); [|done].
  by apply alter_same.
Qed.

Lemma quiet_sequence n p : quiet p (with_sequence n p).
Proof. done. Qed.

#[local] Hint Resolve quiet_refl quiet_scope quiet_sequence : dressage.

Lemma goes_quiet p r p' r' : quiet p p' -> core_of r' = core_of r -> ok_request r' -> goes p r p' r'.
Proof. intros (?&?&?&T) C O. split_and!; try done. rewrite T, C. constructor. Qed.

Lemma core_step_length limit turn ts c ts' c' : core_step limit turn ts c ts' c' -> length ts' = length ts.
Proof. intros []; by rewrite ?length_alter. Qed.

Section Accounting.
Context `{PyText}.
Variable write_error : option string -> nat -> option string.

Lemma forward_quiet p r p' r' : forward p r = (p', r') ->
  quiet p p' /\ core_of r' = core_of r
  /\ (rq_pc r' = Sending /\ sn_max_steps_exceeded (default no_turn (rq_snapshot r)) = false \/ exists o, rq_pc r' = Ended o).
Proof.
  unfold forward. destruct (sn_max_steps_exceeded _) eqn:X.
  - intros [= <- <-]. split_and!; [|done|by eauto]. destruct (sn_scope _); auto with dressage.
  - destruct (outgoing _ _ _) as [[body seq]|e]; intros [= <- <-]; split_and!; eauto with dressage.
Qed.

(** A request without a scope, or above the limit of steps. *)
Lemma outside_goes p r p' r' sn : core_of r = (None, false) ->
  (forall i, sn_scope sn = Some i -> sn_max_steps_exceeded sn = true /\ (i < length (tallies p))%nat) ->
  forward p (entered sn r) = (p', r') -> goes p r p' r'.
Proof.
  intros C S F. destruct (forward_quiet _ _ _ _ F) as ((Q1 & Q2 & Q3 & Q4) & C' & P).
  assert (M : core_of (entered sn r) = (Some sn, false)).
  { unfold core_of. simpl. destruct (sn_scope sn) as [i|]; [|done]. by rewrite (proj1 (S i eq_refl)). }
  split_and!; try done.
  - rewrite C, C', M, Q4. by constructor.
  - unfold ok_request, snapshot_scope. destruct P as [[-> X]|[o ->]]; [|done].
    rewrite M in C'. injection C' as -> _. simpl in X |- *. intros i Hi. by rewrite (proj1 (S i Hi)) in X.
Qed.

(** A request that is counted in. *)
Lemma inside_goes p r p' r' i s : core_of r = (None, false) -> _turn_scope p = Some i -> scopes p !! i = Some s ->
  steps_used_up (config p) s = false ->
  forward (on_scope i count_request p) (entered (snapshot_of i s false) r) = (p', r') -> goes p r p' r'.
Proof.
  intros C T E U F. destruct (forward_quiet _ _ _ _ F) as ((Q1 & Q2 & Q3 & Q4) & C' & P).
  split_and!; try done.
  - rewrite C, C', Q4. unfold tallies, on_scope. simpl. rewrite (map_alter _ _ count_in) by done.
    apply (core_enter _ _ _ _ i (tally_of s)); try done.
    + unfold tallies. by rewrite list_lookup_fmap, E.
    + unfold within, limit_of, steps_used_up in *. destruct (max_steps (config p)) as [m|]; [|done].
      apply Z.leb_gt in U. unfold steps, tally_of. simpl. lia.
  - unfold ok_request. destruct P as [[-> _]|[o ->]]; [|done]. intros _ _. by injection C' as _ ->.
Qed.

(** A request that is not counted enters the turn, waits or passes by it. *)
Lemma enter_goes p r p' r' : core_of r = (None, false) -> (forall i, _turn_scope p = Some i -> (i < length (scopes p))%nat) ->
  enter p r = (p', r') -> goes p r p' r'.
Proof.
  intros C W. unfold enter. destruct (is_model_request _).
  2: { intros F. destruct (forward_quiet _ _ _ _ F) as (Q & C' & P). apply goes_quiet; [done|done|].
       unfold ok_request, snapshot_scope. destruct P as [[-> _]|[o ->]]; [|done].
       injection C as Hs Hm. injection C' as -> _. by rewrite Hs. }
  unfold _enter_chat_request. destruct (_paused p).
  { intros [= <- <-]. apply goes_quiet; [done|done|]. exact C. }
  destruct (_turn_scope p) as [i|] eqn:T.
  2: { intros F. apply (outside_goes p r p' r' no_turn); done. }
  destruct (lookup_lt_is_Some_2 (scopes p) i (W i eq_refl)) as [s E]. rewrite E.
  destruct (steps_used_up (config p) s) eqn:U.
  - intros F. apply (outside_goes p r p' r' (snapshot_of i s true)); [done| |done].
    intros j [= <-]. split; [done|]. unfold tallies. rewrite length_map. by apply W.
  - intros F. by apply (inside_goes p r p' r' i s).
Qed.

Lemma on_error_quiet p r u t p' a : on_error write_error p r u t = (p', a) -> quiet p p'.
Proof.
  unfold on_error, record_error. destruct (snapshot_scope r) as [i|]; [|by intros [= <- _]].
  set (p1 := match _context_overflow_payload_from_response _ _ with Some e => _ | None => p end).
  assert (Q : quiet p p1) by (unfold p1; case_match; auto with dressage).
  clearbody p1. destruct (_rollout_invalidated_payload_from_response _ _) as [[e|]|e]; intros [= <- _]; [| |done];
    (eapply quiet_trans; [exact Q | auto with dressage]).
Qed.

(** A request that ends after it was discounted. *)
Lemma finish_goes p0 p r o p' r' : quiet p0 p -> (forall i, snapshot_scope r = Some i -> rq_marked r = true) ->
  _mark_request_finished p r = (p', r') -> goes p0 r p' (at_pc (Ended o) r').
Proof.
  intros (Q1 & Q2 & Q3 & Q4) M. unfold _mark_request_finished. destruct (snapshot_scope r) as [i|] eqn:S.
  - intros [= <- <-]. split_and!; [done|done|done| |done].
    unfold snapshot_scope in S. destruct (rq_snapshot r) as [sn|] eqn:Sn; [|done]. simpl in S.
    assert (C : core_of r = (Some sn, true)) by (unfold core_of; by rewrite Sn, (M i eq_refl)).
    assert (C' : core_of (at_pc (Ended o) (unmarked r)) = (Some sn, false)) by (unfold core_of; simpl; by rewrite Sn).
    rewrite C, C', <- Q4. unfold tallies, on_scope. simpl. rewrite (map_alter _ _ count_out) by done.
    by apply core_leave.
  - intros [= <- <-]. by apply goes_quiet.
Qed.

Lemma plain_goes p r u : (forall i, snapshot_scope r = Some i -> rq_marked r = true) ->
  goes p r (fst (plain_reply write_error p r u)) (snd (plain_reply write_error p r u)).
Proof.
  intros M. unfold plain_reply.
  destruct (if (400 <=? u_status u)%Z then _ else _) as [p1 a] eqn:E.
  destruct (_mark_request_finished p1 r) as [p2 r2] eqn:F. apply (finish_goes p p1 r); [|done|done].
  destruct (400 <=? u_status u)%Z; [by apply on_error_quiet in E | simplify_eq; apply quiet_refl].
Qed.

Lemma stream_error_goes p r u t : (forall i, snapshot_scope r = Some i -> rq_marked r = true) ->
  goes p r (fst (stream_error write_error p r u t)) (snd (stream_error write_error p r u t)).
Proof.
  intros M. unfold stream_error. destruct (on_error write_error p r u t) as [p1 a] eqn:E.
  apply goes_quiet; [by apply on_error_quiet in E|done|]. by destruct a.
Qed.

Lemma step_goes p r n p' r' : ok_request r -> (forall i, _turn_scope p = Some i -> (i < length (scopes p))%nat) ->
  request_step write_error p r n = Some (p', r') -> goes p r p' r'.
Proof.
  intros O W. unfold request_step, ok_request in *.
  destruct (rq_pc r) as [| |st h|st h buffer|st h first chunks|o|o] eqn:P; destruct n as [|u|b|[c|]| |e]; try done;
    try (intros [= <- <-]; by apply goes_quiet).
  - destruct (_resume_event p); [|done]. intros [= E]. by apply enter_goes.
  - intros [= E]. destruct (p_streaming _).
    + injection E as <- <-. apply goes_quiet; [done|done|]. unfold ok_request. simpl. by destruct (400 <=? u_status u)%Z.
    + pose proof (plain_goes p r u O) as G. by rewrite E in G.
  - destruct (_mark_request_finished p r) as [p1 r1] eqn:E. intros [= <- <-]. by apply (finish_goes p p r).
  - intros [= E]. match type of E with stream_error _ _ _ ?u ?t = _ =>
      pose proof (stream_error_goes p r u t O) as G; by rewrite E in G end.
  - intros [= E]. destruct (prelude_chunk buffer c) as [[first [[es eb]|]]|kept].
    + match type of E with stream_error _ _ _ ?u ?t = _ =>
        pose proof (stream_error_goes p r u t O) as G; by rewrite E in G end.
    + injection E as <- <-. by apply goes_quiet.
    + injection E as <- <-. by apply goes_quiet.
  - destruct (_mark_request_finished p r) as [p1 r1] eqn:E. intros [= <- <-]. by apply (finish_goes p p r).
Qed.

(** ** Every state the proxy can reach *)

Definition accounted (p : proxy) : Prop :=
  counts_ok (limit_of p) (tallies p) (map core_of (requests p))
  /\ Forall ok_request (requests p)
  /\ (forall i, _turn_scope p = Some i -> (i < length (scopes p))%nat).

Lemma proxy_initial_accounted c : accounted (initial_proxy c).
Proof. split_and!; [split; [done|constructor]|constructor|done]. Qed.

Lemma goes_accounted p j r p' r' : accounted p -> requests p !! j = Some r -> goes p r p' r' ->
  accounted (with_requests (<[j := r']> (requests p)) p').
Proof.
  intros (C & F & W) L (E1 & E2 & E3 & S & O). split_and!; simpl.
  - unfold limit_of, tallies in *. simpl. rewrite E1, list_fmap_insert.
    eapply core_step_ok; [exact C | by rewrite list_lookup_fmap, L | exact S].
  - by apply Forall_insert.
  - intros i T. rewrite E2 in T. specialize (W i T). apply core_step_length in S.
    unfold tallies in S. rewrite !length_map in S. by rewrite S.
Qed.
End Accounting.

Section Runs.
Context `{PyText}.
Variable write_error : option string -> nat -> option string.

Lemma fresh_accounted p r : accounted p -> core_of r = (None, false) -> ok_request r ->
  accounted (with_requests (requests p ++ [r]) p).
Proof.
  intros ([T K] & F & W) C O. split_and!; simpl.
  - unfold limit_of, tallies in *. simpl. rewrite map_app. simpl. rewrite C. split.
    + intros i t Ti. destruct (T i t Ti) as (I & D & P & L). split_and!; [|done| |done].
      * rewrite count_by_app. change (count_by (counted i) [(None, false)]) with 0%nat. unfold tally, core in *. lia.
      * rewrite omap_app. simpl. by rewrite app_nil_r.
    + apply Forall_app. split; [done|]. constructor; [|done]. by split.
  - apply Forall_app. by auto.
  - exact W.
Qed.

Lemma handle_accounted p method path query h body : accounted p ->
  accounted (_handle_proxy method path query h body p).
Proof.
  intros A. unfold _handle_proxy. destruct (prepare _ body) as [pr|e].
  - set (r0 := {| rq_url := _; rq_client := h; rq_prepared := pr; rq_snapshot := None; rq_sent := None;
                  rq_marked := false; rq_pc := WaitResume |}).
    destruct (enter p r0) as [p1 r1] eqn:E.
    pose proof (fresh_accounted p r0 A eq_refl eq_refl) as A0.
    assert (G : goes (with_requests (requests p ++ [r0]) p) r0 (with_requests (requests p ++ [r0]) p1) r1).
    { apply enter_goes in E as (E1 & E2 & E3 & S & O); [|done|apply A]. by split_and!. }
    apply (goes_accounted _ (length (requests p)) _ _ _ A0) in G; [|apply list_lookup_middle; done].
    simpl in G. rewrite insert_app_r_alt, Nat.sub_diag in G by done. simpl in G.
    apply enter_goes in E as (_ & _ & -> & _ & _); [|done|apply A]. exact G.
  - by apply fresh_accounted.
Qed.

Lemma same_tallies_accounted p p' : accounted p -> config p' = config p -> tallies p' = tallies p ->
  requests p' = requests p -> (_turn_scope p' = _turn_scope p \/ _turn_scope p' = None) -> accounted p'.
Proof.
  intros (C & F & W) E1 E2 E3 E4. split_and!.
  - unfold limit_of. by rewrite E1, E2, E3.
  - by rewrite E3.
  - intros i T. destruct E4 as [E4|E4]; rewrite E4 in T; [|done].
    assert (L : length (tallies p') = length (tallies p)) by by rewrite E2.
    unfold tallies in L. rewrite !length_map in L. rewrite L. by apply W.
Qed.

Lemma turn_accounted f p : (forall s, tally_of (f s) = tally_of s) -> accounted p -> accounted (on_turn f p).
Proof.
  intros E A. unfold on_turn. destruct (_turn_scope p) as [i|] eqn:T; [|done].
  destruct (quiet_scope i f p E) as (?&?&?&?). apply (same_tallies_accounted p); auto.
Qed.

Lemma open_accounted p id backend p' : accounted p -> open_turn id backend p = Ok p' -> accounted p'.
Proof.
  intros ([T K] & F & W). unfold open_turn. destruct (_turn_scope p); intros [= <-].
  split_and!; simpl; [|done|].
  - unfold limit_of, tallies in *. simpl. rewrite map_app. split.
    + intros i t [L|[L Ti]]%lookup_app_Some; [by apply T|].
      apply list_lookup_singleton_Some in Ti as [Ei <-]. rewrite length_map in L, Ei.
      assert (N : forall c, c ∈ map core_of (requests p) -> (fst c ≫= sn_scope) <> Some i).
      { intros c Hc Hs. rewrite Forall_forall in K. destruct (K c Hc) as [_ K2].
        destruct (fst c) as [sn|] eqn:Ec; [|done]. specialize (K2 sn i eq_refl Hs). rewrite length_map in K2. lia. }
      clear -N. induction (map core_of (requests p)) as [|c l IH].
      * split_and!; try done. unfold within. destruct (max_steps _) as [m|]; [change (0 <= Z.max 0 m)%Z; lia|done].
      * destruct IH as (I & D & P & L); [intros c' Hc'; apply N; set_solver|].
        specialize (N c ltac:(set_solver)). split_and!; [|done| |done].
        -- rewrite I. unfold count_by. simpl. unfold counted at 2. rewrite bool_decide_false by done.
           by rewrite andb_false_r.
        -- simpl. replace (step_in i c) with (@None nat); [done|]. unfold step_in. destruct (fst c) as [sn|]; [|done].
           simpl in N. by rewrite bool_decide_false.
    + rewrite length_app. eapply Forall_impl; [exact K|]. intros c. apply core_ok_more. lia.
  - intros i [= <-]. rewrite length_app. simpl. lia.
Qed.

Lemma event_accounted p ev p' : accounted p -> apply_event write_error p ev = Some p' -> accounted p'.
Proof.
  intros A. destruct ev as [m path q h b|j n|id backend|backend| |reason now|version now|k]; simpl.
  - intros [= <-]. by apply handle_accounted.
  - destruct (requests p !! j) as [r|] eqn:L; [|done].
    destruct (request_step write_error p r n) as [[p1 r1]|] eqn:E; [|done]. intros [= <-].
    pose proof A as (_ & F & W). apply step_goes in E; [|by eapply Forall_lookup_1|done].
    pose proof E as (_ & _ & -> & _). by apply (goes_accounted p j r).
  - intros [= <-]. destruct (open_turn id backend p) as [p1|] eqn:E; [by eapply open_accounted|done].
  - intros [= <-]. by apply turn_accounted.
  - intros [= <-]. apply (same_tallies_accounted p); auto.
  - intros [= <-]. apply (same_tallies_accounted p); auto.
  - intros [= <-]. apply (same_tallies_accounted p); auto.
  - intros [= <-]. unfold consume_error. destruct (_ ≫= error_of k); [|done]. apply turn_accounted; [|done].
    by destruct k.
Qed.

Lemma proxy_run_accounted evs : forall p p', accounted p -> run_events write_error p evs = Some p' -> accounted p'.
Proof.
  induction evs as [|ev evs IH]; intros p p' A; simpl; [by intros [= <-]|].
  destruct (apply_event write_error p ev) as [p1|] eqn:E; [|done]. intros R.
  apply (IH p1); [by eapply event_accounted|done].
Qed.

Lemma init_accounted c p : RolloutLLMProxy__init__ c = Ok p -> accounted p.
Proof.
  unfold RolloutLLMProxy__init__. destruct (init_config c) as [c'|e]; intros [= <-]. apply proxy_initial_accounted.
Qed.

Lemma count_by_core i l : count_by (counted i) (map core_of l)
  = count_by (fun r => rq_marked r && bool_decide (snapshot_scope r = Some i)) l.
Proof.
  unfold count_by. induction l as [|r l IH]; [done|]. simpl. unfold counted at 1. simpl.
  change (rq_snapshot r ≫= sn_scope) with (snapshot_scope r). destruct (_ && _); simpl; by rewrite IH.
Qed.

Lemma omap_core {B} (f : core -> option B) l : omap f (map core_of l) = omap (fun r => f (core_of r)) l.
Proof. induction l as [|r l IH]; [done|]. simpl. destruct (f (core_of r)); [f_equal|]; exact IH. Qed.

(** C19: in every interleaving of requests, answers, failures, pauses and turns, each turn counts
    exactly the requests that entered it and were not discounted, is drained exactly when there
    are none, numbers the requests that entered 0, 1, 2 and so on with no gap and no number
    twice, and lets no more of them in than the limit of steps. *)
Theorem requests_accounted (c : proxy_config) (evs : list event) (p0 p : proxy)
    (Hinit : RolloutLLMProxy__init__ c = Ok p0) (Hrun : run_events write_error p0 evs = Some p) :
  forall i s, scopes p !! i = Some s ->
    inflight_requests s
      = count_by (fun r => rq_marked r && bool_decide (snapshot_scope r = Some i)) (requests p)
    /\ drained s = (inflight_requests s =? 0)%nat
    /\ omap (fun r => step_in i (core_of r)) (requests p) ≡ₚ seq 0 (step_counter s)
    /\ within (max_steps (config p)) (step_counter s).
Proof.
  pose proof (proxy_run_accounted evs p0 p (init_accounted c p0 Hinit) Hrun) as ([T _] & _ & _).
  intros i s Hs. destruct (T i (tally_of s)) as (I & D & P & W).
  { unfold tallies. by rewrite list_lookup_fmap, Hs. }
  split_and!; [|exact D| |exact W].
  - unfold inflight, tally_of in I. simpl in I. rewrite I. apply count_by_core.
  - rewrite omap_core in P. exact P.
Qed.
End Runs.

(** ** Draining a turn *)

Lemma count_by_ext_in {A} (f g : A -> bool) l : (forall x, x ∈ l -> f x = g x) -> count_by f l = count_by g l.
Proof.
  unfold count_by. induction l as [|x l IH]; intros E; [done|]. simpl.
  rewrite (E x) by set_solver. destruct (g x); simpl; rewrite IH; set_solver.
Qed.

Lemma count_by_zero {A} (f : A -> bool) l : count_by f l = 0%nat <-> forall x, x ∈ l -> f x = false.
Proof.
  split.
  - intros C x [i L]%list_elem_of_lookup. destruct (f x) eqn:E; [|done]. pose proof (count_by_pos f l i x L E). lia.
  - intros E. rewrite (count_by_ext_in f (fun _ => false)) by done. clear E. unfold count_by. by induction l.
Qed.

Section Draining.
Context `{PyText}.
Variable write_error : option string -> nat -> option string.

(** The messages of a request have a length, so that sending it does not raise. *)
Definition sendable (pr : prepared) : bool :=
  match p_body pr with
  | Some body => negb (is_model_request (p_kind pr))
                 || match py_len (dget_def (PList []) body "messages") with Ok _ => true | Raise _ => false end
  | None => true
  end.

(** The code of an error can be looked up. *)
Definition classifiable (status : Z) (body : string) : bool :=
  match _rollout_invalidated_payload_from_response status body with Ok _ => true | Raise _ => false end.

(** No exception is raised where it is not caught: after the request has entered and before it
    is sent, while the error of a stream is read or classified, and while a stream is closed. *)
Definition calm (p : proxy) (ev : event) : bool :=
  match ev with
  | ERequest method path query h body =>
      match prepare (request_kind method path) body with Ok pr => sendable pr | Raise _ => true end
  | ENews j n =>
      match requests p !! j with
      | Some r =>
          match rq_pc r, n with
          | Reading _ _, Failed _ | Closing _, Failed _ => false
          | Reading status _, Body content => classifiable status content
          | Opening _ _ buffer, Chunk (Some c) =>
              match prelude_chunk buffer c with
              | inl (_, Some (status, body)) => classifiable status body
              | _ => true
              end
          | _, _ => true
          end
      | None => true
      end
  | _ => true
  end.

Fixpoint calm_run (p : proxy) (evs : list event) : bool :=
  match evs with
  | [] => true
  | ev :: evs => calm p ev && match apply_event write_error p ev with Some p => calm_run p evs | None => true end
  end.

Definition has_ended (r : request) : bool := match rq_pc r with Ended _ => true | _ => false end.

(** A request that can be sent, and that was discounted when it ended. *)
Definition settled (r : request) : Prop :=
  (rq_pc r = WaitResume -> sendable (rq_prepared r) = true) /\ (has_ended r = true -> rq_marked r = false).

Lemma outgoing_sendable c seq pr : sendable pr = true -> exists x, outgoing c seq pr = Ok x.
Proof.
  unfold sendable, outgoing. destruct (p_body pr) as [body|]; [|by eauto].
  destruct (is_model_request (p_kind pr)); [|by eauto]. simpl.
  destruct (py_len _); [|done]. intros _. simpl. destruct (rewrite_body c seq body). by eauto.
Qed.

Lemma forward_settled p r p' r' : sendable (rq_prepared r) = true ->
  (sn_max_steps_exceeded (default no_turn (rq_snapshot r)) = true -> rq_marked r = false) ->
  forward p r = (p', r') -> settled r'.
Proof.
  intros S M. unfold forward. destruct (sn_max_steps_exceeded _) eqn:X.
  - intros [= <- <-]. split; [done|]. intros _. by apply M.
  - destruct (outgoing_sendable (config p) (_sampling_request_sequence p) _ S) as [[body seq] ->].
    intros [= <- <-]. by split.
Qed.

Lemma enter_settled p r p' r' : core_of r = (None, false) -> sendable (rq_prepared r) = true ->
  enter p r = (p', r') -> settled r'.
Proof.
  intros C S. unfold enter. destruct (is_model_request _).
  2: { apply forward_settled; [done|]. injection C as -> ->. done. }
  destruct (_enter_chat_request p) as [[sn p1]|]; [|by intros [= <- <-]].
  apply forward_settled; [done|]. simpl. intros ->. by destruct (sn_scope sn).
Qed.

Lemma on_error_raises p r u t p' e : on_error write_error p r u t = (p', Raise e) ->
  classifiable (u_status u) (u_content u) = false.
Proof.
  unfold on_error, record_error, classifiable. destruct (snapshot_scope r) as [i|]; [|by intros [= _]].
  by destruct (_rollout_invalidated_payload_from_response _ _) as [[x|]|x]; intros [= _ _].
Qed.

Lemma finish_settled p r o p' r' : (rq_marked r = true -> is_Some (snapshot_scope r)) ->
  _mark_request_finished p r = (p', r') -> settled (at_pc (Ended o) r').
Proof.
  intros M. unfold _mark_request_finished. destruct (snapshot_scope r) as [i|]; intros [= <- <-]; split; try done.
  intros _. simpl. destruct (rq_marked r); [|done]. by destruct (M eq_refl).
Qed.

Lemma stream_error_settled p r u t p' r' : classifiable (u_status u) (u_content u) = true ->
  stream_error write_error p r u t = (p', r') -> settled r'.
Proof.
  intros K. unfold stream_error. destruct (on_error write_error p r u t) as [p1 [a|e]] eqn:E; intros [= <- <-]; [done|].
  apply on_error_raises in E. congruence.
Qed.

Lemma plain_settled p r u p' r' : (rq_marked r = true -> is_Some (snapshot_scope r)) ->
  plain_reply write_error p r u = (p', r') -> settled r'.
Proof.
  intros M. unfold plain_reply. destruct (if (400 <=? u_status u)%Z then _ else _) as [p1 a].
  destruct (_mark_request_finished p1 r) as [p2 r2] eqn:F. intros [= <- <-]. by apply (finish_settled p1 r _ p2).
Qed.

Lemma step_settled p j r n p' r' : requests p !! j = Some r -> ok_request r -> settled r ->
  (rq_marked r = true -> is_Some (snapshot_scope r)) -> calm p (ENews j n) = true ->
  request_step write_error p r n = Some (p', r') -> settled r'.
Proof.
  intros L O [S _] M. unfold calm, request_step. rewrite L. unfold ok_request in O.
  destruct (rq_pc r) as [| |st h|st h buffer|st h first chunks|o|o] eqn:P; destruct n as [|u|b|[c|]| |e]; try done.
  - intros _. destruct (_resume_event p); [|done]. intros [= E]. apply (enter_settled p r p' r'); auto.
  - intros _ [= <- <-]. split; [done|]. intros _. simpl. by injection O as _ ->.
  - intros _ [= E]. destruct (p_streaming _); [|by apply plain_settled in E].
    injection E as <- <-. by destruct (400 <=? u_status u)%Z.
  - intros _. destruct (_mark_request_finished p r) as [p1 r1] eqn:E. intros [= <- <-]. by apply (finish_settled p r _ p1).
  - intros K [= E]. by apply stream_error_settled in E.
  - destruct (prelude_chunk buffer c) as [[first [[es eb]|]]|kept].
    + intros K [= E]. by apply stream_error_settled in E.
    + by intros _ [= <- <-].
    + by intros _ [= <- <-].
  - by intros _ [= <- <-].
  - by intros _ [= <- <-].
  - by intros _ [= <- <-].
  - by intros _ [= <- <-].
  - by intros _ [= <- <-].
  - intros _. destruct (_mark_request_finished p r) as [p1 r1] eqn:E. intros [= <- <-]. by apply (finish_settled p r _ p1).
Qed.

Lemma handle_settled p method path query h body : calm p (ERequest method path query h body) = true ->
  Forall settled (requests p) -> Forall settled (requests (_handle_proxy method path query h body p)).
Proof.
  intros K F. unfold _handle_proxy. simpl in K. destruct (prepare _ body) as [pr|e].
  - destruct (enter p _) as [p1 r1] eqn:E. simpl.
    assert (Q : requests p1 = requests p).
    { revert E. unfold enter. simpl. destruct (is_model_request _).
      - unfold _enter_chat_request. repeat case_match; simplify_eq; intros E; simplify_eq; try done;
          by apply forward_quiet in E as ((_ & _ & -> & _) & _).
      - intros E. by apply forward_quiet in E as ((_ & _ & -> & _) & _). }
    rewrite Q. apply Forall_app. split; [done|]. constructor; [|done].
    by apply (enter_settled p _ p1 r1) in E.
  - simpl. apply Forall_app. split; [done|]. by repeat constructor.
Qed.

Lemma marked_scope p j r : accounted p -> requests p !! j = Some r -> rq_marked r = true -> is_Some (snapshot_scope r).
Proof.
  intros ([_ K] & _ & _) L M. rewrite Forall_forall in K.
  destruct (K (core_of r)) as [K1 _]; [apply list_elem_of_In, in_map, list_elem_of_In; by eapply list_elem_of_lookup_2|].
  destruct (K1 M) as (sn & i & Hs & Hi & _). exists i. unfold snapshot_scope. simpl in Hs. by rewrite Hs.
Qed.

Lemma event_settled p ev p' : accounted p -> Forall settled (requests p) -> calm p ev = true ->
  apply_event write_error p ev = Some p' -> Forall settled (requests p').
Proof.
  intros A F K. destruct ev as [m path q h b|j n|id backend|backend| |reason now|version now|k]; simpl.
  - intros [= <-]. by apply handle_settled.
  - destruct (requests p !! j) as [r|] eqn:L; [|done].
    destruct (request_step write_error p r n) as [[p1 r1]|] eqn:E; [|done]. intros [= <-].
    pose proof A as (_ & O & W). pose proof (Forall_lookup_1 _ _ _ _ O L) as Or.
    pose proof (step_goes write_error p r n p1 r1 Or W E) as (_ & _ & Q & _). simpl. rewrite Q.
    apply Forall_insert; [done|].
    apply (step_settled p j r n p1 r1 L Or (Forall_lookup_1 _ _ _ _ F L) (marked_scope p j r A L) K E).
  - intros [= <-]. unfold open_turn. by destruct (_turn_scope p).
  - intros [= <-]. unfold update_turn_backend_session, on_turn. by destruct (_turn_scope p).
  - by intros [= <-].
  - by intros [= <-].
  - by intros [= <-].
  - intros [= <-]. unfold consume_error. destruct (_ ≫= error_of k); [|done]. simpl. unfold on_turn.
    by destruct (_turn_scope p).
Qed.

Lemma run_settled evs : forall p p', accounted p -> Forall settled (requests p) -> calm_run p evs = true ->
  run_events write_error p evs = Some p' -> accounted p' /\ Forall settled (requests p').
Proof.
  induction evs as [|ev evs IH]; intros p p' A F K; simpl; [by intros [= <-]|].
  simpl in K. apply andb_true_iff in K as [K1 K2].
  destruct (apply_event write_error p ev) as [p1|] eqn:E; [|done].
  apply IH; [by eapply event_accounted|by eapply event_settled|done].
Qed.

(** A request of a turn that has not ended. *)
Definition in_flight (i : nat) (r : request) : bool := bool_decide (snapshot_scope r = Some i) && negb (has_ended r).

Lemma marked_in_flight i r : ok_request r -> settled r ->
  rq_marked r && bool_decide (snapshot_scope r = Some i) = in_flight i r.
Proof.
  intros O [_ S]. unfold in_flight, has_ended, ok_request in *.
  destruct (bool_decide (snapshot_scope r = Some i)) eqn:B; [|by rewrite andb_false_r].
  apply bool_decide_eq_true_1 in B. rewrite andb_true_r. simpl.
  destruct (rq_pc r); simpl; try (by eapply O); [|by apply S].
  unfold snapshot_scope in B. injection O as O _. by rewrite O in B.
Qed.

(** C20: unless an exception is raised where the proxy does not catch it, a turn counts exactly
    its requests that have not ended, so that draining it waits for those and for nothing else. *)
Theorem turn_drains (c : proxy_config) (evs : list event) (p0 p : proxy)
    (Hinit : RolloutLLMProxy__init__ c = Ok p0) (Hcalm : calm_run p0 evs = true)
    (Hrun : run_events write_error p0 evs = Some p) :
  forall i s, scopes p !! i = Some s ->
    inflight_requests s = count_by (in_flight i) (requests p)
    /\ (drained s = true <-> forall r, r ∈ requests p -> snapshot_scope r = Some i -> has_ended r = true).
Proof.
  assert (F0 : Forall settled (requests p0)).
  { unfold RolloutLLMProxy__init__ in Hinit. destruct (init_config c); [|done]. injection Hinit as <-. constructor. }
  destruct (run_settled evs p0 p (init_accounted c p0 Hinit) F0 Hcalm Hrun) as (([T _] & O & _) & F).
  intros i s Hs. destruct (T i (tally_of s)) as (I & D & _).
  { unfold tallies. by rewrite list_lookup_fmap, Hs. }
  assert (C : inflight_requests s = count_by (in_flight i) (requests p)).
  { unfold inflight, tally_of in I. simpl in I. rewrite I, count_by_core. apply count_by_ext_in.
    intros r Hr. rewrite Forall_forall in O, F. apply marked_in_flight; auto. }
  split; [exact C|]. change (drained s = (inflight_requests s =? 0)%nat) in D. rewrite D, Nat.eqb_eq, C.
  rewrite count_by_zero. split; intros K r Hr.
  - intros S. specialize (K r Hr). unfold in_flight in K. rewrite bool_decide_true in K by done. by destruct (has_ended r).
  - unfold in_flight. destruct (bool_decide _) eqn:B; [|done]. apply bool_decide_eq_true_1 in B. by rewrite (K r Hr B).
Qed.
End Draining.

(** ** A request that is never discounted *)

Section Leaks.
Context `{PyText}.
Variable write_error : option string -> nat -> option string.

Lemma request_step_requests p r n p' r' : request_step write_error p r n = Some (p', r') ->
  (forall i, _turn_scope p = Some i -> (i < length (scopes p))%nat) -> ok_request r -> requests p' = requests p.
Proof. intros E W O. apply step_goes in E; [|done|done]. apply E. Qed.

Lemma event_keeps_ended p ev p' j r o : accounted p -> requests p !! j = Some r -> rq_pc r = Ended o ->
  apply_event write_error p ev = Some p' -> requests p' !! j = Some r.
Proof.
  intros A L P. destruct ev as [m path q h b|k n|id backend|backend| |reason now|version now|k]; simpl.
  - intros [= <-]. unfold _handle_proxy. destruct (prepare _ b) as [pr|e]; [|by apply lookup_app_l_Some].
    destruct (enter p _) as [p1 r1] eqn:E. apply enter_goes in E as (_ & _ & Q & _); [|done|apply A].
    simpl. rewrite Q. by apply lookup_app_l_Some.
  - destruct (requests p !! k) as [rk|] eqn:Lk; [|done].
    destruct (request_step write_error p rk n) as [[p1 r1]|] eqn:E; [|done]. intros [= <-]. simpl.
    pose proof A as (_ & O & W). rewrite (request_step_requests _ _ _ _ _ E W) by (by eapply Forall_lookup_1).
    destruct (decide (k = j)) as [->|N]; [|by rewrite list_lookup_insert_ne].
    exfalso. unfold request_step in E. assert (rk = r) as -> by congruence. rewrite P in E. by destruct n.
  - intros [= <-]. unfold open_turn. by destruct (_turn_scope p).
  - intros [= <-]. unfold update_turn_backend_session, on_turn. by destruct (_turn_scope p).
  - by intros [= <-].
  - by intros [= <-].
  - by intros [= <-].
  - intros [= <-]. unfold consume_error. destruct (_ ≫= error_of k); [|done]. simpl. unfold on_turn.
    by destruct (_turn_scope p).
Qed.

(** A request that ended without being discounted keeps its turn from being drained, whatever
    happens later. *)
Lemma never_drains evs : forall p p' j r o i, accounted p -> requests p !! j = Some r -> rq_pc r = Ended o ->
  rq_marked r = true -> snapshot_scope r = Some i -> run_events write_error p evs = Some p' ->
  forall s, scopes p' !! i = Some s -> drained s = false.
Proof.
  induction evs as [|ev evs IH]; intros p p' j r o i A L P M S; simpl.
  - intros [= <-] s Hs. destruct A as ([T _] & _ & _). destruct (T i (tally_of s)) as (I & D & _).
    { unfold tallies. by rewrite list_lookup_fmap, Hs. }
    change (drained s = (inflight (tally_of s) =? 0)%nat) in D. rewrite D. apply Nat.eqb_neq.
    rewrite count_by_core in I.
    pose proof (count_by_pos (fun r => rq_marked r && bool_decide (snapshot_scope r = Some i)) _ j r L) as C.
    simpl in C. rewrite M, S, bool_decide_true in C by done. specialize (C eq_refl). lia.
  - destruct (apply_event write_error p ev) as [p1|] eqn:E; [|done]. intros R.
    apply (IH p1 p' j r o i); [by eapply event_accounted|by eapply event_keeps_ended|done|done|done|done].
Qed.
End Leaks.

(** ** The timeout of a drain *)

(** How long the proxy runs between two times. *)
Fixpoint running (now : Z) (pauses : list (Z * option Z)) (t : Z) : Z :=
  match pauses with
  | [] => Z.max 0 (t - now)
  | (s, e) :: pauses =>
      let s := Z.max now s in
      Z.max 0 (Z.min t s - now) + match e with
                                  | None => 0
                                  | Some e => if (t <=? e)%Z then 0 else running e pauses t
                                  end
  end%Z.

(** The pauses come one after another, none of them over. *)
Fixpoint in_sequence (now : Z) (pauses : list (Z * option Z)) : Prop :=
  match pauses with
  | [] => True
  | (s, None) :: pauses => pauses = []
  | (s, Some e) :: pauses => (now <= e)%Z /\ (s <= e)%Z /\ in_sequence e pauses
  end.

Definition drain_answer (drained_at : option Z) (now timeout : Z) (pauses : list (Z * option Z)) (r : drain_result)
    : Prop :=
  match r with
  | Drained t => exists d, drained_at = Some d /\ t = Z.max now d /\ (running now pauses t <= timeout)%Z
  | TimedOut t => (now <= t)%Z /\ running now pauses t = timeout /\ is_drained drained_at t = false
  | Blocked => drained_at = None
  end.

Lemma running_before pauses now t : (t <= now)%Z -> in_sequence now pauses -> running now pauses t = 0%Z.
Proof.
  revert now. induction pauses as [|[s [e|]] pauses IH]; intros now L S; simpl in *; [lia| |lia].
  rewrite (proj2 (Z.leb_le t e)) by lia. lia.
Qed.

(** A pause that is waited for to its end. *)
Lemma drain_answer_after drained_at now timeout s e pauses r : (s <= e)%Z -> (now <= e)%Z -> (0 <= timeout)%Z ->
  in_sequence e pauses -> is_drained drained_at e = false ->
  (Z.max now s <= now + timeout)%Z ->
  drain_answer drained_at e (now + timeout - Z.max now s) pauses r ->
  drain_answer drained_at now timeout ((s, Some e) :: pauses) r.
Proof.
  intros S N T Q D L. destruct r as [t|t|]; cbn [drain_answer running]; [| |done].
  - intros (d & -> & -> & R). exists d. simpl in D. apply Z.leb_gt in D.
    replace (Z.max now d) with (Z.max e d) by lia. split_and!; [done..|].
    rewrite (proj2 (Z.leb_gt (Z.max e d) e)) by lia. lia.
  - intros (Le & R & U). split_and!; [lia| |done]. destruct (Z.leb_spec t e).
    + replace t with e in * by lia. rewrite running_before in R by (done || lia). lia.
    + lia.
Qed.

(** An answer before the end of the first pause. *)
Lemma drain_answer_first drained_at now timeout s e pauses r : (0 <= timeout)%Z ->
  in_sequence now ((s, e) :: pauses) ->
  match r with
  | Drained t => exists d, drained_at = Some d /\ t = Z.max now d
                   /\ (Z.min t (Z.max now s) - now <= timeout)%Z /\ (forall e', e = Some e' -> t <= e')%Z
  | TimedOut t => (now <= t)%Z /\ (t <= Z.max now s)%Z /\ (t = now + timeout)%Z /\ is_drained drained_at t = false
  | Blocked => drained_at = None
  end -> drain_answer drained_at now timeout ((s, e) :: pauses) r.
Proof.
  intros T S. destruct r as [t|t|]; cbn [drain_answer running]; [| |done].
  - intros (d & -> & -> & R & B). exists d. split_and!; [done|done|].
    destruct e as [e|]; [rewrite (proj2 (Z.leb_le _ e)) by by apply B|]; lia.
  - intros (N & L & -> & U). split_and!; [lia| |done]. destruct e as [e|]; [|lia].
    simpl in S. destruct (Z.leb_spec (now + timeout) e); lia.
Qed.

Lemma wait_running_ok drained_at now timeout : (0 <= timeout)%Z ->
  drain_answer drained_at now timeout [] (wait_excluding drained_at now (now + timeout) []).
Proof.
  intros T. cbn [wait_excluding]. destruct (is_drained drained_at now) eqn:D;
    [|destruct (Z.leb_spec (now + timeout - now) 0);
      [|destruct (is_drained drained_at (now + timeout)) eqn:D2]]; simpl in *; [|by split_and!; [lia|lia|done]| |].
  - destruct drained_at as [d|]; [|done]. simpl in D. apply Z.leb_le in D. exists d. split_and!; [done|lia|lia].
  - destruct drained_at as [d|]; [|done]. simpl in *. apply Z.leb_le in D2. apply Z.leb_gt in D.
    exists d. split_and!; [done|lia|lia].
  - split_and!; [lia|lia|done].
Qed.

Lemma wait_excluding_ok drained_at pauses : forall now timeout, (0 <= timeout)%Z -> in_sequence now pauses ->
  drain_answer drained_at now timeout pauses (wait_excluding drained_at now (now + timeout) pauses).
Proof.
  induction pauses as [|[s e] pauses IH]; intros now timeout T S; [by apply wait_running_ok|].
  - cbn [wait_excluding]. destruct (is_drained drained_at now) eqn:D.
    { apply drain_answer_first; [done|done|]. destruct drained_at as [d|]; [|done]. simpl in D. apply Z.leb_le in D.
      exists d. split_and!; [done|lia|lia|]. intros e' ->. simpl in S. lia. }
    destruct ((now <? s)%Z && (now + timeout - now <=? 0)%Z) eqn:B1.
    { apply drain_answer_first; [done|done|]. apply andb_true_iff in B1 as [_ B1%Z.leb_le]. split_and!; [lia..|done]. }
    destruct ((now <? s)%Z && (now + timeout <=? s)%Z) eqn:B2.
    { apply drain_answer_first; [done|done|]. apply andb_true_iff in B2 as [B2%Z.ltb_lt B3%Z.leb_le].
      destruct (is_drained drained_at (now + timeout)) eqn:D2; [|split_and!; [lia..|done]].
      destruct drained_at as [d|]; [|done]. simpl in *. apply Z.leb_le in D2. apply Z.leb_gt in D.
      exists d. split_and!; [done|lia|lia|]. intros e' ->. simpl in S. lia. }
    assert (L : (Z.max now s <= now + timeout)%Z).
    { apply andb_false_iff in B2 as [B2|B2]; [apply Z.ltb_ge in B2|apply Z.leb_gt in B2]; lia. }
    destruct (is_drained drained_at (Z.max now s)) eqn:D2.
    { apply drain_answer_first; [done|done|]. destruct drained_at as [d|]; [|done]. simpl in *.
      apply Z.leb_le in D2. apply Z.leb_gt in D.
      exists d. split_and!; [done|lia|lia|]. intros e' ->. simpl in S. lia. }
    destruct e as [e|].
    + simpl in S. destruct S as (S1 & S2 & S3). destruct (is_drained drained_at e) eqn:D3.
      * apply drain_answer_first; [done|by simpl|]. destruct drained_at as [d|]; [|done]. simpl in *.
        apply Z.leb_le in D3. apply Z.leb_gt in D2. exists d. split_and!; [done|lia|lia|]. intros e' [= <-]. lia.
      * apply drain_answer_after; try done.
        replace (now + timeout + (e - Z.max now s))%Z with (e + (now + timeout - Z.max now s))%Z by lia.
        apply IH; [lia|done].
    + apply drain_answer_first; [done|done|]. destruct drained_at as [d|]; [|done]. simpl in D2. apply Z.leb_gt in D2.
      exists d. split_and!; [done|lia|lia|done].
Qed.

(** C26: draining a turn with a timeout never counts the time the proxy is paused: it gives up
    when the proxy has run for exactly the timeout and the turn is not drained, returns when the
    turn is drained within that much running time, and otherwise waits for ever only for a turn
    that is never drained; the pauses may begin at any time. *)
Theorem drain_excludes_pauses (drained_at : option Z) (now timeout : Z) (pauses : list (Z * option Z))
    (Htimeout : (0 <= timeout)%Z) (Hpauses : in_sequence now pauses) :
  match drain_turn drained_at now (Some timeout) pauses with
  | Drained t => exists d, drained_at = Some d /\ t = Z.max now d /\ (running now pauses t <= timeout)%Z
  | TimedOut t => (now <= t)%Z /\ running now pauses t = timeout /\ is_drained drained_at t = false
  | Blocked => drained_at = None
  end.
Proof. exact (wait_excluding_ok drained_at pauses now timeout Htimeout Hpauses). Qed.

(** A drain of 15 with a pause from 1 to 100: the turn is drained at 105. *)
Lemma drain_excludes_pauses_witness :
  drain_turn (Some 105%Z) 0 (Some 15%Z) [(1, Some 100)]%Z = Drained 105
  /\ (running 0 [(1, Some 100)] 105 <= 15)%Z.
Proof.
  assert (S : in_sequence 0 [(1, Some 100)]%Z) by (simpl; lia).
  destruct (drain_excludes_pauses (Some 105%Z) 0 15 [(1, Some 100)]%Z ltac:(lia) S) as (d & _ & _ & L).
  split; [reflexivity | exact L].
Defined.

(** ** Runs *)

#[local] Instance w_proxy_text : PyText := {| py_repr := fun _ => ""; py_parse_float := fun _ => None |}.

Definition w_no_error : option string -> nat -> option string := fun _ _ => None.

Definition w_proxy_config : proxy_config := {|
  upstream_origin := "http://up/"; router_api_path := "/v1/"; bound_session_id := "s1"; bound_instance_id := "i1";
  sticky_header_name := "X-Sticky"; bound_sandbox_id := None; max_steps := Some 2%Z; default_temperature := None;
  debug_log_dir := Some "/logs"; upstream_headers := [("Authorization", "secret")]; expected_version := Some "1";
  model_override := None; sampling_mode := None; sampling_temperature := None; sampling_top_p := None;
  sampling_seed_base := None |}.

Definition w_proxy_body (stream : bool) : string :=
  json_text (PDict [("messages", PList []); ("stream", PBool stream)]).

Definition w_request (stream : bool) : event :=
  ERequest "POST" "v1/chat/completions" "" [("x-session-id", "other")] (w_proxy_body stream).

Definition w_reply (status : Z) : news := Replied {| u_status := status; u_headers := []; u_content := "" |}.

(** Two requests, one of them streamed; a third waits through a pause and is above the limit. *)
Definition w_proxy_run : list event :=
  [EOpenTurn "t1" None; w_request false; w_request true; ENews 0 (w_reply 200); EPause "weight_update" 5;
   w_request false; ENews 1 (w_reply 200); ENews 1 (Chunk (Some (": ping" +:+ lf2 +:+ "data: x"))); EResume None 9;
   ENews 2 Resumed; ENews 1 (Chunk (Some lf2)); ENews 1 (Chunk None); ENews 1 Closed].

Definition w_proxy_start : proxy := initial_proxy
  match init_config w_proxy_config with Ok c => c | Raise _ => w_proxy_config end.
Definition w_proxy_end : proxy := default w_proxy_start (run_events w_no_error w_proxy_start w_proxy_run).

Lemma w_proxy_init : RolloutLLMProxy__init__ w_proxy_config = Ok w_proxy_start.
Proof. reflexivity. Qed.

Lemma w_proxy_runs : run_events w_no_error w_proxy_start w_proxy_run = Some w_proxy_end.
Proof. vm_compute. reflexivity. Qed.

Lemma w_proxy_calm : calm_run w_no_error w_proxy_start w_proxy_run = true.
Proof. vm_compute. reflexivity. Qed.

(** The scope of the turn, and how the requests ended. *)
Lemma w_proxy_scope : exists s, scopes w_proxy_end !! 0%nat = Some s
  /\ drained s = true /\ step_counter s = 2%nat /\ max_steps_exceeded s = true
  /\ map (fun r => match rq_pc r with Ended (Answered a) => a_status a | Ended (Streamed st _ _ _ _) => st | _ => 0%Z end)
         (requests w_proxy_end) = [200; 200; 429]%Z
  /\ map (fun r => match rq_sent r with Some (h, _) => values "x-session-id" h | None => [] end) (requests w_proxy_end)
     = [["s1"]; ["s1"]; []].
Proof. eexists. vm_compute. repeat split. Qed.

Lemma requests_accounted_witness :
  exists s, scopes w_proxy_end !! 0%nat = Some s /\ drained s = (inflight_requests s =? 0)%nat
    /\ within (max_steps (config w_proxy_end)) (step_counter s).
Proof.
  destruct w_proxy_scope as (s & Hs & _). exists s. split; [exact Hs|].
  destruct (requests_accounted w_no_error w_proxy_config w_proxy_run w_proxy_start w_proxy_end
              w_proxy_init w_proxy_runs 0%nat s Hs) as (_ & D & _ & W).
  split; [exact D | exact W].
Defined.

Lemma turn_drains_witness :
  exists s, scopes w_proxy_end !! 0%nat = Some s /\ inflight_requests s = count_by (in_flight 0) (requests w_proxy_end).
Proof.
  destruct w_proxy_scope as (s & Hs & _). exists s. split; [exact Hs|].
  destruct (turn_drains w_no_error w_proxy_config w_proxy_run w_proxy_start w_proxy_end
              w_proxy_init w_proxy_calm w_proxy_runs 0%nat s Hs) as [C _].
  exact C.
Defined.

(** The body of an error that cannot be read: the request ends and is never discounted, and the
    turn is not drained whatever happens later. *)
Definition w_unread_error : list event :=
  [EOpenTurn "t1" None; w_request true; ENews 0 (w_reply 500); ENews 0 (Failed (RuntimeError "ReadError"))].

Lemma unread_error_never_drains :
  exists p, run_events w_no_error w_proxy_start w_unread_error = Some p
    /\ forallb has_ended (requests p) = true
    /\ forall evs p', run_events w_no_error p evs = Some p' ->
         forall s, scopes p' !! 0%nat = Some s -> drained s = false.
Proof.
  destruct (run_events w_no_error w_proxy_start w_unread_error) as [p|] eqn:E; [|by vm_compute in E].
  exists p. split; [done|]. assert (A : accounted p).
  { apply (proxy_run_accounted w_no_error w_unread_error w_proxy_start p); [apply proxy_initial_accounted|exact E]. }
  vm_compute in E. injection E as <-. split; [reflexivity|].
  intros evs p' R. eapply (never_drains w_no_error evs _ p' 0%nat); [exact A|reflexivity..|exact R].
Qed.
